(* ===== verification/_CoqProject ===== *)
-Q . S2P
Prelude.v
JsNumber.v
JsString.v
NumExact.v
JsArray.v
JsValue.v
HelpersCore.v
HelpersMath.v
Color.v
Collections.v
Options.v
Resolver.v
Config.v
Easing.v
Animation.v
Layouts.v
Interaction.v
Canvas.v
Elements.v
Segments.v
Curve.v
LineElement.v
Filler.v
Decimation.v
Dataset.v
Controller.v
DataHolder.v
ElementOptions.v
Contexts.v
Chart.v
ChartEvents.v
Rendering.v
Dom.v
DomPlatform.v
Bar.v
Tooltip.v
Ticks.v
Scale.v
ScaleLayout.v
ScaleDrawing.v
Logarithmic.v
Radial.v
TimeScale.v
Controllers.v
ArcLegend.v
BarController.v
Legend.v
TooltipPlugin.v
Registry.v
Bundle.v
WebUI.v
Dashboard.v
Broker.v
Packets.v
BrokerDemo.v
BrokerFacts.v
BrokerQos2.v
PacketsFacts.v
BrokerRuns.v
Statistics.v
Rest.v
