(* ===== verification/Prelude.v ===== *)
(** The dashboard of nioev-mqtt: a verification library.

    The program is an MQTT broker (C++, under src/src) with a dashboard (JavaScript and
    Svelte, under src/webui).  The implementation in JavaScript is the dashboard's own code,
    src/webui/src, and the charting library it ships, src/webui/public/chart.js (Chart.js
    3.7.0 with its animation, colour and option machinery).  The library models that code, and
    of the C++ the core of the broker and its packets.

    ** How the parts of chart.js work together

    A [Chart] owns a canvas.  Its [Config] completes the user's options from the defaults
    and answers option lookups through proxies over lists of scopes.  [Chart.update] keeps
    one meta and one controller per dataset and one scale per scale option; controllers
    parse the data, follow changes of the data array, and share resolved options among
    their elements; the layout places scales around the chart area; animations move the
    elements to their new properties frame by frame; [Chart.draw] draws layers and datasets
    in order.  Events are looked up against the elements and change which are active.
    Plugins (decimation, filler, legend, title, tooltip) hook into these steps.

    ** Files, and the code they model (line numbers are in PROJECT.json)

    Foundations
    - JsNumber.v, JsString.v, NumExact.v, JsArray.v, JsValue.v: the language.  Numbers are
      binary64, computed exactly as ECMAScript rounds; strings and regular expressions;
      stable sort; values as trees.  Functions whose result ECMAScript leaves to the engine
      ([Math.sin], [Math.pow], ...) are the class [MathLib], a parameter of what uses them.
    - HelpersCore.v, HelpersMath.v, Collections.v, Options.v, Color.v: the helper functions
      (merge, clone, keys, [Defaults]; numbers and angles; searches and array listeners;
      paddings, fonts, text widths; colours).
    Options
    - Resolver.v: the proxies of [_createResolver] and [_attachContext] over a heap.
    - Config.v: [mergeScaleConfig] and [Config] with its caches.
    - Contexts.v: the contexts that scriptable options get, chained and kept with their owners.
    Movement and geometry
    - Easing.v, Animation.v: easing functions; [throttled], [debounce], [Animation],
      [Animations] and [Animator] over a store shared by reference.
    - Layouts.v: the boxes around the chart area.
    - Interaction.v: the elements under an event.
    Drawing
    - Canvas.v: the canvas helpers as lists of commands; what such a list paints on a canvas.
    - Elements.v, LineElement.v: points, bars, arcs and lines.
    - Segments.v, Curve.v: the segments of a line, control points, text direction.
    - Filler.v, Decimation.v, Legend.v (legend, title and subtitle), Tooltip.v (its geometry)
      and TooltipPlugin.v (its items, texts, events and drawing): plugins.
    Data and charts
    - Dataset.v, Controller.v, ElementOptions.v: [DatasetController]: parsing, stacks and
      ranges; elements that follow the data; linked scales and shared options.
    - DataHolder.v: several controllers of that kind and the arrays they listen to.
    - Bar.v, BarController.v: [BarController]: stacks and pixels; elements, labels, drawing.
    - Controllers.v: the line, bubble, doughnut, polar area and radar controllers;
      ArcLegend.v: their legend items, clicks and labels.
    - Ticks.v: number formats and their cache, the default tick formatters.
    - Scale.v: tick skipping, pixels of the base class, category and linear scales.
    - ScaleLayout.v, ScaleDrawing.v: [Scale.update] with label sizes, rotation and fitting;
      the grid lines, labels and title of a scale and its layers.
    - Logarithmic.v, Radial.v, TimeScale.v: the other scales.
    - Chart.v, ChartEvents.v, Rendering.v: the [Chart] class: metas, controllers and scales;
      hover and hidden data; the order of updating and drawing.
    - Dom.v, DomPlatform.v: sizes, positions and listeners of the browser; the canvas as it is
      taken and given back, the observers.
    - Registry.v: the component registry and the plugin service.
    - Bundle.v: the defaults and the components that chart.js brings along.
    The dashboard
    - WebUI.v: Utils.js, the data of Overview.svelte, the requests and lists of Scripts.svelte.
    - Dashboard.v: App.svelte, Edit.svelte, the pages of Overview.svelte and Scripts.svelte over
      time, and Utils.js when requests fail.

    The broker
    - Broker.v: ApplicationState.cpp with the connections and the packet handler, as a
      transition system ([react], [reachable]) over stores of clients and sessions.
    - Packets.v: packets as they are built, cut and sent, and the receiver's machine.
    - BrokerFacts.v, BrokerQos2.v, PacketsFacts.v: theorems.  BrokerDemo.v: a library to run
      the broker with.  BrokerRuns.v: runs of it, most of them findings.
    - Statistics.v: the histograms of Statistics.cpp and what StatisticsConverter.cpp gives of
      them to the dashboard.  Rest.v: the handlers and web sockets of REST.cpp.

    How they meet: the receiver ([receive_loop]) hands packets to [handlePacketReceived],
    which acts at once (acknowledgements, [publish]) or requests a change ([requestChange]);
    the worker ([work]) executes requests with the mutex held and drains what they request
    themselves; [cleanup_expire] logs silent clients out and, when something was given up,
    [sweep] deletes what nothing refers to, in a step of its own since the mutex is released in
    between.  What [sendData] of Broker.v notes as sent is what Packets.v turns into bytes.

    A file has a Module of definitions per component and a Module [...Facts] of theorems.
    Definitions keep the names of the source; [name_1] is the bundle's [name$1].  State the
    code mutates is a record that operations return; where objects are shared (animations,
    options, metas) they live in a store and are referred to by number.  A TypeError or an
    exception is a [None], an error value, or a flag of the state ([thrown] of Controller.v,
    whose arrays can have holes and properties below 0, as those of JavaScript).

    ** What the theorems show

    - Invariants over all sequences of operations: a frame is requested exactly while
      animations run; one element and one parsed item per datum after any change of the
      data with indices in range; one meta per dataset; the listeners installed in the
      browser are those recorded;
      hovered elements are the active ones; a controller listens to the array it holds; the
      tiles of the script list send requests for the script they show; plugins are started and
      stopped in turn; elements made active by
      a call stay.  In the broker, over all interleavings of its threads' steps: clients and
      sessions belong together, and what a queued request refers to is not deleted.
    - The broker's deliveries: who gets a message, what a returning client gets, QoS 2 once;
      the internal queue is drained; packets go out whole and in order, a builder's caches
      do not show, and what was published arrives however the bytes are cut; the graphs of
      the dashboard show the packets that the broker counted.
    - Refinement and equivalence: changes of an array in place reach each controller that
      holds it, whose elements follow their data at its next update; elements follow their
      data through any noted change; the fast path of a line keeps what the plain path
      shows; legend items are drawn where they are hit; the
      caches of options, label sizes and number formats do not show; the depth given to the
      call stack does not matter.
    - Functional behaviour: segments, lookups, nearest elements, option and scope order,
      what a scale paints and in which order, what a scriptable option reads of its datum,
      the limits of a time scale, stacked bars and arcs that meet, visibility.
    - Termination: updates of scales, time and logarithmic ticks, fitting of boxes, fill
      targets, fallbacks of scopes, animations.
    - Safety, errors and bounds: elements and tooltips give the canvas legal commands, and
      they and scales restore what they save; no point under the maximum is left out; kept
      peaks; no
      prototype pollution; one chart per canvas; a failed callback locks its option.
    - Round trips: colours, options set and deleted through proxies, a canvas that is taken
      and released.

    Where a theorem is about binary64 sums it asks for whole numbers below a bound; such
    sums are exact ([NumExact]).

    ** Fuel and bounds

    [ops_at] has the depth of nested proxy calls, and [deeper_same] shows a larger one
    changes nothing.  [resolve_loop] of Filler.v gets two rounds more than there are
    sources, which always suffices ([fill_targets_visible]).  Binary searches halve and get
    the length of their table; they are about tables of at most 2^30 entries, since indices
    pass through 32-bit operations.  [fitBoxes] is the code's own recursion, which ends in
    two passes for boxes of a fixed size.  Tick loops take a fuel that their theorems bound.
    [drain] of Broker.v gets twice the length of the queue, since a request adds one at most
    that adds none ([queue_drained]); [receive_loop] gets two rounds for each byte, which
    [frames_found] shows to be enough.  The scope loop of the resolver can run for ever (a
    finding); [fallbacks_end] says when it does not.  A property of a context is looked up
    through at most as many prototypes as there are contexts.  The loop that appends intervals
    gets the steps that its end needs ([ensure_spec]).

    ** Not modelled, and why

    - The exports of the bundle.  In Bundle.v a function among the options is a name; what
      those do that have a body is with their components (ArcLegend.v, Legend.v,
      TooltipPlugin.v, Ticks.v).
    - The browser: [Intl.NumberFormat] is locale data, texts are measured by the canvas, DOM
      objects are records with what the code reads of them.  Date adapters are supplied by
      the user; the bundle only has an abstract one that throws.
    - Of the broker: sockets, epoll, signals and locks (the steps of the model are the
      sections that hold the mutex; a handler of a packet is one step), the HTTP library, the
      texts of its JSON, the database, the script engines (subscribers of which only what they
      get is kept), the sleep levels of the worker and their samples.  nioev/lib is a
      submodule that is not in the repository: its subscription tree, decoder, encoders and
      property lists are the classes [NioevLib] and [EncoderLib].
    - Svelte's rendering, the transitions and styles of the pages, and the third-party editor,
      which is a function on texts. *)
From Stdlib Require Import ZArith Lia Bool List.
From stdpp Require Import base list.

(** Boolean tests of the source become propositions. *)
Ltac bool_to_prop :=
  repeat match goal with
  | H : _ && _ = true |- _ => apply andb_true_iff in H as [? ?]
  | H : _ || _ = false |- _ => apply orb_false_iff in H as [? ?]
  | H : negb _ = true |- _ => apply negb_true_iff in H
  | H : negb _ = false |- _ => apply negb_false_iff in H
  | H : (_ <=? _)%Z = true |- _ => apply Z.leb_le in H
  | H : (_ <=? _)%Z = false |- _ => apply Z.leb_gt in H
  | H : (_ <? _)%Z = true |- _ => apply Z.ltb_lt in H
  | H : (_ <? _)%Z = false |- _ => apply Z.ltb_ge in H
  | H : (_ =? _)%Z = true |- _ => apply Z.eqb_eq in H
  | H : (_ =? _)%Z = false |- _ => apply Z.eqb_neq in H
  end.

(** Case analysis on the tests and matches of the goal. *)
Ltac split_ifs :=
  repeat match goal with
  | |- context [if ?b then _ else _] => destruct b eqn:?
  end.

#[global] Create HintDb jsdb.
