(* ===== verification/JsNumber.v ===== *)
(** JavaScript numbers.

    A [num] is an IEEE-754 binary64 value of the Standard Library's
    [SpecFloat] (sign, mantissa, exponent, the two infinities, the two zeros
    and NaN).  The operations are the ones of ECMAScript: correctly rounded
    arithmetic, the partial order of [<] and [<=] in which NaN compares false,
    [Math.min] and [Math.max] with their treatment of NaN and of signed zeros,
    [%], [Math.floor] and its relatives, and the 32-bit conversion behind
    [|], [&], [>>] and [<<].  Functions ECMAScript leaves to the implementation
    ([Math.sin], [Math.pow], ...) are the operations of the class [MathLib].

    The theory part has the order (a linear order on the numbers that are not
    NaN) and the exactness of the integer operations below 2^53. *)
From Stdlib Require Import ZArith Lia Bool List.
From Stdlib Require Import SpecFloat.
From stdpp Require Import base.
From S2P Require Import Prelude.
Open Scope Z_scope.

Declare Scope js_scope.
Delimit Scope js_scope with js.

Abbreviation num := spec_float.
Bind Scope js_scope with spec_float.

Module Num.

Definition nan : num := S754_nan.
Definition infinity : num := S754_infinity false.

(** ** Conversions *)

(** The number nearest to [m * 10^e] (a decimal literal of the source). *)
Definition of_decimal (m e : Z) : num :=
  if m =? 0 then S754_zero false
  else if 0 <=? e then binary_normalize 53 1024 (m * 10 ^ e) 0 false
  else let '(q, ex, l) := SFdiv_core_binary 53 1024 (Z.abs m) 0 (10 ^ (- e)) 0 in
       binary_round_aux 53 1024 (m <? 0) q ex l.

(** The number nearest to an integer: exact below 2^53. *)
Definition of_Z (n : Z) : num := binary_normalize 53 1024 n 0 false.
Definition of_nat (n : nat) : num := of_Z (Z.of_nat n).

Definition of_number (n : Number.number) : option num :=
  match n with
  | Number.Decimal d =>
      let '(i, f, e) := match d with
        | Decimal.Decimal i f => (i, f, 0)
        | Decimal.DecimalExp i f e => (i, f, Z.of_int e)
        end in
      Some (of_decimal (Z.of_int (Decimal.app_int i f))
              (e - Z.of_nat (Decimal.nb_digits f)))
  | Number.Hexadecimal _ => None
  end.
Definition to_number (x : num) : option Number.number := None.

(** The integer part toward zero, 0 for NaN and the infinities. *)
Definition trunc_Z (x : num) : Z :=
  match x with
  | S754_finite s m e =>
      let a := if 0 <=? e then Z.shiftl (Zpos m) e else Z.shiftr (Zpos m) (- e) in
      cond_Zopp s a
  | _ => 0
  end.

(** ToInt32: the integer part modulo 2^32 as a signed 32-bit value. *)
Definition wrap32 (n : Z) : Z := (n + 2 ^ 31) mod 2 ^ 32 - 2 ^ 31.
Definition to_int32 (x : num) : Z := wrap32 (trunc_Z x).

(** ** Arithmetic and comparison *)

Definition add : num -> num -> num := SFadd 53 1024.
Definition sub : num -> num -> num := SFsub 53 1024.
Definition mul : num -> num -> num := SFmul 53 1024.
Definition div : num -> num -> num := SFdiv 53 1024.
Definition opp : num -> num := SFopp.
Definition abs : num -> num := SFabs.
Definition sqrt : num -> num := SFsqrt 53 1024.

Definition lt (x y : num) : bool := SFltb x y.
Definition le (x y : num) : bool := SFleb x y.
Definition eq (x y : num) : bool := SFeqb x y.

Definition is_nan (x : num) : bool := match x with S754_nan => true | _ => false end.
Definition is_finite (x : num) : bool :=
  match x with S754_zero _ | S754_finite _ _ _ => true | _ => false end.

(** [Math.max] and [Math.min] of two arguments. *)
Definition max (x y : num) : num :=
  match SFcompare x y with
  | None => nan
  | Some Lt => y
  | Some Gt => x
  | Some Eq => match x with S754_zero true => y | _ => x end
  end.

Definition min (x y : num) : num :=
  match SFcompare x y with
  | None => nan
  | Some Lt => x
  | Some Gt => y
  | Some Eq => match x with S754_zero false => y | _ => x end
  end.

(** The remainder operator: exact, with the sign of the dividend. *)
Definition rem (x y : num) : num :=
  match x, y with
  | S754_nan, _ | _, S754_nan | S754_infinity _, _ | _, S754_zero _ => nan
  | _, S754_infinity _ => x
  | S754_zero _, _ => x
  | S754_finite sx mx ex, S754_finite _ my ey =>
      let ez := Z.min ex ey in
      let r := Z.modulo (Z.shiftl (Zpos mx) (ex - ez)) (Z.shiftl (Zpos my) (ey - ez)) in
      if r =? 0 then S754_zero sx
      else binary_normalize 53 1024 (cond_Zopp sx r) ez sx
  end.

Definition floor (x : num) : num :=
  match x with
  | S754_finite s m e =>
      if 0 <=? e then x
      else of_Z (Z.shiftr (cond_Zopp s (Zpos m)) (- e))
  | _ => x
  end.

Definition ceil (x : num) : num := opp (floor (opp x)).

(** [Math.round]: ties toward positive infinity. *)
Definition round (x : num) : num :=
  match x with
  | S754_finite s m e =>
      if 0 <=? e then x
      else
        let q := Z.shiftr (2 * cond_Zopp s (Zpos m) + 2 ^ (- e)) (- e + 1) in
        if q =? 0 then S754_zero s else of_Z q
  | _ => x
  end.

Definition trunc (x : num) : num :=
  match x with
  | S754_finite s m e =>
      if 0 <=? e then x
      else let q := trunc_Z x in if q =? 0 then S754_zero s else of_Z q
  | _ => x
  end.

Definition sign (x : num) : num :=
  match x with
  | S754_finite s _ _ | S754_infinity s => of_Z (if s then -1 else 1)
  | _ => x
  end.

End Num.

Number Notation spec_float Num.of_number Num.to_number : js_scope.
Infix "+" := Num.add : js_scope.
Infix "-" := Num.sub : js_scope.
Infix "*" := Num.mul : js_scope.
Infix "/" := Num.div : js_scope.
Notation "- x" := (Num.opp x) : js_scope.
Infix "<?" := Num.lt : js_scope.
Infix "<=?" := Num.le : js_scope.
Infix "=?" := Num.eq : js_scope.
Notation "x >? y" := (Num.lt y x) (only parsing) : js_scope.
Notation "x >=? y" := (Num.le y x) (only parsing) : js_scope.
Infix "mod" := Num.rem : js_scope.

(** The functions ECMAScript calls implementation-approximated, with the
    special cases the specification fixes and the code relies on. *)
Class MathLib := {
  math_pow : num -> num -> num;
  math_log10 : num -> num;
  math_sin : num -> num;
  math_cos : num -> num;
  math_atan2 : num -> num -> num;
}.

(** ** Order theory *)

Module NumFacts.
Import Num.

(** A number that is not NaN as a triple of integers ordered
    lexicographically: the class (-2 for minus infinity up to 2 for plus
    infinity), the signed exponent and the signed mantissa. *)
Definition key (x : num) : Z * Z * Z :=
  match x with
  | S754_nan => (0, 0, 0)
  | S754_zero _ => (0, 0, 0)
  | S754_infinity s => (if s then -2 else 2, 0, 0)
  | S754_finite false m e => (1, e, Zpos m)
  | S754_finite true m e => (-1, - e, Zneg m)
  end.

Definition klt (a b : Z * Z * Z) : Prop :=
  let '(a1, a2, a3) := a in let '(b1, b2, b3) := b in
  a1 < b1 \/ (a1 = b1 /\ (a2 < b2 \/ (a2 = b2 /\ a3 < b3))).

Definition keq (a b : Z * Z * Z) : Prop :=
  let '(a1, a2, a3) := a in let '(b1, b2, b3) := b in a1 = b1 /\ a2 = b2 /\ a3 = b3.

Lemma compare_key x y :
  match SFcompare x y with
  | None => is_nan x = true \/ is_nan y = true
  | Some Lt => klt (key x) (key y) /\ is_nan x = false /\ is_nan y = false
  | Some Eq => keq (key x) (key y) /\ is_nan x = false /\ is_nan y = false
  | Some Gt => klt (key y) (key x) /\ is_nan x = false /\ is_nan y = false
  end.
Proof.
  destruct x as [sx|sx| |sx mx ex], y as [sy|sy| |sy my ey]; simpl;
    try destruct sx; try destruct sy; simpl; try lia; auto.
  - destruct (Z.compare_spec ex ey); simpl; try lia.
    change (Pos.compare_cont Eq mx my) with (Pos.compare mx my).
    destruct (Pos.compare_spec mx my); simpl; lia.
  - destruct (Z.compare_spec ex ey); simpl; try lia.
    change (Pos.compare_cont Eq mx my) with (Pos.compare mx my).
    destruct (Pos.compare_spec mx my); simpl; lia.
Qed.

Lemma lt_iff x y :
  lt x y = true <-> is_nan x = false /\ is_nan y = false /\ klt (key x) (key y).
Proof.
  unfold lt, SFltb. pose proof (compare_key x y) as H.
  destruct (key x) as [[a1 a2] a3], (key y) as [[b1 b2] b3]; simpl in *.
  destruct (SFcompare x y) as [[]|]; split; intros; try congruence; try (destruct H as [H|H]; intuition congruence); intuition lia.
Qed.

Lemma le_iff x y :
  le x y = true <-> is_nan x = false /\ is_nan y = false /\ ~ klt (key y) (key x).
Proof.
  unfold le, SFleb. pose proof (compare_key x y) as H.
  destruct (key x) as [[a1 a2] a3], (key y) as [[b1 b2] b3]; simpl in *.
  destruct (SFcompare x y) as [[]|]; split; intros; try congruence; try (destruct H as [H|H]; intuition congruence); intuition lia.
Qed.

Lemma eq_iff x y :
  eq x y = true <-> is_nan x = false /\ is_nan y = false /\ keq (key x) (key y).
Proof.
  unfold eq, SFeqb. pose proof (compare_key x y) as H.
  destruct (key x) as [[a1 a2] a3], (key y) as [[b1 b2] b3]; simpl in *.
  destruct (SFcompare x y) as [[]|]; split; intros; try congruence; try (destruct H as [H|H]; intuition congruence); intuition lia.
Qed.

Lemma bool_false_iff (b : bool) : b = false <-> ~ b = true.
Proof. destruct b; intuition congruence. Qed.

Ltac abstract_term t := let b := fresh "b" in set (b := t) in *; clearbody b.

(** [num_order] decides goals built from the comparisons of numbers. *)
Ltac num_order :=
  intros;
  repeat match goal with
  | H : _ && _ = true |- _ => apply andb_true_iff in H as [? ?]
  | H : _ || _ = false |- _ => apply orb_false_iff in H as [? ?]
  | H : negb _ = true |- _ => apply negb_true_iff in H
  | H : negb _ = false |- _ => apply negb_false_iff in H
  end;
  repeat match goal with
  | H : lt _ _ = false |- _ => rewrite bool_false_iff in H
  | H : le _ _ = false |- _ => rewrite bool_false_iff in H
  | H : eq _ _ = false |- _ => rewrite bool_false_iff in H
  | H : context [lt _ _ = true] |- _ => rewrite lt_iff in H
  | H : context [le _ _ = true] |- _ => rewrite le_iff in H
  | H : context [eq _ _ = true] |- _ => rewrite eq_iff in H
  | |- lt _ _ = false => rewrite bool_false_iff
  | |- le _ _ = false => rewrite bool_false_iff
  | |- eq _ _ = false => rewrite bool_false_iff
  | |- context [lt _ _ = true] => rewrite lt_iff
  | |- context [le _ _ = true] => rewrite le_iff
  | |- context [eq _ _ = true] => rewrite eq_iff
  end;
  cbn [is_nan key nan] in *;
  repeat match goal with
  | H : context [is_nan ?x] |- _ => abstract_term (is_nan x)
  | |- context [is_nan ?x] => abstract_term (is_nan x)
  end;
  repeat match goal with
  | H : context [key ?x] |- _ => abstract_term (key x)
  | |- context [key ?x] => abstract_term (key x)
  end;
  repeat match goal with
  | k : (Z * Z * Z)%type |- _ => destruct k as [[? ?] ?]
  end;
  unfold klt, keq in *; intuition (try congruence; try lia).

Lemma lt_trans x y z : lt x y = true -> lt y z = true -> lt x z = true.
Proof. num_order. Qed.
Lemma lt_le_trans x y z : lt x y = true -> le y z = true -> lt x z = true.
Proof. num_order. Qed.
Lemma le_lt_trans x y z : le x y = true -> lt y z = true -> lt x z = true.
Proof. num_order. Qed.
Lemma le_trans x y z : le x y = true -> le y z = true -> le x z = true.
Proof. num_order. Qed.
Lemma lt_irrefl x : lt x x = false.
Proof. num_order. Qed.
Lemma le_refl x : is_nan x = false -> le x x = true.
Proof. num_order. Qed.
Lemma lt_le x y : lt x y = true -> le x y = true.
Proof. num_order. Qed.
Lemma le_not_lt x y : is_nan x = false -> is_nan y = false -> le x y = negb (lt y x).
Proof. intros. destruct (le x y) eqn:?, (lt y x) eqn:?; simpl; auto; exfalso; num_order. Qed.
Lemma lt_not_le x y : lt x y = true -> le y x = false.
Proof. num_order. Qed.
Lemma le_antisym x y : le x y = true -> le y x = true -> eq x y = true.
Proof. num_order. Qed.
Lemma lt_nan_l x : lt nan x = false.
Proof. num_order. Qed.
Lemma lt_nan_r x : lt x nan = false.
Proof. destruct x; reflexivity. Qed.
Lemma le_notnan x y : le x y = true -> is_nan x = false /\ is_nan y = false.
Proof. num_order. Qed.
Lemma lt_notnan x y : lt x y = true -> is_nan x = false /\ is_nan y = false.
Proof. num_order. Qed.

(** ** Minimum and maximum *)

Lemma max_cases x y :
  is_nan x = false -> is_nan y = false ->
  (max x y = x /\ le y x = true) \/ (max x y = y /\ le x y = true).
Proof.
  intros Hx Hy. unfold max. pose proof (compare_key x y) as H.
  destruct (SFcompare x y) as [[]|].
  - assert (le x y = true) by num_order. assert (le y x = true) by num_order.
    destruct x as [[]| | |]; auto.
  - right; split; [reflexivity|num_order].
  - left; split; [reflexivity|num_order].
  - destruct H; congruence.
Qed.

Lemma min_cases x y :
  is_nan x = false -> is_nan y = false ->
  (min x y = x /\ le x y = true) \/ (min x y = y /\ le y x = true).
Proof.
  intros Hx Hy. unfold min. pose proof (compare_key x y) as H.
  destruct (SFcompare x y) as [[]|].
  - assert (le x y = true) by num_order. assert (le y x = true) by num_order.
    destruct x as [[]| | |]; auto.
  - left; split; [reflexivity|num_order].
  - right; split; [reflexivity|num_order].
  - destruct H; congruence.
Qed.

Lemma compare_nan x y :
  is_nan x = true \/ is_nan y = true -> SFcompare x y = None.
Proof. destruct x, y; simpl; intuition congruence. Qed.

Lemma is_nan_max x y : is_nan (max x y) = is_nan x || is_nan y.
Proof.
  destruct (is_nan x || is_nan y) eqn:E.
  - apply orb_true_iff in E. unfold max. now rewrite compare_nan.
  - apply orb_false_iff in E as [E1 E2].
    destruct (max_cases x y E1 E2) as [[-> _]|[-> _]]; auto.
Qed.

Lemma is_nan_min x y : is_nan (min x y) = is_nan x || is_nan y.
Proof.
  destruct (is_nan x || is_nan y) eqn:E.
  - apply orb_true_iff in E. unfold min. now rewrite compare_nan.
  - apply orb_false_iff in E as [E1 E2].
    destruct (min_cases x y E1 E2) as [[-> _]|[-> _]]; auto.
Qed.

Ltac minmax :=
  repeat match goal with
  | |- context [max ?x ?y] =>
      destruct (max_cases x y) as [[-> ?]|[-> ?]]; [first [assumption|num_order]..| |]
  | |- context [min ?x ?y] =>
      destruct (min_cases x y) as [[-> ?]|[-> ?]]; [first [assumption|num_order]..| |]
  end.

Lemma le_max_l x y : is_nan x = false -> is_nan y = false -> le x (max x y) = true.
Proof. intros. minmax; num_order. Qed.
Lemma le_max_r x y : is_nan x = false -> is_nan y = false -> le y (max x y) = true.
Proof. intros. minmax; num_order. Qed.
Lemma max_lub x y z : le x z = true -> le y z = true -> le (max x y) z = true.
Proof. intros. minmax; num_order. Qed.
Lemma min_le_l x y : is_nan x = false -> is_nan y = false -> le (min x y) x = true.
Proof. intros. minmax; num_order. Qed.
Lemma min_le_r x y : is_nan x = false -> is_nan y = false -> le (min x y) y = true.
Proof. intros. minmax; num_order. Qed.
Lemma min_glb x y z : le z x = true -> le z y = true -> le z (min x y) = true.
Proof. intros. minmax; num_order. Qed.

(** ** Exact integers *)
Definition d (p : positive) : Z := Zpos (digits2_pos p).

Lemma digits_bounds p : 2 ^ (d p - 1) <= Zpos p < 2 ^ d p.
Proof.
  unfold d. induction p; simpl digits2_pos.
  - rewrite Pos2Z.inj_succ. replace (Z.succ _ - 1) with (Z.succ (Z.pos (digits2_pos p) - 1)) by lia.
    rewrite !Z.pow_succ_r by lia. lia.
  - rewrite Pos2Z.inj_succ. replace (Z.succ _ - 1) with (Z.succ (Z.pos (digits2_pos p) - 1)) by lia.
    rewrite !Z.pow_succ_r by lia. lia.
  - simpl. lia.
Qed.

Lemma digits_unique p n : 0 <= n -> 2 ^ (n - 1) <= Zpos p < 2 ^ n -> d p = n.
Proof.
  intros Hn H. pose proof (digits_bounds p) as D. assert (1 <= d p) by (unfold d; lia).
  destruct (Z.lt_trichotomy (d p) n) as [L|[E|L]]; auto; exfalso.
  - assert (2 ^ d p <= 2 ^ (n - 1)) by (apply Z.pow_le_mono_r; lia). lia.
  - assert (2 ^ n <= 2 ^ (d p - 1)) by (apply Z.pow_le_mono_r; lia). lia.
Qed.

(** [p * 2^k] as a positive. *)
Definition shl_pos (p : positive) (k : nat) : positive := Nat.iter k xO p.

Lemma shl_pos_Z p k : Zpos (shl_pos p k) = Zpos p * 2 ^ Z.of_nat k.
Proof.
  induction k; simpl shl_pos; [lia|].
  rewrite Nat2Z.inj_succ, Z.pow_succ_r by lia. unfold shl_pos in *. simpl Nat.iter. lia.
Qed.

Lemma d_shl p k : d (shl_pos p k) = d p + Z.of_nat k.
Proof.
  induction k; unfold shl_pos in *; simpl Nat.iter; [lia|].
  unfold d in *. simpl digits2_pos. lia.
Qed.

Lemma shl_pos_add p j k : shl_pos p (j + k) = shl_pos (shl_pos p k) j.
Proof. unfold shl_pos. now rewrite Nat.iter_add. Qed.

Lemma iter_pos_nat {A} (f : A -> A) n x : SpecFloat.iter_pos f n x = Nat.iter (Pos.to_nat n) f x.
Proof.
  revert x. induction n; intros x; cbn [SpecFloat.iter_pos].
  - rewrite !IHn. rewrite Pos2Nat.inj_xI.
    replace (S (2 * Pos.to_nat n)) with (Pos.to_nat n + Pos.to_nat n + 1)%nat by lia.
    now rewrite !Nat.iter_add.
  - rewrite !IHn, Pos2Nat.inj_xO.
    replace (2 * Pos.to_nat n)%nat with (Pos.to_nat n + Pos.to_nat n)%nat by lia.
    now rewrite Nat.iter_add.
  - reflexivity.
Qed.

Lemma pos_iter_shl p n : Pos.iter xO p n = shl_pos p (Pos.to_nat n).
Proof. unfold shl_pos. apply Pos2Nat.inj_iter. Qed.

(** Shifting trailing zeros out is exact. *)
Lemma shr_exact p k :
  Nat.iter k shr_1 {| shr_m := Zpos (shl_pos p k); shr_r := false; shr_s := false |}
  = {| shr_m := Zpos p; shr_r := false; shr_s := false |}.
Proof.
  induction k; [reflexivity|].
  rewrite Nat.iter_succ_r. exact IHk.
Qed.

Lemma shr_nat mrs e k :
  shr mrs e (Z.of_nat k) = (Nat.iter k shr_1 mrs, e + Z.of_nat k).
Proof.
  unfold shr. destruct (Z.of_nat k) as [|q|q] eqn:E; [|rewrite iter_pos_nat|lia].
  - replace k with O by lia. now rewrite Z.add_0_r.
  - now replace (Pos.to_nat q) with k by lia.
Qed.

(** A mantissa whose canonical exponent is [e] is not changed by rounding;
    one with [k] trailing zeros too many is shifted exactly. *)
Lemma round_aux_exact s p k e :
  fexp 53 1024 (d p + Z.of_nat k + e) = e + Z.of_nat k ->
  e + Z.of_nat k <= 971 ->
  binary_round_aux 53 1024 s (Zpos (shl_pos p k)) e loc_Exact
  = S754_finite s p (e + Z.of_nat k).
Proof.
  intros F B. unfold binary_round_aux, shr_fexp.
  cbn [Zdigits2 shr_record_of_loc]. change (Z.pos (digits2_pos (shl_pos p k))) with (d (shl_pos p k)).
  rewrite d_shl, F. replace (e + Z.of_nat k - e) with (Z.of_nat k) by lia.
  assert (S : shr {| shr_m := Z.pos (shl_pos p k); shr_r := false; shr_s := false |} e (Z.of_nat k)
    = ({| shr_m := Zpos p; shr_r := false; shr_s := false |}, e + Z.of_nat k)).
  { now rewrite shr_nat, shr_exact. }
  rewrite S. cbn [loc_of_shr_record shr_m round_nearest_even shr_record_of_loc].
  cbn [Zdigits2]. change (Z.pos (digits2_pos p)) with (d p).
  replace (d p + (e + Z.of_nat k)) with (d p + Z.of_nat k + e) by lia. rewrite F.
  replace (e + Z.of_nat k - (e + Z.of_nat k)) with 0 by lia. cbn [shr shr_m].
  change (Z.sub 1024 53) with 971.
  destruct (e + Z.of_nat k <=? 971) eqn:E; [reflexivity|]. apply Z.leb_gt in E. lia.
Qed.

Lemma round_aux_canonical s p e :
  fexp 53 1024 (d p + e) = e -> e <= 971 ->
  binary_round_aux 53 1024 s (Zpos p) e loc_Exact = S754_finite s p e.
Proof.
  intros F B. pose proof (round_aux_exact s p 0 e) as H.
  change (Z.of_nat 0) with 0 in H. rewrite !Z.add_0_r in H. now apply H.
Qed.

(** The canonical form of a positive integer below 2^53. *)
Definition canon (s : bool) (p : positive) : num :=
  S754_finite s (shl_pos p (Z.to_nat (53 - d p))) (d p - 53).

Lemma round_int s p k :
  d p <= 53 -> Z.of_nat k <= 1000 ->
  binary_round 53 1024 s (shl_pos p k) (- Z.of_nat k) = canon s p.
Proof.
  intros D K. assert (1 <= d p) by (unfold d; lia).
  unfold binary_round, canon.
  change (Z.pos (digits2_pos (shl_pos p k))) with (d (shl_pos p k)). rewrite d_shl.
  assert (F : fexp 53 1024 (d p) = d p - 53).
  { unfold fexp, emin. lia. }
  replace (d p + Z.of_nat k + - Z.of_nat k) with (d p) by lia. rewrite F.
  unfold shl_align.
  destruct (d p - 53 - - Z.of_nat k) as [|q|q] eqn:E.
  - replace (Z.to_nat (53 - d p)) with k by lia.
    replace (d p - 53) with (- Z.of_nat k) by lia.
    apply round_aux_canonical; rewrite ?d_shl; [|lia].
    replace (d p + Z.of_nat k + - Z.of_nat k) with (d p) by lia. lia.
  - replace k with (Pos.to_nat q + Z.to_nat (53 - d p))%nat at 1 by lia.
    rewrite shl_pos_add.
    replace (d p - 53) with (- Z.of_nat k + Z.of_nat (Pos.to_nat q)) by lia.
    apply round_aux_exact; rewrite ?d_shl; [|lia].
    replace (d p + Z.of_nat (Z.to_nat (53 - d p)) + Z.of_nat (Pos.to_nat q) + - Z.of_nat k) with (d p) by lia.
    lia.
  - rewrite pos_iter_shl, <- shl_pos_add.
    replace (Pos.to_nat q + k)%nat with (Z.to_nat (53 - d p)) by lia.
    set (m := Z.to_nat _).
    replace (d p - 53) with (- Z.of_nat m) by lia.
    apply round_aux_canonical; rewrite ?d_shl; [|lia].
    replace (d p + Z.of_nat m + - Z.of_nat m) with (d p) by lia. lia.
Qed.

Definition safe (n : Z) : Prop := Z.abs n < 2 ^ 53.

Lemma safe_digits p : safe (Zpos p) -> d p <= 53.
Proof.
  unfold safe. intros H. pose proof (digits_bounds p).
  destruct (Z.le_gt_cases (d p) 53); auto.
  assert (2 ^ 53 <= 2 ^ (d p - 1)) by (apply Z.pow_le_mono_r; lia). lia.
Qed.

Definition canon_Z (n : Z) : num :=
  match n with Z0 => S754_zero false | Zpos p => canon false p | Zneg p => canon true p end.

(** An exact integer scaled by a power of two that the exponent undoes. *)
Lemma normalize_int n k :
  safe n -> Z.of_nat k <= 1000 ->
  binary_normalize 53 1024 (n * 2 ^ Z.of_nat k) (- Z.of_nat k) false = canon_Z n.
Proof.
  intros S K. destruct n as [|p|p].
  - reflexivity.
  - rewrite <- shl_pos_Z. cbn [binary_normalize]. apply round_int; [now apply safe_digits|lia].
  - rewrite <- (Pos2Z.opp_pos p), Z.mul_opp_l, <- shl_pos_Z. cbn [Z.opp binary_normalize].
    apply round_int; [apply safe_digits; exact S|lia].
Qed.

Lemma of_Z_canon n : safe n -> of_Z n = canon_Z n.
Proof.
  intros. unfold of_Z. rewrite <- (normalize_int n 0) by (auto; lia).
  f_equal. simpl. lia.
Qed.

Lemma shl_align_shl p a b :
  (a <= b)%nat -> fst (shl_align (shl_pos p a) (- Z.of_nat a) (- Z.of_nat b)) = shl_pos p b.
Proof.
  intros H. unfold shl_align. destruct (- Z.of_nat b - - Z.of_nat a) as [|q|q] eqn:E; simpl; [|lia|].
  - f_equal. lia.
  - rewrite pos_iter_shl, <- shl_pos_add. f_equal. lia.
Qed.

Lemma canon_exp p : d p <= 53 -> d p - 53 = - Z.of_nat (Z.to_nat (53 - d p)).
Proof. lia. Qed.

Lemma canon_Z_add x y : safe x -> safe y -> safe (x + y) ->
  SFadd 53 1024 (canon_Z x) (canon_Z y) = canon_Z (x + y).
Proof.
  assert (G : forall sx sy p q, d p <= 53 -> d q <= 53 ->
    safe (cond_Zopp sx (Zpos p) + cond_Zopp sy (Zpos q)) ->
    SFadd 53 1024 (canon sx p) (canon sy q) = canon_Z (cond_Zopp sx (Zpos p) + cond_Zopp sy (Zpos q))).
  { intros sx sy p q Dp Dq S. unfold canon, SFadd.
    set (a := Z.to_nat (53 - d p)). set (b := Z.to_nat (53 - d q)).
    replace (d p - 53) with (- Z.of_nat a) by lia.
    replace (d q - 53) with (- Z.of_nat b) by lia.
    set (c := Nat.max a b).
    replace (Z.min (- Z.of_nat a) (- Z.of_nat b)) with (- Z.of_nat c) by lia.
    rewrite !shl_align_shl by lia. rewrite !shl_pos_Z.
    assert (1 <= d p) by (unfold d; lia). assert (1 <= d q) by (unfold d; lia).
    rewrite <- (normalize_int _ c) by (auto; lia).
    f_equal. destruct sx, sy; simpl cond_Zopp; try (rewrite Z.mul_add_distr_r); lia. }
  intros Sx Sy S. destruct x as [|p|p]; destruct y as [|q|q]; try reflexivity;
    try (apply (G false false)); try (apply (G false true)); try (apply (G true false)); try (apply (G true true));
    auto using safe_digits; apply safe_digits; assumption.
Qed.

Lemma of_Z_add x y : safe x -> safe y -> safe (x + y) -> add (of_Z x) (of_Z y) = of_Z (x + y).
Proof. intros. rewrite !of_Z_canon by auto. now apply canon_Z_add. Qed.

Lemma SFsub_opp x y : SFsub 53 1024 x y = SFadd 53 1024 x (SFopp y).
Proof.
  destruct x as [[]|[]| |sx mx ex], y as [[]|[]| |sy my ey]; try reflexivity; try (destruct sx; reflexivity); try (destruct sy; reflexivity).
Qed.

Lemma canon_Z_opp x : x <> 0 -> SFopp (canon_Z x) = canon_Z (- x).
Proof. destruct x; simpl; intros; try lia; reflexivity. Qed.

Lemma of_Z_opp x : safe x -> x <> 0 -> opp (of_Z x) = of_Z (- x).
Proof. intros. unfold safe in *. rewrite !of_Z_canon by (unfold safe; lia). now apply canon_Z_opp. Qed.

Lemma of_Z_sub x y : safe x -> safe y -> safe (x - y) -> sub (of_Z x) (of_Z y) = of_Z (x - y).
Proof.
  intros Sx Sy S. unfold sub. rewrite SFsub_opp.
  destruct (Z.eq_dec y 0) as [->|N].
  - rewrite Z.sub_0_r. rewrite !of_Z_canon by auto. destruct x; reflexivity.
  - change (SFopp (of_Z y)) with (opp (of_Z y)). rewrite of_Z_opp by auto.
    unfold safe in *. apply of_Z_add; unfold safe; lia.
Qed.

Lemma canon_Z_mul x y : safe x -> safe y -> x <> 0 -> y <> 0 -> safe (x * y) ->
  SFmul 53 1024 (canon_Z x) (canon_Z y) = canon_Z (x * y).
Proof.
  assert (G : forall sx sy p q, d p <= 53 -> d q <= 53 -> d (p * q) <= 53 ->
    SFmul 53 1024 (canon sx p) (canon sy q) = canon (xorb sx sy) (p * q)).
  { intros sx sy p q Dp Dq D. unfold canon, SFmul.
    assert (1 <= d p) by (unfold d; lia). assert (1 <= d q) by (unfold d; lia).
    assert (1 <= d (p * q)) by (unfold d; lia).
    assert (d p <= d (p * q)).
    { pose proof (digits_bounds p). pose proof (digits_bounds (p * q)).
      destruct (Z.le_gt_cases (d p) (d (p * q))); auto. exfalso.
      assert (2 ^ d (p * q) <= 2 ^ (d p - 1)) by (apply Z.pow_le_mono_r; lia). nia. }
    set (a := Z.to_nat (53 - d p)). set (b := Z.to_nat (53 - d q)).
    set (c := Z.to_nat (53 - d (p * q))).
    replace (shl_pos p a * shl_pos q b)%positive with (shl_pos (shl_pos (p * q) c) (a + b - c)).
    2:{ rewrite <- shl_pos_add. apply Pos2Z.inj. rewrite Pos2Z.inj_mul, !shl_pos_Z, Pos2Z.inj_mul.
        replace (Z.of_nat (a + b - c + c)) with (Z.of_nat a + Z.of_nat b) by lia.
        rewrite Z.pow_add_r by lia. lia. }
    rewrite round_aux_exact; rewrite ?d_shl.
    - f_equal. lia.
    - unfold fexp, emin. lia.
    - lia. }
  intros Sx Sy Nx Ny S. apply safe_digits in S || idtac.
  destruct x as [|p|p]; destruct y as [|q|q]; try lia;
    [apply (G false false)|apply (G false true)|apply (G true false)|apply (G true true)];
    apply safe_digits; assumption.
Qed.

Lemma of_Z_mul x y : safe x -> safe y -> x <> 0 -> y <> 0 -> safe (x * y) ->
  mul (of_Z x) (of_Z y) = of_Z (x * y).
Proof. intros. rewrite !of_Z_canon by auto. now apply canon_Z_mul. Qed.

Lemma is_nan_of_Z n : safe n -> is_nan (of_Z n) = false.
Proof. intros. rewrite of_Z_canon by auto. now destruct n. Qed.

Lemma canon_compare p q :
  d p <= 53 -> d q <= 53 ->
  match Z.compare (d p - 53) (d q - 53) with
  | Lt => Lt | Gt => Gt
  | Eq => Pos.compare (shl_pos p (Z.to_nat (53 - d p))) (shl_pos q (Z.to_nat (53 - d q)))
  end = Pos.compare p q.
Proof.
  intros Dp Dq. pose proof (digits_bounds p). pose proof (digits_bounds q).
  assert (1 <= d p) by (unfold d; lia). assert (1 <= d q) by (unfold d; lia).
  destruct (Z.compare_spec (d p - 53) (d q - 53)) as [E|L|L].
  - replace (d q) with (d p) by lia. set (k := Z.to_nat _).
    rewrite !Pos2Z.inj_compare, !shl_pos_Z.
    destruct (Z.compare_spec (Z.pos p) (Z.pos q)) as [C|C|C].
    + apply Z.compare_eq_iff. lia.
    + apply Z.compare_lt_iff. nia.
    + apply Z.compare_gt_iff. nia.
  - assert (2 ^ d p <= 2 ^ (d q - 1)) by (apply Z.pow_le_mono_r; lia).
    symmetry. apply Pos.compare_lt_iff. lia.
  - assert (2 ^ d q <= 2 ^ (d p - 1)) by (apply Z.pow_le_mono_r; lia).
    symmetry. apply Pos.compare_gt_iff. lia.
Qed.

Lemma of_Z_compare x y : safe x -> safe y -> SFcompare (of_Z x) (of_Z y) = Some (Z.compare x y).
Proof.
  intros Sx Sy. rewrite !of_Z_canon by auto.
  destruct x as [|p|p]; destruct y as [|q|q]; try reflexivity;
    cbn [canon_Z canon SFcompare]; unfold canon; cbn [SFcompare];
    apply safe_digits in Sx; apply safe_digits in Sy;
    change (Pos.compare_cont Eq) with Pos.compare; f_equal.
  - exact (canon_compare p q Sx Sy).
  - rewrite <- (Pos2Z.opp_pos p), <- (Pos2Z.opp_pos q).
    rewrite Z.compare_opp. rewrite <- Pos2Z.inj_compare, (Pos.compare_antisym p q).
    rewrite <- (canon_compare p q Sx Sy).
    destruct (Z.compare (d p - 53) (d q - 53)); reflexivity.
Qed.

Lemma of_Z_lt x y : safe x -> safe y -> lt (of_Z x) (of_Z y) = (x <? y).
Proof. intros. unfold lt, SFltb, Z.ltb. rewrite of_Z_compare by auto. now destruct (x ?= y). Qed.
Lemma of_Z_le x y : safe x -> safe y -> le (of_Z x) (of_Z y) = (x <=? y).
Proof. intros. unfold le, SFleb, Z.leb. rewrite of_Z_compare by auto. now destruct (x ?= y). Qed.
Lemma of_Z_eq x y : safe x -> safe y -> eq (of_Z x) (of_Z y) = (x =? y).
Proof. intros. unfold eq, SFeqb. rewrite of_Z_compare by auto. rewrite Z.eqb_compare. now destruct (x ?= y). Qed.

Lemma of_Z_max x y : safe x -> safe y -> max (of_Z x) (of_Z y) = of_Z (Z.max x y).
Proof.
  intros. unfold max. rewrite of_Z_compare by auto. unfold Z.max.
  destruct (Z.compare_spec x y); auto. subst. rewrite of_Z_canon by auto. now destruct y.
Qed.
Lemma of_Z_min x y : safe x -> safe y -> min (of_Z x) (of_Z y) = of_Z (Z.min x y).
Proof.
  intros. unfold min. rewrite of_Z_compare by auto. unfold Z.min.
  destruct (Z.compare_spec x y); auto. subst. rewrite of_Z_canon by auto. now destruct y.
Qed.

Lemma shiftr_shl p k : Z.shiftr (Zpos (shl_pos p k)) (Z.of_nat k) = Zpos p.
Proof. rewrite Z.shiftr_div_pow2, shl_pos_Z by lia. apply Z.div_mul. lia. Qed.

Lemma trunc_of_Z n : safe n -> trunc_Z (of_Z n) = n.
Proof.
  assert (G : forall s p, d p <= 53 -> trunc_Z (canon s p) = cond_Zopp s (Zpos p)).
  { intros s p D. unfold canon, trunc_Z. f_equal.
    destruct (0 <=? d p - 53) eqn:E; bool_to_prop.
    - replace (53 - d p) with 0 by lia. replace (d p - 53) with 0 by lia. reflexivity.
    - replace (- (d p - 53)) with (Z.of_nat (Z.to_nat (53 - d p))) by lia. apply shiftr_shl. }
  intros S. rewrite of_Z_canon by auto.
  destruct n as [|p|p]; [reflexivity|apply (G false)|apply (G true)]; now apply safe_digits.
Qed.

Lemma wrap32_id n : - 2 ^ 31 <= n < 2 ^ 31 -> wrap32 n = n.
Proof. intros. unfold wrap32. rewrite Z.mod_small; lia. Qed.

Lemma wrap32_range n : - 2 ^ 31 <= wrap32 n < 2 ^ 31.
Proof. unfold wrap32. pose proof (Z.mod_pos_bound (n + 2 ^ 31) (2 ^ 32)). lia. Qed.

Lemma to_int32_of_Z n : - 2 ^ 31 <= n < 2 ^ 31 -> to_int32 (of_Z n) = n.
Proof. intros. unfold to_int32. rewrite trunc_of_Z by (unfold safe; lia). now apply wrap32_id. Qed.

Lemma of_Z_inj x y : safe x -> safe y -> of_Z x = of_Z y -> x = y.
Proof. intros Sx Sy E. rewrite <- (trunc_of_Z x), <- (trunc_of_Z y), E; auto. Qed.

Lemma floor_of_Z n : safe n -> floor (of_Z n) = of_Z n.
Proof.
  assert (G : forall s p, d p <= 53 -> safe (Zpos p) -> floor (canon s p) = canon s p).
  { intros s p D Sp. unfold canon at 1, floor.
    destruct (0 <=? d p - 53) eqn:E; bool_to_prop; [reflexivity|].
    replace (- (d p - 53)) with (Z.of_nat (Z.to_nat (53 - d p))) by lia.
    set (k := Z.to_nat _).
    assert (H : Z.shiftr (cond_Zopp s (Z.pos (shl_pos p k))) (Z.of_nat k) = cond_Zopp s (Zpos p)).
    { rewrite Z.shiftr_div_pow2 by lia.
      destruct s; cbn [cond_Zopp]; rewrite shl_pos_Z, <- ?Z.mul_opp_l, Z.div_mul by lia; reflexivity. }
    rewrite H, of_Z_canon by (destruct s; exact Sp). now destruct s. }
  intros S. rewrite of_Z_canon by auto.
  destruct n as [|p|p]; [reflexivity|apply (G false)|apply (G true)]; auto; now apply safe_digits.
Qed.
Lemma round_of_Z n : safe n -> round (of_Z n) = of_Z n.
Proof.
  assert (G : forall s p, d p <= 53 -> safe (Zpos p) -> round (canon s p) = canon s p).
  { intros s p D Sp. unfold canon at 1, round.
    destruct (0 <=? d p - 53) eqn:E; bool_to_prop; [reflexivity|].
    assert (D1 : 1 <= d p) by (unfold d; lia).
    set (k := Z.to_nat (53 - d p)). replace (- (d p - 53)) with (Z.of_nat k) by lia.
    assert (H0 : 0 < 2 ^ Z.of_nat k) by (apply Z.pow_pos_nonneg; lia).
    assert (H : Z.shiftr (2 * cond_Zopp s (Z.pos (shl_pos p k)) + 2 ^ Z.of_nat k) (Z.of_nat k + 1)
                = cond_Zopp s (Zpos p)).
    { rewrite Z.shiftr_div_pow2, Z.pow_add_r, shl_pos_Z by lia.
      replace (2 * cond_Zopp s (Z.pos p * 2 ^ Z.of_nat k) + 2 ^ Z.of_nat k)
        with (2 ^ Z.of_nat k + cond_Zopp s (Zpos p) * (2 ^ Z.of_nat k * 2 ^ 1)) by (destruct s; cbn [cond_Zopp]; ring).
      rewrite Z.div_add by lia. rewrite Z.div_small by lia. lia. }
    rewrite H. replace (cond_Zopp s (Z.pos p) =? 0) with false by (now destruct s).
    rewrite of_Z_canon by (destruct s; exact Sp). now destruct s. }
  intros S. rewrite of_Z_canon by auto.
  destruct n as [|p|p]; [reflexivity|apply (G false)|apply (G true)]; auto; now apply safe_digits.
Qed.

Lemma opp_le x y : le (opp x) (opp y) = le y x.
Proof.
  unfold le, SFleb. destruct x as [[]|[]| |[] m e], y as [[]|[]| |[] n f]; try reflexivity;
    cbn [opp SFopp negb SFcompare]; rewrite (Z.compare_antisym e f);
    change (Pos.compare_cont Eq m n) with (Pos.compare m n);
    change (Pos.compare_cont Eq n m) with (Pos.compare n m);
    rewrite (Pos.compare_antisym m n); destruct (e ?= f), (m ?= n)%positive; reflexivity.
Qed.

End NumFacts.
