(* ===== verification/JsString.v ===== *)
(** JavaScript strings and regular expressions.

    Strings are the Standard Library's [string]; the code modelled here only
    looks at ASCII characters.  [exec] is the backtracking matcher of
    ECMAScript for the constructs the source's regular expressions use
    (character classes, greedy repetition of a class, sequence, option,
    alternative and numbered groups); [Num.parse] is ToNumber of a string and
    [Num.print] the shortest decimal that Number.prototype.toString prints. *)
From Stdlib Require Import ZArith Lia Bool List Ascii String.
From Stdlib Require Import SpecFloat.
From stdpp Require Import base list.
From S2P Require Import Prelude JsNumber.
Open Scope Z_scope.
Import ListNotations.

#[global] Instance string_eq_dec : EqDecision string := String.string_dec.

Module Str.

(** [s[i]], None when it is undefined. *)
Definition at_ (s : string) (i : nat) : option ascii := String.get i s.

Definition in_range (lo hi : Z) (c : ascii) : bool :=
  let n := Z.of_nat (nat_of_ascii c) in (lo <=? n) && (n <=? hi).
Definition is_digit : ascii -> bool := in_range 48 57.
Definition is_lower : ascii -> bool := in_range 97 122.
Definition is_upper : ascii -> bool := in_range 65 90.
(** [\s] on ASCII: tab, line feed, vertical tab, form feed, return, space. *)
Definition is_space (c : ascii) : bool := in_range 9 13 c || in_range 32 32 c.
Definition digit_val (c : ascii) : Z := Z.of_nat (nat_of_ascii c) - 48.

Fixpoint map_string (f : ascii -> ascii) (s : string) : string :=
  match s with
  | EmptyString => EmptyString
  | String c s' => String (f c) (map_string f s')
  end.
Fixpoint all_chars (p : ascii -> bool) (s : string) : bool :=
  match s with
  | EmptyString => true
  | String c s' => p c && all_chars p s'
  end.
Definition lower_char (c : ascii) : ascii :=
  if is_upper c then ascii_of_nat (nat_of_ascii c + 32) else c.
Definition upper_char (c : ascii) : ascii :=
  if is_lower c then ascii_of_nat (nat_of_ascii c - 32) else c.
Definition toLowerCase : string -> string := map_string lower_char.
Definition toUpperCase : string -> string := map_string upper_char.

(** [indexOf], None for -1, and [replace] of the first occurrence. *)
Fixpoint index_from (pat s : string) (i : nat) : option nat :=
  if String.prefix pat s then Some i
  else match s with
       | EmptyString => None
       | String _ s' => index_from pat s' (S i)
       end.
Definition indexOf (s pat : string) : option nat := index_from pat s 0.
Fixpoint skip (n : nat) (s : string) : string :=
  match n, s with
  | O, _ => s
  | S n', String _ s' => skip n' s'
  | S _, EmptyString => EmptyString
  end.
Fixpoint take (n : nat) (s : string) : string :=
  match n, s with
  | S n', String c s' => String c (take n' s')
  | _, _ => EmptyString
  end.
Definition substr (s : string) (pos len : nat) : string := take len (skip pos s).
Definition replace (s pat rep : string) : string :=
  match indexOf s pat with
  | None => s
  | Some i => (take i s ++ rep ++ skip (i + String.length pat) s)%string
  end.
Definition endsWith (s suf : string) : bool :=
  let n := String.length s in let k := String.length suf in
  Nat.leb k n && String.eqb (skip (n - k) s) suf.

(** The longest prefix in a class and the rest. *)
Fixpoint span (p : ascii -> bool) (s : string) : string * string :=
  match s with
  | EmptyString => (EmptyString, EmptyString)
  | String c s' =>
      if p c then let '(w, r) := span p s' in (String c w, r) else (EmptyString, s)
  end.

Fixpoint digits_val (acc : Z) (s : string) : Z :=
  match s with
  | EmptyString => acc
  | String c s' => digits_val (10 * acc + digit_val c) s'
  end.

(** Decimal digits of a natural number. *)
Fixpoint print_digits (fuel : nat) (n : Z) (acc : string) : string :=
  match fuel with
  | O => acc
  | S f =>
      let acc' := String (ascii_of_nat (Z.to_nat (48 + n mod 10))) acc in
      if n <? 10 then acc' else print_digits f (n / 10) acc'
  end.
Definition print_nat (n : Z) : string := print_digits (S (Z.to_nat (Z.log2 n))) n EmptyString.
Fixpoint zeros (n : nat) : string :=
  match n with O => EmptyString | S n' => String "0" (zeros n') end.

(** ** Regular expressions *)
Inductive re :=
| Eps
| Cls (p : ascii -> bool)
| Star (p : ascii -> bool)
| Plus (p : ascii -> bool)
| Seq (a b : re)
| Alt (a b : re)
| Opt (a : re)
| Grp (n : nat) (a : re).

Definition caps := list (nat * string).

(** Greedy repetition of a class: the longest match first. *)
Fixpoint star (p : ascii -> bool) (k : string -> option caps) (s : string) : option caps :=
  match s with
  | String c s' =>
      if p c then match star p k s' with Some r => Some r | None => k s end else k s
  | EmptyString => k s
  end.

Fixpoint mtch (r : re) (s : string) (cs : caps) (k : string -> caps -> option caps)
  : option caps :=
  match r with
  | Eps => k s cs
  | Cls p => match s with
             | String c s' => if p c then k s' cs else None
             | EmptyString => None
             end
  | Star p => star p (fun s' => k s' cs) s
  | Plus p => match s with
              | String c s' => if p c then star p (fun s'' => k s'' cs) s' else None
              | EmptyString => None
              end
  | Seq a b => mtch a s cs (fun s' cs' => mtch b s' cs' k)
  | Alt a b => match mtch a s cs k with Some x => Some x | None => mtch b s cs k end
  | Opt a => match mtch a s cs k with Some x => Some x | None => k s cs end
  | Grp n a => mtch a s cs (fun s' cs' =>
      k s' ((n, take (String.length s - String.length s') s) :: cs'))
  end.

(** [/^r$/.exec(s)]: the groups that took part in the match. *)
Definition exec (r : re) (s : string) : option caps :=
  mtch r s [] (fun s' cs => match s' with EmptyString => Some cs | _ => None end).

Fixpoint group (n : nat) (cs : caps) : option string :=
  match cs with
  | [] => None
  | (m, s) :: cs' => if Nat.eqb m n then Some s else group n cs'
  end.

Fixpoint lit (s : string) : re :=
  match s with
  | EmptyString => Eps
  | String c EmptyString => Cls (Ascii.eqb c)
  | String c s' => Seq (Cls (Ascii.eqb c)) (lit s')
  end.
Fixpoint seqs (l : list re) : re :=
  match l with
  | [] => Eps
  | [r] => r
  | r :: l' => Seq r (seqs l')
  end.
Definition one_of (s : string) (c : ascii) : bool :=
  existsb (Ascii.eqb c) (list_ascii_of_string s).

End Str.

Module NumStr.
Import Str.

(** StrDecimalLiteral without sign: digits with at most one point, at least
    one digit, and an optional exponent; None when the text has another form. *)
Definition parse_unsigned (s : string) : option num :=
  if String.eqb s "Infinity" then Some Num.infinity else
  let '(i, r1) := span is_digit s in
  let '(f, r2) := match r1 with
    | String c r => if Ascii.eqb c "." then span is_digit r else (EmptyString, r1)
    | _ => (EmptyString, r1)
    end in
  let m := digits_val 0 (i ++ f) in
  let e := - Z.of_nat (String.length f) in
  if Nat.eqb (String.length i + String.length f) 0 then None else
  match r2 with
  | EmptyString => Some (Num.of_decimal m e)
  | String c r =>
      if one_of "eE" c then
        let '(neg, r3) := match r with
          | String d r' => if Ascii.eqb d "-" then (true, r')
                           else if Ascii.eqb d "+" then (false, r') else (false, r)
          | _ => (false, r)
          end in
        let '(x, r4) := span is_digit r3 in
        match x, r4 with
        | String _ _, EmptyString =>
            let ex := digits_val 0 x in
            Some (Num.of_decimal m (e + if neg : bool then - ex else ex))
        | _, _ => None
        end
      else None
  end.

(** ToNumber of a text without surrounding white space; the prefixes [0x],
    [0o] and [0b] do not occur in the texts the source converts. *)
Definition parse (s : string) : num :=
  match s with
  | EmptyString => S754_zero false
  | String c r =>
      let '(neg, body) := if Ascii.eqb c "-" then (true, r)
                          else if Ascii.eqb c "+" then (false, r) else (false, s) in
      match parse_unsigned body with
      | Some x => if neg : bool then Num.opp x else x
      | None => Num.nan
      end
  end.

(** [floor (x * 10^k)] and [x < 10^k] for [x = m * 2^e]. *)
Definition scaled_floor (m e k : Z) : Z :=
  let n := (if 0 <=? k then m * 10 ^ k else m) * (if 0 <=? e then 2 ^ e else 1) in
  let d := (if 0 <=? k then 1 else 10 ^ (- k)) * (if 0 <=? e then 1 else 2 ^ (- e)) in
  n / d.

(** The [n] with [10^(n-1) <= x < 10^n], searched from an estimate. *)
Fixpoint find_exp (fuel : nat) (m e n : Z) : Z :=
  match fuel with
  | O => n
  | S f => if 0 <? scaled_floor m e (- n) then find_exp f m e (n + 1) else n
  end.
Definition decimal_exp (m e : Z) : Z :=
  let est := ((Z.log2 m + e) * 30103) / 100000 - 2 in find_exp 8 m e est.

Definition same (x y : num) : bool := Num.eq x y.

(** The smallest [k] with a [k]-digit decimal that reads back as [x]. *)
Fixpoint shortest (fuel : nat) (x : num) (m e n k : Z) : Z * Z * Z :=
  let lo := scaled_floor m e (k - n) in
  let norm s := if s =? 10 ^ k then (10 ^ (k - 1), k, n + 1) else (s, k, n) in
  let ok s := same (Num.of_decimal s (n - k)) x in
  match fuel with
  | O => (lo, k, n)
  | S f =>
      let twice := scaled_floor (2 * m) e (k - n) in
      let near := if twice =? 2 * lo then lo else lo + 1 in
      let far := if twice =? 2 * lo then lo + 1 else lo in
      if ok near then norm near else if ok far then norm far
      else shortest f x m e n (k + 1)
  end.

Fixpoint strip (fuel : nat) (s k : Z) : Z * Z :=
  match fuel with
  | O => (s, k)
  | S f => if (s mod 10 =? 0) && (1 <? k) then strip f (s / 10) (k - 1) else (s, k)
  end.

Definition print_pos (x : num) (m e : Z) : string :=
  let '(s0, k0, n) := shortest 17 x m e (decimal_exp m e) 1 in
  let '(s, k) := strip 20 s0 k0 in
  let ds := print_nat s in
  if (k <=? n) && (n <=? 21) then (ds ++ zeros (Z.to_nat (n - k)))%string
  else if (0 <? n) && (n <=? 21) then
    (take (Z.to_nat n) ds ++ "." ++ skip (Z.to_nat n) ds)%string
  else if (-6 <? n) && (n <=? 0) then ("0." ++ zeros (Z.to_nat (- n)) ++ ds)%string
  else
    let ex := (n - 1) in
    let sg := if 0 <=? ex then "+"%string else "-"%string in
    let tl := ("e" ++ sg ++ print_nat (Z.abs ex))%string in
    if k =? 1 then (ds ++ tl)%string
    else (take 1 ds ++ "." ++ skip 1 ds ++ tl)%string.

(** Number::toString in radix 10. *)
Definition print (x : num) : string :=
  match x with
  | S754_nan => "NaN"
  | S754_zero _ => "0"
  | S754_infinity false => "Infinity"
  | S754_infinity true => "-Infinity"
  | S754_finite false m e => print_pos x (Zpos m) e
  | S754_finite true m e => ("-" ++ print_pos (Num.opp x) (Zpos m) e)%string
  end.

End NumStr.
