(* ===== verification/NumExact.v ===== *)
(** Exact division and remainder of integers, and the rounded square root
    of an integer, in binary64. *)
From Stdlib Require Import ZArith Lia Bool List.
From Stdlib Require Import SpecFloat.
From stdpp Require Import base.
From S2P Require Import Prelude JsNumber.
Open Scope Z_scope.

Module NumExact.
Import Num NumFacts.

Lemma d_canon p k : d p <= 53 -> k = Z.to_nat (53 - d p) -> d (shl_pos p k) = 53.
Proof. intros. rewrite d_shl. subst. lia. Qed.

Lemma fexp53 e : -1074 <= e -> fexp 53 1024 (53 + e) = e.
Proof. unfold fexp, emin. lia. Qed.

Lemma d_mul p q : d p <= d q + d (p * q) /\ d (p * q) <= d p + d q /\ d p <= d (p * q).
Proof.
  pose proof (digits_bounds p). pose proof (digits_bounds q). pose proof (digits_bounds (p * q)).
  assert (1 <= d p) by (unfold d; lia). assert (1 <= d q) by (unfold d; lia).
  assert (1 <= d (p * q)) by (unfold d; lia).
  assert (d p <= d (p * q)).
  { destruct (Z.le_gt_cases (d p) (d (p * q))); auto. exfalso.
    assert (2 ^ d (p * q) <= 2 ^ (d p - 1)) by (apply Z.pow_le_mono_r; lia). nia. }
  assert (d (p * q) <= d p + d q).
  { destruct (Z.le_gt_cases (d (p * q)) (d p + d q)); auto. exfalso.
    assert (2 ^ (d p + d q) <= 2 ^ (d (p * q) - 1)) by (apply Z.pow_le_mono_r; lia).
    rewrite Z.pow_add_r in * by lia. nia. }
  lia.
Qed.

Lemma new_location_0 n : new_location n 0 = loc_Exact.
Proof. unfold new_location. now destruct (Z.even n). Qed.

(** An exact quotient is computed exactly. *)
Lemma of_Z_div_exact m q :
  0 < m -> 0 < q -> safe (m * q) -> safe q -> safe m ->
  div (of_Z (m * q)) (of_Z q) = of_Z m.
Proof.
  intros Hm Hq S Sq Sm. destruct m as [|m|m]; try lia. destruct q as [|q|q]; try lia.
  rewrite !of_Z_canon by assumption. change (Zpos m * Zpos q) with (Zpos (m * q)).
  cbn [canon_Z]. unfold div, canon, SFdiv.
  pose proof (d_mul m q) as D. apply safe_digits in S as S'. apply safe_digits in Sq as Sq'. apply safe_digits in Sm as Sm'.
  assert (1 <= d m) by (unfold d; lia). assert (1 <= d q) by (unfold d; lia).
  set (a := Z.to_nat (53 - d (m * q))). set (b := Z.to_nat (53 - d q)).
  unfold SFdiv_core_binary. cbn [Zdigits2].
  change (Zpos (digits2_pos (shl_pos (m * q) a))) with (d (shl_pos (m * q) a)).
  change (Zpos (digits2_pos (shl_pos q b))) with (d (shl_pos q b)).
  rewrite !d_canon by (auto; lia).
  set (e1 := d (m * q) - 53). set (e2 := d q - 53).
  assert (F : fexp 53 1024 (53 + e1 - (53 + e2)) = e1 - e2 - 53) by (unfold fexp, emin; lia).
  rewrite F. replace (Z.min (e1 - e2 - 53) (e1 - e2)) with (e1 - e2 - 53) by lia.
  replace (e1 - e2 - (e1 - e2 - 53)) with 53 by lia. cbn iota beta zeta.
  set (k := (a + 53 - b)%nat).
  assert (M : Z.shiftl (Z.pos (shl_pos (m * q) a)) 53 = Zpos (shl_pos m k) * Zpos (shl_pos q b)).
  { rewrite Z.shiftl_mul_pow2, !shl_pos_Z by lia. rewrite Pos2Z.inj_mul.
    transitivity (Zpos m * Zpos q * (2 ^ Z.of_nat a * 2 ^ 53)); [ring|].
    transitivity (Zpos m * Zpos q * (2 ^ Z.of_nat k * 2 ^ Z.of_nat b)); [|ring].
    f_equal. rewrite <- !Z.pow_add_r by lia. f_equal. lia. }
  rewrite M. pose proof (Z.div_mul (Zpos (shl_pos m k)) (Zpos (shl_pos q b)) ltac:(lia)) as Q.
  pose proof (Z_mod_mult (Zpos (shl_pos m k)) (Zpos (shl_pos q b))) as R.
  unfold Z.div, Z.modulo in Q, R.
  destruct (Z.div_eucl (Z.pos (shl_pos m k) * Z.pos (shl_pos q b)) (Z.pos (shl_pos q b))) as [qq rr].
  subst. rewrite new_location_0. cbn [xorb].
  replace k with (Z.to_nat (53 - d m) + (k - Z.to_nat (53 - d m)))%nat by lia.
  rewrite Nat.add_comm, shl_pos_add.
  rewrite round_aux_exact.
  - f_equal. lia.
  - rewrite d_canon by (auto; lia). unfold fexp, emin. lia.
  - lia.
Qed.

(** Division by a positive number commutes with the sign. *)
Lemma round_aux_sign s t m e l :
  binary_round_aux 53 1024 s m e l =
  match binary_round_aux 53 1024 t m e l with
  | S754_zero _ => S754_zero s | S754_infinity _ => S754_infinity s
  | S754_finite _ m' e' => S754_finite s m' e' | S754_nan => S754_nan
  end.
Proof.
  unfold binary_round_aux. destruct (shr_fexp _ _ _ _ _) as [mrs e'].
  destruct (shr_fexp _ _ _ _ _) as [mrs' e'']. destruct (shr_m mrs'); try reflexivity.
  now destruct (e'' <=? _).
Qed.
Lemma div_opp x y : (exists m e, x = S754_finite false m e) -> (exists m e, y = S754_finite false m e) ->
  div (opp x) y = opp (div x y) .
Proof.
  intros (m & e & ->) (n & f & ->). unfold div, opp. cbn [SFopp negb SFdiv xorb].
  destruct (SFdiv_core_binary _ _ _ _ _ _) as [[q ex] l]. rewrite (round_aux_sign true false), (round_aux_sign false false).
  now destruct (binary_round_aux _ _ _ _ _ _).
Qed.

Lemma of_Z_finite p : safe (Zpos p) -> exists m e, of_Z (Zpos p) = S754_finite false m e.
Proof. intros. rewrite of_Z_canon by auto. cbn. unfold canon. eauto. Qed.

Lemma of_Z_div_1 n : safe n -> n <> 0 -> div (of_Z n) (of_Z 1) = of_Z n.
Proof.
  intros S N. assert (P : forall p, safe (Zpos p) -> div (of_Z (Zpos p)) (of_Z 1) = of_Z (Zpos p)).
  { intros p Sp. pose proof (of_Z_div_exact (Zpos p) 1) as D. rewrite Z.mul_1_r in D.
    apply D; auto; try lia. unfold safe; lia. }
  destruct n as [|p|p]; [lia|now apply P|].
  assert (Sp : safe (Zpos p)) by exact S.
  change (Z.neg p) with (- Z.pos p). rewrite <- of_Z_opp by (auto; lia).
  rewrite div_opp; [now rewrite P|now apply of_Z_finite|apply of_Z_finite; unfold safe; lia].
Qed.

(** The remainder of positive integers is exact. *)
Lemma of_Z_rem n i : 0 < n -> 0 < i -> safe n -> safe i -> rem (of_Z n) (of_Z i) = of_Z (n mod i).
Proof.
  intros Hn Hi Sn Si. destruct n as [|n|n]; try lia. destruct i as [|i|i]; try lia.
  assert (Sm : safe (Zpos n mod Zpos i)).
  { unfold safe in *. pose proof (Z.mod_pos_bound (Zpos n) (Zpos i)). lia. }
  rewrite (of_Z_canon (Zpos n)), (of_Z_canon (Zpos i)) by assumption. cbn [canon_Z]. unfold canon, rem.
  apply safe_digits in Sn, Si.
  assert (1 <= d n) by (unfold d; lia). assert (1 <= d i) by (unfold d; lia).
  set (a := Z.to_nat (53 - d n)). set (b := Z.to_nat (53 - d i)). set (c := Nat.max a b).
  replace (Z.min (d n - 53) (d i - 53)) with (- Z.of_nat c) by lia.
  rewrite !Z.shiftl_mul_pow2, !shl_pos_Z by lia.
  replace (Zpos n * 2 ^ Z.of_nat a * 2 ^ (d n - 53 - - Z.of_nat c)) with (Zpos n * 2 ^ Z.of_nat c).
  2:{ rewrite <- Z.mul_assoc, <- Z.pow_add_r by lia. f_equal. f_equal. lia. }
  replace (Zpos i * 2 ^ Z.of_nat b * 2 ^ (d i - 53 - - Z.of_nat c)) with (Zpos i * 2 ^ Z.of_nat c).
  2:{ rewrite <- Z.mul_assoc, <- Z.pow_add_r by lia. f_equal. f_equal. lia. }
  rewrite Z.mul_mod_distr_r by lia.
  destruct (Z.eqb_spec (Zpos n mod Zpos i * 2 ^ Z.of_nat c) 0) as [E|E].
  - replace (Zpos n mod Zpos i) with 0 by nia. reflexivity.
  - cbn [cond_Zopp]. rewrite normalize_int by (auto; lia). symmetry. now apply of_Z_canon.
Qed.

Lemma scale_lt m1 m2 A B : 0 < A -> 0 < B -> 0 < m2 -> m1 < 2 * m2 -> m1 * A < m2 * (B * (A * 2)).
Proof. intros. assert (m1 * A < 2 * m2 * A) by nia. assert (m2 * A * 1 <= m2 * A * B) by nia. lia. Qed.

(** Comparison of normal positive numbers is comparison of their values. *)
Lemma compare_normal m1 e1 m2 e2 e0 :
  2 ^ 52 <= Zpos m1 < 2 ^ 53 -> 2 ^ 52 <= Zpos m2 < 2 ^ 53 -> e0 <= e1 -> e0 <= e2 ->
  SFcompare (S754_finite false m1 e1) (S754_finite false m2 e2)
  = Some (Z.compare (Zpos m1 * 2 ^ (e1 - e0)) (Zpos m2 * 2 ^ (e2 - e0))).
Proof.
  intros M1 M2 E1 E2. cbn [SFcompare]. f_equal.
  change (Pos.compare_cont Eq m1 m2) with (Pos.compare m1 m2).
  set (a := e1 - e0). set (b := e2 - e0).
  destruct (Z.compare_spec e1 e2) as [E|L|L].
  - subst e2. rewrite Pos2Z.inj_compare.
    assert (0 < 2 ^ a) by (apply Z.pow_pos_nonneg; lia). subst b. fold a.
    destruct (Z.compare_spec (Zpos m1) (Zpos m2)) as [C|C|C]; symmetry;
      [apply Z.compare_eq_iff|apply Z.compare_lt_iff|apply Z.compare_gt_iff]; nia.
  - symmetry. apply Z.compare_lt_iff.
    replace b with ((b - a - 1) + (a + 1)) by lia. rewrite (Z.pow_add_r 2 (b - a - 1)) by lia.
    rewrite Z.pow_add_r by lia. assert (0 < 2 ^ a) by (apply Z.pow_pos_nonneg; lia).
    assert (0 < 2 ^ (b - a - 1)) by (apply Z.pow_pos_nonneg; lia). change (2 ^ 1) with 2.
    apply scale_lt; lia.
  - symmetry. apply Z.compare_gt_iff.
    replace a with ((a - b - 1) + (b + 1)) by lia. rewrite (Z.pow_add_r 2 (a - b - 1)) by lia.
    rewrite Z.pow_add_r by lia. assert (0 < 2 ^ b) by (apply Z.pow_pos_nonneg; lia).
    assert (0 < 2 ^ (a - b - 1)) by (apply Z.pow_pos_nonneg; lia). change (2 ^ 1) with 2.
    apply scale_lt; lia.
Qed.

(** ** Square root *)
Lemma round_aux_53 R l e :
  2 ^ 52 <= R < 2 ^ 53 -> -1074 <= e -> e <= 971 ->
  let R' := round_nearest_even R l in 2 ^ 52 <= R' < 2 ^ 53 ->
  binary_round_aux 53 1024 false R e l = S754_finite false (Z.to_pos R') e.
Proof.
  intros HR E1 E2 R' HR'. destruct R as [|p|p]; try lia.
  assert (D : forall p, 2 ^ 52 <= Zpos p < 2 ^ 53 -> d p = 53) by (intros; apply digits_unique; lia).
  unfold binary_round_aux, shr_fexp. cbn [Zdigits2].
  change (Z.pos (digits2_pos p)) with (d p). rewrite (D p) by lia. rewrite fexp53 by lia.
  rewrite Z.sub_diag. cbn [shr].
  assert (M : round_nearest_even (shr_m (shr_record_of_loc (Zpos p) l))
                (loc_of_shr_record (shr_record_of_loc (Zpos p) l)) = R').
  { destruct l as [|[]]; reflexivity. }
  rewrite M. destruct R' as [|r|r] eqn:ER; try lia.
  cbn [Zdigits2 shr_record_of_loc]. change (Z.pos (digits2_pos r)) with (d r).
  rewrite (D r) by lia. rewrite fexp53 by lia. rewrite Z.sub_diag. cbn [shr shr_m Z.to_pos].
  change (Z.sub 1024 53) with 971. now replace (e <=? 971) with true by (symmetry; apply Z.leb_le; lia).
Qed.

(** The square root of [n < 2^51] is a 53-bit mantissa [R] over [2^E]: the
    integer square root of [n * 2^(2E)], rounded. *)
Lemma sqrt_of_Z n : 0 < n < 2 ^ 51 ->
  exists R E, sqrt (of_Z n) = S754_finite false R (- E) /\ 27 <= E <= 60 /\
    2 ^ 52 <= Zpos R < 2 ^ 53 /\
    exists q, q * q <= n * 2 ^ (2 * E) < (q + 1) * (q + 1) /\ 0 <= q /\
      (Zpos R = q \/ Zpos R = q + 1) /\ (q * q = n * 2 ^ (2 * E) -> Zpos R = q).
Proof.
  intros Hn. destruct n as [|p|p]; try lia.
  assert (S : safe (Zpos p)) by (unfold safe; lia).
  rewrite of_Z_canon by auto. cbn [canon_Z]. unfold canon, sqrt, SFsqrt.
  assert (Dp : 1 <= d p <= 51).
  { split; [unfold d; lia|]. pose proof (digits_bounds p).
    destruct (Z.le_gt_cases (d p) 51); auto. assert (2 ^ 51 <= 2 ^ (d p - 1)) by (apply Z.pow_le_mono_r; lia). lia. }
  set (a := Z.to_nat (53 - d p)). set (e := d p - 53).
  unfold SFsqrt_core_binary. cbn [Zdigits2].
  change (Zpos (digits2_pos (shl_pos p a))) with (d (shl_pos p a)). rewrite d_canon by (auto; lia).
  assert (He : -52 <= e <= -2) by lia. assert (Ha : Z.of_nat a = - e) by lia.
  assert (He' : e = d p - 53) by reflexivity. clearbody e a.
  rewrite !Z.div2_div. pose proof (Z.div_mod e 2 ltac:(lia)) as Hdm. pose proof (Z.mod_pos_bound e 2 ltac:(lia)) as Hm.
  set (E := 26 - e / 2). assert (HE0 : E = 26 - e / 2) by reflexivity. clearbody E.
  replace (Z.min (fexp 53 1024 ((53 + e + 1) / 2)) (e / 2)) with (- E).
  2:{ unfold fexp, emin. replace (53 + e + 1) with (e + 27 * 2) by lia. rewrite Z.div_add by lia. lia. }
  set (s := e - 2 * - E). assert (Hs0 : s = e - 2 * - E) by reflexivity. clearbody s.
  assert (Hs : 52 <= s <= 53) by lia.
  assert (M : match s with Z0 => Z.pos (shl_pos p a) | Z.pos _ => Z.shiftl (Z.pos (shl_pos p a)) s | Z.neg _ => 0 end
    = Zpos p * 2 ^ (2 * E)).
  { destruct s as [|z|z] eqn:Es; try lia. rewrite Z.shiftl_mul_pow2, shl_pos_Z, <- Z.mul_assoc, <- Z.pow_add_r by lia.
    do 2 f_equal. lia. }
  cbn zeta. rewrite M. clear M.
  pose proof (Z.sqrtrem_spec (Zpos p * 2 ^ (2 * E)) ltac:(nia)) as Q.
  destruct (Z.sqrtrem (Zpos p * 2 ^ (2 * E))) as [q r]. destruct Q as [Q1 Q2].
  assert (HE : 27 <= E <= 60) by lia.
  assert (B : 2 ^ 104 <= Zpos p * 2 ^ (2 * E) <= 2 ^ 106 - 2 ^ (2 * E)).
  { pose proof (digits_bounds p) as [L U].
    assert (2 ^ 104 <= 2 ^ (d p - 1) * 2 ^ (2 * E)) by (rewrite <- Z.pow_add_r by lia; apply Z.pow_le_mono_r; lia).
    assert (2 ^ d p * 2 ^ (2 * E) <= 2 ^ 106) by (rewrite <- Z.pow_add_r by lia; apply Z.pow_le_mono_r; lia).
    assert (0 < 2 ^ (2 * E)) by (apply Z.pow_pos_nonneg; lia). nia. }
  assert (P54 : 2 ^ 54 <= 2 ^ (2 * E)) by (apply Z.pow_le_mono_r; lia).
  assert (q1 : 2 ^ 52 < q + 1) by (apply Z.square_lt_simpl_nonneg; lia).
  assert (q2 : q < 2 ^ 53 - 1) by (apply Z.square_lt_simpl_nonneg; lia).
  set (l := if r =? 0 then _ else _).
  assert (Rn : round_nearest_even q l = q \/ round_nearest_even q l = q + 1).
  { subst l. destruct (r =? 0); [now left|]. destruct (r <=? q); simpl; auto. }
  exists (Z.to_pos (round_nearest_even q l)), E.
  rewrite round_aux_53 by (cbn zeta; destruct Rn as [Rn|Rn]; rewrite ?Rn; lia).
  split; [reflexivity|]. split; [exact HE|].
  rewrite Z2Pos.id by (destruct Rn as [-> | ->]; lia).
  split; [destruct Rn as [-> | ->]; lia|]. exists q.
  split; [lia|]. split; [lia|]. split; [exact Rn|].
  intros X. assert (r = 0) by lia. subst r l. reflexivity.
Qed.

Lemma of_Z_normal i : 0 < i < 2 ^ 53 ->
  exists m, of_Z i = S754_finite false m (d (Z.to_pos i) - 53) /\ 2 ^ 52 <= Zpos m < 2 ^ 53 /\
    Zpos m = i * 2 ^ (53 - d (Z.to_pos i)) /\ 1 <= d (Z.to_pos i) <= 53.
Proof.
  intros H. destruct i as [|p|p]; try lia. assert (S : safe (Zpos p)) by (unfold safe; lia).
  rewrite of_Z_canon by auto. cbn [canon_Z Z.to_pos]. unfold canon. apply safe_digits in S as D.
  assert (1 <= d p) by (unfold d; lia).
  eexists; split; [reflexivity|]. rewrite shl_pos_Z, Z2Nat.id by lia.
  split; [|split; [reflexivity|lia]].
  pose proof (digits_bounds p) as [L U].
  assert (2 ^ (d p - 1) * 2 ^ (53 - d p) = 2 ^ 52) by (rewrite <- Z.pow_add_r by lia; f_equal; lia).
  assert (2 ^ d p * 2 ^ (53 - d p) = 2 ^ 53) by (rewrite <- Z.pow_add_r by lia; f_equal; lia).
  assert (0 < 2 ^ (53 - d p)) by (apply Z.pow_pos_nonneg; lia). nia.
Qed.

(** Comparing an integer with the computed square root of [n] is comparing its
    square with [n]: rounding never hides the difference below 2^51. *)
Lemma compare_sqrt i n : 0 < i < 2 ^ 26 -> 0 < n < 2 ^ 51 ->
  SFcompare (of_Z i) (sqrt (of_Z n)) = Some (Z.compare (i * i) n).
Proof.
  intros Hi Hn. destruct (sqrt_of_Z n Hn) as (R & E & -> & HE & HR & q & Q & Q0 & RQ & RX).
  destruct (of_Z_normal i ltac:(lia)) as (m & -> & Hm & Vm & Dm).
  rewrite (compare_normal m _ R _ (-60)) by lia. f_equal.
  set (di := d (Z.to_pos i)) in *.
  assert (V1 : Zpos m * 2 ^ (di - 53 - -60) = (i * 2 ^ E) * 2 ^ (60 - E)).
  { rewrite Vm, <- !Z.mul_assoc, <- !Z.pow_add_r by lia. do 2 f_equal. lia. }
  rewrite V1. replace (- E - -60) with (60 - E) by lia.
  assert (P : 0 < 2 ^ (60 - E)) by (apply Z.pow_pos_nonneg; lia).
  assert (T : 2 ^ (2 * E) = 2 ^ E * 2 ^ E) by (rewrite <- Z.pow_add_r by lia; f_equal; lia).
  rewrite T in *. assert (G : 2 ^ 27 <= 2 ^ E) by (apply Z.pow_le_mono_r; lia).
  set (W := 2 ^ E) in *.
  assert (S0 : (2 * i + 1) * W <= W * W) by (apply Z.mul_le_mono_nonneg_r; lia).
  assert (C : forall x, Z.compare x (Zpos R) = Z.compare (x * 2 ^ (60 - E)) (Zpos R * 2 ^ (60 - E))).
  { intros x. destruct (Z.compare_spec x (Zpos R)); symmetry;
      [apply Z.compare_eq_iff; congruence|apply Z.compare_lt_iff|apply Z.compare_gt_iff];
      now apply Z.mul_lt_mono_pos_r. }
  rewrite <- C. symmetry. destruct (Z.compare_spec (i * i) n) as [X|X|X]; symmetry.
  - apply Z.compare_eq_iff.
    assert (E1 : q < i * W + 1) by (apply Z.square_lt_simpl_nonneg; [|apply (Z.le_lt_trans _ _ _ (proj1 Q)); subst n]; lia).
    assert (E2 : i * W < q + 1) by (apply Z.square_lt_simpl_nonneg; [|subst n]; lia).
    assert (E3 : q = i * W) by lia. symmetry. rewrite <- E3. apply RX. rewrite E3. subst n. ring.
  - apply Z.compare_lt_iff.
    assert (S1 : (i * i + 1) * (W * W) <= n * (W * W)) by (apply Z.mul_le_mono_nonneg_r; lia).
    assert (S2 : i * W + 1 < q + 1) by (apply Z.square_lt_simpl_nonneg; lia). lia.
  - apply Z.compare_gt_iff.
    assert (S1 : (n + 1) * (W * W) <= i * i * (W * W)) by (apply Z.mul_le_mono_nonneg_r; lia).
    assert (S2 : q < i * W - 1) by (apply Z.square_lt_simpl_nonneg; lia). lia.
Qed.

Lemma sqrt_trunc k n : 0 <= k -> 0 < n < 2 ^ 51 -> k * k <= n -> k <= trunc_Z (sqrt (of_Z n)).
Proof.
  intros Hk Hn H. destruct (sqrt_of_Z n Hn) as (R & E & -> & HE & HR & q & Q & Q0 & RQ & _).
  unfold trunc_Z. replace (0 <=? - E) with false by (symmetry; apply Z.leb_gt; lia).
  cbn [cond_Zopp]. rewrite Z.shiftr_div_pow2, Z.opp_involutive by lia.
  assert (T : 2 ^ (2 * E) = 2 ^ E * 2 ^ E) by (rewrite <- Z.pow_add_r by lia; f_equal; lia).
  assert (0 < 2 ^ E) by (apply Z.pow_pos_nonneg; lia). set (W := 2 ^ E) in *. rewrite T in *.
  apply Z.div_le_lower_bound; [lia|].
  assert (S1 : k * k * (W * W) <= n * (W * W)) by (apply Z.mul_le_mono_nonneg_r; lia).
  assert (S2 : W * k < q + 1) by (apply Z.square_lt_simpl_nonneg; lia). lia.
Qed.

Lemma compare_Eq x y : SFcompare x y = Some Eq -> is_finite x = true ->
  (exists s, x = S754_zero s) \/ x = y.
Proof.
  destruct x as [s| | |s m e]; try discriminate; [eauto|].
  destruct y as [[]|[]| |t n f]; try (simpl; destruct s; discriminate).
  intros H _. right. cbn [SFcompare] in H.
  change (Pos.compare_cont Eq m n) with (Pos.compare m n) in H.
  destruct s, t; try discriminate; destruct (Z.compare_spec e f); try discriminate; subst;
    destruct (Pos.compare_spec m n); try discriminate; now subst.
Qed.

Lemma is_finite_of_Z n : safe n -> is_finite (of_Z n) = true.
Proof. intros. rewrite of_Z_canon by auto. now destruct n. Qed.

(** The computed root of a perfect square is the root. *)
Lemma sqrt_square k : 0 < k < 2 ^ 25 -> sqrt (of_Z (k * k)) = of_Z k.
Proof.
  intros Hk. assert (B : 0 < k * k < 2 ^ 51) by nia.
  pose proof (compare_sqrt k (k * k) ltac:(lia) B) as C. rewrite Z.compare_refl in C.
  apply compare_Eq in C; [|apply is_finite_of_Z; unfold safe; lia].
  destruct C as [[s C]|C]; [|now symmetry].
  rewrite of_Z_canon in C by (unfold safe; lia). destruct k; [lia|discriminate C..].
Qed.

Lemma nan_sqrt n : 0 < n < 2 ^ 51 -> is_nan (sqrt (of_Z n)) = false.
Proof. intros Hn. destruct (sqrt_of_Z n Hn) as (R & E & -> & _). reflexivity. Qed.

(** [sqrt === (sqrt | 0)] holds exactly for the perfect squares. *)
Lemma sqrt_is_int n : 0 < n < 2 ^ 50 ->
  eq (sqrt (of_Z n)) (of_Z (to_int32 (sqrt (of_Z n)))) = true <-> exists k, 0 < k /\ n = k * k.
Proof.
  intros Hn. split.
  - set (j := to_int32 (sqrt (of_Z n))). intros E.
    assert (Rj : - 2 ^ 31 <= j < 2 ^ 31) by apply wrap32_range.
    assert (C : forall i, 0 < i < 2 ^ 26 -> lt (of_Z i) (sqrt (of_Z n)) = (i * i <? n) /\
                lt (sqrt (of_Z n)) (of_Z i) = (n <? i * i)).
    { intros i Hi. pose proof (compare_sqrt i n Hi ltac:(lia)) as C. unfold lt, SFltb. rewrite C.
      pose proof (compare_key (sqrt (of_Z n)) (of_Z i)) as K1.
      pose proof (compare_key (of_Z i) (sqrt (of_Z n))) as K2. rewrite C in K2.
      unfold Z.ltb. destruct (Z.compare_spec (i * i) n); (split; [reflexivity|]);
        destruct (SFcompare (sqrt (of_Z n)) (of_Z i)) as [[]|]; rewrite ?(proj2 (Z.compare_lt_iff n (i*i))) by lia;
        rewrite ?(proj2 (Z.compare_gt_iff n (i*i))) by lia; rewrite ?(proj2 (Z.compare_eq_iff n (i*i))) by lia;
        try reflexivity; exfalso; revert K1 K2; unfold klt, keq;
        destruct (key (of_Z i)) as [[? ?] ?], (key (sqrt (of_Z n))) as [[? ?] ?]; intuition (try congruence; lia). }
    assert (J1 : 0 < j).
    { destruct (Z.lt_ge_cases 0 j); auto. exfalso.
      assert (A : lt (of_Z j) (of_Z 1) = true) by (rewrite of_Z_lt by (unfold safe; lia); apply Z.ltb_lt; lia).
      destruct (C 1 ltac:(lia)) as [_ C1]. replace (n <? 1 * 1) with false in C1 by (symmetry; apply Z.ltb_ge; lia).
      assert (lt (sqrt (of_Z n)) (of_Z 1) = true); [|congruence]. clear - E A. num_order. }
    assert (J2 : j < 2 ^ 26).
    { destruct (Z.lt_ge_cases j (2 ^ 26)); auto. exfalso.
      assert (A : lt (of_Z (2 ^ 26 - 1)) (of_Z j) = true) by (rewrite of_Z_lt by (unfold safe; lia); apply Z.ltb_lt; lia).
      destruct (C (2 ^ 26 - 1) ltac:(lia)) as [C1 _].
      replace (_ <? n) with false in C1 by (symmetry; apply Z.ltb_ge; lia).
      assert (lt (of_Z (2 ^ 26 - 1)) (sqrt (of_Z n)) = true); [|congruence]. clear - E A. num_order. }
    exists j. split; [lia|]. destruct (C j ltac:(lia)) as [C1 C2].
    assert (A1 : lt (of_Z j) (sqrt (of_Z n)) = false) by (clear - E; num_order).
    assert (A2 : lt (sqrt (of_Z n)) (of_Z j) = false) by (clear - E; num_order).
    rewrite A1 in C1. rewrite A2 in C2. symmetry in C1, C2. bool_to_prop. lia.
  - intros (k & Hk & ->). assert (k < 2 ^ 25) by nia. rewrite sqrt_square by lia.
    rewrite to_int32_of_Z by lia. rewrite of_Z_eq by (unfold safe; lia). apply Z.eqb_refl.
Qed.

Lemma lt_sqrt i n : 0 < i < 2 ^ 26 -> 0 < n < 2 ^ 51 -> lt (of_Z i) (sqrt (of_Z n)) = (i * i <? n).
Proof. intros. unfold lt, SFltb, Z.ltb. rewrite compare_sqrt by auto. now destruct (i * i ?= n). Qed.

(** *** Rounding gives a number *)
Lemma shr_1_nonneg r : 0 <= shr_m r -> 0 <= shr_m (shr_1 r).
Proof. destruct r as [m b1 b2]. cbn. destruct m as [|[p|p|]|p]; cbn; lia. Qed.
Lemma shr_nonneg r e n : 0 <= shr_m r -> 0 <= shr_m (fst (shr r e n)).
Proof.
  intros N. unfold shr. destruct n as [|p|p]; cbn [fst]; try exact N.
  assert (G : forall p r, 0 <= shr_m r -> 0 <= shr_m (SpecFloat.iter_pos shr_1 p r)); [|now apply G].
  clear. induction p as [p IH|p IH|]; intros r N; cbn [SpecFloat.iter_pos]; auto using shr_1_nonneg.
Qed.
Lemma shr_fexp_nonneg m e l : 0 <= m -> 0 <= shr_m (fst (shr_fexp 53 1024 m e l)).
Proof. intros N. apply shr_nonneg. destruct l as [|[]]; exact N. Qed.
Lemma nan_round_aux s m e l : 0 <= m -> is_nan (binary_round_aux 53 1024 s m e l) = false.
Proof.
  intros N. unfold binary_round_aux. pose proof (shr_fexp_nonneg m e l N) as N1. destruct (shr_fexp 53 1024 m e l) as [r1 e1]. cbn [fst] in N1.
  assert (N2 : 0 <= round_nearest_even (shr_m r1) (loc_of_shr_record r1)).
  { unfold round_nearest_even. destruct (loc_of_shr_record r1) as [|[]]; try destruct (Z.even _); lia. }
  pose proof (shr_fexp_nonneg _ e1 loc_Exact N2) as N3. destruct (shr_fexp 53 1024 _ e1 loc_Exact) as [r2 e2]. cbn [fst] in N3.
  destruct (shr_m r2); try reflexivity; [destruct (_ <=? _); reflexivity|lia].
Qed.
Lemma nan_binary_round s m e : is_nan (binary_round 53 1024 s m e) = false.
Proof. unfold binary_round. match goal with |- context [let (_, _) := ?p in _] => destruct p as [m1 e1] end. apply nan_round_aux. lia. Qed.
(** A number is a multiple of one: only zero times infinity is not a number. *)
Lemma nan_of_Z n : is_nan (of_Z n) = false.
Proof. unfold of_Z, binary_normalize. destruct n; try reflexivity; apply nan_binary_round. Qed.
Lemma nan_floor x : is_nan (floor x) = is_nan x.
Proof. destruct x as [s|s| |s m e]; try reflexivity. unfold floor. destruct (0 <=? e); [reflexivity|]. cbn [is_nan]. apply nan_of_Z. Qed.
Lemma nan_mul_finite s m e x : is_nan (mul (S754_finite s m e) x) = is_nan x.
Proof.
  destruct x as [t|t| |t n f]; try reflexivity. unfold mul, SFmul. cbn [is_nan]. apply nan_round_aux. lia.
Qed.

End NumExact.
