(* ===== verification/JsArray.v ===== *)
(** JavaScript arrays as lists: stable sort by a comparator, slices, and the
    generic lemmas the components share. *)
From Stdlib Require Import ZArith Lia Bool List Permutation Sorted.
From Stdlib Require Import SpecFloat.
From stdpp Require Import base list.
From S2P Require Import Prelude JsNumber.
Import ListNotations.
Open Scope Z_scope.

Section Sort.
Context {A : Type} (cmp : A -> A -> num).
(** [Array.prototype.sort] with a comparator: stable; [x] goes before [y]
    unless the comparator is positive. *)
Definition before (x y : A) : bool := negb (Num.lt 0%js (cmp x y)).
Fixpoint insert (x : A) (l : list A) : list A :=
  match l with
  | [] => [x]
  | y :: l' => if before x y then x :: l else y :: insert x l'
  end.
Definition sort_by (l : list A) : list A := fold_right insert [] l.

Lemma insert_perm x l : Permutation (insert x l) (x :: l).
Proof.
  induction l as [|y l IH]; simpl; [reflexivity|].
  destruct (before x y); [reflexivity|]. rewrite IH. apply perm_swap.
Qed.
Lemma sort_perm l : Permutation (sort_by l) l.
Proof. induction l; simpl; [reflexivity|]. rewrite insert_perm. now constructor. Qed.

(** When the comparator is a total preorder on the elements the result is sorted. *)
Context (R : A -> A -> Prop) (P : A -> Prop).
Hypothesis before_R : forall x y, P x -> P y -> before x y = true -> R x y.
Hypothesis not_before_R : forall x y, P x -> P y -> before x y = false -> R y x.
Hypothesis R_trans : forall x y z, R x y -> R y z -> R x z.

Lemma insert_sorted x l :
  P x -> Forall P l -> StronglySorted R l -> StronglySorted R (insert x l).
Proof.
  intros Px F S. induction S as [|y l S IH H]; simpl; [repeat constructor|].
  inversion F as [|? ? Py Fl]; subst. destruct (before x y) eqn:E.
  - constructor; [now constructor|]. constructor; [auto|].
    apply List.Forall_forall. intros z I. rewrite List.Forall_forall in H.
    eapply R_trans; [apply before_R; eauto|auto].
  - constructor; [auto|]. apply List.Forall_forall. intros z I.
    apply (Permutation_in _ (insert_perm x l)) in I. destruct I as [<-|I]; [auto|].
    rewrite List.Forall_forall in H. auto.
Qed.

Lemma sort_sorted l : Forall P l -> StronglySorted R (sort_by l).
Proof.
  induction 1 as [|x l Px F IH]; simpl; [constructor|].
  apply insert_sorted; auto. apply List.Forall_forall. intros y I.
  apply (Permutation_in _ (sort_perm l)) in I. rewrite List.Forall_forall in F. auto.
Qed.
End Sort.

(** [a.slice(start, end)] for indices in range. *)
Definition slice {A} (l : list A) (s e : Z) : list A :=
  firstn (Z.to_nat (e - s)) (skipn (Z.to_nat s) l).

(** [a[i]]; None for undefined. *)
Definition nthZ {A} (l : list A) (i : Z) : option A :=
  if (i <? 0) then None else nth_error l (Z.to_nat i).
Definition lengthZ {A} (l : list A) : Z := Z.of_nat (List.length l).

Lemma nthZ_Some {A} (l : list A) i : 0 <= i < lengthZ l -> exists x, nthZ l i = Some x.
Proof.
  unfold nthZ, lengthZ. intros H. replace (i <? 0) with false by (symmetry; apply Z.ltb_ge; lia).
  destruct (nth_error l (Z.to_nat i)) eqn:E; [eauto|]. apply nth_error_None in E. lia.
Qed.
Lemma nthZ_None {A} (l : list A) i : nthZ l i = None <-> i < 0 \/ lengthZ l <= i.
Proof.
  unfold nthZ, lengthZ. destruct (Z.ltb_spec i 0); [split; [lia|reflexivity]|].
  rewrite nth_error_None. lia.
Qed.

Lemma filter_NoDup_base {A} (p : A -> bool) (l : list A) : base.NoDup l -> base.NoDup (List.filter p l).
Proof. rewrite !NoDup_ListNoDup. apply List.NoDup_filter. Qed.
Lemma NoDup_snoc {A} (x : A) (l : list A) : List.NoDup l -> ~ In x l -> List.NoDup (l ++ [x]).
Proof.
  rewrite <- !NoDup_ListNoDup. intros N I. apply NoDup_app. split; [auto|]. split; [|apply NoDup_singleton].
  intros y Y Z. apply list_elem_of_singleton in Z. subst. apply I. now apply list_elem_of_In.
Qed.

Lemma list_last_indep {A} (l : list A) a b : l <> [] -> List.last l a = List.last l b.
Proof. induction l as [|x [|y l] IH]; intros N; [congruence|reflexivity|]. apply IH. discriminate. Qed.
Lemma list_last_In {A} (l : list A) a : l <> [] -> In (List.last l a) l.
Proof.
  induction l as [|x [|y l] IH]; intros N; [congruence|now left|]. right. apply IH. discriminate.
Qed.
Lemma sorted_map {A B} (f : A -> B) (R : A -> A -> Prop) (S : B -> B -> Prop) l :
  (forall x y, In x l -> In y l -> R x y -> S (f x) (f y)) -> StronglySorted R l -> StronglySorted S (List.map f l).
Proof.
  intros K. induction 1 as [|x l SS IH F]; cbn [List.map]; constructor.
  - apply IH. intros a b I J. apply K; now right.
  - apply List.Forall_map. rewrite List.Forall_forall in *. intros y I. apply K; [now left|now right|auto].
Qed.

Lemma nth_error_lookup {X} (l : list X) i : nth_error l i = l !! i.
Proof. revert i. induction l as [|x l IH]; intros [|i]; cbn; auto. Qed.
Lemma nth_error_insert_eq {X} (l : list X) i x : (i < List.length l)%nat -> nth_error (<[i := x]> l) i = Some x.
Proof. intros L. rewrite nth_error_lookup. now apply list_lookup_insert_eq. Qed.
Lemma nth_error_insert_ne {X} (l : list X) i j x : j <> i -> nth_error (<[i := x]> l) j = nth_error l j.
Proof. intros N. rewrite !nth_error_lookup. apply list_lookup_insert_ne. congruence. Qed.
