(* ===== verification/JsValue.v ===== *)
(** JavaScript values as trees.

    An object is its list of own enumerable properties in creation order; the
    objects modelled with it are option trees, which the code builds fresh or
    clones, so a tree without sharing represents them.  Functions are opaque
    names.  The induction principle gives the hypothesis for every element of an
    array and every property of an object. *)
From Stdlib Require Import ZArith Lia Bool List Ascii String.
From Stdlib Require Import SpecFloat.
From stdpp Require Import base list.
From S2P Require Import Prelude JsNumber JsString.
Import ListNotations.
Open Scope Z_scope.

Unset Elimination Schemes.
Inductive value :=
| Undefined
| Null
| VBool (b : bool)
| VNum (x : num)
| VStr (s : string)
| VArr (l : list value)
| VObj (o : list (string * value))
| VFun (name : string).

Set Elimination Schemes.

Section ValueInd.
Variable P : value -> Prop.
Hypothesis PU : P Undefined.
Hypothesis PN : P Null.
Hypothesis PB : forall b, P (VBool b).
Hypothesis PX : forall x, P (VNum x).
Hypothesis PS : forall s, P (VStr s).
Hypothesis PF : forall f, P (VFun f).
Hypothesis PA : forall l, List.Forall P l -> P (VArr l).
Hypothesis PO : forall o, List.Forall (fun kv => P (snd kv)) o -> P (VObj o).
Fixpoint value_ind' (v : value) : P v :=
  match v with
  | Undefined => PU | Null => PN | VBool b => PB b | VNum x => PX x
  | VStr s => PS s | VFun f => PF f
  | VArr l => PA l ((fix go l : List.Forall P l :=
      match l with
      | [] => @List.Forall_nil _ _
      | x :: l' => @List.Forall_cons _ _ _ _ (value_ind' x) (go l')
      end) l)
  | VObj o => PO o ((fix go o : List.Forall (fun kv => P (snd kv)) o :=
      match o with
      | [] => @List.Forall_nil _ _
      | kv :: o' => @List.Forall_cons _ _ _ _ (value_ind' (snd kv)) (go o')
      end) o)
  end.
End ValueInd.

Module Obj.

Definition obj : Type := list (string * value).

(** [Object.keys], own property lookup, and assignment: a new property goes last. *)
Definition keys (o : obj) : list string := List.map fst o.
Fixpoint get (k : string) (o : obj) : option value :=
  match o with
  | [] => None
  | (k', v) :: o' => if String.eqb k k' then Some v else get k o'
  end.
Fixpoint put (k : string) (v : value) (o : obj) : obj :=
  match o with
  | [] => [(k, v)]
  | (k', v') :: o' => if String.eqb k k' then (k', v) :: o' else (k', v') :: put k v o'
  end.
Definition has (k : string) (o : obj) : bool := match get k o with Some _ => true | None => false end.
(** The names every plain object inherits from [Object.prototype]. *)
Definition inherited (k : string) : bool :=
  existsb (String.eqb k) ["constructor"; "__proto__"; "toString"; "valueOf"; "hasOwnProperty";
    "isPrototypeOf"; "propertyIsEnumerable"; "toLocaleString"; "__defineGetter__";
    "__defineSetter__"; "__lookupGetter__"; "__lookupSetter__"]%string.

Lemma get_put_eq k v o : get k (put k v o) = Some v.
Proof.
  induction o as [|[k' v'] o IH]; simpl; [now rewrite String.eqb_refl|].
  destruct (String.eqb k k') eqn:E; simpl; rewrite E; auto.
Qed.
Lemma get_put_ne k k' v o : k <> k' -> get k (put k' v o) = get k o.
Proof.
  intros N. induction o as [|[j w] o IH]; simpl.
  - apply String.eqb_neq in N. now rewrite N.
  - destruct (String.eqb k' j) eqn:E; simpl; [|now rewrite IH].
    apply String.eqb_eq in E. subst. apply String.eqb_neq in N. now rewrite N.
Qed.
Lemma get_put k k' v o : get k (put k' v o) = if String.eqb k k' then Some v else get k o.
Proof.
  destruct (String.eqb k k') eqn:E.
  - apply String.eqb_eq in E. subst. apply get_put_eq.
  - apply String.eqb_neq in E. now apply get_put_ne.
Qed.
Lemma put_get k v o : get k o = Some v -> put k v o = o.
Proof.
  induction o as [|[j w] o IH]; simpl; [discriminate|].
  destruct (String.eqb k j); [congruence|]. intros. now rewrite IH.
Qed.
Lemma get_In k v o : get k o = Some v -> In (k, v) o.
Proof.
  induction o as [|[j w] o IH]; simpl; [discriminate|].
  destruct (String.eqb k j) eqn:E; [|auto]. apply String.eqb_eq in E. intros [= ->]. subst. auto.
Qed.
Lemma In_get k v o : List.NoDup (keys o) -> In (k, v) o -> get k o = Some v.
Proof.
  induction o as [|[j w] o IH]; simpl; [contradiction|].
  intros N. inversion N as [|? ? N1 N2]; subst. intros [[= <- <-]|I].
  - now rewrite String.eqb_refl.
  - destruct (String.eqb k j) eqn:E; [|auto]. apply String.eqb_eq in E. subst.
    exfalso. apply N1. change j with (fst (j, v)). now apply in_map.
Qed.
Lemma get_None k o : get k o = None <-> ~ In k (keys o).
Proof.
  induction o as [|[j w] o IH]; simpl; [tauto|].
  destruct (String.eqb k j) eqn:E.
  - apply String.eqb_eq in E. subst. split; [discriminate|tauto].
  - apply String.eqb_neq in E. rewrite IH. intuition congruence.
Qed.

End Obj.

Module Js.
Import Obj Str.
Local Open Scope string_scope.

Definition is_undefined (v : value) : bool := match v with Undefined => true | _ => false end.

(** ToBoolean. *)
Definition truthy (v : value) : bool :=
  match v with
  | Undefined | Null => false
  | VBool b => b
  | VNum x => negb (Num.is_nan x || Num.eq x 0%js)
  | VStr s => negb (String.eqb s "")
  | VArr _ | VObj _ | VFun _ => true
  end.

(** ToString; a function prints its text, of which only the name is kept. *)
Fixpoint to_str (v : value) : string :=
  match v with
  | Undefined => "undefined"
  | Null => "null"
  | VBool b => if b then "true" else "false"
  | VNum x => NumStr.print x
  | VStr s => s
  | VArr l => String.concat "," (List.map (fun x =>
      match x with Undefined | Null => "" | _ => to_str x end) l)
  | VObj _ => "[object Object]"
  | VFun f => f
  end.

Definition trim (s : string) : string :=
  let rev s := string_of_list_ascii (List.rev (list_ascii_of_string s)) in
  let left s := snd (span is_space s) in
  rev (left (rev (left s))).

(** ToNumber. *)
Definition to_num (v : value) : num :=
  match v with
  | Undefined => Num.nan
  | Null => 0%js
  | VBool b => if b then 1%js else 0%js
  | VNum x => x
  | _ => NumStr.parse (trim (to_str v))
  end.

(** [parseFloat]: the longest numeric prefix after white space. *)
Definition parseFloat_prefix (s : string) : string :=
  let '(sg, r0) := match s with
    | String c r => if one_of "+-" c then (String c "", r) else ("", s)
    | _ => ("", s) end in
  if String.prefix "Infinity" r0 then sg ++ "Infinity" else
  let '(i, r1) := span is_digit r0 in
  let '(f, r2) := match r1 with
    | String c r => if Ascii.eqb c "." then let '(w, t) := span is_digit r in (String c w, t) else ("", r1)
    | _ => ("", r1) end in
  let mant := i ++ f in
  if Nat.eqb (String.length i + (String.length f - 1)) 0 then "" else
  let ex := match r2 with
    | String c r =>
        if one_of "eE" c then
          let '(s2, r3) := match r with
            | String d r' => if one_of "+-" d then (String d "", r') else ("", r)
            | _ => ("", r) end in
          let '(x, _) := span is_digit r3 in
          if String.eqb x "" then "" else String c (s2 ++ x)
        else ""
    | _ => "" end in
  sg ++ mant ++ ex.
Definition parseFloat (s : string) : num :=
  match parseFloat_prefix (snd (span is_space s)) with
  | "" => Num.nan
  | p => NumStr.parse p
  end.

(** Property access [v[k]]; on null and undefined it throws and is not called. *)
Definition index (v : value) (k : string) : value :=
  match v with
  | VObj o => match get k o with Some x => x | None => Undefined end
  | VArr l =>
      if String.eqb k "length" then VNum (Num.of_nat (List.length l)) else
      match List.find (fun i => String.eqb (NumStr.print (Num.of_nat i)) k) (List.seq 0 (List.length l)) with
      | Some i => List.nth i l Undefined
      | None => Undefined
      end
  | VStr s => if String.eqb k "length" then VNum (Num.of_nat (String.length s)) else Undefined
  | _ => Undefined
  end.

End Js.
