(* ===== verification/HelpersCore.v ===== *)
(** The core helpers of webui/public/chart.js: value tests, [each], deep
    [clone] and [merge], key resolution, and the scoped option store
    [Defaults].

    Proved: [merge] gives the source priority and [mergeIf] the target, neither
    writes a prototype key, merging is idempotent, [resolveObjectKey] follows
    the dotted path, and what [Defaults.set] stores is read back by
    [Defaults.get]. *)
From Stdlib Require Import ZArith Lia Bool List Ascii String.
From Stdlib Require Import SpecFloat.
From stdpp Require Import base list.
From S2P Require Import Prelude JsNumber JsString JsValue.
Import ListNotations.
Open Scope Z_scope.

Module Core.
Import Obj Js Str.
Local Open Scope string_scope.

(** ** Tests and defaults *)
Definition isNullOrUndef (v : value) : bool :=
  match v with Null | Undefined => true | _ => false end.
Definition isArray (v : value) : bool := match v with VArr _ => true | _ => false end.
Definition isObject (v : value) : bool := match v with VObj _ => true | _ => false end.
Definition isNumberFinite (v : value) : bool :=
  match v with VNum x => Num.is_finite x | _ => false end.
Definition finiteOrDefault (v d : value) : value := if isNumberFinite v then v else d.
Definition valueOrDefault (v d : value) : value := if is_undefined v then d else v.
Definition defined (v : value) : bool := negb (is_undefined v).
Definition isFunction (v : value) : bool := match v with VFun _ => true | _ => false end.

Definition toPercentage (v : value) (dimension : num) : num :=
  match v with
  | VStr s => if endsWith s "%" then Num.div (parseFloat s) 100%js
              else Num.div (to_num v) dimension
  | _ => Num.div (to_num v) dimension
  end.
Definition toDimension (v : value) (dimension : num) : num :=
  match v with
  | VStr s => if endsWith s "%" then Num.mul (Num.div (parseFloat s) 100%js) dimension
              else to_num v
  | _ => to_num v
  end.

(** [each]: the calls of the callback, in order, as (value, key) pairs; the
    state [st] stands for whatever the callback changes. *)
Definition each {St} (loopable : value) (fn : St -> value -> value -> St) (reverse : bool) (st : St) : St :=
  match loopable with
  | VArr l =>
      let calls := combine l (List.map (fun i => VNum (Num.of_nat i)) (List.seq 0 (List.length l))) in
      fold_left (fun st c => fn st (fst c) (snd c)) (if reverse then List.rev calls else calls) st
  | VObj o => fold_left (fun st kv => fn st (snd kv) (VStr (fst kv))) o st
  | _ => st
  end.

(** Active elements: the dataset index and the index. *)
Record active := { datasetIndex : Z; aindex : Z }.
Fixpoint same_elements (a0 a1 : list active) : bool :=
  match a0, a1 with
  | x :: a0', y :: a1' =>
      if negb (datasetIndex x =? datasetIndex y)%Z || negb (aindex x =? aindex y)%Z then false
      else same_elements a0' a1'
  | _, _ => true
  end.
Definition _elementsEqual (a0 a1 : option (list active)) : bool :=
  match a0, a1 with
  | Some l0, Some l1 =>
      if negb (Nat.eqb (List.length l0) (List.length l1)) then false else same_elements l0 l1
  | _, _ => false
  end.

(** ** clone and merge *)
Fixpoint clone (source : value) : value :=
  match source with
  | VArr l => VArr (List.map clone l)
  | VObj o => VObj ((fix go kvs (target : obj) : obj :=
      match kvs with
      | [] => target
      | (k, v) :: kvs' => go kvs' (put k (clone v) target)
      end) o [])
  | _ => source
  end.

Definition isValidKey (k : string) : bool :=
  negb (existsb (String.eqb k) ["__proto__"; "prototype"; "constructor"]).

(** [merge(target, source, {merger})] for a source that is not an array, where
    [keep] selects the merger: [_merger] (false) or [_mergerIf] (true). *)
Fixpoint merge1 (keep : bool) (target source : value) : value :=
  match target, source with
  | VObj t, VObj s => VObj ((fix go kvs (t : obj) : obj :=
      match kvs with
      | [] => t
      | (k, sval) :: kvs' =>
          go kvs'
            (if isValidKey k then
               match get k t, sval with
               | Some (VObj o), VObj _ => put k (merge1 keep (VObj o) sval) t
               | _, _ => if keep && has k t then t else put k (clone sval) t
               end
             else t)
      end) s t)
  | _, _ => target
  end.

Definition sources (source : value) : list value :=
  match source with VArr l => l | _ => [source] end.
Definition merge (target source : value) : value := fold_left (merge1 false) (sources source) target.
Definition mergeIf (target source : value) : value := fold_left (merge1 true) (sources source) target.

(** One step of the loop over the source's keys, for one key. *)
Definition _merger (k : string) (t : obj) (sval : value) : obj :=
  if isValidKey k then
    match get k t, sval with
    | Some (VObj o), VObj _ => put k (merge1 false (VObj o) sval) t
    | _, _ => put k (clone sval) t
    end
  else t.
Definition _mergerIf (k : string) (t : obj) (sval : value) : obj :=
  if isValidKey k then
    match get k t, sval with
    | Some (VObj o), VObj _ => put k (merge1 true (VObj o) sval) t
    | _, _ => if has k t then t else put k (clone sval) t
    end
  else t.

(** ** Keys *)
Definition indexOfDotOrLength (key : string) (start : nat) : nat :=
  match indexOf (skip start key) "." with
  | Some i => (start + i)%nat
  | None => String.length key
  end.

(** The loop of [resolveObjectKey]; [fuel] bounds the number of dots. *)
Fixpoint resolve_loop (fuel : nat) (o : value) (key : string) (pos idx : nat) : value :=
  match fuel with
  | O => o
  | S f =>
      if truthy o && Nat.ltb pos idx then
        let o' := index o (substr key pos (idx - pos)) in
        let pos' := S idx in
        resolve_loop f o' key pos' (indexOfDotOrLength key pos')
      else o
  end.
Definition resolveObjectKey (o : value) (key : string) : value :=
  if String.eqb key "" then o
  else resolve_loop (S (String.length key)) o key 0 (indexOfDotOrLength key 0).

Definition _capitalize (s : string) : string := toUpperCase (take 1 s) ++ skip 1 s.

(** Sets of strings as duplicate-free lists. *)
Definition setsEqual (a b : list string) : bool :=
  if negb (Nat.eqb (List.length a) (List.length b)) then false
  else forallb (fun x => existsb (String.eqb x) b) a.

Definition _isClickEvent (type : string) : bool :=
  String.eqb type "mouseup" || String.eqb type "click" || String.eqb type "contextmenu".

(** ** The scoped store *)

(** [key.split('.')]. *)
Fixpoint split_dots (cur : string) (s : string) : list string :=
  match s with
  | EmptyString => [cur]
  | String c s' => if Ascii.eqb c "." then cur :: split_dots "" s'
                   else split_dots (cur ++ String c "") s'
  end.
Definition scope_keys (key : string) : list string :=
  if String.eqb key "" then [] else split_dots "" key.

(** [getScope$1] walks down the keys and creates the missing objects; the
    reference it returns is modelled by [f], what the caller then does with the
    node.  None: the node on the path is not a plain object (on a primitive the
    assignment throws). *)
Fixpoint with_scope (ks : list string) (node : value) (f : value -> value) : option value :=
  match ks with
  | [] => Some (f node)
  | k :: ks' =>
      match node with
      | VObj o =>
          let child := match get k o with
                       | Some v => if truthy v then v else VObj []
                       | None => VObj [] end in
          match with_scope ks' child f with
          | Some c => Some (VObj (put k c o))
          | None => None
          end
      | _ => None
      end
  end.

Fixpoint scope_at (ks : list string) (node : value) : option value :=
  match ks with
  | [] => Some node
  | k :: ks' =>
      match node with
      | VObj o => scope_at ks' (match get k o with
                                | Some v => if truthy v then v else VObj []
                                | None => VObj [] end)
      | _ => None
      end
  end.
Definition getScope_1 (node : value) (key : string) : option value := scope_at (scope_keys key) node.

(** [set(root, scope, values)] with a string scope, or [set(root, values)]. *)
Definition set (root : value) (scope : string) (values : value) : option value :=
  with_scope (scope_keys scope) root (fun node => merge node values).
Definition set_root (root values : value) : option value := Some (merge root values).

(** The three stores behind [Defaults]. *)
Record stores := { root : value; descriptors : value; overrides : value }.
Definition Defaults_set (d : stores) (scope : string) (values : value) : option stores :=
  match set (root d) scope values with
  | Some v => Some {| root := v; descriptors := descriptors d; overrides := overrides d |}
  | None => None end.
Definition Defaults_get (d : stores) (scope : string) : option value := getScope_1 (root d) scope.
Definition Defaults_describe (d : stores) (scope : string) (values : value) : option stores :=
  match set (descriptors d) scope values with
  | Some v => Some {| root := root d; descriptors := v; overrides := overrides d |}
  | None => None end.
Definition Defaults_override (d : stores) (scope : string) (values : value) : option stores :=
  match set (overrides d) scope values with
  | Some v => Some {| root := root d; descriptors := descriptors d; overrides := v |}
  | None => None end.

End Core.

(** ** Facts *)
Module CoreFacts.
Import Obj Js Str Core.
Local Open Scope string_scope.

(** Every object of the tree has distinct keys, as JavaScript guarantees. *)
Fixpoint wf (v : value) : Prop :=
  match v with
  | VArr l => (fix go l := match l with [] => True | x :: l' => wf x /\ go l' end) l
  | VObj o => List.NoDup (keys o) /\
      (fix go (o : obj) := match o with [] => True | kv :: o' => wf (snd kv) /\ go o' end) o
  | _ => True
  end.

Lemma wf_arr l : wf (VArr l) -> List.Forall wf l.
Proof. simpl. induction l; simpl; intuition constructor; auto. Qed.
Lemma wf_obj o : wf (VObj o) -> List.NoDup (keys o) /\ List.Forall (fun kv => wf (snd kv)) o.
Proof. simpl. intros [N H]. split; [exact N|]. clear N. induction o; simpl in *; intuition constructor; auto. Qed.
Lemma wf_get o k v : wf (VObj o) -> get k o = Some v -> wf v.
Proof.
  intros W G. apply wf_obj in W as [_ W]. apply get_In in G.
  rewrite List.Forall_forall in W. exact (W _ G).
Qed.

Definition fold_clone (o target : obj) : obj :=
  fold_left (fun t kv => put (fst kv) (clone (snd kv)) t) o target.
Lemma clone_obj o : clone (VObj o) = VObj (fold_clone o []).
Proof.
  simpl. f_equal. unfold fold_clone. generalize (@nil (string * value)).
  induction o as [|[k v] o IH]; simpl; intros; auto.
Qed.

Lemma put_fresh k v o : get k o = None -> put k v o = (o ++ [(k, v)])%list.
Proof.
  induction o as [|[j w] o IH]; simpl; [reflexivity|].
  destruct (String.eqb k j); [discriminate|]. intros. now rewrite IH.
Qed.

(** A deep copy of a well-formed value has the same tree. *)
Lemma clone_id v : wf v -> clone v = v.
Proof.
  induction v as [| | | | | |l IH|o IH] using value_ind'; intros W; try reflexivity.
  - apply wf_arr in W. simpl. f_equal.
    induction IH; simpl; [reflexivity|]. inversion W; subst. f_equal; auto.
  - apply wf_obj in W as [N W]. rewrite clone_obj. f_equal. unfold fold_clone.
    change o with ([] ++ o)%list in N at 1. change o with ([] ++ o)%list at 2.
    generalize dependent (@nil (string * value)).
    induction o as [|[k v] o IHo]; intros t N; simpl; [now rewrite app_nil_r|].
    inversion IH; inversion W; subst. simpl in *. rewrite H1 by auto.
    rewrite put_fresh.
    + replace (t ++ (k, v) :: o)%list with ((t ++ [(k, v)]) ++ o)%list in * by now rewrite <- app_assoc.
      apply IHo; auto.
    + apply get_None. intros I. unfold keys in *. rewrite map_app in N. simpl in N.
      apply List.NoDup_remove_2 in N. apply N, in_app_iff. now left.
Qed.

(** The merge of two objects as a fold of the merger over the source's keys. *)
Definition step (keep : bool) (t : obj) (kv : string * value) : obj :=
  if keep then _mergerIf (fst kv) t (snd kv) else _merger (fst kv) t (snd kv).

Lemma merge1_fold keep t s : merge1 keep (VObj t) (VObj s) = VObj (fold_left (step keep) s t).
Proof.
  simpl. f_equal. revert t.
  induction s as [|[k v] s IH]; intros t; [reflexivity|]. rewrite IH. simpl. f_equal.
  unfold step, _merger, _mergerIf. cbn [fst snd]. destruct keep; reflexivity.
Qed.

Lemma merge1_nonobj_t keep t s : isObject t = false -> merge1 keep t s = t.
Proof. intros H. destruct t; try discriminate; destruct s; reflexivity. Qed.
Lemma merge1_nonobj_s keep t s : isObject s = false -> merge1 keep t s = t.
Proof. intros H. destruct s; try discriminate; destruct t; reflexivity. Qed.

Lemma isObject_merge1 keep t s : isObject (merge1 keep t s) = isObject t.
Proof. destruct t, s; reflexivity. Qed.

(** What one merger call leaves under its key. *)
Definition merged (keep : bool) (k : string) (old : option value) (sv : value) : option value :=
  if isValidKey k then
    match old, sv with
    | Some (VObj o), VObj _ => Some (merge1 keep (VObj o) sv)
    | Some x, _ => if keep then Some x else Some (clone sv)
    | None, _ => Some (clone sv)
    end
  else old.

Lemma get_step keep t k sv j :
  get j (step keep t (k, sv)) = if String.eqb j k then merged keep k (get k t) sv else get j t.
Proof.
  unfold step, merged, _merger, _mergerIf, has. cbn [fst snd].
  destruct (String.eqb j k) eqn:E; [apply String.eqb_eq in E; subst|apply String.eqb_neq in E];
    destruct keep, (isValidKey k), (get k t) as [[]|] eqn:G, sv;
    rewrite ?get_put_eq, ?G, ?get_put_ne by auto; auto.
Qed.

Lemma get_fold keep s t k :
  List.NoDup (keys s) ->
  get k (fold_left (step keep) s t) =
  match get k s with Some sv => merged keep k (get k t) sv | None => get k t end.
Proof.
  revert t. induction s as [|[j sv] s IH]; intros t N; [reflexivity|].
  inversion N as [|? ? N1 N2]; subst. cbn [fold_left]. rewrite IH by auto. rewrite get_step.
  simpl. destruct (String.eqb k j) eqn:E; [|reflexivity].
  apply String.eqb_eq in E. subst. apply get_None in N1. now rewrite N1.
Qed.

(** Following a list of keys. *)
Fixpoint at_path (p : list string) (v : value) : option value :=
  match p with
  | [] => Some v
  | k :: p' => match v with
               | VObj o => match get k o with Some x => at_path p' x | None => None end
               | _ => None
               end
  end.

Lemma merge1_true_keeps p : forall target source v,
  wf source -> at_path p target = Some v -> isObject v = false ->
  at_path p (merge1 true target source) = Some v.
Proof.
  induction p as [|k p IH]; intros target source v W A O; simpl in A.
  - injection A as ->. now rewrite merge1_nonobj_t.
  - destruct target as [| | | | | |t|]; try discriminate.
    destruct (get k t) as [x|] eqn:G; [|discriminate].
    destruct source as [| | | | | |s|]; try (simpl; now rewrite G).
    rewrite merge1_fold. simpl. rewrite get_fold by apply (wf_obj _ W). rewrite G.
    destruct (get k s) as [sv|] eqn:S; [|exact A].
    unfold merged. destruct (isValidKey k); [|exact A].
    destruct x; try exact A. destruct sv; try exact A.
    apply IH; auto. exact (wf_get _ _ _ W S).
Qed.

Lemma mergeIf_keeps p target source v :
  List.Forall wf (sources source) -> at_path p target = Some v -> isObject v = false ->
  at_path p (mergeIf target source) = Some v.
Proof.
  intros W A O. unfold mergeIf. revert target A.
  induction W as [|x l Wx Wl IH]; intros target A; simpl; [exact A|].
  apply IH. now apply merge1_true_keeps.
Qed.

(** [mergeIf] keeps the target: a value other than an object that the
    target has at some path is still there after merging any sources. *)
Theorem mergeIf_keeps_target p target source v :
  List.Forall wf (sources source) -> at_path p target = Some v -> isObject v = false ->
  at_path p (mergeIf target source) = Some v.
Proof. apply mergeIf_keeps. Qed.

(** What a fresh key gets from the source, at any depth. *)
Lemma merge1_fresh keep k p t source v :
  wf source -> get k t = None -> isValidKey k = true ->
  at_path (k :: p) source = Some v -> at_path (k :: p) (merge1 keep (VObj t) source) = Some v.
Proof.
  intros W G K A. destruct source as [| | | | | |s|]; try discriminate.
  rewrite merge1_fold. simpl. rewrite get_fold by apply (wf_obj _ W). simpl in A.
  destruct (get k s) as [sv|] eqn:S; [|discriminate]. unfold merged. rewrite K, G.
  now rewrite (clone_id _ (wf_get _ _ _ W S)).
Qed.

Lemma merge1_false_wins p : forall target source v,
  wf source -> isObject target = true -> isObject source = true ->
  at_path p source = Some v -> isObject v = false -> forallb isValidKey p = true ->
  at_path p (merge1 false target source) = Some v.
Proof.
  induction p as [|k p IH]; intros target source v W T S A O K; simpl in A.
  - injection A as ->. congruence.
  - destruct source as [| | | | | |s|]; try discriminate.
    destruct target as [| | | | | |t|]; try discriminate.
    destruct (get k s) as [sv|] eqn:G; [|discriminate].
    simpl in K. apply andb_true_iff in K as [Kk Kp].
    rewrite merge1_fold. simpl. rewrite get_fold by apply (wf_obj _ W). rewrite G.
    pose proof (wf_get _ _ _ W G) as Wv.
    unfold merged. rewrite Kk.
    destruct (get k t) as [x|]; [|now rewrite (clone_id _ Wv)].
    destruct x; try (now rewrite (clone_id _ Wv)).
    destruct sv; try (now rewrite (clone_id _ Wv)).
    apply IH; auto.
Qed.

(** [merge] gives the source priority: a value other than an object that
    an object source has at a path of valid keys is there after the merge. *)
Theorem merge_source_wins p target source v :
  wf source -> isObject target = true -> isObject source = true ->
  at_path p source = Some v -> isObject v = false -> forallb isValidKey p = true ->
  at_path p (merge target source) = Some v.
Proof.
  intros. replace (merge target source) with (merge1 false target source).
  - now apply merge1_false_wins.
  - destruct source; (discriminate || reflexivity).
Qed.

(** Neither merge assigns a prototype key ([__proto__], [prototype],
    [constructor]) in an object the target already has: at every path where both
    the target and the result have an object, such a key is unchanged. *)
Theorem merge_no_pollution keep k p : forall target source o o',
  wf source -> isValidKey k = false ->
  at_path p target = Some (VObj o) -> at_path p (merge1 keep target source) = Some (VObj o') ->
  get k o' = get k o.
Proof.
  induction p as [|j p IH]; intros target source o o' W K A B.
  - injection A as ->. destruct source as [| | | | | |s|]; try (injection B as <-; reflexivity).
    rewrite merge1_fold in B. injection B as <-. rewrite get_fold by apply (wf_obj _ W).
    unfold merged. rewrite K. now destruct (get k s).
  - simpl in A. destruct target as [| | | | | |t|]; try discriminate.
    destruct (get j t) as [x|] eqn:G; [|discriminate].
    destruct source as [| | | | | |s|];
      try (simpl in B; rewrite G, A in B; injection B as <-; reflexivity).
    rewrite merge1_fold in B. simpl in B. rewrite get_fold, G in B by apply (wf_obj _ W).
    destruct (get j s) as [sv|] eqn:S; [|rewrite A in B; injection B as <-; reflexivity].
    unfold merged in B. destruct (isValidKey j); [|rewrite A in B; injection B as <-; reflexivity].
    pose proof (wf_get _ _ _ W S) as Wv.
    destruct x as [| | | | | |xo|]; try (destruct p; discriminate).
    destruct sv as [| | | | | |so|];
      try (destruct keep; [rewrite A in B; injection B as <-; reflexivity|destruct p; discriminate]).
    eapply (IH (VObj xo) (VObj so)); eauto.
Qed.

Lemma fold_step_id keep s t :
  (forall k sv, In (k, sv) s -> step keep t (k, sv) = t) -> fold_left (step keep) s t = t.
Proof.
  induction s as [|[k sv] s IH]; intros H; simpl; [reflexivity|].
  rewrite H by (now left). apply IH. intros. apply H. now right.
Qed.

Lemma step_id keep t k sv v :
  wf sv -> get k t = Some v ->
  (keep = false -> clone sv = v \/ exists o, v = VObj o /\ isObject sv = true) ->
  (forall o, v = VObj o -> isObject sv = true -> merge1 keep (VObj o) sv = VObj o) ->
  step keep t (k, sv) = t.
Proof.
  intros W G C M. unfold step, _merger, _mergerIf, has. cbn [fst snd]. rewrite G.
  destruct (isValidKey k); [|now destruct keep].
  destruct keep.
  - destruct v; try reflexivity. destruct sv; try reflexivity.
    rewrite M by reflexivity. now apply put_get.
  - destruct (C eq_refl) as [E|(o & -> & S)].
    + destruct v as [| | | | | |o|], sv; try (rewrite E; now apply put_get).
      rewrite M by reflexivity. now apply put_get.
    + destruct sv; try discriminate. rewrite M by reflexivity. now apply put_get.
Qed.

Lemma merge1_self keep v : wf v -> merge1 keep v v = v.
Proof.
  induction v as [| | | | | |l IH|o IH] using value_ind'; intros W;
    try (now rewrite merge1_nonobj_t).
  rewrite merge1_fold. f_equal. apply fold_step_id. intros k sv I.
  pose proof (wf_obj _ W) as [N F].
  rewrite List.Forall_forall in IH. specialize (IH _ I). cbn [snd] in IH.
  rewrite List.Forall_forall in F. specialize (F _ I). cbn [snd] in F.
  apply step_id with sv; auto using In_get.
  - intros _. left. now apply clone_id.
  - intros o' -> _. now apply IH.
Qed.

(** Merging the same source a second time changes nothing, for both mergers. *)
Theorem merge_idempotent keep target source :
  wf source -> merge1 keep (merge1 keep target source) source = merge1 keep target source.
Proof.
  revert target. induction source as [| | | | | |l IH|s IH] using value_ind'; intros target W;
    try (rewrite !merge1_nonobj_s by reflexivity; reflexivity).
  destruct target as [| | | | | |t|]; try (rewrite !merge1_nonobj_t by reflexivity; reflexivity).
  rewrite !merge1_fold. f_equal. apply fold_step_id. intros k sv I.
  pose proof (wf_obj _ W) as [N F].
  rewrite List.Forall_forall in IH. specialize (IH _ I). cbn [snd] in IH.
  rewrite List.Forall_forall in F. specialize (F _ I). cbn [snd] in F.
  pose proof (In_get _ _ _ N I) as G.
  pose proof (get_fold keep s t k N) as H. rewrite G in H.
  unfold merged in H. destruct (isValidKey k) eqn:K.
  2:{ unfold step, _merger, _mergerIf. cbn [fst snd]. rewrite K. now destruct keep. }
  destruct (get k t) as [x|].
  - destruct (isObject x && isObject sv) eqn:B.
    + apply andb_true_iff in B as [B1 B2]. destruct x as [| | | | | |xo|]; try discriminate.
      destruct sv as [| | | | | |so|]; try discriminate.
      eapply step_id; [exact F|exact H| |].
      * intros _. right. rewrite merge1_fold. eauto.
      * intros o E _. rewrite <- E. now apply IH.
    + destruct keep.
      * eapply (step_id true _ _ _ x); [exact F| |discriminate|].
        -- destruct x, sv; try discriminate; exact H.
        -- intros o -> S. rewrite S in B. discriminate.
      * eapply (step_id false _ _ _ sv); [exact F| | |].
        -- rewrite (clone_id sv F) in H. destruct x, sv; try discriminate; exact H.
        -- intros _. left. now apply clone_id.
        -- intros o -> _. now apply merge1_self.
  - eapply (step_id keep _ _ _ sv); [exact F| | |].
    + rewrite (clone_id sv F) in H. exact H.
    + intros _. left. now apply clone_id.
    + intros o -> _. now apply merge1_self.
Qed.

(** *** Dotted keys *)
Fixpoint join (l : list string) : string :=
  match l with
  | [] => ""
  | [s] => s
  | s :: l' => s ++ "." ++ join l'
  end.
Definition no_dot (s : string) : bool := all_chars (fun c => negb (Ascii.eqb c ".")) s.
Definition segment (s : string) : bool := negb (String.eqb s "") && no_dot s.

(** The reference: follow the segments while the object is truthy. *)
Fixpoint follow (ks : list string) (o : value) : value :=
  match ks with
  | [] => o
  | k :: ks' => if truthy o then follow ks' (index o k) else o
  end.

Lemma length_app_s a b : String.length (a ++ b) = (String.length a + String.length b)%nat.
Proof. induction a; simpl; congruence. Qed.
Lemma app_assoc_s a b c : ((a ++ b) ++ c = a ++ (b ++ c))%string.
Proof. induction a; simpl; congruence. Qed.
Lemma skip_app a b : skip (String.length a) (a ++ b) = b.
Proof. induction a; simpl; [now destruct b|auto]. Qed.
Lemma take_app_s a b : take (String.length a) (a ++ b) = a.
Proof. induction a; simpl; [now destruct b|congruence]. Qed.
Lemma skip_past n s : (String.length s <= n)%nat -> skip n s = "".
Proof.
  revert s. induction n; intros [|c s] H; simpl in *; auto; [lia|]. apply IHn. lia.
Qed.
Lemma app_nil_s a : a ++ "" = a.
Proof. induction a; simpl; congruence. Qed.

Lemma index_from_no_dot a rest i : no_dot a = true ->
  index_from "." (a ++ rest) i = index_from "." rest (i + String.length a).
Proof.
  revert i. induction a as [|c a IH]; intros i D; [simpl String.length; now rewrite Nat.add_0_r|].
  unfold no_dot in D. cbn [all_chars] in D. apply andb_true_iff in D as [C D].
  apply negb_true_iff in C. rewrite Ascii.eqb_sym in C.
  cbn [index_from append String.prefix]. destruct (ascii_dec "." c) as [<-|_]; [discriminate|].
  rewrite IH by exact D. f_equal. simpl. lia.
Qed.

Lemma indexOf_segment a rest : no_dot a = true ->
  indexOf (a ++ String "." rest) "." = Some (String.length a).
Proof.
  intros D. unfold indexOf. rewrite index_from_no_dot by exact D. simpl.
  destruct rest; reflexivity.
Qed.
Lemma indexOf_last a : no_dot a = true -> indexOf a "." = None.
Proof.
  intros D. unfold indexOf. rewrite <- (app_nil_s a), index_from_no_dot by exact D. reflexivity.
Qed.

Lemma resolve_loop_done fuel o key n : resolve_loop fuel o key n n = o.
Proof. destruct fuel; simpl; [reflexivity|]. now rewrite Nat.ltb_irrefl, andb_false_r. Qed.

Lemma resolve_loop_after fuel o key a b : (b <= a)%nat -> resolve_loop fuel o key a b = o.
Proof.
  intros. destruct fuel; simpl; [reflexivity|].
  replace (Nat.ltb a b) with false by (symmetry; apply Nat.ltb_ge; lia). now rewrite andb_false_r.
Qed.

Lemma segment_length s : segment s = true -> (0 < String.length s)%nat.
Proof. destruct s; [discriminate|simpl; lia]. Qed.

Lemma resolve_loop_follow ks : forall k fuel o pre,
  forallb segment (k :: ks) = true -> (List.length ks < fuel)%nat ->
  resolve_loop fuel o (pre ++ join (k :: ks)) (String.length pre)
    (indexOfDotOrLength (pre ++ join (k :: ks)) (String.length pre)) = follow (k :: ks) o.
Proof.
  induction ks as [|j ks IH]; intros k fuel o pre S F; cbn [forallb] in S;
    apply andb_true_iff in S as [Sk S]; pose proof (segment_length k Sk) as L;
    apply andb_true_iff in Sk as [_ Dk]; (destruct fuel as [|fuel]; [simpl in F; lia|]).
  - cbn [join]. unfold indexOfDotOrLength at 1. rewrite skip_app, indexOf_last, length_app_s by auto.
    cbn [resolve_loop follow]. replace (Nat.ltb _ _) with true by (symmetry; apply Nat.ltb_lt; lia).
    rewrite andb_true_r. destruct (truthy o); [|reflexivity].
    replace (String.length pre + String.length k - String.length pre)%nat with (String.length k) by lia.
    unfold substr. rewrite skip_app. rewrite <- (app_nil_s k) at 2. rewrite take_app_s.
    apply resolve_loop_after. unfold indexOfDotOrLength.
    rewrite skip_past; rewrite length_app_s; [simpl; lia|lia].
  - change (join (k :: j :: ks)) with (k ++ String "." (join (j :: ks))).
    unfold indexOfDotOrLength at 1. rewrite skip_app, indexOf_segment by auto.
    cbn [resolve_loop]. replace (Nat.ltb _ _) with true by (symmetry; apply Nat.ltb_lt; lia).
    rewrite andb_true_r. change (follow (k :: j :: ks) o)
      with (if truthy o then follow (j :: ks) (index o k) else o).
    destruct (truthy o); [|reflexivity].
    replace (String.length pre + String.length k - String.length pre)%nat with (String.length k) by lia.
    unfold substr. rewrite skip_app, take_app_s.
    replace (pre ++ k ++ String "." (join (j :: ks))) with ((pre ++ k ++ ".") ++ join (j :: ks))
      by (rewrite !app_assoc_s; reflexivity).
    replace (Datatypes.S (String.length pre + String.length k)) with (String.length (pre ++ k ++ "."))
      by (rewrite !length_app_s; simpl; lia).
    apply IH; [exact S|simpl in F; lia].
Qed.

Lemma join_length ks : forallb segment ks = true -> (List.length ks <= String.length (join ks))%nat.
Proof.
  induction ks as [|k [|j ks] IH]; intros S; [simpl; lia| |];
    cbn [forallb] in S; apply andb_true_iff in S as [Sk S]; pose proof (segment_length k Sk) as L.
  - simpl in *. lia.
  - change (join (k :: j :: ks)) with (k ++ "." ++ join (j :: ks)).
    rewrite !length_app_s. specialize (IH S). simpl in *. lia.
Qed.

(** [resolveObjectKey] on a key whose dot-separated segments are not empty
    follows the segments one by one and stops at a falsy value. *)
Theorem resolveObjectKey_follow k ks o :
  forallb segment (k :: ks) = true -> resolveObjectKey o (join (k :: ks)) = follow (k :: ks) o.
Proof.
  intros S. pose proof (join_length _ S) as L. unfold resolveObjectKey.
  destruct (String.eqb (join (k :: ks)) "") eqn:E.
  - apply String.eqb_eq in E. rewrite E in L. simpl in L. lia.
  - apply (resolve_loop_follow ks k _ o ""); [exact S|]. simpl in *. lia.
Qed.

(** *** Sets *)
Lemma existsb_In x l : existsb (String.eqb x) l = true <-> In x l.
Proof.
  rewrite existsb_exists. split.
  - intros (y & I & E). apply String.eqb_eq in E. now subst.
  - intros I. exists x. now rewrite String.eqb_refl.
Qed.

(** [setsEqual] on duplicate-free sets decides having the same elements,
    although it only looks for the elements of one set in the other. *)
Theorem setsEqual_spec a b :
  List.NoDup a -> List.NoDup b -> setsEqual a b = true <-> (forall x, In x a <-> In x b).
Proof.
  intros Na Nb. unfold setsEqual. destruct (Nat.eqb_spec (List.length a) (List.length b)) as [L|L]; simpl.
  - rewrite forallb_forall. setoid_rewrite existsb_In. split; intros H.
    + intros x. split; [apply H|]. apply (List.NoDup_length_incl Na); [lia|exact H].
    + intros x. apply H.
  - split; [discriminate|]. intros H. exfalso. apply L.
    apply Nat.le_antisymm; apply List.NoDup_incl_length; auto; intros x; apply H.
Qed.

(** *** The scoped store *)
Lemma with_scope_at ks : forall node f node' x,
  with_scope ks node f = Some node' -> scope_at ks node = Some x -> truthy (f x) = true ->
  scope_at ks node' = Some (f x).
Proof.
  induction ks as [|k ks IH]; intros node f node' x W A T; simpl in *; [congruence|].
  destruct node as [| | | | | |o|]; try discriminate.
  set (child := match get k o with Some v => _ | None => _ end) in *.
  destruct (with_scope ks child f) as [c|] eqn:E; [|discriminate]. injection W as <-.
  rewrite get_put_eq. replace (truthy c) with true; [eauto|].
  symmetry. destruct ks as [|j ks]; simpl in E, A; [congruence|].
  destruct child; try discriminate. destruct (with_scope ks _ f); [|discriminate].
  now injection E as <-.
Qed.

Lemma scope_with ks : forall node f, with_scope ks node f <> None <-> scope_at ks node <> None.
Proof.
  induction ks as [|k ks IH]; intros; simpl; [split; congruence|].
  destruct node; try tauto.
  rewrite <- (IH _ f). destruct (with_scope ks _ f); split; congruence.
Qed.

Lemma truthy_merge t s : truthy t = true -> truthy (merge t s) = true.
Proof.
  unfold merge. revert t. induction (sources s) as [|x l IH]; intros t T; simpl; [exact T|].
  apply IH. destruct t; try discriminate; destruct x; exact T.
Qed.

Lemma scope_at_truthy ks node x :
  scope_at ks node = Some x -> ks <> [] -> truthy x = true.
Proof.
  revert node. induction ks as [|k ks IH]; intros node A N; [congruence|]. simpl in A.
  destruct node; try discriminate.
  destruct ks as [|j ks]; [|eapply IH; [exact A|congruence]]. simpl in A. injection A as <-.
  destruct (get k o) as [v|]; [|reflexivity]. now destruct (truthy v) eqn:E.
Qed.

(** What [Defaults.set] merges into a scope is what [Defaults.get] then
    reads there, and the other two stores are untouched. *)
Theorem Defaults_get_set d scope values d' :
  truthy (root d) = true -> Defaults_set d scope values = Some d' ->
  exists old, Defaults_get d scope = Some old /\ Defaults_get d' scope = Some (merge old values) /\
    descriptors d' = descriptors d /\ overrides d' = overrides d.
Proof.
  intros T. unfold Defaults_set, Defaults_get, set, getScope_1.
  set (ks := scope_keys scope). set (f := fun node => merge node values).
  destruct (with_scope ks (root d) f) as [v|] eqn:W; [|discriminate]. intros [= <-]. cbn [root descriptors overrides].
  destruct (scope_at ks (root d)) as [old|] eqn:A.
  2:{ exfalso. apply (proj1 (scope_with ks (root d) f)); congruence. }
  exists old. repeat split. apply (with_scope_at ks (root d) f v old W A). apply truthy_merge.
  destruct ks as [|k ks]; [simpl in A; congruence|]. eapply scope_at_truthy; [exact A|congruence].
Qed.


Definition demo_tree : value := VObj [("a", VObj [("b", VNum 1%js)]); ("c", VStr "x")].
Definition demo_source : value := VObj [("a", VObj [("b", VNum 2%js); ("d", Null)]); ("__proto__", VNum 3%js)].
Lemma demo_source_wf : wf demo_source.
Proof. cbn. repeat split; repeat constructor; cbn; intuition discriminate. Qed.
Lemma mergeIf_keeps_target_witness : at_path ["a"; "b"] (mergeIf demo_tree demo_source) = Some (VNum 1%js).
Proof.
  apply (mergeIf_keeps_target ["a"; "b"] demo_tree demo_source (VNum 1%js)).
  - constructor; [exact demo_source_wf|constructor].
  - reflexivity.
  - reflexivity.
Defined.
Lemma merge_no_pollution_witness :
  match merge1 false demo_tree demo_source with
  | VObj o' => get "__proto__" o' = get "__proto__" [("a", VObj [("b", VNum 1%js)]); ("c", VStr "x")]
  | _ => False
  end.
Proof.
  apply (merge_no_pollution false "__proto__" [] demo_tree demo_source _ _); try reflexivity. exact demo_source_wf.
Defined.
Lemma resolveObjectKey_follow_witness : resolveObjectKey demo_tree "a.b" = VNum 1%js.
Proof. exact (resolveObjectKey_follow "a" ["b"] demo_tree eq_refl). Defined.
Definition demo_stores : stores := {| root := demo_tree; descriptors := VObj []; overrides := VObj [] |}.
Lemma Defaults_get_set_witness :
  exists d', Defaults_set demo_stores "a.e" (VObj [("f", Null)]) = Some d' /\ descriptors d' = VObj [].
Proof.
  destruct (Defaults_set demo_stores "a.e" (VObj [("f", Null)])) as [d'|] eqn:E; [|vm_compute in E; discriminate].
  destruct (Defaults_get_set demo_stores "a.e" (VObj [("f", Null)]) d' eq_refl E) as (old & _ & _ & D & _).
  exists d'. split; [reflexivity|exact D].
Defined.
End CoreFacts.
