(* ===== verification/HelpersMath.v ===== *)
(** The numeric helpers of webui/public/chart.js: constants, nice numbers,
    factorisation, angles, clamping. *)
From Stdlib Require Import ZArith Lia Bool List Permutation Sorted Znumtheory.
From Stdlib Require Import SpecFloat.
From stdpp Require Import base list.
From S2P Require Import Prelude JsNumber NumExact JsArray.
Import ListNotations.
Open Scope Z_scope.

Module MathH.
Local Open Scope js_scope.

Definition PI : num := 3.141592653589793.
Definition TAU : num := 2 * PI.
Definition PITAU : num := TAU + PI.
Definition INFINITY : num := Num.infinity.
Definition RAD_PER_DEG : num := PI / 180.
Definition HALF_PI : num := PI / 2.
Definition QUARTER_PI : num := PI / 4.
Definition TWO_THIRDS_PI : num := PI * 2 / 3.
(** [Number.EPSILON]. *)
Definition EPSILON : num := 2.220446049250313e-16.

Definition almostEquals (x y epsilon : num) : bool := Num.abs (x - y) <? epsilon.

Definition almostWhole (x epsilon : num) : bool :=
  let rounded := Num.round x in (rounded - epsilon <=? x) && (rounded + epsilon >=? x).

Section Lib.
Context `{MathLib}.

Definition niceNum (range0 : num) : num :=
  let roundedRange := Num.round range0 in
  let range := if almostEquals range0 roundedRange (range0 / 1000) then roundedRange else range0 in
  let niceRange := math_pow 10 (Num.floor (math_log10 range)) in
  let fraction := range / niceRange in
  let niceFraction := if fraction <=? 1 then 1 else if fraction <=? 2 then 2
                      else if fraction <=? 5 then 5 else 10 in
  niceFraction * niceRange.

Record point := mkPoint { x : num; y : num }.
Record polar := mkPolar { angle : num; distance : num }.

Definition getAngleFromPoint (centrePoint anglePoint : point) : polar :=
  let dx := x anglePoint - x centrePoint in
  let dy := y anglePoint - y centrePoint in
  let d := Num.sqrt (dx * dx + dy * dy) in
  let angle := math_atan2 dy dx in
  mkPolar (if angle <? (-0.5) * PI then angle + TAU else angle) d.

Definition distanceBetweenPoints (pt1 pt2 : point) : num :=
  Num.sqrt (math_pow (x pt2 - x pt1) 2 + math_pow (y pt2 - y pt1) 2).
End Lib.

(** The loop of [_factorize]: [i] counts from 1 while it is below the square
    root, and both [i] and the cofactor are recorded. *)
Fixpoint factor_loop (fuel : nat) (value sqrt : num) (i : Z) (result : list num) : list num :=
  match fuel with
  | O => result
  | S f =>
      let n := Num.of_Z i in
      if n <? sqrt then
        factor_loop f value sqrt (i + 1)
          (if (value mod n) =? 0 then result ++ [n; value / n] else result)
      else result
  end.
Definition _factorize (value : num) : list num :=
  let sqrt := Num.sqrt value in
  let result := factor_loop (S (Z.to_nat (Num.trunc_Z sqrt))) value sqrt 1 [] in
  let result := if sqrt =? Num.of_Z (Num.to_int32 sqrt) then result ++ [sqrt] else result in
  removelast (sort_by (fun a b => a - b) result).

Record range := mkRange { rmin : num; rmax : num }.
(** [_setMinAndMaxByKey] on the property's values. *)
Definition _setMinAndMaxByKey (values : list num) (target : range) : range :=
  fold_left (fun t v => if Num.is_nan v then t
                        else mkRange (Num.min (rmin t) v) (Num.max (rmax t) v)) values target.

Definition toRadians (degrees : num) : num := degrees * (PI / 180).
Definition toDegrees (radians : num) : num := radians * (180 / PI).

(** [_decimalPlaces] of a number; the inner None: undefined (not finite), the
    outer None: the loop has not ended within [fuel] iterations. *)
Fixpoint places_loop (fuel : nat) (x e : num) (p : Z) : option Z :=
  match fuel with
  | O => None
  | S f => if (Num.round (x * e) / e) =? x then Some p
           else places_loop f x (e * 10) (p + 1)
  end.
Definition _decimalPlaces (fuel : nat) (x : num) : option (option Z) :=
  if negb (Num.is_finite x) then Some None
  else match places_loop fuel x 1 0 with Some p => Some (Some p) | None => None end.

Definition _angleDiff (a b : num) : num := (a - b + PITAU) mod TAU - PI.
Definition _normalizeAngle (a : num) : num := (a mod TAU + TAU) mod TAU.
Definition _angleBetween (angle start end_ : num) (sameAngleIsFullCircle : bool) : bool :=
  let a := _normalizeAngle angle in
  let s := _normalizeAngle start in
  let e := _normalizeAngle end_ in
  let angleToStart := _normalizeAngle (s - a) in
  let angleToEnd := _normalizeAngle (e - a) in
  let startToAngle := _normalizeAngle (a - s) in
  let endToAngle := _normalizeAngle (a - e) in
  (a =? s) || (a =? e) || (sameAngleIsFullCircle && (s =? e))
  || ((angleToStart >? angleToEnd) && (startToAngle <? endToAngle)).

Definition _limitValue (value min max : num) : num := Num.max min (Num.min max value).
Definition _int16Range (value : num) : num := _limitValue value (-32768) 32767.
Definition _isBetween (value start end_ epsilon : num) : bool :=
  (value >=? Num.min start end_ - epsilon) && (value <=? Num.max start end_ + epsilon).

End MathH.

(** ** Facts *)
Module MathFacts.
Import Num NumFacts NumExact MathH.

(** *** Factorisation *)

(** The same loop over integers, without the accumulator. *)
Fixpoint zpairs (fuel : nat) (n i : Z) : list Z :=
  match fuel with
  | O => []
  | S f => if i * i <? n then (if n mod i =? 0 then [i; n / i] else []) ++ zpairs f n (i + 1) else []
  end.

Lemma factor_loop_zpairs n : 0 < n < 2 ^ 51 -> forall fuel i acc,
  0 < i -> (i - 1) * (i - 1) < n ->
  factor_loop fuel (of_Z n) (sqrt (of_Z n)) i (map of_Z acc) = map of_Z (acc ++ zpairs fuel n i).
Proof.
  intros Hn. induction fuel as [|f IH]; intros i acc Hi Hs; cbn [factor_loop zpairs]; [now rewrite app_nil_r|].
  assert (i < 2 ^ 26) by nia.
  rewrite lt_sqrt by lia. destruct (Z.ltb_spec (i * i) n) as [L|L]; [|now rewrite app_nil_r].
  assert (safe n /\ safe i) as [Sn Si] by (unfold safe; lia).
  rewrite of_Z_rem by (auto; lia). change 0%js with (of_Z 0).
  pose proof (Z.mod_pos_bound n i Hi) as M.
  rewrite of_Z_eq by (unfold safe in *; lia).
  destruct (Z.eqb_spec (n mod i) 0) as [E|E].
  - assert (D : n = n / i * i) by (pose proof (Z.div_mod n i); lia).
    assert (0 < n / i) by nia. assert (safe (n / i)) by (unfold safe in *; nia).
    rewrite D at 3. rewrite of_Z_div_exact by (rewrite <- ?D; auto; lia).
    change [of_Z i; of_Z (n / i)] with (map of_Z [i; n / i]). rewrite <- map_app, IH by lia.
    now rewrite <- app_assoc.
  - apply IH; lia.
Qed.

Lemma zpairs_bounds n fuel : forall i x,
  0 < i -> In x (zpairs fuel n i) -> i <= x /\ x * i <= n /\ (x | n) /\ x * x <> n.
Proof.
  induction fuel as [|f IH]; intros i x Hi I; cbn [zpairs] in I; [contradiction|].
  destruct (Z.ltb_spec (i * i) n); [|contradiction].
  apply in_app_or in I as [I|I].
  - destruct (Z.eqb_spec (n mod i) 0) as [E|E]; [|contradiction].
    assert (D : n = i * (n / i)) by (pose proof (Z.div_mod n i); lia).
    destruct I as [<-|[<-|[]]].
    + repeat split; try lia. exists (n / i). lia.
    + assert (i < n / i) by nia. repeat split; try nia. exists i. lia.
  - apply IH in I as (I1 & I2 & I3 & I4); [|lia]. repeat split; auto; nia.
Qed.

Lemma zpairs_NoDup n fuel : forall i, 0 < i -> NoDup (zpairs fuel n i).
Proof.
  induction fuel as [|f IH]; intros i Hi; cbn [zpairs]; [constructor|].
  destruct (Z.ltb_spec (i * i) n); [|constructor].
  destruct (Z.eqb_spec (n mod i) 0) as [E|E]; [|apply IH; lia]. simpl.
  assert (D : n = i * (n / i)) by (pose proof (Z.div_mod n i); lia).
  assert (i < n / i) by nia.
  repeat constructor; [| |apply IH; lia]; intros I.
  - apply list_elem_of_In in I. destruct I as [I|I]; [lia|]. apply zpairs_bounds in I; lia.
  - apply list_elem_of_In in I. apply zpairs_bounds in I; nia.
Qed.

Lemma zpairs_complete n fuel : forall i x,
  0 < i -> n < (i + Z.of_nat fuel) * (i + Z.of_nat fuel) ->
  (x | n) -> i <= x -> x * i <= n -> x * x <> n -> In x (zpairs fuel n i).
Proof.
  induction fuel as [|f IH]; intros i x Hi F Dv X1 X2 X3; [nia|]. cbn [zpairs].
  destruct Dv as [y Hy]. assert (0 < y) by nia.
  destruct (Z.ltb_spec (i * i) n) as [L|L]; [|exfalso; apply X3; nia].
  apply in_or_app.
  destruct (Z.eq_dec x i) as [->|Nx].
  { left. rewrite Hy, Z.mod_mul by lia. simpl. now left. }
  destruct (Z.eq_dec y i) as [->|Ny].
  { left. rewrite Hy, Z.mul_comm, Z.mod_mul by lia. rewrite Z.div_mul by lia. simpl. auto. }
  right. apply IH; auto; try lia.
  - exists y. lia.
  - assert (i < y) by nia. nia.
Qed.

Lemma sort_map {A B} (cmp : B -> B -> num) (f : A -> B) l :
  sort_by cmp (map f l) = map f (sort_by (fun x y => cmp (f x) (f y)) l).
Proof.
  induction l as [|x l IH]; simpl; [reflexivity|]. rewrite IH. clear IH.
  set (s := sort_by _ l). induction s as [|y s IH]; simpl; [reflexivity|].
  unfold before. destruct (negb _); simpl; [reflexivity|]. now rewrite IH.
Qed.

Lemma removelast_max l n :
  StronglySorted Z.le l -> NoDup l -> In n l -> (forall x, In x l -> x <= n) ->
  forall x, In x (removelast l) <-> In x l /\ x <> n.
Proof.
  induction l as [|y l IH]; intros S N I M x; [simpl; tauto|].
  inversion S as [|? ? S' F]; subst. inversion N as [|? ? N1 N']; subst.
  rewrite list_elem_of_In in N1. destruct l as [|z l].
  - destruct I as [<-|[]]. simpl. intuition congruence.
  - assert (In n (z :: l)).
    { destruct I as [<-|I]; [|exact I]. exfalso. rewrite List.Forall_forall in F.
      pose proof (F z (or_introl eq_refl)). pose proof (M z (or_intror (or_introl eq_refl))).
      assert (y = z) by lia. subst. apply N1. now left. }
    change (removelast (y :: z :: l)) with (y :: removelast (z :: l)).
    cbn [In] in *. fold (In x (removelast (z :: l))). rewrite IH by (auto; intros; apply M; now right).
    split.
    + intros [<-|[I1 I2]]; [|tauto]. split; [now left|]. intros ->. now apply N1.
    + intros [[<-|I1] I2]; [now left|]. right. tauto.
Qed.

Lemma sorted_removelast (l : list Z) : StronglySorted Z.le l -> NoDup l -> StronglySorted Z.lt (removelast l).
Proof.
  intros S N. induction S as [|y l S IH F]; [constructor|].
  inversion N as [|? ? N1 N']; subst. destruct l as [|z l]; [constructor|].
  change (removelast (y :: z :: l)) with (y :: removelast (z :: l)).
  constructor; [auto|]. apply List.Forall_forall. intros x I.
  rewrite List.Forall_forall in F. assert (In x (z :: l)).
  { clear - I. revert I. generalize (z :: l). clear. intros l.
    induction l as [|a [|b l] IH]; simpl; [tauto|tauto|]. intros [->|I]; [now left|right; now apply IH]. }
  specialize (F x H). assert (y <> x); [|lia]. intros ->. rewrite list_elem_of_In in N1. now apply N1.
Qed.

Lemma removelast_map {A B} (f : A -> B) l : removelast (map f l) = map f (removelast l).
Proof. induction l as [|a [|b l] IH]; simpl in *; [reflexivity..|]. now rewrite IH. Qed.

(** For an integer below 2^50 the factorisation, which works entirely in
    binary64 (square root, remainder and division), is the list of the divisors
    smaller than the number, each once and in increasing order. *)
Theorem factorize_spec n : 0 < n < 2 ^ 50 ->
  exists l, _factorize (of_Z n) = map of_Z l /\ StronglySorted Z.lt l /\
    forall k, In k l <-> 0 < k < n /\ (k | n).
Proof.
  intros Hn. unfold _factorize.
  set (fuel := S (Z.to_nat (trunc_Z (sqrt (of_Z n))))).
  assert (L : factor_loop fuel (of_Z n) (sqrt (of_Z n)) 1 [] = map of_Z (zpairs fuel n 1)).
  { exact (factor_loop_zpairs n ltac:(lia) fuel 1 [] ltac:(lia) ltac:(lia)). }
  rewrite L. clear L.
  assert (F : n < (1 + Z.of_nat fuel) * (1 + Z.of_nat fuel)).
  { unfold fuel. set (t := trunc_Z _). pose proof (Z.sqrt_spec n ltac:(lia)) as [Q1 Q2].
    pose proof (sqrt_trunc (Z.sqrt n) n (Z.sqrt_nonneg n) ltac:(lia) Q1) as T. fold t in T.
    pose proof (Z.sqrt_nonneg n). rewrite Nat2Z.inj_succ, Z2Nat.id by lia. nia. }
  set (all := zpairs fuel n 1 ++ if eq (sqrt (of_Z n)) (of_Z (to_int32 (sqrt (of_Z n)))) then [Z.sqrt n] else []).
  assert (E : (if eq (sqrt (of_Z n)) (of_Z (to_int32 (sqrt (of_Z n)))) then map of_Z (zpairs fuel n 1) ++ [sqrt (of_Z n)]
               else map of_Z (zpairs fuel n 1)) = map of_Z all).
  { unfold all. destruct (eq _ _) eqn:Q; [|now rewrite app_nil_r]. rewrite map_app. f_equal. simpl. f_equal.
    apply sqrt_is_int in Q as (k & Hk & ->); [|lia]. rewrite sqrt_square by nia. now rewrite Z.sqrt_square by lia. }
  rewrite E. clear E.
  assert (In_all : forall x, In x all <-> 0 < x <= n /\ (x | n)).
  { intros x. unfold all. rewrite in_app_iff. split.
    - intros [I|I].
      + apply zpairs_bounds in I as (I1 & I2 & I3 & _); [|lia]. split; [lia|auto].
      + destruct (eq _ _) eqn:Q; [|contradiction]. destruct I as [<-|[]].
        apply sqrt_is_int in Q as (k & Hk & ->); [|lia]. rewrite Z.sqrt_square by lia.
        split; [nia|now exists k].
    - intros [Hx Dx]. destruct (Z.eq_dec (x * x) n) as [Sq|Sq].
      + right. rewrite (proj2 (sqrt_is_int n ltac:(lia))) by (exists x; lia). rewrite <- Sq, Z.sqrt_square by lia. now left.
      + left. apply zpairs_complete; auto; lia. }
  assert (ND : NoDup all).
  { unfold all. apply NoDup_app. split; [apply zpairs_NoDup; lia|]. split.
    - intros x I J. apply list_elem_of_In in I, J. destruct (eq _ _) eqn:Q; [|contradiction].
      destruct J as [<-|[]]. apply sqrt_is_int in Q as (k & Hk & ->); [|lia].
      apply zpairs_bounds in I; [|lia]. rewrite Z.sqrt_square in I by lia. lia.
    - destruct (eq _ _); repeat constructor. intros X. inversion X. }
  set (cmp := fun a b => sub (of_Z a) (of_Z b)).
  assert (SS : StronglySorted Z.le (sort_by cmp all)).
  { assert (B : forall x y, 0 < x <= n -> 0 < y <= n -> before cmp x y = (x <=? y)).
    { intros x y Hx Hy. unfold before, cmp. rewrite of_Z_sub by (unfold safe; lia).
      change 0%js with (of_Z 0). rewrite of_Z_lt by (unfold safe; lia).
      rewrite Z.leb_antisym. f_equal. destruct (Z.ltb_spec 0 (x - y)), (Z.ltb_spec y x); lia. }
    apply (sort_sorted cmp Z.le (fun x => 0 < x <= n)).
    - intros x y Hx Hy Bf. rewrite B in Bf by auto. bool_to_prop. lia.
    - intros x y Hx Hy Bf. rewrite B in Bf by auto. bool_to_prop. lia.
    - intros; lia.
    - apply List.Forall_forall. intros x I. now apply In_all. }
  pose proof (sort_perm cmp all) as P.
  assert (NDs : NoDup (sort_by cmp all)) by now rewrite P.
  exists (removelast (sort_by cmp all)). rewrite sort_map. split; [|split].
  - now rewrite removelast_map.
  - now apply sorted_removelast.
  - assert (In_s : forall x, In x (sort_by cmp all) <-> 0 < x <= n /\ (x | n)).
    { intros x. rewrite <- In_all. split; apply Permutation_in; [exact P|now symmetry]. }
    intros k. rewrite (removelast_max (sort_by cmp all) n); auto.
    + rewrite In_s. split; [intros [[? ?] ?]; split; [lia|auto]|]. intros [? ?]. repeat split; auto; lia.
    + apply In_s. split; [lia|exists 1; lia].
    + intros x I. apply In_s in I. lia.
Qed.

(** *** Clamping and ranges *)

Lemma limitValue_range v lo hi : is_nan v = false -> le lo hi = true ->
  le lo (_limitValue v lo hi) = true /\ le (_limitValue v lo hi) hi = true.
Proof.
  intros Hv Hr. unfold _limitValue. pose proof (le_notnan _ _ Hr) as [? ?].
  destruct (min_cases hi v) as [[-> ?]|[-> ?]]; auto;
    [destruct (max_cases lo hi) as [[-> ?]|[-> ?]]|destruct (max_cases lo v) as [[-> ?]|[-> ?]]]; auto; split; num_order.
Qed.

(** Clamping into a range whose bounds are ordered gives a number in the
    range, leaves a number of the range numerically unchanged, and is idempotent. *)
Theorem limitValue_spec v lo hi :
  is_nan v = false -> le lo hi = true ->
  let w := _limitValue v lo hi in
  le lo w = true /\ le w hi = true /\
  (le lo v = true -> le v hi = true -> eq w v = true) /\ eq (_limitValue w lo hi) w = true.
Proof.
  intros Hv Hr. cbn zeta. unfold _limitValue. pose proof (le_notnan _ _ Hr) as [? ?].
  destruct (min_cases hi v) as [[-> ?]|[-> ?]]; auto;
    [destruct (max_cases lo hi) as [[-> ?]|[-> ?]]|destruct (max_cases lo v) as [[-> ?]|[-> ?]]]; auto;
    (split; [num_order|]; split; [num_order|]; split; [num_order|]).
  all: match goal with |- context [Num.min ?a ?b] => destruct (min_cases a b) as [[-> ?]|[-> ?]]; auto end.
  all: match goal with |- context [Num.max ?a ?b] => destruct (max_cases a b) as [[-> ?]|[-> ?]]; auto end.
  all: num_order.
Qed.

Lemma min_max_step (t : range) v :
  is_nan (rmin t) = false -> is_nan (rmax t) = false -> is_nan v = false ->
  let t' := mkRange (Num.min (rmin t) v) (Num.max (rmax t) v) in
  le (rmin t') (rmin t) = true /\ le (rmax t) (rmax t') = true /\
  le (rmin t') v = true /\ le v (rmax t') = true /\
  is_nan (rmin t') = false /\ is_nan (rmax t') = false /\
  (rmin t' = rmin t \/ rmin t' = v) /\ (rmax t' = rmax t \/ rmax t' = v).
Proof.
  intros H1 H2 H3. cbn [rmin rmax].
  destruct (min_cases (rmin t) v H1 H3) as [[-> ?]|[-> ?]], (max_cases (rmax t) v H2 H3) as [[-> ?]|[-> ?]];
    repeat split; auto using le_refl.
Qed.

(** [_setMinAndMaxByKey] computes the extremes of the values that are not
    NaN together with the target's: they are bounds of all of them and attained. *)
Theorem setMinAndMax_spec values target :
  is_nan (rmin target) = false -> is_nan (rmax target) = false ->
  let t := _setMinAndMaxByKey values target in
  (forall v, In v values -> is_nan v = false -> le (rmin t) v = true /\ le v (rmax t) = true) /\
  le (rmin t) (rmin target) = true /\ le (rmax target) (rmax t) = true /\
  (rmin t = rmin target \/ In (rmin t) values) /\ (rmax t = rmax target \/ In (rmax t) values).
Proof.
  unfold _setMinAndMaxByKey. revert target.
  induction values as [|v l IH]; intros t H1 H2; cbn zeta; cbn [fold_left].
  - split; [contradiction|]. auto using le_refl.
  - destruct (is_nan v) eqn:E.
    + destruct (IH t H1 H2) as (A & B & C & D & F). split; [|simpl; tauto].
      intros w [<-|I] N; [congruence|auto].
    + destruct (min_max_step t v H1 H2 E) as (A1 & A2 & A3 & A4 & N1 & N2 & M1 & M2).
      set (t' := mkRange _ _) in *.
      destruct (IH t' N1 N2) as (B1 & B2 & B3 & B4 & B5). set (r := fold_left _ l t') in *.
      split; [|split; [eauto using le_trans|split; [eauto using le_trans|]]].
      * intros w [<-|I] N; [|auto]. split; eapply le_trans; eauto.
      * simpl. split; [destruct B4 as [-> |]|destruct B5 as [-> |]]; auto; intuition congruence.
Qed.

(** *** Decimal places *)
Lemma places_infinite x : is_finite x = true -> forall fuel e p,
  e = infinity -> places_loop fuel x e p = None.
Proof.
  intros F. induction fuel as [|f IH]; intros e p ->; [reflexivity|]. cbn [places_loop].
  replace (eq _ x) with false; [apply IH; reflexivity|].
  destruct x as [s| | |s m ex]; try discriminate; [destruct s; reflexivity|].
  unfold mul, infinity, round, div, eq, SFeqb. now destruct s.
Qed.

(** [k] steps without success before the factor overflows. *)
Fixpoint no_stop (k : nat) (x e : num) : bool :=
  match k with
  | O => match e with S754_infinity false => true | _ => false end
  | S k' => negb (eq (div (round (mul x e)) e) x) && no_stop k' x (mul e 10%js)
  end.
Lemma no_stop_loop k x : is_finite x = true -> forall e fuel p,
  no_stop k x e = true -> places_loop fuel x e p = None.
Proof.
  intros F. induction k as [|k IH]; intros e fuel p H; cbn [no_stop] in H.
  - apply places_infinite; auto. destruct e as [|[]| |]; try discriminate. reflexivity.
  - apply andb_true_iff in H as [H1 H2]. apply negb_true_iff in H1.
    destruct fuel as [|f]; [reflexivity|]. cbn [places_loop]. rewrite H1. now apply IH.
Qed.

(** [_decimalPlaces] finds zero places at once for every integer of
    magnitude below 2^53, but it does not terminate on the smallest positive
    number: its factor overflows to infinity and the test compares with NaN. *)
Theorem decimalPlaces_behaviour :
  (forall n fuel, safe n -> n <> 0 -> _decimalPlaces (S fuel) (of_Z n) = Some (Some 0)) /\
  (forall fuel, _decimalPlaces fuel 5e-324%js = None).
Proof.
  split.
  - intros n fuel S N. unfold _decimalPlaces. rewrite is_finite_of_Z by auto. cbn [negb places_loop].
    assert (M : round (mul (of_Z n) 1%js) = of_Z n).
    { change 1%js with (of_Z 1). rewrite of_Z_mul by (auto; unfold safe in *; lia).
      rewrite Z.mul_1_r. now apply round_of_Z. }
    rewrite M. replace (div (of_Z n) 1%js) with (of_Z n).
    + rewrite of_Z_eq, Z.eqb_refl by auto. reflexivity.
    + symmetry. now apply of_Z_div_1.
  - intros fuel. unfold _decimalPlaces. cbn [is_finite negb].
    rewrite (no_stop_loop 320); reflexivity.
Qed.


Lemma factorize_spec_witness : exists l, _factorize (of_Z 36) = map of_Z l /\ In 12 l.
Proof.
  destruct (factorize_spec 36) as (l & F & _ & S); [lia|]. exists l. split; [exact F|]. apply S. split; [lia|]. now exists 3.
Defined.
End MathFacts.

(** ** Numbers that are not negative *)
Module NonNegative.
Import Num.
Local Open Scope js_scope.

(** Not under zero: also the two zeros and NaN. *)
Definition nn (x : num) : Prop := Num.lt x 0 = false.
(** A number without a minus sign. *)
Definition plus (x : num) : bool :=
  match x with S754_finite s _ _ | S754_infinity s => negb s | _ => true end.
Lemma nn_plus x : nn x <-> plus x = true.
Proof. unfold nn. destruct x as [s|s| |s m e]; try destruct s; cbn; intuition discriminate. Qed.
Lemma plus_round m e l : plus (binary_round_aux 53 1024 false m e l) = true.
Proof. rewrite (NumExact.round_aux_sign false false). destruct (binary_round_aux _ _ _ _ _ _); reflexivity. Qed.
Lemma plus_normalize p e : plus (binary_normalize 53 1024 (Zpos p) e false) = true.
Proof. unfold binary_normalize, binary_round. destruct (shl_align _ _ _) as [mz ez]. apply plus_round. Qed.
Lemma nn_add x y : nn x -> nn y -> nn (x + y).
Proof.
  rewrite !nn_plus. intros X Y.
  destruct x as [s|s| |s m e], y as [t|t| |t n f]; try reflexivity; try exact X; try exact Y;
    try (destruct s, t; reflexivity || discriminate).
  destruct s, t; try discriminate. exact (plus_normalize _ _).
Qed.
Lemma nn_mul x y : nn x -> nn y -> nn (x * y).
Proof.
  rewrite !nn_plus. intros X Y.
  destruct x as [s|s| |s m e], y as [t|t| |t n f]; try reflexivity; try (destruct s, t; reflexivity || discriminate).
  destruct s, t; try discriminate. apply plus_round.
Qed.
Lemma nn_pos x : Num.lt 0 x = true -> nn x.
Proof. rewrite nn_plus. destruct x as [s|s| |s m e]; try destruct s; cbn; intuition discriminate. Qed.
Lemma nn_max_l x y : nn x -> nn (Num.max x y).
Proof.
  intros X. destruct (SFcompare x y) as [[]|] eqn:C; unfold Num.max; rewrite C; auto; try reflexivity.
  - destruct x as [[]| | |]; auto. rewrite nn_plus. destruct y as [s|s| |s m e]; try reflexivity; destruct s; discriminate.
  - apply nn_plus in X. apply nn_plus. destruct x as [s|s| |s m e], y as [t|t| |t n f]; try reflexivity; try discriminate;
      try destruct s; try destruct t; try discriminate; reflexivity.
Qed.
Lemma nn_max_r x y : nn y -> nn (Num.max x y).
Proof.
  intros Y. destruct (SFcompare x y) as [[]|] eqn:C; unfold Num.max; rewrite C; auto; try reflexivity.
  - destruct x as [[]|s| |s m e]; auto; try reflexivity; apply nn_plus in Y; apply nn_plus;
      destruct y as [t|t| |t n f]; try discriminate; try destruct s; try destruct t; try discriminate; reflexivity.
  - apply nn_plus in Y. apply nn_plus. destruct x as [s|s| |s m e], y as [t|t| |t n f]; try reflexivity; try discriminate;
      try destruct s; try destruct t; try discriminate; reflexivity.
Qed.
Lemma nn_limit v m : nn (MathH._limitValue v 0 m).
Proof. apply nn_max_l. reflexivity. Qed.
Lemma nn_half x : nn x -> nn (x / 2).
Proof.
  rewrite !nn_plus. intros X. destruct x as [s|s| |s m e]; try reflexivity; destruct s; try discriminate; try reflexivity.
  unfold Num.div, SFdiv. destruct (SFdiv_core_binary _ _ _ _ _ _) as [[mz ez] lz] eqn:E. cbn [xorb].
  rewrite (NumExact.round_aux_sign false false). destruct (binary_round_aux _ _ _ _ _ _); reflexivity.
Qed.
End NonNegative.
