(* ===== verification/Color.v ===== *)
(** The colour library bundled in webui/public/chart.js (@kurkle/color).

    A colour is the record of its four channels, as JavaScript numbers: bytes
    after parsing, but any number after the arithmetic methods.  Parsing goes
    through the hexadecimal form, the CSS names (a compressed table that
    [unpack] expands) and the functional notations [rgb()], [hsl()], [hwb()] and
    [hsv()]; printing gives the hexadecimal, [rgb()] and [hsl()] forms.

    Proved: hexadecimal and [rgb()] text round trips, the byte range of every
    parsed channel, the CSS name table, and the behaviour of the mutating
    methods of [Color]. *)
From Stdlib Require Import ZArith Lia Bool List Ascii String.
From Stdlib Require Import SpecFloat.
From stdpp Require Import base list.
From S2P Require Import Prelude JsNumber JsString.
Import ListNotations.
Open Scope Z_scope.

Module Color.
Import Str.
Local Open Scope string_scope.
Local Open Scope js_scope.

Record rgba := mk { r : num; g : num; b : num; a : num }.

Definition land (m : Z) (x : num) : num := Num.of_Z (Z.land m (Num.to_int32 x)).

(** ** Hexadecimal notation *)

(** [map$1[c]], NaN when it is undefined. *)
Definition hex_map (c : option ascii) : num :=
  match c with
  | None => Num.nan
  | Some c =>
      if is_digit c then Num.of_Z (digit_val c)
      else if in_range 65 70 c then Num.of_Z (Z.of_nat (nat_of_ascii c) - 55)
      else if in_range 97 102 c then Num.of_Z (Z.of_nat (nat_of_ascii c) - 87)
      else Num.nan
  end.

Definition hex : string := "0123456789ABCDEF".
Definition hex_at (i : Z) : string :=
  match at_ hex (Z.to_nat i) with Some c => String c "" | None => "undefined" end.
Definition bits (x : num) (m : Z) : Z := Z.land (Num.to_int32 x) m.
Definition h1 (x : num) : string := hex_at (bits x 15).
Definition h2 (x : num) : string := hex_at (Z.shiftr (bits x 240) 4) ++ hex_at (bits x 15).
Definition eq (x : num) : bool := Z.eqb (Z.shiftr (bits x 240) 4) (bits x 15).
Definition isShort (v : rgba) : bool := eq (r v) && eq (g v) && eq (b v) && eq (a v).

(** [map$1[str[i]] << 4 | map$1[str[i + 1]]]. *)
Definition hex_pair (s : string) (i : nat) : num :=
  Num.of_Z (Z.lor (Num.wrap32 (Z.shiftl (Num.to_int32 (hex_map (at_ s i))) 4))
                  (Num.to_int32 (hex_map (at_ s (S i))))).

Definition hexParse (s : string) : option rgba :=
  let len := String.length s in
  let d i := hex_map (at_ s i) * 17 in
  if String.eqb (String.substring 0 1 s) "#" then
    if Nat.eqb len 4 || Nat.eqb len 5 then
      Some (mk (land 255 (d 1%nat)) (land 255 (d 2%nat)) (land 255 (d 3%nat))
               (if Nat.eqb len 5 then d 4%nat else 255))
    else if Nat.eqb len 7 || Nat.eqb len 9 then
      Some (mk (hex_pair s 1) (hex_pair s 3) (hex_pair s 5)
               (if Nat.eqb len 9 then hex_pair s 7 else 255))
    else None
  else None.

Definition hexString (v : rgba) : string :=
  let f := if isShort v then h1 else h2 in
  "#" ++ f (r v) ++ f (g v) ++ f (b v) ++ (if a v <? 255 then f (a v) else "").

(** ** Number helpers *)
Definition round (v : num) : num := Num.of_Z (Num.to_int32 (v + 0.5)).
Definition lim (v l h : num) : num := Num.max (Num.min v h) l.
Definition p2b (v : num) : num := lim (round (v * 2.55)) 0 255.
Definition n2b (v : num) : num := lim (round (v * 255)) 0 255.
Definition b2n (v : num) : num := lim (round (v / 2.55) / 100) 0 1.
Definition n2p (v : num) : num := lim (round (v * 100)) 0 100.

(** ** rgb() notation *)
Definition num_char (c : ascii) : bool := one_of "-+.e" c || is_digit c.
Definition num_char0 (c : ascii) : bool := one_of "-+." c || is_digit c.
Definition sep (c : ascii) : bool := is_space c || one_of "," c.
Definition sep_slash (c : ascii) : bool := is_space c || one_of ",/" c.
Definition ch (c : ascii) : re := Cls (Ascii.eqb c).

Definition RGB_RE : re :=
  seqs [lit "rgb"; Opt (ch "a"); ch "("; Star is_space;
        Grp 1 (Plus num_char0); Opt (Grp 2 (ch "%")); Plus sep;
        Grp 3 (Plus num_char); Opt (Grp 4 (ch "%")); Plus sep;
        Grp 5 (Plus num_char); Opt (Grp 6 (ch "%"));
        Opt (seqs [Plus sep_slash; Grp 7 (Plus num_char); Opt (Grp 8 (ch "%"))]);
        Star is_space; ch ")"].

Definition isSome {A} (o : option A) : bool := match o with Some _ => true | None => false end.
(** [+m[i]] of a group that took part in the match. *)
Definition gnum (m : caps) (i : nat) : num :=
  match group i m with Some s => NumStr.parse s | None => Num.nan end.

Definition rgbParse (s : string) : option rgba :=
  match exec RGB_RE s with
  | None => None
  | Some m =>
      let al := match group 7 m with
        | None => 255
        | Some t => let v := NumStr.parse t in
                    land 255 (if isSome (group 8 m) then p2b v else v * 255)
        end in
      let c i p := let v := gnum m i in land 255 (if isSome (group p m) then p2b v else v) in
      Some (mk (c 1%nat 2%nat) (c 3%nat 4%nat) (c 5%nat 6%nat) al)
  end.

Definition rgbString (v : rgba) : string :=
  let p := NumStr.print in
  if a v <? 255
  then "rgba(" ++ p (r v) ++ ", " ++ p (g v) ++ ", " ++ p (b v) ++ ", " ++ p (b2n (a v)) ++ ")"
  else "rgb(" ++ p (r v) ++ ", " ++ p (g v) ++ ", " ++ p (b v) ++ ")".

(** ** hsl(), hwb() and hsv() notation *)
Definition HUE_RE : re :=
  seqs [Grp 1 (Alt (Seq (lit "hsl") (Opt (ch "a"))) (Alt (lit "hwb") (lit "hsv"))); ch "(";
        Star is_space; Grp 2 (Plus num_char); Opt (lit "deg"); Plus sep;
        Grp 3 (Plus num_char); ch "%"; Plus sep; Grp 4 (Plus num_char); ch "%";
        Opt (seqs [Plus sep; Grp 5 (Plus num_char); Opt (Grp 6 (ch "%"))]);
        Star is_space; ch ")"].

Definition triple : Type := num * num * num.
Definition map3 (f : num -> num) (t : triple) : triple :=
  let '(x, y, z) := t in (f x, f y, f z).

Definition hsl2rgbn (t : triple) : triple :=
  let '(h, s, l) := t in
  let am := s * Num.min l (1 - l) in
  let f n := let k := (n + h / 30) mod 12 in
             l - am * Num.max (Num.min (Num.min (k - 3) (9 - k)) 1) (-1) in
  (f 0, f 8, f 4).

Definition hsv2rgbn (t : triple) : triple :=
  let '(h, s, v) := t in
  let f n := let k := (n + h / 60) mod 6 in
             v - v * s * Num.max (Num.min (Num.min k (4 - k)) 1) 0 in
  (f 5, f 3, f 1).

Definition hwb2rgbn (t : triple) : triple :=
  let '(h, w0, b0) := t in
  let rgb := hsl2rgbn (h, 1, 0.5) in
  let '(w, bl) := if w0 + b0 >? 1
                  then let i := 1 / (w0 + b0) in (w0 * i, b0 * i) else (w0, b0) in
  map3 (fun x => x * (1 - w - bl) + w) rgb.

Definition rgb2hsl (v : rgba) : triple :=
  let rr := r v / 255 in let gg := g v / 255 in let bb := b v / 255 in
  let mx := Num.max (Num.max rr gg) bb in
  let mn := Num.min (Num.min rr gg) bb in
  let l := (mx + mn) / 2 in
  if mx =? mn then (0, 0, l)
  else
    let d := mx - mn in
    let s := if l >? 0.5 then d / (2 - mx - mn) else d / (mx + mn) in
    let h := if mx =? rr then (gg - bb) / d + (if gg <? bb then 6 else 0)
             else if mx =? gg then (bb - rr) / d + 2
             else (rr - gg) / d + 4 in
    (Num.of_Z (Num.to_int32 (h * 60 + 0.5)),
     if Num.is_nan s || (s =? 0) then 0 else s, l).

Definition calln (f : triple -> triple) (t : triple) : triple := map3 n2b (f t).
Definition hsl2rgb : triple -> triple := calln hsl2rgbn.
Definition hwb2rgb : triple -> triple := calln hwb2rgbn.
Definition hsv2rgb : triple -> triple := calln hsv2rgbn.
Definition hue (h : num) : num := (h mod 360 + 360) mod 360.

Definition hueParse (s : string) : option rgba :=
  match exec HUE_RE s with
  | None => None
  | Some m =>
      let al := match group 5 m with
        | None => 255
        | Some t => if isSome (group 6 m) then p2b (NumStr.parse t) else n2b (NumStr.parse t)
        end in
      let t := (hue (gnum m 2), gnum m 3 / 100, gnum m 4 / 100) in
      let kind := match group 1 m with Some k => k | None => "" end in
      let '(rr, gg, bb) :=
        if String.eqb kind "hwb" then hwb2rgb t
        else if String.eqb kind "hsv" then hsv2rgb t else hsl2rgb t in
      Some (mk rr gg bb al)
  end.

(** [v.r = t[0]; v.g = t[1]; v.b = t[2]]. *)
Definition set_rgb (v : rgba) (t : triple) : rgba :=
  let '(x, y, z) := t in mk x y z (a v).

Definition rotate (v : rgba) (deg : num) : rgba :=
  let '(h, s, l) := rgb2hsl v in set_rgb v (hsl2rgb (hue (h + deg), s, l)).

Definition hslString (v : rgba) : string :=
  let '(h, s0, l0) := rgb2hsl v in
  let p := NumStr.print in
  let body := p h ++ ", " ++ p (n2p s0) ++ "%, " ++ p (n2p l0) ++ "%" in
  if a v <? 255 then "hsla(" ++ body ++ ", " ++ p (b2n (a v)) ++ ")"
  else "hsl(" ++ body ++ ")".

(** ** CSS names *)
Definition map_1_1 : list (string * string) := [
  ("x", "dark"); ("Z", "light"); ("Y", "re"); ("X", "blu"); ("W", "gr");
  ("V", "medium"); ("U", "slate"); ("A", "ee"); ("T", "ol"); ("S", "or");
  ("B", "ra"); ("C", "lateg"); ("D", "ights"); ("R", "in"); ("Q", "turquois");
  ("E", "hi"); ("P", "ro"); ("O", "al"); ("N", "le"); ("M", "de"); ("L", "yello");
  ("F", "en"); ("K", "ch"); ("G", "arks"); ("H", "ea"); ("I", "ightg"); ("J", "wh")].

Definition names : list (string * string) := [
  ("OiceXe", "f0f8ff"); ("antiquewEte", "faebd7"); ("aqua", "ffff");
  ("aquamarRe", "7fffd4"); ("azuY", "f0ffff"); ("beige", "f5f5dc");
  ("bisque", "ffe4c4"); ("black", "0"); ("blanKedOmond", "ffebcd"); ("Xe", "ff");
  ("XeviTet", "8a2be2"); ("bPwn", "a52a2a"); ("burlywood", "deb887");
  ("caMtXe", "5f9ea0"); ("KartYuse", "7fff00"); ("KocTate", "d2691e");
  ("cSO", "ff7f50"); ("cSnflowerXe", "6495ed"); ("cSnsilk", "fff8dc");
  ("crimson", "dc143c"); ("cyan", "ffff"); ("xXe", "8b"); ("xcyan", "8b8b");
  ("xgTMnPd", "b8860b"); ("xWay", "a9a9a9"); ("xgYF", "6400"); ("xgYy", "a9a9a9");
  ("xkhaki", "bdb76b"); ("xmagFta", "8b008b"); ("xTivegYF", "556b2f");
  ("xSange", "ff8c00"); ("xScEd", "9932cc"); ("xYd", "8b0000");
  ("xsOmon", "e9967a"); ("xsHgYF", "8fbc8f"); ("xUXe", "483d8b");
  ("xUWay", "2f4f4f"); ("xUgYy", "2f4f4f"); ("xQe", "ced1"); ("xviTet", "9400d3");
  ("dAppRk", "ff1493"); ("dApskyXe", "bfff"); ("dimWay", "696969");
  ("dimgYy", "696969"); ("dodgerXe", "1e90ff"); ("fiYbrick", "b22222");
  ("flSOwEte", "fffaf0"); ("foYstWAn", "228b22"); ("fuKsia", "ff00ff");
  ("gaRsbSo", "dcdcdc"); ("ghostwEte", "f8f8ff"); ("gTd", "ffd700");
  ("gTMnPd", "daa520"); ("Way", "808080"); ("gYF", "8000"); ("gYFLw", "adff2f");
  ("gYy", "808080"); ("honeyMw", "f0fff0"); ("hotpRk", "ff69b4");
  ("RdianYd", "cd5c5c"); ("Rdigo", "4b0082"); ("ivSy", "fffff0");
  ("khaki", "f0e68c"); ("lavFMr", "e6e6fa"); ("lavFMrXsh", "fff0f5");
  ("lawngYF", "7cfc00"); ("NmoncEffon", "fffacd"); ("ZXe", "add8e6");
  ("ZcSO", "f08080"); ("Zcyan", "e0ffff"); ("ZgTMnPdLw", "fafad2");
  ("ZWay", "d3d3d3"); ("ZgYF", "90ee90"); ("ZgYy", "d3d3d3"); ("ZpRk", "ffb6c1");
  ("ZsOmon", "ffa07a"); ("ZsHgYF", "20b2aa"); ("ZskyXe", "87cefa");
  ("ZUWay", "778899"); ("ZUgYy", "778899"); ("ZstAlXe", "b0c4de");
  ("ZLw", "ffffe0"); ("lime", "ff00"); ("limegYF", "32cd32"); ("lRF", "faf0e6");
  ("magFta", "ff00ff"); ("maPon", "800000"); ("VaquamarRe", "66cdaa");
  ("VXe", "cd"); ("VScEd", "ba55d3"); ("VpurpN", "9370db"); ("VsHgYF", "3cb371");
  ("VUXe", "7b68ee"); ("VsprRggYF", "fa9a"); ("VQe", "48d1cc");
  ("VviTetYd", "c71585"); ("midnightXe", "191970"); ("mRtcYam", "f5fffa");
  ("mistyPse", "ffe4e1"); ("moccasR", "ffe4b5"); ("navajowEte", "ffdead");
  ("navy", "80"); ("Tdlace", "fdf5e6"); ("Tive", "808000"); ("TivedBb", "6b8e23");
  ("Sange", "ffa500"); ("SangeYd", "ff4500"); ("ScEd", "da70d6");
  ("pOegTMnPd", "eee8aa"); ("pOegYF", "98fb98"); ("pOeQe", "afeeee");
  ("pOeviTetYd", "db7093"); ("papayawEp", "ffefd5"); ("pHKpuff", "ffdab9");
  ("peru", "cd853f"); ("pRk", "ffc0cb"); ("plum", "dda0dd"); ("powMrXe", "b0e0e6");
  ("purpN", "800080"); ("YbeccapurpN", "663399"); ("Yd", "ff0000");
  ("Psybrown", "bc8f8f"); ("PyOXe", "4169e1"); ("saddNbPwn", "8b4513");
  ("sOmon", "fa8072"); ("sandybPwn", "f4a460"); ("sHgYF", "2e8b57");
  ("sHshell", "fff5ee"); ("siFna", "a0522d"); ("silver", "c0c0c0");
  ("skyXe", "87ceeb"); ("UXe", "6a5acd"); ("UWay", "708090"); ("UgYy", "708090");
  ("snow", "fffafa"); ("sprRggYF", "ff7f"); ("stAlXe", "4682b4");
  ("tan", "d2b48c"); ("teO", "8080"); ("tEstN", "d8bfd8"); ("tomato", "ff6347");
  ("Qe", "40e0d0"); ("viTet", "ee82ee"); ("JHt", "f5deb3"); ("wEte", "ffffff");
  ("wEtesmoke", "f5f5f5"); ("Lw", "ffff00"); ("LwgYF", "9acd32")].

Definition hex_digit (c : ascii) : Z :=
  if is_digit c then digit_val c else (Z.of_nat (nat_of_ascii c) - 87)%Z.
(** [parseInt(s, 16)] of a text of lower-case hexadecimal digits. *)
Fixpoint parse_hex (acc : Z) (s : string) : Z :=
  match s with
  | EmptyString => acc
  | String c s' => parse_hex (16 * acc + hex_digit c)%Z s'
  end.

Definition unpack_name (ok : string) : string :=
  fold_left (fun nk kv => replace nk (fst kv) (snd kv)) map_1_1 ok.
Definition unpack_code (h : string) : list Z :=
  let k := parse_hex 0 h in
  [Z.land (Z.shiftr k 16) 255; Z.land (Z.shiftr k 8) 255; Z.land k 255].

(** The table of the unpacked names, in the order of [names]. *)
Definition unpack : list (string * list Z) :=
  map (fun kv => (unpack_name (fst kv), unpack_code (snd kv))) names.
Definition names_1 : list (string * list Z) := unpack ++ [("transparent", [0; 0; 0; 0]%Z)].

Fixpoint assoc {A} (k : string) (l : list (string * A)) : option A :=
  match l with
  | [] => None
  | (k', x) :: l' => if String.eqb k k' then Some x else assoc k l'
  end.

(** The table is a plain object: two lower-case names are found on
    [Object.prototype].  The values there have no elements, which is written as
    the channel NaN (JavaScript's undefined in arithmetic). *)
Definition inherited (k : string) : bool :=
  String.eqb k "constructor" || String.eqb k "__proto__".

Definition nameParse (s : string) : option rgba :=
  let k := toLowerCase s in
  match assoc k names_1 with
  | Some [x; y; z] => Some (mk (Num.of_Z x) (Num.of_Z y) (Num.of_Z z) 255)
  | Some [x; y; z; w] => Some (mk (Num.of_Z x) (Num.of_Z y) (Num.of_Z z) (Num.of_Z w))
  | Some _ => None
  | None => if inherited k then Some (mk Num.nan Num.nan Num.nan 255) else None
  end.

(** ** The Color class *)

(** [tmp[i] = max(0, min(tmp[i] + tmp[i] * ratio, i === 0 ? 360 : 1))]. *)
Definition modHSL (v : rgba) (i : nat) (ratio : num) : rgba :=
  let '(h, s, l) := rgb2hsl v in
  let upd x top := Num.max 0 (Num.min (x + x * ratio) top) in
  let t := match i with
           | 0%nat => (upd h 360, s, l)
           | 1%nat => (h, upd s 1, l)
           | _ => (h, s, upd l 1)
           end in
  set_rgb v (hsl2rgb t).

(** What the constructor receives: an array, an object with some of the
    channels, a string, or anything else ([null] is an object without
    properties to read: reading [v.a] of it throws). *)
Inductive input :=
| InArray (l : list num)
| InObject (r g b a : option num)
| InNull
| InString (s : string)
| InOther.

Definition dflt (o : option num) (d : num) : num := match o with Some x => x | None => d end.

(** None: the call throws a TypeError. *)
Definition fromObject (i : input) : option rgba :=
  match i with
  | InArray (x :: y :: z :: rest) =>
      Some (mk x y z (match rest with [] => 255 | w :: _ => n2b w end))
  | InArray _ => Some (mk 0 0 0 255)
  | InObject r g b a => Some (mk (dflt r 0) (dflt g 0) (dflt b 0) (n2b (dflt a 1)))
  | _ => None
  end.

Definition functionParse (s : string) : option rgba :=
  if String.eqb (String.substring 0 1 s) "r" then rgbParse s else hueParse s.

(** The object's two fields: [_rgb] (None for undefined) and [_valid]. *)
Record color := mkColor { _rgb : option rgba; _valid : bool }.

Definition of_rgb (v : option rgba) : color := mkColor v (isSome v).

Definition or_else {A} (x y : option A) : option A := match x with Some _ => x | None => y end.

(** The constructor on an input that is not a Color; None when it throws. *)
Definition Color (i : input) : option color :=
  match i with
  | InString s => Some (of_rgb (or_else (hexParse s) (or_else (nameParse s) (functionParse s))))
  | InOther => Some (of_rgb None)
  | _ => match fromObject i with Some v => Some (of_rgb (Some v)) | None => None end
  end.

Definition valid (c : color) : bool := _valid c.
Definition get_rgb (c : color) : option rgba :=
  match _rgb c with
  | Some v => Some (mk (r v) (g v) (b v) (b2n (a v)))
  | None => None
  end.
Definition obj_of (v : rgba) : input := InObject (Some (r v)) (Some (g v)) (Some (b v)) (Some (a v)).
Definition put_rgb (c : color) (v : rgba) : option color :=
  match fromObject (obj_of v) with Some w => Some (mkColor (Some w) (_valid c)) | None => None end.

(** The printing methods return [_rgb], undefined, for an invalid colour. *)
Definition str_of (p : rgba -> string) (c : color) : option string :=
  if _valid c then match _rgb c with Some v => Some (p v) | None => None end else None.
Definition color_rgbString : color -> option string := str_of rgbString.
Definition color_hexString : color -> option string := str_of hexString.
Definition color_hslString : color -> option string := str_of hslString.

(** [mix]: nothing happens without an argument; None when one of the colours
    is undefined and reading it throws. *)
Definition mix (me : color) (arg : option color) (weight : option num) : option color :=
  match arg with None => Some me | Some other =>
  match get_rgb me, get_rgb other with
  | Some c1, Some c2 =>
      let p := dflt weight 0.5 in
      let w := 2 * p - 1 in
      let al := a c1 - a c2 in
      let w1 := ((if w * al =? (-1) then w else (w + al) / (1 + w * al)) + 1) / 2.0 in
      let w2 := 1 - w1 in
      let ch x y := land 255 (w1 * x + w2 * y + 0.5) in
      put_rgb me (mk (ch (r c1) (r c2)) (ch (g c1) (g c2)) (ch (b c1) (b c2))
                     (p * a c1 + (1 - p) * a c2))
  | _, _ => None
  end end.

Definition clone (c : color) : option color :=
  match get_rgb c with
  | Some v => Color (obj_of v)
  | None => Color InOther
  end.

(** The methods below read a channel of [_rgb] and throw when it is undefined. *)
Definition on_rgb (f : rgba -> rgba) (c : color) : option color :=
  match _rgb c with Some v => Some (mkColor (Some (f v)) (_valid c)) | None => None end.
Definition set_a (x : num) (v : rgba) : rgba := mk (r v) (g v) (b v) x.

Definition alpha (c : color) (x : num) : option color := on_rgb (set_a (n2b x)) c.
Definition clearer (c : color) (ratio : num) : option color :=
  on_rgb (fun v => set_a (a v * (1 - ratio)) v) c.
Definition greyscale (c : color) : option color :=
  on_rgb (fun v => let x := round (r v * 0.3 + g v * 0.59 + b v * 0.11) in mk x x x (a v)) c.
Definition opaquer (c : color) (ratio : num) : option color :=
  on_rgb (fun v => set_a (a v * (1 + ratio)) v) c.
Definition negate (c : color) : option color :=
  on_rgb (fun v => mk (255 - r v) (255 - g v) (255 - b v) (a v)) c.

(** [modHSL] does nothing on an undefined colour. *)
Definition mod_color (i : nat) (ratio : num) (c : color) : color :=
  mkColor (match _rgb c with Some v => Some (modHSL v i ratio) | None => None end) (_valid c).
Definition lighten (c : color) (ratio : num) : color := mod_color 2 ratio c.
Definition darken (c : color) (ratio : num) : color := mod_color 2 (- ratio) c.
Definition saturate (c : color) (ratio : num) : color := mod_color 1 ratio c.
Definition desaturate (c : color) (ratio : num) : color := mod_color 1 (- ratio) c.
Definition color_rotate (c : color) (deg : num) : option color := on_rgb (fun v => rotate v deg) c.

(** chart.js's entry points, on values that are not canvas gradients. *)
Definition index_esm : input -> option color := Color.
Definition getHoverColor (i : input) : option string :=
  match index_esm i with
  | Some c => color_hexString (darken (saturate c 0.5) 0.1)
  | None => None
  end.

End Color.

(** ** Facts *)
Module ColorFacts.
Import Color Str NumFacts.
Local Open Scope string_scope.
Local Open Scope Z_scope.

Definition byte (n : Z) : Prop := 0 <= n <= 255.
Definition is_byte (x : num) : Prop := exists n, byte n /\ x = Num.of_Z n.
Definition bytes (x y z w : Z) : rgba := mk (Num.of_Z x) (Num.of_Z y) (Num.of_Z z) (Num.of_Z w).

Lemma byte_safe n : byte n -> safe n.
Proof. unfold byte, safe. lia. Qed.
#[export] Hint Resolve byte_safe : jsdb.

(** A decidable property of bytes is checked on the 256 values. *)
Definition all_bytes (f : Z -> bool) : bool := forallb (fun n => f (Z.of_nat n)) (seq 0 256).
Lemma all_bytes_spec f : all_bytes f = true -> forall n, byte n -> f n = true.
Proof.
  unfold all_bytes, byte. intros H n B. rewrite forallb_forall in H.
  specialize (H (Z.to_nat n)). rewrite Z2Nat.id in H by lia. apply H, in_seq. lia.
Qed.

(** Equality of representations, decided. *)
Definition num_eqb (x y : num) : bool :=
  match x, y with
  | S754_zero s, S754_zero t | S754_infinity s, S754_infinity t => Bool.eqb s t
  | S754_nan, S754_nan => true
  | S754_finite s m e, S754_finite t n f => Bool.eqb s t && Pos.eqb m n && Z.eqb e f
  | _, _ => false
  end.
Lemma num_eqb_eq x y : num_eqb x y = true -> x = y.
Proof.
  destruct x, y; simpl; try congruence; rewrite ?andb_true_iff, ?Bool.eqb_true_iff, ?Pos.eqb_eq, ?Z.eqb_eq;
    intuition congruence.
Qed.

(** *** Hexadecimal round trip *)
Definition pair_val (c1 c0 : ascii) : num :=
  Num.of_Z (Z.lor (Num.wrap32 (Z.shiftl (Num.to_int32 (hex_map (Some c1))) 4))
                  (Num.to_int32 (hex_map (Some c0)))).

Lemma h2_byte n : byte n ->
  exists c1 c0, h2 (Num.of_Z n) = String c1 (String c0 "") /\ pair_val c1 c0 = Num.of_Z n.
Proof.
  set (f n := match h2 (Num.of_Z n) with
    | String c1 (String c0 EmptyString) => num_eqb (pair_val c1 c0) (Num.of_Z n)
    | _ => false end).
  intros B. assert (H : f n = true) by (apply all_bytes_spec; [vm_compute; reflexivity|exact B]).
  unfold f in H. destruct (h2 (Num.of_Z n)) as [|c1 [|c0 [|]]]; try discriminate.
  exists c1, c0. split; [reflexivity|now apply num_eqb_eq].
Qed.

Lemma h1_byte n : byte n -> eq (Num.of_Z n) = true ->
  exists c, h1 (Num.of_Z n) = String c "" /\
    Num.mul (hex_map (Some c)) 17%js = Num.of_Z n /\ land 255 (Num.of_Z n) = Num.of_Z n.
Proof.
  set (f n := negb (eq (Num.of_Z n)) || match h1 (Num.of_Z n) with
    | String c EmptyString => num_eqb (Num.mul (hex_map (Some c)) 17%js) (Num.of_Z n) &&
                              num_eqb (land 255 (Num.of_Z n)) (Num.of_Z n)
    | _ => false end).
  intros B E. assert (H : f n = true) by (apply all_bytes_spec; [vm_compute; reflexivity|exact B]).
  unfold f in H. rewrite E in H. simpl in H.
  destruct (h1 (Num.of_Z n)) as [|c [|]]; try discriminate.
  apply andb_true_iff in H as [H1 H2]. exists c. auto using num_eqb_eq.
Qed.

Definition dval (c : ascii) : num := Num.mul (hex_map (Some c)) 17%js.
Lemma hexParse_4 x y z :
  hexParse (String "#" (String x (String y (String z "")))) =
  Some (mk (land 255 (dval x)) (land 255 (dval y)) (land 255 (dval z)) 255%js).
Proof. reflexivity. Qed.
Lemma hexParse_5 x y z w :
  hexParse (String "#" (String x (String y (String z (String w ""))))) =
  Some (mk (land 255 (dval x)) (land 255 (dval y)) (land 255 (dval z)) (dval w)).
Proof. reflexivity. Qed.
Lemma hexParse_7 x1 x0 y1 y0 z1 z0 :
  hexParse (String "#" (String x1 (String x0 (String y1 (String y0 (String z1 (String z0 ""))))))) =
  Some (mk (pair_val x1 x0) (pair_val y1 y0) (pair_val z1 z0) 255%js).
Proof. reflexivity. Qed.
Lemma hexParse_9 x1 x0 y1 y0 z1 z0 w1 w0 :
  hexParse (String "#" (String x1 (String x0 (String y1 (String y0
    (String z1 (String z0 (String w1 (String w0 ""))))))))) =
  Some (mk (pair_val x1 x0) (pair_val y1 y0) (pair_val z1 z0) (pair_val w1 w0)).
Proof. reflexivity. Qed.

Lemma lt_255 n : byte n -> (Num.of_Z n <? 255)%js = (n <? 255).
Proof. intros B. change 255%js with (Num.of_Z 255). apply of_Z_lt; [eauto with jsdb|unfold safe; lia]. Qed.

Lemma not_lt_255 n : byte n -> (n <? 255) = false -> n = 255.
Proof. unfold byte. intros. bool_to_prop. lia. Qed.

(** Hexadecimal text of a byte colour, in the short or the long form and
    with or without alpha, parses back to the same colour. *)
Theorem hexParse_hexString x y z w :
  byte x -> byte y -> byte z -> byte w ->
  hexParse (hexString (bytes x y z w)) = Some (bytes x y z w).
Proof.
  intros X Y Z W. unfold hexString, isShort, bytes. cbn [r g b a]. rewrite (lt_255 w W).
  destruct (eq (Num.of_Z x) && eq (Num.of_Z y) && eq (Num.of_Z z) && eq (Num.of_Z w)) eqn:E.
  - apply andb_true_iff in E as [E Ew]. apply andb_true_iff in E as [E Ez]. apply andb_true_iff in E as [Ex Ey].
    destruct (h1_byte x X Ex) as (cx & -> & Vx & Lx), (h1_byte y Y Ey) as (cy & -> & Vy & Ly),
      (h1_byte z Z Ez) as (cz & -> & Vz & Lz), (h1_byte w W Ew) as (cw & -> & Vw & Lw).
    fold (dval cx) in Vx. fold (dval cy) in Vy. fold (dval cz) in Vz. fold (dval cw) in Vw.
    destruct (w <? 255) eqn:L; cbn [append]; rewrite ?hexParse_4, ?hexParse_5, ?Vx, ?Vy, ?Vz, ?Vw, Lx, Ly, Lz;
      [reflexivity|now rewrite (not_lt_255 w W L)].
  - destruct (h2_byte x X) as (x1 & x0 & -> & Vx), (h2_byte y Y) as (y1 & y0 & -> & Vy),
      (h2_byte z Z) as (z1 & z0 & -> & Vz), (h2_byte w W) as (w1 & w0 & -> & Vw).
    destruct (w <? 255) eqn:L; cbn [append]; rewrite ?hexParse_7, ?hexParse_9, ?Vx, ?Vy, ?Vz, ?Vw;
      [reflexivity|now rewrite (not_lt_255 w W L)].
Qed.

(** *** rgb() round trip *)
Definition stops (p : ascii -> bool) (s : string) : bool :=
  match s with String c _ => negb (p c) | EmptyString => true end.

(** A greedy repetition takes a maximal run of its class when the rest matches. *)
Lemma star_greedy p w rest k x :
  all_chars p w = true -> stops p rest = true -> k rest = Some x ->
  star p k (w ++ rest) = Some x.
Proof.
  intros A S K. induction w as [|c w IH]; simpl in *.
  - destruct rest; simpl in *; [exact K|]. destruct (p _); [discriminate|exact K].
  - apply andb_true_iff in A as [-> A]. now rewrite IH.
Qed.

Lemma app_length w s : String.length (w ++ s) = (String.length w + String.length s)%nat.
Proof. induction w; simpl; congruence. Qed.

Lemma take_app w s : take (String.length (w ++ s) - String.length s) (w ++ s) = w.
Proof.
  rewrite app_length, Nat.add_sub.
  induction w; simpl; [now destruct s|now rewrite IHw].
Qed.

(** A captured non-empty maximal run of a class. *)
Lemma grp_plus n p w rest cs k x :
  w <> "" -> all_chars p w = true -> stops p rest = true ->
  k rest ((n, w) :: cs) = Some x -> mtch (Grp n (Plus p)) (w ++ rest) cs k = Some x.
Proof.
  intros N A S K. cbn [mtch]. destruct w as [|c w]; [congruence|].
  cbn [append all_chars] in *. apply andb_true_iff in A as [Pc A]. rewrite Pc.
  apply star_greedy; auto. change (String c (w ++ rest)) with (String c w ++ rest).
  now rewrite take_app.
Qed.

Lemma opt_none a0 s cs k : mtch a0 s cs k = None -> mtch (Opt a0) s cs k = k s cs.
Proof. intros H. cbn [mtch]. now rewrite H. Qed.

Record digits (n : Z) (w : string) : Prop := {
  dig_nonempty : w <> "";
  dig_all : all_chars num_char0 w = true;
  dig_all' : all_chars num_char w = true;
  dig_val : land 255 (NumStr.parse w) = Num.of_Z n;
  dig_print : NumStr.print (Num.of_Z n) = w
}.

Lemma print_byte n : byte n -> digits n (NumStr.print (Num.of_Z n)).
Proof.
  set (f n := let w := NumStr.print (Num.of_Z n) in
    negb (String.eqb w "") && all_chars num_char0 w && all_chars num_char w &&
    num_eqb (land 255 (NumStr.parse w)) (Num.of_Z n)).
  intros B. assert (H : f n = true) by (apply all_bytes_spec; [vm_compute; reflexivity|exact B]).
  unfold f in H. bool_to_prop. apply String.eqb_neq in H. split; auto. now apply num_eqb_eq.
Qed.

Lemma star_none p k s : stops p s = true -> star p k s = k s.
Proof. destruct s as [|c s]; simpl; [reflexivity|]. now destruct (p c). Qed.

Lemma stops_digits n w rest : digits n w -> stops is_space (w ++ rest) = true.
Proof.
  intros [N A _ _ _]. destruct w as [|c w]; [congruence|]. simpl in *.
  apply andb_true_iff in A as [A _]. revert A. unfold num_char0, one_of, is_digit, is_space, in_range.
  simpl. destruct c as [[] [] [] [] [] [] [] []]; vm_compute; congruence.
Qed.

Lemma mtch_seq x y s cs k : mtch (Seq x y) s cs k = mtch x s cs (fun s' cs' => mtch y s' cs' k).
Proof. reflexivity. Qed.
Lemma mtch_ch c s cs k : mtch (Cls (Ascii.eqb c)) (String c s) cs k = k s cs.
Proof. cbn. now rewrite Ascii.eqb_refl. Qed.
Lemma mtch_star p s cs k : mtch (Star p) s cs k = star p (fun s' => k s' cs) s.
Proof. reflexivity. Qed.
Lemma mtch_plus_run p c w rest cs k x :
  p c = true -> all_chars p w = true -> stops p rest = true -> k rest cs = Some x ->
  mtch (Plus p) (String c (w ++ rest)) cs k = Some x.
Proof. intros P A S K. cbn [mtch]. rewrite P. now apply star_greedy. Qed.
Lemma mtch_sep_comma w n rest cs k x :
  digits n w -> k (w ++ rest) cs = Some x -> mtch (Plus sep) (", " ++ w ++ rest) cs k = Some x.
Proof.
  intros D K. apply (mtch_plus_run sep "," " " (w ++ rest)); [reflexivity..| |exact K].
  destruct D as [N A _ _ _]. destruct w as [|c w]; [congruence|]. simpl in *.
  apply andb_true_iff in A as [A _]. revert A.
  destruct c as [[] [] [] [] [] [] [] []]; vm_compute; congruence.
Qed.
Lemma mtch_no_percent n s cs k :
  stops (Ascii.eqb "%") s = true -> mtch (Opt (Grp n (Cls (Ascii.eqb "%")))) s cs k = k s cs.
Proof.
  intros H. apply opt_none. cbn [mtch ch]. destruct s as [|c s]; [reflexivity|].
  cbn [stops] in H. apply negb_true_iff in H. now rewrite H.
Qed.

Lemma exec_rgb x y z wx wy wz :
  digits x wx -> digits y wy -> digits z wz ->
  exec RGB_RE ("rgb(" ++ wx ++ ", " ++ wy ++ ", " ++ wz ++ ")") =
  Some [(5%nat, wz); (3%nat, wy); (1%nat, wx)].
Proof.
  intros X Y Z. unfold exec, RGB_RE, ch. cbn [seqs].
  rewrite mtch_seq. cbn [lit append]. do 2 rewrite mtch_seq, mtch_ch.
  rewrite mtch_ch, mtch_seq, opt_none by reflexivity.
  rewrite mtch_seq, mtch_ch, mtch_seq, mtch_star, star_none by eauto using stops_digits.
  rewrite mtch_seq. apply grp_plus; [apply X|apply X|reflexivity|].
  rewrite mtch_seq, mtch_no_percent by reflexivity.
  rewrite mtch_seq. eapply mtch_sep_comma; [exact Y|].
  rewrite mtch_seq. apply grp_plus; [apply Y|apply Y|reflexivity|].
  rewrite mtch_seq, mtch_no_percent by reflexivity.
  rewrite mtch_seq. eapply mtch_sep_comma; [exact Z|].
  rewrite mtch_seq. apply grp_plus; [apply Z|apply Z|reflexivity|].
  reflexivity.
Qed.

Lemma opt_some x s cs k y : mtch x s cs k = Some y -> mtch (Opt x) s cs k = Some y.
Proof. intros H. cbn [mtch]. now rewrite H. Qed.

Definition alpha_text (n : Z) : string := NumStr.print (b2n (Num.of_Z n)).
(** What [rgbParse] makes of a printed alpha channel. *)
Definition alpha_back (n : Z) : Z :=
  Z.land 255 (Num.to_int32 (Num.mul (NumStr.parse (alpha_text n)) 255%js)).

Lemma alpha_text_ok n : byte n ->
  alpha_text n <> "" /\ all_chars num_char (alpha_text n) = true /\
  stops sep_slash (alpha_text n) = true /\ byte (alpha_back n) /\ -2 <= alpha_back n - n <= 1.
Proof.
  set (f n := let w := alpha_text n in negb (String.eqb w "") && all_chars num_char w &&
    stops sep_slash w && (0 <=? alpha_back n) && (alpha_back n <=? 255) &&
    (-2 <=? alpha_back n - n) && (alpha_back n - n <=? 1)).
  intros B. assert (H : f n = true) by (apply all_bytes_spec; [vm_compute; reflexivity|exact B]).
  unfold f in H. bool_to_prop. apply String.eqb_neq in H. unfold byte. repeat split; auto; lia.
Qed.

Lemma alpha_back_eq n :
  land 255 (Num.mul (NumStr.parse (alpha_text n)) 255%js) = Num.of_Z (alpha_back n).
Proof. unfold land, alpha_back. reflexivity. Qed.

Lemma rgbParse_of_exec s m x y z w :
  exec RGB_RE s = Some m ->
  land 255 (gnum m 1) = x -> land 255 (gnum m 3) = y -> land 255 (gnum m 5) = z ->
  group 2 m = None -> group 4 m = None -> group 6 m = None ->
  match group 7 m with None => 255%js
  | Some t => land 255 (if isSome (group 8 m) then p2b (NumStr.parse t) else Num.mul (NumStr.parse t) 255%js) end = w ->
  rgbParse s = Some (mk x y z w).
Proof. intros E X Y Z G2 G4 G6 A. unfold rgbParse. rewrite E, G2, G4, G6. cbn [isSome]. now rewrite X, Y, Z, <- A. Qed.

Lemma stops_app p w s : w <> "" -> stops p (w ++ s) = stops p w.
Proof. destruct w; [congruence|reflexivity]. Qed.

Lemma exec_rgba x y z w wx wy wz :
  digits x wx -> digits y wy -> digits z wz -> byte w ->
  exec RGB_RE ("rgba(" ++ wx ++ ", " ++ wy ++ ", " ++ wz ++ ", " ++ alpha_text w ++ ")") =
  Some [(7%nat, alpha_text w); (5%nat, wz); (3%nat, wy); (1%nat, wx)].
Proof.
  intros X Y Z W. destruct (alpha_text_ok w W) as (N & A & S & _).
  unfold exec, RGB_RE, ch. cbn [seqs].
  rewrite mtch_seq. cbn [lit append]. do 2 rewrite mtch_seq, mtch_ch.
  rewrite mtch_ch, mtch_seq. apply opt_some. rewrite mtch_ch.
  rewrite mtch_seq, mtch_ch, mtch_seq, mtch_star, star_none by eauto using stops_digits.
  rewrite mtch_seq. apply grp_plus; [apply X|apply X|reflexivity|].
  rewrite mtch_seq, mtch_no_percent by reflexivity.
  rewrite mtch_seq. eapply mtch_sep_comma; [exact Y|].
  rewrite mtch_seq. apply grp_plus; [apply Y|apply Y|reflexivity|].
  rewrite mtch_seq, mtch_no_percent by reflexivity.
  rewrite mtch_seq. eapply mtch_sep_comma; [exact Z|].
  rewrite mtch_seq. apply grp_plus; [apply Z|apply Z|reflexivity|].
  rewrite mtch_seq, mtch_no_percent by reflexivity.
  rewrite mtch_seq. apply opt_some. rewrite mtch_seq.
  apply (mtch_plus_run sep_slash "," " " (alpha_text w ++ ")")); [reflexivity..|now rewrite stops_app|].
  rewrite mtch_seq.
  apply (grp_plus 7 num_char); [exact N|exact A|reflexivity|]. reflexivity.
Qed.

(** The [rgb()] text of a byte colour parses back to the same three
    channels; an opaque alpha is kept and any other one comes back within two
    units below and one above (two decimals are printed, and the parser
    truncates instead of rounding). *)
Theorem rgbParse_rgbString x y z w :
  byte x -> byte y -> byte z -> byte w ->
  exists w', rgbParse (rgbString (bytes x y z w)) = Some (bytes x y z w') /\
    byte w' /\ -2 <= w' - w <= 1 /\ (w = 255 -> w' = 255).
Proof.
  intros X Y Z W. unfold rgbString, bytes. cbn [r g b a]. rewrite (lt_255 w W).
  pose proof (print_byte x X) as Dx. pose proof (print_byte y Y) as Dy. pose proof (print_byte z Z) as Dz.
  destruct (w <? 255) eqn:L; bool_to_prop.
  - exists (alpha_back w). destruct (alpha_text_ok w W) as (_ & _ & _ & Bw & Rw).
    fold (alpha_text w). split; [|split; [exact Bw|lia]].
    apply (rgbParse_of_exec _ _ _ _ _ _ (exec_rgba x y z w _ _ _ Dx Dy Dz W));
      [apply Dx|apply Dy|apply Dz|reflexivity..|apply alpha_back_eq].
  - exists 255. split; [|unfold byte in *; lia].
    apply (rgbParse_of_exec _ _ _ _ _ _ (exec_rgb x y z _ _ _ Dx Dy Dz));
      [apply Dx|apply Dy|apply Dz|reflexivity..].
Qed.

(** *** Every parsed channel is a byte *)
Lemma land_byte x : is_byte (land 255 x).
Proof.
  exists (Z.land 255 (Num.to_int32 x)). split; [|reflexivity].
  unfold byte. rewrite Z.land_comm. change 255 with (Z.ones 8). rewrite Z.land_ones by lia.
  change (Z.ones 8) with 255. pose proof (Z.mod_pos_bound (Num.to_int32 x) (2 ^ 8)). lia.
Qed.

Lemma lim_byte x : is_byte (lim (round x) 0%js 255%js).
Proof.
  unfold lim, round. set (k := Num.to_int32 _).
  assert (R : - 2 ^ 31 <= k < 2 ^ 31) by apply wrap32_range.
  change 255%js with (Num.of_Z 255). change 0%js with (Num.of_Z 0).
  rewrite of_Z_min by (unfold safe; lia). rewrite of_Z_max by (unfold safe; lia).
  eexists; split; [|reflexivity]. unfold byte. lia.
Qed.

Lemma const_byte : is_byte 255%js.
Proof. exists 255. split; [unfold byte; lia|reflexivity]. Qed.

Lemma hex_map_val c : exists n, 0 <= n <= 15 /\ Num.to_int32 (hex_map c) = n /\
  (Num.mul (hex_map c) 17%js = Num.of_Z (17 * n) \/ Num.mul (hex_map c) 17%js = Num.nan).
Proof.
  destruct c as [c|]; [|exists 0; repeat split; try lia; now right].
  set (f c := let n := Num.to_int32 (hex_map (Some c)) in (0 <=? n) && (n <=? 15) &&
    (num_eqb (Num.mul (hex_map (Some c)) 17%js) (Num.of_Z (17 * n)) ||
     num_eqb (Num.mul (hex_map (Some c)) 17%js) Num.nan)).
  assert (H : f c = true) by (destruct c as [[] [] [] [] [] [] [] []]; vm_compute; reflexivity).
  unfold f in H. bool_to_prop. exists (Num.to_int32 (hex_map (Some c))). repeat split; try lia.
  match goal with H : _ || _ = true |- _ => apply orb_true_iff in H as [H|H]; apply num_eqb_eq in H; auto end.
Qed.

Lemma hex_pair_byte s i : is_byte (hex_pair s i).
Proof.
  unfold hex_pair. destruct (hex_map_val (at_ s i)) as (m & Hm & -> & _).
  destruct (hex_map_val (at_ s (S i))) as (n & Hn & -> & _).
  eexists; split; [|reflexivity].
  set (f m n := let v := Z.lor (Num.wrap32 (Z.shiftl m 4)) n in (0 <=? v) && (v <=? 255)).
  assert (H : forallb (fun m => forallb (fun n => f (Z.of_nat m) (Z.of_nat n)) (seq 0 16)) (seq 0 16) = true)
    by (vm_compute; reflexivity).
  rewrite forallb_forall in H. specialize (H (Z.to_nat m)). rewrite in_seq in H.
  specialize (H ltac:(lia)). rewrite forallb_forall in H. specialize (H (Z.to_nat n)).
  rewrite in_seq, !Z2Nat.id in H by lia. specialize (H ltac:(lia)). unfold f in H. bool_to_prop. split; lia.
Qed.

Definition byte_rgb (v : rgba) : Prop := is_byte (r v) /\ is_byte (g v) /\ is_byte (b v).
Definition byte_color (v : rgba) : Prop := byte_rgb v /\ is_byte (a v).

#[local] Hint Resolve land_byte lim_byte const_byte hex_pair_byte : jsdb.

Lemma hexParse_bytes s v : hexParse s = Some v ->
  byte_rgb v /\ (is_byte (a v) \/ a v = Num.nan /\ String.length s = 5%nat).
Proof.
  unfold hexParse. destruct (String.eqb _ _); [|discriminate].
  destruct (_ || _).
  - intros [= <-]. split; [repeat split; apply land_byte|]. cbn [a].
    destruct (Nat.eqb _ 5) eqn:L; [|left; apply const_byte]. apply Nat.eqb_eq in L.
    destruct (hex_map_val (at_ s 4)) as (n & Hn & _ & [E|E]); [left|right]; rewrite E; [|now split].
    exists (17 * n). unfold byte. split; [lia|reflexivity].
  - destruct (_ || _); [|discriminate]. intros [= <-].
    split; [repeat split; apply hex_pair_byte|left]. cbn [a].
    destruct (Nat.eqb _ 9); auto with jsdb.
Qed.

Lemma rgbParse_bytes s v : rgbParse s = Some v -> byte_color v.
Proof.
  unfold rgbParse. destruct (exec RGB_RE s) as [m|]; [|discriminate]. intros [= <-].
  split; [repeat split; apply land_byte|]. cbn [a]. destruct (group 7 m); auto with jsdb.
Qed.

Lemma map3_n2b t : let '(x, y, z) := map3 n2b t in is_byte x /\ is_byte y /\ is_byte z.
Proof. destruct t as [[x y] z]. cbn. unfold n2b. auto with jsdb. Qed.

Lemma hueParse_bytes s v : hueParse s = Some v -> byte_color v.
Proof.
  unfold hueParse. destruct (exec HUE_RE s) as [m|]; [|discriminate].
  set (t := (_, _, _)). unfold hwb2rgb, hsv2rgb, hsl2rgb, calln.
  destruct (String.eqb _ "hwb"); [pose proof (map3_n2b (hwb2rgbn t)) as H; destruct (map3 n2b (hwb2rgbn t)) as [[? ?] ?]|
    destruct (String.eqb _ "hsv"); [pose proof (map3_n2b (hsv2rgbn t)) as H; destruct (map3 n2b (hsv2rgbn t)) as [[? ?] ?]|
      pose proof (map3_n2b (hsl2rgbn t)) as H; destruct (map3 n2b (hsl2rgbn t)) as [[? ?] ?]]];
  intros [= <-]; (split; [exact H|]); cbn [a]; destruct (group 5 m); [|apply const_byte| |apply const_byte| |apply const_byte];
    destruct (isSome _); apply lim_byte.
Qed.

Lemma assoc_In {A} k (l : list (string * A)) x : assoc k l = Some x -> In (k, x) l.
Proof.
  induction l as [|[k' y] l IH]; simpl; [discriminate|].
  destruct (String.eqb k k') eqn:E; [|auto]. apply String.eqb_eq in E. intros [= ->]. subst. auto.
Qed.

Lemma names_1_bytes : forallb (fun kv => forallb (fun n => (0 <=? n) && (n <=? 255)) (snd kv)) names_1 = true.
Proof. vm_compute. reflexivity. Qed.

Lemma nameParse_bytes s v :
  inherited (toLowerCase s) = false -> nameParse s = Some v -> byte_color v.
Proof.
  intros I. unfold nameParse. rewrite I.
  destruct (assoc _ names_1) as [l|] eqn:E; [|discriminate]. apply assoc_In in E.
  pose proof names_1_bytes as H. rewrite forallb_forall in H. specialize (H _ E). cbn [snd] in H.
  assert (B : forall n, (0 <=? n) && (n <=? 255) = true -> is_byte (Num.of_Z n)).
  { intros n Hn. bool_to_prop. exists n. now split. }
  destruct l as [|x [|y [|z [|w [|]]]]]; try discriminate; intros [= <-]; simpl in H; bool_to_prop;
    (split; [repeat split; apply B; apply andb_true_iff; split; apply Z.leb_le; lia|]); cbn [a].
  - apply const_byte.
  - apply B; apply andb_true_iff; split; apply Z.leb_le; lia.
Qed.

(** C40: a colour that the constructor reads from a string (a hexadecimal text,
    a name or a functional notation) whose lower case is neither of the names
    inherited from Object.prototype, [constructor] and [__proto__], has red,
    green and blue channels that are whole numbers from 0 to 255, and so is its
    alpha, unless the string has exactly five characters and is read as a
    hexadecimal text, when the alpha may also be NaN (an invalid fourth digit). *)
Theorem Color_string_bytes s c v :
  Color (InString s) = Some c -> _rgb c = Some v -> inherited (toLowerCase s) = false ->
  byte_rgb v /\
  (is_byte (a v) \/ a v = Num.nan /\ String.length s = 5%nat /\ hexParse s = Some v).
Proof.
  intros [= <-] H I. cbn in H. unfold or_else in H.
  destruct (hexParse s) eqn:E1; [injection H as <-; apply hexParse_bytes in E1 as W; tauto|].
  enough (byte_color v) by (unfold byte_color in *; tauto).
  destruct (nameParse s) eqn:E2; [injection H as <-; eauto using nameParse_bytes|].
  unfold functionParse in H. destruct (String.eqb _ "r"); eauto using rgbParse_bytes, hueParse_bytes.
Qed.

(** *** The name table *)
Definition rgba_eqb (x y : option rgba) : bool :=
  match x, y with
  | Some v, Some w => num_eqb (r v) (r w) && num_eqb (g v) (g w) && num_eqb (b v) (b w) && num_eqb (a v) (a w)
  | None, None => true
  | _, _ => false
  end.
Lemma rgba_eqb_eq x y : rgba_eqb x y = true -> x = y.
Proof.
  destruct x as [[]|], y as [[]|]; simpl; try congruence. intros. bool_to_prop.
  repeat match goal with H : num_eqb _ _ = true |- _ => apply num_eqb_eq in H end. congruence.
Qed.

(** The codes of the table have no leading zeros. *)
Definition pad6 (h : string) : string := zeros (6 - String.length h) ++ h.

(** For each of the 148 entries of the compressed table, looking up
    the expanded name (in any letter case) gives the colour that the
    hexadecimal parser reads from the entry's code, padded to six digits. *)
Theorem nameParse_names k h s :
  In (k, h) names -> toLowerCase s = unpack_name k -> nameParse s = hexParse ("#" ++ pad6 h).
Proof.
  intros I E.
  set (f kv := rgba_eqb (nameParse (unpack_name (fst kv))) (hexParse ("#" ++ pad6 (snd kv))) &&
    String.eqb (toLowerCase (unpack_name (fst kv))) (unpack_name (fst kv))).
  assert (H : forallb f names = true) by (vm_compute; reflexivity).
  rewrite forallb_forall in H. specialize (H _ I). unfold f in H. cbn [fst snd] in H.
  apply andb_true_iff in H as [H1 H2]. apply rgba_eqb_eq in H1. apply String.eqb_eq in H2.
  rewrite <- H1. unfold nameParse. now rewrite E, H2.
Qed.

(** *** Methods *)
Lemma grey_byte n : byte n ->
  let v := Num.of_Z n in round (v * 0.3 + v * 0.59 + v * 0.11)%js = v.
Proof.
  set (f n := num_eqb (round (Num.of_Z n * 0.3 + Num.of_Z n * 0.59 + Num.of_Z n * 0.11)%js) (Num.of_Z n)).
  intros B. assert (H : f n = true) by (apply all_bytes_spec; [vm_compute; reflexivity|exact B]).
  apply num_eqb_eq in H. exact H.
Qed.

(** [greyscale] leaves a byte colour that is already grey unchanged, and
    [negate] is an involution on byte colours. *)
Theorem greyscale_negate x y z w :
  byte x -> byte y -> byte z ->
  let grey := mkColor (Some (mk (Num.of_Z x) (Num.of_Z x) (Num.of_Z x) w)) true in
  let c := mkColor (Some (mk (Num.of_Z x) (Num.of_Z y) (Num.of_Z z) w)) true in
  greyscale grey = Some grey /\ (exists c', negate c = Some c' /\ negate c' = Some c).
Proof.
  intros X Y Z. cbn zeta. split.
  - unfold greyscale, on_rgb. cbn [_rgb r g b a]. now rewrite (grey_byte x X).
  - unfold negate, on_rgb. cbn [_rgb _valid r g b a]. eexists; split; [reflexivity|].
    cbn [_rgb r g b a _valid]. change 255%js with (Num.of_Z 255).
    unfold byte in *. rewrite !of_Z_sub by (unfold safe; lia).
    repeat f_equal; lia.
Qed.


Lemma hexParse_hexString_witness : hexParse (hexString (bytes 18 52 171 205)) = Some (bytes 18 52 171 205).
Proof. apply (hexParse_hexString 18 52 171 205); unfold byte; lia. Defined.
Lemma rgbParse_rgbString_witness :
  exists w', rgbParse (rgbString (bytes 18 52 171 128)) = Some (bytes 18 52 171 w') /\ -2 <= w' - 128 <= 1.
Proof.
  destruct (rgbParse_rgbString 18 52 171 128) as (w' & P & _ & B & _); try (unfold byte; lia). exists w'. auto.
Defined.
Lemma Color_string_bytes_witness :
  match Color (InString "#12f") with
  | Some c => match _rgb c with
    | Some v => byte_rgb v /\
        (is_byte (a v) \/ a v = Num.nan /\ String.length "#12f" = 5%nat /\ hexParse "#12f" = Some v)
    | None => False end
  | None => False
  end.
Proof.
  destruct (Color (InString "#12f")) as [c|] eqn:C; [|vm_compute in C; discriminate].
  destruct (_rgb c) as [v|] eqn:V.
  - apply (Color_string_bytes "#12f" c v C V). reflexivity.
  - assert (isSome (match Color (InString "#12f") with Some c => _rgb c | None => None end) = true) as X by (vm_compute; reflexivity).
    rewrite C, V in X. discriminate.
Defined.
End ColorFacts.
