(* ===== verification/Collections.v ===== *)
(** The collection helpers of webui/public/chart.js: binary search, range
    filter, array listeners, duplicate removal. *)
From Stdlib Require Import ZArith Lia Bool List String Sorted.
From Stdlib Require Import SpecFloat.
From stdpp Require Import base list.
From S2P Require Import Prelude JsNumber JsString JsArray HelpersCore.
Import ListNotations.
Open Scope Z_scope.

Module Collections.

Record bounds := mkBounds { lo : Z; hi : Z }.

(** [_lookup]'s loop; [cmp mid] tells that the searched place is after [mid].
    [>>] works on 32 bits. *)
Fixpoint lookup_loop (fuel : nat) (cmp : Z -> bool) (lo hi : Z) : bounds :=
  match fuel with
  | O => mkBounds lo hi
  | S f =>
      if 1 <? hi - lo then
        let mid := Z.shiftr (Num.wrap32 (lo + hi)) 1 in
        if cmp mid then lookup_loop f cmp mid hi else lookup_loop f cmp lo mid
      else mkBounds lo hi
  end.
Definition _lookup {A} (table : list A) (cmp : Z -> bool) : bounds :=
  lookup_loop (List.length table) cmp 0 (lengthZ table - 1).
(** The default comparison of [_lookup]: [table[index] < value]. *)
Definition lookup_default (table : list num) (value : num) : bounds :=
  _lookup table (fun i => match nthZ table i with Some v => Num.lt v value | None => false end).

(** [key] selects the property; its value may be undefined, which is NaN here
    (both compare false). *)
Definition _lookupByKey {A} (table : list A) (key : A -> num) (value : num) : bounds :=
  _lookup table (fun i => match nthZ table i with Some v => Num.lt (key v) value | None => false end).
Definition _rlookupByKey {A} (table : list A) (key : A -> num) (value : num) : bounds :=
  _lookup table (fun i => match nthZ table i with Some v => Num.le value (key v) | None => false end).

(** The two loops of [_filterBetween], then the slice between the indices. *)
Fixpoint skip_start (values : list num) (start end_ : Z) (min : num) : Z :=
  match values with
  | v :: rest => if (start <? end_) && Num.lt v min then skip_start rest (start + 1) end_ min else start
  | [] => start
  end.
Fixpoint skip_end (fuel : nat) (values : list num) (start end_ : Z) (max : num) : Z :=
  match fuel with
  | O => end_
  | S f => if (start <? end_) && match nthZ values (end_ - 1) with Some v => Num.lt max v | None => false end
           then skip_end f values start (end_ - 1) max else end_
  end.
Definition _filterBetween (values : list num) (min max : num) : list num :=
  let start := skip_start values 0 (lengthZ values) min in
  let end_ := skip_end (List.length values) values start (lengthZ values) max in
  if (0 <? start) || (end_ <? lengthZ values) then slice values start end_ else values.

(** *** Array listeners

    A listener is its name and the [_onData...] methods it has.  An array is
    its elements and the [_chartjs] stub, which holds the listeners; the five
    patched methods are present exactly when the stub is. *)
Section Listen.
Context {A : Type}.

Record listener := mkListener { lid : nat; methods : list string }.
#[global] Instance listener_eq_dec : EqDecision listener.
Proof. solve_decision. Defined.

Record array := mkArray { items : list A; chartjs : option (list listener) }.
Inductive call :=
| Push (args : list A) | Pop | Shift | Splice (start count : nat) (args : list A) | Unshift (args : list A).

Definition arrayEvents : list string := ["push"; "pop"; "shift"; "splice"; "unshift"]%string.
Definition event (c : call) : string :=
  match c with
  | Push _ => "push" | Pop => "pop" | Shift => "shift" | Splice _ _ _ => "splice" | Unshift _ => "unshift"
  end%string.

(** The built-in method [base]: the new elements (the result is not used here). *)
Definition base (c : call) (l : list A) : list A :=
  match c with
  | Push args => l ++ args
  | Pop => removelast l
  | Shift => List.tl l
  | Splice s n args => firstn s l ++ args ++ skipn (s + n) l
  | Unshift args => args ++ l
  end.

(** Calling a method of the array: the built-in one, then every listener with a
    method of the event's name, in order, with the same arguments. *)
Definition call_method (c : call) (a : array) : array * list (nat * string) :=
  let method := String.append "_onData" (Core._capitalize (event c)) in
  (mkArray (base c (items a)) (chartjs a),
   match chartjs a with
   | Some ls => List.map (fun l => (lid l, method))
                  (List.filter (fun l => existsb (String.eqb method) (methods l)) ls)
   | None => []
   end).

Definition listenArrayEvents (a : array) (l : listener) : array :=
  match chartjs a with
  | Some ls => mkArray (items a) (Some (ls ++ [l]))
  | None => mkArray (items a) (Some [l])
  end.

Fixpoint remove_first (l : listener) (ls : list listener) : list listener :=
  match ls with
  | [] => []
  | x :: r => if decide (x = l) then r else x :: remove_first l r
  end.
Definition unlistenArrayEvents (a : array) (l : listener) : array :=
  match chartjs a with
  | None => a
  | Some ls =>
      match remove_first l ls with
      | [] => mkArray (items a) None
      | r => mkArray (items a) (Some r)
      end
  end.
End Listen.
Arguments array : clear implicits.
Arguments call : clear implicits.

(** [Set.prototype.add] keeps insertion order. *)
Section Unique.
Context {A : Type} `{EqDecision A}.
Definition set_add (s : list A) (x : A) : list A := if decide (x ∈ s) then s else s ++ [x].
Definition _arrayUnique (items : list A) : list A :=
  let set := fold_left set_add items [] in
  if Nat.eqb (List.length set) (List.length items) then items else set.
End Unique.

End Collections.

(** ** Facts *)
Module CollectionsFacts.
Import Num NumFacts Collections.

Lemma mid_between lo hi : 0 <= lo -> hi < 2 ^ 30 -> 1 < hi - lo ->
  lo < Z.shiftr (wrap32 (lo + hi)) 1 < hi.
Proof.
  intros. rewrite wrap32_id by lia. rewrite Z.shiftr_div_pow2 by lia. change (2 ^ 1) with 2.
  pose proof (Z.div_mod (lo + hi) 2 ltac:(lia)). pose proof (Z.mod_pos_bound (lo + hi) 2). lia.
Qed.

(** The loop ends with adjacent places and keeps what the tests told. *)
Lemma lookup_loop_inv cmp top f lo0 hi0 :
  0 <= lo0 -> hi0 <= top -> top < 2 ^ 30 -> hi0 - lo0 <= Z.of_nat f + 1 -> lo0 <= hi0 ->
  (lo0 = 0 \/ cmp lo0 = true) -> (hi0 = top \/ cmp hi0 = false) ->
  let r := lookup_loop f cmp lo0 hi0 in
  lo0 <= lo r <= hi r /\ hi r <= hi0 /\ hi r - lo r <= 1 /\
  (lo r = 0 \/ cmp (lo r) = true) /\ (hi r = top \/ cmp (hi r) = false).
Proof.
  revert lo0 hi0. induction f as [|f IH]; intros lo0 hi0 L T B F O Cl Ch; cbn [lookup_loop];
    [cbn [lo hi]; repeat split; auto; lia|].
  destruct (Z.ltb_spec 1 (hi0 - lo0)); [|cbn [lo hi]; repeat split; auto; lia].
  pose proof (mid_between lo0 hi0 L ltac:(lia) ltac:(lia)) as M.
  cbn zeta. destruct (cmp (Z.shiftr _ _)) eqn:E.
  - destruct (IH (Z.shiftr (wrap32 (lo0 + hi0)) 1) hi0) as (? & ? & ? & ? & ?); auto; try lia.
    cbn zeta. repeat split; auto; lia.
  - destruct (IH lo0 (Z.shiftr (wrap32 (lo0 + hi0)) 1)) as (? & ? & ? & ? & ?); auto; try lia.
    cbn zeta. repeat split; auto; lia.
Qed.

Definition sorted_by {A} (key : A -> num) (t : list A) : Prop :=
  StronglySorted (fun a b => le (key a) (key b) = true) t.

Lemma sorted_nth {A} (key : A -> num) t i j a b : sorted_by key t ->
  i < j -> nthZ t i = Some a -> nthZ t j = Some b -> le (key a) (key b) = true.
Proof.
  unfold nthZ. intros S I. destruct (Z.ltb_spec i 0); [discriminate|].
  destruct (Z.ltb_spec j 0); [discriminate|].
  assert (L : (Z.to_nat i < Z.to_nat j)%nat) by lia. revert L.
  generalize (Z.to_nat i) (Z.to_nat j). clear i j I H H0.
  induction S as [|x t S IH F]; intros i j L; [destruct i; discriminate|].
  destruct j as [|j]; [lia|]. destruct i as [|i]; simpl.
  - intros [= <-] B. rewrite List.Forall_forall in F. apply F. eapply nth_error_In; eauto.
  - apply IH. lia.
Qed.

(** A search whose test is true on a prefix of the table ends on adjacent
    indices: the test holds before [lo] and fails after [hi]. *)
Lemma lookup_mono {A} (table : list A) (cmp : A -> bool) :
  table <> [] -> lengthZ table <= 2 ^ 30 ->
  (forall i j a b, i < j -> nthZ table i = Some a -> nthZ table j = Some b -> cmp b = true -> cmp a = true) ->
  let r := _lookup table (fun i => match nthZ table i with Some v => cmp v | None => false end) in
  0 <= lo r <= hi r /\ hi r < lengthZ table /\ hi r - lo r <= 1 /\
  (forall i a, nthZ table i = Some a -> i < lo r -> cmp a = true) /\
  (forall i a, nthZ table i = Some a -> hi r < i -> cmp a = false) /\
  (0 < lo r -> forall a, nthZ table (lo r) = Some a -> cmp a = true) /\
  (hi r < lengthZ table - 1 -> forall a, nthZ table (hi r) = Some a -> cmp a = false).
Proof.
  intros N B M r. assert (P : 0 < lengthZ table).
  { destruct table; [congruence|]. unfold lengthZ. cbn [List.length]. lia. }
  set (c := fun i => match nthZ table i with Some v => cmp v | None => false end).
  pose proof (lookup_loop_inv c (lengthZ table - 1) (List.length table) 0 (lengthZ table - 1)) as I.
  cbn zeta in I. change (lookup_loop _ c 0 _) with r in I.
  destruct I as ([I1 I2] & I3 & I4 & I5 & I6); try (unfold lengthZ in *; lia); auto.
  assert (Kl : 0 < lo r -> forall a, nthZ table (lo r) = Some a -> cmp a = true).
  { intros Z a E. destruct I5 as [I5|I5]; [lia|]. unfold c in I5. now rewrite E in I5. }
  assert (Kh : hi r < lengthZ table - 1 -> forall a, nthZ table (hi r) = Some a -> cmp a = false).
  { intros Z a E. destruct I6 as [I6|I6]; [lia|]. unfold c in I6. now rewrite E in I6. }
  repeat split; try lia; auto.
  - intros i a E L. assert (0 <= i) by (apply Z.nlt_ge; intros ?; unfold nthZ in E;
      destruct (Z.ltb_spec i 0); [discriminate|lia]).
    destruct (nthZ_Some table (lo r)) as [b Eb]; [lia|].
    eapply M; eauto. apply Kl; [lia|auto].
  - intros i a E L. assert (i < lengthZ table) by (apply Z.nle_gt; intros ?;
      assert (nthZ table i = None) by (apply nthZ_None; lia); congruence).
    destruct (nthZ_Some table (hi r)) as [b Eb]; [lia|].
    destruct (cmp a) eqn:Q; [|reflexivity].
    pose proof (M (hi r) i b a ltac:(lia) Eb E Q) as X. rewrite Kh in X; [auto|lia|auto].
Qed.

(** The two searches by key. *)
Lemma lookup_asc {A} (table : list A) (key : A -> num) (value : num) :
  sorted_by key table -> forall i j a b, i < j -> nthZ table i = Some a -> nthZ table j = Some b ->
  lt (key b) value = true -> lt (key a) value = true.
Proof. intros S i j a b L Ea Eb C. eapply le_lt_trans; [exact (sorted_nth key table i j a b S L Ea Eb)|exact C]. Qed.
Definition sorted_desc {A} (key : A -> num) (t : list A) : Prop :=
  StronglySorted (fun a b => le (key b) (key a) = true) t.
Lemma sorted_desc_nth {A} (key : A -> num) t i j a b : sorted_desc key t ->
  i < j -> nthZ t i = Some a -> nthZ t j = Some b -> le (key b) (key a) = true.
Proof.
  intros S L Ea Eb. assert (N : sorted_by (fun a => opp (key a)) t).
  { clear - S. induction S as [|x l S IH F]; constructor; [exact IH|].
    eapply List.Forall_impl; [|exact F]. cbn. intros y. now rewrite opp_le. }
  pose proof (sorted_nth _ t i j a b N L Ea Eb) as X. cbn in X. now rewrite opp_le in X.
Qed.
Lemma lookup_desc {A} (table : list A) (key : A -> num) (value : num) :
  sorted_desc key table -> forall i j a b, i < j -> nthZ table i = Some a -> nthZ table j = Some b ->
  le value (key b) = true -> le value (key a) = true.
Proof. intros S i j a b L Ea Eb C. eapply le_trans; [exact C|exact (sorted_desc_nth key table i j a b S L Ea Eb)]. Qed.

(** On a table sorted by a key without NaN, with at most 2^30 entries (the
    32-bit midpoint), [_lookupByKey] ends on adjacent indices of the table that
    enclose the value: every entry before [lo] is below it, and every entry
    after [hi] is at or above it. *)
Theorem lookupByKey_spec {A} (table : list A) (key : A -> num) (value : num) :
  table <> [] -> lengthZ table <= 2 ^ 30 -> sorted_by key table ->
  let r := _lookupByKey table key value in
  0 <= lo r <= hi r /\ hi r < lengthZ table /\ hi r - lo r <= 1 /\
  (forall i a, nthZ table i = Some a -> i < lo r -> lt (key a) value = true) /\
  (forall i a, nthZ table i = Some a -> hi r < i -> lt (key a) value = false) /\
  (0 < lo r -> forall a, nthZ table (lo r) = Some a -> lt (key a) value = true) /\
  (hi r < lengthZ table - 1 -> forall a, nthZ table (hi r) = Some a -> lt (key a) value = false).
Proof. intros N B S. exact (lookup_mono table (fun a => lt (key a) value) N B (lookup_asc table key value S)). Qed.

(** *** Range filter *)

Section Split.
Context {A : Type} (R : A -> A -> Prop) (p : A -> bool).
Hypothesis up : forall a b, R a b -> p a = true -> p b = true.
(** A sorted list splits at an upward closed predicate. *)
Lemma sorted_split l : StronglySorted R l ->
  l = List.filter (fun a => negb (p a)) l ++ List.filter p l.
Proof.
  induction 1 as [|a l S IH F]; simpl; [reflexivity|].
  destruct (p a) eqn:E; simpl; [|now f_equal].
  assert (N : List.filter (fun a => negb (p a)) l = []).
  { clear IH S. induction F as [|b l Rb F IH]; simpl; [reflexivity|].
    rewrite (up a b Rb E). exact IH. }
  rewrite N in IH |- *. simpl in *. now f_equal.
Qed.
End Split.

Lemma filter_none {A} (p : A -> bool) l : (forall a, In a l -> p a = false) -> List.filter p l = [].
Proof.
  induction l as [|a l IH]; simpl; intros H; [reflexivity|]. rewrite H by auto. apply IH. auto.
Qed.
Lemma filter_all {A} (p : A -> bool) l : (forall a, In a l -> p a = true) -> List.filter p l = l.
Proof.
  induction l as [|a l IH]; simpl; intros H; [reflexivity|]. rewrite H by auto. f_equal. apply IH. auto.
Qed.
Lemma lengthZ_app {A} (a b : list A) : lengthZ (a ++ b) = lengthZ a + lengthZ b.
Proof. unfold lengthZ. rewrite List.length_app. lia. Qed.
Lemma lengthZ_cons {A} (a : A) b : lengthZ (a :: b) = 1 + lengthZ b.
Proof. unfold lengthZ. cbn [List.length]. lia. Qed.
Lemma lengthZ_nonneg {A} (a : list A) : 0 <= lengthZ a.
Proof. unfold lengthZ. lia. Qed.
Lemma nthZ_app_r {A} (a b : list A) i : lengthZ a <= i -> nthZ (a ++ b) i = nthZ b (i - lengthZ a).
Proof.
  pose proof (lengthZ_nonneg a). unfold nthZ, lengthZ in *. intros.
  destruct (Z.ltb_spec i 0); [lia|]. destruct (Z.ltb_spec (i - Z.of_nat (List.length a)) 0); [lia|].
  rewrite List.nth_error_app2 by lia. f_equal. lia.
Qed.
Lemma nthZ_app_l {A} (a b : list A) i : i < lengthZ a -> nthZ (a ++ b) i = nthZ a i.
Proof.
  unfold nthZ, lengthZ in *. intros. destruct (Z.ltb_spec i 0); [reflexivity|].
  rewrite List.nth_error_app1 by lia. reflexivity.
Qed.
Lemma nthZ_In {A} (l : list A) i a : nthZ l i = Some a -> In a l.
Proof. unfold nthZ. destruct (i <? 0); [discriminate|]. apply nth_error_In. Qed.

Lemma skip_start_split a r min s e : e = s + lengthZ (a ++ r) ->
  (forall v, In v a -> lt v min = true) -> (forall v, In v r -> lt v min = false) ->
  skip_start (a ++ r) s e min = s + lengthZ a.
Proof.
  revert s. induction a as [|v a IH]; simpl app; intros s E La Lr.
  - destruct r as [|v r]; simpl skip_start; [unfold lengthZ; simpl; lia|].
    rewrite Lr by (left; auto). rewrite andb_false_r. unfold lengthZ. simpl. lia.
  - simpl skip_start. rewrite La by (left; auto). rewrite lengthZ_cons in *.
    pose proof (lengthZ_nonneg (a ++ r)). destruct (Z.ltb_spec s e); [|lia]. simpl andb.
    rewrite IH; [lia|lia|intros; apply La; now right|auto].
Qed.

Lemma skip_end_split a b c max n f : (n <= f)%nat -> Z.of_nat n <= lengthZ c ->
  (forall v, In v b -> lt max v = false) -> (forall v, In v c -> lt max v = true) ->
  skip_end f (a ++ b ++ c) (lengthZ a) (lengthZ a + lengthZ b + Z.of_nat n) max = lengthZ a + lengthZ b.
Proof.
  intros L N Hb Hc. pose proof (lengthZ_nonneg a). pose proof (lengthZ_nonneg b).
  revert n L N. induction f as [|f IH]; intros n L N; simpl skip_end; [lia|].
  destruct n as [|n].
  - replace (Z.of_nat 0) with 0 by lia. rewrite !Z.add_0_r.
    destruct (Z.ltb_spec (lengthZ a) (lengthZ a + lengthZ b)); [|reflexivity]. simpl andb.
    rewrite nthZ_app_r, nthZ_app_l by lia. destruct (nthZ b _) eqn:E; [|reflexivity].
    now rewrite (Hb _ (nthZ_In _ _ _ E)).
  - destruct (Z.ltb_spec (lengthZ a) (lengthZ a + lengthZ b + Z.of_nat (S n))); [|lia]. simpl andb.
    rewrite !nthZ_app_r by lia. destruct (nthZ_Some c (Z.of_nat n)) as [v E]; [lia|].
    replace (lengthZ a + lengthZ b + Z.of_nat (S n) - 1 - lengthZ a - lengthZ b) with (Z.of_nat n) by lia.
    rewrite E, (Hc _ (nthZ_In _ _ _ E)).
    replace (lengthZ a + lengthZ b + Z.of_nat (S n) - 1) with (lengthZ a + lengthZ b + Z.of_nat n) by lia.
    apply IH; lia.
Qed.

(** On sorted values without NaN, [_filterBetween] keeps exactly the values
    in the closed range (none, when the range is empty). *)
Theorem filterBetween_filter (values : list num) (min max : num) :
  Forall (fun v => is_nan v = false) values -> sorted_by id values ->
  is_nan min = false -> is_nan max = false ->
  _filterBetween values min max = List.filter (fun v => le min v && le v max) values.
Proof.
  intros NN S Nm NM. rewrite List.Forall_forall in NN.
  assert (E : exists a b c, values = a ++ b ++ c /\ (forall v, In v a -> lt v min = true) /\
  (forall v, In v (b ++ c) -> lt v min = false) /\ (forall v, In v b -> lt max v = false) /\
  (forall v, In v c -> lt max v = true)).
  { exists (List.filter (fun v => negb (negb (lt v min))) values).
    set (r := List.filter (fun v => negb (lt v min)) values).
    exists (List.filter (fun v => negb (lt max v)) r), (List.filter (fun v => lt max v) r).
    assert (Sr : sorted_by id r).
    { unfold r. clear -S. induction S as [|v l S IH F]; simpl; [constructor|].
      destruct (negb (lt v min)); [|auto]. constructor; auto.
      rewrite List.Forall_forall in *. intros w I. apply filter_In in I. apply F, I. }
    assert (Er : r = List.filter (fun v => negb (lt max v)) r ++ List.filter (fun v => lt max v) r).
    { apply (sorted_split _ (fun v => lt max v)) with (2 := Sr). intros u v Ruv Lu.
      eapply lt_le_trans; eauto. }
    rewrite <- Er. repeat split.
    - apply (sorted_split _ (fun v => negb (lt v min))) with (2 := S). intros u v Ruv.
      rewrite !negb_true_iff. intros Lu. destruct (lt v min) eqn:Lv; auto.
      pose proof (le_lt_trans _ _ _ Ruv Lv) as X. unfold id in X. congruence.
    - intros v I. apply filter_In in I as [_ I]. now rewrite negb_involutive in I.
    - intros v I. apply filter_In in I as [_ I]. now apply negb_true_iff.
    - intros v I. apply filter_In in I as [_ I]. now apply negb_true_iff.
    - intros v I. now apply filter_In in I as [_ I]. }
  destruct E as (a & b & c & -> & Ha & Hbc & Hb & Hc).
  assert (Ef : List.filter (fun v => le min v && le v max) (a ++ b ++ c) = b).
  { rewrite !List.filter_app. rewrite (filter_none _ a), (filter_none _ c), (filter_all _ b), app_nil_r; [reflexivity|..].
    - intros v I. rewrite !le_not_lt by (auto; apply NN; rewrite !in_app_iff; auto).
      now rewrite Hb, Hbc by (rewrite ?in_app_iff; auto).
    - intros v I. rewrite (le_not_lt v max) by (auto; apply NN; rewrite !in_app_iff; auto).
      rewrite Hc by auto. apply andb_false_r.
    - intros v I. rewrite (le_not_lt min v) by (auto; apply NN; rewrite !in_app_iff; auto).
      now rewrite Ha by auto. }
  rewrite Ef. unfold _filterBetween.
  rewrite (skip_start_split a (b ++ c) min 0) by (auto; lia).
  replace (0 + lengthZ a) with (lengthZ a) by lia.
  pose proof (skip_end_split a b c max (List.length c) (List.length (a ++ b ++ c))) as E.
  replace (lengthZ a + lengthZ b + Z.of_nat (List.length c)) with (lengthZ (a ++ b ++ c)) in E
    by (rewrite !lengthZ_app; unfold lengthZ; lia).
  rewrite E; auto; [|rewrite !List.length_app; lia|unfold lengthZ; lia].
  pose proof (lengthZ_nonneg a). pose proof (lengthZ_nonneg b). pose proof (lengthZ_nonneg c).
  destruct (_ || _) eqn:O.
  - unfold slice. replace (lengthZ a + lengthZ b - lengthZ a) with (lengthZ b) by lia.
    unfold lengthZ. rewrite !Nat2Z.id. now rewrite drop_app_length, take_app_length.
  - rewrite !lengthZ_app in O. apply orb_false_iff in O as [O1 O2]. bool_to_prop.
    destruct a; [|rewrite lengthZ_cons in *; pose proof (lengthZ_nonneg a); lia].
    destruct c; [|rewrite lengthZ_cons in *; pose proof (lengthZ_nonneg c); lia].
    now rewrite app_nil_r.
Qed.

(** *** Listeners *)

Section ListenFacts.
Context {A : Type}.
Implicit Types (a : array A) (l : listener).

(** Registering a listener and removing it restores the array when the
    listener was not registered; in between, a mutating call of the array has the
    built-in effect and notifies the earlier listeners as before and then the new
    one, when it has the event's method. *)
Theorem listen_notify a l (c : call A) :
  (forall ls, chartjs a = Some ls -> ~ In l ls /\ ls <> []) ->
  let a' := listenArrayEvents a l in
  let m := String.append "_onData" (Core._capitalize (event c)) in
  unlistenArrayEvents a' l = a /\
  items (fst (call_method c a')) = base c (items a) /\
  snd (call_method c a') =
    snd (call_method c a) ++ (if existsb (String.eqb m) (methods l) then [(lid l, m)] else []).
Proof.
  intros H. destruct a as [it [ls|]]; unfold listenArrayEvents, unlistenArrayEvents, call_method;
    cbn [chartjs items fst snd].
  - destruct (H ls eq_refl) as [N E]. split; [|split; [reflexivity|]].
    + assert (R : remove_first l (ls ++ [l]) = ls).
      { clear H E. induction ls as [|x ls IH]; simpl; [now destruct (decide (l = l))|].
        destruct (decide (x = l)); [subst; exfalso; apply N; now left|].
        f_equal. apply IH. intros I. apply N. now right. }
      rewrite R. now destruct ls.
    + rewrite List.filter_app, List.map_app. simpl. now destruct (existsb _ _).
  - split; [|split; [reflexivity|]]; simpl.
    + now destruct (decide (l = l)).
    + now destruct (existsb _ _).
Qed.
End ListenFacts.

(** *** Duplicate removal *)

Section UniqueFacts.
Context {A : Type} `{EqDecision A}.

Lemma set_add_spec (s : list A) x :
  base.NoDup s -> base.NoDup (set_add s x) /\ (forall y, y ∈ set_add s x <-> y ∈ s \/ y = x).
Proof.
  unfold set_add. intros N. destruct (decide (x ∈ s)); split; auto.
  - intros y. split; [auto|]. intros [?| ->]; auto.
  - apply NoDup_app. split; [auto|]. split; [|apply NoDup_singleton].
    intros y Iy Ix. apply list_elem_of_singleton in Ix. now subst.
  - intros y. rewrite elem_of_app, list_elem_of_singleton. tauto.
Qed.
Lemma set_fold_spec (l s : list A) :
  base.NoDup s -> base.NoDup (fold_left set_add l s) /\
  (forall y, y ∈ fold_left set_add l s <-> y ∈ s \/ y ∈ l).
Proof.
  revert s. induction l as [|x l IH]; simpl; intros s N.
  - split; [auto|]. intros y. rewrite elem_of_nil. tauto.
  - destruct (set_add_spec s x N) as [N' E]. destruct (IH _ N') as [N'' E']. split; [auto|].
    intros y. rewrite E', E, elem_of_cons. tauto.
Qed.
Lemma set_fold_length (l s : list A) :
  (List.length (fold_left set_add l s) <= List.length s + List.length l)%nat.
Proof.
  revert s. induction l as [|x l IH]; simpl; intros s; [lia|].
  etransitivity; [apply IH|]. unfold set_add. destruct (decide _); rewrite ?List.length_app; simpl; lia.
Qed.
Lemma set_fold_all (l s : list A) :
  List.length (fold_left set_add l s) = (List.length s + List.length l)%nat -> fold_left set_add l s = s ++ l.
Proof.
  revert s. induction l as [|x l IH]; simpl; intros s E; [now rewrite app_nil_r|].
  assert (G : set_add s x = s ++ [x]).
  { destruct (decide (x ∈ s)) as [I|I]; unfold set_add; [|now rewrite decide_False].
    pose proof (set_fold_length l s). unfold set_add at 2 in E. rewrite decide_True in E by auto. lia. }
  rewrite G in *. rewrite IH by (rewrite List.length_app; simpl; lia). now rewrite <- app_assoc.
Qed.

(** [_arrayUnique] returns the distinct elements, each once. *)
Theorem arrayUnique_spec (items : list A) :
  base.NoDup (_arrayUnique items) /\ (forall x, x ∈ _arrayUnique items <-> x ∈ items).
Proof.
  destruct (set_fold_spec items [] (NoDup_nil_2)) as [N E].
  assert (R : _arrayUnique items = fold_left set_add items []).
  { unfold _arrayUnique. destruct (Nat.eqb_spec (List.length (fold_left set_add items [])) (List.length items)) as [L|]; [|reflexivity].
    now rewrite (set_fold_all items []). }
  rewrite R. split; [auto|]. intros x. rewrite E, elem_of_nil. tauto.
Qed.
End UniqueFacts.


Definition demo_table : list num := [1; 2; 4; 8]%js.
Lemma demo_table_sorted : sorted_by id demo_table.
Proof. unfold sorted_by, demo_table. repeat (constructor; [|repeat constructor; reflexivity]). constructor. Qed.
Lemma lookupByKey_spec_witness :
  let r := _lookupByKey demo_table id 3%js in hi r - lo r <= 1 /\ 0 <= lo r <= hi r.
Proof.
  destruct (lookupByKey_spec demo_table id 3%js) as (A & _ & B & _).
  - discriminate.
  - vm_compute. discriminate.
  - exact demo_table_sorted.
  - cbn zeta. auto.
Defined.
Lemma filterBetween_filter_witness : _filterBetween demo_table 2%js 5%js = [2; 4]%js.
Proof.
  rewrite (filterBetween_filter demo_table 2%js 5%js).
  - vm_compute. reflexivity.
  - repeat constructor.
  - exact demo_table_sorted.
  - reflexivity.
  - reflexivity.
Defined.
Lemma listen_notify_witness :
  let a := mkArray [1%nat] (Some [mkListener 1 ["_onDataPush"%string]]) in
  unlistenArrayEvents (listenArrayEvents a (mkListener 2 ["_onDataPop"%string])) (mkListener 2 ["_onDataPop"%string]) = a.
Proof.
  apply (listen_notify (mkArray [1%nat] (Some [mkListener 1 ["_onDataPush"%string]])) (mkListener 2 ["_onDataPop"%string]) (Push [2%nat])).
  intros ls [= <-]. split; [|discriminate]. intros [E|[]]. discriminate.
Defined.
End CollectionsFacts.
