(* ===== verification/Options.v ===== *)
(** Option resolution of webui/public/chart.js: fonts, line heights, paddings,
    [resolve], grace, and the text width cache. *)
From Stdlib Require Import ZArith Lia Bool List Ascii String.
From Stdlib Require Import SpecFloat.
From stdpp Require Import base list.
From S2P Require Import Prelude JsNumber JsString JsArray JsValue HelpersCore.
Import ListNotations.
Open Scope Z_scope.

Module Options.
Import Obj Js Str Core.
Local Open Scope string_scope.

(** Text helpers. *)
Definition fontString (pixelSize fontStyle fontFamily : string) : string :=
  fontStyle ++ " " ++ pixelSize ++ "px " ++ fontFamily.
Definition _toLeftRightCenter (align : string) : string :=
  if String.eqb align "start" then "left" else if String.eqb align "end" then "right" else "center".
Definition _alignStartEnd (align : string) (start end_ : num) : num :=
  if String.eqb align "start" then start else if String.eqb align "end" then end_
  else ((start + end_) / 2)%js.
Definition _textX (align : string) (left right : num) (rtl : bool) : num :=
  let check := if rtl then "left" else "right" in
  if String.eqb align check then right
  else if String.eqb align "center" then ((left + right) / 2)%js else left.

(** A font; [string] is computed from the rest, None for null. *)
Record font := mkFont {
  family : value; lineHeight : num; size : value; style : value; weight : value;
  fstring : option string }.

Definition toFontString (family size style weight : value) : option string :=
  if isNullOrUndef size || isNullOrUndef family then None
  else Some ((if truthy style then to_str style ++ " " else "")
             ++ (if truthy weight then to_str weight ++ " " else "")
             ++ to_str size ++ "px " ++ to_str family).

(** ** Regular expressions and lengths *)
Definition LINE_HEIGHT : re :=
  Grp 1 (Alt (lit "normal")
    (Seq (Grp 2 (Seq (Plus is_digit) (Opt (Seq (Cls (Ascii.eqb ".")) (Plus is_digit)))))
         (Opt (Grp 3 (Alt (lit "px") (Alt (lit "em") (lit "%"))))))).
Definition FONT_STYLE : re :=
  Grp 1 (Alt (lit "normal") (Alt (lit "italic") (Alt (lit "initial") (Alt (lit "inherit")
    (Alt (lit "unset")
      (Grp 2 (Seq (lit "oblique")
        (Opt (Grp 3 (seqs [lit " "; Opt (lit "-"); Opt (Cls is_digit); Cls is_digit; lit "deg"])))))))))).

Definition toLineHeight (value : value) (size : num) : num :=
  match exec LINE_HEIGHT (to_str value) with
  | None => (size * 1.2)%js
  | Some cs =>
      match group 1 cs with
      | Some "normal" => (size * 1.2)%js
      | _ =>
          let v := match group 2 cs with Some s => NumStr.parse s | None => Num.nan end in
          match group 3 cs with
          | Some "px" => v
          | Some "%" => (size * (v / 100))%js
          | _ => (size * v)%js
          end
      end
  end.

(** [+v || 0]. *)
Definition numberOrZero (v : value) : num :=
  let x := to_num v in if truthy (VNum x) then x else 0%js.

(** [_readValueToProps]: [props] gives each property's name and, when it is an
    object, the fallback name. *)
Definition _readValueToProps (value : value) (props : list (string * option string))
  : list (string * num) :=
  let read := fun p : string * option string =>
    if isObject value then
      match snd p with
      | Some alt => valueOrDefault (index value (fst p)) (index value alt)
      | None => index value (fst p)
      end
    else value in
  List.map (fun p => (fst p, numberOrZero (read p))) props.

Definition field (k : string) (r : list (string * num)) : num :=
  match List.find (fun p => String.eqb k (fst p)) r with Some (_, x) => x | None => Num.nan end.

Record trbl := mkTRBL { top : num; right : num; bottom : num; left : num }.
Definition toTRBL (value : value) : trbl :=
  let r := _readValueToProps value
    [("top", Some "y"); ("right", Some "x"); ("bottom", Some "y"); ("left", Some "x")] in
  mkTRBL (field "top" r) (field "right" r) (field "bottom" r) (field "left" r).

Record corners := mkCorners { topLeft : num; topRight : num; bottomLeft : num; bottomRight : num }.
Definition toTRBLCorners (value : value) : corners :=
  let r := _readValueToProps value
    [("topLeft", None); ("topRight", None); ("bottomLeft", None); ("bottomRight", None)] in
  mkCorners (field "topLeft" r) (field "topRight" r) (field "bottomLeft" r) (field "bottomRight" r).

Record padding := mkPadding { sides : trbl; pwidth : num; pheight : num }.
Definition toPadding (value : value) : padding :=
  let o := toTRBL value in
  mkPadding o (left o + right o)%js (top o + bottom o)%js.

(** [parseInt(s, 10)]: the leading integer after white space. *)
Definition parseInt (s : string) : num :=
  let s := snd (span is_space s) in
  let '(neg, body) := match s with
    | String c r => if Ascii.eqb c "-" then (true, r) else if Ascii.eqb c "+" then (false, r) else (false, s)
    | EmptyString => (false, s)
    end in
  match fst (span is_digit body) with
  | EmptyString => Num.nan
  | ds => let x := Num.of_Z (digits_val 0 ds) in if neg : bool then Num.opp x else x
  end.

(** [toFont(options, fallback)]; [default] is [defaults.font].  An invalid style
    only logs a warning and becomes the empty text. *)
Definition toFont (default options fallback : value) : font :=
  let options := if truthy options then options else VObj [] in
  let fallback := if truthy fallback then fallback else default in
  let opt k := valueOrDefault (index options k) (index fallback k) in
  let size := match opt "size" with VStr s => VNum (parseInt s) | v => v end in
  let style :=
    let st := opt "style" in
    if truthy st && match exec FONT_STYLE (to_str st) with None => true | Some _ => false end
    then VStr "" else st in
  let family := opt "family" in
  let weight := opt "weight" in
  mkFont family (toLineHeight (opt "lineHeight") (to_num size)) size style weight
    (toFontString family size style weight).

(** ** resolve

    [call] is the application of an option function to the context; the second
    component is whether [info.cacheable] is left alone. *)
Section Resolve.
Context {C : Type} (call : string -> C -> value).

Fixpoint resolve_from (cacheable : bool) (inputs : list value) (context : option C) (index : option nat)
  : value * bool :=
  match inputs with
  | [] => (Undefined, true)
  | Undefined :: rest => resolve_from cacheable rest context index
  | value :: rest =>
      let '(value, cacheable) :=
        match context, value with Some c, VFun f => (call f c, false) | _, _ => (value, cacheable) end in
      let '(value, cacheable) :=
        match index, value with
        | Some i, VArr l => (if Nat.eqb (List.length l) 0 then Undefined
                             else List.nth (Nat.modulo i (List.length l)) l Undefined, false)
        | _, _ => (value, cacheable) end in
      if is_undefined value then resolve_from cacheable rest context index
      else (value, cacheable)
  end.
Definition resolve (inputs : list value) (context : option C) (index : option nat) : value * bool :=
  resolve_from true inputs context index.
End Resolve.

(** The result of [resolve(inputs)] without context. *)
Definition resolve_plain (inputs : list value) : value :=
  fst (resolve (fun _ (_ : unit) => Undefined) inputs None None).

Record minmax := mkMinmax { min : num; max : num }.
Definition _addGrace (m : minmax) (grace : value) (beginAtZero : bool) : minmax :=
  let change := toDimension grace ((max m - min m) / 2)%js in
  let keepZero (v add : num) := if beginAtZero && Num.eq v 0%js then 0%js else (v + add)%js in
  mkMinmax (keepZero (min m) (Num.opp (Num.abs change))) (keepZero (max m) change).

(** ** Text widths

    [measure] is the canvas' [measureText(string).width] under a font. *)
Section Text.
Context (measure : string -> string -> num).

(** The cache: [data], [garbageCollect] and [font]. *)
Record cache := mkCache { data : list (string * num); gc : list string; cfont : option string }.

(** [data[s]]; a name that the object inherits is a truthy value that is not a
    number, [None]. *)
Definition width_of (d : list (string * num)) (s : string) : option (option num) :=
  match List.find (fun p => String.eqb s (fst p)) d with
  | Some (_, w) => Some (Some w)
  | None => if inherited s then Some None else None
  end.
Definition put_width (d : list (string * num)) (s : string) (w : num) : list (string * num) :=
  (s, w) :: List.filter (fun p => negb (String.eqb s (fst p))) d.

Definition _measureText (font : string) (st : cache * num) (s : string) : cache * num :=
  let '(c, longest) := st in
  let '(c, textWidth) :=
    match width_of (data c) s with
    | Some (Some w) =>
        if truthy (VNum w) then (c, w)
        else (mkCache (put_width (data c) s (measure font s)) (gc c ++ [s]) (cfont c), measure font s)
    | Some None => (c, Num.nan)
    | None => (mkCache (put_width (data c) s (measure font s)) (gc c ++ [s]) (cfont c), measure font s)
    end in
  (c, if Num.lt longest textWidth then textWidth else longest).

(** A label, a list of labels (None: null, undefined or a list), or neither. *)
Inductive thing := Label (s : string) | Nested (l : list (option string)) | Missing.
Definition labels (t : thing) : list string :=
  match t with
  | Label s => [s]
  | Nested l => omap id l
  | Missing => []
  end.

(** The collection at the end: half of the entries, when that is more than the
    number of things; the loop to [gcLen] deletes one name more than the splice
    removes when their number is odd. *)
Definition collect (c : cache) (n : nat) : cache :=
  let len := List.length (gc c) in
  if Nat.ltb (2 * n) len then
    let dead := firstn (Nat.div (len + 1) 2) (gc c) in
    mkCache (List.filter (fun p => negb (existsb (String.eqb (fst p)) dead)) (data c))
            (skipn (Nat.div len 2) (gc c)) (cfont c)
  else c.
Definition _longestText (font : string) (things : list thing) (c : cache) : cache * num :=
  let c := match cfont c with
           | Some f => if String.eqb f font then c else mkCache [] [] (Some font)
           | None => mkCache [] [] (Some font)
           end in
  let '(c, longest) := fold_left (_measureText font) (List.concat (List.map labels things)) (c, 0%js) in
  (collect c (List.length things), longest).
End Text.

Definition _alignPixel (devicePixelRatio pixel width : num) : num :=
  let halfWidth := if negb (Num.eq width 0%js) then Num.max (width / 2) 0.5 else 0%js in
  (Num.round ((pixel - halfWidth) * devicePixelRatio) / devicePixelRatio + halfWidth)%js.

End Options.

(** ** Facts *)
Module OptionsFacts.
Import Obj Js Str Core Options.
Local Open Scope string_scope.

(** *** resolve *)
Section ResolveFacts.
Context {C : Type} (call : string -> C -> value).

(** One input's value under the context and the index, and whether it depended on them. *)
Definition eval_input (context : option C) (index : option nat) (v : value) : value * bool :=
  let '(v, dyn) := match context, v with Some c, VFun f => (call f c, true) | _, _ => (v, false) end in
  match index, v with
  | Some i, VArr l => (if Nat.eqb (List.length l) 0 then Undefined
                       else List.nth (Nat.modulo i (List.length l)) l Undefined, true)
  | _, _ => (v, dyn)
  end.

Lemma resolve_skip context index inputs1 inputs2 b :
  Forall (fun v => fst (eval_input context index v) = Undefined) inputs1 ->
  resolve_from call b (inputs1 ++ inputs2) context index =
  resolve_from call (b && negb (existsb (fun v => snd (eval_input context index v)) inputs1)) inputs2 context index.
Proof.
  intros F. revert b. induction F as [|v l H F IH]; intros b; cbn [app existsb]; [now rewrite andb_true_r|].
  rewrite negb_orb, andb_assoc, <- IH. clear IH F. unfold eval_input in *.
  destruct v, context as [c|], index as [i|]; cbn in *;
    try discriminate; rewrite ?andb_true_r, ?andb_false_r; try reflexivity;
    try (rewrite H; reflexivity).
  all: try (destruct (call _ c); cbn in *; try discriminate; try rewrite H; rewrite ?andb_false_r; reflexivity).
Qed.

(** [resolve] gives the first input that is defined once functions are
    applied to the context and arrays indexed; the result may be cached exactly
    when no input up to it was a function or an array that had to be evaluated. *)
Theorem resolve_first inputs1 v inputs2 (context : option C) (index : option nat) :
  Forall (fun v => fst (eval_input context index v) = Undefined) inputs1 ->
  fst (eval_input context index v) <> Undefined ->
  resolve call (inputs1 ++ v :: inputs2) context index =
    (fst (eval_input context index v),
     negb (existsb (fun v => snd (eval_input context index v)) (inputs1 ++ [v]))).
Proof.
  intros F N. unfold resolve. rewrite resolve_skip by exact F.
  rewrite List.existsb_app, negb_orb. cbn [existsb]. rewrite orb_false_r.
  set (b := negb (existsb _ inputs1)). clearbody b. clear F. cbn [andb]. unfold eval_input in *.
  destruct v, context as [c|], index as [i|]; cbn in *;
    try congruence; rewrite ?andb_true_r, ?andb_false_r; try reflexivity.
  all: try (destruct (call _ c); cbn in *; try congruence; rewrite ?andb_false_r; try reflexivity).
  all: match goal with |- context [if is_undefined ?w then _ else _] => destruct w; cbn; congruence end.
Qed.
End ResolveFacts.

(** *** Paddings *)

Lemma numberOrZero_num v : numberOrZero (VNum (numberOrZero v)) = numberOrZero v.
Proof.
  unfold numberOrZero at 2 3. cbn zeta. destruct (truthy (VNum (to_num v))) eqn:E; [|reflexivity].
  unfold numberOrZero. cbn [to_num]. now rewrite E.
Qed.

(** The padding as the object the code returns. *)
Definition padding_value (p : padding) : value :=
  VObj [("top", VNum (top (sides p))); ("right", VNum (right (sides p)));
        ("bottom", VNum (bottom (sides p))); ("left", VNum (left (sides p)));
        ("width", VNum (pwidth p)); ("height", VNum (pheight p))].

(** [toPadding] is idempotent: normalising the padding it returned gives the
    same padding. *)
Theorem toPadding_idempotent v : toPadding (padding_value (toPadding v)) = toPadding v.
Proof.
  unfold toPadding at 1 3. 
  assert (E : toTRBL (padding_value (toPadding v)) = toTRBL v).
  { unfold toTRBL at 1. cbn. unfold toTRBL, field. cbn. now rewrite !numberOrZero_num. }
  now rewrite E.
Qed.
(** On a value that is not an object every side is the number; an object's
    side is its own property when defined, else the axis property [x] or [y]; what
    is not a number counts as zero. *)
Theorem toTRBL_sides v :
  toTRBL v =
  (if isObject v then
     let side k axis := numberOrZero (valueOrDefault (index v k) (index v axis)) in
     mkTRBL (side "top" "y") (side "right" "x") (side "bottom" "y") (side "left" "x")
   else mkTRBL (numberOrZero v) (numberOrZero v) (numberOrZero v) (numberOrZero v)) /\
  Num.is_nan (top (toTRBL v)) = false /\ Num.is_nan (left (toTRBL v)) = false.
Proof.
  assert (N : forall w, Num.is_nan (numberOrZero w) = false).
  { intros w. unfold numberOrZero. cbn [truthy]. destruct (Num.is_nan (to_num w)) eqn:E; [reflexivity|].
    cbn. now destruct (Num.eq _ _). }
  split; [|split; apply N]. unfold toTRBL, field. cbn. now destruct (isObject v).
Qed.

(** *** Text widths *)
Section TextFacts.
Context (measure : string -> string -> num).

(** The cached widths are those of the cached font, and every cached name is
    due for collection. *)
Definition coherent (c : cache) : Prop :=
  (forall f s w, cfont c = Some f -> In (s, w) (data c) -> w = measure f s) /\
  (forall s w, In (s, w) (data c) -> In s (gc c)).

Lemma find_In s (d : list (string * num)) t w :
  List.find (fun p => String.eqb s (fst p)) d = Some (t, w) -> s = t /\ In (s, w) d.
Proof. intros F. apply List.find_some in F as [I E]. apply String.eqb_eq in E. cbn in E. subst. auto. Qed.

Lemma measureText_spec font c longest s : coherent c -> cfont c = Some font ->
  let '(c', l') := _measureText measure font (c, longest) s in
  coherent c' /\ cfont c' = Some font /\
  (l' = (if Num.lt longest (measure font s) then measure font s else longest)
   \/ (inherited s = true /\ l' = longest)).
Proof.
  intros [K1 K2] F. unfold _measureText.
  assert (P : coherent (mkCache (put_width (data c) s (measure font s)) (gc c ++ [s]) (cfont c))).
  { split; cbn [data gc cfont]; intros.
    - rewrite F in H. injection H as <-. destruct H0 as [[= <- <-]|I]; [reflexivity|].
      apply filter_In in I as [I _]. eauto.
    - rewrite in_app_iff. destruct H as [[= <- <-]|I]; [right; now left|].
      apply filter_In in I as [I _]. left. eauto. }
  unfold width_of. destruct (List.find _ _) as [[t w]|] eqn:E.
  - apply find_In in E as [-> I]. rewrite (K1 font t w F I) in *.
    destruct (truthy _); (split; [auto; split; auto|split; [auto|now left]]).
  - destruct (inherited s) eqn:H; (split; [auto; split; auto|split; [auto|]]).
    + right. split; [auto|]. now destruct longest as [[]|[]| |[]].
    + now left.
Qed.

Lemma measure_fold font l : forall c longest, coherent c -> cfont c = Some font ->
  forallb (fun s => negb (inherited s)) l = true ->
  let '(c', l') := fold_left (_measureText measure font) l (c, longest) in
  coherent c' /\ cfont c' = Some font /\
  l' = fold_left (fun m s => if Num.lt m (measure font s) then measure font s else m) l longest.
Proof.
  induction l as [|s l IH]; intros c longest K F I; cbn [fold_left]; [auto|].
  cbn [forallb] in I. apply andb_true_iff in I as [Is Il]. apply negb_true_iff in Is.
  pose proof (measureText_spec font c longest s K F) as M.
  destruct (_measureText measure font (c, longest) s) as [c' l']. destruct M as (K' & F' & [->|[X _]]); [|congruence].
  now apply IH.
Qed.

Lemma collect_coherent c n : coherent c -> coherent (collect c n).
Proof.
  intros [K1 K2]. unfold collect. destruct (Nat.ltb _ _); [|now split].
  split; cbn [data gc cfont].
  - intros f s w F I. apply filter_In in I as [I _]. eauto.
  - intros s w I. apply filter_In in I as [I D]. cbn [fst] in D. apply negb_true_iff in D.
    pose proof (K2 s w I) as G. rewrite <- (List.firstn_skipn (Nat.div (List.length (gc c)) 2) (gc c)) in G.
    apply in_app_iff in G as [G|G]; [|auto]. exfalso.
    assert (existsb (String.eqb s) (firstn (Nat.div (List.length (gc c) + 1) 2) (gc c)) = true); [|congruence].
    apply CoreFacts.existsb_In. revert G.
    assert (L : (Nat.div (List.length (gc c)) 2 <= Nat.div (List.length (gc c) + 1) 2)%nat)
      by (apply Nat.Div0.div_le_mono; lia).
    rewrite <- (Nat.min_l _ _ L), <- List.firstn_firstn.
    intros G. rewrite <- (List.firstn_skipn (Nat.div (List.length (gc c)) 2) (firstn _ (gc c))).
    apply in_app_iff. now left.
Qed.

(** With a coherent cache, [_longestText] computes what it would compute by
    measuring every label under the font (labels other than the names of
    Object.prototype), and keeps the cache coherent, whatever it evicts. *)
Theorem longestText_uncached font things c :
  coherent c ->
  forallb (fun s => negb (inherited s)) (List.concat (List.map labels things)) = true ->
  let '(c', longest) := _longestText measure font things c in
  coherent c' /\ cfont c' = Some font /\
  longest = fold_left (fun m s => if Num.lt m (measure font s) then measure font s else m)
              (List.concat (List.map labels things)) 0%js.
Proof.
  intros K I. unfold _longestText.
  set (c0 := match cfont c with Some _ => _ | None => _ end).
  assert (K0 : coherent c0 /\ cfont c0 = Some font).
  { unfold c0. destruct (cfont c) as [f|] eqn:F; [destruct (String.eqb f font) eqn:E|].
    - apply String.eqb_eq in E. subst. auto.
    - split; [split; cbn; contradiction|reflexivity].
    - split; [split; cbn; contradiction|reflexivity]. }
  destruct K0 as [K0 F0]. pose proof (measure_fold font _ c0 0%js K0 F0 I) as M.
  destruct (fold_left _ _ _) as [c' l']. destruct M as (K' & F' & ->).
  split; [now apply collect_coherent|]. split; [|reflexivity].
  unfold collect. destruct (Nat.ltb _ _); auto.
Qed.
End TextFacts.


Definition demo_measure (font s : string) : num := Num.of_nat (String.length s).
Lemma longestText_uncached_witness :
  snd (_longestText demo_measure "12px" [Label "ab"; Nested [Some "abcd"%string; None]; Missing]
         (mkCache [("ab"%string, 2%js)] ["ab"%string] (Some "12px"%string))) = 4%js.
Proof.
  pose proof (longestText_uncached demo_measure "12px" [Label "ab"; Nested [Some "abcd"%string; None]; Missing]
    (mkCache [("ab"%string, 2%js)] ["ab"%string] (Some "12px"%string))) as H.
  destruct (_longestText _ _ _ _) as [c' longest]. destruct H as (_ & _ & ->).
  - split.
    + intros f s w _ [E|[]]. injection E as <- <-. reflexivity.
    + intros s w [E|[]]. injection E as <- <-. now left.
  - reflexivity.
  - vm_compute. reflexivity.
Defined.
Lemma resolve_first_witness :
  resolve (fun _ (c : nat) => VNum (Num.of_nat c)) [Undefined; VFun "f"; VStr "default"] (Some 7%nat) None = (VNum 7%js, false).
Proof.
  apply (resolve_first (fun _ (c : nat) => VNum (Num.of_nat c)) [Undefined] (VFun "f") [VStr "default"] (Some 7%nat) None).
  - repeat constructor.
  - discriminate.
Defined.
End OptionsFacts.
