(* ===== verification/Resolver.v ===== *)
(** The option resolver of webui/public/chart.js: the proxies of [_createResolver] and
    [_attachContext] through which every option of a chart is read.

    Options, arrays and proxies are objects of a heap: a proxy keeps what it has
    resolved in its target, scopes are compared by identity, and writing through a
    proxy changes the object of its first scope.  An operation threads the heap and
    either is done, throws (the heap keeps what was written before), or is stuck when
    the given depth of nested calls is used up.  The internal methods of objects call
    each other through proxies, so each is written over the methods one level deeper
    ([ops]) and [ops_at] ties the knot.  A callback in the options is a [script]: it
    reads properties and returns or throws; which script a function runs is the
    parameter [call]. *)
From Stdlib Require Import ZArith Lia Bool List Ascii String Permutation.
From Stdlib Require Import SpecFloat.
From stdpp Require Import base list.
From S2P Require Import Prelude JsNumber JsString JsArray JsValue HelpersCore.
Import ListNotations.
Open Scope Z_scope.

Module Heap.
Local Open Scope string_scope.

Inductive val :=
| RUndef
| RNull
| RBool (b : bool)
| RNum (x : num)
| RStr (s : string)
| RFun (f : string)
| RRef (l : nat)
(** A property of a proxy's target that is not an option ([_scopes], [override], ...). *)
| RInternal (l : nat) (k : string).

(** Properties in creation order. *)
Definition props (V : Type) := list (string * V).
Section Props.
Context {V : Type}.
Fixpoint pget (k : string) (o : props V) : option V :=
  match o with
  | [] => None
  | (k', v) :: o' => if String.eqb k k' then Some v else pget k o'
  end.
Fixpoint pput (k : string) (v : V) (o : props V) : props V :=
  match o with
  | [] => [(k, v)]
  | (k', v') :: o' => if String.eqb k k' then (k', v) :: o' else (k', v') :: pput k v o'
  end.
Definition pdel (k : string) (o : props V) : props V :=
  List.filter (fun kv => negb (String.eqb k (fst kv))) o.
End Props.

(** What an object is made from: a literal, [Object.create(null)], a class, a host
    object such as a canvas gradient, or an array. *)
Inductive kind := Literal | NullProto | Instance | Host | ArrayKind.

(** The closure [getTarget] of a resolver. *)
Inductive target := FirstScope | SubTarget (resolver : nat) (prop : string) (value : val).

Record resolver := mkResolver {
  rcache : props val;
  rkeys : option (list string);
  rstorage : option val;
  scopes : list val;
  prefixes : list string;
  rootScopes : list val;
  fallback : val;
  getTarget : target
}.
Record flags := mkFlags { fallKeys : val; scriptable : val; indexable : val }.
Record contextual := mkContextual {
  ccache : props val;
  cproxy : val;
  context : val;
  subProxy : val;
  stack : list string;
  descriptors : flags
}.
Inductive object :=
| Plain (k : kind) (ps : props val)
| Resolver (r : resolver)
| Contextual (c : contextual).

Definition heap := list object.

Inductive outcome (A : Type) :=
| Done (a : A)
| Raised (msg : string)
| Stuck.
Arguments Done {A}. Arguments Raised {A}. Arguments Stuck {A}.

Definition M (A : Type) := heap -> outcome A * heap.
Definition ret {A} (a : A) : M A := fun h => (Done a, h).
Definition raise {A} (msg : string) : M A := fun h => (Raised msg, h).
Definition stuck {A} : M A := fun h => (Stuck, h).
Definition bind {A B} (m : M A) (k : A -> M B) : M B := fun h =>
  match m h with
  | (Done a, h') => k a h'
  | (Raised e, h') => (Raised e, h')
  | (Stuck, h') => (Stuck, h')
  end.
Definition load (l : nat) : M object := fun h =>
  match h !! l with Some o => (Done o, h) | None => (Stuck, h) end.
Definition store (l : nat) (o : object) : M unit := fun h => (Done tt, <[l := o]> h).
Definition alloc (o : object) : M val := fun h => (Done (RRef (List.length h)), (h ++ [o])%list).

Declare Scope heap_scope.
Delimit Scope heap_scope with heap.
Notation "'let!' x := m 'in' k" := (bind m (fun x => k))
  (at level 200, x binder, m at level 200, k at level 200) : heap_scope.

(** What a callback does with its arguments. *)
Inductive script :=
| Return (v : val)
| Fail (msg : string)
| Read (o : val) (k : string) (f : val -> script).

Definition truthy (v : val) : bool :=
  match v with
  | RUndef | RNull => false
  | RBool b => b
  | RNum x => negb (Num.is_nan x || Num.eq x 0%js)
  | RStr s => negb (String.eqb s "")
  | RFun _ | RRef _ | RInternal _ _ => true
  end.
Definition defined (v : val) : bool := match v with RUndef => false | _ => true end.
Definition isFunction (v : val) : bool := match v with RFun _ => true | _ => false end.

(** [===]; functions are the same when they have the same name. *)
Definition same (v w : val) : bool :=
  match v, w with
  | RUndef, RUndef | RNull, RNull => true
  | RBool a, RBool b => Bool.eqb a b
  | RNum x, RNum y => Num.eq x y
  | RStr s, RStr t => String.eqb s t
  | RFun f, RFun g => String.eqb f g
  | RRef a, RRef b => Nat.eqb a b
  | RInternal a j, RInternal b k => Nat.eqb a b && String.eqb j k
  | _, _ => false
  end.
(** The equality of the members of a [Set]: also NaN equals NaN. *)
Definition same_member (v w : val) : bool :=
  match v, w with
  | RNum x, RNum y => Num.eq x y || (Num.is_nan x && Num.is_nan y)
  | _, _ => same v w
  end.
Definition set_add (v : val) (s : list val) : list val :=
  if existsb (same_member v) s then s else (s ++ [v])%list.

(** Array indices are the digit strings without a leading zero. *)
Definition array_index (k : string) : option Z :=
  if negb (String.eqb k "") && Str.all_chars Str.is_digit k &&
     (String.eqb k "0" || negb (String.prefix "0" k))
  then Some (Str.digits_val 0 k) else None.
Definition array_length (ps : props val) : Z :=
  fold_left (fun n kv => match array_index (fst kv) with Some i => Z.max n (i + 1) | None => n end) ps 0.
Definition array_of (l : list val) : object :=
  Plain ArrayKind (combine (List.map (fun i => Str.print_nat (Z.of_nat i)) (List.seq 0 (List.length l))) l).

(** Reading a property of an object that is not a proxy. *)
Definition plain_get (k : kind) (ps : props val) (p : string) : val :=
  match pget p ps with
  | Some v => v
  | None =>
      match k with
      | ArrayKind => if String.eqb p "length" then RNum (Num.of_Z (array_length ps)) else
                     if String.eqb p "constructor" then RFun "Array" else
                     if Obj.inherited p then RFun p else RUndef
      | NullProto => RUndef
      | Literal => if String.eqb p "constructor" then RFun "Object" else
                   if Obj.inherited p then RFun p else RUndef
      | Instance | Host => if Obj.inherited p then RFun ("instance " ++ p) else RUndef
      end
  end.

End Heap.

(** ** The resolver *)
Module Resolver.
Import Heap.
Local Open Scope string_scope.
Local Open Scope heap_scope.

(** The internal methods of the objects of the heap. *)
Record ops := mkOps {
  get : val -> string -> M val;
  put : val -> string -> val -> M unit;
  has : val -> string -> M bool;
  del : val -> string -> M unit;
  keys : val -> M (list string);
  own : val -> string -> M bool;
  proto : val -> M kind;
  target_of : val -> M val
}.
Definition no_ops : ops := mkOps (fun _ _ => stuck) (fun _ _ _ => stuck) (fun _ _ => stuck)
  (fun _ _ => stuck) (fun _ => stuck) (fun _ _ => stuck) (fun _ => stuck) (fun _ => stuck).

Section Methods.
Context (call : string -> list val -> script).
Context (ms : ops) (depth : nat).

Fixpoint run (s : script) : M val :=
  match s with
  | Return v => ret v
  | Fail e => raise e
  | Read o k f => let! v := get ms o k in run (f v)
  end.
Definition apply (f : val) (args : list val) : M val :=
  match f with
  | RFun f => run (call f args)
  | _ => raise "not a function"
  end.

(** *** Values *)
Definition isArray (v : val) : M bool :=
  match v with
  | RRef l => let! o := load l in ret (match o with Plain ArrayKind _ => true | _ => false end)
  | _ => ret false
  end.
Definition isObject (v : val) : M bool :=
  match v with
  | RRef l => let! o := load l in
      ret (match o with Plain (Literal | NullProto | Instance) _ | Resolver _ | Contextual _ => true
                      | _ => false end)
  | _ => ret false
  end.
Definition new_object : M val := alloc (Plain Literal []).

Definition readKey (prefix name : string) : string :=
  if String.eqb prefix "" then name else prefix ++ Core._capitalize name.

Definition needsSubResolver (prop : string) (value : val) : M bool :=
  let! o := isObject value in
  if o && negb (String.eqb prop "adapters") then
    let! p := proto ms value in
    match p with
    | NullProto => ret true
    | _ => let! c := get ms value "constructor" in ret (same c (RFun "Object"))
    end
  else ret false.

(** [resolveObjectKey] on heap objects. *)
Fixpoint resolve_loop (fuel : nat) (o : val) (key : string) (pos idx : nat) : M val :=
  match fuel with
  | O%nat => ret o
  | S f =>
      if truthy o && Nat.ltb pos idx then
        let! o' := get ms o (Str.substr key pos (idx - pos)) in
        resolve_loop f o' key (S idx) (Core.indexOfDotOrLength key (S idx))
      else ret o
  end.
Definition resolveObjectKey (o : val) (key : string) : M val :=
  if String.eqb key "" then ret o
  else resolve_loop (S (String.length key)) o key 0 (Core.indexOfDotOrLength key 0).

(** *** Scopes *)
Fixpoint _resolve (key : string) (scopes : list val) : M val :=
  match scopes with
  | [] => ret RUndef
  | scope :: rest =>
      if truthy scope then
        let! value := get ms scope key in
        if defined value then ret value else _resolve key rest
      else _resolve key rest
  end.

Definition resolveFallback (fallback : val) (prop : val) (value : val) : M val :=
  if isFunction fallback then apply fallback [prop; value] else ret fallback.

Definition getScope (key parent : val) : M val :=
  match key with
  | RBool true => ret parent
  | RStr k => resolveObjectKey parent k
  | _ => ret RUndef
  end.

(** The set grows even when a fallback ends the loop. *)
Fixpoint addScopes (set : list val) (parents : list val) (key parentFallback value : val)
  : M (val * list val) :=
  match parents with
  | [] => ret (RBool false, set)
  | parent :: rest =>
      let! scope := getScope key parent in
      if truthy scope then
        let set' := set_add scope set in
        let! f := get ms scope "_fallback" in
        let! fallback := resolveFallback f key value in
        if defined fallback && negb (same fallback key) && negb (same fallback parentFallback)
        then ret (fallback, set')
        else addScopes set' rest key parentFallback value
      else
        if same scope (RBool false) && defined parentFallback && negb (same key parentFallback)
        then ret (RNull, set)
        else addScopes set rest key parentFallback value
  end.

(** The loop follows the fallbacks it finds until none is left; [fuel] bounds
    their number. *)
Fixpoint addScopesFromKey (fuel : nat) (set allScopes : list val) (key fallback item : val)
  : M (val * list val) :=
  if truthy key then
    match fuel with
    | O%nat => stuck
    | S f =>
        let! r := addScopes set allScopes key fallback item in
        addScopesFromKey f (snd r) allScopes (fst r) fallback item
    end
  else ret (key, set).

Definition _createResolver (scopes : list val) (prefixes : list string) (rootScopes : list val)
    (fallback : val) (getTarget : target) : M val :=
  let! fallback :=
    if defined fallback then ret fallback else _resolve "_fallback" scopes in
  alloc (Resolver (mkResolver [] None None scopes prefixes rootScopes fallback getTarget)).

(** [_scopes], [_rootScopes] and [_fallback] of a proxy; on anything else they are
    undefined and spreading them throws. *)
Definition resolver_of (v : val) : M resolver :=
  match v with
  | RRef l => let! o := load l in
      match o with Resolver r => ret r | _ => raise "undefined is not iterable" end
  | _ => raise "undefined is not iterable"
  end.
Definition loc_of (v : val) : nat := match v with RRef l => l | _ => 0%nat end.

Definition createSubResolver (parentScopes : list val) (resolver : val) (prop : string) (value : val)
  : M val :=
  let! r := resolver_of resolver in
  let! fallback := resolveFallback (fallback r) (RStr prop) value in
  let allScopes := (parentScopes ++ rootScopes r)%list in
  let! k1 := addScopesFromKey depth [value] allScopes (RStr prop)
               (if truthy fallback then fallback else RStr prop) value in
  match fst k1 with
  | RNull => ret (RBool false)
  | key =>
      let! k2 := if defined fallback && negb (same fallback (RStr prop))
                 then addScopesFromKey depth (snd k1) allScopes fallback key value
                 else ret k1 in
      match fst k2 with
      | RNull => ret (RBool false)
      | _ => _createResolver (snd k2) [""] (rootScopes r) fallback
               (SubTarget (loc_of resolver) prop value)
      end
  end.

Fixpoint _resolveWithPrefixes (prop : string) (prefixes : list string) (scopes : list val) (proxy : val)
  : M val :=
  match prefixes with
  | [] => ret RUndef
  | prefix :: rest =>
      let! value := _resolve (readKey prefix prop) scopes in
      if defined value then
        let! sub := needsSubResolver prop value in
        if sub then createSubResolver scopes proxy prop value else ret value
      else _resolveWithPrefixes prop rest scopes proxy
  end.

(** *** A context over a resolver *)
Definition or_default (v d : val) : val := if defined v then v else d.
Definition read_flags (proxy : val) (defaults : flags) : M flags :=
  let! s := get ms proxy "_scriptable" in
  let! i := get ms proxy "_indexable" in
  let! a := get ms proxy "_allKeys" in
  ret (mkFlags (or_default a (fallKeys defaults)) (or_default s (scriptable defaults))
               (or_default i (indexable defaults))).
Definition default_flags : flags := mkFlags RUndef (RBool true) (RBool true).
Definition isScriptable (d : flags) (prop : string) : M bool :=
  let! v := if isFunction (scriptable d) then apply (scriptable d) [RStr prop]
            else ret (scriptable d) in ret (truthy v).
Definition isIndexable (d : flags) (prop : string) : M bool :=
  let! v := if isFunction (indexable d) then apply (indexable d) [RStr prop]
            else ret (indexable d) in ret (truthy v).

Definition _attachContext (proxy context subProxy : val) (defaults : flags) : M val :=
  let! d := read_flags proxy defaults in
  alloc (Contextual (mkContextual [] proxy context subProxy [] d)).

(** [_subProxy && _subProxy[prop]]. *)
Definition sub_of (subProxy : val) (prop : string) : M val :=
  if truthy subProxy then get ms subProxy prop else ret subProxy.

Definition set_stack (l : nat) (f : list string -> list string) : M unit :=
  let! o := load l in
  match o with
  | Contextual c => store l (Contextual (mkContextual (ccache c) (cproxy c) (context c) (subProxy c)
                                          (f (stack c)) (descriptors c)))
  | _ => stuck
  end.

Definition stack_of (l : nat) : M (list string) :=
  let! o := load l in
  match o with Contextual c => ret (stack c) | _ => stuck end.

Definition _resolveScriptable (l : nat) (c : contextual) (prop : string) (value : val) : M val :=
  let! st := stack_of l in
  if existsb (String.eqb prop) st then
    raise ("Recursion detected: " ++ String.concat "->" st ++ "->" ++ prop)
  else
    let! _ := set_stack l (fun s => (s ++ [prop])%list) in
    let! v := apply value [context c; if truthy (subProxy c) then subProxy c else RRef l] in
    let! _ := set_stack l (List.filter (fun p => negb (String.eqb prop p))) in
    let! sub := needsSubResolver prop v in
    if sub then
      let! r := resolver_of (cproxy c) in
      createSubResolver (scopes r) (cproxy c) prop v
    else ret v.

(** The items of an array of objects, each behind its own resolver. *)
Fixpoint sub_items (c : contextual) (scopes : list val) (prop : string) (items : list val)
  : M (list val) :=
  match items with
  | [] => ret []
  | item :: rest =>
      let! r := createSubResolver scopes (cproxy c) prop item in
      let! sp := sub_of (subProxy c) prop in
      let! p := _attachContext r (context c) sp (descriptors c) in
      let! ps := sub_items c scopes prop rest in
      ret (p :: ps)
  end.

Definition items_of (v : val) : M (list val) :=
  match v with
  | RRef l => let! o := load l in
      match o with
      | Plain ArrayKind ps =>
          ret (List.map (fun i => plain_get ArrayKind ps (Str.print_nat (Z.of_nat i)))
                 (List.seq 0 (Z.to_nat (array_length ps))))
      | _ => ret []
      end
  | _ => ret []
  end.

Definition to_num (v : val) : num :=
  match v with
  | RNull => 0%js
  | RBool b => if b then 1%js else 0%js
  | RNum x => x
  | RStr s => NumStr.parse (Js.trim s)
  | _ => Num.nan
  end.

(** Called on an array that is not empty. *)
Definition _resolveArray (c : contextual) (prop : string) (value : val) : M val :=
  let! items := items_of value in
  let! index := get ms (context c) "index" in
  let! ix := if defined index then isIndexable (descriptors c) prop else ret false in
  if ix then
    get ms value (NumStr.print (Num.rem (to_num index) (Num.of_nat (List.length items))))
  else
    let! first := isObject (nth 0 items RUndef) in
    if first then
      let! r := resolver_of (cproxy c) in
      let! ps := sub_items c (List.filter (fun s => negb (same s value)) (scopes r)) prop items in
      alloc (array_of ps)
    else ret value.

Definition _resolveWithContext (l : nat) (c : contextual) (prop : string) : M val :=
  let! v := get ms (cproxy c) prop in
  let! s := if isFunction v then isScriptable (descriptors c) prop else ret false in
  let! v := if s then _resolveScriptable l c prop v else ret v in
  let! a := isArray v in
  let! n := if a then items_of v else ret [] in
  let! v := if a && negb (Nat.eqb (List.length n) 0) then _resolveArray c prop v else ret v in
  let! sub := needsSubResolver prop v in
  if sub then
    let! sp := sub_of (subProxy c) prop in
    _attachContext v (context c) sp (descriptors c)
  else ret v.

(** *** The traps *)
Definition update_resolver (l : nat) (f : resolver -> resolver) : M unit :=
  let! o := load l in
  match o with Resolver r => store l (Resolver (f r)) | _ => stuck end.
Definition set_rcache (f : props val -> props val) (r : resolver) : resolver :=
  mkResolver (f (rcache r)) (rkeys r) (rstorage r) (scopes r) (prefixes r) (rootScopes r) (fallback r) (getTarget r).
Definition set_rkeys (k : option (list string)) (r : resolver) : resolver :=
  mkResolver (rcache r) k (rstorage r) (scopes r) (prefixes r) (rootScopes r) (fallback r) (getTarget r).
Definition set_rstorage (v : val) (r : resolver) : resolver :=
  mkResolver (rcache r) (rkeys r) (Some v) (scopes r) (prefixes r) (rootScopes r) (fallback r) (getTarget r).
Definition update_contextual (l : nat) (f : props val -> props val) : M unit :=
  let! o := load l in
  match o with
  | Contextual c => store l (Contextual (mkContextual (f (ccache c)) (cproxy c) (context c) (subProxy c)
                                          (stack c) (descriptors c)))
  | _ => stuck
  end.

(** The properties the target has from its creation. *)
Definition resolver_own (l : nat) (r : resolver) (prop : string) : option val :=
  match pget prop (rcache r) with
  | Some v => Some v
  | None =>
      if String.eqb prop "_cacheable" then Some (RBool true) else
      if String.eqb prop "_fallback" then Some (fallback r) else
      if String.eqb prop "_storage" then rstorage r else
      if existsb (String.eqb prop) ["_scopes"; "_rootScopes"; "_getTarget"; "override"]
         || (String.eqb prop "_keys" && match rkeys r with Some _ => true | None => false end)
      then Some (RInternal l prop) else None
  end.
Definition contextual_own (l : nat) (c : contextual) (prop : string) : option val :=
  match pget prop (ccache c) with
  | Some v => Some v
  | None =>
      if String.eqb prop "_cacheable" then Some (RBool false) else
      if String.eqb prop "_proxy" then Some (cproxy c) else
      if String.eqb prop "_context" then Some (context c) else
      if String.eqb prop "_subProxy" then Some (subProxy c) else
      if existsb (String.eqb prop) ["_stack"; "_descriptors"; "setContext"; "override"]
      then Some (RInternal l prop) else None
  end.

Definition resolver_get (l : nat) (r : resolver) (prop : string) : M val :=
  match resolver_own l r prop with
  | Some v => ret v
  | None =>
      let! value := _resolveWithPrefixes prop (prefixes r) (scopes r) (RRef l) in
      let! _ := update_resolver l (set_rcache (pput prop value)) in
      ret value
  end.
Definition contextual_get (l : nat) (c : contextual) (prop : string) : M val :=
  match contextual_own l c prop with
  | Some v => ret v
  | None =>
      let! value := _resolveWithContext l c prop in
      let! _ := update_contextual l (pput prop value) in
      ret value
  end.

Definition subGetTarget (resolver : nat) (prop : string) (value : val) : M val :=
  let! parent := target_of ms (RRef resolver) in
  let! p := has ms parent prop in
  let! _ := if p then ret tt else (let! o := new_object in put ms parent prop o) in
  let! t := get ms parent prop in
  let! a := isArray t in
  let! o := isObject value in
  ret (if a && o then value else t).
Definition resolver_target (r : resolver) : M val :=
  match getTarget r with
  | FirstScope => ret (nth 0 (scopes r) RUndef)
  | SubTarget l prop value => subGetTarget l prop value
  end.

Definition resolver_put (l : nat) (r : resolver) (prop : string) (value : val) : M unit :=
  let! storage :=
    match rstorage r with
    | Some s => if truthy s then ret s else resolver_target r
    | None => resolver_target r
    end in
  let! _ := update_resolver l (set_rstorage storage) in
  let! _ := put ms storage prop value in
  let! _ := update_resolver l (set_rcache (pput prop value)) in
  update_resolver l (set_rkeys None).
Definition contextual_put (l : nat) (c : contextual) (prop : string) (value : val) : M unit :=
  let! _ := put ms (cproxy c) prop value in
  update_contextual l (pdel prop).

Definition resolver_del (l : nat) (r : resolver) (prop : string) : M unit :=
  let! _ := update_resolver l (set_rcache (pdel prop)) in
  let! _ := update_resolver l (set_rkeys None) in
  del ms (nth 0 (scopes r) RUndef) prop.
Definition contextual_del (l : nat) (c : contextual) (prop : string) : M unit :=
  let! _ := update_contextual l (pdel prop) in
  del ms (cproxy c) prop.

(** Own keys: the indices in order, then the names in creation order. *)
Definition own_keys (ps : props val) : list string :=
  let ks := List.map fst ps in
  let ix k := match array_index k with Some i => i | None => 0 end in
  let isix k := match array_index k with Some _ => true | None => false end in
  (sort_by (fun a b => Num.of_Z (ix a - ix b)) (List.filter isix ks)
   ++ List.filter (fun k => negb (isix k)) ks)%list.

(** [Object.keys]: the own keys with an enumerable descriptor. *)
Fixpoint filterM {A} (p : A -> M bool) (l : list A) : M (list A) :=
  match l with
  | [] => ret []
  | x :: l' => let! b := p x in let! r := filterM p l' in ret (if b then x :: r else r)
  end.
Definition Object_keys (v : val) : M (list string) :=
  match v with
  | RUndef | RNull => raise "Cannot convert undefined or null to object"
  | RRef _ => let! ks := keys ms v in filterM (own ms v) ks
  | RStr s => ret (List.map (fun i => Str.print_nat (Z.of_nat i)) (List.seq 0 (String.length s)))
  | _ => ret []
  end.
Definition push_new (set : list string) (k : string) : list string :=
  if existsb (String.eqb k) set then set else (set ++ [k])%list.
Fixpoint collect_keys (scopes : list val) (set : list string) : M (list string) :=
  match scopes with
  | [] => ret set
  | scope :: rest =>
      let! ks := Object_keys scope in
      collect_keys rest (fold_left push_new (List.filter (fun k => negb (String.prefix "_" k)) ks) set)
  end.
Definition resolveKeysFromAllScopes (scopes : list val) : M (list string) := collect_keys scopes [].
Definition getKeysFromAllScopes (l : nat) (r : resolver) : M (list string) :=
  match rkeys r with
  | Some ks => ret ks
  | None =>
      let! ks := resolveKeysFromAllScopes (scopes r) in
      let! _ := update_resolver l (set_rkeys (Some ks)) in
      ret ks
  end.

(** *** The internal methods of every object, over the methods [ms] they call *)
Definition get_step (v : val) (prop : string) : M val :=
  match v with
  | RUndef | RNull => raise ("Cannot read properties of undefined (reading '" ++ prop ++ "')")
  | RStr s =>
      if String.eqb prop "length" then ret (RNum (Num.of_nat (String.length s))) else
      match array_index prop with
      | Some i => ret (match String.get (Z.to_nat i) s with Some c => RStr (String c "") | None => RUndef end)
      | None => ret (if Obj.inherited prop then RFun prop else RUndef)
      end
  | RRef l =>
      let! o := load l in
      match o with
      | Plain k ps => ret (plain_get k ps prop)
      | Resolver r => resolver_get l r prop
      | Contextual c => contextual_get l c prop
      end
  | _ => ret (if Obj.inherited prop then RFun prop else RUndef)
  end.
Definition put_step (v : val) (prop : string) (value : val) : M unit :=
  match v with
  | RRef l =>
      let! o := load l in
      match o with
      | Plain k ps => store l (Plain k (pput prop value ps))
      | Resolver r => resolver_put l r prop value
      | Contextual c => contextual_put l c prop value
      end
  | RFun _ | RInternal _ _ => stuck
  | _ => raise ("Cannot create property '" ++ prop ++ "'")
  end.
Definition has_step (v : val) (prop : string) : M bool :=
  match v with
  | RRef l =>
      let! o := load l in
      match o with
      | Plain k ps => ret (defined (plain_get k ps prop) ||
                           match pget prop ps with Some _ => true | None => false end)
      | Resolver r => let! ks := getKeysFromAllScopes l r in ret (existsb (String.eqb prop) ks)
      | Contextual c => has ms (cproxy c) prop
      end
  | RFun _ | RInternal _ _ => stuck
  | _ => raise "Cannot use 'in' operator"
  end.
Definition del_step (v : val) (prop : string) : M unit :=
  match v with
  | RUndef | RNull => raise "Cannot convert undefined or null to object"
  | RRef l =>
      let! o := load l in
      match o with
      | Plain k ps => store l (Plain k (pdel prop ps))
      | Resolver r => resolver_del l r prop
      | Contextual c => contextual_del l c prop
      end
  | _ => ret tt
  end.
Definition keys_step (v : val) : M (list string) :=
  match v with
  | RRef l =>
      let! o := load l in
      match o with
      | Plain k ps => ret (own_keys ps)
      | Resolver r => getKeysFromAllScopes l r
      | Contextual c => keys ms (cproxy c)
      end
  | _ => raise "Reflect.ownKeys called on non-object"
  end.
(** Whether [getOwnPropertyDescriptor] gives an (enumerable) descriptor. *)
Definition own_step (v : val) (prop : string) : M bool :=
  match v with
  | RRef l =>
      let! o := load l in
      match o with
      | Plain k ps => ret (match pget prop ps with Some _ => true | None => false end)
      | Resolver r => own ms (nth 0 (scopes r) RUndef) prop
      | Contextual c => if truthy (fallKeys (descriptors c)) then has ms (cproxy c) prop
                        else own ms (cproxy c) prop
      end
  | _ => raise "Reflect.getOwnPropertyDescriptor called on non-object"
  end.
Definition proto_step (v : val) : M kind :=
  match v with
  | RRef l =>
      let! o := load l in
      match o with
      | Plain k _ => ret k
      | Resolver r => proto ms (nth 0 (scopes r) RUndef)
      | Contextual c => proto ms (cproxy c)
      end
  | RFun _ | RInternal _ _ => ret Instance
  | _ => raise "Reflect.getPrototypeOf called on non-object"
  end.
Definition target_step (v : val) : M val :=
  match v with
  | RRef l =>
      let! o := load l in
      match o with Resolver r => resolver_target r | _ => stuck end
  | _ => stuck
  end.
Definition step_ops : ops :=
  mkOps get_step put_step has_step del_step keys_step own_step proto_step target_step.
End Methods.

(** The methods of a call stack of depth [n]. *)
Fixpoint ops_at (call : string -> list val -> script) (n : nat) : ops :=
  match n with
  | O => no_ops
  | S n' => step_ops call (ops_at call n') n'
  end.

End Resolver.

(** ** Facts *)
Module ResolverFacts.
Import Heap Resolver.
Local Open Scope string_scope.
Local Open Scope heap_scope.

(** *** More depth changes nothing

    [below m m']: when [m] is not stuck, [m'] does the same. *)
Definition below {A} (m m' : M A) : Prop := forall h, fst (m h) <> Stuck -> m' h = m h.

Lemma below_refl {A} (m : M A) : below m m.
Proof. intros h _. reflexivity. Qed.
Lemma below_stuck {A} (m : M A) : below stuck m.
Proof. intros h H. now destruct H. Qed.
Lemma below_bind {A B} (m m' : M A) (k k' : A -> M B) :
  below m m' -> (forall a, below (k a) (k' a)) -> below (bind m k) (bind m' k').
Proof.
  intros Hm Hk h N. unfold bind in *. specialize (Hm h).
  destruct (m h) as [[a|e|] h1]; cbn in *; rewrite Hm by congruence; [now apply Hk|reflexivity|congruence].
Qed.

Record ops_below (a b : ops) : Prop := {
  below_get v k : below (get a v k) (get b v k);
  below_put v k w : below (put a v k w) (put b v k w);
  below_has v k : below (has a v k) (has b v k);
  below_del v k : below (del a v k) (del b v k);
  below_keys v : below (keys a v) (keys b v);
  below_own v k : below (own a v k) (own b v k);
  below_proto v : below (proto a v) (proto b v);
  below_target v : below (target_of a v) (target_of b v)
}.

#[local] Create HintDb below.
#[local] Hint Resolve below_refl below_stuck below_get below_put below_has below_del below_keys
  below_own below_proto below_target : below.

(** Goes through the binds, tests and matches the two programs share. *)
Ltac below_step :=
  match goal with
  | |- below (bind _ _) (bind _ _) => apply below_bind; [|intros ?]
  | |- below (if ?b then _ else _) (if ?b then _ else _) => destruct b
  | |- below (match ?x with _ => _ end) (match ?x with _ => _ end) => destruct x
  | _ => solve [eauto with below]
  end.
Ltac belows := repeat below_step.

Section Below.
Context (call : string -> list val -> script) (a b : ops) (n m : nat).
Context (AB : ops_below a b) (NM : (n <= m)%nat).

Lemma run_below s : below (run a s) (run b s).
Proof. induction s; cbn [run]; belows. Qed.
Lemma apply_below f args : below (apply call a f args) (apply call b f args).
Proof. unfold apply. destruct f; auto using run_below with below. Qed.
Hint Resolve apply_below : below.
Lemma needs_below k v : below (needsSubResolver a k v) (needsSubResolver b k v).
Proof. unfold needsSubResolver. belows. Qed.
Lemma loop_below f o k p i : below (resolve_loop a f o k p i) (resolve_loop b f o k p i).
Proof. revert o p i. induction f; intros; cbn [resolve_loop]; belows. Qed.
Lemma resolve_below k l : below (_resolve a k l) (_resolve b k l).
Proof. induction l; cbn [_resolve]; belows. Qed.
Lemma fallback_below f p v : below (resolveFallback call a f p v) (resolveFallback call b f p v).
Proof. unfold resolveFallback. belows. Qed.
Lemma scope_below k p : below (getScope a k p) (getScope b k p).
Proof. unfold getScope, resolveObjectKey. pose proof loop_below. belows. Qed.
Hint Resolve needs_below resolve_below fallback_below scope_below : below.
Lemma addScopes_below s ps k f v : below (addScopes call a s ps k f v) (addScopes call b s ps k f v).
Proof. revert s. induction ps; intros; cbn [addScopes]; belows. Qed.
Hint Resolve addScopes_below : below.
Lemma fromKey_below s ps k f v :
  below (addScopesFromKey call a n s ps k f v) (addScopesFromKey call b m s ps k f v).
Proof.
  revert m NM s k. induction n as [|n' IH]; intros m' L s k; cbn [addScopesFromKey].
  - destruct m'; cbn [addScopesFromKey]; belows.
  - destruct m' as [|m']; [lia|]. cbn [addScopesFromKey]. belows. apply IH. lia.
Qed.
Hint Resolve fromKey_below : below.
Lemma create_below s ps rs f g : below (_createResolver a s ps rs f g) (_createResolver b s ps rs f g).
Proof. unfold _createResolver. belows. Qed.
Hint Resolve create_below : below.
Lemma createSub_below ps r p v : below (createSubResolver call a n ps r p v) (createSubResolver call b m ps r p v).
Proof. unfold createSubResolver. belows. Qed.
Hint Resolve createSub_below : below.
Lemma prefixes_below p ps ss x :
  below (_resolveWithPrefixes call a n p ps ss x) (_resolveWithPrefixes call b m p ps ss x).
Proof. induction ps; cbn [_resolveWithPrefixes]; belows. Qed.
Lemma flags_below p d : below (read_flags a p d) (read_flags b p d).
Proof. unfold read_flags. belows. Qed.
Hint Resolve flags_below prefixes_below : below.
Lemma attach_below p c s d : below (_attachContext a p c s d) (_attachContext b p c s d).
Proof. unfold _attachContext. belows. Qed.
Lemma scriptable_below d p : below (isScriptable call a d p) (isScriptable call b d p).
Proof. unfold isScriptable. belows. Qed.
Lemma indexable_below d p : below (isIndexable call a d p) (isIndexable call b d p).
Proof. unfold isIndexable. belows. Qed.
Lemma sub_of_below s p : below (sub_of a s p) (sub_of b s p).
Proof. unfold sub_of. belows. Qed.
Hint Resolve attach_below scriptable_below indexable_below sub_of_below : below.
Lemma resolveScriptable_below l c p v :
  below (_resolveScriptable call a n l c p v) (_resolveScriptable call b m l c p v).
Proof. unfold _resolveScriptable. belows. Qed.
Lemma items_below c ss p l : below (sub_items call a n c ss p l) (sub_items call b m c ss p l).
Proof. induction l; cbn [sub_items]; belows. Qed.
Hint Resolve resolveScriptable_below items_below : below.
Lemma array_below c p v : below (_resolveArray call a n c p v) (_resolveArray call b m c p v).
Proof. unfold _resolveArray. belows. Qed.
Hint Resolve array_below : below.
Lemma context_below l c p : below (_resolveWithContext call a n l c p) (_resolveWithContext call b m l c p).
Proof. unfold _resolveWithContext. belows. Qed.
Hint Resolve context_below : below.
Lemma filterM_below {A} (p q : A -> M bool) l :
  (forall x, below (p x) (q x)) -> below (filterM p l) (filterM q l).
Proof. intros H. induction l; cbn [filterM]; belows. Qed.
Lemma Object_keys_below v : below (Object_keys a v) (Object_keys b v).
Proof. unfold Object_keys. destruct v; belows. apply filterM_below. belows. Qed.
Hint Resolve Object_keys_below : below.
Lemma collect_below l s : below (collect_keys a l s) (collect_keys b l s).
Proof. revert s. induction l; intros; cbn [collect_keys]; belows. Qed.
Hint Resolve collect_below : below.
Lemma allkeys_below l r : below (getKeysFromAllScopes a l r) (getKeysFromAllScopes b l r).
Proof. unfold getKeysFromAllScopes, resolveKeysFromAllScopes. belows. Qed.
Lemma subtarget_below l p v : below (subGetTarget a l p v) (subGetTarget b l p v).
Proof. unfold subGetTarget. belows. Qed.
Hint Resolve allkeys_below subtarget_below : below.
Lemma target_below r : below (resolver_target a r) (resolver_target b r).
Proof. unfold resolver_target. belows. Qed.
Hint Resolve target_below : below.

Lemma step_below : ops_below (step_ops call a n) (step_ops call b m).
Proof.
  split; intros; cbn [step_ops get put has del keys own proto target_of];
    unfold get_step, put_step, has_step, del_step, keys_step, own_step, proto_step, target_step,
      resolver_get, contextual_get, resolver_put, contextual_put, resolver_del, contextual_del; belows.
Qed.
End Below.

Lemma ops_at_below call n m : (n <= m)%nat -> ops_below (ops_at call n) (ops_at call m).
Proof.
  revert m. induction n as [|n IH]; intros m L.
  - split; intros; apply below_stuck.
  - destruct m as [|m]; [lia|]. cbn [ops_at]. apply step_below; [apply IH|]; lia.
Qed.

(** What an object answers with a call stack of some depth, it answers with every
    deeper one. *)
Theorem deeper_same call n m : (n <= m)%nat -> forall v k w h,
  (fst (get (ops_at call n) v k h) <> Stuck -> get (ops_at call m) v k h = get (ops_at call n) v k h) /\
  (fst (put (ops_at call n) v k w h) <> Stuck -> put (ops_at call m) v k w h = put (ops_at call n) v k w h) /\
  (fst (has (ops_at call n) v k h) <> Stuck -> has (ops_at call m) v k h = has (ops_at call n) v k h) /\
  (fst (del (ops_at call n) v k h) <> Stuck -> del (ops_at call m) v k h = del (ops_at call n) v k h) /\
  (fst (keys (ops_at call n) v h) <> Stuck -> keys (ops_at call m) v h = keys (ops_at call n) v h).
Proof.
  intros L v k w h. pose proof (ops_at_below call n m L) as B. split_and!; intros N.
  - now apply (below_get _ _ B).
  - now apply (below_put _ _ B).
  - now apply (below_has _ _ B).
  - now apply (below_del _ _ B).
  - now apply (below_keys _ _ B).
Qed.

(** *** The stack of a context only loses what the same call put there *)
Definition fixed (c : contextual) : val * val * val * flags :=
  (cproxy c, context c, subProxy c, descriptors c).
Definition in_stack (h : heap) (l : nat) (q : string * (val * val * val * flags)) : Prop :=
  exists c, h !! l = Some (Contextual c) /\ In (fst q) (stack c) /\ fixed c = snd q.
Definition keeps_at {A} (h : heap) (m : M A) : Prop :=
  forall l p, in_stack h l p -> in_stack (snd (m h)) l p.
Definition keeps {A} (m : M A) : Prop := forall h, keeps_at h m.

Lemma keeps_ret {A} (a : A) : keeps (ret a).
Proof. intros h l p I. exact I. Qed.
Lemma keeps_raise {A} e : keeps (@raise A e).
Proof. intros h l p I. exact I. Qed.
Lemma keeps_stuck {A} : keeps (@stuck A).
Proof. intros h l p I. exact I. Qed.
Lemma keeps_load l : keeps (load l).
Proof. intros h l' p I. unfold load. now destruct (h !! l). Qed.
Lemma keeps_bind_at {A B} h (m : M A) (k : A -> M B) :
  keeps_at h m -> (forall a, keeps (k a)) -> keeps_at h (bind m k).
Proof.
  intros Hm Hk l p I. specialize (Hm l p I). unfold bind.
  destruct (m h) as [[a|e|] h']; cbn in *; auto. now apply Hk.
Qed.
Lemma keeps_bind {A B} (m : M A) (k : A -> M B) : keeps m -> (forall a, keeps (k a)) -> keeps (bind m k).
Proof. intros Hm Hk h. now apply keeps_bind_at. Qed.
Lemma keeps_load_bind {A} l (k : object -> M A) :
  (forall h o, h !! l = Some o -> keeps_at h (k o)) -> keeps (bind (load l) k).
Proof. intros H h. unfold keeps_at, bind, load. intros l' p I. destruct (h !! l) eqn:E; [now apply (H h o E)|exact I]. Qed.
Lemma keeps_alloc o : keeps (alloc o).
Proof.
  intros h l p (c & L & I). exists c. split; [|exact I]. cbn. now apply lookup_app_l_Some.
Qed.

(** Writing an object keeps the stacks when it does for the one it replaces. *)
Lemma keeps_store h l o o' :
  h !! l = Some o ->
  (forall c, o = Contextual c -> exists c', o' = Contextual c' /\ incl (stack c) (stack c') /\ fixed c' = fixed c) ->
  keeps_at h (store l o').
Proof.
  intros L H l' p (c & Lc & I). unfold in_stack, store, snd. destruct (Nat.eq_dec l l') as [->|N].
  - rewrite L in Lc. injection Lc as ->. destruct I as [I Fx]. destruct (H c eq_refl) as (c' & -> & Hi & Hf).
    exists c'. split; [|split; [now apply Hi|exact (eq_trans Hf Fx)]]. apply list_lookup_insert_eq. now apply lookup_lt_Some in L.
  - exists c. split; [|exact I]. etransitivity; [apply list_lookup_insert_ne; exact N|exact Lc].
Qed.

Lemma keeps_update_resolver l f : keeps (update_resolver l f).
Proof.
  apply keeps_load_bind. intros h o L. destruct o; try apply keeps_stuck.
  eapply keeps_store; [exact L|]. discriminate.
Qed.
Lemma keeps_update_contextual l f : keeps (update_contextual l f).
Proof.
  apply keeps_load_bind. intros h o L. destruct o as [| |c]; try apply keeps_stuck.
  eapply keeps_store; [exact L|]. intros c' [= <-]. eexists. split; [reflexivity|]. split; [apply incl_refl|reflexivity].
Qed.
Record ops_keep (a : ops) : Prop := {
  keep_get v k : keeps (get a v k);
  keep_put v k w : keeps (put a v k w);
  keep_has v k : keeps (has a v k);
  keep_del v k : keeps (del a v k);
  keep_keys v : keeps (keys a v);
  keep_own v k : keeps (own a v k);
  keep_proto v : keeps (proto a v);
  keep_target v : keeps (target_of a v)
}.
#[local] Create HintDb keep.
#[local] Hint Resolve keeps_ret keeps_raise keeps_stuck keeps_load keeps_alloc keeps_update_resolver
  keeps_update_contextual keep_get keep_put keep_has keep_del keep_keys keep_own keep_proto
  keep_target : keep.
Ltac keep_step :=
  match goal with
  | |- keeps (bind _ _) => apply keeps_bind; [|intros ?]
  | |- keeps (if ?b then _ else _) => destruct b
  | |- keeps (match ?x with _ => _ end) => destruct x
  | _ => solve [eauto with keep]
  end.
Ltac keep := repeat keep_step.

(** Changing a stack keeps the entries the change keeps. *)
Lemma in_set_stack h l f l' q :
  in_stack h l' q -> (forall st, l' = l -> In (fst q) st -> In (fst q) (f st)) ->
  in_stack (snd (set_stack l f h)) l' q.
Proof.
  intros (c & L & I) F. unfold set_stack, bind, load. destruct (h !! l) as [o|] eqn:E; [|exists c; auto].
  destruct o as [| |c']; try (exists c; auto; fail). unfold in_stack, store, snd.
  destruct (Nat.eq_dec l' l) as [->|N].
  - rewrite E in L. injection L as ->. eexists.
    split; [apply list_lookup_insert_eq; now apply lookup_lt_Some in E|]. cbn. destruct I as [I Fx]. split; [now apply F|exact Fx].
  - exists c. split; [|exact I]. etransitivity; [apply list_lookup_insert_ne; congruence|exact L].
Qed.

(** What runs under a new stack entry keeps every other entry. *)
Lemma keeps_pushed {A B} h l p (m : M A) (k : A -> M B) :
  keeps m -> (forall a, keeps (k a)) -> (forall c, h !! l = Some (Contextual c) -> ~ In p (stack c)) ->
  keeps_at h (let! _ := set_stack l (fun s => (s ++ [p])%list) in
              let! a := m in
              let! _ := set_stack l (List.filter (fun q => negb (String.eqb p q))) in k a).
Proof.
  intros Hm Hk N l' q I.
  assert (D : l' = l -> fst q <> p) by (intros -> E; destruct I as (c & L & J & _); subst p; now apply (N c)).
  pose proof (in_set_stack h l (fun s => (s ++ [p])%list) l' q I) as I1.
  unfold bind at 1. destruct (set_stack _ _ h) as [[[]|e|] h1]; cbn in I1 |- *;
    specialize (I1 ltac:(intros; apply in_app_iff; auto)); auto.
  pose proof (Hm h1 l' q I1) as I2.
  unfold bind at 1. destruct (m h1) as [[a|e|] h2]; cbn in I2 |- *; auto.
  pose proof (in_set_stack h2 l (List.filter (fun q => negb (String.eqb p q))) l' q I2) as I3.
  unfold bind at 1. destruct (set_stack _ _ h2) as [[[]|e|] h3]; cbn in I3 |- *;
    specialize (I3 ltac:(intros st E J; apply filter_In; split; [auto|];
      apply negb_true_iff, String.eqb_neq; intros X; now apply (D E))); auto.
  now apply Hk.
Qed.

Section Keep.
Context (call : string -> list val -> script) (a : ops) (n : nat) (KA : ops_keep a).

Lemma run_keep s : keeps (run a s).
Proof. induction s; cbn [run]; keep. Qed.
Lemma apply_keep f args : keeps (apply call a f args).
Proof. unfold apply. destruct f; auto using run_keep with keep. Qed.
Hint Resolve apply_keep : keep.
Lemma isArray_keep v : keeps (isArray v).
Proof. unfold isArray. keep. Qed.
Lemma isObject_keep v : keeps (isObject v).
Proof. unfold isObject. keep. Qed.
Lemma items_of_keep v : keeps (items_of v).
Proof. unfold items_of. keep. Qed.
Lemma resolver_of_keep v : keeps (resolver_of v).
Proof. unfold resolver_of. keep. Qed.
Hint Resolve isArray_keep isObject_keep items_of_keep resolver_of_keep : keep.
Lemma needs_keep k v : keeps (needsSubResolver a k v).
Proof. unfold needsSubResolver. keep. Qed.
Lemma loop_keep f o k p i : keeps (resolve_loop a f o k p i).
Proof. revert o p i. induction f; intros; cbn [resolve_loop]; keep. Qed.
Lemma resolve_keep k l : keeps (_resolve a k l).
Proof. induction l; cbn [_resolve]; keep. Qed.
Lemma fallback_keep f p v : keeps (resolveFallback call a f p v).
Proof. unfold resolveFallback. keep. Qed.
Lemma scope_keep k p : keeps (getScope a k p).
Proof. unfold getScope, resolveObjectKey. pose proof loop_keep. keep. Qed.
Hint Resolve needs_keep resolve_keep fallback_keep scope_keep : keep.
Lemma addScopes_keep s ps k f v : keeps (addScopes call a s ps k f v).
Proof. revert s. induction ps; intros; cbn [addScopes]; keep. Qed.
Hint Resolve addScopes_keep : keep.
Lemma fromKey_keep m s ps k f v : keeps (addScopesFromKey call a m s ps k f v).
Proof. revert s k. induction m; intros; cbn [addScopesFromKey]; keep. Qed.
Hint Resolve fromKey_keep : keep.
Lemma create_keep s ps rs f g : keeps (_createResolver a s ps rs f g).
Proof. unfold _createResolver. keep. Qed.
Hint Resolve create_keep : keep.
Lemma createSub_keep ps r p v : keeps (createSubResolver call a n ps r p v).
Proof. unfold createSubResolver. keep. Qed.
Hint Resolve createSub_keep : keep.
Lemma prefixes_keep p ps ss x : keeps (_resolveWithPrefixes call a n p ps ss x).
Proof. induction ps; cbn [_resolveWithPrefixes]; keep. Qed.
Lemma flags_keep p d : keeps (read_flags a p d).
Proof. unfold read_flags. keep. Qed.
Hint Resolve flags_keep prefixes_keep : keep.
Lemma attach_keep p c s d : keeps (_attachContext a p c s d).
Proof. unfold _attachContext. keep. Qed.
Lemma scriptable_keep d p : keeps (isScriptable call a d p).
Proof. unfold isScriptable. keep. Qed.
Lemma indexable_keep d p : keeps (isIndexable call a d p).
Proof. unfold isIndexable. keep. Qed.
Lemma sub_of_keep s p : keeps (sub_of a s p).
Proof. unfold sub_of. keep. Qed.
Hint Resolve attach_keep scriptable_keep indexable_keep sub_of_keep : keep.
Lemma resolveScriptable_keep l c p v : keeps (_resolveScriptable call a n l c p v).
Proof.
  unfold _resolveScriptable. intros h. unfold keeps_at, stack_of.
  destruct (h !! l) as [[| |c']|] eqn:L; unfold bind at 1 2, load at 1; rewrite L; cbn; auto.
  destruct (existsb (String.eqb p) (stack c')) eqn:E; [auto|].
  apply keeps_pushed; [keep|intros; keep|]. intros c'' L' I. rewrite L in L'. injection L' as <-.
  assert (existsb (String.eqb p) (stack c') = true); [|congruence].
  apply existsb_exists. exists p. split; [auto|apply String.eqb_refl].
Qed.
Lemma items_keep c ss p l : keeps (sub_items call a n c ss p l).
Proof. induction l; cbn [sub_items]; keep. Qed.
Hint Resolve resolveScriptable_keep items_keep : keep.
Lemma array_keep c p v : keeps (_resolveArray call a n c p v).
Proof. unfold _resolveArray. keep. Qed.
Hint Resolve array_keep : keep.
Lemma context_keep l c p : keeps (_resolveWithContext call a n l c p).
Proof. unfold _resolveWithContext. keep. Qed.
Hint Resolve context_keep : keep.
Lemma filterM_keep {A} (p : A -> M bool) l : (forall x, keeps (p x)) -> keeps (filterM p l).
Proof. intros H. induction l; cbn [filterM]; keep. Qed.
Lemma Object_keys_keep v : keeps (Object_keys a v).
Proof. unfold Object_keys. destruct v; keep. apply filterM_keep. keep. Qed.
Hint Resolve Object_keys_keep : keep.
Lemma collect_keep l s : keeps (collect_keys a l s).
Proof. revert s. induction l; intros; cbn [collect_keys]; keep. Qed.
Hint Resolve collect_keep : keep.
Lemma allkeys_keep l r : keeps (getKeysFromAllScopes a l r).
Proof. unfold getKeysFromAllScopes, resolveKeysFromAllScopes. keep. Qed.
Lemma subtarget_keep l p v : keeps (subGetTarget a l p v).
Proof. unfold subGetTarget. keep. Qed.
Hint Resolve allkeys_keep subtarget_keep : keep.
Lemma target_keep r : keeps (resolver_target a r).
Proof. unfold resolver_target. keep. Qed.
Hint Resolve target_keep : keep.

Lemma step_keep : ops_keep (step_ops call a n).
Proof.
  split; intros; cbn [step_ops get put has del keys own proto target_of];
    unfold get_step, put_step, has_step, del_step, keys_step, own_step, proto_step, target_step.
  2, 4: destruct v; try solve [keep]; apply keeps_load_bind; intros h o L; destruct o;
    [eapply keeps_store; [exact L|discriminate]| |].
  all: unfold resolver_get, contextual_get, resolver_put, contextual_put, resolver_del, contextual_del.
  all: try (revert h L; match goal with |- forall h, _ -> keeps_at h ?m => enough (keeps m) by (intros h0 ?; apply H) end).
  all: keep.
Qed.
End Keep.

Lemma ops_at_keep call n : ops_keep (ops_at call n).
Proof.
  induction n; cbn [ops_at]; [split; intros; apply keeps_stuck|]. now apply step_keep.
Qed.

(** What any further use of the options leads to. *)
Inductive later (call : string -> list val -> script) : heap -> heap -> Prop :=
| later_refl h : later call h h
| later_get h h' n v k : later call (snd (get (ops_at call n) v k h)) h' -> later call h h'
| later_put h h' n v k w : later call (snd (put (ops_at call n) v k w h)) h' -> later call h h'
| later_del h h' n v k : later call (snd (del (ops_at call n) v k h)) h' -> later call h h'
| later_has h h' n v k : later call (snd (has (ops_at call n) v k h)) h' -> later call h h'
| later_keys h h' n v : later call (snd (keys (ops_at call n) v h)) h' -> later call h h'.

Lemma later_in_stack call h h' l q : later call h h' -> in_stack h l q -> in_stack h' l q.
Proof.
  induction 1; intros I; auto; apply IHlater; revert I; apply ops_at_keep.
Qed.

(** *** Running the programs *)
Lemma bind_done {A B} (m : M A) (k : A -> M B) h a h' : m h = (Done a, h') -> bind m k h = k a h'.
Proof. intros E. unfold bind. now rewrite E. Qed.
Lemma bind_raised {A B} (m : M A) (k : A -> M B) h e h' : m h = (Raised e, h') -> bind m k h = (Raised e, h').
Proof. intros E. unfold bind. now rewrite E. Qed.
Lemma load_done h l o : h !! l = Some o -> load l h = (Done o, h).
Proof. intros E. unfold load. now rewrite E. Qed.

Lemma contextual_read call n h l c prop :
  h !! l = Some (Contextual c) -> contextual_own l c prop = None ->
  get (ops_at call (S n)) (RRef l) prop h
  = bind (_resolveWithContext call (ops_at call n) n l c prop)
      (fun v => bind (update_contextual l (pput prop v)) (fun _ => ret v)) h.
Proof.
  intros L Ow. cbn [ops_at step_ops get get_step]. rewrite (bind_done _ _ _ _ _ (load_done _ _ _ L)).
  unfold contextual_get. now rewrite Ow.
Qed.

(** A callback is called when the options are scriptable. *)
Lemma scriptable_read call a n h h1 l c prop f :
  scriptable (descriptors c) = RBool true ->
  get a (cproxy c) prop h = (Done (RFun f), h1) ->
  exists k, _resolveWithContext call a n l c prop h
            = bind (_resolveScriptable call a n l c prop (RFun f)) k h1.
Proof.
  intros Sc G. unfold _resolveWithContext. rewrite (bind_done _ _ _ _ _ G). cbn [isFunction].
  unfold isScriptable. rewrite Sc. eexists. reflexivity.
Qed.

Lemma stack_done h l c : h !! l = Some (Contextual c) -> stack_of l h = (Done (stack c), h).
Proof. intros L. unfold stack_of. now rewrite (bind_done _ _ _ _ _ (load_done _ _ _ L)). Qed.
Lemma set_stack_done h l c f : h !! l = Some (Contextual c) ->
  set_stack l f h = (Done tt, <[l := Contextual (mkContextual (ccache c) (cproxy c) (context c)
                                       (subProxy c) (f (stack c)) (descriptors c))]> h).
Proof. intros L. unfold set_stack. now rewrite (bind_done _ _ _ _ _ (load_done _ _ _ L)). Qed.

(** Reading an option whose name is on the stack, when the option is a callback. *)
Lemma locked call n h h1 l c prop f :
  h !! l = Some (Contextual c) -> contextual_own l c prop = None ->
  scriptable (descriptors c) = RBool true ->
  get (ops_at call n) (cproxy c) prop h = (Done (RFun f), h1) ->
  in_stack h1 l (prop, fixed c) ->
  exists st, get (ops_at call (S n)) (RRef l) prop h
             = (Raised ("Recursion detected: " ++ String.concat "->" st ++ "->" ++ prop), h1).
Proof.
  intros L Ow Sc G (c1 & L1 & I & Fx). exists (stack c1). rewrite contextual_read with (c := c) by auto.
  destruct (scriptable_read call (ops_at call n) n h h1 l c prop f Sc G) as [k Ek].
  apply bind_raised. rewrite Ek. apply bind_raised. unfold _resolveScriptable.
  rewrite (bind_done _ _ _ _ _ (stack_done _ _ _ L1)).
  replace (existsb (String.eqb prop) (stack c1)) with true; [reflexivity|].
  symmetry. apply existsb_exists. exists prop. split; [exact I|apply String.eqb_refl].
Qed.

(** C38: a callback that throws leaves its option on the stack: the read throws the same
    error, and from then on, whatever is done with the options, reading the option
    throws that a recursion was detected. *)
Theorem failed_option_locked call n h h1 h2 l c c1 prop f e :
  h !! l = Some (Contextual c) -> contextual_own l c prop = None ->
  scriptable (descriptors c) = RBool true ->
  get (ops_at call n) (cproxy c) prop h = (Done (RFun f), h1) ->
  h1 !! l = Some (Contextual c1) -> fixed c1 = fixed c -> ~ In prop (stack c1) ->
  apply call (ops_at call n) (RFun f) [context c; if truthy (subProxy c) then subProxy c else RRef l]
    (snd (set_stack l (fun s => (s ++ [prop])%list) h1)) = (Raised e, h2) ->
  get (ops_at call (S n)) (RRef l) prop h = (Raised e, h2) /\
  forall h3 c3 m g h4, later call h2 h3 ->
    h3 !! l = Some (Contextual c3) -> contextual_own l c3 prop = None ->
    get (ops_at call m) (cproxy c) prop h3 = (Done (RFun g), h4) ->
    exists st, get (ops_at call (S m)) (RRef l) prop h3
               = (Raised ("Recursion detected: " ++ String.concat "->" st ++ "->" ++ prop), h4).
Proof.
  intros L Ow Sc G L1 Fx N A. rewrite (set_stack_done _ _ _ _ L1) in A. split.
  - rewrite contextual_read with (c := c) by auto.
    destruct (scriptable_read call (ops_at call n) n h h1 l c prop f Sc G) as [k Ek].
    apply bind_raised. rewrite Ek. apply bind_raised. unfold _resolveScriptable.
    rewrite (bind_done _ _ _ _ _ (stack_done _ _ _ L1)).
    replace (existsb (String.eqb prop) (stack c1)) with false.
    + rewrite (bind_done _ _ _ _ _ (set_stack_done _ _ _ _ L1)). apply bind_raised. exact A.
    + symmetry. apply not_true_iff_false. intros E. apply existsb_exists in E as (x & I & E).
      apply String.eqb_eq in E. now subst.
  - intros h3 c3 m g h4 La L3 O3 G3.
    assert (I2 : in_stack h2 l (prop, fixed c)).
    { change h2 with (snd (@Raised val e, h2)). rewrite <- A. apply apply_keep; [apply ops_at_keep|].
      eexists.
      split; [apply list_lookup_insert_eq; now apply lookup_lt_Some in L1|].
      split; [apply in_app_iff; right; now left|]. exact Fx. }
    apply (later_in_stack _ _ _ _ _ La) in I2.
    assert (F3 : fixed c3 = fixed c).
    { destruct I2 as (c' & L' & _ & E). rewrite L3 in L'. now injection L' as <-. }
    pose proof F3 as F3'. unfold fixed in F3'. injection F3' as E1 E2 E3 E4.
    eapply locked; eauto; [congruence| rewrite E1; exact G3|].
    rewrite F3. change h4 with (snd (Done (RFun g), h4)). rewrite <- G3.
    apply ops_at_keep. exact I2.
Qed.

(** *** Which value is read *)
Definition scope_value (h : heap) (key : string) (scope : val) : val :=
  match scope with
  | RRef m => match h !! m with Some (Plain k ps) => plain_get k ps key | _ => RUndef end
  | _ => RUndef
  end.
(** A scope the reading skips, or an object that is not a proxy. *)
Definition plain_scope (h : heap) (scope : val) : Prop :=
  truthy scope = false \/ exists m k ps, scope = RRef m /\ h !! m = Some (Plain k ps).
Fixpoint first_defined (vs : list val) : val :=
  match vs with
  | [] => RUndef
  | v :: vs' => if defined v then v else first_defined vs'
  end.
(** The candidates of an option, most important first. *)
Definition candidates (h : heap) (prop : string) (prefixes : list string) (scopes : list val) : list val :=
  List.concat (List.map (fun p => List.map (scope_value h (readKey p prop)) scopes) prefixes).
Definition is_ref (v : val) : bool := match v with RRef _ => true | _ => false end.

Lemma first_defined_app a b :
  first_defined (a ++ b) = if defined (first_defined a) then first_defined a else first_defined b.
Proof. induction a as [|v a IH]; cbn; [reflexivity|]. destruct (defined v) eqn:E; [now rewrite E|exact IH]. Qed.

Lemma get_plain call n h m k ps key : h !! m = Some (Plain k ps) ->
  get (ops_at call (S n)) (RRef m) key h = (Done (plain_get k ps key), h).
Proof. intros L. cbn. now rewrite (bind_done _ _ _ _ _ (load_done _ _ _ L)). Qed.

Lemma resolve_first_scope call n h key scopes : List.Forall (plain_scope h) scopes ->
  _resolve (ops_at call (S n)) key scopes h = (Done (first_defined (List.map (scope_value h key) scopes)), h).
Proof.
  induction 1 as [|s l P F IH]; [reflexivity|]. cbn [_resolve List.map first_defined].
  destruct P as [T|(m & k & ps & -> & L)].
  - rewrite T. destruct s; try discriminate; exact IH.
  - cbn [truthy]. rewrite (bind_done _ _ _ _ _ (get_plain call n h m k ps key L)).
    cbn [scope_value]. rewrite L. destruct (defined _); [reflexivity|exact IH].
Qed.

Lemma needs_not_ref a prop v h : is_ref v = false -> needsSubResolver a prop v h = (Done false, h).
Proof. destruct v; try discriminate; reflexivity. Qed.

Lemma prefixes_first call n h prop ps scopes x :
  List.Forall (plain_scope h) scopes ->
  is_ref (first_defined (candidates h prop ps scopes)) = false ->
  _resolveWithPrefixes call (ops_at call (S n)) (S n) prop ps scopes x h
  = (Done (first_defined (candidates h prop ps scopes)), h).
Proof.
  intros F. induction ps as [|p ps IH]; [reflexivity|].
  unfold candidates. cbn [List.map List.concat _resolveWithPrefixes]. rewrite first_defined_app.
  rewrite (bind_done _ _ _ _ _ (resolve_first_scope call n h _ _ F)).
  destruct (defined (first_defined (List.map _ scopes))) eqn:D; [|exact IH].
  intros R. now rewrite (bind_done _ _ _ _ _ (needs_not_ref _ prop _ h R)).
Qed.

Lemma update_resolver_done h l r f : h !! l = Some (Resolver r) ->
  update_resolver l f h = (Done tt, <[l := Resolver (f r)]> h).
Proof. intros L. unfold update_resolver. now rewrite (bind_done _ _ _ _ _ (load_done _ _ _ L)). Qed.
Lemma resolver_read call n h l r prop : h !! l = Some (Resolver r) ->
  get (ops_at call (S n)) (RRef l) prop h = resolver_get call (ops_at call n) n l r prop h.
Proof. intros L. cbn [ops_at step_ops get get_step]. now rewrite (bind_done _ _ _ _ _ (load_done _ _ _ L)). Qed.
Lemma lookup_set (h : heap) l (o o' : object) : h !! l = Some o -> (<[l := o']> h : heap) !! l = Some o'.
Proof. intros L. apply list_lookup_insert_eq. now apply lookup_lt_Some in L. Qed.

Lemma pget_pput {V} k (v : V) ps : pget k (pput k v ps) = Some v.
Proof.
  induction ps as [|[j w] ps IH]; cbn; [now rewrite String.eqb_refl|].
  destruct (String.eqb k j) eqn:E; cbn; rewrite E; auto.
Qed.
Lemma read_cached call n h l r prop v : h !! l = Some (Resolver r) -> pget prop (rcache r) = Some v ->
  get (ops_at call (S n)) (RRef l) prop h = (Done v, h).
Proof.
  intros L C. rewrite (resolver_read _ _ _ _ _ _ L). unfold resolver_get, resolver_own. now rewrite C.
Qed.

(** C29: through a resolver over plain scopes, an option is the first value defined under
    one of the prefixed names, the prefixes taking precedence over the scopes; it is
    kept, so reading it again gives the same and changes nothing. *)
Theorem option_first_defined call n h l r prop :
  let v := first_defined (candidates h prop (prefixes r) (scopes r)) in
  let h' : heap := <[l := Resolver (set_rcache (pput prop v) r)]> h in
  h !! l = Some (Resolver r) -> resolver_own l r prop = None ->
  List.Forall (plain_scope h) (scopes r) -> is_ref v = false ->
  get (ops_at call (S (S n))) (RRef l) prop h = (Done v, h') /\
  get (ops_at call (S (S n))) (RRef l) prop h' = (Done v, h').
Proof.
  intros v h' L Ow F R. split.
  - rewrite (resolver_read _ _ _ _ _ _ L). unfold resolver_get. rewrite Ow.
    rewrite (bind_done _ _ _ _ _ (prefixes_first call n h prop _ _ (RRef l) F R)).
    now rewrite (bind_done _ _ _ _ _ (update_resolver_done _ _ _ _ L)).
  - apply read_cached with (r := set_rcache (pput prop v) r); [now apply lookup_set with (o := Resolver r)|].
    apply pget_pput.
Qed.

(** *** Writing through a resolver *)
Lemma pdel_pput {V} k (v : V) ps : pdel k (pput k v ps) = pdel k ps.
Proof.
  unfold pdel. induction ps as [|[j w] ps IH]; cbn; [now rewrite String.eqb_refl|].
  destruct (String.eqb k j) eqn:E; cbn; rewrite E; cbn; [reflexivity|now rewrite IH].
Qed.
Lemma pget_pdel {V} k (ps : props V) : pget k (pdel k ps) = None.
Proof.
  unfold pdel. induction ps as [|[j w] ps IH]; cbn; [reflexivity|].
  destruct (String.eqb k j) eqn:E; cbn; [exact IH|now rewrite E].
Qed.

Definition written (prop : string) (v : val) (m : nat) (r : resolver) : resolver :=
  set_rkeys None (set_rcache (pput prop v) (set_rstorage (RRef m) r)).
Definition deleted (prop : string) (r : resolver) : resolver :=
  set_rkeys None (set_rcache (pdel prop) r).

Section Writing.
Context (call : string -> list val -> script) (n : nat) (h : heap) (l m : nat) (r : resolver).
Context (rest : list val) (k : kind) (ps : props val) (prop : string).
Hypothesis L : h !! l = Some (Resolver r).
Hypothesis T : getTarget r = FirstScope.
Hypothesis Sc : scopes r = RRef m :: rest.
Hypothesis Lm : h !! m = Some (Plain k ps).

Lemma resolver_not_scope : l <> m.
Proof. intros ->. congruence. Qed.

Lemma put_done v : rstorage r = None \/ rstorage r = Some (RRef m) ->
  put (ops_at call (S (S n))) (RRef l) prop v h
  = (Done tt, <[l := Resolver (written prop v m r)]> (<[m := Plain k (pput prop v ps)]> h) : heap).
Proof.
  intros St. pose proof resolver_not_scope as N.
  cbn [ops_at step_ops put put_step]. rewrite (bind_done _ _ _ _ _ (load_done _ _ _ L)).
  unfold resolver_put, resolver_target. rewrite T, Sc. cbn [nth].
  erewrite bind_done. 2: { destruct St as [-> | ->]; reflexivity. }
  rewrite (bind_done _ _ _ _ _ (update_resolver_done _ _ _ _ L)).
  set (h1 := <[l := _]> h : heap).
  assert (M1 : h1 !! m = Some (Plain k ps)) by (etransitivity; [now apply list_lookup_insert_ne|exact Lm]).
  erewrite bind_done. 2: { cbn -[pput]. erewrite bind_done by (apply load_done; exact M1). reflexivity. }
  set (h2 := <[m := _]> h1 : heap).
  assert (L2 : h2 !! l = Some (Resolver (set_rstorage (RRef m) r))).
  { etransitivity; [now apply list_lookup_insert_ne|]. now apply lookup_set with (o := Resolver r). }
  erewrite bind_done by (apply update_resolver_done; exact L2).
  erewrite update_resolver_done; [|eapply lookup_set; exact L2].
  f_equal. unfold h2, h1. change heap with (list object).
  rewrite list_insert_insert_eq, list_insert_insert_ne, list_insert_insert_eq by auto.
  now apply list_insert_insert_ne.
Qed.

Lemma del_done :
  del (ops_at call (S (S n))) (RRef l) prop h
  = (Done tt, <[m := Plain k (pdel prop ps)]> (<[l := Resolver (deleted prop r)]> h) : heap).
Proof.
  pose proof resolver_not_scope as N.
  cbn [ops_at step_ops del del_step]. rewrite (bind_done _ _ _ _ _ (load_done _ _ _ L)).
  unfold resolver_del. rewrite (bind_done _ _ _ _ _ (update_resolver_done _ _ _ _ L)).
  erewrite bind_done by (apply update_resolver_done; eapply lookup_set; exact L).
  rewrite Sc. cbn -[pdel]. set (h2 := <[l := _]> (<[l := _]> h)).
  assert (M2 : h2 !! m = Some (Plain k ps)).
  { etransitivity; [now apply list_lookup_insert_ne|].
    etransitivity; [now apply list_lookup_insert_ne|exact Lm]. }
  erewrite bind_done by (apply load_done; exact M2).
  unfold store, h2. f_equal. f_equal. change heap with (list object). now rewrite list_insert_insert_eq.
Qed.
End Writing.

(** The properties a resolver's target has besides what it keeps. *)
Definition reserved (prop : string) : bool :=
  existsb (String.eqb prop)
    ["_cacheable"; "_fallback"; "_storage"; "_scopes"; "_rootScopes"; "_getTarget"; "override"; "_keys"].
Lemma not_reserved_own l r prop :
  reserved prop = false -> pget prop (rcache r) = None -> resolver_own l r prop = None.
Proof.
  unfold reserved, resolver_own. intros R C. rewrite C. cbn [existsb] in R |- *.
  repeat (apply orb_false_elim in R as [? R]). now repeat match goal with H : String.eqb _ _ = _ |- _ => rewrite H end.
Qed.

(** Heaps that agree on the plain scopes have the same candidates. *)
Lemma candidates_agree h h' prop prefixes scopes :
  (forall s key, In s scopes -> scope_value h key s = scope_value h' key s) ->
  candidates h prop prefixes scopes = candidates h' prop prefixes scopes.
Proof.
  intros H. unfold candidates. f_equal. apply List.map_ext. intros p.
  apply map_ext_in. auto.
Qed.

(** Reading an option that the resolver does not keep. *)
Lemma read_candidates call n h l r prop :
  let v := first_defined (candidates h prop (prefixes r) (scopes r)) in
  h !! l = Some (Resolver r) -> resolver_own l r prop = None ->
  List.Forall (plain_scope h) (scopes r) -> is_ref v = false ->
  fst (get (ops_at call (S (S n))) (RRef l) prop h) = Done v.
Proof.
  intros v L Ow F R. rewrite (resolver_read _ _ _ _ _ _ L). unfold resolver_get. rewrite Ow.
  rewrite (bind_done _ _ _ _ _ (prefixes_first call n h prop _ _ (RRef l) F R)).
  now rewrite (bind_done _ _ _ _ _ (update_resolver_done _ _ _ _ L)).
Qed.

Section Deleting.
Context (h : heap) (l m : nat) (r : resolver) (k : kind) (ps : props val) (o : object).
Hypothesis L : h !! l = Some (Resolver r).
Hypothesis Lm : h !! m = Some (Plain k ps).
Hypothesis F : List.Forall (plain_scope h) (scopes r).

Lemma plain_scopes_kept : forall ps', List.Forall (plain_scope (<[m := Plain k ps']> (<[l := o]> h))) (scopes r).
Proof.
  intros ps'. eapply List.Forall_impl; [|exact F]. intros s [P|(j & k' & q & -> & J)]; [now left|right].
  destruct (decide (j = m)) as [->|N].
  - exists m, k, ps'. split; [reflexivity|]. eapply lookup_set. etransitivity; [|exact Lm].
    apply list_lookup_insert_ne. intros ->. congruence.
  - exists j, k', q. split; [reflexivity|].
    etransitivity; [now apply list_lookup_insert_ne|].
    etransitivity; [apply list_lookup_insert_ne; intros ->; congruence|exact J].
Qed.

Lemma candidates_kept ps' prop prefixes :
  candidates (<[m := Plain k ps']> (<[l := o]> h)) prop prefixes (scopes r)
  = candidates (<[m := Plain k ps']> h) prop prefixes (scopes r).
Proof.
  apply candidates_agree. intros s key I. eapply List.Forall_forall in F; [|exact I].
  destruct F as [P|(j & k' & q & -> & J)]; [now destruct s|]. cbn [scope_value].
  destruct (decide (j = m)) as [->|N].
  - rewrite (lookup_set (<[l := o]> h) m (Plain k ps) (Plain k ps')), (lookup_set h m (Plain k ps)); auto.
    etransitivity; [|exact Lm]. apply list_lookup_insert_ne. intros ->. congruence.
  - assert (A : (<[m := Plain k ps']> h : heap) !! j = h !! j) by now apply list_lookup_insert_ne.
    rewrite A. replace ((<[m := Plain k ps']> (<[l := o]> h) : heap) !! j) with (h !! j); [reflexivity|].
    symmetry. etransitivity; [now apply list_lookup_insert_ne|].
    apply list_lookup_insert_ne. intros ->. congruence.
Qed.
End Deleting.

(** C37: for a resolver that is no sub-resolver, over scopes that are plain objects (or
    skipped), and an option that is none of the proxy's own properties: setting it, the
    first time or again, writes it into the first scope and nowhere else, and it is then
    read back.  Deleting it afterwards takes it out of that scope and forgets the kept
    value: the next read gives the first value defined under the resolver's prefixes in
    its scopes, the first one now without the option (for a value that is not an
    object). *)
Theorem option_set_delete call n h l r m rest k ps prop v :
  let inherited := first_defined
    (candidates (<[m := Plain k (pdel prop ps)]> h) prop (prefixes r) (scopes r)) in
  h !! l = Some (Resolver r) -> rstorage r = None \/ rstorage r = Some (RRef m) ->
  getTarget r = FirstScope -> scopes r = RRef m :: rest -> h !! m = Some (Plain k ps) ->
  List.Forall (plain_scope h) (scopes r) -> reserved prop = false -> is_ref inherited = false ->
  exists h' h'',
    put (ops_at call (S (S n))) (RRef l) prop v h = (Done tt, h') /\
    h' !! m = Some (Plain k (pput prop v ps)) /\
    get (ops_at call (S (S n))) (RRef l) prop h' = (Done v, h') /\
    del (ops_at call (S (S n))) (RRef l) prop h' = (Done tt, h'') /\
    h'' !! m = Some (Plain k (pdel prop ps)) /\
    fst (get (ops_at call (S (S n))) (RRef l) prop h'') = Done inherited /\
    (forall i, i <> l -> i <> m -> h' !! i = h !! i /\ h'' !! i = h !! i).
Proof.
  intros inh L St T Sc Lm F R I. assert (N : l <> m) by (intros ->; congruence).
  eexists. eexists. split; [eapply put_done; eassumption|].
  set (h' := <[l := _]> (<[m := _]> h) : heap).
  assert (M' : h' !! m = Some (Plain k (pput prop v ps))).
  { etransitivity; [now apply list_lookup_insert_ne|]. eapply lookup_set. exact Lm. }
  assert (L' : h' !! l = Some (Resolver (written prop v m r))).
  { eapply lookup_set. etransitivity; [now apply list_lookup_insert_ne|exact L]. }
  split; [exact M'|]. split; [eapply read_cached; [exact L'|apply pget_pput]|].
  split; [eapply del_done; eassumption|]. rewrite pdel_pput.
  split; [eapply lookup_set; etransitivity; [now apply list_lookup_insert_ne|exact M']|].
  split; [|intros i Nl Nm; unfold h'; split;
    repeat (etransitivity; [apply list_lookup_insert_ne; congruence|]); reflexivity].
  set (r'' := deleted prop (written prop v m r)).
  assert (E : (<[m := Plain k (pdel prop ps)]> (<[l := Resolver r'']> h') : heap)
              = <[m := Plain k (pdel prop ps)]> (<[l := Resolver r'']> h)).
  { unfold h'. change heap with (list object).
    now rewrite list_insert_insert_eq, (list_insert_insert_ne _ l m), list_insert_insert_eq by auto. }
  match goal with |- fst (get _ _ _ ?X) = _ => replace X with
    (<[m := Plain k (pdel prop ps)]> (<[l := Resolver r'']> h) : heap) by (symmetry; exact E) end.
  unfold inh. rewrite <- (candidates_kept h l m r k ps (Resolver r'') L Lm F).
  apply (read_candidates call n _ l r''); [|apply not_reserved_own; [exact R|apply pget_pdel]|
    exact (plain_scopes_kept h l m r k ps (Resolver r'') L Lm F _)|].
  - etransitivity; [now apply list_lookup_insert_ne|]. eapply lookup_set. exact L.
  - change (is_ref (first_defined (candidates (<[m := Plain k (pdel prop ps)]> (<[l := Resolver r'']> h))
      prop (prefixes r) (scopes r))) = false).
    now rewrite (candidates_kept h l m r k ps (Resolver r'') L Lm F).
Qed.

(** *** Fallbacks *)
Lemma set_add_prefix v s : exists t, set_add v s = (s ++ t)%list.
Proof. unfold set_add. destruct (existsb _ s); [exists []; now rewrite app_nil_r|now exists [v]]. Qed.

Section Fallbacks.
Context (call : string -> list val -> script) (a : ops) (h : heap) (parents : list val) (used : string -> Prop) (rank : string -> nat).
(** What the scopes say in the heap [h]: a key in use names a scope or nothing in each
    of them, and the fallback of a scope found is nothing, its own key, or a key in use
    of smaller rank. *)
Definition falls_below (k : string) (f : val) : Prop :=
  f = RUndef \/ f = RBool false \/ exists k', f = RStr k' /\ (k' = k \/ used k' /\ (rank k' < rank k)%nat).
Hypothesis found : forall k p, used k -> In p parents -> exists s, getScope a (RStr k) p h = (Done s, h) /\
  (truthy s = true -> exists f, get a s "_fallback" h = (Done f, h) /\ falls_below k f).

Lemma addScopes_next ps set k pf item : used k -> incl ps parents ->
  exists key set', addScopes call a set ps (RStr k) pf item h = (Done (key, set'), h) /\
    (exists t, set' = set ++ t)%list /\
    (truthy key = false \/ exists k', key = RStr k' /\ used k' /\ (rank k' < rank k)%nat).
Proof.
  intros U. revert set. induction ps as [|p ps IH]; intros set I.
  { exists (RBool false), set. cbn. split; [reflexivity|]. split; [exists []; now rewrite app_nil_r|now left]. }
  apply incl_cons_inv in I as [Ip Il]. destruct (found k p U Ip) as (s & G & F).
  cbn [addScopes]. rewrite (bind_done _ _ _ _ _ G). destruct (truthy s) eqn:Ts.
  - destruct (F eq_refl) as (f & Gf & B). rewrite (bind_done _ _ _ _ _ Gf).
    erewrite bind_done by (destruct B as [-> |[-> |(k' & -> & _)]]; reflexivity).
    destruct (defined f && negb (same f (RStr k)) && negb (same f pf)) eqn:E.
    + exists f, (set_add s set). split; [reflexivity|]. split; [apply set_add_prefix|].
      destruct B as [-> |[-> |(k' & -> & [-> |R])]]; [now left|now left| |right; eauto].
      cbn in E. rewrite String.eqb_refl in E. discriminate.
    + destruct (IH (set_add s set) Il) as (key & set' & E' & (t & ->) & K). rewrite E'.
      destruct (set_add_prefix s set) as [t' ->]. eexists _, _. split; [reflexivity|].
      split; [exists (t' ++ t)%list; now rewrite app_assoc|exact K].
  - destruct (same s (RBool false) && _ && _); [|now apply IH].
    exists RNull, set. split; [reflexivity|]. split; [exists []; now rewrite app_nil_r|now left].
Qed.

(** When the fallbacks of the scopes do not go in a circle, collecting the scopes of a
    key ends after as many rounds as the key's rank, and only adds scopes after those
    already in the set. *)
Theorem fallbacks_end set k pf item fuel : used k -> (rank k < fuel)%nat -> k <> "" ->
  exists key set', addScopesFromKey call a fuel set parents (RStr k) pf item h = (Done (key, set'), h) /\
    truthy key = false /\ exists t, set' = (set ++ t)%list.
Proof.
  revert set k. induction fuel as [|fuel IH]; intros set k U R K; [lia|].
  cbn [addScopesFromKey]. replace (truthy (RStr k)) with true
    by (symmetry; cbn; now apply negb_true_iff, String.eqb_neq).
  destruct (addScopes_next parents set k pf item U (incl_refl _)) as (key & set' & E & (t & ->) & B).
  rewrite (bind_done _ _ _ _ _ E). cbn [fst snd].
  assert (End : forall key, truthy key = false -> exists key0 set',
    addScopesFromKey call a fuel (set ++ t) parents key pf item h = (Done (key0, set'), h) /\
    truthy key0 = false /\ exists t', set' = (set ++ t')%list).
  { intros key0 F. exists key0, (set ++ t)%list.
    split; [destruct fuel; cbn [addScopesFromKey]; now rewrite F|eauto]. }
  destruct B as [F|(k' & -> & Uk & Rk)]; [now apply End|].
  destruct (String.eqb k' "") eqn:Ek; [apply End; cbn; now rewrite Ek|].
  apply String.eqb_neq in Ek. destruct (IH (set ++ t)%list k' Uk ltac:(lia) Ek) as (key & s' & E' & F & (t' & ->)).
  rewrite E'. eexists _, _. split; [reflexivity|]. split; [exact F|].
  exists (t ++ t')%list. now rewrite app_assoc.
Qed.
End Fallbacks.

(** Two scopes that name each other as their fallback: the loop never ends. *)
Definition circle : heap :=
  [Plain Literal [("a", RRef 1); ("b", RRef 2); ("c", RRef 3)];
   Plain Literal [("_fallback", RStr "b")]; Plain Literal [("_fallback", RStr "c")];
   Plain Literal [("_fallback", RStr "b")]].
Lemma fallback_circle_hangs call n fuel set :
  fst (addScopesFromKey call (ops_at call (S n)) fuel set [RRef 0] (RStr "a") (RStr "a") (RRef 1) circle) = Stuck.
Proof.
  assert (H : forall fuel set, 
    fst (addScopesFromKey call (ops_at call (S n)) fuel set [RRef 0] (RStr "b") (RStr "a") (RRef 1) circle) = Stuck /\
    fst (addScopesFromKey call (ops_at call (S n)) fuel set [RRef 0] (RStr "c") (RStr "a") (RRef 1) circle) = Stuck).
  { induction fuel0 as [|f IH]; intros s; [split; reflexivity|].
    split; [exact (proj2 (IH (set_add (RRef 2) s)))|exact (proj1 (IH (set_add (RRef 3) s)))]. }
  destruct fuel as [|f]; [reflexivity|]. exact (proj1 (H f (set_add (RRef 1) set))).
Qed.

(** *** The keys of a resolver *)
Definition plain_object (h : heap) (scope : val) : Prop :=
  exists m k ps, scope = RRef m /\ h !! m = Some (Plain k ps).
Definition visible (h : heap) (key : string) (scope : val) : Prop :=
  exists m k ps, scope = RRef m /\ h !! m = Some (Plain k ps) /\ pget key ps <> None /\
    String.prefix "_" key = false.

Lemma pget_None {V} k (ps : props V) : pget k ps = None <-> ~ In k (List.map fst ps).
Proof.
  induction ps as [|[j w] ps IH]; cbn; [tauto|]. destruct (String.eqb k j) eqn:E.
  - apply String.eqb_eq in E. subst. split; [discriminate|tauto].
  - apply String.eqb_neq in E. rewrite IH. intuition congruence.
Qed.
Lemma own_keys_In k (ps : props val) : In k (own_keys ps) <-> In k (List.map fst ps).
Proof.
  unfold own_keys. cbv zeta. rewrite in_app_iff. split.
  - intros [I|I]; [apply (Permutation_in _ (sort_perm _ _)) in I|]; now apply filter_In in I as [I _].
  - intros I. destruct (array_index k) eqn:E.
    + left. apply (Permutation_in _ (Permutation_sym (sort_perm _ _))), filter_In. now rewrite E.
    + right. apply filter_In. now rewrite E.
Qed.
Lemma plain_keys call n h m k ps : h !! m = Some (Plain k ps) ->
  Object_keys (ops_at call (S n)) (RRef m) h = (Done (own_keys ps), h).
Proof.
  intros L. cbn [Object_keys ops_at step_ops keys keys_step].
  erewrite bind_done by (erewrite bind_done by (apply load_done; exact L); reflexivity).
  assert (H : forall l, incl l (own_keys ps) -> filterM (own (ops_at call (S n)) (RRef m)) l h = (Done l, h)).
  { induction l as [|x l IH]; intros I; [reflexivity|]. apply incl_cons_inv in I as [Ix Il]. cbn [filterM].
    assert (Px : exists w, pget x ps = Some w).
    { destruct (pget x ps) eqn:E; [eauto|]. apply pget_None in E. apply own_keys_In in Ix. contradiction. }
    destruct Px as [w Px]. cbn [ops_at step_ops own own_step].
    erewrite bind_done by (erewrite bind_done by (apply load_done; exact L); cbv beta iota; rewrite Px; reflexivity).
    now erewrite bind_done by (apply IH; exact Il). }
  apply H, incl_refl.
Qed.
Lemma push_new_In ks s k : In k (fold_left push_new ks s) <-> In k s \/ In k ks.
Proof.
  revert s. induction ks as [|x ks IH]; intros s; cbn [fold_left]; [cbn; tauto|].
  rewrite IH. unfold push_new. destruct (existsb (String.eqb x) s) eqn:E; cbn.
  - apply CoreFacts.existsb_In in E. split; [tauto|]. intros [H|[->|H]]; auto.
  - rewrite in_app_iff. cbn. tauto.
Qed.
Lemma push_new_NoDup ks s : List.NoDup s -> List.NoDup (fold_left push_new ks s).
Proof.
  revert s. induction ks as [|x ks IH]; intros s N; cbn [fold_left]; [exact N|]. apply IH. unfold push_new.
  destruct (existsb (String.eqb x) s) eqn:E; [exact N|]. apply NoDup_snoc; [exact N|].
  intros I. apply CoreFacts.existsb_In in I. congruence.
Qed.
Lemma collect_spec call n h l s : List.Forall (plain_object h) l -> List.NoDup s ->
  exists ks, collect_keys (ops_at call (S n)) l s h = (Done ks, h) /\ List.NoDup ks /\
    forall k, In k ks <-> In k s \/ exists scope, In scope l /\ visible h k scope.
Proof.
  intros F. revert s. induction F as [|x l (m & kd & ps & -> & L) F IH]; intros s N; cbn [collect_keys].
  { exists s. split; [reflexivity|]. split; [exact N|]. intros k. split; [auto|]. now intros [I|(? & [] & _)]. }
  rewrite (bind_done _ _ _ _ _ (plain_keys call n h m kd ps L)).
  set (s' := fold_left push_new _ s).
  destruct (IH s') as (ks & E & N' & S). { now apply push_new_NoDup. }
  exists ks. split; [exact E|]. split; [exact N'|]. intros k. rewrite S. unfold s'. rewrite push_new_In, filter_In, own_keys_In.
  assert (V : visible h k (RRef m) <-> In k (List.map fst ps) /\ negb (String.prefix "_" k) = true).
  { rewrite negb_true_iff. unfold visible. split.
    - intros (m' & k' & ps' & [= <-] & L' & P & U). rewrite L in L'. injection L' as <- <-.
      split; [|exact U]. destruct (in_dec string_dec k (List.map fst ps)) as [I|I]; [exact I|].
      now apply pget_None in I.
    - intros [I U]. exists m, kd, ps. split_and!; auto. intros X. apply pget_None in X. contradiction. }
  rewrite <- V. cbn [In]. split.
  - intros [[I|I]|(x & I & W)]; eauto.
  - intros [I|(x & [<-|I] & W)]; eauto.
Qed.

(** The keys of a resolver over plain objects are, once each, the properties any of its
    scopes has whose name does not start with an underscore; they are kept until
    something is written, and [in] tests membership in them. *)
Theorem resolver_keys call n h l r :
  h !! l = Some (Resolver r) -> rkeys r = None -> List.Forall (plain_object h) (scopes r) ->
  exists ks, let h' := <[l := Resolver (set_rkeys (Some ks) r)]> h : heap in
    keys (ops_at call (S (S n))) (RRef l) h = (Done ks, h') /\
    keys (ops_at call (S (S n))) (RRef l) h' = (Done ks, h') /\
    List.NoDup ks /\
    (forall k, In k ks <-> exists scope, In scope (scopes r) /\ visible h k scope) /\
    (forall k, has (ops_at call (S (S n))) (RRef l) k h = (Done (existsb (String.eqb k) ks), h')).
Proof.
  intros L K F. destruct (collect_spec call n h (scopes r) [] F (List.NoDup_nil _)) as (ks & E & N & Sp).
  assert (G : getKeysFromAllScopes (ops_at call (S n)) l r h
              = (Done ks, <[l := Resolver (set_rkeys (Some ks) r)]> h)).
  { unfold getKeysFromAllScopes. rewrite K. unfold resolveKeysFromAllScopes. rewrite (bind_done _ _ _ _ _ E).
    now rewrite (bind_done _ _ _ _ _ (update_resolver_done _ _ _ _ L)). }
  exists ks. cbv zeta. split_and!.
  - cbn [ops_at step_ops keys keys_step]. rewrite (bind_done _ _ _ _ _ (load_done _ _ _ L)). exact G.
  - cbn [ops_at step_ops keys keys_step].
    erewrite bind_done by (apply load_done; eapply lookup_set; exact L). reflexivity.
  - exact N.
  - intros k. rewrite Sp. cbn. split; [intros [[]|X]; exact X|auto].
  - intros k. cbn [ops_at step_ops has has_step]. rewrite (bind_done _ _ _ _ _ (load_done _ _ _ L)).
    now rewrite (bind_done _ _ _ _ _ G).
Qed.

(** *** Witnesses: two scopes, a resolver over them and a context over the resolver. *)
Definition demo_call (f : string) (args : list val) : script :=
  if String.eqb f "bad" then Fail "boom" else
  if String.eqb f "self" then Read (nth 1 args RUndef) "self" Return else Return (RStr f).
Definition demo : heap :=
  [Plain Literal [("color", RFun "bad"); ("width", RNum 1%js); ("_hidden", RNull)];
   Plain Literal [("width", RNum 2%js); ("radius", RNum 3%js)];
   Plain Literal [];
   Resolver (mkResolver [] None None [RRef 0; RRef 1] ["hover"; ""] [RRef 0; RRef 1] RUndef FirstScope);
   Contextual (mkContextual [] (RRef 3) (RRef 2) RUndef [] default_flags)].

Lemma deeper_same_witness :
  (2 <= 5)%nat /\ get (ops_at demo_call 5) (RRef 3) "radius" demo = get (ops_at demo_call 2) (RRef 3) "radius" demo.
Proof.
  split; [lia|]. apply (deeper_same demo_call 2 5 ltac:(lia) (RRef 3) "radius" RUndef demo). vm_compute. discriminate.
Defined.
Definition demo_contextual : contextual := mkContextual [] (RRef 3) (RRef 2) RUndef [] default_flags.
Definition demo_read : heap := snd (get (ops_at demo_call 2) (RRef 3) "color" demo).
Definition demo_failed : heap := snd (get (ops_at demo_call 3) (RRef 4) "color" demo).
Lemma failed_option_locked_witness :
  get (ops_at demo_call 3) (RRef 4) "color" demo = (Raised "boom", demo_failed) /\
  exists st, get (ops_at demo_call 3) (RRef 4) "color" demo_failed
             = (Raised ("Recursion detected: " ++ String.concat "->" st ++ "->color"), demo_failed).
Proof.
  destruct (failed_option_locked demo_call 2 demo demo_read demo_failed 4 demo_contextual demo_contextual
    "color" "bad" "boom") as [E K]; try reflexivity; [intros []|].
  split; [exact E|].
  exact (K demo_failed (mkContextual [] (RRef 3) (RRef 2) RUndef ["color"] default_flags) 2%nat "bad" demo_failed
    (later_refl _ _) eq_refl eq_refl eq_refl).
Defined.
Lemma option_first_defined_witness :
  get (ops_at demo_call 2) (RRef 3) "width" demo
  = (Done (RNum 1%js), <[3%nat := Resolver (mkResolver [("width", RNum 1%js)] None None [RRef 0; RRef 1] ["hover"; ""]
                                  [RRef 0; RRef 1] RUndef FirstScope)]> demo).
Proof.
  refine (proj1 (option_first_defined demo_call 0 demo 3
    (mkResolver [] None None [RRef 0; RRef 1] ["hover"; ""] [RRef 0; RRef 1] RUndef FirstScope) "width" _ _ _ _));
    try reflexivity.
  constructor; [right; repeat eexists|constructor; [right; repeat eexists|constructor]].
Defined.
Lemma option_set_delete_witness :
  exists h' h'', put (ops_at demo_call 2) (RRef 3) "width" (RNum 5%js) demo = (Done tt, h') /\
    get (ops_at demo_call 2) (RRef 3) "width" h' = (Done (RNum 5%js), h') /\
    del (ops_at demo_call 2) (RRef 3) "width" h' = (Done tt, h'') /\
    fst (get (ops_at demo_call 2) (RRef 3) "width" h'') = Done (RNum 2%js).
Proof.
  edestruct (option_set_delete demo_call 0 demo 3
    (mkResolver [] None None [RRef 0; RRef 1] ["hover"; ""] [RRef 0; RRef 1] RUndef FirstScope)
    0 [RRef 1] Literal [("color", RFun "bad"); ("width", RNum 1%js); ("_hidden", RNull)] "width" (RNum 5%js))
    as (h' & h'' & P & _ & G & D & _ & K & _); try reflexivity; [now left| |exists h', h''; now repeat split].
  constructor; [right; repeat eexists|constructor; [right; repeat eexists|constructor]].
Defined.
Definition demo_chain : heap :=
  [Plain Literal [("point", RRef 1); ("line", RRef 2)];
   Plain Literal [("_fallback", RStr "line")]; Plain Literal [("width", RNum 1%js)]].
Lemma fallbacks_end_witness :
  exists key set', addScopesFromKey demo_call (ops_at demo_call 3) 2 [] [RRef 0] (RStr "point") RUndef RUndef demo_chain
    = (Done (key, set'), demo_chain) /\ truthy key = false.
Proof.
  destruct (fallbacks_end demo_call (ops_at demo_call 3) demo_chain [RRef 0]
    (fun k => In k ["point"; "line"]) (fun k => if String.eqb k "point" then 1%nat else 0%nat))
    with (set := @nil val) (k := "point") (pf := RUndef) (item := RUndef) (fuel := 2%nat)
    as (key & s & E & F & _); [|now left|simpl; lia|discriminate|now exists key, s].
  intros k p [<-|[<-|[]]] [<-|[]].
  - exists (RRef 1). split; [reflexivity|]. intros _. exists (RStr "line"). split; [reflexivity|].
    right. right. exists "line". split; [reflexivity|]. right. split; [right; now left|simpl; lia].
  - exists (RRef 2). split; [reflexivity|]. intros _. exists RUndef. split; [reflexivity|now left].
Defined.
Lemma resolver_keys_witness : exists ks h', keys (ops_at demo_call 2) (RRef 3) demo = (Done ks, h') /\ List.NoDup ks.
Proof.
  edestruct (resolver_keys demo_call 0 demo 3
    (mkResolver [] None None [RRef 0; RRef 1] ["hover"; ""] [RRef 0; RRef 1] RUndef FirstScope)) as (ks & K & _ & N & _);
    [reflexivity|reflexivity|repeat constructor; repeat eexists|]. eauto.
Defined.

End ResolverFacts.
