(* ===== verification/Config.v ===== *)
(** The configuration of a chart (webui/public/chart.js: [mergeScaleConfig] and its
    helpers, [Config]): the scale options are completed from the defaults, and the
    scopes an option is looked up in are collected and cached. *)
From Stdlib Require Import ZArith Lia Bool List Ascii String.
From Stdlib Require Import SpecFloat.
From stdpp Require Import base list.
From S2P Require Import Prelude JsNumber JsString JsArray JsValue HelpersCore Resolver.
Import ListNotations.
Open Scope Z_scope.

(** ** Scale options, as option trees *)
Module ScaleConfig.
Import Obj Js Core.
Local Open Scope string_scope.

(** [a || b]. *)
Definition or_else (a b : value) : value := if truthy a then a else b.
(** [===] of primitive values; objects built by a call are never the same. *)
Definition strict_eq (a b : value) : bool :=
  match a, b with
  | Undefined, Undefined | Null, Null => true
  | VBool x, VBool y => Bool.eqb x y
  | VNum x, VNum y => Num.eq x y
  | VStr x, VStr y => String.eqb x y
  | VFun x, VFun y => String.eqb x y
  | _, _ => false
  end.

Section Stores.
Context (st : stores).

Definition getIndexAxis (type options : value) : value :=
  let datasetDefaults := or_else (index (index (root st) "datasets") (to_str type)) (VObj []) in
  let datasetOptions := or_else (index (or_else (index options "datasets") (VObj [])) (to_str type)) (VObj []) in
  or_else (index datasetOptions "indexAxis")
    (or_else (index options "indexAxis")
      (or_else (index datasetDefaults "indexAxis") (VStr "x"))).

Definition getAxisFromDefaultScaleID (id : string) (indexAxis : value) : value :=
  if String.eqb id "_index_" then indexAxis
  else if String.eqb id "_value_" then (if strict_eq indexAxis (VStr "x") then VStr "y" else VStr "x")
  else VStr id.
Definition getDefaultScaleIDFromAxis (axis indexAxis : value) : string :=
  if strict_eq axis indexAxis then "_index_" else "_value_".
Definition axisFromPosition (position : value) : value :=
  if strict_eq position (VStr "top") || strict_eq position (VStr "bottom") then VStr "x" else
  if strict_eq position (VStr "left") || strict_eq position (VStr "right") then VStr "y" else Undefined.
Definition determineAxis (id : string) (scaleOptions : value) : value :=
  if String.eqb id "x" || String.eqb id "y" then VStr id else
  or_else (index scaleOptions "axis")
    (or_else (axisFromPosition (index scaleOptions "position"))
      (VStr (Str.toLowerCase (Str.take 1 id)))).

Definition type_overrides (type : value) : value := index (overrides st) (to_str type).

(** The ids first given to an axis, and the scales. *)
Record scaling := { firstIDs : obj; scales : obj }.

(** One of the scales the configuration names. *)
Definition config_scale (chartDefaults chartIndexAxis : value) (s : scaling) (kv : string * value) : scaling :=
  let '(id, scaleConf) := kv in
  if negb (isObject scaleConf) || truthy (index scaleConf "_proxy") then s else
  let axis := determineAxis id scaleConf in
  let defaultId := getDefaultScaleIDFromAxis axis chartIndexAxis in
  let defaultScaleOptions := or_else (index chartDefaults "scales") (VObj []) in
  let first := match get (to_str axis) (firstIDs s) with
               | Some v => or_else v (VStr id) | None => VStr id end in
  {| firstIDs := put (to_str axis) first (firstIDs s);
     scales := put id (mergeIf (VObj [])
                 (VArr [VObj [("axis", axis)]; scaleConf; index defaultScaleOptions (to_str axis);
                        index defaultScaleOptions defaultId])) (scales s) |}.

Definition dataset_axis (dataset : value) (type options : value) (defaultID : string) : value :=
  let type := or_else (index dataset "type") type in
  getAxisFromDefaultScaleID defaultID (or_else (index dataset "indexAxis") (getIndexAxis type options)).
Definition dataset_scale_id (first : obj) (dataset axis : value) : string :=
  to_str (or_else (index dataset (to_str axis ++ "AxisID"))
           (or_else (match get (to_str axis) first with Some v => v | None => Undefined end) axis)).
(** One of the default scales of a dataset's type. *)
Definition dataset_scale (first : obj) (configScales type options dataset : value)
    (scales : obj) (kv : string * value) : obj :=
  let '(defaultID, defaultOptions) := kv in
  let axis := dataset_axis dataset type options defaultID in
  let id := dataset_scale_id first dataset axis in
  let scale := match get id scales with Some v => or_else v (VObj []) | None => VObj [] end in
  put id (mergeIf scale (VArr [VObj [("axis", axis)]; index configScales id; defaultOptions])) scales.
Definition dataset_defaults (type dataset : value) : obj :=
  let t := or_else (index dataset "type") type in
  match or_else (index (or_else (type_overrides t) (VObj [])) "scales") (VObj []) with
  | VObj o => o | _ => [] end.
Definition dataset_scales (first : obj) (configScales type options : value) (scales : obj) (dataset : value) : obj :=
  fold_left (dataset_scale first configScales type options dataset) (dataset_defaults type dataset) scales.

(** The defaults of every scale, and of its type. *)
Definition complete_scale (scale : value) : value :=
  mergeIf scale (VArr [index (index (root st) "scales") (to_str (index scale "type")); index (root st) "scale"]).

Definition mergeScaleConfig (type : value) (datasets : list value) (options : value) : obj :=
  let chartDefaults := or_else (type_overrides type) (VObj [("scales", VObj [])]) in
  let configScales := or_else (index options "scales") (VObj []) in
  let chartIndexAxis := getIndexAxis type options in
  let s := fold_left (config_scale chartDefaults chartIndexAxis)
             (match configScales with VObj o => o | _ => [] end) {| firstIDs := []; scales := [] |} in
  let all := fold_left (dataset_scales (firstIDs s) configScales type options) datasets (scales s) in
  List.map (fun kv => (fst kv, complete_scale (snd kv))) all.

Definition initData (data : value) : value :=
  let data := or_else data (VObj []) in
  match data with
  | VObj o =>
      let o := put "datasets" (or_else (index data "datasets") (VArr [])) o in
      VObj (put "labels" (or_else (index data "labels") (VArr [])) o)
  | _ => data
  end.

(** [config.options] is created when missing; the plugins and the scales are then
    always there. *)
Definition initOptions (config : obj) : obj :=
  let options := match or_else (index (VObj config) "options") (VObj []) with VObj o => o | _ => [] end in
  let options := put "plugins" (valueOrDefault (index (VObj options) "plugins") (VObj [])) options in
  let datasets := match index (index (VObj config) "data") "datasets" with VArr l => l | _ => [] end in
  put "options" (VObj (put "scales"
    (VObj (mergeScaleConfig (index (VObj config) "type") datasets (VObj options))) options)) config.
Definition initConfig (config : value) : obj :=
  let o := match or_else config (VObj []) with VObj o => o | _ => [] end in
  initOptions (put "data" (initData (index (VObj o) "data")) o).
End Stores.

End ScaleConfig.

(** ** The scopes of an option *)
Module Config.
Import Heap Resolver.
Local Open Scope string_scope.
Local Open Scope heap_scope.

(** A list of key lists, and the key of [keyCache] it was made under: the lists made by
    [cachedKeys] are the ones whose scopes are cached. *)
Record key_lists := mkKeys { cached_under : option string; lists : list (list string) }.
Definition cachedKeys (keyCache : props (list (list string))) (cacheKey : string)
    (generate : list (list string)) : key_lists * props (list (list string)) :=
  match pget cacheKey keyCache with
  | Some ks => (mkKeys (Some cacheKey) ks, keyCache)
  | None => (mkKeys (Some cacheKey) generate, pput cacheKey generate keyCache)
  end.
Definition datasetScopeKeys kc (datasetType : string) :=
  cachedKeys kc datasetType [["datasets." ++ datasetType; ""]].
Definition datasetAnimationScopeKeys kc (datasetType transition : string) :=
  cachedKeys kc (datasetType ++ ".transition." ++ transition)
    [["datasets." ++ datasetType ++ ".transitions." ++ transition; "transitions." ++ transition];
     ["datasets." ++ datasetType; ""]].
Definition datasetElementScopeKeys kc (datasetType elementType : string) :=
  cachedKeys kc (datasetType ++ "-" ++ elementType)
    [["datasets." ++ datasetType ++ ".elements." ++ elementType; "datasets." ++ datasetType;
      "elements." ++ elementType; ""]].
Definition pluginScopeKeys kc (type id : string) (additionalOptionScopes : list string) :=
  cachedKeys kc (type ++ "-plugin-" ++ id) [("plugins." ++ id) :: additionalOptionScopes].

(** A [Config]: the maps are association lists; arrays of scopes are heap objects and
    compared by identity. *)
Record cached := mkCached { cresolver : val; subPrefixes : list string }.
Record config := mkConfig {
  options : val;
  ctype : string;
  scopeCache : list (val * props nat);
  resolverCache : list (nat * props cached)
}.
(** The stores of the defaults, as objects of the heap. *)
Record default_objects := mkDefaults { defaults : val; overrides : val; descriptors_store : val }.

Definition clearCache (c : config) : config := mkConfig (options c) (ctype c) [] [].

Section Maps.
Context {K V : Type} (eqb : K -> K -> bool).
Fixpoint map_get (k : K) (m : list (K * V)) : option V :=
  match m with
  | [] => None
  | (k', v) :: m' => if eqb k k' then Some v else map_get k m'
  end.
Fixpoint map_set (k : K) (v : V) (m : list (K * V)) : list (K * V) :=
  match m with
  | [] => [(k, v)]
  | (k', v') :: m' => if eqb k k' then (k', v) :: m' else (k', v') :: map_set k v m'
  end.
End Maps.

Definition _cachedScopes (c : config) (mainScope : val) (resetCache : bool) : config * props nat :=
  match map_get same_member mainScope (scopeCache c) with
  | Some cache => if resetCache
      then (mkConfig (options c) (ctype c) (map_set same_member mainScope [] (scopeCache c)) (resolverCache c), [])
      else (c, cache)
  | None => (mkConfig (options c) (ctype c) (map_set same_member mainScope [] (scopeCache c)) (resolverCache c), [])
  end.

Section Scopes.
Context (call : string -> list val -> script) (ms : ops) (depth : nat) (D : default_objects).

Definition addIfFound (set : list val) (obj : val) (key : string) : M (list val) :=
  let! opts := resolveObjectKey ms obj key in
  ret (if defined opts then set_add opts set else set).
Fixpoint addKeys (set : list val) (obj : val) (keys : list string) : M (list val) :=
  match keys with
  | [] => ret set
  | key :: rest => let! set' := addIfFound set obj key in addKeys set' obj rest
  end.

(** [overrides[type] || {}]: the literal is a new object every time. *)
Definition or_new (v : val) : M val := if truthy v then ret v else new_object.
Fixpoint addOverrides (set : list val) (type : string) (keys : list string) : M (list val) :=
  match keys with
  | [] => ret set
  | key :: rest =>
      let! o := get ms (overrides D) type in
      let! o := or_new o in
      let! set' := addIfFound set o key in
      addOverrides set' type rest
  end.

Definition scopes_of_keys (c : config) (mainScope : val) (set : list val) (keys : list string) : M (list val) :=
  let! set := if truthy mainScope then addKeys (set_add mainScope set) mainScope keys else ret set in
  let! set := addKeys set (options c) keys in
  let! set := addOverrides set (ctype c) keys in
  let! set := addKeys set (defaults D) keys in
  addKeys set (descriptors_store D) keys.
Fixpoint collect_scopes (c : config) (mainScope : val) (set : list val) (lists : list (list string)) : M (list val) :=
  match lists with
  | [] => ret set
  | keys :: rest => let! set' := scopes_of_keys c mainScope set keys in collect_scopes c mainScope set' rest
  end.

Definition getOptionScopes (c : config) (mainScope : val) (keyLists : key_lists) (resetCache : bool)
  : M (nat * config) :=
  let '(c, cache) := _cachedScopes c mainScope resetCache in
  match match cached_under keyLists with Some k => pget k cache | None => None end with
  | Some scopes => ret (scopes, c)
  | None =>
      let! set := collect_scopes c mainScope [] (lists keyLists) in
      let! array := match set with
                    | [] => let! o := alloc (Plain NullProto []) in ret [o]
                    | _ => ret set
                    end in
      let! scopes := alloc (array_of array) in
      ret (loc_of scopes,
           match cached_under keyLists with
           | Some k => mkConfig (options c) (ctype c)
                         (map_set same_member mainScope (pput k (loc_of scopes) cache) (scopeCache c)) (resolverCache c)
           | None => c
           end)
  end.

Definition chartOptionScopes (c : config) : M (list val) :=
  let! o := get ms (overrides D) (ctype c) in
  let! o := or_new o in
  let! ds := get ms (defaults D) "datasets" in
  let! d := get ms ds (ctype c) in
  let! d := or_new d in
  let! t := alloc (Plain Literal [("type", RStr (ctype c))]) in
  ret [options c; o; d; t; defaults D; descriptors_store D].

(** *** Resolvers *)
(** [p.toLowerCase().includes('hover')]. *)
Definition hover_prefix (p : string) : bool :=
  match Str.indexOf (Str.toLowerCase p) "hover" with Some _ => true | None => false end.
Definition getResolver (c : config) (scopes : nat) (prefixes : list string) : M (cached * config) :=
  let cache := match map_get Nat.eqb scopes (resolverCache c) with Some m => m | None => [] end in
  let cacheKey := String.concat "," prefixes in
  match pget cacheKey cache with
  | Some k => ret (k, c)
  | None =>
      let! items := items_of (RRef scopes) in
      let! resolver := _createResolver ms items prefixes items RUndef FirstScope in
      let k := mkCached resolver (List.filter (fun p => negb (hover_prefix p)) prefixes) in
      ret (k, mkConfig (options c) (ctype c) (scopeCache c)
                (map_set Nat.eqb scopes (pput cacheKey k cache) (resolverCache c)))
  end.

Definition createResolver (c : config) (scopes : nat) (context : val) (prefixes : list string)
    (descriptorDefaults : flags) : M (val * config) :=
  let! r := getResolver c scopes prefixes in
  let! o := isObject context in
  if o then let! p := _attachContext ms (cresolver (fst r)) context RUndef descriptorDefaults in ret (p, snd r)
  else ret (cresolver (fst r), snd r).

Fixpoint any_function (value : val) (ks : list string) : M bool :=
  match ks with
  | [] => ret false
  | k :: rest =>
      let! v := get ms value k in
      if isFunction v then ret true else any_function value rest
  end.
Definition hasFunction (value : val) : M bool :=
  let! o := isObject value in
  if o then let! ks := keys ms value in any_function value ks else ret false.
Fixpoint need_loop (d : flags) (proxy : val) (names : list string) : M bool :=
  match names with
  | [] => ret false
  | prop :: rest =>
      let! scriptable := isScriptable call ms d prop in
      let! indexable := isIndexable call ms d prop in
      let! value := if indexable || scriptable then get ms proxy prop else ret (RBool false) in
      let! f := if scriptable then (if isFunction value then ret true else hasFunction value) else ret false in
      let! a := if f then ret true else if indexable then isArray value else ret false in
      if a then ret true else need_loop d proxy rest
  end.
Definition needContext (proxy : val) (names : list string) : M bool :=
  let! d := read_flags ms proxy default_flags in need_loop d proxy names.

Fixpoint read_names (o : val) (names : list string) (result : props val) : M (props val) :=
  match names with
  | [] => ret result
  | prop :: rest => let! v := get ms o prop in read_names o rest (pput prop v result)
  end.
(** The named options and whether they can be shared ([$shared]). *)
Definition resolveNamedOptions (c : config) (scopes : nat) (names : list string) (context : val)
    (prefixes : list string) : M (props val * config) :=
  let! r := getResolver c scopes prefixes in
  let resolver := cresolver (fst r) in
  let! need := needContext resolver names in
  if need then
    let! ctx := if isFunction context then apply call ms context [] else ret context in
    let! sub := createResolver (snd r) scopes ctx (subPrefixes (fst r)) default_flags in
    let! options := _attachContext ms resolver ctx (fst sub) default_flags in
    let! result := read_names options names [("$shared", RBool false)] in
    ret (result, snd sub)
  else
    let! result := read_names resolver names [("$shared", RBool true)] in
    ret (result, snd r).
End Scopes.
End Config.


Module ScaleConfigFacts.
Import Obj Js Core CoreFacts ScaleConfig.
Local Open Scope string_scope.

Section Facts.
Context (st : stores).
Hypothesis wf_root : wf (root st).
Hypothesis wf_overrides : wf (overrides st).

Lemma wf_index v k : wf v -> wf (index v k).
Proof.
  intros W. destruct v as [| | | |s|l|o|]; try exact I; cbn [index].
  - now destruct (String.eqb k "length").
  - apply wf_arr in W. rewrite List.Forall_forall in W. destruct (String.eqb k "length"); [exact I|].
    destruct (List.find _ _) eqn:E; [|exact I]. apply find_some in E as [E _]. apply in_seq in E.
    apply W, nth_In. lia.
  - destruct (get k o) as [x|] eqn:G; [exact (wf_get _ _ _ W G)|exact I].
Qed.
Lemma wf_or a b : wf a -> wf b -> wf (or_else a b).
Proof. unfold or_else. now destruct (truthy a). Qed.
Lemma wf_determineAxis id conf : wf conf -> wf (determineAxis id conf).
Proof.
  intros W. unfold determineAxis. destruct (_ || _); [exact I|]. apply wf_or; [now apply wf_index|].
  apply wf_or; [|exact I]. unfold axisFromPosition. repeat match goal with |- context [if ?b then _ else _] => destruct b end; exact I.
Qed.
Lemma wf_axis a : wf a -> wf (VObj [("axis", a)]).
Proof. intros W. split; [repeat constructor; intros []|now split]. Qed.
Lemma wf_type t : wf (type_overrides st t).
Proof. now apply wf_index. Qed.
Lemma wf_empty : wf (VObj []).
Proof. split; [constructor|exact I]. Qed.
Hint Resolve wf_index wf_or wf_determineAxis wf_axis wf_type wf_empty : core.

Lemma wf_indexAxis t o : wf o -> wf (getIndexAxis st t o).
Proof. intros W. unfold getIndexAxis. repeat first [apply wf_or|apply wf_index]; auto; exact I. Qed.
Lemma wf_dataset_axis d t o id : wf d -> wf o -> wf (dataset_axis st d t o id).
Proof.
  intros Wd Wo. unfold dataset_axis, getAxisFromDefaultScaleID.
  destruct (String.eqb id "_index_"); [apply wf_or; auto using wf_indexAxis|].
  destruct (String.eqb id "_value_"); [|exact I]. now destruct (strict_eq _ _).
Qed.

(** Dataset scales and completion only add to a scale. *)
Lemma dataset_scale_keeps first cs type options dataset scales kv p id v :
  wf dataset -> wf options -> wf cs -> wf (snd kv) -> isObject v = false ->
  (exists t, get id scales = Some (VObj t)) ->
  at_path (id :: p) (VObj scales) = Some v ->
  at_path (id :: p) (VObj (dataset_scale st first cs type options dataset scales kv)) = Some v.
Proof.
  intros Wd Wo Wc Wk O (t & G) A. destruct kv as [did dopts]. cbn [dataset_scale]. cbv zeta.
  set (id' := dataset_scale_id _ _ _). cbn [at_path] in A |- *. rewrite get_put. rewrite G in A.
  destruct (String.eqb id id') eqn:E; [|now rewrite G]. apply String.eqb_eq in E. rewrite <- E, G.
  cbn [or_else truthy]. apply mergeIf_keeps; auto. 
  repeat constructor; auto; try (apply wf_axis, wf_dataset_axis; auto); now apply wf_index.
Qed.

Lemma mergeIf_obj t s : exists t', mergeIf (VObj t) s = VObj t'.
Proof.
  unfold mergeIf. revert t. induction (sources s) as [|x l IH]; intros t; cbn [fold_left]; [eauto|].
  destruct x; apply IH.
Qed.
Lemma dataset_scale_obj first cs type options dataset scales kv id :
  (exists t, get id scales = Some (VObj t)) ->
  exists t, get id (dataset_scale st first cs type options dataset scales kv) = Some (VObj t).
Proof.
  intros (t & G). destruct kv as [did dopts]. cbn [dataset_scale]. cbv zeta. rewrite get_put.
  destruct (String.eqb id _) eqn:E; [|eauto]. apply String.eqb_eq in E. rewrite <- E, G.
  cbn [or_else truthy]. match goal with |- context [mergeIf (VObj t) ?s] => destruct (mergeIf_obj t s) as [t' ->] end. eauto.
Qed.

(** Two options objects and the scale they describe: what is there stays. *)
Definition settled (scales : obj) (id : string) (p : list string) (v : value) : Prop :=
  (exists t, get id scales = Some (VObj t)) /\ at_path (id :: p) (VObj scales) = Some v.

Lemma dataset_scales_settled first cs type options id p v datasets scales :
  wf options -> wf cs -> isObject v = false -> List.Forall wf datasets ->
  settled scales id p v ->
  settled (fold_left (dataset_scales st first cs type options) datasets scales) id p v.
Proof.
  intros Wo Wc O F. revert scales. induction F as [|d ds Wd F IH]; intros scales S; cbn [fold_left]; [exact S|].
  apply IH. unfold dataset_scales.
  assert (Wk : List.Forall (fun kv => wf (snd kv)) (dataset_defaults st type d)).
  { unfold dataset_defaults. set (x := or_else (index _ _) _).
    assert (Wx : wf x) by (apply wf_or; auto). destruct x; try constructor. now apply wf_obj. }
  revert scales S. induction Wk as [|kv l Wkv Wl IHl]; intros scales S; cbn [fold_left]; [exact S|].
  apply IHl. destruct S as [G A]. split; [now apply dataset_scale_obj|now apply dataset_scale_keeps].
Qed.

Lemma mergeIf_sources t l1 l2 : mergeIf t (VArr (l1 ++ l2)) = mergeIf (mergeIf t (VArr l1)) (VArr l2).
Proof. apply fold_left_app. Qed.

(** The scale of an id the configuration names starts from its options. *)
Lemma config_scale_settled cd axis s id o k p v :
  wf cd -> wf (VObj o) -> truthy (index (VObj o) "_proxy") = false -> isObject v = false ->
  isValidKey k = true -> k <> "axis" -> at_path (k :: p) (VObj o) = Some v ->
  settled (scales (config_scale cd axis s (id, VObj o))) id (k :: p) v.
Proof.
  intros Wd Wo P O K N A. cbn [config_scale isObject negb orb]. rewrite P. cbv zeta. cbn [scales].
  set (ax := determineAxis id (VObj o)). set (d1 := index _ (to_str ax)). set (d2 := index _ _).
  destruct (mergeIf_obj [] (VArr [VObj [("axis", ax)]; VObj o; d1; d2])) as [t Et]. split.
  - exists t. now rewrite get_put_eq, Et.
  - cbn [at_path]. rewrite get_put_eq. fold (at_path (k :: p)).
    change ([VObj [("axis", ax)]; VObj o; d1; d2]) with ([VObj [("axis", ax)]; VObj o] ++ [d1; d2])%list.
    rewrite mergeIf_sources. apply (mergeIf_keeps (k :: p)); [|cbn [mergeIf sources fold_left]|exact O].
    + repeat constructor; unfold d1, d2; auto.
    + rewrite merge1_fold. cbn [fold_left]. unfold step, _mergerIf. cbn [fst snd isValidKey existsb negb get].
      change (isValidKey "axis") with true. cbn [has get]. cbn [put].
      apply merge1_fresh; auto. cbn [get]. apply String.eqb_neq in N. now rewrite N.
Qed.

Lemma config_scale_other cd axis s kv id p v : fst kv <> id ->
  settled (scales s) id p v -> settled (scales (config_scale cd axis s kv)) id p v.
Proof.
  destruct kv as [id' conf]. cbn [fst]. intros N [G A]. cbn [config_scale].
  destruct (_ || _); [now split|]. cbv zeta. cbn [scales]. unfold settled. cbn [at_path].
  rewrite get_put_ne by congruence. now split.
Qed.

Lemma get_map (f : value -> value) k (o : obj) :
  get k (List.map (fun kv => (fst kv, f (snd kv))) o) = option_map f (get k o).
Proof. induction o as [|[j w] o IH]; cbn; [reflexivity|]. now destruct (String.eqb k j). Qed.

(** An option the configuration gives to a scale is there in the scale options the
    chart uses, whatever the defaults of the chart type, of the datasets' types, of the
    scale type and of all scales say. *)
Theorem user_scale_option_kept type datasets options confs id o k p v :
  wf options -> List.Forall wf datasets ->
  index options "scales" = VObj confs -> get id confs = Some (VObj o) ->
  truthy (index (VObj o) "_proxy") = false ->
  at_path (k :: p) (VObj o) = Some v -> isObject v = false -> isValidKey k = true -> k <> "axis" ->
  at_path (id :: k :: p) (VObj (mergeScaleConfig st type datasets options)) = Some v.
Proof.
  intros Wo Wd Es G P A O K N. unfold mergeScaleConfig. rewrite Es. cbn [or_else truthy]. cbv zeta.
  assert (Wc : wf (VObj confs)) by (rewrite <- Es; auto).
  set (cd := or_else (type_overrides st type) _). set (ax := getIndexAxis st type options).
  assert (Wcd : wf cd).
  { apply wf_or; auto. split; [repeat constructor; intros []|now split; [apply wf_empty|]]. }
  set (s := fold_left (config_scale cd ax) confs _).
  assert (S : settled (scales s) id (k :: p) v).
  { unfold s. destruct (wf_obj _ Wc) as [Nd _]. pose proof (get_In _ _ _ G) as I.
    apply in_split in I as (l1 & l2 & ->). rewrite fold_left_app. cbn [fold_left].
    assert (Nl : ~ In id (List.map fst l2)).
    { unfold keys in Nd. rewrite map_app in Nd. cbn [List.map fst] in Nd. apply List.NoDup_remove_2 in Nd.
      intros I. apply Nd, in_app_iff. now right. }
    assert (S0 := config_scale_settled cd ax (fold_left (config_scale cd ax) l1 {| firstIDs := []; scales := [] |})
      id o k p v Wcd (wf_get _ _ _ Wc G) P O K N A).
    revert Nl S0. clear. generalize (config_scale cd ax (fold_left (config_scale cd ax) l1
      {| firstIDs := []; scales := [] |}) (id, VObj o)).
    induction l2 as [|kv l2 IH]; intros s Nl S0; cbn [fold_left]; [exact S0|]. cbn in Nl.
    apply IH; [tauto|]. apply config_scale_other; [intros E; tauto|exact S0]. }
  apply (dataset_scales_settled (firstIDs s) (VObj confs) type options id (k :: p) v datasets) in S; auto.
  destruct S as [(t & Gt) At]. cbn [at_path] in At |- *. rewrite get_map. rewrite Gt in At |- *. cbn [option_map].
  unfold complete_scale. apply (mergeIf_keeps (k :: p)); auto. repeat constructor; auto.
Qed.
End Facts.

Definition demo_stores : stores := {|
  root := VObj [("datasets", VObj [("line", VObj [("indexAxis", VStr "x")])]);
                ("scales", VObj [("linear", VObj [("ticks", VNum 1%js)])]); ("scale", VObj [("display", VBool true)])];
  descriptors := VObj [];
  overrides := VObj [("line", VObj [("scales", VObj [("_index_", VObj [("type", VStr "category")]);
                                                     ("_value_", VObj [("type", VStr "linear")])])])] |}.
Definition demo_options : value := VObj [("scales", VObj [("y", VObj [("display", VBool false)])])].
Definition demo_dataset : value := VObj [("type", VStr "line")].
Ltac wf_tree := cbn; repeat split; repeat constructor; cbn; intuition discriminate.
Lemma user_scale_option_kept_witness :
  at_path ["y"; "display"] (VObj (mergeScaleConfig demo_stores (VStr "line") [demo_dataset] demo_options))
  = Some (VBool false).
Proof.
  apply (user_scale_option_kept demo_stores) with (confs := [("y", VObj [("display", VBool false)])])
    (o := [("display", VBool false)]); try reflexivity; try discriminate; wf_tree.
Defined.
End ScaleConfigFacts.

Module ConfigFacts.
Import Heap Resolver ResolverFacts Config.
Local Open Scope string_scope.
Local Open Scope heap_scope.

Lemma map_get_set {K V} (eqb : K -> K -> bool) k (v : V) m :
  eqb k k = true -> map_get eqb k (map_set eqb k v m) = Some v.
Proof.
  intros R. induction m as [|[k' v'] m IH]; cbn; [now rewrite R|].
  destruct (eqb k k') eqn:E; cbn; rewrite E; auto.
Qed.
Lemma same_member_refl v : same_member v v = true.
Proof.
  destruct v; cbn; auto using Bool.eqb_reflx, String.eqb_refl, Nat.eqb_refl.
  - destruct (Num.is_nan x) eqn:N; [now rewrite orb_true_r|]. rewrite orb_false_r.
    destruct x as [b|b| |b m e]; try discriminate; try (now destruct b). unfold Num.eq, SFeqb, SFcompare.
    now destruct b; rewrite ?Z.compare_refl, ?Pos.compare_refl.
  - now rewrite Nat.eqb_refl, String.eqb_refl.
Qed.

Section Caches.
Context (call : string -> list val -> script) (ms : ops) (D : default_objects).

(** Until the caches are cleared, asking again for the scopes of an object under
    key lists that [cachedKeys] made gives the same array, asking again for a resolver
    over an array of scopes gives the same proxy, and neither touches the heap. *)
Theorem config_caches c main kl k reset h a c1 h1 prefixes r c2 h2 :
  cached_under kl = Some k ->
  getOptionScopes ms D c main kl reset h = (Done (a, c1), h1) ->
  getResolver ms c1 a prefixes h1 = (Done (r, c2), h2) ->
  getOptionScopes ms D c2 main kl false h2 = (Done (a, c2), h2) /\
  getResolver ms c2 a prefixes h2 = (Done (r, c2), h2) /\
  createResolver ms c2 a RUndef prefixes default_flags h2 = (Done (cresolver r, c2), h2).
Proof.
  intros Ck G1 G2.
  assert (S1 : exists cache, map_get same_member main (scopeCache c1) = Some cache /\ pget k cache = Some a).
  { unfold getOptionScopes in G1. destruct (_cachedScopes c main reset) as [c0 cache] eqn:Ec. rewrite Ck in G1.
    destruct (pget k cache) as [s|] eqn:Ep.
    - injection G1 as <- <- <-. exists cache. split; [|exact Ep]. unfold _cachedScopes in Ec.
      destruct (map_get _ main (scopeCache c)) as [m|] eqn:Em; [destruct reset|]; injection Ec as <- <-; try discriminate.
      exact Em.
    - unfold bind in G1. destruct (collect_scopes ms D c0 main [] (lists kl) h) as [[set|?|] h3]; try discriminate.
      destruct set as [|v vs]; cbn in G1; injection G1 as <- <- <-; cbn [scopeCache];
        (eexists; split; [apply map_get_set, same_member_refl|apply pget_pput]). }
  assert (S2 : scopeCache c2 = scopeCache c1 /\ exists m, map_get Nat.eqb a (resolverCache c2) = Some m /\
               pget (String.concat "," prefixes) m = Some r).
  { unfold getResolver in G2. set (m := match map_get Nat.eqb a (resolverCache c1) with Some m => m | None => [] end) in G2.
    destruct (pget _ m) as [x|] eqn:Ep.
    - injection G2 as <- <- <-. split; [reflexivity|]. exists m. split; [|exact Ep].
      unfold m in Ep |- *. now destruct (map_get Nat.eqb a (resolverCache c1)).
    - unfold bind in G2. destruct (items_of _ h1) as [[it|?|] h3]; try discriminate.
      destruct (_createResolver _ _ _ _ _ _ h3) as [[p|?|] h4]; try discriminate.
      injection G2 as <- <- <-. split; [reflexivity|]. eexists.
      split; [apply map_get_set, Nat.eqb_refl|apply pget_pput]. }
  destruct S1 as (cache & M1 & P1), S2 as (Es & m & M2 & P2).
  assert (R : getResolver ms c2 a prefixes h2 = (Done (r, c2), h2)).
  { unfold getResolver. now rewrite M2, P2. }
  split_and!; [|exact R|].
  - unfold getOptionScopes, _cachedScopes. rewrite Es, M1, Ck, P1. reflexivity.
  - unfold createResolver. rewrite (bind_done _ _ _ _ _ R). reflexivity.
Qed.

(** *** The order of the scopes *)
Section Order.
Context (c : config) (h : heap) (main ov : val) (found : val -> string -> val) (ks : list string).
Hypothesis looked_up : forall o k, In o [main; options c; ov; defaults D; descriptors_store D] -> In k ks ->
  resolveObjectKey ms o k h = (Done (found o k), h).
Hypothesis overridden : get ms (overrides D) (ctype c) h = (Done ov, h).
Hypothesis ov_truthy : truthy ov = true.
Definition add_all (set vs : list val) : list val := fold_left (fun s v => set_add v s) vs set.
Definition found_in (o : val) (keys : list string) : list val := List.filter defined (List.map (found o) keys).

Lemma add_all_app s a b : add_all s (a ++ b) = add_all (add_all s a) b.
Proof. apply fold_left_app. Qed.
Lemma addKeys_found set o keys :
  (forall k, In k keys -> resolveObjectKey ms o k h = (Done (found o k), h)) ->
  addKeys ms set o keys h = (Done (add_all set (found_in o keys)), h).
Proof.
  revert set. induction keys as [|k keys IH]; intros set F; [reflexivity|]. cbn [addKeys]. unfold addIfFound.
  erewrite bind_done by (erewrite bind_done by (apply F; now left); reflexivity).
  rewrite IH by (intros; apply F; now right). unfold found_in. cbn [List.map List.filter].
  destruct (defined (found o k)); reflexivity.
Qed.
Lemma addOverrides_found set keys : incl keys ks ->
  addOverrides ms D set (ctype c) keys h = (Done (add_all set (found_in ov keys)), h).
Proof.
  revert set. induction keys as [|k keys IH]; intros set I; [reflexivity|]. apply incl_cons_inv in I as [Ik Il].
  cbn [addOverrides]. rewrite (bind_done _ _ _ _ _ overridden). unfold or_new. rewrite ov_truthy.
  erewrite bind_done by reflexivity. unfold addIfFound.
  erewrite bind_done by (erewrite bind_done by (apply looked_up; [do 2 right; now left|exact Ik]); reflexivity).
  rewrite IH by exact Il. unfold found_in. cbn [List.map List.filter].
  destruct (defined (found ov k)); reflexivity.
Qed.

(** The scopes under a list of keys are, each once and in this order, the main scope
    and what the keys name in it, in the chart's options, in the overrides of the chart's
    type, in the defaults and in the descriptors. *)
Theorem option_scopes_order name :
  let found_all := ((if truthy main then main :: found_in main ks else []) ++ found_in (options c) ks
    ++ found_in ov ks ++ found_in (defaults D) ks ++ found_in (descriptors_store D) ks)%list in
  found_all <> []%list ->
  exists cfg, getOptionScopes ms D c main (mkKeys name [ks]) true h
  = (Done (List.length h, cfg), (h ++ [array_of (add_all [] found_all)])%list).
Proof.
  intros found_all N.
  assert (A : collect_scopes ms D c main [] [ks] h = (Done (add_all [] found_all), h)).
  { cbn [collect_scopes]. unfold scopes_of_keys.
    set (first := if truthy main then main :: found_in main ks else []).
    assert (F : (if truthy main then addKeys ms (set_add main []) main ks else ret []) h = (Done (add_all [] first), h)).
    { unfold first. destruct (truthy main); [|reflexivity]. rewrite addKeys_found; [reflexivity|].
      intros; apply looked_up; [now left|assumption]. }
    erewrite bind_done. 2: { rewrite (bind_done _ _ _ _ _ F).
      erewrite bind_done by (apply addKeys_found; intros; apply looked_up; [right; now left|assumption]).
      erewrite bind_done by (apply addOverrides_found, incl_refl).
      erewrite bind_done by (apply addKeys_found; intros; apply looked_up; [do 3 right; now left|assumption]).
      apply addKeys_found; intros; apply looked_up; [do 4 right; now left|assumption]. }
    unfold found_all. now rewrite !add_all_app. }
  assert (NE : add_all [] found_all <> []).
  { destruct found_all as [|v vs]; [congruence|]. cbn [add_all fold_left]. cbn [set_add existsb app].
    clear. assert (H : forall s, s <> [] -> fold_left (fun s v => set_add v s) vs s <> []).
    { induction vs as [|w vs IH]; intros s Ns; [exact Ns|]. cbn [fold_left]. apply IH. unfold set_add.
      destruct (existsb _ s); [exact Ns|]. now destruct s. }
    apply H. discriminate. }
  assert (A' : forall c', options c' = options c -> ctype c' = ctype c ->
    collect_scopes ms D c' main [] [ks] h = (Done (add_all [] found_all), h)).
  { intros c' E1 E2. rewrite <- A. destruct c', c. cbn in E1, E2. subst. reflexivity. }
  unfold getOptionScopes, _cachedScopes. cbn [cached_under lists].
  assert (B : forall c', options c' = options c -> ctype c' = ctype c -> exists cfg,
    (let! set := collect_scopes ms D c' main [] [ks] in
     let! array := match set with [] => let! o := alloc (Plain NullProto []) in ret [o] | _ => ret set end in
     let! scopes := alloc (array_of array) in
     ret (loc_of scopes, match name with
           | Some k => mkConfig (options c') (ctype c') (map_set same_member main (pput k (loc_of scopes) [])
                         (scopeCache c')) (resolverCache c')
           | None => c' end)) h = (Done (List.length h, cfg), (h ++ [array_of (add_all [] found_all)])%list)).
  { intros c' E1 E2. eexists. rewrite (bind_done _ _ _ _ _ (A' c' E1 E2)).
    destruct (add_all [] found_all) as [|x l] eqn:E; [congruence|]. reflexivity. }
  destruct (map_get _ main (scopeCache c)); destruct name; cbn [pget]; apply B; reflexivity.
Qed.
End Order.
End Caches.

(** *** Witnesses: options with a line element, overrides of the type line, defaults. *)
Definition demo_heap : heap :=
  [Plain Literal [("elements", RRef 1)]; Plain Literal [("line", RRef 2)]; Plain Literal [("width", RNum 1%js)];
   Plain Literal [("line", RRef 4)]; Plain Literal [("width", RNum 2%js)];
   Plain Literal [("width", RNum 3%js)]; Plain Literal []].
Definition demo_defaults : default_objects := mkDefaults (RRef 5) (RRef 3) (RRef 6).
Definition demo_config : config := mkConfig (RRef 0) "line" [] [].
Definition demo_ops : ops := ops_at demo_call 3.
Definition demo_kl : key_lists := fst (datasetElementScopeKeys [] "line" "line").
Definition demo_found (o : val) (k : string) : val :=
  match fst (resolveObjectKey demo_ops o k demo_heap) with Done v => v | _ => RUndef end.

Lemma config_caches_witness :
  match getOptionScopes demo_ops demo_defaults demo_config (RRef 2) demo_kl false demo_heap with
  | (Done (a, c1), h1) =>
      match getResolver demo_ops c1 a [""] h1 with
      | (Done (r, c2), h2) => createResolver demo_ops c2 a RUndef [""] default_flags h2 = (Done (cresolver r, c2), h2)
      | _ => False
      end
  | _ => False
  end.
Proof.
  destruct (getOptionScopes demo_ops demo_defaults demo_config (RRef 2) demo_kl false demo_heap)
    as [[[a c1]|?|] h1] eqn:G1; try (vm_compute in G1; discriminate).
  destruct (getResolver demo_ops c1 a [""] h1) as [[[r c2]|?|] h2] eqn:G2;
    try (vm_compute in G1; injection G1 as <- <- <-; vm_compute in G2; discriminate).
  exact (proj2 (proj2 (config_caches demo_ops demo_defaults demo_config (RRef 2) demo_kl "line-line" false
    demo_heap a c1 h1 [""] r c2 h2 eq_refl G1 G2))).
Defined.
Lemma option_scopes_order_witness :
  exists cfg, getOptionScopes demo_ops demo_defaults demo_config (RRef 2) (mkKeys None [["elements.line"; ""]]) true
    demo_heap = (Done (7%nat, cfg), (demo_heap ++ [array_of [RRef 2; RRef 0; RRef 4; RRef 5; RRef 6]])%list).
Proof.
  destruct (option_scopes_order demo_ops demo_defaults demo_config demo_heap (RRef 2) (RRef 4) demo_found
    ["elements.line"; ""]) with (name := @None string) as [cfg E].
  - intros o k Io Ik. cbn in Io, Ik. intuition subst; reflexivity.
  - reflexivity.
  - reflexivity.
  - vm_compute. discriminate.
  - exists cfg. etransitivity; [exact E|]. vm_compute. reflexivity.
Defined.
End ConfigFacts.
