(* ===== verification/Easing.v ===== *)
(** The easing functions and point interpolation of webui/public/chart.js. *)
From Stdlib Require Import ZArith Lia Bool List Ascii String.
From Stdlib Require Import SpecFloat.
From stdpp Require Import base list.
From S2P Require Import Prelude JsNumber HelpersMath.
Import ListNotations.
Open Scope Z_scope.

Module Easing.
Import MathH.
Local Open Scope js_scope.

Definition atEdge (t : num) : bool := (t =? 0) || (t =? 1).

Section Lib.
Context `{MathLib}.

Definition elasticIn (t s p : num) : num :=
  let t := t - 1 in - (math_pow 2 (10 * t) * math_sin ((t - s) * TAU / p)).
Definition elasticOut (t s p : num) : num :=
  math_pow 2 ((-10) * t) * math_sin ((t - s) * TAU / p) + 1.

Definition linear (t : num) : num := t.
Definition easeInQuad (t : num) : num := t * t.
Definition easeOutQuad (t : num) : num := (- t) * (t - 2).
Definition easeInOutQuad (t : num) : num :=
  let t := t / 0.5 in
  if t <? 1 then 0.5 * t * t else let t := t - 1 in (-0.5) * (t * (t - 2) - 1).
Definition easeInCubic (t : num) : num := t * t * t.
Definition easeOutCubic (t : num) : num := let t := t - 1 in t * t * t + 1.
Definition easeInOutCubic (t : num) : num :=
  let t := t / 0.5 in
  if t <? 1 then 0.5 * t * t * t else let t := t - 2 in 0.5 * (t * t * t + 2).
Definition easeInQuart (t : num) : num := t * t * t * t.
Definition easeOutQuart (t : num) : num := let t := t - 1 in - (t * t * t * t - 1).
Definition easeInOutQuart (t : num) : num :=
  let t := t / 0.5 in
  if t <? 1 then 0.5 * t * t * t * t else let t := t - 2 in (-0.5) * (t * t * t * t - 2).
Definition easeInQuint (t : num) : num := t * t * t * t * t.
Definition easeOutQuint (t : num) : num := let t := t - 1 in t * t * t * t * t + 1.
Definition easeInOutQuint (t : num) : num :=
  let t := t / 0.5 in
  if t <? 1 then 0.5 * t * t * t * t * t else let t := t - 2 in 0.5 * (t * t * t * t * t + 2).
Definition easeInSine (t : num) : num := - math_cos (t * HALF_PI) + 1.
Definition easeOutSine (t : num) : num := math_sin (t * HALF_PI).
Definition easeInOutSine (t : num) : num := (-0.5) * (math_cos (PI * t) - 1).
Definition easeInExpo (t : num) : num := if t =? 0 then 0 else math_pow 2 (10 * (t - 1)).
Definition easeOutExpo (t : num) : num := if t =? 1 then 1 else - math_pow 2 ((-10) * t) + 1.
Definition easeInOutExpo (t : num) : num :=
  if atEdge t then t
  else if t <? 0.5 then 0.5 * math_pow 2 (10 * (t * 2 - 1))
  else 0.5 * (- math_pow 2 ((-10) * (t * 2 - 1)) + 2).
Definition easeInCirc (t : num) : num := if t >=? 1 then t else - (Num.sqrt (1 - t * t) - 1).
Definition easeOutCirc (t : num) : num := let t := t - 1 in Num.sqrt (1 - t * t).
Definition easeInOutCirc (t : num) : num :=
  let t := t / 0.5 in
  if t <? 1 then (-0.5) * (Num.sqrt (1 - t * t) - 1)
  else let t := t - 2 in 0.5 * (Num.sqrt (1 - t * t) + 1).
Definition easeInElastic (t : num) : num := if atEdge t then t else elasticIn t 0.075 0.3.
Definition easeOutElastic (t : num) : num := if atEdge t then t else elasticOut t 0.075 0.3.
Definition easeInOutElastic (t : num) : num :=
  let s : num := 0.1125 in let p : num := 0.45 in
  if atEdge t then t
  else if t <? 0.5 then 0.5 * elasticIn (t * 2) s p
  else 0.5 + 0.5 * elasticOut (t * 2 - 1) s p.
Definition easeInBack (t : num) : num := let s : num := 1.70158 in t * t * ((s + 1) * t - s).
Definition easeOutBack (t : num) : num :=
  let s : num := 1.70158 in let t := t - 1 in t * t * ((s + 1) * t + s) + 1.
Definition easeInOutBack (t : num) : num :=
  let s : num := 1.70158 in
  let t := t / 0.5 in
  if t <? 1 then let s := s * 1.525 in 0.5 * (t * t * ((s + 1) * t - s))
  else let t := t - 2 in let s := s * 1.525 in 0.5 * (t * t * ((s + 1) * t + s) + 2).
Definition easeOutBounce (t : num) : num :=
  let m : num := 7.5625 in let d : num := 2.75 in
  if t <? 1 / d then m * t * t
  else if t <? 2 / d then let t := t - 1.5 / d in m * t * t + 0.75
  else if t <? 2.5 / d then let t := t - 2.25 / d in m * t * t + 0.9375
  else let t := t - 2.625 / d in m * t * t + 0.984375.
Definition easeInBounce (t : num) : num := 1 - easeOutBounce (1 - t).
Definition easeInOutBounce (t : num) : num :=
  if t <? 0.5 then easeInBounce (t * 2) * 0.5 else easeOutBounce (t * 2 - 1) * 0.5 + 0.5.

(** The table [effects]. *)
Definition effects : list (string * (num -> num)) :=
  [("linear", linear); ("easeInQuad", easeInQuad); ("easeOutQuad", easeOutQuad);
   ("easeInOutQuad", easeInOutQuad); ("easeInCubic", easeInCubic); ("easeOutCubic", easeOutCubic);
   ("easeInOutCubic", easeInOutCubic); ("easeInQuart", easeInQuart); ("easeOutQuart", easeOutQuart);
   ("easeInOutQuart", easeInOutQuart); ("easeInQuint", easeInQuint); ("easeOutQuint", easeOutQuint);
   ("easeInOutQuint", easeInOutQuint); ("easeInSine", easeInSine); ("easeOutSine", easeOutSine);
   ("easeInOutSine", easeInOutSine); ("easeInExpo", easeInExpo); ("easeOutExpo", easeOutExpo);
   ("easeInOutExpo", easeInOutExpo); ("easeInCirc", easeInCirc); ("easeOutCirc", easeOutCirc);
   ("easeInOutCirc", easeInOutCirc); ("easeInElastic", easeInElastic);
   ("easeOutElastic", easeOutElastic); ("easeInOutElastic", easeInOutElastic);
   ("easeInBack", easeInBack); ("easeOutBack", easeOutBack); ("easeInOutBack", easeInOutBack);
   ("easeInBounce", easeInBounce); ("easeOutBounce", easeOutBounce);
   ("easeInOutBounce", easeInOutBounce)]%string.
Definition effect (name : string) : option (num -> num) :=
  match List.find (fun p => String.eqb name (fst p)) effects with
  | Some (_, f) => Some f
  | None => None
  end.
End Lib.

(** Points with their control points. *)
Record cpoint := mkCpoint { px : num; py : num; cp1x : num; cp1y : num; cp2x : num; cp2y : num }.
Definition _pointInLine (p1 p2 : point) (t : num) : point :=
  mkPoint (x p1 + t * (x p2 - x p1)) (y p1 + t * (y p2 - y p1)).
Definition _steppedInterpolation (p1 p2 : point) (t : num) (mode : string) : point :=
  mkPoint (x p1 + t * (x p2 - x p1))
    (if String.eqb mode "middle" then if t <? 0.5 then y p1 else y p2
     else if String.eqb mode "after" then if t <? 1 then y p1 else y p2
     else if t >? 0 then y p2 else y p1).
Definition _bezierInterpolation (p1 p2 : cpoint) (t : num) : point :=
  let cp1 := mkPoint (cp2x p1) (cp2y p1) in
  let cp2 := mkPoint (cp1x p2) (cp1y p2) in
  let p1 := mkPoint (px p1) (py p1) in
  let p2 := mkPoint (px p2) (py p2) in
  let a := _pointInLine p1 cp1 t in
  let b := _pointInLine cp1 cp2 t in
  let c := _pointInLine cp2 p2 t in
  let d := _pointInLine a b t in
  let e := _pointInLine b c t in
  _pointInLine d e t.

End Easing.

(** ** Facts *)
Module EasingFacts.
Import Num Easing MathH.

(** What ECMAScript fixes of the approximated functions. *)
Class MathExact `{MathLib} : Prop := {
  pow_zero : forall b s, is_nan b = false -> math_pow b (S754_zero s) = 1%js;
  sin_zero : math_sin (S754_zero false) = S754_zero false;
  cos_zero : math_cos (S754_zero false) = 1%js;
}.

(** The functions whose value at 1 is only approximately 1: the sine family,
    which ECMAScript leaves to the implementation, and [easeInBack]. *)
Definition approximate_end (name : string) : bool :=
  existsb (String.eqb name) ["easeInSine"; "easeOutSine"; "easeInOutSine"; "easeInBack"]%string.

Section Ends.
Context `{MathExact}.

Lemma easeInSine_0 : eq (easeInSine 0%js) 0%js = true.
Proof.
  unfold easeInSine. replace (0 * HALF_PI)%js with (S754_zero false) by (vm_compute; reflexivity).
  rewrite cos_zero. vm_compute. reflexivity.
Qed.
Lemma easeOutSine_0 : eq (easeOutSine 0%js) 0%js = true.
Proof.
  unfold easeOutSine. replace (0 * HALF_PI)%js with (S754_zero false) by (vm_compute; reflexivity).
  rewrite sin_zero. reflexivity.
Qed.
Lemma easeInOutSine_0 : eq (easeInOutSine 0%js) 0%js = true.
Proof.
  unfold easeInOutSine. replace (PI * 0)%js with (S754_zero false) by (vm_compute; reflexivity).
  rewrite cos_zero. vm_compute. reflexivity.
Qed.
Lemma easeInExpo_1 : eq (easeInExpo 1%js) 1%js = true.
Proof.
  unfold easeInExpo. replace (1 =? 0)%js with false by (vm_compute; reflexivity).
  replace (10 * (1 - 1))%js with (S754_zero false) by (vm_compute; reflexivity).
  rewrite pow_zero by (vm_compute; reflexivity). vm_compute. reflexivity.
Qed.
Lemma easeOutExpo_0 : eq (easeOutExpo 0%js) 0%js = true.
Proof.
  unfold easeOutExpo. replace (0 =? 1)%js with false by (vm_compute; reflexivity).
  replace ((-10) * 0)%js with (S754_zero true) by (vm_compute; reflexivity).
  rewrite pow_zero by (vm_compute; reflexivity). vm_compute. reflexivity.
Qed.

Lemma effects_ends_all :
  List.Forall (fun p => (String.eqb (fst p) "easeOutBack" = false -> eq (snd p 0%js) 0%js = true) /\
                   (approximate_end (fst p) = false -> eq (snd p 1%js) 1%js = true)) effects.
Proof.
  unfold effects. repeat apply List.Forall_cons; try apply List.Forall_nil; cbn [fst snd]; split; intros E;
    match goal with
    | |- eq (easeInSine 0%js) _ = _ => exact easeInSine_0
    | |- eq (easeOutSine 0%js) _ = _ => exact easeOutSine_0
    | |- eq (easeInOutSine 0%js) _ = _ => exact easeInOutSine_0
    | |- eq (easeInExpo 1%js) _ = _ => exact easeInExpo_1
    | |- eq (easeOutExpo 0%js) _ = _ => exact easeOutExpo_0
    | _ => first [discriminate E | vm_compute; reflexivity]
    end.
Qed.
End Ends.

(** Every easing function starts at 0 and ends at 1, exactly in binary64,
    except that [easeOutBack] starts one rounding error away and [easeInBack] and
    the sine functions may end one away. *)
Theorem effects_ends `{MathExact} name f : effect name = Some f ->
  (String.eqb name "easeOutBack" = false -> eq (f 0%js) 0%js = true) /\
  (approximate_end name = false -> eq (f 1%js) 1%js = true).
Proof.
  unfold effect. destruct (List.find _ _) as [[n g]|] eqn:F; [|discriminate]. intros [= <-].
  apply List.find_some in F as [I E]. apply String.eqb_eq in E. cbn [fst] in E. subst.
  pose proof effects_ends_all as A. rewrite List.Forall_forall in A. exact (A _ I).
Qed.

End EasingFacts.
