(* ===== verification/Animation.v ===== *)
(** Animations of webui/public/chart.js: the frame throttle, the [Animation]
    and [Animations] classes and the [Animator], over a shared store of objects.

    Objects, animations and promises live in finite maps and are referred to by
    number, since a running animation writes to its target, is reachable from the
    target's [$animations] and from the animator's list at the same time.  An
    operation that can throw gives an option. *)
From Stdlib Require Import ZArith Lia Bool List Ascii String Permutation.
From Stdlib Require Import SpecFloat.
From stdpp Require Import base list gmap.
From S2P Require Import Prelude JsNumber JsString JsArray JsValue HelpersCore Color Options Easing.
Import ListNotations.
Open Scope Z_scope.

(** [throttled] and [debounce]: a call, and the frame or the timer that fires;
    the second component is the arguments [fn] runs with. *)
Module Timing.
Section T.
Context {A B : Type} (updateArgs : A -> B).
Record throttle := mkThrottle { ticking : bool; args : option B }.
Definition throttle_init : throttle := mkThrottle false None.
(** The returned function; true when it requests a frame. *)
Definition throttle_call (t : throttle) (rest : A) : throttle * bool :=
  (mkThrottle true (Some (updateArgs rest)), negb (ticking t)).
Definition throttle_frame (t : throttle) : throttle * option B := (mkThrottle false (args t), args t).

(** [debounce]: the pending timer; without a delay the call runs at once. *)
Record debouncer := mkDebouncer { timeout : option A }.
Definition debounce_call (delay : Z) (d : debouncer) (a : A) : debouncer * option A :=
  if delay =? 0 then (d, Some a) else (mkDebouncer (Some a), None).
Definition debounce_timer (d : debouncer) : debouncer * option A := (mkDebouncer None, timeout d).
End T.
End Timing.

Module Anim.
Import Obj Js Core Options Easing.

Notation "'do' x <- e ; k" := (match e with Some x => k | None => None end)
  (at level 10, x pattern, e at level 100, k at level 200).

(** [===] on the values that are animated; an array or an object is the
    same only when it is the same reference, which two values here never are. *)
Definition strict_eq (a b : value) : bool :=
  match a, b with
  | Undefined, Undefined | Null, Null => true
  | VBool x, VBool y => Bool.eqb x y
  | VNum x, VNum y => Num.eq x y
  | VStr x, VStr y | VFun x, VFun y => String.eqb x y
  | _, _ => false
  end.

Definition typeof (v : value) : string :=
  match v with
  | Undefined => "undefined" | Null | VArr _ | VObj _ => "object" | VBool _ => "boolean"
  | VNum _ => "number" | VStr _ => "string" | VFun _ => "function"
  end%string.

(** ** Interpolators *)
Definition color_input (v : value) : Color.input :=
  let ch o k := match get k o with Some w => Some (to_num w) | None => None end in
  match v with
  | VStr s => Color.InString s
  | VArr l => Color.InArray (List.map to_num l)
  | VObj o => Color.InObject (ch o "r") (ch o "g") (ch o "b") (ch o "a")
  | Null => Color.InNull
  | _ => Color.InOther
  end%string.
Definition transparent : value := VStr "transparent".

Definition interpolate_boolean (from to : value) (factor : num) : value :=
  if Num.lt 0.5%js factor then to else from.
(** [from + (to - from) * factor]: a text on the left makes a text. *)
Definition interpolate_number (from to : value) (factor : num) : value :=
  let d := ((to_num to - to_num from) * factor)%js in
  match from with
  | VStr _ | VArr _ | VObj _ | VFun _ => VStr (to_str from ++ NumStr.print d)
  | _ => VNum (to_num from + d)%js
  end.
Definition interpolate_color (from to : value) (factor : num) : value :=
  match Color.index_esm (color_input (if truthy from then from else transparent)),
        Color.index_esm (color_input (if truthy to then to else transparent)) with
  | Some c0, Some c1 =>
      if Color.valid c0 && Color.valid c1 then
        match Color.mix c1 (Some c0) (Some factor) with
        | Some c => match Color.color_hexString c with Some s => VStr s | None => Undefined end
        | None => Undefined
        end
      else to
  | _, _ => to
  end.

Definition interp := value -> value -> num -> value.
Definition interpolators (name : string) : option interp :=
  if String.eqb name "boolean" then Some interpolate_boolean
  else if String.eqb name "color" then Some interpolate_color
  else if String.eqb name "number" then Some interpolate_number
  else None.

(** ** The store *)
Record animation := mkAnimation {
  _active : bool; _fn : option interp; _easing : num -> num;
  _start : num; _duration : num; _total : num; _loop : bool;
  _target : nat; _prop : string; _from : value; _to : value; _promises : list nat }.

(** A target or an options object: its own properties but [options],
    [$shared] and [$animations]. *)
Record object := mkObject {
  own : obj; options : option nat; shared : bool; animations : option (list (string * nat)) }.

Inductive promise := Pending | Resolved | Rejected.
(** [Promise.all] of the waited promises, then [target.options = newOptions]. *)
Record await := mkAwait { w_target : nat; w_new : nat; w_promises : list nat }.

Record world := mkWorld {
  objects : gmap nat object; anims : gmap nat animation; promises : gmap nat promise;
  awaits : list await; next : nat; now : num }.

Definition set_object (w : world) (o : nat) (x : object) : world :=
  mkWorld (<[o := x]> (objects w)) (anims w) (promises w) (awaits w) (next w) (now w).
Definition set_anim (w : world) (a : nat) (x : animation) : world :=
  mkWorld (objects w) (<[a := x]> (anims w)) (promises w) (awaits w) (next w) (now w).
Definition set_promises (w : world) (p : gmap nat promise) : world :=
  mkWorld (objects w) (anims w) p (awaits w) (next w) (now w).

Definition write_prop (w : world) (o : nat) (p : string) (v : value) : world :=
  match objects w !! o with
  | Some x => set_object w o (mkObject (put p v (own x)) (options x) (shared x) (animations x))
  | None => w
  end.
Definition read_prop (w : world) (o : nat) (p : string) : value :=
  match objects w !! o with
  | Some x => match get p (own x) with Some v => v | None => Undefined end
  | None => Undefined
  end.
Definition with_active (x : animation) (b : bool) : animation :=
  mkAnimation b (_fn x) (_easing x) (_start x) (_duration x) (_total x) (_loop x)
    (_target x) (_prop x) (_from x) (_to x) (_promises x).

(** A promise settles once. *)
Definition settle (r : promise) (ps : gmap nat promise) (i : nat) : gmap nat promise :=
  match ps !! i with Some Pending => <[i := r]> ps | _ => ps end.
Definition _notify (w : world) (x : animation) (resolved : bool) : world :=
  set_promises w (fold_left (settle (if resolved then Resolved else Rejected)) (_promises x) (promises w)).

Section Lib.
Context `{MathLib} (call_fn : string -> interp).

(** ** Animation *)

(** [cfg]: one of [Animations._properties]' resolved option objects. *)
Definition cfg_get (cfg : obj) (k : string) : value := match get k cfg with Some v => v | None => Undefined end.

(** [cfg.fn || interpolators[cfg.type || typeof from]]. *)
Definition select_fn (cfg : obj) (from : value) : option interp :=
  if truthy (cfg_get cfg "fn") then
    match cfg_get cfg "fn" with VFun f => Some (call_fn f) | _ => None end
  else interpolators (if truthy (cfg_get cfg "type") then to_str (cfg_get cfg "type") else typeof from).
Definition select_easing (cfg : obj) : num -> num :=
  match effect (to_str (cfg_get cfg "easing")) with Some f => f | None => linear end.
Definition or_zero (v : value) : num := if truthy v then to_num v else 0%js.

Definition newAnimation (w : world) (cfg : obj) (target : nat) (prop : string) (to : value) : animation :=
  let currentValue := read_prop w target prop in
  let to := resolve_plain [cfg_get cfg "to"; to; currentValue; cfg_get cfg "from"] in
  let from := resolve_plain [cfg_get cfg "from"; currentValue; to] in
  let duration := Num.floor (to_num (cfg_get cfg "duration")) in
  mkAnimation true (select_fn cfg from) (select_easing cfg)
    (Num.floor (now w + or_zero (cfg_get cfg "delay"))%js) duration duration
    (truthy (cfg_get cfg "loop")) target prop from to [].

Definition update (w : world) (a : nat) (cfg : obj) (to : value) (date : num) : world :=
  match anims w !! a with
  | Some x =>
      if _active x then
        let w := _notify w x false in
        let currentValue := read_prop w (_target x) (_prop x) in
        let elapsed := (date - _start x)%js in
        let remain := (_duration x - elapsed)%js in
        set_anim w a (mkAnimation true (_fn x) (_easing x) date
          (Num.floor (Num.max remain (to_num (cfg_get cfg "duration"))))
          (_total x + elapsed)%js (truthy (cfg_get cfg "loop")) (_target x) (_prop x)
          (resolve_plain [cfg_get cfg "from"; currentValue; to])
          (resolve_plain [cfg_get cfg "to"; to; currentValue; cfg_get cfg "from"]) (_promises x))
      else w
  | None => w
  end.

(** The factor passed to the easing function. *)
Definition tick_factor (x : animation) (date : num) : num :=
  let factor := (((date - _start x) / _duration x) mod 2)%js in
  let factor := if _loop x && Num.lt 1%js factor then (2 - factor)%js else factor in
  Num.min 1%js (Num.max 0%js factor).

Definition tick_active (x : animation) (date : num) : bool :=
  negb (strict_eq (_from x) (_to x)) && (_loop x || Num.lt (date - _start x)%js (_duration x)).

(** [tick]; it throws when the interpolator is missing. *)
Definition tick (w : world) (a : nat) (date : num) : option world :=
  match anims w !! a with
  | None => None
  | Some x =>
      let x' := with_active x (tick_active x date) in
      let w := set_anim w a x' in
      if negb (_active x') then
        Some (_notify (write_prop w (_target x) (_prop x) (_to x)) x' true)
      else if Num.lt (date - _start x)%js 0%js then
        Some (write_prop w (_target x) (_prop x) (_from x))
      else
        do f <- _fn x;
        Some (write_prop w (_target x) (_prop x)
                (f (_from x) (_to x) (_easing x (tick_factor x date))))
  end.

Definition cancel (w : world) (a : nat) : option world :=
  match anims w !! a with
  | None => None
  | Some x =>
      if _active x then
        do w <- tick w a (now w);
        do x <- anims w !! a;
        Some (_notify (set_anim w a (with_active x false)) x false)
      else Some w
  end.

(** [wait]: a new promise of the animation. *)
Definition wait (w : world) (a : nat) : option (world * nat) :=
  do x <- anims w !! a;
  let p := next w in
  let x := mkAnimation (_active x) (_fn x) (_easing x) (_start x) (_duration x) (_total x) (_loop x)
    (_target x) (_prop x) (_from x) (_to x) (_promises x ++ [p]) in
  Some (mkWorld (objects w) (<[a := x]> (anims w)) (<[p := Pending]> (promises w))
          (awaits w) (S p) (now w), p).

Definition active (w : world) (a : nat) : bool :=
  match anims w !! a with Some x => _active x | None => false end.

(** ** Animations *)
Definition animationOptions : list string :=
  ["delay"; "duration"; "easing"; "fn"; "from"; "loop"; "to"; "type"]%string.

(** The map [_properties], in insertion order. *)
Definition properties := list (string * obj).
Definition prop_get (ps : properties) (k : string) : option obj :=
  match List.find (fun p => String.eqb k (fst p)) ps with Some (_, c) => Some c | None => None end.
Fixpoint prop_set (ps : properties) (k : string) (c : obj) : properties :=
  match ps with
  | [] => [(k, c)]
  | (j, d) :: r => if String.eqb k j then (j, c) :: r else (j, d) :: prop_set r k c
  end.

Definition configure_key (ps : properties) (key : string) (cfg : value) : properties :=
  match cfg with
  | VObj c =>
      let resolved := List.map (fun o => (o, index cfg o)) animationOptions in
      let props := match index cfg "properties" with VArr l => List.map to_str l | _ => [key] end in
      fold_left (fun ps prop =>
        if String.eqb prop key || match prop_get ps prop with None => true | Some _ => false end
        then prop_set ps prop resolved else ps) props ps
  | _ => ps
  end.
Definition configure (ps : properties) (config : value) : properties :=
  match config with
  | VObj c => fold_left (fun ps kv => configure_key ps (fst kv) (snd kv)) c ps
  | _ => ps
  end.

(** What [update] receives: own properties in order; [options] refers to an
    options object or is falsy. *)
Inductive entry := Prop_ (k : string) (v : value) | Options_ (o : option nat).
Definition entries_of (x : object) : list entry := List.map (fun kv => Prop_ (fst kv) (snd kv)) (own x).

Definition write_options (w : world) (t : nat) (o : option nat) : world :=
  match objects w !! t with
  | Some x => set_object w t (mkObject (own x) o (shared x) (animations x))
  | None => w
  end.

Definition set_running (w : world) (t : nat) (r : list (string * nat)) : world :=
  match objects w !! t with
  | Some x => set_object w t (mkObject (own x) (options x) (shared x) (Some r))
  | None => w
  end.
Definition running_of (w : world) (t : nat) : list (string * nat) :=
  match objects w !! t with
  | Some x => match animations x with Some r => r | None => [] end
  | None => []
  end.
Fixpoint rput (k : string) (a : nat) (r : list (string * nat)) : list (string * nat) :=
  match r with
  | [] => [(k, a)]
  | (j, b) :: r' => if String.eqb k j then (j, a) :: r' else (j, b) :: rput k a r'
  end.
Definition rget (k : string) (r : list (string * nat)) : option nat :=
  match List.find (fun p => String.eqb k (fst p)) r with Some (_, a) => Some a | None => None end.

(** One property of [_createAnimations], which starts an animation or sets the
    value; the list has the animation it started. *)
Definition start_prop (cfg : option obj) (w : world) (target : nat) (prop : string) (value : value)
  : world * list nat :=
  match cfg with
  | Some c =>
      if truthy (cfg_get c "duration") then
        let a := next w in
        let x := newAnimation w c target prop value in
        let w := mkWorld (objects w) (<[a := x]> (anims w)) (promises w) (awaits w) (S a) (now w) in
        (set_running w target (rput prop a (running_of w target)), [a])
      else (write_prop w target prop value, [])
  | None => (write_prop w target prop value, [])
  end.
(** A running animation of the property is updated when it is still active and
    configured, and cancelled otherwise. *)
Definition animate_prop (ps : properties) (w : world) (target : nat) (prop : string) (value : value)
  (date : num) : option (world * list nat) :=
  let cfg := prop_get ps prop in
  match rget prop (running_of w target) with
  | Some a =>
      match cfg, active w a with
      | Some c, true => Some (update w a c value date, [])
      | _, _ => do w <- cancel w a; Some (start_prop cfg w target prop value)
      end
  | None => Some (start_prop cfg w target prop value)
  end.

(** The loop, from the last entry to the first; [opts] handles [options]. *)
Fixpoint create_loop (opts : world -> option nat -> option (world * list nat))
  (ps : properties) (target : nat) (date : num) (rev_values : list entry) (w : world) (acc : list nat)
  : option (world * list nat) :=
  match rev_values with
  | [] => Some (w, acc)
  | Prop_ k v :: rest =>
      if String.prefix "$" k then create_loop opts ps target date rest w acc
      else do (w, l) <- animate_prop ps w target k v date;
           create_loop opts ps target date rest w (acc ++ l)
  | Options_ o :: rest =>
      do (w, l) <- opts w o;
      create_loop opts ps target date rest w (acc ++ l)
  end.
Definition ensure_running (w : world) (t : nat) : world :=
  match objects w !! t with
  | Some x => match animations x with Some _ => w | None => set_running w t [] end
  | None => w
  end.
Definition create_with (opts : world -> option nat -> option (world * list nat))
  (ps : properties) (w : world) (target : nat) (values : list entry) : option (world * list nat) :=
  create_loop opts ps target (now w) (List.rev values) (ensure_running w target) [].

(** [resolveTargetOptions]: a shared options object is copied before its
    properties are animated.  None: there is nothing to animate. *)
Definition resolveTargetOptions (w : world) (target : nat) (newOptions : option nat)
  : world * option nat :=
  match newOptions with
  | None => (w, None)
  | Some n =>
      match objects w !! target with
      | Some x =>
          match options x with
          | None => (write_options w target (Some n), None)
          | Some o =>
              match objects w !! o with
              | Some ox =>
                  if shared ox then
                    let c := next w in
                    let w := mkWorld (<[c := mkObject (own ox) (options ox) false (Some [])]> (objects w))
                               (anims w) (promises w) (awaits w) (S c) (now w) in
                    (write_options w target (Some c), Some c)
                  else (w, Some o)
              | None => (w, Some o)
              end
          end
      | None => (w, None)
      end
  end.

(** [awaitAll]: wait for the running animations of the listed properties. *)
Fixpoint wait_for (w : world) (r : list (string * nat)) (ks : list string) : option (world * list nat) :=
  match ks with
  | [] => Some (w, [])
  | k :: ks' =>
      match rget k r with
      | Some a => if active w a then
                    do (w, p) <- wait w a;
                    do (w, l) <- wait_for w r ks';
                    Some (w, p :: l)
                  else wait_for w r ks'
      | None => wait_for w r ks'
      end
  end.
Definition awaitAll (w : world) (target o n : nat) : option world :=
  match objects w !! n with
  | Some nx =>
      do (w, l) <- wait_for w (running_of w o) (keys (own nx));
      Some (mkWorld (objects w) (anims w) (promises w) (awaits w ++ [mkAwait target n l]) (next w) (now w))
  | None => None
  end.

Definition _animateOptions (ps : properties) (target : nat) (w : world) (newOptions : option nat)
  : option (world * list nat) :=
  match resolveTargetOptions w target newOptions, newOptions with
  | (w, Some o), Some n =>
      do nx <- objects w !! n;
      do (w, l) <- create_with (fun w _ => Some (w, [])) ps w o (entries_of nx);
      if shared nx then do w <- awaitAll w target o n; Some (w, l)
      else Some (w, l)
  | (w, _), _ => Some (w, [])
  end.

Definition _createAnimations (ps : properties) (w : world) (target : nat) (values : list entry)
  : option (world * list nat) :=
  create_with (_animateOptions ps target) ps w target values.

(** [Object.assign(target, values)]. *)
Definition assign (w : world) (target : nat) (values : list entry) : world :=
  fold_left (fun w e => match e with
    | Prop_ k v => write_prop w target k v
    | Options_ o => write_options w target o end) values w.

(** The microtasks: an await whose promises are all resolved assigns the
    options, one with a rejected promise does nothing, and both are done. *)
Definition run_await (w : world) (x : await) : world * bool :=
  let st p := promises w !! p in
  if forallb (fun p => match st p with Some Resolved => true | _ => false end) (w_promises x)
  then (write_options w (w_target x) (Some (w_new x)), true)
  else (w, existsb (fun p => match st p with Some Rejected => true | _ => false end) (w_promises x)).
Definition run_microtasks (w : world) : world :=
  let '(w', rest) := fold_left (fun acc x =>
      let '(w, rest) := acc in
      let '(w, done) := run_await w x in (w, if done : bool then rest else rest ++ [x]))
    (awaits w) (w, []) in
  mkWorld (objects w') (anims w') (promises w') rest (next w') (now w').

(** ** Animator *)
Inductive ev := complete | progress.
Record canims := mkCanims {
  running : bool; initial : bool; items : list nat;
  complete_ls : list nat; progress_ls : list nat; cstart : num; cduration : num }.
(** What the animator does to the outside, in order. *)
Inductive output :=
| Draw (chart : nat)
| Called (cb chart : nat) (initial : bool) (numSteps currentStep : num).

Record animator := mkAnimator {
  _request : bool; _charts : list (nat * canims); _running : bool; _lastDate : option num }.

Definition fresh_canims : canims := mkCanims false true [] [] [] Num.nan Num.nan.
Definition chart_get (l : list (nat * canims)) (c : nat) : option canims :=
  match List.find (fun p => Nat.eqb c (fst p)) l with Some (_, x) => Some x | None => None end.
Fixpoint chart_put (l : list (nat * canims)) (c : nat) (x : canims) : list (nat * canims) :=
  match l with
  | [] => [(c, x)]
  | (d, y) :: r => if Nat.eqb c d then (d, x) :: r else (d, y) :: chart_put r c x
  end.
Definition with_charts (t : animator) (l : list (nat * canims)) : animator :=
  mkAnimator (_request t) l (_running t) (_lastDate t).

Definition notify (chart : nat) (x : canims) (date : num) (type : ev) : list output :=
  List.map (fun cb => Called cb chart (initial x) (cduration x) (Num.min (date - cstart x)%js (cduration x)))
    (match type with complete => complete_ls x | progress => progress_ls x end).

Definition _getAnims (t : animator) (chart : nat) : animator * canims :=
  match chart_get (_charts t) chart with
  | Some x => (t, x)
  | None => (with_charts t (chart_put (_charts t) chart fresh_canims), fresh_canims)
  end.
Definition listen (t : animator) (chart : nat) (type : ev) (cb : nat) : animator :=
  let '(t, x) := _getAnims t chart in
  with_charts t (chart_put (_charts t) chart
    (match type with
     | complete => mkCanims (running x) (initial x) (items x) (complete_ls x ++ [cb]) (progress_ls x) (cstart x) (cduration x)
     | progress => mkCanims (running x) (initial x) (items x) (complete_ls x) (progress_ls x ++ [cb]) (cstart x) (cduration x)
     end)).
Definition with_items (x : canims) (l : list nat) : canims :=
  mkCanims (running x) (initial x) l (complete_ls x) (progress_ls x) (cstart x) (cduration x).
Definition add (t : animator) (chart : nat) (l : list nat) : animator :=
  match l with
  | [] => t
  | _ => let '(t, x) := _getAnims t chart in
         with_charts t (chart_put (_charts t) chart (with_items x (items x ++ l)))
  end.
Definition has (t : animator) (chart : nat) : animator * bool :=
  let '(t, x) := _getAnims t chart in (t, match items x with [] => false | _ => true end).

(** [Animations.update]; the flag tells whether an animation was started. *)
Definition Animations_update (ps : properties) (chart : nat) (w : world) (t : animator) (target : nat)
  (values : list entry) : option (world * animator * bool) :=
  match ps with
  | [] => Some (assign w target values, t, false)
  | _ =>
      do (w, l) <- _createAnimations ps w target values;
      match l with
      | [] => Some (w, t, false)
      | _ => Some (w, add t chart l, true)
      end
  end.

(** [_refresh] requests one frame at a time. *)
Definition _refresh (t : animator) : animator :=
  if _request t then t else mkAnimator true (_charts t) true (_lastDate t).
Definition start (w : world) (t : animator) (chart : nat) : animator :=
  match chart_get (_charts t) chart with
  | None => t
  | Some x =>
      let d := fold_left (fun acc a => match anims w !! a with
                                       | Some y => Num.max acc (_duration y) | None => acc end) (items x) 0%js in
      _refresh (with_charts t (chart_put (_charts t) chart
        (mkCanims true (initial x) (items x) (complete_ls x) (progress_ls x) (now w) d)))
  end.
Definition is_running (t : animator) (chart : nat) : bool :=
  _running t &&
  match chart_get (_charts t) chart with
  | None => false
  | Some x => running x && match items x with [] => false | _ => true end
  end.
Fixpoint cancel_all (w : world) (rev_items : list nat) : option world :=
  match rev_items with
  | [] => Some w
  | a :: r => do w <- cancel w a; cancel_all w r
  end.
Definition stop (w : world) (t : animator) (chart : nat) : option (world * animator * list output) :=
  match chart_get (_charts t) chart with
  | None => Some (w, t, [])
  | Some x =>
      match items x with
      | [] => Some (w, t, [])
      | l => do w <- cancel_all w (List.rev l);
             let x := with_items x [] in
             Some (w, with_charts t (chart_put (_charts t) chart x), notify chart x (now w) complete)
      end
  end.
Definition remove (t : animator) (chart : nat) : animator :=
  with_charts t (List.filter (fun p => negb (Nat.eqb chart (fst p))) (_charts t)).

(** The loop over the items from index [i] down: an active one is ticked, an
    inactive one is replaced by the last item, which is popped. *)
Fixpoint items_loop (i : nat) (date : num) (w : world) (l : list nat) (dur : num) (draw : bool)
  : option (world * list nat * num * bool) :=
  match i with
  | O => Some (w, l, dur, draw)
  | S i' =>
      match nth_error l i' with
      | None => None
      | Some a =>
          do x <- anims w !! a;
          if _active x then
            do w <- tick w a date;
            items_loop i' date w l (if Num.lt dur (_total x) then _total x else dur) true
          else
            items_loop i' date w (removelast (<[i' := List.last l a]> l)) dur draw
      end
  end.
Definition update_chart (w : world) (date : num) (chart : nat) (x : canims)
  : option (world * canims * list output) :=
  match running x, items x with
  | true, (_ :: _) as l =>
      do (w, l, dur, draw) <- items_loop (List.length l) date w l (cduration x) false;
      let x := mkCanims (running x) (initial x) l (complete_ls x) (progress_ls x) (cstart x) dur in
      let out := if draw : bool then Draw chart :: notify chart x date progress else [] in
      match l with
      | [] => let x := mkCanims false (initial x) [] (complete_ls x) (progress_ls x) (cstart x) dur in
              Some (w, mkCanims false false [] (complete_ls x) (progress_ls x) (cstart x) dur,
                    out ++ notify chart x date complete)
      | _ => Some (w, x, out)
      end
  | _, _ => Some (w, x, [])
  end.
Fixpoint update_charts (w : world) (date : num) (l : list (nat * canims))
  : option (world * list (nat * canims) * list output * nat) :=
  match l with
  | [] => Some (w, [], [], 0%nat)
  | (c, x) :: r =>
      do (w, y, out) <- update_chart w date c x;
      do (w, r, out', rem) <- update_charts w date r;
      let counted := running x && match items x with [] => false | _ => true end in
      Some (w, (c, y) :: r, out ++ out', ((if counted then List.length (items y) else 0) + rem)%nat)
  end.
Definition _update (w : world) (t : animator) (date : num) : option (world * animator * list output) :=
  do (w, l, out, remaining) <- update_charts w date (_charts t);
  Some (w, mkAnimator (_request t) l (if Nat.eqb remaining 0 then false else _running t) (Some date), out).

(** The requested frame: update, then another request while running. *)
Definition frame (w : world) (t : animator) : option (world * animator * list output) :=
  do (w, t, out) <- _update w t (now w);
  let t := mkAnimator false (_charts t) (_running t) (_lastDate t) in
  Some (w, if _running t then _refresh t else t, out).

End Lib.
End Anim.

(** ** Facts *)
Module TimingFacts.
Import Timing.

(** However often the throttled function is called before the frame, one
    frame is requested and the frame runs the function once, with the arguments
    of the last call. *)
Theorem throttle_last {A B} (updateArgs : A -> B) (calls : list A) (last : A) (t : throttle) :
  ticking t = false ->
  let run := fold_left (fun acc c => let '(t, n) := acc in
    let '(t, r) := throttle_call updateArgs t c in (t, if r : bool then S n else n)) (calls ++ [last]) (t, 0%nat) in
  snd run = 1%nat /\ throttle_frame (fst run) = (mkThrottle false (Some (updateArgs last)), Some (updateArgs last)).
Proof.
  intros T. cbn zeta. rewrite fold_left_app.
  assert (G : forall l t n, let r := fold_left (fun acc c => let '(t, n) := acc in
    let '(t, r) := throttle_call updateArgs t c in (t, if r : bool then S n else n)) l (t, n) in
    (l = [] /\ r = (t, n)) \/ (ticking (fst r) = true /\ snd r = if ticking t then n else S n)).
  { clear. induction l as [|c l IH]; intros t n; cbn [fold_left]; [left; auto|]. right.
    destruct (IH (mkThrottle true (Some (updateArgs c))) (if negb (ticking t) then S n else n))
      as [[-> E]|[E1 E2]].
    - cbn. now destruct (ticking t).
    - split; [exact E1|]. refine (eq_trans E2 _). cbn. now destruct (ticking t). }
  specialize (G calls t 0%nat). cbn zeta in G. destruct (fold_left _ calls _) as [t' n].
  cbn [fold_left fst snd]. destruct G as [[-> [= -> ->]]|[G1 G2]].
  - unfold throttle_call. rewrite T. auto.
  - cbn [fst snd] in *. rewrite T in G2. subst. unfold throttle_call. rewrite G1. auto.
Qed.
End TimingFacts.

Module AnimFacts.
Import Obj Js Core Options Easing Anim.

Section Lib.
Context `{MathLib} (call_fn : string -> interp).

(** *** Single animations *)

Lemma clamp_unit z : Num.is_nan (Num.min 1%js (Num.max 0%js z)) = false ->
  Num.le 0%js (Num.min 1%js (Num.max 0%js z)) = true /\ Num.le (Num.min 1%js (Num.max 0%js z)) 1%js = true.
Proof.
  rewrite NumFacts.is_nan_min, NumFacts.is_nan_max. intros N.
  assert (Nz : Num.is_nan z = false) by (now destruct (Num.is_nan z)).
  assert (Nm : Num.is_nan (Num.max 0%js z) = false) by (rewrite NumFacts.is_nan_max; now rewrite Nz).
  split; [|apply NumFacts.min_le_l; auto].
  apply NumFacts.min_glb; [reflexivity|]. apply NumFacts.le_max_l; auto.
Qed.

Lemma settle_notpending r ps i j : settle r ps i !! j =
  if decide (i = j) then match ps !! j with Some Pending => Some r | x => x end else ps !! j.
Proof.
  unfold settle. destruct (decide (i = j)) as [->|N].
  - destruct (ps !! j) as [[]|] eqn:E; rewrite ?E; auto. apply lookup_insert_eq.
  - destruct (ps !! i) as [[]|]; auto. now apply lookup_insert_ne.
Qed.

Lemma settle_all r l : forall ps j, fold_left (settle r) l ps !! j =
  if decide (j ∈ l) then match ps !! j with Some Pending => Some r | x => x end else ps !! j.
Proof.
  induction l as [|i l IH]; intros ps j; cbn [fold_left].
  - now rewrite decide_False by (rewrite elem_of_nil; tauto).
  - rewrite IH, settle_notpending. destruct (decide (i = j)) as [->|N].
    + rewrite (decide_True (P := j ∈ j :: l)) by now left.
      destruct (decide (j ∈ l)); [|reflexivity]. destruct (ps !! j) as [[]|]; try reflexivity. now destruct r.
    + destruct (decide (j ∈ l)).
      * now rewrite decide_True by now right.
      * rewrite decide_False; [reflexivity|]. rewrite elem_of_cons. intuition.
Qed.

Lemma anims_write w o p v : anims (write_prop w o p v) = anims w.
Proof. unfold write_prop. now destruct (objects w !! o). Qed.
Lemma anims_notify w x b : anims (_notify w x b) = anims w.
Proof. reflexivity. Qed.

Lemma read_notify w x b o p : read_prop (_notify w x b) o p = read_prop w o p.
Proof. reflexivity. Qed.

Lemma read_write w o p v : is_Some (objects w !! o) -> read_prop (write_prop w o p v) o p = v.
Proof.
  intros [x E]. unfold write_prop, read_prop. rewrite E. cbn [objects set_object].
  rewrite lookup_insert_eq. cbn [own]. now rewrite get_put_eq.
Qed.
Lemma read_write_ne w o p v o' p' : (o, p) <> (o', p') ->
  read_prop (write_prop w o p v) o' p' = read_prop w o' p'.
Proof.
  intros N. unfold write_prop. destruct (objects w !! o) as [x|] eqn:E; [|reflexivity].
  unfold read_prop. cbn [objects set_object]. destruct (decide (o = o')) as [<-|M].
  - rewrite lookup_insert_eq, E. cbn [own]. rewrite get_put_ne; [reflexivity|congruence].
  - now rewrite lookup_insert_ne.
Qed.
Lemma objects_write_some w o p v o' : is_Some (objects (write_prop w o p v) !! o') <-> is_Some (objects w !! o').
Proof.
  unfold write_prop. destruct (objects w !! o) as [x|] eqn:E; [|reflexivity]. cbn [objects set_object].
  destruct (decide (o = o')) as [<-|M]; [rewrite lookup_insert_eq, E|rewrite lookup_insert_ne by auto]; split; eauto.
Qed.

(** Times in whole milliseconds, as [Date.now] and [Math.floor] give them. *)
Definition timed (x : animation) (s d : Z) : Prop :=
  _start x = Num.of_Z s /\ _duration x = Num.of_Z d /\ Z.abs s <= 2 ^ 50 /\ Z.abs d <= 2 ^ 50.

Lemma tick_active_time x s d t : timed x s d -> Z.abs t <= 2 ^ 50 ->
  tick_active x (Num.of_Z t) = negb (strict_eq (_from x) (_to x)) && (_loop x || (t <? s + d)).
Proof.
  intros (Es & Ed & Bs & Bd) Bt. unfold tick_active. rewrite Es, Ed.
  rewrite NumFacts.of_Z_sub, NumFacts.of_Z_lt by (unfold NumFacts.safe; lia). do 2 f_equal.
  destruct (Z.ltb_spec (t - s) d), (Z.ltb_spec t (s + d)); lia.
Qed.

Lemma promises_write w o p v : promises (write_prop w o p v) = promises w.
Proof. unfold write_prop. now destruct (objects w !! o). Qed.

(** C19: an animation that does not loop, started at [s] for [d] milliseconds, is ended
    by a tick at [t] exactly when [s + d <= t] or there is nothing to animate: that
    tick does not throw, leaves the target property at the end value, deactivates the
    animation and resolves its pending promises.  A tick before that leaves the
    animation active and the promises as they were. *)
Theorem tick_finishes w a x s d t :
  anims w !! a = Some x -> is_Some (objects w !! _target x) -> timed x s d -> Z.abs t <= 2 ^ 50 ->
  _loop x = false ->
  (s + d <= t \/ strict_eq (_from x) (_to x) = true ->
   exists w', tick w a (Num.of_Z t) = Some w' /\ read_prop w' (_target x) (_prop x) = _to x /\
     active w' a = false /\
     (forall p, p ∈ _promises x -> promises w !! p = Some Pending -> promises w' !! p = Some Resolved)) /\
  (t < s + d -> strict_eq (_from x) (_to x) = false ->
   forall w', tick w a (Num.of_Z t) = Some w' -> active w' a = true /\ promises w' = promises w).
Proof.
  intros A O T Bt NL. pose proof (tick_active_time x s d t T Bt) as E. rewrite NL in E. cbn [orb] in E.
  unfold tick. rewrite A, E. cbn [_active with_active]. split.
  - intros C. replace (_ && _) with false.
    2: { destruct C as [C| ->]; [|reflexivity]. apply Z.ltb_ge in C. rewrite C. now rewrite andb_false_r. }
    cbn [negb]. eexists. split; [reflexivity|]. split; [|split].
    + rewrite read_notify. now apply read_write.
    + unfold active. rewrite anims_notify, anims_write. cbn [anims set_anim]. now rewrite lookup_insert_eq.
    + intros p I P. cbn [promises _notify set_promises]. rewrite settle_all. cbn [_promises with_active].
      rewrite decide_True by auto. rewrite promises_write. cbn [promises set_anim]. now rewrite P.
  - intros L F w'. apply Z.ltb_lt in L. rewrite F, L. cbn [negb andb].
    assert (W : forall v, let w1 := write_prop (set_anim w a (with_active x true)) (_target x) (_prop x) v in
      active w1 a = true /\ promises w1 = promises w).
    { intros v w1. unfold w1, active. rewrite anims_write, promises_write. cbn [anims set_anim].
      now rewrite lookup_insert_eq. }
    destruct (Num.lt _ 0%js); [intros [= <-]; apply W|]. destruct (_fn x); [|discriminate].
    intros [= <-]. apply W.
Qed.

(** While it is active, an animation writes its interpolation at an eased
    factor that starts from a number between 0 and 1 (a loop runs it back and
    forth), or its start value during the delay. *)
Theorem tick_interpolates w a x f date :
  anims w !! a = Some x -> is_Some (objects w !! _target x) -> _fn x = Some f ->
  tick_active x date = true ->
  Num.is_nan (tick_factor x date) = false ->
  exists w' t, tick w a date = Some w' /\ active w' a = true /\
    Num.le 0%js t = true /\ Num.le t 1%js = true /\
    read_prop w' (_target x) (_prop x) =
      (if Num.lt (date - _start x)%js 0%js then _from x else f (_from x) (_to x) (_easing x t)).
Proof.
  intros A O Fn T N. unfold tick. rewrite A, T, Fn. cbn [_active with_active negb].
  assert (B : Num.le 0%js (tick_factor x date) = true /\ Num.le (tick_factor x date) 1%js = true).
  { unfold tick_factor in *. now apply clamp_unit. }
  destruct (Num.lt _ 0%js) eqn:L.
  - eexists _, 0%js. split; [reflexivity|]. split.
    + unfold active. rewrite anims_write. cbn [anims set_anim]. now rewrite lookup_insert_eq.
    + split; [reflexivity|]. split; [reflexivity|]. now apply read_write.
  - eexists _, (tick_factor x date). split; [reflexivity|]. split.
    + unfold active. rewrite anims_write. cbn [anims set_anim]. now rewrite lookup_insert_eq.
    + destruct B. split; [auto|]. split; [auto|]. now apply read_write.
Qed.

(** What a tick does to the store of animations: the activity of its own. *)
Lemma tick_anims w a x date w' : anims w !! a = Some x -> tick w a date = Some w' ->
  anims w' = <[a := with_active x (tick_active x date)]> (anims w).
Proof.
  intros A T. unfold tick in T. rewrite A in T. cbn [_active with_active] in T.
  destruct (negb _); [injection T as <-; now rewrite anims_notify, anims_write|].
  destruct (Num.lt _ _); [injection T as <-; now rewrite anims_write|].
  destruct (_fn x); [|discriminate]. injection T as <-. now rewrite anims_write.
Qed.

(** *** The animator's update *)

(** Ticking the animation would not throw. *)
Definition tickable (w : world) (date : num) (a : nat) : Prop :=
  exists x, anims w !! a = Some x /\ (_active x = true -> tick_active x date = true -> _fn x <> None).
Definition ticked (x : animation) (date : num) : animation :=
  if _active x then with_active x (tick_active x date) else x.

Lemma tick_total w a x date : anims w !! a = Some x ->
  (tick_active x date = true -> _fn x <> None) -> exists w', tick w a date = Some w'.
Proof.
  intros A F. unfold tick. rewrite A. cbn [_active with_active].
  destruct (tick_active x date); cbn [negb]; [|eauto].
  destruct (Num.lt _ _); [eauto|]. destruct (_fn x); [eauto|]. now destruct F.
Qed.

Lemma items_loop_step_keep l V (a : nat) : nth_error ((l ++ [a]) ++ V) (List.length l) = Some a.
Proof. rewrite <- app_assoc. rewrite List.nth_error_app2 by lia. now rewrite Nat.sub_diag. Qed.

(** Replacing the item by the last one and popping removes it. *)
Lemma swap_remove (l : list nat) a V :
  exists V', removelast (<[List.length l := List.last ((l ++ [a]) ++ V) a]> ((l ++ [a]) ++ V)) = l ++ V' /\
             Permutation V' V.
Proof.
  rewrite <- app_assoc. cbn [app].
  assert (I : forall v, <[List.length l := v]> (l ++ a :: V) = l ++ v :: V).
  { intros v. replace (List.length l) with (List.length l + 0)%nat by lia. now rewrite insert_app_r. }
  rewrite I. destruct V as [|b V _] using rev_ind.
  - exists []. rewrite removelast_last. now rewrite app_nil_r.
  - exists (b :: V). replace (List.last (l ++ a :: V ++ [b]) a) with b.
    + replace (l ++ b :: V ++ [b]) with ((l ++ b :: V) ++ [b]) by (now rewrite <- app_assoc).
      rewrite removelast_last. split; [reflexivity|]. apply Permutation_cons_append.
    + replace (l ++ a :: V ++ [b]) with ((l ++ a :: V) ++ [b]) by (now rewrite <- app_assoc).
      symmetry. apply List.last_last.
Qed.

Lemma items_loop_spec date : forall l V w dur draw,
  base.NoDup l -> Forall (tickable w date) l ->
  exists w' l' dur' draw', items_loop (List.length l) date w (l ++ V) dur draw = Some (w', l', dur', draw') /\
    Permutation l' (List.filter (active w) l ++ V) /\
    (forall a, a ∉ l -> anims w' !! a = anims w !! a) /\
    (forall a x, a ∈ l -> anims w !! a = Some x -> anims w' !! a = Some (ticked x date)) /\
    draw' = draw || existsb (active w) l.
Proof.
  intros l. induction l as [|a l IH] using rev_ind; intros V w dur draw N T.
  { exists w, V, dur, draw. cbn. rewrite orb_false_r. repeat split; auto. intros a x I. now apply elem_of_nil in I. }
  apply NoDup_app in N as (N & D & _). apply Forall_app in T as [T Ta].
  apply Forall_singleton in Ta as (x & A & F).
  rewrite List.length_app, Nat.add_comm. cbn [List.length Nat.add items_loop].
  rewrite items_loop_step_keep, A.
  assert (Nl : a ∉ l) by (intros I; apply (D a I); now apply list_elem_of_singleton).
  rewrite List.filter_app, List.existsb_app. cbn [List.filter existsb]. unfold active at 2 4. rewrite A.
  destruct (_active x) eqn:E.
  - destruct (tick_total w a x date A (F eq_refl)) as [w1 Tk]. rewrite Tk.
    pose proof (tick_anims w a x date w1 A Tk) as A1.
    assert (Same : forall b, b ∈ l -> anims w1 !! b = anims w !! b).
    { intros b I. rewrite A1, lookup_insert_ne; [reflexivity|]. intros ->. now apply Nl. }
    destruct (IH (a :: V) w1 (if Num.lt dur (_total x) then _total x else dur) true N) as (w' & l' & dur' & draw' & R & P & O & K & Dr).
    { apply Forall_forall. intros b I. rewrite Forall_forall in T. destruct (T b I) as (y & B & G).
      exists y. now rewrite Same. }
    exists w', l', dur', draw'. rewrite <- app_assoc. split; [exact R|].
    assert (Fl : List.filter (active w1) l = List.filter (active w) l).
    { apply List.filter_ext_in. intros b I. unfold active. now rewrite Same by now apply list_elem_of_In. }
    repeat split.
    + rewrite P, Fl. rewrite <- app_assoc. reflexivity.
    + intros b I. rewrite not_elem_of_app, list_elem_of_singleton in I. rewrite O by tauto.
      rewrite A1. apply lookup_insert_ne. intuition.
    + intros b y I B. apply elem_of_app in I as [I|I].
      * apply K; auto. now rewrite Same.
      * apply list_elem_of_singleton in I. subst. assert (x = y) by congruence. subst.
        rewrite O by auto. rewrite A1, lookup_insert_eq. unfold ticked. now rewrite E.
    + subst. cbn. now rewrite !orb_true_r.
  - destruct (swap_remove l a V) as (V' & -> & PV).
    destruct (IH V' w dur draw N T) as (w' & l' & dur' & draw' & R & P & O & K & Dr).
    exists w', l', dur', draw'. split; [exact R|]. repeat split.
    + rewrite P, app_nil_r. now rewrite PV.
    + intros b I. rewrite not_elem_of_app in I. apply O. tauto.
    + intros b y I B. apply elem_of_app in I as [I|I]; [now apply K|].
      apply list_elem_of_singleton in I. subst. assert (x = y) by congruence. subst.
      rewrite O by auto. unfold ticked. now rewrite E.
    + subst. now rewrite !orb_false_r.
Qed.

Lemma update_chart_spec w date chart x :
  running x = true -> items x <> [] -> base.NoDup (items x) -> Forall (tickable w date) (items x) ->
  exists w' x' out, update_chart w date chart x = Some (w', x', out) /\
    Permutation (items x') (List.filter (active w) (items x)) /\
    (forall a, a ∉ items x -> anims w' !! a = anims w !! a) /\
    (forall a y, a ∈ items x -> anims w !! a = Some y -> anims w' !! a = Some (ticked y date)) /\
    (In (Draw chart) out <-> existsb (active w) (items x) = true) /\
    (running x' = existsb (active w) (items x)).
Proof.
  intros Rn Ne Nd T. unfold update_chart. rewrite Rn. destruct (items x) as [|a0 l0] eqn:I; [congruence|].
  rewrite <- I in *. clear Ne.
  destruct (items_loop_spec date (items x) [] w (cduration x) false Nd T)
    as (w' & l' & dur' & draw' & R & P & O & K & Dr).
  rewrite !app_nil_r in *. rewrite R. cbn [orb] in Dr.
  assert (Dn : draw' = true <-> l' <> []).
  { subst draw'. rewrite List.existsb_exists. split.
    - intros (b & B & Ab) ->. apply Permutation_nil in P.
      assert (In b (List.filter (active w) (items x))) as J by now apply filter_In. now rewrite P in J.
    - intros N. destruct (List.filter (active w) (items x)) as [|b f] eqn:F.
      + apply Permutation_sym, Permutation_nil in P. congruence.
      + exists b. apply filter_In. rewrite F. now left. }
  assert (Nn : forall c y d e, ~ In (Draw c) (notify chart y d e)).
  { intros c y d e J. unfold notify in J. apply in_map_iff in J as (cb & J & _). discriminate. }
  destruct l' as [|b l'].
  - assert (draw' = false) as Df by (destruct draw'; [exfalso; now apply Dn|reflexivity]).
    rewrite Df. eexists _, _, _. split; [reflexivity|]. cbn [items running app].
    rewrite <- Dr, Df. repeat split; auto; [intros J; exfalso; now apply Nn in J|discriminate].
  - assert (draw' = true) as Dt by (apply Dn; congruence).
    rewrite Dt. eexists _, _, _. split; [reflexivity|]. cbn [items running].
    rewrite <- Dr, Dt. repeat split; auto. intros _. now left.
Qed.

(** C18: one update of a running chart ticks each active item exactly once, at the
    update's date, and keeps exactly the items that were active; the others are
    only removed.  It draws when an item was ticked, and stops, with the
    completion callbacks, exactly when no item was active any more. *)
Theorem update_chart_items w date chart x :
  running x = true -> items x <> [] -> base.NoDup (items x) -> Forall (tickable w date) (items x) ->
  exists w' x' out, update_chart w date chart x = Some (w', x', out) /\
    Permutation (items x') (List.filter (active w) (items x)) /\
    (forall a, a ∉ items x -> anims w' !! a = anims w !! a) /\
    (forall a y, a ∈ items x -> anims w !! a = Some y -> anims w' !! a = Some (ticked y date)) /\
    (In (Draw chart) out <-> existsb (active w) (items x) = true) /\
    (running x' = existsb (active w) (items x)).
Proof. apply update_chart_spec. Qed.

(** A running chart whose animations are all over stops after at most two
    updates: the first leaves no active animation, and the second, if it is still
    needed, empties the list and reports completion. *)
Theorem finished_chart_stops w date chart x :
  running x = true -> items x <> [] -> base.NoDup (items x) ->
  Forall (fun a => exists y, anims w !! a = Some y /\ tick_active y date = false) (items x) ->
  exists w1 x1 out1, update_chart w date chart x = Some (w1, x1, out1) /\
    ((running x1 = false /\ items x1 = []) \/
     exists w2 x2 out2, update_chart w1 date chart x1 = Some (w2, x2, out2) /\
       running x2 = false /\ items x2 = []).
Proof.
  intros Rn Ne Nd T.
  assert (T0 : Forall (tickable w date) (items x)).
  { eapply Forall_impl; [exact T|]. intros a (y & A & F). exists y. split; [auto|congruence]. }
  destruct (update_chart_spec w date chart x Rn Ne Nd T0) as (w1 & x1 & o1 & U & P & O & K & _ & R1).
  exists w1, x1, o1. split; [exact U|].
  destruct (items x1) as [|a l] eqn:I1.
  - left. split; [|reflexivity]. rewrite R1. destruct (existsb _ _) eqn:E; [|reflexivity].
    apply List.existsb_exists in E as (b & B & Ab). apply Permutation_nil in P.
    assert (In b (List.filter (active w) (items x))) as J by now apply filter_In. now rewrite P in J.
  - right. rewrite <- I1 in *.
    assert (Sub : forall b, b ∈ items x1 -> b ∈ items x).
    { intros b B. rewrite P in B. apply list_elem_of_In in B. apply filter_In in B as [B _]. now apply list_elem_of_In. }
    assert (In1 : Forall (fun b => exists y, anims w1 !! b = Some y /\ _active y = false) (items x1)).
    { apply Forall_forall. intros b B. rewrite Forall_forall in T. destruct (T b (Sub b B)) as (y & A & F).
      exists (ticked y date). split; [apply K; auto|]. unfold ticked. rewrite F.
      destruct (_active y) eqn:E; [reflexivity|exact E]. }
    assert (R1t : running x1 = true).
    { rewrite R1. apply List.existsb_exists. exists a.
      assert (J : In a (List.filter (active w) (items x))) by (eapply Permutation_in; [exact P|rewrite I1; now left]).
      now apply filter_In in J. }
    assert (Nd1 : base.NoDup (items x1)) by (rewrite P; now apply filter_NoDup_base).
    destruct (update_chart_spec w1 date chart x1 R1t) as (w2 & x2 & o2 & U2 & P2 & _ & _ & _ & R2); auto.
    { rewrite I1. discriminate. }
    { eapply Forall_impl; [exact In1|]. intros b (y & A & F). exists y. split; [auto|congruence]. }
    exists w2, x2, o2. split; [exact U2|].
    assert (E : existsb (active w1) (items x1) = false).
    { apply not_true_is_false. intros E. apply List.existsb_exists in E as (b & B & Ab).
      rewrite Forall_forall in In1. destruct (In1 b) as (y & A & F); [now apply list_elem_of_In|].
      unfold active in Ab. rewrite A in Ab. congruence. }
    rewrite R2, E. split; [reflexivity|].
    destruct (List.filter (active w1) (items x1)) as [|b f] eqn:F; [now apply Permutation_sym, Permutation_nil in P2|].
    assert (J : In b (List.filter (active w1) (items x1))) by (rewrite F; now left).
    apply filter_In in J as [J1 J2]. assert (existsb (active w1) (items x1) = true); [|congruence].
    apply List.existsb_exists. eauto.
Qed.

(** *** Frame requests *)

(** The operations of the animator, as steps; a frame fires when it was requested. *)
Inductive astep : world * animator -> world * animator -> Prop :=
| s_listen w t c e cb : astep (w, t) (w, listen t c e cb)
| s_add w t c l : astep (w, t) (w, add t c l)
| s_has w t c : astep (w, t) (w, fst (has t c))
| s_start w t c : astep (w, t) (w, start w t c)
| s_stop w t c w' t' out : stop w t c = Some (w', t', out) -> astep (w, t) (w', t')
| s_remove w t c : astep (w, t) (w, remove t c)
| s_frame w t w' t' out : _request t = true -> frame w t = Some (w', t', out) -> astep (w, t) (w', t')
| s_world w w' t : astep (w, t) (w', t).
Definition new_animator : animator := mkAnimator false [] false None.
Inductive reachable : world * animator -> Prop :=
| r_new w : reachable (w, new_animator)
| r_step a b : reachable a -> astep a b -> reachable b.

Definition charts_ok (l : list (nat * canims)) : Prop := List.NoDup (List.map fst l).

Lemma chart_put_keys c x l : List.map fst (chart_put l c x) =
  if existsb (Nat.eqb c) (List.map fst l) then List.map fst l else List.map fst l ++ [c].
Proof.
  induction l as [|[d y] r IH]; cbn; [reflexivity|]. destruct (Nat.eqb c d) eqn:E; cbn; [reflexivity|].
  rewrite IH. now destruct (existsb _ _).
Qed.
Lemma chart_put_ok c x l : charts_ok l -> charts_ok (chart_put l c x).
Proof.
  unfold charts_ok. rewrite chart_put_keys. destruct (existsb _ _) eqn:E; [auto|]. intros N.
  apply NoDup_snoc; auto. intros I. assert (existsb (Nat.eqb c) (List.map fst l) = true); [|congruence].
  apply List.existsb_exists. exists c. split; [auto|apply Nat.eqb_refl].
Qed.

Lemma update_charts_keys w date l w' l' out n : update_charts w date l = Some (w', l', out, n) ->
  List.map fst l' = List.map fst l.
Proof.
  revert w w' l' out n. induction l as [|[c x] r IH]; cbn; intros w w' l' out n.
  - now intros [= <- <- <- <-].
  - destruct (update_chart w date c x) as [[[w1 y] o1]|]; [|discriminate].
    destruct (update_charts w1 date r) as [[[[w2 r2] o2] rem]|] eqn:U; [|discriminate].
    intros [= <- <- <- <-]. cbn. f_equal. eauto.
Qed.

Lemma frame_sync w t w' t' out : frame w t = Some (w', t', out) -> _request t' = _running t'.
Proof.
  unfold frame. destruct (_update w t (now w)) as [[[w1 t1] o1]|]; [|discriminate].
  intros [= <- <- <-]. cbn. destruct (_running t1) eqn:E; cbn; auto.
Qed.

(** C5: in every reachable state a frame is requested exactly when the animator
    is running, so at most one frame is outstanding and a running animator is
    never left without one; and a chart has at most one list of animations. *)
Theorem one_frame_requested w t : reachable (w, t) ->
  _request t = _running t /\ charts_ok (_charts t).
Proof.
  intros R. remember (w, t) as s eqn:E. revert w t E. induction R as [w0|a b R IH St]; intros w t E.
  - injection E as <- <-. split; [reflexivity|]. constructor.
  - assert (G : forall t c, _request t = _running t /\ charts_ok (_charts t) ->
      let t' := fst (_getAnims t c) in _request t' = _running t' /\ charts_ok (_charts t')).
    { intros t0 c [Q1 Q2]. unfold _getAnims. destruct (chart_get _ _); cbn; auto using chart_put_ok. }
    destruct St as [w0 t0 c e cb|w0 t0 c l|w0 t0 c|w0 t0 c|w0 t0 c w1 t1 out S1|w0 t0 c|w0 t0 w1 t1 out Rq F|w0 w1 t0];
      injection E as <- <-; specialize (IH _ _ eq_refl); try (specialize (G t0 c IH)).
    + unfold listen. destruct (_getAnims t0 c) as [t1 x]. cbn in *. split; [tauto|]. apply chart_put_ok. tauto.
    + unfold add. destruct l; [auto|]. destruct (_getAnims t0 c) as [t1 x]. cbn in *. split; [tauto|]. apply chart_put_ok. tauto.
    + unfold has. now destruct (_getAnims t0 c) as [t1 x].
    + unfold start. destruct (chart_get _ _); [|auto]. unfold _refresh. cbn. destruct IH as [I1 I2].
      destruct (_request t0) eqn:Q; cbn; rewrite ?Q; auto using chart_put_ok.
    + unfold stop in S1. destruct (chart_get _ _) as [x|]; [|injection S1 as <- <- <-; auto].
      destruct (items x); [injection S1 as <- <- <-; auto|].
      destruct (cancel_all _ _) as [w2|]; [|discriminate]. injection S1 as <- <- <-. cbn.
      split; [tauto|]. apply chart_put_ok. tauto.
    + cbn. split; [tauto|]. destruct IH as [_ N]. unfold charts_ok in *. clear -N.
      induction (_charts t0) as [|[d y] l IHl]; cbn in *; [constructor|]. inversion N as [|? ? N1 N2]; subst.
      destruct (negb _); cbn; [constructor; auto|auto].
      intros I. apply in_map_iff in I as (p & <- & I). apply filter_In in I as [I _]. apply N1. now apply in_map.
    + split; [now apply frame_sync in F|]. unfold frame, _update in F.
      destruct (update_charts w0 (now w0) (_charts t0)) as [[[[w2 l2] o2] n2]|] eqn:U; [|discriminate].
      injection F as <- <- <-. apply update_charts_keys in U. cbn.
      unfold _refresh. cbn. destruct (if Nat.eqb n2 0 then false else _running t0); cbn; unfold charts_ok; rewrite U; apply IH.
    + auto.
Qed.

(** *** Shared options are copied before they are written *)
Section Frozen.
Variable F : nat -> Prop.

(** No animation writes to an object of [F], and its objects exist already. *)
Definition guarded (w : world) : Prop :=
  (forall a x, anims w !! a = Some x -> ~ F (_target x)) /\ (forall s, F s -> (s < next w)%nat).
Definition kept (w w' : world) : Prop :=
  guarded w' /\ forall s, F s -> objects w' !! s = objects w !! s.

Lemma kept_refl w : guarded w -> kept w w.
Proof. split; auto. Qed.
Lemma kept_trans a b c : kept a b -> kept b c -> kept a c.
Proof. intros [_ K1] [G K2]. split; [auto|]. intros s Fs. rewrite K2, K1; auto. Qed.

Lemma kept_write_prop w o p v : guarded w -> ~ F o -> kept w (write_prop w o p v).
Proof.
  intros [G1 G2] N. unfold write_prop. destruct (objects w !! o); [|now split].
  split; [split; auto|]. intros s Fs. cbn. apply lookup_insert_ne. congruence.
Qed.
Lemma kept_object w o x : guarded w -> ~ F o -> kept w (set_object w o x).
Proof. intros [G1 G2] N. split; [split; auto|]. intros s Fs. cbn. apply lookup_insert_ne. congruence. Qed.
Lemma kept_anim w a x : guarded w -> ~ F (_target x) -> kept w (set_anim w a x).
Proof.
  intros [G1 G2] N. split; [split; auto|auto]. intros b y. cbn.
  destruct (decide (a = b)) as [->|M]; [rewrite lookup_insert_eq; congruence|rewrite lookup_insert_ne by auto; apply G1].
Qed.
Lemma kept_notify w x b : guarded w -> kept w (_notify w x b).
Proof. intros G. split; auto. Qed.
Lemma kept_write_options w t o : guarded w -> ~ F t -> kept w (write_options w t o).
Proof. intros G N. unfold write_options. destruct (_ !! _); [now apply kept_object|now apply kept_refl]. Qed.
Lemma kept_set_running w t r : guarded w -> ~ F t -> kept w (set_running w t r).
Proof. intros G N. unfold set_running. destruct (_ !! _); [now apply kept_object|now apply kept_refl]. Qed.
Lemma kept_guarded w w' : kept w w' -> guarded w'.
Proof. now intros []. Qed.

Lemma kept_tick w a date w' : guarded w -> tick w a date = Some w' -> kept w w'.
Proof.
  intros G T. unfold tick in T. destruct (anims w !! a) as [x|] eqn:A; [|discriminate].
  pose proof (proj1 G _ _ A) as N. set (x' := with_active x _) in *.
  assert (K : kept w (set_anim w a x')) by (apply kept_anim; auto).
  assert (K' : forall v, kept w (write_prop (set_anim w a x') (_target x) (_prop x) v)).
  { intros v. eapply kept_trans; [exact K|]. apply kept_write_prop; [eapply kept_guarded, K|auto]. }
  destruct (negb _).
  - injection T as <-. eapply kept_trans; [apply K'|]. apply kept_notify, (kept_guarded _ _ (K' _)).
  - destruct (Num.lt _ _); [injection T as <-; apply K'|].
    destruct (_fn x); [injection T as <-; apply K'|discriminate].
Qed.

Lemma kept_cancel w a w' : guarded w -> cancel w a = Some w' -> kept w w'.
Proof.
  intros G C. unfold cancel in C. destruct (anims w !! a) as [x|] eqn:A; [|discriminate].
  destruct (_active x); [|injection C as <-; now apply kept_refl].
  destruct (tick w a (now w)) as [w1|] eqn:T; [|discriminate].
  pose proof (kept_tick w a _ w1 G T) as K. pose proof (kept_guarded _ _ K) as G1.
  destruct (anims w1 !! a) as [y|] eqn:A1; [|discriminate]. injection C as <-.
  pose proof (proj1 G1 _ _ A1). eapply kept_trans; [exact K|].
  assert (K2 : kept w1 (set_anim w1 a (with_active y false))) by (apply kept_anim; auto).
  eapply kept_trans; [exact K2|]. apply kept_notify, (kept_guarded _ _ K2).
Qed.

Lemma kept_update w a cfg v date : guarded w -> kept w (update w a cfg v date).
Proof.
  intros G. unfold update. destruct (anims w !! a) as [x|] eqn:A; [|now apply kept_refl].
  destruct (_active x); [|now apply kept_refl].
  assert (K : kept w (_notify w x false)) by now apply kept_notify.
  eapply kept_trans; [exact K|]. apply kept_anim; [exact (kept_guarded _ _ K)|exact (proj1 G _ _ A)].
Qed.

Lemma kept_start_prop cfg w t k v : guarded w -> ~ F t -> kept w (fst (start_prop call_fn cfg w t k v)).
Proof.
  intros G N. unfold start_prop. destruct cfg as [c|]; [|now apply kept_write_prop].
  destruct (truthy _); [|now apply kept_write_prop]. cbn [fst].
  match goal with |- kept w (set_running ?w1 _ _) => assert (K : kept w w1) end.
  { destruct G as [G1 G2]. split; [split|auto]; cbn.
    - intros a x. destruct (decide (next w = a)) as [<-|M].
      + rewrite lookup_insert_eq. intros [= <-]. exact N.
      + rewrite lookup_insert_ne by auto. apply G1.
    - intros s Fs. specialize (G2 s Fs). lia. }
  eapply kept_trans; [exact K|]. apply kept_set_running; [exact (kept_guarded _ _ K)|auto].
Qed.
Lemma kept_animate_prop ps w t k v date w' l : guarded w -> ~ F t ->
  animate_prop call_fn ps w t k v date = Some (w', l) -> kept w w'.
Proof.
  intros G N A. unfold animate_prop in A.
  assert (St : forall w1, kept w w1 -> Some (start_prop call_fn (prop_get ps k) w1 t k v) = Some (w', l) -> kept w w').
  { intros w1 K [= E]. eapply kept_trans; [exact K|].
    replace w' with (fst (start_prop call_fn (prop_get ps k) w1 t k v)) by now rewrite E.
    apply kept_start_prop; [exact (kept_guarded _ _ K)|auto]. }
  destruct (rget k _) as [a|]; [|apply (St w); auto using kept_refl].
  destruct (cancel w a) as [w1|] eqn:C; [pose proof (kept_cancel _ _ _ G C) as K|];
    destruct (prop_get ps k) as [c|], (active w a); try discriminate; eauto;
    injection A as <- <-; now apply kept_update.
Qed.

Lemma kept_create opts ps w t values w' l :
  (forall w0 o w' l, kept w w0 -> opts w0 o = Some (w', l) -> kept w0 w') ->
  guarded w -> ~ F t -> create_with call_fn opts ps w t values = Some (w', l) -> kept w w'.
Proof.
  intros Ho G N. unfold create_with. set (d := now w). clearbody d.
  assert (K0 : kept w (ensure_running w t)).
  { unfold ensure_running. destruct (objects w !! t) as [x|]; [|now apply kept_refl].
    destruct (animations x); [now apply kept_refl|now apply kept_set_running]. }
  revert K0. generalize (ensure_running w t) (@nil nat).
  induction (List.rev values) as [|[k v|o] r IH]; intros w0 acc K0 C.
  - injection C as <- <-. exact K0.
  - cbn in C. destruct (String.prefix "$" k); [eauto|].
    destruct (animate_prop _ _ _ _ _ _ _) as [[w1 l1]|] eqn:A; [|discriminate].
    pose proof (kept_animate_prop _ _ _ _ _ _ _ _ (kept_guarded _ _ K0) N A) as K.
    eapply IH; [|exact C]. eapply kept_trans; eauto.
  - cbn in C. destruct (opts w0 o) as [[w1 l1]|] eqn:A; [|discriminate].
    pose proof (Ho _ _ _ _ K0 A) as K. eapply IH; [|exact C]. eapply kept_trans; eauto.
Qed.

Lemma kept_wait w a w' p : guarded w -> wait w a = Some (w', p) -> kept w w'.
Proof.
  unfold wait. intros [G1 G2] W. destruct (anims w !! a) as [x|] eqn:A; [|discriminate]. injection W as <- <-.
  split; [split|auto]; cbn.
  - intros b y. destruct (decide (a = b)) as [<-|M]; [rewrite lookup_insert_eq; intros [= <-]; exact (G1 _ _ A)|
      rewrite lookup_insert_ne by auto; apply G1].
  - intros s Fs. specialize (G2 s Fs). lia.
Qed.
Lemma kept_wait_for r ks : forall w w' l, guarded w -> wait_for w r ks = Some (w', l) -> kept w w'.
Proof.
  induction ks as [|k ks IH]; intros w w' l G W; cbn in W; [injection W as <- <-; now apply kept_refl|].
  destruct (rget k r) as [a|]; [|eauto]. destruct (active w a); [|eauto].
  destruct (wait w a) as [[w1 p]|] eqn:E; [|discriminate].
  pose proof (kept_wait _ _ _ _ G E) as K. pose proof (kept_guarded _ _ K) as G1.
  destruct (wait_for w1 r ks) as [[w2 l2]|] eqn:E2; [|discriminate]. injection W as <- <-.
  eapply kept_trans; [exact K|eauto].
Qed.
Lemma kept_awaitAll w t o n w' : guarded w -> awaitAll w t o n = Some w' -> kept w w'.
Proof.
  unfold awaitAll. intros G A. destruct (objects w !! n) as [nx|]; [|discriminate].
  destruct (wait_for _ _ _) as [[w1 l]|] eqn:W; [|discriminate]. injection A as <-.
  exact (kept_wait_for _ _ _ _ _ G W).
Qed.
End Frozen.

Definition shared_in (w : world) (s : nat) : Prop := exists x, objects w !! s = Some x /\ shared x = true.

Lemma kept_resolveTargetOptions w w0 t n w1 o :
  kept (shared_in w) w w0 -> ~ shared_in w t -> resolveTargetOptions w0 t n = (w1, o) ->
  kept (shared_in w) w w1 /\ forall c, o = Some c -> ~ shared_in w c.
Proof.
  intros K N R. pose proof (kept_guarded _ _ _ K) as G. unfold resolveTargetOptions in R.
  destruct n as [n|]; [|injection R as <- <-; split; [exact K|discriminate]].
  destruct (objects w0 !! t) as [x|] eqn:T; [|injection R as <- <-; split; [exact K|discriminate]].
  destruct (options x) as [c|].
  2:{ injection R as <- <-. split; [|discriminate]. eapply kept_trans; [exact K|]. now apply kept_write_options. }
  assert (Sh : shared_in w c -> exists cx, objects w0 !! c = Some cx /\ shared cx = true).
  { intros Sc. pose proof Sc as (cx & C & Sx). exists cx. split; [|auto]. rewrite (proj2 K); auto. }
  destruct (objects w0 !! c) as [cx|] eqn:C.
  2:{ injection R as <- <-. split; [exact K|]. intros c' [= <-] Sc. destruct (Sh Sc) as (? & ? & _). congruence. }
  destruct (shared cx) eqn:Sx; injection R as <- <-.
  2:{ split; [exact K|]. intros c' [= <-] Sc. destruct (Sh Sc) as (? & ? & ?). congruence. }
  assert (Fr : ~ shared_in w (next w0)) by (intros Sc; apply (proj2 G) in Sc; lia).
  split; [|intros c' [= <-]; exact Fr]. eapply kept_trans; [exact K|].
  match goal with |- kept _ _ (write_options ?w2 _ _) => assert (K2 : kept (shared_in w) w0 w2) end.
  { destruct G as [G1 G2]. split; [split; cbn; auto|cbn].
    - intros s Fs. specialize (G2 s Fs). lia.
    - intros s Fs. apply lookup_insert_ne. intros <-. now apply Fr. }
  eapply kept_trans; [exact K2|]. apply kept_write_options; [exact (kept_guarded _ _ _ K2)|exact N].
Qed.

Lemma kept_animateOptions w ps t w0 n w1 l :
  ~ shared_in w t -> kept (shared_in w) w w0 ->
  _animateOptions call_fn ps t w0 n = Some (w1, l) -> kept (shared_in w) w0 w1.
Proof.
  intros N K0 A. unfold _animateOptions in A.
  destruct (resolveTargetOptions w0 t n) as [w2 o] eqn:R.
  pose proof (kept_resolveTargetOptions _ _ _ _ _ _ K0 N R) as [K2 No].
  assert (K3 : kept (shared_in w) w0 w2).
  { split; [exact (kept_guarded _ _ _ K2)|]. intros s Fs. rewrite (proj2 K2), (proj2 K0); auto. }
  destruct o as [o|]; [|injection A as <- <-; exact K3].
  destruct n as [n|]; [|injection A as <- <-; exact K3].
  destruct (objects w2 !! n) as [nx|]; [|discriminate].
  destruct (create_with _ _ _ _ _ _) as [[w3 l3]|] eqn:C; [|discriminate].
  apply (kept_create (shared_in w)) in C; auto; [|intros ? ? ? ? Kk [= <- <-]; exact (kept_refl _ _ (kept_guarded _ _ _ Kk))|exact (kept_guarded _ _ _ K2)].
  eapply kept_trans; [exact K3|]. destruct (shared nx).
  - destruct (awaitAll w3 t o n) as [w4|] eqn:W; [|discriminate]. injection A as <- <-.
    eapply kept_trans; [exact C|]. eapply kept_awaitAll; [exact (kept_guarded _ _ _ C)|exact W].
  - injection A as <- <-. exact C.
Qed.

(** Updating a target never writes to a shared options object: whatever is
    animated, every options object marked as shared (by which several targets
    refer to the same options) is the same afterwards, since it is copied for the
    target first. *)
Theorem shared_options_kept ps chart w t target values w' t' b s :
  guarded (shared_in w) w -> ~ shared_in w target ->
  Animations_update call_fn ps chart w t target values = Some (w', t', b) ->
  shared_in w s -> objects w' !! s = objects w !! s.
Proof.
  intros G N U Ss. set (F := shared_in w) in *.
  assert (K : kept F w w'); [|now apply K].
  unfold Animations_update in U. destruct ps as [|p ps'].
  - injection U as <- _ _. unfold assign. clear Ss s. assert (K0 : kept F w w) by now apply kept_refl.
    revert K0. generalize w at 2 4. induction values as [|[k v|o] r IH]; intros w1 K1; cbn; auto.
    + apply IH. eapply kept_trans; [exact K1|]. apply kept_write_prop; [exact (kept_guarded _ _ _ K1)|auto].
    + apply IH. eapply kept_trans; [exact K1|]. apply kept_write_options; [exact (kept_guarded _ _ _ K1)|auto].
  - set (ps := p :: ps') in *. destruct (_createAnimations _ _ _ _ _) as [[w1 l]|] eqn:C; [|discriminate].
    assert (w1 = w') as <- by (destruct l; now injection U). clear U.
    apply (kept_create F (_animateOptions call_fn ps target) ps w target values w1 l); auto. clear C w1 l.
    intros w0 o w1 l K0. now apply kept_animateOptions.
Qed.

End Lib.

(** *** Examples: one target whose [x] goes from 0 to 10 in 100 ms *)

Definition demo_target : object := mkObject [("x"%string, VNum 0%js)] None false None.
Definition demo_anim : animation :=
  mkAnimation true (Some interpolate_number) linear 0%js 100%js 100%js false 1 "x" (VNum 0%js) (VNum 10%js) [5%nat].
Definition demo : world :=
  mkWorld {[1%nat := demo_target]} {[2%nat := demo_anim]} {[5%nat := Pending]} [] 6 50%js.
Definition demo_chart : canims := mkCanims true true [2%nat] [] [] 0%js 100%js.

Lemma one_frame_requested_witness :
  let t := start demo (add new_animator 7 [2%nat]) 7 in _request t = _running t /\ charts_ok (_charts t).
Proof.
  apply (one_frame_requested demo). apply r_step with (demo, add new_animator 7 [2%nat]); [|constructor].
  apply r_step with (demo, new_animator); constructor.
Defined.

Lemma update_chart_items_witness :
  exists w' x' out, update_chart demo 50%js 7 demo_chart = Some (w', x', out) /\
    Permutation (items x') [2%nat] /\ In (Draw 7) out /\ running x' = true.
Proof.
  destruct (update_chart_items demo 50%js 7 demo_chart) as (w' & x' & out & U & P & _ & _ & D & R).
  - reflexivity.
  - discriminate.
  - apply NoDup_ListNoDup. repeat constructor. intros [].
  - repeat constructor. exists demo_anim. split; [reflexivity|discriminate].
  - exists w', x', out. repeat split; [exact U|exact P|now apply D|exact R].
Defined.

Lemma tick_interpolates_witness :
  exists w', tick demo 2 50%js = Some w' /\ active w' 2 = true.
Proof.
  destruct (tick_interpolates demo 2 demo_anim interpolate_number 50%js) as (w' & t & T & A & _).
  - reflexivity.
  - eexists. reflexivity.
  - reflexivity.
  - vm_compute. reflexivity.
  - vm_compute. reflexivity.
  - eauto.
Defined.

(** The same, started 20 ms later: it ends at 120 and not at 119. *)
Definition late_anim : animation :=
  mkAnimation true (Some interpolate_number) linear (Num.of_Z 20) (Num.of_Z 100) 100%js false 1 "x"
    (VNum 0%js) (VNum 10%js) [5%nat].
Definition late : world := set_anim demo 2 late_anim.
Lemma tick_finishes_witness :
  (exists w', tick late 2 (Num.of_Z 120) = Some w' /\ read_prop w' 1 "x" = VNum 10%js /\
     promises w' !! 5%nat = Some Resolved) /\
  (forall w', tick late 2 (Num.of_Z 119) = Some w' -> active w' 2 = true).
Proof.
  assert (T : timed late_anim 20 100) by (repeat split; lia).
  assert (A : anims late !! 2%nat = Some late_anim) by reflexivity.
  assert (O : is_Some (objects late !! _target late_anim)) by (eexists; reflexivity).
  split.
  - destruct (tick_finishes late 2 late_anim 20 100 120 A O T ltac:(lia) eq_refl) as [F _].
    destruct F as (w' & E & R & _ & P); [left; lia|].
    exists w'. split; [exact E|]. split; [exact R|]. apply P; [now left|reflexivity].
  - intros w' E. destruct (tick_finishes late 2 late_anim 20 100 119 A O T ltac:(lia) eq_refl) as [_ F].
    destruct (F ltac:(lia) eq_refl w' E) as [K _]. exact K.
Defined.

Lemma finished_chart_stops_witness :
  exists w1 x1 out1, update_chart demo 200%js 7 demo_chart = Some (w1, x1, out1) /\
    ((running x1 = false /\ items x1 = []) \/
     exists w2 x2 out2, update_chart w1 200%js 7 x1 = Some (w2, x2, out2) /\ running x2 = false /\ items x2 = []).
Proof.
  apply (finished_chart_stops demo 200%js 7 demo_chart).
  - reflexivity.
  - discriminate.
  - apply NoDup_ListNoDup. repeat constructor. intros [].
  - repeat constructor. exists demo_anim. split; [reflexivity|]. vm_compute. reflexivity.
Defined.

(** Two targets, 1 and 2, share the options object 3; the first is given new ones. *)
Definition shared_world : world :=
  mkWorld {[1%nat := mkObject [] (Some 3%nat) false None; 2%nat := mkObject [] (Some 3%nat) false None;
            3%nat := mkObject [("r"%string, VNum 1%js)] None true None;
            4%nat := mkObject [("r"%string, VNum 2%js)] None false None]} ∅ ∅ [] 5 0%js.
Definition demo_lib : MathLib := Build_MathLib (fun x _ => x) (fun x => x) (fun x => x) (fun x => x) (fun x _ => x).
Definition demo_props : properties := [("r"%string, [("type"%string, VStr "number"); ("duration"%string, VNum 100%js)])].
Definition demo_update : option (world * animator * bool) :=
  @Animations_update demo_lib (fun _ => interpolate_number) demo_props 7 shared_world new_animator 1 [Options_ (Some 4%nat)].
Lemma shared_only_3 s : shared_in shared_world s -> s = 3%nat.
Proof.
  intros (x & X & Sx). unfold shared_world in X. cbn [objects] in X.
  repeat (apply lookup_insert_Some in X as [[<- <-]|[_ X]]; [reflexivity || discriminate|]).
  apply lookup_singleton_Some in X as [<- <-]. discriminate.
Qed.
Lemma shared_options_kept_witness :
  match demo_update with Some (w', _, b) => objects w' !! 3%nat = objects shared_world !! 3%nat | None => False end.
Proof.
  assert (D : match demo_update with Some _ => true | None => false end = true) by (vm_compute; reflexivity).
  destruct demo_update as [[[w' t'] b]|] eqn:U; [|discriminate].
  refine (@shared_options_kept demo_lib (fun _ => interpolate_number) demo_props 7 shared_world new_animator 1
            [Options_ (Some 4%nat)] w' t' b 3 _ _ U _).
  - split.
    + intros a x X. vm_compute in X. discriminate.
    + intros s Sh. apply shared_only_3 in Sh as ->. vm_compute. lia.
  - intros Sh. apply shared_only_3 in Sh. discriminate.
  - eexists. split; reflexivity.
Defined.
End AnimFacts.
