(* ===== verification/Layouts.v ===== *)
(** The box layout of webui/public/chart.js ([layouts]): the boxes of a chart
    (scales, legend, titles) are wrapped, sorted, measured by their own [update]
    until the chart area settles, and placed around it.

    Wraps, boxes and stacks are mutable and shared between the sorted lists, so
    the state holds them by index and by key, and the lists are lists of
    indices.  What a box does is the interface [BoxOps]. *)
From Stdlib Require Import ZArith Lia Bool List Ascii String Permutation Sorted.
From Stdlib Require Import SpecFloat.
From stdpp Require Import base list.
From S2P Require Import Prelude JsNumber NumExact JsString JsArray JsValue HelpersCore Options.
Import ListNotations.
Open Scope Z_scope.

Module Layouts.
Import Options.

Inductive side := Left | Top | Right | Bottom.
(** A position: a static side, another text, or an object. *)
Inductive position := Static (s : side) | Named (s : string) | Dynamic.
Definition side_name (s : side) : string :=
  match s with Left => "left" | Top => "top" | Right => "right" | Bottom => "bottom" end%string.
Definition pos_name (p : position) : string :=
  match p with Static s => side_name s | Named s => s | Dynamic => "[object Object]" end%string.
Definition side_eqb (a b : side) : bool :=
  match a, b with Left, Left | Top, Top | Right, Right | Bottom, Bottom => true | _, _ => false end.
Definition pos_is (s : side) (p : position) : bool := match p with Static t => side_eqb s t | _ => false end.

Definition get_side (s : side) (a : trbl) : num :=
  match s with Left => left a | Top => top a | Right => right a | Bottom => bottom a end.
Definition set_side (s : side) (a : trbl) (v : num) : trbl :=
  match s with
  | Left => mkTRBL (top a) (right a) (bottom a) v
  | Top => mkTRBL v (right a) (bottom a) (left a)
  | Right => mkTRBL (top a) v (bottom a) (left a)
  | Bottom => mkTRBL (top a) (right a) v (left a)
  end.

Section Boxes.
Context {S : Type}.

(** A box: what the layout reads and writes, and its own state. *)
Record box := mkBox {
  bpos : position; fullSize : bool; bweight : num; bstack : option string; bstackWeight : num;
  axis : string; hidden : bool;
  btop : num; bleft : num; bright : num; bbottom : num; bwidth : num; bheight : num;
  own : S }.

(** The methods of a box. *)
Class BoxOps := {
  isHorizontal : box -> bool;
  box_update : box -> num -> num -> trbl -> box;
  getPadding : box -> option trbl;
  beforeLayout : box -> box }.

(** A wrap; [lstack] is the key in the stacks, [lwidth] and [lheight] are zero
    where the code has false. *)
Record layout := mkLayout {
  index : nat; pos : position; horizontal : bool; weight : num; lstack : option string;
  stackWeight : num; lwidth : num; lheight : num; size : num }.
Record stack := mkStack { count : num; placed : num; sweight : num; ssize : num; sstart : option num }.
Record area := mkArea { maxPadding : trbl; dims : trbl; w : num; h : num; ax : num; ay : num }.
Record params := mkParams {
  outerWidth : num; outerHeight : num; padding : trbl; availableWidth : num; availableHeight : num;
  vBoxMaxWidth : num; hBoxMaxHeight : num }.

Record state := mkState {
  boxes : list box; layouts : list layout; stacks : list (string * stack); chartArea : area }.

Context `{BoxOps}.

(** ** Sorting and stacks *)
Definition filterByPosition (l : list layout) (s : side) : list layout :=
  List.filter (fun v => pos_is s (pos v)) l.
Definition filterDynamicPositionByAxis (bs : list box) (l : list layout) (a : string) : list layout :=
  List.filter (fun v => match pos v with Static _ => false | _ => true end &&
    match bs !! index v with Some b => String.eqb (axis b) a | None => false end) l.
Definition weight_cmp (reverse : bool) (a b : layout) : num :=
  let v0 := if reverse then b else a in
  let v1 := if reverse then a else b in
  if Num.eq (weight v0) (weight v1) then (Num.of_nat (index v0) - Num.of_nat (index v1))%js
  else (weight v0 - weight v1)%js.
Definition sortByWeight (l : list layout) (reverse : bool) : list layout := sort_by (weight_cmp reverse) l.

Definition wrapBox (i : nat) (b : box) : layout :=
  mkLayout i (bpos b) (isHorizontal b) (bweight b)
    (match bstack b with
     | Some s => if String.eqb s "" then None else Some (pos_name (bpos b) ++ s)%string
     | None => None end)
    (bstackWeight b) 0%js 0%js 0%js.
Definition wrapBoxes (bs : list box) : list layout := imap wrapBox bs.

Definition stack_get (ss : list (string * stack)) (k : option string) : option stack :=
  match k with
  | Some k => match List.find (fun p => String.eqb k (fst p)) ss with Some (_, s) => Some s | None => None end
  | None => None
  end.
Fixpoint stack_put (ss : list (string * stack)) (k : string) (s : stack) : list (string * stack) :=
  match ss with
  | [] => [(k, s)]
  | (j, t) :: r => if String.eqb k j then (j, s) :: r else (j, t) :: stack_put r k s
  end.
(** Writing a stack back: nothing for the temporary one of an unstacked box. *)
Definition stack_set (ss : list (string * stack)) (k : option string) (s : stack) : list (string * stack) :=
  match k, stack_get ss k with Some k, Some _ => stack_put ss k s | _, _ => ss end.

Definition buildStacks (l : list layout) : list (string * stack) :=
  fold_left (fun ss wrap =>
    match lstack wrap, pos wrap with
    | Some k, Static _ =>
        let s := match stack_get ss (Some k) with Some s => s | None => mkStack 0%js 0%js 0%js 0%js None end in
        stack_put ss k (mkStack (count s + 1)%js (placed s) (sweight s + stackWeight wrap)%js (ssize s) (sstart s))
    | _, _ => ss
    end) l [].

Definition truthy (x : num) : bool := negb (Num.is_nan x || Num.eq x 0%js).

Definition layoutDims (ss : list (string * stack)) (p : params) (bs : list box) (l : layout) : layout :=
  let full := match bs !! index l with Some b => fullSize b | None => false end in
  let factor := match stack_get ss (lstack l) with Some s => (stackWeight l / sweight s)%js | None => 0%js end in
  let along max avail := if truthy factor then (factor * max)%js else if full then avail else 0%js in
  let '(wd, ht) := if horizontal l
    then (along (vBoxMaxWidth p) (availableWidth p), hBoxMaxHeight p)
    else (vBoxMaxWidth p, along (hBoxMaxHeight p) (availableHeight p)) in
  mkLayout (index l) (pos l) (horizontal l) (weight l) (lstack l) (stackWeight l) wd ht (size l).
(** [setLayoutDims] on the listed wraps. *)
Definition setLayoutDims (st : state) (ids : list nat) (p : params) : state :=
  let ss := buildStacks (omap (fun i => layouts st !! i) ids) in
  mkState (boxes st)
    (fold_left (fun ls i => match ls !! i with
                            | Some l => <[i := layoutDims ss p (boxes st) l]> ls | None => ls end) ids (layouts st))
    ss (chartArea st).

Record layoutBoxes := mkLB {
  lb_fullSize : list nat; leftAndTop : list nat; rightAndBottom : list nat; lb_chartArea : list nat;
  lb_vertical : list nat; lb_horizontal : list nat }.
Definition buildLayoutBoxes (bs : list box) : layoutBoxes :=
  let ls := wrapBoxes bs in
  let ids := List.map index in
  let full := List.filter (fun l => match bs !! index l with Some b => fullSize b | None => false end) ls in
  let left := ids (sortByWeight (filterByPosition ls Left) true) in
  let right := ids (sortByWeight (filterByPosition ls Right) false) in
  let top := ids (sortByWeight (filterByPosition ls Top) true) in
  let bottom := ids (sortByWeight (filterByPosition ls Bottom) false) in
  let centerHorizontal := ids (filterDynamicPositionByAxis bs ls "x") in
  let centerVertical := ids (filterDynamicPositionByAxis bs ls "y") in
  mkLB (ids (sortByWeight full true)) (left ++ top)
    (right ++ centerVertical ++ bottom ++ centerHorizontal)
    (ids (List.filter (fun l => match pos l with Named s => String.eqb s "chartArea" | _ => false end) ls))
    (left ++ right ++ centerVertical) (top ++ bottom ++ centerHorizontal).

(** ** Fitting *)
Definition getCombinedMax (mp ca : trbl) (a b : side) : num :=
  (Num.max (get_side a mp) (get_side a ca) + Num.max (get_side b mp) (get_side b ca))%js.
Definition updateMaxPadding (mp bp : trbl) : trbl :=
  mkTRBL (Num.max (top mp) (top bp)) (Num.max (right mp) (right bp))
         (Num.max (bottom mp) (bottom bp)) (Num.max (left mp) (left bp)).

(** [updateDims] for the wrap [l] of the box [b]: the state, and whether the
    size along and across changed. *)
Definition updateDims (st : state) (p : params) (i : nat) (l : layout) (b : box) : state * bool * bool :=
  let ca := chartArea st in
  let '(ls, ss, dm) :=
    match pos l with
    | Dynamic => (layouts st, stacks st, dims ca)
    | ps =>
        let s := match stack_get (stacks st) (lstack l) with
                 | Some s => s | None => mkStack 1%js 0%js 1%js 0%js None end in
        let s := mkStack (count s) (placed s) (sweight s)
                   (Num.max (ssize s) (if horizontal l then bheight b else bwidth b)) (sstart s) in
        let sz := (ssize s / count s)%js in
        let l' := mkLayout (index l) (pos l) (horizontal l) (weight l) (lstack l) (stackWeight l)
                    (lwidth l) (lheight l) sz in
        (<[i := l']> (layouts st), stack_set (stacks st) (lstack l) s,
         match ps with
         | Static sd =>
             let v := get_side sd (dims ca) in
             let v := if truthy (size l) then (v - size l)%js else v in
             set_side sd (dims ca) (v + sz)%js
         | _ => dims ca
         end)
    end in
  let mp := match getPadding b with Some bp => updateMaxPadding (maxPadding ca) bp | None => maxPadding ca end in
  let newWidth := Num.max 0%js (outerWidth p - getCombinedMax mp dm Left Right)%js in
  let newHeight := Num.max 0%js (outerHeight p - getCombinedMax mp dm Top Bottom)%js in
  let widthChanged := negb (Num.eq newWidth (w ca)) in
  let heightChanged := negb (Num.eq newHeight (h ca)) in
  let st := mkState (boxes st) ls ss (mkArea mp dm newWidth newHeight (ax ca) (ay ca)) in
  if horizontal l then (st, widthChanged, heightChanged) else (st, heightChanged, widthChanged).

Definition getMargins (horizontal : bool) (ca : area) : trbl :=
  let m s := Num.max (get_side s (dims ca)) (get_side s (maxPadding ca)) in
  if horizontal then mkTRBL 0%js (m Right) 0%js (m Left) else mkTRBL (m Top) 0%js (m Bottom) 0%js.

(** One pass over the wraps: the wraps to fit again, whether one along size
    changed after the first of them, and whether one across size changed. *)
Fixpoint fit_pass (st : state) (p : params) (ids refitBoxes : list nat) (refit changed : bool)
  : state * list nat * bool * bool :=
  match ids with
  | [] => (st, refitBoxes, refit, changed)
  | i :: rest =>
      match layouts st !! i, boxes st !! i with
      | Some l, Some b =>
          let ca := chartArea st in
          let b := box_update b (if truthy (lwidth l) then lwidth l else w ca)
                     (if truthy (lheight l) then lheight l else h ca) (getMargins (horizontal l) ca) in
          let st := mkState (<[i := b]> (boxes st)) (layouts st) (stacks st) ca in
          let '(st, same, other) := updateDims st p i l b in
          fit_pass st p rest (if fullSize b then refitBoxes else refitBoxes ++ [i])
            (refit || (same && match refitBoxes with [] => false | _ => true end)) (changed || other)
      | _, _ => fit_pass st p rest refitBoxes refit changed
      end
  end.
(** [fitBoxes]; None: [fuel] passes do not settle. *)
Fixpoint fitBoxes (fuel : nat) (st : state) (p : params) (ids : list nat) : option (state * bool) :=
  match fuel with
  | O => None
  | Datatypes.S f =>
      let '(st, refitBoxes, refit, changed) := fit_pass st p ids [] false false in
      if refit then
        match fitBoxes f st p refitBoxes with
        | Some (st, c) => Some (st, c || changed)
        | None => None
        end
      else Some (st, changed)
  end.

Definition handleMaxPadding (ca : area) : area :=
  let change s := Num.max (get_side s (maxPadding ca) - get_side s (dims ca))%js 0%js in
  let upd s d := set_side s d (get_side s d + change s)%js in
  mkArea (maxPadding ca) (upd Bottom (upd Right (upd Left (upd Top (dims ca))))) (w ca) (h ca)
    (ax ca + change Left)%js (ay ca + change Top)%js.

(** ** Placing *)
Definition setBoxDims (b : box) (left top width height : num) : box :=
  mkBox (bpos b) (fullSize b) (bweight b) (bstack b) (bstackWeight b) (axis b) (hidden b)
    top left (left + width)%js (top + height)%js width height (own b).

(** One box; the state and the running coordinates. *)
Definition placeBox (st : state) (p : params) (i : nat) (l : layout) (b : box) (x y : num)
  : state * num * num :=
  let ca := chartArea st in
  let s := match stack_get (stacks st) (lstack l) with
           | Some s => s | None => mkStack 1%js 0%js 1%js Num.nan None end in
  let wt := (stackWeight l / sweight s)%js in
  let wt := if truthy wt then wt else 1%js in
  let put b ss := mkState (<[i := b]> (boxes st)) (layouts st) ss ca in
  if horizontal l then
    let width := (w ca * wt)%js in
    let height := if truthy (ssize s) then ssize s else bheight b in
    let y := match sstart s with Some v => v | None => y end in
    let b := if fullSize b
      then setBoxDims b (left (padding p)) y (outerWidth p - right (padding p) - left (padding p))%js height
      else setBoxDims b (left (dims ca) + placed s)%js y width height in
    (put b (stack_set (stacks st) (lstack l) (mkStack (count s) (placed s + width)%js (sweight s) (ssize s) (Some y))),
     x, bbottom b)
  else
    let height := (h ca * wt)%js in
    let width := if truthy (ssize s) then ssize s else bwidth b in
    let x := match sstart s with Some v => v | None => x end in
    let b := if fullSize b
      then setBoxDims b x (top (padding p)) width (outerHeight p - bottom (padding p) - top (padding p))%js
      else setBoxDims b x (top (dims ca) + placed s)%js width height in
    (put b (stack_set (stacks st) (lstack l) (mkStack (count s) (placed s + height)%js (sweight s) (ssize s) (Some x))),
     bright b, y).
Fixpoint place_loop (st : state) (p : params) (ids : list nat) (x y : num) : state * num * num :=
  match ids with
  | [] => (st, x, y)
  | i :: rest =>
      match layouts st !! i, boxes st !! i with
      | Some l, Some b => let '(st, x, y) := placeBox st p i l b x y in place_loop st p rest x y
      | _, _ => place_loop st p rest x y
      end
  end.
Definition with_xy (st : state) (x y : num) : state :=
  let ca := chartArea st in
  mkState (boxes st) (layouts st) (stacks st) (mkArea (maxPadding ca) (dims ca) (w ca) (h ca) x y).
Definition placeBoxes (st : state) (p : params) (ids : list nat) : state :=
  let '(st, x, y) := place_loop st p ids (ax (chartArea st)) (ay (chartArea st)) in with_xy st x y.

(** ** The chart's boxes *)

(** [addBox] on the item as it comes: absent or falsy fields get defaults. *)
Definition addBox (bs : list box) (b : box) : list box :=
  bs ++ [mkBox (match bpos b with Named "" => Static Top | q => q end) (fullSize b)
           (if truthy (bweight b) then bweight b else 0%js) (bstack b) (bstackWeight b) (axis b) (hidden b)
           (btop b) (bleft b) (bright b) (bbottom b) (bwidth b) (bheight b) (own b)].
(** [removeBox] removes the first occurrence; boxes are compared by identity, [same]. *)
Fixpoint removeBox (same : box -> box -> bool) (bs : list box) (b : box) : list box :=
  match bs with
  | [] => []
  | x :: r => if same x b then r else x :: removeBox same r b
  end.
Definition configure (b : box) (q : position) (f : bool) (wt : num) : box :=
  mkBox q f wt (bstack b) (bstackWeight b) (axis b) (hidden b)
    (btop b) (bleft b) (bright b) (bbottom b) (bwidth b) (bheight b) (own b).

(** The rectangle [chart.chartArea]. *)
Record rect := mkRect { rleft : num; rtop : num; rright : num; rbottom : num; rheight : num; rwidth : num }.

Definition layout_params (pd : Options.padding) (bs : list box) (vertical : list nat) (width height : num) : params :=
  let aw := Num.max (width - pwidth pd)%js 0%js in
  let ah := Num.max (height - pheight pd)%js 0%js in
  let n := List.length (List.filter (fun i => match bs !! i with Some b => negb (hidden b) | None => false end) vertical) in
  let visible := if Nat.eqb n 0 then 1%js else Num.of_nat n in
  mkParams width height (sides pd) aw ah (aw / 2 / visible)%js (ah / 2)%js.

Definition option_bind {A B} (f : A -> option B) (x : option A) : option B :=
  match x with Some y => f y | None => None end.

(** [layouts.update]; [pd] and [minPad] are the two paddings normalised. *)
Definition update (fuel : nat) (bs : list box) (pd minPad : Options.padding) (width height : num)
  : option (state * rect) :=
  let lb := buildLayoutBoxes bs in
  let wraps := wrapBoxes bs in
  let bs := List.map beforeLayout bs in
  let p := layout_params pd bs (lb_vertical lb) width height in
  let ca := mkArea (updateMaxPadding (sides pd) (sides minPad)) (sides pd)
              (availableWidth p) (availableHeight p) (left (sides pd)) (top (sides pd)) in
  let st := setLayoutDims (mkState bs wraps [] ca) (lb_vertical lb ++ lb_horizontal lb) p in
  option_bind (fun r1 =>
  option_bind (fun r2 =>
  option_bind (fun r3 =>
  option_bind (fun r4 =>
    let st := fst r4 : state in
    let st := mkState (boxes st) (layouts st) (stacks st) (handleMaxPadding (chartArea st)) in
    let st := placeBoxes st p (leftAndTop lb) in
    let ca := chartArea st in
    let st := with_xy st (ax ca + w ca)%js (ay ca + h ca)%js in
    let st := placeBoxes st p (rightAndBottom lb) in
    let ca := chartArea st in
    let r := mkRect (left (dims ca)) (top (dims ca)) (left (dims ca) + w ca)%js (top (dims ca) + h ca)%js (h ca) (w ca) in
    let set_area b := mkBox (bpos b) (fullSize b) (bweight b) (bstack b) (bstackWeight b) (axis b) (hidden b)
      (rtop r) (rleft r) (rright r) (rbottom r) (rwidth r) (rheight r) (own b) in
    let bs := fold_left (fun bs i => match bs !! i with
        | Some b => <[i := box_update (set_area b) (w ca) (h ca) (mkTRBL 0%js 0%js 0%js 0%js)]> bs
        | None => bs end) (lb_chartArea lb) (boxes st) in
    Some (mkState bs (layouts st) (stacks st) ca, r))
  (if snd r3 : bool then fitBoxes fuel (fst r3) p (lb_vertical lb) else Some r3))
  (fitBoxes fuel (fst r2) p (lb_horizontal lb)))
  (fitBoxes fuel (fst r1) p (lb_vertical lb)))
  (fitBoxes fuel st p (lb_fullSize lb)).

End Boxes.
Arguments box : clear implicits.
Arguments BoxOps : clear implicits.
Arguments state : clear implicits.
End Layouts.

(** ** Facts *)
Module LayoutsFacts.
Import Options Layouts Num NumFacts NumExact.

(** *** The sorted lists *)
Section Build.
Context {S : Type} `{!BoxOps S}.

Lemma filter_disjoint {A} (p q : A -> bool) l : (forall x, p x = true -> q x = false) ->
  Permutation (List.filter p l ++ List.filter q l) (List.filter (fun x => p x || q x) l).
Proof.
  intros D. induction l as [|x l IH]; cbn; [reflexivity|]. destruct (p x) eqn:P; cbn.
  - rewrite (D x P). now constructor.
  - destruct (q x); [|exact IH]. symmetry. apply Permutation_cons_app. now symmetry.
Qed.

Lemma wrap_index (bs : list (box S)) : List.map index (wrapBoxes bs) = seq 0 (List.length bs).
Proof.
  unfold wrapBoxes. cut (forall k, List.map index (imap (fun i => wrapBox (k + i)) bs) = seq k (List.length bs)); [intros C; exact (C 0%nat)|].
  induction bs as [|b bs IH]; intros k; cbn; [reflexivity|]. rewrite Nat.add_0_r. f_equal.
  rewrite <- (IH (Datatypes.S k)). f_equal. apply imap_ext. intros. cbn. f_equal. lia.
Qed.

Definition laid_out (bs : list (box S)) (l : layout) : bool :=
  match pos l with
  | Static _ => true
  | _ => match bs !! index l with Some b => String.eqb (axis b) "x" || String.eqb (axis b) "y" | None => false end
  end.

Lemma pos_cases (l : layout) : {sd | pos l = Static sd} + {forall sd, pos_is sd (pos l) = false}.
Proof. destruct (pos l) as [sd|n|]; [left; eauto|right; reflexivity..]. Qed.

(** The wraps that are measured (the vertical and the horizontal list) are
    exactly those of the boxes with a static side or an [x] or [y] axis, each
    once, and the wraps that are placed are the same ones. *)
Theorem buildLayoutBoxes_partition (bs : list (box S)) :
  let lb := buildLayoutBoxes bs in
  Permutation (lb_vertical lb ++ lb_horizontal lb)
    (List.map index (List.filter (laid_out bs) (wrapBoxes bs))) /\
  base.NoDup (lb_vertical lb ++ lb_horizontal lb) /\
  Permutation (leftAndTop lb ++ rightAndBottom lb) (lb_vertical lb ++ lb_horizontal lb).
Proof.
  cbn zeta. unfold buildLayoutBoxes. cbn [lb_vertical lb_horizontal leftAndTop rightAndBottom].
  set (ls := wrapBoxes bs).
  assert (P : Permutation
    ((List.map index (sortByWeight (filterByPosition ls Left) true) ++
      List.map index (sortByWeight (filterByPosition ls Right) false) ++
      List.map index (filterDynamicPositionByAxis bs ls "y")) ++
     List.map index (sortByWeight (filterByPosition ls Top) true) ++
     List.map index (sortByWeight (filterByPosition ls Bottom) false) ++
     List.map index (filterDynamicPositionByAxis bs ls "x"))
    (List.map index (List.filter (laid_out bs) ls))).
  { unfold sortByWeight. rewrite !sort_perm. rewrite <- !List.map_app. apply Permutation_map.
    unfold filterByPosition, filterDynamicPositionByAxis.
    rewrite (filter_disjoint (fun v => pos_is Right (pos v))).
    2:{ intros l. destruct (pos l); [reflexivity|discriminate..]. }
    rewrite (filter_disjoint (fun v => pos_is Left (pos v))).
    2:{ intros l. destruct (pos l) as [[]| |]; discriminate || reflexivity. }
    rewrite (filter_disjoint (fun v => pos_is Bottom (pos v))).
    2:{ intros l. destruct (pos l); [reflexivity|discriminate..]. }
    rewrite (filter_disjoint (fun v => pos_is Top (pos v))).
    2:{ intros l. destruct (pos l) as [[]| |]; discriminate || reflexivity. }
    rewrite filter_disjoint.
    2:{ intros l. destruct (pos l) as [[]| |]; cbn; try discriminate; try reflexivity;
        destruct (bs !! index l); try discriminate;
        destruct (String.eqb_spec (axis b) "y"); try discriminate; intros _; now rewrite e. }
    match goal with |- Permutation (List.filter ?f _) (List.filter ?g _) =>
      replace (List.filter f ls) with (List.filter g ls); [reflexivity|] end.
    apply List.filter_ext. intros l. unfold laid_out. destruct (pos l) as [[]| |]; cbn; try reflexivity;
      destruct (bs !! index l); rewrite ?orb_false_r; auto; apply orb_comm. }
  split; [exact P|]. split.
  - rewrite P. apply NoDup_ListNoDup. assert (N : List.NoDup (List.map index ls)) by (unfold ls; rewrite wrap_index; apply seq_NoDup).
    clear P. revert N. generalize (laid_out bs). clear. intros f. induction ls as [|l ls IH]; cbn; [auto|].
    intros N. inversion N as [|? ? N1 N2]; subst. destruct (f l); cbn; [|auto]. constructor; [|auto].
    intros I. apply in_map_iff in I as (x & E & I). apply filter_In in I as [I _]. apply N1. rewrite <- E. now apply in_map.
  - rewrite <- !app_assoc. apply Permutation_app_head.
    set (T := List.map index (sortByWeight (filterByPosition ls Top) true)).
    rewrite (Permutation_app_comm T). rewrite <- !app_assoc. do 2 apply Permutation_app_head.
    rewrite (Permutation_app_comm T). now rewrite <- app_assoc.
Qed.

(** With integer weights, boxes of one side are ordered by weight, the
    heaviest outermost: first on the left and the top, last on the right and
    the bottom; equal weights keep the order of the boxes there, and the reverse
    order here. *)
Theorem sortByWeight_ordered (z : layout -> Z) (l : list layout) (reverse : bool) :
  (forall x, In x l -> weight x = of_Z (z x) /\ Z.abs (z x) < 2 ^ 50 /\ Z.of_nat (index x) < 2 ^ 50) ->
  let before a b := z a < z b \/ (z a = z b /\ (index a <= index b)%nat) in
  StronglySorted (fun a b => if reverse then before b a else before a b) (sortByWeight l reverse).
Proof.
  intros H before. unfold sortByWeight.
  set (Q := fun x => weight x = of_Z (z x) /\ Z.abs (z x) < 2 ^ 50 /\ Z.of_nat (index x) < 2 ^ 50).
  assert (C : forall x y, Q x -> Q y ->
    lt 0%js (weight_cmp false x y) = (z y <? z x) || ((z x =? z y) && (Z.of_nat (index y) <? Z.of_nat (index x)))).
  { intros x y (Wx & Zx & Ix) (Wy & Zy & Iy). unfold weight_cmp. rewrite Wx, Wy.
    rewrite of_Z_eq by (unfold safe; lia). unfold of_nat. change 0%js with (of_Z 0).
    destruct (Z.eqb_spec (z x) (z y)) as [E|E].
    - rewrite of_Z_sub, of_Z_lt by (unfold safe; lia). rewrite E, Z.ltb_irrefl. cbn.
      destruct (Z.ltb_spec 0 (Z.of_nat (index x) - Z.of_nat (index y))), (Z.ltb_spec (Z.of_nat (index y)) (Z.of_nat (index x))); lia.
    - rewrite of_Z_sub, of_Z_lt by (unfold safe; lia). cbn. rewrite orb_false_r.
      destruct (Z.ltb_spec 0 (z x - z y)), (Z.ltb_spec (z y) (z x)); lia. }
  assert (Cr : forall x y, weight_cmp true x y = weight_cmp false y x) by reflexivity.
  apply (sort_sorted _ _ Q).
  - intros x y Qx Qy B. unfold JsArray.before in B. apply negb_true_iff in B.
    destruct reverse; [rewrite Cr in B|]; rewrite C in B by auto; apply orb_false_iff in B as [B1 B2];
      apply andb_false_iff in B2; unfold before; bool_to_prop;
      destruct B2 as [B2|B2]; bool_to_prop; lia.
  - intros x y Qx Qy B. unfold JsArray.before in B. apply negb_false_iff in B.
    destruct reverse; [rewrite Cr in B|]; rewrite C in B by auto; unfold before;
      apply orb_true_iff in B as [B|B]; bool_to_prop; lia.
  - intros x y t. unfold before. destruct reverse; lia.
  - apply List.Forall_forall. exact H.
Qed.
End Build.

(** *** The chart area *)

(** Whatever the boxes do, the chart area that a pass of fitting leaves has a
    width and a height of at least zero (or NaN, when an input is not a number). *)
Theorem updateDims_nonneg {S} `{!BoxOps S} (st : state S) p i l b st' same other :
  updateDims st p i l b = (st', same, other) ->
  (is_nan (w (chartArea st')) = true \/ le 0%js (w (chartArea st')) = true) /\
  (is_nan (h (chartArea st')) = true \/ le 0%js (h (chartArea st')) = true).
Proof.
  assert (M : forall v, is_nan (max 0%js v) = true \/ le 0%js (max 0%js v) = true).
  { intros v. destruct (is_nan v) eqn:N; [left; rewrite is_nan_max, N; reflexivity|right].
    apply le_max_l; auto. }
  unfold updateDims. destruct (match pos l with Static _ => _ | Named _ => _ | Dynamic => _ end) as [[ls ss] dm].
  destruct (horizontal l); intros [= <- <- <-]; split; apply M.
Qed.

(** *** Fitting boxes of fixed size

    With integer sizes the arithmetic of the layout is exact; boxes that keep
    their size settle in two passes, and the chart area is what they leave. *)
Section Fixed.
Context {S : Type} `{!BoxOps S}.
Hypothesis fixed : forall b mw mh m, box_update b mw mh m = b.
Hypothesis no_padding : forall b, getPadding b = None.

Variables (zwidth zheight : nat -> Z) (zhoriz : nat -> bool) (zside : nat -> side) (zmp : side -> Z) (W H : Z).
(** What a box takes of its side: its height when it is horizontal, else its width. *)
Definition zsize (i : nat) : Z := if zhoriz i then zheight i else zwidth i.
Hypothesis zsize_nonneg : forall i, 0 <= zsize i.
Hypothesis WH : 0 <= W <= 2 ^ 40 /\ 0 <= H <= 2 ^ 40.
Hypothesis zmp_bound : forall s, 0 <= zmp s <= 2 ^ 40.

Definition is_box (b : box S) (i : nat) : Prop :=
  bwidth b = of_Z (zwidth i) /\ bheight b = of_Z (zheight i).
Definition is_layout (l : layout) (i : nat) (c : Z) : Prop :=
  pos l = Static (zside i) /\ horizontal l = zhoriz i /\ lstack l = None /\ size l = of_Z c.
Definition is_area (a : area) (d : side -> Z) : Prop :=
  forall s, get_side s (dims a) = of_Z (d s) /\ get_side s (maxPadding a) = of_Z (zmp s).
Definition small (d : side -> Z) : Prop := forall s, 0 <= d s <= 2 ^ 40.

Definition zw (d : side -> Z) : Z :=
  Z.max 0 (W - (Z.max (zmp Left) (d Left) + Z.max (zmp Right) (d Right))).
Definition zh (d : side -> Z) : Z :=
  Z.max 0 (H - (Z.max (zmp Top) (d Top) + Z.max (zmp Bottom) (d Bottom))).
Definition upd (d : side -> Z) (s : side) (v : Z) : side -> Z :=
  fun t => if side_eqb s t then v else d t.
Definition area_fits (a : area) (d : side -> Z) : Prop :=
  is_area a d /\ w a = of_Z (zw d) /\ h a = of_Z (zh d).

Lemma small_safe n : 0 <= n <= 2 ^ 41 -> safe n.
Proof. unfold safe. lia. Qed.

Lemma combined (mp dm : trbl) (d : side -> Z) a b M :
  0 <= M <= 2 ^ 40 -> small d ->
  (forall s, get_side s dm = of_Z (d s)) -> (forall s, get_side s mp = of_Z (zmp s)) ->
  max 0%js (of_Z M - getCombinedMax mp dm a b)%js =
  of_Z (Z.max 0 (M - (Z.max (zmp a) (d a) + Z.max (zmp b) (d b)))).
Proof.
  intros HM Sd D P. unfold getCombinedMax. rewrite !D, !P.
  pose proof (Sd a). pose proof (Sd b). pose proof (zmp_bound a). pose proof (zmp_bound b).
  rewrite !of_Z_max, of_Z_add, of_Z_sub by (unfold safe; lia).
  change 0%js with (of_Z 0). rewrite of_Z_max by (unfold safe; lia). reflexivity.
Qed.

Lemma own_size b i : 0 <= zsize i <= 2 ^ 40 -> is_box b i ->
  (max 0%js (if zhoriz i then bheight b else bwidth b) / 1)%js = of_Z (zsize i).
Proof.
  intros Z [E1 E2]. replace (if zhoriz i then _ else _) with (of_Z (zsize i))
    by (unfold zsize; now destruct (zhoriz i)).
  change 0%js with (of_Z 0). rewrite of_Z_max by (unfold safe; lia). rewrite Z.max_r by lia.
  change 1%js with (of_Z 1). destruct (Z.eq_dec (zsize i) 0) as [->|N]; [reflexivity|].
  apply of_Z_div_1; [unfold safe; lia|exact N].
Qed.

Lemma truthy_Z c : safe c -> truthy (of_Z c) = negb (c =? 0).
Proof.
  intros Sc. unfold truthy. rewrite is_nan_of_Z by auto. change 0%js with (of_Z 0).
  rewrite of_Z_eq by (auto; unfold safe; lia). reflexivity.
Qed.

(** One box: its side gives up the old size and takes the new one. *)
Lemma updateDims_step st p i l b c d :
  is_box b i -> is_layout l i c -> is_area (chartArea st) d -> small d ->
  outerWidth p = of_Z W -> outerHeight p = of_Z H ->
  0 <= c <= d (zside i) -> d (zside i) - c + zsize i <= 2 ^ 40 ->
  let d' := upd d (zside i) (d (zside i) - c + zsize i) in
  exists st' same other, updateDims st p i l b = (st', same, other) /\
    area_fits (chartArea st') d' /\ boxes st' = boxes st /\
    (exists l', is_layout l' i (zsize i) /\ layouts st' = <[i := l']> (layouts st)) /\
    (w (chartArea st) = of_Z (zw d') -> h (chartArea st) = of_Z (zh d') -> same = false).
Proof.
  intros B (Lp & Lh & Ls & Lz) A Sd Pw Ph Hc Hd d'.
  pose proof (zsize_nonneg i) as Zi. pose proof (Sd (zside i)) as Di.
  unfold updateDims. rewrite Lp, Ls, Lh, no_padding. cbn [stack_get count placed sweight ssize sstart].
  rewrite (own_size b i) by (auto; lia). rewrite Lz, truthy_Z by (unfold safe; lia).
  set (dm := set_side _ _ _).
  assert (D : forall s, get_side s dm = of_Z (d' s)).
  { intros s. unfold dm, d', upd. rewrite (proj1 (A (zside i))).
    assert (E : (if negb (c =? 0) then (of_Z (d (zside i)) - of_Z c)%js else of_Z (d (zside i))) = of_Z (d (zside i) - c)).
    { destruct (Z.eqb_spec c 0) as [->|N]; cbn [negb]; [now rewrite Z.sub_0_r|].
      apply of_Z_sub; unfold safe; lia. }
    rewrite E, of_Z_add by (unfold safe; lia).
    destruct (zside i), s; cbn; try reflexivity;
      match goal with |- _ = of_Z (d ?t) => exact (proj1 (A t)) end. }
  assert (Sd' : small d').
  { intros s. unfold d', upd. destruct (side_eqb _ _); [lia|apply Sd]. }
  rewrite Pw, Ph, !(combined _ _ d') by (auto; try apply WH; intros s; apply A).
  fold (zw d') (zh d').
  set (st' := mkState _ _ _ _).
  exists st', (if zhoriz i then negb (eq (of_Z (zw d')) (w (chartArea st))) else negb (eq (of_Z (zh d')) (h (chartArea st)))),
    (if zhoriz i then negb (eq (of_Z (zh d')) (h (chartArea st))) else negb (eq (of_Z (zw d')) (w (chartArea st)))).
  split; [now destruct (zhoriz i)|]. split.
  { split; [|split; reflexivity]. intros s. split; [apply D|apply A]. }
  split; [reflexivity|]. split.
  { eexists. split; [|reflexivity]. repeat split; auto. }
  assert (Sw : safe (zw d')) by (unfold safe, zw; pose proof (zmp_bound Left); pose proof (zmp_bound Right); pose proof (Sd' Left); pose proof (Sd' Right); lia).
  assert (Sh : safe (zh d')) by (unfold safe, zh; pose proof (zmp_bound Top); pose proof (zmp_bound Bottom); pose proof (Sd' Top); pose proof (Sd' Bottom); lia).
  intros -> ->. rewrite !of_Z_eq, !Z.eqb_refl by auto. now destruct (zhoriz i).
Qed.

(** What the listed boxes on a side take. *)
Fixpoint total (ids : list nat) (s : side) : Z :=
  match ids with
  | [] => 0
  | i :: r => (if side_eqb (zside i) s then zsize i else 0) + total r s
  end.

Definition fits (st : state S) (ids : list nat) (c : nat -> Z) : Prop :=
  forall i, In i ids -> exists b l, boxes st !! i = Some b /\ layouts st !! i = Some l /\ is_box b i /\ is_layout l i (c i).

Lemma total_nonneg ids s : 0 <= total ids s.
Proof. induction ids as [|i r IH]; cbn; [lia|]. pose proof (zsize_nonneg i). destruct (side_eqb _ _); lia. Qed.

(** A pass over boxes whose wraps have no size yet. *)
Lemma fit_pass_first p : outerWidth p = of_Z W -> outerHeight p = of_Z H ->
  forall ids st d refit changed rb, List.NoDup ids -> fits st ids (fun _ => 0) ->
  is_area (chartArea st) d -> small d -> (forall s, d s + total ids s <= 2 ^ 40) ->
  exists st' rb' refit' changed', fit_pass st p ids rb refit changed = (st', rb', refit', changed') /\
    is_area (chartArea st') (fun s => d s + total ids s) /\
    (ids <> [] -> area_fits (chartArea st') (fun s => d s + total ids s)) /\
    (exists r, rb' = rb ++ r /\ (forall i, In i r -> In i ids) /\ List.NoDup r) /\
    fits st' ids zsize /\ (forall i, ~ In i ids -> layouts st' !! i = layouts st !! i) /\
    (forall i, ~ In i ids -> boxes st' !! i = boxes st !! i).
Proof.
  intros Pw Ph. induction ids as [|i ids IH]; intros st d refit changed rb N F A Sd T.
  { exists st, rb, refit, changed. cbn [total fit_pass]. split; [reflexivity|].
    split; [intros s; rewrite Z.add_0_r; apply A|]. split; [congruence|].
    split; [exists []; rewrite app_nil_r; repeat split; [contradiction|constructor]|].
    split; [intros j []|auto]. }
  inversion N as [|? ? Ni N']; subst. destruct (F i (or_introl eq_refl)) as (b & l & B & L & Ib & Il).
  cbn [fit_pass]. rewrite L, B, fixed.
  set (st1 := mkState (<[i := b]> (boxes st)) (layouts st) (stacks st) (chartArea st)).
  pose proof (zsize_nonneg i) as Zi. pose proof (Sd (zside i)) as Di.
  assert (Ti := T (zside i)). cbn [total] in Ti. replace (side_eqb (zside i) (zside i)) with true in Ti by (now destruct (zside i)).
  pose proof (total_nonneg ids (zside i)).
  destruct (updateDims_step st1 p i l b 0 d Ib Il A Sd Pw Ph) as (st2 & same & other & U & A2 & B2 & (l' & Il' & L2) & _); [lia..|].
  rewrite U. set (d1 := upd d (zside i) (d (zside i) - 0 + zsize i)) in *.
  assert (E : forall s, d1 s + total ids s = d s + total (i :: ids) s).
  { intros s. unfold d1, upd. cbn [total]. destruct (zside i), s; cbn [side_eqb]; lia. }
  assert (S1 : small d1).
  { intros s. unfold d1, upd. destruct (side_eqb _ _); [lia|apply Sd]. }
  destruct (IH st2 d1 (refit || (same && match rb with [] => false | _ => true end)) (changed || other)
             (if fullSize b then rb else rb ++ [i]) N') as (st3 & rb3 & rf3 & ch3 & P & A3 & A3' & R3 & F3 & O3 & Ob3).
  - intros j Ij. destruct (F j (or_intror Ij)) as (bj & lj & Bj & Lj & ? & ?).
    assert (i <> j) by (intros ->; contradiction).
    exists bj, lj. rewrite B2, L2. cbn [boxes layouts st1]. rewrite !list_lookup_insert_ne by auto. auto.
  - apply A2.
  - exact S1.
  - intros s. rewrite E. apply T.
  - exists st3, rb3, rf3, ch3. split; [exact P|].
    assert (Ext : forall a, is_area a (fun s => d1 s + total ids s) -> is_area a (fun s => d s + total (i :: ids) s)).
    { intros a Ha s. rewrite <- E. apply Ha. }
    split; [now apply Ext|]. split.
    { intros _. destruct ids as [|j ids].
      - cbn [fit_pass] in P. injection P as <- <- <- <-. destruct A2 as (A21 & A22 & A23).
        split; [intros s; rewrite <- E; cbn [total]; rewrite Z.add_0_r; apply A21|].
        unfold zw, zh in *. rewrite <- !E. cbn [total]. rewrite !Z.add_0_r. auto.
      - destruct A3' as (A31 & A32 & A33); [discriminate|]. split; [now apply Ext|].
        unfold zw, zh in *. rewrite <- !E. auto. }
    split.
    { destruct R3 as (r & -> & Rin & Rn). destruct (fullSize b).
      - exists r. repeat split; auto. intros j Ij. right. auto.
      - exists (i :: r). rewrite <- app_assoc. split; [reflexivity|]. split.
        + intros j [<-|Ij]; [now left|right; auto].
        + constructor; [|auto]. intros Ij. apply Ni. auto. }
    assert (Oi : boxes st3 !! i = Some b /\ layouts st3 !! i = Some l').
    { rewrite O3, Ob3 by auto. rewrite B2, L2. cbn [boxes layouts st1].
      rewrite !list_lookup_insert_eq; [auto|now apply lookup_lt_Some in L|now apply lookup_lt_Some in B]. }
    split; [|split].
    + intros j [<-|Ij]; [|now apply F3]. exists b, l'. repeat split; try apply Oi; try apply Ib; try apply Il'.
    + intros j Ij. rewrite O3 by (intros X; apply Ij; now right). rewrite L2.
      rewrite list_lookup_insert_ne; [reflexivity|intros ->; apply Ij; now left].
    + intros j Ij. rewrite Ob3 by (intros X; apply Ij; now right). rewrite B2. cbn [boxes st1].
      rewrite list_lookup_insert_ne; [reflexivity|intros ->; apply Ij; now left].
Qed.

(** A pass over boxes that have their size changes nothing of the area. *)
Lemma fit_pass_again p : outerWidth p = of_Z W -> outerHeight p = of_Z H ->
  forall ids st d rb changed, List.NoDup ids -> fits st ids zsize ->
  area_fits (chartArea st) d -> small d -> (forall i, In i ids -> zsize i <= d (zside i)) ->
  exists st' rb' changed', fit_pass st p ids rb false changed = (st', rb', false, changed') /\
    area_fits (chartArea st') d.
Proof.
  intros Pw Ph. induction ids as [|i ids IH]; intros st d rb changed N F A Sd T.
  { exists st, rb, changed. auto. }
  inversion N as [|? ? Ni N']; subst. destruct (F i (or_introl eq_refl)) as (b & l & B & L & Ib & Il).
  cbn [fit_pass]. rewrite L, B, fixed.
  set (st1 := mkState (<[i := b]> (boxes st)) (layouts st) (stacks st) (chartArea st)).
  pose proof (zsize_nonneg i) as Zi. pose proof (Sd (zside i)) as Di. pose proof (T i (or_introl eq_refl)).
  destruct (updateDims_step st1 p i l b (zsize i) d Ib Il (proj1 A) Sd Pw Ph) as (st2 & same & other & U & A2 & B2 & (l' & Il' & L2) & Sm); [lia..|].
  assert (E : forall s, upd d (zside i) (d (zside i) - zsize i + zsize i) s = d s).
  { intros s. unfold upd. destruct (zside i), s; cbn [side_eqb]; lia. }
  assert (Ez : zw (upd d (zside i) (d (zside i) - zsize i + zsize i)) = zw d /\
               zh (upd d (zside i) (d (zside i) - zsize i + zsize i)) = zh d) by (unfold zw, zh; rewrite !E; auto).
  rewrite U. rewrite Sm; [|rewrite (proj1 Ez); apply A|rewrite (proj2 Ez); apply A]. cbn [andb orb].
  apply (IH st2 d); auto.
  - intros j Ij. destruct (F j (or_intror Ij)) as (bj & lj & Bj & Lj & ? & ?).
    assert (i <> j) by (intros ->; contradiction).
    exists bj, lj. rewrite B2, L2. cbn [boxes layouts st1]. rewrite !list_lookup_insert_ne by auto. auto.
  - destruct A2 as (A21 & A22 & A23). rewrite (proj1 Ez) in A22. rewrite (proj2 Ez) in A23.
    split; [intros s; rewrite <- E; apply A21|auto].
  - intros j Ij. apply T. now right.
Qed.

(** C24: boxes on a static side that keep their (integer) width and height, are in no
    stack and have no padding are fitted in at most two passes: [fitBoxes]
    terminates, every side of the chart area grows by the heights of the horizontal
    boxes on it and the widths of the others, and the area's width and height are
    what the outer size leaves, never below zero. *)
Theorem fitBoxes_fixed st p ids d :
  outerWidth p = of_Z W -> outerHeight p = of_Z H -> ids <> [] -> List.NoDup ids ->
  fits st ids (fun _ => 0) -> is_area (chartArea st) d -> small d ->
  (forall s, d s + total ids s <= 2 ^ 40) ->
  exists st' changed, fitBoxes 2 st p ids = Some (st', changed) /\
    (forall s, get_side s (dims (chartArea st')) = of_Z (d s + total ids s)) /\
    w (chartArea st') = of_Z (zw (fun s => d s + total ids s)) /\
    h (chartArea st') = of_Z (zh (fun s => d s + total ids s)).
Proof.
  intros Pw Ph Ne N F A Sd T. cbn [fitBoxes].
  destruct (fit_pass_first p Pw Ph ids st d false false [] N F A Sd T)
    as (st1 & rb & rf & ch & P & _ & A1 & (r & -> & Rin & Rn) & F1 & _). specialize (A1 Ne).
  rewrite P. destruct rf.
  2:{ exists st1, ch. split; [reflexivity|]. split; [intros s; apply A1|split; apply A1]. }
  cbn [app]. assert (S1 : small (fun s => d s + total ids s)).
  { intros s. pose proof (total_nonneg ids s). pose proof (Sd s). specialize (T s). cbn. lia. }
  assert (Le : forall i, In i ids -> zsize i <= total ids (zside i)).
  { clear -zsize_nonneg. induction ids as [|j ids IH]; intros i Ii; [destruct Ii|]. 
    cbn [total]. destruct Ii as [Ei|Ii].
    - subst. replace (side_eqb (zside i) (zside i)) with true by (now destruct (zside i)).
      pose proof (total_nonneg ids (zside i)). lia.
    - specialize (IH i Ii). pose proof (zsize_nonneg j). destruct (side_eqb _ _); lia. }
  destruct (fit_pass_again p Pw Ph r st1 (fun s => d s + total ids s) [] false Rn) as (st2 & rb2 & ch2 & P2 & A2); auto.
  { intros i Ii. apply F1. auto. }
  { intros i Ii. specialize (Le i (Rin i Ii)). pose proof (Sd (zside i)). cbn. lia. }
  rewrite P2. exists st2, (ch2 || ch). split; [reflexivity|]. split; [intros s; apply A2|split; apply A2].
Qed.
End Fixed.

(** *** Placing *)
Section Place.
Context {S : Type} `{!BoxOps S}.

(** The boxes of a list are side by side: each starts where the previous ends. *)
Fixpoint in_row (bs : list (box S)) (ids : list nat) (x : num) (final : num) : Prop :=
  match ids with
  | [] => final = x
  | i :: r => exists b, bs !! i = Some b /\ bleft b = x /\ bright b = (x + bwidth b)%js /\
                in_row bs r (bright b) final
  end.

Lemma in_row_insert bs i b ids x y : ~ In i ids -> in_row bs ids x y -> in_row (<[i := b]> bs) ids x y.
Proof.
  revert x. induction ids as [|j r IH]; intros x N; cbn; [auto|].
  intros (c & B & Hl & Hr & R). exists c. rewrite list_lookup_insert_ne; [|intros ->; apply N; now left].
  repeat split; auto. apply IH; auto. intros I. apply N. now right.
Qed.

Lemma placeBox_boxes (st : state S) p i l b x y : let '(st', _, _) := placeBox st p i l b x y in
  (forall j, j <> i -> boxes st' !! j = boxes st !! j) /\ layouts st' = layouts st.
Proof.
  unfold placeBox. destruct (stack_get _ _) as [s|], (horizontal l); cbn; split; auto;
    intros j N; now apply list_lookup_insert_ne.
Qed.
Lemma place_loop_boxes p ids : forall (st : state S) x y, let '(st', _, _) := place_loop st p ids x y in
  (forall j, ~ In j ids -> boxes st' !! j = boxes st !! j) /\ layouts st' = layouts st.
Proof.
  induction ids as [|i r IH]; intros st x y; cbn [place_loop]; [auto|].
  destruct (layouts st !! i) as [l|], (boxes st !! i) as [b|];
    try (specialize (IH st x y); destruct (place_loop st p r x y) as [[st' x'] y']; split; [|apply IH];
         intros j N; apply IH; intros I; apply N; now right).
  pose proof (placeBox_boxes st p i l b x y) as P. destruct (placeBox st p i l b x y) as [[st1 x1] y1].
  specialize (IH st1 x1 y1). destruct (place_loop st1 p r x1 y1) as [[st2 x2] y2]. destruct IH as [I1 I2], P as [P1 P2].
  split; [|congruence]. intros j N. rewrite I1 by (intros I; apply N; now right). apply P1. intros ->. apply N. now left.
Qed.

(** Vertical boxes without a stack are placed in a row from the current [x]:
    each starts exactly where the previous one ends, and [x] becomes the end of
    the last; so no two of them overlap. *)
Theorem place_row p ids : forall (st : state S) x y,
  List.NoDup ids ->
  (forall i, In i ids -> exists l b, layouts st !! i = Some l /\ boxes st !! i = Some b /\
     horizontal l = false /\ lstack l = None) ->
  let '(st', x', y') := place_loop st p ids x y in
  in_row (boxes st') ids x x' /\ y' = y.
Proof.
  induction ids as [|i r IH]; intros st x y N F; cbn [place_loop in_row]; [auto|].
  inversion N as [|? ? Ni N']; subst.
  destruct (F i (or_introl eq_refl)) as (l & b & L & B & Hz & Ls). rewrite L, B.
  assert (P : exists b', placeBox st p i l b x y = (mkState (<[i := b']> (boxes st)) (layouts st) (stacks st) (chartArea st), bright b', y)
            /\ bleft b' = x /\ bright b' = (x + bwidth b')%js).
  { unfold placeBox. rewrite Ls, Hz. cbn [stack_get stack_set sstart].
    destruct (fullSize b); eexists; (split; [reflexivity|split; reflexivity]). }
  destruct P as (b' & -> & Bl & Br).
  set (st1 := mkState _ _ _ _). specialize (IH st1 (bright b') y N').
  pose proof (place_loop_boxes p r st1 (bright b') y) as O.
  destruct (place_loop st1 p r (bright b') y) as [[st2 x2] y2]. destruct O as [O1 _].
  destruct IH as [R ->].
  { intros j Ij. destruct (F j (or_intror Ij)) as (lj & bj & ? & ? & ? & ?).
    exists lj, bj. cbn [boxes layouts st1]. rewrite list_lookup_insert_ne; [auto|intros ->; contradiction]. }
  split; [|reflexivity]. exists b'. split; [|auto].
  rewrite O1 by auto. cbn [boxes st1]. apply list_lookup_insert_eq. now apply lookup_lt_Some in B.
Qed.
End Place.

(** *** Examples: boxes that never change *)
Definition demo_box (i : nat) (sd : side) : box unit :=
  mkBox (Static sd) false 0%js None 1%js "x" false 0%js 0%js 0%js 0%js (of_Z 10) (of_Z 30) tt.
#[local] Instance demo_ops : BoxOps unit := {|
  isHorizontal b := match bpos b with Static (Top | Bottom) => true | _ => false end;
  box_update b _ _ _ := b; getPadding _ := None; beforeLayout b := b |}.
Definition demo_layout (i : nat) (sd : side) (hz : bool) : layout :=
  mkLayout i (Static sd) hz 0%js None 1%js 0%js 0%js 0%js.
Definition no_trbl : trbl := mkTRBL 0%js 0%js 0%js 0%js.
Definition demo_state : state unit :=
  mkState [demo_box 0 Left; demo_box 1 Left; demo_box 2 Top]
    [demo_layout 0 Left false; demo_layout 1 Left false; demo_layout 2 Top true] []
    (mkArea no_trbl no_trbl (of_Z 100) (of_Z 100) 0%js 0%js).
Definition demo_params : params :=
  mkParams (of_Z 100) (of_Z 100) no_trbl (of_Z 100) (of_Z 100) (of_Z 50) (of_Z 50).
Definition demo_horiz (i : nat) : bool := Nat.eqb i 2.
Definition demo_side (i : nat) : side := match i with 2%nat => Top | _ => Left end.
Lemma demo_nodup : List.NoDup [0%nat; 1%nat; 2%nat].
Proof. repeat constructor; cbn; lia. Qed.
(** Two boxes, 10 wide and 30 high, on the left and one on the top leave 80 by 70. *)
Lemma fitBoxes_fixed_witness :
  exists st' changed, fitBoxes 2 demo_state demo_params [0%nat; 1%nat; 2%nat] = Some (st', changed) /\
    w (chartArea st') = of_Z 80 /\ h (chartArea st') = of_Z 70.
Proof.
  destruct (@fitBoxes_fixed unit demo_ops (fun _ _ _ _ => eq_refl) (fun _ => eq_refl) (fun _ => 10) (fun _ => 30) demo_horiz demo_side (fun _ => 0)
              100 100 ltac:(unfold zsize; intros i; destruct (demo_horiz i); lia) ltac:(lia) ltac:(lia) demo_state demo_params [0%nat; 1%nat; 2%nat] (fun _ => 0))
    as (st' & c & F & _ & Wd & Hd).
  - reflexivity.
  - reflexivity.
  - discriminate.
  - exact demo_nodup.
  - intros i I. repeat (destruct I as [<-|I];
      [eexists _, _; split; [reflexivity|]; split; [reflexivity|]; repeat split|]). contradiction.
  - intros []; split; reflexivity.
  - intros s. lia.
  - intros []; vm_compute; discriminate.
  - exists st', c. split; [exact F|]. split; [exact Wd|exact Hd].
Defined.
Lemma place_row_witness :
  let '(st', x', y') := place_loop demo_state demo_params [0%nat; 1%nat] 0%js 0%js in
  in_row (boxes st') [0%nat; 1%nat] 0%js x' /\ y' = 0%js.
Proof.
  apply (place_row demo_params [0%nat; 1%nat] demo_state 0%js 0%js).
  - repeat constructor; cbn; lia.
  - intros i I. repeat (destruct I as [<-|I]; [eexists _, _; repeat split; reflexivity|]). contradiction.
Defined.
Lemma sortByWeight_ordered_witness :
  StronglySorted (fun a b => 0 < 0 \/ 0 = 0 /\ (index b <= index a)%nat)
    (sortByWeight [demo_layout 0 Left false; demo_layout 1 Left false] true).
Proof.
  apply (sortByWeight_ordered (fun _ => 0) [demo_layout 0 Left false; demo_layout 1 Left false] true).
  intros l I. repeat (destruct I as [<-|I]; [repeat split; vm_compute; reflexivity|]). contradiction.
Defined.
End LayoutsFacts.
