(* ===== verification/Interaction.v ===== *)
(** Finding the elements under an event: [Interaction] of webui/public/chart.js
    with the search it does on sorted data. *)
From Stdlib Require Import ZArith Lia Bool List Ascii String Sorted.
From Stdlib Require Import SpecFloat.
From stdpp Require Import base list.
From S2P Require Import Prelude JsNumber JsString JsArray HelpersMath Collections.
Import ListNotations.
Open Scope Z_scope.

Module Interaction.
Import MathH Collections.

Record rect := mkRect { left : num; top : num; right : num; bottom : num }.
Definition _isPointInArea (p : point) (area : option rect) (margin : num) : bool :=
  let margin := if Num.is_nan margin || Num.eq margin 0%js then 0.5%js else margin in
  match area with
  | None => true
  | Some a =>
      Num.lt (left a - margin)%js (x p) && Num.lt (x p) (right a + margin)%js &&
      Num.lt (top a - margin)%js (y p) && Num.lt (y p) (bottom a + margin)%js
  end.

(** What an element (a bar, a point, an arc) answers.  [coord] is its own
    coordinate on an axis; [getRange] is None when it has no such method. *)
Class ElementOps (E : Type) := {
  skip : E -> bool;
  coord : E -> string -> num;
  inRange : E -> num -> num -> bool;
  inXRange : E -> num -> bool;
  inYRange : E -> num -> bool;
  getCenterPoint : E -> point;
  getRange : E -> option (string -> num);
  angles : E -> num * num;
}.

Section Chart.
Context {E D : Type} `{ElementOps E} `{MathLib}.

(** The index scale of a dataset: its axis and whether its pixels decrease. *)
Record iscale := mkIscale { axis_of : string; _reversePixels : bool }.
Record metaset := mkMetaset {
  mindex : nat; data : list E; iScale : option iscale; _sorted : bool; _sharedOptions : bool }.
(** The visible datasets in order, every dataset by index, and the area. *)
Record chart := mkChart {
  metasets : list metaset; all_metas : list metaset; chartArea : option rect; _minPadding : num }.
Record item := mkItem { element : E; datasetIndex : nat; iindex : Z }.

(** An event of the chart's own or of the document. *)
Inductive event := Native (px py : num) | Dom (e : D).
Context (getRelativePosition_1 : D -> point).
Definition getRelativePosition (e : event) : point :=
  match e with Native px py => mkPoint px py | Dom d => getRelativePosition_1 d end.

Definition position_on (p : point) (axis : string) : num :=
  if String.eqb axis "x" then x p else if String.eqb axis "y" then y p else Num.nan.

(** The visible elements in [lo..hi] of a dataset, in order. *)
Definition visit (m : metaset) (b : bounds) : list item :=
  omap (fun j => match nthZ (data m) j with
                 | Some e => if skip e then None else Some (mkItem e (mindex m) j)
                 | None => None end)
       (List.map (fun k => lo b + Z.of_nat k) (seq 0 (Z.to_nat (hi b - lo b + 1)))).
Definition everything (m : metaset) : bounds := mkBounds 0 (lengthZ (data m) - 1).
Definition evaluateAllVisibleItems (c : chart) : list item :=
  List.concat (List.map (fun m => visit m (everything m)) (metasets c)).

Definition lookupMethod (s : iscale) (m : metaset) (axis : string) (value : num) : bounds :=
  if _reversePixels s then _rlookupByKey (data m) (fun e => coord e axis) value
  else _lookupByKey (data m) (fun e => coord e axis) value.
Definition binarySearch (m : metaset) (axis : string) (value : num) (intersect : bool) : bounds :=
  let all := everything m in
  match iScale m, data m with
  | Some s, el :: _ =>
      if String.eqb axis (axis_of s) && negb (String.eqb axis "r") && _sorted m then
        if negb intersect then lookupMethod s m axis value
        else if _sharedOptions m then
          match getRange el with
          | Some f =>
              let range := f axis in
              if negb (Num.is_nan range || Num.eq range 0%js) then
                mkBounds (lo (lookupMethod s m axis (value - range)%js))
                         (hi (lookupMethod s m axis (value + range)%js))
              else all
          | None => all
          end
        else all
      else all
  | _, _ => all
  end.
(** The elements [handler] is called with, in order. *)
Definition optimizedEvaluateItems (c : chart) (axis : string) (position : point) (intersect : bool) : list item :=
  let value := position_on position axis in
  List.concat (List.map (fun m => visit m (binarySearch m axis value intersect)) (metasets c)).

Fixpoint has_char (c : ascii) (s : string) : bool :=
  match s with EmptyString => false | String d r => Ascii.eqb c d || has_char c r end.
Definition getDistanceMetricForAxis (axis : string) (pt1 pt2 : point) : num :=
  let deltaX := if has_char "x" axis then Num.abs (x pt1 - x pt2)%js else 0%js in
  let deltaY := if has_char "y" axis then Num.abs (y pt1 - y pt2)%js else 0%js in
  Num.sqrt (math_pow deltaX 2 + math_pow deltaY 2)%js.

Definition getIntersectItems (c : chart) (position : point) (axis : string) : list item :=
  if negb (_isPointInArea position (chartArea c) (_minPadding c)) then []
  else List.filter (fun i => inRange (element i) (x position) (y position))
         (optimizedEvaluateItems c axis position true).

Definition center_xy (e : E) : point := mkPoint (coord e "x") (coord e "y").
Definition getNearestRadialItems (c : chart) (position : point) (axis : string) : list item :=
  List.filter (fun i =>
      let '(startAngle, endAngle) := angles (element i) in
      let p := getAngleFromPoint (center_xy (element i)) position in
      _angleBetween (angle p) startAngle endAngle false)
    (optimizedEvaluateItems c axis position false).

(** The test before the distance, and the fold over the visited elements. *)
Definition eligible (c : chart) (position : point) (intersect : bool) (i : item) : bool :=
  let r := inRange (element i) (x position) (y position) in
  if intersect && negb r then false
  else _isPointInArea (getCenterPoint (element i)) (chartArea c) (_minPadding c) || r.
Definition nearest_step (distance : item -> num) (st : list item * num) (i : item) : list item * num :=
  let '(items, minDistance) := st in
  let d := distance i in
  if Num.lt d minDistance then ([i], d)
  else if Num.eq d minDistance then (items ++ [i], minDistance)
  else st.
Definition getNearestCartesianItems (c : chart) (position : point) (axis : string) (intersect : bool) : list item :=
  let distance i := getDistanceMetricForAxis axis position (getCenterPoint (element i)) in
  fst (fold_left (fun st i => if eligible c position intersect i then nearest_step distance st i else st)
         (optimizedEvaluateItems c axis position false) ([], Num.infinity)).
Definition getNearestItems (c : chart) (position : point) (axis : string) (intersect : bool) : list item :=
  if negb (_isPointInArea position (chartArea c) (_minPadding c)) then []
  else if String.eqb axis "r" && negb intersect then getNearestRadialItems c position axis
  else getNearestCartesianItems c position axis intersect.

Record options := mkOptions { oaxis : option string; ointersect : bool }.
Definition getAxisItems (c : chart) (e : event) (axis : string) (intersect : bool) : list item :=
  let position := getRelativePosition e in
  let all := evaluateAllVisibleItems c in
  let items := List.filter (fun i =>
    if String.eqb axis "x" then inXRange (element i) (position_on position axis)
    else inYRange (element i) (position_on position axis)) all in
  let intersectsItem := existsb (fun i => inRange (element i) (x position) (y position)) all in
  if intersect && negb intersectsItem then [] else items.

(** *** The modes *)
Definition axis_or (o : options) (d : string) : string :=
  match oaxis o with Some a => if String.eqb a "" then d else a | None => d end.
Definition mode_items (c : chart) (e : event) (o : options) (d : string) : list item :=
  let position := getRelativePosition e in
  let axis := axis_or o d in
  if ointersect o then getIntersectItems c position axis else getNearestItems c position axis false.
Definition mode_index (c : chart) (e : event) (o : options) : list item :=
  match mode_items c e o "x" with
  | [] => []
  | i :: _ =>
      omap (fun m => match nthZ (data m) (iindex i) with
                     | Some el => if skip el then None else Some (mkItem el (mindex m) (iindex i))
                     | None => None end) (metasets c)
  end.
(** [getDatasetMeta] of a dataset that was found. *)
Definition mode_dataset (c : chart) (e : event) (o : options) : list item :=
  match mode_items c e o "xy" with
  | [] => []
  | i :: _ =>
      match List.find (fun m => Nat.eqb (mindex m) (datasetIndex i)) (all_metas c) with
      | Some m => imap (fun k el => mkItem el (datasetIndex i) (Z.of_nat k)) (data m)
      | None => []
      end
  end.
Definition mode_point (c : chart) (e : event) (o : options) : list item :=
  getIntersectItems c (getRelativePosition e) (axis_or o "xy").
Definition mode_nearest (c : chart) (e : event) (o : options) : list item :=
  getNearestItems c (getRelativePosition e) (axis_or o "xy") (ointersect o).
Definition mode_x (c : chart) (e : event) (o : options) : list item := getAxisItems c e "x" (ointersect o).
Definition mode_y (c : chart) (e : event) (o : options) : list item := getAxisItems c e "y" (ointersect o).

End Chart.
Arguments metaset : clear implicits.
Arguments chart : clear implicits.
Arguments item : clear implicits.
End Interaction.

(** ** Facts *)
Module InteractionFacts.
Import Num NumFacts MathH Collections CollectionsFacts Interaction.

Section Facts.
Context {E : Type} `{ElementOps E} `{MathLib}.

Lemma nearest_fold (distance : item E -> num) l : forall items m,
  is_nan m = false -> (forall i, In i items -> eq (distance i) m = true) ->
  let '(items', m') := fold_left (nearest_step distance) l (items, m) in
  is_nan m' = false /\ le m' m = true /\
  (forall i, In i l -> is_nan (distance i) = false -> le m' (distance i) = true) /\
  items' = List.filter (fun i => eq (distance i) m') (items ++ l).
Proof.
  induction l as [|i l IH]; intros items m N Eq; cbn [fold_left].
  - split; [auto|]. split; [now apply le_refl|]. split; [contradiction|]. rewrite app_nil_r.
    symmetry. now apply filter_all.
  - unfold nearest_step at 2. destruct (lt (distance i) m) eqn:L.
    + pose proof (lt_notnan _ _ L) as [Nd _].
      specialize (IH [i] (distance i) Nd). destruct (fold_left _ l _) as [items' m'].
      destruct IH as (N' & Le & A & ->); [intros j [<-|[]]; clear -Nd; num_order|].
      split; [auto|]. split; [apply lt_le in L; eapply le_trans; eauto|]. split.
      * intros j [<-|Ij] Nj; auto.
      * rewrite (List.filter_app _ items), (filter_none _ items); [reflexivity|].
        intros j Ij. specialize (Eq j Ij). destruct (eq (distance j) m') eqn:Ej; [|reflexivity].
        exfalso. revert Le L Eq Ej. clear -N N' Nd. num_order.
    + destruct (eq (distance i) m) eqn:Q.
      * specialize (IH (items ++ [i]) m N). destruct (fold_left _ l _) as [items' m'].
        destruct IH as (N' & Le & A & ->).
        { intros j Ij. apply in_app_iff in Ij as [Ij|[<-|[]]]; auto. }
        split; [auto|]. split; [auto|]. split; [|now rewrite <- app_assoc].
        intros j [<-|Ij] Nj; auto. revert Le Q. clear -N N' Nj. num_order.
      * specialize (IH items m N Eq). destruct (fold_left _ l _) as [items' m'].
        destruct IH as (N' & Le & A & ->). split; [auto|]. split; [auto|]. split.
        -- intros j [<-|Ij] Nj; auto. revert Le L Q. clear -N N' Nj. num_order.
        -- rewrite !List.filter_app. cbn [List.filter]. destruct (eq (distance i) m') eqn:Qi; [|reflexivity].
           exfalso. revert Le L Q Qi. clear -N N'. num_order.
Qed.

(** The nearest items are exactly the eligible visited elements whose distance
    is the least (all of them when several are equally near, in the order of the
    datasets), among those whose distance is a number. *)
Theorem nearest_minimal (c : chart E) position axis intersect :
  let distance (i : item E) := getDistanceMetricForAxis axis position (getCenterPoint (element i)) in
  let visited := List.filter (eligible c position intersect) (optimizedEvaluateItems c axis position false) in
  exists m, getNearestCartesianItems c position axis intersect =
              List.filter (fun i => eq (distance i) m) visited /\
    forall i, In i visited -> is_nan (distance i) = false -> le m (distance i) = true.
Proof.
  cbn zeta. unfold getNearestCartesianItems.
  set (distance := fun i : item E => getDistanceMetricForAxis axis position (getCenterPoint (element i))).
  assert (F : forall l st, fold_left (fun st i => if eligible c position intersect i then nearest_step distance st i else st) l st =
              fold_left (nearest_step distance) (List.filter (eligible c position intersect) l) st).
  { induction l as [|i l IH]; intros st; cbn; [reflexivity|]. destruct (eligible _ _ _ i); apply IH. }
  rewrite F. pose proof (nearest_fold distance (List.filter (eligible c position intersect)
    (optimizedEvaluateItems c axis position false)) [] infinity eq_refl) as N.
  destruct (fold_left _ _ _) as [items m]. destruct N as (_ & _ & A & ->); [contradiction|].
  exists m. split; [reflexivity|exact A].
Qed.

(** *** The search visits what is in range *)

Lemma visit_in (m : metaset E) b j e : 0 <= lo b ->
  nthZ (data m) j = Some e -> skip e = false -> lo b <= j <= hi b -> In (mkItem e (mindex m) j) (visit m b).
Proof.
  intros L N K B. unfold visit. apply list_elem_of_In, list_elem_of_omap. exists j. split.
  - apply list_elem_of_In, in_map_iff. exists (Z.to_nat (j - lo b)). split; [lia|]. apply in_seq. lia.
  - now rewrite N, K.
Qed.

(** On data sorted along a scale that is not reversed (at most 2^30 elements),
    the search for an intersection visits every element whose coordinate lies
    between [value - range] and [value + range] (below the upper end): what it
    skips cannot be hit on that axis. *)
Theorem binarySearch_complete (m : metaset E) s axis value range e0 f j e :
  iScale m = Some s -> _reversePixels s = false ->
  axis = axis_of s -> axis <> "r"%string -> _sorted m = true -> _sharedOptions m = true ->
  head (data m) = Some e0 -> getRange e0 = Some f -> f axis = range ->
  is_nan range = false -> eq range 0%js = false -> lengthZ (data m) <= 2 ^ 30 ->
  sorted_by (fun e => coord e axis) (data m) ->
  nthZ (data m) j = Some e -> skip e = false ->
  le (value - range)%js (coord e axis) = true -> lt (coord e axis) (value + range)%js = true ->
  In (mkItem e (mindex m) j) (visit m (binarySearch m axis value true)).
Proof.
  intros I Rv A R So Sh Hd G Fr Nn Nz Ln S N K L1 L2.
  assert (Ne : data m <> []) by (intros X; rewrite X in Hd; discriminate).
  assert (B : binarySearch m axis value true =
    mkBounds (lo (lookupMethod s m axis (value - range)%js)) (hi (lookupMethod s m axis (value + range)%js))).
  { unfold binarySearch. rewrite I. destruct (data m) as [|x l] eqn:D; [congruence|]. injection Hd as ->.
    rewrite <- A, String.eqb_refl, So, Sh, G, Fr, Nn, Nz. apply String.eqb_neq in R. now rewrite R. }
  rewrite B. unfold lookupMethod. rewrite Rv.
  pose proof (lookup_mono (data m) (fun e => lt (coord e axis) (value - range)%js) Ne Ln (lookup_asc _ _ _ S)) as M1.
  pose proof (lookup_mono (data m) (fun e => lt (coord e axis) (value + range)%js) Ne Ln (lookup_asc _ _ _ S)) as M2.
  cbn zeta in M1, M2. destruct M1 as (M10 & _ & _ & _ & _ & M13 & _).
  destruct M2 as (_ & _ & _ & _ & M22 & _).
  apply visit_in; auto; cbn [lo hi]; [exact (proj1 M10)|]. split.
  - apply Z.nlt_ge. intros X. destruct (Z.lt_ge_cases 0 (lo (_lookupByKey (data m) (fun e => coord e axis) (value - range)%js))) as [P|P].
    + destruct (nthZ_Some (data m) (lo (_lookupByKey (data m) (fun e => coord e axis) (value - range)%js))) as [b Eb].
      { pose proof (proj2 M10). unfold _lookupByKey in *. pose proof (lookup_mono (data m) (fun e => lt (coord e axis) (value - range)%js) Ne Ln (lookup_asc _ _ _ S)) as M. cbn zeta in M. lia. }
      pose proof (M13 P b Eb) as C. pose proof (sorted_nth _ _ _ _ _ _ S X N Eb) as O.
      pose proof (le_lt_trans _ _ _ O C) as Y. pose proof (lt_not_le _ _ Y). congruence.
    + assert (nthZ (data m) j = None) by (apply nthZ_None; lia). congruence.
  - apply Z.nlt_ge. intros X. pose proof (M22 j e N X). cbn in *. congruence.
Qed.
End Facts.

(** *** Reversed scales *)

(** Points with an x coordinate and a hit radius of 25. *)
#[local] Instance points : ElementOps num := {|
  skip _ := false; coord e _ := e; inRange e px _ := Num.le (Num.abs (e - px)%js) 25%js;
  inXRange e px := Num.le (Num.abs (e - px)%js) 25%js; inYRange _ _ := true;
  getCenterPoint e := mkPoint e 0%js; getRange _ := Some (fun _ => 25%js); angles _ := (0%js, 0%js) |}.
Definition reversed_points : metaset num :=
  mkMetaset 0 [100; 80; 60; 40; 20]%js (Some (mkIscale "x" true)) true true.

(** On a reversed scale the same search visits nothing: the two lookups come
    back in decreasing order, so the interval from the first to the second is
    empty although the third point lies exactly at the searched coordinate. *)
Theorem binarySearch_reversed_empty :
  visit reversed_points (binarySearch reversed_points "x" 60%js true) = [] /\
  inRange (60%js : num) 60%js 0%js = true /\ In 60%js (data reversed_points).
Proof. split; [vm_compute; reflexivity|]. split; [vm_compute; reflexivity|]. right. right. now left. Qed.

Definition demo_set : metaset num := mkMetaset 0 [20; 40; 60; 80; 100]%js (Some (mkIscale "x" false)) true true.
Lemma binarySearch_complete_witness :
  In (mkItem 60%js 0 2) (visit demo_set (binarySearch demo_set "x" 61%js true)).
Proof.
  apply (binarySearch_complete demo_set (mkIscale "x" false) "x" 61%js 25%js 20%js (fun _ => 25%js) 2 60%js).
  - reflexivity.
  - reflexivity.
  - reflexivity.
  - discriminate.
  - reflexivity.
  - reflexivity.
  - reflexivity.
  - reflexivity.
  - reflexivity.
  - reflexivity.
  - reflexivity.
  - vm_compute. discriminate.
  - repeat (constructor; [|repeat constructor; reflexivity]). constructor.
  - reflexivity.
  - reflexivity.
  - vm_compute. reflexivity.
  - vm_compute. reflexivity.
Defined.
End InteractionFacts.
