(* ===== verification/Canvas.v ===== *)
(** The canvas helpers of webui/public/chart.js as lists of commands to the 2D context:
    point shapes, stepped and curved lines, rounded rectangles, text, and clipping.

    A command is a call of the context or an assignment to one of its properties.
    Proved: every helper leaves the stack of saved states as it found it, and a point is
    painted exactly when its radius is positive.  The module [Painting] carries commands out
    and says what they paint, which theorems about drawing refer to. *)
From Stdlib Require Import ZArith Lia Bool List Ascii String.
From Stdlib Require Import SpecFloat.
From stdpp Require Import base list.
From S2P Require Import Prelude JsNumber JsString JsArray JsValue HelpersMath Interaction Options.
Import ListNotations.
Open Scope Z_scope.

Module Canvas.
Import MathH Js.
Local Open Scope js_scope.

Inductive cmd :=
| Save | Restore | ResetTransform
| Translate (x y : num) | Rotate (a : num)
| ClearRect (x y w h : num)
| BeginPath | ClosePath
| MoveTo (x y : num) | LineTo (x y : num)
| BezierCurveTo (c1x c1y c2x c2y x y : num)
| Arc (x y r start end_ : num) (counterclockwise : bool)
| RectPath (x y w h : num)
| Fill | FillEvenOdd | Stroke | Clip
| Set_ (property : string) (v : value)
| StrokeStyleFromFill
| SetLineDash (v : value)
| DrawImage (x y w h : num)
| FillRect (x y w h : num) | StrokeRect (x y w h : num) | QuadraticCurveTo (cx cy x y : num)
| FillText (s : string) (x y : num) (maxWidth : option num)
| StrokeText (s : string) (x y : num) (maxWidth : option num).

Section Canvas.
Context `{MathLib}.

Definition clearCanvas (width height : num) : list cmd :=
  [Save; ResetTransform; ClearRect 0 0 width height; Restore].
Definition clipArea (a : Interaction.rect) : list cmd :=
  [Save; BeginPath; RectPath (Interaction.left a) (Interaction.top a)
     (Interaction.right a - Interaction.left a) (Interaction.bottom a - Interaction.top a); Clip].
Definition unclipArea : list cmd := [Restore].

(** ** Points *)

(** A point style: a name, an image or canvas of a size, or anything else. *)
Inductive point_style := Named (s : string) | Image (w h : num) | OtherStyle.
Record point_options := mkPointOptions { pointStyle : point_style; rotation : num; radius : num; borderWidth : num }.

Definition cross (x y xOffset yOffset : num) : list cmd :=
  [MoveTo (x - xOffset) (y - yOffset); LineTo (x + xOffset) (y + yOffset);
   MoveTo (x + yOffset) (y - xOffset); LineTo (x - yOffset) (y + xOffset)].
Definition diamond (x y rad radius : num) : list cmd :=
  let xOffset := math_cos rad * radius in
  let yOffset := math_sin rad * radius in
  [MoveTo (x - xOffset) (y - yOffset); LineTo (x + yOffset) (y - xOffset);
   LineTo (x + xOffset) (y + yOffset); LineTo (x - yOffset) (y + xOffset); ClosePath].
Definition crossed (x y rad radius : num) : list cmd := cross x y (math_cos rad * radius) (math_sin rad * radius).
Definition falsy (x : num) : bool := Num.is_nan x || Num.eq x 0.

(** The path of a style; [rad] is the rotation in radians. *)
Definition point_path (style : point_style) (rotation rad radius x y : num) : list cmd :=
  let circle := [Arc x y radius 0 TAU false; ClosePath] in
  match style with
  | Named "triangle" =>
      let corner rad := (x + math_sin rad * radius, y - math_cos rad * radius) in
      let r2 := rad + TWO_THIRDS_PI in
      let r3 := r2 + TWO_THIRDS_PI in
      [MoveTo (fst (corner rad)) (snd (corner rad)); LineTo (fst (corner r2)) (snd (corner r2));
       LineTo (fst (corner r3)) (snd (corner r3)); ClosePath]
  | Named "rectRounded" =>
      let cornerRadius := radius * 0.516 in
      let size := radius - cornerRadius in
      let xOffset := math_cos (rad + QUARTER_PI) * size in
      let yOffset := math_sin (rad + QUARTER_PI) * size in
      [Arc (x - xOffset) (y - yOffset) cornerRadius (rad - PI) (rad - HALF_PI) false;
       Arc (x + yOffset) (y - xOffset) cornerRadius (rad - HALF_PI) rad false;
       Arc (x + xOffset) (y + yOffset) cornerRadius rad (rad + HALF_PI) false;
       Arc (x - yOffset) (y + xOffset) cornerRadius (rad + HALF_PI) (rad + PI) false; ClosePath]
  | Named "rect" =>
      if falsy rotation then
        let size := 0.7071067811865476 * radius in
        [RectPath (x - size) (y - size) (2 * size) (2 * size)]
      else diamond x y (rad + QUARTER_PI) radius
  | Named "rectRot" => diamond x y rad radius
  | Named "crossRot" => crossed x y (rad + QUARTER_PI) radius
  | Named "cross" => crossed x y rad radius
  | Named "star" => (crossed x y rad radius ++ crossed x y (rad + QUARTER_PI) radius)%list
  | Named "line" =>
      let xOffset := math_cos rad * radius in
      let yOffset := math_sin rad * radius in
      [MoveTo (x - xOffset) (y - yOffset); LineTo (x + xOffset) (y + yOffset)]
  | Named "dash" => [MoveTo x y; LineTo (x + math_cos rad * radius) (y + math_sin rad * radius)]
  | _ => circle
  end%string.
Definition drawPoint (o : point_options) (x y : num) : list cmd :=
  let rad := (if falsy (rotation o) then 0 else rotation o) * RAD_PER_DEG in
  match pointStyle o with
  | Image w h => [Save; Translate x y; Rotate rad; DrawImage (- w / 2) (- h / 2) w h; Restore]
  | _ =>
      if Num.is_nan (radius o) || (radius o <=? 0) then []
      else (BeginPath :: point_path (pointStyle o) (rotation o) rad (radius o) x y ++ Fill ::
            (if 0 <? borderWidth o then [Stroke] else []))%list
  end.

(** ** Lines between points *)
Record line_point := mkLinePoint { px : num; py : num; cp1x : num; cp1y : num; cp2x : num; cp2y : num }.
Definition _steppedLineTo (previous : option line_point) (target : line_point) (flip : bool) (mode : string) : list cmd :=
  match previous with
  | None => [LineTo (px target) (py target)]
  | Some p =>
      ((if String.eqb mode "middle" then
          let midpoint := (px p + px target) / 2 in [LineTo midpoint (py p); LineTo midpoint (py target)]
        else if xorb (String.eqb mode "after") flip then [LineTo (px p) (py target)]
        else [LineTo (px target) (py p)]) ++ [LineTo (px target) (py target)])%list
  end.
Definition _bezierCurveTo (previous : option line_point) (target : line_point) (flip : bool) : list cmd :=
  match previous with
  | None => [LineTo (px target) (py target)]
  | Some p => [BezierCurveTo (if flip then cp1x p else cp2x p) (if flip then cp1y p else cp2y p)
                 (if flip then cp2x target else cp1x target) (if flip then cp2y target else cp1y target)
                 (px target) (py target)]
  end.
Definition lineTo (target : line_point) : list cmd := [LineTo (px target) (py target)].

(** ** Rectangles *)
Record rounded := mkRounded { rx : num; ry : num; rw : num; rh : num; rradius : Options.corners }.
Definition addRoundedRectPath (r : rounded) : list cmd :=
  let '(x, y, w, h) := (rx r, ry r, rw r, rh r) in
  let tl := Options.topLeft (rradius r) in
  let tr := Options.topRight (rradius r) in
  let bl := Options.bottomLeft (rradius r) in
  let br := Options.bottomRight (rradius r) in
  [Arc (x + tl) (y + tl) tl (- HALF_PI) PI true;
   LineTo x (y + h - bl); Arc (x + bl) (y + h - bl) bl PI HALF_PI true;
   LineTo (x + w - br) (y + h); Arc (x + w - br) (y + h - br) br HALF_PI 0 true;
   LineTo (x + w) (y + tr); Arc (x + w - tr) (y + tr) tr 0 (- HALF_PI) true;
   LineTo (x + tl) y].

(** ** Text *)
Record metrics := mkMetrics { boxLeft : num; boxRight : num; boxAscent : num; boxDescent : num }.
Record text_options := mkTextOptions {
  strokeWidth : option num; strokeColor : option string; translation : option (num * num); text_rotation : option num;
  color : string; textAlign : string; textBaseline : string; maxWidth : option num;
  strikethrough : bool; underline : bool; decorationWidth : num
}.
Definition named (property s : string) : list cmd := if String.eqb s EmptyString then [] else [Set_ property (VStr s)].
Definition setRenderOpts (o : text_options) : list cmd :=
  ((match translation o with Some (x, y) => [Translate x y] | None => [] end) ++
   (match text_rotation o with Some a => [Rotate a] | None => [] end) ++
   named "fillStyle" (color o) ++ named "textAlign" (textAlign o) ++ named "textBaseline" (textBaseline o))%list.
Definition decorateText (m : metrics) (x y : num) (o : text_options) : list cmd :=
  if strikethrough o || underline o then
    let left := x - boxLeft m in
    let right := x + boxRight m in
    let top := y - boxAscent m in
    let bottom := y + boxDescent m in
    let yDecoration := if strikethrough o then (top + bottom) / 2 else bottom in
    [StrokeStyleFromFill; BeginPath;
     Set_ "lineWidth" (VNum (if falsy (decorationWidth o) then 2 else decorationWidth o));
     MoveTo left yDecoration; LineTo right yDecoration; Stroke]
  else [].
Section Text.
(** [ctx.measureText]. *)
Context (measure : string -> metrics).
Definition text_line (stroke : bool) (o : text_options) (x y : num) (line : string) : list cmd :=
  ((if stroke then
      (match strokeColor o with Some c => named "strokeStyle" c | None => [] end) ++
      (match strokeWidth o with Some w => [Set_ "lineWidth" (VNum w)] | None => [] end) ++
      [StrokeText line x y (maxWidth o)]
    else []) ++ [FillText line x y (maxWidth o)] ++ decorateText (measure line) x y o)%list.
Fixpoint text_lines (stroke : bool) (o : text_options) (x y lineHeight : num) (lines : list string) : list cmd :=
  match lines with
  | [] => []
  | line :: rest => (text_line stroke o x y line ++ text_lines stroke o x (y + lineHeight) lineHeight rest)%list
  end.
Definition renderText (lines : list string) (x y : num) (fontString : string) (lineHeight : num) (o : text_options) : list cmd :=
  let stroke := match strokeWidth o with Some w => 0 <? w | None => false end &&
                negb (match strokeColor o with Some c => String.eqb c EmptyString | None => false end) in
  (Save :: Set_ "font" (VStr fontString) :: setRenderOpts o ++ text_lines stroke o x y lineHeight lines ++ [Restore])%list.
End Text.
End Canvas.
End Canvas.

(** ** Facts *)
Module CanvasFacts.
Import Canvas.

(** The number of saved states after the commands; None when more are restored than saved. *)
Fixpoint depth_after (d : nat) (l : list cmd) : option nat :=
  match l with
  | [] => Some d
  | Save :: l' => depth_after (S d) l'
  | Restore :: l' => match d with O => None | S d' => depth_after d' l' end
  | _ :: l' => depth_after d l'
  end.
(** Commands that leave the states as they were. *)
Definition balanced (l : list cmd) : Prop := forall d, depth_after d l = Some d.
Definition flat (c : cmd) : Prop := match c with Save | Restore => False | _ => True end.

Lemma depth_app l1 l2 d : depth_after d (l1 ++ l2) = match depth_after d l1 with Some e => depth_after e l2 | None => None end.
Proof.
  revert d. induction l1 as [|c l1 IH]; intros d; [reflexivity|].
  destruct c; cbn [app depth_after]; try apply IH. destruct d; [reflexivity|apply IH].
Qed.
Lemma balanced_nil : balanced [].
Proof. intros d. reflexivity. Qed.
Lemma balanced_app l1 l2 : balanced l1 -> balanced l2 -> balanced (l1 ++ l2).
Proof. intros H1 H2 d. rewrite depth_app, H1. apply H2. Qed.
Lemma balanced_flat l : List.Forall flat l -> balanced l.
Proof. induction 1 as [|c l F _ IH]; intros d; [reflexivity|]. destruct c; try destruct F; apply IH. Qed.
Lemma balanced_saved l : balanced l -> balanced (Save :: l ++ [Restore]).
Proof. intros B d. cbn [depth_after]. rewrite depth_app, B. reflexivity. Qed.
Lemma balanced_cons c l : flat c -> balanced l -> balanced (c :: l).
Proof. intros F B d. destruct c; try destruct F; apply B. Qed.
Lemma balanced_map {A} (f : A -> list cmd) l : (forall a, balanced (f a)) -> balanced (List.flat_map f l).
Proof. intros F. induction l; [exact balanced_nil|]. apply balanced_app; auto. Qed.
Lemma flat_named p s : List.Forall flat (named p s).
Proof. unfold named. destruct (String.eqb _ _); repeat constructor. Qed.

Section Facts.
Context `{MathLib}.
Lemma flat_point_path st ro rad r x y : List.Forall flat (point_path st ro rad r x y).
Proof.
  unfold point_path. destruct st as [s|w h|]; try (repeat constructor).
  repeat match goal with |- List.Forall _ (match ?x with _ => _ end) => destruct x; try (repeat constructor) end.
Qed.

(** A point is filled exactly when its radius is over 0, unless it is an image. *)
Lemma drawPoint_fills o x y : (forall w h, pointStyle o <> Image w h) ->
  In Fill (drawPoint o x y) <-> Num.lt 0%js (radius o) = true.
Proof.
  intros N. unfold drawPoint.
  assert (P : forall l, In Fill (if Num.is_nan (radius o) || Num.le (radius o) 0%js then []
    else BeginPath :: l ++ Fill :: (if Num.lt 0%js (borderWidth o) then [Stroke] else [])) <-> Num.lt 0%js (radius o) = true).
  { intros l. destruct (Num.is_nan (radius o)) eqn:E.
    - cbn. split; [intros []|]. intros L. destruct (NumFacts.lt_notnan _ _ L). congruence.
    - cbn [orb]. rewrite NumFacts.le_not_lt by (auto; reflexivity). destruct (Num.lt 0%js (radius o)); cbn [negb].
      + split; [auto|]. intros _. right. apply in_app_iff. right. now left.
      + split; [intros []|discriminate]. }
  destruct (pointStyle o) as [s|w h|] eqn:S; [apply P| |apply P]. exfalso. eapply N. reflexivity.
Qed.
(** Text is drawn line by line, and what is set for it is undone. *)
Lemma text_line_flat measure stroke o x y line : List.Forall flat (text_line measure stroke o x y line).
Proof.
  unfold text_line. apply List.Forall_app. split.
  - destruct stroke; [|constructor]. apply List.Forall_app. split; [destruct (strokeColor o); [apply flat_named|constructor]|].
    apply List.Forall_app. split; [destruct (strokeWidth o)|]; repeat constructor.
  - constructor; [exact I|]. unfold decorateText. destruct (_ || _); repeat constructor.
Qed.
Lemma renderText_saved measure lines x y font lh o :
  exists body, renderText measure lines x y font lh o = (Save :: body ++ [Restore])%list /\ balanced body.
Proof.
  unfold renderText. cbn zeta. set (stroke := _ && _). rewrite app_assoc.
  exists (Set_ "font" (VStr font) :: setRenderOpts o ++ text_lines measure stroke o x y lh lines)%list.
  split; [reflexivity|]. apply balanced_cons; [exact I|]. apply balanced_app.
  - apply balanced_flat. unfold setRenderOpts. repeat (apply List.Forall_app; split); try apply flat_named.
    + destruct (translation o) as [[? ?]|]; repeat constructor.
    + destruct (text_rotation o); repeat constructor.
  - revert y. induction lines as [|line lines IH]; intros y; [exact balanced_nil|].
    apply balanced_app; [apply balanced_flat, text_line_flat|apply IH].
Qed.
Lemma renderText_balanced measure lines x y font lh o : balanced (renderText measure lines x y font lh o).
Proof. destruct (renderText_saved measure lines x y font lh o) as (body & -> & B). now apply balanced_saved. Qed.
End Facts.
End CanvasFacts.

(** ** What commands paint

    A canvas that carries commands out: its properties, the transformations and clips in
    force, the saved states and the current path, which is no part of a state.  Every
    painting command leaves a mark with what is in force at the time. *)
Module Painting.
Import Canvas CanvasFacts.

Record gfx := mkGfx { property_ : string -> value; dash_ : value; placed_by : list cmd; clipped_to : list (list cmd) }.
Record canvas := mkCanvas { now_ : gfx; saved_ : list gfx; path_ : list cmd }.

Inductive shape :=
| Box (fill : value) (x y w h : num)
| BoxOutline (stroke width : value) (x y w h : num)
| Cleared (x y w h : num)
| Picture (x y w h : num)
| Area (fill : value) (evenodd : bool) (path : list cmd)
| Outline (stroke width dash offset : value) (path : list cmd)
| Text (fill font align baseline : value) (s : string) (x y : num) (maxWidth : option num)
| TextOutline (stroke width font align baseline : value) (s : string) (x y : num) (maxWidth : option num).
Record mark := mkMark { what : shape; under : list cmd; within : list (list cmd) }.

Definition with_property (k : string) (v : value) (g : gfx) : gfx :=
  mkGfx (fun j => if String.eqb k j then v else property_ g j) (dash_ g) (placed_by g) (clipped_to g).
Definition with_dash (v : value) (g : gfx) : gfx := mkGfx (property_ g) v (placed_by g) (clipped_to g).
Definition with_place (p : list cmd) (g : gfx) : gfx := mkGfx (property_ g) (dash_ g) p (clipped_to g).
Definition with_clip (p : list cmd) (g : gfx) : gfx :=
  mkGfx (property_ g) (dash_ g) (placed_by g) (clipped_to g ++ [p]).
Definition change (f : gfx -> gfx) (c : canvas) : canvas := mkCanvas (f (now_ c)) (saved_ c) (path_ c).
Definition with_path (p : list cmd) (c : canvas) : canvas := mkCanvas (now_ c) (saved_ c) p.

(** The canvas after a command. *)
Definition after (c : canvas) (x : cmd) : canvas :=
  match x with
  | Save => mkCanvas (now_ c) (now_ c :: saved_ c) (path_ c)
  | Restore => match saved_ c with g :: r => mkCanvas g r (path_ c) | [] => c end
  | ResetTransform => change (with_place []) c
  | Translate _ _ | Rotate _ => change (with_place (placed_by (now_ c) ++ [x])) c
  | BeginPath => with_path [] c
  | ClosePath | MoveTo _ _ | LineTo _ _ | BezierCurveTo _ _ _ _ _ _ | Arc _ _ _ _ _ _ | RectPath _ _ _ _
  | QuadraticCurveTo _ _ _ _ => with_path (path_ c ++ [x]) c
  | Clip => change (with_clip (path_ c)) c
  | Set_ k v => change (with_property k v) c
  | StrokeStyleFromFill => change (with_property "strokeStyle" (property_ (now_ c) "fillStyle")) c
  | SetLineDash v => change (with_dash v) c
  | _ => c
  end.
Definition shape_of (c : canvas) (x : cmd) : option shape :=
  let p := property_ (now_ c) in
  match x with
  | ClearRect x y w h => Some (Cleared x y w h)
  | FillRect x y w h => Some (Box (p "fillStyle"%string) x y w h)
  | StrokeRect x y w h => Some (BoxOutline (p "strokeStyle"%string) (p "lineWidth"%string) x y w h)
  | DrawImage x y w h => Some (Picture x y w h)
  | Fill => Some (Area (p "fillStyle"%string) false (path_ c))
  | FillEvenOdd => Some (Area (p "fillStyle"%string) true (path_ c))
  | Stroke => Some (Outline (p "strokeStyle") (p "lineWidth") (dash_ (now_ c)) (p "lineDashOffset") (path_ c))%string
  | FillText s x y m => Some (Text (p "fillStyle") (p "font") (p "textAlign") (p "textBaseline") s x y m)%string
  | StrokeText s x y m =>
      Some (TextOutline (p "strokeStyle") (p "lineWidth") (p "font") (p "textAlign") (p "textBaseline") s x y m)%string
  | _ => None
  end.
Definition mark_of (g : gfx) (s : shape) : mark := mkMark s (placed_by g) (clipped_to g).
Fixpoint painted (c : canvas) (l : list cmd) : list mark :=
  match l with
  | [] => []
  | x :: l' => (match shape_of c x with Some s => [mark_of (now_ c) s] | None => [] end ++ painted (after c x) l')%list
  end.
Definition afterwards (c : canvas) (l : list cmd) : canvas := fold_left after l c.

Lemma painted_app c l1 l2 : painted c (l1 ++ l2) = (painted c l1 ++ painted (afterwards c l1) l2)%list.
Proof.
  revert c. induction l1 as [|x l1 IH]; intros c; [reflexivity|]. cbn [app painted afterwards fold_left].
  rewrite IH. now rewrite <- app_assoc.
Qed.
Lemma afterwards_app c l1 l2 : afterwards c (l1 ++ l2) = afterwards (afterwards c l1) l2.
Proof. apply fold_left_app. Qed.

(** The saved states grow and shrink with the depth, so balanced commands between a [Save]
    and its [Restore] leave everything but the path. *)
Lemma saved_suffix l : forall c d e r, depth_after d l = Some e -> (exists k, saved_ c = k ++ r /\ List.length k = d) ->
  exists k, saved_ (afterwards c l) = (k ++ r)%list /\ List.length k = e.
Proof.
  induction l as [|x l IH]; intros c d e r D (k & S & L); [injection D as <-; eauto|].
  cbn [afterwards fold_left]. change (fold_left after l ?a) with (afterwards a l).
  destruct x; cbn [depth_after] in D; try (eapply IH; [exact D|]; exists k; split; [exact S|exact L]).
  - eapply IH; [exact D|]. exists (now_ c :: k). cbn [after saved_]. rewrite S. split; [reflexivity|]. cbn. now rewrite L.
  - destruct d as [|d]; [discriminate|]. destruct k as [|g k]; [discriminate|]. cbn [after]. rewrite S. cbn [app].
    eapply IH; [exact D|]. exists k. split; [reflexivity|]. now injection L.
Qed.
Lemma saved_restored c l : balanced l ->
  exists p, afterwards c (Save :: l ++ [Restore]) = with_path p c.
Proof.
  intros B. change (Save :: l ++ [Restore])%list with ([Save] ++ l ++ [Restore])%list. rewrite !afterwards_app.
  set (c1 := afterwards c [Save]). destruct (saved_suffix l c1 0 0 (saved_ c1) (B 0%nat)) as (k & S & L); [now exists []|].
  destruct k; [|discriminate]. cbn [app] in S. cbn [afterwards fold_left after].
  change (fold_left after l c1) with (afterwards c1 l). rewrite S. cbn [c1 afterwards fold_left after saved_].
  eexists. reflexivity.
Qed.

(** Commands whose marks do not depend on the path they find. *)
Definition pathless (l : list cmd) : Prop := forall c p, painted (with_path p c) l = painted c l /\
  exists q, afterwards (with_path p c) l = with_path q (afterwards c l).
Definition no_path (x : cmd) : Prop :=
  match x with
  | BeginPath | ClosePath | MoveTo _ _ | LineTo _ _ | BezierCurveTo _ _ _ _ _ _ | Arc _ _ _ _ _ _ | RectPath _ _ _ _
  | QuadraticCurveTo _ _ _ _ | Clip | Fill | FillEvenOdd | Stroke => False
  | _ => True
  end.
Lemma pathless_nil : pathless [].
Proof. intros c p. split; [reflexivity|now exists p]. Qed.
Lemma pathless_app l1 l2 : pathless l1 -> pathless l2 -> pathless (l1 ++ l2).
Proof.
  intros H1 H2 c p. rewrite !painted_app, !afterwards_app. destruct (H1 c p) as [-> (q & ->)].
  destruct (H2 (afterwards c l1) q) as [-> (q' & ->)]. eauto.
Qed.
Lemma pathless_one x : no_path x -> pathless [x].
Proof.
  intros N c p. destruct c as [g s p0]. split; [destruct x; try destruct N; reflexivity|].
  destruct x; try destruct N; try (now exists p). destruct s; now exists p.
Qed.
Lemma pathless_list l : List.Forall no_path l -> pathless l.
Proof. induction 1 as [|x l N _ IH]; [exact pathless_nil|]. apply (pathless_app [x]); [now apply pathless_one|exact IH]. Qed.
Lemma pathless_fresh l : pathless (BeginPath :: l).
Proof.
  intros c p. split; [reflexivity|]. exists (path_ (afterwards c (BeginPath :: l))).
  change (afterwards (with_path p c) (BeginPath :: l)) with (afterwards c (BeginPath :: l)).
  now destruct (afterwards c (BeginPath :: l)).
Qed.
Lemma pathless_map {A} (f : A -> list cmd) l : (forall a, pathless (f a)) -> pathless (List.flat_map f l).
Proof. intros F. induction l; [exact pathless_nil|]. apply pathless_app; auto. Qed.
Lemma with_path_path p q c : with_path p (with_path q c) = with_path p c.
Proof. reflexivity. Qed.
End Painting.
