(* ===== verification/Elements.v ===== *)
(** The elements of webui/public/chart.js that stand alone: [Element] with its properties in
    motion, [PointElement], [BarElement] and [ArcElement]: where they are, what of the chart
    they answer for, and the commands that draw them.

    Proved: an element is drawn without handing the canvas a negative radius (which would
    throw) and leaves the saved states of the canvas as they were; the borders of a bar stay
    within its halves. *)
From Stdlib Require Import ZArith Lia Bool List Ascii String.
From Stdlib Require Import SpecFloat.
From stdpp Require Import base list.
From S2P Require Import Prelude JsNumber JsString JsArray JsValue HelpersCore HelpersMath Interaction Options Canvas.
Import ListNotations.
Open Scope Z_scope.

Module Elements.
Import MathH Js Canvas.
Local Open Scope js_scope.

Section Elements.
Context `{MathLib}.

(** ** Properties *)

(** The own numeric properties of an element (None is undefined) and, for those whose
    animation is active, the values they move to. *)
Record element := mkElement { this : string -> option num; animations : option (string -> option num) }.
Definition getProps (el : element) (final : bool) : string -> option num :=
  match final, animations el with
  | true, Some anims => fun prop => match anims prop with Some to => Some to | None => this el prop end
  | _, _ => this el
  end.
Definition prop (el : element) (final : bool) (p : string) : num :=
  match getProps el final p with Some x => x | None => Num.nan end.
Definition isNumber (v : option num) : bool := match v with Some x => negb (Num.is_nan x) | None => false end.
Definition hasValue (el : element) : bool := isNumber (this el "x") && isNumber (this el "y").
Definition tooltipPosition (el : element) (final : bool) : point := mkPoint (prop el final "x") (prop el final "y").

(** ** Points *)
Record point_element_options := mkPointEl { po : point_options; hitRadius : num; hoverRadius : num }.
Definition or0 (x : num) : num := if falsy x then 0 else x.
Definition point_inRange (el : element) (o : point_element_options) (mouseX mouseY : num) (final : bool) : bool :=
  math_pow (mouseX - prop el final "x") 2 + math_pow (mouseY - prop el final "y") 2
    <? math_pow (hitRadius o + radius (po o)) 2.
(** [inRange$1]: on one axis. *)
Definition inRange_1 (el : element) (o : point_element_options) (pos : num) (axis : string) (final : bool) : bool :=
  Num.abs (pos - prop el final axis) <? radius (po o) + hitRadius o.
Definition point_size (o : point_element_options) : num :=
  let radius := or0 (radius (po o)) in
  let radius := Num.max radius (or0 (if falsy radius then radius else hoverRadius o)) in
  let borderWidth := or0 (if falsy radius then radius else borderWidth (po o)) in
  (radius + borderWidth) * 2.
Definition point_getRange (o : point_element_options) : num := radius (po o) + hitRadius o.
(** [skip] is the element's property. *)
Definition point_draw (el : element) (o : point_element_options) (skip : bool) (area : option Interaction.rect)
    (borderColor backgroundColor : value) : list cmd :=
  let x := prop el false "x" in
  let y := prop el false "y" in
  if skip || (radius (po o) <? 0.1) || negb (Interaction._isPointInArea (mkPoint x y) area (point_size o / 2)) then []
  else (Set_ "strokeStyle" borderColor :: Set_ "lineWidth" (VNum (borderWidth (po o))) ::
        Set_ "fillStyle" backgroundColor :: drawPoint (po o) x y)%list.

(** ** Bars *)
Record sides := mkSides { s_top : bool; s_right : bool; s_bottom : bool; s_left : bool }.
Record bar := mkBar {
  bar_el : element; horizontal : bool; inflateAmount : num;
  enableBorderRadius : bool; borderSkipped : sides;
  bar_borderWidth : value; bar_borderRadius : value
}.
Definition getBarBounds (b : bar) (final : bool) : Interaction.rect :=
  let p := prop (bar_el b) final in
  let '(x, y, base) := (p "x"%string, p "y"%string, p "base"%string) in
  if horizontal b then
    let half := p "height"%string / 2 in Interaction.mkRect (Num.min x base) (y - half) (Num.max x base) (y + half)
  else
    let half := p "width"%string / 2 in Interaction.mkRect (x - half) (Num.min y base) (x + half) (Num.max y base).
Definition skipOrLimit (skip : bool) (value min max : num) : num := if skip then 0 else _limitValue value min max.
Definition parseBorderWidth (b : bar) (maxW maxH : num) : Options.trbl :=
  let o := Options.toTRBL (bar_borderWidth b) in
  let skip := borderSkipped b in
  Options.mkTRBL (skipOrLimit (s_top skip) (Options.top o) 0 maxH) (skipOrLimit (s_right skip) (Options.right o) 0 maxW)
    (skipOrLimit (s_bottom skip) (Options.bottom o) 0 maxH) (skipOrLimit (s_left skip) (Options.left o) 0 maxW).
Definition parseBorderRadius (b : bar) (maxW maxH : num) : Options.corners :=
  let o := Options.toTRBLCorners (bar_borderRadius b) in
  let maxR := Num.min maxW maxH in
  let skip := borderSkipped b in
  let no := negb (enableBorderRadius b || Core.isObject (bar_borderRadius b)) in
  Options.mkCorners (skipOrLimit (no || s_top skip || s_left skip) (Options.topLeft o) 0 maxR)
    (skipOrLimit (no || s_top skip || s_right skip) (Options.topRight o) 0 maxR)
    (skipOrLimit (no || s_bottom skip || s_left skip) (Options.bottomLeft o) 0 maxR)
    (skipOrLimit (no || s_bottom skip || s_right skip) (Options.bottomRight o) 0 maxR).
(** The outer and the inner rectangle. *)
Definition boundingRects (b : bar) : rounded * rounded :=
  let bounds := getBarBounds b false in
  let width := Interaction.right bounds - Interaction.left bounds in
  let height := Interaction.bottom bounds - Interaction.top bounds in
  let border := parseBorderWidth b (width / 2) (height / 2) in
  let r := parseBorderRadius b (width / 2) (height / 2) in
  let '(bt, br, bb, bl) := (Options.top border, Options.right border, Options.bottom border, Options.left border) in
  (mkRounded (Interaction.left bounds) (Interaction.top bounds) width height r,
   mkRounded (Interaction.left bounds + bl) (Interaction.top bounds + bt) (width - bl - br) (height - bt - bb)
     (Options.mkCorners (Num.max 0 (Options.topLeft r - Num.max bt bl)) (Num.max 0 (Options.topRight r - Num.max bt br))
        (Num.max 0 (Options.bottomLeft r - Num.max bb bl)) (Num.max 0 (Options.bottomRight r - Num.max bb br)))).
(** A coordinate that is null is not looked at. *)
Definition bar_inRange (b : bar) (x y : option num) (final : bool) : bool :=
  match x, y with
  | None, None => false
  | _, _ =>
      let bounds := getBarBounds b final in
      (match x with Some x => _isBetween x (Interaction.left bounds) (Interaction.right bounds) 1e-6 | None => true end) &&
      (match y with Some y => _isBetween y (Interaction.top bounds) (Interaction.bottom bounds) 1e-6 | None => true end)
  end.
Definition hasRadius (c : Options.corners) : bool :=
  negb (falsy (Options.topLeft c)) || negb (falsy (Options.topRight c)) || negb (falsy (Options.bottomLeft c)) || negb (falsy (Options.bottomRight c)).
Definition addNormalRectPath (r : rounded) : list cmd := [RectPath (rx r) (ry r) (rw r) (rh r)].
Definition inflateRect (r : rounded) (amount : num) (ref : option rounded) : rounded :=
  let differs a f := match ref with Some q => negb (Num.eq a (f q)) | None => true end in
  let x := if differs (rx r) rx then - amount else 0 in
  let y := if differs (ry r) ry then - amount else 0 in
  let w := (if differs (rx r + rw r) (fun q => rx q + rw q) then amount else 0) - x in
  let h := (if differs (ry r + rh r) (fun q => ry q + rh q) then amount else 0) - y in
  mkRounded (rx r + x) (ry r + y) (rw r + w) (rh r + h) (rradius r).
Definition bar_draw (b : bar) (borderColor backgroundColor : value) : list cmd :=
  let '(outer, inner) := boundingRects b in
  let amount := inflateAmount b in
  let add r := if hasRadius (rradius outer) then addRoundedRectPath r else addNormalRectPath r in
  (Save ::
   (if negb (Num.eq (rw outer) (rw inner)) || negb (Num.eq (rh outer) (rh inner)) then
      BeginPath :: add (inflateRect outer amount (Some inner)) ++ Clip :: add (inflateRect inner (- amount) (Some outer)) ++
      [Set_ "fillStyle" borderColor; FillEvenOdd]
    else []) ++
   BeginPath :: add (inflateRect inner amount None) ++ [Set_ "fillStyle" backgroundColor; Fill; Restore])%list.
Definition bar_getCenterPoint (b : bar) (final : bool) : point :=
  let p := prop (bar_el b) final in
  mkPoint (if horizontal b then (p "x"%string + p "base"%string) / 2 else p "x"%string)
    (if horizontal b then p "y"%string else (p "y"%string + p "base"%string) / 2).
Definition bar_getRange (b : bar) (axis : string) : num :=
  if String.eqb axis "x" then prop (bar_el b) false "width" / 2 else prop (bar_el b) false "height" / 2.

(** ** Arcs *)
Record arc := mkArc {
  arc_el : element;
  offset : num; spacing : num; arc_borderWidth : num; inner_border : bool;
  borderJoinStyle : value; arc_borderRadius : value; backgroundColor : value; borderColor : value
}.
(** [pixelMargin] and [fullCircles], set by drawing. *)
Definition pixelMargin (a : arc) : num := if inner_border a then 0.33 else 0.
Definition fullCircles (a : arc) : nat :=
  let c := prop (arc_el a) false "circumference" in
  if TAU <? c then Z.to_nat (Num.trunc_Z (Num.floor (c / TAU))) else O.
Definition aprop (a : arc) (p : string) : num := prop (arc_el a) false p.

Definition clipArc (a : arc) (endAngle : num) : list cmd :=
  let '(x, y, startAngle) := (aprop a "x", aprop a "y", aprop a "startAngle") in
  let angleMargin := pixelMargin a / aprop a "outerRadius" in
  let innerMargin := pixelMargin a / aprop a "innerRadius" in
  [BeginPath; Arc x y (aprop a "outerRadius") (startAngle - angleMargin) (endAngle + angleMargin) false;
   (if pixelMargin a <? aprop a "innerRadius"
    then Arc x y (aprop a "innerRadius") (endAngle + innerMargin) (startAngle - innerMargin) true
    else Arc x y (pixelMargin a) (endAngle + HALF_PI) (startAngle - HALF_PI) false);
   ClosePath; Clip].

Record radius_corners := mkCorner { outerStart : num; outerEnd : num; innerStart : num; innerEnd : num }.
Definition toRadiusCorners (v : value) : radius_corners :=
  let r := Options._readValueToProps v [("outerStart", None); ("outerEnd", None); ("innerStart", None); ("innerEnd", None)]%string in
  mkCorner (Options.field "outerStart" r) (Options.field "outerEnd" r) (Options.field "innerStart" r) (Options.field "innerEnd" r).
(** [parseBorderRadius$1]. *)
Definition parseBorderRadius_1 (v : value) (innerRadius outerRadius angleDelta : num) : radius_corners :=
  let o := toRadiusCorners v in
  let halfThickness := (outerRadius - innerRadius) / 2 in
  let innerLimit := Num.min halfThickness (angleDelta * innerRadius / 2) in
  let computeOuterLimit val :=
    let outerArcLimit := (outerRadius - Num.min halfThickness val) * angleDelta / 2 in
    _limitValue val 0 (Num.min halfThickness outerArcLimit) in
  mkCorner (computeOuterLimit (outerStart o)) (computeOuterLimit (outerEnd o))
    (_limitValue (innerStart o) 0 innerLimit) (_limitValue (innerEnd o) 0 innerLimit).
Definition rThetaToXY (r theta x y : num) : point := mkPoint (x + r * math_cos theta) (y + r * math_sin theta).

Definition outer_radius (a : arc) (offset spacing : num) : num :=
  Num.max (aprop a "outerRadius" + spacing + offset - pixelMargin a) 0.
Definition inner_radius (a : arc) (offset spacing : num) : num :=
  let innerR := aprop a "innerRadius" in if 0 <? innerR then innerR + spacing + offset + pixelMargin a else 0.
(** The angles between which the arc is drawn, inside [start] and [end_]. *)
Definition arc_angles (a : arc) (offset spacing end_ : num) : num * num :=
  let start := aprop a "startAngle" in
  let innerR := aprop a "innerRadius" in
  let outerRadius := outer_radius a offset spacing in
  let alpha := end_ - start in
  let spacingOffset :=
    if falsy spacing then 0 else
      let noSpacingInnerRadius := if 0 <? innerR then innerR - spacing else 0 in
      let noSpacingOuterRadius := if 0 <? outerRadius then outerRadius - spacing else 0 in
      let avNogSpacingRadius := (noSpacingInnerRadius + noSpacingOuterRadius) / 2 in
      let adjustedAngle := if negb (Num.eq avNogSpacingRadius 0)
        then (alpha * avNogSpacingRadius) / (avNogSpacingRadius + spacing) else alpha in
      (alpha - adjustedAngle) / 2 in
  let beta := Num.max 0.001 (alpha * outerRadius - offset / PI) / outerRadius in
  let angleOffset := (alpha - beta) / 2 in
  (start + angleOffset + spacingOffset, end_ - angleOffset - spacingOffset).
Definition pathArc (a : arc) (offset spacing end_ : num) : list cmd :=
  let '(x, y) := (aprop a "x", aprop a "y") in
  let outerRadius := outer_radius a offset spacing in
  let innerRadius := inner_radius a offset spacing in
  let '(startAngle, endAngle) := arc_angles a offset spacing end_ in
  let c := parseBorderRadius_1 (arc_borderRadius a) innerRadius outerRadius (endAngle - startAngle) in
  let outerStartAdjustedRadius := outerRadius - outerStart c in
  let outerEndAdjustedRadius := outerRadius - outerEnd c in
  let outerStartAdjustedAngle := startAngle + outerStart c / outerStartAdjustedRadius in
  let outerEndAdjustedAngle := endAngle - outerEnd c / outerEndAdjustedRadius in
  let innerStartAdjustedRadius := innerRadius + innerStart c in
  let innerEndAdjustedRadius := innerRadius + innerEnd c in
  let innerStartAdjustedAngle := startAngle + innerStart c / innerStartAdjustedRadius in
  let innerEndAdjustedAngle := endAngle - innerEnd c / innerEndAdjustedRadius in
  let line p := LineTo (MathH.x p) (MathH.y p) in
  let corner p r s e := Arc (MathH.x p) (MathH.y p) r s e false in
  ([BeginPath; Arc x y outerRadius outerStartAdjustedAngle outerEndAdjustedAngle false] ++
   (if 0 <? outerEnd c then
      [corner (rThetaToXY outerEndAdjustedRadius outerEndAdjustedAngle x y) (outerEnd c) outerEndAdjustedAngle (endAngle + HALF_PI)]
    else []) ++
   [line (rThetaToXY innerEndAdjustedRadius endAngle x y)] ++
   (if 0 <? innerEnd c then
      [corner (rThetaToXY innerEndAdjustedRadius innerEndAdjustedAngle x y) (innerEnd c) (endAngle + HALF_PI) (innerEndAdjustedAngle + PI)]
    else []) ++
   [Arc x y innerRadius (endAngle - innerEnd c / innerRadius) (startAngle + innerStart c / innerRadius) true] ++
   (if 0 <? innerStart c then
      [corner (rThetaToXY innerStartAdjustedRadius innerStartAdjustedAngle x y) (innerStart c) (innerStartAdjustedAngle + PI) (startAngle - HALF_PI)]
    else []) ++
   [line (rThetaToXY outerStartAdjustedRadius startAngle x y)] ++
   (if 0 <? outerStart c then
      [corner (rThetaToXY outerStartAdjustedRadius outerStartAdjustedAngle x y) (outerStart c) (startAngle - HALF_PI) outerStartAdjustedAngle]
    else []) ++ [ClosePath])%list.
Definition drawArc (a : arc) (offset spacing : num) : list cmd * num :=
  let startAngle := aprop a "startAngle" in
  let circumference := aprop a "circumference" in
  let '(full, endAngle) :=
    match fullCircles a with
    | O => ([], aprop a "endAngle")
    | n =>
        ((pathArc a offset spacing (startAngle + TAU) ++ repeat Fill n)%list,
         if Num.is_nan circumference then aprop a "endAngle"
         else
           let e := startAngle + circumference mod TAU in
           if Num.eq (circumference mod TAU) 0 then e + TAU else e)
    end in
  ((full ++ pathArc a offset spacing endAngle ++ [Fill])%list, endAngle).
Definition drawFullCircleBorders (a : arc) (inner : bool) : list cmd :=
  let '(x, y, startAngle) := (aprop a "x", aprop a "y", aprop a "startAngle") in
  let outerRadius := Num.max (aprop a "outerRadius" - pixelMargin a) 0 in
  let innerRadius := aprop a "innerRadius" + pixelMargin a in
  ((if inner then clipArc a (startAngle + TAU) else []) ++
   BeginPath :: Arc x y innerRadius (startAngle + TAU) startAngle true :: repeat Stroke (fullCircles a) ++
   BeginPath :: Arc x y outerRadius startAngle (startAngle + TAU) false :: repeat Stroke (fullCircles a))%list.
Definition drawBorder (a : arc) (offset spacing endAngle : num) : list cmd :=
  if falsy (arc_borderWidth a) then []
  else
    let inner := inner_border a in
    let join d := Set_ "lineJoin" (if truthy (borderJoinStyle a) then borderJoinStyle a else VStr d) in
    ((if inner then [Set_ "lineWidth" (VNum (arc_borderWidth a * 2)); join "round"%string]
      else [Set_ "lineWidth" (VNum (arc_borderWidth a)); join "bevel"%string]) ++
     (match fullCircles a with O => [] | _ => drawFullCircleBorders a inner end) ++
     (if inner then clipArc a endAngle else []) ++
     pathArc a offset spacing endAngle ++ [Stroke])%list.
Definition arc_draw (a : arc) : list cmd :=
  let half_offset := or0 (offset a) / 2 in
  let spacing := or0 (spacing a) / 2 in
  let circumference := aprop a "circumference" in
  if Num.eq circumference 0 || (aprop a "innerRadius" <? 0) || (aprop a "outerRadius" <? 0) then []
  else
    let halfAngle := (aprop a "startAngle" + aprop a "endAngle") / 2 in
    let '(move, radiusOffset) :=
      if falsy half_offset then ([], 0)
      else ([Translate (math_cos halfAngle * (half_offset / 2)) (math_sin halfAngle * (half_offset / 2))],
            if PI <=? circumference then half_offset else half_offset / 2) in
    let '(fill, endAngle) := drawArc a radiusOffset spacing in
    (Save :: move ++ [Set_ "fillStyle" (backgroundColor a); Set_ "strokeStyle" (borderColor a)] ++ fill ++
     drawBorder a radiusOffset spacing endAngle ++ [Restore])%list.
Definition arc_inRange (a : arc) (chartX chartY : num) (final : bool) : bool :=
  let p := prop (arc_el a) final in
  let pol := getAngleFromPoint (mkPoint (p "x"%string) (p "y"%string)) (mkPoint chartX chartY) in
  let rAdjust := spacing a / 2 in
  let circumference := match getProps (arc_el a) final "circumference" with
    | Some c => c | None => p "endAngle"%string - p "startAngle"%string end in
  let betweenAngles := (TAU <=? circumference) ||
    _angleBetween (angle pol) (p "startAngle"%string) (p "endAngle"%string) false in
  betweenAngles && _isBetween (distance pol) (p "innerRadius"%string + rAdjust) (p "outerRadius"%string + rAdjust) 1e-6.
Definition arc_getCenterPoint (a : arc) (final : bool) : point :=
  let p := prop (arc_el a) final in
  let halfAngle := (p "startAngle"%string + p "endAngle"%string) / 2 in
  let halfRadius := (p "innerRadius"%string + p "outerRadius"%string + spacing a + offset a) / 2 in
  mkPoint (p "x"%string + math_cos halfAngle * halfRadius) (p "y"%string + math_sin halfAngle * halfRadius).
End Elements.
End Elements.

(** ** Facts *)
Module ElementsFacts.
Import MathH Canvas CanvasFacts NonNegative Elements.
Local Open Scope js_scope.

(** What the canvas accepts: [arc] throws on a negative radius. *)
Definition legal (c : cmd) : Prop := match c with Arc _ _ r _ _ _ => nn r | _ => True end.
(** Commands that are accepted and leave the saved states as they were. *)
Definition safe (l : list cmd) : Prop := List.Forall legal l /\ balanced l.

Lemma safe_app l1 l2 : safe l1 -> safe l2 -> safe (l1 ++ l2).
Proof. intros [L1 B1] [L2 B2]. split; [now apply List.Forall_app|now apply balanced_app]. Qed.
Lemma safe_cons c l : flat c -> legal c -> safe l -> safe (c :: l).
Proof. intros F L [L2 B2]. split; [now constructor|now apply balanced_cons]. Qed.
Lemma safe_nil : safe [].
Proof. split; [constructor|exact balanced_nil]. Qed.
Lemma safe_saved l : safe l -> safe (Save :: l ++ [Restore]).
Proof.
  intros [L B]. split; [|now apply balanced_saved]. constructor; [exact I|]. apply List.Forall_app. split; [exact L|].
  repeat constructor.
Qed.
Lemma safe_repeat c n : flat c -> legal c -> safe (repeat c n).
Proof. intros F L. induction n; [exact safe_nil|now apply safe_cons]. Qed.
Lemma safe_flat l : List.Forall flat l -> List.Forall legal l -> safe l.
Proof. intros F L. split; [exact L|now apply balanced_flat]. Qed.
Hint Resolve safe_nil safe_repeat : core.
Ltac safe := repeat match goal with
  | |- True => exact I
  | |- safe (_ ++ _) => apply safe_app
  | |- safe (_ :: _) => apply safe_cons
  | |- safe [] => apply safe_nil
  | |- safe (repeat _ _) => apply safe_repeat
  | |- safe (if ?b then _ else _) => destruct b eqn:?
  | |- legal _ => progress cbn [legal]
  | |- flat _ => progress cbn [flat]
  end.

Section Facts.
Context `{MathLib}.

(** *** Points *)
Lemma legal_point_path st ro rad r x y : nn r -> nn (r * 0.516) -> List.Forall legal (point_path st ro rad r x y).
Proof.
  intros R R'. unfold point_path. destruct st as [s|w h|]; try (now repeat constructor).
  repeat match goal with |- List.Forall _ (match ?x with _ => _ end) => destruct x; try (now repeat constructor) end.
Qed.
Lemma safe_drawPoint o x y : safe (drawPoint o x y).
Proof.
  unfold drawPoint. assert (P : forall st, safe (if Num.is_nan (radius o) || (radius o <=? 0) then [] else
    (BeginPath :: point_path st (rotation o) ((if falsy (rotation o) then 0 else rotation o) * RAD_PER_DEG) (radius o) x y
     ++ Fill :: (if 0 <? borderWidth o then [Stroke] else []))%list)).
  { intros st. destruct (Num.is_nan (radius o) || (radius o <=? 0)) eqn:N; [apply safe_nil|].
    apply orb_false_iff in N as [N1 N2].
    assert (R : nn (radius o)).
    { apply nn_pos. rewrite NumFacts.le_not_lt in N2 by (auto; reflexivity). now apply negb_false_iff in N2. }
    assert (R' : nn (radius o * 0.516)) by (apply nn_mul; [exact R|reflexivity]).
    safe. apply safe_flat; [apply flat_point_path|now apply legal_point_path]. }
  destruct (pointStyle o) as [s|w h|]; [apply (P (Named s))| |apply (P OtherStyle)].
  apply (safe_saved [Translate x y; _; _]). safe.
Qed.
Lemma safe_point el o skip area bc bg : safe (point_draw el o skip area bc bg).
Proof. unfold point_draw. safe. apply safe_drawPoint. Qed.

(** *** Bars *)
Definition round_corners (c : Options.corners) : Prop :=
  nn (Options.topLeft c) /\ nn (Options.topRight c) /\ nn (Options.bottomLeft c) /\ nn (Options.bottomRight c).
Lemma safe_roundedRect r : round_corners (rradius r) -> safe (addRoundedRectPath r).
Proof. intros (A & B & C & D). unfold addRoundedRectPath. safe; assumption. Qed.
Lemma nn_skip b v m : nn (skipOrLimit b v 0 m).
Proof. unfold skipOrLimit. destruct b; [reflexivity|apply nn_limit]. Qed.
Lemma bar_corners b : round_corners (rradius (fst (boundingRects b))) /\ round_corners (rradius (snd (boundingRects b))).
Proof.
  unfold boundingRects. cbn [fst snd rradius]. unfold round_corners. cbn. repeat split; try apply nn_skip;
    apply nn_max_l; reflexivity.
Qed.
Lemma safe_bar b bc bg : safe (bar_draw b bc bg).
Proof.
  unfold bar_draw. destruct (bar_corners b) as [O I]. destruct (boundingRects b) as [outer inner]. cbn [fst snd] in O, I.
  match goal with |- safe (Save :: ?x ++ BeginPath :: ?y ++ [?f; Fill; Restore]) =>
    replace (Save :: x ++ BeginPath :: y ++ [f; Fill; Restore])
      with (Save :: (x ++ BeginPath :: y ++ [f; Fill]) ++ [Restore]) by (rewrite <- !app_assoc; cbn; now rewrite <- app_assoc) end.
  apply safe_saved. safe; try (apply safe_roundedRect; assumption); unfold addNormalRectPath; safe.
Qed.

(** *** Arcs *)
Section Arc.
Context (a : arc).
Hypothesis offset_nn : nn (or0 (offset a) / 2).
Hypothesis spacing_nn : nn (or0 (spacing a) / 2).

Lemma nn_margin : nn (pixelMargin a).
Proof. unfold pixelMargin. destruct (inner_border a); reflexivity. Qed.
Lemma safe_pathArc o sp e : nn o -> nn sp -> safe (pathArc a o sp e).
Proof.
  intros O S. unfold pathArc. destruct (arc_angles a o sp e) as [sa ea].
  assert (Ro : nn (outer_radius a o sp)) by (apply nn_max_r; reflexivity).
  assert (Ri : nn (inner_radius a o sp)).
  { unfold inner_radius. destruct (0 <? aprop a "innerRadius") eqn:E; [|reflexivity].
    repeat apply nn_add; auto using nn_pos, nn_margin. }
  safe; auto using nn_pos.
Qed.
Lemma safe_clipArc e : nn (aprop a "outerRadius") -> safe (clipArc a e).
Proof.
  intros O. unfold clipArc. destruct (pixelMargin a <? aprop a "innerRadius") eqn:E.
  - assert (I : nn (aprop a "innerRadius")).
    { clear - E. unfold pixelMargin in E. apply nn_pos. destruct (inner_border a); [|exact E].
      eapply NumFacts.lt_trans; [|exact E]. reflexivity. }
    safe; auto.
  - safe; auto using nn_margin.
Qed.
Lemma safe_drawArc o sp : nn o -> nn sp -> safe (fst (drawArc a o sp)).
Proof.
  intros O S. unfold drawArc. destruct (fullCircles a); cbn [fst]; safe; auto using safe_pathArc.
Qed.
Lemma safe_drawBorder o sp e : nn o -> nn sp -> nn (aprop a "outerRadius") -> nn (aprop a "innerRadius") ->
  safe (drawBorder a o sp e).
Proof.
  intros O S Ro Ri. unfold drawBorder.
  assert (F : safe (match fullCircles a with O => [] | _ => drawFullCircleBorders a (inner_border a) end)).
  { destruct (fullCircles a); [apply safe_nil|]. unfold drawFullCircleBorders.
    safe; auto using safe_clipArc, nn_add, nn_margin. apply nn_max_r. reflexivity. }
  destruct (inner_border a); safe; auto using safe_clipArc, safe_pathArc.
Qed.
Lemma safe_arc : safe (arc_draw a).
Proof.
  unfold arc_draw. destruct (_ || _ || _) eqn:E; [apply safe_nil|].
  apply orb_false_iff in E as [E Ro]. apply orb_false_iff in E as [_ Ri].
  set (move := if falsy _ then _ else _).
  assert (M : safe (fst move) /\ nn (snd move)).
  { unfold move. destruct (falsy _); cbn [fst snd]; split; try (safe; fail); [reflexivity|].
    destruct (PI <=? _); [exact offset_nn|]. now apply nn_half. }
  destruct move as [mv ro]. cbn [fst snd] in M. destruct M as [M1 M2].
  pose proof (safe_drawArc ro (or0 (spacing a) / 2) M2 spacing_nn) as D.
  destruct (drawArc a ro (or0 (spacing a) / 2)) as [fill e]. cbn [fst] in D.
  rewrite !app_assoc. apply safe_saved. safe; auto using safe_drawBorder.
Qed.
End Arc.

(** *** Every element *)
Inductive drawable :=
| DPoint (el : element) (o : point_element_options) (skip : bool) (area : option Interaction.rect) (borderColor backgroundColor : value)
| DBar (b : bar) (borderColor backgroundColor : value)
| DArc (a : arc).
Definition commands (d : drawable) : list cmd :=
  match d with
  | DPoint el o skip area bc bg => point_draw el o skip area bc bg
  | DBar b bc bg => bar_draw b bc bg
  | DArc a => arc_draw a
  end.
(** The option of an arc that pushes it out of the centre, and its distance to the others. *)
Definition sensible (d : drawable) : Prop :=
  match d with DArc a => nn (or0 (offset a)) /\ nn (or0 (spacing a)) | _ => True end.

(** C36: points and bars whatever their state and options, and arcs whose offset and spacing
    are not negative, are drawn with commands the canvas accepts, no radius being negative,
    which would end the drawing of the whole chart, and every state of the canvas that they
    save they restore. *)
Theorem elements_draw_safely d :
  sensible d -> List.Forall legal (commands d) /\ forall n, depth_after n (commands d) = Some n.
Proof.
  intros S. change (safe (commands d)). destruct d as [el o skip area bc bg|b bc bg|a]; cbn [commands].
  - apply safe_point.
  - apply safe_bar.
  - destruct S. apply safe_arc; now apply nn_half.
Qed.

(** *** Bars *)
(** The borders of a bar of sizes that are not negative stay inside its halves, and so do
    its corner radii. *)
Lemma limit_between v m : Num.is_nan v = false -> Num.le 0 m = true ->
  Num.le 0 (_limitValue v 0 m) = true /\ Num.le (_limitValue v 0 m) m = true.
Proof.
  intros V M. pose proof (proj2 (NumFacts.le_notnan _ _ M)) as Nm. unfold _limitValue.
  assert (N : Num.is_nan (Num.min m v) = false) by (rewrite NumFacts.is_nan_min, Nm; exact V).
  split; [now apply NumFacts.le_max_l|]. apply NumFacts.max_lub; [exact M|now apply NumFacts.min_le_l].
Qed.
Lemma numberOrZero_num_ok v : Num.is_nan (Options.numberOrZero v) = false.
Proof.
  unfold Options.numberOrZero. destruct (Js.truthy (VNum (Js.to_num v))) eqn:T; [|reflexivity].
  cbn in T. destruct (Js.to_num v); cbn in *; try reflexivity; discriminate.
Qed.
Lemma border_inside (skip : bool) v m : Num.is_nan v = false -> Num.le 0 m = true ->
  Num.le 0 (skipOrLimit skip v 0 m) = true /\ Num.le (skipOrLimit skip v 0 m) m = true.
Proof. intros V M. destruct skip; [now split|]. now apply limit_between. Qed.
Lemma bar_borders_inside b maxW maxH : Num.le 0 maxW = true -> Num.le 0 maxH = true ->
  let w := parseBorderWidth b maxW maxH in
  (Num.le 0 (Options.top w) = true /\ Num.le (Options.top w) maxH = true) /\
  (Num.le 0 (Options.right w) = true /\ Num.le (Options.right w) maxW = true) /\
  (Num.le 0 (Options.bottom w) = true /\ Num.le (Options.bottom w) maxH = true) /\
  (Num.le 0 (Options.left w) = true /\ Num.le (Options.left w) maxW = true).
Proof. intros W T. repeat split; apply border_inside; auto; apply numberOrZero_num_ok. Qed.
(** A point is in range of a bar when it is on both axes. *)
Lemma bar_inRange_axes b x y final :
  bar_inRange b (Some x) (Some y) final = bar_inRange b (Some x) None final && bar_inRange b None (Some y) final.
Proof. unfold bar_inRange. now rewrite andb_true_r. Qed.
End Facts.

#[local] Instance demo_math : MathLib :=
  {| math_pow := fun x _ => x * x; math_log10 := fun x => x; math_sin := fun x => x; math_cos := fun x => x; math_atan2 := fun x _ => x |}.
Definition demo_arc : arc :=
  mkArc (mkElement (fun p => match p with
    | "x" => Some 50 | "y" => Some 40 | "startAngle" => Some 0 | "endAngle" => Some 1.5 | "innerRadius" => Some 10
    | "outerRadius" => Some 30 | "circumference" => Some 7 | _ => None end)%string None)
    4 2 3 true (VStr "miter") (VNum 5) (VStr "red") (VStr "blue").
Lemma elements_draw_safely_witness :
  sensible (DArc demo_arc) /\ depth_after 0 (commands (DArc demo_arc)) = Some 0%nat.
Proof.
  assert (S : sensible (DArc demo_arc)) by (split; vm_compute; reflexivity).
  split; [exact S|]. exact (proj2 (elements_draw_safely (DArc demo_arc) S) 0%nat).
Defined.

(** *** Lists of commands and text *)
Lemma concat_safe (ls : list (list cmd)) : List.Forall safe ls -> safe (List.concat ls).
Proof. induction 1; cbn [List.concat]; [exact safe_nil|now apply safe_app]. Qed.
Lemma imap_Forall {A B} (P : B -> Prop) (f : nat -> A -> B) l : (forall i a, P (f i a)) -> List.Forall P (imap f l).
Proof. revert f. induction l as [|a l IH]; intros f F; constructor; [apply F|]. apply IH. intros i b. apply F. Qed.
Lemma flat_map_safe {A} (f : A -> list cmd) l : (forall a, safe (f a)) -> safe (List.flat_map f l).
Proof. intros F. induction l; cbn [List.flat_map]; [exact safe_nil|apply safe_app; auto]. Qed.
Section Text.
Context `{MathLib} (measure : string -> metrics).

Lemma safe_named p t : safe (named p t).
Proof. unfold named. destruct (String.eqb _ _); safe. Qed.
Lemma safe_renderText lines x y f lh o : safe (renderText measure lines x y f lh o).
Proof.
  split.
  - unfold renderText. repeat (apply List.Forall_cons; [exact I|]). apply List.Forall_app. split.
    + unfold setRenderOpts. repeat (apply List.Forall_app; split);
        try (destruct (translation o) as [[]|]); try destruct (text_rotation o); try apply safe_named; repeat constructor.
    + apply List.Forall_app. split; [|repeat constructor]. generalize (y : num). induction lines as [|a l IH]; intros z; [constructor|].
      cbn [text_lines]. apply List.Forall_app. split; [|apply IH]. unfold text_line, decorateText.
      apply List.Forall_app. split; [|apply List.Forall_app; split].
      * destruct (_ && _); [|constructor]. repeat (apply List.Forall_app; split); try (repeat constructor).
        -- destruct (strokeColor o); [apply safe_named|constructor].
        -- destruct (strokeWidth o); repeat constructor.
      * repeat constructor.
      * destruct (_ || _); repeat constructor.
  - apply renderText_balanced.
Qed.
End Text.
End ElementsFacts.
