(* ===== verification/Segments.v ===== *)
(** Line segments of webui/public/chart.js: the runs of points that are not
    skipped, their restriction to bounds, their split by style; and the text
    direction adapters. *)
From Stdlib Require Import ZArith Lia Bool List Ascii String.
From Stdlib Require Import SpecFloat.
From stdpp Require Import base list.
From S2P Require Import Prelude JsNumber JsString JsArray HelpersMath.
Import ListNotations.
Open Scope Z_scope.

Module Rtl.
Local Open Scope js_scope.

(** The adapter; [width] changes with [setWidth]. *)
Inductive adapter := RightToLeft (rectX width : num) | LeftToRight.
Definition getRtlAdapter (rtl : bool) (rectX width : num) : adapter :=
  if rtl then RightToLeft rectX width else LeftToRight.
Definition ax (a : adapter) (x : num) : num :=
  match a with RightToLeft rectX width => rectX + rectX + width - x | LeftToRight => x end.
Definition setWidth (a : adapter) (w : num) : adapter :=
  match a with RightToLeft rectX _ => RightToLeft rectX w | LeftToRight => LeftToRight end.
Definition textAlign (a : adapter) (align : string) : string :=
  match a with
  | RightToLeft _ _ => if String.eqb align "center" then align else if String.eqb align "right" then "left" else "right"
  | LeftToRight => align
  end%string.
Definition xPlus (a : adapter) (x value : num) : num :=
  match a with RightToLeft _ _ => x - value | LeftToRight => x + value end.
Definition leftForLtr (a : adapter) (x itemWidth : num) : num :=
  match a with RightToLeft _ _ => x - itemWidth | LeftToRight => x end.

(** The canvas' [direction] property (value and priority) and the text
    direction saved in the context. *)
Record ctx := mkCtx { direction : string * string; prevTextDirection : option (string * string) }.
Definition overrideTextDirection (c : ctx) (d : string) : ctx :=
  if String.eqb d "ltr" || String.eqb d "rtl"
  then mkCtx (d, "important"%string) (Some (direction c)) else c.
Definition restoreTextDirection (c : ctx) (original : option (string * string)) : ctx :=
  match original with Some o => mkCtx o None | None => c end.
End Rtl.

Module Segments.
Import MathH.

Record pt := mkPt { skip : bool; stop : bool; coord : num }.
Record segment := mkSegment { sstart : Z; send : Z; loop : bool; style : option string }.

(** [points[i % count]]. *)
Definition pt_at (points : list pt) (i : Z) : pt :=
  List.nth (Z.to_nat (i mod lengthZ points)) points (mkPt false false Num.nan).

(** The comparisons of a property. *)
Record prop_fn := mkFn {
  between : num -> num -> num -> bool; compare : num -> num -> num; normalize : num -> num }.
(** [_isBetween] is called with two bounds and its default margin 1e-6. *)
Definition propertyFn (property : string) : prop_fn :=
  if String.eqb property "angle" then
    mkFn (fun v a b => _angleBetween v a b false) _angleDiff _normalizeAngle
  else mkFn (fun v a b => _isBetween v a b 1e-6%js) Num.sub (fun x => x).

Definition normalizeSegment (start end_ count : Z) (lp : bool) (st : option string) : segment :=
  mkSegment (start mod count) (end_ mod count) (lp && ((end_ - start + 1) mod count =? 0)) st.

Record bounds := mkBounds { property : string; bstart : num; bend : num }.

(** The loop of [getSegment]: step back while the points are inside the bounds. *)
Fixpoint step_back (n : nat) (inside : Z -> bool) (start end_ : Z) : Z * Z :=
  match n with
  | O => (start, end_)
  | S n' => if inside start then step_back n' inside (start - 1) (end_ - 1) else (start, end_)
  end.
Definition getSegment (sg : segment) (points : list pt) (b : bounds) : segment :=
  let f := propertyFn (property b) in
  let count := lengthZ points in
  let '(start, end_) :=
    if loop sg then
      let '(s, e) := step_back (List.length points)
        (fun i => between f (normalize f (coord (pt_at points i))) (bstart b) (bend b))
        (sstart sg + count) (send sg + count) in
      (s mod count, e mod count)
    else (sstart sg, send sg) in
  mkSegment start (if end_ <? start then end_ + count else end_) (loop sg) (style sg).

(** The loop of [_boundSegment] over [i]; [prevValue] is undefined at first, and
    the comparisons with it are then false ([between]) or not zero. *)
Record bstate := mkBState {
  inside : bool; subStart : option Z; prev : Z; prevValue : option num; result : list segment }.
Definition bound_step (f : prop_fn) (b : bounds) (points : list pt) (lp : bool) (stl : option string)
  (st : bstate) (i : Z) : bstate :=
  let count := lengthZ points in
  let p := pt_at points i in
  if skip p then st else
  let value := normalize f (coord p) in
  let pv := match prevValue st with Some v => v | None => Num.nan end in
  if match prevValue st with Some v => Num.eq value v | None => false end then st else
  let ins := between f value (bstart b) (bend b) in
  let startIsBefore := between f (bstart b) pv value && negb (Num.eq (compare f (bstart b) pv) 0%js) in
  let endIsBefore := Num.eq (compare f (bend b) value) 0%js || between f (bend b) pv value in
  let sub := match subStart st with
             | None => if ins || startIsBefore
                       then Some (if Num.eq (compare f value (bstart b)) 0%js then i else prev st) else None
             | s => s end in
  match sub with
  | Some s =>
      if negb ins || endIsBefore
      then mkBState ins None i (Some value) (result st ++ [normalizeSegment s i count lp stl])
      else mkBState ins sub i (Some value) (result st)
  | None => mkBState ins None i (Some value) (result st)
  end.
Definition range (a b : Z) : list Z := List.map (fun k => a + Z.of_nat k) (seq 0 (Z.to_nat (b - a + 1))).
Definition _boundSegment (sg : segment) (points : list pt) (bo : option bounds) : list segment :=
  match bo with
  | None => [sg]
  | Some b =>
      let f := propertyFn (property b) in
      let sg := getSegment sg points b in
      let st := fold_left (bound_step f b points (loop sg) (style sg)) (range (sstart sg) (send sg))
                  (mkBState false None (sstart sg) None []) in
      match subStart st with
      | Some s => result st ++ [normalizeSegment s (send sg) (lengthZ points) (loop sg) (style sg)]
      | None => result st
      end
  end.
Definition _boundSegments (segments : list segment) (points : list pt) (bo : option bounds) : list segment :=
  List.concat (List.map (fun s => _boundSegment s points bo) segments).

(** ** The solid segments of a line *)
Fixpoint skip_while (n : nat) (p : pt -> bool) (points : list pt) (start : Z) : Z :=
  match n with
  | O => start
  | S n' => if (start <? lengthZ points) && p (pt_at points start) then skip_while n' p points (start + 1) else start
  end.
Fixpoint end_while (n : nat) (points : list pt) (start end_ : Z) : Z :=
  match n with
  | O => end_
  | S n' => if (start <? end_) && skip (pt_at points end_) then end_while n' points start (end_ - 1) else end_
  end.
Definition findStartAndEnd (points : list pt) (count : Z) (lp spanGaps : bool) : Z * Z :=
  let n := List.length points in
  let start := if lp && negb spanGaps then skip_while n (fun p => negb (skip p)) points 0 else 0 in
  let start := skip_while n skip points start in
  let start := start mod count in
  let end_ := count - 1 + if lp then start else 0 in
  let end_ := end_while n points start end_ in
  (start, end_ mod count).

(** [start] and [last] are null after a gap. *)
Record sstate := mkSState {
  s_start : option Z; s_last : option Z; s_prev : pt; s_loop : bool; s_result : list segment }.
Definition or0 (o : option Z) : Z := match o with Some z => z | None => 0 end.
Definition solid_step (points : list pt) (st : sstate) (end_ : Z) : sstate :=
  let count := lengthZ points in
  let cur := pt_at points end_ in
  if skip cur || stop cur then
    if skip (s_prev st) then mkSState (s_start st) (s_last st) cur (s_loop st) (s_result st)
    else
      let n := if stop cur then Some end_ else None in
      mkSState n n cur false
        (s_result st ++ [mkSegment (or0 (s_start st) mod count) ((end_ - 1) mod count) false None])
  else
    mkSState (if skip (s_prev st) then Some end_ else s_start st) (Some end_) cur (s_loop st) (s_result st).
Definition solidSegments (points : list pt) (start max : Z) (lp : bool) : list segment :=
  let count := lengthZ points in
  let st := fold_left (solid_step points) (range (start + 1) max)
              (mkSState (Some start) (Some start) (pt_at points start) lp []) in
  match s_last st with
  | Some l => s_result st ++ [mkSegment (or0 (s_start st) mod count) (l mod count) (s_loop st) None]
  | None => s_result st
  end.

(** [spanGaps] is false, true, or a number; a number counts as true in tests. *)
Inductive gaps := NoGaps | AllGaps | MaxGap (x : num).
Definition gaps_truthy (g : gaps) : bool :=
  match g with NoGaps => false | AllGaps => true | MaxGap x => negb (Num.is_nan x || Num.eq x 0%js) end.

(** ** Styles

    [style_of p0 p1] is the text of the style that the segment options give the
    stretch between two points; None: the options have no [setContext]. *)
Section Styles.
Context (style_of : option (Z -> Z -> string)) (baseStyle : string).

(** [addStyle]'s loops; None: no unskipped point is found. *)
Fixpoint move (n : nat) (points : list pt) (s dir : Z) : option Z :=
  match n with
  | O => None
  | S n' => if skip (pt_at points s) then move n' points (s + dir) dir else Some s
  end.
Record dstate := mkDState { prevStyle : string; d_start : Z; d_result : list segment }.
Definition addStyle (points : list pt) (spanGaps : bool) (s e : Z) (l : bool) (st : string) (ds : dstate)
  : option dstate :=
  let count := lengthZ points in
  let dir := if spanGaps then -1 else 1 in
  if s =? e then Some ds else
  match move (S (List.length points)) points (s + count) (- dir),
        move (S (List.length points)) points e dir with
  | Some s, Some e =>
      if negb (s mod count =? e mod count)
      then Some (mkDState st (e mod count)
                   (d_result ds ++ [mkSegment (s mod count) (e mod count) l (Some st)]))
      else Some ds
  | _, _ => None
  end.
Fixpoint split_loop (f : Z -> Z -> string) (points : list pt) (spanGaps : bool) (l : bool)
  (is_ : list Z) (prev : Z) (ds : dstate) : option dstate :=
  match is_ with
  | [] => Some ds
  | i :: rest =>
      let sty := f prev (i mod lengthZ points) in
      match (if negb (String.eqb sty (prevStyle ds))
             then addStyle points spanGaps (d_start ds) (i - 1) l (prevStyle ds) ds else Some ds) with
      | Some ds => split_loop f points spanGaps l rest (i mod lengthZ points) (mkDState sty (d_start ds) (d_result ds))
      | None => None
      end
  end.
Definition split_segment (f : Z -> Z -> string) (points : list pt) (spanGaps : bool) (ods : option dstate)
  (sg : segment) : option dstate :=
  match ods with
  | None => None
  | Some ds =>
      let start := if spanGaps then d_start ds else sstart sg in
      let ds := mkDState (prevStyle ds) start (d_result ds) in
      let i := Z.max (start + 1) (send sg + 1) in
      match split_loop f points spanGaps (loop sg) (range (start + 1) (send sg)) (start mod lengthZ points) ds with
      | Some ds => if d_start ds <? i - 1
                   then addStyle points spanGaps (d_start ds) (i - 1) (loop sg) (prevStyle ds) ds else Some ds
      | None => None
      end
  end.
Definition doSplitByStyles (f : Z -> Z -> string) (segments : list segment) (points : list pt) (spanGaps : bool)
  : option (list segment) :=
  match segments with
  | [] => None
  | sg :: _ =>
      match fold_left (split_segment f points spanGaps) segments (Some (mkDState baseStyle (sstart sg) [])) with
      | Some ds => Some (d_result ds)
      | None => None
      end
  end.
Definition splitByStyles (segments : list segment) (points : list pt) (spanGaps : bool) : option (list segment) :=
  match style_of with
  | None => Some segments
  | Some f => doSplitByStyles f segments points spanGaps
  end.

Definition _computeSegments (points : list pt) (g : gaps) (lp fullLoop : bool) : option (list segment) :=
  let count := lengthZ points in
  if count =? 0 then Some [] else
  let '(start, end_) := findStartAndEnd points count lp (gaps_truthy g) in
  match g with
  | AllGaps => splitByStyles [mkSegment start end_ lp None] points true
  | _ =>
      let max := if end_ <? start then end_ + count else end_ in
      let completeLoop := fullLoop && (start =? 0) && (end_ =? count - 1) in
      splitByStyles (solidSegments points start max completeLoop) points (gaps_truthy g)
  end.
End Styles.
End Segments.

(** ** Facts *)
Module SegmentsFacts.
Import Num NumFacts MathH Segments.

(** *** Text direction *)
Import Rtl.

(** Overriding the text direction and restoring what was saved leaves the
    canvas as it was; an unknown direction changes nothing. *)
Theorem text_direction_restored c d : prevTextDirection c = None ->
  restoreTextDirection (overrideTextDirection c d) (prevTextDirection (overrideTextDirection c d)) = c.
Proof.
  destruct c as [dir prev]. cbn [prevTextDirection]. intros ->. unfold overrideTextDirection.
  now destruct (String.eqb d "ltr" || String.eqb d "rtl").
Qed.

(** *** Solid segments *)

Lemma range_snoc a b : a <= b + 1 -> range a (b + 1) = range a b ++ [b + 1].
Proof.
  intros L. unfold range. replace (Z.to_nat (b + 1 - a + 1)) with (Z.to_nat (b - a + 1) + 1)%nat by lia.
  rewrite seq_app, List.map_app. cbn [seq List.map]. f_equal. f_equal. lia.
Qed.
Lemma range_empty a b : b < a -> range a b = [].
Proof. intros L. unfold range. now replace (Z.to_nat (b - a + 1)) with 0%nat by lia. Qed.
Lemma range_In a b i : In i (range a b) <-> a <= i <= b.
Proof.
  unfold range. rewrite in_map_iff. split.
  - intros (k & <- & I). apply in_seq in I. lia.
  - intros L. exists (Z.to_nat (i - a)). split; [lia|]. apply in_seq. lia.
Qed.

Section Solid.
Variables (points : list pt) (start : Z).
Hypothesis no_stop : forall i, stop (pt_at points i) = false.
Hypothesis start_solid : skip (pt_at points start) = false.

Definition solid (i : Z) : Prop := skip (pt_at points i) = false.
(** A maximal run of solid points between [start] and [max]. *)
Definition is_run (max : Z) (sg : segment) : Prop :=
  start <= sstart sg <= send sg /\ send sg <= max /\
  (forall i, sstart sg <= i <= send sg -> solid i) /\
  (sstart sg = start \/ ~ solid (sstart sg - 1)) /\ (send sg = max \/ ~ solid (send sg + 1)).

(** The loop's state at [k]. *)
Definition solid_inv (k : Z) (st : sstate) : Prop :=
  s_prev st = pt_at points k /\
  (forall sg, In sg (s_result st) -> is_run k sg /\ send sg < k) /\
  (if skip (pt_at points k) then s_last st = None /\
     (forall i, start <= i <= k -> solid i -> exists sg, In sg (s_result st) /\ sstart sg <= i <= send sg)
   else exists a, s_start st = Some a /\ s_last st = Some k /\ start <= a <= k /\
     (forall i, a <= i <= k -> solid i) /\ (a = start \/ ~ solid (a - 1)) /\
     (forall i, start <= i < a -> solid i -> exists sg, In sg (s_result st) /\ sstart sg <= i <= send sg)).

Lemma run_extend k sg : is_run k sg -> send sg < k -> is_run (k + 1) sg.
Proof.
  intros (A & B & C & D & [E|E]) L; [lia|]. split; [auto|]. split; [lia|]. split; [auto|]. split; [auto|now right].
Qed.

Lemma solid_step_inv k st : 0 <= start <= k -> k + 1 < lengthZ points ->
  solid_inv k st -> solid_inv (k + 1) (solid_step points st (k + 1)).
Proof.
  intros Lk Lc (P & R & I). unfold solid_step. rewrite no_stop, orb_false_r, P.
  assert (R1 : forall sg, In sg (s_result st) -> is_run (k + 1) sg /\ send sg < k + 1).
  { intros sg Is. destruct (R sg Is) as [R2 R3]. split; [now apply run_extend|lia]. }
  destruct (skip (pt_at points (k + 1))) eqn:Sk1; destruct (skip (pt_at points k)) eqn:Sk;
    unfold solid_inv; cbn [s_prev s_result s_last s_start]; rewrite Sk1; (split; [reflexivity|]).
  - split; [exact R1|]. destruct I as [I1 I2]. split; [auto|].
    intros i Li Si. apply I2; [|auto]. destruct (Z.eq_dec i (k + 1)) as [->|]; [unfold solid in Si; congruence|lia].
  - destruct I as (a & Ea & El & La & Sa & Ma & Ca). rewrite Ea. cbn [or0].
    rewrite !Z.mod_small by lia. replace (k + 1 - 1) with k by lia.
    assert (Run : is_run (k + 1) (mkSegment a k false None)).
    { unfold is_run. cbn [sstart send]. split; [lia|]. split; [lia|]. split; [auto|]. split; [auto|].
      right. unfold solid. congruence. }
    split.
    + intros sg Is. apply in_app_iff in Is as [Is|[<-|[]]]; [auto|]. split; [exact Run|cbn; lia].
    + split; [reflexivity|]. intros i Li Si.
      destruct (Z.eq_dec i (k + 1)) as [->|]; [unfold solid in Si; congruence|].
      destruct (Z.lt_ge_cases i a) as [X|X].
      * destruct (Ca i) as (sg & Is & Ls); [lia|auto|]. exists sg. split; [apply in_app_iff; now left|auto].
      * eexists. split; [apply in_app_iff; right; now left|]. cbn. lia.
  - split; [exact R1|]. exists (k + 1). split; [auto|]. split; [auto|]. split; [lia|].
    destruct I as [I1 I2]. split; [|split].
    + intros i Li. replace i with (k + 1) by lia. exact Sk1.
    + right. replace (k + 1 - 1) with k by lia. unfold solid. congruence.
    + intros i Li. apply I2. lia.
  - split; [exact R1|]. destruct I as (a & Ea & El & La & Sa & Ma & Ca). exists a. split; [auto|]. split; [auto|].
    split; [lia|]. split; [|split; auto].
    intros i Li. destruct (Z.eq_dec i (k + 1)) as [->|]; [exact Sk1|apply Sa; lia].
Qed.

Lemma solid_fold max lp : 0 <= start -> start <= max -> max < lengthZ points ->
  solid_inv max (fold_left (solid_step points) (range (start + 1) max)
              (mkSState (Some start) (Some start) (pt_at points start) lp [])).
Proof.
  intros L0 L1 L2. replace max with (start + Z.of_nat (Z.to_nat (max - start))) in * by lia.
  induction (Z.to_nat (max - start)) as [|n IH].
  - replace (start + Z.of_nat 0) with start in * by lia. rewrite range_empty by lia. cbn.
    unfold solid_inv. cbn. split; [reflexivity|]. split; [contradiction|]. rewrite start_solid.
    exists start. repeat split; auto; try lia. intros i Li. now replace i with start by lia.
  - replace (start + Z.of_nat (S n)) with (start + Z.of_nat n + 1) in * by lia.
    rewrite range_snoc by lia. rewrite fold_left_app. cbn [fold_left].
    apply solid_step_inv; [lia|lia|]. apply IH; lia.
Qed.

Lemma solid_runs max lp : 0 <= start -> start <= max -> max < lengthZ points ->
  (forall sg, In sg (solidSegments points start max lp) -> is_run max sg) /\
  (forall i, start <= i <= max ->
     (solid i <-> exists sg, In sg (solidSegments points start max lp) /\ sstart sg <= i <= send sg)).
Proof.
  intros L0 L1 L2. pose proof (solid_fold max lp L0 L1 L2) as I. unfold solidSegments.
  set (st := fold_left _ _ _) in *. destruct I as (P & R & I).
  assert (G : forall l, (forall sg, In sg l -> is_run max sg) ->
    (forall i, start <= i <= max -> solid i -> exists sg, In sg l /\ sstart sg <= i <= send sg) ->
    (forall sg, In sg l -> is_run max sg) /\
    (forall i, start <= i <= max -> (solid i <-> exists sg, In sg l /\ sstart sg <= i <= send sg))).
  { intros l H1 H2. split; [auto|]. intros i Li. split; [auto|]. intros (sg & Is & Ls).
    destruct (H1 sg Is) as (_ & _ & C & _). auto. }
  destruct (skip (pt_at points max)).
  - destruct I as [-> I2]. apply G; [intros sg Is; now apply R|exact I2].
  - destruct I as (a & -> & -> & La & Sa & Ma & Ca). cbn [or0]. rewrite !Z.mod_small by lia.
    apply G.
    + intros sg Is. apply in_app_iff in Is as [Is|[<-|[]]]; [now apply R|].
      unfold is_run. cbn. repeat split; auto; lia.
    + intros i Li Si. destruct (Z.lt_ge_cases i a) as [X|X].
      * destruct (Ca i) as (sg & Is & Ls); [lia|auto|]. exists sg. split; [apply in_app_iff; now left|auto].
      * eexists. split; [apply in_app_iff; right; now left|]. cbn. lia.
Qed.

(** On a line that does not wrap around and has no stop points, the solid
    segments are exactly the maximal runs of unskipped points: each segment is
    one, and every unskipped point from the start to the end lies in one. *)
Theorem solidSegments_runs max lp : 0 <= start -> start <= max -> max < lengthZ points ->
  (forall sg, In sg (solidSegments points start max lp) -> is_run max sg) /\
  (forall i, start <= i <= max ->
     (solid i <-> exists sg, In sg (solidSegments points start max lp) /\ sstart sg <= i <= send sg)).
Proof. apply solid_runs. Qed.
End Solid.

(** *** The ends of a line *)

Lemma skip_while_spec p points : forall n start, 0 <= start <= lengthZ points ->
  lengthZ points - start <= Z.of_nat n ->
  let r := skip_while n p points start in
  start <= r <= lengthZ points /\ (forall i, start <= i < r -> p (pt_at points i) = true) /\
  (r < lengthZ points -> p (pt_at points r) = false).
Proof.
  induction n as [|n IH]; intros start L F; cbn [skip_while]; [split; [lia|split; lia]|].
  destruct (Z.ltb_spec start (lengthZ points)); cbn [andb]; [|split; [lia|split; lia]].
  destruct (p (pt_at points start)) eqn:E; [|split; [lia|split; [lia|auto]]].
  destruct (IH (start + 1)) as (R1 & R2 & R3); [lia|lia|]. split; [lia|]. split; [|auto].
  intros i Li. destruct (Z.eq_dec i start) as [->|]; [auto|apply R2; lia].
Qed.
Lemma end_while_spec points start : forall n end_, start <= end_ -> end_ - start <= Z.of_nat n ->
  let r := end_while n points start end_ in
  start <= r <= end_ /\ (forall i, r < i <= end_ -> skip (pt_at points i) = true) /\
  (start < r -> skip (pt_at points r) = false).
Proof.
  induction n as [|n IH]; intros e L F; cbn [end_while]; [split; [lia|split; lia]|].
  destruct (Z.ltb_spec start e); cbn [andb]; [|split; [lia|split; lia]].
  destruct (skip (pt_at points e)) eqn:E; [|split; [lia|split; [lia|auto]]].
  destruct (IH (e - 1)) as (R1 & R2 & R3); [lia|lia|]. split; [lia|]. split; [|auto].
  intros i Li. destruct (Z.eq_dec i e) as [->|]; [auto|apply R2; lia].
Qed.

Lemma open_ends points gaps j : 0 <= j < lengthZ points -> skip (pt_at points j) = false ->
  let '(s, e) := findStartAndEnd points (lengthZ points) false gaps in
  0 <= s <= j /\ j <= e < lengthZ points /\
  skip (pt_at points s) = false /\ skip (pt_at points e) = false /\
  (forall i, 0 <= i < lengthZ points -> i < s \/ e < i -> skip (pt_at points i) = true).
Proof.
  intros Lj Sj. unfold findStartAndEnd. cbn [andb].
  destruct (skip_while_spec skip points (List.length points) 0) as (A1 & A2 & A3); [lia|unfold lengthZ; lia|].
  set (s0 := skip_while _ _ _ _) in *.
  assert (Ls : s0 <= j).
  { apply Z.nlt_ge. intros X. rewrite (A2 j) in Sj by lia. discriminate. }
  rewrite (Z.mod_small s0) by lia. rewrite Z.add_0_r.
  destruct (end_while_spec points s0 (List.length points) (lengthZ points - 1)) as (B1 & B2 & B3); [lia|unfold lengthZ in *; lia|].
  set (e0 := end_while _ _ _ _) in *. rewrite (Z.mod_small e0) by lia.
  assert (Le : j <= e0).
  { apply Z.nlt_ge. intros X. rewrite (B2 j) in Sj by lia. discriminate. }
  assert (Ss : skip (pt_at points s0) = false) by (apply A3; lia).
  repeat split; try lia; auto.
  - destruct (Z.eq_dec e0 s0) as [->|]; [auto|apply B3; lia].
  - intros i Li [X|X]; [apply A2; lia|apply B2; lia].
Qed.

(** C23: the segments of an open line that has some unskipped point, no stops and no
    segment styles, and does not span gaps, are the maximal runs of its unskipped points:
    every segment is one, and every unskipped point of the line lies in one. *)
Theorem computeSegments_open points j : 0 <= j < lengthZ points -> skip (pt_at points j) = false ->
  (forall i, stop (pt_at points i) = false) ->
  exists l, _computeSegments None EmptyString points NoGaps false false = Some l /\
    (forall sg, In sg l -> 0 <= sstart sg <= send sg /\ send sg < lengthZ points /\
       (forall i, sstart sg <= i <= send sg -> skip (pt_at points i) = false) /\
       (sstart sg = 0 \/ skip (pt_at points (sstart sg - 1)) = true) /\
       (send sg = lengthZ points - 1 \/ skip (pt_at points (send sg + 1)) = true)) /\
    forall i, 0 <= i < lengthZ points ->
      (skip (pt_at points i) = false <-> exists sg, In sg l /\ sstart sg <= i <= send sg).
Proof.
  intros Lj Sj Ns. unfold _computeSegments. replace (lengthZ points =? 0) with false by (symmetry; apply Z.eqb_neq; lia).
  pose proof (open_ends points false j Lj Sj) as F.
  cbn [gaps_truthy]. destruct (findStartAndEnd _ _ _ _) as [s e]. destruct F as (F1 & F2 & F3 & _ & F4).
  replace (e <? s) with false by (symmetry; apply Z.ltb_ge; lia). cbn [andb splitByStyles].
  eexists. split; [reflexivity|].
  destruct (solid_runs points s Ns F3 e false) as [R1 R2]; [lia|lia|lia|]. split.
  - intros sg Is. destruct (R1 sg Is) as (A & B & C & D & E). repeat split; try lia; [exact C| |].
    + destruct D as [D|D]; [|right; now apply not_false_is_true].
      destruct (Z.eq_dec s 0); [left; lia|right; apply F4; lia].
    + destruct E as [E|E]; [|right; now apply not_false_is_true].
      destruct (Z.eq_dec e (lengthZ points - 1)); [left; lia|right; apply F4; lia].
  - intros i Li. destruct (Z.lt_ge_cases i s) as [X|X]; [|destruct (Z.lt_ge_cases e i) as [Y|Y]].
    + rewrite F4 by lia. split; [discriminate|]. intros (sg & Is & Ls). destruct (R1 sg Is) as (? & ? & _). lia.
    + rewrite F4 by lia. split; [discriminate|]. intros (sg & Is & Ls). destruct (R1 sg Is) as (? & ? & _). lia.
    + apply R2. lia.
Qed.

Definition demo_line : list pt :=
  [mkPt true false 0%js; mkPt false false 1%js; mkPt false false 2%js; mkPt true false 3%js; mkPt false false 4%js].
Lemma demo_no_stop i : stop (pt_at demo_line i) = false.
Proof.
  unfold pt_at, demo_line. destruct (Z.to_nat _) as [|[|[|[|[|[|n]]]]]]; reflexivity.
Qed.
Lemma computeSegments_open_witness :
  exists l, _computeSegments None EmptyString demo_line NoGaps false false = Some l /\
    exists sg, In sg l /\ sstart sg <= 2 <= send sg.
Proof.
  destruct (computeSegments_open demo_line 1) as (l & C & _ & S).
  - vm_compute. split; [discriminate|reflexivity].
  - reflexivity.
  - exact demo_no_stop.
  - exists l. split; [exact C|]. apply S; [vm_compute; split; [discriminate|reflexivity]|reflexivity].
Defined.
Lemma solidSegments_runs_witness :
  exists sg, In sg (solidSegments demo_line 1 4 false) /\ sstart sg <= 4 <= send sg.
Proof.
  destruct (solidSegments_runs demo_line 1 demo_no_stop eq_refl 4 false) as [_ S].
  - lia.
  - lia.
  - vm_compute. reflexivity.
  - apply (S 4); [lia|reflexivity].
Defined.
End SegmentsFacts.
