(* ===== verification/Curve.v ===== *)
(** The control points of curved lines in webui/public/chart.js: splines,
    monotone interpolation, and capping to the chart area. *)
From Stdlib Require Import ZArith Lia Bool List Ascii String.
From Stdlib Require Import SpecFloat.
From stdpp Require Import base list.
From S2P Require Import Prelude JsNumber JsString JsArray HelpersMath Interaction.
Import ListNotations.
Open Scope Z_scope.

Module Curve.
Import MathH Interaction.
Local Open Scope js_scope.

(** A point of a line with its control points. *)
Record pt := mkPt { skip : bool; px : num; py : num; cp1x : num; cp1y : num; cp2x : num; cp2y : num }.
Definition xy (p : pt) : point := mkPoint (px p) (py p).
Definition set_cp1 (p : pt) (a b : num) : pt := mkPt (skip p) (px p) (py p) a b (cp2x p) (cp2y p).
Definition set_cp2 (p : pt) (a b : num) : pt := mkPt (skip p) (px p) (py p) (cp1x p) (cp1y p) a b.

(** The index axis is [x] (true) or [y]. *)
Definition getValueAxis (indexX : bool) : bool := negb indexX.
Definition on_axis (isX : bool) (p : pt) : num := if isX then px p else py p.
Definition set_cp1_on (indexX : bool) (p : pt) (i v : num) : pt :=
  if indexX then set_cp1 p i v else set_cp1 p v i.
Definition set_cp2_on (indexX : bool) (p : pt) (i v : num) : pt :=
  if indexX then set_cp2 p i v else set_cp2 p v i.

Definition getPoint (points : list pt) (i : nat) : option pt :=
  match points !! i with Some p => if skip p then None else Some p | None => None end.

Section Lib.
Context `{MathLib}.

Definition splineCurve (firstPoint middlePoint afterPoint : pt) (t : num) : point * point :=
  let previous := if skip firstPoint then middlePoint else firstPoint in
  let current := middlePoint in
  let next := if skip afterPoint then middlePoint else afterPoint in
  let d01 := distanceBetweenPoints (xy current) (xy previous) in
  let d12 := distanceBetweenPoints (xy next) (xy current) in
  let s01 := d01 / (d01 + d12) in
  let s12 := d12 / (d01 + d12) in
  let s01 := if Num.is_nan s01 then 0 else s01 in
  let s12 := if Num.is_nan s12 then 0 else s12 in
  let fa := t * s01 in
  let fb := t * s12 in
  (mkPoint (px current - fa * (px next - px previous)) (py current - fa * (py next - py previous)),
   mkPoint (px current + fb * (px next - px previous)) (py current + fb * (py next - py previous))).

(** Arrays of numbers; an unset element of [mK] is undefined, NaN here. *)
Definition nth_num (l : list num) (i : nat) : num := List.nth i l Num.nan.

Definition adjust_step (points : list pt) (deltaK : list num) (mK : list num) (i : nat) : list num :=
  match getPoint points i, getPoint points (S i) with
  | Some _, Some _ =>
      let dk := nth_num deltaK i in
      if almostEquals dk 0 EPSILON then <[i := 0 : num]> (<[S i := 0 : num]> mK)
      else
        let alphaK := nth_num mK i / dk in
        let betaK := nth_num mK (S i) / dk in
        let squaredMagnitude := math_pow alphaK 2 + math_pow betaK 2 in
        if squaredMagnitude <=? 9 then mK
        else
          let tauK := 3 / Num.sqrt squaredMagnitude in
          <[S i := betaK * tauK * dk]> (<[i := alphaK * tauK * dk]> mK)
  | _, _ => mK
  end.
Definition monotoneAdjust (points : list pt) (deltaK mK : list num) : list num :=
  fold_left (adjust_step points deltaK) (seq 0 (List.length points - 1)) mK.

(** The points before and after [i]; a skipped one counts as missing. *)
Definition before_ (points : list pt) (i : nat) : option pt :=
  match i with O => None | S j => getPoint points j end.

Definition compute_point (indexX : bool) (points : list pt) (mK : list num) (i : nat) (p : pt) : pt :=
  if skip p then p else
  let iPixel := on_axis indexX p in
  let vPixel := on_axis (getValueAxis indexX) p in
  let p := match before_ points i with
           | Some q => let delta := (iPixel - on_axis indexX q) / 3 in
                       set_cp1_on indexX p (iPixel - delta) (vPixel - delta * nth_num mK i)
           | None => p end in
  match getPoint points (S i) with
  | Some q => let delta := (on_axis indexX q - iPixel) / 3 in
              set_cp2_on indexX p (iPixel + delta) (vPixel + delta * nth_num mK i)
  | None => p
  end.
Definition monotoneCompute (points : list pt) (mK : list num) (indexX : bool) : list pt :=
  imap (compute_point indexX points mK) points.

(** The slopes [deltaK] (zero where they are not set) and [mK]. *)
Definition delta_at (indexX : bool) (points : list pt) (i : nat) : num :=
  match getPoint points i, getPoint points (S i) with
  | Some p, Some q =>
      let slopeDelta := on_axis indexX q - on_axis indexX p in
      if negb (slopeDelta =? 0)
      then (on_axis (getValueAxis indexX) q - on_axis (getValueAxis indexX) p) / slopeDelta else 0
  | _, _ => 0
  end.
Definition slope_at (indexX : bool) (points : list pt) (i : nat) : num :=
  match getPoint points i with
  | None => Num.nan
  | Some _ =>
      match before_ points i, getPoint points (S i) with
      | None, _ => delta_at indexX points i
      | Some _, None => delta_at indexX points (i - 1)
      | Some _, Some _ =>
          let d0 := delta_at indexX points (i - 1) in
          let d1 := delta_at indexX points i in
          if negb (Num.sign d0 =? Num.sign d1) then 0 else (d0 + d1) / 2
      end
  end.
Definition splineCurveMonotone (points : list pt) (indexX : bool) : list pt :=
  let is_ := seq 0 (List.length points) in
  let deltaK := List.map (delta_at indexX points) is_ in
  let mK := List.map (slope_at indexX points) is_ in
  monotoneCompute points (monotoneAdjust points deltaK mK) indexX.

Definition capControlPoint (pt min max : num) : num := Num.max (Num.min pt max) min.
Definition in_area (a : rect) (p : pt) : bool := _isPointInArea (xy p) (Some a) Num.nan.
Definition cap_point (points : list pt) (a : rect) (i : nat) (p : pt) : pt :=
  let prev := match i with O => false | S j => match points !! j with Some q => in_area a q | None => false end end in
  let next := match points !! (S i) with Some q => in_area a q | None => false end in
  if negb (in_area a p) then p else
  let p := if prev then set_cp1 p (capControlPoint (cp1x p) (left a) (right a)) (capControlPoint (cp1y p) (top a) (bottom a)) else p in
  if next then set_cp2 p (capControlPoint (cp2x p) (left a) (right a)) (capControlPoint (cp2y p) (top a) (bottom a)) else p.
Definition capBezierPoints (points : list pt) (a : rect) : list pt := imap (cap_point points a) points.

(** The default branch of [_updateBezierControlPoints]; a point only reads the
    coordinates of its neighbours, which no step changes. *)
Definition spline_point (points : list pt) (loop : bool) (tension : num) (i : nat) (p : pt) : pt :=
  let ilen := List.length points in
  let prev := match i with
              | O => List.nth (if loop then ilen - 1 else 0)%nat points p
              | S j => List.nth j points p end in
  let after := List.nth (Nat.modulo (Nat.min (i + 1) (ilen - (if loop then 0 else 1))) ilen) points p in
  let '(c1, c2) := splineCurve prev p after tension in
  mkPt (skip p) (px p) (py p) (x c1) (y c1) (x c2) (y c2).

Record options := mkOptions { spanGaps : bool; monotone : bool; tension : num; capBezier : bool }.
(** The control points of the points that are not filtered out. *)
Definition _updateBezierControlPoints (points : list pt) (o : options) (area : rect) (loop indexX : bool) : list pt :=
  let points := if spanGaps o then List.filter (fun p => negb (skip p)) points else points in
  let points := if monotone o then splineCurveMonotone points indexX
                else imap (spline_point points loop (tension o)) points in
  if capBezier o then capBezierPoints points area else points.

End Lib.
End Curve.

(** ** Facts *)
Module CurveFacts.
Import Num NumFacts MathH Interaction Curve.

Section Facts.
Context `{MathLib}.

(** The part of a point that drawing its marker reads. *)
Definition place (p : pt) : bool * num * num := (skip p, px p, py p).

Lemma imap_place (f : nat -> pt -> pt) points : (forall i p, place (f i p) = place p) ->
  List.map place (imap f points) = List.map place points.
Proof.
  intros H1. revert f H1. induction points as [|p l IH]; intros f F; cbn; [reflexivity|].
  rewrite F. f_equal. apply (IH (fun i => f (S i))). intros. apply F.
Qed.

Lemma cap_place points a i p : place (cap_point points a i p) = place p.
Proof. unfold cap_point. destruct (negb _); [reflexivity|]. 
  generalize (match i with O => false | S j => match points !! j with Some r => in_area a r | None => false end end).
  generalize (match points !! S i with Some r => in_area a r | None => false end). now intros [] []. Qed.
Lemma spline_place points loop t i p : place (spline_point points loop t i p) = place p.
Proof. unfold spline_point. now destruct (splineCurve _ _ _ _). Qed.
Lemma compute_place indexX points mK i p : place (compute_point indexX points mK i p) = place p.
Proof.
  unfold compute_point. destruct (skip p) eqn:K; [reflexivity|].
  destruct (before_ _ _), (getPoint _ _); unfold set_cp1_on, set_cp2_on; now destruct indexX.
Qed.

(** Computing the control points never moves, adds or reorders the points
    themselves: they are those of the line (without the gaps when they are spanned). *)
Theorem control_points_keep_line points o area loop indexX :
  List.map place (_updateBezierControlPoints points o area loop indexX) =
  List.map place (if spanGaps o then List.filter (fun p => negb (skip p)) points else points).
Proof.
  unfold _updateBezierControlPoints. set (ps := if spanGaps o then _ else points). clearbody ps.
  assert (M : List.map place (if monotone o then splineCurveMonotone ps indexX else imap (spline_point ps loop (tension o)) ps)
            = List.map place ps).
  { destruct (monotone o).
    - unfold splineCurveMonotone, monotoneCompute. apply imap_place. intros. apply compute_place.
    - apply imap_place. intros. apply spline_place. }
  destruct (capBezier o); [|exact M]. rewrite <- M. unfold capBezierPoints. apply imap_place. intros. apply cap_place.
Qed.

Lemma cap_between v lo hi : is_nan v = false -> le lo hi = true ->
  le lo (capControlPoint v lo hi) = true /\ le (capControlPoint v lo hi) hi = true.
Proof.
  intros N L. apply le_notnan in L as L'. destruct L' as [Nl Nh]. unfold capControlPoint.
  assert (Nm : is_nan (min v hi) = false) by (rewrite is_nan_min, N, Nh; reflexivity).
  split; [now apply le_max_r|]. apply max_lub; [now apply min_le_r|exact L].
Qed.

(** With capping, a point in the area whose predecessor is in the area too
    has its first control point inside the area, and likewise its second one
    when the successor is in it; so the curve between them stays inside. *)
Theorem capBezierPoints_inside points a i p q :
  le (left a) (right a) = true -> le (top a) (bottom a) = true ->
  (forall r, In r points -> is_nan (cp1x r) = false /\ is_nan (cp1y r) = false /\
                            is_nan (cp2x r) = false /\ is_nan (cp2y r) = false) ->
  points !! i = Some p -> points !! (S i) = Some q -> in_area a p = true -> in_area a q = true ->
  exists p' q', capBezierPoints points a !! i = Some p' /\ capBezierPoints points a !! (S i) = Some q' /\
    le (left a) (cp2x p') = true /\ le (cp2x p') (right a) = true /\
    le (top a) (cp2y p') = true /\ le (cp2y p') (bottom a) = true /\
    le (left a) (cp1x q') = true /\ le (cp1x q') (right a) = true /\
    le (top a) (cp1y q') = true /\ le (cp1y q') (bottom a) = true.
Proof.
  intros LR TB N P Q Ap Aq. unfold capBezierPoints. rewrite !list_lookup_imap, P, Q. cbn [fmap option_fmap option_map].
  eexists _, _. split; [reflexivity|]. split; [reflexivity|].
  destruct (N p) as (Np1 & Np2 & Np3 & Np4); [apply list_elem_of_In; now apply list_elem_of_lookup_2 with i|].
  destruct (N q) as (Nq1 & Nq2 & Nq3 & Nq4); [apply list_elem_of_In; now apply list_elem_of_lookup_2 with (S i)|].
  unfold cap_point. rewrite Ap, Aq, P, Q, Ap, Aq. cbn [negb].
  destruct (cap_between (cp2x p) (left a) (right a)); auto. destruct (cap_between (cp2y p) (top a) (bottom a)); auto.
  destruct (cap_between (cp1x q) (left a) (right a)); auto. destruct (cap_between (cp1y q) (top a) (bottom a)); auto.
  generalize (match i with O => false | S j => match points !! j with Some r => in_area a r | None => false end end).
  generalize (match points !! S (S i) with Some r => in_area a r | None => false end).
  intros [] []; cbn; repeat split; auto.
Qed.
End Facts.

Definition demo_area : Interaction.rect := Interaction.mkRect 0%js 0%js 100%js 100%js.
Definition demo_curve : list pt :=
  [mkPt false 10%js 10%js 5%js 5%js 40%js (-20)%js; mkPt false 60%js 20%js 30%js 300%js 90%js 90%js].
Lemma capBezierPoints_inside_witness :
  exists p' q', capBezierPoints demo_curve demo_area !! 0%nat = Some p' /\ capBezierPoints demo_curve demo_area !! 1%nat = Some q' /\
    le 0%js (cp2y p') = true /\ le (cp1y q') 100%js = true.
Proof.
  destruct (capBezierPoints_inside demo_curve demo_area 0 (mkPt false 10%js 10%js 5%js 5%js 40%js (-20)%js)
              (mkPt false 60%js 20%js 30%js 300%js 90%js 90%js)) as (p' & q' & P & Q & _ & _ & A & _ & _ & _ & _ & B).
  - reflexivity.
  - reflexivity.
  - intros r I. repeat (destruct I as [<-|I]; [repeat split; reflexivity|]). contradiction.
  - reflexivity.
  - reflexivity.
  - vm_compute. reflexivity.
  - vm_compute. reflexivity.
  - exists p', q'. auto.
Defined.
End CurveFacts.
