(* ===== verification/LineElement.v ===== *)
(** The [LineElement] of webui/public/chart.js: the path of a segment of points, its fast
    variant that draws one stroke per pixel column, and the element with its cached
    segments, control points and path.

    Proved: the fast path is the plain path with every run of points in one pixel column
    replaced by its first point and its extent; a line's segments are always those of its
    points. *)
From Stdlib Require Import ZArith Lia Bool List Ascii String.
From Stdlib Require Import SpecFloat.
From stdpp Require Import base list.
From S2P Require Import Prelude JsNumber JsString JsArray JsValue HelpersMath Interaction Easing Canvas Segments Curve.
Import ListNotations.
Open Scope Z_scope.

Module LineElement.
Import MathH Canvas.
Local Open Scope js_scope.

(** A point of a line; those of a radar also have an angle. *)
Record lpoint := mkLpoint { lskip : bool; lstop : bool; langle : num; pos : line_point }.
Definition px_of (p : lpoint) : num := px (pos p).
Definition py_of (p : lpoint) : num := py (pos p).

(** The options a line's path depends on.  [stepped] is a mode or None; an empty dash
    pattern has length 0. *)
Record options := mkOptions {
  stepped : option string; tension : num; monotone : bool; borderDash : nat; capBezierPoints : bool;
  spanGaps : Segments.gaps; has_segment : bool; borderWidth : num
}.
Definition curved (o : options) : bool := negb (falsy (tension o)) || monotone o.
Definition is_stepped (o : options) : bool := match stepped o with Some _ => true | None => false end.

(** ** Paths of segments *)

(** [getLineMethod]: how the line goes from a point to the next. *)
Definition line_method (o : options) (prev : option lpoint) (target : lpoint) (reverse : bool) : list cmd :=
  match stepped o with
  | Some mode => _steppedLineTo (option_map pos prev) (pos target) reverse mode
  | None =>
      if curved o then _bezierCurveTo (option_map pos prev) (pos target) reverse else lineTo (pos target)
  end.

(** The part of a line that is asked for: its first and last point, None where the
    default applies. *)
Record path_params := mkParams { pstart : option Z; pend : option Z; pmove : bool; preverse : bool }.
Record path_vars := mkVars { count : Z; vstart : Z; vloop : bool; ilen : Z }.
Definition pathVars (points : list lpoint) (segment : Segments.segment) (params : path_params) : path_vars :=
  let count := lengthZ points in
  let paramsStart := match pstart params with Some s => s | None => 0%Z end in
  let paramsEnd := match pend params with Some e => e | None => (count - 1)%Z end in
  let segmentStart := Segments.sstart segment in
  let segmentEnd := Segments.send segment in
  let start := Z.max paramsStart segmentStart in
  let end_ := Z.min paramsEnd segmentEnd in
  let outside := (((paramsStart <? segmentStart) && (paramsEnd <? segmentStart)) ||
                  ((segmentEnd <? paramsStart) && (segmentEnd <? paramsEnd)))%Z in
  mkVars count start (Segments.loop segment)
    (if (end_ <? start)%Z && negb outside then count + end_ - start else end_ - start)%Z.
(** The points visited, in order; None is the TypeError of a missing one. *)
Definition point_index (v : path_vars) (reverse : bool) (i : Z) : Z :=
  Z.rem (vstart v + (if reverse then ilen v - i else i))%Z (count v).
Fixpoint visited (points : list lpoint) (v : path_vars) (reverse : bool) (i : Z) (n : nat) : option (list lpoint) :=
  match n with
  | O => Some []
  | S n' =>
      match nthZ points (point_index v reverse i), visited points v reverse (i + 1)%Z n' with
      | Some p, Some l => Some (p :: l)
      | _, _ => None
      end
  end.
Definition visits (v : path_vars) : nat := Z.to_nat (ilen v + 1).

(** The loop of [pathSegment]: the previous point drawn, and whether a move is due. *)
Fixpoint path_loop (o : options) (reverse : bool) (ps : list lpoint) (prev : option lpoint) (move : bool)
    : list cmd * option lpoint :=
  match ps with
  | [] => ([], prev)
  | p :: ps' =>
      if lskip p then path_loop o reverse ps' prev move
      else
        let here := if move then [MoveTo (px_of p) (py_of p)] else line_method o prev p reverse in
        let '(rest, last) := path_loop o reverse ps' (Some p) false in
        ((here ++ rest)%list, last)
  end.
Definition pathSegment (points : list lpoint) (o : options) (segment : Segments.segment) (params : path_params)
    : option (list cmd * bool) :=
  let v := pathVars points segment params in
  match visited points v (preverse params) 0 (visits v) with
  | None => None
  | Some ps =>
      let '(cmds, prev) := path_loop o (preverse params) ps None (pmove params) in
      if vloop v then
        match nthZ points (Z.rem (vstart v + (if preverse params then ilen v else 0))%Z (count v)) with
        | Some p => Some ((cmds ++ line_method o prev p (preverse params))%list, true)
        | None => None
        end
      else Some (cmds, false)
  end.

(** The state of [fastPathSegment]; [minY] and [maxY] are undefined at first. *)
Record fast := mkFast { prevX : option Z; countX : num; avgX : num; minmax : option (num * num); lastY : num }.
Definition drawX (s : fast) : list cmd :=
  match minmax s with
  | Some (lo, hi) =>
      if negb (Num.eq lo hi) then [LineTo (avgX s) hi; LineTo (avgX s) lo; LineTo (avgX s) (lastY s)] else []
  | None => []
  end.
Definition fast_step (s : fast) (p : lpoint) : fast * list cmd :=
  let x := px_of p in
  let y := py_of p in
  let truncX := Num.to_int32 x in
  match prevX s, minmax s with
  | Some q, Some (lo, hi) =>
      if (truncX =? q)%Z then
        (mkFast (prevX s) (countX s + 1) ((countX s * avgX s + x) / (countX s + 1))
           (Some (if y <? lo then (y, hi) else if hi <? y then (lo, y) else (lo, hi))) y, [])
      else (mkFast (Some truncX) 0 (avgX s) (Some (y, y)) y, (drawX s ++ [LineTo x y])%list)
  | _, _ => (mkFast (Some truncX) 0 (avgX s) (Some (y, y)) y, (drawX s ++ [LineTo x y])%list)
  end.
Fixpoint fast_loop (s : fast) (ps : list lpoint) : list cmd :=
  match ps with
  | [] => drawX s
  | p :: ps' =>
      if lskip p then fast_loop s ps'
      else let '(s', cmds) := fast_step s p in (cmds ++ fast_loop s' ps')%list
  end.
Definition fast_initial : fast := mkFast None 0 0 None Num.nan.
Definition fastPathSegment (points : list lpoint) (segment : Segments.segment) (params : path_params) : option (list cmd) :=
  let v := pathVars points segment params in
  match visited points v (preverse params) 0 (visits v) with
  | None => None
  | Some ps =>
      let body := fast_loop fast_initial ps in
      if pmove params then
        match nthZ points (point_index v (preverse params) 0) with
        | Some p => Some (MoveTo (px_of p) (py_of p) :: body)
        | None => None
        end
      else Some body
  end.

(** ** The element *)
Record line := mkLine {
  _points : list lpoint; opts : options; _loop : bool; _fullLoop : bool; _decimated : bool; animated : bool;
  _segments : option (list Segments.segment); _path : option (list cmd); _pointsUpdated : bool
}.
Definition use_fast_path (l : line) : bool :=
  negb (_decimated l) && negb (_loop l) && negb (curved (opts l)) && negb (is_stepped (opts l)) &&
  Nat.eqb (borderDash (opts l)) 0.
(** [_getSegmentMethod] applied; the fast path returns undefined, which is no loop. *)
Definition segment_path (l : line) (segment : Segments.segment) (params : path_params) : option (list cmd * bool) :=
  if use_fast_path l then option_map (fun c => (c, false)) (fastPathSegment (_points l) segment params)
  else pathSegment (_points l) (opts l) segment params.

(** [_getInterpolationMethod] applied. *)
Definition cpoint_of (p : lpoint) : Easing.cpoint :=
  Easing.mkCpoint (px (pos p)) (py (pos p)) (cp1x (pos p)) (cp1y (pos p)) (cp2x (pos p)) (cp2y (pos p)).
Definition xy_of (p : lpoint) : point := mkPoint (px_of p) (py_of p).
Definition interpolation (o : options) (p1 p2 : lpoint) (t : num) : point :=
  match stepped o with
  | Some mode => Easing._steppedInterpolation (xy_of p1) (xy_of p2) t mode
  | None => if curved o then Easing._bezierInterpolation (cpoint_of p1) (cpoint_of p2) t
            else Easing._pointInLine (xy_of p1) (xy_of p2) t
  end.

Section Line.
Context `{MathLib}.
(** The style the segment options give a stretch, as text, and the one of the line. *)
Context (style_of : option (Z -> Z -> string)) (baseStyle : string).

Definition value_of (property : string) (p : lpoint) : num :=
  if String.eqb property "x" then px_of p else if String.eqb property "angle" then langle p else py_of p.
Definition segment_point (property : string) (p : lpoint) : Segments.pt :=
  Segments.mkPt (lskip p) (lstop p) (value_of property p).
Definition compute_segments (l : line) : option (list Segments.segment) :=
  Segments._computeSegments style_of baseStyle (List.map (segment_point "x") (_points l)) (spanGaps (opts l)) (_loop l) (_fullLoop l).

Definition set_points (points : list lpoint) (l : line) : line :=
  mkLine points (opts l) (_loop l) (_fullLoop l) (_decimated l) (animated l) None None false.
(** The getter of [segments] keeps what it computed. *)
Definition segments (l : line) : option (list Segments.segment * line) :=
  match _segments l with
  | Some s => Some (s, l)
  | None =>
      match compute_segments l with
      | Some s => Some (s, mkLine (_points l) (opts l) (_loop l) (_fullLoop l) (_decimated l) (animated l) (Some s) (_path l) (_pointsUpdated l))
      | None => None
      end
  end.

(** The points whose control points were computed go back to their places. *)
Definition curve_point (p : lpoint) : Curve.pt :=
  Curve.mkPt (lskip p) (px (pos p)) (py (pos p)) (cp1x (pos p)) (cp1y (pos p)) (cp2x (pos p)) (cp2y (pos p)).
Definition with_control (p : lpoint) (c : Curve.pt) : lpoint :=
  mkLpoint (lskip p) (lstop p) (langle p)
    (mkLinePoint (px (pos p)) (py (pos p)) (Curve.cp1x c) (Curve.cp1y c) (Curve.cp2x c) (Curve.cp2y c)).
Fixpoint write_back (ps : list lpoint) (cs : list Curve.pt) (only_solid : bool) : list lpoint :=
  match ps with
  | [] => []
  | p :: ps' =>
      if only_solid && lskip p then p :: write_back ps' cs only_solid
      else match cs with
           | c :: cs' => with_control p c :: write_back ps' cs' only_solid
           | [] => p :: write_back ps' [] only_solid
           end
  end.
Definition updateControlPoints (l : line) (chartArea : Interaction.rect) (indexX : bool) : line :=
  let o := opts l in
  if curved o && negb (is_stepped o) && negb (_pointsUpdated l) then
    let gaps := Segments.gaps_truthy (spanGaps o) in
    let loop := if gaps then _loop l else _fullLoop l in
    let cs := Curve._updateBezierControlPoints (List.map curve_point (_points l))
                (Curve.mkOptions gaps (monotone o) (tension o) (capBezierPoints o)) chartArea loop indexX in
    mkLine (write_back (_points l) cs gaps) o (_loop l) (_fullLoop l) (_decimated l) (animated l) (_segments l) (_path l) true
  else l.

Definition first (l : line) : option (option lpoint) :=
  match segments l with
  | Some (s :: _, l) => Some (nthZ (_points l) (Segments.sstart s))
  | Some ([], _) => Some None
  | None => None
  end.
Definition last (l : line) : option (option lpoint) :=
  match segments l with
  | Some (ss, l) => Some (match List.rev ss with s :: _ => nthZ (_points l) (Segments.send s) | [] => None end)
  | None => None
  end.
(** The points where the line has a value of [property]: [x], [y] or [angle]. *)
Definition set_property (property : string) (v : num) (p : point) : point :=
  if String.eqb property "x" then mkPoint v (y p) else if String.eqb property "angle" then p else mkPoint (x p) v.
Definition interpolate (l : line) (value : num) (property : string) : option (list point) :=
  match segments l with
  | None => None
  | Some (ss, l) =>
      let bs := Segments._boundSegments ss (List.map (segment_point property) (_points l))
                  (Some (Segments.mkBounds property value value)) in
      Some (omap (fun s =>
        match nthZ (_points l) (Segments.sstart s), nthZ (_points l) (Segments.send s) with
        | Some p1, Some p2 =>
            if (Segments.sstart s =? Segments.send s)%Z then Some (xy_of p1)
            else
              let t := Num.abs ((value - value_of property p1) / (value_of property p2 - value_of property p1)) in
              Some (set_property property value (interpolation (opts l) p1 p2 t))
        | _, _ => None
        end) bs)
  end.

(** [path]: the commands, and whether the whole line is a loop. *)
Fixpoint path_segments (l : line) (ss : list Segments.segment) (params : path_params) (loop : bool) : option (list cmd * bool) :=
  match ss with
  | [] => Some ([], loop)
  | s :: ss' =>
      match segment_path l s params with
      | Some (c, b) => option_map (fun r => ((c ++ fst r)%list, snd r)) (path_segments l ss' params (loop && b))
      | None => None
      end
  end.
Definition range_of (l : line) (start count : Z) : path_params :=
  mkParams (Some start) (Some (start + count - 1)%Z) true false.
Definition path (l : line) (start count : Z) : option (list cmd * bool * line) :=
  match segments l with
  | None => None
  | Some (ss, l) =>
      let count := if (count =? 0)%Z then (lengthZ (_points l) - start)%Z else count in
      option_map (fun r => (fst r, snd r, l)) (path_segments l ss (range_of l start count) (_loop l))
  end.

(** The commands that set the style of a line or of one of its segments. *)
Context (set_style : option string -> list cmd).
Fixpoint stroke_direct (l : line) (ss : list Segments.segment) (params : path_params) : option (list cmd) :=
  match ss with
  | [] => Some []
  | s :: ss' =>
      match segment_path l s params, stroke_direct l ss' params with
      | Some (c, b), Some rest =>
          Some (set_style (Segments.style s) ++ BeginPath :: c ++ (if b then [ClosePath] else []) ++ Stroke :: rest)%list
      | _, _ => None
      end
  end.
(** With [Path2D] the path is made once, until the line is animated or gets points. *)
Definition strokePathWithCache (l : line) (start count : Z) : option (list cmd * line) :=
  match _path l with
  | Some p => Some ((set_style None ++ p ++ [Stroke])%list, l)
  | None =>
      match path l start count with
      | Some (c, closed, l) =>
          let p := (BeginPath :: c ++ (if closed then [ClosePath] else []))%list in
          Some ((set_style None ++ p ++ [Stroke])%list,
                mkLine (_points l) (opts l) (_loop l) (_fullLoop l) (_decimated l) (animated l) (_segments l) (Some p) (_pointsUpdated l))
      | None => None
      end
  end.
Definition strokePathDirect (l : line) (start count : Z) : option (list cmd * line) :=
  match segments l with
  | Some (ss, l) => option_map (fun c => (c, l)) (stroke_direct l ss (range_of l start count))
  | None => None
  end.
Definition draw (usePath2D : bool) (l : line) (start count : Z) : option (list cmd * line) :=
  let stroked :=
    if negb (Nat.eqb (List.length (_points l)) 0) && negb (falsy (borderWidth (opts l))) then
      option_map (fun r => ((Save :: fst r ++ [Restore])%list, snd r))
        (if usePath2D && negb (has_segment (opts l)) then strokePathWithCache l start count
         else strokePathDirect l start count)
    else Some ([], l) in
  option_map (fun r =>
    let l := snd r in
    (fst r, if animated l
            then mkLine (_points l) (opts l) (_loop l) (_fullLoop l) (_decimated l) (animated l) (_segments l) None false
            else l)) stroked.
End Line.
End LineElement.

(** ** Facts *)
Module LineElementFacts.
Import MathH Canvas CanvasFacts LineElement.
Local Open Scope js_scope.

(** *** The fast path by pixel columns *)

(** A column: its first point and the others. *)
Definition column := (lpoint * list lpoint)%type.
Definition col (p : lpoint) : Z := Num.to_int32 (px_of p).
Fixpoint group (p : lpoint) (acc ps : list lpoint) : list column :=
  match ps with
  | [] => [(p, acc)]
  | r :: ps' => if (col r =? col p)%Z then group p (acc ++ [r]) ps' else (p, acc) :: group r [] ps'
  end.
Definition columns (ps : list lpoint) : list column :=
  match ps with [] => [] | p :: ps' => group p [] ps' end.
Definition points_of (c : column) : list lpoint := fst c :: snd c.
Definition extent (lh : num * num) (p : lpoint) : num * num :=
  let '(lo, hi) := lh in
  if py_of p <? lo then (py_of p, hi) else if hi <? py_of p then (lo, py_of p) else (lo, hi).
Definition extent_of (c : column) : num * num := fold_left extent (snd c) (py_of (fst c), py_of (fst c)).
Definition last_y (c : column) : num := py_of (List.last (snd c) (fst c)).
(** A column is its first point and, when it has an extent, a stroke at [a] from its
    highest value over its lowest one to the last. *)
Definition summary (c : column) (a : num) : list cmd :=
  LineTo (px_of (fst c)) (py_of (fst c)) ::
  (let '(lo, hi) := extent_of c in
   if negb (Num.eq lo hi) then [LineTo a hi; LineTo a lo; LineTo a (last_y c)] else []).

Lemma fast_group ps : forall p acc s, List.Forall (fun q => lskip q = false) ps ->
  prevX s = Some (col p) -> minmax s = Some (extent_of (p, acc)) -> lastY s = last_y (p, acc) ->
  exists axs, List.length axs = List.length (group p acc ps) /\
    LineTo (px_of p) (py_of p) :: fast_loop s ps = List.concat (List.map (fun ca => summary (fst ca) (snd ca)) (combine (group p acc ps) axs)).
Proof.
  induction ps as [|r ps IH]; intros p acc s F Px Mm Ly.
  - exists [avgX s]. split; [reflexivity|]. cbn [group combine List.map List.concat fast_loop fst snd].
    unfold drawX, summary. cbn [fst]. rewrite Mm, Ly. destruct (extent_of (p, acc)) as [lo hi].
    now rewrite app_nil_r.
  - inversion F as [|? ? Sr Fr]; subst. cbn [fast_loop group]. rewrite Sr. unfold fast_step. rewrite Px, Mm.
    change (Num.to_int32 (px_of r)) with (col r).
    destruct (extent_of (p, acc)) as [lo hi] eqn:Ex. destruct (Z.eqb_spec (col r) (col p)) as [E|E].
    + cbn [app]. apply IH; auto.
      * cbn [minmax]. unfold extent_of in *. cbn [fst snd] in *. rewrite fold_left_app, Ex. reflexivity.
      * cbn [lastY]. unfold last_y. cbn [fst snd]. now rewrite List.last_last.
    + edestruct (IH r [] (mkFast (Some (col r)) 0 (avgX s) (Some (py_of r, py_of r)) (py_of r))) as (axs & L & H); auto.
      exists (avgX s :: axs). split; [cbn; now rewrite L|]. cbn [combine List.map List.concat fst snd].
      rewrite <- H. rewrite <- app_assoc. cbn [app]. unfold drawX, summary. rewrite Mm, Ex, Ly. reflexivity.
Qed.
Lemma fast_loop_solid s ps : fast_loop s ps = fast_loop s (List.filter (fun p => negb (lskip p)) ps).
Proof.
  revert s. induction ps as [|p ps IH]; intros s; [reflexivity|]. cbn [fast_loop List.filter].
  destruct (lskip p) eqn:S; cbn [negb]; [apply IH|]. cbn [fast_loop]. rewrite S. destruct (fast_step s p). now rewrite IH.
Qed.
Lemma group_points ps : forall p acc, List.concat (List.map points_of (group p acc ps)) = (p :: acc ++ ps)%list.
Proof.
  induction ps as [|r ps IH]; intros p acc; cbn [group].
  - cbn. now rewrite !app_nil_r.
  - destruct (col r =? col p)%Z; [rewrite IH, <- app_assoc; reflexivity|]. cbn [List.map List.concat]. now rewrite IH.
Qed.
Lemma group_same ps : forall p acc, List.Forall (fun q => col q = col p) acc ->
  List.Forall (fun c => List.Forall (fun q => col q = col (fst c)) (points_of c)) (group p acc ps).
Proof.
  induction ps as [|r ps IH]; intros p acc A; cbn [group].
  - constructor; [|constructor]. constructor; [reflexivity|exact A].
  - destruct (Z.eqb_spec (col r) (col p)) as [E|E].
    + apply IH. apply List.Forall_app. split; [exact A|]. now repeat constructor.
    + constructor; [now constructor|]. apply IH. constructor.
Qed.
Lemma extent_bounds qs : forall lo hi, Num.le lo hi = true ->
  List.Forall (fun q => Num.is_nan (py_of q) = false) qs ->
  let '(lo', hi') := fold_left extent qs (lo, hi) in
  Num.le lo' lo = true /\ Num.le hi hi' = true /\
  List.Forall (fun q => Num.le lo' (py_of q) = true /\ Num.le (py_of q) hi' = true) qs /\
  (lo' = lo \/ In lo' (List.map py_of qs)) /\ (hi' = hi \/ In hi' (List.map py_of qs)).
Proof.
  induction qs as [|q qs IH]; intros lo hi L F.
  - cbn. destruct (NumFacts.le_notnan _ _ L). split_and!; auto using NumFacts.le_refl.
  - inversion F as [|? ? Nq Fq]; subst. destruct (NumFacts.le_notnan _ _ L) as [Nl Nh]. cbn [fold_left].
    assert (E : exists l1 h1, extent (lo, hi) q = (l1, h1) /\ Num.le l1 h1 = true /\ Num.le l1 lo = true /\ Num.le hi h1 = true /\
      Num.le l1 (py_of q) = true /\ Num.le (py_of q) h1 = true /\ (l1 = lo \/ l1 = py_of q) /\ (h1 = hi \/ h1 = py_of q)).
    { unfold extent. destruct (py_of q <? lo) eqn:A; [|destruct (hi <? py_of q) eqn:B].
      - apply NumFacts.lt_le in A. exists (py_of q), hi. pose proof (NumFacts.le_trans _ _ _ A L).
        split_and!; auto using NumFacts.le_refl.
      - apply NumFacts.lt_le in B. exists lo, (py_of q). pose proof (NumFacts.le_trans _ _ _ L B).
        split_and!; auto using NumFacts.le_refl.
      - exists lo, hi. assert (Num.le lo (py_of q) = true) by (now rewrite NumFacts.le_not_lt, A).
        assert (Num.le (py_of q) hi = true) by (now rewrite NumFacts.le_not_lt, B). split_and!; auto using NumFacts.le_refl. }
    destruct E as (l1 & h1 & -> & L1 & La & Ha & Lq & Hq & Cl & Ch). specialize (IH l1 h1 L1 Fq).
    destruct (fold_left extent qs (l1, h1)) as [lo' hi']. destruct IH as (I1 & I2 & I3 & I4 & I5).
    split; [eauto using NumFacts.le_trans|]. split; [eauto using NumFacts.le_trans|]. split; [|split].
    + constructor; [split; eauto using NumFacts.le_trans|exact I3].
    + cbn. destruct I4 as [->|]; [|auto]. destruct Cl as [->| ->]; auto.
    + cbn. destruct I5 as [->|]; [|auto]. destruct Ch as [->| ->]; auto.
Qed.

(** C15: the fast path of a line draws, of the points that are not skipped, each run in one
    pixel column as its first point followed by a stroke over its extent, in the order of
    the runs; the runs are the points in their order, a run keeps to its column, and the
    extent reaches exactly from its lowest point to its highest: no peak is lost. *)
Theorem fast_path_columns ps :
  let solid := List.filter (fun p => negb (lskip p)) ps in
  List.Forall (fun p => Num.is_nan (py_of p) = false) solid ->
  (exists axs, List.length axs = List.length (columns solid) /\
     fast_loop fast_initial ps = List.concat (List.map (fun ca => summary (fst ca) (snd ca)) (combine (columns solid) axs))) /\
  List.concat (List.map points_of (columns solid)) = solid /\
  List.Forall (fun c =>
    let '(lo, hi) := extent_of c in
    List.Forall (fun q => col q = col (fst c) /\ Num.le lo (py_of q) = true /\ Num.le (py_of q) hi = true) (points_of c) /\
    In lo (List.map py_of (points_of c)) /\ In hi (List.map py_of (points_of c))) (columns solid).
Proof.
  intros solid N. rewrite fast_loop_solid. fold solid.
  assert (K : List.Forall (fun q => lskip q = false) solid).
  { apply List.Forall_forall. intros q I. apply List.filter_In in I as [_ I]. now apply negb_true_iff in I. }
  destruct solid as [|p ps']; [split; [exists []; now split|split; [reflexivity|constructor]]|].
  inversion K as [|? ? Kp Kps]; subst. cbn [columns].
  pose proof (group_points ps' p []) as G. split; [|split; [exact G|]].
  - destruct (fast_group ps' p [] (mkFast (Some (col p)) 0 0 (Some (py_of p, py_of p)) (py_of p))) as (axs & L & H); auto.
    exists axs. split; [exact L|]. rewrite <- H. cbn [fast_loop]. rewrite Kp. reflexivity.
  - pose proof (group_same ps' p [] (List.Forall_nil _)) as S. rewrite List.Forall_forall in S. apply List.Forall_forall.
    intros c I. specialize (S c I).
    assert (Nc : List.Forall (fun q => Num.is_nan (py_of q) = false) (points_of c)).
    { apply List.Forall_forall. intros q Iq. rewrite List.Forall_forall in N. apply N. cbn [app] in G. rewrite <- G.
      apply in_concat. exists (points_of c). split; [now apply in_map|exact Iq]. }
    inversion Nc as [|? ? Nf Nr]; subst.
    pose proof (extent_bounds (snd c) (py_of (fst c)) (py_of (fst c)) (NumFacts.le_refl _ Nf) Nr) as B.
    unfold extent_of. destruct (fold_left extent (snd c) _) as [lo hi]. destruct B as (B1 & B2 & B3 & B4 & B5).
    split; [|unfold points_of; cbn [List.map In]; split; [destruct B4 as [->|]|destruct B5 as [->|]]; auto].
    unfold points_of. constructor; [auto|]. apply List.Forall_forall. intros q Iq.
    rewrite List.Forall_forall in B3. destruct (B3 q Iq). split; [|auto].
    rewrite List.Forall_forall in S. apply S. now right.
Qed.
Definition at_xy (x y : num) : lpoint := mkLpoint false false Num.nan (mkLinePoint x y 0 0 0 0).
Definition demo_points : list lpoint := [at_xy 1 5; at_xy 1.25 2; at_xy 1.5 9; at_xy 1.75 4; at_xy 3 1].
Lemma fast_path_columns_witness :
  List.concat (List.map points_of (columns demo_points)) = demo_points /\
  List.map extent_of (columns demo_points) = [(2, 9); (1, 1)].
Proof.
  split; [|vm_compute; reflexivity].
  refine (proj1 (proj2 (fast_path_columns demo_points _))). repeat constructor.
Defined.

(** *** The cached segments *)
Section Caches.
Context `{MathLib} (style_of : option (Z -> Z -> string)) (baseStyle : string) (set_style : option string -> list cmd).

Inductive line_op := SetPoints (ps : list lpoint) | Segments_ | Control (area : Interaction.rect) (indexX : bool)
  | Draw (usePath2D : bool) (start count : Z).
Definition run_op (l : line) (o : line_op) : line :=
  match o with
  | SetPoints ps => set_points ps l
  | Segments_ => match segments style_of baseStyle l with Some (_, l') => l' | None => l end
  | Control area ix => updateControlPoints l area ix
  | Draw u s c => match draw style_of baseStyle set_style u l s c with Some (_, l') => l' | None => l end
  end.
Definition current (l : line) : Prop := _segments l = None \/ _segments l = compute_segments style_of baseStyle l.

Lemma segments_current l ss l' : current l -> segments style_of baseStyle l = Some (ss, l') ->
  compute_segments style_of baseStyle l = Some ss /\ current l' /\ _path l' = _path l /\ _points l' = _points l.
Proof.
  intros C E. unfold segments in E. destruct (_segments l) as [s|] eqn:S.
  - injection E as <- <-. destruct C as [C|C]; [congruence|]. split; [congruence|]. split; [right; congruence|auto].
  - destruct (compute_segments style_of baseStyle l) as [s|] eqn:K; [|discriminate]. injection E as <- <-.
    split; [reflexivity|]. split; [right; symmetry; exact K|auto].
Qed.
Lemma write_back_same ps : forall cs only, List.map (segment_point "x") (write_back ps cs only) = List.map (segment_point "x") ps.
Proof.
  induction ps as [|p ps IH]; intros cs only; [reflexivity|]. cbn [write_back].
  destruct (only && lskip p); [cbn; now rewrite IH|]. destruct cs as [|c cs]; cbn; now rewrite IH.
Qed.
Lemma current_draw u l s c r l' : current l -> draw style_of baseStyle set_style u l s c = Some (r, l') -> current l'.
Proof.
  assert (Keep : forall l1 l2 : line, _segments l1 = _segments l2 -> _points l1 = _points l2 -> opts l1 = opts l2 ->
    _loop l1 = _loop l2 -> _fullLoop l1 = _fullLoop l2 -> current l1 -> current l2).
  { intros l1 l2 E1 E2 E3 E4 E5. unfold current, compute_segments. now rewrite E1, E2, E3, E4, E5. }
  intros C. unfold draw.
  set (stroked := if _ && _ then _ else _).
  assert (P : forall x, stroked = Some x -> current (snd x)).
  { intros [y l1] E. unfold stroked in E. destruct (_ && _) in E; [|injection E as <- <-; exact C].
    destruct (u && _) in E.
    - unfold strokePathWithCache in E. destruct (_path l) eqn:Pa; [injection E as <- <-; exact C|].
      unfold path in E. destruct (segments style_of baseStyle l) as [[ss l2]|] eqn:Sg; [|discriminate].
      destruct (segments_current _ _ _ C Sg) as (_ & C2 & _).
      destruct (path_segments _ _ _ _) as [[c1 b1]|]; [|discriminate]. injection E as <- <-.
      now apply (Keep l2).
    - unfold strokePathDirect in E. destruct (segments style_of baseStyle l) as [[ss l2]|] eqn:Sg; [|discriminate].
      destruct (segments_current _ _ _ C Sg) as (_ & C2 & _).
      destruct (stroke_direct _ _ _ _) as [c1|]; [|discriminate]. injection E as <- <-. exact C2. }
  destruct stroked as [x|]; [|discriminate]. cbn [option_map]. intros [= <- <-]. specialize (P x eq_refl).
  destruct (animated (snd x)); [|exact P]. now apply (Keep (snd x)).
Qed.

(** Whatever is done with a line (new points, control points for a new chart area,
    drawing with or without the cached path), the segments it answers with are those of
    its present points. *)
Theorem line_segments_current l0 ops ss l' :
  _segments l0 = None ->
  let l := fold_left run_op ops l0 in
  segments style_of baseStyle l = Some (ss, l') ->
  compute_segments style_of baseStyle l = Some ss /\ compute_segments style_of baseStyle l' = Some ss.
Proof.
  intros N l E.
  assert (C : current l).
  { unfold l. clear E l. assert (C0 : current l0) by now left. clear N. revert l0 C0.
    induction ops as [|o ops IH]; intros l0 C0; [exact C0|]. apply IH. destruct o as [ps| |area ix|u s c]; cbn [run_op].
    - now left.
    - destruct (segments style_of baseStyle l0) as [[s l1]|] eqn:S; [|exact C0]. eapply segments_current; eassumption.
    - unfold updateControlPoints. destruct (_ && _); [|exact C0]. destruct C0 as [C0|C0]; [now left|]. right.
      cbn [_segments]. rewrite C0. unfold compute_segments. cbn. now rewrite write_back_same.
    - destruct (draw _ _ _ u l0 s c) as [[r l1]|] eqn:D; [|exact C0]. eapply current_draw; eassumption. }
  destruct (segments_current _ _ _ C E) as (K & C' & _ & P). split; [exact K|].
  clearbody l. unfold segments in E. destruct (_segments l) as [t|] eqn:S.
  - injection E as _ E2. now rewrite <- E2.
  - rewrite K in E. injection E as E2. now rewrite <- E2.
Qed.
End Caches.
#[local] Instance demo_math : MathLib :=
  {| math_pow := fun x _ => x * x; math_log10 := fun x => x; math_sin := fun x => x; math_cos := fun x => x; math_atan2 := fun x _ => x |}.
Definition demo_line : line :=
  mkLine demo_points (mkOptions None 0.5 false 0 true Segments.NoGaps false 2) false false false true None None false.
Definition demo_ops : list line_op :=
  [Segments_; Draw true 0 0; SetPoints (mkLpoint true false Num.nan (pos (at_xy 0 0)) :: demo_points);
   Control (Interaction.mkRect 0 0 10 10) true; Draw false 0 0].
Lemma line_segments_current_witness :
  let l := fold_left (run_op None "" (fun _ => [])) demo_ops demo_line in
  compute_segments None "" l = Some [Segments.mkSegment 1 5 false None].
Proof.
  intros l. apply (fun H => proj1 (line_segments_current None "" (fun _ => []) demo_line demo_ops
    [Segments.mkSegment 1 5 false None] (match segments None "" l with Some (_, l') => l' | None => l end) eq_refl H)).
  vm_compute. reflexivity.
Defined.
End LineElementFacts.
