(* ===== verification/Filler.v ===== *)
(** The filler plugin of webui/public/chart.js: what the area under a line is filled to,
    the resolution of targets through hidden datasets, the boundary lines, the parts of an
    area, and the commands that fill them.

    A scale is given by what the plugin asks of it.  None in the results of the drawing
    definitions stands for a TypeError.

    Proved: a fill never targets a dataset that is missing, hidden or the line itself, and
    chasing targets ends, also in a circle; filling leaves the saved states of the canvas
    as they were. *)
From Stdlib Require Import ZArith Lia Bool List Ascii String.
From Stdlib Require Import SpecFloat.
From stdpp Require Import base list.
From S2P Require Import Prelude JsNumber JsString JsArray JsValue HelpersCore HelpersMath Interaction Easing Canvas Segments Curve LineElement.
Import ListNotations.
Open Scope Z_scope.

Module Filler.
Import MathH Js Canvas LineElement.
Local Open Scope js_scope.

(** ** What to fill to *)

(** false, a dataset, a named target, or an object with a value. *)
Inductive fill := NoFill | Dataset (k : Z) | Target (name : string) | AtValue (v : value).

(** [parseFillOption]; None is false. *)
Definition parseFillOption (fillOption backgroundColor : value) : option value :=
  let f := if truthy fillOption then Core.valueOrDefault (index fillOption "target") fillOption else fillOption in
  let f := match f with Undefined => VBool (truthy backgroundColor) | _ => f end in
  match f with
  | VBool false | Null => None
  | VBool true => Some (VStr "origin"%string)
  | _ => Some f
  end.
Definition signed (f : value) : bool :=
  match f with VStr (String c _) => Ascii.eqb c "-" || Ascii.eqb c "+" | _ => false end.
Definition decodeFill (fillOption backgroundColor : value) (index_ count : Z) : fill :=
  match parseFillOption fillOption backgroundColor with
  | None => NoFill
  | Some f =>
      if Core.isObject f then
        if Num.is_nan (to_num (index f "value")) then NoFill else AtValue (index f "value")
      else
        let target := parseFloat (to_str f) in
        if Num.is_finite target && Num.eq (Num.floor target) target then
          let target := Num.trunc_Z target in
          let target := if signed f then (index_ + target)%Z else target in
          if ((target =? index_) || (target <? 0) || (count <=? target))%Z then NoFill else Dataset target
        else
          match f with
          | VStr s => if existsb (String.eqb s) ["origin"; "start"; "end"; "stack"; "shape"]%string then Target s else NoFill
          | _ => NoFill
          end
  end.

(** ** Sources *)

(** A line element with the style its segment options give. *)
Record styled := mkStyled { the_line : line; style_of : option (Z -> Z -> string); baseStyle : string }.

(** What the plugin asks of a scale: the linear and the radial ones. *)
Record linear := mkLinear {
  bottom : num; top : num; pixelForValue : value -> num; basePixel : option num; horizontal : bool }.
Record radial := mkRadial {
  labels : nat; reverse : bool; rmin : num; rmax : num; circular : bool; baseValue : num;
  pointPosition : nat -> num -> lpoint; distanceFromCenter : num -> num }.
Inductive scale := Linear (s : linear) | Radial (s : radial).

Record source := mkSource {
  visible : bool; sindex : Z; sfill : fill; axis : string; sscale : scale; sline : styled;
  backgroundColor : value; fillOption : value }.
Definition with_fill (s : source) (f : fill) : source :=
  mkSource (visible s) (sindex s) f (axis s) (sscale s) (sline s) (backgroundColor s) (fillOption s).
Definition sources := list (option source).

(** The loop of [resolveTarget]; None is out of fuel. *)
Fixpoint resolve_loop (fuel : nat) (ss : sources) (f : fill) (visited : list Z) : option fill :=
  match fuel with
  | O => None
  | S n =>
      match f with
      | NoFill => Some NoFill
      | Dataset k =>
          if existsb (Z.eqb k) visited then Some NoFill
          else match nthZ ss k with
               | Some (Some t) => if visible t then Some f else resolve_loop n ss (sfill t) (visited ++ [k])
               | _ => Some NoFill
               end
      | _ => Some f
      end
  end.
Definition resolveTarget (ss : sources) (i : Z) (s : source) (propagate : bool) : option fill :=
  if propagate then resolve_loop (List.length ss + 2) ss (sfill s) [i] else Some (sfill s).

(** The two loops of [afterDatasetsUpdate]: the sources, then their targets in turn. *)
Definition decode (count : Z) (i : nat) (s : option source) : option source :=
  match s with
  | Some s => Some (mkSource (visible s) (Z.of_nat i) (decodeFill (fillOption s) (backgroundColor s) (Z.of_nat i) count)
                      (axis s) (sscale s) (sline s) (backgroundColor s) (fillOption s))
  | None => None
  end.
Definition resolve_one (propagate : bool) (ss : option sources) (i : nat) : option sources :=
  match ss with
  | None => None
  | Some ss =>
      match nth_error ss i with
      | Some (Some s) =>
          match sfill s with
          | NoFill => Some ss
          | _ => option_map (fun f => <[i := Some (with_fill s f)]> ss) (resolveTarget ss (Z.of_nat i) s propagate)
          end
      | _ => Some ss
      end
  end.
Definition afterDatasetsUpdate (ss : sources) (propagate : bool) : option sources :=
  let ss := imap (decode (lengthZ ss)) ss in
  fold_left (resolve_one propagate) (seq 0 (List.length ss)) (Some ss).

Section Draw.
Context `{MathLib}.

(** ** Lines of the plugin *)
Definition segments_of (l : styled) : option (list Segments.segment) :=
  option_map fst (segments (style_of l) (baseStyle l) (the_line l)).
Definition points_of (l : styled) : list lpoint := _points (the_line l).
Definition plain_options : options := mkOptions None 0 false 0 true Segments.NoGaps false Num.nan.
Definition new_line (points : list lpoint) (loop : bool) : styled :=
  mkStyled (mkLine points plain_options loop loop false true None None false) None EmptyString.

(** [line.interpolate(point, property)]: nothing, a point, or the array of several, whose
    coordinates are undefined. *)
Definition interpolated (l : styled) (v : num) (property : string) : option (option point) :=
  match interpolate (style_of l) (baseStyle l) (the_line l) v property with
  | None => None
  | Some [] => Some None
  | Some [p] => Some (Some p)
  | Some _ => Some (Some (mkPoint Num.nan Num.nan))
  end.

(** ** Boundaries *)
Definition computeLinearBoundary (s : linear) (f : fill) : option (option num * option num) :=
  let target := match f with
    | Target "start" => Some (bottom s)
    | Target "end" => Some (top s)
    | AtValue v => Some (pixelForValue s v)
    | _ => basePixel s
    end%string in
  match target with
  | Some t => if Num.is_finite t then Some (if horizontal s then (Some t, None) else (None, Some t)) else None
  | None => None
  end.
Record simpleArc := mkArc { ax : num; ay : num; aradius : num }.
Definition computeCircularBoundary (s : radial) (f : fill) : simpleArc + list lpoint :=
  let '(start, end_) := if reverse s then (rmax s, rmin s) else (rmin s, rmax s) in
  let v := match f with
    | Target "start" => start
    | Target "end" => end_
    | AtValue v => to_num v
    | _ => baseValue s
    end%string in
  if circular s then
    let center := pointPosition s 0 start in inl (mkArc (px_of center) (py_of center) (distanceFromCenter s v))
  else inr (List.map (fun i => pointPosition s i v) (seq 0 (labels s))).

(** The last point of a segment that has both coordinates. *)
Fixpoint segment_end (n : nat) (start end_ : Z) (points : list lpoint) : Z :=
  match n with
  | O => end_
  | S n' =>
      if (end_ <=? start)%Z then end_
      else match nthZ points end_ with
           | Some p => if negb (Num.is_nan (px_of p)) && negb (Num.is_nan (py_of p)) then end_
                       else segment_end n' start (end_ - 1) points
           | None => segment_end n' start (end_ - 1) points
           end
  end.
Definition findSegmentEnd (start end_ : Z) (points : list lpoint) : Z :=
  segment_end (Z.to_nat (end_ - start)) start end_ points.
Definition at_point (x y : num) : lpoint := mkLpoint false false Num.nan (mkLinePoint x y Num.nan Num.nan Num.nan Num.nan).
Definition pointsFromSegments (x y : option num) (l : styled) : option (list lpoint) :=
  match segments_of l with
  | None => None
  | Some ss =>
      Some (List.flat_map (fun s =>
        let first := nthZ (points_of l) (Segments.sstart s) in
        let last := nthZ (points_of l) (findSegmentEnd (Segments.sstart s) (Segments.send s) (points_of l)) in
        match first, last with
        | Some first, Some last =>
            match y, x with
            | Some y, _ => [at_point (px_of first) y; at_point (px_of last) y]
            | None, Some x => [at_point x (py_of first); at_point x (py_of last)]
            | None, None => []
            end
        | _, _ => []
        end) ss)
  end.
(** [createBoundaryLine] for a boundary in coordinates and for one of points; the inner
    None is null. *)
Definition line_or_null (points : list lpoint) (loop : bool) : option styled :=
  match points with [] => None | _ => Some (new_line points loop) end.
Definition createBoundaryLine (x y : option num) (l : styled) : option (option styled) :=
  option_map (fun ps => line_or_null ps false) (pointsFromSegments x y l).

(** ** Stacked lines *)
Record found := mkFound { ffirst : bool; flast : bool; fpoint : option point }.
Fixpoint find_in (v : num) (property : string) (points : list lpoint) (ss : list Segments.segment) : option (bool * bool) :=
  match ss with
  | [] => Some (false, false)
  | s :: ss' =>
      match nthZ points (Segments.sstart s), nthZ points (Segments.send s) with
      | Some a, Some b =>
          let '(firstValue, lastValue) := (value_of property a, value_of property b) in
          if _isBetween v firstValue lastValue 1e-6 then Some (Num.eq v firstValue, Num.eq v lastValue)
          else find_in v property points ss'
      | _, _ => None
      end
  end.
Definition findPoint (l : styled) (v : num) (property : string) : option found :=
  match interpolated l v property, segments_of l with
  | Some None, _ => Some (mkFound false false None)
  | Some (Some p), Some ss =>
      let pv := if String.eqb property "x" then x p else y p in
      option_map (fun fl => mkFound (fst fl) (snd fl) (Some p)) (find_in pv property (points_of l) ss)
  | _, _ => None
  end.
(** The points under a point: those of the lines below that begin there come last. *)
Fixpoint below_loop (v : num) (lines : list (option styled)) (points postponed : list lpoint) : option (list lpoint) :=
  match lines with
  | [] => Some (points ++ postponed)%list
  | None :: _ => None
  | Some l :: rest =>
      match findPoint l v "x" with
      | None => None
      | Some f =>
          match fpoint f with
          | None => below_loop v rest points postponed
          | Some p =>
              if ffirst f && flast f then below_loop v rest points postponed
              else if ffirst f then below_loop v rest points (at_point (x p) (y p) :: postponed)
              else
                let points := (points ++ [at_point (x p) (y p)])%list in
                if flast f then below_loop v rest points postponed else Some (points ++ postponed)%list
          end
      end
  end.
Definition addPointsBelow (points : list lpoint) (sourcePoint : lpoint) (linesBelow : list (option styled)) : option (list lpoint) :=
  below_loop (px_of sourcePoint) linesBelow points [].
(** A visible meta of a line on the same scale. *)
Record line_meta := mkLineMeta { lm_index : Z; lm_hidden : bool; lm_line : styled }.
Fixpoint getLinesBelow (metas : list line_meta) (index_ : Z) (below : list (option styled)) : list (option styled) :=
  match metas with
  | [] => below
  | m :: rest =>
      if (lm_index m =? index_)%Z then below
      else getLinesBelow rest index_ (if lm_hidden m then below else Some (lm_line m) :: below)
  end.
Fixpoint add_all (points : list lpoint) (ps : list lpoint) (lines : list (option styled)) : option (list lpoint) :=
  match ps with
  | [] => Some points
  | p :: ps' => match addPointsBelow points p lines with Some points => add_all points ps' lines | None => None end
  end.
Definition slice_points (l : styled) (s : Segments.segment) : list lpoint :=
  slice (points_of l) (Segments.sstart s) (Segments.send s + 1).
Definition buildStackLine (s : linear) (i : Z) (l : styled) (metas : list line_meta) : option styled :=
  match createBoundaryLine None (Some (bottom s)) l, segments_of l with
  | Some last, Some ss =>
      let lines := (getLinesBelow metas i [] ++ [last])%list in
      option_map (fun ps => new_line ps false) (add_all [] (List.flat_map (slice_points l) ss) lines)
  | _, _ => None
  end.

(** ** Targets *)
Inductive target := ToLine (l : styled) | ToArc (a : simpleArc) | ToShape.
(** The visible line of a dataset, and the metas [getLinesBelow] sees. *)
Context (getLineByIndex : Z -> option styled) (matching : list line_meta).
(** The inner None is a target that is missing. *)
Definition getTarget (s : source) : option (option target) :=
  match sfill s with
  | Dataset k => Some (option_map ToLine (getLineByIndex k))
  | Target "stack" =>
      match sscale s with
      | Linear sc => option_map (fun l => Some (ToLine l)) (buildStackLine sc (sindex s) (sline s) matching)
      | Radial _ => None
      end
  | Target "shape" => Some (Some ToShape)
  | f =>
      match sscale s with
      | Linear sc =>
          let '(bx, by_) := match computeLinearBoundary sc f with Some b => b | None => (None, None) end in
          option_map (option_map ToLine) (createBoundaryLine bx by_ (sline s))
      | Radial sc =>
          match computeCircularBoundary sc f with
          | inl a => Some (Some (ToArc a))
          | inr ps => Some (option_map ToLine (line_or_null ps true))
          end
      end
  end%string.

(** ** The parts of an area *)
Definition getBounds (property : string) (first last : num) (loop : bool) : option Segments.bounds :=
  if loop then None
  else if String.eqb property "angle" then Some (Segments.mkBounds property (_normalizeAngle first) (_normalizeAngle last))
  else Some (Segments.mkBounds property first last).
Definition _getEdge (a b : option num) (fn : num -> num -> num) : num :=
  match a, b with Some x, Some y => fn x y | Some x, None => x | None, Some y => y | None, None => 0 end.
(** The target of a part: a segment of a line, or the bounds of an arc. *)
Record part := mkPart { psource : Segments.segment; ptarget : Segments.segment + option Segments.bounds; pfrom : num; pto : num }.
Definition value_at (points : list lpoint) (i : Z) (property : string) : option num :=
  option_map (value_of property) (nthZ points i).
Definition seg_points (l : styled) (property : string) : list Segments.pt := List.map (segment_point property) (points_of l).
Definition parts_of (l : styled) (t : target) (property : string) (s : Segments.segment) : option (list part) :=
  let points := points_of l in
  let end_ := findSegmentEnd (Segments.sstart s) (Segments.send s) points in
  match value_at points (Segments.sstart s) property, value_at points end_ property with
  | Some a, Some b =>
      let bounds := getBounds property a b (Segments.loop s) in
      match t with
      | ToLine tl =>
          match segments_of tl with
          | None => None
          | Some tss =>
              let targetSegments := Segments._boundSegments tss (seg_points tl property) bounds in
              fold_left (fun acc tgt =>
                match acc, value_at (points_of tl) (Segments.sstart tgt) property, value_at (points_of tl) (Segments.send tgt) property with
                | Some acc, Some ta, Some tb =>
                    let subBounds := getBounds property ta tb (Segments.loop tgt) in
                    let edge f fn := _getEdge (option_map f bounds) (option_map f subBounds) fn in
                    Some (acc ++ List.map (fun fs => mkPart fs (inl tgt) (edge Segments.bstart Num.max) (edge Segments.bend Num.min))
                            (Segments._boundSegment s (seg_points l property) subBounds))%list
                | _, _, _ => None
                end) targetSegments (Some [])
          end
      | _ => Some [mkPart s (inr bounds) a b]
      end
  | _, _ => None
  end.
Fixpoint parts_loop (l : styled) (t : target) (property : string) (ss : list Segments.segment) : option (list part) :=
  match ss with
  | [] => Some []
  | s :: ss' =>
      match parts_of l t property s, parts_loop l t property ss' with
      | Some a, Some b => Some (a ++ b)%list
      | _, _ => None
      end
  end.
Definition _segments (l : styled) (t : target) (property : string) : option (list part) :=
  match segments_of l with Some ss => parts_loop l t property ss | None => None end.

(** ** Drawing *)
Context (area : Interaction.rect) (style_color : string -> option value).

Definition clipBounds (bounds : option Segments.bounds) : list cmd :=
  match bounds with
  | Some b => if String.eqb (Segments.property b) "x"
              then [BeginPath; RectPath (Segments.bstart b) (Interaction.top area) (Segments.bend b - Segments.bstart b)
                      (Interaction.bottom area - Interaction.top area); Clip] else []
  | None => []
  end.
Definition arc_point (a : simpleArc) (angle : num) : point :=
  mkPoint (ax a + math_cos angle * aradius a) (ay a + math_sin angle * aradius a).
Definition target_interpolate (t : target) (v : num) (property : string) : option (option point) :=
  match t with
  | ToLine l => interpolated l v property
  | ToArc a => Some (Some (arc_point a v))
  | ToShape => None
  end.
Definition interpolatedLineTo (t : target) (v : num) (property : string) : option (list cmd) :=
  option_map (fun p => match p with Some p => [LineTo (x p) (y p)] | None => [] end) (target_interpolate t v property).
(** The path of a part of the target, backwards, and whether it is a loop. *)
Definition target_path (t : target) (tgt : Segments.segment + option Segments.bounds) (move : bool) : option (list cmd * bool) :=
  match t, tgt with
  | ToLine l, inl s => segment_path (the_line l) s (mkParams None None move true)
  | ToArc a, inr b =>
      let '(s, e) := match b with Some b => (Segments.bstart b, Segments.bend b) | None => (0, TAU) end in
      Some ([Arc (ax a) (ay a) (aradius a) e s true], true)
  | _, _ => None
  end.
Definition fill_part (l : styled) (t : target) (property : string) (color : value) (p : part) : option (list cmd) :=
  let background := match Segments.style (psource p) with
    | Some st => match style_color st with Some c => c | None => color end
    | None => color end in
  let head bounds := ([Save; Set_ "fillStyle" background] ++ clipBounds bounds ++ [BeginPath])%list in
  match segment_path (the_line l) (psource p) (mkParams None None true false) with
  | None => None
  | Some (c, lineLoop) =>
      match t with
      | ToShape => Some (head None ++ c ++ [ClosePath; Fill; Restore])%list
      | _ =>
          let first := if lineLoop then Some [ClosePath] else interpolatedLineTo t (pto p) property in
          match first, target_path t (ptarget p) lineLoop with
          | Some first, Some (tc, targetLoop) =>
              let loop := lineLoop && targetLoop in
              match (if loop then Some [] else interpolatedLineTo t (pfrom p) property) with
              | Some last =>
                  Some (head (getBounds property (pfrom p) (pto p) false) ++ c ++ first ++ tc ++ last ++
                        [ClosePath; if loop then FillEvenOdd else Fill; Restore])%list
              | None => None
              end
          | _, _ => None
          end
      end
  end.
Fixpoint fill_parts (l : styled) (t : target) (property : string) (color : value) (ps : list part) : option (list cmd) :=
  match ps with
  | [] => Some []
  | p :: ps' =>
      match fill_part l t property color p, fill_parts l t property color ps' with
      | Some a, Some b => Some (a ++ b)%list
      | _, _ => None
      end
  end.
Definition _fill (l : styled) (t : target) (property : string) (color : value) : option (list cmd) :=
  match _segments l t property with Some ps => fill_parts l t property color ps | None => None end.
Definition x_or_nan (p : option lpoint) : num := match p with Some p => px_of p | None => Num.nan end.
(** The area between the target and one edge of the chart. *)
Definition _clip (t : target) (clipY : num) : option (list cmd) :=
  match t with
  | ToLine l =>
      match path (style_of l) (baseStyle l) (the_line l) 0 0, first (style_of l) (baseStyle l) (the_line l),
            last (style_of l) (baseStyle l) (the_line l) with
      | Some (c, _, _), Some f, Some e =>
          Some (BeginPath :: c ++ [LineTo (x_or_nan e) clipY; LineTo (x_or_nan f) clipY; ClosePath; Clip])%list
      | _, _, _ => None
      end
  | _ => None
  end.
(** [above] and [below] are compared as texts or by identity: [differ]. *)
Definition doFill (l : styled) (t : target) (above below : value) (differ : bool) (axis : string) : option (list cmd) :=
  let property := if _loop (the_line l) then "angle"%string else axis in
  match _fill l t property below with
  | None => None
  | Some lower =>
      if String.eqb property "x" && differ then
        match _clip t (Interaction.top area), _fill l t property above, _clip t (Interaction.bottom area) with
        | Some c1, Some upper, Some c2 => Some (Save :: c1 ++ upper ++ [Restore; Save] ++ c2 ++ lower ++ [Restore])%list
        | _, _, _ => None
        end
      else Some (Save :: lower ++ [Restore])%list
  end.
Context (same_color : value -> value -> bool).
Definition drawfill (s : source) : option (list cmd) :=
  match getTarget s with
  | None => None
  | Some None => Some []
  | Some (Some t) =>
      match points_of (sline s) with
      | [] => Some []
      | _ =>
          let color := backgroundColor s in
          let opt k := if truthy (fillOption s) then Core.valueOrDefault (index (fillOption s) k) color else color in
          option_map (fun c => (clipArea area ++ c ++ unclipArea)%list)
            (doFill (sline s) t (opt "above"%string) (opt "below"%string)
               (negb (same_color (opt "below"%string) (opt "above"%string))) (axis s))
      end
  end.

(** ** The hooks: the visible metas in drawing order, last first *)
Fixpoint draw_sources (ss : sources) : option (list cmd) :=
  match ss with
  | [] => Some []
  | None :: rest => draw_sources rest
  | Some s :: rest =>
      match drawfill s, draw_sources rest with Some a, Some b => Some (a ++ b)%list | _, _ => None end
  end.
Definition update_control (s : option source) : option source :=
  match s with
  | Some s => Some (mkSource (visible s) (sindex s) (sfill s) (axis s) (sscale s)
      (mkStyled (updateControlPoints (the_line (sline s)) area (String.eqb (axis s) "x")) (style_of (sline s)) (baseStyle (sline s)))
      (backgroundColor s) (fillOption s))
  | None => None
  end.
Definition beforeDraw (drawTime : string) (sorted : sources) : sources * option (list cmd) :=
  let ss := List.map update_control (List.rev sorted) in
  (List.rev ss, if String.eqb drawTime "beforeDraw" then draw_sources ss else Some []).
Definition beforeDatasetsDraw (drawTime : string) (sorted : sources) : option (list cmd) :=
  if String.eqb drawTime "beforeDatasetsDraw" then draw_sources (List.rev sorted) else Some [].
Definition beforeDatasetDraw (drawTime : string) (s : option source) : option (list cmd) :=
  match s with
  | None => Some []
  | Some s =>
      match sfill s with
      | NoFill => Some []
      | _ => if String.eqb drawTime "beforeDatasetDraw" then drawfill s else Some []
      end
  end.
End Draw.
End Filler.

(** ** Facts *)
Module FillerFacts.
Local Open Scope list_scope.
Import Canvas CanvasFacts LineElement Filler.

(** *** Chasing targets *)
Definition sound (ss : sources) (visited : list Z) (r : fill) : Prop :=
  match r with
  | Dataset k => ~ In k visited /\ exists t, nthZ ss k = Some (Some t) /\ visible t = true
  | _ => True
  end.
Lemma resolve_sound fuel ss : forall f visited r, resolve_loop fuel ss f visited = Some r -> sound ss visited r.
Proof.
  induction fuel as [|fuel IH]; intros f visited r E; [discriminate|]. cbn [resolve_loop] in E.
  destruct f as [|k|s|v]; try (injection E as <-; exact I).
  destruct (existsb (Z.eqb k) visited) eqn:V; [injection E as <-; exact I|].
  destruct (nthZ ss k) as [[t|]|] eqn:T; try (injection E as <-; exact I).
  destruct (visible t) eqn:Vt.
  - injection E as <-. split; [|eauto]. intros I. assert (X : existsb (Z.eqb k) visited = true); [|congruence].
    apply existsb_exists. exists k. split; [exact I|apply Z.eqb_refl].
  - apply IH in E. destruct r as [|j|s|v]; try exact I. destruct E as [N X]. split; [|exact X].
    intros I. apply N, in_app_iff. now left.
Qed.
(** Every dataset is visited at most once, so the chase ends, also in a circle. *)
Lemma resolve_ends fuel ss : forall f visited,
  List.NoDup visited -> (forall k, In k visited -> 0 <= k < lengthZ ss) ->
  (List.length ss < fuel + List.length visited)%nat -> exists r, resolve_loop fuel ss f visited = Some r.
Proof.
  induction fuel as [|fuel IH]; intros f visited N B L.
  - exfalso. assert (Le : (List.length visited <= List.length (List.map Z.of_nat (seq 0 (List.length ss))))%nat).
    { apply List.NoDup_incl_length; [exact N|]. intros k I. specialize (B k I). unfold lengthZ in B.
      apply in_map_iff. exists (Z.to_nat k). split; [lia|]. apply in_seq. lia. }
    rewrite length_map, length_seq in Le. lia.
  - cbn [resolve_loop]. destruct f as [|k|s|v]; eauto.
    destruct (existsb (Z.eqb k) visited) eqn:V; [eauto|].
    destruct (nthZ ss k) as [[t|]|] eqn:T; eauto. destruct (visible t); [eauto|].
    assert (K : ~ In k visited).
    { intros I. assert (X : existsb (Z.eqb k) visited = true); [|congruence].
      apply existsb_exists. exists k. split; [exact I|apply Z.eqb_refl]. }
    apply IH.
    + now apply NoDup_snoc.
    + intros j I. apply in_app_iff in I as [I|[<-|[]]]; [auto|].
      destruct (Z.lt_ge_cases k 0) as [Lt|Ge]; [rewrite (proj2 (nthZ_None ss k)) in T by lia; discriminate|].
      destruct (Z.lt_ge_cases k (lengthZ ss)) as [Lt|Ge2]; [lia|].
      rewrite (proj2 (nthZ_None ss k)) in T by lia. discriminate.
    + rewrite length_app. cbn. lia.
Qed.

Definition shows (s : option source) : option bool := option_map visible s.
Definition sound_at (ss : sources) (i : nat) : Prop := forall s, nth_error ss i = Some (Some s) -> sound ss [Z.of_nat i] (sfill s).
Lemma same_visible (ss ss' : sources) k t : List.map shows ss = List.map shows ss' -> nthZ ss k = Some (Some t) ->
  visible t = true -> exists t', nthZ ss' k = Some (Some t') /\ visible t' = true.
Proof.
  intros E T V. unfold nthZ in *. destruct (k <? 0); [discriminate|].
  apply (f_equal (fun l => nth_error l (Z.to_nat k))) in E. rewrite !nth_error_map, T in E. cbn in E.
  destruct (nth_error ss' (Z.to_nat k)) as [[t'|]|]; try discriminate. injection E as E. exists t'. split; congruence.
Qed.
Lemma sound_same ss ss' v r : List.map shows ss = List.map shows ss' -> sound ss v r -> sound ss' v r.
Proof.
  intros E. destruct r as [|k|s|x]; auto. intros [N (t & T & V)]. split; [exact N|]. eapply same_visible; eauto.
Qed.
Lemma map_insert_same {X Y} (f : X -> Y) (l : list X) i x y : nth_error l i = Some y -> f x = f y ->
  List.map f (<[i := x]> l) = List.map f l.
Proof.
  intros E F. change (f <$> <[i := x]> l = f <$> l). rewrite list_fmap_insert, F. apply list_insert_id.
  rewrite list_lookup_fmap, <- nth_error_lookup, E. reflexivity.
Qed.
Lemma nodup_one {X} (x : X) : List.NoDup [x].
Proof. constructor; [intros []|constructor]. Qed.
Lemma resolve_step ss i : (i < List.length ss)%nat -> exists ss', resolve_one true (Some ss) i = Some ss' /\
  List.map shows ss' = List.map shows ss /\ sound_at ss' i /\ (forall j, j <> i -> nth_error ss' j = nth_error ss j).
Proof.
  intros L. cbn [resolve_one]. destruct (nth_error ss i) as [[s|]|] eqn:E.
  2: { exists ss. split_and!; auto. intros s' E'. rewrite E in E'. discriminate. }
  2: { exists ss. split_and!; auto. intros s' E'. rewrite E in E'. discriminate. }
  destruct (sfill s) eqn:F.
  1: { exists ss. split_and!; auto. intros s' E'. rewrite E in E'. injection E' as <-. rewrite F. exact I. }
  all: unfold resolveTarget;
    destruct (resolve_ends (List.length ss + 2) ss (sfill s) [Z.of_nat i]) as [r R];
    [apply nodup_one|intros k' [<-|[]]; unfold lengthZ; lia|lia|];
    rewrite R; cbn [option_map]; eexists; split; [reflexivity|];
    assert (Sh : List.map shows (<[i := Some (with_fill s r)]> ss) = List.map shows ss)
      by (now apply (map_insert_same _ _ _ _ _ E));
    split; [exact Sh|]; split;
    [intros s' E'; pose proof (eq_trans (eq_sym (nth_error_insert_eq ss i (Some (with_fill s r)) L)) E') as Q; injection Q as <-;
     apply (sound_same ss); [now symmetry|]; exact (resolve_sound _ _ _ _ _ R)
    |intros j N; now apply nth_error_insert_ne].
Qed.

(** C26: resolving the targets of fills always ends, also when hidden datasets point at each
    other in a circle, and a fill that stays a fill to a dataset goes to another dataset,
    which exists and is visible. *)
Theorem fill_targets_visible ss : exists ss', afterDatasetsUpdate ss true = Some ss' /\
  List.map shows ss' = List.map shows ss /\
  forall i s k, nth_error ss' i = Some (Some s) -> sfill s = Dataset k ->
    k <> Z.of_nat i /\ exists t, nthZ ss' k = Some (Some t) /\ visible t = true.
Proof.
  unfold afterDatasetsUpdate. set (ds := imap (decode (lengthZ ss)) ss). cbv zeta.
  assert (Sd : List.map shows ds = List.map shows ss).
  { unfold ds. generalize (lengthZ ss). intros n. change (shows <$> imap (decode n) ss = shows <$> ss).
    apply list_eq. intros i. rewrite !list_lookup_fmap, list_lookup_imap. clear ds.
    generalize ((ss : list (option source)) !! i). intros [[s|]|]; reflexivity. }
  assert (P : forall n, (n <= List.length ds)%nat -> exists ss', fold_left (resolve_one true) (seq 0 n) (Some ds) = Some ss' /\
    List.map shows ss' = List.map shows ds /\ forall i, (i < n)%nat -> sound_at ss' i).
  { induction n as [|n IH]; intros L.
    - exists ds. split_and!; auto. intros i Hi. lia.
    - destruct IH as (s1 & F & Sh & So); [lia|]. rewrite seq_S, fold_left_app, F. cbn [fold_left Nat.add].
      destruct (resolve_step s1 n) as (s2 & R & Sh2 & Sn & Same).
      { apply (f_equal (@List.length _)) in Sh. rewrite !length_map in Sh. lia. }
      exists s2. split; [exact R|]. split; [congruence|]. intros i Hi. destruct (Nat.eq_dec i n) as [->|Ne]; [exact Sn|].
      intros s E. rewrite Same in E by exact Ne. apply (sound_same s1); [congruence|]. apply So; [lia|exact E]. }
  destruct (P (List.length ds) (Nat.le_refl _)) as (ss' & F & Sh & So). exists ss'. split; [exact F|].
  split; [congruence|]. intros i s k E K.
  assert (Li : (i < List.length ds)%nat).
  { apply (f_equal (@List.length _)) in Sh. rewrite !length_map in Sh. rewrite <- Sh. apply nth_error_Some. congruence. }
  pose proof (So i Li s E) as X. rewrite K in X. destruct X as [N X]. split; [|exact X].
  intros ->. apply N. now left.
Qed.

(** *** What the plugin draws *)
Lemma flat_line_method o prev p r : List.Forall flat (line_method o prev p r).
Proof.
  unfold line_method. destruct (stepped o) as [m|]; [|destruct (curved o)].
  - unfold _steppedLineTo. destruct (option_map pos prev); [|repeat constructor].
    apply List.Forall_app. split; [|repeat constructor]. destruct (String.eqb _ _); [repeat constructor|].
    destruct (xorb _ _); repeat constructor.
  - unfold _bezierCurveTo. destruct (option_map pos prev); repeat constructor.
  - repeat constructor.
Qed.
Lemma flat_path_loop o r ps : forall prev move, List.Forall flat (fst (path_loop o r ps prev move)).
Proof.
  induction ps as [|p ps IH]; intros prev move; [constructor|]. cbn [path_loop]. destruct (lskip p); [apply IH|].
  specialize (IH (Some p) false). destruct (path_loop o r ps (Some p) false) as [rest last_]. cbn [fst] in *.
  apply List.Forall_app. split; [|exact IH]. destruct move; [repeat constructor|apply flat_line_method].
Qed.
Lemma flat_drawX s : List.Forall flat (drawX s).
Proof. unfold drawX. destruct (minmax s) as [[lo hi]|]; [destruct (negb _)|]; repeat constructor. Qed.
Lemma flat_fast ps : forall s, List.Forall flat (fast_loop s ps).
Proof.
  induction ps as [|p ps IH]; intros s; [apply flat_drawX|]. cbn [fast_loop]. destruct (lskip p); [apply IH|].
  assert (F : List.Forall flat (snd (fast_step s p))).
  { unfold fast_step. destruct (prevX s), (minmax s) as [[lo hi]|]; cbn [snd];
      try (destruct (_ =? _)%Z; [constructor|]); apply List.Forall_app; split; try apply flat_drawX; repeat constructor. }
  destruct (fast_step s p) as [s' c]. cbn [snd] in F. apply List.Forall_app. split; [exact F|apply IH].
Qed.
Lemma flat_segment_path l s ps c b : segment_path l s ps = Some (c, b) -> List.Forall flat c.
Proof.
  unfold segment_path. destruct (use_fast_path l).
  - unfold fastPathSegment. destruct (visited _ _ _ _ _) as [vs|]; [|discriminate]. destruct (pmove ps).
    + destruct (nthZ _ _); [|discriminate]. intros [= <- <-]. constructor; [exact I|apply flat_fast].
    + intros [= <- <-]. apply flat_fast.
  - unfold pathSegment. destruct (visited _ _ _ _ _) as [vs|]; [|discriminate].
    pose proof (flat_path_loop (opts l) (preverse ps) vs None (pmove ps)) as F.
    destruct (path_loop _ _ _ _ _) as [cs prev]. cbn [fst] in F. destruct (vloop _).
    + destruct (nthZ _ _); [|discriminate]. intros [= <- <-]. apply List.Forall_app. split; [exact F|apply flat_line_method].
    + intros [= <- <-]. exact F.
Qed.
Lemma flat_path_segments l ss : forall ps b c b', path_segments l ss ps b = Some (c, b') -> List.Forall flat c.
Proof.
  induction ss as [|s ss IH]; intros ps b c b' E; cbn [path_segments] in E; [injection E as <- <-; constructor|].
  destruct (segment_path l s ps) as [[c1 b1]|] eqn:S; [|discriminate].
  destruct (path_segments l ss ps (b && b1)) as [[c2 b2]|] eqn:P; [|discriminate]. injection E as <- <-.
  apply List.Forall_app. split; [exact (flat_segment_path _ _ _ _ _ S)|exact (IH _ _ _ _ P)].
Qed.

Ltac flats := repeat first [ apply List.Forall_app; split | constructor; [exact I|] | constructor ].
Section Balanced.
Context `{MathLib} (getLineByIndex : Z -> option styled) (matching : list line_meta) (area : Interaction.rect)
  (style_color : string -> option value) (same_color : value -> value -> bool).

Lemma flat_interpolated t v p c : interpolatedLineTo t v p = Some c -> List.Forall flat c.
Proof.
  unfold interpolatedLineTo. destruct (target_interpolate t v p) as [[q|]|]; [| |discriminate]; intros [= <-]; flats.
Qed.
Lemma flat_target_path t tgt move c b : target_path t tgt move = Some (c, b) -> List.Forall flat c.
Proof.
  unfold target_path. destruct t as [l|a|], tgt as [s|bo]; try discriminate.
  - apply flat_segment_path.
  - destruct bo; intros [= <- <-]; flats.
Qed.
Lemma flat_clipBounds b : List.Forall flat (clipBounds area b).
Proof. unfold clipBounds. destruct b as [b|]; [|constructor]. destruct (String.eqb _ _); flats. Qed.
(** A part is filled between a save and a restore. *)
Lemma balanced_part l t p color q c : fill_part area style_color l t p color q = Some c -> balanced c.
Proof.
  unfold fill_part. set (bg := match Segments.style (psource q) with Some _ => _ | None => _ end). cbv zeta.
  destruct (segment_path _ _ _) as [[path lineLoop]|] eqn:S; [|discriminate]. apply flat_segment_path in S.
  assert (Close : forall b body last, List.Forall flat body -> flat last ->
    balanced (([Save; Set_ "fillStyle" bg] ++ clipBounds area b ++ [BeginPath]) ++ body ++ [ClosePath; last; Restore])).
  { intros b body last_ B L.
    replace (_ ++ _)%list with (Save :: (Set_ "fillStyle" bg :: clipBounds area b ++ BeginPath :: body ++ [ClosePath; last_]) ++ [Restore]).
    - apply balanced_saved, balanced_flat. constructor; [exact I|]. apply List.Forall_app. split; [apply flat_clipBounds|].
      constructor; [exact I|]. apply List.Forall_app. split; [exact B|]. constructor; [exact I|]. now repeat constructor.
    - cbn [app]. rewrite <- !app_assoc. cbn [app]. rewrite <- !app_assoc. reflexivity. }
  assert (Main : match (if lineLoop then Some [ClosePath] else interpolatedLineTo t (pto q) p), target_path t (ptarget q) lineLoop with
     | Some first, Some (tc, targetLoop) =>
         let loop := lineLoop && targetLoop in
         match (if loop then Some [] else interpolatedLineTo t (pfrom q) p) with
         | Some last => Some (([Save; Set_ "fillStyle" bg] ++ clipBounds area (getBounds p (pfrom q) (pto q) false) ++ [BeginPath])
                          ++ path ++ first ++ tc ++ last ++ [ClosePath; if loop then FillEvenOdd else Fill; Restore])%list
         | None => None
         end
     | _, _ => None end = Some c -> balanced c).
  { destruct (if lineLoop then _ else _) as [first|] eqn:F; [|discriminate].
    assert (Ff : List.Forall flat first).
    { destruct lineLoop; [injection F as <-; flats|]. exact (flat_interpolated _ _ _ _ F). }
    destruct (target_path t (ptarget q) lineLoop) as [[tc tl]|] eqn:T; [|discriminate]. apply flat_target_path in T. cbv zeta.
    destruct (if lineLoop && tl then _ else _) as [last_|] eqn:La; [|discriminate].
    assert (Fl : List.Forall flat last_).
    { destruct (lineLoop && tl); [injection La as <-; constructor|]. exact (flat_interpolated _ _ _ _ La). }
    intros [= <-].
    specialize (Close (getBounds p (pfrom q) (pto q) false) (path ++ first ++ tc ++ last_)%list
      (if lineLoop && tl then FillEvenOdd else Fill)).
    rewrite <- !app_assoc in Close. rewrite <- !app_assoc. apply Close.
    - repeat (apply List.Forall_app; split); assumption.
    - destruct (lineLoop && tl); exact I. }
  destruct t; [exact Main|exact Main|]. intros [= <-]. exact (Close None path Fill S I).
Qed.
Lemma balanced_fill l t p color c : _fill area style_color l t p color = Some c -> balanced c.
Proof.
  unfold _fill. destruct (_segments l t p) as [ps|]; [|discriminate]. revert c.
  induction ps as [|q ps IH]; intros c; cbn [fill_parts]; [intros [= <-]; exact balanced_nil|].
  destruct (fill_part _ _ _ _ _ _ _) as [a|] eqn:A; [|discriminate].
  destruct (fill_parts _ _ _ _ _ _ _) as [b|]; [|discriminate]. intros [= <-].
  apply balanced_app; [exact (balanced_part _ _ _ _ _ _ A)|now apply IH].
Qed.
Lemma flat_clip t y c : _clip t y = Some c -> List.Forall flat c.
Proof.
  unfold _clip. destruct t as [l| |]; try discriminate.
  destruct (path _ _ _ _ _) as [[[pc pb] l']|] eqn:P; [|discriminate].
  destruct (first _ _ _); [|discriminate]. destruct (last _ _ _); [|discriminate]. intros [= <-].
  unfold path in P. destruct (segments _ _ _) as [[ss l1]|]; [|discriminate].
  destruct (path_segments _ _ _ _) as [[c1 b1]|] eqn:E; [|discriminate]. injection P as <- _ _.
  constructor; [exact I|]. apply List.Forall_app. split; [exact (flat_path_segments _ _ _ _ _ _ E)|flats].
Qed.

(** Whatever is filled, the clips and styles set for it are undone. *)
Lemma drawfill_balanced s c : drawfill getLineByIndex matching area style_color same_color s = Some c -> balanced c.
Proof.
  unfold drawfill. destruct (getTarget _ _ _) as [[t|]|]; [| |discriminate].
  2: { intros [= <-]. exact balanced_nil. }
  destruct (points_of (sline s)); [intros [= <-]; exact balanced_nil|].
  destruct (doFill _ _ _ _ _ _ _ _) as [d|] eqn:D; [|discriminate]. intros [= <-].
  change (balanced (Save :: ([BeginPath; RectPath (Interaction.left area) (Interaction.top area)
    (Interaction.right area - Interaction.left area)%js (Interaction.bottom area - Interaction.top area)%js; Clip] ++ d) ++ [Restore])).
  apply balanced_saved, balanced_app; [apply balanced_flat; flats|].
  unfold doFill in D. destruct (_fill _ _ _ _ _ _) as [lower|] eqn:Lo; [|discriminate]. apply balanced_fill in Lo.
  destruct (_ && _) in D.
  - destruct (_clip _ _) as [c1|] eqn:C1 in D; [|discriminate]. destruct (_fill _ _ _ _ _ _) as [upper|] eqn:Up in D; [|discriminate].
    destruct (_clip _ _) as [c2|] eqn:C2 in D; [|discriminate]. injection D as <-.
    apply flat_clip in C1, C2. apply balanced_fill in Up.
    replace (_ :: _) with ((Save :: (c1 ++ upper) ++ [Restore]) ++ (Save :: (c2 ++ lower) ++ [Restore]))%list.
    + apply balanced_app; apply balanced_saved, balanced_app; auto using balanced_flat.
    + cbn [app]. rewrite <- ?app_assoc. cbn [app]. rewrite <- ?app_assoc. reflexivity.
  - injection D as <-. now apply balanced_saved.
Qed.
End Balanced.

(** *** Examples *)
#[local] Instance demo_math : MathLib :=
  {| math_pow := fun x _ => x; math_log10 := fun x => x; math_sin := fun x => x; math_cos := fun x => x; math_atan2 := fun x _ => x |}.
Definition demo_scale : scale := Linear (mkLinear 100 0 (fun _ => 50) (Some 80) false)%js.
Definition demo_fill_line : styled := mkStyled (mkLine LineElementFacts.demo_points
  (mkOptions None 0 false 0 true Segments.NoGaps false 2)%js false false false false None None false) None "".
Definition demo_source (visible : bool) (fillOption : value) : option source :=
  Some (mkSource visible 0 NoFill "x" demo_scale demo_fill_line (VStr "red") fillOption).
(** Dataset 0 fills to 1, and the hidden datasets 1 and 2 to each other; 3 fills to the
    one before the hidden one before it. *)
Definition demo_sources : sources :=
  [demo_source true (VNum 1%js); demo_source false (VStr "+1"); demo_source false (VStr "-1");
   demo_source true (VStr "-1"); demo_source true (VStr "-1"); demo_source true (VStr "origin")].
Lemma demo_fills : option_map (List.map (option_map sfill)) (afterDatasetsUpdate demo_sources true)
  = Some [Some NoFill; Some NoFill; Some NoFill; Some NoFill; Some (Dataset 3); Some (Target "origin")].
Proof. vm_compute. reflexivity. Qed.

(** Drawn before the chart or before its datasets, a line whose fill is off is filled all
    the same, to the base of its scale. *)
Lemma fill_off_is_drawn :
  match afterDatasetsUpdate [demo_source true (VBool false)] true with
  | Some [Some s] =>
      let draw := draw_sources (fun _ => None) [] (Interaction.mkRect 0 0 100 100)%js (fun _ => None) (fun _ _ => true) in
      sfill s = NoFill /\
      match draw [Some s] with Some c => existsb (fun x => match x with Fill => true | _ => false end) c = true | None => False end /\
      beforeDatasetDraw (fun _ => None) [] (Interaction.mkRect 0 0 100 100)%js (fun _ => None) (fun _ _ => true)
        "beforeDatasetDraw" (Some s) = Some []
  | _ => False
  end.
Proof. vm_compute. repeat split. Qed.
End FillerFacts.
