(* ===== verification/Decimation.v ===== *)
(** The decimation plugin of webui/public/chart.js: largest-triangle and min-max
    sampling of line data, and the swapping of a dataset's [data] property. *)
From Stdlib Require Import ZArith Lia Bool List Ascii String.
From Stdlib Require Import SpecFloat.
From stdpp Require Import base list.
From S2P Require Import Prelude JsNumber JsString JsArray JsValue HelpersMath Collections.
Import ListNotations.
Open Scope Z_scope.

Module Decimation.
Import MathH.

Record dpoint := mkD { dx : num; dy : num }.

(** ** Largest triangle, three buckets *)

(** The sums over [data[a..b-1]]; None: an index outside the data throws. *)
Fixpoint sum_range (n : nat) (data : list dpoint) (j : Z) (acc : num * num) : option (num * num) :=
  match n with
  | O => Some acc
  | S n' => match nthZ data j with
            | Some p => sum_range n' data (j + 1) (fst acc + dx p, snd acc + dy p)%js
            | None => None
            end
  end.
Definition triangle (A p : dpoint) (avgX avgY : num) : num :=
  (0.5 * Num.abs ((dx A - avgX) * (dy p - dy A) - (dx A - dx p) * (avgY - dy A)))%js.
Record best := mkBest { maxArea : num; maxAreaPoint : option dpoint; nextA : option Z }.
Fixpoint best_in (n : nat) (data : list dpoint) (j : Z) (A : dpoint) (avgX avgY : num) (b : best) : option best :=
  match n with
  | O => Some b
  | S n' => match nthZ data j with
            | Some p =>
                let area := triangle A p avgX avgY in
                best_in n' data (j + 1) A avgX avgY
                  (if Num.lt (maxArea b) area then mkBest area (Some p) (Some j) else b)
            | None => None
            end
  end.
(** [Math.floor(i * bucketWidth) + 1]. *)
Definition bucket (bucketWidth : num) (i : Z) : Z :=
  Num.trunc_Z (Num.floor (Num.of_Z i * bucketWidth)%js) + 1.
(** The buckets from [i]; [maxAreaPoint] keeps its value when no area is larger
    than -1, that is when every area is NaN, and so does [nextA], which is
    undefined before the first one: reading [data[undefined].x] then throws. *)
Fixpoint lttb_loop (n : nat) (data : list dpoint) (start count : Z) (bucketWidth : num) (i : Z) (a next : option Z)
  (mp : option dpoint) (decimated : list (option dpoint)) : option (list (option dpoint)) :=
  match n with
  | O => Some decimated
  | S n' =>
      let avgRangeStart := bucket bucketWidth (i + 1) + start in
      let avgRangeEnd := Z.min (bucket bucketWidth (i + 2)) count + start in
      let len := Num.of_Z (avgRangeEnd - avgRangeStart) in
      match sum_range (Z.to_nat (avgRangeEnd - avgRangeStart)) data avgRangeStart (0, 0)%js,
            match a with Some k => nthZ data k | None => None end with
      | Some (sx, sy), Some A =>
          let rangeOffs := bucket bucketWidth i + start in
          let rangeTo := Z.min (bucket bucketWidth (i + 1)) count + start in
          match best_in (Z.to_nat (rangeTo - rangeOffs)) data rangeOffs A (sx / len)%js (sy / len)%js
                  (mkBest (-1)%js mp next) with
          | Some b => lttb_loop n' data start count bucketWidth (i + 1) (nextA b) (nextA b) (maxAreaPoint b)
                        (decimated ++ [maxAreaPoint b])
          | None => None
          end
      | _, _ => None
      end
  end.
(** [samples] is [options.samples || availableWidth], a whole number here. *)
Definition lttbDecimation (data : list dpoint) (start count samples : Z) : option (list (option dpoint)) :=
  if count <=? samples then Some (List.map Some (slice data start (start + count)))
  else
    let bucketWidth := (Num.of_Z (count - 2) / Num.of_Z (samples - 2))%js in
    match nthZ data start with
    | Some p =>
        match lttb_loop (Z.to_nat (samples - 2)) data start count bucketWidth 0 (Some start) None None [Some p] with
        | Some l => Some (l ++ [nthZ data (start + count - 1)])
        | None => None
        end
    | None => None
    end.

(** ** Minimum and maximum per pixel *)
Record mm := mkMM {
  avgX : num; countX : Z; prevX : option Z; minIndex : Z; maxIndex : Z; startIndex : option Z;
  minY : num; maxY : num; decimated : list dpoint }.

Definition is_idx (o : option Z) (i : Z) : bool := match o with Some j => i =? j | None => false end.
(** What is pushed when a new pixel column starts at [i]. *)
Definition flush (data : list dpoint) (st : mm) (i : Z) : list dpoint :=
  let lastIndex := i - 1 in
  let at_ k := match nthZ data k with Some p => [mkD (avgX st) (dy p)] | None => [] end in
  let mids :=
    match startIndex st with
    | Some _ =>
        let i1 := Z.min (minIndex st) (maxIndex st) in
        let i2 := Z.max (minIndex st) (maxIndex st) in
        (if negb (is_idx (startIndex st) i1) && negb (i1 =? lastIndex) then at_ i1 else []) ++
        (if negb (is_idx (startIndex st) i2) && negb (i2 =? lastIndex) then at_ i2 else [])
    | None => []
    end in
  mids ++
  (if (0 <? i) && negb (is_idx (startIndex st) lastIndex)
   then match nthZ data lastIndex with Some p => [p] | None => [] end else []).
Definition mm_step (data : list dpoint) (column : num -> Z) (st : mm) (ip : Z * dpoint) : mm :=
  let '(i, point) := ip in
  let y := dy point in
  let truncX := column (dx point) in
  if is_idx (prevX st) truncX then
    let '(mi, my, xi, xy) :=
      if Num.lt y (minY st) then (i, y, maxIndex st, maxY st)
      else if Num.lt (maxY st) y then (minIndex st, minY st, i, y)
      else (minIndex st, minY st, maxIndex st, maxY st) in
    let ax := ((Num.of_Z (countX st) * avgX st + dx point) / Num.of_Z (countX st + 1))%js in
    mkMM ax (countX st + 1) (prevX st) mi xi (startIndex st) my xy (decimated st)
  else
    mkMM (avgX st) 0 (Some truncX) i i (Some i) y y (decimated st ++ flush data st i ++ [point]).
Definition indexed (data : list dpoint) (start count : Z) : list (Z * dpoint) :=
  imap (fun k p => (start + Z.of_nat k, p)) (slice data start (start + count)).
Definition mm_init : mm := mkMM 0%js 0 None 0 0 None Num.nan Num.nan [].
(** The column of a coordinate: [(x - xMin) / dx * availableWidth | 0]. *)
Definition column_of (xMin dx availableWidth x : num) : Z :=
  Num.to_int32 ((x - xMin) / dx * availableWidth)%js.
Definition minMaxDecimation (data : list dpoint) (start count : Z) (availableWidth : num) : option (list dpoint) :=
  match nthZ data start, nthZ data (start + count - 1) with
  | Some a, Some b =>
      Some (decimated (fold_left (mm_step data (column_of (dx a) (dx b - dx a)%js availableWidth))
                         (indexed data start count) mm_init))
  | _, _ => None
  end.

(** ** The dataset's property

    [data] is an ordinary property, or an accessor that reads [_decimated] and
    writes [_data]; redefining an accessor with a value gives a property that
    cannot be written. *)
Inductive data_prop := Plain (d : list dpoint) (writable : bool) | Accessor.
Record dataset := mkDataset { data : data_prop; _data : option (list dpoint);
  _decimated : option (list (option dpoint)) }.

Definition read_data (ds : dataset) : option (list (option dpoint)) :=
  match data ds with Plain d _ => Some (List.map Some d) | Accessor => _decimated ds end.
(** [dataset.data = d] in sloppy code: ignored on a read-only property. *)
Definition assign_data (ds : dataset) (d : list dpoint) : dataset :=
  match data ds with
  | Plain _ true => mkDataset (Plain d true) (_data ds) (_decimated ds)
  | Plain _ false => ds
  | Accessor => mkDataset Accessor (Some d) (_decimated ds)
  end.
(** [Object.defineProperty(dataset, 'data', {value})] keeps [writable] of a data
    property and makes it false when it replaces an accessor. *)
Definition define_value (p : data_prop) (d : list dpoint) : data_prop :=
  match p with Plain _ w => Plain d w | Accessor => Plain d false end.
Definition cleanDecimatedDataset (ds : dataset) : dataset :=
  match _decimated ds with
  | Some _ => mkDataset (define_value (data ds) (match _data ds with Some d => d | None => [] end)) None None
  | None => ds
  end.

(** The visible part of the data: [min] and [max] where the user set them. *)
Definition getStartAndCountOfVisiblePointsSimplified (points : list dpoint) (min max : option num) : Z * Z :=
  let pointCount := lengthZ points in
  let clamp v lo hi := Z.max lo (Z.min hi v) in
  let start := match min with
    | Some m => clamp (Collections.lo (Collections._lookupByKey points dx m)) 0 (pointCount - 1) | None => 0 end in
  let count := match max with
    | Some m => clamp (Collections.hi (Collections._lookupByKey points dx m) + 1) start pointCount - start
    | None => pointCount - start end in
  (start, count).

Inductive algorithm := Lttb (samples : option Z) | MinMax | Unknown.
(** What the plugin reads of the chart and the dataset: the resolved index axis,
    whether it is a line on a linear or time scale without parsing. *)
Record env := mkEnv { indexY : bool; isLine : bool; scaleOk : bool; parsing : bool;
  umin : option num; umax : option num; availableWidth : Z; threshold : Z }.

(** [beforeElementsUpdate] for one dataset; None: an unsupported algorithm, or data
    outside the dataset, throws.  The accessor always comes with [_data]. *)
Definition beforeElementsUpdate (enabled : bool) (alg : algorithm) (e : env) (ds : dataset) : option dataset :=
  if negb enabled then Some (cleanDecimatedDataset ds)
  else
    let d := match _data ds with Some d => d | None => match data ds with Plain d _ => d | Accessor => [] end end in
    if indexY e || negb (isLine e) || negb (scaleOk e) || parsing e then Some ds
    else
      let '(start, count) := getStartAndCountOfVisiblePointsSimplified d (umin e) (umax e) in
      let th := if threshold e =? 0 then 4 * availableWidth e else threshold e in
      if count <=? th then Some (cleanDecimatedDataset ds)
      else
        let ds := match _data ds with
                  | None => mkDataset Accessor (Some d) (_decimated ds)
                  | Some _ => ds end in
        let r := match alg with
          | Lttb s => lttbDecimation d start count
                        (match s with Some s => if s =? 0 then availableWidth e else s | None => availableWidth e end)
          | MinMax => match minMaxDecimation d start count (Num.of_Z (availableWidth e)) with
                      | Some l => Some (List.map Some l) | None => None end
          | Unknown => None
          end in
        match r with
        | Some l => Some (mkDataset (data ds) (_data ds) (Some l))
        | None => None
        end.
End Decimation.

(** ** Facts *)
Module DecimationFacts.
Import Num NumFacts MathH Decimation.

(** *** Sampling *)

Lemma best_in_point n : forall data j A ax ay b b',
  (forall p, maxAreaPoint b = Some p -> In p data) ->
  best_in n data j A ax ay b = Some b' -> forall p, maxAreaPoint b' = Some p -> In p data.
Proof.
  induction n as [|n IH]; intros data j A ax ay b b' B; cbn [best_in]; [now intros [= <-]|].
  destruct (nthZ data j) as [p|] eqn:N; [|discriminate]. intros E. eapply IH; [|exact E].
  destruct (lt _ _); [|exact B]. cbn. intros q [= <-].
  unfold nthZ in N. destruct (j <? 0); [discriminate|]. eapply nth_error_In; eauto.
Qed.

Lemma lttb_loop_spec n : forall data start count w i a nx mp acc l,
  (forall p, mp = Some p -> In p data) ->
  lttb_loop n data start count w i a nx mp acc = Some l ->
  exists m, l = acc ++ m /\ List.length m = n /\ (forall p, In (Some p) m -> In p data).
Proof.
  induction n as [|n IH]; intros data start count w i a nx mp acc l M; cbn [lttb_loop].
  - intros [= <-]. exists []. rewrite app_nil_r. split; [reflexivity|]. split; [reflexivity|contradiction].
  - destruct (sum_range _ _ _ _) as [[sx sy]|]; [|discriminate].
    destruct (match a with Some k => nthZ data k | None => None end) as [A|]; [|discriminate].
    destruct (best_in _ _ _ _ _ _ _) as [b|] eqn:B; [|discriminate]. intros E.
    pose proof (best_in_point _ data _ _ _ _ (mkBest (-1)%js mp nx) b M B) as Bp.
    destruct (IH _ _ _ _ _ _ _ _ _ _ Bp E) as (m & -> & L & I). exists (maxAreaPoint b :: m).
    rewrite <- app_assoc. split; [reflexivity|]. split; [cbn; now rewrite L|].
    intros p [X|X]; auto.
Qed.

(** When it samples, [lttbDecimation] gives exactly the requested number of
    points (at least the two ends), the first and the last visible point among
    them, and every point it gives is one of the data. *)
Theorem lttb_samples (data : list dpoint) start count samples l :
  samples < count -> lttbDecimation data start count samples = Some l ->
  lengthZ l = Z.max 2 samples /\ head l = Some (nthZ data start) /\
  List.last l None = nthZ data (start + count - 1) /\
  (forall p, In (Some p) l -> In p data).
Proof.
  intros L E. unfold lttbDecimation in E. destruct (Z.leb_spec count samples); [lia|].
  destruct (nthZ data start) as [p0|] eqn:S; [|discriminate].
  destruct (lttb_loop _ _ _ _ _ _ _ _ _ _) as [m0|] eqn:Lp; [|discriminate]. injection E as <-.
  apply lttb_loop_spec in Lp as (m & -> & Lm & I); [|discriminate].
  assert (At : forall i p, nthZ data i = Some p -> In p data).
  { intros i p N. unfold nthZ in N. destruct (i <? 0); [discriminate|]. eapply nth_error_In; eauto. }
  split; [|split; [|split]].
  - unfold lengthZ. rewrite !List.length_app. cbn [List.length]. rewrite Lm. lia.
  - reflexivity.
  - apply List.last_last.
  - intros p J. rewrite !in_app_iff in J. cbn in J. destruct J as [[[[= <-]|[]]|J]|[J|[]]]; eauto.
Qed.

(** *** Extremes *)

Section Peaks.
Variables (data : list dpoint) (column : num -> Z).
Hypothesis numbers : forall p, In p data -> is_nan (dy p) = false.

(** The sampled points keep the extremes of the point's column. *)
Definition covered (out : list dpoint) (p : dpoint) : Prop :=
  exists u v, In u out /\ In v out /\ le (dy u) (dy p) = true /\ le (dy p) (dy v) = true.

(** The state when the points [start..k-1] have been read; [s] starts the column. *)
Definition mm_inv (start k : Z) (st : mm) : Prop :=
  exists s p0, startIndex st = Some s /\ start <= s < k /\ nthZ data s = Some p0 /\ In p0 (decimated st) /\
    prevX st = Some (column (dx p0)) /\
    (forall i p, start <= i < s -> nthZ data i = Some p -> covered (decimated st) p) /\
    (forall i p, s <= i < k -> nthZ data i = Some p -> column (dx p) = column (dx p0) /\
        le (minY st) (dy p) = true /\ le (dy p) (maxY st) = true) /\
    (exists u, s <= minIndex st < k /\ nthZ data (minIndex st) = Some u /\ minY st = dy u) /\
    (exists v, s <= maxIndex st < k /\ nthZ data (maxIndex st) = Some v /\ maxY st = dy v).

Lemma covered_mono a b p : (forall q, In q a -> In q b) -> covered a p -> covered b p.
Proof. intros S (u & v & U & V & ?). exists u, v. auto. Qed.

Lemma num_of i p : nthZ data i = Some p -> is_nan (dy p) = false.
Proof. unfold nthZ. destruct (i <? 0); [discriminate|]. intros N. apply numbers. eapply nth_error_In; eauto. Qed.

(** Flushing a column writes its least and greatest value. *)
Lemma flush_has st s k p0 i u : startIndex st = Some s -> 0 <= s -> s < k -> nthZ data s = Some p0 ->
  In p0 (decimated st) -> (i = minIndex st \/ i = maxIndex st) -> s <= i < k -> nthZ data i = Some u ->
  exists q, In q (decimated st ++ flush data st k) /\ dy q = dy u.
Proof.
  intros S L0 Lk N P I Li Nu. unfold flush. rewrite S. cbn [is_idx].
  destruct (Z.eq_dec i s) as [->|Ns].
  { exists p0. rewrite Nu in N. injection N as ->. split; [apply in_app_iff; now left|reflexivity]. }
  destruct (Z.eq_dec i (k - 1)) as [->|Nk].
  { exists u. split; [|reflexivity]. rewrite !in_app_iff. right. right. rewrite Nu.
    destruct (Z.ltb_spec 0 k); [|lia]. destruct (Z.eqb_spec (k - 1) s); [lia|]. now left. }
  exists (mkD (avgX st) (dy u)). split; [|reflexivity]. rewrite !in_app_iff. right. left.
  destruct (Z.le_gt_cases (minIndex st) (maxIndex st)) as [O|O].
  - rewrite Z.min_l, Z.max_r by lia. destruct I as [I|I]; rewrite <- I; [left|right];
      rewrite (proj2 (Z.eqb_neq i s) Ns), (proj2 (Z.eqb_neq i (k - 1)) Nk), Nu; now left.
  - rewrite Z.min_r, Z.max_l by lia. destruct I as [I|I]; rewrite <- I; [right|left];
      rewrite (proj2 (Z.eqb_neq i s) Ns), (proj2 (Z.eqb_neq i (k - 1)) Nk), Nu; now left.
Qed.

Lemma mm_step_inv start k st p : 0 <= start -> nthZ data k = Some p -> mm_inv start k st ->
  mm_inv start (k + 1) (mm_step data column st (k, p)).
Proof.
  intros L0 N (s & p0 & S & Ls & N0 & P0 & Px & Cov & Cur & (u & Lu & Nu & Eu) & (v & Lv & Nv & Ev)).
  pose proof (num_of _ _ N) as Np. pose proof (num_of _ _ Nu) as Nnu. pose proof (num_of _ _ Nv) as Nnv.
  unfold mm_step. rewrite Px. cbn [is_idx]. destruct (Z.eqb_spec (column (dx p)) (column (dx p0))) as [E|E].
  - set (t := if lt (dy p) (minY st) then _ else _).
    assert (T : let '(mi, my, xi, xy) := t in
      le my (dy p) = true /\ le (dy p) xy = true /\ le my (minY st) = true /\ le (maxY st) xy = true /\
      (exists u, s <= mi < k + 1 /\ nthZ data mi = Some u /\ my = dy u) /\
      (exists v, s <= xi < k + 1 /\ nthZ data xi = Some v /\ xy = dy v)).
    { assert (Mn : is_nan (minY st) = false) by now rewrite Eu. assert (Mx : is_nan (maxY st) = false) by now rewrite Ev.
      assert (MM : le (minY st) (maxY st) = true).
      { destruct (Cur s p0) as (_ & C1 & C2); [lia|auto|]. eapply le_trans; eauto. }
      unfold t. destruct (lt (dy p) (minY st)) eqn:A; [|destruct (lt (maxY st) (dy p)) eqn:B].
      - split; [now apply le_refl|]. split; [apply lt_le in A; eapply le_trans; eauto|].
        split; [now apply lt_le|]. split; [now apply le_refl|]. split; [exists p|exists v]; repeat split; auto; lia.
      - split; [rewrite le_not_lt by auto; now rewrite A|]. split; [now apply le_refl|].
        split; [now apply le_refl|]. split; [now apply lt_le|]. split; [exists u|exists p]; repeat split; auto; lia.
      - split; [rewrite le_not_lt by auto; now rewrite A|]. split; [rewrite le_not_lt by auto; now rewrite B|].
        split; [now apply le_refl|]. split; [now apply le_refl|]. split; [exists u|exists v]; repeat split; auto; lia. }
    clearbody t. destruct t as [[[mi my] xi] xy]. destruct T as (T1 & T2 & T3 & T4 & T5 & T6).
    exists s, p0. cbn [startIndex decimated prevX minY maxY minIndex maxIndex].
    split; [auto|]. split; [lia|]. split; [auto|]. split; [auto|]. split; [auto|]. split; [auto|]. split; [|auto].
    intros i q Li Nq. destruct (Z.eq_dec i k) as [->|Nk].
    + rewrite N in Nq. injection Nq as <-. auto.
    + destruct (Cur i q) as (C1 & C2 & C3); [lia|auto|]. split; [auto|]. split; eapply le_trans; eauto.
  - exists k, p. cbn [startIndex decimated prevX minY maxY minIndex maxIndex].
    split; [auto|]. split; [lia|]. split; [auto|]. split; [rewrite !in_app_iff; right; right; now left|].
    split; [auto|]. split; [|split; [|split; exists p; repeat split; auto; lia]].
    + intros i q Li Nq. destruct (Z.lt_ge_cases i s) as [X|X].
      * eapply covered_mono; [|apply (Cov i q); [lia|auto]]. intros r. rewrite in_app_iff. tauto.
      * destruct (Cur i q) as (_ & C2 & C3); [lia|auto|].
        destruct (flush_has st s k p0 (minIndex st) u) as (a & Ia & Ea); auto; try lia.
        destruct (flush_has st s k p0 (maxIndex st) v) as (b & Ib & Eb); auto; try lia.
        exists a, b. rewrite Ea, Eb, <- Eu, <- Ev.
        assert (Sub : forall r, In r (decimated st ++ flush data st k) -> In r (decimated st ++ flush data st k ++ [p])).
        { intros r. rewrite !in_app_iff. tauto. }
        auto.
    + intros i q Li Nq. replace i with k in Nq by lia. rewrite N in Nq. injection Nq as <-.
      split; [auto|]. split; now apply le_refl.
Qed.

Lemma indexed_snoc start n p : 0 <= start -> nthZ data (start + Z.of_nat n) = Some p ->
  indexed data start (Z.of_nat (S n)) = indexed data start (Z.of_nat n) ++ [(start + Z.of_nat n, p)].
Proof.
  intros L N. unfold indexed, slice.
  replace (Z.to_nat (start + Z.of_nat (S n) - start)) with (S n) by lia.
  replace (Z.to_nat (start + Z.of_nat n - start)) with n by lia.
  unfold nthZ in N. destruct (Z.ltb_spec (start + Z.of_nat n) 0); [lia|].
  replace (Z.to_nat (start + Z.of_nat n)) with (Z.to_nat start + n)%nat in N by lia.
  rewrite <- List.nth_error_skipn in N. set (l := skipn (Z.to_nat start) data) in *.
  assert (E : firstn (S n) l = firstn n l ++ [p]).
  { clearbody l. clear -N. revert l N. induction n as [|n IH]; intros [|a l] N; cbn in *; try discriminate.
    - now injection N as ->.
    - f_equal. now apply IH. }
  rewrite E, imap_app. f_equal. cbn. f_equal. f_equal. rewrite List.length_firstn.
  assert (n < List.length l)%nat by (apply nth_error_Some; congruence). lia.
Qed.

Lemma mm_peaks start count :
  0 <= start -> 0 < count -> start + count <= lengthZ data ->
  let out := decimated (fold_left (mm_step data column) (indexed data start count) mm_init) in
  exists b p0, start <= b < start + count /\ nthZ data b = Some p0 /\ In p0 out /\
    (forall i p, start <= i < b -> nthZ data i = Some p -> covered out p) /\
    (forall i p, b <= i < start + count -> nthZ data i = Some p -> column (dx p) = column (dx p0)).
Proof.
  intros L0 Lc Le.
  assert (I : forall n, (0 < n)%nat -> start + Z.of_nat n <= lengthZ data ->
    mm_inv start (start + Z.of_nat n) (fold_left (mm_step data column) (indexed data start (Z.of_nat n)) mm_init)).
  { induction n as [|n IH]; intros Hn Ln; [lia|].
    destruct (nthZ_Some data (start + Z.of_nat n)) as [p N]; [lia|].
    rewrite (indexed_snoc start n p) by auto. rewrite fold_left_app. cbn [fold_left].
    replace (start + Z.of_nat (S n)) with (start + Z.of_nat n + 1) by lia.
    destruct n as [|n].
    - replace (start + Z.of_nat 0) with start in * by lia. change (Z.of_nat 0) with 0.
      assert (E0 : indexed data start 0 = []).
      { unfold indexed, slice. now replace (Z.to_nat (start + 0 - start)) with 0%nat by lia. }
      rewrite E0. cbn [fold_left]. unfold mm_step. cbn [is_idx prevX mm_init].
      pose proof (num_of _ _ N) as Np. exists start, p. cbn [startIndex decimated prevX minY maxY minIndex maxIndex].
      split; [auto|]. split; [lia|]. split; [auto|]. split; [rewrite !in_app_iff; right; right; now left|].
      split; [auto|]. split; [intros; lia|]. split; [|split; exists p; repeat split; auto; lia].
      intros i q Li Nq. replace i with start in Nq by lia. rewrite N in Nq. injection Nq as <-.
      split; [auto|]. split; now apply le_refl.
    - apply mm_step_inv; auto. apply IH; lia. }
  specialize (I (Z.to_nat count)). rewrite Z2Nat.id in I by lia.
  destruct I as (b & p0 & _ & Lb & Nb & Pb & _ & Cov & Cur & _); [lia|lia|].
  exists b, p0. split; [auto|]. split; [auto|]. split; [auto|]. split; [exact Cov|].
  intros i p Li N. now apply (Cur i p).
Qed.
End Peaks.

(** Min-max decimation succeeds on visible points and keeps the peaks: for
    every visible point before the last pixel column there are sampled points at
    least as low and at least as high; the points from [b] on all fall in that last
    column, whose first point is sampled. *)
Theorem minMax_keeps_peaks data start count availableWidth :
  (forall p, In p data -> is_nan (dy p) = false) ->
  0 <= start -> 0 < count -> start + count <= lengthZ data ->
  exists out first last, minMaxDecimation data start count availableWidth = Some out /\
    nthZ data start = Some first /\ nthZ data (start + count - 1) = Some last /\
    let column := column_of (dx first) (dx last - dx first)%js availableWidth in
    exists b p0, start <= b < start + count /\ nthZ data b = Some p0 /\ In p0 out /\
      (forall i p, start <= i < b -> nthZ data i = Some p -> covered out p) /\
      (forall i p, b <= i < start + count -> nthZ data i = Some p -> column (dx p) = column (dx p0)).
Proof.
  intros N L C E. destruct (nthZ_Some data start) as [first F]; [lia|].
  destruct (nthZ_Some data (start + count - 1)) as [last T]; [lia|].
  eexists _, first, last. unfold minMaxDecimation. rewrite F, T. split; [reflexivity|]. split; [reflexivity|].
  split; [reflexivity|]. cbn zeta. now apply mm_peaks.
Qed.

(** *** The property swap *)

(** Decimating a dataset and switching decimation off again gives the
    original data back, but the property has become read-only: what is assigned
    to [dataset.data] afterwards is lost. *)
Theorem clean_restores_but_locks e alg d ds1 d' :
  beforeElementsUpdate true alg e (mkDataset (Plain d true) None None) = Some ds1 ->
  data ds1 = Accessor ->
  let ds2 := cleanDecimatedDataset ds1 in
  read_data ds2 = Some (List.map Some d) /\ _data ds2 = None /\ _decimated ds2 = None /\
  read_data (assign_data ds2 d') = Some (List.map Some d).
Proof.
  unfold beforeElementsUpdate. cbn [negb _data data]. intros B A.
  destruct (_ || parsing e); [injection B as <-; discriminate|].
  destruct (getStartAndCountOfVisiblePointsSimplified _ _ _) as [start count].
  destruct (count <=? _); [injection B as <-; discriminate|].
  match type of B with match ?r with Some _ => _ | None => _ end = _ => destruct r as [l|]; [|discriminate] end.
  injection B as <-. cbn. auto.
Qed.

Definition demo_points : list dpoint :=
  [mkD 0%js 1%js; mkD 1%js 5%js; mkD 2%js 9%js; mkD 3%js 0%js; mkD 40%js 3%js; mkD 80%js 7%js; mkD 100%js 4%js].
(** The third point is the highest: a point at least as high is sampled. *)
Lemma minMax_keeps_peaks_witness :
  exists out, minMaxDecimation demo_points 0 7 10%js = Some out /\ exists u, In u out /\ le 9%js (dy u) = true.
Proof.
  destruct (minMax_keeps_peaks demo_points 0 7 10%js) as (out & first & last & M & F & T & b & p0 & B & Nb & I & Cv & Co).
  - intros p I. repeat (destruct I as [<-|I]; [reflexivity|]). contradiction.
  - lia.
  - lia.
  - vm_compute. discriminate.
  - exists out. split; [exact M|]. destruct (Z.lt_ge_cases 2 b) as [L|L].
    + destruct (Cv 2 (mkD 2%js 9%js)) as (u & v & _ & Iv & _ & Lv); [lia|reflexivity|]. exists v. auto.
    + exfalso. specialize (Co 6 _ ltac:(lia) eq_refl). injection F as <-. injection T as <-.
      assert (b = 0 \/ b = 1 \/ b = 2) as [->|[->| ->]] by lia; injection Nb as <-; vm_compute in Co; discriminate.
Defined.
(** The last column is not closed: its highest point and the end of the line are lost. *)
Lemma minMax_last_column_lost :
  minMaxDecimation [mkD 0%js 0%js; mkD 100%js 1%js; mkD 100%js 9%js; mkD 100%js 2%js] 0 4 10%js =
    Some [mkD 0%js 0%js; mkD 100%js 1%js].
Proof. vm_compute. reflexivity. Qed.
End DecimationFacts.
