(* ===== verification/Dataset.v ===== *)
(** The data side of webui/public/chart.js' [DatasetController]: parsing into
    numbers, the sorted flag, stacking, and the range of a scale. *)
From Stdlib Require Import ZArith Lia Bool List Ascii String Sorted.
From Stdlib Require Import SpecFloat.
From stdpp Require Import base list.
From S2P Require Import Prelude JsNumber JsString JsArray JsValue NumExact HelpersCore HelpersMath Collections.
Import ListNotations.
Open Scope Z_scope.

Module Dataset.
Import Obj Js Core.

(** ** Clipping *)
Record sides := mkSides { top : value; right : value; bottom : value; left : value; disabled : bool }.
Definition toClip (v : value) : sides :=
  match v with
  | VObj _ => mkSides (index v "top") (index v "right") (index v "bottom") (index v "left") false
  | _ => mkSides v v v v (match v with VBool false => true | _ => false end)
  end.
(** [scaleClip] of the scale's options, which are absent for no scale. *)
Definition scaleClip (opts : value) (allowedOverflow : value) : value * value :=
  let min := if is_undefined (index opts "min") then allowedOverflow else VNum 0%js in
  let max := if is_undefined (index opts "max") then allowedOverflow else VNum 0%js in
  if truthy (index opts "reverse") then (max, min) else (min, max).
Definition defaultClip (xOpts yOpts allowedOverflow : value) : option (value * value * value * value) :=
  match allowedOverflow with
  | VBool false => None
  | _ => let '(xs, xe) := scaleClip xOpts allowedOverflow in
         let '(ys, ye) := scaleClip yOpts allowedOverflow in
         Some (ye, xe, ys, xs)
  end.

(** ** Parsed data and stacks *)

(** A coordinate; None is null. *)
Definition coordinate := option num.
(** The key of a stack object: the stack and the index value as a property name. *)
Definition stack_key := (string * string)%type.
Record item := mkItem { cx : coordinate; cy : coordinate; stack_x : option stack_key; stack_y : option stack_key }.
Definition on (x_axis : bool) (i : item) : coordinate := if x_axis then cx i else cy i.
Definition stack_of (x_axis : bool) (i : item) : option stack_key := if x_axis then stack_x i else stack_y i.
Definition set_stack (x_axis : bool) (k : stack_key) (i : item) : item :=
  if x_axis then mkItem (cx i) (cy i) (Some k) (stack_y i) else mkItem (cx i) (cy i) (stack_x i) (Some k).

(** A stack: the value of each dataset that takes part, and the datasets drawn
    last on the positive and the negative side. *)
Record stack := mkStack { values : list (nat * coordinate); s_top : option nat; s_bottom : option nat }.
Definition stacks := list (stack_key * stack).

Definition key_eqb (a b : stack_key) : bool := String.eqb (fst a) (fst b) && String.eqb (snd a) (snd b).
Definition vget (l : list (nat * coordinate)) (d : nat) : option coordinate :=
  match List.find (fun p => Nat.eqb d (fst p)) l with Some (_, v) => Some v | None => None end.
Fixpoint vput (l : list (nat * coordinate)) (d : nat) (v : coordinate) : list (nat * coordinate) :=
  match l with
  | [] => [(d, v)]
  | (e, u) :: r => if Nat.eqb d e then (e, v) :: r else (e, u) :: vput r d v
  end.
Definition sget (ss : stacks) (k : stack_key) : option stack :=
  match List.find (fun p => key_eqb k (fst p)) ss with Some (_, s) => Some s | None => None end.
Fixpoint sput (ss : stacks) (k : stack_key) (s : stack) : stacks :=
  match ss with
  | [] => [(k, s)]
  | (j, t) :: r => if key_eqb k j then (j, s) :: r else (j, t) :: sput r k s
  end.

Definition isStacked (hasScale : bool) (stacked : value) (metaStack : value) : bool :=
  let stacked := if hasScale then stacked else Undefined in
  truthy stacked || (is_undefined stacked && negb (is_undefined metaStack)).
Definition getStackKey (indexScale valueScale : string) (metaStack : value) (type : string) : string :=
  (indexScale ++ "." ++ valueScale ++ "." ++ (if truthy metaStack then to_str metaStack else type))%string.
Definition coord_name (c : coordinate) : string := match c with Some x => NumStr.print x | None => "null" end.

(** [convertObjectDataToArray]: one point per key. *)
Definition convertObjectDataToArray (data : obj) : list (string * value) := List.map (fun kv => (fst kv, snd kv)) data.

Record stack_mode := mkMode { single : bool; all : bool }.
(** [applyStack]; None is undefined, for a null value. *)
Fixpoint apply_from (keys : list nat) (vals : list (nat * coordinate)) (dsIndex : nat) (m : stack_mode) (value : num) : num :=
  match keys with
  | [] => value
  | k :: rest =>
      if Nat.eqb k dsIndex then
        if all m then apply_from rest vals dsIndex m value else value
      else
        let value := match vget vals k with
          | Some (Some other) =>
              if Num.is_finite other && (single m || Num.eq value 0%js || Num.eq (Num.sign value) (Num.sign other))
              then (value + other)%js else value
          | _ => value end in
        apply_from rest vals dsIndex m value
  end.
Definition applyStack (keys : list nat) (vals : list (nat * coordinate)) (value : coordinate) (dsIndex : nat)
  (m : stack_mode) : option num :=
  match value with None => None | Some v => Some (apply_from keys vals dsIndex m v) end.

(** The visible datasets of a value scale and type, in order. *)
Definition getLastIndexInStack (s : list (nat * coordinate)) (metas : list nat) (positive : bool) : option nat :=
  List.find (fun d => match vget s d with
                      | Some (Some v) => if positive then Num.lt 0%js v else Num.lt v 0%js
                      | _ => false end) (List.rev metas).

(** One item of [updateStacks], for the value axis [vx]. *)
Definition update_item (key : string) (vx : bool) (datasetIndex : nat) (metas : list nat)
  (acc : stacks * list item) (i : item) : stacks * list item :=
  let '(ss, out) := acc in
  let k := (key, coord_name (on (negb vx) i)) in
  let s := match sget ss k with Some s => s | None => mkStack [] None None end in
  let v := vput (values s) datasetIndex (on vx i) in
  let s := mkStack v (getLastIndexInStack v metas true) (getLastIndexInStack v metas false) in
  (sput ss k s, out ++ [set_stack vx k i]).
Definition updateStacks (ss : stacks) (key : string) (vx : bool) (datasetIndex : nat) (metas : list nat)
  (parsed : list item) : stacks * list item :=
  fold_left (update_item key vx datasetIndex metas) parsed (ss, []).

(** [clearStacks] stops at the first item that takes no part. *)
Fixpoint clearStacks (ss : stacks) (vx : bool) (datasetIndex : nat) (items : list item) : stacks :=
  match items with
  | [] => ss
  | i :: rest =>
      match stack_of vx i with
      | Some k =>
          match sget ss k with
          | Some s =>
              match vget (values s) datasetIndex with
              | Some _ =>
                  clearStacks (sput ss k (mkStack (List.filter (fun p => negb (Nat.eqb datasetIndex (fst p))) (values s))
                                            (s_top s) (s_bottom s))) vx datasetIndex rest
              | None => ss
              end
          | None => ss
          end
      | None => ss
      end
  end.

(** ** Parsing *)

(** The scales' [parse]: a raw value at an index. *)
Section Parse.
Context (parse_i parse_v parse_x parse_y : value -> Z -> coordinate) (labels : list value) (singleScale : bool).
Variable i_is_x : bool.

Definition nth_value (l : list value) (i : Z) : value := match nthZ l i with Some v => v | None => Undefined end.
Definition mk_on (ix : bool) (i v : coordinate) : item :=
  if ix then mkItem i v None None else mkItem v i None None.
Definition rangeZ (start count : Z) : list Z := List.map (fun k => start + Z.of_nat k) (seq 0 (Z.to_nat count)).
(** [iScale.parse(labels[index], index)]; with one scale for both only the value
    is stored, under the axis they share. *)
Definition parsePrimitiveData (data : list value) (start count : Z) : list item :=
  List.map (fun index =>
    let v := parse_v (nth_value data index) index in
    if singleScale then mk_on i_is_x v None
    else mk_on i_is_x (parse_i (nth_value labels index) index) v) (rangeZ start count).
Definition parseArrayData (data : list value) (start count : Z) : list item :=
  List.map (fun index =>
    let item := nth_value data index in
    mkItem (parse_x (Js.index item "0") index) (parse_y (Js.index item "1") index) None None) (rangeZ start count).
Definition parseObjectData (xAxisKey yAxisKey : string) (data : list value) (start count : Z) : list item :=
  List.map (fun index =>
    let item := nth_value data index in
    mkItem (parse_x (resolveObjectKey item xAxisKey) index) (parse_y (resolveObjectKey item yAxisKey) index) None None)
    (rangeZ start count).

(** [meta._parsed] and [meta._sorted]. *)
Record meta := mkMeta { _parsed : list item; _sorted : bool }.
Definition lt_coord (a b : coordinate) : bool :=
  let z c := match c with Some x => x | None => 0%js end in Num.lt (z a) (z b).
(** The loop that checks the order: [prev] is missing at the start. *)
Fixpoint sorted_loop (ix : bool) (sorted : bool) (prev : option item) (parsed : list item) : bool :=
  match parsed with
  | [] => sorted
  | cur :: rest =>
      if sorted then
        let bad := match on ix cur with None => true | Some _ => false end
                   || match prev with Some p => lt_coord (on ix cur) (on ix p) | None => false end in
        sorted_loop ix (negb bad) (Some cur) rest
      else false
  end.
(** The parsed items replace [start..start+count-1] of the old ones. *)
Definition splice_at (l new : list item) (start : Z) : list item :=
  firstn (Z.to_nat start) l ++ new ++ skipn (Z.to_nat start + List.length new) l.
(** What the controller reads of its chart and meta: whether the data are parsed,
    with the keys of the two coordinates, and for stacked data the stack key, the
    dataset's index and the visible datasets of its type. *)
Record parse_env := mkEnv { parsing : bool; xAxisKey : string; yAxisKey : string;
  stacking : option (string * nat * list nat) }.
(** Data that are not parsed are read as they are. *)
Definition as_parsed (v : value) : item :=
  let c w := match w with Null => None | _ => Some (to_num w) end in
  mkItem (c (Js.index v "x")) (c (Js.index v "y")) None None.
Definition parse (e : parse_env) (m : meta) (ss : stacks) (data : list value) (start count : Z) : meta * stacks :=
  let sorted := if (start =? 0) && (count =? lengthZ data) then true else _sorted m in
  let prev := if 0 <? start then nthZ (_parsed m) (start - 1) else None in
  let stack_ parsed := match stacking e with
    | Some (key, datasetIndex, metas) =>
        updateStacks ss key (if singleScale then i_is_x else negb i_is_x) datasetIndex metas parsed
    | None => (ss, parsed) end in
  if parsing e then
    let parsed := match nth_value data start with
      | VArr _ => parseArrayData data start count
      | VObj _ => parseObjectData (xAxisKey e) (yAxisKey e) data start count
      | _ => parsePrimitiveData data start count
      end in
    let '(ss, stacked) := stack_ parsed in
    (mkMeta (splice_at (_parsed m) stacked start) (sorted_loop i_is_x sorted prev parsed), ss)
  else
    let '(ss, stacked) := stack_ (List.map as_parsed data) in (mkMeta stacked true, ss).
End Parse.

(** ** The range of a scale *)
Record range := mkRange { rmin : num; rmax : num }.
Definition full_range : range := mkRange Num.infinity (Num.opp Num.infinity).
Record user_bounds := mkUB { umin : num; umax : num; minDefined : bool; maxDefined : bool }.
Definition getUserBounds (b : user_bounds) : range :=
  mkRange (if minDefined b then umin b else Num.opp Num.infinity) (if maxDefined b then umax b else Num.infinity).

(** [stack]: the visible datasets in order when the scale is stacked. *)
Definition updateRangeFromParsed (ss : stacks) (x_axis : bool) (datasetIndex : nat) (stack : option (list nat))
  (r : range) (i : item) : range :=
  let parsedValue := on x_axis i in
  let value := match parsedValue with Some v => v | None => Num.nan end in
  let value := match stack, stack_of x_axis i with
    | Some keys, Some k =>
        match sget ss k with
        | Some s => match applyStack keys (values s) parsedValue datasetIndex (mkMode false false) with
                    | Some v => v | None => Num.nan end
        | None => value
        end
    | _, _ => value end in
  mkRange (Num.min (rmin r) value) (Num.max (rmax r) value).

Definition skipped (x_axis : bool) (other : range) (i : item) : bool :=
  let v := on x_axis i in
  let o := match on (negb x_axis) i with Some x => x | None => 0%js end in
  negb (match v with Some x => Num.is_finite x | None => false end)
  || Num.lt o (rmin other) || Num.lt (rmax other) o.

(** [getMinMax] of a scale: all items, or the first and the last that count when
    the data are sorted along the scale. *)
Definition getMinMax (ss : stacks) (x_axis : bool) (datasetIndex : nat) (stack : option (list nat))
  (other : range) (parsed : list item) (sorted : bool) : range :=
  let upd := updateRangeFromParsed ss x_axis datasetIndex stack in
  let kept := List.filter (fun i => negb (skipped x_axis other i)) parsed in
  if sorted then
    match kept with
    | [] => full_range
    | first :: _ => upd (upd full_range first) (List.last kept first)
    end
  else fold_left upd kept full_range.
Definition getAllParsedValues (x_axis : bool) (parsed : list item) : list num :=
  omap (fun i => match on x_axis i with Some v => if Num.is_finite v then Some v else None | None => None end) parsed.

End Dataset.

(** ** Facts *)
Module DatasetFacts.
Import Num NumFacts Dataset.

(** *** The sorted flag and the range *)

Definition sorted_items (ix : bool) (l : list item) : Prop :=
  StronglySorted (fun a b => exists u v, on ix a = Some u /\ on ix b = Some v /\ le u v = true) l.

Definition numeric (ix : bool) (i : item) : Prop :=
  match on ix i with Some v => is_nan v = false | None => True end.

Lemma sorted_loop_false ix prev l : sorted_loop ix false prev l = false.
Proof. destruct l; reflexivity. Qed.

(** When parsing from the start leaves the sorted flag set and no coordinate
    is NaN, the parsed items are sorted on the index axis, without nulls. *)
Theorem sorted_flag_sound ix l : List.Forall (numeric ix) l -> sorted_loop ix true None l = true ->
  sorted_items ix l /\ List.Forall (fun i => on ix i <> None) l.
Proof.
  intros N. assert (G : forall l prev, List.Forall (numeric ix) l ->
    (match prev with Some p => numeric ix p /\ on ix p <> None | None => True end) ->
    sorted_loop ix true prev l = true ->
    sorted_items ix l /\ List.Forall (fun i => on ix i <> None) l /\
    (match prev with Some p => List.Forall (fun b => exists u v, on ix p = Some u /\ on ix b = Some v /\ le u v = true) l | None => True end)).
  { clear. induction l as [|i l IH]; intros prev N P E.
    - repeat split; try constructor. destruct prev; constructor.
    - inversion N as [|? ? Ni Nl]; subst. cbn [sorted_loop] in E.
      destruct (negb _) eqn:B in E; [|rewrite sorted_loop_false in E; discriminate].
      apply negb_true_iff, orb_false_iff in B as [B1 B2].
      assert (Si : on ix i <> None) by (intros X; rewrite X in B1; discriminate).
      destruct (IH (Some i) Nl (conj Ni Si) E) as (S1 & S2 & S3).
      split; [now constructor|]. split; [now constructor|].
      destruct prev as [p|]; [|exact I]. destruct P as [Np Sp].
      assert (Le : exists u v, on ix p = Some u /\ on ix i = Some v /\ le u v = true).
      { unfold numeric, lt_coord in *. destruct (on ix p) as [u|] eqn:Ep; [|congruence].
        destruct (on ix i) as [v|] eqn:Ei; [|congruence]. exists u, v. repeat split; auto.
        rewrite le_not_lt by auto. now rewrite B2. }
      constructor; [exact Le|]. destruct Le as (u & v & Eu & Ev & Luv).
      eapply List.Forall_impl; [|exact S3]. cbn. intros b (u' & v' & Eu' & Ev' & L').
      rewrite Ev in Eu'. injection Eu' as <-. exists u, v'. repeat split; auto. eapply le_trans; eauto. }
  intros E. destruct (G l None N I E) as (? & ? & _). auto.
Qed.

(** The flag misses NaN: it stays set on a sequence that is not sorted, and
    the range computed from the first and the last item then leaves data out. *)
Theorem sorted_flag_nan :
  let at_ x := mkItem (Some x) (Some 0%js) None None in
  let data := [at_ 5%js; at_ nan; at_ 3%js; at_ nan; at_ 9%js; at_ nan; at_ 4%js] in
  let everything := mkRange (opp infinity) infinity in
  sorted_loop true true None data = true /\ ~ sorted_items true data /\
  getMinMax [] true 0 None everything data true = mkRange 4%js 5%js /\
  getMinMax [] true 0 None everything data false = mkRange 3%js 9%js.
Proof.
  cbn zeta. split; [vm_compute; reflexivity|]. split; [|split; vm_compute; reflexivity].
  intros S. inversion S as [|? ? _ F]; subst. inversion F as [|? ? H1 F']; subst.
  destruct H1 as (u & v & E1 & E2 & L). cbn in E1, E2. injection E1 as <-. injection E2 as <-. discriminate L.
Qed.

(** The range of a list of numbers, and its first and last when sorted. *)
Definition widen (r : range) (v : num) : range := mkRange (min (rmin r) v) (max (rmax r) v).
Lemma widen_bounds l : forall r, is_nan (rmin r) = false -> is_nan (rmax r) = false ->
  List.Forall (fun v => is_nan v = false) l ->
  let r' := fold_left widen l r in
  is_nan (rmin r') = false /\ is_nan (rmax r') = false /\
  (rmin r' = rmin r \/ In (rmin r') l) /\ (rmax r' = rmax r \/ In (rmax r') l) /\
  le (rmin r') (rmin r) = true /\ le (rmax r) (rmax r') = true /\
  List.Forall (fun v => le (rmin r') v = true /\ le v (rmax r') = true) l.
Proof.
  induction l as [|v l IH]; intros r N1 N2 F; cbn [fold_left].
  - repeat split; auto; now apply le_refl.
  - inversion F as [|? ? Nv Fl]; subst.
    destruct (MathFacts.min_max_step (MathH.mkRange (rmin r) (rmax r)) v N1 N2 Nv) as (A1 & A2 & A3 & A4 & M1 & M2 & I1 & I2).
    cbn [MathH.rmin MathH.rmax] in *.
    destruct (IH (widen r v) M1 M2 Fl) as (A & B & C & D & E1 & E2 & G). cbn [widen rmin rmax] in *.
    split; [exact A|]. split; [exact B|]. split; [|split; [|split; [|split]]].
    + destruct C as [->|C]; [|right; now right]. destruct I1 as [->| ->]; [now left|right; now left].
    + destruct D as [->|D]; [|right; now right]. destruct I2 as [->| ->]; [now left|right; now left].
    + eapply le_trans; eauto.
    + eapply le_trans; eauto.
    + constructor; [|exact G]. split; eapply le_trans; eauto.
Qed.

(** On data sorted along the scale, the range from the first and the last item
    that count is the range of all items that count (for a scale without
    stacking): the shortcut loses nothing. *)
Theorem getMinMax_sorted ss x_axis ds other parsed :
  sorted_items x_axis parsed ->
  let a := getMinMax ss x_axis ds None other parsed true in
  let b := getMinMax ss x_axis ds None other parsed false in
  eq (rmin a) (rmin b) = true /\ eq (rmax a) (rmax b) = true.
Proof.
  intros S. unfold getMinMax. set (kept := List.filter _ parsed).
  assert (K : sorted_items x_axis kept).
  { unfold kept. clear -S. induction S as [|i l S IH F]; cbn; [constructor|].
    destruct (negb _); [|exact IH]. constructor; [exact IH|].
    rewrite List.Forall_forall in *. intros j J. apply filter_In in J as [J _]. auto. }
  assert (V : exists vals, List.Forall (fun v => is_nan v = false) vals /\ StronglySorted (fun u v => le u v = true) vals /\
    List.Forall2 (fun i v => on x_axis i = Some v) kept vals).
  { assert (Fin : forall i, In i kept -> exists v, on x_axis i = Some v /\ is_nan v = false).
    { intros i I. unfold kept in I. apply filter_In in I as [_ I]. apply negb_true_iff in I. unfold skipped in I.
      apply orb_false_iff in I as [I _]. apply orb_false_iff in I as [I _]. apply negb_false_iff in I.
      destruct (on x_axis i) as [v|]; [|discriminate]. exists v. split; [auto|].
      destruct v; try discriminate; reflexivity. }
    clearbody kept. clear S. induction K as [|i l K IH F]; [exists []; repeat constructor|].
    destruct IH as (vals & A & B & C); [intros j J; apply Fin; now right|].
    destruct (Fin i) as (v & Ev & Nv); [now left|]. exists (v :: vals). split; [now constructor|].
    split; [|now constructor]. constructor; [exact B|].
    clear -F C Ev. induction C as [|j w l' vals' E C IH]; [constructor|]. inversion F as [|? ? Fj Fl]; subst.
    constructor; [|auto]. destruct Fj as (u & w' & Eu & Ew & L). congruence. }
  destruct V as (vals & Nv & Sv & F2).
  assert (Up : forall i v r, on x_axis i = Some v -> updateRangeFromParsed ss x_axis ds None r i = widen r v).
  { intros i v r E. unfold updateRangeFromParsed, widen. now rewrite E. }
  assert (Fold : forall r, fold_left (updateRangeFromParsed ss x_axis ds None) kept r = fold_left widen vals r).
  { clear -F2 Up. induction F2 as [|i v l vals E F2 IH]; intros r; [reflexivity|]. cbn. rewrite (Up i v) by auto. apply IH. }
  cbn zeta. rewrite Fold. destruct F2 as [|i v l vals E F2]; [cbn; split; reflexivity|].
  assert (Last : on x_axis (List.last (i :: l) i) = Some (List.last (v :: vals) v)).
  { clear -E F2. revert i v E. induction F2 as [|j w l vals E' F2 IH]; intros i v E; [exact E|].
    change (List.last (i :: j :: l) i) with (List.last (j :: l) i). change (List.last (v :: w :: vals) v) with (List.last (w :: vals) v).
    rewrite (list_last_indep (j :: l) i j), (list_last_indep (w :: vals) v w) by discriminate. now apply IH. }
  rewrite (Up _ _ _ Last), (Up _ _ _ E).
  set (z := List.last (v :: vals) v) in *.
  assert (Zin : In z (v :: vals)) by (apply list_last_In; discriminate).
  assert (Zmax : forall u, In u (v :: vals) -> le u z = true).
  { unfold z. clear -Sv Nv. revert v Sv Nv. induction vals as [|w vals IH]; intros v Sv Nv u I.
    - destruct I as [<-|[]]. inversion Nv; subst. now apply le_refl.
    - change (List.last (v :: w :: vals) v) with (List.last (w :: vals) v).
      rewrite (list_last_indep (w :: vals) v w) by discriminate.
      inversion Sv as [|? ? Sv' F]; subst. inversion Nv as [|? ? _ Nv']; subst.
      destruct I as [<-|I]; [|now apply IH]. rewrite List.Forall_forall in F. apply F, list_last_In. discriminate. }
  assert (Vmin : forall u, In u (v :: vals) -> le v u = true).
  { intros u [<-|I]; [inversion Nv; subst; now apply le_refl|]. inversion Sv as [|? ? _ F]; subst. rewrite List.Forall_forall in F. auto. }
  assert (Nz : is_nan z = false) by (rewrite List.Forall_forall in Nv; auto).
  assert (Nv0 : is_nan v = false) by (now inversion Nv).
  pose proof (widen_bounds (v :: vals) full_range eq_refl eq_refl Nv) as W. cbn zeta in W.
  pose proof (widen_bounds [v; z] full_range eq_refl eq_refl) as W2. cbn zeta in W2. cbn [fold_left] in W2.
  destruct W2 as (A1 & A2 & A3 & A4 & _ & _ & A7); [repeat constructor; auto|].
  set (b := fold_left widen (v :: vals) full_range) in *. set (a := widen (widen full_range v) z) in *.
  destruct W as (B1 & B2 & B3 & B4 & _ & _ & B7). rewrite List.Forall_forall in A7, B7.
  destruct (A7 v (or_introl eq_refl)) as [A71 A72]. destruct (A7 z (or_intror (or_introl eq_refl))) as [A73 A74].
  destruct (B7 v (or_introl eq_refl)) as [B71 _]. destruct (B7 z Zin) as [_ B74].
  assert (C1 : rmin a = v \/ rmin a = z \/ rmin a = infinity) by (destruct A3 as [A3|[A3|[A3|[]]]]; auto).
  assert (C2 : rmax a = v \/ rmax a = z \/ rmax a = opp infinity) by (destruct A4 as [A4|[A4|[A4|[]]]]; auto).
  pose proof (Zmax v (or_introl eq_refl)) as Lvz.
  assert (D1 : eq (rmin a) v = true).
  { apply le_antisym; [exact A71|]. destruct C1 as [->|[->| ->]]; [now apply le_refl|exact Lvz|].
    clear -Nv0. destruct v as [[]|[]| |[] m e]; try discriminate; reflexivity. }
  assert (D2 : eq (rmin b) v = true).
  { apply le_antisym; [exact B71|]. destruct B3 as [->|B3]; [|now apply Vmin].
    clear -Nv0. destruct v as [[]|[]| |[] m e]; try discriminate; reflexivity. }
  assert (D3 : eq (rmax a) z = true).
  { apply le_antisym; [|exact A74]. destruct C2 as [->|[->| ->]]; [exact Lvz|now apply le_refl|].
    clear -Nz. clearbody z. destruct z as [[]|[]| |[] m e]; try discriminate; reflexivity. }
  assert (D4 : eq (rmax b) z = true).
  { apply le_antisym; [|exact B74]. destruct B4 as [->|B4]; [|now apply Zmax].
    clear -Nz. clearbody z. destruct z as [[]|[]| |[] m e]; try discriminate; reflexivity. }
  clear -D1 D2 D3 D4. split; num_order.
Qed.

(** *** Stacking *)

Lemma sign_pos n : 0 < n -> safe n -> sign (of_Z n) = 1%js.
Proof.
  intros P S. destruct n as [|p|p]; try lia. destruct (NumExact.of_Z_finite p S) as (m & e & ->). reflexivity.
Qed.

Definition sum_of (zv : nat -> Z) (l : list nat) : Z := fold_right (fun k a => zv k + a) 0 l.
Lemma sum_cons zv k l : sum_of zv (k :: l) = zv k + sum_of zv l.
Proof. reflexivity. Qed.
Lemma sum_app zv l m : sum_of zv (l ++ m) = sum_of zv l + sum_of zv m.
Proof. induction l as [|k l IH]; [reflexivity|]. cbn [app]. rewrite !sum_cons. lia. Qed.

Section Stacked.
Variables (zv : nat -> Z) (vals : list (nat * coordinate)).
Hypothesis positive : forall k, 0 < zv k.

Definition stacked (l : list nat) : Prop := forall k, In k l -> vget vals k = Some (Some (of_Z (zv k))).

Lemma sum_nonneg l : 0 <= sum_of zv l.
Proof. induction l as [|k l IH]; [reflexivity|]. rewrite sum_cons. pose proof (positive k). lia. Qed.

Lemma apply_from_sum pre d post : stacked pre -> forall v, ~ In d pre -> 0 < v -> v + sum_of zv pre < 2 ^ 53 ->
  apply_from (pre ++ d :: post) vals d (mkMode false false) (of_Z v) = of_Z (v + sum_of zv pre).
Proof.
  induction pre as [|k pre IH]; intros St v N Pv B; cbn [app apply_from].
  - rewrite Nat.eqb_refl. cbn [all]. now rewrite Z.add_0_r.
  - destruct (Nat.eqb_spec k d) as [->|M]; [exfalso; apply N; now left|].
    rewrite sum_cons in *. pose proof (sum_nonneg pre). pose proof (positive k).
    rewrite (St k (or_introl eq_refl)). rewrite NumExact.is_finite_of_Z, !sign_pos by (auto; unfold safe; lia).
    replace (eq 1 1)%js with true by reflexivity. rewrite !orb_true_r. cbn [andb].
    rewrite of_Z_add by (unfold safe; lia).
    rewrite IH; [f_equal; lia|intros j J; apply St; now right|intros I; apply N; now right|lia|lia].
Qed.

(** With positive integer values, a stacked value is the dataset's own value on
    top of the values of the datasets before it; so the stacks of consecutive
    datasets meet without gap or overlap. *)
Theorem applyStack_abuts pre a b post :
  List.NoDup (pre ++ a :: b :: post) -> stacked (pre ++ [a]) -> sum_of zv (pre ++ [a; b]) < 2 ^ 53 ->
  let keys := pre ++ a :: b :: post in
  applyStack keys vals (Some (of_Z (zv a))) a (mkMode false false) = Some (of_Z (sum_of zv (pre ++ [a]))) /\
  applyStack keys vals (Some (of_Z (zv b))) b (mkMode false false) =
    Some (of_Z (sum_of zv (pre ++ [a]) + zv b)).
Proof.
  intros N St B keys. rewrite !sum_app, !sum_cons in *. change (sum_of zv []) with 0 in *.
  pose proof (sum_nonneg pre). pose proof (positive a). pose proof (positive b).
  unfold applyStack, keys. split.
  - rewrite apply_from_sum; [do 2 f_equal; lia| | |lia|lia].
    + intros k K. apply St, in_app_iff. now left.
    + intros I. apply List.NoDup_remove_2 in N. apply N, in_app_iff. now left.
  - replace (pre ++ a :: b :: post) with ((pre ++ [a]) ++ b :: post) in * by (now rewrite <- app_assoc).
    rewrite apply_from_sum; [rewrite sum_app, sum_cons; change (sum_of zv []) with 0; do 2 f_equal; lia|exact St| |lia|
      rewrite sum_app, sum_cons; change (sum_of zv []) with 0; lia].
    intros I. apply List.NoDup_remove_2 in N. apply N, in_app_iff. now left.
Qed.
End Stacked.


Definition at_x (x : num) : item := mkItem (Some x) (Some 0%js) None None.
Definition demo_items : list item := [at_x 1%js; at_x 3%js; at_x 8%js].
Lemma demo_items_sorted : sorted_items true demo_items.
Proof.
  unfold sorted_items, demo_items. repeat (constructor; [|repeat constructor; eexists _, _; repeat split; reflexivity]). constructor.
Qed.
Lemma sorted_flag_sound_witness : sorted_items true demo_items.
Proof.
  apply (sorted_flag_sound true demo_items); [|vm_compute; reflexivity].
  repeat constructor; intros x E; injection E as <-; reflexivity.
Defined.
Lemma getMinMax_sorted_witness :
  let everything := mkRange (opp infinity) infinity in
  eq (rmax (getMinMax [] true 0 None everything demo_items true))
     (rmax (getMinMax [] true 0 None everything demo_items false)) = true.
Proof.
  apply (getMinMax_sorted [] true 0 (mkRange (opp infinity) infinity) demo_items). exact demo_items_sorted.
Defined.
Lemma applyStack_abuts_witness :
  applyStack [0%nat; 1%nat; 2%nat] [(0%nat, Some (of_Z 4)); (1%nat, Some (of_Z 4))] (Some (of_Z 4)) 1 (mkMode false false)
    = Some (of_Z 8).
Proof.
  apply (applyStack_abuts (fun _ => 4) [(0%nat, Some (of_Z 4)); (1%nat, Some (of_Z 4))] (fun _ => eq_refl) [0%nat] 1 2 []).
  - repeat constructor; cbn; lia.
  - intros k I. repeat (destruct I as [<-|I]; [reflexivity|]). contradiction.
  - vm_compute. reflexivity.
Defined.
End DatasetFacts.
