(* ===== verification/Controller.v ===== *)
(** The element side of webui/public/chart.js' [DatasetController]: how the elements and
    the parsed items follow changes of the data array.

    Between two updates the listeners on the data array only note what happened
    ([_syncList]); [_resyncElements] replays it.  Arrays can get holes, so an array of
    elements holds options, and properties at negative indices, which are no elements but
    are moved like them.  A negative count, which [splice] with one argument notes, makes
    some of the steps throw. *)
From Stdlib Require Import ZArith Lia Bool List Ascii String Permutation.
From Stdlib Require Import SpecFloat.
From stdpp Require Import base list.
From S2P Require Import Prelude JsNumber JsString JsArray JsValue HelpersCore Collections Dataset.
Import ListNotations.
Open Scope Z_scope.

(** What a kind of controller does to raw data on which it does not throw:
    [parsePrimitiveData] and its siblings with a count that is not negative. *)
Class Parser (A P : Type) := {
  parse_range : list A -> Z -> Z -> list P;
  parse_range_length : forall data start count, List.length (parse_range data start count) = Z.to_nat count
}.

Module Sync.
Section Sync.
Context {A P : Type} `{Parser A P}.

(** ** Arrays *)

(** [arr.splice(start, count)]: the array without the removed part, and that part. *)
Definition clamp_start {X} (l : list X) (start : Z) : nat :=
  let len := lengthZ l in
  Z.to_nat (if start <? 0 then Z.max (len + start) 0 else Z.min start len).
Definition splice {X} (l : list X) (start count : Z) (items : list X) : list X * list X :=
  let s := clamp_start l start in
  let c := Z.to_nat (Z.min (Z.max count 0) (lengthZ l - Z.of_nat s)) in
  ((firstn s l ++ items ++ skipn (s + c) l)%list, firstn c (skipn s l)).

(** An array of elements or parsed items: its cells, missing where it has a hole, and the
    properties with a negative index. *)
Record jsarray (X : Type) := mkJsArray { cells : list (option X); below : Z -> option X }.
Arguments mkJsArray {X} _ _.
Arguments cells {X} _.
Arguments below {X} _ _.
Definition of_list {X} (l : list (option X)) : jsarray X := mkJsArray l (fun _ => None).
Definition hole_at {X} (l : list (option X)) (i : Z) : option X :=
  match nthZ l i with Some x => x | None => None end.
(** [arr[i]] *)
Definition get {X} (a : jsarray X) (i : Z) : option X :=
  if i <? 0 then below a i else hole_at (cells a) i.
(** [arr[i] = x]: an index past the end makes holes. *)
Definition set_at {X} (a : jsarray X) (i : Z) (x : X) : jsarray X :=
  if i <? 0 then mkJsArray (cells a) (fun j => if j =? i then Some x else below a j)
  else mkJsArray (if i <? lengthZ (cells a) then <[Z.to_nat i := Some x]> (cells a)
                  else cells a ++ repeat None (Z.to_nat i - List.length (cells a)) ++ [Some x])%list (below a).
(** The same for the indices and items in turn. *)
Fixpoint set_from {X} (a : jsarray X) (i : Z) (xs : list X) : jsarray X :=
  match xs with
  | [] => a
  | x :: xs' => set_from (set_at a i x) (i + 1) xs'
  end.

(** [move] of [_insertElements]: longer by [count], the part from [start] on goes up, from
    the last cell down to [start + count].  When [count] is negative the array gets
    shorter, and each of these cells gets what is now [-count] cells further: nothing past
    the end, or a cell that was just overwritten with nothing.  A length below 0 is none:
    RangeError. *)
Definition move {X} (a : jsarray X) (start count : Z) : option (jsarray X) :=
  let length := lengthZ (cells a) + count in
  if length <? 0 then None else
  let end_ := start + count in
  let at_ i := if end_ <=? i then (if count <? 0 then None else get a (i - count)) else get a i in
  Some (mkJsArray (List.map (fun k => at_ (Z.of_nat k)) (seq 0 (Z.to_nat length))) at_).

(** ** The controller *)

(** An entry of [_syncList]. *)
Inductive change := Insert (start count : Z) | Remove (start count : Z).
(** Calls that leave this component. *)
Inductive effect :=
| ClearStacks (removed : list (option P))
| UpdateElements (start count : Z).

(** [thrown]: the last call of the controller ended in a RangeError. *)
Record state := mkState {
  data : list A;
  element_array : jsarray nat;
  next_element : nat;
  parsed_array : jsarray P;
  _parsing : bool;
  _stacked : bool;
  _syncList : list change;
  _dataChanges : list change;
  effects : list effect;
  thrown : bool
}.
(** [meta.data] and [meta._parsed] *)
Definition elements (s : state) : list (option nat) := cells (element_array s).
Definition parsed (s : state) : list (option P) := cells (parsed_array s).
Definition with_elements (s : state) (a : jsarray nat) (next : nat) : state :=
  mkState (data s) a next (parsed_array s) (_parsing s) (_stacked s) (_syncList s) (_dataChanges s) (effects s) (thrown s).
Definition with_parsed (s : state) (p : jsarray P) : state :=
  mkState (data s) (element_array s) (next_element s) p (_parsing s) (_stacked s) (_syncList s) (_dataChanges s) (effects s) (thrown s).
Definition with_syncList (s : state) (l : list change) : state :=
  mkState (data s) (element_array s) (next_element s) (parsed_array s) (_parsing s) (_stacked s) l (_dataChanges s) (effects s) (thrown s).
Definition with_dataChanges (s : state) (l : list change) : state :=
  mkState (data s) (element_array s) (next_element s) (parsed_array s) (_parsing s) (_stacked s) (_syncList s) l (effects s) (thrown s).
Definition with_thrown (s : state) (b : bool) : state :=
  mkState (data s) (element_array s) (next_element s) (parsed_array s) (_parsing s) (_stacked s) (_syncList s) (_dataChanges s) (effects s) b.
Definition call (s : state) (e : effect) : state :=
  mkState (data s) (element_array s) (next_element s) (parsed_array s) (_parsing s) (_stacked s) (_syncList s) (_dataChanges s)
    (effects s ++ [e])%list (thrown s).

(** [parse(start, count)]: [new Array(count)] throws for a negative count; data that are
    not parsed are the parsed items. *)
Definition parse (s : state) (start count : Z) : state :=
  if _parsing s then
    if count <? 0 then with_thrown s true
    else with_parsed s (set_from (parsed_array s) start (parse_range (data s) start count))
  else with_parsed s (of_list (List.map Some (parse_range (data s) 0 (lengthZ (data s))))).

Definition _insertElements (s : state) (start count : Z) (resetNewElements : bool) : state :=
  match move (element_array s) start count with
  | None => with_thrown s true
  | Some els =>
      let n := Z.to_nat count in
      let s := with_elements s (set_from els start (seq (next_element s) n)) (next_element s + n) in
      match (if _parsing s then move (parsed_array s) start count else Some (parsed_array s)) with
      | None => with_thrown s true
      | Some p =>
          let s := parse (with_parsed s p) start count in
          if negb (thrown s) && resetNewElements then call s (UpdateElements start count) else s
      end
  end.

Definition _removeElements (s : state) (start count : Z) : state :=
  let '(p, removed) := splice (parsed s) start count [] in
  let s := if _parsing s then
             let s := with_parsed s (mkJsArray p (below (parsed_array s))) in
             if _stacked s then call s (ClearStacks removed) else s
           else s in
  with_elements s (mkJsArray (fst (splice (elements s) start count [])) (below (element_array s))) (next_element s).

(** What comes after a step that threw is not done. *)
Definition apply_change (s : state) (c : change) : state :=
  if thrown s then s else
  match c with
  | Insert start count => _insertElements s start count true
  | Remove start count => _removeElements s start count
  end.

Definition _sync (s : state) (c : change) : state :=
  if thrown s then s else
  let s := if _parsing s then with_syncList s (_syncList s ++ [c])%list else apply_change s c in
  if thrown s then s else with_dataChanges s (_dataChanges s ++ [c])%list.

(** A method called on the data array: it acts, then its listener is told.  [SpliceFrom]
    is [splice] with one argument, which removes all the rest. *)
Inductive op :=
| Push (items : list A)
| Pop
| Shift
| Splice (start count : Z) (items : list A)
| SpliceFrom (start : Z)
| Unshift (items : list A).
Definition run_op (l : list A) (o : op) : list A :=
  match o with
  | Push items => l ++ items
  | Pop => removelast l
  | Shift => tl l
  | Splice start count items => fst (splice l start count items)
  | SpliceFrom start => fst (splice l start (lengthZ l) [])
  | Unshift items => items ++ l
  end%list.
(** [arguments.length - 2] is -1 when there is one argument. *)
Definition on_event (s : state) (o : op) : state :=
  match o with
  | Push items => _sync s (Insert (lengthZ (data s) - lengthZ items) (lengthZ items))
  | Pop => _sync s (Remove (lengthZ (elements s) - 1) 1)
  | Shift => _sync s (Remove 0 1)
  | Splice start count items =>
      let s := if count =? 0 then s else _sync s (Remove start count) in
      let newCount := lengthZ items in
      if newCount =? 0 then s else _sync s (Insert start newCount)
  | SpliceFrom start => _sync s (Insert start (-1))
  | Unshift items => _sync s (Insert 0 (lengthZ items))
  end.
(** The data array after a method acted on it; data that are not parsed are the array. *)
Definition set_data (s : state) (d : list A) : state :=
  mkState d (element_array s) (next_element s)
    (if _parsing s then parsed_array s else of_list (List.map Some (parse_range d 0 (lengthZ d))))
    (_parsing s) (_stacked s) (_syncList s) (_dataChanges s) (effects s) (thrown s).
Definition mutate (s : state) (o : op) : state := on_event (set_data (with_thrown s false) (run_op (data s) o)) o.

(** The replay at the next update, then the difference that is left. *)
Definition replay (s : state) : state :=
  let s := fold_left apply_change (_syncList s) s in
  if thrown s then s else with_syncList s [].
Definition resize (s : state) (resetNewElements : bool) : state :=
  let numMeta := lengthZ (elements s) in
  let numData := lengthZ (data s) in
  let count := Z.min numData numMeta in
  let s := if count =? 0 then s else parse s 0 count in
  if numMeta <? numData then _insertElements s numMeta (numData - numMeta) resetNewElements
  else if numData <? numMeta then _removeElements s numData (numMeta - numData)
  else s.
Definition _resyncElements (s : state) (resetNewElements : bool) : state :=
  let s := replay (with_thrown s false) in
  if thrown s then s else resize s resetNewElements.
End Sync.
Arguments mkJsArray {X} _ _.
Arguments cells {X} _.
Arguments below {X} _ _.
Arguments state : clear implicits.
Arguments op : clear implicits.
Arguments effect : clear implicits.
End Sync.

Module SyncFacts.
Import Sync.

(** *** Arrays *)
Lemma nthZ_lookup {X} (l : list X) i : 0 <= i -> nthZ l i = l !! Z.to_nat i.
Proof.
  intros H. unfold nthZ. destruct (Z.ltb_spec i 0); [lia|]. clear H H0. generalize (Z.to_nat i). clear i.
  induction l as [|x l IH]; intros [|n]; cbn; auto.
Qed.
Lemma set_at_in {X} (a : jsarray X) i x : 0 <= i < lengthZ (cells a) ->
  cells (set_at a i x) = <[Z.to_nat i := Some x]> (cells a).
Proof.
  intros H. unfold set_at. replace (i <? 0) with false by (symmetry; apply Z.ltb_ge; lia). cbn.
  now replace (i <? lengthZ (cells a)) with true by (symmetry; apply Z.ltb_lt; lia).
Qed.
Lemma set_from_length {X Y} (l : jsarray X) (m : jsarray Y) i xs ys :
  List.length (cells l) = List.length (cells m) -> List.length xs = List.length ys ->
  List.length (cells (set_from l i xs)) = List.length (cells (set_from m i ys)).
Proof.
  revert l m i ys. induction xs as [|x xs IH]; intros l m i [|y ys] L E; try discriminate; cbn; [exact L|].
  apply IH; [|now injection E]. unfold set_at, lengthZ. destruct (i <? 0); cbn; [exact L|]. rewrite L.
  destruct (i <? _); [now rewrite !length_insert|]. rewrite !length_app, !repeat_length. cbn. lia.
Qed.
Lemma move_length {X} (a b : jsarray X) s n : move a s n = Some b ->
  lengthZ (cells b) = lengthZ (cells a) + n /\ 0 <= lengthZ (cells a) + n.
Proof.
  unfold move. destruct (Z.ltb_spec (lengthZ (cells a) + n) 0); [discriminate|]. intros [= <-].
  unfold lengthZ in *. cbn. rewrite length_map, length_seq. lia.
Qed.
Lemma move_none {X} (a : jsarray X) s n : move a s n = None -> lengthZ (cells a) + n < 0.
Proof. unfold move. destruct (Z.ltb_spec (lengthZ (cells a) + n) 0); [easy|discriminate]. Qed.

(** Writing items inside an array replaces that part. *)
Lemma set_from_mid {X} (ar : jsarray X) (a b c : list (option X)) xs :
  cells ar = (a ++ b ++ c)%list -> List.length b = List.length xs ->
  cells (set_from ar (lengthZ a) xs) = (a ++ List.map Some xs ++ c)%list.
Proof.
  revert ar a b. induction xs as [|x xs IH]; intros ar a [|y b] E L; try discriminate; [exact E|].
  cbn [set_from List.map]. change (a ++ (Some x :: List.map Some xs) ++ c)%list with (a ++ [Some x] ++ List.map Some xs ++ c)%list.
  rewrite app_assoc. replace (lengthZ a + 1) with (lengthZ (a ++ [Some x])) by (unfold lengthZ; rewrite length_app; cbn; lia).
  apply (IH _ _ b); [|now injection L]. rewrite set_at_in.
  2: { rewrite E. unfold lengthZ. rewrite length_app. cbn. lia. }
  unfold lengthZ. rewrite Nat2Z.id, E, insert_app_r_alt, Nat.sub_diag by lia. cbn. now rewrite <- app_assoc.
Qed.

Lemma hole_lookup {X} (l : list (option X)) i : 0 <= i < lengthZ l -> l !! Z.to_nat i = Some (hole_at l i).
Proof.
  intros H. unfold hole_at. rewrite nthZ_lookup by lia.
  destruct (l !! Z.to_nat i) eqn:E; [reflexivity|]. apply lookup_ge_None in E. unfold lengthZ in H. lia.
Qed.
Lemma lookup_map_seq {X} (f : nat -> X) n k :
  List.map f (seq 0 n) !! k = if decide (k < n)%nat then Some (f k) else None.
Proof.
  destruct (decide (k < n)%nat) as [L|L].
  - change (List.map f (seq 0 n)) with (f <$> seq 0 n). rewrite list_lookup_fmap, lookup_seq_lt by lia. reflexivity.
  - apply lookup_ge_None_2. rewrite length_map, length_seq. lia.
Qed.
Lemma get_lookup {X} (a : jsarray X) (i : nat) : (i < List.length (cells a))%nat -> cells a !! i = Some (get a (Z.of_nat i)).
Proof.
  intros L. unfold get. replace (Z.of_nat i <? 0) with false by (symmetry; apply Z.ltb_ge; lia).
  rewrite <- (Nat2Z.id i) at 1. apply hole_lookup. unfold lengthZ. lia.
Qed.

(** Moving opens a gap where the new items go. *)
Lemma move_gap {X} (a : jsarray X) (s n : nat) : (s <= List.length (cells a))%nat ->
  exists b gap, List.length gap = n /\ move a (Z.of_nat s) (Z.of_nat n) = Some b /\
    cells b = (firstn s (cells a) ++ gap ++ skipn s (cells a))%list.
Proof.
  intros L. unfold move, lengthZ. destruct (Z.ltb_spec (Z.of_nat (List.length (cells a)) + Z.of_nat n) 0); [lia|].
  destruct (Z.ltb_spec (Z.of_nat n) 0); [lia|]. eexists _, (List.map (fun k => get a (Z.of_nat (s + k))) (seq 0 n)).
  split; [now rewrite length_map, length_seq|]. split; [reflexivity|]. cbn [cells].
  apply list_eq. intros k. rewrite lookup_map_seq.
  replace (Z.to_nat _) with (List.length (cells a) + n)%nat by lia.
  set (f := firstn s (cells a)). set (gap := List.map _ _).
  assert (Lf : List.length f = s) by (unfold f; rewrite length_firstn; lia).
  assert (Lg : List.length gap = n) by (unfold gap; now rewrite length_map, length_seq).
  destruct (decide (k < List.length (cells a) + n)%nat) as [K|K].
  - destruct (Z.leb_spec (Z.of_nat s + Z.of_nat n) (Z.of_nat k)) as [E|E].
    + rewrite !lookup_app_r by lia. rewrite Lf, Lg. change (skipn s (cells a)) with (drop s (cells a)).
      rewrite lookup_drop, get_lookup by lia. do 2 f_equal. lia.
    + destruct (decide (k < s)%nat) as [Ks|Ks].
      * rewrite lookup_app_l by lia. unfold f. change (firstn s (cells a)) with (take s (cells a)).
        now rewrite lookup_take_lt, get_lookup by lia.
      * rewrite lookup_app_r by lia. rewrite Lf. rewrite lookup_app_l by lia. unfold gap. rewrite lookup_map_seq.
        destruct (decide (k - s < n)%nat); [|lia]. do 2 f_equal. lia.
  - symmetry. apply lookup_ge_None_2. rewrite !length_app, Lg, Lf, length_skipn. lia.
Qed.

(** Inserting in range puts the new items between the others. *)
Lemma insert_spec {X} (a : jsarray X) (s : nat) xs : (s <= List.length (cells a))%nat ->
  exists b, move a (Z.of_nat s) (lengthZ xs) = Some b /\
    cells (set_from b (Z.of_nat s) xs) = (firstn s (cells a) ++ List.map Some xs ++ skipn s (cells a))%list.
Proof.
  intros L. destruct (move_gap a s (List.length xs) L) as (b & gap & Lg & E & Eb). exists b. split; [exact E|].
  replace (Z.of_nat s) with (lengthZ (firstn s (cells a))) by (unfold lengthZ; rewrite length_firstn; lia).
  now apply (set_from_mid b _ gap).
Qed.
Lemma splice_spec {X} (l : list X) (s : nat) c : (s <= List.length l)%nat -> 0 <= c ->
  splice l (Z.of_nat s) c [] = ((firstn s l ++ skipn (s + Z.to_nat c) l)%list, firstn (Z.to_nat c) (skipn s l)).
Proof.
  intros L C. unfold splice, clamp_start. replace (Z.of_nat s <? 0) with false by (symmetry; apply Z.ltb_ge; lia).
  unfold lengthZ. replace (Z.to_nat (Z.min (Z.of_nat s) (Z.of_nat (List.length l)))) with s by lia.
  cbn [app]. destruct (Z.leb_spec c (Z.of_nat (List.length l) - Z.of_nat s)).
  - replace (Z.min (Z.max c 0) (Z.of_nat (List.length l) - Z.of_nat s)) with c by lia. reflexivity.
  - replace (Z.to_nat (Z.min (Z.max c 0) (Z.of_nat (List.length l) - Z.of_nat s))) with (List.length l - s)%nat by lia.
    rewrite (skipn_all2 l (n := s + (List.length l - s))) by lia. rewrite (skipn_all2 l (n := s + Z.to_nat c)) by lia.
    f_equal. rewrite !firstn_all2; rewrite ?length_skipn; reflexivity || lia.
Qed.
Lemma splice_length {X Y} (l : list X) (m : list Y) s c :
  List.length l = List.length m -> List.length (fst (splice l s c [])) = List.length (fst (splice m s c [])).
Proof.
  intros L. unfold splice, clamp_start, lengthZ. rewrite L. cbn [fst].
  rewrite !length_app, !length_firstn, !length_skipn, L. cbn. reflexivity.
Qed.

Section Facts.
Context {A P : Type} `{Parser A P}.
Implicit Types s : state A P.

(** *** Elements and parsed items stay the same in number *)
Definition even s : Prop := _parsing s = true /\ List.length (parsed s) = List.length (elements s).

Lemma insert_even s start count reset : even s -> even (_insertElements s start count reset).
Proof.
  intros [Pa L]. unfold _insertElements. destruct (move (element_array s) start count) as [els|] eqn:Me; [|now split].
  cbn [_parsing parsed_array with_elements]. rewrite Pa.
  pose proof (move_length _ _ _ _ Me) as [Le Ge]. fold (elements s) in Le, Ge.
  destruct (move (parsed_array s) start count) as [p|] eqn:Mp.
  2: { apply move_none in Mp. fold (parsed s) in Mp. unfold lengthZ in *. lia. }
  apply move_length in Mp as [Lp _]. fold (parsed s) in Lp. unfold parse. cbn [_parsing with_parsed with_elements]. rewrite Pa.
  assert (E : List.length (cells p) = List.length (cells els)) by (unfold lengthZ in *; lia).
  destruct (Z.ltb_spec count 0) as [C|C]; cbn [thrown with_thrown negb andb].
  - split; [exact Pa|]. unfold parsed, elements. cbn. replace (Z.to_nat count) with 0%nat by lia. exact E.
  - set (s2 := with_parsed _ _). assert (E2 : even s2).
    { split; [exact Pa|]. unfold parsed, elements. cbn. apply set_from_length; [exact E|]. now rewrite length_seq, parse_range_length. }
    destruct (_ && _); exact E2.
Qed.
Lemma remove_kept s start count : let s' := _removeElements s start count in
  _parsing s' = _parsing s /\ data s' = data s /\ next_element s' = next_element s /\ thrown s' = thrown s /\ _syncList s' = _syncList s /\
  elements s' = fst (splice (elements s) start count []) /\
  (_parsing s = true -> parsed s' = fst (splice (parsed s) start count [])).
Proof.
  unfold _removeElements. destruct (splice (parsed s) start count []) as [p removed].
  destruct (_parsing s) eqn:Pa; cbn; [destruct (_stacked s)|]; cbn; split_and!; easy.
Qed.
Lemma remove_even s start count : even s -> even (_removeElements s start count).
Proof.
  intros [Pa L]. destruct (remove_kept s start count) as (R1 & _ & _ & _ & _ & R2 & R3). split; [now rewrite R1|].
  rewrite R2, R3 by exact Pa. now apply splice_length.
Qed.
Lemma change_even s c : even s -> even (apply_change s c).
Proof. intros E. unfold apply_change. destruct (thrown s), c; auto using insert_even, remove_even. Qed.
Lemma insert_data s start count reset : let s' := _insertElements s start count reset in
  data s' = data s /\ _parsing s' = _parsing s /\ _syncList s' = _syncList s.
Proof.
  unfold _insertElements. destruct (move _ _ _); [|easy]. destruct (if _parsing _ then _ else _); [|easy].
  set (s1 := with_parsed _ _). set (s2 := parse s1 start count).
  assert (E : data s2 = data s /\ _parsing s2 = _parsing s /\ _syncList s2 = _syncList s).
  { unfold s2, parse. destruct (_parsing s1); [destruct (count <? 0)|]; easy. }
  clearbody s2. destruct (_ && _); exact E.
Qed.
Lemma change_data s c :
  data (apply_change s c) = data s /\ _parsing (apply_change s c) = _parsing s /\ _syncList (apply_change s c) = _syncList s.
Proof.
  unfold apply_change. destruct (thrown s); [easy|]. destruct c; [apply insert_data|].
  destruct (remove_kept s start count) as (R1 & R2 & _ & _ & R3 & _). now split_and!.
Qed.
Lemma replay_even cs s : even s -> even (fold_left apply_change cs s).
Proof. revert s. induction cs as [|c cs IH]; intros s E; [exact E|]. apply IH, change_even, E. Qed.
Lemma replay_data cs s : let s' := fold_left apply_change cs s in
  data s' = data s /\ _parsing s' = _parsing s /\ _syncList s' = _syncList s.
Proof.
  revert s. induction cs as [|c cs IH]; intros s; [easy|]. cbn [fold_left].
  destruct (IH (apply_change s c)) as (-> & -> & ->). apply change_data.
Qed.

(** Inserting in range. *)
Lemma insert_in s (start n : nat) reset : _parsing s = true -> thrown s = false -> (start <= List.length (elements s))%nat ->
  let s' := _insertElements s (Z.of_nat start) (Z.of_nat n) reset in
  thrown s' = false /\ next_element s' = (next_element s + n)%nat /\
  elements s' = (firstn start (elements s) ++ List.map Some (seq (next_element s) n) ++ skipn start (elements s))%list /\
  ((start <= List.length (parsed s))%nat -> parsed s'
    = (firstn start (parsed s) ++ List.map Some (parse_range (data s) (Z.of_nat start) (Z.of_nat n)) ++ skipn start (parsed s))%list).
Proof.
  intros Pa T B. unfold _insertElements. rewrite Nat2Z.id.
  destruct (insert_spec (element_array s) start (seq (next_element s) n) B) as (els & Me & Ee).
  replace (lengthZ (seq _ n)) with (Z.of_nat n) in Me by (unfold lengthZ; now rewrite length_seq). rewrite Me.
  cbn [_parsing parsed_array with_elements]. rewrite Pa.
  destruct (move (parsed_array s) (Z.of_nat start) (Z.of_nat n)) as [p|] eqn:Mp.
  2: { apply move_none in Mp. unfold lengthZ in Mp. lia. }
  unfold parse. cbn [_parsing with_parsed with_elements]. rewrite Pa. destruct (Z.ltb_spec (Z.of_nat n) 0); [lia|].
  set (s2 := with_parsed _ _). assert (E : thrown s2 = false) by exact T.
  enough (F : (start <= List.length (parsed s))%nat -> parsed s2 = (firstn start (parsed s)
    ++ List.map Some (parse_range (data s) (Z.of_nat start) (Z.of_nat n)) ++ skipn start (parsed s))%list)
    by (destruct (_ && _); split_and!; auto).
  intros Lp. destruct (insert_spec (parsed_array s) start (parse_range (data s) (Z.of_nat start) (Z.of_nat n)) Lp) as (p' & Mp' & Ep).
  replace (lengthZ (parse_range _ _ _)) with (Z.of_nat n) in Mp' by (unfold lengthZ; rewrite parse_range_length; lia).
  assert (p' = p) as -> by congruence. exact Ep.
Qed.

Lemma parse_all s (c : nat) : _parsing s = true -> thrown s = false ->
  let s' := if Z.of_nat c =? 0 then s else parse s 0 (Z.of_nat c) in
  _parsing s' = true /\ thrown s' = false /\ data s' = data s /\ elements s' = elements s /\ next_element s' = next_element s /\
  _syncList s' = _syncList s /\
  ((c <= List.length (parsed s))%nat ->
    parsed s' = (List.map Some (parse_range (data s) 0 (Z.of_nat c)) ++ skipn c (parsed s))%list).
Proof.
  intros Pa T. destruct (Z.eqb_spec (Z.of_nat c) 0) as [E|E].
  - split_and!; try easy. replace c with 0%nat in * by lia. change (Z.of_nat 0) with 0 in *. intros _.
    pose proof (parse_range_length (data s) 0 0) as L. cbn in L |- *. now destruct (parse_range (data s) 0 0).
  - cbv zeta. unfold parse. rewrite Pa. destruct (Z.ltb_spec (Z.of_nat c) 0); [lia|]. split_and!; try easy. intros C.
    apply (set_from_mid _ [] (firstn c (parsed s))); [now rewrite app_nil_l, firstn_skipn|]. rewrite length_firstn, parse_range_length. lia.
Qed.

Lemma resize_aligned s reset : _parsing s = true -> thrown s = false ->
  let s' := resize s reset in
  let n := List.length (data s) in
  let m := List.length (elements s) in
  let c := Nat.min n m in
  thrown s' = false /\ data s' = data s /\ _syncList s' = _syncList s /\ next_element s' = (next_element s + (n - m))%nat /\
  elements s' = (firstn c (elements s) ++ List.map Some (seq (next_element s) (n - m)))%list /\
  (List.length (parsed s) = m -> parsed s' = List.map Some (parse_range (data s) 0 (Z.of_nat c)
      ++ if Nat.eqb c n then [] else parse_range (data s) (Z.of_nat c) (Z.of_nat n - Z.of_nat c))%list).
Proof.
  intros Pa T. unfold resize. cbv zeta. unfold lengthZ.
  set (n := List.length (data s)). set (m := List.length (elements s)). set (c := Nat.min n m).
  replace (Z.min (Z.of_nat n) (Z.of_nat m)) with (Z.of_nat c) by lia.
  pose proof (parse_all s c Pa T) as G. cbv zeta in G.
  set (s3 := if Z.of_nat c =? 0 then s else parse s 0 (Z.of_nat c)) in *. clearbody s3.
  destruct G as (Pa3 & T3 & D3 & E3 & N3 & S3 & P3).
  assert (Lr : List.length (parse_range (data s) 0 (Z.of_nat c)) = c) by (rewrite parse_range_length; lia).
  destruct (Z.ltb_spec (Z.of_nat m) (Z.of_nat n)) as [C|C].
  - replace (Z.of_nat n - Z.of_nat m) with (Z.of_nat (n - m)) by lia.
    destruct (insert_in s3 m (n - m) reset Pa3 T3) as (I1 & I0 & I2 & I3); [rewrite E3; unfold m; lia|].
    destruct (insert_data s3 (Z.of_nat m) (Z.of_nat (n - m)) reset) as (I4 & _ & I5).
    rewrite I1, I0, I2, I4, I5, D3, E3, N3. replace c with m in * by lia. rewrite (proj2 (Nat.eqb_neq m n)) by lia. fold m.
    rewrite (skipn_all2 (elements s)), !app_nil_r by lia. split_and!; try easy. intros L.
    rewrite P3, (skipn_all2 (parsed s)), app_nil_r in I3 by lia. rewrite length_map in I3. rewrite I3 by lia.
    replace (Z.of_nat n - Z.of_nat m) with (Z.of_nat (n - m)) by lia. rewrite D3.
    rewrite firstn_all2, skipn_all2 by (rewrite length_map; lia). now rewrite app_nil_r, map_app.
  - replace (n - m)%nat with 0%nat by lia. cbn [seq List.map]. rewrite app_nil_r, Nat.add_0_r.
    replace c with n by lia. replace c with n in P3, Lr by lia. rewrite Nat.eqb_refl, app_nil_r.
    destruct (Z.ltb_spec (Z.of_nat n) (Z.of_nat m)) as [C'|C'].
    + destruct (remove_kept s3 (Z.of_nat n) (Z.of_nat m - Z.of_nat n)) as (_ & R1 & R0 & R2 & R3 & R4 & R5).
      rewrite R1, R0, R2, R3, R4, R5, D3, T3, S3, N3, E3 by apply Pa3. split_and!; auto.
      * rewrite splice_spec by (fold m; lia). cbn [fst]. rewrite (skipn_all2 (elements s)) by (fold m; lia). apply app_nil_r.
      * intros L. rewrite P3 by lia. set (l := List.map Some _). assert (Ll : List.length l = n) by (unfold l; now rewrite length_map).
        rewrite splice_spec by (rewrite ?length_app; lia). cbn [fst].
        rewrite (skipn_all2 (l ++ _)) by (rewrite length_app, length_skipn; lia). rewrite app_nil_r.
        now apply take_app_length'.
    + assert (n = m) by lia. rewrite D3, T3, S3, N3, E3. split_and!; auto.
      * symmetry. apply firstn_all2. fold m. lia.
      * intros L. rewrite P3 by lia. rewrite skipn_all2 by lia. apply app_nil_r.
Qed.

(** *** The replay on the elements alone, when it acts in range *)
Definition el_change (e : list (option nat) * nat) (c : change) : list (option nat) * nat :=
  let '(els, next) := e in
  match c with
  | Insert start count =>
      (firstn (Z.to_nat start) els ++ List.map Some (seq next (Z.to_nat count)) ++ skipn (Z.to_nat start) els, next + Z.to_nat count)%nat%list
  | Remove start count => (fst (splice els start count []), next)
  end.
Definition fits (len : nat) (c : change) : Prop :=
  match c with Insert start count => 0 <= start <= Z.of_nat len /\ 0 <= count | Remove _ _ => True end.
Fixpoint all_fit (e : list (option nat) * nat) (cs : list change) : Prop :=
  match cs with [] => True | c :: cs' => fits (List.length (fst e)) c /\ all_fit (el_change e c) cs' end.
Lemma all_fit_app e cs ds : all_fit e cs -> all_fit (fold_left el_change cs e) ds -> all_fit e (cs ++ ds).
Proof. revert e. induction cs as [|c cs IH]; intros e; [easy|]. intros [F R] G. split; [exact F|]. now apply IH. Qed.
Lemma replay_el cs s : _parsing s = true -> thrown s = false -> all_fit (elements s, next_element s) cs ->
  let s' := fold_left apply_change cs s in
  thrown s' = false /\ (elements s', next_element s') = fold_left el_change cs (elements s, next_element s).
Proof.
  revert s. induction cs as [|c cs IH]; intros s Pa T F; [easy|]. destruct F as [F R]. cbn [fold_left].
  enough (E : thrown (apply_change s c) = false /\ (elements (apply_change s c), next_element (apply_change s c)) = el_change (elements s, next_element s) c).
  { destruct E as [T' E]. rewrite <- E in R |- *. apply IH; auto. rewrite <- Pa. apply change_data. }
  unfold apply_change. rewrite T. destruct c as [start count|start count].
  - cbn in F. destruct (insert_in s (Z.to_nat start) (Z.to_nat count) true Pa T) as (I1 & I2 & I3 & _); [lia|].
    rewrite !Z2Nat.id in I1, I2, I3 by lia. now rewrite I1, I2, I3.
  - destruct (remove_kept s start count) as (_ & _ & R1 & R2 & _ & R3 & _). now rewrite R1, R2, R3.
Qed.

(** Only a negative count throws. *)
Lemma insert_no_throw s start count reset : thrown s = false -> 0 <= count -> thrown (_insertElements s start count reset) = false.
Proof.
  intros T C. unfold _insertElements. destruct (move (element_array s) _ _) as [els|] eqn:Me.
  2: { apply move_none in Me. unfold lengthZ in Me. lia. }
  cbn [_parsing parsed_array with_elements]. destruct (_parsing s) eqn:Pa.
  - destruct (move (parsed_array s) _ _) as [p|] eqn:Mp; [|apply move_none in Mp; unfold lengthZ in Mp; lia].
    unfold parse. cbn [_parsing with_parsed with_elements]. rewrite Pa. destruct (Z.ltb_spec count 0); [lia|]. now destruct (_ && _).
  - unfold parse. cbn [_parsing with_parsed with_elements]. rewrite Pa. now destruct (_ && _).
Qed.
Lemma sync_no_throw s c : thrown s = false -> match c with Insert _ count => 0 <= count | Remove _ _ => True end -> thrown (_sync s c) = false.
Proof.
  intros T C. unfold _sync. rewrite T. set (t := if _parsing s then _ else _).
  assert (E : thrown t = false).
  { unfold t. destruct (_parsing s); [exact T|]. unfold apply_change. rewrite T.
    destruct c as [st n|st n]; [now apply insert_no_throw|]. rewrite <- T. apply remove_kept. }
  now rewrite E.
Qed.
Lemma sync_data s c : data (_sync s c) = data s.
Proof.
  unfold _sync. destruct (thrown s); [reflexivity|]. set (t := if _parsing s then _ else _).
  assert (E : data t = data s) by (unfold t; destruct (_parsing s); [reflexivity|apply change_data]). now destruct (thrown t).
Qed.
Lemma on_event_data s o : data (on_event s o) = data s.
Proof.
  destruct o; cbn [on_event]; try apply sync_data. destruct (count =? 0), (lengthZ items =? 0); rewrite ?sync_data; reflexivity.
Qed.
Lemma on_event_no_throw s o : thrown s = false -> match o with SpliceFrom _ => False | _ => True end -> thrown (on_event s o) = false.
Proof.
  intros T C. destruct o; cbn [on_event]; try easy; try (apply sync_no_throw; [exact T|unfold lengthZ; lia || exact I]).
  assert (E : thrown (if count =? 0 then s else _sync s (Remove start count)) = false).
  { destruct (count =? 0); [exact T|now apply sync_no_throw]. }
  destruct (lengthZ items =? 0); [exact E|]. apply sync_no_throw; [exact E|unfold lengthZ; lia].
Qed.

(** What a method called on the array notes, given the lengths of the array after it and of
    the elements. *)
Definition op_changes (len elen : nat) (o : op A) : list change :=
  match o with
  | Push items => [Insert (Z.of_nat len - lengthZ items) (lengthZ items)]
  | Pop => [Remove (Z.of_nat elen - 1) 1]
  | Shift => [Remove 0 1]
  | Splice start count items =>
      (if count =? 0 then [] else [Remove start count]) ++ (if lengthZ items =? 0 then [] else [Insert start (lengthZ items)])
  | SpliceFrom start => [Insert start (-1)]
  | Unshift items => [Insert 0 (lengthZ items)]
  end%list.
Lemma on_event_syncs s o : on_event s o = fold_left _sync (op_changes (List.length (data s)) (List.length (elements s)) o) s.
Proof. destruct o; try reflexivity. cbn. now destruct (count =? 0), (lengthZ items =? 0). Qed.
Lemma syncs_append cs s : thrown s = false -> _parsing s = true ->
  let s' := fold_left _sync cs s in
  _syncList s' = (_syncList s ++ cs)%list /\ thrown s' = false /\ _parsing s' = true /\ data s' = data s /\
  element_array s' = element_array s /\ parsed_array s' = parsed_array s /\ next_element s' = next_element s.
Proof.
  revert s. induction cs as [|c cs IH]; intros s T Pa; cbn [fold_left].
  - now rewrite app_nil_r.
  - set (s1 := _sync s c). assert (E : s1 = with_dataChanges (with_syncList s (_syncList s ++ [c])) (_dataChanges s ++ [c])).
    { unfold s1, _sync. rewrite T, Pa. cbn [thrown with_syncList]. now rewrite T. }
    destruct (IH s1) as (I1 & I2 & I3 & I4 & I5 & I6 & I7); [now rewrite E|now rewrite E|].
    cbv zeta. rewrite I1, I4, I5, I6, I7, E. cbn. rewrite <- app_assoc, <- E. now split_and!.
Qed.
Lemma mutate_notes s o : _parsing s = true ->
  let s' := mutate s o in
  _syncList s' = (_syncList s ++ op_changes (List.length (run_op (data s) o)) (List.length (elements s)) o)%list /\
  thrown s' = false /\ _parsing s' = true /\ data s' = run_op (data s) o /\
  element_array s' = element_array s /\ parsed_array s' = parsed_array s /\ next_element s' = next_element s.
Proof.
  intros Pa. unfold mutate. set (s1 := set_data _ _). rewrite on_event_syncs.
  destruct (syncs_append (op_changes (List.length (data s1)) (List.length (elements s1)) o) s1) as (E1 & E2 & E3 & E4 & E5 & E6 & E7);
    [reflexivity|exact Pa|]. cbv zeta. rewrite E1, E4, E5, E6, E7. split_and!; auto. unfold s1. cbn. now rewrite Pa.
Qed.

(** What the notes of a state come to: [Q] holds of the length of the data array, the
    elements after the replay, and the next element. *)
Definition noted_as (Q : nat -> list (option nat) -> nat -> Prop) s : Prop :=
  _parsing s = true /\ all_fit (elements s, next_element s) (_syncList s) /\
  let '(els, nx) := fold_left el_change (_syncList s) (elements s, next_element s) in Q (List.length (data s)) els nx.
Lemma mutate_noted (Q Q' : nat -> list (option nat) -> nat -> Prop) s o : noted_as Q s ->
  (forall els nx, Q (List.length (data s)) els nx ->
     let n := List.length (run_op (data s) o) in
     let cs := op_changes n (List.length (elements s)) o in
     all_fit (els, nx) cs /\ let '(els', nx') := fold_left el_change cs (els, nx) in Q' n els' nx') ->
  noted_as Q' (mutate s o).
Proof.
  intros (Pa & Af & F) K. destruct (mutate_notes s o Pa) as (M1 & _ & M2 & M3 & M4 & M5 & M6).
  unfold noted_as, elements in *. rewrite M1, M2, M3, M4, M6, fold_left_app.
  destruct (fold_left el_change (_syncList s) _) as [els nx] eqn:E. destruct (K els nx F) as [Af' F'].
  split_and!; [easy|now apply all_fit_app; [|rewrite E]|exact F'].
Qed.
(** The update replays the notes, without an exception, and then adjusts the lengths. *)
Lemma resync_noted (Q : nat -> list (option nat) -> nat -> Prop) s reset : noted_as Q s ->
  exists els nx, Q (List.length (data s)) els nx /\
  let s' := _resyncElements s reset in
  let n := List.length (data s) in
  let c := Nat.min n (List.length els) in
  thrown s' = false /\ data s' = data s /\ _syncList s' = [] /\ next_element s' = (nx + (n - List.length els))%nat /\
  elements s' = (firstn c els ++ List.map Some (seq nx (n - List.length els)))%list /\
  (even s -> parsed s' = List.map Some (parse_range (data s) 0 (Z.of_nat c)
      ++ if Nat.eqb c n then [] else parse_range (data s) (Z.of_nat c) (Z.of_nat n - Z.of_nat c))%list).
Proof.
  intros (Pa & Af & F). unfold _resyncElements, replay. set (s0 := with_thrown s false).
  destruct (replay_el (_syncList s0) s0 Pa eq_refl Af) as [T E].
  pose proof (replay_even (_syncList s0) s0) as Er. destruct (replay_data (_syncList s0) s0) as (D & Ps & _).
  set (s1 := fold_left apply_change (_syncList s0) s0) in *. clearbody s1. rewrite T. change (data s0) with (data s) in D. change (_parsing s0) with (_parsing s) in Ps. rewrite Pa in Ps.
  change (fold_left el_change (_syncList s0) (elements s0, next_element s0))
    with (fold_left el_change (_syncList s) (elements s, next_element s)) in E. rewrite <- E in F.
  exists (elements s1), (next_element s1). split; [exact F|]. cbv zeta. cbn [thrown with_syncList]. rewrite T.
  destruct (resize_aligned (with_syncList s1 []) reset Ps T) as (R1 & R2 & R3 & R6 & R4 & R5).
  change (data (with_syncList s1 [])) with (data s1) in *. change (elements (with_syncList s1 [])) with (elements s1) in *.
  rewrite D in R2, R4, R5, R6. split_and!; auto. intros Ev. apply R5. exact (proj2 (Er Ev)).
Qed.
Lemma parse_kept s start count : data (parse s start count) = data s /\ _parsing (parse s start count) = _parsing s.
Proof. unfold parse. destruct (_parsing s) eqn:Pa; [destruct (count <? 0)|]; easy. Qed.
Lemma resync_kept s reset :
  data (_resyncElements s reset) = data s /\ _parsing (_resyncElements s reset) = _parsing s.
Proof.
  assert (R : data (replay (with_thrown s false)) = data s /\ _parsing (replay (with_thrown s false)) = _parsing s).
  { unfold replay. destruct (replay_data (_syncList (with_thrown s false)) (with_thrown s false)) as (E1 & E2 & _).
    now destruct (thrown (fold_left _ _ _)). }
  unfold _resyncElements, resize. destruct (thrown _); [exact R|]. destruct R as [<- <-]. set (r := replay _).
  set (t := if Z.min _ _ =? 0 then r else _).
  assert (T : data t = data r /\ _parsing t = _parsing r) by (unfold t; destruct (_ =? 0); [easy|apply parse_kept]).
  destruct T as [<- <-]. destruct (_ <? _); [split; apply insert_data|]. destruct (_ <? _); [split; apply remove_kept|easy].
Qed.

(** *** One element per datum *)

(** As an update leaves a state: every datum has an element of its own. *)
Definition aligned s : Prop :=
  _parsing s = true /\ _syncList s = [] /\ List.length (parsed s) = List.length (data s) /\
  exists ids, elements s = List.map Some ids /\ List.length ids = List.length (data s) /\
    NoDup ids /\ List.Forall (fun k => (k < next_element s)%nat) ids.
(** Methods other than [splice] with one argument, with an index from the end or past it, or
    with a negative count. *)
Definition in_range (len : nat) (o : op A) : Prop :=
  match o with
  | Splice start count _ => 0 <= start <= Z.of_nat len /\ 0 <= count
  | SpliceFrom _ => False
  | _ => True
  end.
Fixpoint each (R : nat -> op A -> Prop) (d : list A) (os : list (op A)) : Prop :=
  match os with
  | [] => True
  | o :: os' => R (List.length d) o /\ each R (run_op d o) os'
  end.
(** Between updates there can be elements too many, never too few. *)
Definition enough (n : nat) (els : list (option nat)) (nx : nat) : Prop :=
  (n <= List.length els)%nat /\ exists ids, els = List.map Some ids /\ NoDup ids /\ List.Forall (fun k => (k < nx)%nat) ids.
Lemma enough_insert n els nx i m n' : enough n els nx -> (i <= List.length els)%nat -> (n' <= n + m)%nat ->
  enough n' (firstn i els ++ List.map Some (seq nx m) ++ skipn i els)%list (nx + m).
Proof.
  intros (L & ids & -> & Nd & F) I N. rewrite length_map in L, I. split.
  - rewrite !length_app, !length_map, length_seq, length_firstn, length_skipn, length_map. lia.
  - exists (firstn i ids ++ seq nx m ++ skipn i ids)%list. rewrite !map_app, firstn_map, skipn_map. split; [reflexivity|].
    assert (Pe : firstn i ids ++ seq nx m ++ skipn i ids ≡ₚ seq nx m ++ ids).
    { rewrite Permutation_app_swap_app. now rewrite firstn_skipn. }
    split.
    + rewrite Pe. apply NoDup_app. split_and!; [apply NoDup_seq| |exact Nd]. intros k K J.
      apply elem_of_seq in K. rewrite List.Forall_forall in F. apply list_elem_of_In, F in J. lia.
    + assert (G : List.Forall (fun k => (k < nx + m)%nat) (seq nx m ++ ids)).
      { apply List.Forall_app. split; apply List.Forall_forall; intros k K.
        - apply in_seq in K. lia.
        - rewrite List.Forall_forall in F. apply F in K. lia. }
      revert G. now rewrite Pe.
Qed.
Lemma enough_remove n els nx start c n' : enough n els nx ->
  (n' <= List.length (fst (splice els start c [])))%nat -> enough n' (fst (splice els start c [])) nx.
Proof.
  intros (L & ids & -> & Nd & F) N. split; [exact N|]. unfold splice. cbn [fst app].
  set (i := clamp_start _ _). set (j := (i + _)%nat). exists (firstn i ids ++ skipn j ids)%list.
  rewrite map_app, firstn_map, skipn_map. split; [reflexivity|].
  assert (Su : firstn i ids ++ skipn j ids `sublist_of` ids).
  { rewrite <- (firstn_skipn i ids) at 3. apply sublist_app; [reflexivity|]. unfold j. rewrite Nat.add_comm, <- skipn_skipn.
    apply sublist_drop. }
  split; [exact (sublist_NoDup _ _ Nd Su)|]. apply List.Forall_app. split; [now apply Forall_take|now apply Forall_drop].
Qed.
Lemma fst_splice_length {X} (l : list X) (start c : Z) : 0 <= start -> 0 <= c ->
  Z.of_nat (List.length (fst (splice l start c []))) = Z.max (Z.min start (lengthZ l)) (lengthZ l - c).
Proof.
  intros S C. unfold splice, clamp_start, lengthZ. destruct (Z.ltb_spec start 0); [lia|]. cbn [fst app].
  rewrite length_app, length_firstn, length_skipn. lia.
Qed.
Lemma splice_one_length {X} (l : list X) start : (List.length l - 1 <= List.length (fst (splice l start 1 [])))%nat.
Proof.
  unfold splice. cbn [fst app]. set (i := clamp_start l start).
  rewrite length_app, length_firstn, length_skipn. unfold lengthZ. lia.
Qed.
Lemma splice_items_length {X} (l : list X) start c items :
  List.length (fst (splice l start c items)) = (List.length (fst (splice l start c [])) + List.length items)%nat.
Proof. unfold splice. cbn [fst app]. rewrite !length_app. lia. Qed.
Lemma removelast_length {X} (l : list X) : List.length (removelast l) = (List.length l - 1)%nat.
Proof. induction l as [|x [|y l] IH]; [easy|easy|]. cbn in *. lia. Qed.
Lemma splice_enough d els nx start c items : 0 <= start <= Z.of_nat (List.length d) -> 0 <= c ->
  enough (List.length d) els nx ->
  let n' := List.length (run_op d (Splice start c items)) in
  let cs := op_changes n' 0 (Splice start c items) in
  all_fit (els, nx) cs /\ let '(els', nx') := fold_left el_change cs (els, nx) in enough n' els' nx'.
Proof.
  intros B C E. cbn [run_op op_changes]. rewrite splice_items_length. set (n1 := List.length (fst (splice d start c []))).
  pose proof (fst_splice_length d start c ltac:(lia) C) as Ln. fold n1 in Ln. unfold lengthZ in Ln.
  assert (Step : exists els1, (fold_left el_change (if c =? 0 then [] else [Remove start c]) (els, nx) = (els1, nx)) /\
    enough n1 els1 nx /\ (Z.to_nat start <= List.length els1)%nat).
  { pose proof E as [Le _]. destruct (Z.eqb_spec c 0) as [->|]; cbn [fold_left el_change].
    - exists els. split_and!; [reflexivity| |lia]. destruct E as [_ E]. split; [lia|exact E].
    - pose proof (fst_splice_length els start c ltac:(lia) C) as Lm. unfold lengthZ in Lm.
      eexists. split; [reflexivity|]. split; [apply (enough_remove (List.length d)); [exact E|lia]|lia]. }
  destruct Step as (els1 & F1 & E1 & S1).
  assert (A1 : all_fit (els, nx) (if c =? 0 then [] else [Remove start c])) by (destruct (c =? 0); easy).
  split.
  - apply all_fit_app; [exact A1|]. rewrite F1. destruct (lengthZ items =? 0); [easy|]. cbn. unfold lengthZ. lia.
  - rewrite fold_left_app, F1. destruct (Z.eqb_spec (lengthZ items) 0) as [Z0|]; cbn [fold_left el_change].
    + unfold lengthZ in Z0. now replace (n1 + List.length items)%nat with n1 by lia.
    + apply (enough_insert n1); [exact E1|exact S1|]. unfold lengthZ. lia.
Qed.
Lemma op_enough d els nx elen o : in_range (List.length d) o -> enough (List.length d) els nx ->
  let n' := List.length (run_op d o) in
  let cs := op_changes n' elen o in
  all_fit (els, nx) cs /\ let '(els', nx') := fold_left el_change cs (els, nx) in enough n' els' nx'.
Proof.
  intros R E. pose proof E as [Le _].
  destruct o as [items| | |start c items|start|items]; cbn [run_op]; cbv zeta; [| | |destruct R; now apply splice_enough|easy|].
  - rewrite length_app. unfold op_changes, lengthZ. cbn -[firstn skipn]. split; [lia|].
    apply (enough_insert (List.length d)); [exact E|lia..].
  - split; [easy|]. cbn [op_changes fold_left el_change]. apply (enough_remove (List.length d)); [exact E|].
    rewrite removelast_length. pose proof (splice_one_length els (Z.of_nat elen - 1)). lia.
  - split; [easy|]. cbn [op_changes fold_left el_change]. apply (enough_remove (List.length d)); [exact E|].
    pose proof (splice_one_length els 0). destruct d; cbn in *; lia.
  - rewrite length_app. unfold op_changes, lengthZ. cbn -[firstn skipn]. split; [lia|].
    apply (enough_insert (List.length d)); [exact E|lia..].
Qed.
Lemma mutates_enough os : forall s, each in_range (data s) os -> noted_as enough s ->
  noted_as enough (fold_left mutate os s) /\ data (fold_left mutate os s) = fold_left run_op os (data s).
Proof.
  induction os as [|o os IH]; intros s R N; [now split|]. destruct R as [R Rs]. cbn [fold_left].
  destruct (mutate_notes s o (proj1 N)) as (_ & _ & _ & D & _). rewrite <- D. apply IH; [now rewrite D|].
  eapply mutate_noted; [exact N|]. intros els nx E. now apply op_enough.
Qed.
Lemma mutates_even os : forall s, even s -> even (fold_left mutate os s).
Proof.
  induction os as [|o os IH]; intros s Ev; [exact Ev|]. cbn [fold_left]. apply IH.
  destruct (mutate_notes s o (proj1 Ev)) as (_ & _ & M1 & _ & M2 & M3 & _). unfold even, elements, parsed in *. now rewrite M1, M2, M3.
Qed.
Lemma aligned_enough s : aligned s -> noted_as enough s.
Proof.
  intros (Pa & Sy & Lp & ids & E & L & Nd & F). split; [exact Pa|].
  rewrite Sy. split; [exact I|]. cbn. rewrite E. split; [rewrite length_map; lia|]. now exists ids.
Qed.


(** *** Elements follow their data *)

(** The places of the elements when the same methods act on them, new places being empty. *)
Definition op_map {X Y} (f : X -> Y) (o : op X) : op Y :=
  match o with
  | Push items => Push (List.map f items)
  | Pop => Pop
  | Shift => Shift
  | Splice start count items => Splice start count (List.map f items)
  | SpliceFrom start => SpliceFrom start
  | Unshift items => Unshift (List.map f items)
  end.
Definition track (l : list (option nat)) (o : op A) : list (option nat) := run_op l (op_map (fun _ => None) o).
(** Methods whose note says where they acted: not [pop], no index counted from the end
    or past it, no [splice] of all the rest. *)
Definition noted (len : nat) (o : op A) : Prop :=
  match o with
  | Pop | SpliceFrom _ => False
  | Splice start c _ => 0 <= start <= Z.of_nat len /\ 0 <= c
  | _ => True
  end.
Definition all_noted : list A -> list (op A) -> Prop := each noted.

Definition placed (next : nat) (t e : option nat) : Prop :=
  match t with
  | Some k => e = Some k
  | None => exists k, e = Some k /\ (next <= k)%nat
  end.
(** The places [L] of the data, and the elements after the replay. *)
Definition follows (next : nat) (L : list (option nat)) (n : nat) (els : list (option nat)) (nx : nat) : Prop :=
  List.length L = n /\ Forall2 (placed next) L els /\ (next <= nx)%nat.

Lemma placed_new next nx n : (next <= nx)%nat ->
  Forall2 (placed next) (repeat None n) (List.map Some (seq nx n)).
Proof.
  revert nx. induction n as [|n IH]; intros nx L; cbn; [constructor|]. constructor; [|apply IH; lia].
  exists nx. split; [reflexivity|lia].
Qed.
Lemma map_None {X} (items : list X) : List.map (fun _ => @None nat) items = repeat None (List.length items).
Proof. induction items; cbn; congruence. Qed.
Lemma run_splice {X} (l : list X) (start c : Z) items : 0 <= start <= Z.of_nat (List.length l) -> 0 <= c ->
  run_op l (Splice start c items)
  = (firstn (Z.to_nat start) l ++ items ++ skipn (Z.to_nat start + Z.to_nat c) l)%list.
Proof.
  intros B C. cbn. unfold splice, clamp_start. replace (start <? 0) with false by (symmetry; apply Z.ltb_ge; lia).
  unfold lengthZ. rewrite (Z.min_l start) by lia. cbn [fst]. do 2 f_equal.
  destruct (Z.leb_spec c (Z.of_nat (List.length l) - Z.of_nat (Z.to_nat start))).
  - do 2 f_equal. lia.
  - rewrite !skipn_all2; [reflexivity|lia|lia].
Qed.
Lemma track_length l (d : list A) o : List.length l = List.length d -> noted (List.length d) o ->
  List.length (track l o) = List.length (run_op d o).
Proof.
  intros L N. destruct o as [items| | |start c items|start|items]; try contradiction; unfold track; cbn [op_map].
  - cbn. rewrite !length_app, length_map. lia.
  - destruct l, d; cbn in *; lia.
  - destruct N as [B C]. rewrite !run_splice by lia. rewrite !length_app, !length_firstn, !length_skipn, length_map. lia.
  - cbn. rewrite !length_app, length_map. lia.
Qed.

Lemma follow_insert next L els nx (start : nat) n : Forall2 (placed next) L els -> (next <= nx)%nat ->
  Forall2 (placed next) (firstn start L ++ repeat None n ++ skipn start L)
    (firstn start els ++ List.map Some (seq nx n) ++ skipn start els).
Proof.
  intros F N. apply Forall2_app; [now apply Forall2_take|]. apply Forall2_app; [now apply placed_new|now apply Forall2_drop].
Qed.
Lemma follow_remove next L els (start : nat) c : Forall2 (placed next) L els -> (start <= List.length L)%nat -> 0 <= c ->
  Forall2 (placed next) (firstn start L ++ skipn (start + Z.to_nat c) L) (fst (splice els (Z.of_nat start) c [])).
Proof.
  intros F B C. pose proof (Forall2_length _ _ _ F) as Le. rewrite splice_spec by lia.
  apply Forall2_app; [now apply Forall2_take|now apply Forall2_drop].
Qed.
Lemma splice_follows next L (d : list A) els nx start c items : 0 <= start <= Z.of_nat (List.length d) -> 0 <= c ->
  follows next L (List.length d) els nx ->
  let cs := op_changes (List.length (run_op d (Splice start c items))) 0 (Splice start c items) in
  all_fit (els, nx) cs /\ let '(els', nx') := fold_left el_change cs (els, nx) in
  Forall2 (placed next) (track L (Splice start c items)) els' /\ (next <= nx')%nat.
Proof.
  intros B C (Ll & F & N). unfold track. cbn [op_map]. rewrite map_None, (run_splice L) by lia. cbn [op_changes].
  set (i := Z.to_nat start). set (L1 := (firstn i L ++ skipn (i + Z.to_nat c) L)%list).
  assert (Step : exists els1, fold_left el_change (if c =? 0 then [] else [Remove start c]) (els, nx) = (els1, nx) /\ Forall2 (placed next) L1 els1).
  { unfold L1. destruct (Z.eqb_spec c 0) as [->|]; cbn [fold_left el_change].
    - exists els. rewrite Nat.add_0_r, firstn_skipn. now split.
    - eexists. split; [reflexivity|]. replace start with (Z.of_nat i) by lia. apply follow_remove; [exact F|lia|exact C]. }
  destruct Step as (els1 & E1 & F1). assert (B1 : (i <= List.length L1)%nat) by (unfold L1; rewrite length_app, length_firstn; lia).
  assert (S1 : firstn i L1 = firstn i L /\ skipn i L1 = skipn (i + Z.to_nat c) L).
  { unfold L1. split; [apply take_app_length'|apply drop_app_length']; rewrite length_firstn; lia. }
  split.
  - apply all_fit_app; [destruct (c =? 0); easy|]. rewrite E1. destruct (lengthZ items =? 0); [easy|]. cbn.
    pose proof (Forall2_length _ _ _ F1). unfold lengthZ. lia.
  - rewrite fold_left_app, E1. destruct (Z.eqb_spec (lengthZ items) 0) as [Z0|]; cbn [fold_left el_change].
    + destruct items; [|unfold lengthZ in Z0; cbn in Z0; lia]. cbn [repeat List.length app]. now split.
    + split; [|lia]. fold i. destruct S1 as [<- <-]. unfold lengthZ. rewrite Nat2Z.id. now apply follow_insert.
Qed.
Lemma op_follows next L d els nx elen o : noted (List.length d) o -> follows next L (List.length d) els nx ->
  let n' := List.length (run_op d o) in
  let cs := op_changes n' elen o in
  all_fit (els, nx) cs /\ let '(els', nx') := fold_left el_change cs (els, nx) in follows next (track L o) n' els' nx'.
Proof.
  intros N Fo. pose proof Fo as (Ll & F & Nx). pose proof (track_length L d o Ll N) as Lt. cbv zeta.
  enough (G : all_fit (els, nx) (op_changes (List.length (run_op d o)) elen o) /\
    let '(els', nx') := fold_left el_change (op_changes (List.length (run_op d o)) elen o) (els, nx) in
    Forall2 (placed next) (track L o) els' /\ (next <= nx')%nat).
  { destruct G as [G1 G]. split; [exact G1|]. destruct (fold_left _ _ _). now split. }
  clear Lt. pose proof (Forall2_length _ _ _ F) as Le.
  destruct o as [items| | |start c items|start|items]; try contradiction.
  - unfold track. cbn [op_map run_op]. rewrite map_None, length_app. unfold op_changes, lengthZ. cbn -[firstn skipn].
    split; [lia|]. split; [|lia]. pose proof (follow_insert next L els nx (List.length L) (List.length items) F Nx) as G.
    rewrite firstn_all, skipn_all, app_nil_r in G. rewrite Nat2Z.id.
    now replace (Z.to_nat _) with (List.length L) by lia.
  - split; [easy|]. cbn [op_changes fold_left el_change]. split; [|exact Nx].
    pose proof (follow_remove next L els 0 1 F ltac:(lia) ltac:(lia)) as G. cbn [firstn app] in G.
    unfold track. cbn [op_map run_op]. now destruct L.
  - destruct N. now apply (splice_follows next L d).
  - unfold track. cbn [op_map run_op]. rewrite map_None. unfold op_changes, lengthZ. cbn -[firstn skipn].
    split; [lia|]. split; [|lia]. pose proof (follow_insert next L els nx 0 (List.length items) F Nx) as G. now rewrite Nat2Z.id.
Qed.
Lemma mutates_follow next os : forall L s, all_noted (data s) os -> noted_as (follows next L) s ->
  noted_as (follows next (fold_left track os L)) (fold_left mutate os s).
Proof.
  induction os as [|o os IH]; intros L s Na F; [exact F|]. destruct Na as [N Na]. cbn [fold_left].
  destruct (mutate_notes s o (proj1 F)) as (_ & _ & _ & D & _). apply IH; [now rewrite D|].
  eapply mutate_noted; [exact F|]. intros els nx E. now apply op_follows.
Qed.
Lemma resync_follows next L s reset : noted_as (follows next L) s ->
  let s' := _resyncElements s reset in
  thrown s' = false /\ data s' = data s /\ _syncList s' = [] /\ Forall2 (placed next) L (elements s').
Proof.
  intros N. destruct (resync_noted _ s reset N) as (els & nx & (Ll & F & Nx) & T & D & S & _ & E & _).
  pose proof (Forall2_length _ _ _ F) as Le. cbv zeta. rewrite E. split_and!; auto.
  replace (_ - _)%nat with 0%nat by lia. cbn. rewrite app_nil_r, firstn_all2 by lia. exact F.
Qed.

Lemma placed_self next l : List.Forall (fun e => e <> None) l -> Forall2 (placed next) l l.
Proof. induction 1 as [|e l Ne Fe IH]; constructor; [|exact IH]. destruct e; [reflexivity|congruence]. Qed.
(** As an update leaves a state. *)
Lemma follows_self s : _parsing s = true -> _syncList s = [] -> List.length (elements s) = List.length (data s) ->
  List.Forall (fun e => e <> None) (elements s) -> noted_as (follows (next_element s) (elements s)) s.
Proof.
  intros Pa Sy Le Fe. split; [exact Pa|]. rewrite Sy. split; [exact I|]. split; [exact Le|]. split; [now apply placed_self|lia].
Qed.

End Facts.

(** *** Where the notes go wrong *)
Definition id_range (d : list nat) (start count : Z) : list nat :=
  List.map (fun k => List.nth (Z.to_nat start + k) d 0%nat) (seq 0 (Z.to_nat count)).
Lemma id_range_length d start count : List.length (id_range d start count) = Z.to_nat count.
Proof. unfold id_range. now rewrite length_map, length_seq. Qed.
#[local] Instance id_parser : Parser nat nat := {| parse_range := id_range; parse_range_length := id_range_length |}.
Definition synced_data (parsing : bool) (d : list nat) : state nat nat :=
  mkState d (of_list (List.map Some (seq 0 (List.length d)))) (List.length d) (of_list (List.map Some d)) parsing false [] [] [] false.
Definition synced : list nat -> state nat nat := synced_data true.

(** A datum pushed and popped again between two updates takes the element of the last
    old datum with it: the datum stays and gets the new element. *)
Lemma push_pop_loses_element :
  elements (_resyncElements (fold_left mutate [Push [7]%nat; Pop] (synced [5; 6]%nat)) true) = [Some 0; Some 2]%nat.
Proof. vm_compute. reflexivity. Qed.
(** Inserting at an index counted from the end leaves a hole in the elements; the new
    element becomes a property that is no element, and a second such insertion moves it in. *)
Lemma negative_splice_leaves_hole :
  elements (_resyncElements (mutate (synced [5; 6]%nat) (Splice (-1) 0 [7]%nat)) true) = [None; Some 0; Some 1]%nat /\
  elements (_resyncElements (mutate (_resyncElements (mutate (synced [5; 6]%nat) (Splice (-1) 0 [7]%nat)) true) (Splice (-1) 0 [8]%nat)) true)
  = [Some 2; None; Some 0; Some 1]%nat.
Proof. split; vm_compute; reflexivity. Qed.
(** [splice] with one argument notes an insertion of -1 elements.  The next update throws,
    having taken away an element and emptied those from before the start on; the note stays,
    so that the update after it throws again and loses one more. *)
Lemma one_argument_splice_throws :
  let s := _resyncElements (mutate (synced [5; 6; 7; 8]%nat) (SpliceFrom 2)) true in
  let s' := _resyncElements s true in
  data s = [5; 6]%nat /\ thrown s = true /\ elements s = [Some 0; None; None]%nat /\ _syncList s = [Insert 2 (-1)] /\
  thrown s' = true /\ elements s' = [Some 0; None]%nat.
Proof. vm_compute. repeat split; reflexivity. Qed.
(** When the data is not parsed the elements change at once, and the call of [splice] on an
    empty array throws. *)
Lemma one_argument_splice_unparsed :
  elements (mutate (synced_data false [5; 6; 7]%nat) (SpliceFrom 1)) = [None; None]%nat /\
  thrown (mutate (synced_data false []) (SpliceFrom 0)) = true.
Proof. vm_compute. repeat split; reflexivity. Qed.

Definition demo_changes : list (op nat) := [Push [7]%nat; Pop; Shift; Splice 1 0 [8; 9]%nat].
Lemma synced_aligned d : aligned (synced d).
Proof.
  split_and!; try reflexivity; [apply length_map|]. exists (seq 0 (List.length d)). split_and!; try reflexivity.
  - apply length_seq.
  - apply NoDup_seq.
  - apply List.Forall_forall. intros k K. apply in_seq in K. cbn. lia.
Qed.
Definition demo_ops : list (op nat) := [Splice 1 1 [8%nat]; Unshift [9%nat]].
End SyncFacts.
