(* ===== verification/DataHolder.v ===== *)
(** The arrays that datasets hold and the controllers that listen to them (chart.js:
    [DatasetController.initialize], [_dataCheck], [addElements], [buildOrUpdateElements],
    [_destroy] and the [_onData] methods): several controllers and arrays, which the user
    replaces, shares between datasets and changes in place.  Each controller has the state of
    Controller.v; what a call of an array does to all of them is composed from it. *)
From Stdlib Require Import ZArith Lia Bool List Ascii String.
From stdpp Require Import base list.
From S2P Require Import Prelude JsNumber JsString JsArray JsValue HelpersCore Collections Dataset Controller.
Import ListNotations.
Open Scope Z_scope.

Module DataHolder.
Import Js Collections.
Section Holder.
Context {P : Type} `{Parser value P}.

(** What a dataset has as its [data]; missing is undefined or null. *)
Inductive given := Missing | Array (r : nat) | Object (o : Obj.obj).
(** The [_data] of a controller: that array, or the points made from an object. *)
Inductive held := HeldArray (r : nat) | HeldCopy (l : list value).
#[global] Instance held_array_dec (h : option held) r : Decision (h = Some (HeldArray r)).
Proof. destruct h as [[r'|l]|]; [destruct (decide (r = r')) as [->|]; [now left|right; congruence]|now right|now right]. Defined.
Record dataset := mkDataset { given_data : given; dstack : option string }.
(** A frozen array cannot be listened to; none of its methods changes it. *)
Record arr := mkArr { arr_of : array value; frozen : bool }.
Record controller := mkController {
  alive : bool; _data : option held; sync : Sync.state value P; mstack : option string; datasetElementType : bool; has_dataset : bool }.
(** Calls that leave this component: [clearStacks] and [updateStacks] of a controller. *)
Inductive stack_call := Clear (k : nat) (items : list (option P)) | Update (k : nat) (items : list (option P)).
Record world := mkWorld { arrays : list arr; datasets : list dataset; controllers : list controller; stack_calls : list stack_call }.

Definition points (o : Obj.obj) : list value :=
  List.map (fun p => VObj [("x"%string, VStr (fst p)); ("y"%string, snd p)]) (Dataset.convertObjectDataToArray o).
Definition contents (w : world) (r : nat) : list value := match arrays w !! r with Some a => items (arr_of a) | None => [] end.
Definition set_controller (w : world) (k : nat) (c : controller) : world :=
  mkWorld (arrays w) (datasets w) (<[k := c]> (controllers w)) (stack_calls w).
Definition set_array (w : world) (r : nat) (a : arr) : world :=
  mkWorld (<[r := a]> (arrays w)) (datasets w) (controllers w) (stack_calls w).
Definition call_stacks (w : world) (s : stack_call) : world := mkWorld (arrays w) (datasets w) (controllers w) (stack_calls w ++ [s])%list.
(** Every controller has the methods of all array events. *)
Definition listener_of (k : nat) : listener := mkListener k (List.map (fun e => String.append "_onData" (Core._capitalize e)) arrayEvents).
Definition listen (w : world) (r k : nat) : world :=
  match arrays w !! r with
  | Some a => if frozen a then w else set_array w r (mkArr (listenArrayEvents (arr_of a) (listener_of k)) (frozen a))
  | None => w
  end.
Definition unlisten (w : world) (h : held) (k : nat) : world :=
  match h with
  | HeldArray r => match arrays w !! r with
                   | Some a => set_array w r (mkArr (unlistenArrayEvents (arr_of a) (listener_of k)) (frozen a))
                   | None => w
                   end
  | HeldCopy _ => w
  end.
Definition with_sync (c : controller) (s : Sync.state value P) : controller :=
  mkController (alive c) (_data c) s (mstack c) (datasetElementType c) (has_dataset c).
(** The state of Controller.v with other data, parsed items and noted changes. *)
Definition renew (s : Sync.state value P) (d : list value) (p : Sync.jsarray P) (l : list Sync.change) : Sync.state value P :=
  Sync.mkState d (Sync.element_array s) (Sync.next_element s) p (Sync._parsing s) (Sync._stacked s) l (Sync._dataChanges s)
    (Sync.effects s) (Sync.thrown s).
Definition holding (c : controller) (h : held) (s : Sync.state value P) : controller :=
  mkController (alive c) (Some h) s (mstack c) (datasetElementType c) (has_dataset c).

(** [dataset.data || (dataset.data = [])]. *)
Definition ensure_data (w : world) (k : nat) (d : dataset) : world * given :=
  match given_data d with
  | Missing =>
      let r := length (arrays w) in
      (mkWorld (arrays w ++ [mkArr (mkArray [] None) false])%list (<[k := mkDataset (Array r) (dstack d)]> (datasets w)) (controllers w) (stack_calls w),
       Array r)
  | g => (w, g)
  end.
Definition _dataCheck (w : world) (k : nat) : world :=
  match datasets w !! k, controllers w !! k with
  | Some d, Some c =>
      let '(w, data) := ensure_data w k d in
      match data with
      | Object o => set_controller w k (holding c (HeldCopy (points o)) (renew (sync c) (points o) (Sync.parsed_array (sync c)) (Sync._syncList (sync c))))
      | Array r =>
          if decide (_data c = Some (HeldArray r)) then w else
          let '(w, p) := match _data c with
                         | Some h => (call_stacks (unlisten w h k) (Clear k (Sync.parsed (sync c))), Sync.of_list [])
                         | None => (w, Sync.parsed_array (sync c))
                         end in
          set_controller (listen w r k) k (holding c (HeldArray r) (renew (sync c) (contents w r) p []))
      | Missing => w
      end
  | _, _ => w
  end.

(** [_stacked] of the meta, by the option [stacked] of its value scale, if it has one. *)
Context (vScale_stacked : nat -> bool * value).
Definition stacked_now (k : nat) (stack : option string) : bool :=
  Dataset.isStacked (fst (vScale_stacked k)) (snd (vScale_stacked k)) (match stack with Some s => VStr s | None => Undefined end).
Definition set_stacked (s : Sync.state value P) (b : bool) : Sync.state value P :=
  Sync.mkState (Sync.data s) (Sync.element_array s) (Sync.next_element s) (Sync.parsed_array s) (Sync._parsing s) b (Sync._syncList s)
    (Sync._dataChanges s) (Sync.effects s) (Sync.thrown s).
(** What comes of a call: the world after it, or the one in which it threw.  [NaN_noted]:
    a change at the place NaN was noted, which this model does not follow. *)
Inductive outcome := Done (w : world) | Thrown (w : world) | NaN_noted.
Definition addElements (w : world) (k : nat) : world :=
  let w := _dataCheck w k in
  match controllers w !! k with
  | Some c => set_controller w k (mkController (alive c) (_data c) (sync c) (mstack c) (datasetElementType c)
                                    (datasetElementType c || has_dataset c))
  | None => w
  end.
(** After [configure] and [linkScales]. *)
Definition initialize (w : world) (k : nat) : world :=
  match controllers w !! k with
  | Some c => addElements (set_controller w k (with_sync c (set_stacked (sync c) (stacked_now k (mstack c))))) k
  | None => w
  end.
(** What comes after an exception of [_resyncElements] is not done. *)
Definition buildOrUpdateElements (w : world) (k : nat) (resetNewElements : bool) : outcome :=
  let w := _dataCheck w k in
  match datasets w !! k, controllers w !! k with
  | Some d, Some c =>
      let oldStacked := Sync._stacked (sync c) in
      let now := stacked_now k (mstack c) in
      let s := set_stacked (sync c) now in
      let stackChanged := negb (bool_decide (mstack c = dstack d)) in
      let w := if stackChanged then call_stacks w (Clear k (Sync.parsed s)) else w in
      let s := Sync._resyncElements s resetNewElements in
      let c := mkController (alive c) (_data c) s (dstack d) (datasetElementType c) (has_dataset c) in
      let w := set_controller w k c in
      if Sync.thrown s then Thrown w
      else Done (if stackChanged || negb (Bool.eqb oldStacked now) then call_stacks w (Update k (Sync.parsed s)) else w)
  | _, _ => Done w
  end.
Definition _destroy (w : world) (k : nat) : world :=
  match controllers w !! k with
  | Some c =>
      let w := match _data c with Some h => unlisten w h k | None => w end in
      let w := if Sync._stacked (sync c) then call_stacks w (Clear k (Sync.parsed (sync c))) else w in
      set_controller w k (mkController false (_data c) (sync c) (mstack c) (datasetElementType c) (has_dataset c))
  | None => w
  end.

(** ** Changes of an array *)
(** The listener's method may throw, which ends the call. *)
Definition told (w : world) (k : nat) (c : controller) (s : Sync.state value P) : outcome :=
  let w := set_controller w k (with_sync c s) in if Sync.thrown s then Thrown w else Done w.
(** A listener hears of a call.  [_onDataPush] reads the length of the dataset's data. *)
Definition hear (op : Sync.op value) (w : world) (k : nat) : outcome :=
  match datasets w !! k, controllers w !! k with
  | Some d, Some c =>
      let s := Sync.with_thrown (sync c) false in
      match op, given_data d with
      | Sync.Push items, Array r =>
          told w k c (Sync._sync s (Sync.Insert (lengthZ (contents w r) - lengthZ items) (lengthZ items)))
      | Sync.Push _, Missing => Thrown w
      | Sync.Push _, Object _ => NaN_noted
      | _, _ => told w k c (Sync.on_event s op)
      end
  | _, _ => Done w
  end.
Fixpoint hear_all (op : Sync.op value) (w : world) (ks : list nat) : outcome :=
  match ks with
  | [] => Done w
  | k :: rest => match hear op w k with Done w => hear_all op w rest | o => o end
  end.
Definition listeners (a : arr) : list nat := match chartjs (arr_of a) with Some ls => List.map lid ls | None => [] end.
(** The array is changed, which those see that hold it; then its listeners are called.
    A frozen array throws. *)
Definition see (r : nat) (d : list value) (c : controller) : controller :=
  if decide (_data c = Some (HeldArray r)) then with_sync c (Sync.set_data (sync c) d) else c.
Definition mutate (w : world) (r : nat) (op : Sync.op value) : outcome :=
  match arrays w !! r with
  | None => Done w
  | Some a =>
      if frozen a then Thrown w else
      let d := Sync.run_op (items (arr_of a)) op in
      let w := mkWorld (<[r := mkArr (mkArray d (chartjs (arr_of a))) false]> (arrays w)) (datasets w)
                 (List.map (see r d) (controllers w)) (stack_calls w) in
      hear_all op w (listeners a)
  end.

(** ** The user and the chart *)
Inductive action :=
  SetData (k : nat) (g : given) | SetStack (k : nat) (s : option string) | NewArray (l : list value) (fz : bool)
  | Initialize (k : nat) | Build (k : nat) (resetNewElements : bool) | Call (r : nat) (op : Sync.op value) | Destroy (k : nat).
Definition is_alive (w : world) (k : nat) : bool := match controllers w !! k with Some c => alive c | None => false end.
(** A destroyed controller is not used again. *)
Definition act (w : world) (a : action) : outcome :=
  match a with
  | Call r op => mutate w r op
  | Build k reset => if is_alive w k then buildOrUpdateElements w k reset else Done w
  | _ => Done match a with
  | SetData k g => mkWorld (arrays w) (alter (fun d => mkDataset g (dstack d)) k (datasets w)) (controllers w) (stack_calls w)
  | SetStack k s => mkWorld (arrays w) (alter (fun d => mkDataset (given_data d) s) k (datasets w)) (controllers w) (stack_calls w)
  | NewArray l fz => mkWorld (arrays w ++ [mkArr (mkArray l None) fz])%list (datasets w) (controllers w) (stack_calls w)
  | Initialize k => if is_alive w k then initialize w k else w
  | Build _ _ | Call _ _ => w
  | Destroy k => if is_alive w k then _destroy w k else w
  end end.
(** An exception ends one action; the next goes on from there. *)
Fixpoint run (w : world) (l : list action) : option world :=
  match l with
  | [] => Some w
  | a :: rest => match act w a with Done w | Thrown w => run w rest | NaN_noted => None end
  end.
End Holder.
Arguments world : clear implicits.
Arguments controller : clear implicits.
End DataHolder.

(** ** Facts *)
Module DataHolderFacts.
Import Js Collections DataHolder.

(** *** The listeners of one array *)
Definition count (k : nat) (l : list nat) : nat := count_occ Nat.eq_dec l k.
Definition known (a : arr) : Prop :=
  match chartjs (arr_of a) with Some ls => ls = List.map listener_of (List.map lid ls) | None => True end.
Fixpoint drop_first (k : nat) (l : list nat) : list nat :=
  match l with [] => [] | x :: r => if Nat.eqb x k then r else x :: drop_first k r end.
Lemma count_app k a b : count k (a ++ b) = (count k a + count k b)%nat.
Proof. apply count_occ_app. Qed.
Lemma count_one k j : count k [j] = if Nat.eqb k j then 1%nat else 0%nat.
Proof. unfold count. cbn. destruct (Nat.eq_dec j k) as [->|N]; [now rewrite Nat.eqb_refl|]. destruct (Nat.eqb_spec k j); congruence. Qed.
Lemma count_drop k j l : count k (drop_first j l) = (count k l - (if Nat.eqb k j then 1 else 0))%nat.
Proof.
  induction l as [|x l IH]; [now destruct (Nat.eqb k j)|]. cbn [drop_first]. unfold count in *. cbn [count_occ].
  destruct (Nat.eqb_spec x j) as [->|N].
  - destruct (Nat.eq_dec j k) as [->|M]; [now rewrite Nat.eqb_refl, Nat.sub_succ, Nat.sub_0_r|].
    destruct (Nat.eqb_spec k j); [congruence|now rewrite Nat.sub_0_r].
  - cbn [count_occ]. rewrite IH. destruct (Nat.eq_dec x k) as [->|M]; [|reflexivity].
    destruct (Nat.eqb_spec k j); [congruence|now rewrite !Nat.sub_0_r].
Qed.
Lemma listeners_listen a k fz : known a ->
  let b := mkArr (listenArrayEvents (arr_of a) (listener_of k)) fz in listeners b = (listeners a ++ [k])%list /\ known b.
Proof.
  unfold known, listeners, listenArrayEvents. destruct (chartjs (arr_of a)) as [ls|]; cbn; [|easy].
  intros E. rewrite !List.map_app. cbn. split; [reflexivity|]. now rewrite <- E.
Qed.
Lemma listen_items (a : array value) l : items (listenArrayEvents a l) = items a.
Proof. unfold listenArrayEvents. now destruct (chartjs a). Qed.
Lemma unlisten_items (a : array value) l : items (unlistenArrayEvents a l) = items a.
Proof. unfold unlistenArrayEvents. destruct (chartjs a) as [ls|]; [|reflexivity]. now destruct (remove_first l ls). Qed.
Lemma remove_first_ids k ls : ls = List.map listener_of (List.map lid ls) ->
  List.map lid (remove_first (listener_of k) ls) = drop_first k (List.map lid ls) /\
  remove_first (listener_of k) ls = List.map listener_of (List.map lid (remove_first (listener_of k) ls)).
Proof.
  induction ls as [|l ls IH]; [easy|]. cbn [List.map]. intros [= E Es]. destruct (IH Es) as [I1 I2]. cbn [remove_first drop_first].
  destruct (decide (l = listener_of k)) as [->|N].
  - cbn [listener_of lid]. rewrite Nat.eqb_refl. now split.
  - destruct (Nat.eqb_spec (lid l) k) as [<-|]; [congruence|]. cbn [List.map]. rewrite I1, <- E. split; [reflexivity|].
    f_equal. rewrite <- I1. exact I2.
Qed.
Lemma listeners_unlisten a k fz : known a ->
  let b := mkArr (unlistenArrayEvents (arr_of a) (listener_of k)) fz in listeners b = drop_first k (listeners a) /\ known b.
Proof.
  unfold known, listeners, unlistenArrayEvents. destruct (chartjs (arr_of a)) as [ls|] eqn:C; cbn; [|now rewrite C].
  intros E. destruct (remove_first_ids k ls E) as [I1 I2]. destruct (remove_first (listener_of k) ls) as [|l r]; cbn [chartjs]; [now split|].
  split; [exact I1|exact I2].
Qed.

(** *** The invariant *)
Section Facts.
Context {P : Type} `{Parser value P}.
Implicit Types (w : world P) (c : controller P) (k r : nat).

(** How often a controller should be among the listeners of an array: once if it holds it. *)
Definition expected w k r (a : arr) : nat :=
  match controllers w !! k with
  | Some c => if alive c && bool_decide (_data c = Some (HeldArray r)) && negb (frozen a) then 1%nat else 0%nat
  | None => 0%nat
  end.
Definition holds_well w c : Prop :=
  match _data c with
  | None => True
  | Some (HeldArray r) => (r < length (arrays w))%nat /\ Sync.data (sync c) = contents w r
  | Some (HeldCopy _) => False
  end.
Definition given_well w (d : dataset) : Prop :=
  match given_data d with Missing => True | Array r => (r < length (arrays w))%nat | Object _ => False end.
(** No dataset has an object; every controller listens once to the array it holds, unless
    that is frozen, and to no other. *)
Record ok w : Prop := mkOk {
  ok_arrays : forall r a, arrays w !! r = Some a -> known a /\ forall k, count k (listeners a) = expected w k r a;
  ok_controllers : forall k c, controllers w !! k = Some c -> holds_well w c;
  ok_datasets : forall k d, datasets w !! k = Some d -> given_well w d }.

Lemma ok_log w s : ok (call_stacks w s) <-> ok w.
Proof. split; intros [A C D]; split; [exact A|exact C|exact D|exact A|exact C|exact D]. Qed.
(** A controller may change in all but what it holds. *)
Lemma ok_same_hold w k c c' : ok w -> controllers w !! k = Some c -> alive c' = alive c -> _data c' = _data c ->
  Sync.data (sync c') = Sync.data (sync c) -> ok (set_controller w k c').
Proof.
  intros [A C D] K E1 E2 E3. pose proof (lookup_lt_Some _ _ _ K) as L. split; [|intros j cj Hj|exact D].
  - intros r a R. destruct (A r a R) as [Kn Co]. split; [exact Kn|]. intros j. rewrite Co. unfold expected. cbn.
    destruct (decide (k = j)) as [<-|N]; [|now rewrite list_lookup_insert_ne]. rewrite list_lookup_insert_eq by exact L. now rewrite K, E1, E2.
  - cbn in Hj. destruct (decide (k = j)) as [<-|N].
    + rewrite list_lookup_insert_eq in Hj by exact L. injection Hj as <-. pose proof (C k c K) as W. unfold holds_well in *.
      rewrite E2, E3. exact W.
    + rewrite list_lookup_insert_ne in Hj by exact N. exact (C j cj Hj).
Qed.

(** Arrays after listening and unlistening: the same contents, other listeners. *)
Definition relistened w w' (f : nat -> nat -> arr -> nat) : Prop :=
  datasets w' = datasets w /\ controllers w' = controllers w /\ length (arrays w') = length (arrays w) /\
  forall r a', arrays w' !! r = Some a' -> exists a, arrays w !! r = Some a /\ items (arr_of a') = items (arr_of a) /\
    frozen a' = frozen a /\ known a' /\ forall k, count k (listeners a') = f k r a.
Lemma relistened_contents w w' f r : relistened w w' f -> contents w' r = contents w r.
Proof.
  intros (_ & _ & L & F). unfold contents. destruct (arrays w' !! r) as [a'|] eqn:E.
  - destruct (F r a' E) as (a & -> & I & _). exact I.
  - apply lookup_ge_None in E. rewrite L in E. apply lookup_ge_None in E. now rewrite E.
Qed.
Lemma relistened_set w w1 f g r a1 b : relistened w w1 f -> arrays w1 !! r = Some a1 ->
  items (arr_of b) = items (arr_of a1) -> frozen b = frozen a1 -> known b ->
  (forall k a, arrays w !! r = Some a -> count k (listeners b) = g k r a) ->
  (forall k q aq, q <> r -> g k q aq = f k q aq) -> relistened w (set_array w1 r b) g.
Proof.
  intros (E1 & E2 & L1 & F1) R I F Kn Co Ot. pose proof (lookup_lt_Some _ _ _ R) as L. split; [exact E1|]. split; [exact E2|].
  cbn. rewrite length_insert. split; [exact L1|]. intros q a' Q. destruct (decide (r = q)) as [<-|N].
  - rewrite list_lookup_insert_eq in Q by exact L. injection Q as <-. destruct (F1 r a1 R) as (a & Ra & Ia & Fa & _).
    exists a. split_and!; auto; congruence.
  - rewrite list_lookup_insert_ne in Q by exact N. destruct (F1 q a' Q) as (a & Ra & Ia & Fa & Ka & Ca). exists a. split_and!; auto.
    intros k. rewrite Ca. symmetry. apply Ot. congruence.
Qed.
Lemma relistened_none w : ok w -> relistened w w (expected w).
Proof. intros O. split_and!; auto. intros r a' R. destruct (ok_arrays w O r a' R). exists a'. auto. Qed.
Definition leaves k (h : held) (f : nat -> nat -> arr -> nat) : nat -> nat -> arr -> nat := fun j r a =>
  (f j r a - (if Nat.eqb j k && bool_decide (Some h = Some (HeldArray r)) then 1 else 0))%nat.
Definition joins k r (f : nat -> nat -> arr -> nat) : nat -> nat -> arr -> nat := fun j q a =>
  (f j q a + (if Nat.eqb j k && Nat.eqb q r && negb (frozen a) then 1 else 0))%nat.
Lemma unlisten_relistened w w1 f h k : relistened w w1 f -> relistened w (unlisten w1 h k) (leaves k h f).
Proof.
  intros R. assert (Same : (forall r, h = HeldArray r -> arrays w1 !! r = None) -> relistened w w1 (leaves k h f)).
  { intros N. destruct R as (E1 & E2 & L1 & F1). split_and!; auto. intros q a' Q. destruct (F1 q a' Q) as (a & ? & ? & ? & ? & Ca).
    exists a. split_and!; auto. intros j. rewrite Ca. unfold leaves. rewrite (bool_decide_eq_false_2 (Some h = Some (HeldArray q))).
    - rewrite andb_false_r. lia.
    - intros [= E]. rewrite (N q E) in Q. discriminate. }
  unfold unlisten. destruct h as [r|l]; [|apply Same; discriminate].
  destruct (arrays w1 !! r) as [a1|] eqn:A; [|apply Same; now intros r' [= <-]].
  destruct R as (E1 & E2 & L1 & F1). destruct (F1 r a1 A) as (a & Ra & _ & _ & Ka & Ca).
  destruct (listeners_unlisten a1 k (frozen a1) Ka) as [Li Kn].
  apply (relistened_set w w1 f _ r a1); [now split_and!|exact A|now apply unlisten_items|reflexivity|exact Kn|..].
  - intros j a2 Ra2. rewrite Li, count_drop, Ca. unfold leaves. rewrite bool_decide_eq_true_2 by reflexivity. rewrite andb_true_r. congruence.
  - intros j q aq N. unfold leaves. rewrite (bool_decide_eq_false_2 (Some (HeldArray r) = _)) by congruence. rewrite andb_false_r. lia.
Qed.
Lemma listen_relistened w w1 f r k : relistened w w1 f -> relistened w (listen w1 r k) (joins k r f).
Proof.
  intros R. assert (Same : (forall a, arrays w1 !! r = Some a -> frozen a = true) -> relistened w w1 (joins k r f)).
  { intros N. destruct R as (E1 & E2 & L1 & F1). split_and!; auto. intros q a' Q. destruct (F1 q a' Q) as (a & ? & ? & Fr & ? & Ca).
    exists a. split_and!; auto. intros j. rewrite Ca. unfold joins. destruct (Nat.eqb_spec q r) as [->|]; [|rewrite andb_false_r; cbn; lia].
    rewrite <- Fr, (N a' Q), andb_false_r. lia. }
  unfold listen. destruct (arrays w1 !! r) as [a1|] eqn:A; [|now apply Same].
  destruct (frozen a1) eqn:Fz; [apply Same; now intros a [= <-]|].
  destruct R as (E1 & E2 & L1 & F1). destruct (F1 r a1 A) as (a & Ra & _ & Fr & Ka & Ca).
  destruct (listeners_listen a1 k false Ka) as [Li Kn].
  apply (relistened_set w w1 f _ r a1); [now split_and!|exact A|now apply listen_items|now rewrite Fz|exact Kn|..].
  - intros j a2 Ra2. assert (a2 = a) as -> by congruence. rewrite Li, count_app, count_one, Ca. unfold joins.
    now rewrite Nat.eqb_refl, <- Fr, Fz, !andb_true_r.
  - intros j q aq N. unfold joins. destruct (Nat.eqb_spec q r); [congruence|]. rewrite andb_false_r. cbn. lia.
Qed.
(** A new hold: the arrays relistened as it says, the controller with the contents. *)
Lemma ok_new_hold w w1 k c c' f : ok w -> relistened w w1 f -> controllers w !! k = Some c -> holds_well w c' ->
  (forall j r a, arrays w !! r = Some a -> f j r a = if Nat.eqb j k then
     (if alive c' && bool_decide (_data c' = Some (HeldArray r)) && negb (frozen a) then 1 else 0)%nat else expected w j r a) ->
  ok (set_controller w1 k c').
Proof.
  intros O R K W F. pose proof R as (E1 & E2 & L1 & F1). pose proof (lookup_lt_Some _ _ _ K) as L. rewrite <- E2 in L.
  assert (Wc : forall c, holds_well w c -> holds_well (set_controller w1 k c') c).
  { intros d. unfold holds_well. destruct (_data d) as [[r|l]|]; auto. intros [I C]. cbn. rewrite L1. split; [exact I|].
    rewrite C. symmetry. exact (relistened_contents _ _ _ _ R). }
  split.
  - intros r a' Q. destruct (F1 r a' Q) as (a & Ra & _ & Fr & Ka & Ca). split; [exact Ka|]. intros j. rewrite Ca, (F j r a Ra).
    unfold expected. cbn. destruct (Nat.eqb_spec j k) as [->|N].
    + rewrite list_lookup_insert_eq by exact L. now rewrite Fr.
    + rewrite list_lookup_insert_ne by congruence. now rewrite E2, Fr.
  - intros j cj Hj. cbn in Hj. destruct (decide (k = j)) as [<-|N].
    + rewrite list_lookup_insert_eq in Hj by exact L. injection Hj as <-. now apply Wc.
    + rewrite list_lookup_insert_ne, E2 in Hj by exact N. apply Wc. exact (ok_controllers w O j cj Hj).
  - intros j d Hd. cbn in Hd. rewrite E1 in Hd. pose proof (ok_datasets w O j d Hd) as G. unfold given_well in *.
    destruct (given_data d); auto. cbn. now rewrite L1.
Qed.
Lemma ok_new_array w l fz ds s :
  let w' := mkWorld (arrays w ++ [mkArr (mkArray l None) fz])%list ds (controllers w) s in
  ok w -> (forall k d, ds !! k = Some d -> given_well w' d) -> ok w'.
Proof.
  intros w' O D. split; [|intros k c K|exact D].
  - intros r a R. cbn in R. apply lookup_app_Some in R as [R|[G R]]; [exact (ok_arrays w O r a R)|].
    apply list_lookup_singleton_Some in R as [E <-]. split; [exact I|]. intros k. cbn. unfold expected. cbn.
    destruct (controllers w !! k) as [c|] eqn:K; [|reflexivity]. rewrite bool_decide_eq_false_2; [now rewrite andb_false_r|].
    intros X. pose proof (ok_controllers w O k c K) as W. unfold holds_well in W. rewrite X in W. lia.
  - pose proof (ok_controllers w O k c K) as W. unfold holds_well in *. destruct (_data c) as [[r|l']|]; auto.
    destruct W as [I E]. unfold w', contents in *. cbn. rewrite length_app. split; [lia|]. now rewrite lookup_app_l.
Qed.
Lemma given_well_more w w' d : (length (arrays w) <= length (arrays w'))%nat -> given_well w d -> given_well w' d.
Proof. unfold given_well. destruct (given_data d); intros; auto; lia. Qed.
Lemma ok_ensure w k d : ok w -> datasets w !! k = Some d ->
  let '(w', g) := ensure_data w k d in ok w' /\ controllers w' = controllers w /\
    (exists r, g = Array r /\ (r < length (arrays w'))%nat) /\ datasets w' !! k = Some (mkDataset g (dstack d)) /\
    forall r a, arrays w !! r = Some a -> arrays w' !! r = Some a.
Proof.
  intros O K. pose proof (ok_datasets w O k d K) as G. unfold ensure_data, given_well in *. destruct d as [[|r|o] st]; cbn [given_data dstack] in *.
  - split_and!; [|reflexivity|eexists; split; [reflexivity|cbn; rewrite length_app; cbn; lia]|cbn; apply lookup_lt_Some in K; now apply list_lookup_insert_eq|].
    + apply ok_new_array; [exact O|]. intros j dj Hj. destruct (decide (k = j)) as [<-|N].
      * apply lookup_lt_Some in K. rewrite list_lookup_insert_eq in Hj by exact K. injection Hj as <-. unfold given_well. cbn. rewrite length_app. cbn. lia.
      * rewrite list_lookup_insert_ne in Hj by exact N. eapply given_well_more; [|exact (ok_datasets w O j dj Hj)]. cbn. rewrite length_app. lia.
    + intros r a R. cbn. now apply lookup_app_l_Some.
  - split_and!; eauto.
  - destruct G.
Qed.
(** [_dataCheck] leaves the controller with the array of its dataset. *)
Lemma ok_dataCheck w k c d : ok w -> controllers w !! k = Some c -> alive c = true -> datasets w !! k = Some d ->
  let w' := _dataCheck w k in ok w' /\ exists c' r, controllers w' !! k = Some c' /\ alive c' = true /\
    _data c' = Some (HeldArray r) /\ datasets w' !! k = Some (mkDataset (Array r) (dstack d)).
Proof.
  intros O K A D. pose proof (ok_ensure w k d O D) as E. unfold _dataCheck. rewrite D, K. destruct (ensure_data w k d) as [w1 g].
  destruct E as (O1 & C1 & (r & -> & Lr) & D1 & _). rewrite <- C1 in K. clear O D C1 w.
  destruct (decide (_data c = Some (HeldArray r))) as [Eq|N]; [cbn zeta; eauto 8|].
  set (ww := match _data c with Some h => _ | None => _ end). pose proof (ok_controllers w1 O1 k c K) as W.
  assert (Q : exists f, relistened w1 (fst ww) f /\
    forall j q a, arrays w1 !! q = Some a -> f j q a = if Nat.eqb j k then 0%nat else expected w1 j q a).
  { pose proof (relistened_none w1 O1) as R0. unfold ww. destruct (_data c) as [h|] eqn:Hd; cbn [fst].
    - exists (leaves k h (expected w1)). split; [apply (unlisten_relistened w1 w1); exact R0|]. intros j q a Ra. unfold leaves.
      destruct (Nat.eqb_spec j k) as [->|]; [|cbn; lia]. cbn [andb]. unfold expected. rewrite K, A, Hd. cbn [andb].
      destruct (bool_decide (Some h = Some (HeldArray q))); [|reflexivity]. now destruct (frozen a).
    - exists (expected w1). split; [exact R0|]. intros j q a Ra. destruct (Nat.eqb_spec j k) as [->|]; [|reflexivity]. unfold expected.
      now rewrite K, A, Hd. }
  destruct ww as [w2 p]. cbn [fst] in Q. destruct Q as (f & R & F).
  pose proof R as (E1 & E2 & L1 & _). set (c' := holding _ _ _). cbn zeta. split.
  - eapply (ok_new_hold w1 (listen w2 r k) k c c' (joins k r f)); [exact O1|now apply listen_relistened|exact K|..].
    + unfold holds_well, c'. cbn. split; [exact Lr|]. exact (relistened_contents _ _ _ _ R).
    + intros j q a Ra. unfold joins. rewrite (F j q a Ra). destruct (Nat.eqb_spec j k) as [->|]; [|cbn; lia]. cbn. rewrite A. cbn.
      destruct (Nat.eqb_spec q r) as [->|Nq]; [now rewrite bool_decide_eq_true_2|]. now rewrite bool_decide_eq_false_2 by congruence.
  - assert (X : controllers (listen w2 r k) = controllers w1 /\ datasets (listen w2 r k) = datasets w1).
    { destruct (listen_relistened w1 w2 f r k R) as (X1 & X2 & _). auto. }
    destruct X as [X1 X2]. exists c', r. cbn. rewrite X1, X2. apply lookup_lt_Some in K. rewrite list_lookup_insert_eq by exact K. auto.
Qed.

(** *** Elements *)
Context (vScale_stacked : nat -> bool * value).
Lemma ok_addElements w k c d : ok w -> controllers w !! k = Some c -> alive c = true -> datasets w !! k = Some d -> ok (addElements w k).
Proof.
  intros O K A D. destruct (ok_dataCheck w k c d O K A D) as (O' & c' & r & K' & A' & H' & D'). unfold addElements. rewrite K'.
  now apply (ok_same_hold _ _ c').
Qed.
Lemma ok_initialize w k c d : ok w -> controllers w !! k = Some c -> alive c = true -> datasets w !! k = Some d -> ok (initialize vScale_stacked w k).
Proof.
  intros O K A D. unfold initialize. rewrite K. eapply ok_addElements; [now apply (ok_same_hold _ _ c)|..]; cbn.
  - now apply list_lookup_insert_eq, (lookup_lt_Some _ _ c).
  - exact A.
  - exact D.
Qed.
(** After its update a controller holds the array of its dataset and is one of its
    listeners, once, unless the array is frozen. *)
Lemma ok_build w k c d reset : ok w -> controllers w !! k = Some c -> alive c = true -> datasets w !! k = Some d ->
  exists w', (buildOrUpdateElements vScale_stacked w k reset = Done w' \/ buildOrUpdateElements vScale_stacked w k reset = Thrown w') /\ ok w' /\
    exists c' r, controllers w' !! k = Some c' /\ alive c' = true /\
    _data c' = Some (HeldArray r) /\ datasets w' !! k = Some (mkDataset (Array r) (dstack d)) /\ mstack c' = dstack d.
Proof.
  intros O K A D. destruct (ok_dataCheck w k c d O K A D) as (O' & c' & r & K' & A' & H' & D'). unfold buildOrUpdateElements. cbv zeta.
  rewrite K', D'. cbn [dstack].
  match goal with |- context [set_controller ?v k ?x] => set (v2 := v); set (c2 := x) end.
  assert (V : ok v2 /\ controllers v2 = controllers (_dataCheck w k) /\ datasets v2 = datasets (_dataCheck w k)).
  { unfold v2. destruct (negb _); [|auto]. split; [now apply ok_log|auto]. }
  destruct V as (V & Vc & Vd). rewrite <- Vc in K'. rewrite <- Vd in D'.
  assert (S : ok (set_controller v2 k c2)) by (apply (ok_same_hold _ _ c'); auto; unfold c2; cbn; now rewrite (proj1 (SyncFacts.resync_kept _ _))).
  apply lookup_lt_Some in K'. assert (L : controllers (set_controller v2 k c2) !! k = Some c2) by (cbn; now rewrite list_lookup_insert_eq).
  destruct (Sync.thrown _); [exists (set_controller v2 k c2); split; [now right|split; [exact S|now exists c2, r]]|].
  destruct (_ || _); eexists; (split; [now left|split; [|now exists c2, r]]); [now apply ok_log|exact S].
Qed.
Lemma ok_destroy w k c : ok w -> controllers w !! k = Some c -> alive c = true -> ok (_destroy w k).
Proof.
  intros O K A. unfold _destroy. rewrite K. set (w1 := match _data c with Some h => unlisten w h k | None => w end).
  set (w2 := if Sync._stacked (sync c) then _ else w1). set (c' := mkController _ _ _ _ _ _).
  assert (S : arrays w2 = arrays w1 /\ datasets w2 = datasets w1 /\ controllers w2 = controllers w1) by (unfold w2; now destruct (Sync._stacked (sync c))).
  assert (X : ok (set_controller w1 k c')).
  { pose proof (ok_controllers w O k c K) as W. pose proof (relistened_none w O) as R0. unfold w1. destruct (_data c) as [h|] eqn:Hd.
    - eapply (ok_new_hold w _ k c c' (leaves k h (expected w))); [exact O|now apply unlisten_relistened|exact K|..].
      + unfold holds_well in *. unfold c'. cbn [_data sync]. rewrite ?Hd in *. exact W.
      + intros j q a Ra. unfold leaves. destruct (Nat.eqb_spec j k) as [->|]; [|cbn; lia]. unfold expected. rewrite K, A, Hd. cbn.
        destruct (bool_decide (Some h = Some (HeldArray q))); [|reflexivity]. now destruct (frozen a).
    - eapply (ok_new_hold w w k c c' (expected w)); [exact O|exact R0|exact K|..].
      + unfold holds_well, c'. cbn [_data sync]. now rewrite ?Hd.
      + intros j q a Ra. destruct (Nat.eqb_spec j k) as [->|]; [|reflexivity]. unfold expected. now rewrite K, A, Hd. }
  destruct X as [Xa Xc Xd], S as (S1 & S2 & S3). clearbody w2.
  split; [intros r a; cbn; rewrite S1|intros j cj; cbn; rewrite S3|intros j d; cbn; rewrite S2].
  - intros R. destruct (Xa r a R) as [Kn Co]. split; [exact Kn|]. intros j. rewrite Co. unfold expected. cbn. now rewrite S3.
  - intros J. specialize (Xc j cj J). unfold holds_well, contents in *. cbn in *. now rewrite S1.
  - intros J. specialize (Xd j d J). unfold given_well in *. cbn in *. now rewrite S1.
Qed.

(** *** Changes in place *)
(** The world in which the array is changed but no listener told. *)
Definition changed w r (a : arr) (d : list value) : world P :=
  mkWorld (<[r := mkArr (mkArray d (chartjs (arr_of a))) false]> (arrays w)) (datasets w) (List.map (see r d) (controllers w)) (stack_calls w).
Lemma see_same r d c : alive (see r d c) = alive c /\ _data (see r d c) = _data c.
Proof. unfold see. now destruct (decide _). Qed.
Lemma controllers_changed w r a d k : controllers (changed w r a d) !! k = see r d <$> controllers w !! k.
Proof. apply list_lookup_fmap. Qed.
Lemma contents_changed w r a d q : arrays w !! r = Some a -> contents (changed w r a d) q = if decide (r = q) then d else contents w q.
Proof.
  intros R. unfold contents. cbn. destruct (decide (r = q)) as [<-|N].
  - now rewrite list_lookup_insert_eq by (eapply lookup_lt_Some, R).
  - now rewrite list_lookup_insert_ne.
Qed.
Lemma ok_changed w r a d : ok w -> arrays w !! r = Some a -> frozen a = false -> ok (changed w r a d).
Proof.
  intros [A C D] R F. pose proof (lookup_lt_Some _ _ _ R) as L. split.
  - intros q b Q. assert (X : exists b0, arrays w !! q = Some b0 /\ chartjs (arr_of b) = chartjs (arr_of b0) /\ frozen b = frozen b0).
    { cbn in Q. destruct (decide (r = q)) as [<-|N].
      - rewrite list_lookup_insert_eq in Q by exact L. injection Q as <-. exists a. now rewrite F.
      - rewrite list_lookup_insert_ne in Q by exact N. eauto. }
    destruct X as (b0 & Q0 & Ch & Fr). destruct (A q b0 Q0) as [Kn Co]. unfold known, listeners in *. rewrite Ch. split; [exact Kn|].
    intros k. rewrite Co. unfold expected. rewrite controllers_changed, Fr. destruct (controllers w !! k) as [c|]; [|reflexivity]. cbn.
    now destruct (see_same r d c) as [-> ->].
  - intros k c' K. rewrite controllers_changed in K. destruct (controllers w !! k) as [c|] eqn:E; [|discriminate]. injection K as <-.
    pose proof (C k c E) as W. unfold holds_well in *. destruct (see_same r d c) as [_ ->]. unfold see.
    destruct (_data c) as [[q|l]|] eqn:Hd; auto. cbn [arrays changed]. rewrite length_insert. destruct W as [I W]. split; [exact I|].
    rewrite contents_changed by exact R. destruct (decide (Some (HeldArray q) = Some (HeldArray r))) as [[= ->]|N]; destruct (decide _); congruence || reflexivity || exact W.
  - intros k dk K. pose proof (D k dk K) as G. unfold given_well in *. destruct (given_data dk); auto. cbn. now rewrite length_insert.
Qed.
(** What a controller makes of a call, given the length of its dataset's data. *)
Definition heard (len : Z) (op : Sync.op value) (s : Sync.state value P) : Sync.state value P :=
  let s := Sync.with_thrown s false in
  match op with
  | Sync.Push items => Sync._sync s (Sync.Insert (len - lengthZ items) (lengthZ items))
  | _ => Sync.on_event s op
  end.
Lemma heard_own op s : heard (lengthZ (Sync.data s)) op s = Sync.on_event (Sync.with_thrown s false) op.
Proof. now destruct op. Qed.
Lemma heard_data len op s : Sync.data (heard len op s) = Sync.data s.
Proof. unfold heard. destruct op; rewrite ?SyncFacts.sync_data, ?SyncFacts.on_event_data; reflexivity. Qed.
Definition two_arguments (op : Sync.op value) : Prop := match op with Sync.SpliceFrom _ => False | _ => True end.
Lemma heard_no_throw len op s : two_arguments op -> Sync.thrown (heard len op s) = false.
Proof.
  intros T. unfold heard. destruct op; try (apply SyncFacts.on_event_no_throw; [reflexivity|exact T]).
  apply SyncFacts.sync_no_throw; [reflexivity|]. unfold lengthZ. lia.
Qed.
Lemma hear_heard op w k d c r : datasets w !! k = Some d -> controllers w !! k = Some c -> given_data d = Array r ->
  hear op w k = told w k c (heard (lengthZ (contents w r)) op (sync c)).
Proof. intros D K G. unfold hear. rewrite D, K, G. now destruct op. Qed.
Lemma told_ok w k c s : ok w -> controllers w !! k = Some c -> Sync.data s = Sync.data (sync c) ->
  match told w k c s with Done w' | Thrown w' => ok w' | NaN_noted => False end.
Proof.
  intros O K E. assert (X : ok (set_controller w k (with_sync c s))) by now apply (ok_same_hold w k c).
  unfold told. now destruct (Sync.thrown s).
Qed.
Lemma hear_ok op k w : ok w -> match hear op w k with Done w' | Thrown w' => ok w' | NaN_noted => False end.
Proof.
  intros O. unfold hear. destruct (datasets w !! k) as [d|] eqn:D; [|exact O]. destruct (controllers w !! k) as [c|] eqn:K; [|exact O].
  pose proof (ok_datasets w O k d D) as G. unfold given_well in G.
  destruct op as [l| | |st n l|st|l]; try (apply told_ok; auto; exact (SyncFacts.on_event_data _ _)).
  destruct (given_data d); [exact O| |destruct G]. apply told_ok; auto. exact (SyncFacts.sync_data _ _).
Qed.
Lemma hear_all_ok op ks : forall w, ok w -> match hear_all op w ks with Done w' | Thrown w' => ok w' | NaN_noted => False end.
Proof.
  induction ks as [|k ks IH]; intros w O; [exact O|]. cbn. pose proof (hear_ok op k w O) as G.
  destruct (hear op w k); [apply IH, G|exact G|exact G].
Qed.
Lemma mutate_ok w r op : ok w -> match mutate w r op with Done w' | Thrown w' => ok w' | NaN_noted => False end.
Proof.
  intros O. unfold mutate. destruct (arrays w !! r) as [a|] eqn:R; [|exact O]. destruct (frozen a) eqn:F; [exact O|].
  apply hear_all_ok. now apply (ok_changed w r a).
Qed.
(** The listeners are told in turn, each as often as it is listed. *)
Lemma hear_all_iter op r ks : two_arguments op -> forall w,
  (forall k, In k ks -> exists d, datasets w !! k = Some d /\ given_data d = Array r) ->
  exists w', hear_all op w ks = Done w' /\ datasets w' = datasets w /\ arrays w' = arrays w /\
    length (controllers w') = length (controllers w) /\ forall k c, controllers w !! k = Some c ->
    controllers w' !! k = Some (with_sync c (Nat.iter (count k ks) (heard (lengthZ (contents w r)) op) (sync c))).
Proof.
  intros T. induction ks as [|j ks IH]; intros w Hd.
  - exists w. split_and!; auto. intros k c ->. now destruct c.
  - destruct (Hd j (or_introl eq_refl)) as (d & D & G). cbn [hear_all]. destruct (controllers w !! j) as [cj|] eqn:K.
    + rewrite (hear_heard op w j d cj r D K G). unfold told. rewrite heard_no_throw by exact T.
      destruct (IH (set_controller w j (with_sync cj (heard (lengthZ (contents w r)) op (sync cj))))) as (w' & -> & Dw & Aw & Lw & F).
      { intros k I. exact (Hd k (or_intror I)). }
      exists w'. split; [reflexivity|]. split; [exact Dw|]. split; [exact Aw|]. cbn in Lw, F. rewrite length_insert in Lw. split; [exact Lw|].
      intros k c Kc. unfold count. cbn [count_occ]. destruct (Nat.eq_dec j k) as [<-|N].
      * rewrite (F j (with_sync cj (heard (lengthZ (contents w r)) op (sync cj)))) by (apply list_lookup_insert_eq; eapply lookup_lt_Some, K).
        assert (c = cj) as -> by congruence. cbn [sync with_sync]. now rewrite Nat.iter_succ_r.
      * apply F. now rewrite list_lookup_insert_ne.
    + assert (Hn : hear op w j = Done w) by (unfold hear; now rewrite D, K). rewrite Hn.
      destruct (IH w (fun k I => Hd k (or_intror I))) as (w' & -> & Dw & Aw & Lw & F). exists w'. split_and!; auto. intros k c Kc.
      unfold count. cbn [count_occ]. destruct (Nat.eq_dec j k) as [->|N]; [congruence|]. exact (F k c Kc).
Qed.

(** *** Any actions *)
(** The user gives datasets arrays, or nothing. *)
Definition fine w (a : action) : Prop :=
  match a with SetData _ (Array r) => (r < length (arrays w))%nat | SetData _ (Object _) => False | _ => True end.
Fixpoint fine_run w (l : list action) : Prop :=
  match l with
  | [] => True
  | a :: rest => fine w a /\ match act vScale_stacked w a with Done w' | Thrown w' => fine_run w' rest | NaN_noted => False end
  end.
Lemma check_no_dataset w k : datasets w !! k = None -> _dataCheck w k = w.
Proof. intros D. unfold _dataCheck. now rewrite D. Qed.
Lemma ok_datasets_change w k f : ok w -> (forall d, given_well w (f d)) \/ (forall d, given_data (f d) = given_data d) ->
  ok (mkWorld (arrays w) (alter f k (datasets w)) (controllers w) (stack_calls w)).
Proof.
  intros [A C D] F. split; [exact A|exact C|]. intros j d J. cbn in J. destruct (decide (k = j)) as [<-|N].
  - rewrite list_lookup_alter_eq in J. destruct (datasets w !! k) as [d0|] eqn:E; [|discriminate]. injection J as <-.
    destruct F as [F|F]; [exact (F d0)|]. pose proof (D k d0 E) as G. unfold given_well in *. now rewrite F.
  - rewrite list_lookup_alter_ne in J by exact N. exact (D j d J).
Qed.
Lemma act_ok w a : ok w -> fine w a -> match act vScale_stacked w a with Done w' | Thrown w' => ok w' | NaN_noted => False end.
Proof.
  intros O F. destruct a as [k g|k s|l fz|k|k reset|r op|k]; cbn [act]; [| | | | |exact (mutate_ok w r op O)|].
  - apply ok_datasets_change; [exact O|]. left. intros d. unfold given_well. cbn in *. now destruct g.
  - apply ok_datasets_change; [exact O|]. now right.
  - apply ok_new_array; [exact O|]. intros k d D. eapply given_well_more; [|exact (ok_datasets w O k d D)]. cbn. rewrite length_app. lia.
  - unfold is_alive. destruct (controllers w !! k) as [c|] eqn:K; [|exact O]. destruct (alive c) eqn:A; [|exact O].
    destruct (datasets w !! k) as [d|] eqn:D; [now apply (ok_initialize w k c d)|].
    unfold initialize, addElements. rewrite K, check_no_dataset by exact D. cbn. rewrite list_lookup_insert_eq by (eapply lookup_lt_Some, K).
    apply (ok_same_hold _ _ (with_sync c (set_stacked (sync c) (stacked_now vScale_stacked k (mstack c))))); auto.
    + now apply (ok_same_hold _ _ c).
    + apply list_lookup_insert_eq. eapply lookup_lt_Some, K.
  - unfold is_alive. destruct (controllers w !! k) as [c|] eqn:K; [|exact O]. destruct (alive c) eqn:A; [|exact O].
    destruct (datasets w !! k) as [d|] eqn:D.
    { destruct (ok_build w k c d reset O K A D) as (w' & [-> | ->] & O' & _); exact O'. }
    unfold buildOrUpdateElements. cbv zeta. rewrite check_no_dataset by exact D. now rewrite D.
  - unfold is_alive. destruct (controllers w !! k) as [c|] eqn:K; [|exact O]. destruct (alive c) eqn:A; [|exact O].
    now apply (ok_destroy w k c).
Qed.
Lemma run_ok l : forall w, ok w -> fine_run w l -> exists w', run vScale_stacked w l = Some w' /\ ok w'.
Proof.
  induction l as [|a l IH]; intros w O F; [now exists w|]. destruct F as [F R]. pose proof (act_ok w a O F) as G. cbn [run].
  destruct (act vScale_stacked w a) as [w'|w'|]; [now apply IH|now apply IH|destruct G].
Qed.
(** Datasets without data and controllers that were just made, for a list of stacks and of
    whether the data is parsed. *)
Definition new_controller (parsing : bool) : controller P := mkController true None (Sync.mkState [] (Sync.of_list []) 0 (Sync.of_list []) parsing false [] [] [] false) None true false.
Definition opened (l : list (option string * bool)) : world P :=
  mkWorld [] (List.map (fun p => mkDataset Missing (fst p)) l) (List.map (fun p => new_controller (snd p)) l) [].
Lemma opened_ok l : ok (opened l).
Proof.
  split.
  - intros r a R. cbn in R. now rewrite lookup_nil in R.
  - intros k c K. apply list_lookup_fmap_Some in K as (p & -> & _). exact I.
  - intros k d D. apply list_lookup_fmap_Some in D as (p & -> & _). exact I.
Qed.
(** C22: whatever the user does with arrays and the chart with its controllers: a controller is
    exactly once among the listeners of the array it holds, unless that is frozen, and not
    among those of any other array; a destroyed one is among none. *)
Theorem listens_to_held start l : fine_run (opened start) l ->
  exists w, run vScale_stacked (opened start) l = Some w /\
    forall r a k c, arrays w !! r = Some a -> controllers w !! k = Some c ->
      count k (listeners a) = if alive c && bool_decide (_data c = Some (HeldArray r)) && negb (frozen a) then 1%nat else 0%nat.
Proof.
  intros F. destruct (run_ok l (opened start) (opened_ok start) F) as (w & R & O). exists w. split; [exact R|].
  intros r a k c A K. rewrite (proj2 (ok_arrays w O r a A)). unfold expected. now rewrite K.
Qed.
(** *** Calls and the update after them *)
(** A change of an array in place is, for each controller that holds it, the change that
    Controller.v describes, once; other controllers stay as they are. *)
Lemma mutate_holders w r a op : ok w -> arrays w !! r = Some a -> frozen a = false -> two_arguments op ->
  (forall k, In k (listeners a) -> exists d, datasets w !! k = Some d /\ given_data d = Array r) ->
  let d := Sync.run_op (items (arr_of a)) op in
  exists w', mutate w r op = Done w' /\ ok w' /\ datasets w' = datasets w /\
    arrays w' !! r = Some (mkArr (mkArray d (chartjs (arr_of a))) false) /\
    forall k c, controllers w !! k = Some c -> controllers w' !! k = Some (if decide (_data c = Some (HeldArray r))
      then with_sync c (if alive c then Sync.mutate (sync c) op else Sync.set_data (sync c) d) else c).
Proof.
  intros O A Fz T Hd d.
  destruct (hear_all_iter op r (listeners a) T (changed w r a d) Hd) as (w' & E & Dw & Aw & _ & S).
  assert (M : mutate w r op = Done w') by (unfold mutate; rewrite A, Fz; exact E).
  pose proof (mutate_ok w r op O) as O'. rewrite M in O'. exists w'. split_and!; auto.
  { rewrite Aw. cbn. apply list_lookup_insert_eq. eapply lookup_lt_Some, A. }
  intros k c K. rewrite (S k (see r d c)) by (rewrite controllers_changed, K; reflexivity).
  rewrite (proj2 (ok_arrays w O r a A) k). unfold expected. rewrite K, Fz, andb_true_r, contents_changed by exact A.
  rewrite decide_True by reflexivity. pose proof (ok_controllers w O k c K) as W. unfold see, holds_well in *.
  destruct (decide (_data c = Some (HeldArray r))) as [Hr|N].
  - rewrite bool_decide_eq_true_2 by exact Hr. rewrite Hr in W. destruct W as [_ W]. unfold contents in W. rewrite A in W.
    f_equal. unfold with_sync. cbn [alive _data sync mstack datasetElementType has_dataset]. f_equal. destruct (alive c); cbn [andb Nat.iter]; [|reflexivity].
    unfold Sync.mutate. rewrite W. fold d. exact (heard_own op (Sync.set_data (sync c) d)).
  - rewrite bool_decide_eq_false_2, andb_false_r by exact N. now destruct c.
Qed.
Lemma noted_two len op : SyncFacts.noted len op -> two_arguments op.
Proof. now destruct op. Qed.
(** Any number of calls: a holder's state takes them all. *)
Lemma calls_reach r k ops : forall w a c, ok w -> arrays w !! r = Some a -> frozen a = false ->
  (forall j, In j (listeners a) -> exists d, datasets w !! j = Some d /\ given_data d = Array r) ->
  controllers w !! k = Some c -> alive c = true -> _data c = Some (HeldArray r) -> SyncFacts.all_noted (items (arr_of a)) ops ->
  exists w', (forall rest, run vScale_stacked w (List.map (Call r) ops ++ rest) = run vScale_stacked w' rest) /\ ok w' /\
    datasets w' = datasets w /\ contents w' r = fold_left Sync.run_op ops (items (arr_of a)) /\
    controllers w' !! k = Some (with_sync c (fold_left Sync.mutate ops (sync c))) /\
    forall j cj, controllers w !! j = Some cj -> _data cj <> Some (HeldArray r) -> controllers w' !! j = Some cj.
Proof.
  induction ops as [|op ops IH]; intros w a c O A Fz Hd K Al Hr N.
  - exists w. split_and!; auto; [unfold contents; now rewrite A|cbn; now destruct c].
  - destruct N as [N Ns]. destruct (mutate_holders w r a op O A Fz (noted_two _ _ N) Hd) as (w1 & M & O1 & D1 & A1 & S).
    pose proof (S k c K) as K1. rewrite decide_True, Al in K1 by exact Hr.
    destruct (IH w1 _ (with_sync c (Sync.mutate (sync c) op)) O1 A1 eq_refl) as (w2 & R & O2 & D2 & C2 & K2 & S2); auto.
    { intros j J. rewrite D1. exact (Hd j J). }
    exists w2. split_and!; auto; [|congruence|].
    + intros rest. cbn [List.map app run act]. rewrite M. apply R.
    + intros j cj J Nj. apply S2; [|exact Nj]. rewrite (S j cj J). now rewrite decide_False.
Qed.
Lemma dataCheck_held w k d c r : datasets w !! k = Some d -> given_data d = Array r -> controllers w !! k = Some c ->
  _data c = Some (HeldArray r) -> _dataCheck w k = w.
Proof. intros D G K Hr. unfold _dataCheck, ensure_data. rewrite D, K, G. now rewrite decide_True. Qed.
(** The update of a controller that holds its dataset's array, when nothing throws. *)
Lemma built w k d c r reset : datasets w !! k = Some d -> given_data d = Array r -> controllers w !! k = Some c ->
  _data c = Some (HeldArray r) ->
  let s := Sync._resyncElements (set_stacked (sync c) (stacked_now vScale_stacked k (mstack c))) reset in
  Sync.thrown s = false ->
  exists w', buildOrUpdateElements vScale_stacked w k reset = Done w' /\ contents w' r = contents w r /\
    controllers w' !! k = Some (mkController (alive c) (_data c) s (dstack d) (datasetElementType c) (has_dataset c)) /\
    forall j, j <> k -> controllers w' !! j = controllers w !! j.
Proof.
  intros D G K Hr s T. unfold buildOrUpdateElements. rewrite (dataCheck_held w k d c r D G K Hr), D, K. cbv zeta. fold s. rewrite T.
  eexists. split; [reflexivity|]. apply lookup_lt_Some in K.
  set (b1 := negb _). set (b2 := negb _). destruct b1, b2; cbn [orb]; (split; [reflexivity|]; split; [now apply list_lookup_insert_eq|]);
    intros j N; now apply list_lookup_insert_ne.
Qed.
End Facts.

(** ** Examples *)
(** Data that are parsed to themselves. *)
Definition demo_range (data : list value) (start count : Z) : list value :=
  List.map (fun i => Dataset.nth_value data (start + Z.of_nat i)) (seq 0 (Z.to_nat count)).
Lemma demo_range_length data start count : length (demo_range data start count) = Z.to_nat count.
Proof. unfold demo_range. now rewrite List.length_map, List.length_seq. Qed.
Definition demo_parser : Parser value value := {| parse_range := demo_range; parse_range_length := demo_range_length |}.
#[local] Existing Instance demo_parser.
(** No option [stacked]: what has a stack is stacked. *)
Definition demo_scales (k : nat) : bool * value := (true, Undefined).
Definition demo_start : list (option string * bool) := [(None, true); (Some "s"%string, true)].
(** Two datasets share an array; the first then gets another, the second is destroyed. *)
Definition demo_actions : list action :=
  [NewArray [VNum 1%js] false; SetData 0 (Array 0); SetData 1 (Array 0); Initialize 0; Initialize 1; Build 0 true; Build 1 true;
   Call 0 (Sync.Push [VNum 2%js]); NewArray [VNum 5%js; VNum 6%js] true; SetData 0 (Array 1); Build 0 true].
Lemma demo_fine : fine_run demo_scales (opened demo_start) demo_actions.
Proof. vm_compute. repeat constructor. Qed.
Definition demo_world : world value := match run demo_scales (opened demo_start) demo_actions with Some w => w | None => opened [] end.
Lemma listens_to_held_witness :
  List.map listeners (arrays demo_world) = [[1]; []]%nat /\
  exists w, run demo_scales (opened demo_start) demo_actions = Some w /\
    forall r a k c, arrays w !! r = Some a -> controllers w !! k = Some c ->
      count k (listeners a) = if alive c && bool_decide (_data c = Some (HeldArray r)) && negb (frozen a) then 1%nat else 0%nat.
Proof. split; [now vm_compute|]. apply (listens_to_held demo_scales demo_start demo_actions). exact demo_fine. Defined.
(** Two datasets share an array and both were updated. *)
Definition shared_actions : list action :=
  [NewArray [VNum 1%js; VNum 4%js] false; SetData 0 (Array 0); SetData 1 (Array 0); Initialize 0; Initialize 1; Build 0 true; Build 1 true].
Definition shared_world : world value := match run demo_scales (opened demo_start) shared_actions with Some w => w | None => opened [] end.
Definition shared_array : arr := match arrays shared_world !! 0%nat with Some a => a | None => mkArr (mkArray [] None) true end.
Definition shared_controller : controller value := match controllers shared_world !! 1%nat with Some c => c | None => new_controller true end.
Definition shared_ops : list (Sync.op value) := [Sync.Push [VNum 2%js]; Sync.Unshift [VNum 3%js]; Sync.Splice 1 1 []].
(** When an object takes the place of an array, [_dataCheck] does not stop listening to the
    array: a push then notes a change at NaN, and if the array comes back the controller
    listens twice, so that one push is noted as two. *)
Definition object_between : list action :=
  [NewArray [VNum 1%js] false; SetData 0 (Array 0); Initialize 0; Build 0 true; SetData 0 (Object [("a"%string, VNum 1%js)]); Build 0 true].
Definition after_object (l : list action) : option (world value) := run demo_scales (opened [(None, true)]) (object_between ++ l)%list.
Example object_keeps_listening :
  option_map (fun w => List.map listeners (arrays w)) (after_object []) = Some [[0]]%nat /\
  after_object [Call 0 (Sync.Push [VNum 2%js])] = None /\
  option_map (fun w => List.map listeners (arrays w)) (after_object [SetData 0 (Array 0); Build 0 true]) = Some [[0; 0]]%nat /\
  option_map (fun w => List.map (fun c => Sync._syncList (sync c)) (controllers w))
    (after_object [SetData 0 (Array 0); Build 0 true; Call 0 (Sync.Push [VNum 2%js])]) = Some [[Sync.Insert 1 1; Sync.Insert 1 1]].
Proof. now vm_compute. Qed.
(** A dataset with a stack on a scale without the option: [_stacked] is computed before the
    stack is noted in the meta, so the first update does not stack it and the second does. *)
Definition stacked_after (l : list action) : option (list bool) :=
  option_map (fun w => List.map (fun c => Sync._stacked (sync c)) (controllers w)) (run demo_scales (opened [(Some "s"%string, true)]) l).
Example stacked_one_update_late :
  stacked_after [Initialize 0; Build 0 true] = Some [false] /\ stacked_after [Initialize 0; Build 0 true; Build 0 true] = Some [true].
Proof. now vm_compute. Qed.
End DataHolderFacts.
