(* ===== verification/ElementOptions.v ===== *)
(** The scales a dataset is linked to and the options of its elements in
    webui/public/chart.js' [DatasetController]: [linkScales], the contexts, and the cache of
    resolved options with the sharing of one option object by many elements.

    Option objects live in the heap of Resolver.v, because who shares an object with whom
    is the point.  Animations are noted as (target, new properties); [settle] gives what
    they end with. *)
From Stdlib Require Import ZArith Lia Bool List Ascii String.
From Stdlib Require Import SpecFloat.
From stdpp Require Import base list.
From S2P Require Import Prelude JsNumber JsString JsArray JsValue HelpersCore Resolver Config.
Import ListNotations.
Open Scope Z_scope.

(** ** Scales of a dataset *)
Module Linking.
Import Heap.
Local Open Scope string_scope.

(** A scale of the chart: its axis. *)
Definition scales := props string.
Definition getFirstScaleId (ss : scales) (axis : string) : option string :=
  head (List.map fst (List.filter (fun s => String.eqb (snd s) axis) ss)).
Record dataset_ids := mkIds { ds_xAxisID : option string; ds_yAxisID : option string; ds_rAxisID : option string }.
Record linked := mkLinked {
  xAxisID : option string; yAxisID : option string; rAxisID : option string;
  iAxisID : option string; vAxisID : option string;
  (** The scale found under an ID, by that ID. *)
  xScale : option string; yScale : option string; rScale : option string; iScale : option string; vScale : option string
}.
Definition chooseId {A} (axis : string) (x y r : A) : A :=
  if String.eqb axis "x" then x else if String.eqb axis "r" then r else y.
Definition valueOrDefault {A} (v d : option A) : option A := match v with Some _ => v | None => d end.
Definition getScaleForId (ss : scales) (id : option string) : option string :=
  match id with
  | Some id => match pget id ss with Some _ => Some id | None => None end
  | None => None
  end.
Definition linkScales (ss : scales) (d : dataset_ids) (indexAxis : string) : linked :=
  let xid := valueOrDefault (ds_xAxisID d) (getFirstScaleId ss "x") in
  let yid := valueOrDefault (ds_yAxisID d) (getFirstScaleId ss "y") in
  let rid := valueOrDefault (ds_rAxisID d) (getFirstScaleId ss "r") in
  let iid := chooseId indexAxis xid yid rid in
  let vid := chooseId indexAxis yid xid rid in
  mkLinked xid yid rid iid vid (getScaleForId ss xid) (getScaleForId ss yid) (getScaleForId ss rid)
    (getScaleForId ss iid) (getScaleForId ss vid).
(** Scales are compared by identity; a missing scale is undefined. *)
Definition _getOtherScale (l : linked) (scale : option string) : option string :=
  let same := match scale, iScale l with
    | Some a, Some b => String.eqb a b | None, None => true | _, _ => false end in
  if same then vScale l else iScale l.
End Linking.

(** ** Element options *)
Module ElementOptions.
Import Heap Resolver Config.
Local Open Scope string_scope.
Local Open Scope heap_scope.

Record controller := mkController {
  _type : string;
  dataset : val;
  enableOptionSharing : bool;
  _cachedDataOpts : props val;
  _sharedOptions : option val;
  cfg : config;
  keyCache : props (list (list string));
  (** The frozen objects. *)
  frozen : list val;
  (** Animations that were started: the target and its new properties. *)
  animations : list (val * val)
}.
Definition with_cache (s : controller) (cache : props val) (c : config) kc (fz : list val) : controller :=
  mkController (_type s) (dataset s) (enableOptionSharing s) cache (_sharedOptions s) c kc fz (animations s).
Definition with_shared (s : controller) (v : option val) : controller :=
  mkController (_type s) (dataset s) (enableOptionSharing s) (_cachedDataOpts s) v (cfg s) (keyCache s) (frozen s) (animations s).
Definition animate (s : controller) (target properties : val) : controller :=
  mkController (_type s) (dataset s) (enableOptionSharing s) (_cachedDataOpts s) (_sharedOptions s) (cfg s) (keyCache s)
    (frozen s) (animations s ++ [(target, properties)]).

Definition isDirectUpdateMode (mode : string) : bool := String.eqb mode "reset" || String.eqb mode "none".

Section Options.
Context (call : string -> list val -> script) (ms : ops) (D : default_objects).

(** The own properties of a plain object. *)
Definition props_of (v : val) : M (props val) :=
  match v with
  | RRef l => let! o := load l in match o with Plain _ ps => ret ps | _ => stuck end
  | _ => ret []
  end.
Definition assign_to (target : val) (ps : props val) : M unit :=
  match target with
  | RRef l =>
      let! o := load l in
      match o with
      | Plain k qs => store l (Plain k (fold_left (fun qs kv => pput (fst kv) (snd kv) qs) ps qs))
      | _ => stuck
      end
  | _ => stuck
  end.
(** [Object.assign({}, v)]. *)
Definition copy (v : val) : M val := let! ps := props_of v in alloc (Plain Literal ps).
Definition cloneIfNotShared (cached : val) (shared : bool) : M val := if shared then ret cached else copy cached.

(** [context] stands for the closure that makes the context of the element. *)
Definition _resolveElementOptions (s : controller) (elementType mode : string) (index : option Z) (context : val)
    : M (val * controller) :=
  let active := String.eqb mode "active" in
  let cache := _cachedDataOpts s in
  let cacheKey := elementType ++ "-" ++ mode in
  let sharing := enableOptionSharing s && match index with Some _ => true | None => false end in
  match pget cacheKey cache with
  | Some cached => let! v := cloneIfNotShared cached sharing in ret (v, s)
  | None =>
      let '(scopeKeys, kc) := datasetElementScopeKeys (keyCache s) (_type s) elementType in
      let prefixes := if active then [elementType ++ "Hover"; "hover"; elementType; ""] else [elementType; ""] in
      let! scopes := getOptionScopes ms D (cfg s) (dataset s) scopeKeys false in
      let! es := get ms (defaults D) "elements" in
      let! e := get ms es elementType in
      let! names := Object_keys ms e in
      let! r := resolveNamedOptions call ms (snd scopes) (fst scopes) names context prefixes in
      let ps := fst r in
      match pget "$shared" ps with
      | Some (RBool true) =>
          let! values := alloc (Plain Literal (pput "$shared" (RBool sharing) ps)) in
          let! cached := cloneIfNotShared values sharing in
          ret (values, with_cache s (pput cacheKey cached cache) (snd r) kc (frozen s ++ [cached])%list)
      | _ =>
          let! values := alloc (Plain Literal ps) in
          ret (values, with_cache s cache (snd r) kc (frozen s))
      end
  end.

(** [configure] of the controller forgets the resolved options. *)
Definition reset_cache (s : controller) : controller :=
  mkController (_type s) (dataset s) (enableOptionSharing s) [] (_sharedOptions s) (cfg s) (keyCache s) (frozen s) (animations s).

Definition getSharedOptions (s : controller) (options : val) : M (option val * controller) :=
  let! ps := props_of options in
  if truthy (match pget "$shared" ps with Some v => v | None => RUndef end) then
    match _sharedOptions s with
    | Some v => ret (Some v, s)
    | None => let! v := copy options in ret (Some v, with_shared s (Some v))
    end
  else ret (None, s).
Definition includeOptions (mode : string) (sharedOptions : option val) (animationsDisabled : bool) : bool :=
  match sharedOptions with None => true | Some _ => isDirectUpdateMode mode || animationsDisabled end.
Definition updateSharedOptions (s : controller) (sharedOptions : option val) (mode : string) (newOptions : val) : controller :=
  match sharedOptions with
  | Some v => if isDirectUpdateMode mode then s else animate s v newOptions
  | None => s
  end.
Definition updateElement (s : controller) (element : val) (properties : val) (mode : string) : M controller :=
  if isDirectUpdateMode mode then
    let! ps := props_of properties in let! _ := assign_to element ps in ret s
  else ret (animate s element properties).

(** What the pending animations end with. *)
Fixpoint settle (l : list (val * val)) : M unit :=
  match l with
  | [] => ret tt
  | (target, properties) :: l' =>
      let! ps := props_of properties in let! _ := assign_to target ps in settle l'
  end.

(** [getStyle] for an element of the data or of the dataset, and [_setStyle]. *)
Definition getStyle (s : controller) (datasetElement : option string) (dataElement : string) (index : option Z)
    (active : bool) (context : val) : M (val * controller) :=
  let mode := if active then "active" else "default" in
  match index, datasetElement with
  | None, Some t => _resolveElementOptions s t mode None context
  | _, _ => _resolveElementOptions s dataElement mode
              (Some (match index with Some i => i | None => 0 end)) context
  end.
Definition _setStyle (s : controller) (element : val) (datasetElement : option string) (dataElement : string)
    (index : option Z) (active : bool) (context : val) : M controller :=
  let! _ := assign_to element [("active", RBool active)] in
  let! o := getStyle s datasetElement dataElement index active context in
  let! shared := if active then ret (None, snd o) else getSharedOptions (snd o) (fst o) in
  let options := match fst shared with Some v => v | None => fst o end in
  let! properties := alloc (Plain Literal [("options", options)]) in
  ret (animate (snd shared) element properties).
End Options.
End ElementOptions.

(** ** Facts *)
Module ElementOptionsFacts.
Import Heap Resolver ResolverFacts Config ConfigFacts ElementOptions.
Local Open Scope string_scope.
Local Open Scope heap_scope.

Definition content (h : heap) (v : val) : option (props val) :=
  match v with
  | RRef l => match h !! l with Some (Plain _ ps) => Some ps | _ => None end
  | _ => Some []
  end.
Definition overwrite (h : heap) (v : val) (o : object) : heap :=
  match v with RRef l => <[l := o]> h | _ => h end.

Lemma props_of_content v h ps : content h v = Some ps -> props_of v h = (Done ps, h).
Proof.
  destruct v; cbn; try (intros [= <-]; reflexivity). unfold bind, load.
  destruct (h !! l) as [[k qs|r|c]|]; try discriminate. now intros [= <-].
Qed.
Lemma copy_done v h w h1 : copy v h = (Done w, h1) ->
  exists ps, content h v = Some ps /\ w = RRef (List.length h) /\ h1 = (h ++ [Plain Literal ps])%list.
Proof.
  unfold copy, bind. destruct v; cbn; try (intros [= <- <-]; eexists; repeat split; reflexivity).
  unfold bind, load. destruct (h !! l) as [[k qs|r|c]|] eqn:E; try discriminate. cbn.
  intros [= <- <-]. eexists. repeat split; reflexivity.
Qed.
Lemma copy_content v h ps : content h v = Some ps ->
  copy v h = (Done (RRef (List.length h)), (h ++ [Plain Literal ps])%list).
Proof. intros C. unfold copy. rewrite (bind_done _ _ _ _ _ (props_of_content _ _ _ C)). reflexivity. Qed.
Lemma content_app (h h' : heap) v ps : content h v = Some ps -> content (h ++ h')%list v = Some ps.
Proof.
  unfold content. destruct v as [| | | | | |l|]; auto. destruct (h !! l) as [o|] eqn:E; [|discriminate].
  assert (A : (h ++ h' : heap)%list !! l = Some o) by exact (lookup_app_l_Some h h' l o E). now rewrite A.
Qed.
Lemma content_last (h : heap) k ps : content (h ++ [Plain k ps])%list (RRef (List.length h)) = Some ps.
Proof.
  unfold content. assert (A : (h ++ [Plain k ps] : heap)%list !! List.length h = Some (Plain k ps)).
  { exact (list_lookup_middle h [] (Plain k ps) _ eq_refl). } now rewrite A.
Qed.
Lemma content_overwrite (h : heap) v w o ps : content h v = Some ps -> v <> w -> content (overwrite h w o) v = Some ps.
Proof.
  unfold content, overwrite. destruct v as [| | | | | |l|]; auto. intros C N. destruct w as [| | | | | |m|]; auto.
  assert (A : (<[m := o]> h : heap) !! l = h !! l) by (apply list_lookup_insert_ne; congruence).
  now rewrite A.
Qed.
Lemma content_in h v ps l : content h v = Some ps -> v = RRef l -> (l < List.length h)%nat.
Proof. intros C ->. cbn in C. destruct (h !! l) eqn:E; [|discriminate]. now apply lookup_lt_Some in E. Qed.

Section Cached.
Context (call : string -> list val -> script) (ms : ops) (D : default_objects).
Abbreviation resolve := (_resolveElementOptions call ms D).
Definition sharing (s : controller) (index : option Z) : bool :=
  enableOptionSharing s && match index with Some _ => true | None => false end.

(** What a call leaves in the cache: an object with the content of the result, which is
    the result itself for those that share. *)
Lemma resolve_cached s t mode i ctx h v s1 h1 c :
  resolve s t mode i ctx h = (Done (v, s1), h1) -> pget (t ++ "-" ++ mode) (_cachedDataOpts s1) = Some c ->
  enableOptionSharing s1 = enableOptionSharing s /\
  (if sharing s i then v = c else v <> c /\ exists ps, content h1 v = Some ps /\ content h1 c = Some ps).
Proof.
  unfold _resolveElementOptions. change (enableOptionSharing s && _) with (sharing s i).
  destruct (pget (t ++ "-" ++ mode) (_cachedDataOpts s)) as [c0|] eqn:P.
  - intros E C. unfold cloneIfNotShared in E. destruct (sharing s i) eqn:Sh.
    + injection E as <- <- <-. split; congruence.
    + unfold bind in E. destruct (copy c0 h) as [[w|?|] h'] eqn:K; try discriminate.
      injection E as <- <- <-. destruct (copy_done _ _ _ _ K) as (ps & Cp & -> & ->).
      replace c with c0 by congruence. split; [reflexivity|]. split.
      * intros <-. pose proof (content_in _ _ _ _ Cp eq_refl). lia.
      * exists ps. split; [apply content_last|now apply content_app].
  - destruct (datasetElementScopeKeys _ _ _) as [sk kc]. unfold bind.
    destruct (getOptionScopes _ _ _ _ _ _ h) as [[sc|?|] ha]; try discriminate.
    destruct (get ms (defaults D) "elements" ha) as [[es|?|] hb]; try discriminate.
    destruct (get ms es t hb) as [[e|?|] hc]; try discriminate.
    destruct (Object_keys ms e hc) as [[names|?|] hd]; try discriminate.
    destruct (resolveNamedOptions _ _ _ _ _ _ _ hd) as [[r|?|] he]; try discriminate.
    destruct (pget "$shared" (fst r)) as [[| |[|]| | | | |]|];
      try (intros E C; injection E as <- <- <-; cbn [_cachedDataOpts with_cache] in C; congruence).
    set (ps := pput "$shared" (RBool (sharing s i)) (fst r)). cbn [alloc].
    unfold cloneIfNotShared. destruct (sharing s i) eqn:Sh.
    + intros E C. injection E as <- <- <-. cbn [_cachedDataOpts with_cache] in C. rewrite pget_pput in C.
      injection C as <-. now split.
    + rewrite (copy_content _ _ ps) by apply content_last. intros E C. injection E as <- <- <-.
      cbn [_cachedDataOpts with_cache] in C. rewrite pget_pput in C. injection C as <-. split; [reflexivity|].
      split; [intros [= X]; rewrite length_app in X; cbn in X; lia|]. exists ps.
      split; [now apply content_app, content_last|apply content_last].
Qed.

(** Options that need no context are resolved once.  With option sharing every later
    call for an element gets the very same object; without it every call gets an object
    of its own with the same properties, whatever a caller has done with an object it got
    before. *)
Theorem element_options_cached s t mode i j ctx ctx' h v s1 h1 c o :
  resolve s t mode i ctx h = (Done (v, s1), h1) ->
  pget (t ++ "-" ++ mode) (_cachedDataOpts s1) = Some c ->
  sharing s j = sharing s i ->
  if sharing s i then resolve s1 t mode j ctx' h1 = (Done (v, s1), h1)
  else exists w h2, resolve s1 t mode j ctx' (overwrite h1 v o) = (Done (w, s1), h2) /\ w <> v /\
       content h2 w = content h1 v.
Proof.
  intros E C Sj. destruct (resolve_cached _ _ _ _ _ _ _ _ _ _ E C) as [En R].
  assert (Sj' : sharing s1 j = sharing s i) by (rewrite <- Sj; unfold sharing; now rewrite En).
  unfold _resolveElementOptions. change (enableOptionSharing s1 && _) with (sharing s1 j). rewrite C, Sj'.
  destruct (sharing s i); [subst; reflexivity|]. destruct R as [N (ps & Cv & Cc)].
  unfold cloneIfNotShared.
  assert (C2 : content (overwrite h1 v o) c = Some ps) by (apply content_overwrite; [exact Cc|congruence]).
  rewrite (bind_done _ _ _ _ _ (copy_content _ _ _ C2)). do 2 eexists. split; [reflexivity|]. split.
  - intros X. pose proof (content_in _ _ _ _ Cv (eq_sym X)) as L. rewrite <- X in L.
    assert (El : List.length (overwrite h1 (RRef (List.length (overwrite h1 v o))) o) = List.length h1) by apply length_insert.
    assert (Eo : List.length (overwrite h1 v o) = List.length h1) by (destruct v; try reflexivity; apply length_insert).
    lia.
  - rewrite content_last. exact (eq_sym Cv).
Qed.
End Cached.

(** *** Shared options *)
(** After an animated update the shared object has every property of the new options. *)
Lemma assign_all ps : forall (qs : props val) k v, List.NoDup (List.map fst ps) -> pget k ps = Some v ->
  pget k (fold_left (fun qs kv => pput (fst kv) (snd kv) qs) ps qs) = Some v.
Proof.
  assert (Keep : forall ps qs k, ~ In k (List.map fst ps) ->
    pget k (fold_left (fun qs (kv : string * val) => pput (fst kv) (snd kv) qs) ps qs) = pget k qs).
  { induction ps0 as [|[k' v'] ps0 IH]; intros qs k N; [reflexivity|]. cbn [fold_left fst snd].
    rewrite IH by (intros I; apply N; now right). cbn in N. clear - N. induction qs as [|[x y] qs IHq]; cbn.
    - destruct (String.eqb_spec k k') as [->|]; [exfalso; auto|reflexivity].
    - destruct (String.eqb_spec k' x) as [->|]; cbn; destruct (String.eqb_spec k x) as [->|]; auto.
      exfalso; auto. }
  induction ps as [|[k' v'] ps IH]; intros qs k v N P; [discriminate|]. cbn [fold_left fst snd].
  inversion N as [|? ? N1 N2]; subst. cbn in P. destruct (String.eqb_spec k k') as [->|Ne].
  - injection P as ->. rewrite Keep by exact N1. apply pget_pput.
  - now apply IH.
Qed.
Lemma shared_follow_update s v opts mode h l k qs ps :
  v = RRef l -> h !! l = Some (Plain k qs) -> animations s = [] -> isDirectUpdateMode mode = false ->
  content h opts = Some ps -> List.NoDup (List.map fst ps) ->
  exists qs', settle (animations (updateSharedOptions s (Some v) mode opts)) h = (Done tt, <[l := Plain k qs']> h) /\
    forall x w, pget x ps = Some w -> pget x qs' = Some w.
Proof.
  intros -> L A M C N. unfold updateSharedOptions. rewrite M. cbn [animate animations]. rewrite A. cbn [app settle].
  rewrite (bind_done _ _ _ _ _ (props_of_content _ _ _ C)). unfold assign_to.
  erewrite bind_done. 2: { rewrite (bind_done _ _ _ _ _ (load_done _ _ _ L)). reflexivity. }
  eexists. split; [reflexivity|]. intros x w P. now apply assign_all.
Qed.

(** In the modes that do not animate nothing is copied: the elements go on with the
    object that was shared before the options changed. *)
Definition demo_shared : controller := mkController "line" (RRef 2) true [] None demo_config [] [] [].
Definition new_options : val := RRef 1.
Lemma none_mode_keeps_stale :
  let h := [Plain Literal [("$shared", RBool true); ("width", RNum 1%js)];
            Plain Literal [("$shared", RBool true); ("width", RNum 2%js)]] in
  match getSharedOptions demo_shared (RRef 0) h with
  | (Done (Some v, s), h1) =>
      match getSharedOptions s new_options h1 with
      | (Done (shared, s1), h2) =>
          shared = Some v /\ includeOptions "none" shared false = true /\
          updateSharedOptions s1 shared "none" new_options = s1 /\
          content h2 v = Some [("$shared", RBool true); ("width", RNum 1%js)]
      | _ => False
      end
  | _ => False
  end.
Proof. vm_compute. repeat split. Qed.

Definition demo_ctl : controller := mkController "line" (RRef 2) false [] None demo_config [] [] [].
Definition demo_heap2 : heap :=
  [Plain Literal [("elements", RRef 1)]; Plain Literal [("line", RRef 2)]; Plain Literal [("width", RNum 1%js)];
   Plain Literal [("line", RRef 4)]; Plain Literal [("width", RNum 2%js)];
   Plain Literal [("width", RNum 3%js); ("elements", RRef 1)]; Plain Literal []].
Definition demo_first := _resolveElementOptions demo_call demo_ops demo_defaults demo_ctl "line" "default" None RUndef demo_heap2.
Definition demo_result : val * controller * heap :=
  match demo_first with (Done (v, s), h) => (v, s, h) | (_, h) => (RUndef, demo_ctl, h) end.
Definition demo_cached : val :=
  match pget "line-default" (_cachedDataOpts (snd (fst demo_result))) with Some c => c | None => RUndef end.
Lemma element_options_cached_witness :
  exists w h2, _resolveElementOptions demo_call demo_ops demo_defaults (snd (fst demo_result)) "line" "default" None RUndef
    (overwrite (snd demo_result) (fst (fst demo_result)) (Plain Literal [])) = (Done (w, snd (fst demo_result)), h2) /\
    w <> fst (fst demo_result) /\ content h2 w = content (snd demo_result) (fst (fst demo_result)).
Proof.
  refine (element_options_cached demo_call demo_ops demo_defaults demo_ctl "line" "default" None None RUndef RUndef
    demo_heap2 (fst (fst demo_result)) (snd (fst demo_result)) (snd demo_result) demo_cached (Plain Literal []) _ _ eq_refl).
  - vm_compute. reflexivity.
  - vm_compute. reflexivity.
Defined.
End ElementOptionsFacts.
