(* ===== verification/Contexts.v ===== *)
(** The contexts that scriptable options are called with: objects chained by their
    prototypes, from the chart to its datasets and scales to their data and ticks, each made
    at its first use and kept with its owner (chart.js: createContext, the [getContext] of
    charts, controllers and scales, the contexts of tooltips and point labels). *)
From Stdlib Require Import ZArith Lia Bool List Ascii String.
From stdpp Require Import base list.
From S2P Require Import Prelude JsNumber JsArray JsValue.
Import ListNotations.
Open Scope Z_scope.

Module Contexts.
Import Js.
Local Open Scope string_scope.

(** The objects that contexts are kept with or refer to, by the reference of each. *)
Inductive object := TheChart | AController (i : nat) | ADataset (i : nat) | AnElement (i : nat) | AScale (i : nat) | ATick (i : nat) | ATooltip.
#[export] Instance object_eq : EqDecision object.
Proof. solve_decision. Defined.
Inductive cval := CVal (v : value) | CObj (o : object) | CItems (l : list nat).
Record ctx := mkCtx { prototype : option nat; own : list (string * cval) }.
(** The contexts made so far, and the [$context] of the objects that have one. *)
Record store := mkStore { ctxs : list ctx; slots : list (object * nat) }.
Definition slot (s : store) (o : object) : option nat :=
  match List.find (fun p => bool_decide (fst p = o)) (slots s) with Some (_, i) => Some i | None => None end.
Definition cnum (n : nat) : cval := CVal (VNum (Num.of_Z (Z.of_nat n))).
Definition cstr (x : string) : cval := CVal (VStr x).

Definition own_get (k : string) (o : list (string * cval)) : option cval :=
  match List.find (fun p => String.eqb k (fst p)) o with Some (_, v) => Some v | None => None end.
Fixpoint own_put (k : string) (v : cval) (o : list (string * cval)) : list (string * cval) :=
  match o with
  | [] => [(k, v)]
  | (k', v') :: r => if String.eqb k k' then (k, v) :: r else (k', v') :: own_put k v r
  end.
Definition own_puts (props o : list (string * cval)) : list (string * cval) :=
  fold_left (fun o kv => own_put (fst kv) (snd kv) o) props o.

(** Reading a property of a context: its own, or that of its prototypes.  A prototype is
    made before the object, so there are fewer steps than contexts. *)
Fixpoint read_from (n : nat) (l : list ctx) (i : nat) (k : string) : cval :=
  match n with
  | O => CVal Undefined
  | S n =>
      match l !! i with
      | None => CVal Undefined
      | Some c => match own_get k (own c), prototype c with
                  | Some v, _ => v
                  | None, Some p => read_from n l p k
                  | None, None => CVal Undefined
                  end
      end
  end.
Definition read (s : store) (i : nat) (k : string) : cval := read_from (length (ctxs s)) (ctxs s) i k.
(** Assigning properties: they become its own. *)
Definition assign (s : store) (i : nat) (props : list (string * cval)) : store :=
  mkStore (alter (fun c => mkCtx (prototype c) (own_puts props (own c))) i (ctxs s)) (slots s).

Definition createContext (s : store) (parentContext : option nat) (context : list (string * cval)) : store * nat :=
  (mkStore (ctxs s ++ [mkCtx parentContext context])%list (slots s), length (ctxs s)).
(** [o.$context || (o.$context = ...)]. *)
Definition keep (o : object) (r : store * nat) : store * nat := (mkStore (ctxs (fst r)) ((o, snd r) :: slots (fst r)), snd r).

Definition chart_getContext (s : store) : store * nat :=
  match slot s TheChart with
  | Some i => (s, i)
  | None => keep TheChart (createContext s None [("chart", CObj TheChart); ("type", cstr "chart")])
  end.

(** A controller: its index, the dataset with its data, the elements and the parsed data. *)
Record controller := mkController { cindex : nat; dataset : nat; rawData : list value; elements : list nat; parsedData : list value }.
Definition createDatasetContext (s : store) (parent : nat) (index : nat) : store * nat :=
  createContext s (Some parent)
    [("active", CVal (VBool false)); ("dataset", CVal Undefined); ("datasetIndex", cnum index); ("index", cnum index);
     ("mode", cstr "default"); ("type", cstr "dataset")].
Definition createDataContext (s : store) (parent : nat) (index : nat) (element : nat) : store * nat :=
  createContext s (Some parent)
    [("active", CVal (VBool false)); ("dataIndex", cnum index); ("parsed", CVal Undefined); ("raw", CVal Undefined);
     ("element", CObj (AnElement element)); ("index", cnum index); ("mode", cstr "default"); ("type", cstr "data")].
(** [getContext] without an index of a datum. *)
Definition dataset_getContext (s : store) (c : controller) (active : bool) (mode : value) : store * nat :=
  let '(s, i) := match slot s (AController (cindex c)) with
                 | Some i => (s, i)
                 | None => let '(s, p) := chart_getContext s in keep (AController (cindex c)) (createDatasetContext s p (cindex c))
                 end in
  (assign s i [("dataset", CObj (ADataset (dataset c))); ("index", cnum (cindex c)); ("datasetIndex", cnum (cindex c));
               ("active", CVal (VBool active)); ("mode", CVal mode)], i).
Definition getContext (s : store) (c : controller) (index : option nat) (active : bool) (mode : value) : store * nat :=
  match index with
  | None => dataset_getContext s c active mode
  | Some index =>
      match elements c !! index with
      | None => dataset_getContext s c active mode
      | Some e =>
          let '(s, i) := match slot s (AnElement e) with
                         | Some i => (s, i)
                         | None => let '(s, p) := dataset_getContext s c false Undefined in keep (AnElement e) (createDataContext s p index e)
                         end in
          (assign s i [("parsed", CVal (nth index (parsedData c) Undefined)); ("raw", CVal (nth index (rawData c) Undefined));
                       ("index", cnum index); ("dataIndex", cnum index); ("active", CVal (VBool active)); ("mode", CVal mode)], i)
      end
  end.

(** A scale and the ticks it has now. *)
Record scale := mkScale { sref : nat; ticks : list nat; pointLabels : list value }.
Definition createScaleContext (s : store) (parent : nat) (scale : nat) : store * nat :=
  createContext s (Some parent) [("scale", CObj (AScale scale)); ("type", cstr "scale")].
Definition createTickContext (s : store) (parent : nat) (index : nat) (tick : nat) : store * nat :=
  createContext s (Some parent) [("tick", CObj (ATick tick)); ("index", cnum index); ("type", cstr "tick")].
Definition scale_context (s : store) (sc : scale) : store * nat :=
  match slot s (AScale (sref sc)) with
  | Some i => (s, i)
  | None => let '(s, p) := chart_getContext s in keep (AScale (sref sc)) (createScaleContext s p (sref sc))
  end.
Definition scale_getContext (s : store) (sc : scale) (index : option nat) : store * nat :=
  match index with
  | None => scale_context s sc
  | Some index =>
      match ticks sc !! index with
      | None => scale_context s sc
      | Some t =>
          match slot s (ATick t) with
          | Some i => (s, i)
          | None => let '(s, p) := scale_context s sc in keep (ATick t) (createTickContext s p index t)
          end
      end
  end.
(** These are made anew at every call; None is undefined. *)
Definition createPointLabelContext (s : store) (parent : nat) (index : nat) (label : value) : store * nat :=
  createContext s (Some parent) [("label", CVal label); ("index", cnum index); ("type", cstr "pointLabel")].
Definition getPointLabelContext (s : store) (sc : scale) (index : nat) : store * option nat :=
  match pointLabels sc !! index with
  | None => (s, None)
  | Some l => let '(s, p) := scale_context s sc in let '(s, i) := createPointLabelContext s p index l in (s, Some i)
  end.
Definition createTooltipContext (s : store) (parent : nat) (tooltipItems : list nat) : store * nat :=
  createContext s (Some parent) [("tooltip", CObj ATooltip); ("tooltipItems", CItems tooltipItems); ("type", cstr "tooltip")].
(** [getContext] of the tooltip; its [update] forgets the context. *)
Definition tooltip_getContext (s : store) (tooltipItems : list nat) : store * nat :=
  match slot s ATooltip with
  | Some i => (s, i)
  | None => let '(s, p) := chart_getContext s in keep ATooltip (createTooltipContext s p tooltipItems)
  end.
Definition tooltip_forget (s : store) : store := mkStore (ctxs s) (List.filter (fun p => negb (bool_decide (fst p = ATooltip))) (slots s)).

(** ** Any calls, from a chart without contexts *)
Inductive call :=
  OfChart | OfData (c : controller) (index : option nat) (active : bool) (mode : value) | OfScale (sc : scale) (index : option nat)
  | OfLabel (sc : scale) (index : nat) | OfTooltip (tooltipItems : list nat) | ForgetTooltip.
Definition step (s : store) (c : call) : store :=
  match c with
  | OfChart => fst (chart_getContext s)
  | OfData c index active mode => fst (getContext s c index active mode)
  | OfScale sc index => fst (scale_getContext s sc index)
  | OfLabel sc index => fst (getPointLabelContext s sc index)
  | OfTooltip l => fst (tooltip_getContext s l)
  | ForgetTooltip => tooltip_forget s
  end.
Definition run (s : store) (cs : list call) : store := fold_left step cs s.
Definition no_contexts : store := mkStore [] [].
End Contexts.

(** ** Facts *)
Module ContextFacts.
Import Js Contexts.
Local Open Scope string_scope.

Lemma own_get_cons k k' v o : own_get k ((k', v) :: o) = if String.eqb k k' then Some v else own_get k o.
Proof. unfold own_get. cbn. destruct (String.eqb k k'); reflexivity. Qed.
Lemma own_get_put k k' v o : own_get k (own_put k' v o) = if String.eqb k k' then Some v else own_get k o.
Proof.
  induction o as [|[j w] o IH]; cbn; [apply own_get_cons|]. destruct (String.eqb_spec k' j) as [<-|N]; rewrite !own_get_cons.
  - destruct (String.eqb k k'); reflexivity.
  - rewrite IH. destruct (String.eqb_spec k j) as [->|]; [|reflexivity]. destruct (String.eqb_spec j k'); [congruence|reflexivity].
Qed.
(** The last assignment of a key counts; other keys stay. *)
Lemma own_get_puts k props : forall o, own_get k (own_puts props o) =
  match own_get k (rev props) with Some v => Some v | None => own_get k o end.
Proof.
  induction props as [|[k' v] props IH]; intros o; [reflexivity|]. unfold own_puts in *. cbn [fold_left fst snd]. rewrite IH. cbn [rev].
  assert (A : forall a, own_get k (a ++ [(k', v)])%list = match own_get k a with Some w => Some w | None => if String.eqb k k' then Some v else None end).
  { intros a. induction a as [|[j w] a IA]; cbn [app]; rewrite own_get_cons; [reflexivity|]. rewrite own_get_cons.
    destruct (String.eqb k j); [reflexivity|apply IA]. }
  rewrite A, own_get_put. destruct (own_get k (rev props)); [reflexivity|]. now destruct (String.eqb k k').
Qed.
Lemma slot_cons l o i s o' : slot (mkStore l ((o, i) :: s)) o' = if decide (o = o') then Some i else slot (mkStore l s) o'.
Proof. unfold slot. cbn. rewrite bool_decide_decide. destruct (decide (o = o')); reflexivity. Qed.
Lemma slot_ctxs l l' s o : slot (mkStore l s) o = slot (mkStore l' s) o.
Proof. reflexivity. Qed.
Lemma slot_eta s o : slot (mkStore (ctxs s) (slots s)) o = slot s o.
Proof. now destruct s. Qed.

(** What a context is for: the type it has and the property that holds its object. *)
Definition kind_of (o : object) : string :=
  match o with
  | TheChart => "chart" | AController _ | ADataset _ => "dataset" | AnElement _ => "data" | AScale _ => "scale"
  | ATick _ => "tick" | ATooltip => "tooltip"
  end.
Definition self_key (o : object) : option string :=
  match o with
  | TheChart => Some "chart" | AController _ | ADataset _ => None | AnElement _ => Some "element" | AScale _ => Some "scale"
  | ATick _ => Some "tick" | ATooltip => Some "tooltip"
  end.
Definition is_for (o : object) (c : list (string * cval)) : Prop :=
  own_get "type" c = Some (cstr (kind_of o)) /\
  match self_key o with Some k => own_get k c = Some (CObj o) | None => True end.
(** Each context but the chart's has an older one for its prototype and leaves [chart] to it. *)
Definition linked (i : nat) (c : ctx) : Prop :=
  match prototype c with
  | None => own_get "chart" (own c) = Some (CObj TheChart)
  | Some p => (p < i)%nat /\ own_get "chart" (own c) = None
  end.
Record ok (s : store) : Prop := mkOk {
  ok_linked : forall i c, ctxs s !! i = Some c -> linked i c;
  ok_slots : forall o i, slot s o = Some i -> exists c, ctxs s !! i = Some c /\ is_for o (own c) }.
(** What a call of [getContext] does: it keeps the contexts there are, with their prototypes. *)
Record gets (s : store) (r : store * nat) (o : object) : Prop := mkGets {
  gets_ok : ok (fst r);
  gets_slot : slot (fst r) o = Some (snd r);
  gets_kept : forall o' j, slot s o' = Some j -> slot (fst r) o' = Some j }.

Lemma ok_start : ok no_contexts.
Proof. split; intros ? ? H; cbn in H; [now rewrite lookup_nil in H|discriminate]. Qed.
Lemma gets_have s o i : ok s -> slot s o = Some i -> gets s (s, i) o.
Proof. now split. Qed.
(** A context is made and kept with its owner. *)
Lemma ok_new s o parent props : ok s -> is_for o props -> linked (length (ctxs s)) (mkCtx parent props) ->
  ok (fst (keep o (createContext s parent props))).
Proof.
  intros O F L. split; cbn [fst snd keep createContext ctxs slots].
  - intros i c H. apply lookup_app_Some in H as [H|[G H]]; [now apply (ok_linked s O)|].
    apply list_lookup_singleton_Some in H as [E <-]. replace i with (length (ctxs s)) by lia. exact L.
  - intros o' i. rewrite slot_cons. destruct (decide (o = o')) as [<-|].
    + intros [= <-]. rewrite list_lookup_middle by reflexivity. eauto.
    + intros H. rewrite (slot_ctxs _ (ctxs s)), slot_eta in H. destruct (ok_slots s O _ _ H) as (c & C & ?).
      exists c. split; [|assumption]. now apply lookup_app_l_Some.
Qed.
Lemma slot_new s o parent props o' : slot (fst (keep o (createContext s parent props))) o' =
  if decide (o = o') then Some (length (ctxs s)) else slot s o'.
Proof. cbn. rewrite slot_cons. now rewrite (slot_ctxs _ (ctxs s)), slot_eta. Qed.
Lemma gets_in s r o : gets s r o -> (snd r < length (ctxs (fst r)))%nat.
Proof. intros G. destruct (ok_slots _ (gets_ok _ _ _ G) _ _ (gets_slot _ _ _ G)) as (c & C & _). now apply lookup_lt_Some in C. Qed.
Lemma gets_then s s' r o : (forall o' j, slot s o' = Some j -> slot s' o' = Some j) -> gets s' r o -> gets s r o.
Proof. intros K [O S K']. split; auto. Qed.
(** Properties other than the identifying ones may be assigned. *)
Definition free (props : list (string * cval)) : bool :=
  forallb (fun k => match own_get k (rev props) with None => true | _ => false end) ["type"; "chart"; "element"; "scale"; "tick"; "tooltip"].
Lemma free_get props k o : free props = true -> In k ["type"; "chart"; "element"; "scale"; "tick"; "tooltip"] ->
  own_get k (own_puts props o) = own_get k o.
Proof.
  intros F I. rewrite own_get_puts. unfold free in F. rewrite forallb_forall in F. specialize (F k I).
  now destruct (own_get k (rev props)).
Qed.
Lemma ok_assign s i props : free props = true -> ok s -> ok (assign s i props).
Proof.
  intros F [L S]. split; cbn [ctxs assign].
  - intros j c H. destruct (decide (i = j)) as [<-|N]; [|rewrite list_lookup_alter_ne in H by exact N; now apply L].
    rewrite list_lookup_alter_eq in H. destruct (ctxs s !! i) as [c'|] eqn:E; [|discriminate]. injection H as <-.
    specialize (L _ _ E). unfold linked in *. cbn. rewrite free_get by (auto; cbn; auto). exact L.
  - intros o j H. destruct (S o j H) as (c & C & T & K). destruct (decide (i = j)) as [->|N].
    + eexists. split; [now rewrite list_lookup_alter_eq, C|]. cbn. split; [now rewrite free_get by (auto; cbn; auto)|].
      destruct o; cbn [self_key] in K |- *; try exact I; now rewrite free_get by (auto; cbn; tauto).
    + exists c. split; [now rewrite list_lookup_alter_ne|]. now split.
Qed.
Lemma gets_assign s r o props : free props = true -> gets s r o -> gets s (assign (fst r) (snd r) props, snd r) o.
Proof. intros F [O S K]. split; [now apply ok_assign|exact S|exact K]. Qed.
(** Below the context of another object. *)
Lemma gets_child s r po o props : gets s r po -> slot s o = None -> is_for o props -> own_get "chart" props = None ->
  gets s (keep o (createContext (fst r) (Some (snd r)) props)) o.
Proof.
  intros G N F C. split.
  - apply ok_new; [apply G|exact F|]. split; [apply (gets_in _ _ _ G)|exact C].
  - rewrite slot_new. now destruct (decide (o = o)).
  - intros o' j H. rewrite slot_new. destruct (decide (o = o')) as [<-|]; [congruence|]. now apply G.
Qed.
Ltac identity := split; [reflexivity|cbn; try reflexivity; exact I].

(** A getter that made its context below the one of [G]. *)
Ltac child G E :=
  unfold createDatasetContext, createDataContext, createScaleContext, createTickContext, createTooltipContext;
  match goal with |- context [keep ?o (createContext ?s1 (Some ?p) ?props)] =>
    let H := fresh "H" in
    assert (H := gets_child _ (s1, p) _ o props G E ltac:(identity) eq_refl); cbn [fst snd] in H
  end.

Lemma gets_chart s : ok s -> gets s (chart_getContext s) TheChart.
Proof.
  intros O. unfold chart_getContext. destruct (slot s TheChart) as [i|] eqn:E; [now apply gets_have|]. split.
  - apply ok_new; [exact O|identity|reflexivity].
  - rewrite slot_new. now destruct (decide (TheChart = TheChart)).
  - intros o' j H. rewrite slot_new. destruct (decide (TheChart = o')) as [<-|]; [congruence|exact H].
Qed.
Lemma gets_dataset s c active mode : ok s -> gets s (dataset_getContext s c active mode) (AController (cindex c)).
Proof.
  intros O. unfold dataset_getContext. destruct (slot s (AController (cindex c))) as [i|] eqn:E.
  - apply (gets_assign s (s, i)); [reflexivity|now apply gets_have].
  - pose proof (gets_chart s O) as G. destruct (chart_getContext s) as [s1 p]. unfold createDatasetContext.
    child G E. destruct (keep _ _) as [s2 i]. now apply (gets_assign s (s2, i)).
Qed.
Lemma gets_data s c index active mode : ok s -> exists o, gets s (getContext s c index active mode) o.
Proof.
  intros O. unfold getContext. destruct index as [index|]; [|eexists; now apply gets_dataset].
  destruct (elements c !! index) as [e|]; [|eexists; now apply gets_dataset]. exists (AnElement e).
  destruct (slot s (AnElement e)) as [i|] eqn:E.
  - apply (gets_assign s (s, i)); [reflexivity|now apply gets_have].
  - pose proof (gets_dataset s c false Undefined O) as G. destruct (dataset_getContext s c false Undefined) as [s1 p].
    child G E. destruct (keep _ _) as [s2 i]. now apply (gets_assign s (s2, i)).
Qed.
Lemma gets_scale s sc : ok s -> gets s (scale_context s sc) (AScale (sref sc)).
Proof.
  intros O. unfold scale_context. destruct (slot s (AScale (sref sc))) as [i|] eqn:E; [now apply gets_have|].
  pose proof (gets_chart s O) as G. destruct (chart_getContext s) as [s1 p]. child G E. exact H.
Qed.
Lemma gets_tick s sc index : ok s -> exists o, gets s (scale_getContext s sc index) o.
Proof.
  intros O. unfold scale_getContext. destruct index as [index|]; [|eexists; now apply gets_scale].
  destruct (ticks sc !! index) as [t|]; [|eexists; now apply gets_scale]. exists (ATick t).
  destruct (slot s (ATick t)) as [i|] eqn:E; [now apply gets_have|].
  pose proof (gets_scale s sc O) as G. destruct (scale_context s sc) as [s1 p]. child G E. exact H.
Qed.
Lemma gets_tooltip s l : ok s -> gets s (tooltip_getContext s l) ATooltip.
Proof.
  intros O. unfold tooltip_getContext. destruct (slot s ATooltip) as [i|] eqn:E; [now apply gets_have|].
  pose proof (gets_chart s O) as G. destruct (chart_getContext s) as [s1 p]. child G E. exact H.
Qed.
(** The context of a point label is kept by none. *)
Lemma ok_label s p props : ok s -> (p < length (ctxs s))%nat -> own_get "chart" props = None -> ok (fst (createContext s (Some p) props)).
Proof.
  intros [L S] P C. split; cbn.
  - intros i c H. apply lookup_app_Some in H as [H|[G H]]; [now apply L|].
    apply list_lookup_singleton_Some in H as [E <-]. split; [lia|exact C].
  - intros o i H. destruct (S o i H) as (c & K & ?). exists c. split; [now apply lookup_app_l_Some|assumption].
Qed.
Lemma slot_forget s o : slot (tooltip_forget s) o = if decide (o = ATooltip) then None else slot s o.
Proof.
  destruct s as [l ps]. unfold tooltip_forget, slot. cbn [slots]. induction ps as [|[o' i] ps IH]; cbn.
  - now destruct (decide (o = ATooltip)).
  - rewrite !bool_decide_decide in *. destruct (decide (o' = ATooltip)) as [->|N]; cbn.
    + rewrite IH. destruct (decide (o = ATooltip)) as [->|]; [reflexivity|]. destruct (decide (ATooltip = o)); congruence.
    + rewrite bool_decide_decide. destruct (decide (o' = o)) as [->|]; [destruct (decide (o = ATooltip)); congruence|exact IH].
Qed.

(** Every call keeps the links, and keeps the contexts of all objects but the tooltip. *)
Definition keeps (s s' : store) : Prop := ok s' /\ forall o i, o <> ATooltip -> slot s o = Some i -> slot s' o = Some i.
Lemma keeps_gets s r o : gets s r o -> keeps s (fst r).
Proof. intros G. split; [apply G|]. intros o' i _. apply G. Qed.
Lemma step_keeps s c : ok s -> keeps s (step s c).
Proof.
  intros O. destruct c as [|c index active mode|sc index|sc index|l|]; cbn [step].
  - eapply keeps_gets, gets_chart, O.
  - destruct (gets_data s c index active mode O) as [o G]. eapply keeps_gets, G.
  - destruct (gets_tick s sc index O) as [o G]. eapply keeps_gets, G.
  - unfold getPointLabelContext. destruct (pointLabels sc !! index) as [lb|]; [|now split].
    pose proof (gets_scale s sc O) as G. destruct (scale_context s sc) as [s1 p]. unfold createPointLabelContext. split.
    + apply (ok_label s1 p); [apply G|apply (gets_in _ _ _ G)|reflexivity].
    + intros o i _ H. now apply G in H.
  - eapply keeps_gets, gets_tooltip, O.
  - split.
    + split; [apply O|]. intros o i. rewrite slot_forget. destruct (decide (o = ATooltip)); [discriminate|apply O].
    + intros o i N H. rewrite slot_forget. now destruct (decide (o = ATooltip)).
Qed.
Lemma run_keeps cs : forall s, ok s -> keeps s (run s cs).
Proof.
  induction cs as [|c cs IH]; intros s O; [now split|]. destruct (step_keeps s c O) as [O1 K1].
  destruct (IH _ O1) as [O2 K2]. split; [exact O2|]. intros o i N H. apply K2; auto.
Qed.
Lemma read_chart s : ok s -> forall n i, (i < n)%nat -> (i < length (ctxs s))%nat -> read_from n (ctxs s) i "chart" = CObj TheChart.
Proof.
  intros O. induction n as [|n IH]; intros i I J; [lia|]. cbn. destruct (lookup_lt_is_Some_2 _ _ J) as [c C]. rewrite C.
  pose proof (ok_linked s O i c C) as L. unfold linked in L. destruct (prototype c) as [p|].
  - destruct L as [L ->]. apply IH; lia.
  - now rewrite L.
Qed.
(** Whatever the calls: a context that was made for an object stays its context and tells
    its type and its object, and the chart can be read from every context. *)
Theorem contexts_kept cs cs' :
  let s := run no_contexts cs in
  (forall i, (i < length (ctxs s))%nat -> read s i "chart" = CObj TheChart) /\
  (forall o i, slot s o = Some i -> exists c, ctxs s !! i = Some c /\ is_for o (own c)) /\
  forall o i, o <> ATooltip -> slot s o = Some i -> slot (run s cs') o = Some i.
Proof.
  intros s. destruct (run_keeps cs no_contexts ok_start) as [O _]. fold s in O. split; [|split].
  - intros i I. now apply read_chart.
  - apply O.
  - apply (run_keeps cs' s O).
Qed.

(** *** What a scriptable option of a datum reads *)
Lemma read_own s i c k v : ctxs s !! i = Some c -> own_get k (own c) = Some v -> read s i k = v.
Proof.
  intros C G. unfold read. destruct (ctxs s) as [|c0 l] eqn:E; [now rewrite lookup_nil in C|]. cbn [length read_from]. now rewrite C, G.
Qed.
Lemma read_assigned s i props k v : (i < length (ctxs s))%nat -> own_get k (rev props) = Some v -> read (assign s i props) i k = v.
Proof.
  intros I G. destruct (lookup_lt_is_Some_2 _ _ I) as [c C]. eapply read_own; cbn [ctxs assign].
  - rewrite list_lookup_alter_eq, C. reflexivity.
  - cbn. now rewrite own_get_puts, G.
Qed.
(** C8: whatever contexts were asked for before, of the chart, of data, scales, ticks, labels
    and tooltips: the context a controller gives for a datum that has an element is the one
    kept with the element, and what a scriptable option reads in it is of this call: the
    index of the datum (also when the element was at another index before), its raw and
    its parsed value, the active flag and the mode asked for; and its type, its element
    and, through the prototypes, the chart. *)
Theorem datum_is_current cs c index e active mode : elements c !! index = Some e ->
  let '(s, i) := getContext (run no_contexts cs) c (Some index) active mode in
  slot s (AnElement e) = Some i /\
  List.map (read s i) ["index"; "dataIndex"; "raw"; "parsed"; "active"; "mode"; "type"; "element"; "chart"] =
    [cnum index; cnum index; CVal (nth index (rawData c) Undefined); CVal (nth index (parsedData c) Undefined);
     CVal (VBool active); CVal mode; cstr "data"; CObj (AnElement e); CObj TheChart].
Proof.
  intros E. destruct (run_keeps cs no_contexts ok_start) as [O _]. set (s0 := run no_contexts cs) in *.
  destruct (gets_data s0 c (Some index) active mode O) as [o G]. unfold getContext in *. rewrite E in *.
  assert (K : exists s1 i, gets s0 (s1, i) (AnElement e) /\
    match slot s0 (AnElement e) with
    | Some i => (s0, i)
    | None => let '(s, p) := dataset_getContext s0 c false Undefined in keep (AnElement e) (createDataContext s p index e)
    end = (s1, i)).
  { clear G. destruct (slot s0 (AnElement e)) as [i|] eqn:N; [exists s0, i; split; [now apply gets_have|reflexivity]|].
    pose proof (gets_dataset s0 c false Undefined O) as G. destruct (dataset_getContext s0 c false Undefined) as [s1 p].
    child G N. destruct (keep _ _) as [s2 i]. eauto. }
  destruct K as (s1 & i & K & ->). pose proof (gets_in _ _ _ K) as I. cbn [fst snd] in I.
  destruct (gets_assign s0 (s1, i) (AnElement e)
    [("parsed", CVal (nth index (parsedData c) Undefined)); ("raw", CVal (nth index (rawData c) Undefined));
     ("index", cnum index); ("dataIndex", cnum index); ("active", CVal (VBool active)); ("mode", CVal mode)] eq_refl K) as [O2 S2 _].
  split; [exact S2|]. destruct (ok_slots _ O2 _ _ S2) as (c2 & C2 & T & V). cbn [fst snd self_key] in *.
  cbn [List.map]. rewrite (read_own _ _ _ _ _ C2 T), (read_own _ _ _ _ _ C2 V). repeat (erewrite read_assigned; [|exact I|reflexivity]).
  repeat (apply f_equal2; [reflexivity|]). apply f_equal2; [|reflexivity].
  pose proof (lookup_lt_Some _ _ _ C2). now apply (read_chart _ O2).
Qed.
Definition demo_controller : controller := mkController 0 7 [VStr "a"; VStr "b"] [10; 11]%nat [VNum 1%js; VNum 2%js].
(** The element 11 moves from index 1 to index 0 when the first datum is removed. *)
Definition demo_shifted : controller := mkController 0 7 [VStr "b"] [11]%nat [VNum 2%js].
Lemma datum_is_current_witness :
  let '(s, i) := getContext (run no_contexts [OfData demo_controller (Some 1%nat) false Undefined]) demo_shifted (Some 0%nat) true (VStr "active") in
  slot s (AnElement 11) = Some i /\
  List.map (read s i) ["index"; "dataIndex"; "raw"; "parsed"; "active"; "mode"; "type"; "element"; "chart"] =
    [cnum 0; cnum 0; CVal (VStr "b"); CVal (VNum 2%js); CVal (VBool true); CVal (VStr "active"); cstr "data";
     CObj (AnElement 11); CObj TheChart].
Proof. apply (datum_is_current [OfData demo_controller (Some 1%nat) false Undefined] demo_shifted 0 11 true (VStr "active")). reflexivity. Defined.

(** The context of a tick is not: a scale that asks for the contexts of its ticks, to
    measure the labels, and then skips every second tick, has ticks whose contexts tell the
    index they had before. *)
Definition demo_scale : scale := mkScale 3 [20; 21; 22]%nat [].
Definition demo_skipped : scale := mkScale 3 [20; 22]%nat [].
Example tick_index_is_stale :
  let s := run no_contexts [OfScale demo_scale (Some 0%nat); OfScale demo_scale (Some 1%nat); OfScale demo_scale (Some 2%nat)] in
  (let '(s, i) := scale_getContext s demo_skipped (Some 1%nat) in read s i "index" = cnum 2 /\ read s i "tick" = CObj (ATick 22)) /\
  let '(s, i) := scale_getContext no_contexts demo_skipped (Some 1%nat) in read s i "index" = cnum 1.
Proof. now vm_compute. Qed.
(** The index of a dataset, which the contexts of its data inherit, and its mode, which
    making the context of a datum resets. *)
Example dataset_is_inherited :
  let '(s, d) := getContext no_contexts demo_controller None true (VStr "resize") in
  let '(s', i) := getContext s demo_controller (Some 1%nat) false (VStr "resize") in
  read s d "mode" = CVal (VStr "resize") /\ read s' i "datasetIndex" = cnum 0 /\ read s' i "dataset" = CObj (ADataset 7) /\
  read s' d "mode" = CVal Undefined /\ read s' d "active" = CVal (VBool false).
Proof. now vm_compute. Qed.
End ContextFacts.
