(* ===== verification/Chart.v ===== *)
(** The [Chart] class of webui/public/chart.js, its data side: one meta and one controller
    per dataset, kept while datasets come, go and move; the scales of the options;
    visibility; the charts on the page.

    Datasets, metas, controllers and scales are objects with an identity (a number); the
    array of metas can have holes, which [delete] makes. *)
From Stdlib Require Import ZArith Lia Bool List Ascii String Permutation Sorted.
From Stdlib Require Import SpecFloat.
From stdpp Require Import base list sorting.
From S2P Require Import Prelude JsNumber JsString JsArray JsValue HelpersCore Resolver Config.
Import ListNotations.
Open Scope Z_scope.

(** ** Metas and controllers *)
Module Metas.

Record dataset := mkDataset { ds_id : nat; ds_type : option string; ds_order : num; ds_hidden : bool }.
(** A meta; [hidden] is null until it is set. *)
Record meta := mkMeta {
  m_id : nat;
  m_type : option string;
  controller : option nat;
  hidden : option bool;
  order : num;
  m_index : nat;
  visible : bool;
  _dataset : option nat
}.
Record chart := mkChart {
  datasets : list dataset;
  ctype : string;
  _metasets : list (option meta);
  _sortedMetasets : list (option meta);
  _stacks : bool;
  next_id : nat;
  (** What happens to controllers: made with a type, linked again, destroyed. *)
  log : list (nat * string)
}.
Definition with_metas (c : chart) (ms : list (option meta)) : chart :=
  mkChart (datasets c) (ctype c) ms (_sortedMetasets c) (_stacks c) (next_id c) (log c).

Definition dataset_at (c : chart) (i : nat) : option nat := option_map ds_id (nth_error (datasets c) i).
Definition same_dataset (a b : option nat) : bool :=
  match a, b with Some x, Some y => Nat.eqb x y | None, None => true | _, _ => false end.

(** [getDatasetMeta]: the last meta of the dataset, or a new one at the end; gives its
    place. *)
Fixpoint last_index (p : meta -> bool) (ms : list (option meta)) (i : nat) : option nat :=
  match ms with
  | [] => None
  | m :: ms' =>
      match last_index p ms' (S i) with
      | Some j => Some j
      | None => match m with Some m => if p m then Some i else None | None => None end
      end
  end.
Definition new_meta (c : chart) (i : nat) : meta :=
  mkMeta (next_id c) None None None
    (match nth_error (datasets c) i with Some d => ds_order d | None => 0%js end) i false (dataset_at c i).
Definition getDatasetMeta (c : chart) (i : nat) : chart * nat :=
  match last_index (fun m => same_dataset (_dataset m) (dataset_at c i)) (_metasets c) 0 with
  | Some k => (c, k)
  | None =>
      (mkChart (datasets c) (ctype c) (_metasets c ++ [Some (new_meta c i)]) (_sortedMetasets c) (_stacks c)
         (S (next_id c)) (log c), List.length (_metasets c))
  end.
Definition meta_at (c : chart) (k : nat) : option meta :=
  match nth_error (_metasets c) k with Some m => m | None => None end.
Definition set_meta (c : chart) (k : nat) (m : meta) : chart := with_metas c (<[k := Some m]> (_metasets c)).

Definition add_log (c : chart) (e : nat * string) : chart :=
  mkChart (datasets c) (ctype c) (_metasets c) (_sortedMetasets c) (_stacks c) (next_id c) (log c ++ [e]).
Definition _destroyDatasetMeta (c : chart) (i : nat) : chart :=
  let c := match meta_at c i with
           | Some m => match controller m with Some k => add_log c (k, "destroy"%string) | None => c end
           | None => c
           end in
  with_metas c (<[i := None]> (_metasets c)).

(** The metas of datasets that are gone are destroyed in turn. *)
Definition referenced (c : chart) (m : meta) : bool :=
  existsb (fun d => same_dataset (Some (ds_id d)) (_dataset m)) (datasets c).
Definition _removeUnreferencedMetasets (c : chart) : chart :=
  let c := if Nat.ltb (List.length (datasets c)) (List.length (_metasets c))
           then mkChart (datasets c) (ctype c) (_metasets c) (_sortedMetasets c) false (next_id c) (log c) else c in
  fold_left (fun c k => match meta_at c k with
                        | Some m => if referenced c m then c else _destroyDatasetMeta c k
                        | None => c
                        end) (seq 0 (List.length (_metasets c))) c.

Definition isDatasetVisible (c : chart) (i : nat) : chart * bool :=
  match nth_error (datasets c) i with
  | None => (c, false)
  | Some d =>
      let '(c, k) := getDatasetMeta c i in
      (c, match meta_at c k with
          | Some m => match hidden m with Some h => negb h | None => negb (ds_hidden d) end
          | None => negb (ds_hidden d)
          end)
  end.

(** One dataset of [buildOrUpdateControllers]; the new controllers are collected. *)
Definition type_of (c : chart) (d : dataset) : string :=
  match ds_type d with Some t => if String.eqb t EmptyString then ctype c else t | None => ctype c end.
Definition build_one (acc : chart * list nat) (i : nat) : chart * list nat :=
  let '(c, news) := acc in
  match nth_error (datasets c) i with
  | None => (c, news)
  | Some d =>
      let '(c, k) := getDatasetMeta c i in
      let type := type_of c d in
      let changed := match meta_at c k with
                     | Some m => match m_type m with
                                 | Some t => negb (String.eqb t EmptyString) && negb (String.eqb t type)
                                 | None => false end
                     | None => false end in
      let '(c, k) := if changed then getDatasetMeta (_destroyDatasetMeta c i) i else (c, k) in
      let '(c, vis) := isDatasetVisible c i in
      match meta_at c k with
      | None => (c, news)
      | Some m =>
          match controller m with
          | Some x =>
              (add_log (set_meta c k (mkMeta (m_id m) (Some type) (controller m) (hidden m) (ds_order d) i vis (_dataset m)))
                 (x, "link"%string), news)
          | None =>
              let x := next_id c in
              let c := set_meta c k (mkMeta (m_id m) (Some type) (Some x) (hidden m) (ds_order d) i vis (_dataset m)) in
              (add_log (mkChart (datasets c) (ctype c) (_metasets c) (_sortedMetasets c) (_stacks c) (S x) (log c))
                 (x, type), news ++ [x])
          end
      end
  end.

(** Sorting puts the holes last. *)
Definition compare2Level (l1 l2 : meta -> num) (a b : meta) : num :=
  if Num.eq (l1 a) (l1 b) then (l2 a - l2 b)%js else (l1 a - l1 b)%js.
Definition sort_metas (cmp : meta -> meta -> num) (ms : list (option meta)) : list (option meta) :=
  let present := omap id ms in
  List.map Some (sort_by cmp present) ++ repeat None (List.length ms - List.length present).
Definition index_of (m : meta) : num := Num.of_nat (m_index m).
Definition _updateMetasets (c : chart) : chart :=
  let numData := List.length (datasets c) in
  let c := with_metas c (sort_metas (fun a b => (index_of a - index_of b)%js) (_metasets c)) in
  let numMeta := List.length (_metasets c) in
  let c := if Nat.ltb numData numMeta
           then let c := fold_left _destroyDatasetMeta (seq numData (numMeta - numData)) c in
                with_metas c (firstn numData (_metasets c))
           else c in
  mkChart (datasets c) (ctype c) (_metasets c) (sort_metas (compare2Level order index_of) (_metasets c))
    (_stacks c) (next_id c) (log c).

Definition buildOrUpdateControllers (c : chart) : chart * list nat :=
  let c := _removeUnreferencedMetasets c in
  let '(c, news) := fold_left build_one (seq 0 (List.length (datasets c))) (c, []) in
  (_updateMetasets c, news).

(** ** Visibility *)
Definition setDatasetVisibility (c : chart) (i : nat) (vis : bool) : chart :=
  let '(c, k) := getDatasetMeta c i in
  match meta_at c k with
  | Some m => set_meta c k (mkMeta (m_id m) (m_type m) (controller m) (Some (negb vis)) (order m) (m_index m)
                              (visible m) (_dataset m))
  | None => c
  end.
Definition _getSortedDatasetMetas (c : chart) (filterVisible : bool) : list meta :=
  List.filter (fun m => negb filterVisible || visible m) (omap id (_sortedMetasets c)).
Definition getSortedVisibleDatasetMetas (c : chart) : list meta := _getSortedDatasetMetas c true.
Definition getVisibleDatasetCount (c : chart) : nat := List.length (getSortedVisibleDatasetMetas c).
Definition set_datasets (c : chart) (ds : list dataset) : chart :=
  mkChart ds (ctype c) (_metasets c) (_sortedMetasets c) (_stacks c) (next_id c) (log c).

End Metas.

Module MetasFacts.
Import Metas.

Definition present (c : chart) : list meta := omap id (_metasets c).
Definition typed (c : chart) (d : dataset) (m : meta) : Prop :=
  m_type m = None \/ m_type m = Some EmptyString \/ m_type m = Some (type_of c d).

(** *** Finding a meta *)
Lemma last_index_Some p ms i k : last_index p ms i = Some k ->
  exists l1 m l2, ms = (l1 ++ Some m :: l2)%list /\ (i + List.length l1 = k)%nat /\ p m = true.
Proof.
  revert i. induction ms as [|o ms IH]; intros i E; [discriminate|]. cbn [last_index] in E.
  destruct (last_index p ms (S i)) as [j|] eqn:L.
  - injection E as ->. destruct (IH _ L) as (l1 & m & l2 & -> & Lk & P). exists (o :: l1), m, l2.
    split_and!; [reflexivity|cbn; lia|exact P].
  - destruct o as [m|]; [|discriminate]. destruct (p m) eqn:P; [|discriminate]. injection E as <-.
    exists [], m, ms. split_and!; [reflexivity|cbn; lia|exact P].
Qed.
Lemma last_index_None p ms i m : last_index p ms i = None -> In m (omap id ms) -> p m = false.
Proof.
  revert i. induction ms as [|o ms IH]; intros i E I; [contradiction|]. cbn [last_index] in E.
  destruct (last_index p ms (S i)) eqn:L; [discriminate|]. destruct o as [m'|]; cbn in I; [|eauto].
  destruct (p m') eqn:P; [discriminate|]. destruct I as [<-|I]; eauto.
Qed.
Lemma present_split l1 m l2 c : _metasets c = (l1 ++ Some m :: l2)%list ->
  present c = (omap id l1 ++ m :: omap id l2)%list.
Proof. unfold present. intros ->. now rewrite omap_app. Qed.
Lemma meta_at_split l1 m l2 c : _metasets c = (l1 ++ Some m :: l2)%list -> meta_at c (List.length l1) = Some m.
Proof. unfold meta_at. intros ->. rewrite nth_error_app2, Nat.sub_diag by lia. reflexivity. Qed.
Lemma set_meta_split l1 m m' l2 c : _metasets c = (l1 ++ Some m :: l2)%list ->
  _metasets (set_meta c (List.length l1) m') = (l1 ++ Some m' :: l2)%list.
Proof. unfold set_meta. cbn. intros ->. now rewrite insert_app_r_alt, Nat.sub_diag by lia. Qed.

(** *** The metas of gone datasets are removed *)
Lemma destroy_at c k : let c' := _destroyDatasetMeta c k in
  _metasets c' = <[k := None]> (_metasets c) /\ datasets c' = datasets c /\ ctype c' = ctype c.
Proof. cbn. unfold _destroyDatasetMeta. destruct (meta_at c k) as [m|]; [destruct (controller m)|]; now cbn. Qed.

Definition keep (c : chart) (o : option meta) : option meta :=
  match o with Some m => if referenced c m then Some m else None | None => None end.
Definition remove_step (c : chart) (k : nat) : chart :=
  match meta_at c k with Some m => if referenced c m then c else _destroyDatasetMeta c k | None => c end.

Lemma remove_loop ks c0 c pre post :
  datasets c = datasets c0 -> ctype c = ctype c0 -> _metasets c = (pre ++ post)%list ->
  ks = seq (List.length pre) (List.length post) ->
  let c' := fold_left remove_step ks c in
  _metasets c' = (pre ++ List.map (keep c0) post)%list /\ datasets c' = datasets c0 /\ ctype c' = ctype c0.
Proof.
  revert ks c pre. induction post as [|o post IH]; intros ks c pre D T M ->; cbn [List.length seq fold_left]; [easy|].
  assert (R : forall m, referenced c m = referenced c0 m) by (intros; unfold referenced; now rewrite D).
  assert (S : _metasets (remove_step c (List.length pre)) = ((pre ++ [keep c0 o]) ++ post)%list /\
              datasets (remove_step c (List.length pre)) = datasets c0 /\
              ctype (remove_step c (List.length pre)) = ctype c0).
  { rewrite <- app_assoc. cbn [app]. unfold remove_step, meta_at. rewrite M.
    rewrite nth_error_app2, Nat.sub_diag by lia. cbn [nth_error]. destruct o as [m|]; cbn [keep].
    - rewrite R. destruct (referenced c0 m); [now rewrite M|].
      destruct (destroy_at c (List.length pre)) as (-> & -> & ->). rewrite M.
      now rewrite insert_app_r_alt, Nat.sub_diag by lia.
    - now rewrite M. }
  destruct S as (S1 & S2 & S3).
  specialize (IH (seq (List.length (pre ++ [keep c0 o])) (List.length post)) _ _ S2 S3 S1 eq_refl).
  rewrite length_app in IH. cbn [List.length] in IH. rewrite Nat.add_1_r in IH.
  rewrite <- app_assoc in IH. exact IH.
Qed.

Lemma remove_unreferenced c : let c' := _removeUnreferencedMetasets c in
  _metasets c' = List.map (keep c) (_metasets c) /\ datasets c' = datasets c /\ ctype c' = ctype c.
Proof.
  unfold _removeUnreferencedMetasets. cbv zeta.
  set (c1 := if Nat.ltb (List.length (datasets c)) (List.length (_metasets c)) then _ else c).
  assert (E : _metasets c1 = _metasets c /\ datasets c1 = datasets c /\ ctype c1 = ctype c) by (unfold c1; now destruct (Nat.ltb _ _)).
  destruct E as (E1 & E2 & E3). exact (remove_loop _ c c1 [] _ E2 E3 E1 (f_equal (fun l => seq 0 (List.length l)) E1)).
Qed.
Lemma present_keep c (ms : list (option meta)) :
  (omap id (List.map (keep c) ms) : list meta) = List.filter (referenced c) (omap id ms).
Proof.
  induction ms as [|o ms IH]; [reflexivity|]. destruct o as [m|]; cbn; [|exact IH].
  destruct (referenced c m); cbn; [f_equal|]; exact IH.
Qed.

(** *** The loop over the datasets *)
Section Build.
Context (D : list dataset) (type0 : string) (old : list meta).
Hypothesis distinct : List.NoDup (List.map ds_id D).

Record kept (d : dataset) (m : meta) : Prop := {
  kept_by m0 : In m0 old -> _dataset m0 = Some (ds_id d) -> m_id m = m_id m0 /\ hidden m = hidden m0 /\
    forall x, controller m0 = Some x -> controller m = Some x
}.
(** The meta of the dataset with index [j] after it has been built. *)
Record built (j : nat) (d : dataset) (m : meta) : Prop := {
  built_dataset : _dataset m = Some (ds_id d);
  built_index : m_index m = j;
  built_controller : controller m <> None;
  built_type : m_type m = Some (match ds_type d with Some t => if String.eqb t EmptyString then type0 else t | None => type0 end);
  built_kept : kept d m
}.
Record building (i : nat) (c : chart) : Prop := {
  b_datasets : datasets c = D;
  b_ctype : ctype c = type0;
  b_unique : List.NoDup (List.map _dataset (present c));
  b_sub : forall m, In m (present c) -> exists j d, nth_error D j = Some d /\ _dataset m = Some (ds_id d);
  b_done : forall j d, (j < i)%nat -> nth_error D j = Some d -> exists m, In m (present c) /\ built j d m;
  b_todo : forall j d m, (i <= j)%nat -> nth_error D j = Some d -> _dataset m = Some (ds_id d) ->
    (In m (present c) <-> In m old)
}.

Lemma same_id j k d e : nth_error D j = Some d -> nth_error D k = Some e -> ds_id d = ds_id e -> j = k.
Proof.
  intros Hj Hk E. apply (proj1 (NoDup_nth_error (List.map ds_id D)) distinct).
  - rewrite length_map. apply nth_error_Some. congruence.
  - rewrite !nth_error_map, Hj, Hk. cbn. now rewrite E.
Qed.

(** Giving the meta of dataset [i] its new fields. *)
Lemma building_step i d c c' l1 m0 l2 m :
  building i c -> nth_error D i = Some d ->
  datasets c' = D -> ctype c' = type0 ->
  _metasets c' = (l1 ++ Some m :: l2)%list ->
  ((_metasets c = (l1 ++ Some m0 :: l2)%list /\ _dataset m0 = Some (ds_id d)) \/
   (_metasets c = l1 /\ l2 = [] /\ forall m', In m' (present c) -> _dataset m' <> Some (ds_id d))) ->
  built i d m -> building (S i) c'.
Proof.
  intros B Hd Hd' Ht Hm Hc Hb. pose proof (present_split _ _ _ _ Hm) as Pc'.
  assert (Inc : forall m', _dataset m' <> Some (ds_id d) -> In m' (present c') <-> In m' (present c)).
  { intros m' N. rewrite Pc'. destruct Hc as [[Hc H0]|(Hc & -> & _)].
    - rewrite (present_split _ _ _ _ Hc), !in_app_iff. cbn. destruct Hb. 
      split; (intros [I|[<-|I]]; [auto| |auto]); congruence.
    - unfold present. rewrite Hc, in_app_iff. cbn. destruct Hb. split; [intros [I|[<-|[]]]; [auto|congruence]|auto]. }
  constructor; auto.
  - rewrite Pc', map_app. cbn [List.map]. pose proof (b_unique _ _ B) as U. rewrite (built_dataset _ _ _ Hb).
    destruct Hc as [[Hc H0]|(Hc & -> & Hn)].
    + rewrite (present_split _ _ _ _ Hc), map_app in U. cbn [List.map] in U. now rewrite H0 in U.
    + unfold present in U, Hn. rewrite Hc in U, Hn. cbn [omap List.map]. apply NoDup_snoc; [exact U|].
      intros I. apply in_map_iff in I as (m' & E & I). exact (Hn m' I E).
  - intros m' I. destruct (in_dec (fun a b => option_eq_dec a b) (_dataset m') [Some (ds_id d)]) as [E|E].
    + destruct E as [E|[]]. eauto.
    + apply (b_sub _ _ B), Inc; [intros E'; apply E; now left|exact I].
  - intros j e Lj He. destruct (Nat.eq_dec j i) as [->|N].
    + rewrite Hd in He. injection He as <-. exists m. split; [|exact Hb]. rewrite Pc', in_app_iff. cbn. auto.
    + destruct (b_done _ _ B j e ltac:(lia) He) as (m' & I & Hb'). exists m'. split; [|exact Hb'].
      apply Inc; [|exact I]. rewrite (built_dataset _ _ _ Hb'). intros [= E]. apply N. eapply same_id; eauto.
  - intros j e m' Lj He Em. rewrite Inc; [apply (b_todo _ _ B j e m'); [lia|exact He|exact Em]|].
    rewrite Em. intros [= E]. assert (j = i) by (eapply same_id; eauto). lia.
Qed.

Hypothesis stable : forall m d, In m old -> In d D -> _dataset m = Some (ds_id d) ->
  m_type m = None \/ m_type m = Some EmptyString \/
  m_type m = Some (match ds_type d with Some t => if String.eqb t EmptyString then type0 else t | None => type0 end).
Hypothesis old_unique : List.NoDup (List.map _dataset old).

Lemma type_of_eq c d : ctype c = type0 ->
  type_of c d = match ds_type d with Some t => if String.eqb t EmptyString then type0 else t | None => type0 end.
Proof. unfold type_of. now intros ->. Qed.

(** The meta of a dataset that is known is found where it is. *)
Lemma get_found c i d l1 m l2 : datasets c = D -> nth_error D i = Some d ->
  _metasets c = (l1 ++ Some m :: l2)%list -> _dataset m = Some (ds_id d) ->
  (forall m', In m' (omap id l2) -> _dataset m' <> Some (ds_id d)) ->
  getDatasetMeta c i = (c, List.length l1).
Proof.
  intros Hd Hi Hm Ed N. unfold getDatasetMeta, dataset_at. rewrite Hd, Hi, Hm. cbn [option_map].
  assert (L : forall ms k, (forall m', In m' (omap id ms) -> _dataset m' <> Some (ds_id d)) ->
    last_index (fun m => same_dataset (_dataset m) (Some (ds_id d))) ms k = None).
  { induction ms as [|o ms IH]; intros k H; [reflexivity|]. cbn [last_index]. destruct o as [m'|].
    - rewrite IH by (intros m'' I; apply H; now right). specialize (H m' ltac:(now left)).
      destruct (_dataset m') as [x|]; cbn; [|reflexivity]. destruct (Nat.eqb_spec x (ds_id d)); [congruence|reflexivity].
    - rewrite IH; [reflexivity|]. intros m' I. apply H. exact I. }
  assert (R : forall k, last_index (fun m => same_dataset (_dataset m) (Some (ds_id d))) (l1 ++ Some m :: l2) k
                        = Some (k + List.length l1)%nat).
  { clear Hm. induction l1 as [|o l1 IH]; intros k; cbn [app last_index List.length].
    - rewrite L by exact N. rewrite Ed. cbn. now rewrite Nat.eqb_refl, Nat.add_0_r.
    - rewrite IH. f_equal. lia. }
  now rewrite R.
Qed.

Lemma others_not l1 m l2 c d : List.NoDup (List.map _dataset (present c)) -> _metasets c = (l1 ++ Some m :: l2)%list ->
  _dataset m = Some (ds_id d) -> forall m', In m' (omap id l2) -> _dataset m' <> Some (ds_id d).
Proof.
  intros U Hm Ed m' I E. rewrite (present_split _ _ _ _ Hm), map_app in U. cbn [List.map] in U.
  apply List.NoDup_remove_2 in U. apply U, in_app_iff. right. rewrite Ed, <- E. now apply in_map.
Qed.

(** The fields of a meta once its place and visibility are known. *)
Lemma finish_one c i d l1 m l2 news :
  datasets c = D -> ctype c = type0 -> nth_error D i = Some d ->
  _metasets c = (l1 ++ Some m :: l2)%list -> _dataset m = Some (ds_id d) ->
  (forall m', In m' (omap id l2) -> _dataset m' <> Some (ds_id d)) ->
  typed c d m ->
  exists c' news' m', build_one (c, news) i = (c', news') /\ datasets c' = D /\ ctype c' = type0 /\
    _metasets c' = (l1 ++ Some m' :: l2)%list /\ _dataset m' = Some (ds_id d) /\ m_index m' = i /\
    controller m' <> None /\ m_type m' = Some (type_of c d) /\ m_id m' = m_id m /\ hidden m' = hidden m /\
    (forall x, controller m = Some x -> controller m' = Some x).
Proof.
  intros Hd Ht Hi Hm Ed N Ty. pose proof (get_found c i d l1 m l2 Hd Hi Hm Ed N) as G.
  unfold build_one. rewrite Hd, Hi, G. rewrite (meta_at_split _ _ _ _ Hm).
  assert (Ch : (match m_type m with Some t => negb (String.eqb t EmptyString) && negb (String.eqb t (type_of c d))
               | None => false end) = false).
  { destruct Ty as [->|[->| ->]]; [reflexivity|reflexivity|]. now rewrite String.eqb_refl, andb_false_r. }
  rewrite Ch. unfold isDatasetVisible. rewrite Hd, Hi, G, (meta_at_split _ _ _ _ Hm).
  destruct (controller m) as [x|] eqn:Ec.
  - eexists _, _, _. split; [reflexivity|]. split; [exact Hd|]. split; [exact Ht|].
    split; [exact (set_meta_split _ _ _ _ _ Hm)|]. cbn. split_and!; congruence || auto.
  - eexists _, _, _. split; [reflexivity|]. split; [exact Hd|]. split; [exact Ht|].
    split; [exact (set_meta_split _ _ _ _ _ Hm)|]. cbn. split_and!; congruence || auto.
Qed.

Lemma build_one_step i d c news : building i c -> nth_error D i = Some d ->
  exists c' news', build_one (c, news) i = (c', news') /\ building (S i) c'.
Proof.
  intros B Hi. pose proof (b_datasets _ _ B) as Hd. pose proof (b_ctype _ _ B) as Ht.
  destruct (last_index (fun m => same_dataset (_dataset m) (dataset_at c i)) (_metasets c) 0) as [k|] eqn:G.
  - destruct (last_index_Some _ _ _ _ G) as (l1 & m & l2 & Hm & Lk & P).
    assert (Ed : _dataset m = Some (ds_id d)).
    { unfold dataset_at in P. rewrite Hd, Hi in P. cbn in P. destruct (_dataset m); [|discriminate].
      cbn in P. apply Nat.eqb_eq in P. now subst. }
    assert (Io : In m old).
    { apply (b_todo _ _ B i d m (le_n _) Hi Ed). rewrite (present_split _ _ _ _ Hm), in_app_iff. cbn. auto. }
    destruct (finish_one c i d l1 m l2 news Hd Ht Hi Hm Ed (others_not _ _ _ _ _ (b_unique _ _ B) Hm Ed))
      as (c' & news' & m' & E & D' & T' & M' & F1 & F2 & F3 & F4 & F5 & F6 & F7).
    { unfold typed. rewrite (type_of_eq _ _ Ht). apply (stable m d Io); [eapply nth_error_In; exact Hi|exact Ed]. }
    exists c', news'. split; [exact E|]. apply (building_step i d c c' l1 m l2 m' B Hi D' T' M'); [now left|].
    split; auto; [now rewrite <- (type_of_eq c)|]. split. intros m0 I0 E0.
    assert (m0 = m) as ->; [|now split_and!].
    clear - I0 Io E0 Ed old_unique. induction old as [|a l IH]; [contradiction|]. cbn in old_unique.
    inversion old_unique as [|? ? N1 N2]; subst. destruct I0 as [->|I0], Io as [->|Io]; auto.
    + exfalso. apply N1. rewrite E0, <- Ed. now apply in_map.
    + exfalso. apply N1. rewrite Ed, <- E0. now apply in_map.
  - set (m := new_meta c i). 
    set (c1 := mkChart (datasets c) (ctype c) (_metasets c ++ [Some m]) (_sortedMetasets c) (_stacks c) (S (next_id c)) (log c)).
    assert (Ed : _dataset m = Some (ds_id d)) by (cbn; unfold dataset_at; now rewrite Hd, Hi).
    assert (No : forall m', In m' (present c) -> _dataset m' <> Some (ds_id d)).
    { intros m' I E. pose proof (last_index_None _ _ _ _ G I) as F. cbn in F. unfold dataset_at in F.
      rewrite Hd, Hi, E in F. cbn in F. rewrite Nat.eqb_refl in F. discriminate. }
    assert (E0 : build_one (c, news) i = build_one (c1, news) i).
    { assert (G0 : getDatasetMeta c i = (c1, List.length (_metasets c))) by (unfold getDatasetMeta; now rewrite G).
      assert (G1 : getDatasetMeta c1 i = (c1, List.length (_metasets c)))
        by (eapply get_found with (l2 := []); [exact Hd|exact Hi|reflexivity|exact Ed|intros ? []]).
      unfold build_one. change (datasets c1) with (datasets c). rewrite Hd, Hi, G0, G1. reflexivity. }
    destruct (finish_one c1 i d (_metasets c) m [] news Hd Ht Hi eq_refl Ed ltac:(intros ? []) ltac:(now left))
      as (c' & news' & m' & E & D' & T' & M' & F1 & F2 & F3 & F4 & F5 & F6 & F7).
    exists c', news'. rewrite E0. split; [exact E|].
    apply (building_step i d c c' (_metasets c) m [] m' B Hi D' T' M'); [right; now split_and!|].
    split; auto; [now rewrite <- (type_of_eq c1)|]. split. intros m0 I0 E1. exfalso.
    apply (No m0); [|exact E1]. apply (b_todo _ _ B i d m0 (le_n _) Hi E1). exact I0.
Qed.

Lemma build_loop n i c news : building i c -> (i + n = List.length D)%nat ->
  exists c' news', fold_left build_one (seq i n) (c, news) = (c', news') /\ building (List.length D) c'.
Proof.
  revert i c news. induction n as [|n IH]; intros i c news B E; cbn [seq fold_left].
  - exists c, news. split; [reflexivity|]. now replace (List.length D) with i by lia.
  - destruct (nth_error D i) as [d|] eqn:Hd; [|apply nth_error_None in Hd; lia].
    destruct (build_one_step i d c news B Hd) as (c' & news' & -> & B').
    apply IH; [exact B'|lia].
Qed.

(** *** Sorting by index puts the meta of dataset [i] at place [i] *)
Lemma present_built c m : building (List.length D) c -> In m (present c) ->
  exists d, nth_error D (m_index m) = Some d /\ built (m_index m) d m.
Proof.
  intros B I. destruct (b_sub _ _ B m I) as (j & d & Hj & E).
  assert (Lj : (j < List.length D)%nat) by (apply nth_error_Some; congruence).
  destruct (b_done _ _ B j d Lj Hj) as (m' & I' & B').
  assert (m' = m) as ->.
  { pose proof (b_unique _ _ B) as U. apply in_split in I as (l1 & l2 & Es). rewrite Es in I', U.
    apply in_app_iff in I' as [I'|[I'|I']]; [|auto|]; exfalso; rewrite map_app in U; cbn [List.map] in U;
      apply List.NoDup_remove_2 in U; apply U, in_app_iff; rewrite E, <- (built_dataset _ _ _ B'); [left|right];
      now apply in_map. }
  pose proof (built_index _ _ _ B') as Ei. rewrite Ei. eauto.
Qed.
Lemma present_indices c : building (List.length D) c ->
  Permutation (List.map m_index (present c)) (seq 0 (List.length D)).
Proof.
  intros B. apply Permutation.NoDup_Permutation; [|apply List.seq_NoDup|].
  - pose proof (b_unique _ _ B) as U. apply (List.NoDup_map_inv (fun i => option_map ds_id (nth_error D i))).
    rewrite List.map_map. replace (List.map _ (present c)) with (List.map _dataset (present c)); [exact U|].
    apply List.map_ext_in. intros m I. destruct (present_built c m B I) as (d & Hd & Bd). rewrite Hd.
    exact (built_dataset _ _ _ Bd).
  - intros i. rewrite in_map_iff, in_seq. split.
    + intros (m & <- & I). destruct (present_built c m B I) as (d & Hd & _).
      split; [lia|]. apply nth_error_Some. congruence.
    + intros [_ Li]. destruct (nth_error D i) as [d|] eqn:Hd; [|apply nth_error_None in Hd; lia].
      destruct (b_done _ _ B i d Li Hd) as (m & I & Bm). exists m. split; [exact (built_index _ _ _ Bm)|exact I].
Qed.

Lemma seq_sorted a n : StronglySorted Nat.le (seq a n).
Proof.
  revert a. induction n as [|n IH]; intros a; cbn; constructor; [apply IH|].
  apply List.Forall_forall. intros x I. apply in_seq in I. lia.
Qed.
Lemma index_sorted (l : list meta) : List.Forall (fun m => Z.of_nat (m_index m) < 2 ^ 30) l ->
  StronglySorted (fun a b => (m_index a <= m_index b)%nat) (sort_by (fun a b => (index_of a - index_of b)%js) l).
Proof.
  assert (Sub : forall x y, Z.of_nat (m_index x) < 2 ^ 30 -> Z.of_nat (m_index y) < 2 ^ 30 ->
    before (fun a b => (index_of a - index_of b)%js) x y = (Z.of_nat (m_index x) <=? Z.of_nat (m_index y))).
  { intros x y Lx Ly.
    assert (Sx : Num.lt 0%js (index_of x - index_of y)%js = (0 <? Z.of_nat (m_index x) - Z.of_nat (m_index y))).
    { unfold index_of, Num.of_nat. rewrite NumFacts.of_Z_sub by (unfold NumFacts.safe; lia).
      change 0%js with (Num.of_Z 0). apply NumFacts.of_Z_lt; unfold NumFacts.safe; lia. }
    unfold before. rewrite Sx. lia. }
  apply sort_sorted.
  - intros x y Lx Ly E. rewrite Sub in E by auto. lia.
  - intros x y Lx Ly E. rewrite Sub in E by auto. lia.
  - lia.
Qed.
End Build.

Lemma omap_Some {X} (l : list X) n : (omap id (List.map Some l ++ repeat None n) : list X) = l.
Proof.
  rewrite omap_app. replace (omap id (repeat None n) : list X) with (@nil X) by (induction n; auto).
  rewrite app_nil_r. induction l as [|x l IH]; [reflexivity|]. cbn. now f_equal.
Qed.
Lemma destroy_holes ks c pre n : _metasets c = (pre ++ repeat None n)%list ->
  ks = seq (List.length pre) n -> 
  let c' := fold_left _destroyDatasetMeta ks c in
  _metasets c' = _metasets c /\ datasets c' = datasets c /\ log c' = log c.
Proof.
  revert ks c pre. induction n as [|n IH]; intros ks c pre M ->; cbn [seq fold_left]; [easy|].
  assert (E : _metasets (_destroyDatasetMeta c (List.length pre)) = _metasets c /\
              datasets (_destroyDatasetMeta c (List.length pre)) = datasets c /\
              log (_destroyDatasetMeta c (List.length pre)) = log c).
  { unfold _destroyDatasetMeta, meta_at. rewrite M. rewrite nth_error_app2, Nat.sub_diag by lia. cbn. rewrite M.
    now rewrite insert_app_r_alt, Nat.sub_diag by lia. }
  destruct E as (E1 & E2 & E3).
  assert (M1 : _metasets (_destroyDatasetMeta c (List.length pre)) = ((pre ++ [None]) ++ repeat None n)%list)
    by now rewrite E1, M, <- app_assoc.
  specialize (IH _ _ _ M1 eq_refl). rewrite length_app, Nat.add_1_r in IH. rewrite E1, E2, E3 in IH. exact IH.
Qed.

Section Steps.
Context (c : chart).
Hypothesis distinct : List.NoDup (List.map ds_id (datasets c)).
Hypothesis unique : List.NoDup (List.map _dataset (present c)).
Abbreviation building := (building (datasets c) (ctype c) (present c)).

Lemma referenced_iff m : referenced c m = true <-> exists d, In d (datasets c) /\ _dataset m = Some (ds_id d).
Proof.
  unfold referenced. rewrite List.existsb_exists. split; intros (d & I & E); exists d; (split; [exact I|]).
  - destruct (_dataset m); [|discriminate]. cbn in E. apply Nat.eqb_eq in E. now subst.
  - rewrite E. cbn. apply Nat.eqb_refl.
Qed.
Lemma start_building : building 0 (_removeUnreferencedMetasets c).
Proof.
  destruct (remove_unreferenced c) as (M & Hd & Ht).
  assert (P : present (_removeUnreferencedMetasets c) = List.filter (referenced c) (present c))
    by (unfold present; rewrite M; apply present_keep).
  constructor; auto.
  - rewrite P. clear - unique. induction (present c) as [|m l IH]; [constructor|]. cbn in unique |- *.
    inversion unique as [|? ? N1 N2]; subst. destruct (referenced c m); [|auto]. cbn. constructor; [|auto].
    intros I. apply N1. apply in_map_iff in I as (m' & E & I). apply filter_In in I as [I _].
    rewrite <- E. now apply in_map.
  - intros m I. rewrite P in I. apply filter_In in I as [_ I]. apply referenced_iff in I as (d & Id & E).
    apply In_nth_error in Id as [j Hj]. eauto.
  - lia.
  - intros j d m _ Hj E. rewrite P, filter_In, referenced_iff. split; [tauto|]. intros I. split; [exact I|].
    exists d. split; [eapply nth_error_In; exact Hj|exact E].
Qed.

Section Last.
Context (c1 : chart).
Abbreviation n := (List.length (datasets c)).
Hypothesis small : Z.of_nat n < 2 ^ 30.
Hypothesis B : building n c1.
Abbreviation sorted := (sort_by (fun a b => (index_of a - index_of b)%js) (present c1)).

Lemma sorted_indices : List.map m_index sorted = seq 0 n.
Proof.
  apply (StronglySorted_unique Nat.le).
  - apply (sorted_map m_index (fun a b => (m_index a <= m_index b)%nat)); [auto|apply index_sorted]. apply List.Forall_forall. intros m I.
    destruct (present_built _ _ _ c1 m B I) as (d & Hj & _).
    assert (m_index m < n)%nat by (apply nth_error_Some; congruence). lia.
  - apply seq_sorted.
  - rewrite sort_perm. exact (present_indices _ _ _ c1 B).
Qed.
Lemma update_metasets : _metasets (_updateMetasets c1) = List.map Some sorted /\ datasets (_updateMetasets c1) = datasets c.
Proof.
  pose proof (b_datasets _ _ _ _ _ B) as Hd.
  assert (Ls : List.length sorted = n) by (rewrite <- (length_map m_index), sorted_indices; apply length_seq).
  assert (Lp : List.length (present c1) = n) by (rewrite <- Ls; symmetry; apply Permutation_length, sort_perm).
  set (k := (List.length (_metasets c1) - n)%nat).
  assert (Sm : sort_metas (fun a b => (index_of a - index_of b)%js) (_metasets c1)
               = (List.map Some sorted ++ repeat None k)%list).
  { unfold sort_metas. fold (present c1). unfold k. now rewrite Lp. }
  unfold _updateMetasets. rewrite Hd. cbn [with_metas _metasets]. rewrite Sm.
  rewrite length_app, length_map, repeat_length, Ls. destruct (Nat.ltb_spec n (n + k)) as [Lk|Lk].
  - replace (n + k - n)%nat with k by lia. set (c2 := with_metas c1 _).
    destruct (destroy_holes (seq n k) c2 (List.map Some sorted) k) as (M2 & D2 & _);
      [reflexivity|now rewrite length_map, Ls|].
    cbn [_metasets datasets with_metas]. rewrite M2, D2. cbn. split; [|exact Hd].
    rewrite firstn_app, length_map, Ls, Nat.sub_diag. cbn. rewrite app_nil_r. apply firstn_all2.
    now rewrite length_map, Ls.
  - cbn. assert (k = 0%nat) as -> by lia. cbn. rewrite app_nil_r. split; [reflexivity|exact Hd].
Qed.
Lemma meta_of_dataset i d : nth_error (datasets c) i = Some d ->
  exists m, meta_at (_updateMetasets c1) i = Some m /\ built (ctype c) (present c) i d m.
Proof.
  intros Hi. assert (Li : (i < n)%nat) by (apply nth_error_Some; congruence).
  pose proof sorted_indices as Es.
  assert (Ls : List.length sorted = n) by (rewrite <- (length_map m_index), Es; apply length_seq).
  destruct (nth_error sorted i) as [m|] eqn:Em; [|apply nth_error_None in Em; lia].
  exists m. split; [unfold meta_at; now rewrite (proj1 update_metasets), nth_error_map, Em|].
  assert (I : In m (present c1)) by (eapply Permutation_in; [apply sort_perm|]; eapply nth_error_In; exact Em).
  destruct (present_built _ _ _ c1 m B I) as (d' & Hj & Bm).
  assert (Ei : m_index m = i).
  { apply (f_equal (fun l => nth_error l i)) in Es. rewrite nth_error_map, Em in Es. cbn in Es.
    rewrite nth_error_seq in Es. rewrite (proj2 (Nat.ltb_lt _ _) Li) in Es. now injection Es. }
  rewrite Ei in Hj, Bm. replace d with d' by congruence. exact Bm.
Qed.
End Last.
End Steps.

(** The metas after the controllers have been updated. *)
Lemma updated_metas c :
  let c' := fst (buildOrUpdateControllers c) in
  List.NoDup (List.map ds_id (datasets c)) -> List.NoDup (List.map _dataset (present c)) ->
  Z.of_nat (List.length (datasets c)) < 2 ^ 30 ->
  (forall m d, In m (present c) -> In d (datasets c) -> _dataset m = Some (ds_id d) -> typed c d m) ->
  datasets c' = datasets c /\ List.length (_metasets c') = List.length (datasets c) /\
  forall i d, nth_error (datasets c) i = Some d ->
    exists m, meta_at c' i = Some m /\ built (ctype c) (present c) i d m.
Proof.
  intros c' Nd Nu Ln Ty. pose proof (start_building c Nu) as Bi.
  pose proof (b_datasets _ _ _ _ _ Bi) as Hd0.
  destruct (build_loop _ _ _ Nd Ty Nu (List.length (datasets c)) 0 _ [] Bi eq_refl) as (c1 & news & E & B).
  assert (Ec' : c' = _updateMetasets c1).
  { unfold c', buildOrUpdateControllers. rewrite Hd0. cbv zeta. now rewrite E. }
  rewrite Ec'. destruct (update_metasets c c1 Ln B) as [F1 F2].
  split; [exact F2|]. split; [|intros i d; exact (meta_of_dataset c c1 Ln B i d)].
  rewrite F1, length_map, <- (length_map m_index), (sorted_indices c c1 Ln B). apply length_seq.
Qed.

(** C7: when no dataset changes its type, updating the controllers leaves exactly one
    meta per dataset, at the dataset's place and with its index, type and a controller;
    a dataset that had a meta keeps it with its visibility and its controller, wherever it
    was before. *)
Theorem one_meta_per_dataset c :
  let c' := fst (buildOrUpdateControllers c) in
  List.NoDup (List.map ds_id (datasets c)) -> List.NoDup (List.map _dataset (present c)) ->
  Z.of_nat (List.length (datasets c)) < 2 ^ 30 ->
  (forall m d, In m (present c) -> In d (datasets c) -> _dataset m = Some (ds_id d) -> typed c d m) ->
  datasets c' = datasets c /\ List.length (_metasets c') = List.length (datasets c) /\
  forall i d, nth_error (datasets c) i = Some d ->
    exists m, meta_at c' i = Some m /\ built (ctype c) (present c) i d m.
Proof. exact (updated_metas c). Qed.

(** *** When a dataset changes its place and its type in one update *)
Definition line_bar (a b : string) : list dataset :=
  [mkDataset 1 (Some a) 0%js false; mkDataset 2 (Some b) 0%js false].
Definition two_charts : chart := fst (buildOrUpdateControllers (mkChart (line_bar "line" "line") "line" [] [] false 10 [])).
(** The datasets change places and the second becomes a bar: the meta at its new place
    is destroyed, which is the other dataset's; that dataset ends with no meta, and the
    bar keeps the controller made for a line. *)
Lemma swapped_type_destroys_other :
  let ds := [mkDataset 2 (Some "line") 0%js false; mkDataset 1 (Some "bar") 0%js false]%string in
  let c := fst (buildOrUpdateControllers (set_datasets two_charts ds)) in
  List.map (option_map _dataset) (_metasets c) = [Some (Some 1%nat); None] /\
  log c = (log two_charts ++ [(13, "link"%string); (13, "destroy"%string); (11, "link"%string)])%list%nat /\
  In (11%nat, "line"%string) (log two_charts).
Proof. vm_compute. split_and!; auto. Qed.

Lemma one_meta_per_dataset_witness :
  let c := set_datasets two_charts [mkDataset 2 (Some "line") 0%js false; mkDataset 3 None 0%js true]%string in
  List.length (_metasets (fst (buildOrUpdateControllers c))) = 2%nat.
Proof.
  apply (fun H1 H2 H3 H4 => proj1 (proj2 (one_meta_per_dataset
    (set_datasets two_charts [mkDataset 2 (Some "line") 0%js false; mkDataset 3 None 0%js true]%string) H1 H2 H3 H4))).
  - repeat constructor; cbn; intuition discriminate.
  - vm_compute. repeat constructor; cbn; intuition discriminate.
  - reflexivity.
  - intros m d I J. vm_compute in I. destruct I as [<-|[<-|[]]], J as [<-|[<-|[]]]; intros E; try discriminate E.
    right. right. reflexivity.
Defined.

End MetasFacts.

(** ** The scales of a chart *)
Module ChartScales.
Import Js ScaleConfig Heap.
Local Open Scope string_scope.

Definition KNOWN_POSITIONS : list string := ["top"; "bottom"; "left"; "right"; "chartArea"].
Definition positionIsHorizontal (position axis : value) : bool :=
  match position with
  | VStr p =>
      String.eqb p "top" || String.eqb p "bottom" ||
      (negb (existsb (String.eqb p) KNOWN_POSITIONS) && strict_eq axis (VStr "x"))
  | _ => strict_eq axis (VStr "x")
  end.

(** A scale: its identity, the type it was made for, and the options it was last
    initialised with. *)
Record scale := mkScale { sc_id : nat; sc_type : value; sc_options : Obj.obj }.
Record state := mkState { scales : props scale; next_scale : nat; updated : props bool }.

Definition dposition (axis : value) : string :=
  if strict_eq axis (VStr "r") then "chartArea" else if strict_eq axis (VStr "x") then "bottom" else "left".
Definition dtype (axis : value) : string :=
  if strict_eq axis (VStr "r") then "radialLinear" else if strict_eq axis (VStr "x") then "category" else "linear".

(** The options of a scale with its id and a position that fits its axis. *)
Definition scale_options (id : string) (o : Obj.obj) : Obj.obj :=
  let o := Obj.put "id" (VStr id) o in
  let axis := determineAxis id (VObj o) in
  let position := index (VObj o) "position" in
  if is_undefined position || negb (Bool.eqb (positionIsHorizontal position axis)
                                             (positionIsHorizontal (VStr (dposition axis)) Undefined))
  then Obj.put "position" (VStr (dposition axis)) o else o.
Definition scale_type (id : string) (o : Obj.obj) : value :=
  Core.valueOrDefault (index (VObj o) "type") (VStr (dtype (determineAxis id (VObj (Obj.put "id" (VStr id) o))))).

Definition build_scale (s : state) (item : string * Obj.obj) : state :=
  let '(id, o) := item in
  let opts := scale_options id o in
  let type := scale_type id o in
  let updated := pput id true (updated s) in
  match pget id (scales s) with
  | Some sc =>
      if strict_eq (sc_type sc) type
      then mkState (pput id (mkScale (sc_id sc) (sc_type sc) opts) (scales s)) (next_scale s) updated
      else mkState (pput id (mkScale (next_scale s) type opts) (scales s)) (S (next_scale s)) updated
  | None => mkState (pput id (mkScale (next_scale s) type opts) (scales s)) (S (next_scale s)) updated
  end.
(** [buildOrUpdateScales]: the scales that the options do not name are deleted. *)
Definition buildOrUpdateScales (scales0 : props scale) (next : nat) (scaleOpts : list (string * Obj.obj)) : state :=
  let s := fold_left build_scale scaleOpts
             (mkState scales0 next (List.map (fun kv => (fst kv, false)) scales0)) in
  mkState (List.filter (fun kv => match pget (fst kv) (updated s) with Some b => b | None => false end) (scales s))
    (next_scale s) (updated s).
End ChartScales.

Module ChartScalesFacts.
Import Js ScaleConfig Heap ResolverFacts ChartScales.
Local Open Scope string_scope.

Lemma pget_pput_ne {V} k j (v : V) ps : j <> k -> pget j (pput k v ps) = pget j ps.
Proof.
  intros N. apply String.eqb_neq in N. induction ps as [|[i w] ps IH]; cbn; [now rewrite N|].
  destruct (String.eqb k i) eqn:E; cbn; [|now rewrite IH]. apply String.eqb_eq in E. subst. now rewrite N.
Qed.
Lemma pget_filter {V} (p : string * V -> bool) k (ps : props V) : List.NoDup (List.map fst ps) ->
  pget k (List.filter p ps) = match pget k ps with Some v => if p (k, v) then Some v else None | None => None end.
Proof.
  induction ps as [|[i w] ps IH]; intros N; [reflexivity|]. cbn in N. inversion N as [|? ? N1 N2]; subst. cbn [List.filter pget].
  destruct (String.eqb k i) eqn:E.
  - apply String.eqb_eq in E. subst i. destruct (p (k, w)); cbn [pget]; [now rewrite String.eqb_refl|].
    rewrite IH by exact N2. replace (pget k ps) with (@None V); [reflexivity|]. symmetry. now apply pget_None.
  - destruct (p (i, w)); cbn [pget]; rewrite ?E; auto.
Qed.
Lemma pput_NoDup {V} k (v : V) ps : List.NoDup (List.map fst ps) -> List.NoDup (List.map fst (pput k v ps)).
Proof.
  assert (K : forall ps : props V, List.map fst (pput k v ps) = List.map fst ps \/
                (List.map fst (pput k v ps) = List.map fst ps ++ [k] /\ ~ In k (List.map fst ps))%list).
  { clear ps. induction ps as [|[i w] ps IH]; cbn; [now right|]. destruct (String.eqb k i) eqn:E; cbn; [now left|].
    apply String.eqb_neq in E. destruct IH as [->|[-> N]]; [now left|right]. split; [reflexivity|]. intuition congruence. }
  intros N. destruct (K ps) as [->|[-> Nk]]; [exact N|]. now apply NoDup_snoc.
Qed.

(** One pass over the options leaves each id it names built once. *)
Lemma build_scale_other s item k : k <> fst item ->
  pget k (scales (build_scale s item)) = pget k (scales s) /\ pget k (updated (build_scale s item)) = pget k (updated s).
Proof.
  destruct item as [id o]. cbn [fst build_scale]. intros N. destruct (pget id (scales s)) as [sc|]; [destruct (strict_eq _ _)|];
    cbn [scales updated]; now rewrite !pget_pput_ne.
Qed.
Lemma build_scale_NoDup s item : List.NoDup (List.map fst (scales s)) -> List.NoDup (List.map fst (scales (build_scale s item))).
Proof.
  destruct item as [id o]. cbn [build_scale]. intros N. destruct (pget id (scales s)) as [sc|]; [destruct (strict_eq _ _)|];
    now apply pput_NoDup.
Qed.
(** What a scale is after its options have been applied to what was there. *)
Definition built_scale (old : option scale) (id : string) (o : Obj.obj) (sc : scale) : Prop :=
  sc_options sc = scale_options id o /\
  match old with
  | Some sc0 => if strict_eq (sc_type sc0) (scale_type id o) then sc_id sc = sc_id sc0 /\ sc_type sc = sc_type sc0
                else sc_type sc = scale_type id o
  | None => sc_type sc = scale_type id o
  end.
Lemma build_scale_at s id o : exists sc, pget id (scales (build_scale s (id, o))) = Some sc /\
  built_scale (pget id (scales s)) id o sc /\ pget id (updated (build_scale s (id, o))) = Some true.
Proof.
  cbn [build_scale]. unfold built_scale. destruct (pget id (scales s)) as [sc|]; [destruct (strict_eq _ _) eqn:E|];
    cbn [scales updated]; eexists; rewrite !pget_pput; split_and!; reflexivity.
Qed.

Lemma build_fold items : List.NoDup (List.map fst items) -> forall s,
  List.NoDup (List.map fst (scales s)) ->
  let s' := fold_left build_scale items s in
  List.NoDup (List.map fst (scales s')) /\
  (forall id o, In (id, o) items -> exists sc, pget id (scales s') = Some sc /\
     built_scale (pget id (scales s)) id o sc /\ pget id (updated s') = Some true) /\
  (forall k, ~ In k (List.map fst items) -> pget k (scales s') = pget k (scales s) /\ pget k (updated s') = pget k (updated s)).
Proof.
  induction items as [|[id o] items IH]; intros N s Ns; cbn [fold_left].
  { split; [exact Ns|]. split; [intros ? ? []|easy]. }
  cbn in N. inversion N as [|? ? N1 N2]; subst.
  destruct (IH N2 (build_scale s (id, o)) (build_scale_NoDup s (id, o) Ns)) as (R1 & R2 & R3).
  split; [exact R1|]. split.
  - intros id' o' [[= <- <-]|I].
    + destruct (R3 id N1) as [-> ->]. apply build_scale_at.
    + assert (Ne : id' <> id) by (intros ->; apply N1; change id with (fst (id, o')); now apply in_map).
      destruct (R2 id' o' I) as (sc & P & B & U). exists sc. split; [exact P|]. split; [|exact U].
      now rewrite (proj1 (build_scale_other s (id, o) id' Ne)) in B.
  - intros k Nk. cbn in Nk. destruct (R3 k ltac:(tauto)) as [-> ->]. apply build_scale_other. intros E. apply Nk. now left.
Qed.

(** After an update the scales are those the options name, each with the options it
    was given; a scale is the same object as before exactly when its type did not
    change. *)
Theorem scales_follow_options scales0 next opts :
  List.NoDup (List.map fst scales0) -> List.NoDup (List.map fst opts) ->
  let s := buildOrUpdateScales scales0 next opts in
  forall k, match pget k opts with
            | Some o => exists sc, pget k (scales s) = Some sc /\ built_scale (pget k scales0) k o sc
            | None => pget k (scales s) = None
            end.
Proof.
  intros N0 N1 s k. unfold s, buildOrUpdateScales. cbv zeta. cbn [scales].
  destruct (build_fold opts N1 (mkState scales0 next (List.map (fun kv => (fst kv, false)) scales0)) N0) as (R1 & R2 & R3).
  rewrite pget_filter by exact R1. cbn [fst]. destruct (pget k opts) as [o|] eqn:E.
  - assert (I : In (k, o) opts).
    { clear - E. induction opts as [|[j w] l IH]; [discriminate|]. cbn in E. destruct (String.eqb k j) eqn:Ej.
      - apply String.eqb_eq in Ej. injection E as ->. subst. now left.
      - right. auto. }
    destruct (R2 k o I) as (sc & -> & B & ->). exists sc. now split.
  - apply pget_None in E. destruct (R3 k E) as [-> ->]. cbn [scales updated].
    destruct (pget k scales0) as [sc|] eqn:G; [|reflexivity].
    replace (pget k (List.map _ scales0)) with (Some false); [reflexivity|]. symmetry. clear - G.
    induction scales0 as [|[j w] l IH]; [discriminate|]. cbn in G |- *. destruct (String.eqb k j); auto.
Qed.
(** The position of a scale lies on the side of its axis. *)
Lemma scale_position_fits id o :
  let opts := scale_options id o in let axis := determineAxis id (VObj (Obj.put "id" (VStr id) o)) in
  positionIsHorizontal (index (VObj opts) "position") axis = positionIsHorizontal (VStr (dposition axis)) Undefined \/
  index (VObj opts) "position" = VStr (dposition axis).
Proof.
  cbv zeta. unfold scale_options. cbv zeta. set (o1 := Obj.put "id" (VStr id) o). set (axis := determineAxis id (VObj o1)).
  destruct (is_undefined _ || negb _) eqn:E.
  - right. cbn [index]. now rewrite Obj.get_put_eq.
  - left. apply orb_false_iff in E as [_ E]. apply negb_false_iff in E. now apply Bool.eqb_prop in E.
Qed.
Lemma scales_follow_options_witness :
  let s := buildOrUpdateScales [("x", mkScale 1 (VStr "category") []); ("old", mkScale 2 (VStr "linear") [])] 3
             [("x", []); ("y", [("type", VStr "linear")])] in
  exists sc, pget "x" (scales s) = Some sc /\ sc_id sc = 1%nat.
Proof.
  destruct (scales_follow_options [("x", mkScale 1 (VStr "category") []); ("old", mkScale 2 (VStr "linear") [])] 3
    [("x", []); ("y", [("type", VStr "linear")])]) with (k := "x") as (sc & P & _ & B);
    [repeat constructor; cbn; intuition discriminate|repeat constructor; cbn; intuition discriminate|].
  exists sc. split; [exact P|]. exact (proj1 B).
Defined.
End ChartScalesFacts.

(** ** The charts of a page *)
Module Instances.

(** A chart and the canvas it draws on. *)
Record instance := mkInstance { i_id : nat; i_canvas : option nat }.
Record page := mkPage { instances : list instance; uid : nat }.
Inductive created := Created (i : instance) | CanvasInUse (by_id : nat).

Definition same_canvas (a b : option nat) : bool :=
  match a, b with Some x, Some y => Nat.eqb x y | None, None => true | _, _ => false end.
(** [getChart]: the last chart on the canvas. *)
Definition getChart (p : page) (canvas : option nat) : option instance :=
  List.hd_error (List.rev (List.filter (fun i => same_canvas (i_canvas i) canvas) (instances p))).

Section Acquire.
(** The platform gives the canvas of the context it acquires, if it acquires one. *)
Context (acquire : option nat -> option nat).
Definition construct (p : page) (item : option nat) : created * page :=
  match getChart p item with
  | Some i => (CanvasInUse (i_id i), p)
  | None =>
      let i := mkInstance (uid p) (acquire item) in
      (Created i, mkPage (instances p ++ [i])%list (S (uid p)))
  end.
Definition destroy (p : page) (id : nat) : page :=
  mkPage (List.filter (fun i => negb (Nat.eqb (i_id i) id)) (instances p)) (uid p).

Inductive action := New (item : option nat) | Destroy (id : nat).
Definition act (p : page) (a : action) : page :=
  match a with New item => snd (construct p item) | Destroy id => destroy p id end.
End Acquire.
End Instances.

Module InstancesFacts.
Import Instances.

Section Facts.
Context (acquire : option nat -> option nat).
Hypothesis acquire_same : forall c, acquire c = c \/ acquire c = None.

Lemma hd_rev_None {X} (l : list X) : hd_error (List.rev l) = None -> l = [].
Proof. destruct l as [|x l]; [reflexivity|]. cbn. destruct (List.rev l); discriminate. Qed.
Lemma hd_rev_In {X} (l : list X) x : hd_error (List.rev l) = Some x -> In x l.
Proof. intros E. apply in_rev. destruct (List.rev l); [discriminate|]. injection E as ->. now left. Qed.
Lemma same_canvas_eq a b : same_canvas a b = true <-> a = b.
Proof. destruct a, b; cbn; try rewrite Nat.eqb_eq; intuition congruence. Qed.

Definition on_canvas (c : nat) (p : page) : list instance :=
  List.filter (fun i => same_canvas (i_canvas i) (Some c)) (instances p).

(** C39: whatever charts are created and destroyed, no canvas is ever used by two charts;
    creating a chart on a canvas in use gives an error that names the chart using it and
    changes nothing. *)
Theorem one_chart_per_canvas actions p0 : (forall c, (List.length (on_canvas c p0) <= 1)%nat) ->
  let p := fold_left (act acquire) actions p0 in
  (forall c, (List.length (on_canvas c p) <= 1)%nat) /\
  (forall c i, In i (instances p) -> i_canvas i = Some c ->
     exists j, construct acquire p (Some c) = (CanvasInUse (i_id j), p) /\ In j (instances p) /\ i_canvas j = Some c).
Proof.
  intros H0 p. assert (H : forall c, (List.length (on_canvas c p) <= 1)%nat).
  { unfold p. clear p. revert p0 H0. induction actions as [|a actions IH]; intros p H0; [exact H0|]. cbn [fold_left].
    apply IH. intros c. destruct a as [item|id]; cbn [act].
    - unfold construct. destruct (getChart p item) as [i|] eqn:G; [exact (H0 c)|]. cbn [snd].
      unfold on_canvas. cbn [instances]. rewrite List.filter_app, length_app. cbn [List.filter i_canvas].
      destruct (same_canvas (acquire item) (Some c)) eqn:E; [|cbn; specialize (H0 c); unfold on_canvas in H0; lia].
      apply same_canvas_eq in E. destruct (acquire_same item) as [A|A]; rewrite A in E; [|discriminate]. subst item.
      apply hd_rev_None in G. rewrite G. cbn. lia.
    - unfold on_canvas, destroy. cbn [instances]. specialize (H0 c). unfold on_canvas in H0.
      etransitivity; [|exact H0]. clear. induction (instances p) as [|i l IH]; [cbn; lia|]. cbn [List.filter].
      destruct (negb _); cbn [List.filter]; destruct (same_canvas (i_canvas i) (Some c)); cbn; lia. }
  split; [exact H|]. intros c i I E. unfold construct.
  destruct (getChart p (Some c)) as [j|] eqn:G.
  - exists j. split; [reflexivity|]. apply hd_rev_In, filter_In in G as [G1 G2]. apply same_canvas_eq in G2. now split.
  - apply hd_rev_None in G. assert (F : In i []); [|contradiction]. rewrite <- G. apply filter_In.
    split; [exact I|]. now apply same_canvas_eq.
Qed.
End Facts.
Lemma one_chart_per_canvas_witness :
  fst (construct id (fold_left (act id) [New (Some 5); New (Some 6); Destroy 1; New (Some 6)]%nat (mkPage [] 0)) (Some 6%nat))
  = CanvasInUse 2.
Proof.
  destruct (proj2 (one_chart_per_canvas id (fun c => or_introl eq_refl) [New (Some 5); New (Some 6); Destroy 1; New (Some 6)]%nat
    (mkPage [] 0) (fun c => le_0_n 1)) 6%nat (mkInstance 2 (Some 6%nat))) as (j & E & I & C);
    [vm_compute; auto|reflexivity|].
  rewrite E. vm_compute in I. destruct I as [<-|[<-|[]]]; [discriminate C|reflexivity].
Defined.
End InstancesFacts.
