(* ===== verification/ChartEvents.v ===== *)
(** The [Chart] class of webui/public/chart.js, its event side: which elements are hovered
    and styled after each event, and the hidden indices that follow the data. *)
From Stdlib Require Import ZArith Lia Bool List Ascii String Permutation Sorted.
From Stdlib Require Import SpecFloat.
From stdpp Require Import base list.
From S2P Require Import Prelude JsNumber JsString JsArray JsValue HelpersCore Controller Chart.
Import ListNotations.
Open Scope Z_scope.

(** ** Hovered elements *)
Module Hover.
Import Core.
Local Open Scope string_scope.

Record event := mkEvent { ev_type : string; ev_id : nat }.
(** [styled] are the elements whose hover style is set, [styled_datasets] the datasets
    whose own element has it; the callbacks of the options are noted. *)
Record state := mkState {
  _active : list active;
  _lastEvent : option event;
  styled : list active;
  styled_datasets : list Z;
  callbacks : list (string * list active)
}.
Definition same_element (x y : active) : bool := (datasetIndex x =? datasetIndex y)%Z && (aindex x =? aindex y)%Z.
Definition mem (x : active) (l : list active) : bool := existsb (same_element x) l.

Definition determineLastEvent (e : event) (lastEvent : option event) (inChartArea isClick : bool) : option event :=
  if negb inChartArea || String.eqb (ev_type e) "mouseout" then None
  else if isClick then lastEvent else Some e.

(** [setHoverStyle] and [removeHoverStyle] of the controllers set the element's flag. *)
Definition style (l : list active) (enabled : bool) (x : active) : list active :=
  if enabled then (if mem x l then l else l ++ [x])%list
  else List.filter (fun y => negb (same_element x y)) l.
Definition style_dataset (l : list Z) (enabled : bool) (d : Z) : list Z :=
  if enabled then (if existsb (Z.eqb d) l then l else l ++ [d])%list else List.filter (fun e => negb (d =? e)%Z) l.
Definition updateHoverStyle (s : state) (items : list active) (mode : string) (enabled : bool) : state :=
  mkState (_active s) (_lastEvent s) (fold_left (fun l x => style l enabled x) items (styled s))
    (if String.eqb mode "dataset" then
       match items with x :: _ => style_dataset (styled_datasets s) enabled (datasetIndex x) | [] => styled_datasets s end
     else styled_datasets s) (callbacks s).

Definition diff (a b : list active) : list active := List.filter (fun x => negb (mem x b)) a.
(** [mode] is the hover mode of the options, empty when there is none. *)
Definition _updateHoverStyles (s : state) (mode : string) (active lastActive : list active) (replay : bool) : state :=
  let deactivated := diff lastActive active in
  let activated := if replay then active else diff active lastActive in
  let s := match deactivated with [] => s | _ => updateHoverStyle s deactivated mode false end in
  match activated with
  | [] => s
  | _ => if String.eqb mode "" then s else updateHoverStyle s activated mode true
  end.

(** The elements at an event for a mode: [Interaction.modes]. *)
Section Events.
Context (elements_at : event -> string -> bool -> list active).

Definition _getActiveElements (mode : string) (e : event) (lastActive : list active)
    (inChartArea useFinalPosition : bool) : list active :=
  if String.eqb (ev_type e) "mouseout" then []
  else if negb inChartArea then lastActive
  else elements_at e mode useFinalPosition.

Definition _handleEvent (s : state) (mode : string) (e : event) (replay inChartArea : bool) : state * bool :=
  let lastActive := _active s in
  let active := _getActiveElements mode e lastActive inChartArea replay in
  let isClick := _isClickEvent (ev_type e) in
  let lastEvent := determineLastEvent e (_lastEvent s) inChartArea isClick in
  let s := if inChartArea
           then mkState (_active s) None (styled s) (styled_datasets s)
                  (callbacks s ++ ("onHover", active) :: if isClick then [("onClick", active)] else [])%list
           else s in
  let changed := negb (_elementsEqual (Some active) (Some lastActive)) in
  let s := if changed || replay
           then _updateHoverStyles (mkState active (_lastEvent s) (styled s) (styled_datasets s) (callbacks s))
                  mode active lastActive replay
           else s in
  (mkState (_active s) lastEvent (styled s) (styled_datasets s) (callbacks s), changed).

Definition setActiveElements (s : state) (mode : string) (active : list active) : state :=
  let lastActive := _active s in
  if negb (_elementsEqual (Some active) (Some lastActive))
  then _updateHoverStyles (mkState active None (styled s) (styled_datasets s) (callbacks s)) mode active lastActive false
  else s.

(** [_eventHandler]: a plugin can cancel the event, or ask for a redraw; gives whether
    the chart is rendered. *)
Definition _eventHandler (s : state) (mode : string) (e : event) (replay inChartArea : bool)
    (cancelled plugin_changed : bool) : state * bool :=
  if cancelled then (s, false)
  else let '(s, changed) := _handleEvent s mode e replay inChartArea in (s, changed || plugin_changed).
End Events.
End Hover.

Module HoverFacts.
Import Core Hover.

#[global] Instance active_eq_dec : EqDecision active.
Proof. solve_decision. Defined.

Lemma same_element_eq x y : same_element x y = true <-> x = y.
Proof.
  unfold same_element. destruct x as [a b], y as [c d]. cbn. rewrite andb_true_iff, !Z.eqb_eq.
  split; [intros [-> ->]; reflexivity|intros [= -> ->]; auto].
Qed.
Lemma mem_In x l : mem x l = true <-> In x l.
Proof.
  unfold mem. rewrite List.existsb_exists. split.
  - intros (y & I & E). apply same_element_eq in E. now subst.
  - intros I. exists x. split; [exact I|]. now apply same_element_eq.
Qed.
Lemma mem_false x l : mem x l = false <-> ~ In x l.
Proof. rewrite <- mem_In. now destruct (mem x l). Qed.
Lemma diff_In x a b : In x (diff a b) <-> In x a /\ ~ In x b.
Proof. unfold diff. rewrite filter_In, negb_true_iff, mem_false. tauto. Qed.
Lemma style_In l en x y : In y (style l en x) <-> (en = true /\ y = x) \/ (In y l /\ (en = true \/ y <> x)).
Proof.
  unfold style. destruct en.
  - destruct (mem x l) eqn:M.
    + apply mem_In in M. split; [auto|]. intros [[_ ->]|[I _]]; auto.
    + rewrite in_app_iff. cbn. split; [intros [I|[<-|[]]]; auto|]. intros [[_ ->]|[I _]]; auto.
  - rewrite filter_In, negb_true_iff. split.
    + intros [I E]. right. split; [exact I|right]. intros ->. assert (same_element x x = true) by now apply same_element_eq.
      congruence.
    + intros [[E _]|[I [E|N]]]; try discriminate. split; [exact I|]. apply not_true_iff_false. rewrite same_element_eq. congruence.
Qed.
Lemma styles_In items : forall l en y, In y (fold_left (fun l x => style l en x) items l) <->
  (en = true /\ In y items) \/ (In y l /\ (en = true \/ ~ In y items)).
Proof.
  induction items as [|x items IH]; intros l en y; cbn [fold_left].
  - cbn. tauto.
  - rewrite IH, style_In. cbn [In]. destruct en; intuition congruence.
Qed.

(** The flags after an update of the styles. *)
Lemma update_styles s mode active last replay y : mode <> EmptyString ->
  In y (styled (_updateHoverStyles s mode active last replay)) <->
  (In y active /\ (replay = true \/ ~ In y last)) \/ (In y (styled s) /\ (In y active \/ ~ In y last)).
Proof.
  intros M. unfold _updateHoverStyles. set (act := if replay then active else diff active last).
  set (s1 := match diff last active with [] => s | _ => _ end).
  assert (S1 : In y (styled s1) <-> In y (styled s) /\ (In y active \/ ~ In y last)).
  { unfold s1. destruct (diff last active) as [|x l] eqn:D.
    - split; [|tauto]. intros I. split; [exact I|]. destruct (in_dec active_eq_dec y active); [auto|right].
      intros J. assert (In y (diff last active)) by now apply diff_In. rewrite D in H. contradiction.
    - cbn [updateHoverStyle styled]. rewrite styles_In, <- D, diff_In. 
      destruct (in_dec active_eq_dec y active); intuition congruence. }
  assert (A : In y act <-> In y active /\ (replay = true \/ ~ In y last)).
  { unfold act. destruct replay; [tauto|]. rewrite diff_In. intuition congruence. }
  destruct act as [|x l] eqn:E.
  - cbn in A. rewrite S1. tauto.
  - destruct (String.eqb mode EmptyString) eqn:Em; [apply String.eqb_eq in Em; contradiction|].
    cbn [updateHoverStyle styled]. rewrite styles_In, S1, A. tauto.
Qed.

Lemma same_elements_eq a b : List.length a = List.length b -> same_elements a b = true -> a = b.
Proof.
  revert b. induction a as [|x a IH]; intros [|y b] L E; try discriminate; [reflexivity|]. cbn in E.
  destruct (negb _ || negb _) eqn:N; [discriminate|]. apply orb_false_iff in N as [N1 N2].
  apply negb_false_iff in N1, N2. f_equal; [|apply IH; [now injection L|exact E]].
  apply same_element_eq. unfold same_element. now rewrite N1, N2.
Qed.
Lemma elementsEqual_eq a b : _elementsEqual (Some a) (Some b) = true -> a = b.
Proof.
  cbn. destruct (Nat.eqb (List.length a) (List.length b)) eqn:L; [|discriminate]. cbn. apply Nat.eqb_eq in L.
  now apply same_elements_eq.
Qed.

(** The elements with the hover style are the active ones. *)
Definition styled_are_active (s : state) : Prop := forall x, In x (styled s) <-> In x (_active s).

Lemma update_active s mode active replay lastEvent : mode <> EmptyString -> styled_are_active s ->
  styled_are_active (_updateHoverStyles (mkState active lastEvent (styled s) (styled_datasets s) (callbacks s))
    mode active (_active s) replay).
Proof.
  intros M I x. rewrite update_styles by exact M. cbn [styled]. rewrite (I x).
  match goal with |- _ <-> In x (_active ?u) => replace (_active u) with active end.
  - destruct (in_dec active_eq_dec x (_active s)); tauto.
  - unfold _updateHoverStyles. destruct (diff (_active s) active), (if replay then active else diff active (_active s)), (String.eqb mode EmptyString); reflexivity.
Qed.

(** C27: with a hover mode set, whatever events come and whatever is made active by the
    program, the elements that have the hover style are exactly the active ones. *)
Theorem hover_styles_match elements_at mode steps s0 : mode <> EmptyString -> styled_are_active s0 ->
  styled_are_active (fold_left (fun s st =>
    match st with
    | inl (e, replay, inArea) => fst (_handleEvent elements_at s mode e replay inArea)
    | inr active => setActiveElements s mode active
    end) steps s0).
Proof.
  intros M. revert s0. induction steps as [|st steps IH]; intros s I; [exact I|]. cbn [fold_left]. apply IH.
  destruct st as [[[e replay] inArea]|active].
  - unfold _handleEvent. cbv zeta. set (active := _getActiveElements _ _ _ _ _ _).
    set (s1 := if inArea then _ else s).
    assert (E1 : _active s1 = _active s /\ styled s1 = styled s) by (unfold s1; now destruct inArea).
    destruct E1 as [E1 E2]. assert (I1 : styled_are_active s1) by (intros x; rewrite E1, E2; apply I).
    cbn [fst]. destruct (negb _ || replay) eqn:C; [|exact I1].
    intros x. cbn [styled _active]. rewrite <- E1. exact (update_active s1 mode active replay (_lastEvent s1) M I1 x).
  - unfold setActiveElements. cbv zeta. destruct (negb _); [|exact I]. now apply update_active.
Qed.
Lemma hover_styles_match_witness :
  let at_ := fun e _ _ => if Nat.eqb (ev_id e) 0 then [{| datasetIndex := 0; aindex := 1 |}] else [{| datasetIndex := 1; aindex := 2 |}] in
  styled (fold_left (fun s st =>
    match st with
    | inl (e, replay, inArea) => fst (_handleEvent at_ s "nearest"%string e replay inArea)
    | inr active => setActiveElements s "nearest"%string active
    end) [inl (mkEvent "mousemove" 0, false, true); inl (mkEvent "mousemove" 1, false, true)] (mkState [] None [] [] []))
  = [{| datasetIndex := 1; aindex := 2 |}] /\
  forall x, In x [{| datasetIndex := 1; aindex := 2 |}] <-> In x [{| datasetIndex := 1; aindex := 2 |}].
Proof.
  split; [reflexivity|].
  exact (hover_styles_match (fun e _ _ => if Nat.eqb (ev_id e) 0 then [{| datasetIndex := 0; aindex := 1 |}] else [{| datasetIndex := 1; aindex := 2 |}])
    "nearest"%string [inl (mkEvent "mousemove" 0, false, true); inl (mkEvent "mousemove" 1, false, true)] (mkState [] None [] [] [])
    ltac:(discriminate) (fun x => conj (fun f => f) (fun f => f))).
Defined.
End HoverFacts.

(** ** Hidden indices

    The keys of [_hiddenIndices] are data indices; an object lists such keys in
    ascending order. *)
Module Hidden.
Import Sync.

Definition indices := list (Z * bool).
Fixpoint iget (k : Z) (l : indices) : option bool :=
  match l with
  | [] => None
  | (j, v) :: l' => if k =? j then Some v else iget k l'
  end.
Fixpoint iput (k : Z) (v : bool) (l : indices) : indices :=
  match l with
  | [] => [(k, v)]
  | (j, w) :: l' => if k =? j then (k, v) :: l' else if k <? j then (k, v) :: l else (j, w) :: iput k v l'
  end.
Definition idel (k : Z) (l : indices) : indices := List.filter (fun p => negb (k =? fst p)) l.

(** [moveNumericKeys]: the keys are those of the start, the values what is there now. *)
Definition move_key (start move : Z) (obj : indices) (k : Z) : indices :=
  if start <=? k then
    match iget k obj with
    | Some value =>
        let obj := idel k obj in
        if (0 <? move) || (start <? k) then iput (k + move) value obj else obj
    | None => obj
    end
  else obj.
Definition moveNumericKeys (obj : indices) (start move : Z) : indices :=
  fold_left (move_key start move) (List.map fst obj) obj.

Definition getDataVisibility (obj : indices) (index : Z) : bool :=
  match iget index obj with Some b => negb b | None => true end.
Definition toggleDataVisibility (obj : indices) (index : Z) : indices :=
  iput index (getDataVisibility obj index) obj.

(** The changes noted by the controllers, with the dataset they happened in. *)
Definition change_eqb (a b : change) : bool :=
  match a, b with
  | Insert s c, Insert s' c' | Remove s c, Remove s' c' => (s =? s') && (c =? c')
  | _, _ => false
  end.
Definition entry_eqb (a b : nat * change) : bool := Nat.eqb (fst a) (fst b) && change_eqb (snd a) (snd b).
(** The changes of a dataset with their rank, as the strings of a set. *)
Definition makeSet (changes : list (nat * change)) (idx : nat) : list (nat * change) :=
  let cs := List.map snd (List.filter (fun c => Nat.eqb (fst c) idx) changes) in
  combine (seq 0 (List.length cs)) cs.
Definition entriesEqual (a b : list (nat * change)) : bool :=
  Nat.eqb (List.length a) (List.length b) && forallb (fun x => existsb (entry_eqb x) b) a.
(** [_getUniformDataChanges]: the changes when every dataset had the same ones; the
    notes are then gone in any case. *)
Definition _getUniformDataChanges (changes : list (nat * change)) (datasetCount : nat) : option (list change) :=
  match changes with
  | [] => None
  | _ =>
      let changeSet := makeSet changes 0 in
      if forallb (fun i => entriesEqual changeSet (makeSet changes i)) (seq 1 (datasetCount - 1))
      then Some (List.map snd changeSet) else None
  end.
Definition _updateHiddenIndices (hidden : indices) (changes : list (nat * change)) (datasetCount : nat) : indices :=
  match _getUniformDataChanges changes datasetCount with
  | None => hidden
  | Some cs => fold_left (fun h c => match c with
                                     | Remove start count => moveNumericKeys h start (- count)
                                     | Insert start count => moveNumericKeys h start count
                                     end) cs hidden
  end.
End Hidden.

Module HiddenFacts.
Import Sync Hidden.

Inductive ascending : indices -> Prop :=
| asc_nil : ascending []
| asc_cons k v l : List.Forall (fun p => k < fst p) l -> ascending l -> ascending ((k, v) :: l).

Lemma iget_iput k j v l : iget j (iput k v l) = if j =? k then Some v else iget j l.
Proof.
  induction l as [|[i w] l IH]; cbn; [reflexivity|].
  destruct (Z.eqb_spec k i) as [->|Nki]; cbn; [now destruct (j =? i)|].
  destruct (k <? i); cbn; [reflexivity|]. rewrite IH.
  destruct (Z.eqb_spec j i), (Z.eqb_spec j k); subst; congruence || reflexivity.
Qed.
Lemma iget_idel k j l : iget j (idel k l) = if j =? k then None else iget j l.
Proof.
  unfold idel. induction l as [|[i w] l IH]; cbn; [now destruct (j =? k)|].
  destruct (Z.eqb_spec k i) as [->|N]; cbn.
  - rewrite IH. now destruct (Z.eqb_spec j i).
  - rewrite IH. destruct (Z.eqb_spec j i), (Z.eqb_spec j k); subst; congruence || reflexivity.
Qed.
Lemma iget_move start move obj k j : iget j (move_key start move obj k) =
  if start <=? k then
    match iget k obj with
    | Some v => if (0 <? move) || (start <? k)
                then if j =? k + move then Some v else if j =? k then None else iget j obj
                else if j =? k then None else iget j obj
    | None => iget j obj
    end
  else iget j obj.
Proof.
  unfold move_key. destruct (start <=? k); [|reflexivity]. destruct (iget k obj); [|reflexivity].
  destruct (_ || _); [rewrite iget_iput|]; now rewrite iget_idel.
Qed.

Lemma ascending_None k l : List.Forall (fun p => k < fst p) l -> iget k l = None.
Proof.
  induction 1 as [|[j w] l L F IH]; [reflexivity|]. cbn in *. destruct (Z.eqb_spec k j); [lia|exact IH].
Qed.

(** One key after the other moves down by one: the keys at or above [b] are the old ones. *)
Lemma move_down start ks obj b old :
  (forall k, In k ks <-> iget k old <> None /\ b <= k) -> Sorted.StronglySorted Z.lt ks ->
  (forall j, b <= j -> iget j obj = iget j old) ->
  (forall j, j < b -> iget j obj = if j <? start then iget j old else if j + 1 <? b then iget (j + 1) old else None) ->
  forall j, iget j (fold_left (move_key start (-1)) ks obj) = if j <? start then iget j old else iget (j + 1) old.
Proof.
  revert obj b. induction ks as [|k ks IH]; intros obj b Hk S Hi Lo j; cbn [fold_left].
  - assert (N : forall i, b <= i -> iget i old = None).
    { intros i Li. destruct (iget i old) eqn:E; [|reflexivity]. destruct (proj2 (Hk i)). split; [congruence|lia]. }
    destruct (Z.ltb_spec j start).
    + destruct (Z.ltb_spec j b) as [L|L]; [rewrite (Lo j L)|now rewrite (Hi j L)].
      now replace (j <? start) with true by lia.
    + destruct (Z.ltb_spec j b) as [L|L].
      * rewrite (Lo j L). replace (j <? start) with false by lia. destruct (Z.ltb_spec (j + 1) b); [reflexivity|].
        now rewrite N by lia.
      * rewrite (Hi j L), !N by lia. reflexivity.
  - inversion S as [|? ? S1 S2]; subst. destruct (proj1 (Hk k) (or_introl eq_refl)) as [Ek Lk].
    rewrite List.Forall_forall in S2.
    assert (Gap : forall i, b <= i < k -> iget i old = None).
    { intros i Li. destruct (iget i old) eqn:E; [|reflexivity].
      assert (I : In i (k :: ks)) by (apply Hk; split; [congruence|lia]). destruct I as [->|I]; [lia|]. specialize (S2 _ I). lia. }
    apply (IH _ (k + 1)).
    + intros i. split.
      * intros I. destruct (proj1 (Hk i) (or_intror I)). specialize (S2 _ I). split; [assumption|lia].
      * intros [E L]. assert (I : In i (k :: ks)) by (apply Hk; split; [assumption|lia]). destruct I as [->|I]; [lia|exact I].
    + exact S1.
    + intros i L. rewrite iget_move, (Hi k Lk). destruct (start <=? k) eqn:Es; [|apply Hi; lia].
      destruct (iget k old) as [v|]; [|congruence]. replace (0 <? -1) with false by reflexivity. cbn [orb].
      destruct (start <? k); destruct (Z.eqb_spec i k); try lia;
        try (destruct (Z.eqb_spec i (k + -1)); [lia|]); apply Hi; lia.
    + intros i L. rewrite iget_move, (Hi k Lk). destruct (Z.leb_spec start k) as [Es|Es].
      * destruct (iget k old) as [v|] eqn:Ev; [|congruence]. replace (0 <? -1) with false by reflexivity. cbn [orb].
        assert (Old : i <> k -> iget i obj = if i <? start then iget i old else
                      if i + 1 <? b then iget (i + 1) old else None).
        { intros N. destruct (Z.ltb_spec i b) as [Lb|Lb]; [apply Lo; lia|]. rewrite (Hi i Lb), Gap by lia.
          replace (i + 1 <? b) with false by lia. now destruct (i <? start). }
        destruct (Z.ltb_spec start k) as [E2|E2].
        -- destruct (Z.eqb_spec i (k + -1)) as [->|N1].
           ++ replace (k + -1 <? start) with false by lia. replace (k + -1 + 1 <? k + 1) with true by lia.
              replace (k + -1 + 1) with k by lia. now rewrite Ev.
           ++ destruct (Z.eqb_spec i k) as [->|N2].
              ** replace (k <? start) with false by lia. now replace (k + 1 <? k + 1) with false by lia.
              ** rewrite (Old N2). destruct (Z.ltb_spec i start); [reflexivity|]. destruct (Z.ltb_spec (i + 1) b).
                 --- now replace (i + 1 <? k + 1) with true by lia.
                 --- replace (i + 1 <? k + 1) with true by lia. now rewrite Gap by lia.
        -- assert (k = start) as -> by lia. destruct (Z.eqb_spec i start) as [->|N2].
           ++ rewrite Z.ltb_irrefl. now rewrite Z.ltb_irrefl.
           ++ rewrite (Old N2). now replace (i <? start) with true by lia.
      * destruct (Z.ltb_spec i b) as [Lb|Lb].
        -- rewrite (Lo i Lb). now replace (i <? start) with true by lia.
        -- rewrite (Hi i Lb). now replace (i <? start) with true by lia.
Qed.

Lemma ascending_keys l : ascending l -> Sorted.StronglySorted Z.lt (List.map fst l).
Proof.
  induction 1 as [|k v l F A IH]; cbn; constructor; [exact IH|].
  apply List.Forall_forall. intros x I. apply in_map_iff in I as (p & <- & I). rewrite List.Forall_forall in F. auto.
Qed.
Lemma iget_keys k l : iget k l <> None <-> In k (List.map fst l).
Proof.
  induction l as [|[j w] l IH]; cbn; [intuition congruence|]. destruct (Z.eqb_spec k j) as [->|N].
  - split; [auto|congruence].
  - rewrite IH. intuition congruence.
Qed.

(** When one datum is removed at [start] from every dataset, the hidden indices above
    it move down with their data and nothing else changes. *)
Theorem hidden_follow_removal obj start : ascending obj ->
  forall j, getDataVisibility (moveNumericKeys obj start (-1)) j
            = if j <? start then getDataVisibility obj j else getDataVisibility obj (j + 1).
Proof.
  intros A j. unfold getDataVisibility, moveNumericKeys.
  rewrite (move_down start (List.map fst obj) obj (Z.min start (match obj with (k, _) :: _ => k | [] => start end) ) obj).
  - now destruct (j <? start).
  - intros k. rewrite iget_keys. split; [|tauto]. intros I. split; [exact I|].
    destruct A as [|k0 v l F A]; [contradiction|]. destruct I as [<-|I]; [cbn; lia|].
    apply in_map_iff in I as (p & <- & I). rewrite List.Forall_forall in F. specialize (F _ I). lia.
  - now apply ascending_keys.
  - reflexivity.
  - intros i L. replace (i <? start) with true by lia. reflexivity.
Qed.
(** Two adjacent hidden indices moved up by one: the first overwrites the second. *)
Lemma adjacent_hidden_lost :
  moveNumericKeys [(1, true); (2, true)] 0 1 = [(3, true)].
Proof. reflexivity. Qed.
(** Removing two data hides an index below them when the second of the two was hidden. *)
Lemma removed_hidden_moves_below : moveNumericKeys [(3, true)] 2 (-2) = [(1, true)].
Proof. reflexivity. Qed.
Lemma hidden_follow_removal_witness :
  getDataVisibility (moveNumericKeys [(1, true); (3, true); (4, true)] 2 (-1)) 2 = false.
Proof.
  refine (hidden_follow_removal [(1, true); (3, true); (4, true)] 2 _ 2).
  repeat constructor; cbn; lia.
Defined.
End HiddenFacts.
