(* ===== verification/Rendering.v ===== *)
(** The order of a chart's update and drawing in webui/public/chart.js: [Chart.update] and
    its parts, the layers of the boxes, [Chart.draw], and [DatasetController.draw].

    What other files model (scales, bindings, controllers, layout, plugins) appears here as
    the steps of a trace; whether a plugin lets a cancelable hook pass is a function of the
    hook and of the dataset it is about. *)
From Stdlib Require Import ZArith Lia Bool List Ascii String Permutation Sorted.
From Stdlib Require Import SpecFloat.
From stdpp Require Import base list.
From S2P Require Import Prelude JsNumber JsString JsArray JsValue HelpersCore Dataset Chart.
Import ListNotations.
Open Scope Z_scope.

Module Rendering.
Import Metas.
Local Open Scope string_scope.

(** ** Elements of a dataset *)
Record element := mkElement { eid : nat; e_hidden : bool; e_active : bool }.
Inductive paint := PaintDataset (start count : Z) | PaintElement (e : nat).

(** The elements from [start] on; None is the TypeError of a missing element. *)
Fixpoint elements_from (els : list (option element)) (start : Z) (count : nat) : option (list element) :=
  match count with
  | O => Some []
  | S n =>
      match nthZ els start with
      | Some (Some e) => option_map (cons e) (elements_from els (start + 1)%Z n)
      | _ => None
      end
  end.
(** [_drawStart] and [_drawCount] are 0 when they are unset. *)
Record drawn := mkDrawn {
  has_dataset : bool; els : list (option element); _drawStart : Z; _drawCount : Z; drawActiveElementsOnTop : bool }.
Definition draw_step (onTop : bool) (acc : list nat * list nat) (e : element) : list nat * list nat :=
  let '(drawn, active) := acc in
  if e_hidden e then (drawn, active)
  else if e_active e && onTop then (drawn, active ++ [eid e])%list
  else (drawn ++ [eid e], active)%list.
Definition draw (d : drawn) : option (list paint) :=
  let start := _drawStart d in
  let count := if (_drawCount d =? 0)%Z then (lengthZ (els d) - start)%Z else _drawCount d in
  let head := if has_dataset d then [PaintDataset start count] else [] in
  match elements_from (els d) start (Z.to_nat count) with
  | None => None
  | Some es =>
      let '(drawn, active) := fold_left (draw_step (drawActiveElementsOnTop d)) es ([], []) in
      Some (head ++ List.map PaintElement drawn ++ List.map PaintElement active)%list
  end.

(** ** Layers *)
Record layer := mkLayer { z : num; box_id : nat; _idx : num }.
Record box := mkBox { in_chartArea : bool; has_configure : bool; _layers : list (num * nat) }.
Definition compare_layers (a b : layer) : num :=
  if Num.eq (z a) (z b) then (_idx a - _idx b)%js else (z a - z b)%js.
(** A box that lies in a chart area without extent has no layers. *)
Definition collect_layers (boxes : list box) (noArea : bool) : list (num * nat) :=
  List.flat_map (fun b => if noArea && in_chartArea b then [] else _layers b) boxes.
Definition index_layers (ls : list (num * nat)) : list layer :=
  List.map (fun p => mkLayer (fst (snd p)) (snd (snd p)) (Num.of_nat (fst p))) (combine (seq 0 (List.length ls)) ls).
Definition sort_layers (ls : list layer) : list layer := sort_by compare_layers ls.

(** ** The chart *)
Record area := mkArea { left : num; top : num; right : num; bottom : num; awidth : num; aheight : num }.
Definition noArea (a : area) : bool := Num.le (awidth a) 0%js || Num.le (aheight a) 0%js.

(** What is drawn: [_clip] of a meta as numbers, None where a side is false. *)
Record clip := mkClip { cleft : option num; ctop : option num; cright : option num; cbottom : option num; cdisabled : bool }.
Record meta := mkMeta { index : nat; _clip : clip; elements_of : drawn }.

Inductive event :=
| Hook (name : string) (dataset : option nat)
| Resize (width height : option num)
| Clear
| DrawLayer (id : nat)
| ClipArea (left right top bottom : num)
| UnclipArea
| Paint (dataset : nat) (what : list paint)
| OnComplete
| StartAnimation.

Section Chart.
(** [passes hook dataset]: no plugin returned false. *)
Context (passes : string -> option nat -> bool).

Record chart := mkChart {
  width : num; height : num;
  chartArea : area;
  layers : list layer;
  visible_metas : list meta;
  _resizeBeforeDraw : option (option num * option num);
  attached : bool;
  (** [animator.has] and [animator.running]. *)
  animated : bool; running : bool
}.
Definition hook (name : string) (dataset : option nat) : list event := [Hook name dataset].

Definition _drawDataset (c : chart) (m : meta) : option (list event) :=
  let a := chartArea c in
  let k := _clip m in
  if negb (passes "beforeDatasetDraw" (Some (index m))) then Some (hook "beforeDatasetDraw" (Some (index m)))
  else
    match draw (elements_of m) with
    | None => None
    | Some p =>
        let side (v : option num) (out inn : num) := match v with None => out | Some _ => inn end in
        let grow (v : option num) := match v with Some x => x | None => 0%js end in
        Some (hook "beforeDatasetDraw" (Some (index m)) ++
          (if cdisabled k then [] else
             [ClipArea (side (cleft k) 0%js (left a - grow (cleft k))%js) (side (cright k) (width c) (right a + grow (cright k))%js)
                (side (ctop k) 0%js (top a - grow (ctop k))%js) (side (cbottom k) (height c) (bottom a + grow (cbottom k))%js)]) ++
          [Paint (index m) p] ++ (if cdisabled k then [] else [UnclipArea]) ++
          hook "afterDatasetDraw" (Some (index m)))%list
    end.
Fixpoint draw_all (c : chart) (ms : list meta) : option (list event) :=
  match ms with
  | [] => Some []
  | m :: ms' =>
      match _drawDataset c m, draw_all c ms' with Some x, Some y => Some (x ++ y)%list | _, _ => None end
  end.
Definition _drawDatasets (c : chart) : option (list event) :=
  if negb (passes "beforeDatasetsDraw" None) then Some (hook "beforeDatasetsDraw" None)
  else option_map (fun l => hook "beforeDatasetsDraw" None ++ l ++ hook "afterDatasetsDraw" None)%list
         (draw_all c (List.rev (visible_metas c))).

(** The layers up to the first one above the datasets, and the rest. *)
Fixpoint below_datasets (ls : list layer) : list layer * list layer :=
  match ls with
  | [] => ([], [])
  | l :: ls' => if Num.le (z l) 0%js then let '(x, y) := below_datasets ls' in (l :: x, y) else ([], ls)
  end.
(** [after] is the chart after the resize that waited for the drawing. *)
Definition draw_chart (c : chart) (after : chart) : option (list event) :=
  let '(c, pre) := match _resizeBeforeDraw c with
    | Some (w, h) => (after, [Resize w h])
    | None => (c, []) end in
  let pre := (pre ++ [Clear])%list in
  if Num.le (width c) 0%js || Num.le (height c) 0%js then Some pre
  else if negb (passes "beforeDraw" None) then Some (pre ++ hook "beforeDraw" None)%list
  else
    let '(low, high) := below_datasets (layers c) in
    match _drawDatasets c with
    | None => None
    | Some ds =>
        Some (pre ++ hook "beforeDraw" None ++ List.map (fun l => DrawLayer (box_id l)) low ++ ds ++
              List.map (fun l => DrawLayer (box_id l)) high ++ hook "afterDraw" None)%list
    end.
Definition render (c : chart) (after : chart) : option (list event) :=
  if negb (passes "beforeRender" None) then Some (hook "beforeRender" None)
  else if animated c then
    Some (hook "beforeRender" None ++ (if attached c && negb (running c) then [StartAnimation] else []))%list
  else
    option_map (fun l => hook "beforeRender" None ++ l ++ hook "afterRender" None ++ [OnComplete])%list
      (draw_chart c after).

(** ** Updating *)
Inductive step :=
| Notify (name : string) (dataset : option nat)
| UpdateConfig | UpdateScales | CheckEventBindings | UpdateHiddenIndices | InvalidatePlugins
| BuildElements (controller : nat) (reset : bool)
| Layout (minPadding : num)
| ConfigureBox (b : nat)
| ResetController (controller : nat)
| ConfigureController (controller : nat)
| UpdateController (controller : nat) (mode : option string)
| ReplayEvent | HoverStyles | Render.

(** The controller of the meta of each dataset; None is the TypeError of a missing one. *)
Fixpoint controllers_from (c : Metas.chart) (idx : list nat) : option (list nat) :=
  match idx with
  | [] => Some []
  | i :: idx' =>
      let '(c, k) := getDatasetMeta c i in
      match match meta_at c k with Some m => controller m | None => None end, controllers_from c idx' with
      | Some x, Some l => Some (x :: l)
      | _, _ => None
      end
  end.
Definition controllers (c : Metas.chart) : option (list nat) := controllers_from c (seq 0 (List.length (datasets c))).

Definition _updateDataset (i controller : nat) (mode : option string) : list step :=
  if negb (passes "beforeDatasetUpdate" (Some i)) then [Notify "beforeDatasetUpdate" (Some i)]
  else [Notify "beforeDatasetUpdate" (Some i); UpdateController controller mode; Notify "afterDatasetUpdate" (Some i)].
(** [mode] may depend on the dataset. *)
Definition _updateDatasets (cs : list nat) (mode : nat -> option string) : list step :=
  if negb (passes "beforeDatasetsUpdate" None) then [Notify "beforeDatasetsUpdate" None]
  else Notify "beforeDatasetsUpdate" None :: List.map ConfigureController cs ++
       List.flat_map (fun ic => _updateDataset (fst ic) (snd ic) (mode (fst ic))) (combine (seq 0 (List.length cs)) cs) ++
       [Notify "afterDatasetsUpdate" None].

(** The layers are collected anew, with the numbers that break ties. *)
Definition _updateLayout (boxes : list box) (a : area) (old : list layer) (minPadding : num) : list step * list layer :=
  if negb (passes "beforeLayout" None) then ([Notify "beforeLayout" None], old)
  else
    (Notify "beforeLayout" None :: Layout minPadding ::
       List.flat_map (fun ib => let '(i, b) := ib in
           if noArea a && in_chartArea b then [] else if has_configure b then [ConfigureBox i] else [])
         (combine (seq 0 (List.length boxes)) boxes) ++ [Notify "afterLayout" None],
     index_layers (collect_layers boxes (noArea a))).

Record updating := mkUpdating {
  animation : bool; autoPadding : bool; maxOverflow : nat -> num;
  boxes : list box; area_after : area; old_layers : list layer;
  lastEvent : bool; active : bool
}.
(** The chart's metas after the update, its layers and the steps; None is a TypeError. *)
Definition update (c : Metas.chart) (u : updating) (mode : nat -> option string)
    : option (Metas.chart * list layer * list step) :=
  let before := [UpdateConfig; UpdateScales; CheckEventBindings; UpdateHiddenIndices; InvalidatePlugins;
                 Notify "beforeUpdate" None] in
  if negb (passes "beforeUpdate" None) then Some (c, old_layers u, before)
  else
    let '(c, news) := buildOrUpdateControllers c in
    match controllers c with
    | None => None
    | Some cs =>
        let is_new k := existsb (Nat.eqb k) news in
        let build := List.map (fun k => BuildElements k (animation u && negb (is_new k))) cs in
        let minPadding := fold_left (fun m k => Num.max (maxOverflow u k) m) cs 0%js in
        let '(layout, ls) := _updateLayout (boxes u) (area_after u) (old_layers u)
                               (if autoPadding u then minPadding else 0%js) in
        Some (c, sort_layers ls,
          before ++ [Notify "beforeElementsUpdate" None] ++ build ++ layout ++
          (if animation u then List.map ResetController news else []) ++
          _updateDatasets cs mode ++ [Notify "afterUpdate" None] ++
          (if lastEvent u then [ReplayEvent] else if active u then [HoverStyles] else []) ++ [Render])%list
    end.
End Chart.
End Rendering.

(** ** Facts *)
Module RenderingFacts.
Import Rendering.

(** *** The elements of a dataset *)
Definition shown (onTop top : bool) (e : element) : bool := negb (e_hidden e) && Bool.eqb (e_active e && onTop) top.
Lemma draw_fold onTop es : forall d a,
  fold_left (draw_step onTop) es (d, a) =
  (d ++ List.map eid (List.filter (shown onTop false) es), a ++ List.map eid (List.filter (shown onTop true) es))%list.
Proof.
  induction es as [|e es IH]; intros d a; [now rewrite !app_nil_r|]. cbn [fold_left].
  assert (E : draw_step onTop (d, a) e = (d ++ List.map eid (List.filter (shown onTop false) [e]),
    a ++ List.map eid (List.filter (shown onTop true) [e]))%list).
  { unfold draw_step, shown. cbn. destruct (e_hidden e), (e_active e && onTop); cbn; now rewrite ?app_nil_r. }
  rewrite E, IH, <- !app_assoc, <- !map_app, <- !List.filter_app. reflexivity.
Qed.
Lemma shown_split onTop es :
  Permutation (List.filter (shown onTop false) es ++ List.filter (shown onTop true) es)
    (List.filter (fun e => negb (e_hidden e)) es).
Proof.
  unfold shown. induction es as [|e es IH]; [reflexivity|]. cbn [List.filter].
  destruct (e_hidden e); cbn; [exact IH|]. destruct (e_active e && onTop); cbn; [|now constructor].
  etransitivity; [symmetry; apply Permutation_middle|]. now constructor.
Qed.
Lemma elements_from_app l1 es l2 :
  elements_from (l1 ++ List.map Some es ++ l2) (lengthZ l1) (List.length es) = Some es.
Proof.
  revert l1. induction es as [|e es IH]; intros l1; [reflexivity|]. cbn [List.length elements_from List.map].
  unfold nthZ, lengthZ. rewrite (proj2 (Z.ltb_ge _ _)) by lia.
  rewrite Nat2Z.id, nth_error_app2, Nat.sub_diag by lia. cbn [nth_error app].
  specialize (IH (l1 ++ [Some e])%list). rewrite <- app_assoc in IH. cbn [app] in IH.
  unfold lengthZ in IH. rewrite length_app in IH. cbn [List.length] in IH.
  replace (Z.of_nat (List.length l1) + 1) with (Z.of_nat (List.length l1 + 1)) by lia. now rewrite IH.
Qed.

(** A controller whose elements are all there draws each element of its range that is
    not hidden exactly once, the active ones last when they belong on top, and otherwise
    in the order of the data; the dataset's own element comes before them. *)
Theorem elements_drawn_once d l1 es l2 :
  els d = (l1 ++ List.map Some es ++ l2)%list -> _drawStart d = lengthZ l1 -> _drawCount d = lengthZ es -> es <> [] ->
  exists drawn, draw d = Some ((if has_dataset d then [PaintDataset (lengthZ l1) (lengthZ es)] else [])
                               ++ List.map PaintElement drawn)%list /\
    Permutation drawn (List.map eid (List.filter (fun e => negb (e_hidden e)) es)) /\
    drawn = (List.map eid (List.filter (shown (drawActiveElementsOnTop d) false) es) ++
             List.map eid (List.filter (shown (drawActiveElementsOnTop d) true) es))%list.
Proof.
  intros E S C N. eexists. split; [|split; [|reflexivity]].
  - unfold draw. rewrite E, S, C. unfold lengthZ at 1. destruct (Z.eqb_spec (lengthZ es) 0) as [Z|_].
    { destruct es; [congruence|]. unfold lengthZ in Z. cbn in Z. lia. }
    change (Z.of_nat (List.length l1)) with (lengthZ l1). unfold lengthZ at 2. rewrite Nat2Z.id, elements_from_app, draw_fold.
    cbn [app]. now rewrite map_app.
  - rewrite <- map_app. apply Permutation_map, shown_split.
Qed.
Definition demo_els : list element := [mkElement 1 false true; mkElement 2 true false; mkElement 3 false false].
Lemma elements_drawn_once_witness :
  exists drawn, draw (mkDrawn true (None :: List.map Some demo_els) 1 3 true)
    = Some (PaintDataset 1 3 :: List.map PaintElement drawn) /\ Permutation drawn [1; 3]%nat.
Proof.
  destruct (elements_drawn_once (mkDrawn true (None :: List.map Some demo_els) 1 3 true) [None] demo_els [])
    as (drawn & D & P & _); [reflexivity..|discriminate|]. exists drawn. split; [exact D|exact P].
Defined.
(** A line none of whose points are in view asks for no element, which reads as all. *)
Lemma empty_range_draws_all :
  draw (mkDrawn false (List.map Some demo_els) 0 0 false) = Some (List.map PaintElement [1; 3]%nat).
Proof. reflexivity. Qed.

(** *** The order of the layers *)
Definition small_layer (l : layer) : Prop :=
  exists k i, z l = Num.of_Z k /\ _idx l = Num.of_Z i /\ - 2 ^ 30 < k < 2 ^ 30 /\ - 2 ^ 30 < i < 2 ^ 30.
Definition z_le (a b : layer) : Prop := Num.le (z a) (z b) = true.

Lemma before_layers a b : small_layer a -> small_layer b ->
  (before compare_layers a b = true -> z_le a b) /\ (before compare_layers a b = false -> z_le b a).
Proof.
  intros (ka & ia & Za & Ia & Ba & Ca) (kb & ib & Zb & Ib & Bb & Cb). unfold before, compare_layers, z_le.
  rewrite Za, Zb, Ia, Ib. rewrite !NumFacts.of_Z_le, NumFacts.of_Z_eq by (unfold NumFacts.safe; lia).
  change 0%js with (Num.of_Z 0). destruct (Z.eqb_spec ka kb) as [->|N].
  - split; intros _; apply Z.leb_refl.
  - rewrite NumFacts.of_Z_sub by (unfold NumFacts.safe; lia). rewrite NumFacts.of_Z_lt by (unfold NumFacts.safe; lia). lia.
Qed.
Lemma layers_sorted ls : List.Forall small_layer ls -> StronglySorted z_le (sort_layers ls).
Proof.
  intros F. apply (sort_sorted _ _ small_layer).
  - intros x y X Y. now apply before_layers.
  - intros x y X Y. now apply before_layers.
  - intros x y w. unfold z_le. apply NumFacts.le_trans.
  - exact F.
Qed.
Lemma below_sorted ls : StronglySorted z_le ls ->
  below_datasets ls = (List.filter (fun l => Num.le (z l) 0%js) ls, List.filter (fun l => negb (Num.le (z l) 0%js)) ls).
Proof.
  induction 1 as [|l ls S IH F]; [reflexivity|]. cbn [below_datasets List.filter].
  destruct (Num.le (z l) 0%js) eqn:L; cbn [negb].
  - now rewrite IH.
  - assert (N : List.Forall (fun m => Num.le (z m) 0%js = false) ls).
    { apply List.Forall_forall. intros m I. rewrite List.Forall_forall in F. specialize (F m I).
      destruct (Num.le (z m) 0%js) eqn:M; [|reflexivity]. unfold z_le in F. rewrite (NumFacts.le_trans _ _ _ F M) in L. discriminate. }
    clear - N. assert (E : List.filter (fun l => Num.le (z l) 0%js) ls = [] /\ List.filter (fun l => negb (Num.le (z l) 0%js)) ls = ls).
    { induction N as [|m ls M N [I1 I2]]; [auto|]. cbn. rewrite M. cbn. now rewrite I2. }
    destruct E as [-> ->]. reflexivity.
Qed.

(** *** Drawing the chart *)
(** What leaves a mark on the canvas, apart from clearing it. *)
Definition marks (e : event) : bool := match e with DrawLayer _ | Paint _ _ => true | _ => false end.
(** Every clip is undone before the next one, with one painting in it. *)
Fixpoint clips_balanced (inside : bool) (es : list event) : bool :=
  match es with
  | [] => negb inside
  | ClipArea _ _ _ _ :: r => negb inside && clips_balanced true r
  | UnclipArea :: r => inside && clips_balanced false r
  | DrawLayer _ :: r => negb inside && clips_balanced inside r
  | _ :: r => clips_balanced inside r
  end.

Section Draw.
Context (passes : string -> option nat -> bool) (c : chart).
Definition dataset_marks (m : meta) (p : list paint) : list event :=
  if passes "beforeDatasetDraw"%string (Some (index m)) then [Paint (index m) p] else [].

Lemma draw_one m p : draw (elements_of m) = Some p ->
  exists es, _drawDataset passes c m = Some es /\ List.filter marks es = dataset_marks m p /\
    forall r, clips_balanced false (es ++ r) = clips_balanced false r.
Proof.
  intros D. unfold _drawDataset, dataset_marks. rewrite D.
  destruct (passes "beforeDatasetDraw"%string (Some (index m))); cbn [negb]; [|eexists; split; [reflexivity|split; reflexivity]].
  eexists. split; [reflexivity|]. destruct (cdisabled (_clip m)); split; reflexivity.
Qed.
Lemma draw_every ms ps : Forall2 (fun m p => draw (elements_of m) = Some p) ms ps ->
  exists es, draw_all passes c ms = Some es /\
    List.filter marks es = List.concat (List.map (fun mp => dataset_marks (fst mp) (snd mp)) (combine ms ps)) /\
    forall r, clips_balanced false (es ++ r) = clips_balanced false r.
Proof.
  induction 1 as [|m p ms ps D _ (es & E & M & B)]; [exists []; auto|].
  destruct (draw_one m p D) as (e1 & E1 & M1 & B1). exists (e1 ++ es)%list. cbn [draw_all]. rewrite E1, E.
  split; [reflexivity|]. rewrite List.filter_app, M1, M. split; [reflexivity|].
  intros r. now rewrite <- app_assoc, B1, B.
Qed.
Lemma marks_layers ls : List.filter marks (List.map (fun l => DrawLayer (box_id l)) ls) = List.map (fun l => DrawLayer (box_id l)) ls.
Proof. induction ls as [|l ls IH]; [reflexivity|]. cbn. now rewrite IH. Qed.
Lemma clips_layers ls r : clips_balanced false (List.map (fun l => DrawLayer (box_id l)) ls ++ r) = clips_balanced false r.
Proof. induction ls as [|l ls IH]; [reflexivity|exact IH]. Qed.
End Draw.

(** With its layers sorted, a chart that has a size and whose datasets have their
    elements is drawn completely: the canvas is cleared first, the layers at or under 0
    are drawn in the order of [z], then the visible datasets that no plugin holds back
    from the last to the first, then the layers over 0, each once, and every dataset is
    painted inside its own clip. *)
Theorem chart_drawn_in_order passes c after ls ps :
  layers c = sort_layers ls -> List.Forall small_layer ls -> _resizeBeforeDraw c = None ->
  Num.le (width c) 0%js = false -> Num.le (height c) 0%js = false ->
  passes "beforeDraw"%string None = true -> passes "beforeDatasetsDraw"%string None = true ->
  Forall2 (fun m p => draw (elements_of m) = Some p) (List.rev (visible_metas c)) ps ->
  exists es, draw_chart passes c after = Some (Clear :: es) /\
    Permutation (layers c) ls /\ StronglySorted z_le (layers c) /\
    List.filter marks es =
      (List.map (fun l => DrawLayer (box_id l)) (List.filter (fun l => Num.le (z l) 0%js) (layers c)) ++
       List.concat (List.map (fun mp => dataset_marks passes (fst mp) (snd mp)) (combine (List.rev (visible_metas c)) ps)) ++
       List.map (fun l => DrawLayer (box_id l)) (List.filter (fun l => negb (Num.le (z l) 0%js)) (layers c)))%list /\
    clips_balanced false es = true.
Proof.
  intros L F R W H P1 P2 D. pose proof (layers_sorted ls F) as S. rewrite <- L in S.
  destruct (draw_every passes c _ _ D) as (ds & Ed & Md & Bd).
  unfold draw_chart, _drawDatasets. rewrite R. cbv zeta. rewrite W, H, P1, (below_sorted _ S), P2, Ed.
  cbn [orb negb option_map]. eexists. split; [reflexivity|]. split; [rewrite L; apply sort_perm|]. split; [exact S|].
  split.
  - unfold hook. repeat first [rewrite List.filter_app | rewrite marks_layers | rewrite Md | progress cbn [List.filter marks app]].
    rewrite !app_nil_r. reflexivity.
  - unfold hook. cbn [app clips_balanced]. rewrite clips_layers. cbn [app clips_balanced].
    rewrite <- !app_assoc, Bd. cbn [app clips_balanced]. rewrite clips_layers. reflexivity.
Qed.
Definition demo_layers : list layer := index_layers [(1, 10%nat); (0, 11%nat); (-1, 12%nat)]%js.
Definition demo_metas : list meta :=
  [mkMeta 0 (mkClip None None None None false) (mkDrawn false (List.map Some demo_els) 0 3 false);
   mkMeta 1 (mkClip None None None None true) (mkDrawn true [] 0 0 false)].
Definition demo_chart : chart :=
  mkChart 100%js 50%js (mkArea 0 0 100 50 100 50)%js (sort_layers demo_layers) demo_metas None true false false.
Lemma chart_drawn_in_order_witness :
  exists es, draw_chart (fun _ _ => true) demo_chart demo_chart = Some (Clear :: es) /\
    List.filter marks es = [DrawLayer 12; DrawLayer 11; Paint 1 [PaintDataset 0 0];
                            Paint 0 (List.map PaintElement [1; 3]%nat); DrawLayer 10].
Proof.
  destruct (chart_drawn_in_order (fun _ _ => true) demo_chart demo_chart demo_layers
    [[PaintDataset 0 0]; List.map PaintElement [1; 3]%nat]) as (es & E & _ & _ & M & _); try reflexivity.
  - repeat constructor; [exists 1, 0|exists 0, 1|exists (-1), 2]; repeat split; reflexivity.
  - repeat constructor.
  - exists es. split; [exact E|]. rewrite M. vm_compute. reflexivity.
Defined.

(** *** The order of an update *)
Section Update.
Context (c : Metas.chart) (d0 : Metas.dataset).
Hypothesis ids : List.NoDup (List.map Metas.ds_id (Metas.datasets c)).
Hypothesis all_metas : List.length (Metas._metasets c) = List.length (Metas.datasets c).
Hypothesis own_meta : forall i d, nth_error (Metas.datasets c) i = Some d ->
  exists m, Metas.meta_at c i = Some m /\ Metas._dataset m = Some (Metas.ds_id d) /\ Metas.controller m <> None.

Lemma meta_found i d : nth_error (Metas.datasets c) i = Some d -> Metas.getDatasetMeta c i = (c, i).
Proof.
  intros Hi. destruct (own_meta i d Hi) as (m & M & O & _).
  unfold Metas.getDatasetMeta. set (p := fun m => Metas.same_dataset (Metas._dataset m) (Metas.dataset_at c i)).
  assert (Pm : p m = true) by (unfold p, Metas.dataset_at; rewrite Hi, O; apply Nat.eqb_refl).
  destruct (Metas.last_index p (Metas._metasets c) 0) as [k|] eqn:E.
  - destruct (MetasFacts.last_index_Some _ _ _ _ E) as (l1 & m' & l2 & S & Lk & P).
    assert (Lt : (k < List.length (Metas.datasets c))%nat).
    { rewrite <- all_metas, S, length_app. cbn. lia. }
    destruct (nth_error (Metas.datasets c) k) as [d'|] eqn:Hk; [|apply nth_error_None in Hk; lia].
    destruct (own_meta k d' Hk) as (m2 & M2 & O2 & _).
    pose proof (MetasFacts.meta_at_split l1 m' l2 c S) as M'. cbn in Lk. rewrite Lk in M'.
    assert (E2 : m2 = m') by congruence. subst m2. unfold p, Metas.dataset_at in P. rewrite Hi, O2 in P. apply Nat.eqb_eq in P.
    f_equal. apply (proj1 (List.NoDup_nth_error _) ids); [rewrite length_map; exact Lt|].
    rewrite !nth_error_map, Hi, Hk. cbn. now rewrite P.
  - exfalso. assert (I : In m (omap id (Metas._metasets c))).
    { unfold Metas.meta_at in M. destruct (nth_error (Metas._metasets c) i) as [o|] eqn:N; [|discriminate]. subst o.
      apply nth_error_In in N. apply list_elem_of_In, list_elem_of_omap. exists (Some m). split; [now apply list_elem_of_In|reflexivity]. }
    pose proof (MetasFacts.last_index_None _ _ _ m E I). congruence.
Qed.
Lemma controllers_found idx : (forall i, In i idx -> (i < List.length (Metas.datasets c))%nat) ->
  exists cs, controllers_from c idx = Some cs /\
    Forall2 (fun i k => exists m, Metas.meta_at c i = Some m /\ Metas.controller m = Some k) idx cs.
Proof.
  induction idx as [|i idx IH]; intros B; [exists []; split; [reflexivity|constructor]|].
  destruct (nth_error (Metas.datasets c) i) as [d|] eqn:Hi.
  2: { apply nth_error_None in Hi. specialize (B i (or_introl eq_refl)). lia. }
  destruct (own_meta i d Hi) as (m & M & _ & K). destruct IH as (cs & E & F); [intros; apply B; now right|].
  destruct (Metas.controller m) as [k|] eqn:Ek; [|congruence]. exists (k :: cs).
  cbn [controllers_from]. rewrite (meta_found i d Hi), M, Ek, E. split; [reflexivity|]. constructor; eauto.
Qed.
End Update.

(** The steps that concern the datasets, the layout and the drawing. *)
Definition main_step (s : step) : bool :=
  match s with
  | BuildElements _ _ | Layout _ | ResetController _ | ConfigureController _ | UpdateController _ _ | Render => true
  | _ => false
  end.
Lemma main_map {X} (f : X -> step) (l : list X) : (forall x, main_step (f x) = true) -> List.filter main_step (List.map f l) = List.map f l.
Proof. intros H. induction l as [|x l IH]; [reflexivity|]. cbn. now rewrite H, IH. Qed.
Lemma main_updates passes mode cs : (forall i, passes "beforeDatasetUpdate"%string (Some i) = true) -> forall n,
  List.filter main_step (List.flat_map (fun ic => _updateDataset passes (fst ic) (snd ic) (mode (fst ic)))
                      (combine (seq n (List.length cs)) cs))
  = List.map (fun ic => UpdateController (snd ic) (mode (fst ic))) (combine (seq n (List.length cs)) cs).
Proof.
  intros P. induction cs as [|k cs IH]; intros n; [reflexivity|]. cbn. unfold _updateDataset at 1. rewrite P.
  cbn. now rewrite <- IH.
Qed.
Lemma main_boxes a bs : forall n, List.filter main_step (List.flat_map (fun ib : nat * box => let '(i, b) := ib in
   if noArea a && in_chartArea b then [] else if has_configure b then [ConfigureBox i] else [])
   (combine (seq n (List.length bs)) bs)) = [].
Proof.
  induction bs as [|b bs IH]; intros n; [reflexivity|]. cbn. rewrite List.filter_app, IH, app_nil_r.
  destruct (noArea a && in_chartArea b); [reflexivity|]. now destruct (has_configure b).
Qed.

(** When no plugin objects, an update of a chart whose datasets keep their types
    succeeds.  Every dataset has one controller; all build their elements, which animate
    from a reset only in controllers that are not new; then the boxes are laid out once,
    with room for the largest overflow; then the new controllers are reset if there are
    animations; then all controllers are configured before the first one is updated, each
    is updated once, and the chart is rendered last. *)
Theorem update_in_order passes c u mode :
  List.NoDup (List.map Metas.ds_id (Metas.datasets c)) ->
  List.NoDup (List.map Metas._dataset (MetasFacts.present c)) ->
  Z.of_nat (List.length (Metas.datasets c)) < 2 ^ 30 ->
  (forall m d, In m (MetasFacts.present c) -> In d (Metas.datasets c) -> Metas._dataset m = Some (Metas.ds_id d) ->
     MetasFacts.typed c d m) ->
  (forall name dataset, passes name dataset = true) ->
  let '(c', news) := Metas.buildOrUpdateControllers c in
  exists cs ls steps, update passes c u mode = Some (c', ls, steps) /\
    Forall2 (fun i k => exists m, Metas.meta_at c' i = Some m /\ Metas.controller m = Some k)
      (seq 0 (List.length (Metas.datasets c))) cs /\
    List.filter main_step steps =
      (List.map (fun k => BuildElements k (animation u && negb (existsb (Nat.eqb k) news))) cs ++
       [Layout (if autoPadding u then fold_left (fun m k => Num.max (maxOverflow u k) m) cs 0%js else 0%js)] ++
       (if animation u then List.map ResetController news else []) ++
       List.map ConfigureController cs ++
       List.map (fun ic => UpdateController (snd ic) (mode (fst ic))) (combine (seq 0 (List.length cs)) cs) ++ [Render])%list.
Proof.
  intros Nd Nu Ln Ty P. destruct (Metas.buildOrUpdateControllers c) as [c' news] eqn:B.
  pose proof (MetasFacts.updated_metas c Nd Nu Ln Ty) as U. rewrite B in U. cbv zeta in U. cbn [fst] in U.
  destruct U as (Ed & El & Em).
  destruct (controllers_found c') with (idx := seq 0 (List.length (Metas.datasets c))) as (cs & Ec & F).
  - now rewrite Ed.
  - congruence.
  - intros i d H. rewrite Ed in H. destruct (Em i d H) as (m & M & Bm). exists m. split; [exact M|].
    split; [apply Bm|apply Bm].
  - intros i I. apply in_seq in I. rewrite Ed. lia.
  - unfold update. rewrite P, B. cbn [negb]. unfold controllers. rewrite Ed, Ec. unfold _updateLayout. rewrite P. cbn [negb].
    do 3 eexists. split; [reflexivity|]. split; [exact F|].
    unfold _updateDatasets. rewrite P. cbn [negb].
    repeat first [ rewrite List.filter_app | rewrite main_map by reflexivity | rewrite main_boxes
                 | rewrite main_updates by (intros; apply P) | progress cbn [List.filter main_step app] ].
    destruct (animation u), (lastEvent u), (active u); rewrite ?main_map by reflexivity;
      cbn [List.filter main_step app]; rewrite <- ?app_assoc, ?app_nil_r; reflexivity.
Qed.
Definition demo_update : updating :=
  mkUpdating true true (fun k => Num.of_nat k) [mkBox false true [(0%js, 1%nat)]] (mkArea 0 0 1 1 1 1)%js [] false false.
Definition demo_datasets : Metas.chart :=
  Metas.set_datasets MetasFacts.two_charts [Metas.mkDataset 2 (Some "line"%string) 0%js false; Metas.mkDataset 3 None 0%js true].
Lemma update_in_order_witness :
  exists (cs : list nat) ls steps, update (fun _ _ => true) demo_datasets demo_update (fun _ => None)
    = Some (fst (Metas.buildOrUpdateControllers demo_datasets), ls, steps) /\ List.length (cs : list nat) = 2%nat /\
    List.nth_error (List.filter main_step steps) 0 = Some (BuildElements 13 true).
Proof.
  pose proof (update_in_order (fun _ _ => true) demo_datasets demo_update (fun _ => None)) as T.
  destruct (Metas.buildOrUpdateControllers demo_datasets) as [c' news] eqn:B.
  destruct T as (cs & ls & steps & E & F & M).
  - repeat constructor; cbn; intuition discriminate.
  - vm_compute. repeat constructor; cbn; intuition discriminate.
  - reflexivity.
  - intros m d I J. vm_compute in I. destruct I as [<-|[<-|[]]], J as [<-|[<-|[]]]; intros E; try discriminate E.
    right. right. reflexivity.
  - reflexivity.
  - vm_compute in B. injection B as <- <-. exists cs, ls, steps. split; [exact E|].
    rewrite M. inversion F as [|i k js ks (m & Mi & K) F1]; subst. inversion F1 as [|? k1 ? ? _ F2]; subst.
    inversion F2; subst. split; [reflexivity|]. vm_compute in Mi. injection Mi as <-. injection K as <-. reflexivity.
Defined.
End RenderingFacts.
