(* ===== verification/Dom.v ===== *)
(** The DOM side of webui/public/chart.js: the sizes read from styles, the scaling of the
    canvas, the listeners of the platform, and their binding by a chart that is attached to
    the page or detached from it.

    The styles, rectangles and sizes the browser reports are arguments.  A handler is an
    observer or an event listener that the platform installed, known by a number. *)
From Stdlib Require Import ZArith Lia Bool List Ascii String.
From Stdlib Require Import SpecFloat.
From stdpp Require Import base list.
From S2P Require Import Prelude JsNumber JsString JsArray JsValue HelpersCore Resolver Chart.
Import ListNotations.
Open Scope Z_scope.

(** ** Sizes *)
Module DomSize.
Import Js.
Local Open Scope js_scope.

(** A computed style: its properties as the browser gives them. *)
Definition styles := string -> value.
Definition num_or_0 (v : value) : num :=
  let x := parseFloat (to_str v) in if Num.is_nan x || Num.eq x 0 then 0 else x.

Record box := mkBox { top : num; right : num; bottom : num; left : num; bwidth : num; bheight : num }.
Definition getPositionedStyle (s : styles) (style suffix : string) : box :=
  let suffix := if String.eqb suffix EmptyString then suffix else ("-" ++ suffix)%string in
  let at_ pos := num_or_0 (s (style ++ "-" ++ pos ++ suffix)%string) in
  mkBox (at_ "top"%string) (at_ "right"%string) (at_ "bottom"%string) (at_ "left"%string)
    (at_ "left"%string + at_ "right"%string) (at_ "top"%string + at_ "bottom"%string).

(** [parent] is the size of the parent node in the same direction. *)
Definition parseMaxStyle (styleValue : value) (parent : num) : num :=
  match styleValue with
  | VStr s =>
      let px := Num.trunc (parseFloat s) in
      match Str.indexOf s "%" with Some _ => px / 100 * parent | None => px end
  | _ => to_num styleValue
  end.
(** [x || INFINITY]. *)
Definition or_infinity (x : num) : num := if Num.is_nan x || Num.eq x 0 then Num.infinity else x.

(** What is measured of an element. *)
Record element := mkElement {
  el_style : styles; clientWidth : num; clientHeight : num; rect_width : num; rect_height : num;
  parent_width : num; parent_height : num
}.
Record size := mkSize { width : num; height : num; maxWidth : num; maxHeight : num }.
Definition getContainerSize (canvas : element) (container : option element) (given : option (num * num)) : size :=
  match given with
  | Some (w, h) => mkSize w h Num.infinity Num.infinity
  | None =>
      match container with
      | None => mkSize (clientWidth canvas) (clientHeight canvas) Num.infinity Num.infinity
      | Some c =>
          let border := getPositionedStyle (el_style c) "border" "width" in
          let padding := getPositionedStyle (el_style c) "padding" EmptyString in
          mkSize (rect_width c - bwidth padding - bwidth border) (rect_height c - bheight padding - bheight border)
            (or_infinity (parseMaxStyle (el_style c "maxWidth"%string) (parent_width c)))
            (or_infinity (parseMaxStyle (el_style c "maxHeight"%string) (parent_height c)))
      end
  end.
Definition isSome {A} (o : option A) : bool := match o with Some _ => true | None => false end.
Definition round1 (v : num) : num := Num.round (v * 10) / 10.
Definition nonzero (x : num) : bool := negb (Num.is_nan x || Num.eq x 0).
Definition getMaximumSize (canvas : element) (container : option element) (given : option (num * num))
    (aspectRatio : option num) : num * num :=
  let s := el_style canvas in
  let margins := getPositionedStyle s "margin" EmptyString in
  let maxW := or_infinity (parseMaxStyle (s "maxWidth"%string) (parent_width canvas)) in
  let maxH := or_infinity (parseMaxStyle (s "maxHeight"%string) (parent_height canvas)) in
  let c := getContainerSize canvas container given in
  let '(w, h) :=
    match s "boxSizing"%string with
    | VStr "content-box" =>
        let borders := getPositionedStyle s "border" "width" in
        let paddings := getPositionedStyle s "padding" EmptyString in
        (width c - (bwidth paddings + bwidth borders), height c - (bheight paddings + bheight borders))
    | _ => (width c, height c)
    end in
  let w := Num.max 0 (w - bwidth margins) in
  let h := Num.max 0 (match aspectRatio with
                      | Some r => if nonzero r then Num.floor (w / r) else h - bheight margins
                      | None => h - bheight margins end) in
  let w := round1 (Num.min (Num.min w maxW) (maxWidth c)) in
  let h := round1 (Num.min (Num.min h maxH) (maxHeight c)) in
  (w, if nonzero w && negb (nonzero h) then round1 (w / 2) else h).
(** Without a DOM the size is the one of the element. *)
Definition basic_getMaximumSize (el_width el_height : num) (given : option (num * num)) (aspectRatio : option num) : num * num :=
  let '(w0, h0) := match given with
    | Some (w, h) => (if nonzero w then w else el_width, if nonzero h then h else el_height)
    | None => (el_width, el_height) end in
  let w := Num.max 0 w0 in
  (w, Num.max 0 (match aspectRatio with Some r => if nonzero r then Num.floor (w / r) else h0 | None => h0 end)).

(** The scaling of the canvas to the pixels of the device.  [canvas_style] holds the
    height and the width of the style in pixels, None where they are empty; a canvas
    without a DOM has no style. *)
Record canvas := mkCanvas { chart_width : num; chart_height : num; currentRatio : option num;
  canvas_width : num; canvas_height : num; canvas_style : option (option num * option num) }.
(** The new state, and whether the drawing context was scaled anew (which clears it). *)
Definition retinaScale (c : canvas) (forceRatio : num) (forceStyle : bool) : canvas * bool :=
  let pixelRatio := if nonzero forceRatio then forceRatio else 1 in
  let deviceHeight := Num.floor (chart_height c * pixelRatio) in
  let deviceWidth := Num.floor (chart_width c * pixelRatio) in
  let h := deviceHeight / pixelRatio in
  let w := deviceWidth / pixelRatio in
  let style := match canvas_style c with
    | Some (sh, sw) =>
        if forceStyle || (negb (isSome sh) && negb (isSome sw)) then Some (Some h, Some w) else Some (sh, sw)
    | None => None end in
  if negb (match currentRatio c with Some r => Num.eq r pixelRatio | None => false end)
     || negb (Num.eq (canvas_height c) deviceHeight) || negb (Num.eq (canvas_width c) deviceWidth)
  then (mkCanvas w h (Some pixelRatio) deviceWidth deviceHeight style, true)
  else (mkCanvas w h (currentRatio c) (canvas_width c) (canvas_height c) style, false).

(** Scaling the canvas a second time at the same ratio should change nothing, but the
    size that was rounded down is divided by the ratio and multiplied by it again: at the
    ratio 1.75 a canvas of 61 device pixels loses one pixel, and is cleared. *)
Lemma retinaScale_shrinks :
  let c := mkCanvas 35 35 None 0 0 None in
  let '(c1, scaled1) := retinaScale c 1.75 false in
  let '(c2, scaled2) := retinaScale c1 1.75 false in
  canvas_width c1 = 61%js /\ canvas_width c2 = 60%js /\ scaled2 = true.
Proof. vm_compute. repeat split. Qed.

(** *** Event positions *)
Definition EVENT_TYPES : list (string * string) :=
  [("touchstart", "mousedown"); ("touchmove", "mousemove"); ("touchend", "mouseup"); ("pointerenter", "mouseenter");
   ("pointerdown", "mousedown"); ("pointermove", "mousemove"); ("pointerup", "mouseup"); ("pointerleave", "mouseout");
   ("pointerout", "mouseout")]%string.
Definition event_type (t : string) : string :=
  match List.find (fun p => String.eqb t (fst p)) EVENT_TYPES with Some (_, u) => u | None => t end.

Record native := mkNative { offsetX : num; offsetY : num; clientX : num; clientY : num; in_shadow : bool }.
Definition useOffsetPos (e : native) : bool :=
  (Num.lt 0 (offsetX e) || Num.lt 0 (offsetY e)) && negb (in_shadow e).
Definition getCanvasPosition (e : native) (rect_left rect_top : num) : num * num * bool :=
  if useOffsetPos e then (offsetX e, offsetY e, false)
  else (clientX e - rect_left, clientY e - rect_top, true).
Definition getRelativePosition_1 (e : native) (s : styles) (rect_left rect_top : num) (c : canvas) : num * num :=
  let borderBox := match s "boxSizing"%string with VStr "border-box" => true | _ => false end in
  let paddings := getPositionedStyle s "padding" EmptyString in
  let borders := getPositionedStyle s "border" "width" in
  let '(x, y, box) := getCanvasPosition e rect_left rect_top in
  let xOffset := left paddings + (if box then left borders else 0) in
  let yOffset := top paddings + (if box then top borders else 0) in
  let w := if borderBox then chart_width c - (bwidth paddings + bwidth borders) else chart_width c in
  let h := if borderBox then chart_height c - (bheight paddings + bheight borders) else chart_height c in
  let dpr := match currentRatio c with Some r => r | None => Num.nan end in
  (Num.round ((x - xOffset) / w * canvas_width c / dpr), Num.round ((y - yOffset) / h * canvas_height c / dpr)).
End DomSize.

(** ** Listeners *)
Module Platform.
Import Heap.
Local Open Scope string_scope.

(** The handlers of a chart by type ([$proxies]), those installed in the browser, and
    whether the chart listens to changes of the pixel ratio. *)
Record handlers := mkHandlers { proxies : props (option nat); installed : list nat; next_handler : nat; listens_dpr : bool }.
Definition proxy (h : handlers) (type : string) : option nat :=
  match pget type (proxies h) with Some p => p | None => None end.
Definition removeEventListener (h : handlers) (type : string) : handlers :=
  match proxy h type with
  | None => h
  | Some p => mkHandlers (pput type None (proxies h)) (List.filter (fun q => negb (Nat.eqb p q)) (installed h)) (next_handler h)
                (if String.eqb type "resize" then false else listens_dpr h)
  end.
(** The size of a canvas outside of any container cannot be observed. *)
Definition addEventListener (in_container : bool) (h : handlers) (type : string) : handlers :=
  let h := removeEventListener h type in
  if String.eqb type "resize" && negb in_container
  then mkHandlers (pput type None (proxies h)) (installed h) (next_handler h) (listens_dpr h)
  else mkHandlers (pput type (Some (next_handler h)) (proxies h)) (installed h ++ [next_handler h])%list
         (S (next_handler h)) (if String.eqb type "resize" then true else listens_dpr h).

(** The charts that listen to the pixel ratio share one listener of the window. *)
Record window := mkWindow { drpListeningCharts : list nat; window_listens : bool }.
Definition listenDevicePixelRatioChanges (w : window) (chart : nat) : window :=
  mkWindow (if existsb (Nat.eqb chart) (drpListeningCharts w) then drpListeningCharts w else drpListeningCharts w ++ [chart])%list
    (match drpListeningCharts w with [] => true | _ => window_listens w end).
Definition unlistenDevicePixelRatioChanges (w : window) (chart : nat) : window :=
  let cs := List.filter (fun c => negb (Nat.eqb chart c)) (drpListeningCharts w) in
  mkWindow cs (match cs with [] => false | _ => window_listens w end).

(** *** A chart's bindings *)
Record binding := mkBinding {
  handlers_of : handlers;
  _listeners : list string;
  _responsiveListeners : option (list string);
  attached : bool;
  (** [_resize], [_stop] and [resize] called on the chart. *)
  calls : list string
}.
Definition add_name (t : string) (l : list string) : list string := if existsb (String.eqb t) l then l else (l ++ [t])%list.
Definition without (t : string) (l : list string) : list string := List.filter (fun u => negb (String.eqb t u)) l.

Section Container.
Context (in_container : bool).

Definition bindUserEvents (b : binding) (events : list string) : binding :=
  fold_left (fun b t => mkBinding (addEventListener in_container (handlers_of b) t) (add_name t (_listeners b))
                          (_responsiveListeners b) (attached b) (calls b)) events b.
(** [_add] and [_remove] of [bindResponsiveEvents]. *)
Definition responsive_names (b : binding) : list string :=
  match _responsiveListeners b with Some l => l | None => [] end.
Definition r_add (t : string) (b : binding) : binding :=
  mkBinding (addEventListener in_container (handlers_of b) t) (_listeners b) (Some (add_name t (responsive_names b)))
    (attached b) (calls b).
Definition r_remove (t : string) (b : binding) : binding :=
  if existsb (String.eqb t) (responsive_names b)
  then mkBinding (removeEventListener (handlers_of b) t) (_listeners b) (Some (without t (responsive_names b)))
         (attached b) (calls b)
  else b.
Definition set_attached (v : bool) (b : binding) : binding :=
  mkBinding (handlers_of b) (_listeners b) (_responsiveListeners b) v (calls b).
Definition call (c : string) (b : binding) : binding :=
  mkBinding (handlers_of b) (_listeners b) (_responsiveListeners b) (attached b) (calls b ++ [c])%list.
Definition on_attached (b : binding) : binding :=
  r_add "detach" (r_add "resize" (call "resize" (set_attached true (r_remove "attach" b)))).
Definition on_detached (b : binding) : binding :=
  r_add "attach" (call "_resize" (call "_stop" (r_remove "resize" (set_attached false b)))).
Definition bindResponsiveEvents (b : binding) (isAttached : bool) : binding :=
  let b := mkBinding (handlers_of b) (_listeners b) (Some (responsive_names b)) (attached b) (calls b) in
  if isAttached then on_attached b else on_detached b.
Definition bindEvents (b : binding) (events : list string) (responsive isAttached : bool) : binding :=
  let b := bindUserEvents b events in
  if responsive then bindResponsiveEvents b isAttached else set_attached true b.
Definition unbindEvents (b : binding) : binding :=
  let h := fold_left removeEventListener (_listeners b) (handlers_of b) in
  let h := fold_left removeEventListener (responsive_names b) h in
  mkBinding h [] None (attached b) (calls b).
Definition _checkEventBindings (b : binding) (events : list string) (responsive isAttached : bool) : binding :=
  let newEvents := fold_left (fun l t => add_name t l) events [] in
  if negb (Core.setsEqual (_listeners b) newEvents)
     || negb (Bool.eqb (match _responsiveListeners b with Some _ => true | None => false end) responsive)
  then bindEvents (unbindEvents b) events responsive isAttached else b.
End Container.

(** What happens to a bound chart: its options change, it is put into the page or taken
    out of it (which only its observers report), or its events are unbound. *)
Inductive step :=
| Check (events : list string) (responsive isAttached in_container : bool)
| DomAttach (in_container : bool)
| DomDetach (in_container : bool)
| Unbind.
Definition run_step (b : binding) (s : step) : binding :=
  match s with
  | Check events responsive isAttached c => _checkEventBindings c b events responsive isAttached
  | DomAttach c => match proxy (handlers_of b) "attach" with Some _ => on_attached c b | None => b end
  | DomDetach c => match proxy (handlers_of b) "detach" with Some _ => on_detached c b | None => b end
  | Unbind => unbindEvents b
  end.
Definition initial : binding := mkBinding (mkHandlers [] [] 0 false) [] None false [].
End Platform.

(** ** Facts *)
Module PlatformFacts.
Import Heap Platform.
Local Open Scope string_scope.

Lemma pget_put {V} t u (v : V) ps : pget u (pput t v ps) = if String.eqb t u then Some v else pget u ps.
Proof.
  induction ps as [|[k w] ps IH]; simpl.
  - rewrite String.eqb_sym. reflexivity.
  - destruct (String.eqb_spec t k) as [->|T]; simpl.
    + rewrite (String.eqb_sym u k). destruct (String.eqb_spec k u); reflexivity.
    + destruct (String.eqb_spec u k) as [->|U]; [|exact IH]. destruct (String.eqb_spec t k); congruence.
Qed.
Lemma add_name_In t u l : In u (add_name t l) <-> u = t \/ In u l.
Proof.
  unfold add_name. destruct (existsb _ l) eqn:E.
  - apply existsb_exists in E as (x & I & X). apply String.eqb_eq in X. subst x. split; [auto|intros [->|H]; auto].
  - rewrite in_app_iff. simpl. split; [intros [?|[?|[]]]; auto|intros [?|?]; auto].
Qed.
Lemma without_In t u l : In u (without t l) <-> u <> t /\ In u l.
Proof.
  unfold without. rewrite List.filter_In, negb_true_iff, String.eqb_neq. intuition congruence.
Qed.
Lemma existsb_name t l : existsb (String.eqb t) l = true <-> In t l.
Proof.
  rewrite existsb_exists. split.
  - intros (x & I & X). apply String.eqb_eq in X. now subst.
  - intros I. exists t. now rewrite String.eqb_refl.
Qed.

(** *** What is installed is what [$proxies] holds *)
Record heard (h : handlers) : Prop := {
  heard_all : forall p, In p (installed h) <-> exists t, proxy h t = Some p;
  heard_once : forall t u p, proxy h t = Some p -> proxy h u = Some p -> t = u;
  heard_new : forall t p, proxy h t = Some p -> (p < next_handler h)%nat;
  heard_dpr : listens_dpr h = match proxy h "resize" with Some _ => true | None => false end
}.

Lemma proxy_remove h t u : proxy (removeEventListener h t) u = if String.eqb t u then None else proxy h u.
Proof.
  unfold removeEventListener. destruct (proxy h t) eqn:P.
  - unfold proxy. simpl. rewrite pget_put. destruct (String.eqb t u); reflexivity.
  - destruct (String.eqb_spec t u); congruence.
Qed.
Lemma next_remove h t : next_handler (removeEventListener h t) = next_handler h.
Proof. unfold removeEventListener. destruct (proxy h t); reflexivity. Qed.

Lemma heard_remove h t : heard h -> heard (removeEventListener h t).
Proof.
  intros [A O N D]. constructor.
  - intros p. setoid_rewrite proxy_remove. unfold removeEventListener. destruct (proxy h t) as [q|] eqn:P; simpl.
    + rewrite List.filter_In, A, negb_true_iff, Nat.eqb_neq. split.
      * intros [[u U] Q]. exists u. destruct (String.eqb_spec t u); [congruence|exact U].
      * intros [u U]. destruct (String.eqb_spec t u) as [->|T]; [discriminate|]. split; [eauto|].
        intros ->. now apply T, (O _ _ p).
    + rewrite A. split; intros [u U]; exists u; destruct (String.eqb_spec t u); congruence.
  - intros u v p. rewrite !proxy_remove. destruct (String.eqb t u), (String.eqb t v); try discriminate. apply O.
  - intros u p. rewrite proxy_remove, next_remove. destruct (String.eqb t u); [discriminate|]. apply N.
  - rewrite proxy_remove. unfold removeEventListener. destruct (proxy h t) as [q|] eqn:P; simpl.
    + destruct (String.eqb t "resize"); [reflexivity|exact D].
    + rewrite D. destruct (String.eqb_spec t "resize") as [->|T]; [now rewrite P|reflexivity].
Qed.

Lemma proxy_add c h t u : proxy (addEventListener c h t) u =
  if String.eqb t u then (if String.eqb t "resize" && negb c then None else Some (next_handler h)) else proxy h u.
Proof.
  pose proof (proxy_remove h t u) as R. revert R. unfold addEventListener.
  destruct (String.eqb t "resize" && negb c); unfold proxy; simpl; rewrite pget_put, ?next_remove;
    destruct (String.eqb t u); auto.
Qed.
Lemma heard_add c h t : heard h -> heard (addEventListener c h t).
Proof.
  intros H. apply (heard_remove h t) in H as [A O N D]. constructor.
  - intros p. setoid_rewrite proxy_add. unfold addEventListener.
    destruct (String.eqb t "resize" && negb c); simpl; [|rewrite in_app_iff]; rewrite A; setoid_rewrite proxy_remove.
    + split; intros [u U]; exists u; destruct (String.eqb t u); auto.
    + rewrite next_remove. simpl. split.
      * intros [[u U]|[<-|[]]]; [|exists t; now rewrite String.eqb_refl].
        exists u. destruct (String.eqb t u); [discriminate|exact U].
      * intros [u U]. destruct (String.eqb_spec t u); [right; left; congruence|left]. exists u.
        destruct (String.eqb_spec t u); congruence.
  - intros u v p. rewrite !proxy_add. specialize (O u v p). specialize (N u p) as Nu. specialize (N v p) as Nv.
    rewrite !proxy_remove, ?next_remove in *. revert O Nu Nv.
    destruct (String.eqb_spec t u) as [<-|], (String.eqb_spec t v) as [<-|]; auto;
      destruct (String.eqb t "resize" && negb c); intros; simplify_eq; auto;
      exfalso; eapply Nat.lt_irrefl; eauto.
  - intros u p. rewrite proxy_add. specialize (N u p). rewrite proxy_remove, next_remove in N. revert N.
    unfold addEventListener.
    destruct (String.eqb_spec t u), (String.eqb t "resize" && negb c); simpl; rewrite ?next_remove; intros; simplify_eq; auto; try lia.
    specialize (N H). lia.
  - rewrite proxy_add. rewrite proxy_remove in D. unfold addEventListener.
    destruct (String.eqb_spec t "resize") as [->|T]; simpl; [|exact D]. destruct c; [reflexivity|exact D].
Qed.

(** *** The bindings of a chart *)
Definition reserved (t : string) : bool := existsb (String.eqb t) ["attach"; "detach"; "resize"].
Definition user_events (s : step) : bool :=
  match s with Check events _ _ _ => forallb (fun t => negb (reserved t)) events | _ => true end.

Record bound (b : binding) : Prop := {
  bound_heard : heard (handlers_of b);
  bound_names : forall t, proxy (handlers_of b) t <> None -> In t (_listeners b) \/ In t (responsive_names b);
  bound_user : forall t, In t (_listeners b) -> reserved t = false /\ proxy (handlers_of b) t <> None;
  bound_resp : forall t, In t (responsive_names b) -> reserved t = true /\ (t <> "resize" -> proxy (handlers_of b) t <> None);
  bound_attach : match _responsiveListeners b with
    | None => True
    | Some l => if attached b then In "resize" l /\ In "detach" l /\ ~ In "attach" l else In "attach" l /\ ~ In "resize" l
    end
}.

(** The bindings as far as [attached] and its responsive listeners do not matter. *)
Record bound_ (b : binding) : Prop := {
  bnd_heard : heard (handlers_of b);
  bnd_names : forall t, proxy (handlers_of b) t <> None -> In t (_listeners b) \/ In t (responsive_names b);
  bnd_user : forall t, In t (_listeners b) -> reserved t = false /\ proxy (handlers_of b) t <> None;
  bnd_resp : forall t, In t (responsive_names b) -> reserved t = true /\ (t <> "resize" -> proxy (handlers_of b) t <> None)
}.
Lemma bound_weaken b : bound b -> bound_ b.
Proof. intros [? ? ? ? ?]. now constructor. Qed.

Lemma r_add_names c t b : responsive_names (r_add c t b) = add_name t (responsive_names b).
Proof. reflexivity. Qed.
Lemma r_remove_names t b : responsive_names (r_remove t b) = without t (responsive_names b).
Proof.
  unfold r_remove. destruct (existsb _ _) eqn:E; [reflexivity|].
  unfold without. induction (responsive_names b) as [|u l IH]; [reflexivity|]. simpl in *.
  apply orb_false_iff in E as [E1 E2]. rewrite E1. simpl. now rewrite <- IH.
Qed.
Lemma bnd_r_add c t b : reserved t = true -> bound_ b -> bound_ (r_add c t b).
Proof.
  intros T [H N U R]. constructor; rewrite ?r_add_names; simpl.
  - now apply heard_add.
  - intros u. rewrite proxy_add, add_name_In. destruct (String.eqb_spec t u); auto. intros P. destruct (N u P); auto.
  - intros u I. destruct (U u I) as [X P]. split; [auto|]. rewrite proxy_add. destruct (String.eqb_spec t u); congruence.
  - intros u I. rewrite proxy_add. apply add_name_In in I as [->|I].
    + split; [exact T|]. rewrite String.eqb_refl. intros X. apply String.eqb_neq in X. rewrite X. discriminate.
    + destruct (R u I) as [X P]. split; [exact X|]. intros Y. specialize (P Y).
      destruct (String.eqb_spec t u) as [->|]; [|auto]. apply String.eqb_neq in Y. rewrite Y. discriminate.
Qed.
Lemma bnd_r_remove t b : reserved t = true -> bound_ b -> bound_ (r_remove t b).
Proof.
  intros T [H N U R]. unfold r_remove. destruct (existsb (String.eqb t) (responsive_names b)) eqn:E; [|now constructor].
  pose proof (r_remove_names t b) as Rn. unfold r_remove in Rn. rewrite E in Rn. constructor; rewrite ?Rn; simpl.
  - now apply heard_remove.
  - intros u. rewrite proxy_remove, without_In. destruct (String.eqb_spec t u); [congruence|]. intros P. destruct (N u P); auto.
  - intros u I. destruct (U u I) as [X P]. split; [auto|]. rewrite proxy_remove. destruct (String.eqb_spec t u); congruence.
  - intros u I. apply without_In in I as [X I]. rewrite proxy_remove. destruct (R u I) as [Y P]. split; [auto|].
    destruct (String.eqb_spec t u); [congruence|exact P].
Qed.
Lemma bnd_same b b' : handlers_of b = handlers_of b' -> _listeners b = _listeners b' ->
  responsive_names b = responsive_names b' -> bound_ b -> bound_ b'.
Proof. intros E L R [? ? ? ?]. constructor; rewrite <- ?E, <- ?L, <- ?R; auto. Qed.

Lemma bound_on_attached c b : bound_ b -> bound (on_attached c b).
Proof.
  intros B. assert (B' : bound_ (on_attached c b)).
  { unfold on_attached. apply bnd_r_add; [reflexivity|]. apply bnd_r_add; [reflexivity|].
    apply (bnd_same (r_remove "attach" b)); try reflexivity. now apply bnd_r_remove. }
  destruct B' as [H N U R]. constructor; auto. unfold on_attached. cbn [_responsiveListeners r_add attached set_attached call].
  assert (A : attached (r_add c "detach" (r_add c "resize" (call "resize" (set_attached true (r_remove "attach" b))))) = true) by reflexivity.
  cbn [attached r_add call set_attached responsive_names _responsiveListeners].
  rewrite !add_name_In. split_and!; auto. intros [X|[X|X]]; try discriminate.
  change (In "attach" (responsive_names (r_remove "attach" b))) in X.
  rewrite r_remove_names, without_In in X. now destruct X.
Qed.
Lemma bound_on_detached c b : bound_ b -> bound (on_detached c b).
Proof.
  intros B. assert (B' : bound_ (on_detached c b)).
  { unfold on_detached. apply bnd_r_add; [reflexivity|].
    apply (bnd_same (r_remove "resize" (set_attached false b))); try reflexivity. apply bnd_r_remove; [reflexivity|].
    now apply (bnd_same b). }
  destruct B' as [H N U R]. constructor; auto. unfold on_detached.
  cbn [_responsiveListeners r_add attached set_attached call].
  assert (A : attached (r_remove "resize" (set_attached false b)) = false).
  { unfold r_remove. destruct (existsb _ _); reflexivity. }
  rewrite A. rewrite !add_name_In. split; [auto|]. intros [X|X]; [discriminate|].
  change (In "resize" (responsive_names (r_remove "resize" (set_attached false b)))) in X.
  rewrite r_remove_names, without_In in X. now destruct X.
Qed.

Lemma proxy_remove_all l h u : proxy (fold_left removeEventListener l h) u = if existsb (String.eqb u) l then None else proxy h u.
Proof.
  revert h. induction l as [|t l IH]; intros h; simpl; [reflexivity|]. rewrite IH, proxy_remove, (String.eqb_sym u t).
  destruct (String.eqb t u), (existsb _ l); reflexivity.
Qed.
Lemma heard_remove_all l h : heard h -> heard (fold_left removeEventListener l h).
Proof. revert h. induction l as [|t l IH]; intros h H; simpl; [exact H|]. apply IH. now apply heard_remove. Qed.

(** Unbinding releases everything that is installed. *)
Lemma unbind_all b : bound_ b -> forall t, proxy (handlers_of (unbindEvents b)) t = None.
Proof.
  intros [H N U R] t. cbn [handlers_of unbindEvents]. rewrite !proxy_remove_all.
  destruct (existsb (String.eqb t) (responsive_names b)) eqn:E1; [reflexivity|].
  destruct (existsb (String.eqb t) (_listeners b)) eqn:E2; [reflexivity|].
  destruct (proxy (handlers_of b) t) eqn:P; [|reflexivity]. destruct (N t); [congruence| |];
    apply existsb_name in H0; congruence.
Qed.
Lemma bound_unbind b : bound_ b -> bound (unbindEvents b).
Proof.
  intros B. pose proof (unbind_all b B) as X. constructor; [| | | |exact I].
  - cbn [handlers_of unbindEvents]. apply heard_remove_all, heard_remove_all, B.
  - intros t T. now rewrite X in T.
  - intros t [].
  - intros t [].
Qed.
Lemma installed_none h : heard h -> (forall t, proxy h t = None) -> installed h = [] /\ listens_dpr h = false.
Proof.
  intros [A O N D] X. split; [|now rewrite D, X]. destruct (installed h) as [|p l] eqn:E; [reflexivity|].
  destruct (proj1 (A p) (or_introl eq_refl)) as [t T]. now rewrite X in T.
Qed.

Lemma bnd_bindUser c events b : forallb (fun t => negb (reserved t)) events = true -> bound_ b -> bound_ (bindUserEvents c b events).
Proof.
  unfold bindUserEvents. revert b. induction events as [|t events IH]; intros b E B; [exact B|].
  simpl in E |- *. apply andb_true_iff in E as [T E]. apply negb_true_iff in T. apply IH; [exact E|]. clear IH.
  destruct B as [H N U R]. constructor; simpl.
  - now apply heard_add.
  - intros u. rewrite proxy_add, add_name_In. destruct (String.eqb_spec t u); auto. intros P. destruct (N u P); auto.
  - intros u I. rewrite proxy_add. apply add_name_In in I as [->|I].
    + rewrite String.eqb_refl. split; [exact T|]. destruct (String.eqb_spec t "resize") as [->|]; [discriminate T|discriminate].
    + destruct (U u I) as [X P]. split; [exact X|]. destruct (String.eqb_spec t u) as [->|]; [|exact P].
      destruct (String.eqb_spec u "resize") as [->|]; [discriminate X|discriminate].
  - intros u I. change (In u (responsive_names b)) in I. destruct (R u I) as [X P]. split; [exact X|].
    rewrite proxy_add. destruct (String.eqb_spec t u); [congruence|exact P].
Qed.
Lemma bound_step s b : user_events s = true -> bound b -> bound (run_step b s).
Proof.
  intros E B. pose proof (bound_weaken b B) as W. destruct s as [events responsive isAttached c|c|c|]; simpl.
  - unfold _checkEventBindings. destruct (_ || _); [|exact B]. unfold bindEvents.
    pose proof (bnd_bindUser c events _ E (bound_weaken _ (bound_unbind b W))) as V.
    assert (Z : forall evs b0, _responsiveListeners (bindUserEvents c b0 evs) = _responsiveListeners b0).
    { unfold bindUserEvents. induction evs as [|t evs IH]; intros b0; simpl; [reflexivity|]. now rewrite IH. }
    specialize (Z events (unbindEvents b)). set (b' := bindUserEvents c (unbindEvents b) events) in *.
    assert (V' : bound_ (mkBinding (handlers_of b') (_listeners b') (Some (responsive_names b')) (attached b') (calls b'))).
    { now apply (bnd_same b'). }
    destruct responsive.
    + unfold bindResponsiveEvents. destruct isAttached; [now apply bound_on_attached|now apply bound_on_detached].
    + destruct V as [H N U R]. constructor; auto. cbn. now rewrite Z.
  - destruct (proxy _ "attach"); [now apply bound_on_attached|exact B].
  - destruct (proxy _ "detach"); [now apply bound_on_detached|exact B].
  - now apply bound_unbind.
Qed.
Lemma bound_run ss : forallb user_events ss = true -> forall b, bound b -> bound (fold_left run_step ss b).
Proof.
  induction ss as [|s ss IH]; intros E b B; simpl in *; [exact B|]. apply andb_true_iff in E as [E1 E2].
  apply IH; [exact E2|]. now apply bound_step.
Qed.
Lemma bound_initial : bound initial.
Proof.
  constructor; [| | | |exact I].
  - constructor; try discriminate; try reflexivity. intros p. split; [intros []|intros [t T]; discriminate T].
  - intros t T. now contradiction T.
  - intros t [].
  - intros t [].
Qed.

(** C16: whatever happens to a bound chart (new options, the canvas put into the page or
    taken out of it, unbinding), the observers and listeners installed in the browser are
    exactly those recorded for the chart's own event types, each of these types is heard, a
    responsive chart waits for its attachment exactly while it is detached and observes its
    size and its detachment exactly while it is attached, and unbinding its events releases
    everything, the listener to changes of the pixel ratio included. *)
Theorem listeners_accounted ss :
  forallb user_events ss = true ->
  let b := fold_left run_step ss initial in
  (forall p, In p (installed (handlers_of b)) <->
     exists t, (In t (_listeners b) \/ In t (responsive_names b)) /\ proxy (handlers_of b) t = Some p) /\
  (forall t, In t (_listeners b) -> proxy (handlers_of b) t <> None) /\
  (_responsiveListeners b <> None ->
     (In "attach" (responsive_names b) <-> attached b = false) /\ (In "resize" (responsive_names b) <-> attached b = true)) /\
  installed (handlers_of (unbindEvents b)) = [] /\ listens_dpr (handlers_of (unbindEvents b)) = false.
Proof.
  intros E b. pose proof (bound_run ss E _ bound_initial) as B. fold b in B.
  destruct (installed_none _ (bound_heard _ (bound_unbind b (bound_weaken b B))) (unbind_all b (bound_weaken b B))) as [X Y].
  destruct B as [H N U R A]. split_and!; auto.
  - intros p. rewrite (heard_all _ H). split; [|intros (t & _ & T); eauto].
    intros [t T]. exists t. split; [|exact T]. apply N. congruence.
  - intros t I. apply U, I.
  - unfold responsive_names. destruct (_responsiveListeners b); [intros _|congruence].
    destruct (attached b); [destruct A as (A1 & A2 & A3)|destruct A as [A1 A2]]; split; split; auto; congruence.
Qed.
Definition demo_steps : list step :=
  [Check ["click"; "mousemove"] true true true; DomDetach true; Check ["click"] true false true; DomAttach true].
Lemma listeners_accounted_witness :
  forallb user_events demo_steps = true /\
  installed (handlers_of (unbindEvents (fold_left run_step demo_steps initial))) = [].
Proof. split; [vm_compute; reflexivity|]. apply (listeners_accounted demo_steps). vm_compute. reflexivity. Defined.

(** The window is listened to exactly while some chart listens to the pixel ratio. *)
Lemma window_listener w chart :
  (window_listens w = true <-> drpListeningCharts w <> []) ->
  let w1 := listenDevicePixelRatioChanges w chart in
  let w2 := unlistenDevicePixelRatioChanges w chart in
  (window_listens w1 = true <-> drpListeningCharts w1 <> []) /\ In chart (drpListeningCharts w1) /\
  (window_listens w2 = true <-> drpListeningCharts w2 <> []) /\ ~ In chart (drpListeningCharts w2).
Proof.
  intros W. simpl. split_and!.
  - destruct (existsb _ _) eqn:E, (drpListeningCharts w) as [|c cs]; try discriminate; try tauto; simpl.
    + split; [discriminate|auto].
    + rewrite W. split; discriminate.
  - destruct (existsb _ _) eqn:E; [|apply in_app_iff; right; now left].
    apply existsb_exists in E as (x & I & X). apply Nat.eqb_eq in X. now subst.
  - destruct (List.filter _ _) as [|c cs] eqn:E; [split; congruence|]. split; [discriminate|]. intros _.
    apply W. destruct (drpListeningCharts w); discriminate.
  - intros I. apply List.filter_In in I as [_ X]. now rewrite Nat.eqb_refl in X.
Qed.
End PlatformFacts.
