(* ===== verification/DomPlatform.v ===== *)
(** The rest of the DOM platform of webui/public/chart.js: what is kept of a canvas when a
    chart takes it and given back when it lets go, the observers of the page, and the
    changes of the window's pixel ratio.

    The canvas of the browser is an element whose [width] and [height] properties reflect
    its attributes: reading parses the attribute and has a default, writing stores the
    number's text; the texts are arguments.

    Proved: a canvas that is released has the size and the style it had before; the
    observers notice exactly that the canvas came to the page or left it. *)
From Stdlib Require Import ZArith Lia Bool List Ascii String.
From Stdlib Require Import SpecFloat.
From stdpp Require Import base list.
From S2P Require Import Prelude JsNumber JsString JsValue HelpersCore Dom.
Import ListNotations.
Open Scope Z_scope.

(** ** The canvas *)
Module CanvasDom.
Local Open Scope js_scope.

Record style := mkStyle { display : string; s_height : string; s_width : string; boxSizing : string }.
(** [initial], of the canvas' own [$chartjs]; attributes that are absent are null (None). *)
Record initial := mkInitial { i_height : option string; i_width : option string; i_style : string * string * string }.
Record canvas := mkCanvas { height_attr : option string; width_attr : option string; c_style : style; expando : option initial }.

Section Browser.
(** The number of an attribute's text, the text of a number, and the size in pixels that the
    computed style has for a property. *)
Context (parse : string -> num) (show : num -> string) (readUsedSize : canvas -> string -> option num).
Definition width (c : canvas) : num := match width_attr c with Some s => parse s | None => 300 end.
Definition set_width (c : canvas) (w : num) : canvas := mkCanvas (height_attr c) (Some (show w)) (c_style c) (expando c).
Definition set_height (c : canvas) (h : num) : canvas := mkCanvas (Some (show h)) (width_attr c) (c_style c) (expando c).

Definition isNullOrEmpty (v : option string) : bool := match v with None => true | Some s => String.eqb s "" end.
Definition or_text (s d : string) : string := if String.eqb s "" then d else s.
Definition initCanvas (c : canvas) (aspectRatio : option num) : canvas :=
  let st := c_style c in
  let renderHeight := height_attr c in
  let renderWidth := width_attr c in
  let c := mkCanvas (height_attr c) (width_attr c)
             (mkStyle (or_text (display st) "block") (s_height st) (s_width st) (or_text (boxSizing st) "border-box"))
             (Some (mkInitial renderHeight renderWidth (display st, s_height st, s_width st))) in
  let c := if isNullOrEmpty renderWidth
           then match readUsedSize c "width" with Some w => set_width c w | None => c end else c in
  if isNullOrEmpty renderHeight then
    if String.eqb (s_height (c_style c)) "" then
      set_height c (width c / match aspectRatio with Some r => if DomSize.nonzero r then r else 2 | None => 2 end)
    else match readUsedSize c "height" with Some h => set_height c h | None => c end
  else c.
(** [context] is the canvas' own drawing context, or another's or none. *)
Definition acquireContext (c : canvas) (has_context : bool) (aspectRatio : option num) : option canvas :=
  if has_context then Some (initCanvas c aspectRatio) else None.
Definition releaseContext (c : canvas) : canvas * bool :=
  match expando c with
  | None => (c, false)
  | Some i =>
      let '(d, h, w) := i_style i in
      let c := mkCanvas (i_height i) (i_width i) (mkStyle d h w (boxSizing (c_style c))) (expando c) in
      let c := set_width c (width c) in
      (mkCanvas (height_attr c) (width_attr c) (c_style c) None, true)
  end.
End Browser.
End CanvasDom.

(** ** Observers *)
Module Observers.
Local Open Scope js_scope.

(** A record of a mutation: whether its added and its removed nodes have the canvas. *)
Record entry := mkEntry { added : bool; removed : bool }.
Definition attach_trigger (entries : list entry) : bool :=
  fold_left (fun trigger e => (trigger || added e) && negb (removed e)) entries false.
Definition detach_trigger (entries : list entry) : bool :=
  fold_left (fun trigger e => (trigger || removed e) && negb (added e)) entries false.

(** [nodeListContains]: a node is the canvas or contains it. *)
Definition nodeListContains {N} (same contains : N -> bool) (nodes : list N) : bool := existsb (fun n => same n || contains n) nodes.

(** The window: the last pixel ratio, and the charts that listen with their own ratio. *)
Record window := mkWindow { oldDevicePixelRatio : num; charts : list (nat * num) }.
Definition onWindowResize (w : window) (dpr : num) : window * list nat :=
  if dpr =? oldDevicePixelRatio w then (w, [])
  else (mkWindow dpr (charts w), List.map fst (List.filter (fun c => negb (snd c =? dpr)) (charts w))).

(** A call of the listener of a size, with the size or without. *)
Inductive resized := To (w h : num) | Again.
(** The throttled function; [before] and [after] are the container's [clientWidth] around
    the first call. *)
Definition resize (width height before after : num) : list resized := To width height :: if before <? after then [Again] else [].
(** What the resize observer asks the throttled function for. *)
Definition observed (width height : num) : option (num * num) := if (width =? 0) && (height =? 0) then None else Some (width, height).
(** A proxy passes an event on while its chart has a context; the event is typed for the
    chart, and a position that is undefined is null. *)
Record event := mkEvent { type : string; x : option num; y : option num }.
Definition fromNativeEvent (native : string) (at_ : option num * option num) : event :=
  mkEvent (DomSize.event_type native) (fst at_) (snd at_).
Definition createProxyAndListen (has_ctx : bool) (native : string) (at_ : option num * option num) : option event :=
  if has_ctx then Some (fromNativeEvent native at_) else None.
(** [acquireContext] of the basic platform needs no DOM; its charts do not animate. *)
Inductive platform := BasicPlatform | DomPlatform.
Definition _detectPlatform (domSupported offscreen : bool) : platform := if negb domSupported || offscreen then BasicPlatform else DomPlatform.
Definition isAttached (p : platform) (connected : option bool) : bool :=
  match p with BasicPlatform => true | DomPlatform => match connected with Some b => b | None => false end end.
Definition getDevicePixelRatio (p : platform) (window_ratio : num) : num := match p with BasicPlatform => 1 | DomPlatform => window_ratio end.
Definition animation_after_updateConfig {A} (p : platform) (animation : option A) : option A :=
  match p with BasicPlatform => None | DomPlatform => animation end.
End Observers.

(** ** Facts *)
Module DomPlatformFacts.
Import Num NumFacts CanvasDom Observers.
Local Open Scope js_scope.

Section Released.
Context (parse : string -> num) (show : num -> string) (readUsedSize : canvas -> string -> option num).
Lemma init_expando c r : expando (initCanvas parse show readUsedSize c r)
  = Some (mkInitial (height_attr c) (width_attr c) (display (c_style c), s_height (c_style c), s_width (c_style c))).
Proof.
  unfold initCanvas. destruct (isNullOrEmpty (width_attr c)), (isNullOrEmpty (height_attr c));
    repeat (match goal with |- context [match ?x with _ => _ end] => destruct x end); reflexivity.
Qed.
(** Taking a canvas and letting it go is a round trip: whatever a chart does to the
    size and the style of the canvas in between, releasing it gives back the height
    attribute and the display, height and width of the style as they were, and a width
    attribute that is the text of its number; taken again it starts as at first. *)
Theorem released_canvas_restored c r c' w : width_attr c = Some w -> show (parse w) = w -> expando c = None ->
  expando c' = expando (initCanvas parse show readUsedSize c r) ->
  let '(c2, ok) := releaseContext parse show c' in
  ok = true /\ height_attr c2 = height_attr c /\ width_attr c2 = width_attr c /\ expando c2 = None /\
  (display (c_style c2), s_height (c_style c2), s_width (c_style c2)) = (display (c_style c), s_height (c_style c), s_width (c_style c)).
Proof.
  intros W S N E. rewrite init_expando in E. unfold releaseContext. rewrite E. cbn. rewrite W. cbn. rewrite S. auto.
Qed.
(** Without a width attribute the canvas ends with one: the size is written once more after
    the attribute was removed.  The box sizing is not given back. *)
Lemma released_canvas_differs c r : width_attr c = None -> boxSizing (c_style c) = ""%string ->
  let '(c2, _) := releaseContext parse show (initCanvas parse show readUsedSize c r) in
  width_attr c2 = Some (show 300) /\ boxSizing (c_style c2) = "border-box"%string.
Proof.
  intros W B. unfold releaseContext. rewrite init_expando. cbn. rewrite W. split; [reflexivity|].
  unfold initCanvas. rewrite W, B. cbn. repeat (match goal with |- context [match ?x with _ => _ end] => destruct x end); reflexivity.
Qed.
End Released.
(** A canvas whose width attribute is 400, with the texts of that number only: a chart takes
    it, writes 800 pixels and another display, and lets it go. *)
Lemma released_canvas_restored_witness :
  let parse := fun s : string => if String.eqb s "400" then 400 else nan in
  let show := fun x : num => if x =? 400 then "400"%string else if x =? 800 then "800"%string else "?"%string in
  let used := fun (_ : canvas) (_ : string) => @None num in
  let c := mkCanvas None (Some "400"%string) (mkStyle "inline" "" "50%" "") None in
  let t := initCanvas parse show used c (Some 2) in
  let c' := set_width show (mkCanvas (Some "9"%string) (width_attr t) (mkStyle "none" "9px" "8px" "") (expando t)) 800 in
  width_attr c' = Some "800"%string /\
  releaseContext parse show c' = (mkCanvas None (Some "400"%string) (mkStyle "inline" "" "50%" "") None, true).
Proof.
  intros parse show used c t c'. split; [vm_compute; reflexivity|].
  pose proof (released_canvas_restored parse show used c (Some 2) c' "400" eq_refl eq_refl eq_refl eq_refl) as R.
  destruct (releaseContext parse show c') as [[h w [d sh sw b] e] ok] eqn:Q. cbn in R, Q. destruct R as (-> & -> & -> & -> & S).
  injection S as -> -> ->. cbn in Q. congruence.
Defined.

(** *** What observers notice *)
(** The records follow each other in time: the canvas is added only when it is out of the
    page and removed only when it is in it. *)
Fixpoint follows (inside : bool) (entries : list entry) : option bool :=
  match entries with
  | [] => Some inside
  | e :: rest =>
      match added e, removed e with
      | false, false => follows inside rest
      | true, false => if inside then None else follows true rest
      | false, true => if inside then follows false rest else None
      | true, true => None
      end
  end.
(** The observers are right: for mutations in the order in which they happened, the
    attach observer of a canvas outside the page fires exactly when the canvas is in the
    page in the end, and the detach observer of a canvas in the page exactly when it is
    outside, however often it was moved in between. *)
Theorem observers_notice entries inside after : follows inside entries = Some after ->
  (inside = false -> attach_trigger entries = after) /\ (inside = true -> detach_trigger entries = negb after).
Proof.
  assert (G : forall entries inside after t, follows inside entries = Some after ->
    (t = inside -> fold_left (fun trigger e => (trigger || added e) && negb (removed e)) entries t = after) /\
    (t = negb inside -> fold_left (fun trigger e => (trigger || removed e) && negb (added e)) entries t = negb after)).
  { clear. induction entries as [|[a r] entries IH]; intros inside after t F; cbn [follows fold_left added removed] in *.
    - injection F as ->. auto.
    - destruct a, r, inside; try discriminate; destruct (IH _ _ ((t || true) && negb false) F) as [A _] || idtac;
        split; intros ->; eapply IH; eauto. }
  intros F. split; intros ->; [destruct (G entries false after false F) as [A _]|destruct (G entries true after false F) as [_ A]]; now apply A.
Qed.
(** A canvas that is added, removed and added again is noticed by the attach observer. *)
Lemma observers_notice_witness :
  let entries := [mkEntry true false; mkEntry false false; mkEntry false true; mkEntry true false] in
  follows false entries = Some true /\ attach_trigger entries = true.
Proof.
  intros entries. split; [reflexivity|]. exact (proj1 (observers_notice entries false true eq_refl) eq_refl).
Defined.
Lemma eq_itself x : is_nan x = false -> (x =? x) = true.
Proof. num_order. Qed.
(** A change of the pixel ratio reaches each listening chart that is drawn at another one,
    once. *)
Lemma ratio_changes_reach w dpr c : is_nan dpr = false ->
  let '(w', called) := onWindowResize w dpr in
  (In c called <-> (dpr =? oldDevicePixelRatio w) = false /\ exists r, In (c, r) (charts w) /\ (r =? dpr) = false) /\
  snd (onWindowResize w' dpr) = [].
Proof.
  intros N. unfold onWindowResize. destruct (dpr =? oldDevicePixelRatio w) eqn:Q.
  - split; [|now rewrite Q]. split; [contradiction|]. intros [E _]. discriminate.
  - split.
    + rewrite in_map_iff. split.
      * intros ([c' r] & <- & I). apply filter_In in I as [I D]. split; [reflexivity|]. exists r. split; [exact I|]. now apply negb_true_iff.
      * intros (_ & r & I & D). exists (c, r). split; [reflexivity|]. apply filter_In. split; [exact I|]. cbn. now rewrite D.
    + cbn [oldDevicePixelRatio]. assert (R : (dpr =? dpr) = true) by now apply eq_itself. now rewrite R.
Qed.
End DomPlatformFacts.
