(* ===== verification/Bar.v ===== *)
(** The bar controller (chart.js: BarController and its helpers): parsing of floating
    bars, the stacks side by side on the index axis, the pixels of a bar and the
    border it leaves out. *)
From Stdlib Require Import ZArith Lia Bool List Ascii String.
From Stdlib Require Import SpecFloat.
From stdpp Require Import base list.
From S2P Require Import Prelude JsNumber JsString JsArray JsValue HelpersCore HelpersMath Dataset.
Import ListNotations.
Open Scope Z_scope.

Module Bar.
Import Js Core Dataset.

(** ** Sizes on the index axis *)

Definition truthy (x : num) : bool := negb (Num.is_nan x || Num.eq x 0%js).
(** [updateMinAndPrev]: pixels at the 16-bit limits are off screen. *)
Definition min_step (acc : num * option num) (curr : num) : num * option num :=
  let '(min, prev) := acc in
  if Num.eq curr 32767%js || Num.eq curr (-32768)%js then acc
  else
    (match prev with
     | Some p => let d := Num.abs (curr - p)%js in Num.min min (if truthy d then d else min)
     | None => min end, Some curr).
(** The scale's length, the pixels of the values and those of the ticks. *)
Definition computeMinSampleSize (length : num) (values ticks : list num) : num :=
  let '(min, _) := fold_left min_step values (length, None) in
  fst (fold_left min_step ticks (min, None)).

Record traits := mkTraits { chunk : num; ratio : num; tstart : num }.
Record ruler := mkRuler { rmin : num; pixels : list num; rstart : num; rend : num; rstackCount : Z;
  rgrouped : bool; rratio : num }.
(** [barThickness]: absent, a number, or 'flex'. *)
Inductive thickness := Auto | Fixed (x : num) | Flex.
Record options := mkOptions { barThickness : thickness; maxBarThickness : option num; categoryPercentage : num;
  barPercentage : num; ogrouped : bool; skipNull : bool; obase : option num; minBarLength : num }.

Definition pixel_at (r : ruler) (i : Z) : num := match nthZ (pixels r) i with Some x => x | None => Num.nan end.
Definition computeFitCategoryTraits (index : Z) (r : ruler) (o : options) (stackCount : Z) : traits :=
  let '(size, ratio) := match barThickness o with
    | Fixed t => ((t * Num.of_Z stackCount)%js, 1%js)
    | _ => ((rmin r * categoryPercentage o)%js, barPercentage o) end in
  mkTraits (size / Num.of_Z stackCount)%js ratio (pixel_at r index - size / 2)%js.
Definition computeFlexCategoryTraits (index : Z) (r : ruler) (o : options) (stackCount : Z) : traits :=
  let curr := pixel_at r index in
  let prev := if 0 <? index then Some (pixel_at r (index - 1)) else None in
  let next := if index <? lengthZ (pixels r) - 1 then Some (pixel_at r (index + 1)) else None in
  let percent := categoryPercentage o in
  let prev := match prev with
    | Some p => p
    | None => (curr - match next with None => rend r - rstart r | Some n => n - curr end)%js end in
  let next := match next with Some n => n | None => (curr + curr - prev)%js end in
  let start := (curr - (curr - Num.min prev next) / 2 * percent)%js in
  let size := (Num.abs (next - prev) / 2 * percent)%js in
  mkTraits (size / Num.of_Z stackCount)%js (barPercentage o) start.

(** ** Stacks side by side *)

(** What [_getStacks] reads of a visible dataset: its index and stack name, whether
    it is grouped, and its values. *)
Record dmeta := mkMeta { mindex : Z; mstack : option string; mgrouped : bool; mvalues : list coordinate }.
(** The index scale's [stacked] option. *)
Inductive stacked_opt := Unset_ | No | Yes.
Definition same_stack (a b : option string) : bool :=
  match a, b with Some x, Some y => String.eqb x y | None, None => true | _, _ => false end.
Definition counts_at (m : dmeta) (dataIndex : option Z) : bool :=
  match dataIndex with
  | None => true
  | Some i => match nthZ (mvalues m) i with Some (Some v) => negb (Num.is_nan v) | _ => false end
  end.
Fixpoint stacks_loop (stacked : stacked_opt) (last dataIndex : option Z) (metas : list dmeta)
  (stacks : list (option string)) : list (option string) :=
  match metas with
  | [] => stacks
  | m :: rest =>
      if negb (mgrouped m) || negb (counts_at m dataIndex) then stacks_loop stacked last dataIndex rest stacks
      else
        let fresh := match stacked with
          | No => true
          | Unset_ => negb (existsb (same_stack (mstack m)) stacks) || same_stack (mstack m) None
          | Yes => negb (existsb (same_stack (mstack m)) stacks) end in
        let stacks := if fresh then stacks ++ [mstack m] else stacks in
        if match last with Some l => mindex m =? l | None => false end then stacks
        else stacks_loop stacked last dataIndex rest stacks
  end.
Definition _getStacks (stacked : stacked_opt) (metas : list dmeta) (last dataIndex : option Z) : list (option string) :=
  match stacks_loop stacked last dataIndex metas [] with [] => [None] | l => l end.
Definition _getStackCount (stacked : stacked_opt) (metas : list dmeta) (dataIndex : option Z) : Z :=
  lengthZ (_getStacks stacked metas None dataIndex).
Fixpoint stack_pos (l : list (option string)) (n : option string) (i : Z) : option Z :=
  match l with [] => None | x :: r => if same_stack x n then Some i else stack_pos r n (i + 1) end.
Definition _getStackIndex (stacked : stacked_opt) (metas : list dmeta) (datasetIndex : Z) (name : option string)
  (dataIndex : option Z) : Z :=
  let stacks := _getStacks stacked metas (Some datasetIndex) dataIndex in
  match (match name with Some _ => stack_pos stacks name 0 | None => None end) with
  | Some i => i
  | None => lengthZ stacks - 1
  end.

(** [_getRuler]: the pixels of the items, and a fixed thickness or the sample size. *)
Definition _getRuler (o : options) (pixels : list num) (length startPixel endPixel : num) (values ticks : list num)
  (stacked : stacked_opt) (metas : list dmeta) : ruler :=
  let thick := match barThickness o with Fixed t => truthy t | Flex => true | Auto => false end in
  mkRuler (match barThickness o with
           | Fixed t => if truthy t then t else computeMinSampleSize length values ticks
           | Flex => Num.nan
           | Auto => computeMinSampleSize length values ticks end)
    pixels startPixel endPixel (_getStackCount stacked metas None) (ogrouped o)
    (if thick then 1 else categoryPercentage o * barPercentage o)%js.

Record ipixels := mkIpixels { ibase : num; ihead : num; icenter : num; isize : num }.
(** [_calculateBarIndexPixels] of the dataset [this], whose stack is [name]. *)
Definition _calculateBarIndexPixels (o : options) (r : ruler) (stacked : stacked_opt) (metas : list dmeta)
  (this : Z) (name : option string) (index : Z) (pixel : num) : ipixels :=
  let maxT := match maxBarThickness o with Some m => m | None => Num.infinity end in
  let '(center, size) :=
    if rgrouped r then
      let dataIndex := if skipNull o then Some index else None in
      let stackCount := if skipNull o then _getStackCount stacked metas (Some index) else rstackCount r in
      let range := match barThickness o with
        | Flex => computeFlexCategoryTraits index r o stackCount
        | _ => computeFitCategoryTraits index r o stackCount end in
      let stackIndex := _getStackIndex stacked metas this name dataIndex in
      ((tstart range + chunk range * Num.of_Z stackIndex + chunk range / 2)%js, Num.min maxT (chunk range * ratio range)%js)
    else (pixel, Num.min maxT (rmin r * rratio r)%js) in
  mkIpixels (center - size / 2)%js (center + size / 2)%js center size.

(** ** Parsing *)

Record custom := mkCustom { barStart : num; barEnd : num; cstart : coordinate; cend : coordinate; cmin : num; cmax : num }.
Record bar_item := mkBarItem { bindex : coordinate; bvalue : coordinate; _custom : option custom }.
Definition num_of (c : coordinate) : num := match c with Some x => x | None => 0%js end.
Definition parseFloatBar (startValue endValue : coordinate) : custom :=
  let min := Num.min (num_of startValue) (num_of endValue) in
  let max := Num.max (num_of startValue) (num_of endValue) in
  let '(s, e) := if Num.lt (Num.abs max) (Num.abs min) then (max, min) else (min, max) in
  mkCustom s e startValue endValue min max.
(** [parseValue]: the value and the floating bar. *)
Definition parseValue (parse : value -> Z -> coordinate) (entry : value) (i : Z) : coordinate * option custom :=
  match entry with
  | VArr _ => let c := parseFloatBar (parse (index entry "0") i) (parse (index entry "1") i) in (Some (barEnd c), Some c)
  | _ => (parse entry i, None)
  end.
Definition parseArrayOrPrimitive (parse_i parse_v : value -> Z -> coordinate) (labels data : list value)
  (start count : Z) : list bar_item :=
  List.map (fun i => let '(v, c) := parseValue parse_v (nth_value data i) i in
                     mkBarItem (parse_i (nth_value labels i) i) v c) (rangeZ start count).
Definition parseObjectData (parse_i parse_v : value -> Z -> coordinate) (iAxisKey vAxisKey : string) (data : list value)
  (start count : Z) : list bar_item :=
  List.map (fun i => let obj := nth_value data i in
                     let '(v, c) := parseValue parse_v (resolveObjectKey obj vAxisKey) i in
                     mkBarItem (parse_i (resolveObjectKey obj iAxisKey) i) v c) (rangeZ start count).
(** The overridden [updateRangeFromParsed], after the base class's. *)
Definition updateRangeFromParsed (r : range) (valueScale : bool) (c : option custom) : range :=
  match c with
  | Some c => if valueScale then mkRange (Num.min (Dataset.rmin r) (cmin c)) (Num.max (Dataset.rmax r) (cmax c)) else r
  | None => r
  end.
Definition isFloatBar (c : option custom) : bool := match c with Some _ => true | None => false end.

(** ** Pixels on the value axis *)
Record vscale := mkVscale { vhorizontal : bool; vmin : num; vpixel : num -> num; lineWidth : num -> num }.
Definition barSign (size : num) (s : vscale) (actualBase : num) : num :=
  if negb (Num.eq size 0%js) then Num.sign size
  else ((if vhorizontal s then 1 else -1) * (if Num.le actualBase (vmin s) then 1 else -1))%js.
Record vpixels := mkVpixels { psize : num; pbase : num; phead : num; pcenter : num }.
(** [_calculateBarValuePixels] of an item that is not null: [stackedLength] is what
    [applyStack] gives when the dataset is stacked. *)
Definition _calculateBarValuePixels (o : options) (s : vscale) (value : num) (c : option custom)
  (stackedLength : option num) (visible : bool) : vpixels :=
  let actualBase := match obase o with Some b => if truthy b then b else 0%js | None => 0%js end in
  let length := match stackedLength with Some l => l | None => value end in
  let '(start, length) := if negb (Num.eq length value) then ((length - value)%js, value) else (0%js, length) in
  let '(start, length, value) := match c with
    | Some c =>
        let v := barStart c in
        let start := if negb (Num.eq v 0%js) && negb (Num.eq (Num.sign v) (Num.sign (barEnd c))) then 0%js else start in
        ((start + v)%js, (barEnd c - barStart c)%js, v)
    | None => (start, length, value) end in
  let startValue := match obase o with Some b => if isFloatBar c then start else b | None => start end in
  let base := vpixel s startValue in
  let head := if visible then vpixel s (start + length)%js else base in
  let size := (head - base)%js in
  let '(size, base, head) :=
    if Num.lt (Num.abs size) (minBarLength o) then
      let size := (barSign size s actualBase * minBarLength o)%js in
      let base := if Num.eq value actualBase then (base - size / 2)%js else base in
      (size, base, (base + size)%js)
    else (size, base, head) in
  let '(size, base) :=
    if Num.eq base (vpixel s actualBase) then
      let halfGrid := (Num.sign size * lineWidth s actualBase / 2)%js in ((size - halfGrid)%js, (base + halfGrid)%js)
    else (size, base) in
  mkVpixels size base head (head + size / 2)%js.

(** ** The border left out *)
Definition swap (orig v1 v2 : string) : string :=
  if String.eqb orig v1 then v2 else if String.eqb orig v2 then v1 else orig.
Definition startEnd (v start end_ : string) : string :=
  if String.eqb v "start" then start else if String.eqb v "end" then end_ else v.
Definition parseEdge (edge a b : string) (reverse : bool) : string :=
  if reverse then startEnd (swap edge a b) b a else startEnd edge a b.
Record border := mkBorder { bstart : string; bend : string; reverse : bool; top : string; bottom : string }.
Definition borderProps (horizontal : bool) (base x y : num) : border :=
  let '(reverse, start, end_) :=
    if horizontal then (Num.lt x base, "left", "right")%string else (Num.lt base y, "bottom", "top")%string in
  let '(top, bottom) := if reverse : bool then ("end", "start")%string else ("start", "end")%string in
  mkBorder start end_ reverse top bottom.
(** The sides in [borderSkipped]; [edge] is empty when the option is false, and the
    flag is what is set of [enableBorderRadius]. *)
Definition setBorderSkipped (horizontal : bool) (base x y : num) (edge : string) (stack : option stack) (this : nat)
  : list string * option bool :=
  if String.eqb edge EmptyString then ([], None) else
  let b := borderProps horizontal base x y in
  let side e := parseEdge e (bstart b) (bend b) (reverse b) in
  let zero o := match o with Some d => d | None => 0%nat end in
  match (if String.eqb edge "middle" then stack else None) with
  | Some s =>
      (if Nat.eqb (zero (s_top s)) this then [side (top b)]
       else if Nat.eqb (zero (s_bottom s)) this then [side (bottom b)]
       else [side (bottom b); side (top b)], Some true)
  | None => ([side edge], None)
  end.
(** [setInflateAmount]: None is 'auto'. *)
Definition setInflateAmount (inflateAmount : option num) (ratio : num) : num :=
  match inflateAmount with
  | Some x => x
  | None => if Num.eq ratio 1%js then 0.33%js else 0%js
  end.
End Bar.

(** ** Facts *)
Module BarFacts.
Import Num NumFacts Js Core Dataset Bar.

(** *** The smallest distance *)

Lemma min_step_le min prev curr : is_nan min = false ->
  is_nan (fst (min_step (min, prev) curr)) = false /\ le (fst (min_step (min, prev) curr)) min = true.
Proof.
  intros N. assert (R : le min min = true) by num_order. unfold min_step.
  destruct (eq curr 32767%js || eq curr (-32768)%js); cbn [fst]; [auto|]. destruct prev as [p|]; [|auto].
  cbn zeta. destruct (truthy (abs (curr - p)%js)) eqn:T.
  - assert (Na : is_nan (abs (curr - p)%js) = false).
    { unfold truthy in T. apply negb_true_iff, orb_false_iff in T. apply T. }
    rewrite is_nan_min, N, Na. split; [reflexivity|]. now apply min_le_l.
  - rewrite is_nan_min, N. split; [reflexivity|]. now apply min_le_l.
Qed.
Lemma min_fold_le l : forall acc, is_nan (fst acc) = false ->
  is_nan (fst (fold_left min_step l acc)) = false /\ le (fst (fold_left min_step l acc)) (fst acc) = true.
Proof.
  induction l as [|x l IH]; intros [min prev] N; cbn [fold_left]; [cbn in *; split; [exact N|num_order]|].
  destruct (min_step_le min prev x N) as [N1 L1]. destruct (IH _ N1) as [N2 L2]. split; [exact N2|].
  cbn [fst] in *. destruct (min_step (min, prev) x) as [m q]. cbn [fst] in *. clear -L1 L2. num_order.
Qed.
Definition on_screen (x : num) : bool := negb (eq x 32767%js || eq x (-32768)%js).

(** The sample size is at most the scale's length and at most every distance
    (other than zero) between two consecutive values on the screen. *)
Theorem sample_size_le length values ticks pre p c post :
  is_nan length = false -> values = (pre ++ p :: c :: post)%list -> on_screen p = true -> on_screen c = true ->
  truthy (abs (c - p)%js) = true ->
  le (computeMinSampleSize length values ticks) length = true /\
  le (computeMinSampleSize length values ticks) (abs (c - p)%js) = true.
Proof.
  intros N -> Op Oc T. unfold computeMinSampleSize. rewrite fold_left_app. cbn [fold_left].
  destruct (min_fold_le pre (length, None) N) as [N0 L0].
  destruct (fold_left min_step pre (length, None)) as [m0 q0]. cbn [fst] in *.
  destruct (min_step_le m0 q0 p N0) as [N1 L1].
  assert (Ep : min_step (m0, q0) p = (fst (min_step (m0, q0) p), Some p)).
  { unfold min_step, on_screen in *. apply negb_true_iff in Op. now rewrite Op. }
  rewrite Ep. set (m1 := fst (min_step (m0, q0) p)) in *.
  assert (Na : is_nan (abs (c - p)%js) = false).
  { unfold truthy in T. apply negb_true_iff, orb_false_iff in T. apply T. }
  assert (Ec : min_step (m1, Some p) c = (min m1 (abs (c - p)%js), Some c)).
  { unfold min_step, on_screen in *. apply negb_true_iff in Oc. now rewrite Oc, T. }
  rewrite Ec. assert (N2 : is_nan (min m1 (abs (c - p)%js)) = false) by now rewrite is_nan_min, N1, Na.
  destruct (min_fold_le post (min m1 (abs (c - p)%js), Some c) N2) as [N3 L3].
  destruct (fold_left min_step post _) as [m3 q3]. cbn [fst] in *.
  destruct (min_fold_le ticks (m3, None) N3) as [N4 L4]. cbn [fst] in *.
  pose proof (min_le_l m1 _ N1 Na) as A1. pose proof (min_le_r m1 _ N1 Na) as A2.
  revert A1 A2 L0 L1 L3 L4. clear. generalize (fst (fold_left min_step ticks (m3, None))).
  generalize (min m1 (abs (c - p)%js)). generalize (abs (c - p)%js). clearbody m1. intros. split; num_order.
Qed.

(** *** Floating bars *)
Lemma is_nan_abs x : is_nan (abs x) = is_nan x.
Proof. destruct x; reflexivity. Qed.

(** A floating bar runs between its two values, in whichever order they are
    given, and ends at the value farther from zero. *)
Theorem parseFloatBar_spec s e : is_nan s = false -> is_nan e = false ->
  let c := parseFloatBar (Some s) (Some e) in
  le (cmin c) s = true /\ le (cmin c) e = true /\ le s (cmax c) = true /\ le e (cmax c) = true /\
  ((barStart c = cmin c /\ barEnd c = cmax c) \/ (barStart c = cmax c /\ barEnd c = cmin c)) /\
  le (abs (barStart c)) (abs (barEnd c)) = true.
Proof.
  intros Ns Ne. unfold parseFloatBar. cbn [num_of].
  assert (Nm : is_nan (min s e) = false) by now rewrite is_nan_min, Ns, Ne.
  assert (Nx : is_nan (max s e) = false) by now rewrite is_nan_max, Ns, Ne.
  destruct (lt (abs (max s e)) (abs (min s e))) eqn:L; cbn; repeat split; auto using min_le_l, min_le_r, le_max_l, le_max_r.
  - clear -L. num_order.
  - rewrite le_not_lt, L by now rewrite is_nan_abs. reflexivity.
Qed.

(** *** Stacks *)
Lemma stacks_loop_extends stk last di metas : forall acc, exists m, stacks_loop stk last di metas acc = acc ++ m.
Proof.
  induction metas as [|a r IH]; intros acc; cbn; [exists []; now rewrite app_nil_r|].
  destruct (_ || _); [apply IH|]. set (f := match stk with No => _ | Unset_ => _ | Yes => _ end).
  assert (E : exists m, (if f then acc ++ [mstack a] else acc) = acc ++ m).
  { destruct f; [eauto|exists []; now rewrite app_nil_r]. }
  destruct E as [m ->]. destruct (match last with Some _ => _ | None => _ end); [eauto|].
  destruct (IH (acc ++ m)) as [m' ->]. exists (m ++ m'). now rewrite app_assoc.
Qed.
Lemma stacks_loop_prefix stk l di metas : forall acc,
  exists m, stacks_loop stk None di metas acc = stacks_loop stk (Some l) di metas acc ++ m.
Proof.
  induction metas as [|a r IH]; intros acc; cbn; [exists []; now rewrite app_nil_r|].
  destruct (_ || _); [apply IH|]. match goal with |- context [if ?t then acc ++ [mstack a] else acc] => set (f := t) end. destruct (mindex a =? l); [|apply IH].
  apply stacks_loop_extends.
Qed.
Lemma stack_pos_bounds l n : forall i j, stack_pos l n i = Some j -> i <= j < i + lengthZ l.
Proof.
  unfold lengthZ. induction l as [|x l IH]; intros i j; cbn [stack_pos]; [discriminate|]. cbn [List.length].
  destruct (same_stack x n); [intros [= <-]; lia|]. intros H. apply IH in H. lia.
Qed.

(** The index of a dataset's stack is one of the stacks that are counted, so
    the bars of a category never leave the room the category has. *)
Theorem stack_index_in_range stk metas this name di :
  0 <= _getStackIndex stk metas this name di < _getStackCount stk metas di.
Proof.
  assert (L : 1 <= lengthZ (_getStacks stk metas (Some this) di) <= _getStackCount stk metas di).
  { unfold _getStackCount, _getStacks. destruct (stacks_loop_prefix stk this di metas []) as [m ->].
    unfold lengthZ. destruct (stacks_loop _ (Some this) _ _ _) as [|a r]; cbn [app List.length];
      [destruct m; cbn [List.length]; lia|]. rewrite length_app. lia. }
  unfold _getStackIndex. destruct (match name with Some _ => _ | None => _ end) as [j|] eqn:E; [|lia].
  destruct name as [n|]; [|discriminate]. apply stack_pos_bounds in E. lia.
Qed.

Lemma same_stack_eq a b : same_stack a b = true <-> a = b.
Proof.
  destruct a as [a|], b as [b|]; cbn; try (split; congruence). rewrite String.eqb_eq. split; congruence.
Qed.
Lemma stack_pos_app p q n : In n p -> forall i, stack_pos (p ++ q) n i = stack_pos p n i.
Proof.
  induction p as [|x p IH]; intros I i; [contradiction|]. cbn. destruct (same_stack x n) eqn:E; [reflexivity|].
  apply IH. destruct I as [->|I]; [|exact I]. pose proof (proj2 (same_stack_eq n n) eq_refl). congruence.
Qed.
Lemma stack_pos_Some l n : In n l -> forall i, exists j, stack_pos l n i = Some j /\ i <= j /\ nth_error l (Z.to_nat (j - i)) = Some n.
Proof.
  induction l as [|x l IH]; intros I i; [contradiction|]. cbn. destruct (same_stack x n) eqn:E.
  - apply same_stack_eq in E. subst. exists i. rewrite Z.sub_diag. repeat split; lia.
  - destruct I as [->|I]; [pose proof (proj2 (same_stack_eq n n) eq_refl); congruence|].
    destruct (IH I (i + 1)) as (j & P & L & N). exists j. split; [exact P|]. split; [lia|].
    replace (Z.to_nat (j - i)) with (S (Z.to_nat (j - (i + 1)))) by lia. exact N.
Qed.
Lemma stacks_loop_In stk di a metas : stk <> No -> In a metas -> List.NoDup (List.map mindex metas) ->
  mgrouped a = true -> counts_at a di = true ->
  forall acc, In (mstack a) (stacks_loop stk (Some (mindex a)) di metas acc).
Proof.
  intros S I N G C. induction metas as [|b r IH]; intros acc; [contradiction|]. cbn [stacks_loop].
  cbn [List.map] in N. inversion N as [|? ? N1 N2]; subst. destruct I as [->|I].
  - rewrite G, C. cbn [negb orb]. rewrite Z.eqb_refl.
    assert (X : forall t, In (mstack a) acc \/ t = true -> In (mstack a) (if t then acc ++ [mstack a] else acc)).
    { intros t [H| ->]; [|apply in_app_iff; right; now left]. destruct t; [apply in_app_iff; now left|exact H]. }
    assert (Y : In (mstack a) acc \/ negb (existsb (same_stack (mstack a)) acc) = true).
    { destruct (existsb _ acc) eqn:E; [left|now right]. apply List.existsb_exists in E as (y & Iy & E).
      apply same_stack_eq in E. now subst. }
    apply X. destruct stk; [|congruence|exact Y]. destruct Y as [Y|Y]; [now left|right; now rewrite Y].
  - destruct (_ || _); [now apply IH|]. destruct (Z.eqb_spec (mindex b) (mindex a)) as [E|E]; [|now apply IH].
    exfalso. apply N1. rewrite E. now apply in_map.
Qed.
Lemma stack_index_pos stk metas a n di : stk <> No -> In a metas -> List.NoDup (List.map mindex metas) ->
  mgrouped a = true -> counts_at a di = true -> mstack a = Some n ->
  let full := stacks_loop stk None di metas [] in
  In (Some n) full /\ stack_pos full (Some n) 0 = Some (_getStackIndex stk metas (mindex a) (Some n) di).
Proof.
  intros S I N G C M. pose proof (stacks_loop_In stk di a metas S I N G C []) as J. rewrite M in J.
  cbn zeta. destruct (stacks_loop_prefix stk (mindex a) di metas []) as [m ->]. split; [apply in_app_iff; now left|].
  rewrite stack_pos_app by exact J. unfold _getStackIndex, _getStacks.
  destruct (stacks_loop _ (Some _) _ _ _) as [|x r] eqn:E; [contradiction|].
  destruct (stack_pos_Some _ _ J 0) as (j & P & _). now rewrite P.
Qed.

(** Unless stacking is switched off, two grouped datasets with named stacks
    share a place in the category exactly when they name the same stack. *)
Theorem stack_index_names stk metas a b n m di :
  stk <> No -> List.NoDup (List.map mindex metas) ->
  In a metas -> mgrouped a = true -> counts_at a di = true -> mstack a = Some n ->
  In b metas -> mgrouped b = true -> counts_at b di = true -> mstack b = Some m ->
  (_getStackIndex stk metas (mindex a) (Some n) di = _getStackIndex stk metas (mindex b) (Some m) di <-> n = m).
Proof.
  intros S N Ia Ga Ca Ma Ib Gb Cb Mb.
  destruct (stack_index_pos stk metas a n di) as [Fa Pa]; auto.
  destruct (stack_index_pos stk metas b m di) as [Fb Pb]; auto.
  destruct (stack_pos_Some _ _ Fa 0) as (i & Qi & _ & Ni). destruct (stack_pos_Some _ _ Fb 0) as (j & Qj & _ & Nj).
  split; intros E.
  - assert (i = j) by congruence. subst. rewrite Nj in Ni. now injection Ni.
  - subst. rewrite Pa in Pb. now injection Pb.
Qed.

(** *** Borders *)
Definition base_side (horizontal rev : bool) : string :=
  (if horizontal then if rev then "right" else "left" else if rev then "top" else "bottom")%string.
Definition head_side (horizontal rev : bool) : string := base_side horizontal (negb rev).

(** The option 'start' leaves out the border at the base of the bar and 'end'
    the one at its head, in every direction.  With 'middle', a bar that is neither
    the last nor the first of its stack loses both; the last one loses the border
    towards the base only while the bar points along the axis: when the positive
    bars run backwards (a reversed scale) it loses its outer border instead. *)
Theorem border_sides (horizontal : bool) (base x y : num) (st : stack) (this : nat) :
  let rev := if horizontal then lt x base else lt base y in
  let skipped edge := fst (setBorderSkipped horizontal base x y edge (Some st) this) in
  skipped "start"%string = [base_side horizontal rev] /\ skipped "end"%string = [head_side horizontal rev] /\
  (s_top st = Some this ->
     skipped "middle"%string = [if rev then head_side horizontal rev else base_side horizontal rev]) /\
  (s_top st <> Some this -> s_bottom st = Some this -> this <> 0%nat ->
     skipped "middle"%string = [if rev then base_side horizontal rev else head_side horizontal rev]) /\
  (s_top st <> Some this -> s_bottom st <> Some this -> this <> 0%nat ->
     forall side, In side (skipped "middle"%string) <->
       side = base_side horizontal rev \/ side = head_side horizontal rev).
Proof.
  cbn zeta. unfold setBorderSkipped, borderProps.
  change (String.eqb "start" EmptyString) with false. change (String.eqb "end" EmptyString) with false.
  change (String.eqb "middle" EmptyString) with false. change (String.eqb "start" "middle") with false.
  change (String.eqb "end" "middle") with false. change (String.eqb "middle" "middle") with true. cbn iota.
  assert (Z : forall o (d : nat), o <> Some d -> d <> 0%nat -> Nat.eqb (match o with Some e => e | None => 0 end) d = false).
  { intros [e|] d Ne Nz; apply Nat.eqb_neq; congruence. }
  split; [destruct horizontal; [destruct (lt x base)|destruct (lt base y)]; reflexivity|].
  split; [destruct horizontal; [destruct (lt x base)|destruct (lt base y)]; reflexivity|].
  split; [|split].
  - intros ->. rewrite Nat.eqb_refl. destruct horizontal; [destruct (lt x base)|destruct (lt base y)]; reflexivity.
  - intros T -> Nz. rewrite (Z _ _ T Nz), Nat.eqb_refl.
    destruct horizontal; [destruct (lt x base)|destruct (lt base y)]; reflexivity.
  - intros T B Nz side. rewrite (Z _ _ T Nz), (Z _ _ B Nz).
    destruct horizontal; [destruct (lt x base)|destruct (lt base y)]; cbn; intuition congruence.
Qed.

Lemma sample_size_le_witness :
  le (computeMinSampleSize 100%js [10; 30; 35]%js []) (abs (35 - 30)%js) = true.
Proof.
  apply (sample_size_le 100%js [10; 30; 35]%js [] [10%js] 30%js 35%js []); vm_compute; reflexivity.
Defined.
Definition demo_metas : list dmeta :=
  [mkMeta 0 (Some "a"%string) true []; mkMeta 1 (Some "b"%string) true []; mkMeta 2 (Some "a"%string) true []].
Lemma stack_index_names_witness :
  _getStackIndex Yes demo_metas 0 (Some "a"%string) None = _getStackIndex Yes demo_metas 2 (Some "a"%string) None.
Proof.
  apply (stack_index_names Yes demo_metas (mkMeta 0 (Some "a"%string) true []) (mkMeta 2 (Some "a"%string) true []) "a" "a" None);
    try reflexivity; cbn; try tauto; try discriminate. repeat constructor; cbn; lia.
Defined.
End BarFacts.
