(* ===== verification/Tooltip.v ===== *)
(** The tooltip's geometry (chart.js: positioners, getTooltipSize, determineAlignment,
    getBackgroundPoint, getCaretPosition). *)
From Stdlib Require Import ZArith Lia Bool List Ascii String.
From Stdlib Require Import SpecFloat.
From stdpp Require Import base list.
From S2P Require Import Prelude JsNumber JsString JsArray JsValue HelpersCore HelpersMath Options.
Import ListNotations.
Open Scope Z_scope.

Module Tooltip.
Import MathH Options.

(** ** Where it points *)

(** What the positioners read of an element. *)
Class TipOps (E : Type) := { hasValue : E -> bool; tooltipPosition : E -> point; centerPoint : E -> point }.
Section Position.
Context {E : Type} `{TipOps E} `{MathLib}.
(** None: the tooltip has no position (false in the source). *)
Definition average (items : list (option E)) : option point :=
  match items with
  | [] => None
  | _ =>
      let '(sx, sy, count) := fold_left (fun acc el => let '(sx, sy, c) := acc in
        match el with
        | Some e => if hasValue e then let p := tooltipPosition e in ((sx + x p)%js, (sy + y p)%js, c + 1) else acc
        | None => acc end) items (0%js, 0%js, 0) in
      Some (mkPoint (sx / Num.of_Z count)%js (sy / Num.of_Z count)%js)
  end.
Definition nearest (items : list (option E)) (eventPosition : point) : option point :=
  match items with
  | [] => None
  | _ =>
      let '(_, best) := fold_left (fun acc el => let '(m, best) := acc in
        match el with
        | Some e =>
            if hasValue e then
              let d := distanceBetweenPoints eventPosition (centerPoint e) in
              if Num.lt d m then (d, Some e) else acc
            else acc
        | None => acc end) items (Num.infinity, None) in
      Some (match best with Some e => tooltipPosition e | None => eventPosition end)
  end.
End Position.

(** ** Its text *)
Definition pushOrConcat (base : list value) (toPush : value) : list value :=
  if Js.truthy toPush then match toPush with VArr l => base ++ l | v => base ++ [v] end else base.

(** The lines of a tooltip; a body item has the lines before, of and after it. *)
Record body_item := mkBody { before : list string; lines : list string; after : list string }.
Record text := mkText { title : list string; beforeBody : list string; body : list body_item;
  afterBody : list string; footer : list string }.
(** The resolved options; a font is its line height and its canvas text. *)
Record tfont := mkTfont { lineHeight : num; fstring : string }.
Record options := mkOptions { bodyFont : tfont; titleFont : tfont; footerFont : tfont; tpadding : padding;
  boxWidth : num; boxHeight : num; boxPadding : num; displayColors : bool; titleSpacing : num;
  titleMarginBottom : num; bodySpacing : num; footerSpacing : num; footerMarginTop : num;
  caretSize : num; caretPadding : num; cornerRadius : value; oxAlign : string; oyAlign : string }.

Section Size.
(** The canvas: the width of a text under a font. *)
Context (measure : string -> string -> num).
Definition max_line (font : string) (widthPadding : num) (width : num) (line : string) : num :=
  Num.max width (measure font line + widthPadding)%js.
Definition color_padding (o : options) : num :=
  if displayColors o then (boxWidth o + 2 + boxPadding o)%js else 0%js.
Definition text_width (t : text) (o : options) : num :=
  let w := fold_left (max_line (fstring (titleFont o)) 0%js) (title t) 0%js in
  let w := fold_left (max_line (fstring (bodyFont o)) 0%js) (beforeBody t ++ afterBody t) w in
  let w := fold_left (max_line (fstring (bodyFont o)) (color_padding o))
             (List.concat (List.map (fun b => before b ++ lines b ++ after b) (body t))) w in
  fold_left (max_line (fstring (footerFont o)) 0%js) (footer t) w.
Definition text_height (t : text) (o : options) : num :=
  let n {A} (l : list A) := lengthZ l in
  let combined := fold_left (fun c b => c + n (before b) + n (lines b) + n (after b)) (body t) 0
                  + n (beforeBody t) + n (afterBody t) in
  let h := pheight (tpadding o) in
  let h := if n (title t) =? 0 then h else
    (h + (Num.of_Z (n (title t)) * lineHeight (titleFont o) + Num.of_Z (n (title t) - 1) * titleSpacing o
          + titleMarginBottom o))%js in
  let h := if combined =? 0 then h else
    let bodyLineHeight := if displayColors o then Num.max (boxHeight o) (lineHeight (bodyFont o)) else lineHeight (bodyFont o) in
    (h + (Num.of_Z (n (body t)) * bodyLineHeight + Num.of_Z (combined - n (body t)) * lineHeight (bodyFont o)
          + Num.of_Z (combined - 1) * bodySpacing o))%js in
  if n (footer t) =? 0 then h else
    (h + (footerMarginTop o + Num.of_Z (n (footer t)) * lineHeight (footerFont o)
          + Num.of_Z (n (footer t) - 1) * footerSpacing o))%js.
Definition getTooltipSize (t : text) (o : options) : num * num :=
  ((text_width t o + pwidth (tpadding o))%js, text_height t o).
End Size.

(** ** Alignment *)

(** The anchor and the size; [xAlign] and [yAlign] are empty when not set. *)
Record size := mkSize { sx : num; sy : num; width : num; height : num; sxAlign : string; syAlign : string }.
Record tchart := mkChart { cwidth : num; cheight : num; aleft : num; aright : num }.
Definition determineYAlign (c : tchart) (s : size) : string :=
  (if Num.lt (sy s) (height s / 2)%js then "top"
  else if Num.lt (cheight c - height s / 2)%js (sy s) then "bottom" else "center")%string.
Definition doesNotFitWithAlign (xAlign : string) (c : tchart) (o : options) (s : size) : bool :=
  let caret := (caretSize o + caretPadding o)%js in
  (String.eqb xAlign "left" && Num.lt (cwidth c) (sx s + width s + caret)%js)
  || (String.eqb xAlign "right" && Num.lt (sx s - width s - caret)%js 0%js).
Definition determineXAlign (c : tchart) (o : options) (s : size) (yAlign : string) : string :=
  let xAlign :=
    (if String.eqb yAlign "center" then if Num.le (sx s) ((aleft c + aright c) / 2)%js then "left" else "right"
     else if Num.le (sx s) (width s / 2)%js then "left"
     else if Num.le (cwidth c - width s / 2)%js (sx s) then "right" else "center")%string in
  if doesNotFitWithAlign xAlign c o s then "center"%string else xAlign.
Definition or_text (a b : string) : string := if String.eqb a EmptyString then b else a.
Definition determineAlignment (c : tchart) (o : options) (s : size) : string * string :=
  let yAlign := or_text (syAlign s) (or_text (oyAlign o) (determineYAlign c s)) in
  (or_text (sxAlign s) (or_text (oxAlign o) (determineXAlign c o s yAlign)), yAlign).

Definition alignX (s : size) (xAlign : string) : num :=
  if String.eqb xAlign "right" then (sx s - width s)%js
  else if String.eqb xAlign "center" then (sx s - width s / 2)%js else sx s.
Definition alignY (s : size) (yAlign : string) (paddingAndSize : num) : num :=
  if String.eqb yAlign "top" then (sy s + paddingAndSize)%js
  else if String.eqb yAlign "bottom" then (sy s - (height s + paddingAndSize))%js else (sy s - height s / 2)%js.
(** The point before it is limited to the chart. *)
Definition background_point (o : options) (s : size) (xAlign yAlign : string) : point :=
  let paddingAndSize := (caretSize o + caretPadding o)%js in
  let c := toTRBLCorners (cornerRadius o) in
  let x := alignX s xAlign in
  let y := alignY s yAlign paddingAndSize in
  let x :=
    if String.eqb yAlign "center" then
      if String.eqb xAlign "left" then (x + paddingAndSize)%js
      else if String.eqb xAlign "right" then (x - paddingAndSize)%js else x
    else if String.eqb xAlign "left" then (x - (Num.max (topLeft c) (bottomLeft c) + caretSize o))%js
    else if String.eqb xAlign "right" then (x + (Num.max (topRight c) (bottomRight c) + caretSize o))%js else x in
  mkPoint x y.
Definition getBackgroundPoint (o : options) (s : size) (alignment : string * string) (c : tchart) : point :=
  let p := background_point o s (fst alignment) (snd alignment) in
  mkPoint (_limitValue (x p) 0%js (cwidth c - width s)%js) (_limitValue (y p) 0%js (cheight c - height s)%js).
Definition getAlignedX (tx twidth : num) (align : string) (p : padding) : num :=
  if String.eqb align "center" then (tx + twidth / 2)%js
  else if String.eqb align "right" then (tx + twidth - right (sides p))%js else (tx + left (sides p))%js.

Record caret := mkCaret { x1 : num; x2 : num; x3 : num; y1 : num; y2 : num; y3 : num }.
Definition getCaretPosition (xAlign yAlign : string) (caretX : num) (pt : point) (w h : num) (o : options) : caret :=
  let c := toTRBLCorners (cornerRadius o) in
  let cs := caretSize o in
  if String.eqb yAlign "center" then
    let y2 := (y pt + h / 2)%js in
    if String.eqb xAlign "left" then
      let x1 := x pt in mkCaret x1 (x1 - cs)%js x1 (y2 + cs)%js y2 (y2 - cs)%js
    else let x1 := (x pt + w)%js in mkCaret x1 (x1 + cs)%js x1 (y2 - cs)%js y2 (y2 + cs)%js
  else
    let x2 := if String.eqb xAlign "left" then (x pt + Num.max (topLeft c) (bottomLeft c) + cs)%js
              else if String.eqb xAlign "right" then (x pt + w - Num.max (topRight c) (bottomRight c) - cs)%js
              else caretX in
    if String.eqb yAlign "top" then
      let y1 := y pt in mkCaret (x2 - cs)%js x2 (x2 + cs)%js y1 (y1 - cs)%js y1
    else let y1 := (y pt + h)%js in mkCaret (x2 + cs)%js x2 (x2 - cs)%js y1 (y1 + cs)%js y1.
End Tooltip.

(** ** Facts *)
Module TooltipFacts.
Import Options Num NumFacts MathH MathFacts Tooltip.

(** A tooltip that is not larger than the chart is placed inside it,
    whatever its alignment; and an alignment to the left or right that is chosen
    automatically leaves room for the tooltip and its caret. *)
Theorem background_inside o s c yAlign alignment :
  le 0%js (cwidth c - width s)%js = true -> le 0%js (cheight c - height s)%js = true ->
  is_nan (x (background_point o s (fst alignment) (snd alignment))) = false ->
  is_nan (y (background_point o s (fst alignment) (snd alignment))) = false ->
  let p := getBackgroundPoint o s alignment c in
  (le 0%js (x p) = true /\ le (x p) (cwidth c - width s)%js = true) /\
  (le 0%js (y p) = true /\ le (y p) (cheight c - height s)%js = true) /\
  (determineXAlign c o s yAlign = "left"%string ->
     lt (cwidth c) (sx s + width s + (caretSize o + caretPadding o))%js = false) /\
  (determineXAlign c o s yAlign = "right"%string ->
     lt (sx s - width s - (caretSize o + caretPadding o))%js 0%js = false).
Proof.
  intros W H Nx Ny. cbn zeta. unfold getBackgroundPoint. cbn [x y].
  split; [now apply limitValue_range|]. split; [now apply limitValue_range|].
  unfold determineXAlign. set (a := if String.eqb yAlign "center" then _ else _).
  assert (F : forall r, (if doesNotFitWithAlign a c o s then "center"%string else a) = r -> r <> "center"%string ->
              a = r /\ doesNotFitWithAlign r c o s = false).
  { intros r E N. destruct (doesNotFitWithAlign a c o s) eqn:D; [congruence|]. subst. auto. }
  split; intros E; apply F in E as [_ D]; try discriminate; unfold doesNotFitWithAlign in D;
    apply orb_false_iff in D as [D1 D2]; cbn in D1, D2; assumption.
Qed.

Lemma max_line_le measure f wp l : forall w, is_nan w = false ->
  (forall t, In t l -> is_nan (measure f t + wp)%js = false) ->
  let w' := fold_left (max_line measure f wp) l w in
  is_nan w' = false /\ le w w' = true /\ forall t, In t l -> le (measure f t + wp)%js w' = true.
Proof.
  induction l as [|x l IH]; intros w N M; cbn [fold_left]; cbn zeta.
  - split; [exact N|]. split; [now apply le_refl|contradiction].
  - assert (Nx : is_nan (measure f x + wp)%js = false) by (apply M; now left).
    destruct (IH (max_line measure f wp w x)) as (N' & L' & A'); [unfold max_line; now rewrite is_nan_max, N, Nx|auto using in_cons|].
    split; [exact N'|]. split.
    + eapply le_trans; [|exact L']. now apply le_max_l.
    + intros t [<-|I]; [|auto]. eapply le_trans; [|exact L']. now apply le_max_r.
Qed.

(** The tooltip is wide enough: inside its padding there is room for every line
    of the title, the body (with its colour box) and the footer. *)
Theorem tooltip_wide_enough measure t o :
  (forall f line, is_nan (measure f line + 0)%js = false /\ is_nan (measure f line + color_padding o)%js = false) ->
  exists inner, fst (getTooltipSize measure t o) = (inner + pwidth (tpadding o))%js /\
    (forall line, In line (title t) -> le (measure (fstring (titleFont o)) line + 0)%js inner = true) /\
    (forall line, In line (beforeBody t ++ afterBody t) -> le (measure (fstring (bodyFont o)) line + 0)%js inner = true) /\
    (forall b line, In b (body t) -> In line (before b ++ lines b ++ after b) ->
       le (measure (fstring (bodyFont o)) line + color_padding o)%js inner = true) /\
    (forall line, In line (footer t) -> le (measure (fstring (footerFont o)) line + 0)%js inner = true).
Proof.
  intros M. exists (text_width measure t o). split; [reflexivity|]. unfold text_width. cbn zeta.
  set (w0 := fold_left _ (title t) _). set (w1 := fold_left _ (beforeBody t ++ afterBody t) w0).
  set (bl := List.concat _). set (w2 := fold_left _ bl w1). set (w3 := fold_left _ (footer t) w2).
  destruct (max_line_le measure (fstring (titleFont o)) 0%js (title t) 0%js) as (N0 & _ & A0); [reflexivity|intros; apply M|].
  destruct (max_line_le measure (fstring (bodyFont o)) 0%js (beforeBody t ++ afterBody t) w0) as (N1 & L1 & A1);
    [exact N0|intros; apply M|].
  destruct (max_line_le measure (fstring (bodyFont o)) (color_padding o) bl w1) as (N2 & L2 & A2); [exact N1|intros; apply M|].
  destruct (max_line_le measure (fstring (footerFont o)) 0%js (footer t) w2) as (_ & L3 & A3); [exact N2|intros; apply M|].
  change (le w0 w1 = true) in L1. change (le w1 w2 = true) in L2. change (le w2 w3 = true) in L3.
  split; [|split; [|split]].
  - intros line I. eapply le_trans; [exact (A0 _ I)|]. eapply le_trans; [exact L1|]. eapply le_trans; eauto.
  - intros line I. eapply le_trans; [exact (A1 _ I)|]. eapply le_trans; eauto.
  - intros b line I J. eapply le_trans; [|exact L3]. apply A2. unfold bl. apply in_concat. eexists. split; [|exact J].
    exact (in_map (fun b => before b ++ lines b ++ after b) _ _ I).
  - exact A3.
Qed.

Definition demo_options : options :=
  let f := mkTfont 14%js "12px" in
  mkOptions f f f (mkPadding (mkTRBL 6%js 6%js 6%js 6%js) 12%js 12%js) 12%js 12%js 1%js true 2%js 6%js 2%js 2%js 6%js 5%js 2%js
    (JsValue.VNum 6%js) EmptyString EmptyString.
Lemma background_inside_witness :
  let p := getBackgroundPoint demo_options (mkSize 2%js 50%js 60%js 30%js EmptyString EmptyString) ("right", "center")%string
             (mkChart 400%js 200%js 20%js 380%js) in
  le 0%js (x p) = true /\ le (x p) (400 - 60)%js = true.
Proof.
  apply (background_inside demo_options (mkSize 2%js 50%js 60%js 30%js EmptyString EmptyString)
           (mkChart 400%js 200%js 20%js 380%js) "center" ("right", "center")%string); vm_compute; reflexivity.
Defined.
End TooltipFacts.
