(* ===== verification/Ticks.v ===== *)
(** Number formats and the default tick formatters of webui/public/chart.js: the cache of
    [Intl.NumberFormat] objects, and what the [values], [numeric] and [logarithmic]
    formatters ask of it.

    [Intl.NumberFormat] and [JSON.stringify] are the language's and are arguments.

    Proved: formatting through the cache is formatting without it, and the formatters ask
    for a number of fraction digits that [Intl.NumberFormat] accepts. *)
From Stdlib Require Import ZArith Lia Bool List Ascii String.
From Stdlib Require Import SpecFloat.
From stdpp Require Import base list strings.
From S2P Require Import Prelude JsNumber JsString NumExact JsValue HelpersCore.
Import ListNotations.
Open Scope Z_scope.

(** ** Formats *)
Module Intl.
Import Obj Js.
Section Formats.
(** A formatter is made of a locale and options; [json] is [JSON.stringify]. *)
Context {F : Type} (NumberFormat : string -> obj -> F) (format : F -> num -> string) (json : obj -> string).
Definition cache := list (string * F).
Fixpoint lookup (c : cache) (k : string) : option F :=
  match c with [] => None | (k', f) :: r => if String.eqb k k' then Some f else lookup r k end.
Definition getNumberFormat (c : cache) (locale : string) (options : option obj) : cache * F :=
  let options := match options with Some o => o | None => [] end in
  let cacheKey := (locale ++ json options)%string in
  match lookup c cacheKey with
  | Some f => (c, f)
  | None => let f := NumberFormat locale options in ((cacheKey, f) :: c, f)
  end.
Definition formatNumber (c : cache) (n : num) (locale : string) (options : option obj) : cache * string :=
  let '(c, f) := getNumberFormat c locale options in (c, format f n).
End Formats.
End Intl.

(** ** Formatters *)
Module Ticks.
Import Obj Js.
Local Open Scope js_scope.

(** A value's label: an array is kept, anything else becomes text. *)
Definition values (v : value) : value := match v with VArr _ => v | _ => VStr (to_str v) end.

(** [ticks] are the values of the ticks; NaN where there is none. *)
Definition at_ (ticks : list num) (i : nat) : num := match ticks !! i with Some v => v | None => Num.nan end.
Definition calculateDelta (tickValue : num) (ticks : list num) : num :=
  let delta := if Nat.ltb 3 (List.length ticks) then at_ ticks 2 - at_ ticks 1 else at_ ticks 1 - at_ ticks 0 in
  if (1 <=? Num.abs delta) && negb (tickValue =? Num.floor tickValue) then tickValue - Num.floor tickValue else delta.

(** What is asked of [Intl.NumberFormat]. *)
Record request := mkRequest { notation : option string; minimumFractionDigits : num; maximumFractionDigits : num }.
Section Lib.
Context `{MathLib}.
Definition numeric_request (tickValue : num) (ticks : list num) : request :=
  let '(notation, delta) :=
    if Nat.ltb 1 (List.length ticks) then
      let maxTick := Num.max (Num.abs (at_ ticks 0)) (Num.abs (at_ ticks (List.length ticks - 1))) in
      (if (maxTick <? 1e-4) || (1e15 <? maxTick) then Some "scientific"%string else None, calculateDelta tickValue ticks)
    else (None, tickValue) in
  let logDelta := math_log10 (Num.abs delta) in
  let numDecimal := Num.max (Num.min ((- (1 : num)) * Num.floor logDelta) 20) 0 in
  mkRequest notation numDecimal numDecimal.
(** The options: those of the request, under those of [ticks.format]. *)
Definition request_options (r : request) (own : obj) : obj :=
  fold_left (fun o kv => put (fst kv) (snd kv) o) own
    [("notation", match notation r with Some s => VStr s | None => Undefined end);
     ("minimumFractionDigits", VNum (minimumFractionDigits r)); ("maximumFractionDigits", VNum (maximumFractionDigits r))]%string.

(** [formatNumber] with the chart's locale. *)
Context (formatNumber : num -> obj -> string) (own : obj).
Definition numeric (tickValue : num) (ticks : list num) : string :=
  if tickValue =? 0 then "0" else formatNumber tickValue (request_options (numeric_request tickValue ticks) own).
Definition logarithmic (tickValue : num) (ticks : list num) : string :=
  if tickValue =? 0 then "0"
  else
    let remain := tickValue / math_pow 10 (Num.floor (math_log10 tickValue)) in
    if (remain =? 1) || (remain =? 2) || (remain =? 5) then numeric tickValue ticks else "".
End Lib.
End Ticks.

(** ** Facts *)
Module TicksFacts.
Import Num NumFacts Obj Js Ticks.
Local Open Scope js_scope.

(** *** The cache *)
Section Cached.
Context {F : Type} (NumberFormat : string -> obj -> F) (format : F -> num -> string) (json : obj -> string).
(** Options with the same JSON make the same format, and a locale has no brace, with which
    every JSON of an object begins. *)
Hypothesis json_decides : forall l o o', json o = json o' -> NumberFormat l o = NumberFormat l o'.
Hypothesis json_brace : forall o, exists r, json o = String "{" r.
Fixpoint no_brace (s : string) : bool := match s with EmptyString => true | String c r => negb (Ascii.eqb c "{") && no_brace r end.
(** The cache was filled by calls with such locales. *)
Definition filled (c : Intl.cache (F := F)) : Prop :=
  forall k f, Intl.lookup c k = Some f -> exists l o, no_brace l = true /\ k = (l ++ json o)%string /\ f = NumberFormat l o.
Lemma key_split l l' r r' : no_brace l = true -> no_brace l' = true -> (l ++ String "{" r)%string = (l' ++ String "{" r')%string ->
  l = l' /\ r = r'.
Proof.
  revert l'. induction l as [|c l IH]; intros [|c' l'] N N' E; cbn in *.
  - injection E as ->. auto.
  - injection E as <- _. discriminate.
  - injection E as -> _. discriminate.
  - apply andb_true_iff in N as [_ N], N' as [_ N']. injection E as -> E. destruct (IH l' N N' E) as [-> ->]. auto.
Qed.
Lemma format_found c l o : filled c -> no_brace l = true ->
  let '(c', f) := Intl.getNumberFormat NumberFormat json c l o in
  f = NumberFormat l (match o with Some o => o | None => [] end) /\ filled c'.
Proof.
  intros Fi N. unfold Intl.getNumberFormat. set (o' := match o with Some o => o | None => [] end).
  destruct (Intl.lookup c (l ++ json o')) as [f|] eqn:L.
  - split; [|exact Fi]. destruct (Fi _ _ L) as (l2 & o2 & N2 & K & ->). destruct (json_brace o') as [r R], (json_brace o2) as [r2 R2].
    rewrite R, R2 in K. destruct (key_split _ _ _ _ N N2 K) as [<- <-]. apply json_decides. congruence.
  - split; [reflexivity|]. intros k f. cbn [Intl.lookup]. destruct (String.eqb_spec k (l ++ json o')) as [->|Ne]; [|apply Fi].
    intros E. injection E as <-. eauto 6.
Qed.
(** What a series of calls prints. *)
Fixpoint prints (c : Intl.cache (F := F)) (calls : list (num * string * option obj)) : list string :=
  match calls with
  | [] => []
  | (n, l, o) :: rest => let '(c, s) := Intl.formatNumber NumberFormat format json c n l o in s :: prints c rest
  end.
(** The cache of formats is transparent: whatever numbers are formatted, with whatever
    options and locales, each is printed by the format of its own locale and options. *)
Theorem format_cache_transparent calls : (forall n l o, In (n, l, o) calls -> no_brace l = true) ->
  prints [] calls = List.map (fun c => let '(n, l, o) := c in format (NumberFormat l (match o with Some o => o | None => [] end)) n) calls.
Proof.
  assert (G : forall calls c, filled c -> (forall n l o, In (n, l, o) calls -> no_brace l = true) ->
    prints c calls = List.map (fun c => let '(n, l, o) := c in format (NumberFormat l (match o with Some o => o | None => [] end)) n) calls).
  { clear calls. induction calls as [|[[n l] o] calls IH]; intros c Fi N; [reflexivity|]. cbn [prints List.map]. unfold Intl.formatNumber.
    pose proof (format_found c l o Fi (N n l o (or_introl eq_refl))) as P.
    destruct (Intl.getNumberFormat NumberFormat json c l o) as [c' f]. destruct P as [-> Fi']. f_equal.
    apply IH; [exact Fi'|]. intros n' l' o' I. apply (N n' l' o'). now right. }
  apply G. intros k f E. discriminate.
Qed.
End Cached.

(** *** Digits *)
Lemma digits_range `{MathLib} d : is_nan (math_log10 (abs d)) = false ->
  let n := max (min ((- (1 : num)) * floor (math_log10 (abs d))) 20) 0 in le 0 n = true /\ le n 20 = true.
Proof.
  intros N. set (x := (- (1 : num)) * floor (math_log10 (abs d))). cbn zeta.
  assert (Nx : is_nan x = false).
  { unfold x. change (- (1 : num)) with (S754_finite true 4503599627370496 (-52)). now rewrite NumExact.nan_mul_finite, NumExact.nan_floor. }
  assert (Nm : is_nan (min x 20) = false) by now rewrite is_nan_min, Nx.
  split; [apply le_max_r; [exact Nm|reflexivity]|]. apply max_lub; [apply min_le_r; [exact Nx|reflexivity]|reflexivity].
Qed.
(** The number of fraction digits that the numeric formatter asks for is always one that
    [Intl.NumberFormat] accepts: as long as the logarithm of the step between the ticks is
    a number, even for a step of zero, an infinite or a tiny one, it lies from 0 to 20, and
    as much is asked at least as at most. *)
Theorem digits_accepted `{MathLib} tickValue ticks :
  is_nan (math_log10 (abs (if Nat.ltb 1 (List.length ticks) then calculateDelta tickValue ticks else tickValue))) = false ->
  let r := numeric_request tickValue ticks in
  le 0 (minimumFractionDigits r) = true /\ le (minimumFractionDigits r) 20 = true /\ maximumFractionDigits r = minimumFractionDigits r.
Proof.
  intros N. unfold numeric_request. destruct (Nat.ltb 1 _); cbn [minimumFractionDigits maximumFractionDigits];
    destruct (digits_range _ N) as [A B]; auto.
Qed.

(** *** Examples *)
#[local] Instance log_math : MathLib := {
  math_pow x y := x; math_log10 x := if lt x 1 then of_Z (-2) else of_Z 1; math_sin x := 0; math_cos x := 1; math_atan2 y x := y }.
Lemma digits_accepted_witness :
  let r := numeric_request 0.25 [0; 0.25; 0.5; 0.75] in
  le (minimumFractionDigits r) 20 = true /\ minimumFractionDigits r = 2.
Proof.
  split; [|vm_compute; reflexivity]. apply (digits_accepted 0.25 [0; 0.25; 0.5; 0.75]). vm_compute. reflexivity.
Defined.
Definition demo_json (o : obj) : string := match o with [] => "{}" | _ => "{x}" end.
Definition demo_format (l : string) (o : obj) : string := (l ++ match o with [] => "" | _ => "x" end)%string.
Lemma format_cache_transparent_witness :
  prints (F := string) demo_format (fun f _ => f) demo_json []
    [(1, "en", None); (2, "de", Some [("notation"%string, Null)]); (3, "en", Some [])]%string = ["en"; "dex"; "en"]%string.
Proof.
  refine (eq_trans (format_cache_transparent demo_format (fun f _ => f) demo_json _ _ _ _) _).
  - intros l [|] [|] E; try discriminate; reflexivity.
  - intros [|x o]; eexists; reflexivity.
  - intros n l o [E|[E|[E|[]]]]; injection E as _ <- _; reflexivity.
  - reflexivity.
Defined.
End TicksFacts.
