(* ===== verification/Scale.v ===== *)
(** Scales of webui/public/chart.js: tick skipping, the bounds and the pixel
    mapping of [Scale], labels of [CategoryScale], ranges and tick generation of
    the linear scales. *)
From Stdlib Require Import ZArith Lia Bool List Ascii String Sorted.
From Stdlib Require Import SpecFloat.
From stdpp Require Import base list.
From S2P Require Import Prelude JsNumber JsString NumExact JsArray JsValue HelpersCore HelpersMath Options.
Import ListNotations.
Open Scope Z_scope.

(** ** Skipping ticks; results are the indices of the ticks that stay. *)
Module AutoSkip.
Import MathH.

Definition getMajorIndices (majors : list bool) : list Z :=
  omap id (imap (fun i (m : bool) => if m then Some (Z.of_nat i) else None) majors).

Definition range (a b : Z) : list Z := List.map (fun k => a + Z.of_nat k) (seq 0 (Z.to_nat (b - a))).

(** [skipMajors]: every [spacing]-th major index. *)
Fixpoint majors_loop (is_ : list Z) (majorIndices : list Z) (spacing : num) (count : Z) (next : option Z) : list Z :=
  match is_ with
  | [] => []
  | i :: rest =>
      if match next with Some n => i =? n | None => false end then
        i :: majors_loop rest majorIndices spacing (count + 1)
               (nthZ majorIndices (Num.trunc_Z (Num.of_Z (count + 1) * spacing)%js))
      else majors_loop rest majorIndices spacing count next
  end.
Definition skipMajors (length : Z) (majorIndices : list Z) (spacing : num) : list Z :=
  majors_loop (range 0 length) majorIndices (Num.ceil spacing) 0 (head majorIndices).

(** [Math.round(start + count * spacing)]. *)
Definition next_at (start count : Z) (spacing : num) : num :=
  Num.round (Num.of_Z start + Num.of_Z count * spacing)%js.
(** Advance while [next] is negative; None: [fuel] steps are not enough. *)
Fixpoint advance (fuel : nat) (start count : Z) (spacing next : num) : option (Z * num) :=
  match fuel with
  | O => None
  | S f => if Num.lt next 0%js then advance f start (count + 1) spacing (next_at start (count + 1) spacing)
           else Some (count, next)
  end.
Fixpoint pick (is_ : list Z) (start count : Z) (spacing next : num) : list Z :=
  match is_ with
  | [] => []
  | i :: rest => if Num.eq (Num.of_Z i) next
                 then i :: pick rest start (count + 1) spacing (next_at start (count + 1) spacing)
                 else pick rest start count spacing next
  end.
(** [skip] on [length] ticks; [majorStart] and [majorEnd] may be undefined. *)
Definition skip (fuel : nat) (length : Z) (spacing : num) (majorStart majorEnd : option Z) : option (list Z) :=
  let start := match majorStart with Some s => s | None => 0 end in
  let end_ := Z.min (match majorEnd with Some e => e | None => length end) length in
  let spacing := Num.ceil spacing in
  let spacing :=
    match majorEnd with
    | Some e => if e =? 0 then spacing else
                let len := Num.of_Z (e - start) in (len / Num.floor (len / spacing))%js
    | None => spacing
    end in
  match advance fuel start 0 spacing (Num.of_Z start) with
  | Some (count, next) => Some (pick (range (Z.max start 0) end_) start count spacing next)
  | None => None
  end.

(** [getEvenSpacing]: zero stands for false. *)
Fixpoint even_from (l : list Z) (diff prev : Z) : bool :=
  match l with [] => true | x :: r => (x - prev =? diff) && even_from r diff x end.
Definition getEvenSpacing (arr : list Z) : Z :=
  match arr with
  | a :: b :: r => if even_from (b :: r) a a then a else 0
  | _ => 0
  end.
Definition calculateSpacing (majorIndices : list Z) (length : Z) (ticksLimit : num) : num :=
  let even := getEvenSpacing majorIndices in
  let spacing := (Num.of_Z length / ticksLimit)%js in
  if even =? 0 then Num.max spacing 1%js
  else match List.find (fun f => Num.lt spacing f) (removelast (_factorize (Num.of_Z even))) with
       | Some f => f
       | None => Num.max spacing 1%js
       end.
Definition determineMaxTicks (offset : bool) (tickLength length maxLength : num) : num :=
  let maxScale := (length / tickLength + (if offset then 0 else 1))%js in
  Num.floor (Num.min maxScale (maxLength / tickLength)%js).

Definition append {A} (a b : option (list A)) : option (list A) :=
  match a, b with Some x, Some y => Some (x ++ y) | _, _ => None end.
Fixpoint between_majors (fuel : nat) (length : Z) (spacing : num) (l : list Z) : option (list Z) :=
  match l with
  | a :: (b :: _) as r => append (skip fuel length spacing (Some a) (Some b)) (between_majors fuel length spacing r)
  | _ => Some []
  end.
Definition autoSkip (fuel : nat) (majorEnabled : bool) (majors : list bool) (ticksLimit : num) : option (list Z) :=
  let length := lengthZ majors in
  let majorIndices := if majorEnabled then getMajorIndices majors else [] in
  let n := lengthZ majorIndices in
  if Num.lt ticksLimit (Num.of_Z n) then
    Some (skipMajors length majorIndices (Num.of_Z n / ticksLimit)%js)
  else
    let spacing := calculateSpacing majorIndices length ticksLimit in
    match majorIndices with
    | [] => skip fuel length spacing None None
    | first :: _ =>
        let last := List.last majorIndices first in
        let avg := if 1 <? n then Some (Num.trunc_Z (Num.round (Num.of_Z (last - first) / Num.of_Z (n - 1))%js)) else None in
        append (skip fuel length spacing (Some (match avg with Some a => first - a | None => 0 end)) (Some first))
          (append (between_majors fuel length spacing majorIndices)
             (skip fuel length spacing (Some last) (Some (match avg with Some a => last + a | None => length end))))
    end.

(** [sample]: the items at multiples of [len / numItems]. *)
Fixpoint sample_loop {A} (fuel : nat) (arr : list A) (i increment : num) : option (list (option A)) :=
  match fuel with
  | O => None
  | S f => if Num.lt i (Num.of_Z (lengthZ arr)) then
             match sample_loop f arr (i + increment)%js increment with
             | Some r => Some (nthZ arr (Num.trunc_Z (Num.floor i)) :: r)
             | None => None
             end
           else Some []
  end.
Definition sample {A} (fuel : nat) (arr : list A) (numItems : num) : option (list (option A)) :=
  sample_loop fuel arr 0%js (Num.of_Z (lengthZ arr) / numItems)%js.
End AutoSkip.

(** ** The base class *)
Module ScaleBase.
Import Js Core MathH Options.

Record user := mkUser { _userMin : value; _userMax : value; _suggestedMin : value; _suggestedMax : value }.
Record bounds := mkBounds { min : value; max : value; minDefined : bool; maxDefined : bool }.
Definition inf : value := VNum Num.infinity.
Definition ninf : value := VNum (Num.opp Num.infinity).
Definition getUserBounds (u : user) : bounds :=
  let umin := finiteOrDefault (_userMin u) inf in
  let umax := finiteOrDefault (_userMax u) ninf in
  let smin := finiteOrDefault (_suggestedMin u) inf in
  let smax := finiteOrDefault (_suggestedMax u) ninf in
  mkBounds (finiteOrDefault umin smin) (finiteOrDefault umax smax) (isNumberFinite umin) (isNumberFinite umax).

(** The extremes with the ranges of the datasets on the scale. *)
Definition getMinMax (b : bounds) (ranges : list (num * num)) : value * value :=
  if minDefined b && maxDefined b then (min b, max b) else
  let mn := fold_left (fun m r => if minDefined b then m else Num.min m (fst r)) ranges (to_num (min b)) in
  let mx := fold_left (fun m r => if maxDefined b then m else Num.max m (snd r)) ranges (to_num (max b)) in
  let mn' := if maxDefined b && Num.lt mx mn then mx else mn in
  let mx' := if minDefined b && Num.lt mx mn' then mn' else mx in
  (finiteOrDefault (VNum mn') (finiteOrDefault (VNum mx') (VNum mn')),
   finiteOrDefault (VNum mx') (finiteOrDefault (VNum mn') (VNum mx'))).

(** Position and size; horizontal scales run left to right, vertical ones bottom
    to top. *)
Record geometry := mkGeometry {
  _startPixel : num; _endPixel : num; _reversePixels : bool; _length : num; _alignToPixels : bool }.
Definition isHorizontal (axis position : string) : bool :=
  String.eqb position "top" || String.eqb position "bottom" || String.eqb axis "x".
Definition configure (horizontal reverse align : bool) (left right top bottom : num) : geometry :=
  let '(s, e, r) := if horizontal then (left, right, reverse) else (top, bottom, negb reverse) in
  mkGeometry s e r (e - s)%js align.
Definition getPixelForDecimal (g : geometry) (devicePixelRatio decimal : num) : num :=
  let decimal := if _reversePixels g then (1 - decimal)%js else decimal in
  let pixel := (_startPixel g + decimal * _length g)%js in
  _int16Range (if _alignToPixels g then _alignPixel devicePixelRatio pixel 0%js else pixel).
Definition getDecimalForPixel (g : geometry) (pixel : num) : num :=
  let decimal := ((pixel - _startPixel g) / _length g)%js in
  if _reversePixels g then (1 - decimal)%js else decimal.
Definition getBaseValue (min max : num) : num :=
  if Num.lt min 0%js && Num.lt max 0%js then max
  else if Num.lt 0%js min && Num.lt 0%js max then min
  else 0%js.

(** [getPixelForGridLine]; [pixel] is [getPixelForTick]. *)
Definition getPixelForGridLine (g : geometry) (pixel : Z -> num) (length index : Z) (offsetGridLines : bool) : option num :=
  let validIndex := Z.min index (length - 1) in
  let lineValue := pixel validIndex in
  if offsetGridLines then
    let offset :=
      if length =? 1 then Num.max (lineValue - _startPixel g)%js (_endPixel g - lineValue)%js
      else if index =? 0 then ((pixel 1%Z - lineValue) / 2)%js
      else ((lineValue - pixel (validIndex - 1)%Z) / 2)%js in
    let lineValue := if validIndex <? index then (lineValue + offset)%js else (lineValue - offset)%js in
    if Num.lt lineValue (_startPixel g - 1e-6)%js || Num.lt (_endPixel g + 1e-6)%js lineValue
    then None else Some lineValue
  else Some lineValue.

Section Lib.
Context `{MathLib}.
Definition _tickSize (horizontal : bool) (labelRotation padding : num) (sizes : option (num * num)) : num :=
  let rot := toRadians labelRotation in
  let cos := Num.abs (math_cos rot) in
  let sin := Num.abs (math_sin rot) in
  let w := match sizes with Some (w, _) => (w + padding)%js | None => 0%js end in
  let h := match sizes with Some (_, h) => (h + padding)%js | None => 0%js end in
  if horizontal then if Num.lt (w * sin)%js (h * cos)%js then (w / cos)%js else (h / sin)%js
  else if Num.lt (h * sin)%js (w * cos)%js then (h / cos)%js else (w / sin)%js.
End Lib.
End ScaleBase.

(** ** Categories *)
Module Category.
Import Js Core MathH.

(** [===] between a label and a raw value. *)
Definition same (a b : value) : bool :=
  match a, b with
  | VStr x, VStr y => String.eqb x y
  | VNum x, VNum y => Num.eq x y
  | VBool x, VBool y => Bool.eqb x y
  | Null, Null | Undefined, Undefined => true
  | _, _ => false
  end.
Fixpoint index_of (l : list value) (v : value) (i : Z) : option Z :=
  match l with [] => None | x :: r => if same x v then Some i else index_of r v (i + 1) end.
Definition indexOf (l : list value) (v : value) : option Z := index_of l v 0.
Definition lastIndexOf (l : list value) (v : value) : option Z :=
  match indexOf (List.rev l) v with Some i => Some (lengthZ l - 1 - i) | None => None end.

(** The labels and [_addedLabels]. *)
Record scale := mkScale { labels : list value; _addedLabels : list (Z * string) }.

(** An index as the code passes it: a number, null, or some other value. *)
Definition addIfString (s : scale) (raw idx : value) : scale * value :=
  match raw with
  | VStr r => (mkScale (labels s ++ [raw]) ((lengthZ (labels s), r) :: _addedLabels s), VNum (Num.of_Z (lengthZ (labels s))))
  | _ => (s, if Num.is_nan (to_num raw) then Null else idx)
  end.
Definition findOrAddLabel (s : scale) (raw idx : value) : scale * value :=
  match indexOf (labels s) raw with
  | None => addIfString s raw idx
  | Some first =>
      let last := match lastIndexOf (labels s) raw with Some l => l | None => -1 end in
      (s, if negb (first =? last) then idx else VNum (Num.of_Z first))
  end.
Definition validIndex (idx : value) (max : num) : value :=
  match idx with
  | Null => Null
  | _ => VNum (_limitValue (Num.round (to_num idx)) 0%js max)
  end.
Definition label_at (l : list value) (i : num) : value :=
  if Num.eq (Num.floor i) i && Num.le 0%js i
  then match nthZ l (Num.trunc_Z i) with Some v => v | None => Undefined end else Undefined.
(** [parse(raw, index)]: the labels may grow. *)
Definition parse (s : scale) (raw idx : value) : scale * value :=
  if isNullOrUndef raw then (s, Null) else
  let i := to_num idx in
  let '(s, idx) :=
    if match idx with Null => false | _ => Num.is_finite i && same (label_at (labels s) i) raw end then (s, idx)
    else findOrAddLabel s raw (valueOrDefault idx raw) in
  (s, validIndex idx (Num.of_Z (lengthZ (labels s) - 1))).

(** [labels.splice(index, 1)] for an index in range. *)
Definition remove_at (l : list value) (i : Z) : list value := firstn (Z.to_nat i) l ++ skipn (S (Z.to_nat i)) l.
Definition init_labels (s : scale) : scale :=
  mkScale (fold_left (fun l p => match nthZ l (fst p) with
                                 | Some (VStr x) => if String.eqb x (snd p) then remove_at l (fst p) else l
                                 | _ => l end) (_addedLabels s) (labels s)) [].

Definition determineDataLimits (ticksBounds minDefined maxDefined : bool) (minmax : num * num) (length : Z) : num * num :=
  let '(mn, mx) := minmax in
  if ticksBounds then (if minDefined then mn else 0%js, if maxDefined then mx else Num.of_Z (length - 1)) else (mn, mx).
(** [buildTicks] for whole [min] and [max]: the values, [_valueRange], [_startValue]. *)
Definition buildTicks (length mn mx : Z) (offset : bool) : list Z * num * num :=
  let shown := if (mn =? 0) && (mx =? length - 1) then length else Z.max 0 (Z.min (mx + 1) length - mn) in
  (AutoSkip.range mn (mx + 1),
   Num.max (Num.of_Z (shown - (if offset then 0 else 1))) 1%js,
   (Num.of_Z mn - (if offset then 0.5 else 0))%js).
Definition getLabelForValue (l : list value) (v : num) : value :=
  if Num.le 0%js v && Num.lt v (Num.of_Z (lengthZ l)) then label_at l v else VNum v.
(** A value that is not a number is parsed, which may add a label. *)
Definition getPixelForValue (pixelForDecimal : num -> num) (startValue valueRange : num) (s : scale) (v : value)
  : scale * num :=
  let '(s, v) := match v with VNum _ => (s, v) | _ => parse s v Undefined end in
  (s, match v with Null => Num.nan | _ => pixelForDecimal ((to_num v - startValue) / valueRange)%js end).
(** The pixel of a tick; None is null. *)
Definition getPixelForTick (pixelForDecimal : num -> num) (startValue valueRange : num) (s : scale) (ticks : list num)
  (index : Z) : option num :=
  if (index <? 0) || (lengthZ ticks - 1 <? index) then None
  else match nthZ ticks index with
       | Some v => Some (snd (getPixelForValue pixelForDecimal startValue valueRange s (VNum v)))
       | None => None end.
Definition getValueForPixel (decimalForPixel : num -> num) (startValue valueRange pixel : num) : num :=
  Num.round (startValue + decimalForPixel pixel * valueRange)%js.
End Category.

(** ** Linear scales *)
Module Linear.
Import Js MathH.
Local Open Scope js_scope.

(** [parse]: null for nothing and for a number that is not finite. *)
Definition parse (raw : value) : option num :=
  match raw with
  | Undefined | Null => None
  | VNum x => if Num.is_finite x then Some x else None
  | _ => Some (to_num raw)
  end.

Definition MAX_SAFE_INTEGER : num := 9007199254740991.
Definition handleTickRangeOptions (beginAtZero minDefined maxDefined : bool) (min max : num) : num * num :=
  let setMin mn v := if minDefined then mn else v in
  let setMax mx v := if maxDefined then mx else v in
  let '(mn, mx) :=
    if beginAtZero then
      let minSign := Num.sign min in
      let maxSign := Num.sign max in
      if (minSign <? 0) && (maxSign <? 0) then (min, setMax max 0)
      else if (minSign >? 0) && (maxSign >? 0) then (setMin min 0, max)
      else (min, max)
    else (min, max) in
  if mn =? mx then
    let offset := if (mx >=? MAX_SAFE_INTEGER) || (mn <=? - MAX_SAFE_INTEGER) then Num.abs (mx * 0.05) else 1 in
    let mx' := setMax mx (mx + offset) in
    (if beginAtZero then mn else setMin mn (mn - offset), mx')
  else (mn, mx).

(** [determineDataLimits] of a linear scale. *)
Definition determineDataLimits (beginAtZero minDefined maxDefined : bool) (min max : num) : num * num :=
  handleTickRangeOptions beginAtZero minDefined maxDefined
    (if Num.is_finite min then min else 0) (if Num.is_finite max then max else 1).

Definition truthy (x : num) : bool := negb (Num.is_nan x || (x =? 0)).
(** [getTickLimit]; absent options are NaN. *)
Definition getTickLimit (maxTicksLimit stepSize min max computed : num) : num :=
  let '(maxTicks, limit) :=
    if truthy stepSize then
      let n := Num.ceil (max / stepSize) - Num.floor (min / stepSize) + 1 in
      (if n >? 1000 then 1000 else n, maxTicksLimit)
    else (computed, if truthy maxTicksLimit then maxTicksLimit else 11) in
  if truthy limit then Num.min limit maxTicks else maxTicks.

Section Lib.
Context `{MathLib}.

Definition computeTickLimit (horizontal : bool) (length minRotation lineHeight : num) : num :=
  let rad := toRadians minRotation in
  let ratio := if horizontal then math_sin rad else math_cos rad in
  let ratio := if truthy ratio then ratio else 0.001 in
  Num.ceil (length / Num.min 40 (lineHeight / ratio)).

Record gen_options := mkGen {
  ticks_bounds : bool; step : num; gmin : option num; gmax : option num; precision : option num;
  count : option num; maxTicks : num; maxDigits : num; horizontal : bool; minRotation : num; includeBounds : bool }.

Definition relativeLabelSize (value minSpacing : num) (o : gen_options) : num :=
  let rad := toRadians (minRotation o) in
  let ratio := if horizontal o then math_sin rad else math_cos rad in
  let ratio := if truthy ratio then ratio else 0.001 in
  let length := 0.75 * minSpacing * Num.of_nat (String.length (NumStr.print value)) in
  Num.min (minSpacing / ratio) length.

(** The ticks at [niceMin + j * spacing] for [j < numSpaces]. *)
Fixpoint tick_loop (fuel : nat) (niceMin spacing factor numSpaces : num) (j : Z) : option (list num) :=
  match fuel with
  | O => None
  | S f =>
      if Num.of_Z j <? numSpaces then
        match tick_loop f niceMin spacing factor numSpaces (j + 1)%Z with
        | Some r => Some ((Num.round ((niceMin + Num.of_Z j * spacing) * factor) / factor) :: r)
        | None => None
        end
      else Some []
  end.

(** Where the spacing and the nice ends come from. *)
Record plan := mkPlan { spacing : num; niceMin : num; niceMax : num; numSpaces : num }.
Definition plan_ticks (o : gen_options) (rmin rmax : num) : plan :=
  let unit := if truthy (step o) then step o else 1 in
  let maxSpaces := maxTicks o - 1 in
  let sp := niceNum ((rmax - rmin) / maxSpaces / unit) * unit in
  let ns := Num.ceil (rmax / sp) - Num.floor (rmin / sp) in
  let sp := if ns >? maxSpaces then niceNum (ns * sp / maxSpaces / unit) * unit else sp in
  let sp := match precision o with
            | Some p => let factor := math_pow 10 p in Num.ceil (sp * factor) / factor
            | None => sp end in
  let '(nmin, nmax) := if ticks_bounds o then (Num.floor (rmin / sp) * sp, Num.ceil (rmax / sp) * sp) else (rmin, rmax) in
  let whole :=
    match gmin o, gmax o with
    | Some mn, Some mx => truthy (step o) && almostWhole ((mx - mn) / step o) (sp / 1000)
    | _, _ => false end in
  let dflt o d := match o with Some x => x | None => d end in
  if whole then
     let mn := dflt (gmin o) nmin in
     let mx := dflt (gmax o) nmax in
     let ns := Num.round (Num.min ((mx - mn) / sp) (maxTicks o)) in
     mkPlan ((mx - mn) / ns) mn mx ns
   else match count o with
   | Some c =>
       let mn := dflt (gmin o) nmin in
       let mx := dflt (gmax o) nmax in
       mkPlan ((mx - mn) / (c - 1)) mn mx (c - 1)
   | None =>
       let ns := (nmax - nmin) / sp in
       mkPlan sp nmin nmax (if almostEquals ns (Num.round ns) (sp / 1000) then Num.round ns else Num.ceil ns)
   end.

(** The ticks before the loop, and the index it starts from. *)
Definition first_ticks (o : gen_options) (p : plan) (factor minSpacing : num) : list num * Z :=
  match gmin o with
  | None => ([], 0%Z)
  | Some mn =>
      if includeBounds o && negb (niceMin p =? mn) then
        let j := if niceMin p <? mn then 1%Z else 0%Z in
        let near := almostEquals (Num.round ((niceMin p + Num.of_Z j * spacing p) * factor) / factor) mn
                      (relativeLabelSize mn minSpacing o) in
        ([mn], if near then (j + 1)%Z else j)
      else ([], if niceMin p <? mn then 1%Z else 0%Z)
  end.
(** The tick at the end: the user's maximum replaces a tick too near to it. *)
Definition last_ticks (o : gen_options) (p : plan) (minSpacing : num) (ticks : list num) : list num :=
  match gmax o with
  | None => ticks ++ [niceMax p]
  | Some mx =>
      if includeBounds o && negb (niceMax p =? mx) then
        match ticks with
        | [] => [mx]
        | t :: _ => if almostEquals (List.last ticks t) mx (relativeLabelSize mx minSpacing o)
                    then removelast ticks ++ [mx] else ticks ++ [mx]
        end
      else if niceMax p =? mx then ticks ++ [niceMax p] else ticks
  end.
(** [generateTicks$1]; None: the decimals are not found or the ticks do not end
    within [fuel]. *)
Definition generateTicks_1 (fuel : nat) (o : gen_options) (rmin rmax : num) : option (list num) :=
  let unit := if truthy (step o) then step o else 1 in
  let minSpacing := (rmax - rmin) / (maxDigits o + 1) in
  let first_spacing := niceNum ((rmax - rmin) / (maxTicks o - 1) / unit) * unit in
  if (first_spacing <? 1e-14) && match gmin o, gmax o with None, None => true | _, _ => false end
  then Some [rmin; rmax]
  else
    let p := plan_ticks o rmin rmax in
    match _decimalPlaces fuel (spacing p), _decimalPlaces fuel (niceMin p) with
    | Some d1, Some d2 =>
        let places d := match d with Some z => Num.of_Z z | None => Num.nan end in
        let decimals := Num.max (places d1) (places d2) in
        let factor := math_pow 10 (match precision o with Some q => q | None => decimals end) in
        let p := mkPlan (spacing p) (Num.round (niceMin p * factor) / factor)
                   (Num.round (niceMax p * factor) / factor) (numSpaces p) in
        let '(ts, j) := first_ticks o p factor minSpacing in
        match tick_loop fuel (niceMin p) (spacing p) factor (numSpaces p) j with
        | Some mid => Some (last_ticks o p minSpacing (ts ++ mid))
        | None => None
        end
    | _, _ => None
    end.

(** What [buildTicks] leaves in the scale. *)
Record built := mkBuilt { bmin : num; bmax : num; bstart : num; bend : num; bticks : list num }.
Definition with_maxTicks (o : gen_options) (n : num) : gen_options :=
  mkGen (ticks_bounds o) (step o) (gmin o) (gmax o) (precision o) (count o) n (maxDigits o)
    (horizontal o) (minRotation o) (includeBounds o).
(** [dataRange] is [_range], when there is one; [tickLimit] is [getTickLimit]'s. *)
Definition buildTicks (fuel : nat) (o : gen_options) (tickLimit : num) (dataRange : option range) (min max : num)
  (reverse : bool) : option built :=
  let r := match dataRange with Some r => r | None => mkRange min max end in
  match generateTicks_1 fuel (with_maxTicks o (Num.max 2 tickLimit)) (rmin r) (rmax r) with
  | None => None
  | Some ticks =>
      let m := if ticks_bounds o then _setMinAndMaxByKey ticks (mkRange min max) else mkRange min max in
      Some (if reverse then mkBuilt (rmin m) (rmax m) (rmax m) (rmin m) (List.rev ticks)
            else mkBuilt (rmin m) (rmax m) (rmin m) (rmax m) ticks)
  end.
End Lib.

(** [configure]: the values at the two ends. *)
Definition configure (offset : bool) (ticks : Z) (min max : num) : num * num * num :=
  let o := if offset && negb (Z.eqb ticks 0) then (max - min) / Num.max (Num.of_Z (ticks - 1)%Z) 1 / 2 else 0 in
  let '(s, e) := if offset && negb (Z.eqb ticks 0) then (min - o, max + o) else (min, max) in
  (s, e, e - s).
Definition getPixelForValue (pixelForDecimal : num -> num) (startValue valueRange : num) (v : option num) : num :=
  match v with None => Num.nan | Some v => pixelForDecimal ((v - startValue) / valueRange) end.
Definition getValueForPixel (decimalForPixel : num -> num) (startValue valueRange pixel : num) : num :=
  startValue + decimalForPixel pixel * valueRange.
End Linear.

(** ** Facts *)
Module ScaleFacts.
Import Num NumFacts NumExact.

(** *** Skipping *)
Section Skipping.
Import AutoSkip.

Definition within (lo hi : Z) (l : list Z) : Prop := StronglySorted Z.lt l /\ forall i, In i l -> lo <= i < hi.

Lemma within_app a b c l m : within a b l -> within b c m -> a <= b <= c -> within a c (l ++ m).
Proof.
  intros [S1 I1] [S2 I2] L. split.
  - induction S1 as [|x l S1 IH F]; cbn; [exact S2|]. constructor.
    + apply IH. intros i I. apply I1. now right.
    + apply List.Forall_forall. intros y J. apply in_app_iff in J as [J|J].
      * rewrite List.Forall_forall in F. auto.
      * specialize (I1 x (or_introl eq_refl)). specialize (I2 y J). lia.
  - intros i J. apply in_app_iff in J as [J|J]; [specialize (I1 i J)|specialize (I2 i J)]; lia.
Qed.
Lemma within_weaken a b a' b' l : within a b l -> a' <= a -> b <= b' -> within a' b' l.
Proof. intros [S I] L1 L2. split; [exact S|]. intros i J. specialize (I i J). lia. Qed.

Lemma range_within a b : within a b (range a b).
Proof.
  unfold range. split.
  - generalize 0%nat. induction (Z.to_nat (b - a)) as [|n IH]; intros k; cbn; [constructor|]. constructor; [apply IH|].
    apply List.Forall_forall. intros x I. apply in_map_iff in I as (j & <- & I). apply in_seq in I. lia.
  - intros i I. apply in_map_iff in I as (k & <- & I). apply in_seq in I. lia.
Qed.

Lemma pick_incl is_ : forall start c sp nx i, In i (pick is_ start c sp nx) -> In i is_.
Proof.
  induction is_ as [|j r IH]; intros start c sp nx i; cbn [pick]; [auto|].
  destruct (Num.eq _ _); [intros [<-|I]; [now left|]|intros I]; right; eauto.
Qed.
Lemma pick_within a b is_ : within a b is_ -> forall start c sp nx, within a b (pick is_ start c sp nx).
Proof.
  intros [S I]. intros start c sp nx. split; [|intros i J; apply I; now apply pick_incl in J].
  clear I. revert c nx. induction S as [|j r S IH F]; intros c nx; cbn [pick]; [constructor|].
  destruct (Num.eq _ _); [|apply IH]. constructor; [apply IH|].
  rewrite List.Forall_forall in *. intros x J. apply F. now apply pick_incl in J.
Qed.

Lemma skip_within fuel len sp ms me l : skip fuel len sp ms me = Some l ->
  within (Z.max (match ms with Some s => s | None => 0 end) 0) (Z.min (match me with Some e => e | None => len end) len) l.
Proof.
  unfold skip. destruct (advance _ _ _ _ _) as [[c nx]|]; [|discriminate]. intros [= <-].
  apply pick_within, range_within.
Qed.

Lemma skip_from_to fuel len sp a b l : skip fuel len sp (Some a) (Some b) = Some l ->
  within (Z.max a 0) (Z.min b len) l.
Proof. apply skip_within. Qed.

Lemma majors_incl is_ : forall mi sp c nx i, In i (majors_loop is_ mi sp c nx) -> In i is_.
Proof.
  induction is_ as [|j r IH]; intros mi sp c nx i; cbn [majors_loop]; [auto|].
  destruct (match nx with Some n => j =? n | None => false end); [intros [<-|I]; [now left|]|intros I]; right; eauto.
Qed.
Lemma majors_within a b is_ : within a b is_ -> forall mi sp c nx, within a b (majors_loop is_ mi sp c nx).
Proof.
  intros [S I] mi sp c nx. split; [|intros i J; apply I; now apply majors_incl in J].
  clear I. revert c nx. induction S as [|j r S IH F]; intros c nx; cbn [majors_loop]; [constructor|].
  destruct (match nx with Some n => j =? n | None => false end); [|apply IH]. constructor; [apply IH|].
  rewrite List.Forall_forall in *. intros x J. apply F. now apply majors_incl in J.
Qed.

Lemma getMajorIndices_within majors : within 0 (lengthZ majors) (getMajorIndices majors).
Proof.
  unfold getMajorIndices. cut (forall k, within (Z.of_nat k) (Z.of_nat k + lengthZ majors)
    (omap id (imap (fun i (m : bool) => if m then Some (Z.of_nat (k + i)) else None) majors))); [intros C; exact (C 0%nat)|].
  induction majors as [|m r IH]; intros k; cbn.
  - split; [constructor|contradiction].
  - assert (E : imap ((fun i (b : bool) => if b then Some (Z.of_nat (k + i)) else None) ∘ S) r =
                imap (fun i (b : bool) => if b then Some (Z.of_nat (S k + i)) else None) r).
    { apply imap_ext. intros i x _. cbn. now replace (k + S i)%nat with (S (k + i)) by lia. }
    rewrite E. specialize (IH (S k)). unfold lengthZ in *. cbn [List.length] in *.
    destruct m; cbn.
    + replace (k + 0)%nat with k by lia. destruct IH as [S I]. split.
      * constructor; [exact S|]. apply List.Forall_forall. intros x J. specialize (I x J). lia.
      * intros i [<-|J]; [lia|]. specialize (I i J). lia.
    + eapply within_weaken; [exact IH|lia|lia].
Qed.

Lemma last_cons_max a l : StronglySorted Z.lt (a :: l) -> a <= List.last (a :: l) a /\ forall i, In i (a :: l) -> i <= List.last (a :: l) a.
Proof.
  revert a. induction l as [|b l IH]; intros a S; [cbn; split; [lia|intros i [<-|[]]; lia]|].
  change (List.last (a :: b :: l) a) with (List.last (b :: l) a). rewrite (list_last_indep (b :: l) a b) by discriminate.
  inversion S as [|? ? S' F]; subst. destruct (IH b S') as [H1 H2]. inversion F; subst.
  split; [lia|]. intros i [<-|I]; [lia|auto].
Qed.

Lemma between_within fuel len sp : forall l r a, StronglySorted Z.lt (a :: l) -> (forall i, In i (a :: l) -> 0 <= i < len) ->
  between_majors fuel len sp (a :: l) = Some r -> within a (List.last (a :: l) a) r.
Proof.
  induction l as [|b l IH]; intros r a S I E.
  - injection E as <-. cbn. split; [constructor|contradiction].
  - change (append (skip fuel len sp (Some a) (Some b)) (between_majors fuel len sp (b :: l)) = Some r) in E.
    destruct (skip fuel len sp (Some a) (Some b)) as [x|] eqn:X; [|discriminate]. cbn [append] in E.
    destruct (between_majors fuel len sp (b :: l)) as [y|] eqn:Y; [|discriminate]. injection E as <-.
    inversion S as [|? ? S' F]; subst. inversion F; subst.
    change (List.last (a :: b :: l) a) with (List.last (b :: l) a). rewrite (list_last_indep (b :: l) a b) by discriminate.
    pose proof (last_cons_max b l S') as [Lb _].
    apply (within_app a b).
    + eapply within_weaken; [exact (skip_from_to _ _ _ _ _ _ X)|lia|lia].
    + apply IH; auto. intros i J. apply I. now right.
    + lia.
Qed.

(** Automatic skipping only drops ticks: the ticks that stay are ticks of the
    scale, each once and in their order, with or without major ticks. *)
Theorem autoSkip_subsequence fuel enabled majors limit l :
  autoSkip fuel enabled majors limit = Some l ->
  StronglySorted Z.lt l /\ forall i, In i l -> 0 <= i < lengthZ majors.
Proof.
  unfold autoSkip. set (mi := if enabled then getMajorIndices majors else []).
  assert (M : within 0 (lengthZ majors) mi).
  { unfold mi. destruct enabled; [apply getMajorIndices_within|split; [constructor|contradiction]]. }
  clearbody mi. intros E. change (within 0 (lengthZ majors) l).
  destruct (Num.lt limit _); [injection E as <-; apply majors_within, range_within|].
  set (sp := calculateSpacing _ _ _) in E. clearbody sp. destruct mi as [|first r].
  - apply skip_within in E. cbn iota in E. eapply within_weaken; [exact E|lia|lia].
  - cbn zeta in E. set (avg := if 1 <? lengthZ (first :: r) then _ else _) in E. clearbody avg.
    set (last := List.last (first :: r) first) in *.
    destruct (skip _ _ _ (Some _) (Some first)) as [x|] eqn:X; [|discriminate]. cbn [append] in E.
    destruct (between_majors _ _ _ _) as [y|] eqn:Y; [|discriminate]. cbn [append] in E.
    destruct (skip _ _ _ (Some last) _) as [z|] eqn:Z; [|discriminate]. injection E as <-.
    destruct M as [S I]. pose proof (last_cons_max first r S) as [Lf _]. fold last in Lf.
    assert (Ll : 0 <= last < lengthZ majors) by (apply I, list_last_In; discriminate).
    pose proof (I first (or_introl eq_refl)) as If.
    apply (within_app 0 first); [eapply within_weaken; [exact (skip_from_to _ _ _ _ _ _ X)|lia|lia]| |lia].
    apply (within_app first last).
    + exact (between_within fuel (lengthZ majors) sp r y first S I Y).
    + eapply within_weaken; [exact (skip_from_to _ _ _ _ _ _ Z)|lia|destruct avg; lia].
    + lia.
Qed.

Lemma next_at_0 c s : 0 <= c -> 0 < s -> c * s < 2 ^ 53 -> s < 2 ^ 53 -> c < 2 ^ 53 ->
  next_at 0 c (of_Z s) = of_Z (c * s).
Proof.
  intros Hc Hs Hm Hs' Hc'. unfold next_at. destruct (Z.eq_dec c 0) as [->|N].
  - destruct s as [|p|p]; try lia. destruct (of_Z_finite p) as (m & e & ->); [unfold safe; lia|]. reflexivity.
  - rewrite of_Z_mul by (unfold safe; nia). rewrite of_Z_add by (unfold safe; nia). rewrite Z.add_0_l.
    apply round_of_Z. unfold safe. nia.
Qed.

Lemma pick_multiples s len : 0 < s -> 0 <= len -> len + s < 2 ^ 53 -> forall n a c, a + Z.of_nat n = len ->
  0 <= a -> 0 <= c -> (c - 1) * s < a <= c * s ->
  forall i, In i (pick (range a len) 0 c (of_Z s) (of_Z (c * s))) <-> a <= i < len /\ (s | i).
Proof.
  intros Hs Hl B. induction n as [|n IH]; intros a c E Ha Hc Lc i.
  - replace a with len by lia. unfold range. rewrite Z.sub_diag. cbn. split; [contradiction|lia].
  - assert (R : range a len = a :: range (a + 1) len).
    { unfold range. replace (Z.to_nat (len - a)) with (S n) by lia. replace (Z.to_nat (len - (a + 1))) with n by lia.
      cbn [seq List.map]. f_equal; [lia|]. rewrite <- seq_shift, List.map_map. apply List.map_ext. intros k. lia. }
    assert (Lt : c * s < 2 ^ 53) by nia. assert (Cb : c < 2 ^ 53) by nia.
    rewrite R. cbn [pick]. rewrite of_Z_eq by (unfold safe; lia). destruct (Z.eqb_spec a (c * s)) as [Ea|Na].
    + destruct (Nat.eq_dec n 0%nat) as [->|Nn].
      { replace (range (a + 1) len) with (@nil Z) by (unfold range; now replace (Z.to_nat (len - (a + 1))) with 0%nat by lia).
        cbn [pick In]. split; [intros [<-|[]]; split; [lia|exists c; lia]|intros [L _]; left; lia]. }
      assert (Lt' : (c + 1) * s < 2 ^ 53) by nia.
      rewrite next_at_0 by nia. cbn [In]. rewrite (IH (a + 1) (c + 1)) by (try nia).
      split; [intros [<-|[L D]]; [split; [lia|exists c; lia]|split; [lia|auto]]|].
      intros [L D]. destruct (Z.eq_dec i a); [left; auto|right; split; [lia|auto]].
    + rewrite (IH (a + 1) c) by (try nia). split; [intros [L D]; split; [lia|auto]|].
      intros [L D]. split; [|auto]. destruct (Z.eq_dec i a) as [->|]; [|lia]. exfalso.
      destruct D as [k ->]. assert (c - 1 < k) by nia. assert (k <= c) by nia. assert (k = c) by lia. subst. lia.
Qed.

(** Without major ticks and with a spacing that rounds up to [s], exactly the
    ticks at the multiples of [s] stay: the first one always does, and two that
    stay are at least [s] apart. *)
Theorem skip_multiples fuel len spacing s :
  (0 < fuel)%nat -> 0 < s -> 0 <= len -> len + s < 2 ^ 53 -> Num.ceil spacing = of_Z s ->
  exists l, skip fuel len spacing None None = Some l /\ forall i, In i l <-> 0 <= i < len /\ (s | i).
Proof.
  intros F Hs Hl B C. unfold skip. rewrite C. destruct fuel as [|f]; [lia|]. cbn [advance].
  change (Num.lt (of_Z 0) 0%js) with false. eexists. split; [reflexivity|].
  replace (Z.min len len) with len by lia. change (Z.max 0 0) with 0.
  change (of_Z 0) with (of_Z (0 * s)).
  apply (pick_multiples s len Hs Hl B (Z.to_nat len) 0 0); lia.
Qed.
End Skipping.

(** *** Categories *)
Section Labels.
Import Js Core Category.

(** The added labels are the last ones, newest first. *)
Definition added_ok (base : list value) (s : scale) : Prop :=
  exists strs, labels s = base ++ List.map VStr strs /\
    _addedLabels s = List.rev (imap (fun k x => (lengthZ base + Z.of_nat k, x)) strs).

Lemma parse_added base s raw idx : added_ok base s -> added_ok base (fst (parse s raw idx)).
Proof.
  intros A. unfold parse. destruct (isNullOrUndef raw); [exact A|].
  destruct (match idx with Null => false | _ => _ end); [exact A|]. unfold findOrAddLabel.
  destruct (indexOf (labels s) raw); [exact A|]. unfold addIfString. destruct raw; try exact A.
  cbn. destruct A as (strs & L & D). exists (strs ++ [s0]). cbn. rewrite L, D. split.
  - now rewrite List.map_app, <- app_assoc.
  - rewrite imap_app, List.rev_app_distr. cbn. f_equal. f_equal. unfold lengthZ. rewrite List.length_app, List.length_map.
    rewrite Nat.add_0_r. lia.
Qed.

Lemma nthZ_snoc {A} (l : list A) x : nthZ (l ++ [x]) (lengthZ l) = Some x.
Proof.
  unfold nthZ, lengthZ. destruct (Z.ltb_spec (Z.of_nat (List.length l)) 0); [lia|]. rewrite Nat2Z.id.
  rewrite List.nth_error_app2, Nat.sub_diag by lia. reflexivity.
Qed.
Lemma remove_snoc l x : remove_at (l ++ [x]) (lengthZ l) = l.
Proof.
  unfold remove_at, lengthZ. rewrite Nat2Z.id. rewrite take_app_length.
  rewrite List.skipn_all2 by (rewrite List.length_app; cbn; lia). apply app_nil_r.
Qed.

(** Labels that parsing the data added are all removed when the scale is
    initialised again: the labels are the user's own, whatever was parsed. *)
Theorem added_labels_removed base (raws : list (value * value)) :
  labels (init_labels (fold_left (fun s r => fst (parse s (fst r) (snd r))) raws (mkScale base []))) = base.
Proof.
  assert (A : added_ok base (fold_left (fun s r => fst (parse s (fst r) (snd r))) raws (mkScale base []))).
  { assert (A0 : added_ok base (mkScale base [])) by (exists []; cbn; now rewrite app_nil_r).
    revert A0. generalize (mkScale base []). induction raws as [|r l IH]; intros s A0; cbn; [exact A0|].
    apply IH. now apply parse_added. }
  destruct A as (strs & L & D). unfold init_labels. cbn [labels]. rewrite L, D. clear.
  induction strs as [|x strs IH] using rev_ind; [cbn; apply app_nil_r|].
  rewrite imap_app, List.rev_app_distr. cbn [rev imap app]. cbn [fold_left fst snd].
  rewrite List.map_app, app_assoc. cbn [List.map]. rewrite Nat.add_0_r.
  replace (lengthZ base + Z.of_nat (List.length strs)) with (lengthZ (base ++ List.map VStr strs))
    by (unfold lengthZ; rewrite List.length_app, List.length_map; lia).
  rewrite nthZ_snoc, String.eqb_refl, remove_snoc. exact IH.
Qed.
End Labels.

(** *** Linear ranges *)
Section Ranges.
Import Linear.

Lemma sign_lt_0 n : safe n -> lt (sign (of_Z n)) 0%js = (n <? 0).
Proof.
  intros S. destruct n as [|p|p]; [reflexivity| |]; rewrite of_Z_canon by auto; reflexivity.
Qed.
Lemma sign_gt_0 n : safe n -> lt 0%js (sign (of_Z n)) = (0 <? n).
Proof.
  intros S. destruct n as [|p|p]; [reflexivity| |]; rewrite of_Z_canon by auto; reflexivity.
Qed.

(** A linear scale whose ends are not fixed by the user never has an empty
    range, on whole data within 2^52: the range contains the data, its ends are
    different, and it contains zero when the scale begins at zero. *)
Theorem handleTickRange_nonempty (beginAtZero : bool) a b :
  a <= b -> Z.abs a < 2 ^ 52 -> Z.abs b < 2 ^ 52 ->
  exists c d, handleTickRangeOptions beginAtZero false false (of_Z a) (of_Z b) = (of_Z c, of_Z d) /\
    c < d /\ c <= a /\ b <= d /\ (beginAtZero = true -> c <= 0 <= d).
Proof.
  intros L Ba Bb. unfold handleTickRangeOptions.
  assert (E : exists a' b', (if beginAtZero then
      if (sign (of_Z a) <? 0)%js && (sign (of_Z b) <? 0)%js then (of_Z a, 0%js)
      else if (0 <? sign (of_Z a))%js && (0 <? sign (of_Z b))%js then (0%js, of_Z b) else (of_Z a, of_Z b)
    else (of_Z a, of_Z b)) = (of_Z a', of_Z b') /\ a' <= a /\ b <= b' /\ a' <= b' /\
    Z.abs a' < 2 ^ 52 /\ Z.abs b' < 2 ^ 52 /\ (beginAtZero = true -> a' <= 0 <= b')).
  { rewrite !sign_lt_0, !sign_gt_0 by (unfold safe; lia). change 0%js with (of_Z 0).
    destruct beginAtZero; [|exists a, b; repeat split; auto; lia || discriminate].
    destruct (Z.ltb_spec a 0), (Z.ltb_spec b 0); cbn [andb].
    - exists a, 0. repeat split; lia.
    - destruct (Z.ltb_spec 0 a); cbn [andb]; [lia|]. exists a, b. repeat split; lia.
    - lia.
    - destruct (Z.ltb_spec 0 a), (Z.ltb_spec 0 b); cbn [andb];
        [exists 0, b|lia|exists a, b|exists a, b]; repeat split; lia. }
  destruct E as (a' & b' & -> & La & Lb & Lab & Ba' & Bb' & Z0).
  rewrite of_Z_eq by (unfold safe; lia). destruct (Z.eqb_spec a' b') as [->|N].
  - assert (O : (of_Z b' >=? MAX_SAFE_INTEGER)%js || (of_Z b' <=? - MAX_SAFE_INTEGER)%js = false).
    { replace MAX_SAFE_INTEGER with (of_Z (2 ^ 53 - 1)) by (vm_compute; reflexivity).
      rewrite of_Z_opp by (unfold safe; lia). rewrite !of_Z_le by (unfold safe; lia).
      apply orb_false_iff. split; apply Z.leb_gt; lia. }
    rewrite O. change 1%js with (of_Z 1). rewrite of_Z_add by (unfold safe; lia).
    destruct beginAtZero.
    + exists b', (b' + 1). split; [reflexivity|]. specialize (Z0 eq_refl). repeat split; lia.
    + rewrite of_Z_sub by (unfold safe; lia). exists (b' - 1), (b' + 1). split; [reflexivity|]. repeat split; lia || discriminate.
  - exists a', b'. split; [reflexivity|]. split; [lia|]. split; [lia|]. split; [lia|exact Z0].
Qed.

(** The ticks of a linear scale end at the user's maximum, when there is one
    and the bounds are included. *)
Theorem generateTicks_ends_at_max `{MathLib} fuel o rmin rmax mx l :
  gmax o = Some mx -> includeBounds o = true -> Num.is_nan mx = false ->
  generateTicks_1 fuel o rmin rmax = Some l ->
  l <> [] /\ eq (List.last l nan) mx = true.
Proof.
  intros G I N. unfold generateTicks_1. rewrite G.
  assert (Deg : forall c, (c && match gmin o with Some _ => false | None => false end) = false).
  { intros c. destruct (gmin o); apply andb_false_r. }
  rewrite Deg. destruct (MathH._decimalPlaces fuel _) as [d1|]; [|discriminate].
  destruct (MathH._decimalPlaces fuel _) as [d2|]; [|discriminate].
  set (p := mkPlan _ _ _ _). destruct (first_ticks _ _ _ _) as [ts j].
  destruct (tick_loop _ _ _ _ _ _) as [mid|]; [|discriminate]. intros [= <-].
  assert (R : eq mx mx = true) by (clear -N; num_order).
  unfold last_ticks. rewrite G, I. cbn [andb]. destruct (eq (niceMax p) mx) eqn:E; cbn [negb].
  - split; [now destruct (ts ++ mid)|]. now rewrite List.last_last.
  - destruct (ts ++ mid) as [|t r]; [split; [discriminate|exact R]|].
    destruct (MathH.almostEquals _ _ _); (split; [intros X; now apply app_eq_nil in X as [_ X]|now rewrite List.last_last]).
Qed.
End Ranges.


Lemma handleTickRange_nonempty_witness :
  exists c d, Linear.handleTickRangeOptions true false false (of_Z 3) (of_Z 3) = (of_Z c, of_Z d) /\ c < d /\ c <= 0 <= d.
Proof.
  destruct (handleTickRange_nonempty true 3 3) as (c & d & E & L & _ & _ & Z); [lia|reflexivity|reflexivity|].
  exists c, d. auto.
Defined.
Lemma skip_multiples_witness :
  exists l, AutoSkip.skip 1 10 2.5%js None None = Some l /\ In 9 l.
Proof.
  destruct (skip_multiples 1 10 2.5%js 3) as (l & S & I); try lia; [vm_compute; reflexivity|].
  exists l. split; [exact S|]. apply I. split; [lia|]. now exists 3.
Defined.
End ScaleFacts.
