(* ===== verification/ScaleLayout.v ===== *)
(** The base class [Scale] of webui/public/chart.js, part two: the sizes of the tick labels
    with their caches, the rotation of the labels, the room a scale asks for, and [update].

    The subclass is an interface of operations; what the options give is a record; hooks of
    the options and of plugins are the outputs of [update].

    Proved: the measured sizes hold every label and do not depend on the caches; the rotation
    stays between the options' limits; an updated scale keeps the room it was given, and
    every tick it is left with has a label. *)
From Stdlib Require Import ZArith Lia Bool List Ascii String Sorted.
From Stdlib Require Import SpecFloat.
From stdpp Require Import base list.
From S2P Require Import Prelude JsNumber JsString JsArray JsValue HelpersCore HelpersMath Options Scale.
Import ListNotations.
Open Scope Z_scope.

Module ScaleLayout.
Import Js MathH.
Local Open Scope js_scope.

(** ** Label sizes *)

Record tick := mkTick { tvalue : num; tlabel : Options.thing; major : bool }.
Record size := mkSize { width : num; height : num }.
Record sizes := mkSizes {
  first : size; last : size; widest : size; highest : size; widths : list num; heights : list num }.

(** The caches of measured texts, one per font. *)
Abbreviation caches := (list (string * Options.cache)).
Definition garbageCollect (c : caches) (length : nat) : caches :=
  List.map (fun p => (fst p, Options.collect (snd p) length)) c.
Definition cache_at (c : caches) (font : string) : Options.cache :=
  match List.find (fun p => String.eqb font (fst p)) c with Some (_, x) => x | None => Options.mkCache [] [] (Some font) end.
Definition put_cache (c : caches) (font : string) (x : Options.cache) : caches :=
  (font, x) :: List.filter (fun p => negb (String.eqb font (fst p))) c.
Definition font_string (f : Options.font) : string :=
  match Options.fstring f with Some s => s | None => "null" end.
Definition or0 (x : num) : num := if Num.is_nan x || (x =? 0) then 0 else x.

Section Sizes.
(** [ctx.measureText(label).width] under a font. *)
Context (measure : string -> string -> num).

(** One label: the width of its longest line and the height of its lines. *)
Definition label_size (c : caches) (font : Options.font) (label : Options.thing) : caches * (num * num) :=
  let fs := font_string font in
  let '(x, w) := fold_left (Options._measureText measure fs) (Options.labels label) (cache_at c fs, 0) in
  let h := match label with
           | Options.Label _ => Options.lineHeight font
           | _ => fold_left (fun h _ => h + Options.lineHeight font) (Options.labels label) 0
           end in
  (put_cache c fs x, (w, h)).
Fixpoint label_sizes (c : caches) (fontAt : nat -> Options.font) (i : nat) (labels : list Options.thing)
    : caches * list (num * num) :=
  match labels with
  | [] => (c, [])
  | l :: rest =>
      let '(c, s) := label_size c (fontAt i) l in
      let '(c, ss) := label_sizes c fontAt (S i) rest in
      (c, s :: ss)
  end.
(** [indexOf], which uses the equality of numbers. *)
Fixpoint index_of (l : list num) (x : num) : option nat :=
  match l with [] => None | y :: r => if y =? x then Some O else option_map S (index_of r x) end.
Definition valueAt (ws hs : list num) (i : option nat) : size :=
  let at_ l := match i with Some k => match l !! k with Some x => or0 x | None => 0 end | None => 0 end in
  mkSize (at_ ws) (at_ hs).
Definition _computeLabelSizes (c : caches) (fontAt : nat -> Options.font) (labels : list Options.thing) : caches * sizes :=
  let '(c, ss) := label_sizes c fontAt 0 labels in
  let ws := List.map fst ss in
  let hs := List.map snd ss in
  let biggest l := fold_left (fun m x => Num.max x m) l 0 in
  let n := List.length labels in
  (garbageCollect c n,
   mkSizes (valueAt ws hs (Some O)) (valueAt ws hs (match n with O => None | S k => Some k end))
     (valueAt ws hs (index_of ws (biggest ws))) (valueAt ws hs (index_of hs (biggest hs))) ws hs).
End Sizes.

(** ** What the options give *)
Record tick_opts := mkTickOpts {
  display : bool; minRotation : num; maxRotation : num; tpadding : num; align : string; crossAlign : string; mirror : bool;
  labelOffset : num; maxTicksLimit : option num; sampleSize : num; autoSkip : bool; source : string; autoSkipPadding : num }.
Record grid_opts := mkGridOpts {
  gdisplay : bool; drawBorder : bool; drawOnChartArea : bool; drawTicks : bool; tickLength : num; goffset : bool;
  borderWidth : num; borderColor : string }.
(** The text of a title is a string or an array of strings. *)
Inductive text := One (s : string) | Many (l : list string).
Record title_opts := mkTitleOpts {
  t_display : bool; t_font : value; t_padding : value; t_text : text; t_align : string; t_color : string }.
(** A side or "center", or the pixel of a value on another scale. *)
Inductive position := Side (s : string) | AtValue (pixel : num).
Inductive shown := Auto | Fixed (b : bool).
Record opts := mkOpts {
  axis : string; pos : position; offset : bool; reverse : bool; shown_ : shown; alignToPixels : bool;
  ticks_ : tick_opts; grid_ : grid_opts; title_ : title_opts; backgroundColor : string }.

Definition on (o : opts) (side : string) : bool := match pos o with Side s => String.eqb s side | AtValue _ => false end.
Definition isHorizontal (o : opts) : bool := on o "top" || on o "bottom" || String.eqb (axis o) "x".
Definition getTickMarkLength (g : grid_opts) : num := if drawTicks g then tickLength g else 0.
Definition lines_of (t : text) : list string := match t with One s => [s] | Many l => l end.
Definition getTitleHeight (default : value) (t : title_opts) (fallback : value) : num :=
  if t_display t then
    Num.of_nat (List.length (lines_of (t_text t))) * Options.lineHeight (Options.toFont default (t_font t) fallback)
    + Options.pheight (Options.toPadding (t_padding t))
  else 0.
(** [metas] is the number of visible datasets on the scale. *)
Definition _isVisible (o : opts) (metas : nat) : bool :=
  match shown_ o with Auto => Nat.ltb 0 metas | Fixed b => b end.

(** ** The state *)
Record layout := mkLayout {
  left : num; right : num; top : num; bottom : num; w : num; h : num; maxWidth : num; maxHeight : num;
  pads : Options.trbl; margins : Options.trbl; labelRotation : num; _length : num; _maxLength : num }.
Definition zeros : Options.trbl := Options.mkTRBL 0 0 0 0.
(** What is drawn for a tick; made by ScaleDrawing.v and kept until the next update. *)
Record line_style := mkLineStyle { lcolor : string; lwidth : num; dash : value; dashOffset : num }.
Record coords := mkCoords { tx1 : num; ty1 : num; tx2 : num; ty2 : num; x1 : num; y1 : num; x2 : num; y2 : num }.
Record grid_item := mkGridItem { ends : coords; line_ : line_style; tick_ : line_style }.
Record backdrop := mkBackdrop { b_left : num; b_top : num; b_width : num; b_height : num; b_color : string }.
Record label_item := mkLabelItem {
  rotation : num; label : Options.thing; font : Options.font; color : string; strokeColor : string; strokeWidth : num;
  textOffset : num; textAlign : string; textBaseline : string; translation : num * num; backdrop_ : option backdrop }.

(** [own] is the state the subclass adds. *)
Record scale {E : Type} := mkScale {
  lay : layout; geometry : ScaleBase.geometry; min : num; max : num; _range : Options.minmax; _dataLimitsCached : bool;
  ticks : list tick; _labelSizes : option sizes; _gridLineItems : option (list grid_item);
  _labelItems : option (list label_item); _ticksLength : nat; _borderValue : num; _longestTextCache : caches; own : E }.
Arguments scale : clear implicits.

(** What a subclass defines. *)
Record subclass {E : Type} := mkSubclass {
  determineDataLimits : scale E -> E * (num * num);
  buildTicks : scale E -> E * (num * num) * list tick;
  tick_label : scale E -> list tick -> nat -> Options.thing;
  configure_own : scale E -> E;
  getPixelForValue : scale E -> num -> num }.
Arguments subclass : clear implicits.

(** What the scale reads of its chart. *)
Record chart := mkChart {
  c_width : num; c_height : num; c_font : value; default_font : value; devicePixelRatio : num; metas : nat }.

Section Setters.
Context {E : Type}.
Definition with_lay (s : scale E) (l : layout) : scale E :=
  mkScale E l (geometry s) (min s) (max s) (_range s) (_dataLimitsCached s) (ticks s) (_labelSizes s) (_gridLineItems s)
    (_labelItems s) (_ticksLength s) (_borderValue s) (_longestTextCache s) (own s).
Definition with_sizes (s : scale E) (z : option sizes) (c : caches) : scale E :=
  mkScale E (lay s) (geometry s) (min s) (max s) (_range s) (_dataLimitsCached s) (ticks s) z (_gridLineItems s)
    (_labelItems s) (_ticksLength s) (_borderValue s) c (own s).
Definition with_ticks (s : scale E) (t : list tick) : scale E :=
  mkScale E (lay s) (geometry s) (min s) (max s) (_range s) (_dataLimitsCached s) t (_labelSizes s) (_gridLineItems s)
    (_labelItems s) (_ticksLength s) (_borderValue s) (_longestTextCache s) (own s).
Definition with_limits (s : scale E) (e : E) (mm : num * num) : scale E :=
  mkScale E (lay s) (geometry s) (fst mm) (snd mm) (_range s) (_dataLimitsCached s) (ticks s) (_labelSizes s)
    (_gridLineItems s) (_labelItems s) (_ticksLength s) (_borderValue s) (_longestTextCache s) e.
Definition with_range (s : scale E) (r : Options.minmax) (cached : bool) : scale E :=
  mkScale E (lay s) (geometry s) (min s) (max s) r cached (ticks s) (_labelSizes s) (_gridLineItems s)
    (_labelItems s) (_ticksLength s) (_borderValue s) (_longestTextCache s) (own s).
Definition with_geometry (s : scale E) (g : ScaleBase.geometry) : scale E :=
  mkScale E (lay s) g (min s) (max s) (_range s) (_dataLimitsCached s) (ticks s) (_labelSizes s) (_gridLineItems s)
    (_labelItems s) (_ticksLength s) (_borderValue s) (_longestTextCache s) (own s).
End Setters.
Definition with_rotation (l : layout) (r : num) : layout :=
  mkLayout (left l) (right l) (top l) (bottom l) (w l) (h l) (maxWidth l) (maxHeight l) (pads l) (margins l) r (_length l) (_maxLength l).

(** ** Fitting *)
Section Fit.
Context `{MathLib} (math_asin : num -> num) (chart_ : chart) (o : opts).

Definition title_height : num := getTitleHeight (default_font chart_) (title_ o) (c_font chart_).
Definition visible : bool := _isVisible o (metas chart_).

(** The rotation; [z] are the label sizes, measured only when they are used. *)
Definition needs_rotation (numTicks : nat) : bool :=
  let t := ticks_ o in
  negb (negb visible || negb (display t) || Num.le (maxRotation t) (or0 (minRotation t)) || Nat.leb numTicks 1
        || negb (isHorizontal o)).
Definition rotated (l : layout) (numTicks : nat) (z : sizes) : num :=
  let t := ticks_ o in
  let minRotation := or0 (minRotation t) in
  let n := Num.of_nat numTicks in
  let maxLabelWidth := width (widest z) in
  let maxLabelHeight := height (highest z) in
  let maxWidth_ := _limitValue (c_width chart_ - maxLabelWidth) 0 (maxWidth l) in
  let tickWidth := if offset o then maxWidth l / n else maxWidth_ / (n - 1) in
  if tickWidth <? maxLabelWidth + 6 then
    let tickWidth := maxWidth_ / (n - (if offset o then 0.5 else 1)) in
    let maxHeight_ := maxHeight l - getTickMarkLength (grid_ o) - tpadding t - title_height in
    let diagonal := Num.sqrt (maxLabelWidth * maxLabelWidth + maxLabelHeight * maxLabelHeight) in
    let labelRotation := toDegrees (Num.min
      (math_asin (_limitValue ((maxLabelHeight + 6) / tickWidth) (-1) 1))
      (math_asin (_limitValue (maxHeight_ / diagonal) (-1) 1) - math_asin (_limitValue (maxLabelHeight / diagonal) (-1) 1))) in
    Num.max minRotation (Num.min (maxRotation t) labelRotation)
  else minRotation.

(** [pixel0] and [pixel1] are the pixels of the first and the last tick. *)
Definition _calculatePadding (l : layout) (first last : size) (sin cos pixel0 pixel1 : num) : Options.trbl :=
  let t := ticks_ o in
  let isRotated := negb (labelRotation l =? 0) in
  let labelsBelowTicks := negb (on o "top") && String.eqb (axis o) "x" in
  if isHorizontal o then
    let offsetLeft := pixel0 - left l in
    let offsetRight := right l - pixel1 in
    let '(paddingLeft, paddingRight) :=
      if isRotated then
        if labelsBelowTicks then (cos * width first, sin * height last) else (sin * height first, cos * width last)
      else if String.eqb (align t) "start" then (0, width last)
      else if String.eqb (align t) "end" then (width first, 0)
      else (width first / 2, width last / 2) in
    Options.mkTRBL (Options.top (pads l))
      (Num.max ((paddingRight - offsetRight + tpadding t) * w l / (w l - offsetRight)) 0)
      (Options.bottom (pads l))
      (Num.max ((paddingLeft - offsetLeft + tpadding t) * w l / (w l - offsetLeft)) 0)
  else
    let '(paddingTop, paddingBottom) :=
      if String.eqb (align t) "start" then (0, height first)
      else if String.eqb (align t) "end" then (height last, 0)
      else (height last / 2, height first / 2) in
    Options.mkTRBL (paddingTop + tpadding t) (Options.right (pads l)) (paddingBottom + tpadding t) (Options.left (pads l)).
Definition _handleMargins (pads margins : Options.trbl) : Options.trbl :=
  Options.mkTRBL (Num.max (Options.top pads) (Options.top margins)) (Num.max (Options.right pads) (Options.right margins))
    (Num.max (Options.bottom pads) (Options.bottom margins)) (Num.max (Options.left pads) (Options.left margins)).

(** The size asked for and the paddings; [labels] are the sizes and the pixels of the first
    and the last tick, when labels are shown. *)
Definition fit_size (l : layout) (labels : option (sizes * num * num)) : num * num * Options.trbl :=
  let t := ticks_ o in
  if visible then
    let marks := getTickMarkLength (grid_ o) + title_height in
    let '(width_, height_) := if isHorizontal o then (maxWidth l, marks) else (marks, maxHeight l) in
    match labels with
    | Some (z, pixel0, pixel1) =>
        let tickPadding := tpadding t * 2 in
        let angleRadians := toRadians (labelRotation l) in
        let cos := math_cos angleRadians in
        let sin := math_sin angleRadians in
        let p := _calculatePadding l (first z) (last z) sin cos pixel0 pixel1 in
        if isHorizontal o then
          let labelHeight := if mirror t then 0 else sin * width (widest z) + cos * height (highest z) in
          (width_, Num.min (maxHeight l) (height_ + labelHeight + tickPadding), p)
        else
          let labelWidth := if mirror t then 0 else cos * width (widest z) + sin * height (highest z) in
          (Num.min (maxWidth l) (width_ + labelWidth + tickPadding), height_, p)
    | None => (width_, height_, pads l)
    end
  else (0, 0, pads l).
Definition fit (l : layout) (labels : option (sizes * num * num)) : layout :=
  let '(width_, height_, p) := fit_size l labels in
  let m := _handleMargins p (margins l) in
  let '(w', h', len) :=
    if isHorizontal o then
      let x := c_width chart_ - Options.left m - Options.right m in (x, height_, x)
    else
      let y := c_height chart_ - Options.top m - Options.bottom m in (width_, y, y) in
  mkLayout (left l) (right l) (top l) (bottom l) w' h' (maxWidth l) (maxHeight l) p m (labelRotation l) len (_maxLength l).

Definition setDimensions (l : layout) : layout :=
  if isHorizontal o then
    mkLayout 0 (maxWidth l) (top l) (bottom l) (maxWidth l) (h l) (maxWidth l) (maxHeight l) zeros (margins l)
      (labelRotation l) (_length l) (_maxLength l)
  else
    mkLayout (left l) (right l) 0 (maxHeight l) (w l) (maxHeight l) (maxWidth l) (maxHeight l) zeros (margins l)
      (labelRotation l) (_length l) (_maxLength l).
Definition given (l : layout) (maxWidth maxHeight : num) (margins : Options.trbl) : layout :=
  mkLayout (left l) (right l) (top l) (bottom l) (w l) (h l) maxWidth maxHeight (pads l) margins (labelRotation l)
    (_length l) (_maxLength l).
Definition with_maxLength (l : layout) : layout :=
  mkLayout (left l) (right l) (top l) (bottom l) (w l) (h l) (maxWidth l) (maxHeight l) (pads l) (margins l) (labelRotation l)
    (_length l)
    (if isHorizontal o then w l + Options.left (margins l) + Options.right (margins l)
     else h l + Options.top (margins l) + Options.bottom (margins l)).
(** The base class' [configure]. *)
Definition configure (l : layout) : layout * ScaleBase.geometry :=
  let g := ScaleBase.configure (isHorizontal o) (reverse o) (alignToPixels o) (left l) (right l) (top l) (bottom l) in
  (mkLayout (left l) (right l) (top l) (bottom l) (w l) (h l) (maxWidth l) (maxHeight l) (pads l) (margins l) (labelRotation l)
     (ScaleBase._length g) (_maxLength l), g).
End Fit.

(** ** Update *)
Inductive hook := Called (name : string) | Notified (name : string).
Local Notation "'let?' p := a 'in' b" := (match a with Some p => b | None => None end)
  (at level 10, p strict pattern, a at level 200, b at level 200).

Section Update.
Context `{MathLib} {E : Type} (math_asin : num -> num) (measure : string -> string -> num).
Context (K : subclass E) (chart_ : chart) (o : opts) (grace : value) (beginAtZero majorEnabled : bool).
(** [_resolveTickFontOptions]: the options under the context of a tick by its index. *)
Context (tick_font : list tick -> nat -> Options.font) (fuel : nat).

(** [_convertTicksToLabels]: the callback sees the array as it is at its call. *)
Fixpoint label_loop (s : scale E) (done rest : list tick) : list tick :=
  match rest with
  | [] => done
  | t :: rest' =>
      label_loop s (done ++ [mkTick (tvalue t) (tick_label K s (done ++ t :: rest') (List.length done)) (major t)])%list rest'
  end.
Definition generateTickLabels (s : scale E) (l : list tick) : list tick := label_loop s [] l.
Definition labelled (t : tick) : bool := match tlabel t with Options.Missing => false | _ => true end.
(** The loop that splices out the ticks without a label. *)
Definition _convertTicksToLabels (s : scale E) (l : list tick) : list tick := List.filter labelled (generateTickLabels s l).

(** The places of [sample(ticks, numItems)] in the ticks. *)
Definition sampled (l : list tick) (numItems : num) : option (list nat) :=
  let? is_ := AutoSkip.sample fuel (seq 0 (List.length l)) numItems in mapM id is_.
(** The ticks are shared with the sample: labels given to the sample are theirs too, while
    the ticks removed from the sample stay. *)
Fixpoint write_back (l : list tick) (is_ : list nat) (ts : list tick) : list tick :=
  match is_, ts with
  | i :: is', t :: ts' => write_back (<[i := t]> l) is' ts'
  | _, _ => l
  end.
Definition pick_ticks (l : list tick) (is_ : list nat) : list tick := omap (fun i => l !! i) is_.

Definition _getLabelSizes (s : scale E) : option (scale E * sizes) :=
  match _labelSizes s with
  | Some z => Some (s, z)
  | None =>
      let? ts := (if sampleSize (ticks_ o) <? Num.of_nat (List.length (ticks s))
                  then option_map (pick_ticks (ticks s)) (sampled (ticks s) (sampleSize (ticks_ o)))
                  else Some (ticks s)) in
      let '(c, z) := _computeLabelSizes measure (_longestTextCache s) (tick_font (ticks s)) (List.map tlabel ts) in
      Some (with_sizes s (Some z) c, z)
  end.

Definition calculateLabelRotation (s : scale E) : option (scale E) :=
  if needs_rotation chart_ o (List.length (ticks s)) then
    let? (s, z) := _getLabelSizes s in
    Some (with_lay s (with_rotation (lay s) (rotated math_asin chart_ o (lay s) (List.length (ticks s)) z)))
  else Some (with_lay s (with_rotation (lay s) (or0 (minRotation (ticks_ o))))).

(** [autoSkip(scale, ticks)]: the ticks that stay. *)
Definition determineMaxTicks (s : scale E) (z : sizes) : num :=
  AutoSkip.determineMaxTicks (offset o)
    (ScaleBase._tickSize (isHorizontal o) (labelRotation (lay s)) (or0 (autoSkipPadding (ticks_ o)))
       (Some (width (widest z), height (highest z))))
    (_length (lay s)) (_maxLength (lay s)).
Definition autoSkip_ (s : scale E) : option (scale E) :=
  let? (s, limit) := (match maxTicksLimit (ticks_ o) with
                      | Some x => if Num.is_nan x || (x =? 0) then let? (s, z) := _getLabelSizes s in Some (s, determineMaxTicks s z)
                                  else Some (s, x)
                      | None => let? (s, z) := _getLabelSizes s in Some (s, determineMaxTicks s z)
                      end) in
  let? is_ := AutoSkip.autoSkip fuel majorEnabled (List.map major (ticks s)) limit in
  Some (with_ticks s (omap (fun i => ticks s !! Z.to_nat i) is_)).

Definition fit_ (s : scale E) : option (scale E) :=
  if visible chart_ o && display (ticks_ o) && negb (Nat.eqb (List.length (ticks s)) 0) then
    let? (s, z) := _getLabelSizes s in
    let pixel i := match ticks s !! i with Some t => getPixelForValue K s (tvalue t) | None => 0 end in
    Some (with_lay s (fit chart_ o (lay s) (Some (z, pixel O, pixel (List.length (ticks s) - 1)%nat))))
  else Some (with_lay s (fit chart_ o (lay s) None)).

Definition emptied (s : scale E) : scale E :=
  mkScale E (lay s) (geometry s) (min s) (max s) (_range s) (_dataLimitsCached s) [] None None None
    (_ticksLength s) (_borderValue s) (_longestTextCache s) (own s).
Definition limits_hooks : list hook :=
  [Notified "beforeDataLimits"; Called "beforeDataLimits"; Notified "afterDataLimits"; Called "afterDataLimits"]%string.
Definition convert_hooks : list hook := [Called "beforeTickToLabelConversion"; Called "afterTickToLabelConversion"]%string.
Definition data_limits (s : scale E) : scale E * list hook :=
  if _dataLimitsCached s then (s, [])
  else
    let '(e, mm) := determineDataLimits K s in
    let s := with_limits s e mm in
    (with_range s (Options._addGrace (Options.mkMinmax (min s) (max s)) grace beginAtZero) true, limits_hooks).
Definition build (s : scale E) : scale E :=
  let '(e, mm, ts) := buildTicks K s in with_ticks (with_limits s e mm) ts.
Definition configured (s : scale E) : scale E :=
  let '(l, g) := configure o (lay s) in
  let s := with_geometry (with_lay s l) g in
  with_limits s (configure_own K s) (min s, max s).

(** The labels before the rotation is known; with sampling only those of the sample. *)
Definition first_labels (sampling : bool) (s : scale E) : option (scale E) :=
  if sampling then
    let? is_ := sampled (ticks s) (sampleSize (ticks_ o)) in
    Some (with_ticks s (write_back (ticks s) is_ (generateTickLabels s (pick_ticks (ticks s) is_))))
  else Some (with_ticks s (_convertTicksToLabels s (ticks s))).
Definition skipped (s : scale E) : option (scale E) :=
  if display (ticks_ o) && (autoSkip (ticks_ o) || String.eqb (source (ticks_ o)) "auto") then
    option_map (fun s => with_sizes s None (_longestTextCache s)) (autoSkip_ s)
  else Some s.
Definition last_labels (sampling : bool) (s : scale E) : scale E :=
  if sampling then with_ticks s (_convertTicksToLabels s (ticks s)) else s.

(** The size of the scale before it is fitted. *)
Definition dimensioned (s : scale E) (maxWidth maxHeight : num) (margins : Options.trbl) : scale E :=
  let s := emptied (with_lay s (given (lay s) maxWidth maxHeight margins)) in
  with_lay s (with_maxLength o (setDimensions o (lay s))).
Definition update (s : scale E) (maxWidth maxHeight : num) (margins : Options.trbl) : option (scale E * list hook) :=
  let s := dimensioned s maxWidth maxHeight margins in
  let '(s, limits) := data_limits s in
  let s := build s in
  let sampling := sampleSize (ticks_ o) <? Num.of_nat (List.length (ticks s)) in
  let? s := first_labels sampling s in
  let s := configured s in
  let? s := calculateLabelRotation s in
  let? s := skipped s in
  let s := last_labels sampling s in
  let? s := fit_ s in
  Some (s, (([Called "beforeUpdate"; Called "beforeSetDimensions"; Called "afterSetDimensions"]%string ++ limits
            ++ [Notified "beforeBuildTicks"; Called "beforeBuildTicks"; Notified "afterBuildTicks"; Called "afterBuildTicks"]%string
            ++ convert_hooks
            ++ [Called "beforeCalculateLabelRotation"; Called "afterCalculateLabelRotation"]%string
            ++ (if sampling then convert_hooks else [])
            ++ [Called "beforeFit"; Called "afterFit"; Called "afterUpdate"]%string)%list)).
End Update.
End ScaleLayout.

(** ** Facts *)
Module ScaleLayoutFacts.
Import Obj Num NumFacts MathH ScaleLayout.
Local Open Scope js_scope.

(** *** Label sizes *)
Section Sizes.
Context (measure : string -> string -> num).

(** The caches hold what measuring gives under their font. *)
Definition coherent_caches (c : caches) : Prop :=
  List.Forall (fun p => Options.cfont (snd p) = Some (fst p) /\ OptionsFacts.coherent measure (snd p)) c.
(** The width of a label measured without caches. *)
Definition plain_width (font : string) (label : Options.thing) : num :=
  fold_left (fun m s => if lt m (measure font s) then measure font s else m) (Options.labels label) 0.
Definition own_names (label : Options.thing) : bool := forallb (fun s => negb (inherited s)) (Options.labels label).

Lemma cache_at_coherent c font : coherent_caches c ->
  Options.cfont (cache_at c font) = Some font /\ OptionsFacts.coherent measure (cache_at c font).
Proof.
  intros C. unfold cache_at. destruct (List.find _ c) as [[f x]|] eqn:F.
  - apply List.find_some in F as [I E]. apply String.eqb_eq in E. cbn in E. subst f.
    unfold coherent_caches in C. rewrite List.Forall_forall in C. exact (C _ I).
  - split; [reflexivity|]. split; cbn; contradiction.
Qed.
Lemma label_size_plain c font label : coherent_caches c -> own_names label = true ->
  coherent_caches (fst (label_size measure c font label)) /\
  fst (snd (label_size measure c font label)) = plain_width (font_string font) label.
Proof.
  intros C O. unfold label_size. destruct (cache_at_coherent c (font_string font) C) as [F K].
  pose proof (OptionsFacts.measure_fold measure (font_string font) (Options.labels label) _ 0 K F O) as M.
  destruct (fold_left _ _ _) as [x' w']. destruct M as (K' & F' & ->). cbn [fst snd]. split; [|reflexivity].
  constructor; [now split|]. apply List.Forall_forall. intros p I. apply filter_In in I as [I _].
  unfold coherent_caches in C. rewrite List.Forall_forall in C. auto.
Qed.
Lemma label_sizes_plain fontAt labels : forall c i, coherent_caches c -> forallb own_names labels = true ->
  coherent_caches (fst (label_sizes measure c fontAt i labels)) /\
  List.map fst (snd (label_sizes measure c fontAt i labels))
  = imap (fun k l => plain_width (font_string (fontAt (i + k)%nat)) l) labels.
Proof.
  induction labels as [|l ls IH]; intros c i C O; cbn [label_sizes imap]; [now split|].
  cbn [forallb] in O. apply andb_true_iff in O as [O1 O2].
  destruct (label_size_plain c (fontAt i) l C O1) as [C1 P1].
  destruct (label_size measure c (fontAt i) l) as [c1 s1]. cbn [fst snd] in *.
  destruct (IH c1 (S i) C1 O2) as [C2 P2]. destruct (label_sizes measure c1 fontAt (S i) ls) as [c2 ss]. cbn [fst snd] in *.
  split; [exact C2|]. cbn [List.map]. rewrite P1, P2, Nat.add_0_r. f_equal. apply imap_ext. intros k x _.
  cbn [compose]. now rewrite Nat.add_succ_comm.
Qed.
Lemma collect_font c n : Options.cfont (Options.collect c n) = Options.cfont c.
Proof. unfold Options.collect. now destruct (Nat.ltb _ _). Qed.

Lemma plain_width_number font label : is_nan (plain_width font label) = false.
Proof.
  unfold plain_width. assert (N : is_nan (0 : num) = false) by reflexivity. revert N. generalize (0 : num).
  induction (Options.labels label) as [|s l IH]; intros m N; cbn [fold_left]; [exact N|]. apply IH.
  destruct (lt m (measure font s)) eqn:E; [|exact N]. now apply lt_notnan in E.
Qed.
End Sizes.

(** The biggest of a list is found in it, unless it is the zero that was started from. *)
Abbreviation numbers := (List.Forall (fun x => is_nan x = false)).
Lemma biggest_from l : forall m, is_nan m = false -> numbers l ->
  let b := fold_left (fun m x => Num.max x m) l m in
  is_nan b = false /\ le m b = true /\ List.Forall (fun x => le x b = true) l /\ (b = m \/ In b l).
Proof.
  induction l as [|x l IH]; intros m M N; cbn [fold_left]; [repeat split; auto using le_refl|].
  inversion N as [|? ? Nx Nl]; subst. assert (Mx : is_nan (Num.max x m) = false) by now rewrite is_nan_max, Nx, M.
  destruct (IH (Num.max x m) Mx Nl) as (B & L & F & C). split; [exact B|]. split.
  { eapply le_trans; [apply (le_max_r x m); assumption|exact L]. }
  split; [constructor; [eapply le_trans; [apply (le_max_l x m); assumption|exact L]|exact F]|].
  destruct C as [->|I]; [|right; now right]. destruct (max_cases x m Nx M) as [[-> _]|[-> _]]; [right; now left|now left].
Qed.
Lemma index_of_found l x : In x l -> is_nan x = false -> exists k y, index_of l x = Some k /\ l !! k = Some y /\ eq y x = true.
Proof.
  induction l as [|y l IH]; intros I N; [destruct I|]. cbn [index_of]. destruct (eq y x) eqn:E; [exists O, y; auto|].
  destruct I as [->|I]; [exfalso; num_order|]. destruct (IH I N) as (k & z & -> & L & Q). exists (S k), z. auto.
Qed.
Lemma or0_eq x : is_nan x = false -> eq (or0 x) x = true.
Proof. intros N. unfold or0. rewrite N. cbn [orb]. destruct (eq x 0) eqn:E; num_order. Qed.
Lemma eq_le x y : eq x y = true -> le x y = true.
Proof. num_order. Qed.
Definition at_size (ws : list num) (i : option nat) : num :=
  match i with Some k => match ws !! k with Some x => or0 x | None => 0 end | None => 0 end.
Lemma biggest_covers l x : numbers l -> In x l -> le x (at_size l (index_of l (fold_left (fun m x => Num.max x m) l 0))) = true.
Proof.
  intros N I. destruct (biggest_from l 0 eq_refl N) as (B & L0 & F & C). rewrite List.Forall_forall in F. specialize (F x I).
  destruct C as [C|C].
  - rewrite C in *. unfold at_size. destruct (index_of l 0) as [k|] eqn:E; [|exact F].
    destruct (l !! k) as [y|] eqn:Y; [|exact F]. eapply le_trans; [exact F|].
    assert (Q : forall l k y, index_of l 0 = Some k -> l !! k = Some y -> eq y 0 = true).
    { clear. induction l as [|z l IH]; intros k y K Y; [discriminate|]. cbn [index_of] in K. destruct (eq z 0) eqn:E.
      - injection K as <-. now injection Y as <-.
      - destruct (index_of l 0) as [j|]; [|discriminate]. injection K as <-. eapply IH; [reflexivity|exact Y]. }
    unfold or0. rewrite (Q l k y E Y), orb_true_r. reflexivity.
  - destruct (index_of_found l _ C B) as (k & y & -> & Y & Q). unfold at_size. rewrite Y.
    assert (Ny : is_nan y = false) by num_order. pose proof (or0_eq y Ny). num_order.
Qed.

(** The measured sizes of the labels are those of measuring every line of every label
    anew, whatever the caches hold and evict, provided that they hold true widths, which
    they do again afterwards; no label is wider than the widest, and when line heights are
    numbers no label is higher than the highest. *)
Theorem label_sizes_cover measure c fontAt labels :
  coherent_caches measure c -> forallb own_names labels = true ->
  let '(c', z) := _computeLabelSizes measure c fontAt labels in
  coherent_caches measure c' /\
  widths z = imap (fun i l => plain_width measure (font_string (fontAt i)) l) labels /\
  List.Forall (fun x => le x (width (widest z)) = true) (widths z) /\
  (numbers (heights z) -> List.Forall (fun x => le x (height (highest z)) = true) (heights z)).
Proof.
  intros C O. unfold _computeLabelSizes. destruct (label_sizes_plain measure fontAt labels c 0 C O) as [C' P].
  destruct (label_sizes measure c fontAt 0 labels) as [c' ss]. cbn [fst snd] in C', P. cbn [Nat.add] in P.
  cbn [widths heights widest highest]. rewrite P. split; [|split; [reflexivity|split]].
  - unfold garbageCollect. apply List.Forall_map. eapply List.Forall_impl; [|exact C']. intros p [F K]. cbn [fst snd].
    rewrite collect_font. split; [exact F|now apply OptionsFacts.collect_coherent].
  - apply List.Forall_forall. intros x I. apply biggest_covers; [|exact I]. apply List.Forall_forall. intros y J.
    apply list_elem_of_In, elem_of_lookup_imap in J as (k & l & -> & _). apply plain_width_number.
  - intros N. apply List.Forall_forall. intros x I. now apply biggest_covers.
Qed.

(** *** Updating *)

(** What stays at increasing places of a list is a part of it in its order. *)
Lemma picked_sublist {A} (l : list A) : forall is_ k, StronglySorted Z.lt is_ -> List.Forall (fun i => (k <= i)%Z) is_ ->
  sublist (omap (fun i => l !! Z.to_nat (i - k)) is_) l.
Proof.
  induction l as [|x l IH]; intros is_ k S F.
  - induction is_ as [|i is_ J]; [constructor|]. cbn. apply StronglySorted_inv in S as [S _]. inversion F; subst. auto.
  - assert (T : forall js, StronglySorted Z.lt js -> List.Forall (fun i => (k < i)%Z) js ->
        sublist (omap (fun i => (x :: l) !! Z.to_nat (i - k)) js) l).
    { intros js S' F'. replace (omap (fun i => (x :: l) !! Z.to_nat (i - k)) js) with (omap (fun i => l !! Z.to_nat (i - (k + 1))) js).
      - apply IH; [exact S'|]. eapply List.Forall_impl; [|exact F']. cbn. intros; lia.
      - clear - F'. induction js as [|j js J]; [reflexivity|]. inversion F' as [|? ? L F2]; subst. cbn [omap list_omap].
        rewrite (J F2). replace (Z.to_nat (j - k)) with (S (Z.to_nat (j - (k + 1)))) by lia. reflexivity. }
    destruct is_ as [|i is_]; [cbn; apply sublist_nil_l|]. apply StronglySorted_inv in S as [S1 S2]. inversion F as [|? ? L F1]; subst.
    assert (F2 : List.Forall (fun j => (k < j)%Z) is_) by (eapply List.Forall_impl; [|exact S2]; cbn; intros; lia).
    destruct (Z.eq_dec i k) as [->|Ne].
    + cbn [omap list_omap]. rewrite Z.sub_diag. cbn. apply sublist_skip, T; auto.
    + apply sublist_cons, (T (i :: is_)); [now constructor|]. constructor; [lia|exact F2].
Qed.

Lemma sublist_map {A B} (f : A -> B) l k : sublist l k -> sublist (List.map f l) (List.map f k).
Proof. induction 1; cbn [List.map]; constructor; assumption. Qed.
Lemma sublist_all {A} (P : A -> Prop) l k : sublist l k -> List.Forall P k -> List.Forall P l.
Proof. induction 1; intros F; [constructor|inversion F; subst; constructor; auto|inversion F; subst; auto]. Qed.
Lemma picked_ticks {A} (l : list A) is_ : StronglySorted Z.lt is_ -> List.Forall (fun i => (0 <= i)%Z) is_ ->
  sublist (omap (fun i => l !! Z.to_nat i) is_) l.
Proof.
  intros S F. pose proof (picked_sublist l is_ 0 S F) as P.
  replace (omap (fun i => l !! Z.to_nat (i - 0)) is_) with (omap (fun i => l !! Z.to_nat i) is_) in P; [exact P|].
  clear. induction is_ as [|i is_ IH]; [reflexivity|]. cbn [omap list_omap]. now rewrite IH, Z.sub_0_r.
Qed.

Section Update.
Context `{MathLib} {E : Type} (math_asin : num -> num) (measure : string -> string -> num).
Context (K : subclass E) (chart_ : chart) (o : opts) (grace : value) (beginAtZero : bool).
Context (tick_font : list tick -> nat -> Options.font) (fuel : nat).
(** No sample size is given, which is the default, and no major ticks are asked for. *)
Hypothesis no_sampling : is_nan (sampleSize (ticks_ o)) = true.
Hypothesis fuelled : (0 < fuel)%nat.
Abbreviation getSizes := (_getLabelSizes measure o tick_font fuel).
Abbreviation update_ := (update math_asin measure K chart_ o grace beginAtZero false tick_font fuel).

(** The sizes that are kept are those of the present ticks. *)
Definition sizes_ok (s : scale E) : Prop :=
  forall z, _labelSizes s = Some z ->
  exists c, z = snd (_computeLabelSizes measure c (tick_font (ticks s)) (List.map tlabel (ticks s))).
Lemma not_sampled n : lt (sampleSize (ticks_ o)) n = false.
Proof. destruct (lt _ n) eqn:L; [|reflexivity]. apply lt_notnan in L as [L _]. congruence. Qed.
Lemma get_sizes s : sizes_ok s -> exists z c, getSizes s = Some (with_sizes s (Some z) c, z) /\ sizes_ok (with_sizes s (Some z) c).
Proof.
  intros O. unfold _getLabelSizes. destruct (_labelSizes s) as [z|] eqn:Z.
  - exists z, (_longestTextCache s). destruct s. cbn in Z. subst. split; [reflexivity|exact O].
  - rewrite not_sampled. pose proof (eq_refl (_computeLabelSizes measure (_longestTextCache s) (tick_font (ticks s)) (List.map tlabel (ticks s)))) as Q.
    destruct (_computeLabelSizes _ _ _ _) as [c z] in Q at 2 |- *. exists z, c. split; [reflexivity|].
    intros z' [= <-]. exists (_longestTextCache s). cbn [ticks with_sizes]. now rewrite Q.
Qed.
Lemma rotation_done s : sizes_ok s -> exists z c r,
  calculateLabelRotation math_asin measure chart_ o tick_font fuel s = Some (with_lay (with_sizes s z c) (with_rotation (lay s) r)) /\ sizes_ok (with_sizes s z c).
Proof.
  intros O. unfold calculateLabelRotation. destruct (needs_rotation _ _ _).
  - destruct (get_sizes s O) as (z & c & -> & O'). eauto 6.
  - exists (_labelSizes s), (_longestTextCache s), (or0 (minRotation (ticks_ o))). destruct s. split; [reflexivity|exact O].
Qed.
Lemma auto_skip_some majors limit : exists is_, AutoSkip.autoSkip fuel false majors limit = Some is_.
Proof.
  unfold AutoSkip.autoSkip. cbn zeta iota. destruct (lt limit _); [eauto|]. unfold AutoSkip.skip.
  destruct fuel as [|f]; [lia|]. cbn [AutoSkip.advance]. eauto.
Qed.

(** What the steps after the labels keep of a scale. *)
Definition after (s s' : scale E) : Prop :=
  _dataLimitsCached s' = _dataLimitsCached s /\ _gridLineItems s' = _gridLineItems s /\ _labelItems s' = _labelItems s /\
  sublist (ticks s') (ticks s) /\ sizes_ok s'.
Lemma skipped_done s : sizes_ok s -> exists s',
  skipped measure o false tick_font fuel s = Some s' /\ lay s' = lay s /\ after s s'.
Proof.
  intros O. unfold skipped. destruct (_ && _); [|exists s; repeat split; auto].
  assert (T : forall (s : scale E) limit, exists s', (match AutoSkip.autoSkip fuel false (List.map major (ticks s)) limit with
      | Some is_ => Some (with_ticks s (omap (fun i => ticks s !! Z.to_nat i) is_)) | None => None end) = Some s' /\
      lay s' = lay s /\ _dataLimitsCached s' = _dataLimitsCached s /\ _gridLineItems s' = _gridLineItems s /\
      _labelItems s' = _labelItems s /\ sublist (ticks s') (ticks s)).
  { intros s1 limit. destruct (auto_skip_some (List.map major (ticks s1)) limit) as [is_ Q]. rewrite Q. eexists. split; [reflexivity|].
    repeat split; auto. cbn [ticks with_ticks]. destruct (ScaleFacts.autoSkip_subsequence _ _ _ _ _ Q) as [S I].
    apply picked_ticks; [exact S|]. apply List.Forall_forall. intros i J. now apply I in J. }
  assert (G : exists z c limit, (match maxTicksLimit (ticks_ o) with
      | Some x => if is_nan x || eq x 0 then match getSizes s with Some (s, z) => Some (s, determineMaxTicks o s z) | None => None end
                  else Some (s, x)
      | None => match getSizes s with Some (s, z) => Some (s, determineMaxTicks o s z) | None => None end end)
      = Some (with_sizes s z c, limit)).
  { assert (D : s = with_sizes s (_labelSizes s) (_longestTextCache s)) by now destruct s.
    destruct (get_sizes s O) as (z & c & -> & _). destruct (maxTicksLimit (ticks_ o)) as [x|]; [|eauto].
    destruct (_ || _); [eauto|]. exists (_labelSizes s), (_longestTextCache s), x. now rewrite <- D. }
  destruct G as (z & c & limit & G). unfold autoSkip_. rewrite G.
  destruct (T (with_sizes s z c) limit) as (s' & -> & L & A & B & C & D). cbn [option_map]. eexists. split; [reflexivity|].
  split; [exact L|]. repeat split; try assumption. intros z' [=].
Qed.

(** The rotation stays between the limits of the options. *)
Lemma rotation_between l n z : needs_rotation chart_ o n = true -> is_nan (maxRotation (ticks_ o)) = false ->
  let r := rotated math_asin chart_ o l n z in is_nan r = false ->
  le (or0 (minRotation (ticks_ o))) r = true /\ le r (maxRotation (ticks_ o)) = true.
Proof.
  unfold needs_rotation, rotated. rewrite negb_true_iff, !orb_false_iff. intros [[[[_ _] L] _] _] X.
  assert (N : is_nan (or0 (minRotation (ticks_ o))) = false).
  { unfold or0. destruct (is_nan (minRotation _)) eqn:Q; cbn [orb]; [reflexivity|]. now destruct (eq _ _). }
  destruct (lt _ _); cbn zeta.
  - intros R. rewrite is_nan_max, is_nan_min in R. apply orb_false_iff in R as [_ R]. apply orb_false_iff in R as [R1 R2].
    split; [apply le_max_l; [exact N|now rewrite is_nan_min, R1, R2]|].
    apply max_lub; [|now apply min_le_l]. num_order.
  - intros _. split; num_order.
Qed.

(** The size and the margins a fitted scale ends with. *)
Lemma fit_room l labels :
  let l' := fit chart_ o l labels in
  margins l' = _handleMargins (pads l') (margins l) /\
  _length l' = (if isHorizontal o then w l' else h l') /\
  (if isHorizontal o then w l' = c_width chart_ - Options.left (margins l') - Options.right (margins l')
   else h l' = c_height chart_ - Options.top (margins l') - Options.bottom (margins l')) /\
  (visible chart_ o = true -> labels <> None ->
   let depth := if isHorizontal o then h l' else w l' in
   let room := if isHorizontal o then maxHeight l else maxWidth l in
   is_nan depth = false -> le depth room = true).
Proof.
  unfold fit, fit_size. destruct (visible chart_ o), (isHorizontal o), labels as [[[z p0] p1]|];
    cbn [w h margins pads _length]; repeat split; try discriminate; try congruence.
  all: intros _ _ D; rewrite is_nan_min in D; apply orb_false_iff in D as [D1 D2]; now apply min_le_l.
Qed.

Lemma convert_labelled s l : List.Forall (fun t => labelled t = true) (_convertTicksToLabels K s l).
Proof. apply List.Forall_forall. intros t I. now apply filter_In in I as [_ I]. Qed.
Lemma labels_values s rest : forall done,
  List.map tvalue (label_loop K s done rest) = (List.map tvalue done ++ List.map tvalue rest)%list.
Proof.
  induction rest as [|t rest IH]; intros done; cbn [label_loop List.map]; [now rewrite app_nil_r|].
  rewrite IH, List.map_app, <- app_assoc. reflexivity.
Qed.
Lemma filter_sublist {A} (p : A -> bool) l : sublist (List.filter p l) l.
Proof. induction l as [|x l IH]; cbn; [constructor|]. destruct (p x); [now apply sublist_skip|now apply sublist_cons]. Qed.
Lemma convert_values s l : sublist (List.map tvalue (_convertTicksToLabels K s l)) (List.map tvalue l).
Proof.
  unfold _convertTicksToLabels. rewrite <- (labels_values s l [] : _ = List.map tvalue l).
  apply sublist_map, filter_sublist.
Qed.

(** The state after the limits are known; only the limits come from before the update. *)
Lemma limits_done s maxW maxH m :
  let '(sb, _) := data_limits K grace beginAtZero (dimensioned o s maxW maxH m) in
  _dataLimitsCached sb = true /\ _gridLineItems sb = None /\ _labelItems sb = None /\ _labelSizes sb = None /\
  margins (lay sb) = m /\ maxHeight (lay sb) = maxH /\ maxWidth (lay sb) = maxW.
Proof.
  unfold data_limits. destruct (_dataLimitsCached _) eqn:Q.
  - repeat split; try exact Q; unfold dimensioned, setDimensions; now destruct (isHorizontal o).
  - destruct (determineDataLimits K _) as [e mm]. repeat split; unfold dimensioned, setDimensions; now destruct (isHorizontal o).
Qed.
Lemma fit_done s : sizes_ok s -> exists s' lab, fit_ measure K chart_ o tick_font fuel s = Some s' /\
  lay s' = fit chart_ o (lay s) lab /\ (visible chart_ o && display (ticks_ o) = true -> ticks s' <> [] -> lab <> None) /\
  ticks s' = ticks s /\ after s s'.
Proof.
  intros O. unfold fit_. destruct (visible _ _ && display _) eqn:V; cbn [andb].
  - destruct (ticks s) eqn:Tf; cbn [List.length Nat.eqb negb].
    + eexists. eexists. split; [reflexivity|]. cbn [ticks with_lay]. rewrite Tf. repeat split; auto; congruence.
    + destruct (get_sizes s O) as (z' & c' & -> & O2). rewrite <- Tf. eexists. eexists. split; [reflexivity|].
      repeat split; auto; discriminate.
  - eexists. eexists. split; [reflexivity|]. repeat split; auto; congruence.
Qed.

(** C10: without a sample size and major ticks an update comes to an end, and then every
    tick has a label; the ticks are among those that were built, in their order; the sizes
    that are kept are those of these ticks; nothing that was drawn before is kept; the
    margins have grown to the paddings, and the scale is as long as they leave room for.
    When the scale and its ticks are displayed and there are ticks, it is not deeper than
    the room it was given (or its depth is NaN). *)
Theorem updated_scale s maxW maxH m :
  exists s' hooks, update_ s maxW maxH m = Some (s', hooks) /\
  List.Forall (fun t => labelled t = true) (ticks s') /\
  sublist (List.map tvalue (ticks s'))
    (List.map tvalue (snd (buildTicks K (fst (data_limits K grace beginAtZero (dimensioned o s maxW maxH m)))))) /\
  sizes_ok s' /\ _dataLimitsCached s' = true /\ _gridLineItems s' = None /\ _labelItems s' = None /\
  margins (lay s') = _handleMargins (pads (lay s')) m /\
  (if isHorizontal o then w (lay s') = c_width chart_ - Options.left (margins (lay s')) - Options.right (margins (lay s'))
   else h (lay s') = c_height chart_ - Options.top (margins (lay s')) - Options.bottom (margins (lay s'))) /\
  (visible chart_ o && display (ticks_ o) = true -> ticks s' <> [] ->
   let depth := if isHorizontal o then h (lay s') else w (lay s') in
   is_nan depth = false -> le depth (if isHorizontal o then maxH else maxW) = true).
Proof.
  unfold update. pose proof (limits_done s maxW maxH m) as D0.
  destruct (data_limits K grace beginAtZero (dimensioned o s maxW maxH m)) as [sb hooks].
  destruct D0 as (B1 & B3 & B4 & B5 & R1 & R2 & R3). cbn [fst].
  rewrite not_sampled. unfold first_labels, last_labels.
  set (sc := build K sb). set (sd := with_ticks sc (_convertTicksToLabels K sc (ticks sc))).
  assert (O : sizes_ok (configured K o sd)).
  { intros z Z. unfold sd, sc, configured, build in Z. destruct (configure _ _), (buildTicks K sb) as [[? ?] ?]. cbn in Z. congruence. }
  destruct (rotation_done (configured K o sd) O) as (z & c & r & -> & O1).
  set (se := with_lay _ _). destruct (skipped_done se O1) as (sf & -> & L & F1 & F2 & F3 & F4 & F5).
  destruct (fit_done sf F5) as (s' & lab & -> & P1 & P3 & P2 & G1 & G2 & G3 & _ & G5).
  assert (T : ticks se = _convertTicksToLabels K sc (ticks sc)).
  { unfold se, sd, configured. now destruct (configure o (lay (with_ticks sc _))). }
  assert (C : _dataLimitsCached se = true /\ _gridLineItems se = None /\ _labelItems se = None /\ margins (lay se) = m /\
      maxHeight (lay se) = maxH /\ maxWidth (lay se) = maxW).
  { unfold se, sd, sc, configured, build. destruct (buildTicks K sb) as [[e mm] ts]. now repeat split. }
  destruct C as (C1 & C2 & C3 & C4 & C5 & C6). destruct (fit_room (lay sf) lab) as (M & _ & W & D).
  rewrite <- P1, L, ?C4, ?C5, ?C6 in *.
  eexists. eexists. split; [reflexivity|]. rewrite P2, G1, G2, G3, F1, F2, F3.
  split; [eapply sublist_all; [exact F4|]; rewrite T; apply convert_labelled|].
  split.
  { etransitivity; [apply sublist_map, F4|]. rewrite T. unfold sc, build.
    destruct (buildTicks K sb) as [[e mm] ts]. apply convert_values. }
  split; [exact G5|]. repeat split; auto.
  intros V N. rewrite <- P2 in *. apply D; [now apply andb_true_iff in V as [V _]|now apply P3].
Qed.
End Update.

(** *** Examples *)
Definition demo_ticks : tick_opts := mkTickOpts true 0 50 3 "center" "near" false 0 None Num.nan true "" 3.
Definition demo_opts : opts :=
  mkOpts "x" (Side "bottom") false false (Fixed true) false demo_ticks
    (mkGridOpts true true true true 8 false 1 "gray") (mkTitleOpts false Undefined Undefined (One "") "center" "") "".
Definition demo_chart : chart := mkChart 200 100 (VObj []) (VObj []) 1 1.
(** Five ticks; the third has no label. *)
Definition demo_subclass : subclass unit :=
  mkSubclass unit (fun s => (own s, (0, 4)))
    (fun s => (own s, (min s, max s), List.map (fun v => mkTick v Options.Missing false) [0; 1; 2; 3; 4]))
    (fun _ l i => match l !! i with
                  | Some t => if tvalue t =? 2 then Options.Missing else Options.Label "label"%string
                  | None => Options.Missing end)
    own (fun s v => left (lay s) + v * (w (lay s) / 4)).
Definition demo_font : list tick -> nat -> Options.font :=
  fun _ _ => Options.mkFont (VStr "f") 12 (VNum 10) Undefined Undefined (Some "10px f"%string).
Definition demo_layout : layout := mkLayout 0 0 0 0 0 0 0 0 zeros zeros 0 0 0.
Definition demo_scale : scale unit :=
  mkScale unit demo_layout (ScaleBase.mkGeometry 0 0 false 0 false) 0 0 (Options.mkMinmax 0 0) false [] None None None 0 0 [] tt.
Definition demo_text (_ s : string) : num := Num.of_nat (6 * String.length s).
#[local] Instance flat_math : MathLib := {
  math_pow x y := x; math_log10 x := x; math_sin x := 0; math_cos x := 1; math_atan2 y x := y }.

Lemma updated_scale_witness : exists s' hooks,
  update (fun x => x) demo_text demo_subclass demo_chart demo_opts (VNum 0) false false demo_font 10 demo_scale 180 100 zeros
  = Some (s', hooks) /\
  List.Forall (fun t => labelled t = true) (ticks s') /\ _gridLineItems s' = None.
Proof.
  destruct (updated_scale (fun x => x) demo_text demo_subclass demo_chart demo_opts (VNum 0) false demo_font 10 eq_refl
    ltac:(lia) demo_scale 180 100 zeros) as (s' & hooks & U & L & _ & _ & _ & G & _).
  exists s', hooks. split; [exact U|]. split; [exact L|exact G].
Defined.
Lemma label_sizes_cover_witness :
  width (widest (snd (_computeLabelSizes demo_text [] (demo_font []) [Options.Label "ab"; Options.Nested [Some "abcd"; None; Some "a"]]%string))) = 24.
Proof.
  pose proof (label_sizes_cover demo_text [] (demo_font []) [Options.Label "ab"; Options.Nested [Some "abcd"; None; Some "a"]]%string
    ltac:(constructor) eq_refl) as C.
  destruct (_computeLabelSizes _ _ _ _) as [c z] eqn:E. vm_compute in E. injection E as <- <-. destruct C as (_ & W & _). reflexivity.
Defined.
End ScaleLayoutFacts.
