(* ===== verification/ScaleDrawing.v ===== *)
(** The base class [Scale] of webui/public/chart.js, part three: grid lines, the border, the
    title and the labels as commands to the canvas, and the layers of a scale.

    Proved: what a visible scale paints (background, grid lines, border, title, labels, in
    this order; the title before the border when it is drawn by layers), that it restores
    the states it saves and issues the same commands until the next update, and that
    without offset and limit every tick has one grid line through its pixel. *)
From Stdlib Require Import ZArith Lia Bool List Ascii String Permutation.
From Stdlib Require Import SpecFloat.
From stdpp Require Import base list.
From S2P Require Import Prelude JsNumber JsString NumExact JsArray JsValue HelpersCore HelpersMath Options Interaction Canvas Elements Scale ScaleLayout.
Import ListNotations.
Open Scope Z_scope.

Module ScaleDrawing.
Import Js MathH Canvas ScaleLayout.
Local Open Scope js_scope.

(** The options of a label, resolved for a tick. *)
Record label_style := mkLabelStyle {
  l_color : string; l_strokeColor : string; l_strokeWidth : num; showLabelBackdrop : bool; backdropPadding : value;
  backdropColor : string }.

Section Drawing.
Context `{MathLib} {E : Type} (measure : string -> string -> num) (measureMetrics : string -> metrics).
Context (K : subclass E) (chart_ : chart) (o : opts).
(** What the options give for the line and the mark of a grid line, for a label, and the font
    of a label, by the index of the tick. *)
Context (tick_font : list tick -> nat -> Options.font) (fuel : nat).
Context (lineAt : list tick -> nat -> line_style * line_style) (labelAt : list tick -> nat -> label_style).

Definition getPixelForTick (s : scale E) (i : Z) : num :=
  match nthZ (ticks s) i with Some t => getPixelForValue K s (tvalue t) | None => 0 end.

(** ** Grid lines *)
Definition axisWidth : num := if drawBorder (grid_ o) then borderWidth (grid_ o) else 0.
Definition alignBorderValue (pixel : num) : num := Options._alignPixel (devicePixelRatio chart_) pixel axisWidth.
(** The border and the ends of the grid lines and marks; the coordinates along the axis come
    from the ticks.  NaN is undefined. *)
Definition grid_ends (l : layout) (area : Interaction.rect) : num * coords :=
  let tl := getTickMarkLength (grid_ o) in
  let half := axisWidth / 2 in
  let none := Num.nan in
  let across b ty1 ty2 y1 y2 := (b, mkCoords none ty1 none ty2 none y1 none y2) in
  let along b tx1 tx2 x1 x2 := (b, mkCoords tx1 none tx2 none x1 none x2 none) in
  if on o "top" then
    let b := alignBorderValue (bottom l) in
    across b (bottom l - tl) (b - half) (alignBorderValue (Interaction.top area) + half) (Interaction.bottom area)
  else if on o "bottom" then
    let b := alignBorderValue (top l) in
    across b (b + half) (top l + tl) (Interaction.top area) (alignBorderValue (Interaction.bottom area) - half)
  else if on o "left" then
    let b := alignBorderValue (right l) in
    along b (right l - tl) (b - half) (alignBorderValue (Interaction.left area) + half) (Interaction.right area)
  else if on o "right" then
    let b := alignBorderValue (left l) in
    along b (b + half) (left l + tl) (Interaction.left area) (alignBorderValue (Interaction.right area) - half)
  else if String.eqb (axis o) "x" then
    let b := match pos o with
             | Side s => if String.eqb s "center"
                         then alignBorderValue ((Interaction.top area + Interaction.bottom area) / 2 + 0.5) else none
             | AtValue pixel => alignBorderValue pixel
             end in
    let ty1 := b + half in
    across b ty1 (ty1 + tl) (Interaction.top area) (Interaction.bottom area)
  else if String.eqb (axis o) "y" then
    let b := match pos o with
             | Side s => if String.eqb s "center"
                         then alignBorderValue ((Interaction.left area + Interaction.right area) / 2) else none
             | AtValue pixel => alignBorderValue pixel
             end in
    let tx1 := b - half in
    along b tx1 (tx1 - tl) (Interaction.left area) (Interaction.right area)
  else (none, mkCoords none none none none none none none none).
Definition grid_item_at (s : scale E) (c : coords) (i : nat) (lineValue : num) : grid_item :=
  let '(line, mark) := lineAt (ticks s) i in
  let v := Options._alignPixel (devicePixelRatio chart_) lineValue (lwidth line) in
  mkGridItem
    (if isHorizontal o then mkCoords v (ty1 c) v (ty2 c) v (y1 c) v (y2 c)
     else mkCoords (tx1 c) v (tx2 c) v (x1 c) v (x2 c) v) line mark.
Fixpoint grid_loop (fuel : nat) (s : scale E) (c : coords) (n : nat) (i step : num) : option (list grid_item) :=
  match fuel with
  | O => None
  | S f =>
      if i <? Num.of_nat n then
        let k := Num.trunc_Z i in
        match grid_loop f s c n (i + step) step with
        | None => None
        | Some rest =>
            Some (match ScaleBase.getPixelForGridLine (geometry s) (getPixelForTick s) (lengthZ (ticks s)) k (goffset (grid_ o)) with
                  | Some v => grid_item_at s c (Z.to_nat k) v :: rest
                  | None => rest
                  end)
        end
      else Some []
  end.
Definition ticks_length (s : scale E) : nat := (List.length (ticks s) + if goffset (grid_ o) then 1 else 0)%nat.
Definition grid_step (s : scale E) : num :=
  let n := Num.of_nat (ticks_length s) in
  Num.max 1 (Num.ceil (n / match maxTicksLimit (ticks_ o) with Some x => x | None => n end)).
Definition with_grid (s : scale E) (items : list grid_item) (n : nat) (border : num) : scale E :=
  mkScale E (lay s) (geometry s) (min s) (max s) (_range s) (_dataLimitsCached s) (ticks s) (_labelSizes s) (Some items)
    (_labelItems s) n border (_longestTextCache s) (own s).
(** The lines, with the length and the border that are noted for later. *)
Definition _computeGridLineItems (s : scale E) (area : Interaction.rect) : option (scale E) :=
  let '(border, c) := grid_ends (lay s) area in
  option_map (fun items => with_grid s items (ticks_length s) border)
    (grid_loop (S (ticks_length s)) s c (ticks_length s) 0 (grid_step s)).

Definition drawLine (xa ya xb yb : num) (st : line_style) : list cmd :=
  if falsy (lwidth st) || String.eqb (lcolor st) "" then []
  else Save :: [Set_ "lineWidth" (VNum (lwidth st)); Set_ "strokeStyle" (VStr (lcolor st)); SetLineDash (dash st);
                Set_ "lineDashOffset" (VNum (dashOffset st)); BeginPath; MoveTo xa ya; LineTo xb yb; Stroke] ++ [Restore].
Definition draw_item (it : grid_item) : list cmd :=
  let c := ends it in
  ((if drawOnChartArea (grid_ o) then drawLine (x1 c) (y1 c) (x2 c) (y2 c) (line_ it) else []) ++
   (if drawTicks (grid_ o) then drawLine (tx1 c) (ty1 c) (tx2 c) (ty2 c) (tick_ it) else []))%list.
Definition drawGrid (s : scale E) (area : Interaction.rect) : option (scale E * list cmd) :=
  match (match _gridLineItems s with Some _ => Some s | None => _computeGridLineItems s area end) with
  | None => None
  | Some s =>
      Some (s, if gdisplay (grid_ o) then List.flat_map draw_item (default [] (_gridLineItems s)) else [])
  end.
(** The ends of the border. *)
Definition border_ends (s : scale E) : num * num * num * num :=
  let l := lay s in
  let last := lwidth (fst (lineAt (ticks s) 0)) in
  let align := Options._alignPixel (devicePixelRatio chart_) in
  let b := _borderValue s in
  if isHorizontal o then (align (left l) axisWidth - axisWidth / 2, b, align (right l) last + last / 2, b)
  else (b, align (top l) axisWidth - axisWidth / 2, b, align (bottom l) last + last / 2).
Definition drawBorder_ (s : scale E) : list cmd :=
  if falsy axisWidth then []
  else
    let '(xa, ya, xb, yb) := border_ends s in
    Save :: [Set_ "lineWidth" (VNum (borderWidth (grid_ o))); Set_ "strokeStyle" (VStr (borderColor (grid_ o)));
             BeginPath; MoveTo xa ya; LineTo xb yb; Stroke] ++ [Restore].
(** [this.width] and [this.height] are those the layout gave. *)
Definition drawBackground (l : layout) : list cmd :=
  if String.eqb (backgroundColor o) "" then []
  else [Save; Set_ "fillStyle" (VStr (backgroundColor o)); FillRect (left l) (top l) (w l) (h l); Restore].
Definition getLineWidthForValue (s : scale E) (v : num) : num :=
  if negb (visible chart_ o) || negb (gdisplay (grid_ o)) then 0
  else match list_find (fun t => tvalue t =? v) (ticks s) with
       | Some (i, _) => lwidth (fst (lineAt (ticks s) i))
       | None => 0
       end.

(** ** Labels *)
Definition label_rotation (s : scale E) : num := - toRadians (labelRotation (lay s)).
Definition zero_rotation (s : scale E) : bool := label_rotation s =? 0.
Definition _getXAxisLabelAlignment (s : scale E) : string :=
  if negb (falsy (label_rotation s)) then (if on o "top" then "left" else "right")%string
  else Options._toLeftRightCenter (align (ticks_ o)) .
(** The alignment of vertical labels and their x; NaN when it is left undefined. *)
Definition _getYAxisLabelAlignment (l : layout) (z : sizes) (tl : num) : string * num :=
  let t := ticks_ o in
  let tickAndPadding := tl + tpadding t in
  let widest_ := width (widest z) in
  let near := String.eqb (crossAlign t) "near" in
  let center := String.eqb (crossAlign t) "center" in
  (if on o "left" then
    if mirror t then
      let x := right l + tpadding t in
      if near then ("left", x) else if center then ("center", x + widest_ / 2) else ("right", x + widest_)
    else
      let x := right l - tickAndPadding in
      if near then ("right", x) else if center then ("center", x - widest_ / 2) else ("left", left l)
  else if on o "right" then
    if mirror t then
      let x := left l + tpadding t in
      if near then ("right", x) else if center then ("center", x - widest_ / 2) else ("left", x - widest_)
    else
      let x := left l + tickAndPadding in
      if near then ("left", x) else if center then ("center", x + widest_ / 2) else ("right", right l)
  else ("right", Num.nan))%string.
(** Alignment, and the coordinates across the axis. *)
Definition label_base (s : scale E) (z : sizes) (area : Interaction.rect) : string * num * num :=
  let t := ticks_ o in
  let l := lay s in
  let tl := getTickMarkLength (grid_ o) in
  let tickAndPadding := tl + tpadding t in
  let hTickAndPadding := if mirror t then - tpadding t else tickAndPadding in
  let '(yAlign, yx) := _getYAxisLabelAlignment l z tl in
  if on o "top" then (_getXAxisLabelAlignment s, Num.nan, bottom l - hTickAndPadding)
  else if on o "bottom" then (_getXAxisLabelAlignment s, Num.nan, top l + hTickAndPadding)
  else if on o "left" || on o "right" then (yAlign, yx, Num.nan)
  else if String.eqb (axis o) "x" then
    (_getXAxisLabelAlignment s, Num.nan,
     match pos o with
     | Side c => if String.eqb c "center" then (Interaction.top area + Interaction.bottom area) / 2 + tickAndPadding else Num.nan
     | AtValue pixel => pixel + tickAndPadding
     end)
  else if String.eqb (axis o) "y" then
    (yAlign,
     match pos o with
     | Side c => if String.eqb c "center" then (Interaction.left area + Interaction.right area) / 2 - tickAndPadding else Num.nan
     | AtValue pixel => pixel
     end, Num.nan)
  else (EmptyString, Num.nan, Num.nan).
Definition text_baseline : string :=
  if String.eqb (axis o) "y" then
    if String.eqb (align (ticks_ o)) "start" then "top" else if String.eqb (align (ticks_ o)) "end" then "bottom" else "middle"
  else "middle".
Definition lineCount (label : Options.thing) : num :=
  match label with Options.Nested l => Num.of_nat (List.length l) | _ => 1 end.
Definition text_offset (s : scale E) (z : sizes) (label : Options.thing) (lineHeight : num) : num :=
  let t := ticks_ o in
  let n := lineCount label in
  let halfCount := n / 2 in
  let highest_ := height (highest z) in
  if isHorizontal o then
    let near := String.eqb (crossAlign t) "near" || negb (zero_rotation s) in
    let center := String.eqb (crossAlign t) "center" in
    let v :=
      if on o "top" then
        if near then - n * lineHeight + lineHeight / 2
        else if center then - highest_ / 2 - halfCount * lineHeight + lineHeight
        else - highest_ + lineHeight / 2
      else
        if near then lineHeight / 2
        else if center then highest_ / 2 - halfCount * lineHeight
        else highest_ - n * lineHeight in
    if mirror t then v * (-1) else v
  else (1 - n) * lineHeight / 2.
(** The box behind a label; the sizes are those kept for the index, NaN when there are none. *)
Definition label_backdrop (z : sizes) (st : label_style) (i : nat) (x y offset : num) (textAlign textBaseline : string) : backdrop :=
  let p := Options.toPadding (backdropPadding st) in
  let size l := match l !! i with Some v => v | None => Num.nan end in
  let height_ := size (heights z) in
  let width_ := size (widths z) in
  let top := y + offset - Options.top (Options.sides p) in
  let left := x - Options.left (Options.sides p) in
  let top := if String.eqb textBaseline "middle" then top - height_ / 2
             else if String.eqb textBaseline "bottom" then top - height_ else top in
  let left := if String.eqb textAlign "center" then left - width_ / 2
              else if String.eqb textAlign "right" then left - width_ else left in
  mkBackdrop left top (width_ + Options.pwidth p) (height_ + Options.pheight p) (backdropColor st).
Definition label_item_at (s : scale E) (z : sizes) (base : string * num * num) (i : nat) (t : tick) : label_item :=
  let '(textAlign, x, y) := base in
  let st := labelAt (ticks s) i in
  let pixel := getPixelForTick s (Z.of_nat i) + labelOffset (ticks_ o) in
  let f := tick_font (ticks s) i in
  let offset := text_offset s z (tlabel t) (Options.lineHeight f) in
  let x := if isHorizontal o then pixel else x in
  let y := if isHorizontal o then y else pixel in
  mkLabelItem (label_rotation s) (tlabel t) f (l_color st) (l_strokeColor st) (l_strokeWidth st) offset textAlign text_baseline (x, y)
    (if showLabelBackdrop st then Some (label_backdrop z st i x y offset textAlign text_baseline) else None).
Definition with_labels (s : scale E) (items : list label_item) : scale E :=
  mkScale E (lay s) (geometry s) (min s) (max s) (_range s) (_dataLimitsCached s) (ticks s) (_labelSizes s) (_gridLineItems s)
    (Some items) (_ticksLength s) (_borderValue s) (_longestTextCache s) (own s).
Definition _computeLabelItems (s : scale E) (area : Interaction.rect) : option (scale E) :=
  match _getLabelSizes measure o tick_font fuel s with
  | None => None
  | Some (s, z) => Some (with_labels s (imap (label_item_at s z (label_base s z area)) (ticks s)))
  end.

(** The part of the canvas labels are clipped to. *)
Definition _computeLabelArea (l : layout) : option Interaction.rect :=
  if mirror (ticks_ o) then None
  else if on o "left" || on o "right" then Some (Interaction.mkRect (left l) 0 (right l) (c_height chart_))
  else if on o "top" || on o "bottom" then Some (Interaction.mkRect 0 (top l) (c_width chart_) (bottom l))
  else None.
(** The lines of a label; a missing one is printed as null. *)
Definition label_lines (t : Options.thing) : list string :=
  match t with
  | Options.Label s => [s]
  | Options.Nested l => List.map (fun x => match x with Some s => s | None => "null"%string end) l
  | Options.Missing => ["null"%string]
  end.
Definition draw_label (it : label_item) : list cmd :=
  ((match backdrop_ it with
    | Some b => [Set_ "fillStyle" (VStr (b_color b)); FillRect (b_left b) (b_top b) (b_width b) (b_height b)]
    | None => [] end) ++
   renderText measureMetrics (label_lines (label it)) 0 (textOffset it) (font_string (font it)) (Options.lineHeight (font it))
     (mkTextOptions (Some (strokeWidth it)) (Some (strokeColor it)) (Some (translation it)) (Some (rotation it)) (color it)
        (textAlign it) (textBaseline it) None false false 2))%list.
Definition drawLabels (s : scale E) (area : Interaction.rect) : option (scale E * list cmd) :=
  if negb (display (ticks_ o)) then Some (s, [])
  else
    match (match _labelItems s with Some _ => Some s | None => _computeLabelItems s area end) with
    | None => None
    | Some s' =>
        let cmds := List.flat_map draw_label (default [] (_labelItems s')) in
        Some (s', match _computeLabelArea (lay s) with
                  | Some a => clipArea a ++ cmds ++ unclipArea
                  | None => cmds end)%list
    end.

(** ** Title *)
Definition offsetFromEdge (l : layout) (edge : string) (offset : num) : num :=
  if String.eqb edge "top" then top l + offset else if String.eqb edge "left" then left l + offset
  else if String.eqb edge "bottom" then bottom l - offset else if String.eqb edge "right" then right l - offset
  else Num.nan.
Definition reverseAlign (align : string) : string :=
  if String.eqb align "left" then "right" else if String.eqb align "right" then "left" else align.
Definition titleAlign (align : string) (right reverse : bool) : string :=
  let ret := Options._toLeftRightCenter align in
  if (reverse && negb right) || (negb reverse && right) then reverseAlign ret else ret.
Record title_place := mkPlace { titleX : num; titleY : num; title_maxWidth : option num; title_rotation : num }.
(** [area] is the chart's own chart area. *)
Definition titleArgs (l : layout) (area : Interaction.rect) (offset : num) (align : string) : title_place :=
  let height := bottom l - top l in
  let width := right l - left l in
  if isHorizontal o then
    mkPlace (Options._alignStartEnd align (left l) (right l))
      match pos o with
      | AtValue pixel => pixel + height - offset
      | Side s => if String.eqb s "center" then (Interaction.bottom area + Interaction.top area) / 2 + height - offset
                  else offsetFromEdge l s offset
      end (Some (right l - left l)) 0
  else
    mkPlace
      match pos o with
      | AtValue pixel => pixel - width + offset
      | Side s => if String.eqb s "center" then (Interaction.left area + Interaction.right area) / 2 - width + offset
                  else offsetFromEdge l s offset
      end
      (Options._alignStartEnd align (bottom l) (top l)) None (if on o "left" then - HALF_PI else HALF_PI).
Definition drawTitle (l : layout) (area : Interaction.rect) : list cmd :=
  let t := title_ o in
  if negb (t_display t) then []
  else
    let f := Options.toFont (default_font chart_) (t_font t) Undefined in
    let p := Options.sides (Options.toPadding (t_padding t)) in
    let lh := Options.lineHeight f in
    let offset :=
      if on o "bottom" || on o "center" || match pos o with AtValue _ => true | Side _ => false end then
        match t_text t with
        | Many ls => lh / 2 + Options.bottom p + lh * (Num.of_nat (List.length ls) - 1)
        | One _ => lh / 2 + Options.bottom p
        end
      else lh / 2 + Options.top p in
    let a := titleArgs l area offset (t_align t) in
    renderText measureMetrics (lines_of (t_text t)) 0 0 (font_string f) lh
      (mkTextOptions None None (Some (titleX a, titleY a)) (Some (title_rotation a)) (t_color t)
         (titleAlign (t_align t) (on o "right") (reverse o)) "middle" (title_maxWidth a) false false 2).

(** ** Drawing and layers *)
Definition draw (s : scale E) (area : Interaction.rect) : option (scale E * list cmd) :=
  if negb (visible chart_ o) then Some (s, [])
  else
    match drawGrid s area with
    | None => None
    | Some (s, grid) =>
        match drawLabels s area with
        | None => None
        | Some (s', labels) =>
            Some (s', drawBackground (lay s) ++ grid ++ drawBorder_ s ++ drawTitle (lay s) area ++ labels)%list
        end
    end.
(** What a layer draws. *)
Inductive part := Whole | Behind | Border | Labels.
Definition _layers (tickZ : option num) (gridZ : option num) (own_draw : bool) : list (num * part) :=
  let tz := match tickZ with Some z => or0 z | None => 0 end in
  let gz := match gridZ with Some z => z | None => -1 end in
  if negb (visible chart_ o) || own_draw then [(tz, Whole)]
  else [(gz, Behind); (gz + 1, Border); (tz, Labels)].
Definition draw_part (s : scale E) (area : Interaction.rect) (p : part) : option (scale E * list cmd) :=
  match p with
  | Whole => draw s area
  | Behind => option_map (fun r => (fst r, drawBackground (lay (fst r)) ++ snd r ++ drawTitle (lay (fst r)) area))%list (drawGrid s area)
  | Border => Some (s, drawBorder_ s)
  | Labels => drawLabels s area
  end.
End Drawing.
(** The visible datasets on a scale: their axis id and their type. *)
Definition getMatchingVisibleMetas (metas : list (string * string)) (id : string) (type : option string) : list (string * string) :=
  List.filter (fun m => String.eqb (fst m) id && match type with Some t => String.eqb (snd m) t | None => true end) metas.
Definition _maxDigits (horizontal : bool) (l : layout) (lineHeight : num) : num :=
  (if horizontal then w l else h l) / lineHeight.
End ScaleDrawing.

(** ** Facts *)
Module ScaleDrawingFacts.
Import MathH Canvas CanvasFacts Painting ElementsFacts ScaleLayout ScaleDrawing.
Local Open Scope js_scope.

Section Facts.
Context `{MathLib} {E : Type} (measure : string -> string -> num) (measureMetrics : string -> metrics).
Context (K : subclass E) (chart_ : chart) (o : opts).
Context (tick_font : list tick -> nat -> Options.font) (fuel : nat).
Context (lineAt : list tick -> nat -> line_style * line_style) (labelAt : list tick -> nat -> label_style).
(** No sample size is given, which is the default. *)
Hypothesis no_sampling : Num.is_nan (sampleSize (ticks_ o)) = true.
Abbreviation draw_ := (draw measure measureMetrics K chart_ o tick_font fuel lineAt labelAt).
Abbreviation part_ := (draw_part measure measureMetrics K chart_ o tick_font fuel lineAt labelAt).

Lemma safe_grid_line xa ya xb yb st : safe (drawLine xa ya xb yb st).
Proof. unfold drawLine. destruct (_ || _); [exact safe_nil|]. apply safe_saved. safe. Qed.
Lemma safe_grid_items l : safe (List.flat_map (draw_item o) l).
Proof. apply flat_map_safe. intros it. unfold draw_item. safe; apply safe_grid_line. Qed.
Lemma safe_axis_border (s : scale E) : safe (drawBorder_ chart_ o lineAt s).
Proof.
  unfold drawBorder_. destruct (falsy _); [exact safe_nil|]. destruct (border_ends _ _ _ _) as [[[xa ya] xb] yb].
  apply safe_saved. safe.
Qed.
Lemma safe_scale_background l : safe (drawBackground o l).
Proof. unfold drawBackground. destruct (String.eqb _ _); [exact safe_nil|]. apply (safe_saved [_; _]). safe. Qed.
Lemma safe_scale_title l area : safe (drawTitle measureMetrics chart_ o l area).
Proof. unfold drawTitle. destruct (negb _); [exact safe_nil|]. apply safe_renderText. Qed.
Lemma safe_scale_labels (l : list label_item) : safe (List.flat_map (draw_label measureMetrics) l).
Proof. apply flat_map_safe. intros it. unfold draw_label. apply safe_app; [|apply safe_renderText]. destruct (backdrop_ it); safe. Qed.
Lemma safe_clipped a l : safe l -> safe (clipArea a ++ l ++ unclipArea).
Proof.
  intros S. unfold clipArea, unclipArea. change (safe (Save :: ([BeginPath; RectPath (Interaction.left a) (Interaction.top a)
    (Interaction.right a - Interaction.left a) (Interaction.bottom a - Interaction.top a); Clip] ++ l ++ [Restore]))).
  rewrite app_assoc. apply safe_saved. safe. exact S.
Qed.

(** *** Grid lines *)

(** The step between the ticks that get a line is a whole number, as it is for whole limits. *)
Definition whole_step (s : scale E) : Prop := exists k, 1 <= k < 2 ^ 52 /\ grid_step o s = Num.of_Z k.
Lemma grid_loop_ends (s : scale E) c n k : (1 <= k < 2 ^ 52)%Z -> (Z.of_nat n < 2 ^ 52)%Z ->
  forall m i, (0 <= i)%Z -> (i < Z.of_nat n + k)%Z -> (Z.max 0 (Z.of_nat n - i) < Z.of_nat m)%Z ->
  exists items, grid_loop K chart_ o lineAt m s c n (Num.of_Z i) (Num.of_Z k) = Some items.
Proof.
  intros Kk Nn. induction m as [|f IH]; intros i I0 I1 F; [lia|]. cbn [grid_loop]. unfold Num.of_nat.
  rewrite NumFacts.of_Z_lt by (unfold NumFacts.safe; lia). destruct (Z.ltb_spec i (Z.of_nat n)); [|eauto].
  rewrite NumFacts.of_Z_add by (unfold NumFacts.safe; lia).
  destruct (IH (i + k)%Z) as [items ->]; [lia..|]. eauto.
Qed.
Lemma grid_computed s area : whole_step s -> (Z.of_nat (ticks_length o s) < 2 ^ 52)%Z ->
  exists items, _computeGridLineItems K chart_ o lineAt s area
  = Some (with_grid s items (ticks_length o s) (fst (grid_ends chart_ o (lay s) area))).
Proof.
  intros (k & Kk & Q) N. unfold _computeGridLineItems. destruct (grid_ends _ _ _ _) as [b c]. rewrite Q.
  destruct (grid_loop_ends s c (ticks_length o s) k Kk N (S (ticks_length o s)) 0) as [items G]; [lia..|].
  change (Num.of_Z 0) with (0 : num) in G. rewrite G. exists items. reflexivity.
Qed.
Lemma grid_step_1 (s : scale E) : goffset (grid_ o) = false -> maxTicksLimit (ticks_ o) = None -> ticks s <> [] ->
  lengthZ (ticks s) < 2 ^ 52 -> grid_step o s = Num.of_Z 1.
Proof.
  intros G M T L. unfold grid_step, ticks_length. rewrite G, M, Nat.add_0_r.
  assert (P : 0 < lengthZ (ticks s)) by (destruct (ticks s); [congruence|unfold lengthZ; cbn [List.length]; lia]).
  unfold Num.of_nat. change (Z.of_nat (List.length (ticks s))) with (lengthZ (ticks s)).
  pose proof (NumExact.of_Z_div_exact 1 (lengthZ (ticks s))) as D. rewrite Z.mul_1_l in D.
  rewrite D by (unfold NumFacts.safe; lia). reflexivity.
Qed.
Lemma grid_lines (s : scale E) c : goffset (grid_ o) = false -> lengthZ (ticks s) < 2 ^ 52 -> forall m rest k,
  (k <= List.length (ticks s))%nat -> skipn k (ticks s) = rest -> (List.length rest < m)%nat ->
  grid_loop K chart_ o lineAt m s c (List.length (ticks s)) (Num.of_nat k) (Num.of_Z 1)
  = Some (imap (fun j t => grid_item_at chart_ o lineAt s c (k + j) (getPixelForValue K s (tvalue t))) rest).
Proof.
  intros G L. induction m as [|f IH]; intros rest k Kk R F; [lia|]. cbn [grid_loop]. unfold lengthZ, Num.of_nat in *.
  pose proof (f_equal (@List.length tick) R) as LR. rewrite List.length_skipn in LR.
  rewrite NumFacts.of_Z_lt by (unfold NumFacts.safe; lia). destruct rest as [|t rest]; cbn [List.length] in LR, F.
  - destruct (Z.ltb_spec (Z.of_nat k) (Z.of_nat (List.length (ticks s)))) as [C|C]; [lia|reflexivity].
  - destruct (Z.ltb_spec (Z.of_nat k) (Z.of_nat (List.length (ticks s)))) as [C|C]; [|lia].
    rewrite NumFacts.of_Z_add, NumFacts.trunc_of_Z by (unfold NumFacts.safe; lia).
    replace (Z.of_nat k + 1)%Z with (Z.of_nat (S k)) by lia.
    assert (N : nth_error (ticks s) k = Some t) by (rewrite <- (Nat.add_0_r k), <- List.nth_error_skipn, R; reflexivity).
    rewrite (IH rest (S k)); [|lia| |lia].
    + unfold ScaleBase.getPixelForGridLine. rewrite G, Nat2Z.id. cbn [imap]. f_equal. f_equal.
      * rewrite Nat.add_0_r. f_equal. unfold getPixelForTick, nthZ, lengthZ. rewrite Z.min_l by lia.
        destruct (Z.ltb_spec (Z.of_nat k) 0); [lia|]. now rewrite Nat2Z.id, N.
      * apply imap_ext. intros j x _. cbn. f_equal. lia.
    + change (S k) with (1 + k)%nat. rewrite <- List.skipn_skipn, R. reflexivity.
Qed.

(** Without an offset and a limit for the ticks, every tick of a scale gets one grid line
    and one mark, in order, both through the tick's own pixel aligned to the device. *)
Theorem grid_line_per_tick s area : goffset (grid_ o) = false -> maxTicksLimit (ticks_ o) = None ->
  lengthZ (ticks s) < 2 ^ 52 ->
  exists s', _computeGridLineItems K chart_ o lineAt s area = Some s' /\
  _ticksLength s' = List.length (ticks s) /\ _borderValue s' = fst (grid_ends chart_ o (lay s) area) /\
  _gridLineItems s' = Some (imap (fun i t =>
    grid_item_at chart_ o lineAt s (snd (grid_ends chart_ o (lay s) area)) i (getPixelForValue K s (tvalue t))) (ticks s)).
Proof.
  intros G M L. unfold _computeGridLineItems. destruct (grid_ends _ _ _ _) as [b c]. cbn [fst snd].
  assert (N : ticks_length o s = List.length (ticks s)) by (unfold ticks_length; rewrite G; lia). rewrite N.
  destruct (ticks s) as [|t ts] eqn:T.
  - cbn [List.length grid_loop imap]. change (Num.of_nat 0) with (0 : num). change (0 <? 0) with false. cbn [option_map].
    eexists. split; [reflexivity|]. repeat split.
  - rewrite <- T in *. rewrite (grid_step_1 s G M) by (auto; rewrite T; discriminate).
    change (0 : num) with (Num.of_nat 0). rewrite (grid_lines s c G L _ (ticks s) 0) by (auto; lia).
    eexists. split; [reflexivity|]. repeat split.
Qed.

(** *** Drawing *)
Lemma sizes_exist (s : scale E) : exists z c, _getLabelSizes measure o tick_font fuel s = Some (with_sizes s (Some z) c, z).
Proof.
  unfold _getLabelSizes. destruct (_labelSizes s) as [z|] eqn:Z; [exists z, (_longestTextCache s); destruct s; cbn in Z; now subst|].
  destruct (Num.lt (sampleSize (ticks_ o)) _) eqn:C; [apply NumFacts.lt_notnan in C as [C _]; congruence|].
  destruct (_computeLabelSizes _ _ _ _) as [c z]. eauto.
Qed.
Abbreviation drawLabels_ := (drawLabels measure measureMetrics K chart_ o tick_font fuel labelAt).
Lemma labels_drawn (s : scale E) area : exists s' cmds, drawLabels_ s area = Some (s', cmds) /\ safe cmds /\
  drawLabels_ s' area = Some (s', cmds) /\
  _gridLineItems s' = _gridLineItems s /\ lay s' = lay s /\ ticks s' = ticks s /\ _borderValue s' = _borderValue s.
Proof.
  unfold drawLabels. destruct (negb (display (ticks_ o))); [exists s, []; repeat split; auto using safe_nil; apply safe_nil|].
  assert (S : forall l lab, safe (match _computeLabelArea chart_ o l with
      | Some a => clipArea a ++ List.flat_map (draw_label measureMetrics) lab ++ unclipArea
      | None => List.flat_map (draw_label measureMetrics) lab end)%list).
  { intros l lab. destruct (_computeLabelArea _ _ _); [apply safe_clipped|]; apply safe_scale_labels. }
  destruct (_labelItems s) as [items|] eqn:I.
  - eexists. eexists. split; [reflexivity|]. rewrite I. split; [apply S|]. split; [now rewrite I|]. repeat split.
  - unfold _computeLabelItems. destruct (sizes_exist s) as (z & c & ->). eexists. eexists. split; [reflexivity|].
    cbn [_labelItems with_labels]. split; [apply S|]. repeat split.
Qed.

(** *** Marks on the canvas *)

(** Commands that leave the marks [m], whatever the path, and then everything but the path
    as it was. *)
Definition paints (l : list cmd) (m : canvas -> list mark) : Prop :=
  forall c p, painted (with_path p c) l = m c /\ exists q, afterwards (with_path p c) l = with_path q c.
Lemma paints_nil : paints [] (fun _ => []).
Proof. intros c p. split; [reflexivity|now exists p]. Qed.
Lemma paints_app l1 l2 m1 m2 : paints l1 m1 -> paints l2 m2 -> paints (l1 ++ l2) (fun c => m1 c ++ m2 c)%list.
Proof.
  intros H1 H2 c p. rewrite painted_app, afterwards_app. destruct (H1 c p) as [-> (q & ->)].
  destruct (H2 c q) as [-> (q' & ->)]. eauto.
Qed.
Lemma paints_map {A} (f : A -> list cmd) (m : canvas -> A -> list mark) l :
  (forall a, paints (f a) (fun c => m c a)) -> paints (List.flat_map f l) (fun c => List.flat_map (m c) l).
Proof. intros F. induction l as [|a l IH]; [exact paints_nil|]. apply (paints_app _ _ (fun c => m c a)); auto. Qed.
Lemma paints_pathless l : pathless l -> (forall c, exists q, afterwards c l = with_path q c) ->
  paints l (fun c => painted c l).
Proof.
  intros P R c p. split; [apply P|]. destruct (R (with_path p c)) as (q & ->). now exists q.
Qed.
Lemma paints_before l1 l2 m c : paints l1 m -> pathless l2 -> painted c (l1 ++ l2) = (m c ++ painted c l2)%list.
Proof.
  intros P L. rewrite painted_app. replace c with (with_path (path_ c) c) at 1 2 by now destruct c.
  destruct (P c (path_ c)) as [-> (q & ->)]. now rewrite (proj1 (L c q)).
Qed.

Definition line_mark (c : canvas) (xa ya xb yb : num) (st : line_style) : list mark :=
  if falsy (lwidth st) || String.eqb (lcolor st) "" then []
  else [mark_of (now_ c) (Outline (VStr (lcolor st)) (VNum (lwidth st)) (dash st) (VNum (dashOffset st))
                           [MoveTo xa ya; LineTo xb yb])].
Definition item_marks (c : canvas) (it : grid_item) : list mark :=
  let e := ends it in
  ((if drawOnChartArea (grid_ o) then line_mark c (x1 e) (y1 e) (x2 e) (y2 e) (line_ it) else []) ++
   (if drawTicks (grid_ o) then line_mark c (tx1 e) (ty1 e) (tx2 e) (ty2 e) (tick_ it) else []))%list.
Definition grid_marks (s : scale E) (c : canvas) : list mark :=
  if gdisplay (grid_ o) then List.flat_map (item_marks c) (default [] (_gridLineItems s)) else [].
Definition border_mark (s : scale E) (c : canvas) : list mark :=
  if falsy (axisWidth o) then []
  else let '(xa, ya, xb, yb) := border_ends chart_ o lineAt s in
       [mark_of (now_ c) (Outline (VStr (borderColor (grid_ o))) (VNum (borderWidth (grid_ o))) (dash_ (now_ c))
                           (property_ (now_ c) "lineDashOffset") [MoveTo xa ya; LineTo xb yb])].
Definition background_mark (l : layout) (c : canvas) : list mark :=
  if String.eqb (backgroundColor o) "" then []
  else [mark_of (now_ c) (Box (VStr (backgroundColor o)) (left l) (top l) (w l) (h l))].

Lemma paints_line xa ya xb yb st : paints (drawLine xa ya xb yb st) (fun c => line_mark c xa ya xb yb st).
Proof.
  intros c p. unfold drawLine, line_mark. destruct (_ || _); [split; [reflexivity|now exists p]|].
  split; [reflexivity|eexists; reflexivity].
Qed.
Lemma paints_items l : paints (List.flat_map (draw_item o) l) (fun c => List.flat_map (item_marks c) l).
Proof.
  apply paints_map. intros it. unfold draw_item, item_marks.
  apply (paints_app _ _ (fun c => if drawOnChartArea (grid_ o) then _ else _)
           (fun c => if drawTicks (grid_ o) then _ else _)).
  - destruct (drawOnChartArea (grid_ o)); [apply paints_line|exact paints_nil].
  - destruct (drawTicks (grid_ o)); [apply paints_line|exact paints_nil].
Qed.
Lemma paints_border s : paints (drawBorder_ chart_ o lineAt s) (border_mark s).
Proof.
  intros c p. unfold drawBorder_, border_mark. destruct (falsy _); [split; [reflexivity|now exists p]|].
  destruct (border_ends _ _ _ _) as [[[xa ya] xb] yb]. split; [reflexivity|eexists; reflexivity].
Qed.
Lemma paints_background l : paints (drawBackground o l) (background_mark l).
Proof.
  intros c p. unfold drawBackground, background_mark. destruct (String.eqb _ _); [split; [reflexivity|now exists p]|].
  split; [reflexivity|eexists; reflexivity].
Qed.

(** Drawing the lines notes them, and leaves what else is drawn. *)
Lemma grid_drawn (s : scale E) area : (_gridLineItems s = None -> whole_step s /\ (Z.of_nat (ticks_length o s) < 2 ^ 52)%Z) ->
  exists s' cmds, drawGrid K chart_ o lineAt s area = Some (s', cmds) /\ safe cmds /\
  (forall s'', _gridLineItems s'' = _gridLineItems s' -> drawGrid K chart_ o lineAt s'' area = Some (s'', cmds)) /\
  (forall items, _gridLineItems s = Some items -> _gridLineItems s' = Some items) /\
  (_gridLineItems s = None -> exists s1, _computeGridLineItems K chart_ o lineAt s area = Some s1 /\
     _gridLineItems s' = _gridLineItems s1 /\ _borderValue s' = _borderValue s1) /\
  lay s' = lay s /\ paints cmds (grid_marks s').
Proof.
  intros W. unfold drawGrid.
  assert (P : forall l s', _gridLineItems s' = Some l ->
    safe (if gdisplay (grid_ o) then List.flat_map (draw_item o) l else []) /\
    paints (if gdisplay (grid_ o) then List.flat_map (draw_item o) l else []) (grid_marks s')).
  { intros l s' Q. unfold grid_marks. rewrite Q. destruct (gdisplay (grid_ o)).
    - split; [apply safe_grid_items|apply paints_items].
    - split; [exact safe_nil|exact paints_nil]. }
  destruct (_gridLineItems s) as [items|] eqn:G.
  - exists s, (if gdisplay (grid_ o) then List.flat_map (draw_item o) items else []). rewrite G.
    split; [reflexivity|]. destruct (P items s G) as [P1 P2].
    repeat split; auto; try apply P1; try apply P2; try discriminate. intros s'' Q. rewrite Q. now rewrite Q.
  - destruct (W eq_refl) as [W1 W2]. destruct (grid_computed s area W1 W2) as [items C]. rewrite C.
    set (s' := with_grid _ _ _ _) in *. exists s', (if gdisplay (grid_ o) then List.flat_map (draw_item o) items else []).
    split; [reflexivity|]. destruct (P items s' eq_refl) as [P1 P2].
    split; [exact P1|]. split; [intros s'' Q; change (_gridLineItems s') with (Some items) in Q; rewrite Q; now rewrite Q|].
    split; [discriminate|].
    split; [intros _; now exists s'|]. split; [reflexivity|exact P2].
Qed.

(** Title and labels. *)
Lemma pathless_named p t : pathless (named p t).
Proof. unfold named. destruct (String.eqb _ _); [exact pathless_nil|now apply pathless_one]. Qed.
Lemma pathless_decorate m x y t : strikethrough t = false -> underline t = false -> decorateText m x y t = [].
Proof. unfold decorateText. now intros -> ->. Qed.
Lemma pathless_render ls x y f lh t : strikethrough t = false -> underline t = false ->
  pathless (renderText measureMetrics ls x y f lh t).
Proof.
  intros St Un. unfold renderText. cbn zeta. set (stroke := _ && _).
  apply (pathless_app [_]); [now apply pathless_one|]. apply (pathless_app [_]); [now apply pathless_one|].
  apply pathless_app; [|apply pathless_app; [|now apply pathless_one]].
  - unfold setRenderOpts. apply pathless_app; [destruct (Canvas.translation t) as [[? ?]|]; [now apply pathless_one|exact pathless_nil]|].
    apply pathless_app; [destruct (Canvas.text_rotation t); [now apply pathless_one|exact pathless_nil]|].
    repeat apply pathless_app; apply pathless_named.
  - revert y. induction ls as [|l ls IH]; intros y; [exact pathless_nil|]. cbn [text_lines].
    apply pathless_app; [|apply IH]. unfold text_line. rewrite pathless_decorate by auto. rewrite app_nil_r.
    apply pathless_app; [|now apply pathless_one]. destruct stroke; [|exact pathless_nil].
    apply pathless_app; [destruct (Canvas.strokeColor t); [apply pathless_named|exact pathless_nil]|].
    apply pathless_app; [destruct (Canvas.strokeWidth t); [now apply pathless_one|exact pathless_nil]|now apply pathless_one].
Qed.
Lemma pathless_labels l : pathless (List.flat_map (draw_label measureMetrics) l).
Proof.
  apply pathless_map. intros it. unfold draw_label. apply pathless_app; [|now apply pathless_render].
  destruct (backdrop_ it); [|exact pathless_nil]. now apply pathless_list; repeat constructor.
Qed.
Lemma paints_title l area : paints (drawTitle measureMetrics chart_ o l area)
  (fun c => painted c (drawTitle measureMetrics chart_ o l area)).
Proof.
  unfold drawTitle. destruct (negb _); [apply paints_pathless; [exact pathless_nil|]; intros c; exists (path_ c); now destruct c|].
  cbn zeta. apply paints_pathless; [now apply pathless_render|]. intros c.
  match goal with |- context [renderText ?m ?ls ?x ?y ?f ?lh ?t] =>
    destruct (renderText_saved m ls x y f lh t) as (body & -> & B) end. now apply saved_restored.
Qed.
Lemma labels_pathless (s : scale E) area s' cmds : drawLabels_ s area = Some (s', cmds) -> pathless cmds.
Proof.
  unfold drawLabels. destruct (negb (display (ticks_ o))); [intros [= <- <-]; exact pathless_nil|].
  destruct (match _labelItems s with Some _ => _ | None => _ end) as [s1|]; [|discriminate]. intros [= <- <-].
  destruct (_computeLabelArea _ _ _) as [a|]; [|apply pathless_labels].
  apply (pathless_app [Save]); [now apply pathless_one|].
  intros c p. apply pathless_fresh.
Qed.

(** Drawing layers one after the other. *)
Fixpoint draw_parts (s : scale E) (area : Interaction.rect) (ps : list part) : option (scale E * list cmd) :=
  match ps with
  | [] => Some (s, [])
  | p :: r =>
      match part_ s area p with
      | Some (s1, c1) => match draw_parts s1 area r with Some (s2, c2) => Some (s2, c1 ++ c2)%list | None => None end
      | None => None
      end
  end.

(** C17: what drawing a visible scale paints on a canvas in any state.  Drawn at once:
    the background (its whole box, filled with its color), then for every grid line in
    order the line and the tick mark, each from end to end in its own width, color and
    dashes, then the border, the title and the labels.  Drawn by its layers: the same
    marks, the title before the border.  Either way the canvas has the saved states it
    had; the grid lines and labels are computed once and kept, so that drawing again
    before the next update issues the same commands. *)
Theorem scale_drawn s area tickZ gridZ :
  visible chart_ o = true ->
  (_gridLineItems s = None -> whole_step s /\ (Z.of_nat (ticks_length o s) < 2 ^ 52)%Z) ->
  let title := drawTitle measureMetrics chart_ o (lay s) area in
  exists s' once layered labels,
    draw_ s area = Some (s', once) /\ draw_ s' area = Some (s', once) /\
    draw_parts s area (List.map snd (_layers chart_ o tickZ gridZ false)) = Some (s', layered) /\
    drawLabels_ s' area = Some (s', labels) /\
    (forall items, _gridLineItems s = Some items -> _gridLineItems s' = Some items) /\
    (_gridLineItems s = None -> exists s1,
      _computeGridLineItems K chart_ o lineAt s area = Some s1 /\ _gridLineItems s' = _gridLineItems s1 /\
      _borderValue s' = _borderValue s1) /\
    forall c : canvas,
      painted c once = (background_mark (lay s) c ++ grid_marks s' c ++ border_mark s' c ++
                        painted c title ++ painted c labels)%list /\
      painted c layered = (background_mark (lay s) c ++ grid_marks s' c ++ painted c title ++
                           border_mark s' c ++ painted c labels)%list /\
      saved_ (afterwards c once) = saved_ c /\ saved_ (afterwards c layered) = saved_ c.
Proof.
  intros V W title. destruct (grid_drawn s area W) as (s1 & grid & G & SG & AG & KG & CG & LG & PG).
  destruct (labels_drawn s1 area) as (s2 & labels & L & SL & AL & K1 & K2 & K3 & K4).
  assert (B : drawBorder_ chart_ o lineAt s2 = drawBorder_ chart_ o lineAt s1)
    by (unfold drawBorder_, border_ends; now rewrite K2, K3, K4).
  assert (P : forall c, grid_marks s2 c = grid_marks s1 c) by (intros; unfold grid_marks; now rewrite K1).
  assert (Q : forall c, border_mark s2 c = border_mark s1 c)
    by (intros; unfold border_mark, border_ends; now rewrite K2, K3, K4).
  set (once := (drawBackground o (lay s) ++ grid ++ drawBorder_ chart_ o lineAt s1 ++ title ++ labels)%list).
  set (layered := ((drawBackground o (lay s) ++ grid ++ title) ++ drawBorder_ chart_ o lineAt s1 ++ labels ++ [])%list).
  exists s2, once, layered, labels.
  split; [unfold draw; rewrite V, G, L; cbn [negb]; unfold once, title; now rewrite LG|].
  split; [unfold draw; rewrite V, (AG s2 K1), AL, B; cbn [negb]; unfold once, title; now rewrite K2, LG|].
  split; [unfold _layers; rewrite V; cbn [negb orb List.map snd draw_parts draw_part]; rewrite G; cbn [option_map fst snd];
    rewrite L; unfold layered, title; now rewrite LG|].
  split; [exact AL|]. split; [intros items I; rewrite K1; now apply KG|].
  split; [intros I; destruct (CG I) as (s3 & C & C1 & C2); exists s3; rewrite K1, K4; auto|].
  intros c. rewrite P, Q. pose proof (labels_pathless _ _ _ _ L) as PL.
  pose proof (paints_background (lay s)) as P1. pose proof (paints_border s1) as P3.
  pose proof (paints_title (lay s) area) as P4. fold title in P4.
  assert (Bal : forall l, safe l -> saved_ (afterwards c l) = saved_ c).
  { intros l [_ Bl]. destruct (saved_suffix l c 0 0 (saved_ c) (Bl 0%nat)) as (k & -> & Lk); [now exists []|].
    now destruct k. }
  assert (ST : safe title) by apply safe_scale_title.
  pose proof (safe_scale_background (lay s)) as SB. pose proof (safe_axis_border s1) as SA.
  split; [|split; [|split; apply Bal; unfold once, layered; safe; auto]].
  - pose proof (paints_app _ _ _ _ P1 (paints_app _ _ _ _ PG (paints_app _ _ _ _ P3 P4))) as PA.
    replace once with ((drawBackground o (lay s) ++ grid ++ drawBorder_ chart_ o lineAt s1 ++ title) ++ labels)%list
      by (unfold once; now rewrite <- !app_assoc).
    rewrite (paints_before _ _ _ c PA PL). now rewrite <- !app_assoc.
  - pose proof (paints_app _ _ _ _ P1 (paints_app _ _ _ _ PG (paints_app _ _ _ _ P4 P3))) as PA.
    replace layered with ((drawBackground o (lay s) ++ grid ++ title ++ drawBorder_ chart_ o lineAt s1) ++ labels)%list
      by (unfold layered; now rewrite app_nil_r, <- !app_assoc).
    rewrite (paints_before _ _ _ c PA PL). now rewrite <- !app_assoc.
Qed.
End Facts.

(** *** Examples *)
#[local] Instance level_math : MathLib := {
  math_pow x y := x; math_log10 x := x; math_sin x := 0; math_cos x := 1; math_atan2 y x := y }.
Definition demo_line : list tick -> nat -> line_style * line_style :=
  fun _ _ => (mkLineStyle "gray" 1 (VArr []) 0, mkLineStyle "gray" 1 (VArr []) 0).
Definition demo_label : list tick -> nat -> label_style := fun _ _ => mkLabelStyle "black" "" 0 true (VNum 2) "white".
Definition demo_area : Interaction.rect := Interaction.mkRect 0 0 200 80.
Definition demo_drawn : scale unit :=
  with_ticks ScaleLayoutFacts.demo_scale (List.map (fun v => mkTick v (Options.Label "a"%string) false) [0; 1; 2]).
Abbreviation demo_kind := ScaleLayoutFacts.demo_subclass.
Abbreviation demo_chart := ScaleLayoutFacts.demo_chart.
Abbreviation demo_opts := ScaleLayoutFacts.demo_opts.
Abbreviation demo_font := ScaleLayoutFacts.demo_font.
Abbreviation demo_text := ScaleLayoutFacts.demo_text.
Lemma grid_line_per_tick_witness : exists s',
  _computeGridLineItems demo_kind demo_chart demo_opts demo_line demo_drawn demo_area = Some s' /\ _ticksLength s' = 3%nat.
Proof.
  destruct (grid_line_per_tick demo_kind demo_chart demo_opts demo_line demo_drawn demo_area eq_refl eq_refl eq_refl)
    as (s' & C & L & _). exists s'. split; [exact C|exact L].
Defined.
(** On white: the background is under the three grid lines. *)
Definition white_opts : opts :=
  let d := demo_opts in
  mkOpts (axis d) (pos d) (offset d) (reverse d) (shown_ d) (alignToPixels d) (ticks_ d) (grid_ d) (title_ d) "white".
Lemma scale_drawn_witness : exists s' once,
  draw demo_text (fun _ => mkMetrics 0 1 1 0) demo_kind demo_chart white_opts demo_font 5 demo_line demo_label demo_drawn demo_area
  = Some (s', once) /\
  forall c, exists rest, painted c once =
    (mark_of (now_ c) (Box (VStr "white") (left (lay demo_drawn)) (top (lay demo_drawn)) (w (lay demo_drawn)) (h (lay demo_drawn))) ::
     grid_marks white_opts s' c ++ rest)%list.
Proof.
  assert (W : whole_step white_opts demo_drawn) by (exists 1%Z; split; [lia|vm_compute; reflexivity]).
  destruct (scale_drawn demo_text (fun _ => mkMetrics 0 1 1 0) demo_kind demo_chart white_opts demo_font 5 demo_line demo_label
    eq_refl demo_drawn demo_area None None eq_refl) as (s' & once & layered & labels & D & _ & _ & _ & _ & _ & P).
  { intros _. split; [exact W|reflexivity]. }
  exists s', once. split; [exact D|]. intros c. destruct (P c) as [Q _]. rewrite Q. eexists. reflexivity.
Defined.

(** With a sample size the sizes are those of the sample, but the boxes behind the labels look
    theirs up by the index of the tick: the box of the second tick of three has no size when
    one tick is measured, and is not painted. *)
Definition sampled_opts : opts :=
  mkOpts "x" (Side "bottom") false false (Fixed true) false
    (mkTickOpts true 0 50 3 "center" "near" false 0 None 1 true "" 3) (grid_ demo_opts) (title_ demo_opts) "".
Lemma sampled_backdrop_lost :
  option_map (fun s => List.map (fun it => option_map b_width (backdrop_ it)) (default [] (_labelItems s)))
    (_computeLabelItems demo_text demo_kind sampled_opts demo_font 5 demo_label demo_drawn demo_area)
  = Some [Some 10; Some Num.nan; Some Num.nan].
Proof. vm_compute. reflexivity. Qed.
End ScaleDrawingFacts.
