(* ===== verification/Logarithmic.v ===== *)
(** The logarithmic scale of webui/public/chart.js: its range, its ticks and its pixels.

    [Math.log10] and [Math.pow] are those of [MathLib].  The range and the values of a
    scale may be null, so they are JavaScript values.

    Proved: a scale whose ends are free gets a range over 0 that holds its data; the loop
    of the ticks ends and gives every multiple of a power of ten up to the end of the
    range, once and in order. *)
From Stdlib Require Import ZArith Lia Bool List String.
From Stdlib Require Import SpecFloat.
From stdpp Require Import base list.
From S2P Require Import Prelude JsNumber NumExact JsArray JsValue HelpersCore HelpersMath Options Scale.
Import ListNotations.
Open Scope Z_scope.

Module Logarithmic.
Import Js Core MathH.
Local Open Scope js_scope.

(** [===] of two values that are numbers, null or undefined. *)
Definition same (a b : value) : bool :=
  match a, b with
  | VNum x, VNum y => x =? y
  | Null, Null | Undefined, Undefined => true
  | _, _ => false
  end.

(** [min], [max] and [_zero]: whether a zero was met, which a logarithm cannot show. *)
Record scale := mkScale { min : value; max : value; zero : bool }.

Definition parse (s : scale) (raw : value) : value * scale :=
  match Linear.parse raw with
  | None => (Null, s)
  | Some v =>
      if v =? 0 then (Undefined, mkScale (min s) (max s) true)
      else (if Num.is_finite v && (0 <? v) then VNum v else Null, s)
  end.

Section Lib.
Context `{MathLib}.

Definition isMajor (tickVal : num) : bool :=
  tickVal / math_pow 10 (Num.floor (math_log10 tickVal)) =? 1.
Record tick := mkTick { tvalue : num; major : bool }.
Definition new_tick (v : num) : tick := mkTick v (isMajor v).

(** The loop of [generateTicks]: the ticks, and the value it stops at; None: it does not
    stop within [fuel]. *)
Fixpoint tick_loop (fuel : nat) (endExp endSignificand exp significand precision tickVal : num)
    : option (list tick * num) :=
  match fuel with
  | O => None
  | S f =>
      let significand := significand + 1 in
      let '(significand, exp, precision) :=
        if significand =? 10
        then (1, exp + 1, if 0 <=? exp + 1 then 1 else precision)
        else (significand, exp, precision) in
      let next := Num.round (significand * math_pow 10 exp * precision) / precision in
      if (exp <? endExp) || ((exp =? endExp) && (significand <? endSignificand))
      then option_map (fun r => (new_tick tickVal :: fst r, snd r))
             (tick_loop f endExp endSignificand exp significand precision next)
      else Some ([new_tick tickVal], next)
  end.
Definition generateTicks (fuel : nat) (gmin gmax : value) (rmin rmax : num) : option (list tick) :=
  let endExp := Num.floor (math_log10 rmax) in
  let endSignificand := Num.ceil (rmax / math_pow 10 endExp) in
  let tickVal := to_num (finiteOrDefault gmin (VNum (math_pow 10 (Num.floor (math_log10 rmin))))) in
  let exp := Num.floor (math_log10 tickVal) in
  let significand := Num.floor (tickVal / math_pow 10 exp) in
  let precision := if exp <? 0 then math_pow 10 (Num.abs exp) else 1 in
  option_map (fun r => fst r ++ [new_tick (to_num (finiteOrDefault gmax (VNum (snd r))))])
    (tick_loop fuel endExp endSignificand exp significand precision tickVal).

(** [exp(v, m)] of [handleTickRangeOptions]. *)
Definition decade (v m : num) : num := math_pow 10 (Num.floor (math_log10 v) + m).
Definition handleTickRangeOptions (s : scale) (minDefined maxDefined : bool) (suggestedMin : value) : scale :=
  let setMin (v : num) (mn : value) := if minDefined then mn else VNum v in
  let setMax (v : num) (mx : value) := if maxDefined then mx else VNum v in
  let mn := min s in
  let mx := max s in
  let '(mn, mx) :=
    if same mn mx then
      if to_num mn <=? 0 then (setMin 1 mn, setMax 10 mx)
      else (setMin (decade (to_num mn) (-1)) mn, setMax (decade (to_num mx) 1) mx)
    else (mn, mx) in
  let mn := if to_num mn <=? 0 then setMin (decade (to_num mx) (-1)) mn else mn in
  let mx := if to_num mx <=? 0 then setMax (decade (to_num mn) 1) mx else mx in
  let mn := if zero s && negb (same (min s) suggestedMin) && same mn (VNum (decade (to_num (min s)) 0))
            then setMin (decade (to_num mn) (-1)) mn else mn in
  mkScale mn mx (zero s).
(** [data] is the result of [getMinMax(true)]. *)
Definition determineDataLimits (s : scale) (data : value * value) (beginAtZero minDefined maxDefined : bool)
    (suggestedMin : value) : scale :=
  let bound v := if isNumberFinite v then VNum (Num.max 0 (to_num v)) else Null in
  handleTickRangeOptions (mkScale (bound (fst data)) (bound (snd data)) (zero s || beginAtZero))
    minDefined maxDefined suggestedMin.

(** What [buildTicks] leaves: the range, the values at the two ends, and the ticks. *)
Record built := mkBuilt { bmin : num; bmax : num; bstart : num; bend : num; bticks : list tick }.
Definition buildTicks (fuel : nat) (userMin userMax : value) (bounds_ticks reverse : bool) (mn mx : num) : option built :=
  option_map (fun ticks =>
    let r := if bounds_ticks then _setMinAndMaxByKey (List.map tvalue ticks) (mkRange mn mx) else mkRange mn mx in
    if reverse then mkBuilt (rmin r) (rmax r) (rmax r) (rmin r) (List.rev ticks)
    else mkBuilt (rmin r) (rmax r) (rmin r) (rmax r) ticks)
    (generateTicks fuel userMin userMax mn mx).

(** [configure]: [_startValue] and [_valueRange]. *)
Definition configure (mn mx : num) : num * num := (math_log10 mn, math_log10 mx - math_log10 mn).
Definition getPixelForValue (pixelForDecimal : num -> num) (ends : num * num) (mn : num) (v : value) : num :=
  let v := match v with
           | Undefined => VNum mn
           | VNum x => if x =? 0 then VNum mn else v
           | _ => v
           end in
  match v with
  | VNum x =>
      if Num.is_nan x then Num.nan
      else pixelForDecimal (if x =? mn then 0 else (math_log10 x - fst ends) / snd ends)
  | _ => Num.nan
  end.
Definition getValueForPixel (decimalForPixel : num -> num) (ends : num * num) (pixel : num) : num :=
  math_pow 10 (fst ends + decimalForPixel pixel * snd ends).
End Lib.
End Logarithmic.

Module LogarithmicFacts.
Import Js Core MathH Num NumFacts Logarithmic.

(** *** The powers of ten *)
Definition ten (e : Z) : num := of_decimal 1 e.

Lemma ten_table : List.Forall (fun e => lt (ten e) (ten (e + 1)) = true) (AutoSkip.range (-106) 106).
Proof.
  assert (T : forallb (fun e => lt (ten e) (ten (e + 1))) (AutoSkip.range (-106) 106) = true) by (vm_compute; reflexivity).
  apply List.Forall_forall. intros e I. exact (proj1 (forallb_forall _ _) T e I).
Qed.
Lemma ten_next e : -106 <= e < 106 -> lt (ten e) (ten (e + 1)) = true.
Proof.
  intros E. apply (proj1 (List.Forall_forall _ _) ten_table e). unfold AutoSkip.range. apply in_map_iff.
  exists (Z.to_nat (e + 106)). split; [lia|]. apply in_seq. lia.
Qed.
Lemma ten_lt a b : -106 <= a -> a < b -> b <= 106 -> lt (ten a) (ten b) = true.
Proof.
  intros A AB B. replace b with (a + 1 + Z.of_nat (Z.to_nat (b - a - 1))) by lia.
  assert (K : a + 1 + Z.of_nat (Z.to_nat (b - a - 1)) <= 106) by lia. revert K.
  induction (Z.to_nat (b - a - 1)) as [|k IH]; intros K.
  - rewrite Z.add_0_r. apply ten_next. lia.
  - apply (lt_trans _ (ten (a + 1 + Z.of_nat k))); [apply IH; lia|].
    replace (a + 1 + Z.of_nat (S k)) with (a + 1 + Z.of_nat k + 1) by lia. apply ten_next. lia.
Qed.
Lemma ten_pos e : -106 <= e <= 106 -> lt 0%js (ten e) = true.
Proof.
  intros E. apply (lt_le_trans _ (ten (-106))); [vm_compute; reflexivity|].
  destruct (Z.eq_dec e (-106)) as [->|N]; [apply le_refl; vm_compute; reflexivity|]. apply lt_le, ten_lt; lia.
Qed.

#[local] Opaque ten.

Section Facts.
Context `{MathLib}.

(** What ECMAScript's [Math.log10] and [Math.pow] are relied on for: the floor of the
    logarithm is the exponent, or one more just under a power of ten, and the powers of
    ten are the numbers nearest to them. *)
Class Decades : Prop := {
  log_floor v : le (ten (-100)) v = true -> le v (ten 100) = true ->
    exists e, -101 <= e <= 101 /\ floor (math_log10 v) = of_Z e /\
      lt (ten (e - 1)) v = true /\ lt v (ten (e + 1)) = true;
  pow_ten e : -106 <= e <= 106 -> math_pow 10%js (of_Z e) = ten e
}.

Lemma decade_around v m : Decades -> le (ten (-100)) v = true -> le v (ten 100) = true -> -1 <= m <= 1 ->
  exists e, -101 <= e <= 101 /\ decade v (of_Z m) = ten (e + m) /\ lt (ten (e - 1)) v = true /\ lt v (ten (e + 1)) = true.
Proof.
  intros D L U M. destruct (log_floor v L U) as (e & E & F & A & B). exists e. split; [exact E|].
  split; [|now split]. unfold decade. rewrite F, of_Z_add by (unfold safe; lia). apply pow_ten. lia.
Qed.
Lemma le_neq_lt a b : le a b = true -> eq a b = false -> lt a b = true.
Proof.
  intros AB EQ. destruct (lt a b) eqn:X; [reflexivity|]. exfalso. destruct (le_notnan _ _ AB) as [Na Nb].
  pose proof (le_not_lt b a Nb Na) as Y. rewrite X in Y. cbn in Y. pose proof (le_antisym _ _ AB Y). congruence.
Qed.
Lemma in_wide v : le (ten (-90)) v = true -> le v (ten 90) = true -> le (ten (-100)) v = true /\ le v (ten 100) = true.
Proof.
  intros L U. split.
  - refine (le_trans _ (ten (-90)) _ _ L). apply lt_le, ten_lt; lia.
  - refine (le_trans _ (ten 90) _ U _). apply lt_le, ten_lt; lia.
Qed.
(** One decade down from a value that is not too small is still in the range. *)
Lemma decade_below v : Decades -> le (ten (-90)) v = true -> le v (ten 90) = true ->
  lt (decade v (-1)%js) v = true /\ le (ten (-100)) (decade v (-1)%js) = true /\ le (decade v (-1)%js) (ten 100) = true /\
  lt v (decade v 1%js) = true.
Proof.
  intros D L U. destruct (in_wide v L U) as [L' U'].
  destruct (decade_around v (-1) D L' U' ltac:(lia)) as (e & E & Q & A & B).
  destruct (decade_around v 1 D L' U' ltac:(lia)) as (e' & E' & Q' & A' & B').
  change (of_Z (-1)) with (-1)%js in Q. change (of_Z 1) with 1%js in Q'. rewrite Q, Q'.
  assert (Low : -92 < e).
  { destruct (Z.lt_ge_cases (-92) e) as [G|G]; [exact G|exfalso].
    assert (X : lt v (ten (-90)) = true) by (apply (lt_trans _ (ten (e + 1))); [exact B|apply ten_lt; lia]).
    pose proof (lt_le_trans _ _ _ X L) as Y. now rewrite lt_irrefl in Y. }
  split; [exact A|]. split.
  - apply lt_le, ten_lt; lia.
  - split; [|exact B']. apply lt_le. apply (lt_le_trans _ v); [exact A|exact U'].
Qed.

(** The last adjustment of [handleTickRangeOptions] leaves the lower end over 0. *)
Lemma zero_clause (c : bool) mn : Decades -> le (ten (-100)) mn = true -> le mn (ten 100) = true ->
  exists m, (if c then VNum (decade mn (-1)%js) else VNum mn) = VNum m /\ lt 0%js m = true /\ le m mn = true.
Proof.
  intros D L U. destruct c.
  - destruct (decade_around mn (-1) D L U ltac:(lia)) as (e & E & Q & A & B).
    exists (decade mn (-1)%js). change (of_Z (-1)) with (-1)%js in Q. rewrite Q. split; [reflexivity|].
    split; [apply ten_pos; lia|now apply lt_le].
  - exists mn. split; [reflexivity|]. split; [|apply le_refl; exact (proj2 (le_notnan _ _ L))].
    apply (lt_le_trans _ (ten (-100))); [apply ten_pos; lia|exact L].
Qed.

(** The adjustment in the goal, which leaves [m]. *)
Ltac last_clause v m Q M1 M2 :=
  match goal with |- context [if ?c then VNum (decade v _) else VNum v] =>
    destruct (zero_clause c v) as (m & Q & M1 & M2) end.
Tactic Notation "last_clause" constr(v) "as" ident(m) ident(Q) ident(M1) ident(M2) := last_clause v m Q M1 M2.

(** A value of the data: not over 0, or of a size whose neighbouring powers of ten exist. *)
Definition showable (v : num) : Prop :=
  is_finite v = true /\ (le v 0%js = true \/ (le (ten (-90)) v = true /\ le v (ten 90) = true)).

Lemma bound_showable v : showable v ->
  exists w, (if isNumberFinite (VNum v) then VNum (Num.max 0%js (to_num (VNum v))) else Null) = VNum w /\
    ((lt 0%js v = false /\ eq w 0%js = true) \/
     (w = v /\ lt 0%js v = true /\ le (ten (-90)) v = true /\ le v (ten 90) = true)).
Proof.
  intros [F S]. exists (Num.max 0%js v). cbn [isNumberFinite to_num]. rewrite F. split; [reflexivity|].
  destruct S as [S|[L U]].
  - left. assert (N : lt 0%js v = false) by (destruct (lt 0%js v) eqn:X; [|reflexivity];
      pose proof (lt_le_trans _ _ _ X S) as Y; now rewrite lt_irrefl in Y).
    split; [exact N|]. clear S. destruct v as [[]|[]| |[] m e]; try reflexivity; first [discriminate N | discriminate F].
  - right. assert (P : lt 0%js v = true) by (apply (lt_le_trans _ (ten (-90))); [apply ten_pos; lia|exact L]).
    split; [|now repeat split]. clear L U F. destruct v as [[]|[]| |[] m e]; try discriminate P; reflexivity.
Qed.

(** The range the ends are set to, when both are free and the data do not reach over 0,
    reach over 0 from 0, or are positive. *)
Definition settled (s : scale) (suggestedMin : value) (a b : num) : Prop :=
  exists mn mx, handleTickRangeOptions s false false suggestedMin = mkScale (VNum mn) (VNum mx) (zero s) /\
    lt 0%js mn = true /\ lt mn mx = true /\ (eq a 0%js = false -> le mn a = true) /\ (eq b 0%js = false -> le b mx = true).

Lemma eq_0_le x : eq x 0%js = true -> le x 0%js = true /\ le 0%js x = true.
Proof. destruct x as [[]|[]| |[] m e]; cbn; intros; now split. Qed.
Lemma eq_of_zeros a b : eq a 0%js = true -> eq b 0%js = true -> eq a b = true.
Proof. destruct a as [[]|[]| |[] m e], b as [[]|[]| |[] m' e']; intros; try reflexivity; discriminate. Qed.
Lemma over_0 x : lt 0%js x = true -> le x 0%js = false /\ eq x 0%js = false.
Proof. intros L. split; [now apply lt_not_le|]. destruct x as [[]|[]| |[] m e]; try discriminate L; reflexivity. Qed.
Lemma zero_neq a b : eq a 0%js = true -> lt 0%js b = true -> eq a b = false.
Proof.
  intros A B. destruct a as [[]|[]| |[] m e]; try discriminate A; destruct b as [[]|[]| |[] m' e']; try discriminate B; reflexivity.
Qed.

Lemma settled_empty s suggestedMin a b : Decades -> eq a 0%js = true -> eq b 0%js = true ->
  min s = VNum a -> max s = VNum b -> settled s suggestedMin a b.
Proof.
  intros D A B Ea Eb. unfold settled, handleTickRangeOptions. rewrite Ea, Eb. cbn [same to_num].
  rewrite (eq_of_zeros a b A B), (proj1 (eq_0_le a A)). cbn [same to_num].
  change (le 1%js 0%js) with false. cbn [same to_num]. change (le 10%js 0%js) with false. cbv iota.
  last_clause 1%js as m Q M1 M2; [exact D|vm_compute; reflexivity..|].
  exists m, 10%js. rewrite Q. split; [reflexivity|]. split; [exact M1|]. split; [|split; intros; congruence].
  apply (le_lt_trans _ 1%js); [exact M2|vm_compute; reflexivity].
Qed.
Lemma settled_from_0 s suggestedMin a b : Decades -> eq a 0%js = true ->
  le (ten (-90)) b = true -> le b (ten 90) = true -> lt 0%js b = true ->
  min s = VNum a -> max s = VNum b -> settled s suggestedMin a b.
Proof.
  intros D A Bl Bu B Ea Eb. destruct (decade_below b D Bl Bu) as (D1 & D2 & D3 & _).
  unfold settled, handleTickRangeOptions. rewrite Ea, Eb. cbn [same to_num].
  rewrite (zero_neq a b A B). cbn [to_num]. rewrite (proj1 (eq_0_le a A)). cbn [same to_num].
  rewrite (proj1 (over_0 b B)). cbn [same to_num].
  last_clause (decade b (-1)%js) as m Q M1 M2; [exact D|exact D2|exact D3|].
  rewrite Q. exists m, b. split; [reflexivity|]. split; [exact M1|]. split; [exact (le_lt_trans _ _ _ M2 D1)|].
  split; [congruence|]. intros _. apply le_refl. exact (proj2 (le_notnan _ _ Bl)).
Qed.
Lemma settled_positive s suggestedMin a b : Decades -> le (ten (-90)) a = true -> le b (ten 90) = true ->
  lt 0%js a = true -> le a b = true -> min s = VNum a -> max s = VNum b -> settled s suggestedMin a b.
Proof.
  intros D Al Bu A AB Ea Eb. pose proof (lt_le_trans _ _ _ A AB) as B. pose proof (le_trans _ _ _ AB Bu) as Au.
  pose proof (le_trans _ _ _ Al AB) as Bl.
  destruct (decade_below a D Al Au) as (C1 & C2 & C3 & _). destruct (decade_below b D Bl Bu) as (_ & _ & _ & D4).
  pose proof (in_wide a Al Au) as [Wl Wu].
  unfold settled, handleTickRangeOptions. rewrite Ea, Eb. cbn [same to_num]. rewrite (proj1 (over_0 a A)).
  destruct (eq a b) eqn:EQ; cbn [same to_num].
  - assert (X1 : lt 0%js (decade a (-1)%js) = true) by (apply (lt_le_trans _ (ten (-100))); [apply ten_pos; lia|exact C2]).
    rewrite (proj1 (over_0 _ X1)). cbn [same to_num]. rewrite (proj1 (over_0 _ (lt_trans _ _ _ B D4))). cbn [same to_num].
    last_clause (decade a (-1)%js) as m Q M1 M2; [exact D|exact C2|exact C3|].
    rewrite Q. exists m, (decade b 1%js). split; [reflexivity|]. split; [exact M1|].
    assert (MA : lt m a = true) by (exact (le_lt_trans _ _ _ M2 C1)).
    split; [apply (lt_trans _ a); [exact MA|exact (le_lt_trans _ _ _ AB D4)]|].
    split; intros _; apply lt_le; [exact MA|exact D4].
  - rewrite (proj1 (over_0 a A)). cbn [same to_num]. rewrite (proj1 (over_0 b B)). cbn [same to_num].
    last_clause a as m Q M1 M2; [exact D|exact Wl|exact Wu|].
    rewrite Q. exists m, b. split; [reflexivity|]. split; [exact M1|].
    split; [exact (le_lt_trans _ _ _ M2 (le_neq_lt a b AB EQ))|]. split; intros _; [exact M2|].
    apply le_refl. exact (proj2 (le_notnan _ _ Bl)).
Qed.

Lemma not_over_0 v : showable v -> lt 0%js v = false -> eq (Num.max 0%js v) 0%js = true.
Proof.
  intros [F _] N. destruct v as [[]|[]| |[] m e]; try reflexivity; first [discriminate N | discriminate F].
Qed.
Lemma over_0_max v : lt 0%js v = true -> Num.max 0%js v = v.
Proof. destruct v as [[]|[]| |[] m e]; intros; try discriminate; reflexivity. Qed.
Lemma showable_over_0 v : showable v -> lt 0%js v = true -> le (ten (-90)) v = true /\ le v (ten 90) = true.
Proof. intros [_ [S|S]] L; [|exact S]. pose proof (over_0 v L) as [N _]. congruence. Qed.
Lemma max_0_le a b : showable a -> showable b -> le a b = true -> le (Num.max 0%js a) (Num.max 0%js b) = true.
Proof.
  intros [Fa _] [Fb _] AB. apply max_lub.
  - apply le_max_l; [reflexivity|]. now destruct b as [[]|[]| |[] m e].
  - apply (le_trans _ b); [exact AB|]. apply le_max_r; [reflexivity|]. now destruct b as [[]|[]| |[] m e].
Qed.

(** A logarithmic scale whose ends are free gets a range that can be shown: over 0, not
    empty, and with the positive data inside, whether the data are positive, reach down to
    0 or under it, consist of one value, or are all at most 0. *)
Theorem log_range s a b beginAtZero suggestedMin :
  Decades -> showable a -> showable b -> le a b = true ->
  exists mn mx, determineDataLimits s (VNum a, VNum b) beginAtZero false false suggestedMin
                = mkScale (VNum mn) (VNum mx) (zero s || beginAtZero) /\
    lt 0%js mn = true /\ lt mn mx = true /\
    (lt 0%js a = true -> le mn a = true) /\ (lt 0%js b = true -> le b mx = true).
Proof.
  intros D A B AB. unfold determineDataLimits. cbn [fst snd isNumberFinite to_num].
  rewrite (proj1 A), (proj1 B). cbv beta zeta iota.
  set (t := mkScale _ _ _).
  assert (S : settled t suggestedMin (Num.max 0%js a) (Num.max 0%js b)).
  { pose proof (max_0_le a b A B AB) as M. destruct (lt 0%js b) eqn:Pb.
    - destruct (showable_over_0 b B Pb) as [Lb Ub]. pose proof (over_0_max b Pb) as Eb.
      destruct (lt 0%js a) eqn:Pa.
      + destruct (showable_over_0 a A Pa) as [La _]. rewrite Eb in *. pose proof (over_0_max a Pa) as Ea.
        rewrite Ea in *. apply settled_positive; auto; unfold t; cbn [min max]; congruence.
      + rewrite Eb in *. apply settled_from_0; auto using not_over_0; unfold t; cbn [min max]; congruence.
    - destruct (lt 0%js a) eqn:Pa; [pose proof (lt_le_trans _ _ _ Pa AB); congruence|].
      apply settled_empty; auto using not_over_0. }
  destruct S as (mn & mx & Q & P1 & P2 & P3 & P4). exists mn, mx. split; [exact Q|]. split; [exact P1|]. split; [exact P2|].
  split; intros P; rewrite <- (over_0_max _ P); [apply P3|apply P4]; rewrite (over_0_max _ P); exact (proj2 (over_0 _ P)).
Qed.

(** *** Ticks *)

(** The tick positions in order: 1, 2, ..., 9 times each power of ten. *)
Definition position (e s : Z) : Z := 9 * e + s - 1.
(** The value the loop gives to a position; powers under 1 are rounded at the decimals of
    the first exponent [e0]. *)
Definition log_value (e0 n : Z) : num :=
  let precision := if n / 9 <? 0 then math_pow 10%js (abs (of_Z e0)) else 1%js in
  div (round (mul (mul (of_Z (n mod 9 + 1)) (math_pow 10%js (of_Z (n / 9)))) precision)) precision.

Lemma position_div e s : 1 <= s <= 9 -> position e s / 9 = e /\ position e s mod 9 + 1 = s.
Proof.
  intros S. unfold position. replace (9 * e + s - 1) with (s - 1 + e * 9) by lia.
  rewrite Z.div_add, Z.mod_add, Z.div_small, Z.mod_small by lia. lia.
Qed.

Lemma tick_loop_positions e0 e1 s1 : Z.abs e1 <= 400 -> 1 <= s1 <= 10 -> forall fuel e s v precision,
  Z.abs e <= 500 -> 0 <= s <= 9 ->
  (precision = if e <? 0 then math_pow 10%js (abs (of_Z e0)) else 1%js) ->
  Z.max 1 (position e1 s1 - position e s) <= Z.of_nat fuel ->
  let N := Z.max (position e s + 1) (position e1 s1) in
  tick_loop fuel (of_Z e1) (of_Z s1) (of_Z e) (of_Z s) precision v
  = Some (new_tick v :: List.map (fun n => new_tick (log_value e0 n)) (AutoSkip.range (position e s + 1) N), log_value e0 N).
Proof.
  intros E1 S1 fuel. induction fuel as [|f IH]; intros e s v precision E S P F; [lia|].
  cbn [tick_loop]. change 1%js with (of_Z 1). change 10%js with (of_Z 10).
  rewrite (of_Z_add s 1), (of_Z_eq (s + 1) 10) by (unfold safe; lia).
  set (e' := if s + 1 =? 10 then e + 1 else e). set (s' := if s + 1 =? 10 then 1 else s + 1).
  assert (N1 : position e' s' = position e s + 1 /\ 1 <= s' <= 9 /\ Z.abs e' <= 501).
  { unfold e', s', position. destruct (Z.eqb_spec (s + 1) 10); lia. }
  destruct N1 as (N1 & S' & E').
  set (p' := if e' <? 0 then math_pow (of_Z 10) (abs (of_Z e0)) else of_Z 1).
  assert (ST : (if s + 1 =? 10 then (of_Z 1, add (of_Z e) (of_Z 1), if le (of_Z 0) (add (of_Z e) (of_Z 1)) then of_Z 1 else precision)
                else (of_Z (s + 1), of_Z e, precision)) = (of_Z s', of_Z e', p')).
  { unfold s', e' in *. unfold p'. clear p'. destruct (Z.eqb_spec (s + 1) 10) as [Q|Q].
    - rewrite (of_Z_add e 1), (of_Z_le 0 (e + 1)) by (unfold safe; lia).
      destruct (Z.leb_spec 0 (e + 1)), (Z.ltb_spec (e + 1) 0); try lia; [reflexivity|].
      rewrite P. destruct (Z.ltb_spec e 0); [reflexivity|lia].
    - now rewrite P. }
  change (of_Z 0) with 0%js in ST. rewrite ST. clear ST.
  rewrite (of_Z_lt e' e1), (of_Z_eq e' e1), (of_Z_lt s' s1) by (unfold safe; lia).
  assert (V : div (round (mul (mul (of_Z s') (math_pow (of_Z 10) (of_Z e'))) p')) p' = log_value e0 (position e' s')).
  { unfold log_value, p'. destruct (position_div e' s' S') as [-> ->]. reflexivity. }
  change 10%js with (of_Z 10) in *. rewrite V, N1.
  assert (C : ((e' <? e1) || ((e' =? e1) && (s' <? s1))) = (position e s + 1 <? position e1 s1)).
  { rewrite <- N1. clearbody e' s'. clear - S' S1. unfold position.
    destruct (Z.ltb_spec e' e1), (Z.eqb_spec e' e1), (Z.ltb_spec s' s1), (Z.ltb_spec (9 * e' + s' - 1) (9 * e1 + s1 - 1));
      try reflexivity; lia. }
  rewrite C.
  destruct (Z.ltb_spec (position e s + 1) (position e1 s1)) as [L|L].
  - rewrite <- N1 in *. rewrite (IH e' s' _ p'); [| | |unfold p'; reflexivity|lia].
    + cbn [option_map fst snd]. rewrite Z.max_r, Z.max_r by lia. do 2 f_equal. f_equal.
      unfold AutoSkip.range. replace (Z.to_nat (position e1 s1 - position e' s')) with
        (Datatypes.S (Z.to_nat (position e1 s1 - (position e' s' + 1)))) by lia.
      cbn [seq List.map]. rewrite Z.add_0_r. f_equal. rewrite <- seq_shift, !List.map_map. apply List.map_ext.
      intros k. do 2 f_equal. lia.
    + unfold position in *; lia.
    + lia.
  - rewrite Z.max_l by lia. unfold AutoSkip.range. rewrite Z.sub_diag. reflexivity.
Qed.

(** The ticks of a logarithmic scale are complete and end: the first is the user's
    minimum or the power of ten at or under the range, then comes every multiple of a power
    of ten in turn, each once, while it is under the end of the range, and last the user's
    maximum or the next multiple. *)
Theorem log_ticks fuel gmin gmax rmin rmax v0 e0 s0 e1 s1 :
  v0 = to_num (finiteOrDefault gmin (VNum (math_pow 10%js (floor (math_log10 rmin))))) ->
  floor (math_log10 v0) = of_Z e0 -> floor (div v0 (math_pow 10%js (of_Z e0))) = of_Z s0 ->
  floor (math_log10 rmax) = of_Z e1 -> ceil (div rmax (math_pow 10%js (of_Z e1))) = of_Z s1 ->
  Z.abs e0 <= 400 -> 0 <= s0 <= 9 -> Z.abs e1 <= 400 -> 1 <= s1 <= 10 ->
  Z.max 1 (position e1 s1 - position e0 s0) <= Z.of_nat fuel ->
  let N := Z.max (position e0 s0 + 1) (position e1 s1) in
  generateTicks fuel gmin gmax rmin rmax
  = Some (new_tick v0 :: List.map (fun n => new_tick (log_value e0 n)) (AutoSkip.range (position e0 s0 + 1) N)
          ++ [new_tick (to_num (finiteOrDefault gmax (VNum (log_value e0 N))))])%list.
Proof.
  intros V E0 S0 E1 S1 A0 B0 A1 B1 F N. unfold generateTicks. rewrite <- V, E0, S0, E1, S1.
  change 0%js with (of_Z 0). rewrite (of_Z_lt e0 0) by (unfold safe; lia).
  rewrite (tick_loop_positions e0 e1 s1 A1 B1 fuel e0 s0 v0) by (try lia; reflexivity). reflexivity.
Qed.
End Facts.

(** *** Witnesses: powers of ten, and a logarithm found by search *)
Fixpoint log_search (n : nat) (v : num) : Z :=
  match n with
  | O => -100
  | S k => let e := Z.of_nat k - 100 in if le (ten e) v then e else log_search k v
  end.
Lemma log_search_spec v n : le (ten (-100)) v = true ->
  let e := log_search n v in
  -100 <= e <= Z.max (-100) (Z.of_nat n - 101) /\ le (ten e) v = true /\
  (e < Z.of_nat n - 101 -> le (ten (e + 1)) v = false).
Proof.
  intros L. induction n as [|k IH]; cbn [log_search].
  - split; [lia|]. split; [exact L|lia].
  - destruct (le (ten (Z.of_nat k - 100)) v) eqn:E.
    + split; [lia|]. split; [exact E|lia].
    + destruct IH as (R & A & B). split; [lia|]. split; [exact A|]. intros U.
      destruct (Z.lt_ge_cases (log_search k v) (Z.of_nat k - 101)) as [G|G]; [exact (B G)|].
      destruct k as [|k]; [change (Z.of_nat 0 - 100) with (-100) in E; congruence|].
      replace (log_search (S k) v + 1) with (Z.of_nat (S k) - 100) by lia. exact E.
Qed.

#[local] Instance table_math : MathLib := {
  math_pow x y := ten (trunc_Z y); math_log10 v := of_Z (log_search 201 v);
  math_sin x := x; math_cos x := x; math_atan2 y x := y }.
#[local] Instance table_decades : Decades.
Proof.
  split.
  - intros v L U. destruct (log_search_spec v 201 L) as (R & A & B). exists (log_search 201 v).
    cbn [math_log10 table_math]. split; [lia|]. split; [apply floor_of_Z; unfold safe; lia|].
    split; [exact (lt_le_trans _ _ _ (ten_lt (log_search 201 v - 1) (log_search 201 v) ltac:(lia) ltac:(lia) ltac:(lia)) A)|].
    destruct (Z.lt_ge_cases (log_search 201 v) 100) as [G|G].
    + specialize (B ltac:(lia)). rewrite le_not_lt in B; [now apply negb_false_iff in B| |exact (proj2 (le_notnan _ _ A))].
      apply (proj2 (lt_notnan _ _ (ten_pos (log_search 201 v + 1) ltac:(lia)))).
    + apply (le_lt_trans _ _ _ U). apply ten_lt; lia.
  - intros e E. cbn [math_pow table_math]. rewrite trunc_of_Z by (unfold safe; lia). reflexivity.
Qed.

Lemma log_range_witness :
  exists mn mx, determineDataLimits (mkScale Undefined Undefined false) (VNum (-3)%js, VNum 250%js) true false false Undefined
                = mkScale (VNum mn) (VNum mx) true /\ lt 0%js mn = true /\ le 250%js mx = true.
Proof.
  destruct (log_range (mkScale Undefined Undefined false) (-3)%js 250%js true Undefined) as (mn & mx & Q & P & _ & _ & L).
  - exact table_decades.
  - split; [reflexivity|]. left. vm_compute. reflexivity.
  - split; [reflexivity|]. right. split; vm_compute; reflexivity.
  - vm_compute. reflexivity.
  - exists mn, mx. split; [exact Q|]. split; [exact P|]. apply L. vm_compute. reflexivity.
Defined.
Lemma log_ticks_witness :
  option_map (List.map tvalue) (generateTicks 20 Undefined Undefined 30%js 400%js)
  = Some [10; 20; 30; 40; 50; 60; 70; 80; 90; 100; 200; 300; 400]%js.
Proof.
  refine (eq_trans (f_equal (option_map (List.map tvalue))
    (log_ticks 20 Undefined Undefined 30%js 400%js 10%js 1 1 2 4 _ _ _ _ _ _ _ _ _ _)) _).
  1-5, 11: vm_compute; reflexivity.
  all: vm_compute; repeat split; discriminate.
Defined.
End LogarithmicFacts.
