(* ===== verification/Radial.v ===== *)
(** The radial linear scale of webui/public/chart.js: its size, the room its point labels
    take, angles and distances, and the commands that draw it.

    What the options give per label, line and tick is an argument of the drawing
    definitions; the measured width of a text comes from the cache of Options.v.

    Proved: after fitting there is one place per label, and the scale is drawn with commands
    the canvas accepts and restores every state it saves. *)
From Stdlib Require Import ZArith Lia Bool List Ascii String.
From Stdlib Require Import SpecFloat.
From stdpp Require Import base list.
From S2P Require Import Prelude JsNumber JsString JsArray JsValue HelpersCore HelpersMath Options Canvas Elements Scale.
Import ListNotations.
Open Scope Z_scope.

Module Radial.
Import Js Core MathH Canvas.
Local Open Scope js_scope.

(** The state of the scale; [min] and [max] are numbers after [determineDataLimits]. *)
Record scale := mkScale {
  left : num; right : num; top : num; bottom : num; maxWidth : num; maxHeight : num;
  padding : Options.padding; width : num; height : num;
  xCenter : num; yCenter : num; drawingArea : num;
  min : num; max : num; reverse : bool; startAngle : num;
  _pointLabels : list (list string)
}.
Definition with_center (s : scale) (p : Options.padding) (w h x y area : num) : scale :=
  mkScale (left s) (right s) (top s) (bottom s) (maxWidth s) (maxHeight s) p w h x y area
    (min s) (max s) (reverse s) (startAngle s) (_pointLabels s).

(** [opts.ticks] and [opts]: whether shown, the padding of the backdrop, and the font size
    with its default. *)
Record tick_box := mkTickBox { ticks_display : bool; display : bool; backdropPadding : value; fontSize : num }.
Definition getTickBackdropHeight (o : tick_box) : num :=
  if ticks_display o && display o then fontSize o + Options.pheight (Options.toPadding (backdropPadding o)) else 0.

Definition setDimensions (s : scale) (o : tick_box) : scale :=
  let p := Options.toPadding (VNum (getTickBackdropHeight o / 2)) in
  let w := maxWidth s - Options.pwidth p in
  let h := maxHeight s - Options.pheight p in
  with_center s p w h
    (Num.floor (left s + w / 2 + Options.left (Options.sides p)))
    (Num.floor (top s + h / 2 + Options.top (Options.sides p)))
    (Num.floor (Num.min w h / 2)).

(** [determineDataLimits], before the range is completed by the linear base. *)
Definition determineDataLimits (beginAtZero minDefined maxDefined : bool) (data : num * num) : num * num :=
  Linear.handleTickRangeOptions beginAtZero minDefined maxDefined
    (if Num.is_finite (fst data) then fst data else 0) (if Num.is_finite (snd data) then snd data else 0).
Definition computeTickLimit (s : scale) (o : tick_box) : num := Num.ceil (drawingArea s / getTickBackdropHeight o).

(** The labels of the data that are visible, through the callback of the options. *)
Definition generateTickLabels (callback : value -> nat -> value) (visible : nat -> bool) (labels : list value) : list value :=
  let shown (l : value) := if truthy l || match l with VNum x => x =? 0 | _ => false end then l else VStr "" in
  omap id (imap (fun i l => if visible i then Some l else None) (imap (fun i v => shown (callback v i)) labels)).

Definition setCenterPoint (s : scale) (leftMovement rightMovement topMovement bottomMovement : num) : scale :=
  with_center s (padding s) (width s) (height s)
    (xCenter s + Num.floor ((leftMovement - rightMovement) / 2))
    (yCenter s + Num.floor ((topMovement - bottomMovement) / 2))
    (drawingArea s - Num.min (drawingArea s / 2)
       (Num.max (Num.max (Num.max leftMovement rightMovement) topMovement) bottomMovement)).

(** *** Distances and angles *)
Definition getDistanceFromCenterForValue (s : scale) (v : option num) : num :=
  match v with
  | None => Num.nan
  | Some v =>
      let scalingFactor := drawingArea s / (max s - min s) in
      if reverse s then (max s - v) * scalingFactor else (v - min s) * scalingFactor
  end.
Definition getValueForDistanceFromCenter (s : scale) (distance : option num) : num :=
  match distance with
  | None => Num.nan
  | Some d =>
      let scaledDistance := d / (drawingArea s / (max s - min s)) in
      if reverse s then max s - scaledDistance else min s + scaledDistance
  end.
Definition label_count (s : scale) : nat := List.length (_pointLabels s).
Definition getIndexAngle (s : scale) (index : nat) : num :=
  let angleMultiplier := TAU / (if Nat.eqb (label_count s) 0 then 1 else Num.of_nat (label_count s)) in
  let startAngle := if falsy (startAngle s) then 0 else startAngle s in
  _normalizeAngle (Num.of_nat index * angleMultiplier + toRadians startAngle).

Section Lib.
Context `{MathLib}.

Record position := mkPosition { px : num; py : num; angle : num }.
Definition getPointPosition (s : scale) (index : nat) (distanceFromCenter additionalAngle : num) : position :=
  let angle := getIndexAngle s index - HALF_PI + additionalAngle in
  mkPosition (math_cos angle * distanceFromCenter + xCenter s) (math_sin angle * distanceFromCenter + yCenter s) angle.
Definition getPointPositionForValue (s : scale) (index : nat) (v : option num) : position :=
  getPointPosition s index (getDistanceFromCenterForValue s v) 0.
Definition getBasePosition (s : scale) (index : nat) : position :=
  getPointPositionForValue s index (Some (ScaleBase.getBaseValue (min s) (max s))).

(** *** Room for the point labels *)

(** What the options and the canvas say of a label: its padding and its size. *)
Record label_box := mkLabelBox { lpadding : num; lw : num; lh : num }.
Definition measureLabelSize (measure : string -> string -> num) (font : string) (lineHeight : num) (label : list string) : num * num :=
  (snd (Options._longestText measure font (List.map Options.Label label) (Options.mkCache [] [] None)),
   Num.of_nat (List.length label) * lineHeight).

Record limits := mkLimits { l : num; r : num; t : num; b : num }.
Definition determineLimits (angle pos size min max : num) : num * num :=
  if (angle =? min) || (angle =? max) then (pos - size / 2, pos + size / 2)
  else if (angle <? min) || (max <? angle) then (pos - size, pos)
  else (pos, pos + size).
Definition updateLimits (lim orig : limits) (angle : num) (hLimits vLimits : num * num) : limits :=
  let sin := Num.abs (math_sin angle) in
  let cos := Num.abs (math_cos angle) in
  let '(l', r') :=
    if fst hLimits <? l orig then (Num.min (l lim) (l orig - (l orig - fst hLimits) / sin), r lim)
    else if r orig <? snd hLimits then (l lim, Num.max (r lim) (r orig + (snd hLimits - r orig) / sin))
    else (l lim, r lim) in
  let '(t', b') :=
    if fst vLimits <? t orig then (Num.min (t lim) (t orig - (t orig - fst vLimits) / cos), b lim)
    else if b orig <? snd vLimits then (t lim, Num.max (b lim) (b orig + (snd vLimits - b orig) / cos))
    else (t lim, b lim) in
  mkLimits l' r' t' b'.
Definition additionalAngle (s : scale) (centerPointLabels : bool) : num :=
  if centerPointLabels then PI / Num.of_nat (label_count s) else 0.
Definition original_limits (s : scale) : limits :=
  mkLimits (left s + Options.left (Options.sides (padding s))) (right s - Options.right (Options.sides (padding s)))
           (top s + Options.top (Options.sides (padding s))) (bottom s - Options.bottom (Options.sides (padding s))).
Definition label_limits (s : scale) (centerPointLabels : bool) (orig lim : limits) (ib : nat * label_box) : limits :=
  let '(i, box) := ib in
  let additional := additionalAngle s centerPointLabels in
  let pointPosition := getPointPosition s i (drawingArea s + lpadding box) additional in
  let angleRadians := _normalizeAngle (getIndexAngle s i + additional) in
  let angle := Num.round (toDegrees angleRadians) in
  updateLimits lim orig angleRadians (determineLimits angle (px pointPosition) (lw box) 0 180)
    (determineLimits angle (py pointPosition) (lh box) 90 270).

Record label_item := mkItem { ix : num; iy : num; textAlign : string; ileft : num; itop : num; iright : num; ibottom : num }.
Definition getTextAlignForAngle (angle : num) : string :=
  if (angle =? 0) || (angle =? 180) then "center" else if angle <? 180 then "left" else "right".
Definition leftForTextAlign (x w : num) (align : string) : num :=
  if String.eqb align "right" then x - w else if String.eqb align "center" then x - w / 2 else x.
Definition yForAngle (y h angle : num) : num :=
  if (angle =? 90) || (angle =? 270) then y - h / 2
  else if (270 <? angle) || (angle <? 90) then y - h else y.
Definition label_item_at (s : scale) (o : tick_box) (centerPointLabels : bool) (i : nat) (box : label_box) : label_item :=
  let extra := getTickBackdropHeight o / 2 in
  let p := getPointPosition s i (drawingArea s + extra + lpadding box) (additionalAngle s centerPointLabels) in
  let degrees := Num.round (toDegrees (_normalizeAngle (angle p + HALF_PI))) in
  let y := yForAngle (py p) (lh box) degrees in
  let align := getTextAlignForAngle degrees in
  let left := leftForTextAlign (px p) (lw box) align in
  mkItem (px p) y align left y (left + lw box) (y + lh box).
Definition buildPointLabelItems (s : scale) (o : tick_box) (centerPointLabels : bool) (boxes : list label_box) : list label_item :=
  imap (label_item_at s o centerPointLabels) boxes.
Definition fitWithPointLabels (s : scale) (o : tick_box) (centerPointLabels : bool) (boxes : list label_box) : scale * list label_item :=
  let orig := original_limits s in
  let lim := fold_left (label_limits s centerPointLabels orig) (combine (seq 0 (List.length boxes)) boxes) orig in
  let s := setCenterPoint s (l orig - l lim) (r lim - r orig) (t orig - t lim) (b lim - b orig) in
  (s, buildPointLabelItems s o centerPointLabels boxes).
Definition fit (s : scale) (o : tick_box) (pointLabels_display centerPointLabels : bool) (boxes : list label_box)
    (items : list label_item) : scale * list label_item :=
  if display o && pointLabels_display then fitWithPointLabels s o centerPointLabels boxes
  else (setCenterPoint s 0 0 0 0, items).

(** *** Drawing *)

(** Options of a label: the colour of its backdrop with its padding, and its text. *)
Record label_style := mkLabelStyle {
  backdropColor : option string; label_padding : value; label_font : string; lineHeight : num; label_color : string }.
Definition plain_text (color align baseline : string) : text_options :=
  mkTextOptions None None None None color align baseline None false false 2.

Section Draw.
Context (measureMetrics : string -> metrics).

Definition draw_label (lines : list string) (item : label_item) (st : label_style) : list cmd :=
  ((match backdropColor st with
    | Some c =>
        let p := Options.toPadding (label_padding st) in
        [Set_ "fillStyle" (VStr c);
         FillRect (ileft item - Options.left (Options.sides p)) (itop item - Options.top (Options.sides p))
           (iright item - ileft item + Options.pwidth p) (ibottom item - itop item + Options.pheight p)]
    | None => []
    end) ++
   renderText measureMetrics lines (ix item) (iy item + lineHeight st / 2) (label_font st) (lineHeight st)
     (plain_text (label_color st) (textAlign item) "middle"))%list.
(** From the last label to the first; None: a label without an item, a TypeError. *)
Fixpoint drawPointLabels (s : scale) (items : list label_item) (style : nat -> label_style) (n : nat) : option (list cmd) :=
  match n with
  | O => Some []
  | S i =>
      match _pointLabels s !! i, items !! i, drawPointLabels s items style i with
      | Some lines, Some item, Some rest => Some (draw_label lines item (style i) ++ rest)%list
      | _, _, _ => None
      end
  end.

Definition pathRadiusLine (s : scale) (radius : num) (circular : bool) (labelCount : nat) : list cmd :=
  if circular then [Arc (xCenter s) (yCenter s) radius 0 TAU false]
  else
    let at_ i := getPointPosition s i radius 0 in
    MoveTo (px (at_ 0%nat)) (py (at_ 0%nat)) ::
    List.map (fun i => LineTo (px (at_ i)) (py (at_ i))) (seq 1 (labelCount - 1)).

(** Options of a grid or angle line; [circular] is the grid's. *)
Record line_style := mkLineStyle { color : string; lineWidth : num; borderDash : value; borderDashOffset : num; circular : bool }.
Definition drawRadiusLine (s : scale) (st : line_style) (radius : num) (labelCount : nat) : list cmd :=
  if (negb (circular st) && Nat.eqb labelCount 0) || String.eqb (color st) "" || falsy (lineWidth st) || (radius <? 0)
  then []
  else (Save :: ([Set_ "strokeStyle" (VStr (color st)); Set_ "lineWidth" (VNum (lineWidth st));
                  SetLineDash (borderDash st); Set_ "lineDashOffset" (VNum (borderDashOffset st)); BeginPath]
        ++ pathRadiusLine s radius (circular st) labelCount ++ [ClosePath; Stroke]) ++ [Restore])%list.

Definition drawBackground (s : scale) (backgroundColor : string) (circular : bool) (endValue : num) : list cmd :=
  if String.eqb backgroundColor "" then []
  else (Save :: (BeginPath :: pathRadiusLine s (getDistanceFromCenterForValue s (Some endValue)) circular (label_count s)
        ++ [ClosePath; Set_ "fillStyle" (VStr backgroundColor); Fill]) ++ [Restore])%list.

(** [ticks_reverse] is [opts.ticks.reverse]. *)
Definition draw_angle_line (s : scale) (ticks_reverse : bool) (st : line_style) (i : nat) : list cmd :=
  if falsy (lineWidth st) || String.eqb (color st) "" then []
  else
    let offset := getDistanceFromCenterForValue s (Some (if ticks_reverse then min s else max s)) in
    let p := getPointPosition s i offset 0 in
    [Set_ "lineWidth" (VNum (lineWidth st)); Set_ "strokeStyle" (VStr (color st)); SetLineDash (borderDash st);
     Set_ "lineDashOffset" (VNum (borderDashOffset st)); BeginPath; MoveTo (xCenter s) (yCenter s);
     LineTo (px p) (py p); Stroke].
Record grid_options := mkGridOptions {
  pointLabels_display : bool; label_styles : nat -> label_style;
  grid_display : bool; grid_styles : nat -> line_style;
  angle_display : bool; angle_styles : nat -> line_style; ticks_reverse : bool }.
(** [ticks] are the values of the ticks; the style of a grid line is that of the tick before. *)
Definition drawGrid (s : scale) (items : list label_item) (o : grid_options) (ticks : list num) : option (list cmd) :=
  let count := label_count s in
  match (if pointLabels_display o then drawPointLabels s items (label_styles o) count else Some []) with
  | None => None
  | Some labels =>
      let grid := if grid_display o
                  then List.concat (imap (fun i v =>
                         match i with
                         | O => []
                         | S j => drawRadiusLine s (grid_styles o j) (getDistanceFromCenterForValue s (Some v)) count
                         end) ticks)
                  else [] in
      let angles := if angle_display o
                    then (Save :: List.flat_map (fun i => draw_angle_line s (ticks_reverse o) (angle_styles o i) i)
                            (List.rev (seq 0 count)) ++ [Restore])%list
                    else [] in
      Some (labels ++ grid ++ angles)%list
  end.

Record tick := mkTick { tvalue : num; tlabel : list string }.
Record tick_style := mkTickStyle {
  showLabelBackdrop : bool; backdrop : string; tick_padding : value; tick_font : string; tick_size : num;
  tick_lineHeight : num; tick_color : string }.
Definition draw_tick (s : scale) (measure : string -> list string -> num) (st : tick_style) (tk : tick) : list cmd :=
  let offset := getDistanceFromCenterForValue s (Some (tvalue tk)) in
  ((if showLabelBackdrop st then
      let width := measure (tick_font st) (tlabel tk) in
      let p := Options.toPadding (tick_padding st) in
      [Set_ "font" (VStr (tick_font st)); Set_ "fillStyle" (VStr (backdrop st));
       FillRect (- width / 2 - Options.left (Options.sides p)) (- offset - tick_size st / 2 - Options.top (Options.sides p))
         (width + Options.pwidth p) (tick_size st + Options.pheight p)]
    else []) ++
   renderText measureMetrics (tlabel tk) 0 (- offset) (tick_font st) (tick_lineHeight st) (plain_text (tick_color st) "" ""))%list.
Definition drawLabels (s : scale) (display : bool) (measure : string -> list string -> num) (style : nat -> tick_style)
    (ticks : list tick) : list cmd :=
  if negb display then []
  else (Save :: ([Translate (xCenter s) (yCenter s); Rotate (getIndexAngle s 0); Set_ "textAlign" (VStr "center");
                  Set_ "textBaseline" (VStr "middle")]
        ++ List.concat (imap (fun i tk => if Nat.eqb i 0 && negb (reverse s) then [] else draw_tick s measure (style i) tk) ticks))
        ++ [Restore])%list.
End Draw.
End Lib.
End Radial.

Module RadialFacts.
Import MathH Canvas CanvasFacts NonNegative ElementsFacts Radial.
Local Open Scope js_scope.

Section Facts.
Context `{MathLib} (measure : string -> metrics).

Lemma safe_label lines item st : safe (draw_label measure lines item st).
Proof. unfold draw_label. apply safe_app; [|apply safe_renderText]. destruct (backdropColor st); safe. Qed.
Lemma safe_labels s items style n : (forall i, (i < n)%nat -> (exists a, _pointLabels s !! i = Some a) /\ exists b, items !! i = Some b) ->
  exists c, drawPointLabels measure s items style n = Some c /\ safe c.
Proof.
  induction n as [|i IH]; intros K; [exists []; split; [reflexivity|exact safe_nil]|].
  destruct (K i ltac:(lia)) as [[a A] [b B]]. destruct IH as (c & C & S); [intros j J; apply K; lia|].
  exists (draw_label measure a b (style i) ++ c)%list. cbn [drawPointLabels]. rewrite A, B, C. split; [reflexivity|].
  apply safe_app; [apply safe_label|exact S].
Qed.
Lemma safe_path s radius circular n : nn radius -> safe (pathRadiusLine s radius circular n).
Proof.
  intros R. unfold pathRadiusLine. destruct circular; [apply safe_cons; [exact I|exact R|exact safe_nil]|].
  apply safe_cons; [exact I..|]. apply safe_flat; apply List.Forall_map, List.Forall_forall; intros; exact I.
Qed.
Lemma safe_radius_line s st radius n : safe (drawRadiusLine s st radius n).
Proof.
  unfold drawRadiusLine. destruct (_ || (radius <? 0)) eqn:E; [exact safe_nil|]. apply orb_false_iff in E as [_ E].
  apply safe_saved. safe. now apply safe_path.
Qed.
Lemma safe_angle_line s rev st i : safe (draw_angle_line s rev st i).
Proof. unfold draw_angle_line. safe. Qed.
Lemma safe_tick s w st tk : safe (draw_tick measure s w st tk).
Proof. unfold draw_tick. apply safe_app; [|apply safe_renderText]. safe. Qed.
Lemma fit_labels s o c boxes : _pointLabels (fst (fitWithPointLabels s o c boxes)) = _pointLabels s.
Proof. reflexivity. Qed.
Lemma fit_items s o c boxes : List.length (snd (fitWithPointLabels s o c boxes)) = List.length boxes.
Proof. apply length_imap. Qed.
Lemma lookup_some {A} (l : list A) i : (i < List.length l)%nat -> exists a, l !! i = Some a.
Proof. intros L. destruct (lookup_lt_is_Some_2 l i L) as [a A0]. now exists a. Qed.

(** A radial scale that was fitted to one measured box per point label is drawn without
    an error: its labels, its circles or polygons, its angle lines and the labels of its
    ticks are commands the canvas accepts, no radius being negative whatever the values of
    the ticks, and every state of the canvas that is saved is restored. *)
Theorem radial_drawn_safely s o centered boxes go values show w style ticks :
  List.length boxes = label_count s ->
  let '(s', items) := fitWithPointLabels s o centered boxes in
  exists cmds, drawGrid measure s' items go values = Some cmds /\ safe cmds /\
    safe (drawLabels measure s' show w style ticks).
Proof.
  intros L. pose proof (fit_items s o centered boxes) as LI. pose proof (fit_labels s o centered boxes) as LL.
  destruct (fitWithPointLabels s o centered boxes) as [s' items]. cbn [fst snd] in LI, LL.
  destruct (safe_labels s' items (label_styles go) (label_count s')) as (c & C & S).
  { intros i I. unfold label_count in *. split; apply lookup_some; rewrite ?LI, ?LL in *; lia. }
  assert (G : safe ((if grid_display go then List.concat (imap (fun i v => match i with O => [] | S j =>
      drawRadiusLine s' (grid_styles go j) (getDistanceFromCenterForValue s' (Some v)) (label_count s') end) values) else []) ++
    (if angle_display go then (Save :: List.flat_map (fun i => draw_angle_line s' (ticks_reverse go) (angle_styles go i) i)
       (List.rev (seq 0 (label_count s'))) ++ [Restore])%list else []))).
  { apply safe_app.
    - destruct (grid_display go); [|exact safe_nil]. apply concat_safe, imap_Forall. intros [|j] v; [exact safe_nil|].
      apply safe_radius_line.
    - destruct (angle_display go); [|exact safe_nil]. apply safe_saved, flat_map_safe. intros i. apply safe_angle_line. }
  unfold drawGrid. destruct (pointLabels_display go); [rewrite C|];
    (eexists; split; [reflexivity|]; split; [apply safe_app; [assumption || exact safe_nil|exact G]|]).
  all: unfold drawLabels; destruct (negb show); [exact safe_nil|]; apply safe_saved; safe;
    apply concat_safe, imap_Forall; intros i tk; destruct (_ && _); [exact safe_nil|apply safe_tick].
Qed.
End Facts.

(** *** Examples; sine and cosine are right at 0 and at the right angles. *)
#[local] Instance axis_math : MathLib := {
  math_pow x y := x; math_log10 x := x; math_atan2 y x := y;
  math_sin x := if x =? 0 then 0 else if x <? 0 then -1 else if x <? 3 then 1 else if x <? 4 then 0 else -1;
  math_cos x := if x =? 0 then 1 else if x <? 3 then 0 else if x <? 4 then -1 else 0 }.
Definition demo_pads : Options.padding := Options.toPadding (VNum 0).
Definition demo_radial (reverse : bool) : scale :=
  mkScale 0 100 0 100 100 100 demo_pads 100 100 50 50 50 0 10 reverse 0 [["a"%string]; ["b"%string]].
Definition demo_line : line_style := mkLineStyle "black" 1 (VArr []) 0 true.
Definition demo_box : tick_box := mkTickBox true true (VNum 2) 10.
Definition demo_grid : grid_options :=
  mkGridOptions true (fun _ => mkLabelStyle None (VNum 0) "f" 12 "black") true (fun _ => demo_line) true (fun _ => demo_line) false.
Definition demo_boxes : list label_box := [mkLabelBox 5 20 12; mkLabelBox 5 20 12].

Lemma radial_drawn_safely_witness : exists cmds,
  drawGrid (fun _ => mkMetrics 0 1 1 0) (fst (fitWithPointLabels (demo_radial false) demo_box false demo_boxes))
    (snd (fitWithPointLabels (demo_radial false) demo_box false demo_boxes)) demo_grid [0; 5; -5] = Some cmds /\ safe cmds.
Proof.
  destruct (radial_drawn_safely (fun _ => mkMetrics 0 1 1 0) (demo_radial false) demo_box false demo_boxes demo_grid [0; 5; -5]
    true (fun _ _ => 1) (fun _ => mkTickStyle true "white" (VNum 2) "f" 10 12 "black") [] eq_refl) as (c & C & S & _).
  exists c. split; [exact C|exact S].
Defined.

(** On a reversed scale the maximum is at the centre, and the angle lines, which look for
    [reverse] among the options of the ticks, are drawn from the centre to the centre. *)
Lemma reversed_angle_line_vanishes :
  List.filter (fun c => match c with MoveTo _ _ | LineTo _ _ => true | _ => false end)
    (draw_angle_line (demo_radial true) false demo_line 1) = [MoveTo 50 50; LineTo 50 50].
Proof. vm_compute. reflexivity. Qed.
(** A label at the top that is wider than the chart: its overhang on the left is divided by
    the sine of 0, and the centre of the scale moves to infinity. *)
Lemma wide_top_label_loses_centre :
  xCenter (fst (fitWithPointLabels (demo_radial false) demo_box false [mkLabelBox 5 120 12; mkLabelBox 5 20 12])) = Num.infinity.
Proof. vm_compute. reflexivity. Qed.
End RadialFacts.
