(* ===== verification/TimeScale.v ===== *)
(** The time scales of webui/public/chart.js: the units of time, the ticks the date adapter
    generates, limits and offsets, and the lookup table of the time series scale.

    The date adapter is supplied by the user (the bundle's own only throws), so it is a
    record of functions, an argument of what uses it.  A time is a number of milliseconds;
    an input that does not parse is null, None here, and counts as 0 in arithmetic.

    Proved: generating ticks ends and gives the adapter's steps in order; the limits of a
    time scale are never empty, hold the data and the labels and go no further; the unit is the first that leaves room
    for its labels; label timestamps come sorted, once each, and are computed once. *)
From Stdlib Require Import ZArith Lia Bool List Ascii String Permutation Sorted.
From Stdlib Require Import SpecFloat.
From stdpp Require Import base list.
From S2P Require Import Prelude JsNumber JsString NumExact JsArray JsValue HelpersCore HelpersMath Collections Options Scale.
Import ListNotations.
Open Scope Z_scope.

Module TimeScale.
Import Js Core MathH.
Local Open Scope js_scope.

(** *** Units *)
Record interval := mkInterval { uname : string; common : bool; usize : num; steps : option num }.
Definition INTERVALS : list interval :=
  [mkInterval "millisecond" true 1 (Some 1000); mkInterval "second" true 1000 (Some 60);
   mkInterval "minute" true 60000 (Some 60); mkInterval "hour" true 3600000 (Some 24);
   mkInterval "day" true 86400000 (Some 30); mkInterval "week" false 604800000 (Some 4);
   mkInterval "month" true 2.628e9 (Some 12); mkInterval "quarter" false 7.884e9 (Some 4);
   mkInterval "year" true 3.154e10 None].
(** [UNITS.indexOf(unit)]; None is -1. *)
Fixpoint index_from (l : list interval) (unit : string) (i : nat) : option nat :=
  match l with
  | [] => None
  | u :: l' => if String.eqb (uname u) unit then Some i else index_from l' unit (S i)
  end.
Definition unit_index (unit : string) : option nat := index_from INTERVALS unit 0.

Definition fits (min max capacity : num) (u : interval) : bool :=
  let factor := match steps u with Some s => s | None => Linear.MAX_SAFE_INTEGER end in
  common u && (Num.ceil ((max - min) / (factor * usize u)) <=? capacity).
(** None: the smallest unit is unknown, a TypeError. *)
Definition determineUnitForAutoTicks (minUnit : string) (min max capacity : num) : option string :=
  option_map (fun i =>
    match List.find (fits min max capacity) (List.firstn (8 - i) (List.skipn i INTERVALS)) with
    | Some u => uname u
    | None => "year"%string
    end) (unit_index minUnit).

Definition determineMajorUnit (unit : string) : option string :=
  let after := match unit_index unit with Some i => List.skipn (S i) INTERVALS | None => INTERVALS end in
  option_map uname (List.find common after).

(** *** The date adapter *)
Record adapter := mkAdapter {
  a_parse : value -> option string -> option num;
  startOf : num -> string -> value -> num;
  endOf : num -> string -> num;
  add : num -> num -> string -> num;
  diff : num -> num -> string -> num;
  format : num -> option string -> string
}.

Section Adapter.
Context (A : adapter).

(** The options a scale is initialised with; [""] is false. *)
Inductive parser := NoParser | ParseFunction (f : value -> value) | ParseFormat (s : string).
Record parse_opts := mkParseOpts { opt_parser : parser; round : string; isoWeekday : value }.
Definition isNumber (v : value) : bool := negb (Num.is_nan (parseFloat (to_str v))) && Num.is_finite (to_num v).
Definition is_weekday (v : value) : bool := isNumber v || match v with VBool b => b | _ => false end.
Definition parse (o : parse_opts) (input : value) : option num :=
  if isNullOrUndef input then None
  else
    let v := match opt_parser o with ParseFunction f => f input | _ => input end in
    let parsed := if isNumberFinite v then Some (to_num v)
                  else a_parse A v (match opt_parser o with ParseFormat s => Some s | _ => None end) in
    option_map (fun t =>
      if String.eqb (round o) "" then t
      else if String.eqb (round o) "week" && is_weekday (isoWeekday o) then startOf A t "isoWeek" (isoWeekday o)
      else startOf A t (round o) Undefined) parsed.

(** From the largest unit down to [minUnit]; None as above. *)
Definition determineUnitForFormatting (numTicks : num) (minUnit : string) (min max : num) : option string :=
  let enough u := common u && (numTicks - 1 <=? diff A max min (uname u)) in
  match unit_index minUnit with
  | Some i =>
      match List.find enough (List.rev (List.skipn i INTERVALS)) with
      | Some u => Some (uname u)
      | None => Some minUnit
      end
  | None => option_map uname (List.find enough (List.rev INTERVALS))
  end.

(** *** Ticks *)

(** The keys of an object, as the numbers they name: 0 and -0 are one key. *)
Definition same_key (a b : num) : bool := (a =? b) || (Num.is_nan a && Num.is_nan b).
Definition put_key (ticks : list num) (t : num) : list num :=
  if existsb (same_key t) ticks then ticks else ticks ++ [if t =? 0 then 0 else t].
Definition addTick (ticks : list num) (time : num) (timestamps : option (list num)) : list num :=
  match timestamps with
  | None => put_key ticks time
  | Some ts =>
      let r := Collections.lookup_default ts time in
      match nthZ ts (Collections.lo r), nthZ ts (Collections.hi r) with
      | Some l, Some h => put_key ticks (if time <=? l then l else h)
      | _, _ => ticks
      end
  end.

Fixpoint generate_loop (fuel : nat) (stepSize : num) (minor : string) (max : num) (timestamps : option (list num))
    (time : num) (count : Z) (ticks : list num) : option (num * Z * list num) :=
  match fuel with
  | O => None
  | S f =>
      if time <? max
      then generate_loop f stepSize minor max timestamps (add A time stepSize minor) (count + 1)%Z (addTick ticks time timestamps)
      else Some (time, count, ticks)
  end.
Inductive generated := TooFarApart | Generated (timestamps : list num).
Record time_opts := mkTimeOpts {
  unit_ : string; minUnit : string; stepSize : option num; weekday : value; bounds_ticks : bool }.
(** [timestamps] are those of the data, when they are the source of the ticks.  None: an
    unknown unit, or the fuel is used up. *)
Definition _generate (fuel : nat) (o : time_opts) (capacity : num) (timestamps : option (list num)) (min max : num)
    : option generated :=
  let minor := if String.eqb (unit_ o) "" then determineUnitForAutoTicks (minUnit o) min max capacity else Some (unit_ o) in
  match minor with
  | None => None
  | Some minor =>
      let step := match stepSize o with Some s => s | None => 1 end in
      let weekday := if String.eqb minor "week" then weekday o else VBool false in
      let hasWeekday := is_weekday weekday in
      let first := if hasWeekday then startOf A min "isoWeek" weekday else min in
      let first := startOf A first (if hasWeekday then "day"%string else minor) Undefined in
      if 100000 * step <? diff A max min minor then Some TooFarApart
      else
        option_map (fun r => let '(time, count, ticks) := r in
          let ticks := if (time =? max) || bounds_ticks o || (count =? 1)%Z then addTick ticks time timestamps else ticks in
          Generated (sort_by (fun a b => a - b) ticks))
          (generate_loop fuel step minor max timestamps first 0%Z [])
  end.

Record tick := mkTick { tvalue : num; major : bool }.
(** [map[value]]: the last index of a value. *)
Fixpoint last_index (values : list num) (v : num) (i : nat) : option nat :=
  match values with
  | [] => None
  | w :: rest => match last_index rest v (S i) with
                 | Some j => Some j
                 | None => if same_key w v then Some i else None
                 end
  end.
Fixpoint major_loop (fuel : nat) (values : list num) (majorUnit : string) (last maj : num) (ticks : list tick) : option (list tick) :=
  match fuel with
  | O => None
  | S f =>
      if maj <=? last then
        major_loop f values majorUnit last (add A maj 1 majorUnit)
          (match last_index values maj 0 with
           | Some i => alter (fun t => mkTick (tvalue t) true) i ticks
           | None => ticks
           end)
      else Some ticks
  end.
Definition setMajorTicks (fuel : nat) (values : list num) (majorUnit : string) (ticks : list tick) : option (list tick) :=
  match values with
  | [] => None
  | v :: rest => major_loop fuel values majorUnit (List.last rest v) (startOf A v majorUnit Undefined) ticks
  end.
Definition ticksFromTimestamps (fuel : nat) (values : list num) (majorUnit : option string) : option (list tick) :=
  let ticks := List.map (fun v => mkTick v false) values in
  match values, majorUnit with
  | [], _ | _, None => Some ticks
  | _, Some u => if String.eqb u "" then Some ticks else setMajorTicks fuel values u ticks
  end.

(** *** Limits *)
Definition num0 (t : option num) : num := match t with Some x => x | None => 0 end.
Definition _getLabelBounds (labels : list (option num)) : num * num :=
  match labels with
  | [] => (Num.infinity, Num.opp Num.infinity)
  | t :: rest => (num0 t, num0 (List.last rest t))
  end.
Definition _applyBounds (minDefined maxDefined : bool) (range b : num * num) : num * num :=
  (if negb minDefined && negb (Num.is_nan (fst b)) then Num.min (fst range) (fst b) else fst range,
   if negb maxDefined && negb (Num.is_nan (snd b)) then Num.max (snd range) (snd b) else snd range).
(** [labels_only]: the bounds and the ticks come from the labels; [data] is
    [getMinMax(false)]; [now] is [Date.now()]. *)
Definition determineDataLimits (user : ScaleBase.bounds) (labels : list (option num)) (labels_only : bool) (data : num * num)
    (unit : string) (now : num) : num * num :=
  let range := (to_num (ScaleBase.min user), to_num (ScaleBase.max user)) in
  let minDefined := ScaleBase.minDefined user in
  let maxDefined := ScaleBase.maxDefined user in
  let range :=
    if negb minDefined || negb maxDefined then
      let range := _applyBounds minDefined maxDefined range (_getLabelBounds labels) in
      if labels_only then range else _applyBounds minDefined maxDefined range data
    else range in
  let unit := if String.eqb unit "" then "day"%string else unit in
  let min := if Num.is_finite (fst range) then fst range else startOf A now unit Undefined in
  let max := if Num.is_finite (snd range) then snd range else endOf A now unit + 1 in
  (Num.min min (max - 1), Num.max (min + 1) max).

(** *** Pixels *)
Record offsets := mkOffsets { ostart : num; oend : num; factor : num }.
Definition getDecimalForValue (min max : num) (v : option num) : num :=
  match v with None => Num.nan | Some v => (v - min) / (max - min) end.
(** [decimal] is the scale's own [getDecimalForValue]. *)
Definition initOffsets (decimal : num -> num) (offset : bool) (timestamps : list num) : offsets :=
  let n := List.length timestamps in
  let at_ i := match timestamps !! i with Some t => decimal t | None => Num.nan end in
  let '(start, end_) :=
    if offset && negb (Nat.eqb n 0) then
      (if Nat.eqb n 1 then 1 - at_ 0%nat else (at_ 1%nat - at_ 0%nat) / 2,
       if Nat.eqb n 1 then at_ 0%nat else (at_ (n - 1)%nat - at_ (n - 2)%nat) / 2)
    else (0, 0) in
  let limit := if Nat.ltb n 3 then 0.5 else 0.25 in
  let start := _limitValue start 0 limit in
  let end_ := _limitValue end_ 0 limit in
  mkOffsets start end_ (1 / (start + 1 + end_)).
Definition getPixelForValue (pixelForDecimal : num -> num) (o : offsets) (decimal : num) : num :=
  pixelForDecimal ((ostart o + decimal) * factor o).
Definition getValueForPixel (decimalForPixel : num -> num) (o : offsets) (min max pixel : num) : num :=
  let pos := decimalForPixel pixel / factor o - oend o in
  min + pos * (max - min).

(** *** Building the ticks *)
Record tick_opts := mkTickOpts { autoSkip : bool; major_enabled : bool; reverse : bool; offset : bool }.
Record built := mkBuilt {
  bmin : num; bmax : num; _unit : string; _majorUnit : option string; _offsets : offsets; bticks : list tick }.
(** [timestamps] are those of the labels or the generated ones.  [capacity] may depend on
    the range. *)
Definition buildTicks (fuel : nat) (o : time_opts) (t : tick_opts) (capacity : num -> num) (userMin userMax : num)
    (timestamps : list num) (min max : num) : option built :=
  let or_user (u d : num) := if Num.is_nan u || (u =? 0) then d else u in
  let '(min, max) :=
    match timestamps with
    | first :: rest => if bounds_ticks o then (or_user userMin first, or_user userMax (List.last rest first)) else (min, max)
    | [] => (min, max)
    end in
  let ticks := Collections._filterBetween timestamps min max in
  let unit := if negb (String.eqb (unit_ o) "") then Some (unit_ o)
              else if autoSkip t then determineUnitForAutoTicks (minUnit o) min max (capacity min)
              else determineUnitForFormatting (Num.of_nat (List.length ticks)) (minUnit o) min max in
  match unit with
  | None => None
  | Some unit =>
      let majorUnit := if negb (major_enabled t) || String.eqb unit "year" then None else determineMajorUnit unit in
      let offs := initOffsets (fun v => getDecimalForValue min max (Some v)) (offset t) timestamps in
      option_map (mkBuilt min max unit majorUnit offs)
        (ticksFromTimestamps fuel (if reverse t then List.rev ticks else ticks) majorUnit)
  end.

(** *** Labels *)
Definition _tickFormatFunction (formats : string -> option string) (unit : string) (majorUnit : option string)
    (callback : option (string -> Z -> string)) (given : option string) (time : num) (index : Z) (ticks : list tick) : string :=
  let minorFormat := if String.eqb unit "" then Some unit else formats unit in
  let majorFormat := match majorUnit with Some u => formats u | None => None end in
  let some f := match f with Some s => negb (String.eqb s "") | None => false end in
  let is_major := some majorFormat && match nthZ ticks index with Some t => major t | None => false end in
  let label := format A time (if some given then given else if is_major then majorFormat else minorFormat) in
  match callback with Some f => f label index | None => label end.
Definition getLabelForValue (tooltipFormat : string) (datetime : option string) (v : num) : string :=
  format A v (if String.eqb tooltipFormat "" then datetime else Some tooltipFormat).

Section Lib.
Context `{MathLib}.
Definition _getLabelSize (tickLabelWidth : num) (horizontal : bool) (maxRotation minRotation tickFontSize : num) : num * num :=
  let angle := toRadians (if horizontal then maxRotation else minRotation) in
  let cosRotation := math_cos angle in
  let sinRotation := math_sin angle in
  (tickLabelWidth * cosRotation + tickFontSize * sinRotation, tickLabelWidth * sinRotation + tickFontSize * cosRotation).
(** [size] is the size of an example label. *)
Definition _getLabelCapacity (horizontal : bool) (width height : num) (size : num * num) : num :=
  let capacity := Num.floor (if horizontal then width / fst size else height / snd size) - 1 in
  if 0 <? capacity then capacity else 1.
End Lib.

(** *** Timestamps *)
Record cache := mkCache { cdata : list (option num); clabels : list (option num); call_ : list (option num) }.
Definition empty_cache : cache := mkCache [] [] [].
Definition same_stamp (a b : option num) : bool :=
  match a, b with Some x, Some y => same_key x y | None, None => true | _, _ => false end.
Definition stamp_add (set : list (option num)) (t : option num) : list (option num) :=
  if existsb (same_stamp t) set then set else set ++ [t].
(** [normalize]: sorted and unique. *)
Definition normalize (values : list (option num)) : list (option num) :=
  fold_left stamp_add (sort_by (fun a b => num0 a - num0 b) values) [].
(** [metas]: the parsed values of the visible datasets on the scale. *)
Definition getDataTimestamps (normalized : bool) (metas : list (list (option num))) (c : cache) : list (option num) * cache :=
  match cdata c with
  | _ :: _ => (cdata c, c)
  | [] =>
      let ts := match metas with
                | m :: _ => if normalized then m else normalize (List.concat metas)
                | [] => normalize []
                end in
      (ts, mkCache ts (clabels c) (call_ c))
  end.
Definition getLabelTimestamps (normalized : bool) (po : parse_opts) (labels : list value) (c : cache) : list (option num) * cache :=
  match clabels c with
  | _ :: _ => (clabels c, c)
  | [] =>
      let ts := List.map (parse po) labels in
      let ts := if normalized then ts else normalize ts in
      (ts, mkCache (cdata c) ts (call_ c))
  end.
(** The time series scale: the timestamps of data and labels together. *)
Definition _getTimestampsForTable (normalized : bool) (po : parse_opts) (metas : list (list (option num))) (labels : list value)
    (c : cache) : list (option num) * cache :=
  match call_ c with
  | _ :: _ => (call_ c, c)
  | [] =>
      let '(d, c) := getDataTimestamps normalized metas c in
      let '(l, c) := getLabelTimestamps normalized po labels c in
      let ts := match d, l with
                | _ :: _, _ :: _ => normalize (d ++ l)
                | _ :: _, [] => d
                | [], _ => l
                end in
      (ts, mkCache (cdata c) (clabels c) ts)
  end.
End Adapter.

(** *** The lookup table of the time series scale *)
Record entry := mkEntry { time : num; pos : num }.
(** Points at the middle of their neighbours are left out. *)
Definition buildLookupTable (min max : num) (timestamps : list num) : list entry :=
  let items := List.filter (fun t => (min <=? t) && (t <=? max)) timestamps in
  let n := List.length items in
  if Nat.ltb n 2 then [mkEntry min 0; mkEntry max 1]
  else
    omap id (imap (fun i curr =>
      let next := match items !! (S i) with Some t => t | None => Num.nan end in
      let prev := match i with O => Num.nan | S j => match items !! j with Some t => t | None => Num.nan end end in
      if Num.round ((next + prev) / 2) =? curr then None
      else Some (mkEntry curr (Num.of_nat i / (Num.of_nat n - 1)))) items).
(** None: the table is empty, a TypeError. *)
Definition interpolate (table : list entry) (val : num) (rev : bool) : option num :=
  let source := if rev then pos else time in
  let target := if rev then time else pos in
  match table with
  | [] => None
  | first :: rest =>
      let last := List.last rest first in
      let '(p, n) :=
        if (source first <=? val) && (val <=? source last) then
          let r := Collections._lookupByKey table source val in
          (match nthZ table (Collections.lo r) with Some e => e | None => first end,
           match nthZ table (Collections.hi r) with Some e => e | None => last end)
        else (first, last) in
      let span := source n - source p in
      Some (if Num.is_nan span || (span =? 0) then target p
            else target p + (target n - target p) * (val - source p) / span)
  end.
Definition series_decimal (table : list entry) (minPos tableRange v : num) : option num :=
  option_map (fun p => (p - minPos) / tableRange) (interpolate table v false).
Definition series_value (decimalForPixel : num -> num) (o : offsets) (table : list entry) (minPos tableRange pixel : num) : option num :=
  interpolate table ((decimalForPixel pixel / factor o - oend o) * tableRange + minPos) true.
(** [initOffsets] of the time series scale: the table and the part of it on the scale. *)
Definition series_initOffsets (min max : num) (offset : bool) (timestamps : list num) : option (list entry * num * num * offsets) :=
  let table := buildLookupTable min max timestamps in
  match interpolate table min false, interpolate table max false with
  | Some minPos, Some maxPos =>
      let range := maxPos - minPos in
      let decimal v := match series_decimal table minPos range v with Some d => d | None => Num.nan end in
      Some (table, minPos, range, initOffsets decimal offset timestamps)
  | _, _ => None
  end.
End TimeScale.

Module TimeScaleFacts.
Import Js Core MathH Num NumFacts TimeScale.

(** A time: whole milliseconds, within a hundred thousand years of the epoch, so that the
    difference of two is exact. *)
Definition stamp (z : Z) : Prop := Z.abs z <= 4000000000000000.
Lemma stamp_safe z k : stamp z -> Z.abs k <= 2 -> safe (z + k).
Proof. unfold stamp, safe. lia. Qed.
Lemma stamp_safe0 z : stamp z -> safe z.
Proof. unfold stamp, safe. lia. Qed.
#[local] Hint Resolve stamp_safe0 : core.

(** *** Units *)
Lemma index_from_spec l unit i j : index_from l unit i = Some j ->
  (i <= j)%nat /\ exists u, nth_error l (j - i) = Some u /\ uname u = unit.
Proof.
  revert i. induction l as [|u l IH]; intros i; cbn [index_from]; [discriminate|].
  destruct (String.eqb_spec (uname u) unit) as [E|N].
  - intros [= <-]. split; [lia|]. exists u. rewrite Nat.sub_diag. now split.
  - intros H. destruct (IH _ H) as (L & v & V & E). split; [lia|]. exists v.
    replace (j - i)%nat with (S (j - S i)) by lia. now split.
Qed.
Lemma find_first {A} (p : A -> bool) l :
  match List.find p l with
  | Some a => exists l1 l2, l = l1 ++ a :: l2 /\ p a = true /\ List.Forall (fun b => p b = false) l1
  | None => List.Forall (fun b => p b = false) l
  end.
Proof.
  induction l as [|a l IH]; cbn [List.find]; [constructor|]. destruct (p a) eqn:E.
  - exists [], l. repeat split; auto.
  - destruct (List.find p l) as [b|]; [|now constructor]. destruct IH as (l1 & l2 & -> & B & F).
    exists (a :: l1), l2. repeat split; auto.
Qed.
(** The unit of automatic ticks is the first one, from the smallest allowed on, that is
    common and gives no more ticks than there is room for; years are taken when none does. *)
Theorem auto_unit_fits minUnit min max capacity i :
  unit_index minUnit = Some i ->
  exists u l1 l2, List.skipn i INTERVALS = l1 ++ u :: l2 /\
    determineUnitForAutoTicks minUnit min max capacity = Some (uname u) /\
    List.Forall (fun v => fits min max capacity v = false) l1 /\
    (fits min max capacity u = true \/ uname u = "year"%string).
Proof.
  intros I. unfold determineUnitForAutoTicks. rewrite I. cbn [option_map].
  destruct (index_from_spec _ _ _ _ I) as (_ & u & U & _). rewrite Nat.sub_0_r in U.
  assert (L : (i < List.length INTERVALS)%nat) by (apply nth_error_Some; congruence). cbn [List.length INTERVALS] in L.
  set (year := mkInterval "year" true 3.154e10%js None).
  assert (S : List.skipn i INTERVALS = List.firstn (8 - i) (List.skipn i INTERVALS) ++ [year])
    by (do 9 (destruct i as [|i]; [reflexivity|]); lia).
  pose proof (find_first (fits min max capacity) (List.firstn (8 - i) (List.skipn i INTERVALS))) as F.
  destruct (List.find _ _) as [v|].
  - destruct F as (l1 & l2 & E & V & N). exists v, l1, (l2 ++ [year]).
    rewrite E, <- app_assoc in S. repeat split; auto.
  - exists year, (List.firstn (8 - i) (List.skipn i INTERVALS)), []. repeat split; auto.
Qed.

(** *** Sorting what is sorted *)
Lemma sort_by_sorted {A} (cmp : A -> A -> num) l :
  StronglySorted (fun x y => before cmp x y = true) l -> sort_by cmp l = l.
Proof.
  induction 1 as [|x l S IH F]; [reflexivity|]. cbn [sort_by fold_right]. fold (sort_by cmp l). rewrite IH.
  destruct F as [|y l' B F]; [reflexivity|]. cbn [insert]. now rewrite B.
Qed.
Lemma before_diff a b : stamp a -> stamp b -> before (fun x y => (x - y)%js) (of_Z a) (of_Z b) = (a <=? b).
Proof.
  intros A B. unfold before. rewrite of_Z_sub; [|auto..|unfold stamp, safe in *; lia].
  change 0%js with (of_Z 0). rewrite of_Z_lt by (unfold stamp, safe in *; lia).
  destruct (Z.ltb_spec 0 (a - b)), (Z.leb_spec a b); reflexivity || lia.
Qed.
Lemma sort_stamps l : List.Forall stamp l -> StronglySorted Z.lt l ->
  sort_by (fun x y => (x - y)%js) (List.map of_Z l) = List.map of_Z l.
Proof.
  intros F S. apply sort_by_sorted. apply (sorted_map of_Z Z.lt); [|exact S]. rewrite List.Forall_forall in F.
  intros x y I J L. rewrite before_diff by auto. apply Z.leb_le. lia.
Qed.
Lemma put_key_new l t : stamp t -> List.Forall (fun s => stamp s /\ s < t) l ->
  put_key (List.map of_Z l) (of_Z t) = List.map of_Z (l ++ [t]).
Proof.
  intros S F. unfold put_key. replace (existsb _ _) with false.
  - rewrite List.map_app. cbn [List.map]. do 2 f_equal. change 0%js with (of_Z 0).
    rewrite of_Z_eq by (auto; unfold safe; lia). destruct (Z.eqb_spec t 0); congruence.
  - symmetry. induction F as [|s l [Ss L] F IH]; [reflexivity|]. cbn [List.map existsb]. rewrite IH, orb_false_r.
    unfold same_key. rewrite is_nan_of_Z, andb_false_l, orb_false_r, of_Z_eq by auto. destruct (Z.eqb_spec t s); [lia|reflexivity].
Qed.

(** *** Generated ticks *)
Section Generate.
Context (A : adapter) (step : num) (minor : string) (max : Z).

(** The adapter's steps from a time to the first at or after [max]. *)
Inductive chain : Z -> list Z -> Z -> Prop :=
| chain_end t : max <= t -> chain t [] t
| chain_step t t' ts e : t < max -> add A (of_Z t) step minor = of_Z t' -> t < t' -> stamp t' ->
    chain t' ts e -> chain t (t :: ts) e.

(** Adding a unit moves forward, by whole milliseconds. *)
Definition advances (first : Z) : Prop :=
  forall z, first <= z < max -> exists z', add A (of_Z z) step minor = of_Z z' /\ z < z' /\ stamp z'.

Lemma chain_exists n first : advances first -> (Z.to_nat (max - first) <= n)%nat ->
  exists ts e, chain first ts e /\ (List.length ts <= n)%nat.
Proof.
  revert first. induction n as [|n IH]; intros first Ad L.
  - exists [], first. split; [constructor; lia|reflexivity].
  - destruct (Z.le_gt_cases max first) as [G|G]; [exists [], first; split; [now constructor|cbn; lia]|].
    destruct (Ad first ltac:(lia)) as (z' & E & Lt & S').
    destruct (IH z') as (ts & e & C & Ln); [intros z Z; apply Ad; lia|lia|].
    exists (first :: ts), e. split; [now apply (chain_step first z')|cbn; lia].
Qed.
Lemma chain_sorted first ts e : stamp first -> chain first ts e ->
  StronglySorted Z.lt (ts ++ [e]) /\ List.Forall (fun t => first <= t /\ stamp t) (ts ++ [e]).
Proof.
  intros S C. induction C as [t L|t t' ts e L E Lt S' C IH].
  - split; repeat constructor; auto; lia.
  - destruct (IH S') as [I1 I2]. cbn [app]. rewrite List.Forall_forall in I2. split.
    + constructor; [exact I1|]. apply List.Forall_forall. intros x I. specialize (I2 x I). lia.
    + constructor; [split; [lia|exact S]|]. apply List.Forall_forall. intros x I. specialize (I2 x I).
      split; [lia|tauto].
Qed.
Lemma generate_chain fuel first ts e done : stamp max -> stamp first -> chain first ts e -> (List.length ts < fuel)%nat ->
  List.Forall (fun s => stamp s /\ s < first) done ->
  generate_loop A fuel step minor (of_Z max) None (of_Z first) (lengthZ done) (List.map of_Z done)
  = Some (of_Z e, lengthZ done + lengthZ ts, List.map of_Z (done ++ ts)).
Proof.
  intros SM S C. revert fuel done. induction C as [t L|t t' ts e L E Lt S' C IH]; intros [|f] done Fu D; try (cbn in Fu; lia);
    cbn [generate_loop]; rewrite of_Z_lt by auto.
  - destruct (Z.ltb_spec t max); [lia|]. rewrite app_nil_r. unfold lengthZ at 3. cbn. now rewrite Z.add_0_r.
  - destruct (Z.ltb_spec t max); [|lia]. rewrite E. cbn [addTick]. rewrite put_key_new by auto.
    replace (lengthZ done + 1) with (lengthZ (done ++ [t])) by (unfold lengthZ; rewrite length_app; cbn; lia).
    rewrite IH; [|exact S'|cbn in Fu; lia|].
    + rewrite <- app_assoc. unfold lengthZ. rewrite length_app. cbn. do 3 f_equal. lia.
    + apply List.Forall_app. split; [|constructor; [now split|constructor]].
      rewrite List.Forall_forall in *. intros x I. specialize (D x I). split; [tauto|lia].
Qed.
End Generate.

Lemma sorted_snoc {A} (R : A -> A -> Prop) l e : StronglySorted R (l ++ [e]) ->
  StronglySorted R l /\ List.Forall (fun t => R t e) l.
Proof.
  induction l as [|a l IH]; cbn [app]; [split; constructor|]. intros S. inversion S as [|? ? S' F]; subst.
  destruct (IH S') as [I1 I2]. apply List.Forall_app in F as [F1 F2]. inversion F2. split; constructor; auto.
Qed.

(** C9: without data timestamps, when the unit is one the code finds or is given, is not
    the week, and the adapter's additions of the step move forward by whole milliseconds
    until the end is reached, generating the ticks of a time scale ends.  It reports ends
    that are more than 100000 steps apart, or gives the adapter's steps from
    the start of the first unit, in increasing order, while they are before the end; the
    step that reaches the end is a tick too when it is the end itself, when the ticks bound
    the scale, or when it would be the second tick. *)
Theorem time_ticks_generated A fuel o capacity min max minor first :
  stamp min -> stamp max -> stamp first ->
  (if String.eqb (unit_ o) "" then determineUnitForAutoTicks (minUnit o) (of_Z min) (of_Z max) capacity else Some (unit_ o))
  = Some minor ->
  minor <> "week"%string -> startOf A (of_Z min) minor Undefined = of_Z first ->
  let step := match stepSize o with Some s => s | None => 1%js end in
  advances A step minor max first -> (Z.to_nat (max - first) < fuel)%nat ->
  if lt (mul 100000%js step) (diff A (of_Z max) (of_Z min) minor)
  then _generate A fuel o capacity None (of_Z min) (of_Z max) = Some TooFarApart
  else exists ts e, chain A step minor max first ts e /\
    let all := if (e =? max) || bounds_ticks o || (lengthZ ts =? 1) then ts ++ [e] else ts in
    _generate A fuel o capacity None (of_Z min) (of_Z max) = Some (Generated (List.map of_Z all)) /\
    StronglySorted Z.lt all.
Proof.
  intros Smin Smax Sf U W St step Ad Fu. unfold _generate. rewrite U. cbv zeta.
  destruct (String.eqb_spec minor "week") as [E|_]; [contradiction|]. change (is_weekday (VBool false)) with false.
  cbv iota. rewrite St. fold step. destruct (lt _ _); [reflexivity|].
  destruct (chain_exists A step minor max (Z.to_nat (max - first)) first Ad ltac:(lia)) as (ts & e & C & L).
  exists ts, e. split; [exact C|]. destruct (chain_sorted A step minor max first ts e Sf C) as [S F].
  pose proof (generate_chain A step minor max fuel first ts e [] Smax Sf C ltac:(lia) (List.Forall_nil _)) as G.
  change (lengthZ []) with 0 in G. cbn [List.map app] in G. rewrite Z.add_0_l in G. rewrite G. cbn [option_map].
  apply List.Forall_app in F as [Fts Fe]. inversion Fe as [|? ? [Le Se] _]; subst.
  assert (Sts : StronglySorted Z.lt ts /\ List.Forall (fun t => t < e) ts) by (now apply sorted_snoc).
  rewrite of_Z_eq by auto. destruct (_ || _ || _); split.
  - cbn [addTick]. rewrite put_key_new; [rewrite sort_stamps; [reflexivity| |exact S]|exact Se|].
    + apply List.Forall_app. split; [|now repeat constructor]. eapply List.Forall_impl; [|exact Fts]. now intros a [_ Sa].
    + destruct Sts as [_ B]. rewrite List.Forall_forall in *. intros x I. split; [now apply Fts|now apply B].
  - exact S.
  - rewrite sort_stamps; [reflexivity| |apply Sts]. eapply List.Forall_impl; [|exact Fts]. now intros a [_ Sa].
  - apply Sts.
Qed.

(** *** Limits *)
Definition low (x : num) : Prop := x = infinity \/ exists z, x = of_Z z /\ stamp z.
Definition high (x : num) : Prop := x = opp infinity \/ exists z, x = of_Z z /\ stamp z.

Lemma low_notnan x : low x -> is_nan x = false.
Proof. intros [->|(z & -> & S)]; [reflexivity|now apply is_nan_of_Z, stamp_safe0]. Qed.
Lemma high_notnan x : high x -> is_nan x = false.
Proof. intros [->|(z & -> & S)]; [reflexivity|now apply is_nan_of_Z, stamp_safe0]. Qed.
Lemma low_min x y : low x -> low y -> low (Num.min x y) /\ le (Num.min x y) x = true /\ le (Num.min x y) y = true.
Proof.
  intros X Y. pose proof (low_notnan x X) as Nx. pose proof (low_notnan y Y) as Ny.
  split; [|split; [now apply min_le_l|now apply min_le_r]].
  destruct (min_cases x y Nx Ny) as [[E _]|[E _]]; now rewrite E.
Qed.
Lemma high_max x y : high x -> high y -> high (Num.max x y) /\ le x (Num.max x y) = true /\ le y (Num.max x y) = true.
Proof.
  intros X Y. pose proof (high_notnan x X) as Nx. pose proof (high_notnan y Y) as Ny.
  split; [|split; [now apply le_max_l|now apply le_max_r]].
  destruct (max_cases x y Nx Ny) as [[E _]|[E _]]; now rewrite E.
Qed.
Lemma finite_stamp z : stamp z -> is_finite (of_Z z) = true.
Proof. intros S. rewrite of_Z_canon by auto. destruct z as [|p|p]; reflexivity. Qed.

(** A range the limits must hold. *)
Definition possible (b : num * num) : Prop := low (fst b) /\ high (snd b).
Lemma apply_bounds minDefined maxDefined r b : possible r -> possible b ->
  let r' := _applyBounds minDefined maxDefined r b in
  possible r' /\ le (fst r') (fst r) = true /\ le (snd r) (snd r') = true /\
  (minDefined = false -> le (fst r') (fst b) = true) /\ (maxDefined = false -> le (snd b) (snd r') = true).
Proof.
  intros [R1 R2] [B1 B2]. unfold _applyBounds. cbv zeta.
  rewrite (low_notnan _ B1), (high_notnan _ B2). cbn [fst snd negb]. rewrite !andb_true_r.
  destruct (low_min _ _ R1 B1) as (M1 & M2 & M3). destruct (high_max _ _ R2 B2) as (N1 & N2 & N3).
  destruct minDefined, maxDefined; cbn [negb fst snd]; unfold possible; cbn [fst snd];
    repeat split; auto using le_refl, low_notnan, high_notnan; discriminate.
Qed.
Lemma label_bounds labels : List.Forall (fun t => exists z, t = Some (of_Z z) /\ stamp z) labels -> possible (_getLabelBounds labels).
Proof.
  intros F. destruct labels as [|t rest]; [split; now left|]. unfold _getLabelBounds. split; right.
  - inversion F as [|? ? (z & -> & S) _]; subst. now exists z.
  - assert (I : In (List.last rest t) (t :: rest)).
    { clear F. revert t. induction rest as [|a rest IH]; intros t; [now left|]. cbn [List.last].
      destruct rest; [right; now left|]. destruct (IH t) as [E|I]; [now left|right; now right]. }
    rewrite List.Forall_forall in F. destruct (F _ I) as (z & -> & S). now exists z.
Qed.

(** The bounds come from somewhere. *)
Lemma apply_bounds_in md xd r b : possible r -> possible b ->
  In (fst (_applyBounds md xd r b)) (fst r :: if md then [] else [fst b]) /\
  In (snd (_applyBounds md xd r b)) (snd r :: if xd then [] else [snd b]).
Proof.
  intros [R1 R2] [B1 B2]. unfold _applyBounds. rewrite (low_notnan _ B1), (high_notnan _ B2). cbn [negb].
  rewrite !andb_true_r. cbn [fst snd]. destruct (min_cases _ _ (low_notnan _ R1) (low_notnan _ B1)) as [[E _]|[E _]];
    destruct (max_cases _ _ (high_notnan _ R2) (high_notnan _ B2)) as [[E' _]|[E' _]];
    destruct md, xd; cbn [negb In]; rewrite ?E, ?E'; auto.
Qed.
(** Where the ends of the limits can come from: the user's end and, unless it is fixed, the
    labels and, unless only labels count, the data. *)
Definition ends (user : num) (defined labels_only : bool) (labels : list num) (data : num) : list num :=
  user :: if defined then [] else labels ++ if labels_only then [] else [data].
Lemma range_holds (md xd lo : bool) (r0 lb data : num * num) : possible r0 -> possible lb -> possible data ->
  let r := if negb md || negb xd then
             let r := _applyBounds md xd r0 lb in if lo then r else _applyBounds md xd r data
           else r0 in
  possible r /\ le (fst r) (fst r0) = true /\ le (snd r0) (snd r) = true /\
  (md = false -> le (fst r) (fst lb) = true /\ (lo = false -> le (fst r) (fst data) = true)) /\
  (xd = false -> le (snd lb) (snd r) = true /\ (lo = false -> le (snd data) (snd r) = true)).
Proof.
  intros P PL D. destruct (apply_bounds md xd r0 _ P PL) as (Q1 & Q2 & Q3 & Q4 & Q5).
  destruct (apply_bounds md xd _ _ Q1 D) as (T1 & T2 & T3 & T4 & T5). destruct (negb md || negb xd) eqn:F.
  - destruct lo; repeat split; eauto using le_trans; try discriminate; try apply Q1; try apply T1.
  - apply orb_false_iff in F as [F1 F2]. apply negb_false_iff in F1, F2. rewrite F1, F2.
    destruct P as [P1 P2]. repeat split; auto using le_refl, low_notnan, high_notnan; discriminate.
Qed.
Lemma ends_in user (md xd lo : bool) (r0 lb data : num * num) :
  possible r0 -> possible lb -> possible data ->
  let r := if negb md || negb xd then
             let r := _applyBounds md xd r0 lb in if lo then r else _applyBounds md xd r data
           else r0 in
  user = r0 -> In (fst r) (ends (fst user) md lo [fst lb] (fst data)) /\
               In (snd r) (ends (snd user) xd lo [snd lb] (snd data)).
Proof.
  intros P PL D r ->. unfold r. destruct (negb md || negb xd); [|split; now left].
  destruct (apply_bounds md xd r0 lb P PL) as (Q & _). destruct (apply_bounds_in md xd r0 lb P PL) as [I1 I2].
  destruct (apply_bounds_in md xd _ data Q D) as [J1 J2]. unfold ends.
  destruct lo, md, xd; cbn [In app] in *; intuition congruence.
Qed.
Lemma infinite_low x : low x -> le infinity x = true -> x = infinity.
Proof. intros [->|(z & -> & S)] L; [reflexivity|]. pose proof (finite_stamp z S). destruct (of_Z z) as [[]|[]| |[] m e]; discriminate. Qed.
Lemma infinite_high x : high x -> le x (opp infinity) = true -> x = opp infinity.
Proof. intros [->|(z & -> & S)] L; [reflexivity|]. pose proof (finite_stamp z S). destruct (of_Z z) as [[]|[]| |[] m e]; discriminate. Qed.

(** An end in whole milliseconds for an end that may be infinite. *)
Lemma low_end x d : low x -> stamp d -> exists z, (if is_finite x then x else of_Z d) = of_Z z /\ stamp z /\
  (x = of_Z z \/ x = infinity /\ z = d) /\
  forall a y, a <= z -> safe a -> le x y = true -> y <> infinity -> le (of_Z a) y = true.
Proof.
  intros [->|(z & -> & S)] D.
  - exists d. split; [reflexivity|]. split; [exact D|]. split; [now right|]. intros a y _ _ L N. exfalso. apply N.
    destruct y as [[]|[]| |[] m e]; try discriminate L; reflexivity.
  - exists z. rewrite (finite_stamp z S). split; [reflexivity|]. split; [exact S|]. split; [now left|].
    intros a y La Sa L _.
    apply (le_trans _ (of_Z z)); [|exact L]. rewrite of_Z_le by auto. now apply Z.leb_le.
Qed.
Lemma high_end x d : high x -> stamp d -> exists z, (if is_finite x then x else Num.add (of_Z d) 1%js) = of_Z z /\ Z.abs z <= 4000000000000001 /\
  (x = of_Z z \/ x = opp infinity /\ z = d + 1) /\
  forall b y, z <= b -> safe b -> le y x = true -> y <> opp infinity -> le y (of_Z b) = true.
Proof.
  intros [->|(z & -> & S)] D.
  - exists (d + 1). split; [change 1%js with (of_Z 1); apply of_Z_add; unfold stamp, safe in *; lia|].
    split; [unfold stamp in *; lia|]. split; [now right|]. intros b y _ _ L N. exfalso. apply N.
    destruct y as [[]|[]| |[] m e]; try discriminate L; reflexivity.
  - exists z. rewrite (finite_stamp z S). split; [reflexivity|]. split; [unfold stamp in *; lia|]. split; [now left|].
    intros b y Lb Sb L _.
    apply (le_trans _ (of_Z z)); [exact L|]. rewrite of_Z_le by auto. now apply Z.leb_le.
Qed.

Lemma limits_hold A user labels labels_only data unit now s e :
  let u := if String.eqb unit "" then "day"%string else unit in
  startOf A now u Undefined = of_Z s -> stamp s -> endOf A now u = of_Z e -> stamp e ->
  possible (to_num (ScaleBase.min user), to_num (ScaleBase.max user)) ->
  List.Forall (fun t => exists z, t = Some (of_Z z) /\ stamp z) labels -> possible data ->
  exists a b, determineDataLimits A user labels labels_only data unit now = (of_Z a, of_Z b) /\ a < b /\ safe a /\ safe b /\
    let holds_low x := x <> infinity -> le (of_Z a) x = true in
    let holds_high x := x <> opp infinity -> le x (of_Z b) = true in
    holds_low (to_num (ScaleBase.min user)) /\ holds_high (to_num (ScaleBase.max user)) /\
    (ScaleBase.minDefined user = false -> holds_low (fst (_getLabelBounds labels)) /\ (labels_only = false -> holds_low (fst data))) /\
    (ScaleBase.maxDefined user = false -> holds_high (snd (_getLabelBounds labels)) /\ (labels_only = false -> holds_high (snd data))) /\
    let lows := ends (to_num (ScaleBase.min user)) (ScaleBase.minDefined user) labels_only [fst (_getLabelBounds labels)] (fst data) in
    let highs := ends (to_num (ScaleBase.max user)) (ScaleBase.maxDefined user) labels_only [snd (_getLabelBounds labels)] (snd data) in
    exists lo hi, a = Z.min lo (hi - 1) /\ b = Z.max (lo + 1) hi /\
      (In (of_Z lo) lows /\ is_finite (of_Z lo) = true \/ lo = s /\ List.Forall (fun x => x = infinity) lows) /\
      (In (of_Z hi) highs /\ is_finite (of_Z hi) = true \/ hi = e + 1 /\ List.Forall (fun x => x = opp infinity) highs).
Proof.
  intros u St Ss En Se P L D. unfold determineDataLimits. fold u. set (r0 := (to_num _, to_num _)) in *.
  set (md := ScaleBase.minDefined user). set (xd := ScaleBase.maxDefined user).
  set (r := if negb md || negb xd then _ else r0).
  pose proof (label_bounds labels L) as PL.
  pose proof (range_holds md xd labels_only r0 _ data P PL D) as R. cbv zeta in R. fold r in R.
  pose proof (ends_in r0 md xd labels_only r0 _ data P PL D eq_refl) as [I1 I2]. cbv zeta in I1, I2. fold r in I1, I2.
  clearbody r. destruct r as [r1 r2]. cbn [fst snd] in *.
  destruct R as ([R1 R2] & A1 & A2 & A3 & A4). cbn [fst snd] in *. rewrite St, En.
  destruct (low_end r1 s R1 Ss) as (a0 & E1 & S1 & O1 & K1). destruct (high_end r2 e R2 Se) as (b0 & E2 & S2 & O2 & K2).
  rewrite E1, E2. change 1%js with (of_Z 1).
  assert (Sf : safe a0 /\ safe (a0 + 1) /\ safe b0 /\ safe (b0 - 1) /\ safe 1) by (unfold stamp, safe in *; lia).
  destruct Sf as (F1 & F2 & F3 & F4 & F5).
  rewrite of_Z_sub, of_Z_add, of_Z_min, of_Z_max by assumption.
  exists (Z.min a0 (b0 - 1)), (Z.max (a0 + 1) b0). split; [reflexivity|]. split; [lia|]. cbv zeta.
  assert (Fa : safe (Z.min a0 (b0 - 1)) /\ safe (Z.max (a0 + 1) b0)) by (unfold stamp, safe in *; lia).
  destruct Fa as [Fa Fb].
  assert (KL : forall y, le r1 y = true -> y <> infinity -> le (of_Z (Z.min a0 (b0 - 1))) y = true)
    by (intros y; apply K1; [lia|exact Fa]).
  assert (KH : forall y, le y r2 = true -> y <> opp infinity -> le y (of_Z (Z.max (a0 + 1) b0)) = true)
    by (intros y; apply K2; [lia|exact Fb]).
  split; [exact Fa|]. split; [exact Fb|]. split; [exact (KL _ A1)|]. split; [exact (KH _ A2)|]. split; [|split].
  - intros M. destruct (A3 M) as [B1 B2]. split; [exact (KL _ B1)|]. intros LO. exact (KL _ (B2 LO)).
  - intros M. destruct (A4 M) as [B1 B2]. split; [exact (KH _ B1)|]. intros LO. exact (KH _ (B2 LO)).
  - exists a0, b0. split; [reflexivity|]. split; [reflexivity|]. destruct P as [P1 P2], PL as [L1 L2], D as [D1 D2]. split.
    + destruct O1 as [->|[-> ->]]; [left; split; [exact I1|now apply finite_stamp]|right]. split; [reflexivity|]. unfold ends. fold md.
      constructor; [now apply infinite_low|]. destruct md; [constructor|]. destruct (A3 eq_refl) as [B1 B2].
      constructor; [now apply infinite_low|]. destruct labels_only; [constructor|]. repeat constructor. apply infinite_low; auto.
    + destruct O2 as [->|[-> ->]]; [left; split; [exact I2|now apply NumExact.is_finite_of_Z]|right]. split; [reflexivity|]. unfold ends. fold xd.
      constructor; [now apply infinite_high|]. destruct xd; [constructor|]. destruct (A4 eq_refl) as [B1 B2].
      constructor; [now apply infinite_high|]. destruct labels_only; [constructor|]. repeat constructor. apply infinite_high; auto.
Qed.
(** Labels as the normalisation leaves them: the first is the least, the last the greatest. *)
Definition stamped (zs : list Z) : list (option num) := List.map (fun z => Some (of_Z z)) zs.
Lemma label_bounds_sorted ls t : StronglySorted Z.le ls -> In t ls ->
  exists z1 z2, _getLabelBounds (stamped ls) = (of_Z z1, of_Z z2) /\ In z1 ls /\ In z2 ls /\ z1 <= t <= z2.
Proof.
  intros S I. destruct ls as [|z ls]; [destruct I|]. exists z, (List.last ls z). split.
  - cbn [stamped _getLabelBounds List.map num0]. f_equal. clear S I. revert z. induction ls as [|y ls IH]; intros z; [reflexivity|].
    cbn [List.map List.last]. destruct ls; [reflexivity|]. exact (IH z).
  - split; [now left|]. revert z t S I. induction ls as [|y ls IH]; intros z t S I; [destruct I as [->|[]]; cbn; split; [auto|lia]|].
    inversion S as [|? ? S' F]; subst. inversion F as [|? ? Fy F']; subst.
    assert (E : List.last (y :: ls) z = List.last ls y) by (destruct ls as [|x ls]; [reflexivity|]; cbn; clear; revert x; induction ls; intros; cbn; [reflexivity|auto]).
    rewrite E. destruct (IH y y S' (or_introl eq_refl)) as [L1 L2]. split; [now right|].
    destruct I as [->|I]; [lia|]. destruct (IH y t S' I). lia.
Qed.

(** The labels for their bounds. *)
Lemma ends_labels v far u d lo ls data : is_finite far = false ->
  (ls = [] /\ v = far \/ exists z, In z ls /\ v = of_Z z /\ stamp z) ->
  (forall x, is_finite x = true -> In x (ends u d lo [v] data) -> In x (ends u d lo (List.map of_Z ls) data)) /\
  (List.Forall (fun x => x = far) (ends u d lo [v] data) -> List.Forall (fun x => x = far) (ends u d lo (List.map of_Z ls) data)).
Proof.
  intros Ff V. unfold ends. split.
  - intros x Fx [<-|I]; [now left|right]. destruct d; [exact I|]. apply in_app_iff. destruct I as [<-|I]; [|now right].
    destruct V as [[-> ->]|(z & I & -> & _)]; [congruence|]. left. now apply in_map.
  - intros F. inversion F as [|? ? Fu F']; subst. constructor; [reflexivity|]. destruct d; [constructor|].
    inversion F' as [|? ? Fv F'']; subst. destruct V as [[-> _]|(z & _ & E & Sz)]; [exact F''|].
    pose proof (finite_stamp z Sz). congruence.
Qed.
Lemma first_last_label ls : StronglySorted Z.le ls -> List.Forall stamp ls ->
  (ls = [] /\ fst (_getLabelBounds (stamped ls)) = infinity \/
   exists z, In z ls /\ fst (_getLabelBounds (stamped ls)) = of_Z z /\ stamp z) /\
  (ls = [] /\ snd (_getLabelBounds (stamped ls)) = opp infinity \/
   exists z, In z ls /\ snd (_getLabelBounds (stamped ls)) = of_Z z /\ stamp z).
Proof.
  intros So F. rewrite List.Forall_forall in F. destruct ls as [|t ls]; [split; left; now split|].
  destruct (label_bounds_sorted (t :: ls) t So (or_introl eq_refl)) as (z1 & z2 & E & I1 & I2 & _). rewrite E. cbn [fst snd].
  split; right; [exists z1|exists z2]; auto.
Qed.

(** C31: the limits of a time scale are whole milliseconds with the lower under the upper,
    whatever the sorted labels, the data and the user's ends, also when there are none of
    them.  They hold the user's ends and, at the ends the user has not fixed, all labels
    and, unless only labels count, the data.  And they go no further: the lower limit is
    one of these, or the start of the unit when none of them is finite, unless it is moved
    under the upper one; likewise the upper limit, or the millisecond after the end of the
    unit. *)
Theorem time_limits A user ls labels_only data unit now s e :
  let u := if String.eqb unit "" then "day"%string else unit in
  startOf A now u Undefined = of_Z s -> stamp s -> endOf A now u = of_Z e -> stamp e ->
  possible (to_num (ScaleBase.min user), to_num (ScaleBase.max user)) ->
  StronglySorted Z.le ls -> List.Forall stamp ls -> possible data ->
  exists a b, determineDataLimits A user (stamped ls) labels_only data unit now = (of_Z a, of_Z b) /\ a < b /\
    let holds_low x := x <> infinity -> le (of_Z a) x = true in
    let holds_high x := x <> opp infinity -> le x (of_Z b) = true in
    holds_low (to_num (ScaleBase.min user)) /\ holds_high (to_num (ScaleBase.max user)) /\
    (ScaleBase.minDefined user = false -> (forall t, In t ls -> a <= t) /\ (labels_only = false -> holds_low (fst data))) /\
    (ScaleBase.maxDefined user = false -> (forall t, In t ls -> t <= b) /\ (labels_only = false -> holds_high (snd data))) /\
    let lows := ends (to_num (ScaleBase.min user)) (ScaleBase.minDefined user) labels_only (List.map of_Z ls) (fst data) in
    let highs := ends (to_num (ScaleBase.max user)) (ScaleBase.maxDefined user) labels_only (List.map of_Z ls) (snd data) in
    exists lo hi, a = Z.min lo (hi - 1) /\ b = Z.max (lo + 1) hi /\
      (In (of_Z lo) lows \/ lo = s /\ List.Forall (fun x => x = infinity) lows) /\
      (In (of_Z hi) highs \/ hi = e + 1 /\ List.Forall (fun x => x = opp infinity) highs).
Proof.
  intros u St Ss En Se P So F D. assert (L : List.Forall (fun t => exists z, t = Some (of_Z z) /\ stamp z) (stamped ls)).
  { apply List.Forall_map. eapply List.Forall_impl; [|exact F]. intros z Sz. now exists z. }
  destruct (limits_hold A user (stamped ls) labels_only data unit now s e St Ss En Se P L D)
    as (a & b & E & Lt & Sa & Sb & U1 & U2 & B1 & B2 & lo & hi & Ea & Eb & Lo & Hi).
  exists a, b. split; [exact E|]. split; [exact Lt|]. cbv zeta. split; [exact U1|]. split; [exact U2|].
  destruct (first_last_label ls So F) as [V1 V2].
  rewrite List.Forall_forall in F. assert (Fi : forall z, In z ls -> safe z /\ of_Z z <> infinity /\ of_Z z <> opp infinity).
  { intros z I. pose proof (finite_stamp z (F z I)) as Fz. split; [now apply stamp_safe0, F|]. split; intros X; now rewrite X in Fz. }
  split; [|split].
  - intros M. destruct (B1 M) as [Bl Bd]. split; [|exact Bd]. intros t I.
    destruct (label_bounds_sorted ls t So I) as (z1 & z2 & Q & I1 & I2 & Lz). rewrite Q in Bl. cbn [fst snd] in Bl.
    destruct (Fi z1 I1) as (S1 & N1 & _). specialize (Bl N1). rewrite of_Z_le in Bl by assumption. apply Z.leb_le in Bl. lia.
  - intros M. destruct (B2 M) as [Bl Bd]. split; [|exact Bd]. intros t I.
    destruct (label_bounds_sorted ls t So I) as (z1 & z2 & Q & I1 & I2 & Lz). rewrite Q in Bl. cbn [fst snd] in Bl.
    destruct (Fi z2 I2) as (S2 & _ & N2). specialize (Bl N2). rewrite of_Z_le in Bl by assumption. apply Z.leb_le in Bl. lia.
  - exists lo, hi. split; [exact Ea|]. split; [exact Eb|]. split.
    + destruct Lo as [[I Fl]|[-> I]]; [left|right; split; [reflexivity|]];
        eapply (ends_labels _ infinity); first [exact V1 | exact I | exact Fl | reflexivity].
    + destruct Hi as [[I Fl]|[-> I]]; [left|right; split; [reflexivity|]];
        eapply (ends_labels _ (opp infinity)); first [exact V2 | exact I | exact Fl | reflexivity].
Qed.

(** *** Timestamps *)
Lemma sorted_drop {A} (R : A -> A -> Prop) a x l : StronglySorted R (a ++ x :: l) -> StronglySorted R (a ++ l).
Proof.
  induction a as [|y a IH]; cbn [app]; intros S; inversion S as [|? ? S' F]; subst; [exact S'|].
  constructor; [auto|]. apply List.Forall_app in F as [F1 F2]. inversion F2; subst. now apply List.Forall_app.
Qed.
Lemma sorted_app_le {A} (R : A -> A -> Prop) a x l : StronglySorted R (a ++ x :: l) -> List.Forall (fun y => R y x) a.
Proof.
  induction a as [|y a IH]; cbn [app]; intros S; [constructor|]. inversion S as [|? ? S' F]; subst. constructor; [|auto].
  apply List.Forall_app in F as [_ F]. now inversion F.
Qed.
Lemma sorted_snoc_lt l t : StronglySorted Z.lt l -> List.Forall (fun y => y <= t) l -> ~ In t l -> StronglySorted Z.lt (l ++ [t]).
Proof.
  induction 1 as [|y l S IH F]; intros L N; cbn [app]; [repeat constructor|]. inversion L; subst.
  constructor; [apply IH; [assumption|intros I; apply N; now right]|].
  apply List.Forall_app. split; [exact F|]. constructor; [|constructor].
  assert (y <> t) by (intros ->; apply N; now left). lia.
Qed.
Lemma stamp_add_new l t : stamp t -> List.Forall stamp l ->
  stamp_add (stamped l) (Some (of_Z t)) = stamped (if existsb (Z.eqb t) l then l else l ++ [t]).
Proof.
  intros S F. unfold stamp_add.
  assert (E : existsb (same_stamp (Some (of_Z t))) (stamped l) = existsb (Z.eqb t) l).
  { induction F as [|s l Ss F IH]; [reflexivity|]. cbn [stamped List.map existsb same_stamp]. unfold stamped in IH. rewrite IH.
    unfold same_key. now rewrite is_nan_of_Z, andb_false_l, orb_false_r, of_Z_eq by auto. }
  rewrite E. destruct (existsb (Z.eqb t) l); [reflexivity|]. unfold stamped. now rewrite List.map_app.
Qed.
Lemma dedup_sorted l done : List.Forall stamp l -> List.Forall stamp done -> StronglySorted Z.le (done ++ l) -> StronglySorted Z.lt done ->
  exists u, fold_left stamp_add (stamped l) (stamped done) = stamped u /\ StronglySorted Z.lt u /\ forall z, In z u <-> In z (done ++ l).
Proof.
  revert done. induction l as [|t l IH]; intros done F D S SD.
  - exists done. split; [reflexivity|]. split; [exact SD|]. intros z. now rewrite app_nil_r.
  - inversion F as [|? ? Ft Fl]; subst. cbn [stamped List.map fold_left]. rewrite stamp_add_new by assumption.
    assert (S' : StronglySorted Z.le ((done ++ [t]) ++ l)) by (now rewrite <- app_assoc).
    destruct (existsb (Z.eqb t) done) eqn:E.
    + destruct (IH done Fl D) as (u & U & SU & I); [|exact SD|].
      * exact (sorted_drop _ _ _ _ S).
      * exists u. split; [exact U|]. split; [exact SU|]. intros z. rewrite I, !in_app_iff. cbn [In].
        apply existsb_exists in E as (t' & It & Et). apply Z.eqb_eq in Et. subst t'. intuition congruence.
    + destruct (IH (done ++ [t]) Fl) as (u & U & SU & I); [now apply List.Forall_app; split; [|constructor]|exact S'| |].
      * apply sorted_snoc_lt; [exact SD| |].
        -- exact (sorted_app_le _ _ _ _ S).
        -- intros J. apply Bool.not_true_iff_false in E. apply E. apply existsb_exists. exists t. split; [exact J|apply Z.eqb_refl].
      * exists u. split; [exact U|]. split; [exact SU|]. intros z. now rewrite I, <- app_assoc.
Qed.

Lemma before_stamps a b : stamp a -> stamp b ->
  before (fun x y : Z => Num.sub (num0 (Some (of_Z x))) (num0 (Some (of_Z y)))) a b = (a <=? b).
Proof. intros A B. exact (before_diff a b A B). Qed.
Lemma normalize_stamps zs : List.Forall stamp zs ->
  exists us, normalize (stamped zs) = stamped us /\ StronglySorted Z.lt us /\ forall z, In z us <-> In z zs.
Proof.
  intros F. unfold normalize, stamped. rewrite MathFacts.sort_map. set (ss := sort_by _ zs).
  assert (P : Permutation ss zs) by apply sort_perm.
  assert (Fs : List.Forall stamp ss) by (rewrite List.Forall_forall in *; intros z I; apply F; now rewrite <- P).
  assert (S : StronglySorted Z.le ss).
  { apply (sort_sorted _ Z.le stamp); [| |intros; lia|exact F]; intros x y X Y; rewrite before_stamps by assumption;
      [intros H; now apply Z.leb_le|intros H; apply Z.leb_gt in H; lia]. }
  destruct (dedup_sorted ss [] Fs (List.Forall_nil _) S (SSorted_nil _)) as (us & U & SU & I).
  exists us. split; [exact U|]. split; [exact SU|]. intros z. rewrite I. cbn [app]. now rewrite P.
Qed.
Lemma concat_stamped metas : List.concat (List.map stamped metas) = stamped (List.concat metas).
Proof. unfold stamped. induction metas; cbn [List.map List.concat]; [reflexivity|]. now rewrite IHmetas, List.map_app. Qed.
Lemma stamped_nil us : stamped us = [] -> us = [].
Proof. now destruct us. Qed.

(** The timestamps of a time series are those of the data and of the labels, in
    increasing order and each once; they are computed once: until the caches are emptied
    every later call gives the same, whatever the labels and the data are by then. *)
Theorem table_timestamps A po labels metas zs :
  List.map (parse A po) labels = stamped zs -> List.Forall stamp zs -> List.Forall (List.Forall stamp) metas ->
  let '(ts, c) := _getTimestampsForTable A false po (List.map stamped metas) labels empty_cache in
  exists us, ts = stamped us /\ StronglySorted Z.lt us /\
    (forall z, In z us <-> In z zs \/ exists m, In m metas /\ In z m) /\
    (us <> [] -> forall normalized metas' labels', _getTimestampsForTable A normalized po metas' labels' c = (ts, c)).
Proof.
  intros L F M. unfold _getTimestampsForTable, getDataTimestamps, getLabelTimestamps, empty_cache.
  cbn [call_ cdata clabels]. rewrite L.
  assert (D : (match List.map stamped metas with m :: _ => normalize (List.concat (List.map stamped metas)) | [] => normalize [] end)
              = normalize (stamped (List.concat metas))) by (rewrite concat_stamped; now destruct metas).
  assert (Fm : List.Forall stamp (List.concat metas)).
  { apply List.Forall_forall. intros z I. apply in_concat in I as (m & Im & Iz). rewrite List.Forall_forall in M.
    specialize (M m Im). rewrite List.Forall_forall in M. auto. }
  cbv beta iota. rewrite D. clear D.
  destruct (normalize_stamps _ Fm) as (ds & Ed & Sd & Id). destruct (normalize_stamps zs F) as (ls & El & Sl & Il).
  rewrite Ed, El. cbn [clabels cdata call_].
  assert (IM : forall z, In z ds <-> exists m, In m metas /\ In z m) by (intros z; rewrite Id; apply in_concat).
  assert (K : forall us, us <> [] -> exists t r, stamped us = t :: r)
    by (intros [|u us] N; [contradiction|cbn; eauto]).
  destruct ds as [|d ds].
  - exists ls. cbn [stamped List.map]. split; [reflexivity|]. split; [exact Sl|]. split.
    + intros z. rewrite Il, <- IM. cbn [In]. tauto.
    + intros N normalized metas' labels'. cbn [call_]. destruct (K ls N) as (t & r & E). now rewrite E.
  - destruct ls as [|l ls].
    + exists (d :: ds). split; [reflexivity|]. split; [exact Sd|]. split; [|reflexivity].
      intros z. rewrite <- Il, <- IM. cbn [In]. tauto.
    + assert (Fa : List.Forall stamp ((d :: ds) ++ l :: ls)).
      { apply List.Forall_app. rewrite !List.Forall_forall in *. split; intros z I; [apply Fm, Id, I|apply F, Il, I]. }
      destruct (normalize_stamps _ Fa) as (us & Eu & Su & Iu).
      unfold stamped in Eu. rewrite List.map_app in Eu. cbn [stamped List.map app] in Eu |- *. unfold stamped. rewrite Eu.
      exists us. split; [reflexivity|]. split; [exact Su|]. split.
      * intros z. rewrite Iu, in_app_iff, Il, IM. tauto.
      * intros N normalized metas' labels'. cbn [call_]. destruct (K us N) as (t & r & Et). unfold stamped in Et. now rewrite Et.
Qed.

(** *** Examples: an adapter with units of a fixed length *)
Definition unit_size (u : string) : num := match List.find (fun i => String.eqb (uname i) u) INTERVALS with Some i => usize i | None => 1%js end.
Definition demo_adapter : adapter := {|
  a_parse := fun _ _ => None;
  startOf := fun t u _ => mul (floor (div t (unit_size u))) (unit_size u);
  endOf := fun t u => sub (mul (Num.add (floor (div t (unit_size u))) 1%js) (unit_size u)) 1%js;
  add := fun t n u => Num.add t (mul n (unit_size u));
  diff := fun a b u => floor (div (sub a b) (unit_size u));
  format := fun t _ => NumStr.print t |}.
Definition demo_time : time_opts := mkTimeOpts "millisecond" "millisecond" None (VBool false) false.

Lemma auto_unit_fits_witness : exists u, determineUnitForAutoTicks "second" 0%js 7200000%js 10%js = Some (uname u) /\ uname u = "minute"%string.
Proof.
  destruct (auto_unit_fits "second" 0%js 7200000%js 10%js 1 eq_refl) as (u & l1 & l2 & S & E & F & _).
  exists u. split; [exact E|]. assert (U : determineUnitForAutoTicks "second" 0%js 7200000%js 10%js = Some "minute"%string) by (vm_compute; reflexivity).
  congruence.
Defined.
Lemma time_ticks_generated_witness : exists l,
  _generate demo_adapter 10 demo_time 5%js None (of_Z 1000) (of_Z 1004) = Some (Generated (List.map of_Z l)) /\ StronglySorted Z.lt l.
Proof.
  assert (Ad : advances demo_adapter 1%js "millisecond" 1004 1000).
  { intros z Z. exists (z + 1). split; [|unfold stamp; lia]. cbn [add demo_adapter].
    change (mul 1%js (unit_size "millisecond")) with (of_Z 1). apply of_Z_add; unfold safe; lia. }
  pose proof (time_ticks_generated demo_adapter 10 demo_time 5%js 1000 1004 "millisecond" 1000) as T.
  specialize (T ltac:(unfold stamp; lia) ltac:(unfold stamp; lia) ltac:(unfold stamp; lia) eq_refl ltac:(discriminate)
    ltac:(vm_compute; reflexivity) Ad ltac:(lia)).
  change (lt (mul 100000%js 1%js) (diff demo_adapter (of_Z 1004) (of_Z 1000) "millisecond")) with false in T.
  destruct T as (ts & e & _ & G & S). eexists. split; [exact G|exact S].
Defined.
Lemma time_limits_witness : exists a b,
  determineDataLimits demo_adapter (ScaleBase.mkBounds ScaleBase.inf ScaleBase.ninf false false)
    (stamped [1000; 2000; 3000]) false (of_Z 500, of_Z 500) "" 0%js = (of_Z a, of_Z b) /\ a < b /\ le (of_Z a) (of_Z 500) = true /\ 3000 <= b /\
  exists lo hi, a = Z.min lo (hi - 1) /\ b = Z.max (lo + 1) hi.
Proof.
  destruct (time_limits demo_adapter (ScaleBase.mkBounds ScaleBase.inf ScaleBase.ninf false false)
    [1000; 2000; 3000] false (of_Z 500, of_Z 500) "" 0%js 0 86399999) as (a & b & E & L & _ & _ & Lo & Hi & lo & hi & Ea & Eb & _).
  - vm_compute. reflexivity.
  - unfold stamp. lia.
  - vm_compute. reflexivity.
  - unfold stamp. lia.
  - split; left; reflexivity.
  - repeat constructor; lia.
  - repeat constructor; unfold stamp; lia.
  - split; right; exists 500; (split; [reflexivity|unfold stamp; lia]).
  - exists a, b. split; [exact E|]. split; [exact L|]. split; [apply (Lo eq_refl); [reflexivity|discriminate]|].
    split; [|now exists lo, hi]. apply (proj1 (Hi eq_refl)). cbn. auto.
Defined.
Lemma table_timestamps_witness : exists us,
  fst (_getTimestampsForTable demo_adapter false (mkParseOpts NoParser "" Undefined) [stamped [30; 10]] [VNum (of_Z 20); VNum (of_Z 10)] empty_cache)
  = stamped us /\ StronglySorted Z.lt us.
Proof.
  pose proof (table_timestamps demo_adapter (mkParseOpts NoParser "" Undefined) [VNum (of_Z 20); VNum (of_Z 10)] [[30; 10]] [20; 10]) as T.
  specialize (T ltac:(vm_compute; reflexivity) ltac:(repeat constructor; unfold stamp; lia) ltac:(repeat constructor; unfold stamp; lia)).
  cbn [List.map] in T. destruct (_getTimestampsForTable _ _ _ _ _ _) as [ts c]. destruct T as (us & E & S & _).
  exists us. split; [exact E|exact S].
Defined.

Definition demo_major (rev : bool) : tick_opts := mkTickOpts true true rev false.
Definition demo_seconds : time_opts := mkTimeOpts "second" "millisecond" None (VBool false) false.
Definition majors (t : option built) : list num :=
  match t with Some b => List.map tvalue (List.filter major (bticks b)) | None => [] end.
(** The ticks of a reversed scale are turned around before the major ones among them are
    looked for, from the first value up to the last: none is found. *)
Lemma reversed_majors_lost :
  let build rev := buildTicks demo_adapter 10 demo_seconds (demo_major rev) (fun _ => 5%js) nan nan
                     [59000; 60000; 61000]%js 59000%js 61000%js in
  majors (build false) = [60000%js] /\ majors (build true) = [].
Proof. vm_compute. now split. Qed.
(** The value at a pixel is computed with the room after the last value instead of the room
    before the first: where they differ, the pixel of 0 gives back -0.5. *)
Lemma pixel_value_shifted :
  let o := initOffsets (fun v => getDecimalForValue 0%js 4%js (Some v)) true [0; 1; 4]%js in
  getValueForPixel (fun d => d) o 0%js 4%js (getPixelForValue (fun d => d) o (getDecimalForValue 0%js 4%js (Some 0%js))) = (-0.5)%js.
Proof. vm_compute. reflexivity. Qed.
(** A step of 0 within one unit is not refused, and generating ticks never ends. *)
Lemma zero_step_hangs fuel :
  _generate demo_adapter fuel (mkTimeOpts "minute" "millisecond" (Some 0%js) (VBool false) false) 5%js None 0%js 30000%js = None.
Proof.
  unfold _generate. cbn [unit_ String.eqb Ascii.eqb Bool.eqb].
  change (lt _ _) with false. cbv beta iota zeta. cbn [stepSize bounds_ticks].
  assert (L : forall c ticks, generate_loop demo_adapter fuel 0%js "minute" 30000%js None 0%js c ticks = None).
  { induction fuel as [|f IH]; intros c ticks; [reflexivity|]. exact (IH (c + 1) (addTick ticks 0%js None)). }
  match goal with |- option_map _ ?x = None => replace x with (@None (num * Z * list num)) end; [reflexivity|].
  symmetry. exact (L 0 []).
Qed.
End TimeScaleFacts.
