(* ===== verification/Controllers.v ===== *)
(** The controllers of webui/public/chart.js other than the bar controller: line (and
    scatter), bubble, doughnut (and pie), polar area and radar: which elements they update
    and the properties they give them.

    What a scale or the option resolver answers is an argument; [updateElement] with its
    animations is in ElementOptions.v, so a controller's update is here the list of
    properties it hands over.

    Proved: a line leaves out no point inside the user's range; updating some of the
    elements of a line, a doughnut or a polar chart gives them what updating all of them
    would; the arcs of a ring follow each other without gap. *)
From Stdlib Require Import ZArith Lia Bool List Ascii String.
From Stdlib Require Import SpecFloat.
From stdpp Require Import base list.
From S2P Require Import Prelude JsNumber JsString NumExact JsArray JsValue HelpersCore HelpersMath Collections Options Canvas Elements Scale Radial TimeScale.
Import ListNotations.
Open Scope Z_scope.

(** *** Options of an element: one object for all, or its own *)
Module Source.
Inductive options := Shared | Own (i : nat) (mode : string).
Definition of_element (shared : bool) (active : nat -> bool) (mode : string) (i : nat) : options :=
  if shared then Shared else Own i (if active i then "active"%string else mode).
End Source.

Module LineController.
Import Js Core MathH.
Local Open Scope js_scope.

(** A parsed item: its values on the index and the value scale; null is None. *)
Record item := mkItem { pi : option num; pv : option num }.
Definition num0 (v : option num) : num := match v with Some x => x | None => 0 end.

(** [points] are the positions of the elements on the index axis. *)
Definition getStartAndCountOfVisiblePoints (sorted : bool) (parsed points : list num) (b : ScaleBase.bounds)
    (pixelForValue : num -> num) (animationsDisabled : bool) : Z * Z :=
  let pointCount := lengthZ points in
  let limit (v lo hi : Z) := Z.max lo (Z.min hi v) in
  if sorted then
    let min := to_num (ScaleBase.min b) in
    let max := to_num (ScaleBase.max b) in
    let start :=
      if ScaleBase.minDefined b then
        limit (Z.min (Collections.lo (Collections._lookupByKey parsed (fun x => x) min))
                     (if animationsDisabled then pointCount
                      else Collections.lo (Collections._lookupByKey points (fun x => x) (pixelForValue min))))
              0%Z (pointCount - 1)%Z
      else 0%Z in
    let count :=
      if ScaleBase.maxDefined b then
        (limit (Z.max (Collections.hi (Collections._lookupByKey parsed (fun x => x) max) + 1)
                      (if animationsDisabled then 0
                       else Collections.hi (Collections._lookupByKey points (fun x => x) (pixelForValue max)) + 1))
               start pointCount - start)%Z
      else (pointCount - start)%Z in
    (start, count)
  else (0%Z, pointCount).

Record ranges := mkRanges { xmin : num; xmax : num; ymin : num; ymax : num }.
Definition scaleRangesChanged (old : option ranges) (new : ranges) : bool * option ranges :=
  (match old with
   | None => true
   | Some o => negb (xmin o =? xmin new) || negb (xmax o =? xmax new) || negb (ymin o =? ymin new) || negb (ymax o =? ymax new)
   end, Some new).

Record point_props := mkPointProps {
  iPixel : num; vPixel : num; skip : bool; stop : bool; segment_item : option item; popts : option Source.options }.
Section Update.
Context (iPixelForValue vPixelForValue : option num -> nat -> num) (vBasePixel : num).
(** [stacked]: the value of a stacked item. *)
Context (stacked : option (item -> option num)) (maxGapLength : num) (segment includeOptions shared : bool).
Context (active : nat -> bool) (mode : string).

Definition point_at (parsed : list item) (i : nat) (it : item) : point_props :=
  let reset := String.eqb mode "reset" in
  let nullData := match pv it with None => true | Some _ => false end in
  let iPix := iPixelForValue (pi it) i in
  let vPix := if reset || nullData then vBasePixel
              else vPixelForValue (match stacked with Some f => f it | None => pv it end) i in
  let stop := match i with
              | O => false
              | S j => match parsed !! j with Some prev => maxGapLength <? num0 (pi it) - num0 (pi prev) | None => false end
              end in
  mkPointProps iPix vPix (Num.is_nan iPix || Num.is_nan vPix || nullData) stop (if segment then Some it else None)
    (if includeOptions then Some (Source.of_element shared active mode i) else None).
(** The properties of the points from [start]; None: an item is missing, a TypeError. *)
Fixpoint updateElements (parsed : list item) (start count : nat) : option (list point_props) :=
  match count with
  | O => Some []
  | S c =>
      match parsed !! start, updateElements parsed (S start) c with
      | Some it, Some rest => Some (point_at parsed start it :: rest)
      | _, _ => None
      end
  end.
End Update.
Definition maxGap (spanGaps : value) : num := if TimeScale.isNumber spanGaps then to_num spanGaps else Num.infinity.

(** What [update] sets before it updates the elements: the drawn range, the updated range
    and the width of the line. *)
Record updated := mkUpdated { drawStart : Z; drawCount : Z; updateStart : Z; updateCount : Z; scaleRanges : option ranges; lineWidth : num }.
Definition update (visible : Z * Z) (pointCount : Z) (old : option ranges) (new : ranges) (showLine : bool) (borderWidth : num) : updated :=
  let '(changed, r) := scaleRangesChanged old new in
  let '(s, c) := if changed then (0%Z, pointCount) else visible in
  mkUpdated (fst visible) (snd visible) s c r (if showLine then borderWidth else 0).
(** [sizes] are those of the points' own sizes. *)
Definition getMaxOverflow (border : num) (sizes : list num) : num :=
  let border := Elements.or0 border in
  match sizes with
  | [] => border
  | s :: rest => Num.max (Num.max border s) (List.last rest s) / 2
  end.
End LineController.

Module BubbleController.
Import Js Core MathH.
Local Open Scope js_scope.

(** [_custom], the radius of a datum, undefined (None) when nothing gives one; [radius i] is
    the option [radius] of element [i], through [resolveDataElementOptions] below. *)
Section Parse.
Context (radius : nat -> option num).
Definition parsePrimitiveData (start count : nat) : list (option num) := List.map radius (seq start count).
(** The third entry of an array, or the option. *)
Definition parseArrayData (data : list (list value)) (start : nat) : list (option num) :=
  imap (fun i it => match nth_error it 2 with
                    | Some v => if is_undefined v then radius (i + start)%nat else Some (to_num v)
                    | None => radius (i + start)%nat end) data.
(** [item && item.r && +item.r]: what is falsy stands for itself; only undefined falls
    through to the option. *)
Definition parseObjectData (data : list value) (start : nat) : list (option num) :=
  imap (fun i it =>
    if truthy it then
      let r := index it "r" in
      if is_undefined r then radius (i + start)%nat else Some (to_num r)
    else if is_undefined it then radius (i + start)%nat else Some (to_num it)) data.
End Parse.
(** [resolveDataElementOptions]: the radius drawn, from the option and [_custom]. *)
Definition element_radius (mode : string) (radius : num) (custom : option num) : num :=
  (if String.eqb mode "active" then radius else 0) + (match custom with Some c => c | None => radius end).
(** [false] is None. *)
Definition getMaxOverflow (sizes : list num) : option num :=
  let max := fold_left (fun m s => Num.max m (s / 2)) (List.rev sizes) 0 in
  if 0 <? max then Some max else None.
Definition getLabelAndValue (label x y r : string) : string * string :=
  (label, "(" ++ x ++ ", " ++ y ++ (if String.eqb r "" then "" else ", " ++ r) ++ ")")%string.

Record bubble_props := mkBubbleProps { iPixel : num; vPixel : num; skip : bool; popts : option (Source.options * bool) }.
Section Update.
Context (iPixelForValue vPixelForValue : option num -> num) (iPixelForDecimal : num -> num) (vBasePixel : num).
Context (includeOptions : bool) (active : nat -> bool) (mode : string).
(** Options are never shared; on a reset their radius becomes 0 (true). *)
Definition bubble_at (i : nat) (it : LineController.item) : bubble_props :=
  let reset := String.eqb mode "reset" in
  let iPix := if reset then iPixelForDecimal 0.5 else iPixelForValue (LineController.pi it) in
  let vPix := if reset then vBasePixel else vPixelForValue (LineController.pv it) in
  mkBubbleProps iPix vPix (Num.is_nan iPix || Num.is_nan vPix)
    (if includeOptions then Some (Source.of_element false active mode i, reset) else None).
Definition updateElements (parsed : list LineController.item) (start count : nat) : list bubble_props :=
  imap (fun k it => bubble_at (start + k) it) (firstn count (skipn start parsed)).
End Update.
End BubbleController.

(** *** Arcs one after the other *)
Module Turning.
Section Turning.
Context {P : Type} (turn : nat -> num) (arc : nat -> num -> num -> P).
(** The loop over the arcs: each starts where the one before it ends. *)
Fixpoint arcs (indices : list nat) (angle : num) : list P :=
  match indices with
  | [] => []
  | i :: rest => let end_ := Num.add angle (turn i) in arc i angle end_ :: arcs rest end_
  end.
(** The first loop: the angle after the arcs that are not updated. *)
Definition angle_after (n : nat) (angle : num) : num := fold_left (fun a i => Num.add a (turn i)) (seq 0 n) angle.
End Turning.
End Turning.

Module DoughnutController.
Import Js Core MathH.
Local Open Scope js_scope.

Record extents := mkExtents { ratioX : num; ratioY : num; offsetX : num; offsetY : num }.
Section Lib.
Context `{MathLib}.
Definition getRatioAndOffset (rotation circumference cutout : num) : extents :=
  if circumference <? TAU then
    let startAngle := rotation in
    let endAngle := startAngle + circumference in
    let startX := math_cos startAngle in
    let startY := math_sin startAngle in
    let endX := math_cos endAngle in
    let endY := math_sin endAngle in
    let calcMax angle a b := if _angleBetween angle startAngle endAngle true then 1
                             else Num.max (Num.max (Num.max a (a * cutout)) b) (b * cutout) in
    let calcMin angle a b := if _angleBetween angle startAngle endAngle true then -1
                             else Num.min (Num.min (Num.min a (a * cutout)) b) (b * cutout) in
    let maxX := calcMax 0 startX endX in
    let maxY := calcMax HALF_PI startY endY in
    let minX := calcMin PI startX endX in
    let minY := calcMin (PI + HALF_PI) startY endY in
    mkExtents ((maxX - minX) / 2) ((maxY - minY) / 2) (- (maxX + minX) / 2) (- (maxY + minY) / 2)
  else mkExtents 1 1 0 0.
End Lib.

(** [parse]: the items from [start] are written into [_parsed]; [parsing] is the key, None
    when parsing is off. *)
Definition parse (parsing : option string) (data parsed : list value) (start count : nat) : list value :=
  match parsing with
  | None => data
  | Some key =>
      let getter v := if match data !! start with Some d => isObject d | None => false end
                      then VNum (to_num (resolveObjectKey v key)) else VNum (to_num v) in
      let at_ i := match data !! i with Some v => getter v | None => VNum Num.nan end in
      (firstn start parsed ++ List.map at_ (seq start count) ++ skipn (start + count) parsed)%list
  end.
Definition _getRotation (rotation : num) : num := toRadians (rotation - 90).
Definition _getCircumference (circumference : num) : num := toRadians circumference.
(** Over the rotations and circumferences of the visible datasets. *)
Definition _getRotationExtents (visible : list (num * num)) : num * num :=
  let '(mn, mx) := fold_left (fun m rc => (Num.min (fst m) (fst rc), Num.max (snd m) (fst rc + snd rc))) visible (TAU, - TAU) in
  (mn, mx - mn).

(** The state of an item: its parsed value, whether it is shown and its arc hidden. *)
Record item := mkItem { parsed : value; visible : bool; hidden : bool }.
Definition calculateTotal (items : list item) : num :=
  fold_left (fun total it =>
    if match parsed it with Null => false | v => negb (Num.is_nan (to_num v)) end && visible it && negb (hidden it)
    then total + Num.abs (to_num (parsed it)) else total) items 0.
Definition calculateCircumference (total value : num) : num :=
  if (0 <? total) && negb (Num.is_nan value) then TAU * (Num.abs value / total) else 0.
Definition _circumference (circumference total : num) (animateRotate reset : bool) (it : item) : num :=
  if (reset && animateRotate) || negb (visible it) || match parsed it with Null => true | _ => false end || hidden it then 0
  else calculateCircumference total (to_num (parsed it) * circumference / TAU).

(** Weights of rings: [weight] of a dataset, 1 when it has none; hidden datasets take none. *)
Record ring := mkRing { weight : option num; shown : bool }.
Definition _getRingWeight (r : ring) : num := Num.max (match weight r with Some w => w | None => 1 end) 0.
Definition _getRingWeightOffset (rings : list ring) (datasetIndex : nat) : num :=
  fold_left (fun w r => if shown r then w + _getRingWeight r else w) (firstn datasetIndex rings) 0.
Definition _getVisibleDatasetWeightTotal (rings : list ring) : num :=
  let w := _getRingWeightOffset rings (List.length rings) in
  if Num.is_nan w || (w =? 0) then 1 else w.
(** Options of the arcs of the first visible dataset. *)
Record border := mkBorder { inner : bool; borderWidth : num; hoverBorderWidth : num }.
Definition getMaxBorderWidth (arcs : list border) : num :=
  fold_left (fun m b => if inner b then m else Num.max (Num.max m (Elements.or0 (borderWidth b))) (Elements.or0 (hoverBorderWidth b))) arcs 0.
Definition getMaxOffset (arcs : list (num * num)) : num :=
  fold_left (fun m o => Num.max (Num.max m (Elements.or0 (fst o))) (Elements.or0 (snd o))) arcs 0.

Record geometry := mkGeometry { goffsetX : num; goffsetY : num; outerRadius : num; innerRadius : num }.
Section Update.
Context `{MathLib}.
(** [update], up to the elements. *)
Definition update (width height spacing : num) (cutout radius : value) (visible : list (num * num)) (rings : list ring) (index : nat)
    : geometry :=
  let maxSize := Num.max ((Num.min width height - spacing) / 2) 0 in
  let cutout := Num.min (toPercentage cutout maxSize) 1 in
  let chartWeight := match rings !! index with Some r => _getRingWeight r | None => Num.nan end in
  let '(rotation, circumference) := _getRotationExtents visible in
  let e := getRatioAndOffset rotation circumference cutout in
  let maxWidth := (width - spacing) / ratioX e in
  let maxHeight := (height - spacing) / ratioY e in
  let maxRadius := Num.max (Num.min maxWidth maxHeight / 2) 0 in
  let outer := toDimension radius maxRadius in
  let inner := Num.max (outer * cutout) 0 in
  let radiusLength := (outer - inner) / _getVisibleDatasetWeightTotal rings in
  let outerRadius := outer - radiusLength * _getRingWeightOffset rings index in
  mkGeometry (offsetX e * outer) (offsetY e * outer) outerRadius (Num.max (outerRadius - radiusLength * chartWeight) 0).
End Update.

Record arc_props := mkArcProps {
  x : num; y : num; startAngle : num; endAngle : num; circumference : num; outer : num; inner_ : num; popts : option Source.options }.
Definition updateElements (circ : nat -> num) (rotation : num) (g : geometry) (center : num * num) (animateScale reset : bool)
    (includeOptions shared : bool) (active : nat -> bool) (mode : string) (start count : nat) : list arc_props :=
  let scaled := reset && animateScale in
  Turning.arcs circ (fun i s e =>
      mkArcProps (fst center + goffsetX g) (snd center + goffsetY g) s e (circ i)
        (if scaled then 0 else outerRadius g) (if scaled then 0 else innerRadius g)
        (if includeOptions then Some (Source.of_element shared active mode i) else None))
    (seq start count) (Turning.angle_after circ start rotation).
End DoughnutController.

Module PolarAreaController.
Import Js MathH.
Local Open Scope js_scope.

Definition _updateRadius (width height cutoutPercentage : num) (visibleDatasets : num) (index : num) : num * num :=
  let outerRadius := Num.max (Num.min width height / 2) 0 in
  let innerRadius := Num.max (if Canvas.falsy cutoutPercentage then 1 else outerRadius / 100 * cutoutPercentage) 0 in
  let radiusLength := (outerRadius - innerRadius) / visibleDatasets in
  let outer := outerRadius - radiusLength * index in
  (outer, outer - radiusLength).

(** The data, which elements are visible, and the option [angle] of each. *)
Definition countVisibleElements (data : list value) (visible : nat -> bool) : Z :=
  lengthZ (List.filter (fun b => b) (imap (fun i v => negb (Num.is_nan (to_num v)) && visible i) data)).
Definition _computeAngle (visible : nat -> bool) (angle : nat -> num) (defaultAngle : num) (index : nat) : num :=
  if visible index then toRadians (if Canvas.falsy (angle index) then defaultAngle else angle index) else 0.

Record arc_props := mkArcProps { x : num; y : num; innerRadius : num; outerRadius : num; startAngle : num; endAngle : num; popts : Source.options }.
Definition updateElements (s : Radial.scale) (data : list value) (visible : nat -> bool) (angle : nat -> num)
    (animateScale animateRotate : bool) (active : nat -> bool) (mode : string) (start count : nat) : list arc_props :=
  let reset := String.eqb mode "reset" in
  let datasetStartAngle := Radial.getIndexAngle s 0 - 0.5 * PI in
  let defaultAngle := 360 / Num.of_Z (countVisibleElements data visible) in
  let turn := _computeAngle visible angle defaultAngle in
  let distance i := match data !! i with
                    | Some Null | Some Undefined | None => Num.nan
                    | Some v => Radial.getDistanceFromCenterForValue s (Some (to_num v))
                    end in
  Turning.arcs turn (fun i a e =>
      let '(a, e) := if reset && animateRotate then (datasetStartAngle, datasetStartAngle) else (a, e) in
      mkArcProps (Radial.xCenter s) (Radial.yCenter s) 0
        (if reset && animateScale then 0 else if visible i then distance i else 0) a e (Source.of_element false active mode i))
    (seq start count) (Turning.angle_after turn start datasetStartAngle).
End PolarAreaController.

Module RadarController.
Import Js MathH.
Local Open Scope js_scope.

(** The line: a loop, which is full when there is a point for each label. *)
Record line_props := mkLineProps { loop : bool; fullLoop : bool; lineWidth : num }.
Definition update (mode : string) (labels points : nat) (showLine : bool) (borderWidth : num) : option line_props :=
  if String.eqb mode "resize" then None
  else Some (mkLineProps true (Nat.eqb labels points) (if showLine then borderWidth else 0)).
Record point_props := mkPointProps { x : num; y : num; angle : num; skip : bool; popts : Source.options }.
Section Update.
Context `{MathLib}.
Definition point_at (s : Radial.scale) (data : list value) (active : nat -> bool) (mode : string) (i : nat) : point_props :=
  let reset := String.eqb mode "reset" in
  let v := match data !! i with Some Null | Some Undefined | None => None | Some v => Some (to_num v) end in
  let p := Radial.getPointPositionForValue s i v in
  let x := if reset then Radial.xCenter s else Radial.px p in
  let y := if reset then Radial.yCenter s else Radial.py p in
  mkPointProps x y (Radial.angle p) (Num.is_nan x || Num.is_nan y) (Source.of_element false active mode i).
Definition updateElements (s : Radial.scale) (data : list value) (active : nat -> bool) (mode : string) (start count : nat) : list point_props :=
  List.map (point_at s data active mode) (seq start count).
End Update.
End RadarController.

Module ControllersFacts.
Import Num NumFacts LineController.

(** *** Visible points *)

(** C25: on sorted data no point from the user's minimum up to, but not including, the user's
    maximum is left out of drawing and updating, wherever the elements are at the moment:
    every item whose value is at least the minimum and strictly under the maximum (each as
    far as it is set) is in the visible part, which is a part of the points.  Of several
    points at the maximum some can be left out ([points_at_maximum_lost]). *)
Theorem visible_points_kept parsed points b pixelForValue animationsDisabled :
  CollectionsFacts.sorted_by (fun x => x) parsed -> parsed <> [] -> lengthZ parsed <= 2 ^ 30 -> lengthZ points = lengthZ parsed ->
  let '(start, count) := getStartAndCountOfVisiblePoints true parsed points b pixelForValue animationsDisabled in
  0 <= start /\ 0 <= count /\ start + count <= lengthZ points /\
  forall i v, nthZ parsed i = Some v ->
    (ScaleBase.minDefined b = true -> le (Js.to_num (ScaleBase.min b)) v = true) ->
    (ScaleBase.maxDefined b = true -> lt v (Js.to_num (ScaleBase.max b)) = true) -> start <= i < start + count.
Proof.
  intros S N B L. unfold getStartAndCountOfVisiblePoints. rewrite L.
  assert (P : 0 < lengthZ parsed) by (destruct parsed; [congruence|unfold lengthZ; cbn [List.length]; lia]).
  set (mn := Js.to_num (ScaleBase.min b)). set (mx := Js.to_num (ScaleBase.max b)).
  pose proof (CollectionsFacts.lookup_mono parsed (fun a => lt a mn) N B (CollectionsFacts.lookup_asc parsed (fun x => x) mn S)) as A1.
  pose proof (CollectionsFacts.lookup_mono parsed (fun a => lt a mx) N B (CollectionsFacts.lookup_asc parsed (fun x => x) mx S)) as A2.
  cbv zeta in A1, A2. fold (Collections._lookupByKey parsed (fun x => x) mn) in A1.
  fold (Collections._lookupByKey parsed (fun x => x) mx) in A2.
  set (r1 := Collections._lookupByKey parsed (fun x => x) mn) in *. set (r2 := Collections._lookupByKey parsed (fun x => x) mx) in *.
  destruct A1 as (L1 & H1 & _ & A1 & _). destruct A2 as (L2 & H2 & _ & _ & A2 & _).
  match goal with |- context [Z.min (Collections.lo r1) ?x] => generalize x end.
  match goal with |- context [Z.max (Collections.hi r2 + 1) ?x] => generalize x end. intros p2 p1.
  assert (K1 : forall i v, nthZ parsed i = Some v -> le mn v = true -> Collections.lo r1 <= i).
  { intros i v E Le. apply Z.nlt_ge. intros Lt. pose proof (A1 i v E Lt) as C. pose proof (lt_le_trans _ _ _ C Le) as X.
    now rewrite lt_irrefl in X. }
  assert (K2 : forall i v, nthZ parsed i = Some v -> lt v mx = true -> i <= Collections.hi r2).
  { intros i v E Lt. apply Z.nlt_ge. intros G. pose proof (A2 i v E G) as C. congruence. }
  assert (K3 : forall i v, nthZ parsed i = Some v -> 0 <= i < lengthZ parsed).
  { intros i v E. destruct (Z.lt_ge_cases i 0) as [G|G]; [assert (nthZ parsed i = None) by (apply nthZ_None; lia); congruence|].
    destruct (Z.lt_ge_cases i (lengthZ parsed)) as [G'|G']; [lia|assert (nthZ parsed i = None) by (apply nthZ_None; lia); congruence]. }
  destruct (ScaleBase.minDefined b), (ScaleBase.maxDefined b); (split; [lia|]; split; [lia|]; split; [lia|]); intros i v E M1 M2;
    specialize (K3 i v E); try specialize (K1 i v E (M1 eq_refl)); try specialize (K2 i v E (M2 eq_refl)); lia.
Qed.
Lemma visible_points_kept_witness : exists s c,
  getStartAndCountOfVisiblePoints true [1; 2; 3; 5]%js [10; 20; 30; 50]%js
    (ScaleBase.mkBounds (VNum 2%js) (VNum 4%js) true true) (fun v => mul v 10%js) false = (s, c) /\ s <= 2 < s + c.
Proof.
  pose proof (visible_points_kept [1; 2; 3; 5]%js [10; 20; 30; 50]%js (ScaleBase.mkBounds (VNum 2%js) (VNum 4%js) true true)
    (fun v => mul v 10%js) false) as T.
  specialize (T ltac:(repeat constructor) ltac:(discriminate) ltac:(vm_compute; discriminate) eq_refl).
  destruct (getStartAndCountOfVisiblePoints _ _ _ _ _ _) as [s c]. destruct T as (_ & _ & _ & K).
  exists s, c. split; [reflexivity|]. apply (K 2 3%js); [reflexivity|intros _; reflexivity|intros _; reflexivity].
Defined.
(** Of several points at the upper end of the range only the first is kept. *)
Lemma points_at_maximum_lost :
  getStartAndCountOfVisiblePoints true [1; 2; 2; 2]%js [10; 20; 20; 20]%js
    (ScaleBase.mkBounds Undefined (VNum 2%js) false true) (fun v => mul v 10%js) false = (0, 2).
Proof. vm_compute. reflexivity. Qed.

(** *** Partial updates *)

Lemma point_rest iP vP base st gap seg opts sh act mode parsed n : forall start, (start + n <= List.length parsed)%nat ->
  exists ps, updateElements iP vP base st gap seg opts sh act mode parsed start n = Some ps /\ List.length ps = n /\
    forall k, (k < n)%nat -> exists it, parsed !! (start + k)%nat = Some it /\
      ps !! k = Some (point_at iP vP base st gap seg opts sh act mode parsed (start + k) it).
Proof.
  induction n as [|n IH]; intros start L; cbn [updateElements].
  - exists []. split; [reflexivity|]. split; [reflexivity|]. intros k K. lia.
  - destruct (lookup_lt_is_Some_2 parsed start ltac:(lia)) as [it E].
    destruct (IH (S start) ltac:(lia)) as (ps & Q & Len & K). rewrite E, Q.
    exists (point_at iP vP base st gap seg opts sh act mode parsed start it :: ps). split; [reflexivity|].
    split; [cbn; now rewrite Len|]. intros [|k] Lk; [exists it; now rewrite Nat.add_0_r|].
    destruct (K k ltac:(lia)) as (it' & E' & P). exists it'. now replace (start + S k)%nat with (S start + k)%nat by lia.
Qed.
(** Updating a part of the points of a line gives them the properties that updating all
    of its points gives, the gap to the point before the part included. *)
Theorem line_partial_update iP vP base st gap seg opts sh act mode parsed start count :
  (start + count <= List.length parsed)%nat ->
  exists all part,
    updateElements iP vP base st gap seg opts sh act mode parsed 0 (List.length parsed) = Some all /\
    updateElements iP vP base st gap seg opts sh act mode parsed start count = Some part /\
    part = firstn count (skipn start all).
Proof.
  intros L. destruct (point_rest iP vP base st gap seg opts sh act mode parsed (List.length parsed) 0 ltac:(lia)) as (all & A & LA & KA).
  destruct (point_rest iP vP base st gap seg opts sh act mode parsed count start L) as (part & P & LP & KP).
  exists all, part. split; [exact A|]. split; [exact P|]. apply list_eq. intros k.
  destruct (Nat.lt_ge_cases k count) as [G|G].
  - destruct (KP k G) as (it & E & Q). destruct (KA (start + k)%nat ltac:(lia)) as (it' & E' & Q').
    rewrite Q, lookup_take_lt, lookup_drop, Q' by lia. cbn [Nat.add] in *. congruence.
  - rewrite !lookup_ge_None_2; [reflexivity| |lia]. rewrite length_take. lia.
Qed.
Definition demo_items : list item := [mkItem (Some 1%js) (Some 1%js); mkItem (Some 2%js) None; mkItem (Some 9%js) (Some 3%js)].
Lemma line_partial_update_witness : exists part,
  updateElements (fun v _ => num0 v) (fun v _ => num0 v) 0%js None 5%js false false false (fun _ => false) "" demo_items 2 1 = Some part /\
  List.map stop part = [true].
Proof.
  destruct (line_partial_update (fun v _ => num0 v) (fun v _ => num0 v) 0%js None 5%js false false false (fun _ => false) "" demo_items 2 1
    ltac:(cbn; lia)) as (all & part & A & P & E).
  exists part. split; [exact P|]. vm_compute in P. injection P as <-. reflexivity.
Defined.

(** *** Arcs *)
Lemma arcs_length {P} turn (arc : nat -> num -> num -> P) l a : List.length (Turning.arcs turn arc l a) = List.length l.
Proof. revert a. induction l; intros; cbn; auto. Qed.
Lemma arcs_app {P} turn (arc : nat -> num -> num -> P) l1 l2 a :
  Turning.arcs turn arc (l1 ++ l2) a
  = (Turning.arcs turn arc l1 a ++ Turning.arcs turn arc l2 (fold_left (fun a i => Num.add a (turn i)) l1 a))%list.
Proof. revert a. induction l1 as [|i l1 IH]; intros a; [reflexivity|]. cbn [app Turning.arcs fold_left]. now rewrite IH. Qed.
Lemma firstn_skipn_mid {A} (l1 l2 l3 : list A) a b : List.length l1 = a -> List.length l2 = b ->
  firstn b (skipn a (l1 ++ l2 ++ l3)) = l2.
Proof. intros <- <-. now rewrite drop_app_length, take_app_length. Qed.
Lemma arcs_part {P} turn (arc : nat -> num -> num -> P) n start count a : (start + count <= n)%nat ->
  Turning.arcs turn arc (seq start count) (Turning.angle_after turn start a)
  = firstn count (skipn start (Turning.arcs turn arc (seq 0 n) a)).
Proof.
  intros L. replace (seq 0 n) with (seq 0 start ++ seq start count ++ seq (start + count) (n - start - count))%list
    by (rewrite <- !seq_app; f_equal; lia).
  rewrite !arcs_app. symmetry. apply firstn_skipn_mid; now rewrite arcs_length, length_seq.
Qed.
(** Each arc starts where the one before it ends. *)
Lemma arcs_follow {P} turn (arc : nat -> num -> num -> P) (start_of end_of : P -> num) l : forall a,
  (forall i s e, start_of (arc i s e) = s /\ end_of (arc i s e) = e) ->
  forall k p q, Turning.arcs turn arc l a !! k = Some p -> Turning.arcs turn arc l a !! S k = Some q -> start_of q = end_of p.
Proof.
  induction l as [|i l IH]; intros a F k p q; [discriminate|]. cbn [Turning.arcs]. destruct k as [|k].
  - intros [= <-]. destruct l as [|j l]; [discriminate|]. cbn [Turning.arcs lookup list_lookup]. intros [= <-].
    now rewrite (proj1 (F _ _ _)), (proj2 (F _ _ _)).
  - exact (IH _ F k p q).
Qed.
Import DoughnutController.
(** The arcs of a doughnut that are updated are the ones a full update gives, each
    starting where the one before it ends, and a datum that is hidden, null or without a
    share of the total takes no angle. *)
Theorem doughnut_arcs_abut items circumference rotation animateRotate g center animateScale reset opts sh act mode start count :
  (start + count <= List.length items)%nat ->
  let total := calculateTotal items in
  let circ i := match items !! i with Some it => _circumference circumference total animateRotate reset it | None => Num.nan end in
  let arcs := updateElements circ rotation g center animateScale reset opts sh act mode in
  arcs start count = firstn count (skipn start (arcs 0%nat (List.length items))) /\
  (forall k p q, arcs start count !! k = Some p -> arcs start count !! S k = Some q -> startAngle q = endAngle p) /\
  (forall i it, items !! i = Some it -> visible it = false \/ hidden it = true \/ parsed it = Null \/ eq total 0%js = true -> circ i = 0%js).
Proof.
  intros L total circ arcs. split; [|split].
  - unfold arcs, updateElements. exact (arcs_part circ _ (List.length items) start count rotation L).
  - intros k p q. apply (arcs_follow circ _ startAngle endAngle). intros i s e. now split.
  - intros i it E H. unfold circ. rewrite E. unfold _circumference.
    destruct H as [H|[H|[H|H]]].
    + rewrite H. cbn [negb]. now rewrite orb_true_r.
    + rewrite H. now rewrite !orb_true_r.
    + rewrite H. now rewrite !orb_true_r.
    + destruct (_ || _ || _ || _); [reflexivity|]. unfold calculateCircumference.
      assert (T0 : lt 0%js total = false) by (destruct total as [[]|[]| |[] m e]; try discriminate; reflexivity).
      now rewrite T0.
Qed.
Definition demo_ring : list DoughnutController.item :=
  [DoughnutController.mkItem (VNum 1%js) true false; DoughnutController.mkItem (VNum 5%js) false false; DoughnutController.mkItem (VNum 3%js) true false].
Lemma doughnut_arcs_abut_witness :
  let total := calculateTotal demo_ring in
  let circ i := match demo_ring !! i with Some it => _circumference MathH.TAU total true false it | None => Num.nan end in
  List.map startAngle (updateElements circ 0%js (mkGeometry 0 0 10 5) (0, 0)%js false false true false (fun _ => false) "" 1 2)
  = [MathH.HALF_PI; MathH.HALF_PI] /\ circ 1%nat = 0%js.
Proof.
  destruct (doughnut_arcs_abut demo_ring MathH.TAU 0%js true (mkGeometry 0 0 10 5) (0, 0)%js false false true false (fun _ => false) "" 1 2
    ltac:(cbn; lia)) as (_ & _ & Z).
  split; [vm_compute; reflexivity|]. refine (Z 1%nat (DoughnutController.mkItem (VNum 5%js) false false) eq_refl _). now left.
Defined.

(** A polar chart shares the circle among the data that are numbers, but a visible datum
    that is not a number takes a share too: the third arc of three lies on the first. *)
Lemma polar_nan_overlaps :
  let s := Radial.mkScale 0 100 0 100 100 100 (Options.toPadding (VNum 0%js)) 100 100 50 50 50 0 10 false 0 [["a"%string]] in
  let ps := PolarAreaController.updateElements s [VNum 1%js; VNum Num.nan; VNum 2%js] (fun _ => true) (fun _ => 0%js) false false
              (fun _ => false) "" 0 3 in
  match ps with
  | [a; _; c] => eq (sub (PolarAreaController.startAngle c) (PolarAreaController.startAngle a)) MathH.TAU = true
  | _ => False
  end.
Proof. vm_compute. reflexivity. Qed.
End ControllersFacts.
