(* ===== verification/ArcLegend.v ===== *)
(** The parts of charts of arcs that are options: the legend items of doughnut, pie and polar
    area charts with their click, the labels of tooltips, and the labels and values of the
    controllers (chart.js: the overrides of DoughnutController, PolarAreaController,
    BubbleController and ScatterController, getLabelAndValue). *)
From Stdlib Require Import ZArith Lia Bool List Ascii String.
From stdpp Require Import base list.
From S2P Require Import Prelude JsNumber JsString JsArray JsValue ChartEvents.
Import ListNotations.
Open Scope Z_scope.

Module ArcLegend.
Import Js Hidden.

(** The style of an arc as [getStyle] gives it. *)
Record style := mkStyle { backgroundColor : value; borderColor : value; borderWidth : value }.
Record item := mkItem {
  text : value; fillStyle : value; strokeStyle : value; lineWidth : value; pointStyle : value; hidden : bool; item_index : Z }.
Section Labels.
(** [getStyle] of the controller of the first dataset. *)
Context (getStyle : Z -> style).
Definition item_at (point : value) (hiddenIndices : indices) (i : nat) (label : value) : item :=
  let s := getStyle (Z.of_nat i) in
  mkItem label (backgroundColor s) (borderColor s) (borderWidth s) point (negb (getDataVisibility hiddenIndices (Z.of_nat i))) (Z.of_nat i).
(** [generateLabels] of doughnuts, and the same of polar areas. *)
Definition generateLabels (labels : list value) (datasets : nat) (point : value) (hiddenIndices : indices) : list item :=
  match labels, datasets with
  | [], _ | _, O => []
  | _, _ => imap (item_at point hiddenIndices) labels
  end.
Definition polar_generateLabels (labels : list value) (datasets : nat) (point : value) (hiddenIndices : indices) : list item :=
  match labels, datasets with
  | [], _ | _, O => []
  | _, _ => imap (item_at point hiddenIndices) labels
  end.
End Labels.
(** A click; the chart is updated afterwards. *)
Definition onClick (legendItem : item) (hiddenIndices : indices) : indices := toggleDataVisibility hiddenIndices (item_index legendItem).
Definition polar_onClick (legendItem : item) (hiddenIndices : indices) : indices := toggleDataVisibility hiddenIndices (item_index legendItem).

(** ** Tooltips *)
Definition title : string := "".
(** An array of lines gets the value in its first line, in a copy. *)
Definition label (dataLabel : value) (formattedValue : string) : value :=
  let value := (": " ++ formattedValue)%string in
  match dataLabel with
  | VArr [] => VArr [VStr ("undefined" ++ value)%string]
  | VArr (l :: rest) => VArr (VStr (to_str l ++ value)%string :: rest)
  | _ => VStr (to_str dataLabel ++ value)%string
  end.
Definition polar_label (labels : list value) (dataIndex : nat) (formattedValue : string) : string :=
  (to_str (nth dataIndex labels Undefined) ++ ": " ++ formattedValue)%string.
Definition scatter_label (itemLabel formattedValue : string) : string := ("(" ++ itemLabel ++ ", " ++ formattedValue ++ ")")%string.

(** ** The label and the value of a datum *)
Section Values.
Context (formatNumber : num -> string).
Definition label_at (labels : list value) (i : nat) : value :=
  let l := nth i labels Undefined in if truthy l then l else VStr "".
Definition getLabelAndValue (labels : option (list value)) (parsed : list num) (i : nat) : value * string :=
  (label_at (default [] labels) i, formatNumber (nth i parsed Num.nan)).
(** A polar area chart keeps its value as [r]. *)
Definition polar_getLabelAndValue (labels : option (list value)) (parsed : list num) (i : nat) : value * string :=
  (label_at (default [] labels) i, formatNumber (nth i parsed Num.nan)).
End Values.
(** A radar chart asks its scale. *)
Definition radar_getLabelAndValue (labels : list value) (getLabelForValue : num -> string) (parsed : list num) (i : nat) : value * string :=
  (nth i labels Undefined, getLabelForValue (nth i parsed Num.nan)).
End ArcLegend.

(** ** Facts *)
Module ArcLegendFacts.
Import Js Hidden HiddenFacts ArcLegend.
Definition toggled (i : item) : item :=
  mkItem (text i) (fillStyle i) (strokeStyle i) (lineWidth i) (pointStyle i) (negb (hidden i)) (item_index i).
Lemma visibility_toggled l i j : getDataVisibility (toggleDataVisibility l i) j =
  if j =? i then negb (getDataVisibility l i) else getDataVisibility l j.
Proof. unfold toggleDataVisibility, getDataVisibility. rewrite iget_iput. destruct (j =? i); reflexivity. Qed.
Lemma items_imap getStyle labels datasets point h : (0 < datasets)%nat ->
  generateLabels getStyle labels datasets point h = imap (item_at getStyle point h) labels.
Proof. intros D. unfold generateLabels. destruct labels; [reflexivity|]. destruct datasets; [lia|reflexivity]. Qed.
(** There is one item for each label, with its text. *)
Lemma items_of_labels getStyle labels datasets point h : (0 < datasets)%nat ->
  List.map text (generateLabels getStyle labels datasets point h) = labels.
Proof.
  intros D. rewrite items_imap by exact D. change (List.map text ?l) with (text <$> l). rewrite fmap_imap.
  change (imap _ labels) with (imap (const (fun l : value => l)) labels). rewrite imap_const. apply list_fmap_id.
Qed.
Definition demo_style (i : Z) : style := mkStyle (VStr "red") (VStr "blue") (VNum 1%js).
Definition demo_labels : list value := [VStr "a"; VStr "b"; VStr "c"].
Lemma items_of_labels_witness : List.map text (generateLabels demo_style demo_labels 1 Undefined []) = demo_labels.
Proof. apply (items_of_labels demo_style demo_labels 1 Undefined []). lia. Defined.
(** A click on an item hides or shows its arc and no other: the items are then those
    before, with this one turned over; and a second click takes the first back. *)
Theorem arc_click_toggles getStyle labels datasets point h it :
  generateLabels getStyle labels datasets point (onClick it h) =
    List.map (fun j => if item_index j =? item_index it then toggled j else j) (generateLabels getStyle labels datasets point h) /\
  forall j, getDataVisibility (onClick it (onClick it h)) j = getDataVisibility h j.
Proof.
  split.
  - destruct datasets as [|n]; [now destruct labels|]. rewrite !items_imap by lia.
    change (List.map ?f ?l) with (f <$> l). rewrite fmap_imap. apply imap_ext. intros i l _. unfold onClick, item_at, toggled. cbn.
    rewrite visibility_toggled. destruct (Z.eqb_spec (Z.of_nat i) (item_index it)) as [->|]; reflexivity.
  - intros j. unfold onClick. rewrite !visibility_toggled. destruct (Z.eqb_spec j (item_index it)) as [->|]; [|reflexivity].
    now rewrite Z.eqb_refl, negb_involutive.
Qed.
(** The default labels of tooltips. *)
Example labels_of_tooltips :
  label (VStr "a") "1" = VStr "a: 1" /\ label (VArr [VStr "a"; VStr "b"]) "1" = VArr [VStr "a: 1"; VStr "b"] /\
  polar_label demo_labels 1 "2" = "b: 2"%string /\ scatter_label "1" "2" = "(1, 2)"%string.
Proof. now vm_compute. Qed.
(** A label of no lines becomes the text undefined. *)
Example empty_label_undefined : label (VArr []) "1" = VArr [VStr "undefined: 1"].
Proof. reflexivity. Qed.
End ArcLegendFacts.
