(* ===== verification/BarController.v ===== *)
(** The bar controller of webui/public/chart.js as a whole: the values its bars share an
    axis with, the ruler, the properties it gives its elements, what a tooltip shows of
    them, and drawing.  The pieces of it are in Bar.v, stacking in Dataset.v.

    Proved: consecutive bars of a stack meet without a gap, each bar keeps its own share of
    the stack, and the borders where they meet follow the stack. *)
From Stdlib Require Import ZArith Lia Bool List Ascii String.
From Stdlib Require Import SpecFloat.
From stdpp Require Import base list.
From S2P Require Import Prelude JsNumber JsString NumExact JsArray JsValue HelpersCore HelpersMath Canvas Dataset Bar Controllers.
Import ListNotations.
Open Scope Z_scope.

Module BarController.
Import Js Core Canvas Dataset Bar.
Local Open Scope js_scope.

(** ** The values of all bars on the index scale *)
(** Elements of a [Set]: NaN is itself, the zeros are one. *)
Definition same_value (a b : num) : bool := (a =? b) || (Num.is_nan a && Num.is_nan b).
Fixpoint unique (seen l : list num) : list num :=
  match l with
  | [] => []
  | v :: rest => if existsb (same_value v) seen then unique seen rest else v :: unique (v :: seen) rest
  end.
(** [cache] is [scale._cache.$bar]; an empty list is cached as well. *)
Definition getAllScaleValues (cache : option (list num)) (controllers : list (list num)) : option (list num) * list num :=
  match cache with
  | Some values => (cache, values)
  | None => let values := unique [] (sort_by Num.sub (List.concat controllers)) in (Some values, values)
  end.

(** ** Elements *)
(** The options of an element; [edge] is empty when [borderSkipped] is false, and None is
    the inflate amount 'auto'. *)
Record bar_opts := mkBarOpts { edge : string; inflate : option num }.
Record bar_props := mkBarProps {
  horizontal : bool; base : num; enableBorderRadius : bool; x : num; y : num; height : num; width : num;
  popts : option Source.options; borderSkipped : list string; inflateAmount : num }.

Section Update.
Context (o : options) (s : vscale) (basePixel : num) (r : ruler).
Context (stacked : stacked_opt) (metas : list dmeta) (this : nat) (name : option string).
(** What the items' scales and stacks give: the pixel of item [i] on the index axis, its
    length within its stack, its stack, and whether it is shown. *)
Context (ipixel : nat -> num) (stackedLength : nat -> option num) (stack_of : nat -> option stack) (visible : nat -> bool).
(** The options of the elements: those that are resolved and those the elements have. *)
Context (includeOptions shared : bool) (active : nat -> bool) (mode : string)
        (resolved : Source.options -> bar_opts) (current : nat -> bar_opts).

Definition vpixels_at (i : nat) (it : bar_item) : vpixels :=
  match bvalue it with
  | Some v => if String.eqb mode "reset" then mkVpixels Num.nan basePixel basePixel Num.nan
              else _calculateBarValuePixels o s v (_custom it) (stackedLength i) (visible i)
  | None => mkVpixels Num.nan basePixel basePixel Num.nan
  end.
Definition at_end (st : stack) : bool :=
  let is_this k := match k with Some d => Nat.eqb d this | None => false end in
  is_this (s_top st) || is_this (s_bottom st).
Definition bar_at (i : nat) (it : bar_item) : bar_props :=
  let vp := vpixels_at i it in
  let ip := _calculateBarIndexPixels o r stacked metas (Z.of_nat this) name (Z.of_nat i) (ipixel i) in
  let hz := vhorizontal s in
  let x := if hz then phead vp else icenter ip in
  let y := if hz then icenter ip else phead vp in
  let own := if includeOptions then Some (Source.of_element shared active mode i) else None in
  let opts := match own with Some e => resolved e | None => current i end in
  let '(skipped, radius) := setBorderSkipped hz (pbase vp) x y (edge opts) (stack_of i) this in
  mkBarProps hz (pbase vp)
    (match radius with
     | Some b => b
     | None => match stack_of i with Some st => isFloatBar (_custom it) || at_end st | None => true end
     end)
    x y (if hz then isize ip else Num.abs (psize vp)) (if hz then Num.abs (psize vp) else isize ip) own skipped
    (setInflateAmount (inflate opts) (rratio r)).
(** The properties of the bars from [start]; None: an item is missing, a TypeError. *)
Fixpoint updateElements (parsed : list bar_item) (start count : nat) : option (list bar_props) :=
  match count with
  | O => Some []
  | S c =>
      match parsed !! start, updateElements parsed (S start) c with
      | Some it, Some rest => Some (bar_at start it :: rest)
      | _, _ => None
      end
  end.
Definition update (parsed : list bar_item) : option (list bar_props) := updateElements parsed 0 (List.length parsed).
End Update.

Definition getMaxOverflow : num := 0.
(** The texts that the scales give for a number. *)
Definition getLabelAndValue (iLabel vLabel : coordinate -> string) (text : coordinate -> string) (it : bar_item) : string * string :=
  (iLabel (bindex it),
   match _custom it with
   | Some c => "[" ++ text (cstart c) ++ ", " ++ text (cend c) ++ "]"
   | None => vLabel (bvalue it)
   end)%string.
(** [initialize]: options are shared, and the stack of the dataset is kept. *)
Record own := mkOwn { enableOptionSharing : bool; meta_stack : option string }.
Definition initialize (dataset_stack : option string) : own := mkOwn true dataset_stack.
(** Bars of null values are not drawn; None: an element without an item, a TypeError. *)
Fixpoint draw (parsed : list bar_item) (rects : list (list cmd)) : option (list cmd) :=
  match rects with
  | [] => Some []
  | c :: rects' =>
      match parsed with
      | [] => None
      | it :: parsed' =>
          option_map (app (match bvalue it with Some _ => c | None => [] end)) (draw parsed' rects')
      end
  end.
End BarController.

(** ** Facts *)
Module BarControllerFacts.
Import Num NumFacts Js Core Dataset DatasetFacts Bar BarController.
Local Open Scope js_scope.

(** *** The place of a bar in its stack *)
Section Stacked.
Context (o : options) (s : vscale) (basePixel : num).
Hypothesis plain : obase o = None /\ minBarLength o = (0 : num).
Lemma stacked_pixels v total : (0 < v <= total)%Z -> (total < 2 ^ 53)%Z ->
  let p := _calculateBarValuePixels o s (of_Z v) None (Some (of_Z total)) true in
  phead p = vpixel s (of_Z total) /\
  (eq (vpixel s (of_Z (total - v))) (vpixel s 0) = false -> pbase p = vpixel s (of_Z (total - v)) /\ psize p = phead p - pbase p).
Proof.
  intros V T. destruct plain as [B M]. unfold _calculateBarValuePixels. rewrite B, M. cbn [isFloatBar].
  rewrite of_Z_eq by (unfold safe; lia).
  assert (St : (let '(start, length) := if negb (total =? v)%Z then (of_Z total - of_Z v, of_Z v) else (0, of_Z total) in (start, length))
    = (of_Z (total - v), of_Z (if (total =? v)%Z then total else v))).
  { destruct (Z.eqb_spec total v) as [->|N]; cbn [negb]; [now rewrite Z.sub_diag|]. now rewrite of_Z_sub by (unfold safe; lia). }
  destruct (if negb (total =? v)%Z then _ else _) as [start length]. injection St as -> ->.
  assert (E : of_Z (total - v) + of_Z (if (total =? v)%Z then total else v) = of_Z total).
  { rewrite of_Z_add by (destruct (Z.eqb_spec total v); unfold safe; lia). f_equal. destruct (Z.eqb_spec total v); lia. }
  rewrite E. set (size := vpixel s (of_Z total) - vpixel s (of_Z (total - v))).
  assert (L : lt (abs size) 0 = false). { destruct size as [[]|[]| |[] m e]; reflexivity. }
  rewrite L. destruct (eq _ (vpixel s 0)) eqn:Q; cbn [phead pbase psize]; split; auto; discriminate.
Qed.
End Stacked.

(** *** Bars of consecutive datasets *)
(** How the datasets of a stack differ: dataset [d] has its own options, place and items. *)
Record shown := mkShown {
  ruler_ : ruler; metas_ : list dmeta; name_ : option string; ipixel_ : nat -> num; includes : bool; shares : bool;
  active_ : nat -> bool; mode_ : string; resolved_ : Source.options -> bar_opts; current_ : nat -> bar_opts }.
Definition bar_of (o : options) (s : vscale) (basePixel : num) (stacked : stacked_opt) (stack_of : nat -> option stack)
    (keys : list nat) (vals : list (nat * coordinate)) (d : nat) (c : shown) (i : nat) (it : bar_item) : bar_props :=
  bar_at o s basePixel (ruler_ c) stacked (metas_ c) d (name_ c) (ipixel_ c)
    (fun _ => applyStack keys vals (bvalue it) d (mkMode false false)) stack_of (fun _ => true) (includes c) (shares c) (active_ c)
    (mode_ c) (resolved_ c) (current_ c) i it.
Definition tip (p : bar_props) : num := if horizontal p then x p else y p.
Lemma bar_place o s bp st so keys vals d c i it v total : obase o = None /\ minBarLength o = (0 : num) ->
  bvalue it = Some (of_Z v) -> _custom it = None -> String.eqb (mode_ c) "reset" = false ->
  applyStack keys vals (Some (of_Z v)) d (mkMode false false) = Some (of_Z total) -> (0 < v <= total)%Z -> (total < 2 ^ 53)%Z ->
  let b := bar_of o s bp st so keys vals d c i it in
  tip b = vpixel s (of_Z total) /\
  (eq (vpixel s (of_Z (total - v))) (vpixel s 0) = false -> base b = vpixel s (of_Z (total - v))).
Proof.
  intros Pl V Cu Mo Ap B1 B2. destruct (stacked_pixels o s Pl v total B1 B2) as [P1 P2].
  unfold bar_of, bar_at, vpixels_at, tip. rewrite V, Mo, Cu, Ap.
  destruct (setBorderSkipped _ _ _ _ _ _ _) as [sk ra]. cbn [horizontal x y base]. destruct (vhorizontal s); (split; [exact P1|]; intros N; now apply P2).
Qed.

Section Stack.
Variables (zv : nat -> Z) (vals : list (nat * coordinate)).
Hypothesis positive : forall k, (0 < zv k)%Z.

(** Stacked bars meet: with whole positive values, the bar of a dataset ends at the
    pixel where the bar of the next dataset of the stack begins, vertically and
    horizontally and whatever the scale, and it ends at the pixel of the sum of the values
    so far. *)
Theorem stacked_bars_abut o s bp st so pre a b post ca cb i ia ib : obase o = None /\ minBarLength o = (0 : num) ->
  List.NoDup (pre ++ a :: b :: post) -> stacked zv vals (pre ++ [a]) -> (sum_of zv (pre ++ [a; b]) < 2 ^ 53)%Z ->
  bvalue ia = Some (of_Z (zv a)) /\ _custom ia = None -> bvalue ib = Some (of_Z (zv b)) /\ _custom ib = None ->
  String.eqb (mode_ ca) "reset" = false /\ String.eqb (mode_ cb) "reset" = false ->
  eq (vpixel s (of_Z (sum_of zv (pre ++ [a])))) (vpixel s 0) = false ->
  let keys := (pre ++ a :: b :: post)%list in
  let lower := bar_of o s bp st so keys vals a ca i ia in
  let upper := bar_of o s bp st so keys vals b cb i ib in
  base upper = tip lower /\ tip lower = vpixel s (of_Z (sum_of zv (pre ++ [a]))) /\
  tip upper = vpixel s (of_Z (sum_of zv (pre ++ [a; b]))).
Proof.
  intros Pl N St B [Va Ca] [Vb Cb] [Ma Mb] Ne keys lower upper. pose proof (applyStack_abuts zv vals positive pre a b post N St B) as Ab.
  cbn zeta in Ab. fold keys in Ab. destruct Ab as [Aa Ab]. pose proof (sum_nonneg zv positive pre) as P0.
  pose proof (positive a) as Pa. pose proof (positive b) as Pb.
  assert (E : sum_of zv (pre ++ [a]) = (sum_of zv pre + zv a)%Z) by (rewrite sum_app, sum_cons; cbn; lia).
  assert (E2 : sum_of zv (pre ++ [a; b]) = (sum_of zv (pre ++ [a]) + zv b)%Z) by (rewrite !sum_app, !sum_cons; cbn; lia).
  destruct (bar_place o s bp st so keys vals a ca i ia (zv a) (sum_of zv (pre ++ [a])) Pl Va Ca Ma Aa) as [T1 _]; [lia|lia|].
  destruct (bar_place o s bp st so keys vals b cb i ib (zv b) (sum_of zv (pre ++ [a]) + zv b) Pl Vb Cb Mb Ab) as [T2 B2]; [lia|lia|].
  replace (sum_of zv (pre ++ [a]) + zv b - zv b)%Z with (sum_of zv (pre ++ [a])) in B2 by lia.
  fold lower in T1. fold upper in T2, B2. rewrite E2, T1, T2, (B2 Ne). auto.
Qed.
End Stack.

(** *** Two bars *)
Definition demo_bars : options := mkOptions Auto None 0.8 0.9 true false None 0.
Definition demo_scale : vscale := mkVscale false 0 (fun v => 400 - 2 * v) (fun _ => 1).
Definition demo_shown : shown :=
  mkShown (mkRuler 50 [25; 75] 0 100 1 true 0.72) [] None (fun _ => 25) true false (fun _ => false) "default"
    (fun _ => mkBarOpts "start" None) (fun _ => mkBarOpts "start" None).
Lemma stacked_bars_abut_witness :
  let it v := mkBarItem (Some (0 : num)) (Some (of_Z v)) None in
  let vals := [(0%nat, Some (of_Z 10)); (1%nat, Some (of_Z 20))] in
  let bar d v := bar_of demo_bars demo_scale 400 Yes (fun _ => None) [0%nat; 1%nat] vals d demo_shown 0 (it v) in
  base (bar 1%nat 20%Z) = tip (bar 0%nat 10%Z) /\ tip (bar 0%nat 10%Z) = of_Z 380.
Proof.
  intros it vals bar.
  destruct (stacked_bars_abut (fun k => 10 * (Z.of_nat k + 1))%Z vals ltac:(intros k; cbn beta; lia) demo_bars demo_scale 400 Yes (fun _ => None)
    [] 0%nat 1%nat [] demo_shown demo_shown 0%nat (it 10%Z) (it 20%Z)) as (A & B & _).
  - split; reflexivity.
  - repeat constructor; cbn; intuition discriminate.
  - intros k [<-|[]]. reflexivity.
  - reflexivity.
  - split; reflexivity.
  - split; reflexivity.
  - split; reflexivity.
  - reflexivity.
  - split; [exact A|]. refine (eq_trans B _). vm_compute. reflexivity.
Defined.
End BarControllerFacts.
