(* ===== verification/Legend.v ===== *)
(** The legend, title and subtitle plugins of webui/public/chart.js: the rows or columns of
    the legend's items with their hit boxes, the events on them, drawing, the box of a title,
    and the items made from the datasets.

    The text of an item is measured by [measure]; callbacks of the options are outputs.

    Proved: the items of a legend are drawn exactly where their hit boxes are, hover
    callbacks come in pairs, and a click toggles the dataset. *)
From Stdlib Require Import ZArith Lia Bool List Ascii String.
From Stdlib Require Import SpecFloat.
From stdpp Require Import base list.
From S2P Require Import Prelude JsNumber JsString NumExact JsArray JsValue HelpersCore HelpersMath Options Layouts Interaction Canvas Segments Elements Chart.
Import ListNotations.
Open Scope Z_scope.

Module Legend.
Import Js MathH Canvas Rtl.
Local Open Scope js_scope.

(** An item; None and the empty text stand for undefined. *)
Record item := mkItem {
  text : string; fillStyle : option value; fontColor : option value; hidden : bool; lineCap : option value;
  lineDash : option value; lineDashOffset : option value; lineJoin : option value; lineWidth : option num;
  strokeStyle : option value; pointStyle : point_style; rotation : num; textAlign : string; borderRadius : value;
  datasetIndex : nat; index : option nat }.
Record hitbox := mkHitbox { hleft : num; htop : num; line : nat; hwidth : num; hheight : num }.

(** The options; [fontSize] is [toFont(labels.font).size], numbers that are absent are NaN. *)
Record title_opts := mkTitleOpts {
  t_display : bool; t_font : Options.font; t_size : num; t_padding : value; t_position : string; t_text : string; t_color : value }.
Record opts := mkOpts {
  display : bool; position : string; align : string; rtl : bool; reverse : bool; o_maxWidth : num; o_maxHeight : num;
  padding : num; boxWidth_ : option num; boxHeight_ : option num; usePointStyle : bool; font : Options.font; fontSize : num;
  color : value; labelAlign : string; title : title_opts; defaultColor : value }.

Record legend := mkLegend {
  left : num; right : num; top : num; bottom : num; width : num; height : num; maxWidth : num; maxHeight : num;
  marginLeft : num; marginTop : num; legendItems : list item; legendHitBoxes : list hitbox; lineWidths : list num;
  columnSizes : list (num * num); _hoveredItem : option item }.
Definition with_size (l : legend) (w h : num) : legend :=
  mkLegend (left l) (right l) (top l) (bottom l) w h (maxWidth l) (maxHeight l) (marginLeft l) (marginTop l)
    (legendItems l) (legendHitBoxes l) (lineWidths l) (columnSizes l) (_hoveredItem l).
Definition with_items (l : legend) (items : list item) : legend :=
  mkLegend (left l) (right l) (top l) (bottom l) (width l) (height l) (maxWidth l) (maxHeight l) (marginLeft l) (marginTop l)
    items (legendHitBoxes l) (lineWidths l) (columnSizes l) (_hoveredItem l).
Definition with_boxes (l : legend) (hbs : list hitbox) : legend :=
  mkLegend (left l) (right l) (top l) (bottom l) (width l) (height l) (maxWidth l) (maxHeight l) (marginLeft l) (marginTop l)
    (legendItems l) hbs (lineWidths l) (columnSizes l) (_hoveredItem l).
Definition with_hovered (l : legend) (i : option item) : legend :=
  mkLegend (left l) (right l) (top l) (bottom l) (width l) (height l) (maxWidth l) (maxHeight l) (marginLeft l) (marginTop l)
    (legendItems l) (legendHitBoxes l) (lineWidths l) (columnSizes l) i.

Definition isHorizontal (o : opts) : bool := String.eqb (position o) "top" || String.eqb (position o) "bottom".
(** Width, height and the height of an item. *)
Definition getBoxSize (o : opts) : num * num * num :=
  let bh := match boxHeight_ o with Some x => x | None => fontSize o end in
  let bw := match boxWidth_ o with Some x => x | None => fontSize o end in
  let bh := if usePointStyle o then Num.min bh (fontSize o) else bh in
  let bw := if usePointStyle o then Num.min bw (fontSize o) else bw in
  (bw, bh, Num.max (fontSize o) bh).
Definition boxWidth (o : opts) : num := fst (fst (getBoxSize o)).
Definition itemHeight (o : opts) : num := snd (getBoxSize o).
Definition _computeTitleHeight (o : opts) : num :=
  if t_display (title o)
  then Options.lineHeight (t_font (title o)) + Options.pheight (Options.toPadding (t_padding (title o))) else 0.

Definition setDimensions (o : opts) (l : legend) : legend :=
  if isHorizontal o then
    mkLegend (marginLeft l) (maxWidth l) (top l) (bottom l) (maxWidth l) (height l) (maxWidth l) (maxHeight l)
      (marginLeft l) (marginTop l) (legendItems l) (legendHitBoxes l) (lineWidths l) (columnSizes l) (_hoveredItem l)
  else
    mkLegend (left l) (right l) (marginTop l) (maxHeight l) (width l) (maxHeight l) (maxWidth l) (maxHeight l)
      (marginLeft l) (marginTop l) (legendItems l) (legendHitBoxes l) (lineWidths l) (columnSizes l) (_hoveredItem l).

(** The items of the callback, filtered and sorted by the callbacks of the options. *)
Definition buildLabels (o : opts) (generated : list item) (filter : option (item -> bool)) (sort : option (item -> item -> num))
    (l : legend) : legend :=
  let items := match filter with Some p => List.filter p generated | None => generated end in
  let items := match sort with Some c => sort_by c items | None => items end in
  with_items l (if reverse o then List.rev items else items).

Section Measured.
Context (measure : string -> num) (o : opts).
Definition itemWidth (it : item) : num := boxWidth o + fontSize o / 2 + measure (text it).

(** ** Rows *)

(** [lineWidths] is [done] and the last width. *)
Record rows := mkRows { totalHeight : num; done : list num; current : num; r_top : num; row : Z; r_boxes : list hitbox }.
Definition row_step (maxWidth : num) (st : rows) (it : item) : rows :=
  let w := itemWidth it in
  let first := match r_boxes st with [] => true | _ => false end in
  let lineHeight := itemHeight o + padding o in
  let st :=
    if first || (maxWidth <? current st + w + 2 * padding o) then
      mkRows (totalHeight st + lineHeight) (if first then done st else done st ++ [current st])%list 0
        (r_top st + lineHeight) (row st + 1)%Z (r_boxes st)
    else st in
  mkRows (totalHeight st) (done st) (current st + (w + padding o)) (r_top st) (row st)
    (r_boxes st ++ [mkHitbox 0 (r_top st) (Z.to_nat (row st)) w (itemHeight o)])%list.
Definition fit_rows (maxWidth titleHeight : num) (items : list item) : rows :=
  fold_left (row_step maxWidth) items (mkRows titleHeight [] 0 (- (itemHeight o + padding o)) (-1) []).
Definition _fitRows (l : legend) (titleHeight : num) : legend * num :=
  let r := fit_rows (maxWidth l) titleHeight (legendItems l) in
  (mkLegend (left l) (right l) (top l) (bottom l) (width l) (height l) (maxWidth l) (maxHeight l) (marginLeft l) (marginTop l)
     (legendItems l) (r_boxes r) (done r ++ [current r])%list (columnSizes l) (_hoveredItem l), totalHeight r).

(** ** Columns *)
Record cols := mkCols {
  totalWidth : num; currentColWidth : num; currentColHeight : num; c_left : num; col : nat; sizes : list (num * num);
  c_boxes : list hitbox }.
Definition col_step (heightLimit : num) (st : cols) (it : item) : cols :=
  let w := itemWidth it in
  let first := match c_boxes st with [] => true | _ => false end in
  let st :=
    if negb first && (heightLimit <? currentColHeight st + itemHeight o + 2 * padding o) then
      mkCols (totalWidth st + (currentColWidth st + padding o)) 0 0 (c_left st + (currentColWidth st + padding o)) (S (col st))
        (sizes st ++ [(currentColWidth st, currentColHeight st)])%list (c_boxes st)
    else st in
  mkCols (totalWidth st) (Num.max (currentColWidth st) w) (currentColHeight st + (itemHeight o + padding o)) (c_left st) (col st)
    (sizes st) (c_boxes st ++ [mkHitbox (c_left st) (currentColHeight st) (col st) w (itemHeight o)])%list.
Definition fit_cols (heightLimit : num) (items : list item) : cols :=
  fold_left (col_step heightLimit) items (mkCols (padding o) 0 0 0 0 [] []).
Definition _fitCols (l : legend) (titleHeight : num) : legend * num :=
  let c := fit_cols (maxHeight l - titleHeight) (legendItems l) in
  (mkLegend (left l) (right l) (top l) (bottom l) (width l) (height l) (maxWidth l) (maxHeight l) (marginLeft l) (marginTop l)
     (legendItems l) (c_boxes c) (lineWidths l) (sizes c ++ [(currentColWidth c, currentColHeight c)])%list (_hoveredItem l),
   totalWidth c + currentColWidth c).

Definition or_num (x d : num) : num := if falsy x then d else x.
Definition fit (l : legend) : legend :=
  if negb (display o) then with_size l 0 0
  else
    let titleHeight := _computeTitleHeight o in
    let '(l, w, h) :=
      if isHorizontal o then let '(l, h) := _fitRows l titleHeight in (l, maxWidth l, h + 10)
      else let '(l, w) := _fitCols l titleHeight in (l, w + 10, maxHeight l) in
    with_size l (Num.min w (or_num (o_maxWidth o) (maxWidth l))) (Num.min h (or_num (o_maxHeight o) (maxHeight l))).
Definition update (generated : list item) (filter : option (item -> bool)) (sort : option (item -> item -> num))
    (l : legend) (maxWidth maxHeight marginLeft marginTop : num) : legend :=
  let l := mkLegend (left l) (right l) (top l) (bottom l) (width l) (height l) maxWidth maxHeight marginLeft marginTop
             (legendItems l) (legendHitBoxes l) (lineWidths l) (columnSizes l) (_hoveredItem l) in
  fit (buildLabels o generated filter sort (setDimensions o l)).

(** ** Hit boxes at their places *)
Definition adapter_of (l : legend) : adapter := getRtlAdapter (rtl o) (left l) (width l).
(** The width of a line is NaN past the last one. *)
Definition line_width (l : legend) (i : nat) : num := match lineWidths l !! i with Some w => w | None => Num.nan end.
Definition row_start (l : legend) (i : nat) : num :=
  Options._alignStartEnd (align o) (left l + padding o) (right l - line_width l i).
(** None is the TypeError of a column that is not there. *)
Definition col_start (l : legend) (titleHeight : num) (i : nat) : option num :=
  option_map (fun s => Options._alignStartEnd (align o) (top l + titleHeight + padding o) (bottom l - snd s)) (columnSizes l !! i).
Fixpoint adjust_rows (l : legend) (titleHeight : num) (r : nat) (x : num) (hbs : list hitbox) : list hitbox :=
  match hbs with
  | [] => []
  | b :: rest =>
      let x := if Nat.eqb r (line b) then x else row_start l (line b) in
      let a := adapter_of l in
      mkHitbox (leftForLtr a (ax a x) (hwidth b)) (htop b + (top l + titleHeight + padding o)) (line b) (hwidth b) (hheight b)
      :: adjust_rows l titleHeight (line b) (x + (hwidth b + padding o)) rest
  end.
Fixpoint adjust_cols (l : legend) (titleHeight : num) (c : nat) (y : num) (hbs : list hitbox) : option (list hitbox) :=
  match hbs with
  | [] => Some []
  | b :: rest =>
      match (if Nat.eqb (line b) c then Some y else col_start l titleHeight (line b)) with
      | None => None
      | Some y =>
          let a := adapter_of l in
          let x := hleft b + (left l + padding o) in
          option_map (cons (mkHitbox (leftForLtr a (ax a x) (hwidth b)) y (line b) (hwidth b) (hheight b)))
            (adjust_cols l titleHeight (line b) (y + (hheight b + padding o)) rest)
      end
  end.
Definition adjustHitBoxes (l : legend) : option legend :=
  if negb (display o) then Some l
  else
    let th := _computeTitleHeight o in
    if isHorizontal o then Some (with_boxes l (adjust_rows l th 0 (row_start l 0) (legendHitBoxes l)))
    else match col_start l th 0 with
         | None => None
         | Some y => option_map (with_boxes l) (adjust_cols l th 0 y (legendHitBoxes l))
         end.

(** ** Where the items are drawn *)
Fixpoint row_positions (l : legend) (first : bool) (x y : num) (ln : nat) (items : list item) : list (num * num) :=
  match items with
  | [] => []
  | it :: rest =>
      let w := itemWidth it in
      let '(x, y, ln) :=
        if negb first && (right l <? x + w + padding o)
        then (row_start l (S ln), y + (itemHeight o + padding o), S ln) else (x, y, ln) in
      (x, y) :: row_positions l false (x + (w + padding o)) y ln rest
  end.
Fixpoint col_positions (l : legend) (titleHeight : num) (first : bool) (x y : num) (ln : nat) (items : list item)
    : option (list (num * num)) :=
  match items with
  | [] => Some []
  | it :: rest =>
      let lineHeight := itemHeight o + padding o in
      match (if negb first && (bottom l <? y + lineHeight) then
               match columnSizes l !! ln, col_start l titleHeight (S ln) with
               | Some s, Some y => Some (x + fst s + padding o, y, S ln)
               | _, _ => None
               end
             else Some (x, y, ln)) with
      | None => None
      | Some (x, y, ln) => option_map (cons (x, y)) (col_positions l titleHeight false x (y + lineHeight) ln rest)
      end
  end.
Definition positions (l : legend) : option (list (num * num)) :=
  let th := _computeTitleHeight o in
  if isHorizontal o then Some (row_positions l true (row_start l 0) (top l + padding o + th) 0 (legendItems l))
  else match col_start l th 0 with
       | None => None
       | Some y => col_positions l th true (left l + padding o) y 0 (legendItems l)
       end.

(** ** Drawing *)
Context (measureMetrics : string -> metrics).
Definition SQRT2 : num := 1.4142135623730951.
Definition box_path (it : item) (x y bh : num) : list cmd :=
  let r := Options.toTRBLCorners (borderRadius it) in
  let nonzero v := negb (v =? 0) in
  BeginPath ::
  (if nonzero (Options.topLeft r) || nonzero (Options.topRight r) || nonzero (Options.bottomLeft r) || nonzero (Options.bottomRight r)
   then addRoundedRectPath (mkRounded x y (boxWidth o) bh r)
   else [RectPath x y (boxWidth o) bh]).
Section Lib.
Context `{MathLib}.
Definition drawLegendBox (a : adapter) (it : item) (x y : num) : list cmd :=
  let '(bw, bh, _) := getBoxSize o in
  if Num.is_nan bw || (bw <=? 0) || Num.is_nan bh || (bh <? 0) then []
  else
    let or {A} (v : option A) d := match v with Some v => v | None => d end in
    let lw := or (lineWidth it) 1 in
    (Save :: ([Set_ "fillStyle" (or (fillStyle it) (defaultColor o)); Set_ "lineCap" (or (lineCap it) (VStr "butt"));
       Set_ "lineDashOffset" (or (lineDashOffset it) (VNum 0)); Set_ "lineJoin" (or (lineJoin it) (VStr "miter"));
       Set_ "lineWidth" (VNum lw); Set_ "strokeStyle" (or (strokeStyle it) (defaultColor o));
       SetLineDash (or (lineDash it) (VArr []))] ++
      (if usePointStyle o then
         drawPoint (mkPointOptions (pointStyle it) (rotation it) (bw * SQRT2 / 2) lw) (xPlus a x (bw / 2)) (y + fontSize o / 2)
       else
         box_path it (leftForLtr a x bw) (y + Num.max ((fontSize o - bh) / 2) 0) bh ++ Fill :: (if lw =? 0 then [] else [Stroke])))
     ++ [Restore])%list.
Definition text_align (a : adapter) (it : item) : string :=
  Rtl.textAlign a (if String.eqb (textAlign it) "" then labelAlign o else textAlign it).
Definition fillText (a : adapter) (it : item) (x y : num) : list cmd :=
  renderText measureMetrics [text it] x (y + itemHeight o / 2) (match Options.fstring (font o) with Some s => s | None => "null"%string end)
    (Options.lineHeight (font o))
    (mkTextOptions None None None None "" (text_align a it) "" None (hidden it) false 2).
Definition draw_at (l : legend) (itxy : item * (num * num)) : list cmd :=
  let '(it, (x, y)) := itxy in
  let a := setWidth (adapter_of l) (width l) in
  let c := match fontColor it with Some c => if truthy c then c else color o | None => color o end in
  let x' := Options._textX (text_align a it) (x + boxWidth o + fontSize o / 2)
              (if isHorizontal o then x + itemWidth it else right l) (rtl o) in
  ([Set_ "strokeStyle" c; Set_ "fillStyle" c] ++ drawLegendBox a it (ax a x) y ++ fillText a it (ax a x') y)%list.
Definition drawTitle (l : legend) : list cmd :=
  let t := title o in
  if negb (t_display t) then []
  else
    let a := adapter_of l in
    let half := Options.top (Options.sides (Options.toPadding (t_padding t))) + t_size t / 2 in
    let '(left_, maxWidth_, y) :=
      if isHorizontal o then
        let m := fold_left Num.max (lineWidths l) (- Num.infinity) in
        (Options._alignStartEnd (align o) (left l) (right l - m), m, top l + half)
      else
        let m := fold_left (fun acc s => Num.max acc (snd s)) (columnSizes l) 0 in
        (left l, width l,
         half + Options._alignStartEnd (align o) (top l) (bottom l - m - padding o - _computeTitleHeight o)) in
    let x := Options._alignStartEnd (t_position t) left_ (left_ + maxWidth_) in
    ([Set_ "textAlign" (VStr (Rtl.textAlign a (Options._toLeftRightCenter (t_position t)))); Set_ "textBaseline" (VStr "middle");
      Set_ "strokeStyle" (t_color t); Set_ "fillStyle" (t_color t);
      Set_ "font" (match Options.fstring (t_font t) with Some s => VStr s | None => Null end)] ++
     renderText measureMetrics [t_text t] x y (match Options.fstring (t_font t) with Some s => s | None => "null"%string end)
       (Options.lineHeight (t_font t)) (mkTextOptions None None None None "" "" "" None false false 2))%list.
(** The direction of the canvas' text is set and restored around the items; see Segments.v. *)
Definition _draw (l : legend) : option (list cmd) :=
  option_map (fun ps =>
    drawTitle l ++
    [Set_ "textAlign" (VStr (Rtl.textAlign (adapter_of l) "left")); Set_ "textBaseline" (VStr "middle"); Set_ "lineWidth" (VNum 0.5);
     Set_ "font" (match Options.fstring (font o) with Some s => VStr s | None => Null end)] ++
    List.flat_map (draw_at l) (combine (legendItems l) ps))%list (positions l).
Definition draw (l : legend) : option (list cmd) :=
  if negb (display o) then Some []
  else option_map (fun c => clipArea (Interaction.mkRect (left l) (top l) (right l) (bottom l)) ++ c ++ unclipArea)%list (_draw l).
End Lib.
End Measured.

(** ** Events *)
Record event := mkEvent { e_type : string; ex : num; ey : num }.
Definition in_box (x y : num) (b : hitbox) : bool :=
  _isBetween x (hleft b) (hleft b + hwidth b) 1e-6 && _isBetween y (htop b) (htop b + hheight b) 1e-6.
(** The item of the first hit box with the point; None is null. *)
Definition _getLegendItemAt (l : legend) (x y : num) : option item :=
  if _isBetween x (left l) (right l) 1e-6 && _isBetween y (top l) (bottom l) 1e-6 then
    match list_find (fun b => in_box x y b) (legendHitBoxes l) with
    | Some (i, _) => legendItems l !! i
    | None => None
    end
  else None.
Definition itemsEqual (a b : option item) : bool :=
  match a, b with
  | Some a, Some b => Nat.eqb (datasetIndex a) (datasetIndex b) &&
      match index a, index b with Some i, Some j => Nat.eqb i j | None, None => true | _, _ => false end
  | _, _ => false
  end.
(** Which callbacks the options have. *)
Record listeners := mkListeners { onClick : bool; onHover : bool; onLeave : bool }.
Definition isListened (type : string) (c : listeners) : bool :=
  (String.eqb type "mousemove" && (onHover c || onLeave c)) ||
  (onClick c && (String.eqb type "click" || String.eqb type "mouseup")).
Inductive call := Leave (i : item) | Hover (i : item) | Click (i : item).
Definition handleEvent (c : listeners) (l : legend) (e : event) : legend * list call :=
  if negb (isListened (e_type e) c) then (l, [])
  else
    let hoveredItem := _getLegendItemAt l (ex e) (ey e) in
    if String.eqb (e_type e) "mousemove" then
      let previous := _hoveredItem l in
      let sameItem := itemsEqual previous hoveredItem in
      (with_hovered l hoveredItem,
       (match previous with Some p => if sameItem || negb (onLeave c) then [] else [Leave p] | None => [] end) ++
       (match hoveredItem with Some i => if sameItem || negb (onHover c) then [] else [Hover i] | None => [] end))%list
    else (l, match hoveredItem with Some i => [Click i] | None => [] end).

(** ** The default items and click *)

(** What [generateLabels] reads of a controller's style. *)
Record style := mkStyle {
  backgroundColor : option value; s_borderWidth : value; borderCapStyle : option value; borderDash : option value;
  borderDashOffset : option value; borderJoinStyle : option value; borderColor : option value; s_pointStyle : point_style;
  s_rotation : num; s_textAlign : string }.
Definition generated_item (label : nat -> string) (styleOf : Metas.meta -> style) (fontColor : option value)
    (pointStyle : option point_style) (textAlign : string) (m : Metas.meta) : item :=
  let st := styleOf m in
  let p := Options.toPadding (s_borderWidth st) in
  mkItem (label (Metas.m_index m)) (backgroundColor st) fontColor (negb (Metas.visible m)) (borderCapStyle st) (borderDash st)
    (borderDashOffset st) (borderJoinStyle st) (Some ((Options.pwidth p + Options.pheight p) / 4)) (borderColor st)
    (match pointStyle with Some s => s | None => s_pointStyle st end) (s_rotation st)
    (if String.eqb textAlign "" then s_textAlign st else textAlign) (VNum 0) (Metas.m_index m) None.
Definition generateLabels (label : nat -> string) (styleOf : Metas.meta -> style) (fontColor : option value)
    (pointStyle : option point_style) (textAlign : string) (c : Metas.chart) : list item :=
  List.map (generated_item label styleOf fontColor pointStyle textAlign) (Metas._getSortedDatasetMetas c false).
Definition with_hidden (it : item) (b : bool) : item :=
  mkItem (text it) (fillStyle it) (fontColor it) b (lineCap it) (lineDash it) (lineDashOffset it) (lineJoin it) (lineWidth it)
    (strokeStyle it) (pointStyle it) (rotation it) (textAlign it) (borderRadius it) (datasetIndex it) (index it).

(** [Chart.hide] and [show] on a dataset: its animations of the mode are resolved, its
    visibility is set and animated, and the chart is updated with the mode for the dataset.
    [len] is the number of the dataset's elements; None is the TypeError of a dataset
    without a controller or of an element that is not there. *)
Inductive effect := ResolveAnimations (mode : string) | AnimateVisible (b : bool) | UpdateChart (mode : string) | HideElement (i : nat) (b : bool).
Definition _updateVisibility (len : nat) (c : Metas.chart) (i : nat) (dataIndex : option nat) (vis : bool)
    : option (Metas.chart * list effect) :=
  let mode := (if vis then "show" else "hide")%string in
  let '(c, k) := Metas.getDatasetMeta c i in
  match Metas.meta_at c k with
  | Some m =>
      match Metas.controller m with
      | None => None
      | Some _ =>
          match dataIndex with
          | Some k =>
              if Nat.ltb k len then Some (c, [ResolveAnimations mode; HideElement k (negb vis); UpdateChart ""]) else None
          | None => Some (Metas.setDatasetVisibility c i vis, [ResolveAnimations mode; AnimateVisible vis; UpdateChart mode])
          end
      end
  | None => None
  end.
Definition hide (len : nat) (c : Metas.chart) (i : nat) (dataIndex : option nat) := _updateVisibility len c i dataIndex false.
Definition show (len : nat) (c : Metas.chart) (i : nat) (dataIndex : option nat) := _updateVisibility len c i dataIndex true.
(** The default [onClick]. *)
Definition on_click (len : nat) (c : Metas.chart) (it : item) : option (Metas.chart * item * list effect) :=
  let '(c, vis) := Metas.isDatasetVisible c (datasetIndex it) in
  if vis then option_map (fun r => (fst r, with_hidden it true, snd r)) (hide len c (datasetIndex it) None)
  else option_map (fun r => (fst r, with_hidden it false, snd r)) (show len c (datasetIndex it) None).

(** ** What the plugin does with its legend *)
Definition afterUpdate (o : opts) (generated : list item) (filter : option (item -> bool)) (sort : option (item -> item -> num))
    (l : legend) : option legend :=
  adjustHitBoxes o (buildLabels o generated filter sort l).
Definition afterEvent (c : listeners) (replay : bool) (l : legend) (e : event) : legend * list call :=
  if replay then (l, []) else handleEvent c l e.
End Legend.

(** ** Titles *)
Module Title.
Import Js MathH Canvas.
Local Open Scope js_scope.

Record opts := mkOpts {
  display : bool; position : string; align : string; lines : list string; font : Options.font; padding : value; color : string }.
Record title := mkTitle {
  left : num; right : num; top : num; bottom : num; width : num; height : num; _padding : option Options.padding }.
Definition isHorizontal (o : opts) : bool := String.eqb (position o) "top" || String.eqb (position o) "bottom".
Definition update (o : opts) (t : title) (maxWidth maxHeight : num) : title :=
  if negb (display o) then mkTitle 0 0 0 0 0 0 (_padding t)
  else
    let p := Options.toPadding (padding o) in
    let textSize := Num.of_nat (List.length (lines o)) * Options.lineHeight (font o) + Options.pheight p in
    mkTitle 0 maxWidth 0 maxHeight (if isHorizontal o then maxWidth else textSize) (if isHorizontal o then textSize else maxHeight)
      (Some p).
Record args := mkArgs { titleX : num; titleY : num; maxWidth : num; rotation : num }.
Definition _drawArgs (o : opts) (t : title) (offset : num) : args :=
  if isHorizontal o then
    mkArgs (Options._alignStartEnd (align o) (left t) (right t)) (top t + offset) (right t - left t) 0
  else if String.eqb (position o) "left" then
    mkArgs (left t + offset) (Options._alignStartEnd (align o) (bottom t) (top t)) (bottom t - top t) (PI * -0.5)
  else
    mkArgs (right t - offset) (Options._alignStartEnd (align o) (top t) (bottom t)) (bottom t - top t) (PI * 0.5).
(** None: a title that was never updated, a TypeError. *)
Definition draw (measureMetrics : string -> metrics) (o : opts) (t : title) : option (list cmd) :=
  if negb (display o) then Some []
  else
    option_map (fun p =>
      let lh := Options.lineHeight (font o) in
      let a := _drawArgs o t (lh / 2 + Options.top (Options.sides p)) in
      renderText measureMetrics (lines o) 0 0 (match Options.fstring (font o) with Some s => s | None => "null"%string end) lh
        (mkTextOptions None None (Some (titleX a, titleY a)) (Some (rotation a)) (color o)
           (Options._toLeftRightCenter (align o)) "middle" (Some (maxWidth a)) false false 2)) (_padding t).
End Title.

(** ** The life of the boxes: the same for legend, title and subtitle *)
Module BoxPlugin.
Section Plugin.
Context {S : Type} (same : Layouts.box S -> Layouts.box S -> bool).

(** The boxes of the chart and the plugin's own box: [chart.legend], [chart.titleBlock] or
    the entry of the map. *)
Record host := mkHost { boxes : list (Layouts.box S); block : option (Layouts.box S) }.
Definition start (h : host) (b : Layouts.box S) (pos : Layouts.position) (fullSize : bool) (weight : num) : host :=
  let b := Layouts.configure b pos fullSize weight in
  mkHost (Layouts.addBox (boxes h) b) (Some b).
Definition stop (h : host) : host :=
  mkHost (match block h with Some b => Layouts.removeBox same (boxes h) b | None => boxes h end) None.
(** The box is an object: the entry of the chart's boxes changes with it. *)
Definition beforeUpdate (h : host) (pos : Layouts.position) (fullSize : bool) (weight : num) : host :=
  match block h with
  | Some b =>
      mkHost (List.map (fun x => if same x b then Layouts.configure x pos fullSize weight else x) (boxes h))
        (Some (Layouts.configure b pos fullSize weight))
  | None => h
  end.
End Plugin.
End BoxPlugin.

(** ** Facts *)
Module LegendFacts.
Import Num NumFacts Rtl Legend.
Local Open Scope js_scope.

(** *** Lines of items in whole pixels

    An item takes [w] along the line and [c] across it, with a gap [p] after each; a line
    that would leave less than [p] of its room [M] is ended.  The result is the line of every
    item with the place of the line across and of the item along it, and the lines' extents. *)
Section Lines.
Context (p M : Z).
Fixpoint zlines (k : nat) (X cur C : Z) (ws : list (Z * Z)) : list (nat * Z * Z) * list (Z * Z) :=
  match ws with
  | [] => ([], [(C, cur)])
  | (w, c) :: rest =>
      if (M <? cur + w + 2 * p)%Z then
        let '(ps, ls) := zlines (S k) (X + C + p) (w + p) (Z.max 0 c) rest in ((S k, X + C + p, 0)%Z :: ps, (C, cur) :: ls)
      else
        let '(ps, ls) := zlines k X (cur + w + p) (Z.max C c) rest in ((k, X, cur) :: ps, ls)
  end.
(** Where a line of extent [L] starts between [lo] and [hi]. *)
Definition zstart (align : string) (lo hi L : Z) : Z :=
  if String.eqb align "start" then lo else if String.eqb align "end" then (hi - L)%Z else ((lo + (hi - L)) / 2)%Z.
Definition centred (align : string) (lo hi L : Z) : Prop :=
  String.eqb align "start" = false -> String.eqb align "end" = false -> Z.Even (lo + (hi - L)).


Lemma zlines_head ws : forall k X cur C, (0 < p)%Z -> List.Forall (fun e => (0 < fst e)%Z) ws ->
  exists C' L ls ps, zlines k X cur C ws = (ps, (C', L) :: ls) /\ (cur <= L)%Z /\ (L = cur \/ L + p <= M)%Z.
Proof.
  induction ws as [|[w c] ws IH]; intros k X cur C P F; cbn [zlines]; [do 4 eexists; split; [reflexivity|lia]|].
  inversion F as [|? ? W F']; subst. cbn [fst] in W. destruct (Z.ltb_spec M (cur + w + 2 * p)) as [B|B].
  - destruct (zlines _ _ _ _ ws) as [ps ls]. do 4 eexists. split; [reflexivity|lia].
  - destruct (IH k X (cur + w + p)%Z (Z.max C c) P F') as (C' & L & ls & ps & -> & G & D). do 4 eexists.
    split; [reflexivity|]. lia.
Qed.
Lemma zlines_length ws : forall k X cur C, List.length (fst (zlines k X cur C ws)) = List.length ws.
Proof.
  induction ws as [|[w c] ws IH]; intros k X cur C; cbn [zlines]; [reflexivity|]. destruct (M <? _)%Z.
  - specialize (IH (S k) (X + C + p) (w + p) (Z.max 0 c))%Z. destruct (zlines _ _ _ _ ws). cbn [fst List.length] in *. now rewrite IH.
  - specialize (IH k X (cur + w + p) (Z.max C c))%Z. destruct (zlines _ _ _ _ ws). cbn [fst List.length] in *. now rewrite IH.
Qed.
(** Breaking a line by its place on the screen is breaking it by its extent. *)
Lemma same_break align lo hi L cur w : (lo = hi - M + p)%Z -> (0 < p)%Z -> (0 < w)%Z -> (0 <= cur)%Z -> centred align lo hi L ->
  (M < cur + w + 2 * p /\ L = cur \/ cur + w + 2 * p <= M /\ cur + w + p <= L /\ L + p <= M)%Z ->
  (hi <? zstart align lo hi L + cur + w + p)%Z = (M <? cur + w + 2 * p)%Z.
Proof.
  intros E P W Cu Ev D. unfold zstart. unfold centred in Ev. destruct (String.eqb align "start").
  - destruct (Z.ltb_spec M (cur + w + 2 * p)); [apply Z.ltb_lt|apply Z.ltb_ge]; lia.
  - destruct (String.eqb align "end").
    + destruct (Z.ltb_spec M (cur + w + 2 * p)); [apply Z.ltb_lt|apply Z.ltb_ge]; lia.
    + destruct (Ev eq_refl eq_refl) as [m Q]. replace (lo + (hi - L))%Z with (m * 2)%Z by lia. rewrite Z.div_mul by lia.
      destruct (Z.ltb_spec M (cur + w + 2 * p)); [apply Z.ltb_lt|apply Z.ltb_ge]; lia.
Qed.
(** Lines are as long as their items, and even when these are. *)
Lemma zlines_bounds ws : forall k X cur C B, List.Forall (fun e => (0 < fst e /\ fst e + p <= 2 ^ 21)%Z) ws -> (0 < p)%Z -> (0 <= cur)%Z ->
  (cur + 2 ^ 21 * Z.of_nat (List.length ws) <= B)%Z -> List.Forall (fun q => (0 <= snd q <= B)%Z) (snd (zlines k X cur C ws)).
Proof.
  induction ws as [|[w c] ws IH]; intros k X cur C B F P C0 Cb; cbn [zlines List.length] in *.
  - repeat constructor; cbn [snd]; lia.
  - inversion F as [|? ? W F']; subst. cbn [fst] in W. destruct (M <? _)%Z.
    + specialize (IH (S k) (X + C + p) (w + p) (Z.max 0 c) B F')%Z. destruct (zlines _ _ _ _ ws) as [ps ls]. cbn [snd] in *.
      constructor; [cbn [snd]; lia|apply IH; lia].
    + specialize (IH k X (cur + w + p) (Z.max C c) B F')%Z. destruct (zlines _ _ _ _ ws) as [ps ls]. cbn [snd] in *. apply IH; lia.
Qed.
Lemma even_add x y : Z.Even x -> Z.Even y -> Z.Even (x + y).
Proof. intros [a ->] [b ->]. exists (a + b)%Z. lia. Qed.
Lemma zlines_even ws : forall k X cur C, List.Forall (fun e => Z.Even (fst e)) ws -> Z.Even p -> Z.Even cur ->
  List.Forall (fun q => Z.Even (snd q)) (snd (zlines k X cur C ws)).
Proof.
  induction ws as [|[w c] ws IH]; intros k X cur C F P Cu; cbn [zlines].
  - repeat constructor. exact Cu.
  - inversion F as [|? ? W F']; subst. cbn [fst] in W. pose proof (IH (S k) (X + C + p) (w + p) (Z.max 0 c) F' P)%Z as I1.
    pose proof (IH k X (cur + w + p) (Z.max C c) F' P)%Z as I2. destruct (M <? _)%Z.
    + destruct (zlines _ _ _ _ ws) as [ps ls] in I1 |- *. constructor; [exact Cu|]. now apply I1, even_add.
    + destruct (zlines _ _ _ _ ws) as [ps ls] in I2 |- *. apply I2. now repeat apply even_add.
Qed.
End Lines.

Lemma half_of_Z m : (Z.abs m <= 2 ^ 50)%Z -> div (of_Z (m * 2)) (of_Z 2) = of_Z m.
Proof.
  intros B. destruct (Z.lt_trichotomy m 0) as [N|[->|N]].
  - replace (m * 2)%Z with (- (- m * 2))%Z by lia. rewrite <- of_Z_opp by (unfold safe; lia).
    rewrite NumExact.div_opp.
    + rewrite NumExact.of_Z_div_exact by (unfold safe; lia). rewrite of_Z_opp by (unfold safe; lia). f_equal. lia.
    + destruct (- m * 2)%Z eqn:Q; try lia. apply NumExact.of_Z_finite. unfold safe. lia.
    + apply NumExact.of_Z_finite. unfold safe. lia.
  - reflexivity.
  - apply NumExact.of_Z_div_exact; unfold safe; lia.
Qed.
Lemma align_of_Z align lo b : (Z.abs lo <= 2 ^ 48)%Z -> (Z.abs b <= 2 ^ 48)%Z ->
  (String.eqb align "start" = false -> String.eqb align "end" = false -> Z.Even (lo + b)) ->
  Options._alignStartEnd align (of_Z lo) (of_Z b)
  = of_Z (if String.eqb align "start" then lo else if String.eqb align "end" then b else ((lo + b) / 2)%Z).
Proof.
  intros Lo B Ev. unfold Options._alignStartEnd. destruct (String.eqb align "start"); [reflexivity|].
  destruct (String.eqb align "end"); [reflexivity|]. destruct (Ev eq_refl eq_refl) as [m Q].
  rewrite of_Z_add by (unfold safe; lia). rewrite Q, Z.mul_comm, Z.div_mul by lia. change (2 : num) with (of_Z 2).
  apply half_of_Z. lia.
Qed.

(** *** Rows *)
Section Rows.
Context (measure : string -> num) (o : opts) (l : legend) (p ih x0 y0 th M : Z) (wz : item -> Z).
(** The measures are whole numbers of a reasonable size, the padding is positive. *)
Hypothesis whole_padding : padding o = of_Z p /\ (0 < p <= 2 ^ 20)%Z.
Hypothesis whole_height : itemHeight o = of_Z ih /\ (0 <= ih <= 2 ^ 20)%Z.
Hypothesis whole_widths : forall it, In it (legendItems l) -> itemWidth measure o it = of_Z (wz it) /\ (0 < wz it <= 2 ^ 20)%Z.
Hypothesis not_too_many : (Z.of_nat (List.length (legendItems l)) <= 2 ^ 20)%Z.
Hypothesis whole_place : (left l = of_Z x0 /\ right l = of_Z (x0 + M) /\ top l = of_Z y0) /\
  (Z.abs x0 <= 2 ^ 40 /\ Z.abs y0 <= 2 ^ 40 /\ 0 <= M <= 2 ^ 40 /\ 0 <= th <= 2 ^ 40)%Z.
Definition ext (it : item) : Z * Z := (wz it, 0%Z).
Abbreviation lines := (zlines p M).
Definition box_of (it : item) (q : nat * Z * Z) : hitbox :=
  mkHitbox 0 (of_Z (Z.of_nat (fst (fst q)) * (ih + p))) (fst (fst q)) (of_Z (wz it)) (of_Z ih).

Lemma row_step_next st it k cur : In it (legendItems l) -> r_boxes st <> [] -> current st = of_Z cur -> row st = Z.of_nat k ->
  r_top st = of_Z (Z.of_nat k * (ih + p)) -> (0 <= cur <= 2 ^ 43)%Z -> (Z.of_nat k < 2 ^ 20)%Z ->
  let st' := row_step measure o (of_Z M) st it in
  if (M <? cur + wz it + 2 * p)%Z then
    done st' = (done st ++ [of_Z cur])%list /\ current st' = of_Z (wz it + p) /\ row st' = Z.of_nat (S k) /\
    r_top st' = of_Z (Z.of_nat (S k) * (ih + p)) /\ r_boxes st' = (r_boxes st ++ [box_of it (S k, 0, 0)%Z])%list
  else
    done st' = done st /\ current st' = of_Z (cur + wz it + p) /\ row st' = Z.of_nat k /\
    r_top st' = of_Z (Z.of_nat k * (ih + p)) /\ r_boxes st' = (r_boxes st ++ [box_of it (k, 0, cur)%Z])%list.
Proof.
  destruct whole_padding as [Hp Bp], whole_height as [Hh Bh]. intros I Bx Cu Ro To C0 K0.
  destruct (whole_widths it I) as [Wi Wb].
  assert (Lt : lt (of_Z M) (of_Z cur + of_Z (wz it) + 2 * of_Z p) = (M <? cur + wz it + 2 * p)%Z).
  { change (2 : num) with (of_Z 2). rewrite of_Z_mul, !of_Z_add, of_Z_lt by (unfold safe; lia). reflexivity. }
  unfold row_step. rewrite Cu, Hp, Hh, Wi. destruct (r_boxes st) as [|b0 bs] eqn:Bs; [congruence|]. cbn [orb]. rewrite Lt.
  destruct (M <? _)%Z; cbn [done current row r_top r_boxes]; unfold box_of; cbn [fst snd]; rewrite Ro, To.
  - rewrite !of_Z_add by (unfold safe; nia). change (0 : num) with (of_Z 0). rewrite of_Z_add by (unfold safe; lia).
    repeat split; try (f_equal; lia). f_equal. f_equal. f_equal; [f_equal; lia|lia].
  - rewrite !of_Z_add by (unfold safe; nia). rewrite Nat2Z.id, Cu, Bs, !of_Z_add by (unfold safe; lia). repeat split; auto. f_equal. lia.
Qed.
Lemma fit_rows_lines items : (forall it, In it items -> In it (legendItems l)) -> forall st k X cur C,
  r_boxes st <> [] -> current st = of_Z cur -> row st = Z.of_nat k -> r_top st = of_Z (Z.of_nat k * (ih + p)) ->
  (0 <= cur)%Z -> (cur + 2 ^ 21 * Z.of_nat (List.length items) <= 2 ^ 43)%Z ->
  (Z.of_nat k + Z.of_nat (List.length items) <= 2 ^ 20)%Z ->
  let st' := fold_left (row_step measure o (of_Z M)) items st in
  let '(ps, ls) := lines k X cur C (List.map ext items) in
  (done st' ++ [current st'])%list = (done st ++ List.map (fun q => of_Z (snd q)) ls)%list /\
  r_boxes st' = (r_boxes st ++ zip_with box_of items ps)%list.
Proof.
  destruct whole_padding as [_ Bp].
  induction items as [|it items IH]; intros I st k X cur C Bx Cu Ro To C0 Cb Kb; cbn [fold_left List.map zlines].
  - cbn [List.map snd]. rewrite Cu. split; [reflexivity|]. now rewrite app_nil_r.
  - cbn [List.length] in *. destruct (whole_widths it (I it (or_introl eq_refl))) as [_ Wb].
    pose proof (row_step_next st it k cur (I it (or_introl eq_refl)) Bx Cu Ro To ltac:(lia) ltac:(lia)) as S1.
    set (st1 := row_step measure o (of_Z M) st it) in *. clearbody st1. unfold ext at 1. cbn [fst snd].
    destruct (M <? cur + wz it + 2 * p)%Z; destruct S1 as (D1 & D2 & D3 & D4 & D5).
    + specialize (IH (fun i J => I i (or_intror J)) st1 (S k) (X + C + p) (wz it + p) (Z.max 0 0))%Z.
      destruct (lines (S k) _ _ _ _) as [ps ls]. rewrite D1, D5 in IH.
      destruct IH as [E1 E2]; [now destruct (r_boxes st)|assumption..|lia|lia|lia|]. cbn zeta. rewrite E1, E2, <- !app_assoc. split; reflexivity.
    + specialize (IH (fun i J => I i (or_intror J)) st1 k X (cur + wz it + p) (Z.max C 0))%Z.
      destruct (lines k _ _ _ _) as [ps ls]. rewrite D1, D5 in IH.
      destruct IH as [E1 E2]; [now destruct (r_boxes st)|assumption..|lia|lia|lia|]. cbn zeta. rewrite E1, E2, <- !app_assoc. split; reflexivity.
Qed.

(** The lines of the fitted legend, and where each one starts. *)
Section Walk.
Context (Ls : list (Z * Z)).
Definition extent (k : nat) : Z := match Ls !! k with Some q => snd q | None => 0 end.
Definition start_of (k : nat) : Z := zstart (align o) (x0 + p) (x0 + M) (extent k).
Hypothesis widths_kept : lineWidths l = List.map (fun q => of_Z (snd q)) Ls.
Hypothesis lines_fit : List.Forall (fun q => (0 <= snd q <= 2 ^ 44)%Z /\ centred (align o) (x0 + p) (x0 + M) (snd q)) Ls.
Abbreviation Y := (y0 + p + th)%Z.
Definition place (q : nat * Z * Z) : num * num :=
  (of_Z (start_of (fst (fst q)) + snd q), of_Z (Y + Z.of_nat (fst (fst q)) * (ih + p))).

Lemma line_at k : (k < List.length Ls)%nat -> (0 <= extent k <= 2 ^ 44)%Z /\ centred (align o) (x0 + p) (x0 + M) (extent k) /\
  row_start o l k = of_Z (start_of k) /\ (Z.abs (start_of k) <= 2 ^ 46)%Z.
Proof.
  intros Lk. destruct whole_padding as [Hp Bp]. destruct whole_place as [(P1 & P2 & P3) (B1 & B2 & B3 & B4)].
  destruct (Ls !! k) as [q|] eqn:Q; [|apply lookup_ge_None in Q; lia].
  pose proof lines_fit as F. rewrite List.Forall_forall in F. destruct (F q) as [Bq Cq].
  { apply list_elem_of_In. eapply list_elem_of_lookup_2. exact Q. }
  unfold start_of, extent. rewrite Q. split; [exact Bq|]. split; [exact Cq|].
  assert (R : row_start o l k = of_Z (zstart (align o) (x0 + p) (x0 + M) (snd q)) /\
              (Z.abs (zstart (align o) (x0 + p) (x0 + M) (snd q)) <= 2 ^ 46)%Z); [|exact R].
  unfold row_start, line_width. rewrite widths_kept, list_lookup_fmap, Q. cbn [option_map fmap option_fmap]. rewrite P1, P2, Hp.
  rewrite of_Z_add, of_Z_sub by (unfold safe; lia). rewrite align_of_Z; try lia.
  - split; [reflexivity|]. unfold zstart, centred in *. destruct (String.eqb _ _); [lia|]. destruct (String.eqb _ _); [lia|].
    destruct (Cq eq_refl eq_refl) as [m E]. rewrite E, Z.mul_comm, Z.div_mul by lia. lia.
  - exact Cq.
Qed.

Lemma widths_positive items : (forall it, In it items -> In it (legendItems l)) ->
  List.Forall (fun e => (0 < fst e /\ fst e + p <= 2 ^ 21)%Z) (List.map ext items).
Proof.
  destruct whole_padding as [_ Bp]. intros I. apply List.Forall_map, List.Forall_forall. intros it J.
  destruct (whole_widths it (I it J)) as [_ W]. cbn [ext fst]. lia.
Qed.
(** A line [k] that is being filled: it exists, and is drawn up to where it was ended. *)
Lemma line_filled it items k X cur C ps ls : (forall i, In i (it :: items) -> In i (legendItems l)) ->
  lines k X cur C (List.map ext (it :: items)) = (ps, ls) -> drop k Ls = ls -> (0 <= cur)%Z ->
  (k < List.length Ls)%nat /\
  lt (right l) (of_Z (start_of k + cur) + of_Z (wz it) + padding o) = (M <? cur + wz it + 2 * p)%Z /\
  (cur <= 2 ^ 44)%Z.
Proof.
  destruct whole_padding as [Hp Bp]. destruct whole_place as [(P1 & P2 & P3) (B1 & B2 & B3 & B4)]. intros I E D C0.
  destruct (whole_widths it (I it (or_introl eq_refl))) as [_ Wb].
  assert (F : List.Forall (fun e => (0 < fst e)%Z) (List.map ext (it :: items))).
  { eapply List.Forall_impl; [|exact (widths_positive (it :: items) I)]. cbn. tauto. }
  destruct (zlines_head p M (List.map ext (it :: items)) k X cur C) as (C' & L & ls' & ps' & Q & G1 & G2); [lia|exact F|].
  rewrite E in Q. injection Q as -> ->.
  assert (Lk : (k < List.length Ls)%nat).
  { apply Nat.nle_gt. intros G. rewrite drop_ge in D by exact G. discriminate. }
  destruct (line_at k Lk) as (El & Ec & _ & Sb).
  assert (EL : extent k = L) by (unfold extent; rewrite <- (Nat.add_0_r k), <- lookup_drop, D; reflexivity).
  split; [exact Lk|]. split; [|lia]. rewrite P2, Hp, !of_Z_add, of_Z_lt by (unfold safe; lia).
  apply (same_break p M (align o) (x0 + p)%Z (x0 + M)%Z (extent k) cur (wz it)); try lia; [exact Ec|].
  rewrite EL. cbn [List.map zlines ext] in E. destruct (Z.ltb_spec M (cur + wz it + 2 * p)) as [Br|Br].
  - left. destruct (zlines _ _ _ _ _ _ _) as [ps1 ls1]. injection E as _ _ E _. lia.
  - right. inversion F as [|? ? _ F']; subst.
    destruct (zlines_head p M (List.map ext items) k X (cur + wz it + p) (Z.max C 0))%Z as (C1 & L1 & ls1 & ps1 & Q1 & G3 & G4); [lia|exact F'|].
    rewrite Q1 in E. injection E as _ _ E _. lia.
Qed.
(** Drawing and adjusting go over the lines as fitting did. *)
Lemma rows_walked items : forall k X cur C ps ls, (forall it, In it items -> In it (legendItems l)) ->
  lines k X cur C (List.map ext items) = (ps, ls) -> drop k Ls = ls -> (0 <= cur)%Z ->
  (Z.of_nat k + Z.of_nat (List.length items) <= 2 ^ 20)%Z ->
  row_positions measure o l false (of_Z (start_of k + cur)) (of_Z (Y + Z.of_nat k * (ih + p))) k items = List.map place ps /\
  adjust_rows o l (of_Z th) k (of_Z (start_of k + cur)) (zip_with box_of items ps)
  = zip_with (fun it q => mkHitbox (leftForLtr (adapter_of o l) (ax (adapter_of o l) (fst (place q))) (of_Z (wz it)))
                            (snd (place q)) (fst (fst q)) (of_Z (wz it)) (of_Z ih)) items ps.
Proof.
  destruct whole_padding as [Hp Bp], whole_height as [Hh Bh]. destruct whole_place as [(P1 & P2 & P3) (B1 & B2 & B3 & B4)].
  induction items as [|it items IH]; intros k X cur C ps ls I E D C0 Kb; [cbn [List.map zlines] in E; injection E as <- <-; split; reflexivity|].
  destruct (line_filled it items k X cur C ps ls I E D C0) as (Lk & T & Cb). cbn [List.length] in Kb.
  destruct (whole_widths it (I it (or_introl eq_refl))) as [Wi Wb]. destruct (line_at k Lk) as (_ & _ & _ & Sb).
  cbn [row_positions]. rewrite Wi, T. cbn [List.map zlines ext] in E. cbn [negb andb].
  destruct (M <? cur + wz it + 2 * p)%Z.
  - destruct (zlines _ _ (S k) _ _ _ _) as [ps1 ls1] eqn:Q. injection E as <- <-.
    assert (D1 : drop (S k) Ls = ls1) by (rewrite <- Nat.add_1_r, <- drop_drop, D; reflexivity).
    destruct (IH (S k) _ (wz it + p)%Z _ ps1 ls1 (fun i J => I i (or_intror J)) Q D1) as [H1 H2]; [lia|lia|].
    assert (Lk1 : (S k < List.length Ls)%nat).
    { apply Nat.nle_gt. intros G. rewrite drop_ge in D1 by exact G. subst ls1.
      destruct (zlines_head p M (List.map ext items) (S k) (X + C + p) (wz it + p) (Z.max 0 0))%Z as (? & ? & ? & ? & Q1 & _); [lia| |congruence].
      eapply List.Forall_impl; [|exact (widths_positive items (fun i J => I i (or_intror J)))]. cbn. tauto. }
    destruct (line_at (S k) Lk1) as (_ & _ & R & Sb1). rewrite R, Hp, Hh. cbn [zip_with List.map]. split.
    + rewrite !of_Z_add by (unfold safe; nia). unfold place at 1. cbn [fst snd]. rewrite Z.add_0_r.
      replace (Y + Z.of_nat k * (ih + p) + (ih + p))%Z with (Y + Z.of_nat (S k) * (ih + p))%Z by lia. now rewrite H1.
    + cbn [adjust_rows box_of line hwidth htop hheight fst snd]. replace (Nat.eqb k (S k)) with false by (symmetry; apply Nat.eqb_neq; lia).
      rewrite R, P3, Hp, !of_Z_add by (unfold safe; nia). rewrite H2. unfold place. cbn [fst snd]. rewrite Z.add_0_r.
      do 3 f_equal. lia.
  - destruct (zlines _ _ k _ _ _ _) as [ps1 ls1] eqn:Q. injection E as <- <-.
    destruct (IH k _ (cur + wz it + p)%Z _ ps1 ls1 (fun i J => I i (or_intror J)) Q D) as [H1 H2]; [lia|lia|].
    rewrite Hp. cbn [zip_with List.map]. split.
    + rewrite !of_Z_add by (unfold safe; lia). unfold place at 1. cbn [fst snd].
      replace (start_of k + cur + (wz it + p))%Z with (start_of k + (cur + wz it + p))%Z by lia. now rewrite H1.
    + cbn [adjust_rows box_of line hwidth htop hheight fst snd]. rewrite Nat.eqb_refl, P3, Hp, !of_Z_add by (unfold safe; nia).
      replace (start_of k + cur + (wz it + p))%Z with (start_of k + (cur + wz it + p))%Z by lia. rewrite H2.
      unfold place. cbn [fst snd]. do 3 f_equal. lia.
Qed.
End Walk.

(** The legend was fitted with the room [M], has its place, and its lines start at whole pixels. *)
Hypothesis fitted : legendHitBoxes l = r_boxes (fit_rows measure o (of_Z M) (of_Z th) (legendItems l)) /\
  lineWidths l = (done (fit_rows measure o (of_Z M) (of_Z th) (legendItems l))
                  ++ [current (fit_rows measure o (of_Z M) (of_Z th) (legendItems l))])%list.
Hypothesis even : String.eqb (align o) "start" = false -> String.eqb (align o) "end" = false ->
  Z.Even p /\ Z.Even M /\ forall it, In it (legendItems l) -> Z.Even (wz it).
Hypothesis titled : _computeTitleHeight o = of_Z th.

Lemma first_row it items : legendItems l = it :: items ->
  let '(ps, Ls) := lines 0 0 (wz it + p) 0 (List.map ext items) in
  lineWidths l = List.map (fun q => of_Z (snd q)) Ls /\
  legendHitBoxes l = box_of it (0%nat, 0, 0)%Z :: zip_with box_of items ps /\
  List.Forall (fun q => (0 <= snd q <= 2 ^ 44)%Z /\ centred (align o) (x0 + p) (x0 + M) (snd q)) Ls /\ (0 < List.length Ls)%nat.
Proof.
  intros E. destruct whole_padding as [Hp Bp], whole_height as [Hh Bh]. destruct fitted as [F1 F2]. unfold fit_rows in F1, F2.
  destruct (whole_widths it) as [Wi Wb]; [rewrite E; now left|].
  assert (I : forall i, In i items -> In i (legendItems l)) by (intros i J; rewrite E; now right).
  assert (S1 : exists t, row_step measure o (of_Z M) (mkRows (of_Z th) [] 0 (- (itemHeight o + padding o)) (-1) []) it
    = mkRows t [] (of_Z (wz it + p)) (of_Z 0) 0 [box_of it (0%nat, 0, 0)%Z]).
  { unfold row_step. cbn [r_boxes orb done current r_top row totalHeight]. rewrite Hp, Hh, Wi.
    assert (T : (- (of_Z ih + of_Z p) + (of_Z ih + of_Z p)) = of_Z 0).
    { rewrite (of_Z_add ih p), of_Z_opp, of_Z_add by (unfold safe; lia). f_equal. lia. }
    assert (W0 : (0 + (of_Z (wz it) + of_Z p)) = of_Z (wz it + p)).
    { change (0 : num) with (of_Z 0). rewrite !of_Z_add by (unfold safe; lia). reflexivity. }
    rewrite T, W0.
    eexists. reflexivity. }
  destruct S1 as [t S1]. rewrite E in F1, F2. cbn [fold_left] in F1, F2. rewrite S1 in F1, F2. pose proof not_too_many as N. rewrite E in N.
  cbn [List.length] in N.
  pose proof (fit_rows_lines items I (mkRows t [] (of_Z (wz it + p)) (of_Z 0) 0 [box_of it (0%nat, 0, 0)%Z]) 0 0 (wz it + p) 0)%Z as R.
  pose proof (zlines_bounds p M (List.map ext items) 0 0 (wz it + p) 0 (2 ^ 44) (widths_positive items I))%Z as B.
  pose proof (zlines_even p M (List.map ext items) 0 0 (wz it + p) 0)%Z as V.
  destruct (lines 0 0 _ 0 _) as [ps Ls] eqn:Q. cbn [snd r_boxes done current row r_top] in *.
  destruct R as [R1 R2]; [discriminate|reflexivity|reflexivity|reflexivity|lia|lia|lia|].
  split; [rewrite F2; exact R1|]. split; [rewrite F1; exact R2|].
  destruct (zlines_head p M (List.map ext items) 0 0 (wz it + p) 0)%Z as (C' & L & ls & ps' & Q' & _); [lia| |].
  { eapply List.Forall_impl; [|exact (widths_positive items I)]. cbn. tauto. }
  split; [|rewrite Q in Q'; injection Q' as -> ->; cbn [List.length]; lia].
  assert (B' : List.Forall (fun q => (0 <= snd q <= 2 ^ 44)%Z) Ls) by (apply B; rewrite ?List.length_map; lia). clear B.
  apply List.Forall_forall. intros q J. rewrite List.Forall_forall in B'. split; [now apply B'|]. intros A1 A2.
  destruct (even A1 A2) as (Ep & EM & Ew).
  assert (V' : List.Forall (fun q => Z.Even (snd q)) Ls).
  { apply V; [|exact Ep|apply even_add; [apply Ew; rewrite E; now left|exact Ep]].
    apply List.Forall_map, List.Forall_forall. intros i Ji. apply Ew, I, Ji. }
  rewrite List.Forall_forall in V'. pose proof (V' q J) as Eq.
  destruct Ep as [p' Ep], EM as [M' EM], Eq as [q' Eq]. exists (x0 + p' + M' - q')%Z. lia.
Qed.

(** The items of a legend in rows are drawn where they are hit: fitted to the room that it
    then gets, a legend of whole measures breaks its rows in drawing exactly where it broke
    them in fitting, in each alignment and text direction, and the place of every item is the
    corner of its hit box. *)
Theorem rows_drawn_where_hit : isHorizontal o = true -> display o = true ->
  exists l' ps, adjustHitBoxes o l = Some l' /\ positions measure o l = Some ps /\
  List.length ps = List.length (legendItems l) /\
  forall i it xy, legendItems l !! i = Some it -> ps !! i = Some xy ->
  exists b, legendHitBoxes l' !! i = Some b /\ htop b = snd xy /\
    hleft b = leftForLtr (adapter_of o l) (ax (adapter_of o l) (fst xy)) (itemWidth measure o it) /\
    hwidth b = itemWidth measure o it /\ hheight b = itemHeight o.
Proof.
  intros Hz Ds. unfold adjustHitBoxes, positions. rewrite Hz, Ds, titled. cbn [negb].
  assert (D : legendItems l = [] \/ exists it items, legendItems l = it :: items) by (destruct (legendItems l); eauto).
  destruct D as [E|(it & items & E)]; rewrite E.
  { eexists. exists []. split; [reflexivity|]. split; [reflexivity|]. split; [reflexivity|]. intros i it xy K. destruct i; discriminate. }
  pose proof (first_row it items E) as R. destruct (lines 0 0 (wz it + p) 0 (List.map ext items)) as [ps Ls] eqn:Q.
  destruct R as (R1 & R2 & R3 & R4). destruct (line_at Ls R1 R3 0 R4) as (_ & _ & S0 & Sb).
  assert (I : forall i, In i items -> In i (legendItems l)) by (intros i J; rewrite E; now right).
  destruct (whole_widths it) as [Wi Wb]; [rewrite E; now left|]. pose proof not_too_many as N. rewrite E in N. cbn [List.length] in N.
  destruct whole_padding as [Hp Bp], whole_height as [Hh Bh]. destruct whole_place as [(P1 & P2 & P3) (B1 & B2 & B3 & B4)].
  destruct (rows_walked Ls R1 R3 items 0 0 (wz it + p) 0 ps Ls I Q eq_refl)%Z as [W1 W2]; [lia|lia|].
  set (a := adapter_of o l) in *.
  assert (A : adjust_rows o l (of_Z th) 0 (row_start o l 0) (legendHitBoxes l)
    = zip_with (fun it q => mkHitbox (leftForLtr a (ax a (fst (place Ls q))) (of_Z (wz it))) (snd (place Ls q)) (fst (fst q))
                              (of_Z (wz it)) (of_Z ih)) (it :: items) ((0%nat, 0, 0)%Z :: ps)).
  { rewrite R2. cbn [adjust_rows box_of line hwidth htop hheight fst snd Nat.eqb zip_with]. rewrite S0, P3, Hp, !of_Z_add by (unfold safe; lia).
    rewrite W2.
    unfold place. cbn [fst snd]. rewrite Z.add_0_r. fold a. do 3 f_equal. lia. }
  assert (B : row_positions measure o l true (row_start o l 0) (top l + padding o + of_Z th) 0 (it :: items)
    = List.map (place Ls) ((0%nat, 0, 0)%Z :: ps)).
  { cbn [row_positions negb andb List.map]. rewrite Wi, S0, P3, Hp, !of_Z_add by (unfold safe; lia).
    replace (y0 + p + th + Z.of_nat 0 * (ih + p))%Z with (y0 + p + th)%Z in W1 by lia. rewrite W1. unfold place at 2. cbn [fst snd].
    rewrite Z.add_0_r. do 2 f_equal. f_equal. lia. }
  rewrite A, B. eexists. eexists. split; [reflexivity|]. split; [reflexivity|].
  pose proof (zlines_length p M (List.map ext items) 0 0 (wz it + p) 0)%Z as Ln. rewrite Q, List.length_map in Ln. cbn [fst] in Ln.
  split; [rewrite List.length_map; cbn [List.length]; congruence|]. intros i it0 xy K1 K2. cbn [with_boxes legendHitBoxes].
  rewrite list_lookup_fmap in K2. apply fmap_Some in K2 as (q & K2 & ->).
  assert (I0 : itemWidth measure o it0 = of_Z (wz it0)).
  { apply whole_widths. rewrite E. apply list_elem_of_In. eapply list_elem_of_lookup_2. exact K1. }
  eexists. rewrite I0, Hh. split; [apply lookup_zip_with_Some; do 2 eexists; split; [reflexivity|]; split; [exact K1|exact K2]|].
  repeat split.
Qed.
End Rows.

(** *** Hovering *)

(** Between events a legend may be changed at will, but for the item it remembers. *)
Inductive action := Event (replay : bool) (e : event) | Change (f : legend -> legend).
Definition act (c : listeners) (l : legend) (a : action) : legend * list call :=
  match a with
  | Event replay e => afterEvent c replay l e
  | Change f => (with_hovered (f l) (_hoveredItem l), [])
  end.
Fixpoint run (c : listeners) (l : legend) (actions : list action) : legend * list call :=
  match actions with
  | [] => (l, [])
  | a :: rest => let '(l1, cs) := act c l a in let '(l2, cs') := run c l1 rest in (l2, cs ++ cs')%list
  end.
(** What a program that listens can rely on: an item is left that was hovered, before
    another is hovered. *)
Definition key (it : item) : nat * option nat := (datasetIndex it, index it).
Fixpoint paired (hovered : option (nat * option nat)) (cs : list call) : option (option (nat * option nat)) :=
  match cs with
  | [] => Some hovered
  | Leave i :: rest => if decide (hovered = Some (key i)) then paired None rest else None
  | Hover i :: rest => if decide (hovered = None) then paired (Some (key i)) rest else None
  | Click _ :: rest => paired hovered rest
  end.
Lemma paired_app cs : forall h cs', paired h (cs ++ cs')%list = (h' ← paired h cs; paired h' cs').
Proof.
  induction cs as [|[i|i|i] cs IH]; intros h cs'; cbn [app paired mbind option_bind]; [reflexivity| | |apply IH];
    destruct (decide _); try reflexivity; apply IH.
Qed.
Lemma itemsEqual_key a b : itemsEqual (Some a) (Some b) = true <-> key a = key b.
Proof.
  unfold itemsEqual, key. rewrite andb_true_iff, Nat.eqb_eq. split.
  - intros [-> E]. f_equal. destruct (index a), (index b); try discriminate; [apply Nat.eqb_eq in E; now subst|reflexivity].
  - intros E. injection E as -> ->. split; [reflexivity|]. destruct (index b); [apply Nat.eqb_refl|reflexivity].
Qed.
Lemma act_paired c l a : onHover c = true -> onLeave c = true ->
  let '(l', cs) := act c l a in paired (option_map key (_hoveredItem l)) cs = Some (option_map key (_hoveredItem l')).
Proof.
  intros H1 H2. destruct a as [[] e|f]; cbn [act afterEvent]; try reflexivity. unfold handleEvent.
  destruct (negb (isListened (e_type e) c)); [reflexivity|]. destruct (String.eqb (e_type e) "mousemove").
  - cbn [with_hovered _hoveredItem]. rewrite H1, H2. cbn [negb]. rewrite !orb_false_r.
    destruct (_hoveredItem l) as [p|], (_getLegendItemAt l (ex e) (ey e)) as [i|]; try reflexivity.
    + destruct (itemsEqual (Some p) (Some i)) eqn:Q; cbn [app paired option_map].
      * apply itemsEqual_key in Q. now rewrite Q.
      * rewrite decide_True by reflexivity. reflexivity.
    + cbn [itemsEqual app paired option_map]. now rewrite decide_True by reflexivity.
  - destruct (_getLegendItemAt l (ex e) (ey e)); reflexivity.
Qed.

(** The hover callbacks of a legend come in pairs: over any sequence of events and of
    changes of the legend between them, onHover is called for an item only when none is
    hovered, and onLeave exactly for the item hovered last; what remains hovered is the item
    the legend remembers. *)
Theorem hover_callbacks_paired c l actions : onHover c = true -> onLeave c = true ->
  let '(l', cs) := run c l actions in
  paired (option_map key (_hoveredItem l)) cs = Some (option_map key (_hoveredItem l')).
Proof.
  intros H1 H2. revert l. induction actions as [|a rest IH]; intros l; cbn [run]; [reflexivity|].
  pose proof (act_paired c l a H1 H2) as A. destruct (act c l a) as [l1 cs]. specialize (IH l1).
  destruct (run c l1 rest) as [l2 cs']. rewrite paired_app, A. exact IH.
Qed.

(** The pointer that leaves the canvas from an item does not leave the item. *)
Lemma mouseout_leaves_hovered l x y c : afterEvent c false l (mkEvent "mouseout" x y) = (l, []).
Proof. destruct c as [[] [] []]; reflexivity. Qed.

(** *** Clicking *)
Lemma last_index_insert (p : Metas.meta -> bool) (ms : list (option Metas.meta)) : forall k i m m',
  nth_error ms k = Some (Some m) -> p m = p m' -> Metas.last_index p (<[k := Some m']> ms) i = Metas.last_index p ms i.
Proof.
  induction ms as [|x ms IH]; intros k i m m' E P; [now destruct k|]. destruct k as [|k].
  - injection E as ->. change (<[0%nat := Some m']> (Some m :: ms)) with (Some m' :: ms). cbn [Metas.last_index]. now rewrite P.
  - change (<[S k := Some m']> (x :: ms)) with (x :: <[k := Some m']> ms). cbn [Metas.last_index]. now rewrite (IH k (S i) m m' E P).
Qed.
Section Clicked.
Context (c : Metas.chart) (i : nat) (d : Metas.dataset) (k : nat) (m : Metas.meta).
Hypothesis dataset_here : nth_error (Metas.datasets c) i = Some d.
Hypothesis meta_here : Metas.getDatasetMeta c i = (c, k) /\ Metas.meta_at c k = Some m.
Abbreviation hide_as b := (Metas.set_meta c k (Metas.mkMeta (Metas.m_id m) (Metas.m_type m) (Metas.controller m) (Some b)
  (Metas.order m) (Metas.m_index m) (Metas.visible m) (Metas._dataset m))).

Lemma meta_nth : nth_error (Metas._metasets c) k = Some (Some m).
Proof.
  destruct meta_here as [_ M]. unfold Metas.meta_at in M. destruct (nth_error _ k) as [[?|]|]; congruence.
Qed.
Lemma get_index b j : Metas.last_index (fun x => Metas.same_dataset (Metas._dataset x) (Metas.dataset_at (hide_as b) j)) (Metas._metasets (hide_as b)) 0
  = Metas.last_index (fun x => Metas.same_dataset (Metas._dataset x) (Metas.dataset_at c j)) (Metas._metasets c) 0.
Proof. apply (last_index_insert _ _ _ _ m); [apply meta_nth|reflexivity]. Qed.
Lemma same_dataset_iff a b : Metas.same_dataset a b = true <-> a = b.
Proof. destruct a, b; cbn; rewrite ?Nat.eqb_eq; split; congruence. Qed.
Lemma its_dataset : Metas._dataset m = Metas.dataset_at c i.
Proof.
  destruct meta_here as [G M]. unfold Metas.getDatasetMeta in G.
  destruct (Metas.last_index _ (Metas._metasets c) 0) as [n|] eqn:L.
  - injection G as ->. apply MetasFacts.last_index_Some in L as (l1 & m' & l2 & E & Lk & P). cbn in Lk. subst k.
    rewrite (MetasFacts.meta_at_split _ _ _ _ E) in M. injection M as ->. now apply same_dataset_iff.
  - exfalso. injection G as E _. apply (f_equal Metas.next_id) in E. cbn in E. lia.
Qed.
Definition vis (c : Metas.chart) (j : nat) : bool := snd (Metas.isDatasetVisible c j).
Lemma vis_after b j : (j < List.length (Metas.datasets c))%nat ->
  vis (hide_as b) j = if decide (Metas.dataset_at c j = Metas.dataset_at c i) then negb b else vis c j.
Proof.
  intros J. unfold vis, Metas.isDatasetVisible. cbn [Metas.set_meta Metas.with_metas Metas.datasets].
  destruct (nth_error (Metas.datasets c) j) as [e|] eqn:E; [|apply nth_error_None in E; lia].
  assert (K : (k < List.length (Metas._metasets c))%nat) by (apply nth_error_Some; rewrite meta_nth; discriminate).
  pose proof its_dataset as Own.   destruct meta_here as [G M]. unfold Metas.getDatasetMeta in G |- *. pose proof (get_index b j) as GI.
  unfold Metas.set_meta in GI |- *. rewrite GI.
  destruct (Metas.last_index (fun x => Metas.same_dataset (Metas._dataset x) (Metas.dataset_at c j)) _ 0) as [n|] eqn:L.
  - cbn [snd]. unfold Metas.meta_at. cbn [Metas.with_metas Metas._metasets]. rewrite !nth_error_lookup.
    destruct (decide (Metas.dataset_at c j = Metas.dataset_at c i)) as [D|D].
    + rewrite D in L. rewrite L in G. injection G as ->. rewrite list_lookup_insert_eq by exact K. reflexivity.
    + assert (N : n <> k).
      { intros ->. apply MetasFacts.last_index_Some in L as (l1 & m' & l2 & El & Lk & P). cbn in Lk. subst k.
        rewrite (MetasFacts.meta_at_split _ _ _ _ El) in M. injection M as ->. apply same_dataset_iff in P.
        congruence. }
      now rewrite list_lookup_insert_ne by congruence.
  - rewrite decide_False.
    + cbn [snd]. unfold Metas.meta_at. cbn [Metas.with_metas Metas._metasets].
      rewrite !nth_error_app2 by (rewrite ?length_insert; lia). now rewrite !length_insert, !Nat.sub_diag.
    + intros D. rewrite D in L. rewrite L in G. injection G as F _. apply (f_equal Metas.next_id) in F. cbn in F. lia.
Qed.
End Clicked.

(** A click on an item toggles its dataset and nothing else: with a controller the click
    succeeds, the dataset is shown if it was hidden and hidden if it was shown, the item says
    so, and every other dataset is as visible as it was. *)
Theorem click_toggles_dataset len c it d k m : nth_error (Metas.datasets c) (datasetIndex it) = Some d ->
  Metas.getDatasetMeta c (datasetIndex it) = (c, k) /\ Metas.meta_at c k = Some m -> Metas.controller m <> None ->
  exists c' it' fx, on_click len c it = Some (c', it', fx) /\
    vis c' (datasetIndex it) = negb (vis c (datasetIndex it)) /\ hidden it' = negb (vis c' (datasetIndex it)) /\
    forall j, (j < List.length (Metas.datasets c))%nat -> Metas.dataset_at c j <> Metas.dataset_at c (datasetIndex it) ->
      vis c' j = vis c j.
Proof.
  intros D [G M] Ct.
  assert (I : (datasetIndex it < List.length (Metas.datasets c))%nat) by (apply nth_error_Some; congruence).
  assert (V : Metas.isDatasetVisible c (datasetIndex it) = (c, vis c (datasetIndex it))).
  { unfold vis, Metas.isDatasetVisible. rewrite D, G. reflexivity. }
  assert (W : forall b, _updateVisibility len c (datasetIndex it) None b = Some (Metas.setDatasetVisibility c (datasetIndex it) b,
    [ResolveAnimations (if b then "show" else "hide"); AnimateVisible b; UpdateChart (if b then "show" else "hide")]%string)).
  { intros b. unfold _updateVisibility. rewrite G, M. destruct (Metas.controller m); [reflexivity|congruence]. }
  unfold on_click, hide, show. rewrite V, !W. unfold Metas.setDatasetVisibility. rewrite G, M.
  destruct (vis c (datasetIndex it)) eqn:Q; cbn [option_map fst snd negb]; do 3 eexists; (split; [reflexivity|]);
    rewrite (vis_after c _ k m (conj G M)) by exact I; rewrite decide_True by reflexivity; cbn [negb];
    (split; [reflexivity|]); (split; [reflexivity|]); intros j J N;
    rewrite (vis_after c _ k m (conj G M)) by exact J; now rewrite decide_False.
Qed.

(** *** The boxes of the plugins *)
Lemma remove_last {S} (same : Layouts.box S -> Layouts.box S -> bool) bs x b :
  (forall y, In y bs -> same y b = false) -> same x b = true -> Layouts.removeBox same (bs ++ [x])%list b = bs.
Proof.
  intros N E. induction bs as [|y bs IH]; cbn [app Layouts.removeBox]; [now rewrite E|].
  rewrite N by now left. f_equal. apply IH. intros z I. apply N. now right.
Qed.
(** A plugin that is stopped leaves the boxes as they were before it was started. *)
Lemma stop_start {S} (same : Layouts.box S -> Layouts.box S -> bool) (h : @BoxPlugin.host S) b pos full w :
  (forall x, In x (BoxPlugin.boxes h) -> forall y, Layouts.own y = Layouts.own b -> same x y = false) ->
  (forall x y, Layouts.own x = Layouts.own b -> Layouts.own y = Layouts.own b -> same x y = true) ->
  BoxPlugin.boxes (BoxPlugin.stop same (BoxPlugin.start h b pos full w)) = BoxPlugin.boxes h.
Proof.
  intros N E. unfold BoxPlugin.stop, BoxPlugin.start. cbn [BoxPlugin.block BoxPlugin.boxes]. unfold Layouts.addBox.
  apply remove_last; [intros y I; now apply N|now apply E].
Qed.

(** *** A legend *)
Section Example.
Local Open Scope string_scope.
Definition two_rows_opts : opts :=
  let f := Options.mkFont (VStr "Helvetica") 14 (VNum 12) (VStr "") (VStr "") (Some "12px Helvetica"%string) in
  mkOpts true "top" "center" false false 0 0 10 (Some 40) None false f 12 (VStr "#666") ""
    (mkTitleOpts false f 12 (VNum 0) "center" "" (VStr "#666")) (VStr "rgba(0,0,0,0.1)").
Definition item_of (s : string) (i : nat) : item :=
  mkItem s (Some (VStr "red")) None false None None None None (Some 3) (Some (VStr "blue")) Canvas.OtherStyle 0 "" (VNum 0) i None.
End Example.
Definition ten (s : string) : num := of_Z (10 * Z.of_nat (String.length s)).
(** Three items in a room for two, placed where they were fitted. *)
Definition two_rows : legend :=
  let l := mkLegend 0 0 0 0 0 0 0 0 0 0 [] [] [] [] None in
  let l := update ten two_rows_opts [item_of "One" 0; item_of "Twenty" 1; item_of "Three" 2] None None l 220 100 0 0 in
  mkLegend 0 220 0 (height l) 220 (height l) 220 100 0 0 (legendItems l) (legendHitBoxes l) (lineWidths l) (columnSizes l) None.
Lemma rows_drawn_where_hit_witness :
  exists l' ps, adjustHitBoxes two_rows_opts two_rows = Some l' /\ positions ten two_rows_opts two_rows = Some ps /\
  List.length ps = 3%nat /\ List.map (fun b => htop b) (legendHitBoxes l') = [10; 10; 32].
Proof.
  assert (T : 3%nat = List.length (legendItems two_rows)) by (vm_compute; reflexivity).
  destruct (rows_drawn_where_hit ten two_rows_opts two_rows 10 12 0 0 0 220
    (fun it => 46 + 10 * Z.of_nat (String.length (text it)))%Z) as (l' & ps & A & P & L & _).
  all: try (vm_compute; (split; [reflexivity|]); split; congruence).
  - intros it I. vm_compute in I. destruct I as [<-|[<-|[<-|[]]]]; vm_compute; (split; [reflexivity|]); split; congruence.
  - vm_compute. discriminate.
  - vm_compute. repeat split; congruence.
  - intros _ _. split; [exists 5%Z; lia|]. split; [exists 110%Z; lia|]. intros it _. exists (23 + 5 * Z.of_nat (String.length (text it)))%Z. lia.
  - reflexivity.
  - reflexivity.
  - reflexivity.
  - exists l', ps. split; [exact A|]. split; [exact P|]. split; [congruence|]. clear - A.
    enough (Q : option_map (fun l => List.map (fun b => htop b) (legendHitBoxes l)) (adjustHitBoxes two_rows_opts two_rows)
                = Some [10; 10; 32]) by (rewrite A in Q; now injection Q).
    vm_compute. reflexivity.
Defined.
(** The pointer goes over the first item, to the third and off the legend. *)
Definition placed : legend := match adjustHitBoxes two_rows_opts two_rows with Some l => l | None => two_rows end.
Definition moves : list action :=
  let move x y := Event false (mkEvent "mousemove" x y) in
  [move 40 15; move 45 15; move 110 35; Event true (mkEvent "click" 110 35); move 300 300].
Definition all : listeners := mkListeners true true true.
Lemma hover_callbacks_paired_witness :
  snd (run all placed moves)
  = [Hover (item_of "One" 0); Leave (item_of "One" 0); Hover (item_of "Three" 2); Leave (item_of "Three" 2)] /\
  paired None (snd (run all placed moves)) = Some None.
Proof.
  assert (R : snd (run all placed moves)
    = [Hover (item_of "One" 0); Leave (item_of "One" 0); Hover (item_of "Three" 2); Leave (item_of "Three" 2)])
    by (vm_compute; reflexivity).
  assert (N : _hoveredItem placed = None) by (vm_compute; reflexivity).
  assert (N' : _hoveredItem (fst (run all placed moves)) = None) by (vm_compute; reflexivity).
  split; [exact R|]. pose proof (hover_callbacks_paired all placed moves eq_refl eq_refl) as P. rewrite N in P.
  destruct (run all placed moves) as [l' cs]. cbn [fst snd] in *. rewrite N' in P. exact P.
Defined.
Lemma click_toggles_dataset_witness :
  let c := MetasFacts.two_charts in
  exists c' it' fx, on_click 3 c (item_of "One" 1) = Some (c', it', fx) /\ vis c' 1 = negb (vis c 1) /\ vis c' 0 = vis c 0.
Proof.
  intros c. destruct (click_toggles_dataset 3 c (item_of "One" 1)
    (match nth_error (Metas.datasets c) 1 with Some d => d | None => Metas.mkDataset 0 None 0 false end) 1
    (match Metas.meta_at c 1 with Some m => m | None => Metas.new_meta c 1 end)) as (c' & it' & fx & A & V & _ & O).
  - vm_compute. reflexivity.
  - split; vm_compute; reflexivity.
  - vm_compute. discriminate.
  - exists c', it', fx. split; [exact A|]. split; [exact V|]. apply O; [apply Nat.ltb_lt; vm_compute; reflexivity|]. vm_compute. discriminate.
Defined.
End LegendFacts.
