(* ===== verification/TooltipPlugin.v ===== *)
(** The tooltip of webui/public/chart.js as a component: its items and texts, the events and
    calls that change what it shows, the requests it makes of its animations, and drawing.

    The elements, the controllers and the interaction modes are read through a [world]; the
    tooltip's options are resolved by a function of the items in its context. *)
From Stdlib Require Import ZArith Lia Bool List Ascii String.
From Stdlib Require Import SpecFloat.
From stdpp Require Import base list.
From S2P Require Import Prelude JsNumber JsString NumExact JsArray JsValue HelpersCore HelpersMath Options Interaction Canvas Elements Segments Tooltip.
Import ListNotations.
Open Scope Z_scope.

Module TooltipPlugin.
Import Js MathH Canvas Rtl Core Tooltip.
Local Open Scope js_scope.
Local Notation "'let?' p := a 'in' b" := (match a with Some p => b | None => None end)
  (at level 10, p strict pattern, a at level 200, b at level 200).

(** ** Items and texts *)

(** The style of an element as [getStyle] gives it. *)
Record istyle := mkIstyle {
  borderColor : value; backgroundColor : value; borderWidth : num; borderDash : value; borderDashOffset : num;
  pointStyle : point_style; rotation : num }.
Record colors := mkColors {
  c_borderColor : value; c_backgroundColor : value; c_borderWidth : num; c_borderDash : value; c_borderDashOffset : num;
  c_borderRadius : value }.
(** An item; [labels] are the chart's, [formattedValue] may be undefined. *)
Record titem := mkItem {
  label : string; formattedValue : option string; dataset_label : string; dataIndex : Z; datasetIndex_ : Z;
  labels : list string; item_style : istyle }.

(** [splitNewlines]: only texts with a newline are split. *)
Definition newline : ascii := "010"%char.
Fixpoint split_lines (s : string) (line : string) : list string :=
  match s with
  | EmptyString => [line]
  | String c r => if Ascii.eqb c newline then line :: split_lines r "" else split_lines r (line ++ String c "")%string
  end.
Fixpoint has_newline (s : string) : bool :=
  match s with EmptyString => false | String c r => Ascii.eqb c newline || has_newline r end.
Definition splitNewlines (v : value) : value :=
  match v with
  | VStr s => if has_newline s then VArr (List.map VStr (split_lines s "")) else v
  | _ => v
  end.
Definition getBeforeAfterBodyLines (v : value) : list value := pushOrConcat [] (splitNewlines v).

(** The callbacks; None is a value that is not an object. *)
Record callbacks := mkCallbacks {
  beforeTitle : list titem -> value; title_ : list titem -> value; afterTitle : list titem -> value;
  beforeBody_ : list titem -> value; beforeLabel : titem -> value; label_ : titem -> value;
  labelColor : titem -> option colors; labelTextColor : titem -> value; labelPointStyle : titem -> option (point_style * num);
  afterLabel : titem -> value; afterBody_ : list titem -> value;
  beforeFooter : list titem -> value; footer_ : list titem -> value; afterFooter : list titem -> value }.

Section Defaults.
Context (mode : string) (bodyColor : value).
Definition noop {A} (_ : A) : value := Undefined.
Definition default_title (items : list titem) : value :=
  match items with
  | it :: _ =>
      if String.eqb mode "dataset" then VStr (dataset_label it)
      else if negb (String.eqb (label it) "") then VStr (label it)
      else if (0 <? lengthZ (labels it))%Z && (dataIndex it <? lengthZ (labels it))%Z
      then match nthZ (labels it) (dataIndex it) with Some s => VStr s | None => Undefined end
      else VStr ""
  | [] => VStr ""
  end.
(** [a + ': ' + b || b] is [(a + ': ' + b) || b]; an undefined value is printed. *)
Definition default_label (it : titem) : value :=
  if String.eqb mode "dataset" then
    VStr (label it ++ ": " ++ match formattedValue it with Some s => s | None => "undefined" end)%string
  else
    let l := dataset_label it in
    let l := (if String.eqb l "" then l else l ++ ": ")%string in
    VStr (match formattedValue it with Some s => (l ++ s)%string | None => l end).
Definition default_labelColor (it : titem) : option colors :=
  let s := item_style it in
  Some (mkColors (borderColor s) (backgroundColor s) (borderWidth s) (borderDash s) (borderDashOffset s) (VNum 0)).
Definition default_labelPointStyle (it : titem) : option (point_style * num) :=
  Some (pointStyle (item_style it), rotation (item_style it)).
Definition default_callbacks : callbacks :=
  mkCallbacks noop default_title noop noop noop default_label default_labelColor (fun _ => bodyColor)
    default_labelPointStyle noop noop noop noop noop.
End Defaults.

(** ** Options *)
Inductive prop := Opacity | X | Y | Width | Height | CaretX | CaretY.
#[export] Instance prop_eq : EqDecision prop.
Proof. solve_decision. Defined.
(** What the options give; [animates] are the properties that [options.animations] animates
    when animations are enabled. *)
Record style := mkStyle {
  base : options; enabled : bool; external : bool; position : string; o_reverse : bool; filter : option (titem -> bool);
  itemSort : option (titem -> titem -> num); cbs : callbacks; override_ : titem -> option (callbacks -> callbacks);
  titleAlign : string; titleColor : value; bodyAlign : string; o_bodyColor : value; footerAlign : string; footerColor : value;
  usePointStyle : bool; multiKeyBackground : value; o_backgroundColor : value; o_borderColor : value; o_borderWidth : num;
  rtl : bool; animates : prop -> bool; cacheable : bool }.

Definition overrideCallbacks (o : style) (it : titem) : callbacks :=
  match override_ o it with Some f => f (cbs o) | None => cbs o end.

(** ** State *)
Record geom := mkGeom { opacity : num; gx : num; gy : num; gwidth : num; gheight : num; caretX : num; caretY : num }.
Definition get (g : geom) (p : prop) : num :=
  match p with
  | Opacity => opacity g | X => gx g | Y => gy g | Width => gwidth g | Height => gheight g | CaretX => caretX g | CaretY => caretY g
  end.
Definition put (g : geom) (p : prop) (v : num) : geom :=
  let f q := if decide (p = q) then v else get g q in
  mkGeom (f Opacity) (f X) (f Y) (f Width) (f Height) (f CaretX) (f CaretY).
(** [text_] is undefined until the first update; [anims] are the ends of [$animations];
    [context] are the items of the cached context. *)
Record tooltip := mkTooltip {
  geometry : geom; _active : list active; _eventPosition : option point; _tooltipItems : list titem; context : option (list titem);
  text_ : option text; xAlign : string; yAlign : string; labelColors : list (option colors);
  labelPointStyles : list (option (point_style * num)); labelTextColors : list value; dataPoints : list titem;
  anims : prop -> option num; _cachedAnimations : option (prop -> bool); _ignoreReplayEvents : bool }.
Definition new_tooltip : tooltip :=
  mkTooltip (mkGeom 0 Num.nan Num.nan Num.nan Num.nan Num.nan Num.nan) [] None [] None None "" "" [] [] [] []
    (fun _ => None) None false.
Definition initialize (t : tooltip) : tooltip :=
  mkTooltip (geometry t) (_active t) (_eventPosition t) (_tooltipItems t) None (text_ t) (xAlign t) (yAlign t) (labelColors t)
    (labelPointStyles t) (labelTextColors t) (dataPoints t) (anims t) None (_ignoreReplayEvents t).
Definition with_context (t : tooltip) (c : option (list titem)) : tooltip :=
  mkTooltip (geometry t) (_active t) (_eventPosition t) (_tooltipItems t) c (text_ t) (xAlign t) (yAlign t) (labelColors t)
    (labelPointStyles t) (labelTextColors t) (dataPoints t) (anims t) (_cachedAnimations t) (_ignoreReplayEvents t).
Definition with_anims (t : tooltip) (g : geom) (a : prop -> option num) (cached : option (prop -> bool)) : tooltip :=
  mkTooltip g (_active t) (_eventPosition t) (_tooltipItems t) (context t) (text_ t) (xAlign t) (yAlign t) (labelColors t)
    (labelPointStyles t) (labelTextColors t) (dataPoints t) a cached (_ignoreReplayEvents t).
Definition with_active (t : tooltip) (a : list active) (e : option point) (ignore : bool) : tooltip :=
  mkTooltip (geometry t) a e (_tooltipItems t) (context t) (text_ t) (xAlign t) (yAlign t) (labelColors t)
    (labelPointStyles t) (labelTextColors t) (dataPoints t) (anims t) (_cachedAnimations t) ignore.
Definition with_items (t : tooltip) (items : list titem) (o : style) : tooltip :=
  mkTooltip (geometry t) (_active t) (_eventPosition t) (_tooltipItems t) (context t) (text_ t) (xAlign t) (yAlign t)
    (List.map (fun it => labelColor (overrideCallbacks o it) it) items)
    (List.map (fun it => labelPointStyle (overrideCallbacks o it) it) items)
    (List.map (fun it => labelTextColor (overrideCallbacks o it) it) items) items (anims t) (_cachedAnimations t)
    (_ignoreReplayEvents t).
Definition with_text (t : tooltip) (x : text) (alignment : string * string) : tooltip :=
  mkTooltip (geometry t) (_active t) (_eventPosition t) (_tooltipItems t) (context t) (Some x) (fst alignment) (snd alignment)
    (labelColors t) (labelPointStyles t) (labelTextColors t) (dataPoints t) (anims t) (_cachedAnimations t) (_ignoreReplayEvents t).
Definition with_tooltipItems (t : tooltip) (items : list titem) : tooltip :=
  mkTooltip (geometry t) (_active t) (_eventPosition t) items None (text_ t) (xAlign t) (yAlign t)
    (labelColors t) (labelPointStyles t) (labelTextColors t) (dataPoints t) (anims t) (_cachedAnimations t) (_ignoreReplayEvents t).

(** ** The lines *)
Definition lines_of (v : list value) : list string := List.map to_str v.
Definition push_all (vs : list value) : list string := lines_of (fold_left (fun l v => pushOrConcat l (splitNewlines v)) vs []).
Definition getTitle (o : style) (items : list titem) : list string :=
  let c := cbs o in push_all [beforeTitle c items; title_ c items; afterTitle c items].
Definition getBeforeBody (o : style) (items : list titem) : list string := lines_of (getBeforeAfterBodyLines (beforeBody_ (cbs o) items)).
Definition getBody (o : style) (items : list titem) : list body_item :=
  List.map (fun it =>
    let scoped := overrideCallbacks o it in
    mkBody (push_all [beforeLabel scoped it]) (lines_of (pushOrConcat [] (label_ scoped it))) (push_all [afterLabel scoped it])) items.
Definition getAfterBody (o : style) (items : list titem) : list string := lines_of (getBeforeAfterBodyLines (afterBody_ (cbs o) items)).
Definition getFooter (o : style) (items : list titem) : list string :=
  let c := cbs o in push_all [beforeFooter c items; footer_ c items; afterFooter c items].
Definition text_of (o : style) (items : list titem) : text :=
  mkText (getTitle o items) (getBeforeBody o items) (getBody o items) (getAfterBody o items) (getFooter o items).

(** ** The rest of the chart as the tooltip finds it *)
Record event := mkEvent { e_type : string; e_x : num; e_y : num }.
Record world {E : Type} := mkWorld {
  (** The element of an active item; [meta.data[index]] may be undefined. *)
  element : active -> option E;
  (** Does the dataset have a controller, and what it gives for an item. *)
  controlled : Z -> bool; item_of : active -> titem;
  chart_ : tchart;
  (** [getElementsAtEventForMode] with the tooltip's mode. *)
  elements_at : event -> bool -> list active;
  (** A positioner registered beside the two of the source. *)
  custom : string -> option (list (option E) -> option point -> option point);
  (** The options resolved for the items of a context, and without one. *)
  options_ : list titem -> style; plain : style }.
Arguments world : clear implicits.

Inductive effect := External (replay : bool).

Section Component.
Context {E : Type} `{MathLib} `{TipOps E} (measure : string -> string -> num) (w : world E).

Definition getContext (t : tooltip) : tooltip * list titem :=
  match context t with
  | Some items => (t, items)
  | None => (with_context t (Some (_tooltipItems t)), _tooltipItems t)
  end.
(** The outer option is None for a TypeError: no such positioner, or no event position for
    one that needs it; the inner one is None for [false]. *)
Definition positioner (name : string) (els : list (option E)) (e : option point) : option (option point) :=
  if String.eqb name "average" then Some (average els)
  else if String.eqb name "nearest" then
    match els, e with
    | [], _ => Some None
    | _, Some e => Some (nearest els e)
    | _, None => None
    end
  else match custom w name with Some f => Some (f els e) | None => None end.
Definition position_at (o : style) (active : list active) (e : option point) : option (option point) :=
  positioner (position o) (List.map (element w) active) e.

Definition createTooltipItem (a : active) : option titem :=
  if controlled w (datasetIndex a) then Some (item_of w a) else None.
Definition _createItems (o : style) (t : tooltip) : option (tooltip * list titem) :=
  let? items := mapM createTooltipItem (_active t) in
  let items := match filter o with Some p => List.filter p items | None => items end in
  let items := match itemSort o with Some c => sort_by c items | None => items end in
  Some (with_items t items o, items).

(** [Animations.update]: a property that is animated gets an animation to its value, the
    others are set. *)
Definition _resolveAnimations (t : tooltip) : tooltip * (prop -> bool) :=
  match _cachedAnimations t with
  | Some a => (t, a)
  | None =>
      let '(t, items) := getContext t in
      let o := options_ w items in
      (if cacheable o then with_anims t (geometry t) (anims t) (Some (animates o)) else t, animates o)
  end.
Definition request (animated : prop -> bool) (t : tooltip) (p : prop) (v : num) : tooltip :=
  if animated p then with_anims t (geometry t) (fun q => if decide (p = q) then Some v else anims t q) (_cachedAnimations t)
  else with_anims t (put (geometry t) p v) (anims t) (_cachedAnimations t).
Definition animate (t : tooltip) (l : list (prop * num)) : tooltip :=
  let '(t, animated) := _resolveAnimations t in
  fold_left (fun t pv => request animated t (fst pv) (snd pv)) l t.

(** Where a tooltip of some text is to be: its size, its alignment and its corner. *)
Definition target (o : style) (x : text) (pos : point) : num * num * (string * string) * point :=
  let '(tw, th) := getTooltipSize measure x (base o) in
  let s := mkSize (MathH.x pos) (MathH.y pos) tw th "" "" in
  let a := determineAlignment (chart_ w) (base o) s in
  (tw, th, a, getBackgroundPoint (base o) s a (chart_ w)).
Definition undefined_point : point := mkPoint Num.nan Num.nan.

Definition update (t : tooltip) (changed replay : bool) : option (tooltip * list effect) :=
  let '(t, ctx) := getContext t in
  let o := options_ w ctx in
  let? (t, items, properties) :=
    (match _active t with
     | [] => Some (t, [], if opacity (geometry t) =? 0 then None else Some [(Opacity, 0 : num)])
     | _ =>
         let? pos := position_at o (_active t) (_eventPosition t) in
         let? (t, items) := _createItems o t in
         let x := text_of o items in
         let p := match pos with Some p => p | None => undefined_point end in
         let '(tw, th, a, b) := target o x p in
         Some (with_text t x a, items,
               Some [(Opacity, 1 : num); (X, MathH.x b); (Y, MathH.y b); (Width, tw); (Height, th);
                     (CaretX, MathH.x p); (CaretY, MathH.y p)])
     end) in
  let t := with_tooltipItems t items in
  let t := match properties with Some l => animate t l | None => t end in
  Some (t, if changed && external o then [External replay] else []).

(** ** Events and calls *)
Definition _positionChanged (t : tooltip) (active : list active) (e : option point) : option bool :=
  let? pos := position_at (plain w) active e in
  Some (match pos with
        | Some p => negb (caretX (geometry t) =? MathH.x p) || negb (caretY (geometry t) =? MathH.y p)
        | None => false
        end).
Definition _getActiveElements (e : event) (lastActive : list active) (replay inChartArea : bool) : list active :=
  if String.eqb (e_type e) "mouseout" then []
  else if negb inChartArea then lastActive
  else let l := elements_at w e replay in if o_reverse (plain w) then List.rev l else l.
Definition handleEvent (t : tooltip) (e : event) (replay inChartArea : bool) : option (tooltip * bool * list effect) :=
  if replay && _ignoreReplayEvents t then Some (t, false, [])
  else
    let t := with_active t (_active t) (_eventPosition t) false in
    let lastActive := _active t in
    let active := _getActiveElements e lastActive replay inChartArea in
    let at_ := Some (mkPoint (e_x e) (e_y e)) in
    let? moved := _positionChanged t active at_ in
    let changed := replay || negb (_elementsEqual (Some active) (Some lastActive)) || moved in
    if changed then
      let t := with_active t active (_eventPosition t) false in
      if enabled (plain w) || external (plain w) then
        let? (t, fx) := update (with_active t active at_ false) true replay in
        Some (t, true, fx)
      else Some (t, true, [])
    else Some (t, false, []).
(** [Chart.getDatasetMeta] makes the meta that is missing: the error of a dataset that is not
    there is never thrown. *)
Definition setActiveElements (t : tooltip) (activeElements : list active) (eventPosition : option point)
    : option (tooltip * list effect) :=
  let changed := negb (_elementsEqual (Some (_active t)) (Some activeElements)) in
  let? moved := _positionChanged t activeElements eventPosition in
  if changed || moved then update (with_active t activeElements eventPosition true) true false else Some (t, []).
Definition afterEvent (t : tooltip) (e : event) (replay inChartArea : bool) (args_changed : bool)
    : option (tooltip * bool * list effect) :=
  let? (t, changed, fx) := handleEvent t e replay inChartArea in
  Some (t, args_changed || changed, fx).

(** ** Drawing *)
Definition adapter_of (o : style) (g : geom) : adapter := getRtlAdapter (rtl o) (gx g) (gwidth g).
Definition aligned (o : style) (g : geom) (align : string) : num := getAlignedX (gx g) (gwidth g) align (tpadding (base o)).
Definition font_of (f : tfont) : cmd := Set_ "font" (VStr (fstring f)).
Definition text_at (s : string) (x y : num) : cmd := FillText s x y None.

(** Lines one under the other from [y]; gives the [y] after the last. *)
Fixpoint drawLines (lines : list string) (x y half step : num) : list cmd * num :=
  match lines with
  | [] => ([], y)
  | s :: rest => let '(c, y') := drawLines rest x (y + step) half step in (text_at s x (y + half) :: c, y')
  end.
Definition drawTitle (o : style) (g : geom) (x : text) (y : num) : list cmd * num :=
  match title x with
  | [] => ([], y)
  | _ =>
      let a := adapter_of o g in
      let f := titleFont (base o) in
      let '(c, y) := drawLines (title x) (ax a (aligned o g (titleAlign o))) y (lineHeight f / 2) (lineHeight f + titleSpacing (base o)) in
      ([Set_ "textAlign" (VStr (Rtl.textAlign a (titleAlign o))); Set_ "textBaseline" (VStr "middle");
        Set_ "fillStyle" (titleColor o); font_of f] ++ c, y + (titleMarginBottom (base o) - titleSpacing (base o)))%list
  end.
Definition drawFooter (o : style) (g : geom) (x : text) (y : num) : list cmd * num :=
  match footer x with
  | [] => ([], y)
  | _ =>
      let a := adapter_of o g in
      let f := footerFont (base o) in
      let '(c, y) := drawLines (footer x) (ax a (aligned o g (footerAlign o))) (y + footerMarginTop (base o)) (lineHeight f / 2)
                       (lineHeight f + footerSpacing (base o)) in
      ([Set_ "textAlign" (VStr (Rtl.textAlign a (footerAlign o))); Set_ "textBaseline" (VStr "middle");
        Set_ "fillStyle" (footerColor o); font_of f] ++ c, y)%list
  end.

(** None: the color or the point style of the item is not an object, a TypeError. *)
Definition _drawColorBox (o : style) (t : tooltip) (y : num) (i : nat) : option (list cmd) :=
  let b := base o in
  let a := adapter_of o (geometry t) in
  let rtlColorX := ax a (aligned o (geometry t) "left") in
  let lh := lineHeight (bodyFont b) in
  let colorY := y + (if boxHeight b <? lh then (lh - boxHeight b) / 2 else 0) in
  let text_color := Set_ "fillStyle" (match labelTextColors t !! i with Some c => c | None => Undefined end) in
  if usePointStyle o then
    let? st := (let? st := labelPointStyles t !! i in st) in
    let p := mkPointOptions (fst st) (snd st) (Num.min (boxWidth b) (boxHeight b) / 2) 1 in
    let centerX := leftForLtr a rtlColorX (boxWidth b) + boxWidth b / 2 in
    let centerY := colorY + boxHeight b / 2 in
    let? c := (let? c := labelColors t !! i in c) in
    Some ([Set_ "strokeStyle" (multiKeyBackground o); Set_ "fillStyle" (multiKeyBackground o)] ++ drawPoint p centerX centerY ++
          [Set_ "strokeStyle" (c_borderColor c); Set_ "fillStyle" (c_backgroundColor c)] ++ drawPoint p centerX centerY ++
          [text_color])%list
  else
    let? c := (let? c := labelColors t !! i in c) in
    let outerX := leftForLtr a rtlColorX (boxWidth b - boxPadding b) in
    let innerX := leftForLtr a (xPlus a rtlColorX 1) (boxWidth b - boxPadding b - 2) in
    let r := Options.toTRBLCorners (c_borderRadius c) in
    let nonzero v := negb (v =? 0) in
    let pen := [Set_ "lineWidth" (VNum (if falsy (c_borderWidth c) then 1 else c_borderWidth c)); Set_ "strokeStyle" (c_borderColor c);
                SetLineDash (if JsValue.Js.truthy (c_borderDash c) then c_borderDash c else VArr []);
                Set_ "lineDashOffset" (VNum (if falsy (c_borderDashOffset c) then 0 else c_borderDashOffset c))] in
    if nonzero (Options.topLeft r) || nonzero (Options.topRight r) || nonzero (Options.bottomLeft r) || nonzero (Options.bottomRight r)
    then
      Some (pen ++ [BeginPath; Set_ "fillStyle" (multiKeyBackground o)] ++
            addRoundedRectPath (mkRounded outerX colorY (boxWidth b) (boxHeight b) r) ++
            [Fill; Stroke; Set_ "fillStyle" (c_backgroundColor c); BeginPath] ++
            addRoundedRectPath (mkRounded innerX (colorY + 1) (boxWidth b - 2) (boxHeight b - 2) r) ++ [Fill; text_color])%list
    else
      Some (pen ++ [Set_ "fillStyle" (multiKeyBackground o); FillRect outerX colorY (boxWidth b) (boxHeight b);
                    StrokeRect outerX colorY (boxWidth b) (boxHeight b); Set_ "fillStyle" (c_backgroundColor c);
                    FillRect innerX (colorY + 1) (boxWidth b - 2) (boxHeight b - 2); text_color])%list.

Definition bodyAlignForCalculation (o : style) (g : geom) : string := Rtl.textAlign (adapter_of o g) (bodyAlign o).
Definition xLinePadding (o : style) (g : geom) : num :=
  let b := base o in
  if displayColors b && negb (String.eqb (bodyAlignForCalculation o g) "right")
  then if String.eqb (bodyAlign o) "center" then boxWidth b / 2 + boxPadding b else boxWidth b + 2 + boxPadding b
  else 0.
(** One item: the first of its lines is as high as its box. *)
Definition drawItem (o : style) (t : tooltip) (x xp y : num) (i : nat) (it : body_item) : option (list cmd * num) :=
  let b := base o in
  let a := adapter_of o (geometry t) in
  let lh := lineHeight (bodyFont b) in
  let at_ := ax a (x + xp) in
  let '(c1, y) := drawLines (before it) at_ y (lh / 2) (lh + bodySpacing b) in
  let? (c2, y) :=
    (match lines it with
     | [] => Some ([], y)
     | first :: rest =>
         if displayColors b then
           let? box := _drawColorBox o t y i in
           let h := Num.max lh (boxHeight b) in
           let '(c, y') := drawLines rest at_ (y + (h + bodySpacing b)) (lh / 2) (lh + bodySpacing b) in
           Some (box ++ text_at first at_ (y + h / 2) :: c, y')%list
         else Some (drawLines (lines it) at_ y (lh / 2) (lh + bodySpacing b))
     end) in
  let '(c3, y) := drawLines (after it) at_ y (lh / 2) (lh + bodySpacing b) in
  Some (Set_ "fillStyle" (match labelTextColors t !! i with Some c => c | None => Undefined end) :: c1 ++ c2 ++ c3, y)%list.
Fixpoint drawItems (o : style) (t : tooltip) (x xp y : num) (i : nat) (items : list body_item) : option (list cmd * num) :=
  match items with
  | [] => Some ([], y)
  | it :: rest =>
      let? (c, y) := drawItem o t x xp y i it in
      let? (c', y) := drawItems o t x xp y (S i) rest in
      Some (c ++ c', y)%list
  end.
Definition drawBody (o : style) (t : tooltip) (x : text) (y : num) : option (list cmd * num) :=
  let b := base o in
  let g := geometry t in
  let a := adapter_of o g in
  let lh := lineHeight (bodyFont b) in
  let px := aligned o g (bodyAlignForCalculation o g) in
  let '(c1, y) := drawLines (beforeBody x) (ax a (px + 0)) y (lh / 2) (lh + bodySpacing b) in
  let? (c2, y) := drawItems o t px (xLinePadding o g) y 0 (body x) in
  let '(c3, y) := drawLines (afterBody x) (ax a (px + 0)) y (lh / 2) (lh + bodySpacing b) in
  Some ([Set_ "textAlign" (VStr (bodyAlign o)); Set_ "textBaseline" (VStr "middle"); font_of (bodyFont b);
         Set_ "fillStyle" (o_bodyColor o)] ++ c1 ++ c2 ++ c3, y - bodySpacing b)%list.

Definition drawCaret (t : tooltip) (o : style) (x y tw th : num) : list cmd :=
  let c := getCaretPosition (xAlign t) (yAlign t) (caretX (geometry t)) (mkPoint x y) tw th (base o) in
  [LineTo (x1 c) (y1 c); LineTo (x2 c) (y2 c); LineTo (x3 c) (y3 c)].
Definition drawBackground (t : tooltip) (o : style) (x y tw th : num) : list cmd :=
  let c := Options.toTRBLCorners (cornerRadius (base o)) in
  let on ya (xa : option string) := String.eqb (yAlign t) ya && match xa with Some s => String.eqb (xAlign t) s | None => true end in
  let caret (b : bool) := if b then drawCaret t o x y tw th else [] in
  ([Set_ "fillStyle" (o_backgroundColor o); Set_ "strokeStyle" (o_borderColor o); Set_ "lineWidth" (VNum (o_borderWidth o));
    BeginPath; MoveTo (x + Options.topLeft c) y] ++ caret (on "top"%string None) ++
   [LineTo (x + tw - Options.topRight c) y; QuadraticCurveTo (x + tw) y (x + tw) (y + Options.topRight c)] ++
   caret (on "center"%string (Some "right"%string)) ++
   [LineTo (x + tw) (y + th - Options.bottomRight c); QuadraticCurveTo (x + tw) (y + th) (x + tw - Options.bottomRight c) (y + th)] ++
   caret (on "bottom"%string None) ++
   [LineTo (x + Options.bottomLeft c) (y + th); QuadraticCurveTo x (y + th) x (y + th - Options.bottomLeft c)] ++
   caret (on "center"%string (Some "left"%string)) ++
   [LineTo x (y + Options.topLeft c); QuadraticCurveTo x y (x + Options.topLeft c) y; ClosePath; Fill] ++
   if 0 <? o_borderWidth o then [Stroke] else [])%list.

(** While its place is animated a tooltip follows its elements. *)
Definition moved_to (t : tooltip) (a : string * string) (tw th : num) (p : point) : tooltip :=
  let g := geometry t in
  mkTooltip (mkGeom (opacity g) (gx g) (gy g) tw th (MathH.x p) (MathH.y p)) (_active t) (_eventPosition t) (_tooltipItems t)
    (context t) (text_ t) (fst a) (snd a) (labelColors t) (labelPointStyles t) (labelTextColors t) (dataPoints t) (anims t)
    (_cachedAnimations t) (_ignoreReplayEvents t).
Definition _updateAnimationTarget (o : style) (t : tooltip) : option tooltip :=
  match anims t X, anims t Y with
  | None, None => Some t
  | ax_, ay_ =>
      let? pos := position_at o (_active t) (_eventPosition t) in
      match pos with
      | None => Some t
      | Some p =>
          let? x := text_ t in
          let '(tw, th, a, b) := target o x p in
          let? tx := ax_ in
          let? differs := (if negb (tx =? MathH.x b) then Some true else option_map (fun ty => negb (ty =? MathH.y b)) ay_) in
          Some (if (differs : bool) then animate (moved_to t a tw th p) [(X, MathH.x b); (Y, MathH.y b)] else t)
      end
  end.
(** [overrideTextDirection] and its restoration are around the text; see Segments.v. *)
Definition draw (t : tooltip) : option (tooltip * list cmd) :=
  let '(t, ctx) := getContext t in
  let o := options_ w ctx in
  let op := opacity (geometry t) in
  if falsy op then Some (t, [])
  else
    let? t := _updateAnimationTarget o t in
    let g := geometry t in
    let? x := text_ t in
    let op := if Num.abs op <? 1e-3 then 0 else op in
    let hasTooltipContent := negb (Nat.eqb (List.length (title x) + List.length (beforeBody x) + List.length (body x)
                                            + List.length (afterBody x) + List.length (footer x)) 0) in
    if enabled o && hasTooltipContent then
      let y := gy g + Options.top (Options.sides (tpadding (base o))) in
      let '(c1, y) := drawTitle o g x y in
      let? (c2, y) := drawBody o t x y in
      let '(c3, _) := drawFooter o g x y in
      Some (t, Save :: (Set_ "globalAlpha" (VNum op) :: drawBackground t o (gx g) (gy g) (gwidth g) (gheight g) ++ c1 ++ c2 ++ c3)
                 ++ [Restore])%list
    else Some (t, []).
(** [vetoed]: a plugin returned false from [beforeTooltipDraw]. *)
Definition afterDraw (t : tooltip) (vetoed : bool) : option (tooltip * list cmd * list string) :=
  if vetoed then Some (t, [], ["beforeTooltipDraw"%string])
  else let? (t, c) := draw t in Some (t, c, ["beforeTooltipDraw"; "afterTooltipDraw"]%string).
End Component.
End TooltipPlugin.

(** ** Facts *)
Module TooltipPluginFacts.
Import Num NumFacts MathH Rtl Canvas ElementsFacts Core Tooltip TooltipPlugin.
Local Open Scope js_scope.

(** *** A tooltip that may be drawn *)
Definition good_color (c : option colors) : Prop := exists c', c = Some c' /\ round_corners (Options.toTRBLCorners (c_borderRadius c')).
Record ok (t : tooltip) : Prop := mkOk {
  ok_hidden : text_ t = None -> opacity (geometry t) = (0 : num) /\ forall p, anims t p = None;
  ok_body : forall x, text_ t = Some x ->
    (List.length (labelColors t) = List.length (body x) /\ List.Forall good_color (labelColors t)) /\
    (List.length (labelPointStyles t) = List.length (body x) /\ List.Forall (fun p => p <> None) (labelPointStyles t));
  ok_place : anims t X = None <-> anims t Y = None;
  ok_cached : forall a, _cachedAnimations t = Some a -> a X = a Y;
  ok_event : text_ t <> None -> _eventPosition t <> None }.
(** What the rest of the chart and the options must give: known positioners, controllers,
    callbacks that return colors and point styles, and animations of both coordinates or
    of none. *)
Record fair {E} `{MathLib} `{TipOps E} (w : world E) : Prop := mkFair {
  fair_position : forall o els e, o = plain w \/ (exists items, o = options_ w items) ->
    positioner w (position o) els (Some e) <> None;
  fair_controlled : forall d, controlled w d = true;
  fair_colors : forall items it, good_color (labelColor (overrideCallbacks (options_ w items) it) it) /\
    labelPointStyle (overrideCallbacks (options_ w items) it) it <> None;
  fair_place : forall items, animates (options_ w items) X = animates (options_ w items) Y }.

Section Safe.
Context {E : Type} `{MathLib} `{TipOps E} (measure : string -> string -> num).

(** What animations leave alone. *)
Definition alike (t t' : tooltip) : Prop :=
  text_ t' = text_ t /\ labelColors t' = labelColors t /\ labelPointStyles t' = labelPointStyles t /\
  _active t' = _active t /\ _eventPosition t' = _eventPosition t /\ _ignoreReplayEvents t' = _ignoreReplayEvents t /\
  _tooltipItems t' = _tooltipItems t /\ xAlign t' = xAlign t /\ yAlign t' = yAlign t.
Lemma alike_refl t : alike t t.
Proof. unfold alike. tauto. Qed.
Lemma alike_trans t1 t2 t3 : alike t1 t2 -> alike t2 t3 -> alike t1 t3.
Proof. unfold alike. intuition congruence. Qed.
Lemma ok_alike t t' : ok t -> alike t t' -> (anims t' X = None <-> anims t' Y = None) ->
  (forall a, _cachedAnimations t' = Some a -> a X = a Y) -> (text_ t <> None) -> ok t'.
Proof.
  intros [O1 O2 O3 O4 O5] (A1 & A2 & A3 & _ & A4 & _) P C T. split; rewrite ?A1, ?A2, ?A3, ?A4; auto. congruence.
Qed.
Lemma request_at animated t p v : alike t (request animated t p v) /\ _cachedAnimations (request animated t p v) = _cachedAnimations t /\
  forall q, anims (request animated t p v) q = None <-> anims t q = None /\ (q = p -> animated p = false).
Proof.
  unfold request. destruct (animated p) eqn:A; cbn; (split; [unfold alike; cbn; tauto|]); (split; [reflexivity|]); intros q.
  - destruct (decide (p = q)) as [->|N]; split; intuition congruence.
  - tauto.
Qed.
Lemma requests_at animated l : forall t, let t' := fold_left (fun t pv => request animated t (fst pv) (snd pv)) l t in
  alike t t' /\ _cachedAnimations t' = _cachedAnimations t /\
  forall q, anims t' q = None <-> anims t q = None /\ (In q (List.map fst l) -> animated q = false).
Proof.
  induction l as [|[p v] l IH]; intros t; cbn [fold_left List.map fst snd]; cbn zeta.
  - split; [apply alike_refl|]. split; [reflexivity|]. intros q. cbn [In]. tauto.
  - destruct (request_at animated t p v) as (A & C & R). destruct (IH (request animated t p v)) as (A' & C' & R').
    split; [eapply alike_trans; eauto|]. split; [congruence|]. intros q. rewrite R', R. cbn [In]. split.
    + intros [[N E1] E2]. split; [exact N|]. intros [<-|I]; auto.
    + intros [N I]. split; [split; [exact N|intros ->; auto]|auto].
Qed.
Variable w : world E.
Hypothesis fair_w : fair w.
Lemma context_at t : let '(t', items) := getContext t in alike t t' /\ _cachedAnimations t' = _cachedAnimations t /\
  anims t' = anims t /\ geometry t' = geometry t.
Proof. unfold getContext. destruct (context t); cbn; unfold alike; tauto. Qed.
Lemma resolved_at t : (forall a, _cachedAnimations t = Some a -> a X = a Y) ->
  let '(t', a) := _resolveAnimations w t in alike t t' /\ anims t' = anims t /\ a X = a Y /\
  (forall a, _cachedAnimations t' = Some a -> a X = a Y) /\ geometry t' = geometry t.
Proof.
  intros C. unfold _resolveAnimations. destruct (_cachedAnimations t) as [a|] eqn:Q.
  - split; [apply alike_refl|]. split; [reflexivity|]. split; [now apply C|]. split; [now rewrite Q|reflexivity].
  - pose proof (context_at t) as G. destruct (getContext t) as [t1 items]. destruct G as (A & C1 & An & Ge).
    destruct (cacheable _); cbn [with_anims anims _cachedAnimations geometry].
    + split; [exact A|]. split; [exact An|]. split; [apply fair_place, fair_w|]. split; [|exact Ge].
      intros a Ea. injection Ea as <-. apply fair_place, fair_w.
    + split; [exact A|]. split; [exact An|]. split; [apply fair_place, fair_w|]. split; [|exact Ge]. rewrite C1, Q. discriminate.
Qed.
(** Requests for both coordinates or none keep a tooltip drawable. *)
Lemma animated_ok t l : ok t -> text_ t <> None -> (In X (List.map fst l) <-> In Y (List.map fst l)) ->
  ok (animate w t l) /\ alike t (animate w t l).
Proof.
  intros O T XY. unfold animate. pose proof (resolved_at t (ok_cached _ O)) as R.
  destruct (_resolveAnimations w t) as [t1 a]. destruct R as (A & An & P & C & _).
  destruct (requests_at a l t1) as (A' & C' & R). assert (A2 := alike_trans _ _ _ A A'). split; [|exact A2].
  apply (ok_alike t); [exact O|exact A2| |rewrite C'; exact C|exact T]. rewrite !R, An, P, XY, (ok_place _ O). reflexivity.
Qed.

(** An update keeps the active elements and answers with the tooltip's lines ready. *)
Lemma items_made t : exists items, mapM (createTooltipItem w) (_active t) = Some items.
Proof.
  induction (_active t) as [|a l [items IH]]; [now exists []|]. exists (item_of w a :: items).
  assert (F : createTooltipItem w a = Some (item_of w a)) by (unfold createTooltipItem; now rewrite (fair_controlled _ fair_w)).
  cbn [mapM]. rewrite F. cbn [mbind option_bind]. now rewrite IH.
Qed.
Lemma with_lines_ok t items x o alignment : (exists its, o = options_ w its) -> body x = getBody o items -> _eventPosition t <> None ->
  (anims t X = None <-> anims t Y = None) -> (forall a, _cachedAnimations t = Some a -> a X = a Y) ->
  ok (with_text (with_items t items o) x alignment).
Proof.
  intros [its ->] B Ev P C. split; cbn [text_ with_text with_items anims _cachedAnimations _eventPosition labelColors labelPointStyles]; auto; [discriminate|].
  intros y E1. injection E1 as <-. rewrite B. unfold getBody. rewrite !List.length_map.
  split; (split; [reflexivity|]); apply List.Forall_map, List.Forall_forall; intros it _; apply (fair_colors _ fair_w).
Qed.
Lemma update_ok t changed replay : ok t -> _eventPosition t <> None ->
  exists t' fx, update measure w t changed replay = Some (t', fx) /\ ok t' /\ _active t' = _active t /\
    _ignoreReplayEvents t' = _ignoreReplayEvents t.
Proof.
  intros O Ev. unfold update. pose proof (context_at t) as G. destruct (getContext t) as [t1 ctx].
  destruct G as (A & C & An & Ge). destruct A as (A1 & A2 & A3 & A4 & A5 & A6 & A7 & A8 & A9).
  assert (P1 : anims t1 X = None <-> anims t1 Y = None) by (rewrite An; apply O).
  assert (C1 : forall a, _cachedAnimations t1 = Some a -> a X = a Y) by (rewrite C; apply O).
  rewrite A4, A5. destruct (_active t) as [|a rest] eqn:Act.
  - rewrite Ge. destruct (opacity (geometry t) =? 0) eqn:Op.
    + do 2 eexists. split; [reflexivity|]. cbn [with_tooltipItems _active _ignoreReplayEvents]. split; [|split; [congruence|exact A6]].
      destruct O as [O1 O2 O3 O4 O5]. split; cbn [with_tooltipItems text_ geometry anims _cachedAnimations labelColors labelPointStyles _eventPosition];
        rewrite ?A1, ?A2, ?A3, ?A5, ?An, ?C, ?Ge; auto.
    + assert (T : text_ t <> None). { intros N. destruct (ok_hidden _ O N) as [Z0 _]. rewrite Z0 in Op. discriminate. }
      set (t2 := with_tooltipItems t1 []). assert (O2 : ok t2).
      { destruct O as [O1 O2 O3 O4 O5]. split; cbn; rewrite ?A1, ?A2, ?A3, ?A5, ?An, ?C, ?Ge; auto. }
      destruct (animated_ok t2 [(Opacity, 0 : num)] O2) as [O3 (_ & _ & _ & B4 & _ & B6 & _)]; [cbn; congruence|cbn; intuition discriminate|].
      do 2 eexists. split; [reflexivity|]. split; [exact O3|]. rewrite B4, B6. cbn. split; congruence.
  - destruct (_eventPosition t) as [e|] eqn:Ep; [|congruence]. unfold position_at.
    destruct (positioner w (position (options_ w ctx)) _ (Some e)) as [pos|] eqn:Po.
    2:{ exfalso. eapply (fair_position _ fair_w); [|exact Po]. right. now exists ctx. }
    unfold _createItems. destruct (items_made t1) as [items Im]. rewrite Im.
    set (items1 := match filter _ with Some _ => _ | None => _ end). set (items2 := match itemSort _ with Some _ => _ | None => _ end).
    set (x := text_of _ items2). destruct (target measure w (options_ w ctx) x _) as [[[tw th] al] b].
    set (t2 := with_text (with_items t1 items2 (options_ w ctx)) x al).
    assert (O2 : ok (with_tooltipItems t2 items2)).
    { assert (O2 : ok t2) by (apply with_lines_ok; [now exists ctx|reflexivity|congruence|exact P1|exact C1]).
      destruct O2 as [X1 X2 X3 X4 X5]. split; assumption. }
    destruct (animated_ok (with_tooltipItems t2 items2)
      [(Opacity, 1 : num); (X, MathH.x b); (Y, MathH.y b); (Width, tw); (Height, th);
       (CaretX, MathH.x (match pos with Some p => p | None => undefined_point end));
       (CaretY, MathH.y (match pos with Some p => p | None => undefined_point end))] O2)
      as [O3 (_ & _ & _ & B4 & _ & B6 & _)]; [discriminate|cbn; intuition|].
    do 2 eexists. split; [reflexivity|]. split; [exact O3|]. rewrite B4, B6. cbn. split; congruence.
Qed.
Lemma moved_known t a e : exists b, _positionChanged w t a (Some e) = Some b.
Proof.
  unfold _positionChanged, position_at. destruct (positioner w _ _ _) eqn:Po; [eauto|]. exfalso.
  eapply (fair_position _ fair_w); [|exact Po]. now left.
Qed.
Lemma with_active_ok t a e i : ok t -> (text_ t <> None -> e <> None) -> ok (with_active t a e i).
Proof. intros [O1 O2 O3 O4 O5] Ev. split; assumption. Qed.
Lemma event_ok t e replay inside : ok t ->
  exists t' changed fx, handleEvent measure w t e replay inside = Some (t', changed, fx) /\ ok t'.
Proof.
  intros O. unfold handleEvent. destruct (replay && _ignoreReplayEvents t); [eauto 8|].
  set (t1 := with_active t (_active t) (_eventPosition t) false). assert (O1 : ok t1) by (apply with_active_ok; [exact O|apply O]).
  destruct (moved_known t1 (_getActiveElements w e (_active t1) replay inside) (mkPoint (e_x e) (e_y e))) as [m ->].
  destruct (_ || _ || m); [|eauto 8]. destruct (enabled _ || external _).
  - match goal with |- context [update measure w ?t2 true replay] => destruct (update_ok t2 true replay) as (t' & fx & -> & O' & _) end;
      [apply with_active_ok; [apply with_active_ok; [exact O1|apply O1]|discriminate]|discriminate|eauto 8].
  - do 3 eexists. split; [reflexivity|]. apply with_active_ok; [exact O1|apply O].
Qed.
Lemma set_active_ok t a e : ok t ->
  exists t' fx, setActiveElements measure w t a (Some e) = Some (t', fx) /\ ok t' /\
    (t' = t \/ (_active t' = a /\ _ignoreReplayEvents t' = true)).
Proof.
  intros O. unfold setActiveElements. destruct (moved_known t a e) as [m ->]. destruct (_ || m); [|eauto 8].
  destruct (update_ok (with_active t a (Some e) true) true false) as (t' & fx & -> & O' & A & I);
    [apply with_active_ok; [exact O|discriminate]|discriminate|]. do 2 eexists. split; [reflexivity|]. split; [exact O'|]. right. auto.
Qed.

(** *** Drawing *)
Lemma safe_lines lines : forall x y half step, safe (fst (drawLines lines x y half step)).
Proof.
  induction lines as [|l lines IH]; intros x y half step; cbn [drawLines]; [apply safe_nil|].
  specialize (IH x (y + step) half step). destruct (drawLines _ _ _ _ _) as [c y']. cbn [fst] in *. now apply safe_cons.
Qed.
Ltac lines := match goal with |- context [drawLines ?l ?x ?y ?h ?s] =>
  let S := fresh "S" in pose proof (safe_lines l x y h s) as S; destruct (drawLines l x y h s) as [? ?]; cbn [fst] in S end.
Lemma safe_drawTitle o g x y : safe (fst (drawTitle o g x y)).
Proof. unfold drawTitle. destruct (title x); [apply safe_nil|]. lines. cbn [fst]. unfold font_of. safe. assumption. Qed.
Lemma safe_drawFooter o g x y : safe (fst (drawFooter o g x y)).
Proof. unfold drawFooter. destruct (footer x); [apply safe_nil|]. lines. cbn [fst]. unfold font_of. safe. assumption. Qed.
Lemma color_box o t y i : List.Forall good_color (labelColors t) -> List.Forall (fun p => p <> None) (labelPointStyles t) ->
  (i < List.length (labelColors t))%nat -> (i < List.length (labelPointStyles t))%nat ->
  exists c, _drawColorBox o t y i = Some c /\ safe c.
Proof.
  intros G P Lc Lp. unfold _drawColorBox. apply lookup_lt_is_Some in Lc as [c Ec], Lp as [p Ep].
  rewrite List.Forall_forall in G, P. destruct (G c) as (c' & -> & R); [apply list_elem_of_In; eapply list_elem_of_lookup_2; eauto|].
  assert (N : p <> None) by (apply P, list_elem_of_In; eapply list_elem_of_lookup_2; eauto).
  destruct p as [[st rot]|]; [|congruence]. rewrite Ec, Ep. destruct (usePointStyle o).
  - eexists. split; [reflexivity|]. safe; apply safe_drawPoint.
  - match goal with |- context [if ?b then _ else _] => destruct b end; eexists; (split; [reflexivity|]); safe;
      apply safe_roundedRect; exact R.
Qed.
Section Drawable.
Context (o : style) (t : tooltip).
Hypothesis colors_good : List.Forall good_color (labelColors t) /\ List.Forall (fun p => p <> None) (labelPointStyles t).
Lemma item_drawn x xp y i it : (i < List.length (labelColors t))%nat -> (i < List.length (labelPointStyles t))%nat ->
  exists c y', drawItem o t x xp y i it = Some (c, y') /\ safe c.
Proof.
  intros Lc Lp. destruct colors_good as [G P]. unfold drawItem. lines. destruct (lines it) as [|first rest].
  - lines. do 2 eexists. split; [reflexivity|]. safe; assumption.
  - destruct (displayColors (base o)).
    + match goal with |- context [_drawColorBox o t ?y i] => destruct (color_box o t y i G P Lc Lp) as (c & -> & Sc) end.
      lines. lines. do 2 eexists. split; [reflexivity|]. unfold text_at. safe; assumption.
    + lines. lines. do 2 eexists. split; [reflexivity|]. safe; assumption.
Qed.
Lemma items_drawn items x xp : forall y i, (i + List.length items <= List.length (labelColors t))%nat ->
  (i + List.length items <= List.length (labelPointStyles t))%nat -> exists c y', drawItems o t x xp y i items = Some (c, y') /\ safe c.
Proof.
  induction items as [|it items IH]; intros y i Lc Lp; cbn [drawItems List.length] in *; [do 2 eexists; split; [reflexivity|apply safe_nil]|].
  destruct (item_drawn x xp y i it) as (c & y' & -> & S1); [lia|lia|]. destruct (IH y' (S i)) as (c' & y2 & -> & S2); [lia|lia|].
  do 2 eexists. split; [reflexivity|]. now apply safe_app.
Qed.
Lemma body_drawn x y : List.length (labelColors t) = List.length (body x) -> List.length (labelPointStyles t) = List.length (body x) ->
  exists c y', drawBody o t x y = Some (c, y') /\ safe c.
Proof.
  intros Lc Lp. unfold drawBody. lines.
  match goal with |- context [drawItems o t ?x ?xp ?y 0 ?l] => destruct (items_drawn l x xp y 0) as (c & y' & -> & Sc) end; [lia|lia|].
  lines. do 2 eexists. split; [reflexivity|]. unfold font_of. safe; assumption.
Qed.
End Drawable.
Lemma safe_background t o x y tw th : safe (drawBackground t o x y tw th).
Proof. unfold drawBackground, drawCaret. safe. Qed.

Lemma target_followed o t : ok t -> (exists items, o = options_ w items) ->
  exists t', _updateAnimationTarget measure w o t = Some t' /\ ok t' /\ text_ t' = text_ t.
Proof.
  intros O [its ->]. unfold _updateAnimationTarget. pose proof (ok_place _ O) as P.
  destruct (anims t X) as [tx|] eqn:Ax, (anims t Y) as [ty|] eqn:Ay.
  2: destruct P as [_ P]; discriminate P; reflexivity.
  2: destruct P as [P _]; discriminate P; reflexivity.
  2: eauto.
  destruct (text_ t) as [x|] eqn:T; [|destruct (ok_hidden _ O T) as [_ N]; congruence].
  pose proof (ok_event _ O ltac:(congruence)) as Ev. destruct (_eventPosition t) as [e|]; [|congruence]. unfold position_at.
  destruct (positioner w _ _ (Some e)) as [[p|]|] eqn:Po.
  - destruct (target measure w _ x p) as [[[tw th] al] b].
    assert (D : exists d, (if negb (tx =? MathH.x b) then Some true else option_map (fun ty => negb (ty =? MathH.y b)) (Some ty)) = Some d)
      by (destruct (negb _); eexists; reflexivity).
    destruct D as [[|] ->].
    + assert (O2 : ok (moved_to t al tw th p)) by (destruct O as [O1 O2 O3 O4 O5]; split; cbn; auto; congruence).
      destruct (animated_ok (moved_to t al tw th p) [(X, MathH.x b); (Y, MathH.y b)] O2) as [O3 (B1 & _)]; [cbn; congruence|cbn; intuition|].
      eexists. split; [reflexivity|]. split; [exact O3|]. rewrite B1. exact T.
    + eexists. split; [reflexivity|]. split; [exact O|exact T].
  - eexists. split; [reflexivity|]. split; [exact O|exact T].
  - exfalso. eapply (fair_position _ fair_w); [|exact Po]. right. now exists its.
Qed.
Lemma draw_ok t : ok t -> exists t' c, draw measure w t = Some (t', c) /\ ok t' /\ safe c.
Proof.
  intros O. unfold draw. pose proof (context_at t) as G. destruct (getContext t) as [t1 ctx].
  destruct G as ((A1 & A2 & A3 & A4 & A5 & _) & C & An & Ge).
  assert (O1 : ok t1). { destruct O as [O1 O2 O3 O4 O5]. split; rewrite ?A1, ?A2, ?A3, ?A5, ?An, ?C, ?Ge; auto. }
  rewrite Ge. destruct (falsy (opacity (geometry t))) eqn:F.
  { do 2 eexists. split; [reflexivity|]. split; [exact O1|apply safe_nil]. }
  destruct (target_followed (options_ w ctx) t1 O1) as (t2 & -> & O2 & T2); [now exists ctx|].
  destruct (text_ t2) as [x|] eqn:T; [|rewrite A1 in T2; symmetry in T2; destruct (ok_hidden _ O T2) as [Z0 _]; rewrite Z0 in F; discriminate].
  destruct (_ && _); [|do 2 eexists; split; [reflexivity|]; split; [exact O2|apply safe_nil]].
  destruct (ok_body _ O2 x T) as [[L1 G1] [L2 G2]].
  match goal with |- context [drawTitle ?o ?g x ?y] => pose proof (safe_drawTitle o g x y) as S1; destruct (drawTitle o g x y) as [c1 y1] end.
  destruct (body_drawn (options_ w ctx) t2 (conj G1 G2) x y1 L1 L2) as (c2 & y2 & -> & S2).
  match goal with |- context [drawFooter ?o ?g x ?y] => pose proof (safe_drawFooter o g x y) as S3; destruct (drawFooter o g x y) as [c3 y3] end.
  do 2 eexists. split; [reflexivity|]. split; [exact O2|]. apply safe_saved. cbn [fst] in *. safe; auto using safe_background.
Qed.
End Safe.

(** *** Reachable tooltips *)
Section Reachable.
Context {E : Type} `{MathLib} `{TipOps E} (measure : string -> string -> num).
(** Each step finds the chart and the options in a state of its own. *)
Inductive step : tooltip -> tooltip -> Prop :=
| Handled w e replay inside t t' changed fx : fair w -> handleEvent measure w t e replay inside = Some (t', changed, fx) -> step t t'
| Activated w a e t t' fx : fair w -> setActiveElements measure w t a (Some e) = Some (t', fx) -> step t t'
| Initialized t : step t (initialize t)
| Drawn w t t' c : fair w -> draw measure w t = Some (t', c) -> step t t'
| Ticked t p v : anims t p <> None -> step t (with_anims t (put (geometry t) p v) (anims t) (_cachedAnimations t)).
Inductive reachable : tooltip -> Prop :=
| Started : reachable new_tooltip
| Stepped t t' : reachable t -> step t t' -> reachable t'.
Lemma new_ok : ok new_tooltip.
Proof. split; cbn; try tauto; discriminate. Qed.
Lemma step_ok t t' : ok t -> step t t' -> ok t'.
Proof.
  intros O S. destruct S as [w e r i t t' ch fx F E1|w a e t t' fx F E1|t|w t t' c F E1|t p v A].
  - destruct (event_ok measure w F t e r i O) as (t2 & ch2 & fx2 & E2 & O2). congruence.
  - destruct (set_active_ok measure w F t a e O) as (t2 & fx2 & E2 & O2 & _). congruence.
  - destruct O as [O1 O2 O3 O4 O5]. split; cbn; auto. discriminate.
  - destruct (draw_ok measure w F t O) as (t2 & c2 & E2 & O2 & _). congruence.
  - destruct O as [O1 O2 O3 O4 O5]. split; cbn; auto. intros N. destruct (O1 N) as [_ Q]. congruence.
Qed.
Lemma reachable_ok t : reachable t -> ok t.
Proof. induction 1; [exact new_ok|eauto using step_ok]. Qed.


Fixpoint replayed (t : tooltip) (l : list (world E * event * bool)) : option tooltip :=
  match l with
  | [] => Some t
  | (w, e, inside) :: rest => match handleEvent measure w t e true inside with Some (t', _, _) => replayed t' rest | None => None end
  end.
(** C28: elements that a program makes active stay: a call with elements that differ from
    the active ones makes them active, and however many events are replayed by updates of
    the chart after it, the tooltip stays as it is; only the next event of the user decides
    again. *)
Theorem set_elements_stay t w a e : reachable t -> fair w -> _elementsEqual (Some (_active t)) (Some a) = false ->
  exists t' fx, setActiveElements measure w t a (Some e) = Some (t', fx) /\ _active t' = a /\
    (forall l, replayed t' l = Some t') /\
    forall w' e' inside, fair w' -> exists t2 changed fx', handleEvent measure w' t' e' false inside = Some (t2, changed, fx') /\
      _ignoreReplayEvents t2 = false /\ _active t2 = if changed then _getActiveElements w' e' a false inside else a.
Proof.
  intros R F D. apply reachable_ok in R. unfold setActiveElements. rewrite D. destruct (moved_known w F t a e) as [m ->]. cbn [negb orb].
  destruct (update_ok measure w F (with_active t a (Some e) true) true false) as (t' & fx & -> & O' & A & I);
    [apply with_active_ok; [exact R|discriminate]|discriminate|]. cbn [with_active _active _ignoreReplayEvents] in A, I.
  exists t', fx. split; [reflexivity|]. split; [exact A|]. split.
  - induction l as [|[[w' e'] i] l IH]; [reflexivity|]. cbn [replayed]. unfold handleEvent. rewrite I. exact IH.
  - intros w' e' inside F'. unfold handleEvent. cbn [andb orb with_active _active _eventPosition _ignoreReplayEvents]. rewrite A.
    match goal with |- context [_positionChanged w' ?t1 ?l (Some ?e1)] => destruct (moved_known w' F' t1 l e1) as [m' ->] end.
    destruct (negb _ || m'); [|do 3 eexists; repeat split; assumption]. destruct (enabled _ || external _).
    + match goal with |- context [update measure w' ?t2 true false] =>
        destruct (update_ok measure w' F' t2 true false) as (t3 & fx3 & -> & _ & A3 & I3) end;
        [apply with_active_ok; [apply with_active_ok; [apply with_active_ok; [exact O'|apply O']|apply O']|discriminate]|discriminate|].
      do 3 eexists. split; [reflexivity|]. split; [exact I3|exact A3].
    + do 3 eexists. repeat split.
Qed.
End Reachable.

(** *** The text fills the box *)
Lemma mul_whole x y : (0 <= x)%Z -> (0 <= y)%Z -> NumFacts.safe x -> NumFacts.safe y -> NumFacts.safe (x * y) ->
  mul (of_Z x) (of_Z y) = of_Z (x * y).
Proof.
  intros X0 Y0 X1 Y1 XY. destruct (Z.eq_dec x 0%Z) as [->|Nx].
  - destruct (Z.eq_dec y 0%Z) as [->|Ny]; [reflexivity|]. destruct y as [|q|q]; try lia.
    destruct (NumExact.of_Z_finite q Y1) as (m & e & ->). reflexivity.
  - destruct (Z.eq_dec y 0%Z) as [->|Ny]; [|now apply of_Z_mul]. destruct x as [|q|q]; try lia.
    destruct (NumExact.of_Z_finite q X1) as (m & e & ->). rewrite Z.mul_0_r. reflexivity.
Qed.
Section Whole.
Context `{MathLib} (o : style) (lt lb lf ts tm bs fs fm bh pt pb : Z).
Definition small (z : Z) : Prop := (0 <= z <= 2 ^ 16)%Z.
(** Line heights, spacings and margins are whole numbers of pixels. *)
Hypothesis whole_lines : lineHeight (titleFont (base o)) = of_Z lt /\ lineHeight (bodyFont (base o)) = of_Z lb /\
  lineHeight (footerFont (base o)) = of_Z lf /\ small lt /\ small lb /\ small lf.
Hypothesis whole_spacing : titleSpacing (base o) = of_Z ts /\ titleMarginBottom (base o) = of_Z tm /\ bodySpacing (base o) = of_Z bs /\
  footerSpacing (base o) = of_Z fs /\ footerMarginTop (base o) = of_Z fm /\ boxHeight (base o) = of_Z bh.
Hypothesis small_spacing : small ts /\ small tm /\ small bs /\ small fs /\ small fm /\ small bh.
Hypothesis whole_padding : Options.pheight (tpadding (base o)) = of_Z (pt + pb) /\ small pt /\ small pb.

Definition few (n : nat) : Prop := (Z.of_nat n <= 2 ^ 20)%Z.
Lemma lines_end lines : forall x y half s, (0 <= s <= 2 ^ 20)%Z -> (Z.abs y + Z.of_nat (List.length lines) * s <= 2 ^ 45)%Z ->
  snd (drawLines lines x (of_Z y) half (of_Z s)) = of_Z (y + Z.of_nat (List.length lines) * s).
Proof.
  induction lines as [|l lines IH]; intros x y half s S Y; cbn [drawLines List.length snd] in *; [f_equal; lia|].
  rewrite of_Z_add by (unfold NumFacts.safe; lia). specialize (IH x (y + s)%Z half s S).
  destruct (drawLines lines x _ half _) as [c y']. cbn [snd] in *. rewrite IH by lia. f_equal. lia.
Qed.
Ltac whole := destruct whole_lines as (Lt & Lb & Lf & St & Sb & Sf); destruct whole_spacing as (Ts & Tm & Bs & Fs & Fm & Bh);
  destruct small_spacing as (S1 & S2 & S3 & S4 & S5 & S6); unfold small in *.

Definition zt (n : nat) : Z := if Nat.eqb n 0 then 0%Z else (Z.of_nat n * lt + (Z.of_nat n - 1) * ts + tm)%Z.
Definition zf (n : nat) : Z := if Nat.eqb n 0 then 0%Z else (fm + Z.of_nat n * lf + (Z.of_nat n - 1) * fs)%Z.
Definition first_line : Z := if displayColors (base o) then Z.max bh lb else lb.
Definition lines_in (b : body_item) : nat := (List.length (before b) + List.length (Tooltip.lines b) + List.length (after b))%nat.
Fixpoint sum_lines (l : list body_item) : nat := match l with [] => O | b :: r => (lines_in b + sum_lines r)%nat end.
Definition body_lines (x : text) : nat := (List.length (beforeBody x) + sum_lines (body x) + List.length (afterBody x))%nat.
Definition zb (x : text) : Z :=
  if Nat.eqb (body_lines x) 0 then 0%Z
  else (Z.of_nat (List.length (body x)) * first_line + (Z.of_nat (body_lines x) - Z.of_nat (List.length (body x))) * lb
        + (Z.of_nat (body_lines x) - 1) * bs)%Z.

Lemma title_end g x y : few (List.length (title x)) -> (Z.abs y <= 2 ^ 40)%Z ->
  snd (drawTitle o g x (of_Z y)) = of_Z (y + zt (List.length (title x))).
Proof.
  intros F Y. whole. unfold drawTitle, zt, few in *. destruct (title x) as [|l ls] eqn:T; [cbn; f_equal; lia|]. cbn [List.length Nat.eqb] in *.
  rewrite Lt, Ts, Tm, !of_Z_add, of_Z_sub by (unfold NumFacts.safe; lia).
  pose proof (lines_end (l :: ls) (ax (adapter_of o g) (aligned o g (titleAlign o))) y (of_Z lt / 2) (lt + ts)) as D.
  destruct (drawLines (l :: ls) _ _ _ _) as [c y']. cbn [snd List.length] in *. rewrite D by nia.
  rewrite of_Z_add by (unfold NumFacts.safe; nia). f_equal. lia.
Qed.
Lemma footer_end g x y : few (List.length (footer x)) -> (Z.abs y <= 2 ^ 42)%Z ->
  snd (drawFooter o g x (of_Z y)) = of_Z (y + zf (List.length (footer x)) + if Nat.eqb (List.length (footer x)) 0 then 0 else fs).
Proof.
  intros F Y. whole. unfold drawFooter, zf, few in *. destruct (footer x) as [|l ls] eqn:T; [cbn; f_equal; lia|]. cbn [List.length Nat.eqb] in *.
  rewrite Lf, Fs, Fm, !of_Z_add by (unfold NumFacts.safe; lia).
  pose proof (lines_end (l :: ls) (ax (adapter_of o g) (aligned o g (footerAlign o))) (y + fm) (of_Z lf / 2) (lf + fs))%Z as D.
  destruct (drawLines (l :: ls) _ _ _ _) as [c y']. cbn [snd List.length] in *. rewrite D by nia. f_equal. lia.
Qed.

Lemma few_bound n a : (0 <= n <= 2 ^ 20)%Z -> (0 <= a <= 2 ^ 17)%Z -> (0 <= n * a <= 2 ^ 37)%Z.
Proof. nia. Qed.
Ltac walk D l E c y' := let Q := fresh "Q" in pose proof (few_bound (Z.of_nat (List.length l)) (lb + bs)) as Q;
   match type of D with context [drawLines l ?x (of_Z ?y) ?h _] =>
  pose proof (lines_end l x y h (lb + bs)%Z) as E; destruct (drawLines l x (of_Z y) h _) as [c y'] end.
(** Every item has a line of its own when boxes are drawn. *)
Definition has_line (b : body_item) : Prop := displayColors (base o) = true -> Tooltip.lines b <> [].
Definition own_line (n : nat) : Z := (Z.of_nat n * (first_line - lb))%Z.
Lemma item_end t x xp y i b c y' : has_line b -> (Z.of_nat (lines_in b) <= 2 ^ 20)%Z -> (Z.abs y <= 2 ^ 43)%Z ->
  drawItem o t x xp (of_Z y) i b = Some (c, y') -> y' = of_Z (y + Z.of_nat (lines_in b) * (lb + bs) + own_line 1).
Proof.
  unfold lines_in, own_line, first_line, has_line. intros L F Y D. whole.
  unfold drawItem in D. rewrite Lb, Bs, Bh, of_Z_add in D by (unfold NumFacts.safe; lia).
  walk D (before b) E1 cc1 yy1. cbn [snd] in E1. rewrite E1 in D by lia. clear E1.
  destruct (Tooltip.lines b) as [|first rest] eqn:Ln.
  - destruct (displayColors (base o)) eqn:Dc; [now specialize (L eq_refl)|].
    walk D (after b) E3 cc3 yy3. cbn [snd List.length] in *. injection D as _ <-. rewrite E3 by lia. f_equal. lia.
  - destruct (displayColors (base o)) eqn:Dc.
    + destruct (_drawColorBox _ _ _ _) as [box|]; [|discriminate].
      rewrite (of_Z_max lb bh), (of_Z_add (Z.max lb bh) bs) in D by (unfold NumFacts.safe; lia). cbn [List.length] in *.
      rewrite of_Z_add in D by (unfold NumFacts.safe; nia).
      walk D rest E2 cc2 yy2. cbn [snd] in E2. rewrite E2 in D by lia. clear E2.
      walk D (after b) E3 cc3 yy3. cbn [snd] in *. injection D as _ <-. rewrite E3 by lia. f_equal. lia.
    + walk D (first :: rest) E2 cc2 yy2. cbn [snd] in E2. rewrite E2 in D by lia. clear E2.
      walk D (after b) E3 cc3 yy3. cbn [snd] in *. injection D as _ <-. rewrite E3 by lia. f_equal. lia.
Qed.
Lemma items_end t x xp items : forall y i c y', List.Forall has_line items ->
  (Z.of_nat (sum_lines items) + Z.of_nat (List.length items) <= 2 ^ 20)%Z -> (Z.abs y + 2 ^ 18 * (Z.of_nat (sum_lines items) + Z.of_nat (List.length items)) <= 2 ^ 43)%Z ->
  drawItems o t x xp (of_Z y) i items = Some (c, y') ->
  y' = of_Z (y + Z.of_nat (sum_lines items) * (lb + bs) + own_line (List.length items)).
Proof.
  induction items as [|b items IH]; intros y i c y' F N Y D; cbn [drawItems sum_lines List.length] in *.
  - injection D as _ <-. unfold own_line. f_equal. lia.
  - inversion F as [|? ? F1 F2]; subst.
    assert (B1 : (0 <= lb <= 2 ^ 16 /\ 0 <= bs <= 2 ^ 16 /\ 0 <= first_line - lb <= 2 ^ 16)%Z).
    { whole. unfold first_line. destruct (displayColors (base o)); lia. }
    destruct (drawItem o t x xp (of_Z y) i b) as [[c1 y1]|] eqn:D1; [|discriminate].
    apply item_end in D1; [|exact F1|lia|lia]. subst y1. unfold own_line in *.
    destruct (drawItems o t x xp _ (S i) items) as [[c2 y2]|] eqn:D2; [|discriminate]. injection D as _ <-.
    apply IH in D2; [|exact F2|lia|nia]. rewrite D2. f_equal. lia.
Qed.
Lemma body_end t x y c y' : List.Forall has_line (body x) -> body_lines x <> O ->
  (Z.of_nat (body_lines x) + Z.of_nat (List.length (body x)) <= 2 ^ 20)%Z -> (Z.abs y <= 2 ^ 42)%Z ->
  drawBody o t x (of_Z y) = Some (c, y') -> y' = of_Z (y + zb x).
Proof.
  unfold zb, body_lines. intros F N Q Y D. apply Nat.eqb_neq in N. rewrite N. apply Nat.eqb_neq in N.
  assert (B1 : (0 <= lb <= 2 ^ 16 /\ 0 <= bs <= 2 ^ 16 /\ 0 <= first_line - lb <= 2 ^ 16)%Z).
  { whole. unfold first_line. destruct (displayColors (base o)); lia. }
  assert (E0 : lineHeight (bodyFont (base o)) = of_Z lb /\ bodySpacing (base o) = of_Z bs) by (whole; auto). destruct E0 as [Lb Bs].
  unfold drawBody in D. rewrite Lb, Bs, of_Z_add in D by (unfold NumFacts.safe; lia).
  walk D (beforeBody x) E1 cc1 yy1. cbn [snd] in E1. rewrite E1 in D by lia. clear E1.
  destruct (drawItems o t _ _ _ 0 (body x)) as [[c2 y2]|] eqn:D2; [|discriminate]. apply items_end in D2; [|exact F|lia|nia]. subst y2.
  unfold own_line in *. pose proof (few_bound (Z.of_nat (sum_lines (body x))) (lb + bs)) as Q1.
  pose proof (few_bound (Z.of_nat (List.length (body x))) (first_line - lb)) as Q2.
  pose proof (few_bound (Z.of_nat (List.length (beforeBody x))) (lb + bs)) as Q3.
  walk D (afterBody x) E3 cc3 yy3. cbn [snd] in *. injection D as _ <-. rewrite E3 by lia.
  rewrite of_Z_sub by (unfold NumFacts.safe; lia). f_equal. lia.
Qed.

Lemma combined_lines l : forall c, fold_left (fun c b => (c + lengthZ (before b) + lengthZ (Tooltip.lines b) + lengthZ (after b))%Z) l c
  = (c + Z.of_nat (sum_lines l))%Z.
Proof.
  induction l as [|b l IH]; intros c; cbn [fold_left sum_lines]; [lia|]. rewrite IH. unfold lines_in, lengthZ. lia.
Qed.
Lemma own_lines_le items : List.Forall has_line items -> displayColors (base o) = true -> (List.length items <= sum_lines items)%nat.
Proof.
  intros F Dc. induction F as [|b l B F IH]; cbn [sum_lines List.length]; [lia|]. specialize (B Dc). unfold lines_in.
  destruct (Tooltip.lines b); [congruence|]. cbn [List.length]. lia.
Qed.
Lemma text_height_whole x : few (List.length (title x)) -> few (List.length (footer x)) ->
  (Z.of_nat (body_lines x) + Z.of_nat (List.length (body x)) <= 2 ^ 20)%Z -> (List.length (body x) <= body_lines x)%nat ->
  text_height x (base o) = of_Z (pt + pb + zt (List.length (title x)) + zb x + zf (List.length (footer x))).
Proof.
  intros F1 F2 F3 F4. whole. destruct whole_padding as (Hp & Pt & Pb). unfold small, few in *. unfold text_height.
  rewrite combined_lines, Hp, Lt, Lb, Lf, Ts, Tm, Bs, Fs, Fm, Bh. unfold lengthZ. rewrite Z.add_0_l.
  replace (Z.of_nat (sum_lines (body x)) + Z.of_nat (List.length (beforeBody x)) + Z.of_nat (List.length (afterBody x)))%Z
    with (Z.of_nat (body_lines x)) by (unfold body_lines; lia).
  assert (A : (if (Z.of_nat (List.length (title x)) =? 0)%Z then of_Z (pt + pb)
     else of_Z (pt + pb) + (of_Z (Z.of_nat (List.length (title x))) * of_Z lt + of_Z (Z.of_nat (List.length (title x)) - 1) * of_Z ts + of_Z tm))
    = of_Z (pt + pb + zt (List.length (title x)))).
  { unfold zt. destruct (Nat.eqb_spec (List.length (title x)) 0) as [E0|E0]; [rewrite E0; cbn; f_equal; lia|].
    replace (_ =? 0)%Z with false by (symmetry; apply Z.eqb_neq; lia). rewrite !mul_whole, !of_Z_add by (unfold NumFacts.safe; nia). f_equal; lia. }
  rewrite A. clear A. set (a := (pt + pb + zt (List.length (title x)))%Z).
  assert (Ba : (0 <= a <= 2 ^ 42)%Z). { unfold a, zt. destruct (Nat.eqb_spec (List.length (title x)) 0); nia. }
  assert (M : (if displayColors (base o) then max (of_Z bh) (of_Z lb) else of_Z lb) = of_Z first_line).
  { unfold first_line. destruct (displayColors _); [apply of_Z_max; unfold NumFacts.safe; lia|reflexivity]. }
  rewrite M. assert (Bf : (0 <= first_line <= 2 ^ 16)%Z) by (unfold first_line; destruct (displayColors _); lia).
  assert (B : (if (Z.of_nat (body_lines x) =? 0)%Z then of_Z a
     else of_Z a + (of_Z (Z.of_nat (List.length (body x))) * of_Z first_line
                    + of_Z (Z.of_nat (body_lines x) - Z.of_nat (List.length (body x))) * of_Z lb
                    + of_Z (Z.of_nat (body_lines x) - 1) * of_Z bs)) = of_Z (a + zb x)).
  { unfold zb. destruct (Nat.eqb_spec (body_lines x) 0) as [E0|E0]; [rewrite E0; cbn; f_equal; lia|].
    replace (_ =? 0)%Z with false by (symmetry; apply Z.eqb_neq; lia). rewrite !mul_whole, !of_Z_add by (unfold NumFacts.safe; nia). f_equal; lia. }
  rewrite B. clear B. assert (Bb : (0 <= a + zb x <= 2 ^ 44)%Z). { unfold zb. destruct (Nat.eqb_spec (body_lines x) 0); nia. }
  unfold zf. destruct (Nat.eqb_spec (List.length (footer x)) 0) as [E0|E0]; [rewrite E0; cbn; f_equal; lia|].
  replace (_ =? 0)%Z with false by (symmetry; apply Z.eqb_neq; lia). rewrite !mul_whole, !of_Z_add by (unfold NumFacts.safe; nia). f_equal; lia.
Qed.

(** The text fills its box: for fonts and spacings of whole pixels, with a body in which
    every item that gets a color box has a line, drawing the title, the body and the footer
    one under the other from the upper padding ends exactly at the lower padding of the box
    that [getTooltipSize] measured (below it is only the spacing after the last footer
    line). *)
Theorem text_fills_box measure t x g y0 : ok t -> text_ t = Some x ->
  few (List.length (title x)) -> few (List.length (footer x)) ->
  (Z.of_nat (body_lines x) + Z.of_nat (List.length (body x)) <= 2 ^ 20)%Z -> (List.length (body x) <= body_lines x)%nat ->
  List.Forall has_line (body x) -> body_lines x <> O -> (Z.abs y0 <= 2 ^ 38)%Z ->
  exists c1 c2 c3 y1 y2 y3 h, drawTitle o g x (of_Z (y0 + pt)) = (c1, y1) /\ drawBody o t x y1 = Some (c2, y2) /\
    drawFooter o g x y2 = (c3, y3) /\ snd (getTooltipSize measure x (base o)) = of_Z h /\
    y3 = of_Z (y0 + h - pb + if Nat.eqb (List.length (footer x)) 0 then 0 else fs).
Proof.
  intros O T F1 F2 F3 F4 F5 F6 Y. destruct (ok_body _ O x T) as [[L1 G1] [L2 G2]].
  assert (P : (0 <= pt <= 2 ^ 16 /\ 0 <= pb <= 2 ^ 16)%Z) by (destruct whole_padding as (_ & ? & ?); unfold small in *; lia).
  assert (Bt : (0 <= zt (List.length (title x)) <= 2 ^ 39)%Z).
  { whole. unfold zt, few in *. destruct (Nat.eqb_spec (List.length (title x)) 0); nia. }
  assert (Bb : (0 <= zb x <= 2 ^ 39)%Z).
  { whole. unfold zb, first_line. destruct (Nat.eqb_spec (body_lines x) 0); [lia|]. destruct (displayColors _); nia. }
  pose proof (title_end g x (y0 + pt) F1) as E1. destruct (drawTitle o g x _) as [c1 y1]. cbn [snd] in E1. rewrite E1 by lia.
  destruct (body_drawn o t (conj G1 G2) x (of_Z (y0 + pt + zt (List.length (title x)))) L1 L2) as (c2 & y2 & D2 & _).
  pose proof (body_end t x (y0 + pt + zt (List.length (title x))) c2 y2 F5 F6 F3) as E2. specialize (E2 ltac:(lia) D2). subst y2.
  pose proof (footer_end g x (y0 + pt + zt (List.length (title x)) + zb x) F2) as E3. destruct (drawFooter o g x _) as [c3 y3] eqn:D3.
  cbn [snd] in E3. do 7 eexists. split; [reflexivity|]. split; [exact D2|]. split; [exact D3|].
  split; [apply text_height_whole; assumption|]. rewrite E3 by lia. f_equal. lia.
Qed.
End Whole.

(** Without a body the footer is drawn higher than it was given room for: the spacing of a
    body line is taken back that was never added. *)
Lemma empty_body_lifts_footer {E} `{MathLib} `{TipOps E} o t ttl ftr y :
  option_map snd (drawBody o t (mkText ttl [] [] [] ftr) y) = Some (y - bodySpacing (base o)) /\
  text_height (mkText ttl [] [] [] ftr) (base o) = text_height (mkText ttl [] [] [] ftr)
    (mkOptions (bodyFont (base o)) (titleFont (base o)) (footerFont (base o)) (tpadding (base o)) (boxWidth (base o)) (boxHeight (base o))
       (boxPadding (base o)) (displayColors (base o)) (titleSpacing (base o)) (titleMarginBottom (base o)) 0 (footerSpacing (base o))
       (footerMarginTop (base o)) (caretSize (base o)) (caretPadding (base o)) (cornerRadius (base o)) (oxAlign (base o)) (oyAlign (base o))).
Proof. split; reflexivity. Qed.
(** In the mode "dataset" an item without a label is shown with a colon and no label. *)
Lemma dataset_label_fallback_lost it v : label it = ""%string -> formattedValue it = Some v ->
  default_label "dataset" it = VStr (": " ++ v)%string.
Proof. intros L F. unfold default_label. cbn. now rewrite L, F. Qed.

(** *** A tooltip over one element *)
#[local] Instance plain_math : MathLib := {
  math_pow x y := x; math_log10 x := x; math_sin x := 0; math_cos x := 1; math_atan2 y x := y }.
#[local] Instance point_tips : TipOps point := { hasValue _ := true; tooltipPosition p := p; centerPoint p := p }.
Definition demo_istyle : istyle := mkIstyle (VStr "blue") (VStr "red") 1 (VArr []) 0 OtherStyle 0.
Definition demo_style_of (anim : prop -> bool) : style :=
  mkStyle TooltipFacts.demo_options true false "average" false None None (default_callbacks "index" (VStr "#fff")) (fun _ => None)
    "left" (VStr "#fff") "left" (VStr "#fff") "left" (VStr "#fff") false (VStr "#fff") (VStr "black") (VStr "gray") 1
    false anim true.
Definition demo_style (anim : bool) : style := demo_style_of (fun _ => anim).
Definition demo_world_of (anim : prop -> bool) : world point :=
  mkWorld point (fun a => Some (mkPoint (of_Z (50 + 40 * aindex a)) 80)) (fun _ => true)
    (fun a => mkItem "March" (Some "5"%string) "Sales" (aindex a) (datasetIndex a) [] demo_istyle) (mkChart 400 200 20 380)
    (fun e _ => if e_x e <? 200 then [{| datasetIndex := 0; aindex := 2 |}] else []) (fun _ => None)
    (fun _ => demo_style_of anim) (demo_style_of anim).
Definition demo_world (anim : bool) : world point := demo_world_of (fun _ => anim).
Definition demo_measure (_ s : string) : num := of_Z (7 * Z.of_nat (String.length s)).
Lemma demo_fair anim : fair (demo_world anim).
Proof.
  split.
  - intros o els e [->|[its ->]]; cbn; discriminate.
  - reflexivity.
  - intros items it. split; [|discriminate]. eexists. split; [reflexivity|]. vm_compute. repeat split.
  - reflexivity.
Qed.
Definition hovered (anim : bool) : tooltip :=
  match handleEvent demo_measure (demo_world anim) new_tooltip (mkEvent "mousemove" 120 70) false true with
  | Some (t, _, _) => t
  | None => new_tooltip
  end.
Lemma hovered_reachable anim : reachable (E := point) demo_measure (hovered anim).
Proof.
  assert (H : exists t ch fx, handleEvent demo_measure (demo_world anim) new_tooltip (mkEvent "mousemove" 120 70) false true = Some (t, ch, fx)).
  { destruct (event_ok demo_measure _ (demo_fair anim) new_tooltip (mkEvent "mousemove" 120 70) false true new_ok) as (t & ch & fx & E & _). eauto. }
  destruct H as (t & ch & fx & E1). unfold hovered. rewrite E1. eapply Stepped; [apply Started|]. eapply Handled; [apply demo_fair|exact E1].
Qed.
Definition drawn_lines (c : list cmd) : list string := omap (fun c => match c with FillText s _ _ _ => Some s | _ => None end) c.
Lemma set_elements_stay_witness :
  exists t fx, setActiveElements demo_measure (demo_world true) (hovered true) [{| datasetIndex := 0; aindex := 4 |}] (Some (mkPoint 1 1)) = Some (t, fx) /\
    _active t = [{| datasetIndex := 0; aindex := 4 |}].
Proof.
  destruct (set_elements_stay demo_measure (hovered true) (demo_world true) [{| datasetIndex := 0; aindex := 4 |}] (mkPoint 1 1)
    (hovered_reachable true) (demo_fair true)) as (t & fx & E1 & A & _); [vm_compute; reflexivity|]. eauto.
Defined.
Lemma text_fills_box_witness :
  match text_ (hovered false) with
  | Some x => exists c1 c2 y1 y2 h, drawTitle (demo_style false) (geometry (hovered false)) x (of_Z 16) = (c1, y1) /\
      drawBody (demo_style false) (hovered false) x y1 = Some (c2, y2) /\ snd (getTooltipSize demo_measure x (base (demo_style false))) = of_Z h /\
      y2 = of_Z (10 + h - 6)
  | None => False
  end.
Proof.
  destruct (text_ (hovered false)) as [x|] eqn:T; [|vm_compute in T; discriminate].
  assert (X : x = mkText ["March"%string] [] [mkBody [] ["Sales: 5"%string] []] [] []).
  { assert (Q : text_ (hovered false) = Some (mkText ["March"%string] [] [mkBody [] ["Sales: 5"%string] []] [] [])) by (vm_compute; reflexivity).
    rewrite T in Q. now injection Q. }
  destruct (text_fills_box (demo_style false) 14 14 14 2 6 2 2 6 12 6 6) with (measure := demo_measure) (t := hovered false) (x := x)
    (g := geometry (hovered false)) (y0 := 10%Z) as (c1 & c2 & c3 & y1 & y2 & y3 & h & A & B & C & D & F).
  - vm_compute. repeat split; discriminate.
  - vm_compute. repeat split.
  - vm_compute. repeat split; discriminate.
  - vm_compute. repeat split; discriminate.
  - apply (reachable_ok (E := point) demo_measure), hovered_reachable.
  - exact T.
  - subst x. vm_compute. discriminate.
  - subst x. vm_compute. discriminate.
  - subst x. vm_compute. discriminate.
  - subst x. vm_compute. lia.
  - subst x. repeat constructor. discriminate.
  - subst x. discriminate.
  - vm_compute. discriminate.
  - exists c1, c2, y1, y2, h. split; [exact A|]. split; [exact B|]. split; [exact D|]. subst x. cbn in C, F. injection C as _ ->.
    rewrite F. f_equal. lia.
Defined.
(** When only one of the coordinates is animated drawing reads the end of an animation that
    is not there. *)
Lemma half_animated_draw_fails :
  let w := demo_world_of (fun p => match p with X => true | _ => false end) in
  match handleEvent demo_measure w new_tooltip (mkEvent "mousemove" 120 70) false true with
  | Some (t, _, _) => draw demo_measure w t = None
  | None => False
  end.
Proof. vm_compute. reflexivity. Qed.
End TooltipPluginFacts.
