(* ===== verification/Registry.v ===== *)
(** The component registry and the plugin service (chart.js: TypedRegistry,
    Registry, PluginService). *)
From Stdlib Require Import ZArith Lia Bool List Ascii String.
From Stdlib Require Import SpecFloat.
From stdpp Require Import base list.
From S2P Require Import Prelude JsNumber JsString JsArray JsValue HelpersCore.
Import ListNotations.
Open Scope Z_scope.

Module Registry.
Import Obj Js Core.

(** The base class a component's prototype chain ends in. *)
Inductive kind := Controller | ElementKind | ScaleKind | PluginKind.
Definition kind_eqb (a b : kind) : bool :=
  match a, b with
  | Controller, Controller | ElementKind, ElementKind | ScaleKind, ScaleKind | PluginKind, PluginKind => true
  | _, _ => false
  end.

Unset Elimination Schemes.
(** A component: its [id] (empty when missing), its prototype when that has an
    [id] and [defaults] itself, and its static properties.  [hooks] are the
    registration callbacks it has. *)
Inductive component := Comp {
  id : string; proto : option component; ckind : kind; cdefaults : value;
  defaultRoutes : list (string * string); cdescriptors : option value; coverrides : value; hooks : list string }.
Set Elimination Schemes.

(** A routed property: reading [r_name] in [r_scope] falls back to the target; the
    tree of the defaults holds the property's own value. *)
Record route := mkRoute { r_scope : string; r_name : string; r_target : string; r_tname : string }.
Record typed := mkTyped { tkind : kind; tscope : string; override : bool; items : list (string * component) }.
(** What registering changes: the registry, the defaults and the routes. *)
Record world := mkWorld { reg : typed; defs : stores; routes : list route }.

Definition item_get (l : list (string * component)) (k : string) : option component :=
  match List.find (fun p => String.eqb k (fst p)) l with Some (_, c) => Some c | None => None end.
Definition isForType (r : typed) (c : component) : bool := kind_eqb (tkind r) (ckind c).
Definition with_items (r : typed) (l : list (string * component)) : typed :=
  mkTyped (tkind r) (tscope r) (override r) l.

(** [join('.')], and [split('.')] with the last part popped. *)
Fixpoint join_dots (l : list string) : string :=
  match l with
  | [] => EmptyString
  | [x] => x
  | x :: r => (x ++ "." ++ join_dots r)%string
  end.
Definition pop_dots (s : string) : string * list string :=
  let parts := split_dots EmptyString s in (List.last parts EmptyString, removelast parts).
Definition route_of (scope : string) (p : string * string) : route :=
  let '(sourceName, parts) := pop_dots (fst p) in
  let '(targetName, tparts) := pop_dots (snd p) in
  mkRoute (join_dots (scope :: parts)) sourceName (join_dots tparts) targetName.
Definition routeDefaults (scope : string) (l : list (string * string)) : list route :=
  List.map (route_of scope) l.
(** The getter that [Defaults.route] installs. *)
Definition read_route (d : stores) (r : route) : value :=
  let own scope name := match Defaults_get d scope with Some v => index v name | None => Undefined end in
  let local := own (r_scope r) (r_name r) in
  let target := own (r_target r) (r_tname r) in
  match local with
  | VObj l => VObj (fold_left (fun o kv => put (fst kv) (snd kv) o) l (match target with VObj t => t | _ => [] end))
  | _ => valueOrDefault local target
  end.

(** [registerDefaults]; None: a scope's path leads through a primitive. *)
Definition registerDefaults (w : world) (c : component) (scope : string) (parentScope : option string) : option world :=
  match (match parentScope with Some p => Defaults_get (defs w) p | None => Some (VObj []) end),
        Defaults_get (defs w) scope with
  | Some inherited, Some old =>
      match Defaults_set (defs w) scope (merge (VObj []) (VArr [inherited; old; cdefaults c])) with
      | Some d =>
          let r := (routes w ++ routeDefaults scope (defaultRoutes c))%list in
          match cdescriptors c with
          | Some ds => match Defaults_describe d scope ds with Some d => Some (mkWorld (reg w) d r) | None => None end
          | None => Some (mkWorld (reg w) d r)
          end
      | None => None
      end
  | _, _ => None
  end.

(** [TypedRegistry.register]: the world it leaves and the scope, None when it
    throws; the prototype is registered first. *)
Definition register_self (w : world) (c : component) (parentScope : option string) : world * option string :=
  if String.eqb (id c) EmptyString then (w, None) else
  let scope := (tscope (reg w) ++ "." ++ id c)%string in
  match item_get (items (reg w)) (id c) with
  | Some _ => (w, Some scope)
  | None =>
      let w := mkWorld (with_items (reg w) (items (reg w) ++ [(id c, c)])) (defs w) (routes w) in
      match registerDefaults w c scope parentScope with
      | None => (w, None)
      | Some w =>
          if override (reg w) then
            match Defaults_override (defs w) (id c) (coverrides c) with
            | Some d => (mkWorld (reg w) d (routes w), Some scope)
            | None => (w, None)
            end
          else (w, Some scope)
      end
  end.
Fixpoint register (w : world) (c : component) : world * option string :=
  match proto c with
  | None => register_self w c None
  | Some p =>
      match register w p with
      | (w, None) => (w, None)
      | (w, Some s) => register_self w c (Some s)
      end
  end.

Definition del {A} (k : string) (o : list (string * A)) : list (string * A) :=
  List.filter (fun p => negb (String.eqb k (fst p))) o.
(** [unregister]; None: there are no defaults for the registry's scope. *)
Definition unregister (w : world) (c : component) : option world :=
  let r := with_items (reg w) (del (id c) (items (reg w))) in
  match root (defs w) with
  | VObj o =>
      match get (tscope r) o with
      | Some (VObj s) =>
          if has (id c) s then
            let ov := if override r then match overrides (defs w) with VObj v => VObj (del (id c) v) | v => v end
                      else overrides (defs w) in
            Some (mkWorld r {| root := VObj (put (tscope r) (VObj (del (id c) s)) o);
                               descriptors := descriptors (defs w); overrides := ov |} (routes w))
          else Some (mkWorld r (defs w) (routes w))
      | _ => None
      end
  | _ => None
  end.

(** ** Registry *)
Record registries := mkRegs {
  controllers : typed; elements : typed; plugins : typed; scales : typed; rdefs : stores; rroutes : list route }.
Definition constructor (d : stores) : registries :=
  mkRegs (mkTyped Controller "datasets" true []) (mkTyped ElementKind "elements" false [])
    (mkTyped PluginKind "plugins" false []) (mkTyped ScaleKind "scales" false []) d [].
Definition sel (rs : registries) (k : kind) : typed :=
  match k with Controller => controllers rs | ElementKind => elements rs | ScaleKind => scales rs | PluginKind => plugins rs end.
Definition put_world (rs : registries) (k : kind) (w : world) : registries :=
  let r k' := if kind_eqb k k' then reg w else sel rs k' in
  mkRegs (r Controller) (r ElementKind) (r PluginKind) (r ScaleKind) (defs w) (routes w).
Definition _getRegistryForType (rs : registries) (c : component) : kind :=
  match List.find (fun k => isForType (sel rs k) c) [Controller; ScaleKind; ElementKind] with
  | Some k => k
  | None => PluginKind
  end.

Inductive method := Register | Unregister.
Definition method_name (m : method) : string := match m with Register => "Register" | Unregister => "Unregister" end.
Definition hook (c : component) (h : string) : list (string * string) :=
  if existsb (String.eqb h) (hooks c) then [(h, id c)] else [].
(** What happened: the registries, the hooks called, and whether it threw. *)
Definition outcome := (registries * list (string * string) * bool)%type.
Definition _exec (m : method) (k : kind) (rs : registries) (c : component) : outcome :=
  let w := mkWorld (sel rs k) (rdefs rs) (rroutes rs) in
  let before := hook c ("before" ++ method_name m) in
  let after := hook c ("after" ++ method_name m) in
  match m with
  | Register => match register w c with
                | (w, Some _) => (put_world rs k w, (before ++ after)%list, false)
                | (w, None) => (put_world rs k w, before, true)
                end
  | Unregister => match unregister w c with
                  | Some w => (put_world rs k w, (before ++ after)%list, false)
                  | None => (put_world rs k (mkWorld (with_items (sel rs k) (del (id c) (items (sel rs k)))) (rdefs rs) (rroutes rs)),
                             before, true)
                  end
  end.

(** An argument: one component, or an array or object of components. *)
Inductive arg := One (c : component) | Group (l : list component).
Fixpoint exec_all (m : method) (rs : registries) (l : list component) : outcome :=
  match l with
  | [] => (rs, [], false)
  | c :: r =>
      match _exec m (_getRegistryForType rs c) rs c with
      | (rs, out, true) => (rs, out, true)
      | (rs, out, false) => let '(rs, out', e) := exec_all m rs r in (rs, (out ++ out')%list, e)
      end
  end.
(** A group given to one registry is itself taken for a component without [id];
    a plugin without [id] is taken for a group of its properties, which have none
    either. *)
Definition each_arg (m : method) (typedRegistry : option kind) (rs : registries) (a : arg) : outcome :=
  match typedRegistry, a with
  | Some k, One c => _exec m k rs c
  | Some _, Group _ => (rs, [], match m with Register => true | Unregister => false end)
  | None, One c =>
      let k := _getRegistryForType rs c in
      if negb (kind_eqb k PluginKind) || negb (String.eqb (id c) EmptyString) then _exec m k rs c
      else (rs, [], true)
  | None, Group l => exec_all m rs l
  end.
Fixpoint _each (m : method) (typedRegistry : option kind) (rs : registries) (args : list arg) : outcome :=
  match args with
  | [] => (rs, [], false)
  | a :: r =>
      match each_arg m typedRegistry rs a with
      | (rs, out, true) => (rs, out, true)
      | (rs, out, false) => let '(rs, out', e) := _each m typedRegistry rs r in (rs, (out ++ out')%list, e)
      end
  end.
Definition add (rs : registries) (args : list arg) : outcome := _each Register None rs args.
Definition remove (rs : registries) (args : list arg) : outcome := _each Unregister None rs args.
Definition add_to (k : kind) (rs : registries) (args : list arg) : outcome := _each Register (Some k) rs args.
Definition remove_from (k : kind) (rs : registries) (args : list arg) : outcome := _each Unregister (Some k) rs args.
(** [_get]; None: it throws. *)
Definition _get (rs : registries) (k : kind) (name : string) : option component := item_get (items (sel rs k)) name.

End Registry.

(** ** PluginService *)
Module Plugins.
Import Obj Js Core.

(** A plugin object: a reference, with its [id]. *)
Record plugin := mkPlugin { pref : nat; pid : string }.
Record descriptor := mkDesc { dplugin : plugin; doptions : value }.
(** The configuration and the registered plugins that a call sees. *)
Record config := mkConfig { registered : list plugin; local : list plugin; poptions : value }.
Record service := mkService {
  _init : list descriptor; _cache : option (list descriptor); _oldCache : option (list descriptor) }.
Definition constructor : service := mkService [] None None.

(** [getOpts]; None is null, which leaves the plugin out. *)
Definition getOpts (options : value) (all : bool) : option value :=
  match options with
  | VBool false => if all then Some options else None
  | VBool true => Some (VObj [])
  | Null => None
  | _ => Some options
  end.
Definition allPlugins (c : config) : list plugin :=
  fold_left (fun l p => if existsb (fun q => Nat.eqb (pref p) (pref q)) l then l else l ++ [p]) (local c) (registered c).

Section Service.
(** [pluginOpts] is the resolver of the plugin's options; a hook may return false;
    [has] tells which hooks a plugin has. *)
Context (pluginOpts : plugin -> value -> value) (has : plugin -> string -> bool) (returns_false : plugin -> string -> bool).

Definition createDescriptors (plugins : list plugin) (options : value) (all : bool) : list descriptor :=
  omap (fun p => match getOpts (index options (pid p)) all with
                 | Some opts => Some (mkDesc p (pluginOpts p opts))
                 | None => None end) plugins.
Definition _createDescriptors (c : config) (all : bool) : list descriptor :=
  let options := valueOrDefault (poptions c) (VObj []) in
  match options, all with
  | VBool false, false => []
  | _, _ => createDescriptors (allPlugins c) options all
  end.

(** The hooks called, in order, and the result: a cancelable hook that returns
    false stops the others. *)
Fixpoint _notify (l : list descriptor) (hook : string) (cancelable : bool) : list (plugin * string) * bool :=
  match l with
  | [] => ([], true)
  | d :: r =>
      let p := dplugin d in
      if has p hook then
        if returns_false p hook && cancelable then ([(p, hook)], false)
        else let '(out, b) := _notify r hook cancelable in ((p, hook) :: out, b)
      else _notify r hook cancelable
  end.
Definition invalidate (s : service) : service :=
  match _cache s with Some c => mkService (_init s) None (Some c) | None => s end.
Definition diff (a b : list descriptor) : list descriptor :=
  List.filter (fun x => negb (existsb (fun y => String.eqb (pid (dplugin x)) (pid (dplugin y))) b)) a.
(** [_notifyStateChanges]. *)
Definition state_changes (s : service) (cache : list descriptor) : list (plugin * string) :=
  let previous := match _oldCache s with Some l => l | None => [] end in
  fst (_notify (diff previous cache) "stop" false) ++ fst (_notify (diff cache previous) "start" false).
Definition _descriptors (s : service) (c : config) : service * list descriptor * list (plugin * string) :=
  match _cache s with
  | Some l => (s, l, [])
  | None =>
      let l := _createDescriptors c false in
      (mkService (_init s) (Some l) (_oldCache s), l, state_changes s l)
  end.
Definition notify (s : service) (c : config) (hook : string) (cancelable : bool) (filter : descriptor -> bool)
  : service * list (plugin * string) * bool :=
  let '(s, out0) :=
    if String.eqb hook "beforeInit" then
      let init := _createDescriptors c true in
      (mkService init (_cache s) (_oldCache s), fst (_notify init "install" false))
    else (s, []) in
  let '(s, l, out1) := _descriptors s c in
  let l := List.filter filter l in
  let '(out2, result) := _notify l hook cancelable in
  let out3 := if String.eqb hook "afterDestroy" then
                fst (_notify l "stop" false) ++ fst (_notify (_init s) "uninstall" false)
              else [] in
  (s, (out0 ++ out1 ++ out2 ++ out3)%list, result).

(** A chart's life up to its destruction: any notifications and invalidations. *)
Inductive event := Notify (c : config) (hook : string) (cancelable : bool) (filter : descriptor -> bool) | Invalidate.
Definition run1 (s : service) (e : event) : service * list (plugin * string) :=
  match e with
  | Notify c h k f => let '(s, out, _) := notify s c h k f in (s, out)
  | Invalidate => (invalidate s, [])
  end.
Fixpoint run (s : service) (es : list event) : service * list (plugin * string) :=
  match es with
  | [] => (s, [])
  | e :: r => let '(s, out) := run1 s e in let '(s, out') := run s r in (s, out ++ out')
  end.
End Service.
End Plugins.

(** ** Facts *)
Module RegistryFacts.
Import Obj Js Core CoreFacts Registry.

Lemma component_induction (P : component -> Prop) :
  (forall c, match proto c with Some p => P p | None => True end -> P c) -> forall c, P c.
Proof.
  intros H. fix IH 1. intros c. apply H. destruct c as [i [p|] k d r ds o h]; cbn; [apply IH|exact I].
Qed.

Lemma item_get_app l k c j :
  item_get (l ++ [(k, c)]) j =
  match item_get l j with Some x => Some x | None => if String.eqb j k then Some c else None end.
Proof.
  unfold item_get. induction l as [|[i x] l IH]; cbn; [destruct (String.eqb j k); reflexivity|].
  destruct (String.eqb j i); [reflexivity|exact IH].
Qed.
Lemma item_get_del l k j : item_get (del k l) j = if String.eqb k j then None else item_get l j.
Proof.
  unfold item_get, del. induction l as [|[i x] l IH]; cbn; [destruct (String.eqb k j); reflexivity|].
  destruct (String.eqb_spec k i); cbn; destruct (String.eqb_spec j i); subst; rewrite ?String.eqb_refl in *.
  - rewrite IH. reflexivity.
  - destruct (String.eqb_spec i j); [congruence|exact IH].
  - destruct (String.eqb_spec k i); [congruence|reflexivity].
  - exact IH.
Qed.

Lemma find_app {A} (f : A -> bool) (a b : list A) :
  List.find f (a ++ b) = match List.find f a with Some x => Some x | None => List.find f b end.
Proof. induction a as [|x a IH]; cbn; [reflexivity|]. destruct (f x); auto. Qed.

(** A component with its prototypes, the last prototype first. *)
Fixpoint chain (c : component) : list component :=
  (match proto c with Some p => chain p | None => [] end) ++ [c].
Lemma chain_eq c : chain c = (match proto c with Some p => chain p | None => [] end) ++ [c].
Proof. destruct c; reflexivity. Qed.
Lemma register_eq w c : register w c =
  match proto c with
  | None => register_self w c None
  | Some p => match register w p with (w, None) => (w, None) | (w, Some s) => register_self w c (Some s) end
  end.
Proof. destruct c; reflexivity. Qed.

(** The part of the registry that [registerDefaults] leaves alone. *)
Lemma registerDefaults_reg w c s p w' : registerDefaults w c s p = Some w' -> reg w' = reg w.
Proof.
  unfold registerDefaults. destruct (match p with Some _ => _ | None => _ end); [|discriminate].
  destruct (Defaults_get _ _); [|discriminate]. destruct (Defaults_set _ _ _) as [d|]; [|discriminate].
  destruct (cdescriptors c); [destruct (Defaults_describe _ _ _); [|discriminate]|]; intros [= <-]; reflexivity.
Qed.
Lemma register_self_items w c p w' s : register_self w c p = (w', Some s) ->
  String.eqb (id c) EmptyString = false /\ s = (tscope (reg w) ++ "." ++ id c)%string /\ tscope (reg w') = tscope (reg w) /\
  forall j, item_get (items (reg w')) j =
    match item_get (items (reg w)) j with Some x => Some x | None => if String.eqb j (id c) then Some c else None end.
Proof.
  unfold register_self. destruct (String.eqb (id c) EmptyString); [discriminate|].
  destruct (item_get _ _) as [x|] eqn:G.
  - intros [= <- <-]. repeat split; auto. intros j. destruct (item_get _ j) eqn:J; [reflexivity|].
    destruct (String.eqb_spec j (id c)); [congruence|reflexivity].
  - set (w1 := mkWorld _ _ _). destruct (registerDefaults _ _ _ _) as [w2|] eqn:R; [|discriminate].
    apply registerDefaults_reg in R.
    assert (Q : reg w' = reg w2 -> (tscope (reg w') = tscope (reg w)) /\ forall j, item_get (items (reg w')) j =
      match item_get (items (reg w)) j with Some x => Some x | None => if String.eqb j (id c) then Some c else None end).
    { intros E. rewrite E, R. split; [reflexivity|]. intros j. apply item_get_app. }
    destruct (override (reg w2)); [destruct (Defaults_override _ _ _); [|discriminate]|];
      intros [= <- <-]; destruct Q as [Q1 Q2]; auto.
Qed.

Lemma register_items c : forall w w' s, register w c = (w', Some s) ->
  Forall (fun a => String.eqb (id a) EmptyString = false) (chain c) /\
  s = (tscope (reg w) ++ "." ++ id c)%string /\ tscope (reg w') = tscope (reg w) /\
  forall j, item_get (items (reg w')) j =
    match item_get (items (reg w)) j with Some x => Some x | None => List.find (fun a => String.eqb j (id a)) (chain c) end.
Proof.
  induction c as [c IH] using component_induction. intros w w' s. rewrite register_eq, chain_eq.
  destruct (proto c) as [p|].
  - destruct (register w p) as [w1 [s1|]] eqn:R; [|discriminate]. intros S.
    destruct (IH _ _ _ R) as (N & _ & T & Q). apply register_self_items in S as (N' & -> & T' & Q').
    split; [apply Forall_app; auto|]. split; [now rewrite T|]. split; [now rewrite T'|].
    intros j. rewrite Q', Q, find_app. destruct (item_get _ j); [reflexivity|].
    destruct (List.find _ (chain p)); [reflexivity|]. cbn. reflexivity.
  - intros S. apply register_self_items in S as (N & -> & T & Q). split; [now constructor|]. split; [reflexivity|]. split; [exact T|]. intros j. rewrite Q. reflexivity.
Qed.

Lemma register_present c : forall w,
  Forall (fun a => String.eqb (id a) EmptyString = false /\ item_get (items (reg w)) (id a) <> None) (chain c) ->
  register w c = (w, Some (tscope (reg w) ++ "." ++ id c)%string).
Proof.
  induction c as [c IH] using component_induction. intros w. rewrite register_eq, chain_eq. intros F.
  apply Forall_app in F as [F1 F2]. inversion F2 as [|? ? [N G] _]; subst.
  assert (E : forall q, register_self w c q = (w, Some (tscope (reg w) ++ "." ++ id c)%string)).
  { intros q. unfold register_self. rewrite N. destruct (item_get _ _); [reflexivity|congruence]. }
  destruct (proto c) as [p|]; [|apply E]. rewrite IH by exact F1. apply E.
Qed.

(** Registering a component succeeds only when it and all its prototypes
    have an id; then every id has the component it had before, or else the first of
    the chain with that id, prototypes first; and registering again changes
    nothing at all. *)
Theorem register_spec w c w' s : register w c = (w', Some s) ->
  s = (tscope (reg w) ++ "." ++ id c)%string /\
  Forall (fun a => String.eqb (id a) EmptyString = false) (chain c) /\
  (forall j, item_get (items (reg w')) j =
     match item_get (items (reg w)) j with
     | Some x => Some x
     | None => List.find (fun a => String.eqb j (id a)) (chain c) end) /\
  register w' c = (w', Some s).
Proof.
  intros R. destruct (register_items _ _ _ _ R) as (N & -> & T & Q). repeat split; auto. rewrite <- T.
  apply register_present. apply List.Forall_forall. intros a I. rewrite List.Forall_forall in N. split; [auto|].
  rewrite Q. destruct (item_get _ _); [discriminate|]. destruct (List.find _ _) eqn:F; [discriminate|].
  apply (List.find_none _ _ F) in I. now rewrite String.eqb_refl in I.
Qed.

Lemma get_del k o j : get j (del k o) = if String.eqb k j then None else get j o.
Proof.
  unfold del. induction o as [|[i x] o IH]; cbn; [destruct (String.eqb k j); reflexivity|].
  destruct (String.eqb_spec k i); cbn; destruct (String.eqb_spec j i); subst; rewrite ?String.eqb_refl in *.
  - exact IH.
  - destruct (String.eqb_spec i j); [congruence|exact IH].
  - destruct (String.eqb_spec k i); [congruence|reflexivity].
  - exact IH.
Qed.

(** Unregistering a component removes exactly its id from the registry and
    from the defaults of the registry's scope, so that it can be registered again
    from scratch; every other component and every other default stays. *)
Theorem unregister_spec w c w' : unregister w c = Some w' ->
  (forall j, item_get (items (reg w')) j = if String.eqb (id c) j then None else item_get (items (reg w)) j) /\
  exists o s o' s', root (defs w) = VObj o /\ get (tscope (reg w)) o = Some (VObj s) /\
    root (defs w') = VObj o' /\ get (tscope (reg w)) o' = Some (VObj s') /\
    (forall j, get j s' = if String.eqb (id c) j then None else get j s) /\
    (forall j, String.eqb (tscope (reg w)) j = false -> get j o' = get j o).
Proof.
  unfold unregister. cbn [tscope with_items override]. destruct (root (defs w)) as [| | | | | |o|] eqn:Ro; try discriminate.
  destruct (get _ o) as [v|] eqn:G; [|discriminate]. destruct v as [| | | | | |s|]; try discriminate.
  destruct (has (id c) s) eqn:Hs; intros [= <-]; (split; [intros j; apply item_get_del|]).
  - exists o, s, (put (tscope (reg w)) (VObj (del (id c) s)) o), (del (id c) s). repeat split; auto.
    + apply get_put_eq.
    + intros j. apply get_del.
    + intros j N. rewrite get_put. rewrite String.eqb_sym in N. now rewrite N.
  - exists o, s, o, s. repeat split; auto. intros j. destruct (String.eqb_spec (id c) j) as [<-|]; [|reflexivity].
    unfold has in Hs. destruct (get (id c) s); [discriminate|reflexivity].
Qed.

Definition doughnut : component :=
  Comp "doughnut" None Controller (VObj [("cutout"%string, VStr "50%")]) [] None (VObj []) [].
Definition pie : component :=
  Comp "pie" (Some doughnut) Controller (VObj [("cutout"%string, VNum 0%js)]) [] None (VObj []) [].
Definition empty_world : world :=
  mkWorld (mkTyped Controller "datasets" true []) {| root := VObj []; descriptors := VObj []; overrides := VObj [] |} [].
(** Registering the pie registers the doughnut first; the pie's own default wins. *)
Lemma register_spec_witness :
  match register empty_world pie with
  | (w', Some s) => s = "datasets.pie"%string /\ item_get (items (reg w')) "doughnut" = Some doughnut /\
                    register w' pie = (w', Some s)
  | _ => False
  end.
Proof.
  destruct (register empty_world pie) as [w' [s|]] eqn:R; [|vm_compute in R; discriminate].
  destruct (register_spec empty_world pie w' s R) as (E & _ & G & I). repeat split.
  - exact E.
  - rewrite G. reflexivity.
  - exact I.
Defined.
End RegistryFacts.

Module PluginsFacts.
Import Obj Js Core Plugins.

(** The life of the plugins with id [i]: [start] when stopped, [stop] when started,
    anything else is a violation (None). *)
Definition life1 (i : string) (b : bool) (e : plugin * string) : option bool :=
  if negb (String.eqb i (pid (fst e))) then Some b
  else if String.eqb (snd e) "start" then (if b then None else Some true)
  else if String.eqb (snd e) "stop" then (if b then Some false else None)
  else Some b.
Fixpoint life (i : string) (b : bool) (l : list (plugin * string)) : option bool :=
  match l with
  | [] => Some b
  | e :: r => match life1 i b e with Some b => life i b r | None => None end
  end.
Lemma life_app i b x y : life i b (x ++ y) = match life i b x with Some c => life i c y | None => None end.
Proof. revert b. induction x as [|e x IH]; intros b; cbn; [reflexivity|]. destruct (life1 i b e); auto. Qed.

Definition mem (i : string) (l : list descriptor) : bool := existsb (fun d => String.eqb i (pid (dplugin d))) l.
Definition ids (l : list descriptor) : list string := List.map (fun d => pid (dplugin d)) l.
Lemma mem_ids i l : mem i l = true <-> In i (ids l).
Proof.
  unfold mem, ids. rewrite List.existsb_exists, in_map_iff. split.
  - intros (d & I & E). apply String.eqb_eq in E. eauto.
  - intros (d & <- & I). exists d. split; [exact I|apply String.eqb_refl].
Qed.

Section Facts.
Context (pluginOpts : plugin -> value -> value) (has returns_false : plugin -> string -> bool).
Notation notify_ := (_notify has returns_false).
Notation run_ := (run pluginOpts has returns_false).
Notation create := (_createDescriptors pluginOpts).

Lemma notify_hook h c l : Forall (fun e => snd e = h) (fst (notify_ l h c)).
Proof.
  induction l as [|d l IH]; cbn; [constructor|]. destruct (has _ h); [|exact IH].
  destruct (returns_false _ h && c); [now repeat constructor|]. destruct (notify_ l h c). now constructor.
Qed.
Lemma life_other i b l : Forall (fun e => String.eqb (snd e) "start" = false /\ String.eqb (snd e) "stop" = false) l ->
  life i b l = Some b.
Proof.
  induction 1 as [|e l [S T] _ IH]; cbn; [reflexivity|]. unfold life1. rewrite S, T. destruct (negb _); exact IH.
Qed.
Lemma life_hook i b h c l : String.eqb h "start" = false -> String.eqb h "stop" = false ->
  life i b (fst (notify_ l h c)) = Some b.
Proof.
  intros S T. apply life_other. eapply List.Forall_impl; [|apply notify_hook]. intros e <-. auto.
Qed.

(** Calling a hook on each of a list without repeated ids is one step for each id. *)
Lemma life_block i b h l : List.NoDup (ids l) -> (forall p, pid p = i -> has p h = true) ->
  life i b (fst (notify_ l h false)) =
  if mem i l then life1 i b (mkPlugin 0 i, h) else Some b.
Proof.
  intros N Hs. revert b. induction l as [|d l IH]; intros b; [reflexivity|]. inversion N as [|? ? N1 N2]; subst.
  cbn [_notify mem existsb]. rewrite andb_false_r.
  destruct (String.eqb_spec i (pid (dplugin d))) as [E|E]; cbn [orb].
  - rewrite Hs by auto. destruct (notify_ l h false) as [out r] eqn:F. cbn [fst]. 
    assert (M : mem i l = false).
    { destruct (mem i l) eqn:M; [|reflexivity]. apply mem_ids in M. subst. contradiction. }
    specialize (IH N2). rewrite M in IH. cbn [life]. unfold life1. cbn [fst snd pid]. rewrite <- E, String.eqb_refl. cbn [negb].
    destruct (String.eqb h "start"); [destruct b; [reflexivity|apply IH]|].
    destruct (String.eqb h "stop"); [destruct b; [apply IH|reflexivity]|apply IH].
  - fold (mem i l). rewrite <- IH by auto. destruct (has _ h); [|reflexivity].
    destruct (notify_ l h false) as [out r]. cbn [fst life]. unfold life1 at 1. cbn [fst].
    destruct (String.eqb_spec i (pid (dplugin d))); [congruence|reflexivity].
Qed.

Lemma mem_diff i a b : mem i (diff a b) = mem i a && negb (mem i b).
Proof.
  unfold mem, diff. induction a as [|d a IH]; cbn; [reflexivity|].
  destruct (existsb (fun y => String.eqb (pid (dplugin d)) (pid (dplugin y))) b) eqn:E; cbn.
  - rewrite IH. destruct (String.eqb_spec i (pid (dplugin d))) as [->|]; cbn; [|reflexivity]. rewrite E. cbn.
    now rewrite andb_false_r.
  - destruct (String.eqb_spec i (pid (dplugin d))) as [->|]; cbn; [now rewrite E|exact IH].
Qed.
Lemma nodup_diff a b : List.NoDup (ids a) -> List.NoDup (ids (diff a b)).
Proof.
  unfold ids, diff. induction a as [|d a IH]; cbn; intros N; [constructor|]. inversion N as [|? ? N1 N2]; subst.
  destruct (negb _); cbn; [|auto]. constructor; [|auto]. intros I. apply N1. apply in_map_iff in I as (x & E & I).
  apply List.filter_In in I as [I _]. apply in_map_iff. eauto.
Qed.

(** The descriptors whose plugins are started. *)
Definition current (s : service) : list descriptor :=
  match _cache s with Some l => l | None => match _oldCache s with Some l => l | None => [] end end.
Definition calm (i : string) (e : event) : Prop :=
  match e with
  | Notify c h _ _ => List.NoDup (ids (create c false)) /\
      String.eqb h "start" = false /\ String.eqb h "stop" = false /\ String.eqb h "afterDestroy" = false
  | Invalidate => True
  end.

Lemma life_state_changes i s l : _cache s = None ->
  (forall p, pid p = i -> has p "start" = true /\ has p "stop" = true) ->
  List.NoDup (ids (current s)) -> List.NoDup (ids l) ->
  life i (mem i (current s)) (state_changes has returns_false s l) = Some (mem i l).
Proof.
  intros C Hs N1 N2. unfold state_changes, current in *. rewrite C in *.
  set (p := match _oldCache s with Some l => l | None => [] end) in *.
  rewrite life_app, life_block by (try apply nodup_diff; auto; intros q Q; apply Hs in Q as [? ?]; assumption).
  rewrite mem_diff. unfold life1 at 1. cbn [fst snd pid]. rewrite String.eqb_refl. cbn [negb].
  change (String.eqb "stop" "start") with false. change (String.eqb "stop" "stop") with true. cbn iota.
  assert (St : forall b, b = mem i p && mem i l ->
    life i b (fst (notify_ (diff l p) "start" false)) = Some (mem i l)).
  { intros b ->. rewrite life_block by (try apply nodup_diff; auto; intros q Q; apply Hs in Q as [? ?]; assumption).
    rewrite mem_diff. unfold life1. cbn [fst snd pid]. rewrite String.eqb_refl. cbn [negb].
    change (String.eqb "start" "start") with true. cbn iota. destruct (mem i l), (mem i p); reflexivity. }
  destruct (mem i p) eqn:P, (mem i l) eqn:L; cbn [andb negb]; rewrite <- ?P, <- ?L; try (apply St; now rewrite ?P, ?L);
    rewrite ?P, ?L in *; apply St; reflexivity.
Qed.

Lemma life_run1 i s e : calm i e ->
  (forall p, pid p = i -> has p "start" = true /\ has p "stop" = true) -> List.NoDup (ids (current s)) ->
  let '(s', out) := run1 pluginOpts has returns_false s e in
  life i (mem i (current s)) out = Some (mem i (current s')) /\ List.NoDup (ids (current s')).
Proof.
  intros Cm Hs N. destruct e as [c h k f|]; cbn [run1].
  2:{ unfold invalidate, current in *. destruct (_cache s) as [l|] eqn:C; cbn; rewrite ?C; auto. }
  destruct Cm as (N2 & S & T & D). unfold notify. rewrite D.
  set (a := if String.eqb h "beforeInit" then _ else _).
  assert (A : exists s1 o, a = (s1, o) /\ _cache s1 = _cache s /\ _oldCache s1 = _oldCache s /\ forall b, life i b o = Some b).
  { unfold a. destruct (String.eqb h "beforeInit"); eexists _, _; (split; [reflexivity|]); repeat split.
    intros b. now apply life_hook. }
  destruct A as (s1 & o & -> & C1 & O1 & L1). unfold _descriptors. rewrite C1.
  assert (E1 : current s1 = current s) by (unfold current; now rewrite C1, O1).
  destruct (_cache s) as [l|] eqn:C; destruct (notify_ _ h k) as [out2 r] eqn:F; cbn [app].
  - rewrite life_app, L1, app_nil_r. replace out2 with (fst (notify_ (List.filter f l) h k)) by now rewrite F.
    rewrite life_hook by assumption. now rewrite E1.
  - rewrite life_app, L1, life_app, <- E1.
    rewrite life_state_changes by (auto; rewrite ?E1; auto). rewrite app_nil_r.
    replace out2 with (fst (notify_ (List.filter f (create c false)) h k)) by now rewrite F.
    rewrite life_hook by assumption. unfold current. cbn. auto.
Qed.

(** C30: whatever notifications and invalidations a chart goes through before it
    is destroyed, each plugin is started and stopped in turn, never twice in a
    row, and at any time the started plugins are those of the descriptors last
    built. *)
Theorem started_are_current i es :
  (forall p, pid p = i -> has p "start" = true /\ has p "stop" = true) -> Forall (calm i) es ->
  life i false (snd (run_ constructor es)) = Some (mem i (current (fst (run_ constructor es)))).
Proof.
  intros Hs F. change false with (mem i (current constructor)).
  assert (N : List.NoDup (ids (current constructor))) by constructor. revert N. generalize constructor.
  induction F as [|e es C _ IH]; intros s N; [reflexivity|]. cbn [run].
  pose proof (life_run1 i s e C Hs N) as H. destruct (run1 _ _ _ s e) as [s1 o] eqn:E. destruct H as [L N1].
  specialize (IH s1 N1). destruct (run_ s1 es) as [s2 o2]. cbn [fst snd] in *. now rewrite life_app, L.
Qed.
End Facts.

Definition demo_config (on : bool) : config :=
  mkConfig [mkPlugin 1 "legend"; mkPlugin 2 "title"] [] (VObj [("legend"%string, VBool on)]).
Definition demo_events : list event :=
  [Notify (demo_config true) "beforeInit" false (fun _ => true); Invalidate;
   Notify (demo_config false) "beforeUpdate" true (fun _ => true)].
Definition demo_has (p : plugin) (h : string) : bool := true.
Definition demo_false (p : plugin) (h : string) : bool := false.
(** The legend is started, then stopped when the options switch it off. *)
Lemma started_are_current_witness :
  life "legend" false (snd (run (fun _ o => o) demo_has demo_false constructor demo_events)) = Some false.
Proof.
  rewrite (started_are_current (fun _ o => o) demo_has demo_false "legend" demo_events).
  - vm_compute. reflexivity.
  - intros p _. split; reflexivity.
  - repeat constructor; cbn; intuition discriminate.
Defined.
End PluginsFacts.
