(* ===== verification/Bundle.v ===== *)
(** What the bundle brings along: the defaults as chart.js sets them when it is loaded, the
    controllers, elements, scales and plugins it registers with their defaults, routes,
    descriptors and overrides, and [Chart.register].

    A function among the options is named by its text, or by its key when it has a body. *)
From Stdlib Require Import ZArith Lia Bool List Ascii String.
From stdpp Require Import base list.
From S2P Require Import Prelude JsNumber JsString JsArray JsValue HelpersCore Registry.
Import ListNotations.
Open Scope Z_scope.

Module Bundle.
Import Js Core Registry.
Open Scope string_scope.

(** ** The defaults as they are made *)
(** The properties that the constructor of [Defaults] sets. *)
Definition constructed : value :=
  VObj [
  ("animation", Undefined); ("backgroundColor", VStr "rgba(0,0,0,0.1)"); ("borderColor", VStr "rgba(0,0,0,0.1)");
  ("color", VStr "#666"); ("datasets", VObj []); ("devicePixelRatio", VFun "context.chart.platform.getDevicePixelRatio()");
  ("elements", VObj []);
  ("events", VArr [VStr "mousemove"; VStr "mouseout"; VStr "click"; VStr "touchstart"; VStr "touchmove"]);
  ("font", VObj [
      ("family", VStr "'Helvetica Neue', 'Helvetica', 'Arial', sans-serif"); ("size", VNum 12%js); ("style", VStr "normal");
      ("lineHeight", VNum 1.2%js); ("weight", Null)]);
  ("hover", VObj []); ("hoverBackgroundColor", VFun "getHoverColor(options.backgroundColor)");
  ("hoverBorderColor", VFun "getHoverColor(options.borderColor)"); ("hoverColor", VFun "getHoverColor(options.color)");
  ("indexAxis", VStr "x"); ("interaction", VObj [("mode", VStr "nearest"); ("intersect", VBool true)]);
  ("maintainAspectRatio", VBool true); ("onHover", Null); ("onClick", Null); ("parsing", VBool true); ("plugins", VObj []);
  ("responsive", VBool true); ("scale", Undefined); ("scales", VObj []); ("showLine", VBool true);
  ("drawActiveElementsOnTop", VBool true)].
Definition defaults_descriptors : value :=
  VObj [
  ("_scriptable", VFun "!name.startsWith('on')"); ("_indexable", VFun "name !== 'events'");
  ("hover", VObj [("_fallback", VStr "interaction")]);
  ("interaction", VObj [("_scriptable", VBool false); ("_indexable", VBool false)])].
Definition layout_defaults : value :=
  VObj [
  ("autoPadding", VBool true);
  ("padding", VObj [("top", VNum 0%js); ("right", VNum 0%js); ("bottom", VNum 0%js); ("left", VNum 0%js)])].
Definition animation_defaults : value :=
  VObj [
  ("delay", Undefined); ("duration", VNum 1000%js); ("easing", VStr "easeOutQuart"); ("fn", Undefined); ("from", Undefined);
  ("loop", Undefined); ("to", Undefined); ("type", Undefined)].
Definition animation_descriptors : value :=
  VObj [
  ("_fallback", VBool false); ("_indexable", VBool false);
  ("_scriptable", VFun "name !== 'onProgress' && name !== 'onComplete' && name !== 'fn'")].
Definition numbers : value := VArr [VStr "x"; VStr "y"; VStr "borderWidth"; VStr "radius"; VStr "tension"].
Definition colors : value := VArr [VStr "color"; VStr "borderColor"; VStr "backgroundColor"].
Definition animations_defaults : value :=
  VObj [
  ("colors", VObj [("type", VStr "color"); ("properties", colors)]);
  ("numbers", VObj [("type", VStr "number"); ("properties", numbers)])].
Definition animations_descriptors : value :=
  VObj [("_fallback", VStr "animation")].
Definition transitions_defaults : value :=
  VObj [
  ("active", VObj [("animation", VObj [("duration", VNum 400%js)])]);
  ("resize", VObj [("animation", VObj [("duration", VNum 0%js)])]);
  ("show", VObj [
      ("animations", VObj [
          ("colors", VObj [("from", VStr "transparent")]);
          ("visible", VObj [("type", VStr "boolean"); ("duration", VNum 0%js)])])]);
  ("hide", VObj [
      ("animations", VObj [
          ("colors", VObj [("to", VStr "transparent")]);
          ("visible", VObj [("type", VStr "boolean"); ("easing", VStr "linear"); ("fn", VFun "v | 0")])])])].
Definition scale_defaults : value :=
  VObj [
  ("display", VBool true); ("offset", VBool false); ("reverse", VBool false); ("beginAtZero", VBool false);
  ("bounds", VStr "ticks"); ("grace", VNum 0%js);
  ("grid", VObj [
      ("display", VBool true); ("lineWidth", VNum 1%js); ("drawBorder", VBool true); ("drawOnChartArea", VBool true);
      ("drawTicks", VBool true); ("tickLength", VNum 8%js); ("tickWidth", VFun "options.lineWidth");
      ("tickColor", VFun "options.color"); ("offset", VBool false); ("borderDash", VArr []); ("borderDashOffset", VNum 0%js);
      ("borderWidth", VNum 1%js)]);
  ("title", VObj [("display", VBool false); ("text", VStr ""); ("padding", VObj [("top", VNum 4%js); ("bottom", VNum 4%js)])]);
  ("ticks", VObj [
      ("minRotation", VNum 0%js); ("maxRotation", VNum 50%js); ("mirror", VBool false); ("textStrokeWidth", VNum 0%js);
      ("textStrokeColor", VStr ""); ("padding", VNum 3%js); ("display", VBool true); ("autoSkip", VBool true);
      ("autoSkipPadding", VNum 3%js); ("labelOffset", VNum 0%js); ("callback", VFun "Ticks.formatters.values");
      ("minor", VObj []); ("major", VObj []); ("align", VStr "center"); ("crossAlign", VStr "near");
      ("showLabelBackdrop", VBool false); ("backdropColor", VStr "rgba(255, 255, 255, 0.75)"); ("backdropPadding", VNum 2%js)])].
Definition scale_descriptors : value :=
  VObj [
  ("_fallback", VBool false);
  ("_scriptable", VFun "!name.startsWith('before') && !name.startsWith('after') && name !== 'callback' && name !== 'parser'");
  ("_indexable", VFun "name !== 'borderDash' && name !== 'tickBorderDash'")].
Definition scales_descriptors : value :=
  VObj [("_fallback", VStr "scale")].
Definition ticks_descriptors : value :=
  VObj [
  ("_scriptable", VFun "name !== 'backdropPadding' && name !== 'callback'"); ("_indexable", VFun "name !== 'backdropPadding'")].
(** ** What the components bring *)
Definition bar_defaults : value :=
  VObj [
  ("datasetElementType", VBool false); ("dataElementType", VStr "bar"); ("categoryPercentage", VNum 0.8%js);
  ("barPercentage", VNum 0.9%js); ("grouped", VBool true);
  ("animations", VObj [
      ("numbers", VObj [("type", VStr "number"); ("properties", VArr [VStr "x"; VStr "y"; VStr "base"; VStr "width"; VStr "height"])])])].
Definition bar_overrides : value :=
  VObj [
  ("scales", VObj [
      ("_index_", VObj [("type", VStr "category"); ("offset", VBool true); ("grid", VObj [("offset", VBool true)])]);
      ("_value_", VObj [("type", VStr "linear"); ("beginAtZero", VBool true)])])].
Definition bubble_defaults : value :=
  VObj [
  ("datasetElementType", VBool false); ("dataElementType", VStr "point");
  ("animations", VObj [
      ("numbers", VObj [("type", VStr "number"); ("properties", VArr [VStr "x"; VStr "y"; VStr "borderWidth"; VStr "radius"])])])].
Definition bubble_overrides : value :=
  VObj [
  ("scales", VObj [("x", VObj [("type", VStr "linear")]); ("y", VObj [("type", VStr "linear")])]);
  ("plugins", VObj [("tooltip", VObj [("callbacks", VObj [("title", VFun "title")])])])].
Definition doughnut_defaults : value :=
  VObj [
  ("datasetElementType", VBool false); ("dataElementType", VStr "arc");
  ("animation", VObj [("animateRotate", VBool true); ("animateScale", VBool false)]);
  ("animations", VObj [
      ("numbers", VObj [
          ("type", VStr "number");
          ("properties", VArr [VStr "circumference"; VStr "endAngle"; VStr "innerRadius"; VStr "outerRadius"; VStr "startAngle"; VStr "x"; VStr "y"; VStr "offset"; VStr "borderWidth"; VStr "spacing"])])]);
  ("cutout", VStr "50%"); ("rotation", VNum 0%js); ("circumference", VNum 360%js); ("radius", VStr "100%");
  ("spacing", VNum 0%js); ("indexAxis", VStr "r")].
Definition doughnut_overrides : value :=
  VObj [
  ("aspectRatio", VNum 1%js);
  ("plugins", VObj [
      ("legend", VObj [("labels", VObj [("generateLabels", VFun "generateLabels")]); ("onClick", VFun "onClick")]);
      ("tooltip", VObj [("callbacks", VObj [("title", VFun "title"); ("label", VFun "label")])])])].
Definition doughnut_descriptors : value :=
  VObj [("_scriptable", VFun "name !== 'spacing'"); ("_indexable", VFun "name !== 'spacing'")].
Definition line_defaults : value :=
  VObj [
  ("datasetElementType", VStr "line"); ("dataElementType", VStr "point"); ("showLine", VBool true); ("spanGaps", VBool false)].
Definition line_overrides : value :=
  VObj [("scales", VObj [("_index_", VObj [("type", VStr "category")]); ("_value_", VObj [("type", VStr "linear")])])].
Definition polarArea_defaults : value :=
  VObj [
  ("dataElementType", VStr "arc"); ("animation", VObj [("animateRotate", VBool true); ("animateScale", VBool true)]);
  ("animations", VObj [
      ("numbers", VObj [
          ("type", VStr "number");
          ("properties", VArr [VStr "x"; VStr "y"; VStr "startAngle"; VStr "endAngle"; VStr "innerRadius"; VStr "outerRadius"])])]);
  ("indexAxis", VStr "r"); ("startAngle", VNum 0%js)].
Definition polarArea_overrides : value :=
  VObj [
  ("aspectRatio", VNum 1%js);
  ("plugins", VObj [
      ("legend", VObj [("labels", VObj [("generateLabels", VFun "generateLabels")]); ("onClick", VFun "onClick")]);
      ("tooltip", VObj [("callbacks", VObj [("title", VFun "title"); ("label", VFun "label")])])]);
  ("scales", VObj [
      ("r", VObj [
          ("type", VStr "radialLinear"); ("angleLines", VObj [("display", VBool false)]); ("beginAtZero", VBool true);
          ("grid", VObj [("circular", VBool true)]); ("pointLabels", VObj [("display", VBool false)]);
          ("startAngle", VNum 0%js)])])].
Definition pie_defaults : value :=
  VObj [("cutout", VNum 0%js); ("rotation", VNum 0%js); ("circumference", VNum 360%js); ("radius", VStr "100%")].
Definition radar_defaults : value :=
  VObj [
  ("datasetElementType", VStr "line"); ("dataElementType", VStr "point"); ("indexAxis", VStr "r"); ("showLine", VBool true);
  ("elements", VObj [("line", VObj [("fill", VStr "start")])])].
Definition radar_overrides : value :=
  VObj [("aspectRatio", VNum 1%js); ("scales", VObj [("r", VObj [("type", VStr "radialLinear")])])].
Definition scatter_defaults : value :=
  VObj [("showLine", VBool false); ("fill", VBool false)].
Definition scatter_overrides : value :=
  VObj [
  ("interaction", VObj [("mode", VStr "point")]);
  ("plugins", VObj [("tooltip", VObj [("callbacks", VObj [("title", VFun "title"); ("label", VFun "label")])])]);
  ("scales", VObj [("x", VObj [("type", VStr "linear")]); ("y", VObj [("type", VStr "linear")])])].
Definition arc_element_defaults : value :=
  VObj [
  ("borderAlign", VStr "center"); ("borderColor", VStr "#fff"); ("borderJoinStyle", Undefined); ("borderRadius", VNum 0%js);
  ("borderWidth", VNum 2%js); ("offset", VNum 0%js); ("spacing", VNum 0%js); ("angle", Undefined)].
Definition arc_element_routes : value :=
  VObj [("backgroundColor", VStr "backgroundColor")].
Definition line_element_defaults : value :=
  VObj [
  ("borderCapStyle", VStr "butt"); ("borderDash", VArr []); ("borderDashOffset", VNum 0%js); ("borderJoinStyle", VStr "miter");
  ("borderWidth", VNum 3%js); ("capBezierPoints", VBool true); ("cubicInterpolationMode", VStr "default");
  ("fill", VBool false); ("spanGaps", VBool false); ("stepped", VBool false); ("tension", VNum 0%js)].
Definition line_element_routes : value :=
  VObj [("backgroundColor", VStr "backgroundColor"); ("borderColor", VStr "borderColor")].
Definition line_element_descriptors : value :=
  VObj [("_scriptable", VBool true); ("_indexable", VFun "name !== 'borderDash' && name !== 'fill'")].
Definition point_element_defaults : value :=
  VObj [
  ("borderWidth", VNum 1%js); ("hitRadius", VNum 1%js); ("hoverBorderWidth", VNum 1%js); ("hoverRadius", VNum 4%js);
  ("pointStyle", VStr "circle"); ("radius", VNum 3%js); ("rotation", VNum 0%js)].
Definition point_element_routes : value :=
  VObj [("backgroundColor", VStr "backgroundColor"); ("borderColor", VStr "borderColor")].
Definition bar_element_defaults : value :=
  VObj [
  ("borderSkipped", VStr "start"); ("borderWidth", VNum 0%js); ("borderRadius", VNum 0%js); ("inflateAmount", VStr "auto");
  ("pointStyle", Undefined)].
Definition bar_element_routes : value :=
  VObj [("backgroundColor", VStr "backgroundColor"); ("borderColor", VStr "borderColor")].
Definition category_defaults : value :=
  VObj [("ticks", VObj [("callback", VFun "CategoryScale.prototype.getLabelForValue")])].
Definition linear_defaults : value :=
  VObj [("ticks", VObj [("callback", VFun "Ticks.formatters.numeric")])].
Definition logarithmic_defaults : value :=
  VObj [("ticks", VObj [("callback", VFun "Ticks.formatters.logarithmic"); ("major", VObj [("enabled", VBool true)])])].
Definition radialLinear_defaults : value :=
  VObj [
  ("display", VBool true); ("animate", VBool true); ("position", VStr "chartArea");
  ("angleLines", VObj [("display", VBool true); ("lineWidth", VNum 1%js); ("borderDash", VArr []); ("borderDashOffset", VNum 0%js)]);
  ("grid", VObj [("circular", VBool false)]); ("startAngle", VNum 0%js);
  ("ticks", VObj [("showLabelBackdrop", VBool true); ("callback", VFun "Ticks.formatters.numeric")]);
  ("pointLabels", VObj [
      ("backdropColor", Undefined); ("backdropPadding", VNum 2%js); ("display", VBool true);
      ("font", VObj [("size", VNum 10%js)]); ("callback", VFun "callback"); ("padding", VNum 5%js);
      ("centerPointLabels", VBool false)])].
Definition radialLinear_routes : value :=
  VObj [("angleLines.color", VStr "borderColor"); ("pointLabels.color", VStr "color"); ("ticks.color", VStr "color")].
Definition radialLinear_descriptors : value :=
  VObj [("angleLines", VObj [("_fallback", VStr "grid")])].
Definition time_defaults : value :=
  VObj [
  ("bounds", VStr "data"); ("adapters", VObj []);
  ("time", VObj [
      ("parser", VBool false); ("unit", VBool false); ("round", VBool false); ("isoWeekday", VBool false);
      ("minUnit", VStr "millisecond"); ("displayFormats", VObj [])]);
  ("ticks", VObj [("source", VStr "auto"); ("major", VObj [("enabled", VBool false)])])].
Definition decimation_defaults : value :=
  VObj [("algorithm", VStr "min-max"); ("enabled", VBool false)].
Definition filler_defaults : value :=
  VObj [("propagate", VBool true); ("drawTime", VStr "beforeDatasetDraw")].
Definition legend_defaults : value :=
  VObj [
  ("display", VBool true); ("position", VStr "top"); ("align", VStr "center"); ("fullSize", VBool true);
  ("reverse", VBool false); ("weight", VNum 1000%js); ("onClick", VFun "onClick"); ("onHover", Null); ("onLeave", Null);
  ("labels", VObj [
      ("color", VFun "ctx.chart.options.color"); ("boxWidth", VNum 40%js); ("padding", VNum 10%js);
      ("generateLabels", VFun "generateLabels")]);
  ("title", VObj [
      ("color", VFun "ctx.chart.options.color"); ("display", VBool false); ("position", VStr "center"); ("text", VStr "")])].
Definition legend_descriptors : value :=
  VObj [
  ("_scriptable", VFun "!name.startsWith('on')");
  ("labels", VObj [("_scriptable", VFun "!['generateLabels', 'filter', 'sort'].includes(name)")])].
Definition subtitle_defaults : value :=
  VObj [
  ("align", VStr "center"); ("display", VBool false); ("font", VObj [("weight", VStr "normal")]); ("fullSize", VBool true);
  ("padding", VNum 0%js); ("position", VStr "top"); ("text", VStr ""); ("weight", VNum 1500%js)].
Definition subtitle_routes : value :=
  VObj [("color", VStr "color")].
Definition subtitle_descriptors : value :=
  VObj [("_scriptable", VBool true); ("_indexable", VBool false)].
Definition title_defaults : value :=
  VObj [
  ("align", VStr "center"); ("display", VBool false); ("font", VObj [("weight", VStr "bold")]); ("fullSize", VBool true);
  ("padding", VNum 10%js); ("position", VStr "top"); ("text", VStr ""); ("weight", VNum 2000%js)].
Definition title_routes : value :=
  VObj [("color", VStr "color")].
Definition title_descriptors : value :=
  VObj [("_scriptable", VBool true); ("_indexable", VBool false)].
Definition tooltip_defaults : value :=
  VObj [
  ("enabled", VBool true); ("external", Null); ("position", VStr "average"); ("backgroundColor", VStr "rgba(0,0,0,0.8)");
  ("titleColor", VStr "#fff"); ("titleFont", VObj [("weight", VStr "bold")]); ("titleSpacing", VNum 2%js);
  ("titleMarginBottom", VNum 6%js); ("titleAlign", VStr "left"); ("bodyColor", VStr "#fff"); ("bodySpacing", VNum 2%js);
  ("bodyFont", VObj []); ("bodyAlign", VStr "left"); ("footerColor", VStr "#fff"); ("footerSpacing", VNum 2%js);
  ("footerMarginTop", VNum 6%js); ("footerFont", VObj [("weight", VStr "bold")]); ("footerAlign", VStr "left");
  ("padding", VNum 6%js); ("caretPadding", VNum 2%js); ("caretSize", VNum 5%js); ("cornerRadius", VNum 6%js);
  ("boxHeight", VFun "opts.bodyFont.size"); ("boxWidth", VFun "opts.bodyFont.size"); ("multiKeyBackground", VStr "#fff");
  ("displayColors", VBool true); ("boxPadding", VNum 0%js); ("borderColor", VStr "rgba(0,0,0,0)"); ("borderWidth", VNum 0%js);
  ("animation", VObj [("duration", VNum 400%js); ("easing", VStr "easeOutQuart")]);
  ("animations", VObj [
      ("numbers", VObj [
          ("type", VStr "number");
          ("properties", VArr [VStr "x"; VStr "y"; VStr "width"; VStr "height"; VStr "caretX"; VStr "caretY"])]);
      ("opacity", VObj [("easing", VStr "linear"); ("duration", VNum 200%js)])]);
  ("callbacks", VObj [
      ("beforeTitle", VFun "noop"); ("title", VFun "title"); ("afterTitle", VFun "noop"); ("beforeBody", VFun "noop");
      ("beforeLabel", VFun "noop"); ("label", VFun "label"); ("labelColor", VFun "labelColor");
      ("labelTextColor", VFun "labelTextColor"); ("labelPointStyle", VFun "labelPointStyle"); ("afterLabel", VFun "noop");
      ("afterBody", VFun "noop"); ("beforeFooter", VFun "noop"); ("footer", VFun "noop"); ("afterFooter", VFun "noop")])].
Definition tooltip_routes : value :=
  VObj [("bodyFont", VStr "font"); ("footerFont", VStr "font"); ("titleFont", VStr "font")].
Definition tooltip_descriptors : value :=
  VObj [
  ("_scriptable", VFun "name !== 'filter' && name !== 'itemSort' && name !== 'external'"); ("_indexable", VBool false);
  ("callbacks", VObj [("_scriptable", VBool false); ("_indexable", VBool false)]);
  ("animation", VObj [("_fallback", VBool false)]); ("animations", VObj [("_fallback", VStr "animation")])].

(** ** Loading *)
Local Notation "'let!' x := a 'in' b" := (match a with Some x => b | None => None end)
  (at level 10, x name, a at level 200, b at level 200).
(** [new Defaults(_descriptors)]. *)
Definition new_Defaults : option stores :=
  let! d := set_root (VObj []) defaults_descriptors in
  Some {| root := constructed; descriptors := d; overrides := VObj [] |}.
(** The calls of [set] and [describe] while the file is loaded, in its order. *)
Definition loaded : option stores :=
  let! d := new_Defaults in
  let! d := Defaults_set d "layout" layout_defaults in
  let! d := Defaults_set d "animation" animation_defaults in
  let! d := Defaults_describe d "animation" animation_descriptors in
  let! d := Defaults_set d "animations" animations_defaults in
  let! d := Defaults_describe d "animations" animations_descriptors in
  let! d := Defaults_set d "transitions" transitions_defaults in
  let! d := Defaults_set d "scale" scale_defaults in
  let! d := Defaults_describe d "scale" scale_descriptors in
  let! d := Defaults_describe d "scales" scales_descriptors in
  Defaults_describe d "scale.ticks" ticks_descriptors.
(** The calls of [route]. *)
Definition loaded_routes : list route :=
  [mkRoute "scale.ticks" "color" "" "color"; mkRoute "scale.grid" "color" "" "borderColor";
   mkRoute "scale.grid" "borderColor" "" "borderColor"; mkRoute "scale.title" "color" "" "color"].

(** ** The components *)
Definition routes_in (v : value) : list (string * string) :=
  match v with VObj o => List.map (fun kv => (fst kv, to_str (snd kv))) o | _ => [] end.
(** Static properties are inherited: a pie has the descriptors and overrides of a doughnut. *)
Definition controller (id : string) (proto : option component) (defaults overrides : value) (descriptors : option value) : component :=
  Comp id proto Controller defaults [] descriptors overrides [].
Definition BarController : component := controller "bar" None bar_defaults bar_overrides None.
Definition BubbleController : component := controller "bubble" None bubble_defaults bubble_overrides None.
Definition DoughnutController : component := controller "doughnut" None doughnut_defaults doughnut_overrides (Some doughnut_descriptors).
Definition LineController : component := controller "line" None line_defaults line_overrides None.
Definition PolarAreaController : component := controller "polarArea" None polarArea_defaults polarArea_overrides None.
Definition PieController : component :=
  controller "pie" (Some DoughnutController) pie_defaults doughnut_overrides (Some doughnut_descriptors).
Definition RadarController : component := controller "radar" None radar_defaults radar_overrides None.
Definition ScatterController : component := controller "scatter" (Some LineController) scatter_defaults scatter_overrides None.
Definition controllers : list component :=
  [BarController; BubbleController; DoughnutController; LineController; PolarAreaController; PieController; RadarController; ScatterController].
Definition element (id : string) (defaults routes : value) (descriptors : option value) : component :=
  Comp id None ElementKind defaults (routes_in routes) descriptors Undefined [].
Definition elements : list component :=
  [element "arc" arc_element_defaults arc_element_routes None;
   element "line" line_element_defaults line_element_routes (Some line_element_descriptors);
   element "point" point_element_defaults point_element_routes None;
   element "bar" bar_element_defaults bar_element_routes None].
Definition scale (id : string) (proto : option component) (defaults routes : value) (descriptors : option value) : component :=
  Comp id proto ScaleKind defaults (routes_in routes) descriptors Undefined [].
Definition TimeScale : component := scale "time" None time_defaults Undefined None.
Definition scales : list component :=
  [scale "category" None category_defaults Undefined None; scale "linear" None linear_defaults Undefined None;
   scale "logarithmic" None logarithmic_defaults Undefined None;
   scale "radialLinear" None radialLinear_defaults radialLinear_routes (Some radialLinear_descriptors); TimeScale;
   scale "timeseries" (Some TimeScale) time_defaults Undefined None].
Definition plugin (id : string) (defaults routes : value) (descriptors : option value) : component :=
  Comp id None PluginKind defaults (routes_in routes) descriptors Undefined [].
Definition plugins : list component :=
  [plugin "decimation" decimation_defaults Undefined None; plugin "filler" filler_defaults Undefined None;
   plugin "legend" legend_defaults Undefined (Some legend_descriptors);
   plugin "subtitle" subtitle_defaults subtitle_routes (Some subtitle_descriptors);
   plugin "title" title_defaults title_routes (Some title_descriptors);
   plugin "tooltip" tooltip_defaults tooltip_routes (Some tooltip_descriptors)].

(** [Chart.register] and [Chart.unregister]: the registries, and the plugin services of all
    charts with their caches invalidated. *)
Definition invalidatePlugins (instances : list Plugins.service) : list Plugins.service := List.map Plugins.invalidate instances.
Definition chart_register (rs : registries) (instances : list Plugins.service) (items : list arg) : outcome * list Plugins.service :=
  let o := add rs items in (o, if snd o then instances else invalidatePlugins instances).
Definition chart_unregister (rs : registries) (instances : list Plugins.service) (items : list arg) : outcome * list Plugins.service :=
  let o := remove rs items in (o, if snd o then instances else invalidatePlugins instances).
Definition groups : list arg := [Group controllers; Group scales; Group elements; Group plugins].
(** The registries after the file was loaded: [Chart.register(controllers, scales, elements, plugins)]. *)
Definition bundle : option outcome :=
  let! d := loaded in
  let rs := constructor d in
  Some (fst (chart_register (mkRegs (Registry.controllers rs) (Registry.elements rs) (Registry.plugins rs) (Registry.scales rs) (rdefs rs) loaded_routes)
    [] groups)).
End Bundle.

(** ** Facts *)
Module BundleFacts.
Import Js Core Registry Bundle.
Open Scope string_scope.

Definition is_some {A} (o : option A) : bool := match o with Some _ => true | None => false end.
Definition all_of (k : kind) : list component :=
  match k with Controller => controllers | ElementKind => elements | ScaleKind => scales | PluginKind => plugins end.

(** A component that is there with its prototypes is not registered again. *)
Definition present (r : typed) (c : component) : bool :=
  forallb (fun c => negb (String.eqb (id c) EmptyString) && is_some (item_get (items r) (id c))) (RegistryFacts.chain c).
Lemma register_self_again w c p :
  negb (String.eqb (id c) EmptyString) && is_some (item_get (items (reg w)) (id c)) = true ->
  register_self w c p = (w, Some (tscope (reg w) ++ "." ++ id c)).
Proof.
  intros [I G]%andb_prop. apply negb_true_iff in I. unfold register_self. rewrite I.
  destruct (item_get (items (reg w)) (id c)); [reflexivity|discriminate].
Qed.
Lemma register_again c : forall w, present (reg w) c = true -> register w c = (w, Some (tscope (reg w) ++ "." ++ id c)).
Proof.
  induction c as [c IH] using RegistryFacts.component_induction. intros w P. rewrite RegistryFacts.register_eq.
  unfold present in P. rewrite RegistryFacts.chain_eq in P. rewrite forallb_app in P. apply andb_prop in P as [P S].
  cbn in S. rewrite andb_true_r in S. destruct (proto c) as [p|]; [|now apply register_self_again].
  rewrite (IH w P). now apply register_self_again.
Qed.
Lemma put_world_same rs k : put_world rs k (mkWorld (sel rs k) (rdefs rs) (rroutes rs)) = rs.
Proof. destruct rs, k; reflexivity. Qed.
Definition all_present (rs : registries) (l : list component) : bool :=
  forallb (fun c => present (sel rs (_getRegistryForType rs c)) c) l.
Lemma exec_present rs c : present (sel rs (_getRegistryForType rs c)) c = true ->
  _exec Register (_getRegistryForType rs c) rs c = (rs, (hook c "beforeRegister" ++ hook c "afterRegister")%list, false).
Proof. intros P. unfold _exec. rewrite register_again by exact P. cbn -[sel _getRegistryForType hook]. now rewrite put_world_same. Qed.
(** So registering what is there leaves the registries and the defaults as they are. *)
Theorem registering_again rs l : all_present rs l = true -> exists hs, add rs [Group l] = (rs, hs, false).
Proof.
  intros A. enough (exists hs, exec_all Register rs l = (rs, hs, false)) as [hs H].
  { exists (hs ++ [])%list. unfold add. cbn. now rewrite H. }
  induction l as [|c l IH]; cbn [exec_all]; [now exists []|]. apply andb_prop in A as [P A]. rewrite exec_present by exact P.
  destruct (IH A) as [hs ->]. eauto.
Qed.

(** Loading the file and registering its components goes through; each is then found under its [id]. *)
Definition found (rs : registries) (k : kind) (c : component) : bool :=
  match _get rs k (id c) with Some c' => String.eqb (id c') (id c) && kind_eqb (ckind c') k | None => false end.
Example bundle_registers : exists rs hs, bundle = Some (rs, hs, false) /\
  forall k, forallb (found rs k) (all_of k) = true /\ length (items (sel rs k)) = length (all_of k).
Proof.
  destruct bundle as [[[rs hs] e]|] eqn:B; [|vm_compute in B; discriminate].
  exists rs, hs. vm_compute in B. injection B as <- <- <-. split; [reflexivity|]. intros []; now vm_compute.
Qed.
(** Every routed default reads a value: no route dangles. *)
Definition dangling (rs : registries) : list route :=
  List.filter (fun r => match read_route (rdefs rs) r with Undefined | Null => true | _ => false end) (rroutes rs).
Definition bundled : registries := match bundle with Some (rs, _, _) => rs | None => constructor {| root := VObj []; descriptors := VObj []; overrides := VObj [] |} end.
Example no_route_dangles : dangling bundled = [] /\ (length (rroutes bundled) > length loaded_routes)%nat.
Proof. split; [now vm_compute|]. apply Nat.ltb_lt. now vm_compute. Qed.
(** What a controller names among its defaults and overrides is registered: the element
    types, and the types of the scales. *)
Definition type_names (v : value) (keys : list string) : list string :=
  flat_map (fun k => match index v k with VStr s => [s] | _ => [] end) keys.
Definition scale_types (v : value) : list string :=
  match index v "scales" with VObj o => flat_map (fun kv => type_names (snd kv) ["type"]) o | _ => [] end.
Definition names_known (rs : registries) (c : component) : bool :=
  forallb (fun n => is_some (_get rs ElementKind n)) (type_names (cdefaults c) ["dataElementType"; "datasetElementType"]) &&
  forallb (fun n => is_some (_get rs ScaleKind n)) (scale_types (coverrides c)).
Example controllers_know_types : forallb (names_known bundled) controllers = true /\
  List.map (fun c => scale_types (coverrides c)) [BarController; PolarAreaController] = [["category"; "linear"]; ["radialLinear"]].
Proof. now vm_compute. Qed.
(** Registering the components of the bundle again: nothing changes. *)
Lemma bundle_again : exists hs, add bundled [Group (controllers ++ scales ++ elements ++ plugins)%list] = (bundled, hs, false).
Proof. apply registering_again. now vm_compute. Defined.
(** A pie keeps what it does not set of the doughnut it inherits from. *)
Definition default_at (scope key : string) : value :=
  match Defaults_get (rdefs bundled) scope with Some v => index v key | None => Undefined end.
Example pie_inherits :
  default_at "datasets.pie" "cutout" = VNum 0%js /\ default_at "datasets.doughnut" "cutout" = VStr "50%" /\
  default_at "datasets.pie" "animation" = default_at "datasets.doughnut" "animation" /\
  default_at "datasets.pie" "dataElementType" = VStr "arc" /\ default_at "datasets.scatter" "datasetElementType" = VStr "line".
Proof. now vm_compute. Qed.
End BundleFacts.
