(* ===== verification/WebUI.v ===== *)
(** The dashboard's own code (webui/src): the refresh manager of Utils.js, the
    statistics view of Overview.svelte and the script list of Scripts.svelte. *)
From Stdlib Require Import ZArith Lia Bool List Ascii String Sorted.
From Stdlib Require Import SpecFloat.
From stdpp Require Import base list.
From S2P Require Import Prelude JsNumber JsString JsArray JsValue.
Import ListNotations.
Open Scope Z_scope.

(** ** RefreshManager

    An asynchronous call waits for the refresh callback and then sets an
    interval; [live] are the intervals that the browser still runs. *)
Module Refresh.

(** A rate is the text of the selected option. *)
Definition rate := string.
Inductive pending := Init (r : rate) | Again (r : rate).
Record manager := mkManager {
  initDone : bool; oldRefreshRate : option rate; refreshIntervalTimeoutId : nat;
  live : list (nat * rate); waiting : list pending; next_id : nat; destroyed : bool }.

(** The constructor's [onMount], which calls the callback. *)
Definition mount (r : rate) : manager := mkManager false None 0 [] [Init r] 1 false.
Definition clearInterval (id : nat) (l : list (nat * rate)) : list (nat * rate) :=
  List.filter (fun p => negb (Nat.eqb (fst p) id)) l.
(** [setInterval]: a fresh interval whose id is stored. *)
Definition setInterval (m : manager) (init : bool) (old : option rate) (r : rate) (w : list pending) : manager :=
  mkManager init old (next_id m) (live m ++ [(next_id m, r)]) w (S (next_id m)) (destroyed m).
(** What follows the [await], when the [k]-th waiting call's callback is done. *)
Definition resume (m : manager) (k : nat) : manager :=
  match nth_error (waiting m) k with
  | Some (Init r) => setInterval m true (Some r) r (firstn k (waiting m) ++ skipn (S k) (waiting m))
  | Some (Again r) => setInterval m (initDone m) (oldRefreshRate m) r (firstn k (waiting m) ++ skipn (S k) (waiting m))
  | None => m
  end.
Definition same_rate (o : option rate) (r : rate) : bool := match o with Some x => String.eqb x r | None => false end.
Definition refresh (m : manager) (r : rate) : manager :=
  if negb (same_rate (oldRefreshRate m) r) && initDone m then
    mkManager (initDone m) (Some r) (refreshIntervalTimeoutId m)
      (clearInterval (refreshIntervalTimeoutId m) (live m)) (waiting m ++ [Again r]) (next_id m) (destroyed m)
  else m.
Definition destroy (m : manager) : manager :=
  mkManager (initDone m) (oldRefreshRate m) (refreshIntervalTimeoutId m)
    (clearInterval (refreshIntervalTimeoutId m) (live m)) (waiting m) (next_id m) true.

(** What can happen to a mounted manager, in any order. *)
Inductive step : manager -> manager -> Prop :=
| s_resume m k : (k < List.length (waiting m))%nat -> step m (resume m k)
| s_refresh m r : destroyed m = false -> step m (refresh m r)
| s_destroy m : destroyed m = false -> step m (destroy m).
Inductive reach (r : rate) : manager -> Prop :=
| r_mount : reach r (mount r)
| r_step m m' : reach r m -> step m m' -> reach r m'.

(** The same when nothing happens while a callback is awaited. *)
Inductive quiet_step : manager -> manager -> Prop :=
| q_resume m : quiet_step m (resume m 0)
| q_refresh m r : waiting m = [] -> destroyed m = false -> quiet_step m (refresh m r)
| q_destroy m : waiting m = [] -> destroyed m = false -> quiet_step m (destroy m).
Inductive quiet (r : rate) : manager -> Prop :=
| qr_mount : quiet r (mount r)
| qr_step m m' : quiet r m -> quiet_step m m' -> quiet r m'.
End Refresh.

(** ** Overview *)
Module Overview.

(** [toScatterData]: [src] maps a time in seconds to a count; [now] is the
    current time.  The values from [min] in steps of [interval] up to [max]. *)
Record scatter := mkScatter { values : list (num * num); smin : num; smax : num }.
Definition src_get (src : list (Z * Z)) (k : num) : option Z :=
  match List.find (fun p => Num.eq (Num.of_Z (fst p)) k) src with Some (_, c) => Some c | None => None end.
Fixpoint scatter_loop (fuel : nat) (src : list (Z * Z)) (i max : num) (interval : num) : option (list (num * num)) :=
  match fuel with
  | O => None
  | S f =>
      if Num.le i max then
        match scatter_loop f src (i + interval)%js max interval with
        | Some r => Some ((i, match src_get src i with Some c => Num.of_Z c | None => 0%js end) :: r)
        | None => None
        end
      else Some []
  end.
Definition toScatterData (fuel : nat) (src : list (Z * Z)) (interval now : num) : option scatter :=
  let ks := List.map (fun p => Num.of_Z (fst p)) src in
  let min := fold_left Num.min ks Num.infinity in
  let max := Num.max (fold_left Num.max ks (Num.opp Num.infinity)) now in
  match scatter_loop fuel src min max interval with
  | Some v => Some (mkScatter v min max)
  | None => None
  end.

Definition padStart2 (s : string) : string := if Nat.ltb (String.length s) 2 then String "0" s else s.
Definition two (x : num) : string := padStart2 (NumStr.print (Num.floor x)).
Definition formatDuration (seconds : num) : string :=
  let s := two (Num.rem seconds 60%js) in
  let m := two (Num.rem (seconds / 60)%js 60%js) in
  let h := two (Num.rem (seconds / 3600)%js 24%js) in
  let d := Num.floor (seconds / (3600 * 24))%js in
  ((if Num.le 0%js d then NumStr.print d ++ " days " else "") ++ h ++ ":" ++ m ++ ":" ++ s)%string.

Record stats := mkStats {
  total_msg_count : num; retained_msg_count : num; retained_msg_size_sum : num; app_state_queue_depth : num;
  current_sleep_level : string; active_subscriptions : list (string * num); uptime_seconds : num }.
Record view := mkView {
  totalMessageCount : num; retainedMsgCount : num; retainedMsgBytes : num; appQueueDepth : num;
  appSleepState : string; activeSubscriptions : num; uptime : num }.
(** The micro sign of "10us" is written with a [u]. *)
Definition sleep_text (level : string) : string :=
  if String.eqb level "tens_of_milliseconds" then "10ms"
  else if String.eqb level "milliseconds" then "1ms"
  else if String.eqb level "microseconds" then "10us"
  else if String.eqb level "yield" then "yield"
  else level.
Definition onDataReceived (s : stats) : view :=
  mkView (total_msg_count s) (retained_msg_count s) (retained_msg_size_sum s) (app_state_queue_depth s)
    (sleep_text (current_sleep_level s))
    (fold_left (fun sum kv => Num.add sum (snd kv)) (active_subscriptions s) 0%js) (uptime_seconds s).
End Overview.

(** ** Scripts *)
Module Scripts.

(** A script of the list; [state] is missing until the server's list is loaded. *)
Record script := mkScript { name : string; active : option bool; state : option string }.
Definition scripts := list (string * script).
Definition get (l : scripts) (k : string) : option script :=
  match List.find (fun p => String.eqb k (fst p)) l with Some (_, s) => Some s | None => None end.
Fixpoint put (l : scripts) (k : string) (s : script) : scripts :=
  match l with
  | [] => [(k, s)]
  | (j, t) :: r => if String.eqb k j then (j, s) :: r else (j, t) :: put r k s
  end.

(** [encodeURIComponent] on ASCII. *)
Definition unreserved (c : ascii) : bool :=
  Str.in_range 65 90 c || Str.in_range 97 122 c || Str.is_digit c || Str.one_of "-_.!~*'()" c.
Definition hex_digit (n : nat) : ascii := match String.get n "0123456789ABCDEF" with Some c => c | None => "0"%char end.
Fixpoint encodeURIComponent (s : string) : string :=
  match s with
  | EmptyString => EmptyString
  | String c r =>
      if unreserved c then String c (encodeURIComponent r)
      else let n := nat_of_ascii c in
           String "%" (String (hex_digit (Nat.div n 16)) (String (hex_digit (Nat.modulo n 16)) (encodeURIComponent r)))
  end.
Inductive meth := POST | DELETE | PUT | GET.
Definition request := (meth * string)%type.
Definition activate_request (s : string) : request := (POST, "/scripts/" ++ encodeURIComponent s ++ "/activate")%string.
Definition deactivate_request (s : string) : request := (POST, "/scripts/" ++ encodeURIComponent s ++ "/deactivate")%string.
Definition delete_request (s : string) : request := (DELETE, "/scripts/" ++ s)%string.
Definition put_request (s : string) : request := (PUT, "/scripts/" ++ s)%string.
(** The path a server sees: the text up to the query or the fragment. *)
Fixpoint path_of (s : string) : string :=
  match s with
  | EmptyString => EmptyString
  | String c r => if Str.one_of "?#" c then EmptyString else String c (path_of r)
  end.

(** The toggle after the request of [activate] and [deactivate]; None: the script
    is no longer listed and reading it throws. *)
Definition toggle (l : scripts) (k : string) : option scripts :=
  match get l k with
  | Some s => Some (put l k (mkScript (name s) (Some (negb (match active s with Some b => b | None => false end))) (state s)))
  | None => None
  end.
Definition deleteScript (l : scripts) (k : string) (confirmed : bool) (status : Z) : scripts :=
  if negb confirmed then l
  else if negb (status =? 200) then l
  else List.filter (fun p => negb (String.eqb k (fst p))) l.

(** The keys in the order of [sort], then the object rebuilt in that order. *)
Fixpoint insert_key (k : string) (l : list string) : list string :=
  match l with
  | [] => [k]
  | x :: r => if String.leb k x then k :: l else x :: insert_key k r
  end.
Definition sort_keys (l : list string) : list string := fold_right insert_key [] l.
Definition newScript (l : scripts) (answer : option string) (status : Z) : scripts :=
  match answer with
  | None => l
  | Some k =>
      if negb (status =? 200) then l
      else
        let l := put l k (mkScript k (Some true) None) in
        omap (fun key => match get l key with Some s => Some (key, s) | None => None end) (sort_keys (List.map fst l))
  end.
End Scripts.

(** ** Facts *)
Module RefreshFacts.
Import Refresh.

(** When no change of the rate and no removal comes while a callback is
    awaited, a mounted dashboard runs exactly one interval, at the rate it was last
    given; while a callback is awaited and after removal it runs none. *)
Theorem one_interval r m : quiet r m ->
  if destroyed m then live m = [] /\ waiting m = []
  else match waiting m with
       | [] => exists q, oldRefreshRate m = Some q /\ live m = [(refreshIntervalTimeoutId m, q)] /\ initDone m = true
       | [Again q] => oldRefreshRate m = Some q /\ live m = [] /\ initDone m = true
       | [Init q] => live m = [] /\ initDone m = false
       | _ => False
       end.
Proof.
  induction 1 as [|m m' Q IH S]; [cbn; auto|]. destruct S as [m|m q W D|m W D].
  - unfold resume. destruct (destroyed m) eqn:Dm.
    + destruct IH as [L W]. rewrite W. cbn. rewrite Dm. auto.
    + destruct (waiting m) as [|[q|q] [|]] eqn:W; try contradiction; cbn [nth_error].
      * rewrite Dm, W. exact IH.
      * destruct IH as [L I]. unfold setInterval. cbn. rewrite Dm, L. eauto.
      * destruct IH as (O & L & I). unfold setInterval. cbn. rewrite Dm, L. eauto.
  - rewrite D, W in IH. destruct IH as (p & O & L & I). unfold refresh. rewrite I, O. cbn [same_rate].
    destruct (String.eqb p q); cbn [negb andb]; [rewrite D, W; eauto|].
    cbn. rewrite D, W, L. cbn. rewrite Nat.eqb_refl. auto.
  - rewrite D, W in IH. destruct IH as (p & O & L & I). cbn. rewrite L, W. cbn. rewrite Nat.eqb_refl. auto.
Qed.

(** Two changes of the rate that overlap leave an interval that nothing clears
    any more: a removed dashboard can keep refreshing for ever. *)
Theorem overlapping_refresh_leaks :
  exists m, reach "15000"%string m /\ destroyed m = true /\ waiting m = [] /\ live m <> [].
Proof.
  set (m1 := resume (mount "15000"%string) 0). set (m2 := refresh m1 "1000"%string). set (m3 := refresh m2 "5000"%string).
  set (m4 := resume m3 0). set (m5 := resume m4 0). exists (destroy m5).
  split; [|split; [reflexivity|split; [reflexivity|discriminate]]].
  assert (R1 : reach "15000"%string m1) by (apply r_step with (mount "15000"%string); [constructor|apply s_resume; cbn; lia]).
  assert (R2 : reach "15000"%string m2) by (apply r_step with m1; [exact R1|now apply s_refresh]).
  assert (R3 : reach "15000"%string m3) by (apply r_step with m2; [exact R2|now apply s_refresh]).
  assert (R4 : reach "15000"%string m4) by (apply r_step with m3; [exact R3|apply s_resume; cbn; lia]).
  assert (R5 : reach "15000"%string m5) by (apply r_step with m4; [exact R4|apply s_resume; cbn; lia]).
  apply r_step with m5; [exact R5|now apply s_destroy].
Qed.

(** A rate that is chosen before the first answer of the server is lost: when
    the answer arrives, the interval runs at the old rate. *)
Theorem early_rate_lost r q : String.eqb r q = false ->
  let m := resume (refresh (mount r) q) 0 in
  reach r m /\ oldRefreshRate m = Some r /\ live m = [(1%nat, r)] /\ waiting m = [].
Proof.
  intros N m. split; [|auto]. apply r_step with (refresh (mount r) q); [|apply s_resume; cbn; lia].
  apply r_step with (mount r); [constructor|now apply s_refresh].
Qed.

(** A rate chosen after the first interval replaces it. *)
Lemma one_interval_witness :
  let m := resume (refresh (resume (mount "15000"%string) 0) "1000"%string) 0 in
  exists q, oldRefreshRate m = Some q /\ live m = [(refreshIntervalTimeoutId m, q)].
Proof.
  destruct (one_interval "15000"%string (resume (refresh (resume (mount "15000"%string) 0) "1000"%string) 0)) as (q & O & L & _).
  - eapply qr_step; [eapply qr_step; [eapply qr_step; [apply qr_mount|]|]|]; constructor; reflexivity.
  - exists q. auto.
Defined.
End RefreshFacts.

Module ScriptsFacts.
Import Scripts.

Lemma sort_keys_In k l : In k (sort_keys l) <-> In k l.
Proof.
  assert (I : forall x l, In k (insert_key x l) <-> x = k \/ In k l).
  { clear l. intros x. induction l as [|y r IH]; cbn; [tauto|]. destruct (String.leb x y); cbn; [tauto|].
    rewrite IH. tauto. }
  induction l as [|x r IH]; cbn; [reflexivity|]. rewrite I, IH. tauto.
Qed.
Lemma leb_total a b : String.leb a b = false -> String.leb b a = true.
Proof. unfold String.leb. rewrite String.compare_antisym. destruct (String.compare b a); cbn; congruence. Qed.
Lemma sort_keys_sorted l : Sorted (fun a b => String.leb a b = true) (sort_keys l).
Proof.
  induction l as [|x l0 IH]; [constructor|]. change (sort_keys (x :: l0)) with (insert_key x (sort_keys l0)).
  revert IH. generalize (sort_keys l0) as l. clear l0.
  induction l as [|y r IH]; intros S; cbn; [repeat constructor|].
  destruct (String.leb x y) eqn:E; [constructor; [exact S|now constructor]|].
  inversion S as [|? ? S' Hd]; subst. constructor; [now apply IH|].
  destruct r as [|z r]; cbn; [constructor; now apply leb_total|].
  destruct (String.leb x z); constructor; [now apply leb_total|]. now inversion Hd.
Qed.

Lemma script_get_put_eq l k s : get (put l k s) k = Some s.
Proof.
  unfold get. induction l as [|[j t] r IH]; cbn; [now rewrite String.eqb_refl|].
  destruct (String.eqb k j) eqn:E; cbn; rewrite E; [reflexivity|exact IH].
Qed.
Lemma script_get_put_ne l k j s : String.eqb j k = false -> get (put l k s) j = get l j.
Proof.
  intros N. unfold get. induction l as [|[i t] r IH]; cbn; [now rewrite N|].
  destruct (String.eqb k i) eqn:E; cbn.
  - apply String.eqb_eq in E. subst. now rewrite N.
  - destruct (String.eqb j i); [reflexivity|exact IH].
Qed.
Lemma get_keys l k s : get l k = Some s -> In k (List.map fst l).
Proof.
  unfold get. destruct (List.find _ _) as [[j t]|] eqn:F; [|discriminate]. intros [= ->].
  apply List.find_some in F as [I E]. apply String.eqb_eq in E. cbn in E. subst. now apply (in_map fst) in I.
Qed.

(** A new script is listed, active, under its name, the other scripts are
    unchanged, and the list is sorted by name. *)
Theorem newScript_sorted l k :
  let l' := newScript l (Some k) 200 in
  get l' k = Some (mkScript k (Some true) None) /\
  (forall j, String.eqb j k = false -> get l' j = get l j) /\
  Sorted (fun a b => String.leb a b = true) (List.map fst l').
Proof.
  cbn zeta. unfold newScript. cbn [Z.eqb negb]. change (negb (200 =? 200)) with false. cbn iota.
  set (m := put l k (mkScript k (Some true) None)).
  assert (G : forall ks j, get (omap (fun key => match get m key with Some s => Some (key, s) | None => None end) ks) j =
                           if existsb (String.eqb j) ks then get m j else None).
  { induction ks as [|x ks IH]; intros j; [reflexivity|]. cbn [omap list_omap existsb].
    destruct (String.eqb j x) eqn:E.
    - apply String.eqb_eq in E. subst. cbn [orb]. destruct (get m x) as [s|] eqn:M.
      + unfold get. cbn. now rewrite String.eqb_refl.
      + change (get (omap (fun key => match get m key with Some s => Some (key, s) | None => None end) ks) x = None).
        rewrite IH. destruct (existsb _ ks); [exact M|reflexivity].
    - cbn [orb]. destruct (get m x) as [s|]; [|apply IH]. rewrite <- IH. unfold get at 1. cbn. now rewrite E. }
  assert (A : forall j, get (omap (fun key => match get m key with Some s => Some (key, s) | None => None end)
                              (sort_keys (List.map fst m))) j = get m j).
  { intros j. rewrite G. destruct (existsb (String.eqb j) (sort_keys (List.map fst m))) eqn:E; [reflexivity|].
    destruct (get m j) as [s|] eqn:M; [|reflexivity]. apply get_keys in M. apply (proj2 (sort_keys_In _ _)) in M.
    assert (existsb (String.eqb j) (sort_keys (List.map fst m)) = true); [|congruence].
    apply List.existsb_exists. exists j. split; [auto|apply String.eqb_refl]. }
  split; [rewrite A; apply script_get_put_eq|]. split; [intros j N; rewrite A; now apply script_get_put_ne|].
  assert (K : List.map fst (omap (fun key => match get m key with Some s => Some (key, s) | None => None end)
                (sort_keys (List.map fst m))) = sort_keys (List.map fst m)).
  { assert (Al : forall j, In j (sort_keys (List.map fst m)) -> exists s, get m j = Some s).
    { intros j I. apply (proj1 (sort_keys_In _ _)) in I. apply in_map_iff in I as ([x s] & <- & I). cbn. unfold get.
      destruct (List.find (fun p => String.eqb x (fst p)) m) as [[y t]|] eqn:F; [eauto|].
      apply (List.find_none _ _ F) in I. cbn in I. rewrite String.eqb_refl in I. discriminate. }
    revert Al. generalize (sort_keys (List.map fst m)). intros ks. induction ks as [|x ks IH]; intros Al; [reflexivity|].
    cbn [omap list_omap]. destruct (Al x (or_introl eq_refl)) as [s ->]. cbn. f_equal. apply IH. intros j I. apply Al. now right. }
  match goal with |- Sorted _ ?x => replace x with (sort_keys (List.map fst m)) by (symmetry; exact K) end.
  apply sort_keys_sorted.
Qed.

(** Only some requests encode the script's name: for a name with a question
    mark, activating addresses the script, but deleting addresses another one,
    whose name is what comes before the mark. *)
Theorem delete_not_encoded :
  path_of (snd (activate_request "a?b")) = "/scripts/a%3Fb/activate"%string /\
  path_of (snd (delete_request "a?b")) = path_of (snd (delete_request "a")) /\
  path_of (snd (put_request "a?b")) = path_of (snd (put_request "a")).
Proof. repeat split; reflexivity. Qed.
End ScriptsFacts.
