(* ===== verification/Dashboard.v ===== *)
(** The pages of the dashboard (webui/src): the navigation of App.svelte, the editor of
    Edit.svelte, the script list of Scripts.svelte with its requests under way, the graphs
    of Overview.svelte, and the refresh manager of Utils.js when the server does not answer.
    Proved among others: the tiles of the script list send their requests for the script
    whose row they are in. *)
From Stdlib Require Import ZArith Lia Bool List Ascii String.
From stdpp Require Import base list strings.
From S2P Require Import Prelude JsNumber JsString JsArray JsValue WebUI.
Import ListNotations.
Local Open Scope string_scope.
Open Scope Z_scope.

(** ** App.svelte *)
Module Pages.

(** A nav element: the pages it stands for, the first of which it opens, and its text. *)
Definition navElements : list (list string * string) :=
  [(["index.html"], "Overview"); (["scripts.html"; "edit.html"], "Scripts"); (["settings.html"], "Settings")].
(** An address by what changes: the last part of the path, and the query. *)
Record url := mkUrl { last : string; query : option string }.
Record app := mkApp { currentPage : string; refreshRate : string; entries : list url; position : nat }.
Definition load (u : url) : app := mkApp (last u) "15000" [u] 0.
(** A click: the page is set, and an entry pushed over those after the current one. *)
Definition click (a : app) (i : nat) : app :=
  match navElements !! i with
  | Some (href :: _, _) => mkApp href (refreshRate a) (firstn (S (position a)) (entries a) ++ [mkUrl href None])%list (S (position a))
  | _ => a
  end.
(** The browser's buttons between entries that were pushed only change the address: nothing
    listens to [popstate].  Steps out of the list leave the document. *)
Definition go (a : app) (p : nat) : app :=
  if Nat.ltb p (length (entries a)) then mkApp (currentPage a) (refreshRate a) (entries a) p else a.
Definition select (a : app) (r : string) : app := mkApp (currentPage a) r (entries a) (position a).
Definition bold (a : app) (e : list string * string) : bool := existsb (String.eqb (currentPage a)) (fst e).
Inductive page := OverviewPage | ScriptsPage | SettingsPage | EditPage | ErrorPage.
Definition shown (a : app) : page :=
  if String.eqb (currentPage a) "index.html" then OverviewPage
  else if String.eqb (currentPage a) "scripts.html" then ScriptsPage
  else if String.eqb (currentPage a) "settings.html" then SettingsPage
  else if String.eqb (currentPage a) "edit.html" then EditPage
  else ErrorPage.
Inductive action := Click (i : nat) | Back | Forward | Select (r : string).
Definition act (a : app) (x : action) : app :=
  match x with
  | Click i => click a i
  | Back => go a (pred (position a))
  | Forward => go a (S (position a))
  | Select r => select a r
  end.
End Pages.

(** ** Edit.svelte *)
Module Editor.
Section Editor.
(** What CodeMirror gives back of a text put into it. *)
Context (document_of : string -> string).

Record editor := mkEditor {
  file : option string; doc : string; loading : bool; attached : bool; on_page : bool; puts : list (string * string); errors : nat }.
(** [new URLSearchParams(search).get(name)] on ASCII: the fields between ampersands, each
    split at its first equals sign and decoded; the first of the name counts. *)
Fixpoint cut (c : ascii) (s : string) : string * option string :=
  match s with
  | EmptyString => (EmptyString, None)
  | String x r => if Ascii.eqb x c then (EmptyString, Some r)
                  else let '(a, b) := cut c r in (String x a, b)
  end.
Fixpoint fields (s : string) : list string :=
  match s with
  | EmptyString => [EmptyString]
  | String x r =>
      if Ascii.eqb x "&" then EmptyString :: fields r
      else match fields r with f :: fs => String x f :: fs | [] => [String x EmptyString] end
  end.
Definition hex_value (c : ascii) : option nat :=
  let n := nat_of_ascii c in
  if Str.in_range 48 57 c then Some (n - 48)%nat
  else if Str.in_range 65 70 c then Some (n - 55)%nat
  else if Str.in_range 97 102 c then Some (n - 87)%nat else None.
Fixpoint form_decode (s : string) : string :=
  match s with
  | EmptyString => EmptyString
  | String x r =>
      if Ascii.eqb x "+" then String " " (form_decode r)
      else if Ascii.eqb x "%" then
        match r with
        | String a (String b r') =>
            match hex_value a, hex_value b with
            | Some m, Some n => String (ascii_of_nat (16 * m + n)) (form_decode r')
            | _, _ => String x (form_decode r)
            end
        | _ => String x (form_decode r)
        end
      else String x (form_decode r)
  end.
Definition search_param (name search : string) : option string :=
  let body := match search with String x r => if Ascii.eqb x "?" then r else search | EmptyString => search end in
  match List.find (fun f => String.eqb (form_decode (fst (cut "=" f))) name) (fields body) with
  | Some f => Some (form_decode (default EmptyString (snd (cut "=" f))))
  | None => None
  end.
(** The script a page at the address is opened for, if it is the editor. *)
Definition opened_for (address : string) : option string :=
  match cut "?" (fst (cut "#" address)) with
  | ("edit.html", Some q) => search_param "script" (String "?" q)
  | _ => None
  end.
(** Opened at the query's script; without one the file is null. *)
Definition file_text (f : option string) : string := match f with Some s => s | None => "null" end.
Definition address (e : editor) : string := "/scripts/" ++ file_text (file e).
Definition mounted (f : option string) : editor := mkEditor f (document_of "") true false true [] 0.
Inductive response := Answer (status : Z) (code : string) | Rejected.
(** The answer to the request for the code.  On another page the element is gone, and
    appending to it throws. *)
Definition answered (e : editor) (r : response) : editor :=
  if negb (loading e) then e else
  match r with
  | Rejected => mkEditor (file e) (doc e) false (attached e) (on_page e) (puts e) (S (errors e))
  | Answer status code =>
      if negb (status =? 200) then mkEditor (file e) (doc e) false (attached e) (on_page e) (puts e) (S (errors e))
      else mkEditor (file e) (document_of code) false (on_page e) (on_page e) (puts e) (if on_page e then errors e else S (errors e))
  end.
Definition typed (e : editor) (text : string) : editor :=
  if attached e && on_page e then mkEditor (file e) text (loading e) (attached e) (on_page e) (puts e) (errors e) else e.
Definition saveScript (e : editor) : editor :=
  mkEditor (file e) (doc e) (loading e) (attached e) (on_page e) (puts e ++ [(address e, doc e)])%list (errors e).
(** The listener of the keyboard is the document's: it is not removed with the page. *)
Inductive action := Answered (r : response) | Typed (text : string) | SaveButton | CtrlS | LeavePage.
Definition act (e : editor) (x : action) : editor :=
  match x with
  | Answered r => answered e r
  | Typed t => typed e t
  | SaveButton => if on_page e then saveScript e else e
  | CtrlS => saveScript e
  | LeavePage => mkEditor (file e) (doc e) (loading e) false false (puts e) (errors e)
  end.
End Editor.
End Editor.

(** ** Scripts.svelte, with its requests *)
Module ScriptPage.
Import Scripts.

Inductive task := Toggling (k : string) | Deleting (k : string) | Creating (k : string) | Fetching.
Record list_page := mkPage { list_of : scripts; tasks : list task; sent : list request; errors : nat }.
Definition opened : list_page := mkPage [] [] [] 0.
Definition send (p : list_page) (r : request) (t : task) : list_page := mkPage (list_of p) (tasks p ++ [t])%list (sent p ++ [r])%list (errors p).
Definition updateStatus (p : list_page) : list_page := send p (GET, "/scripts"%string) Fetching.
Inductive click := Activate (k : string) | Deactivate (k : string) | Delete (k : string) (confirmed : bool) | New (answer : option string) | Refresh.
Definition clicked (p : list_page) (c : click) : list_page :=
  match c with
  | Activate k => send p (activate_request k) (Toggling k)
  | Deactivate k => send p (deactivate_request k) (Toggling k)
  | Delete k confirmed => if negb confirmed then p else send p (delete_request k) (Deleting k)
  | New None => p
  | New (Some k) => send p (put_request k) (Creating k)
  | Refresh => updateStatus p
  end.
Inductive response := Status (status : Z) | Listing (l : scripts) | Rejected.
Definition with_list (p : list_page) (l : scripts) : list_page := mkPage l (tasks p) (sent p) (errors p).
Definition throw (p : list_page) : list_page := mkPage (list_of p) (tasks p) (sent p) (S (errors p)).
(** What follows the [await] of a request.  Activating does not look at the status. *)
Definition resumed (p : list_page) (t : task) (r : response) : list_page :=
  match t, r with
  | _, Rejected => throw p
  | Toggling k, _ => match toggle (list_of p) k with Some l => updateStatus (with_list p l) | None => throw p end
  | Deleting k, Status s => with_list p (deleteScript (list_of p) k true s)
  | Creating k, Status s => with_list p (newScript (list_of p) (Some k) s)
  | Fetching, Listing l => with_list p l
  | _, _ => throw p
  end.
(** The answers come in any order. *)
Definition answer (p : list_page) (i : nat) (r : response) : list_page :=
  match tasks p !! i with
  | Some t => resumed (mkPage (list_of p) (delete i (tasks p)) (sent p) (errors p)) t r
  | None => p
  end.
Inductive event := Clicked (c : click) | Answered (i : nat) (r : response).
Definition react (p : list_page) (e : event) : list_page :=
  match e with Clicked c => clicked p c | Answered i r => answer p i r end.
(** The middle tile of a script: the text and what a click does. *)
Definition tile (key : string) (s : script) : string * option click :=
  match state s with
  | Some st => if String.eqb st "running" then ("Deactivate", Some (Deactivate key))
               else if String.eqb st "deactivated" then ("Activate", Some (Activate key))
               else (st, None)
  | None => ("undefined", None)
  end.
(** Where the Edit tile leads: a text in the page, for names without quotes and backslashes. *)
Definition edit_link (key : string) : string := "edit.html?script=" ++ key.
(** A row: the name it shows, the middle tile, where Edit leads and what Delete is about. *)
Record row := mkRow { shown : string; middle : string * option click; edits : string; deletes : string }.
Definition rows (p : list_page) : list row :=
  omap (fun k => match get (list_of p) k with
                 | Some s => Some (mkRow (name s) (tile k s) (edit_link k) k) | None => None end)
    (sort_keys (List.map fst (list_of p))).
End ScriptPage.

(** ** Overview.svelte's refresh *)
Module Graphs.
Import Overview.
(** A graph by what can differ: its canvas, colour, data and the limits of its x axis. *)
Record graph := mkGraph { canvas : string; color : string; data : list (num * num); xmin : num; xmax : num }.
(** The configuration given to the chart; the functions for times are named by what they
    print. *)
Definition config (g : graph) : value :=
  VObj [("type", VStr "scatter");
        ("data", VObj [("datasets", VArr [VObj [("label", VStr "test"); ("backgroundColor", VStr (color g)); ("borderColor", VStr (color g));
                                               ("data", VArr (List.map (fun p => VObj [("x", VNum (fst p)); ("y", VNum (snd p))]) (data g)))]])]);
        ("options", VObj [("showLine", VBool true); ("elements", VObj [("point", VObj [("radius", VNum 0%js)])]);
                          ("plugins", VObj [("legend", VObj [("display", VBool false)]);
                                            ("tooltip", VObj [("callbacks", VObj [("label", VFun "time: count")])])]);
                          ("scales", VObj [("x", VObj [("ticks", VObj [("callback", VFun "time")]); ("min", VNum (xmin g)); ("max", VNum (xmax g))]);
                                           ("y", VObj [("min", VNum 0%js)])])])].
Definition drawHistogram (canvasId color : string) (s : scatter) : graph := mkGraph canvasId color (values s) (smin s) (smax s).
(** The function that [drawHistogram] returns. *)
Definition update_graph (g : graph) (s : scatter) : graph := mkGraph (canvas g) (color g) (values s) (smin s) (smax s).
Record overview := mkOverview { firstRefresh : bool; graphSeconds : option graph; graphMinutes : option graph; shown : option view; drawn : nat }.
Definition mounted : overview := mkOverview true None None None 0.
(** The callback after its two awaits. *)
Definition refreshed (o : overview) (msg_per_second msg_per_minute : scatter) (s : stats) : overview :=
  if firstRefresh o then
    mkOverview false (Some (drawHistogram "messagesPerSecond" "rgb(255, 99, 132)" msg_per_second))
      (Some (drawHistogram "messagesPerMinute" "rgb(211,99,255)" msg_per_minute)) (Some (onDataReceived s)) (S (S (drawn o)))
  else
    mkOverview false (option_map (fun g => update_graph g msg_per_second) (graphSeconds o))
      (option_map (fun g => update_graph g msg_per_minute) (graphMinutes o)) (Some (onDataReceived s)) (drawn o).
End Graphs.

(** ** Utils.js when a request fails *)
Module RefreshFailures.
Import WebUI.Refresh.
(** The callback of the [k]-th waiting call rejects: what follows its [await] is skipped. *)
Definition reject (m : manager) (k : nat) : manager :=
  mkManager (initDone m) (oldRefreshRate m) (refreshIntervalTimeoutId m) (live m)
    (firstn k (waiting m) ++ skipn (S k) (waiting m)) (next_id m) (destroyed m).
Inductive step' : manager -> manager -> Prop :=
| f_step m m' : step m m' -> step' m m'
| f_reject m k : (k < List.length (waiting m))%nat -> step' m (reject m k).
Inductive steps : manager -> manager -> Prop :=
| f_none m : steps m m
| f_more m m' m'' : steps m m' -> step' m' m'' -> steps m m''.
End RefreshFailures.

(** ** Facts *)
Module PagesFacts.
Import Pages.

Definition served : list string := ["index.html"; "scripts.html"; "settings.html"; "edit.html"].
Definition current (a : app) : option url := entries a !! position a.
Record good (a : app) : Prop := { on_served : In (currentPage a) served; in_entries : (position a < length (entries a))%nat }.
Lemma go_good a p : good a -> good (go a p).
Proof. intros [S I]. unfold go. destruct (Nat.ltb_spec p (length (entries a))); split; auto. Qed.
Lemma click_good a i : good a -> good (click a i) /\ ((i < length navElements)%nat -> option_map last (current (click a i)) = Some (currentPage (click a i))).
Proof.
  intros G. assert (M : forall href, In href served ->
    let a' := mkApp href (refreshRate a) (firstn (S (position a)) (entries a) ++ [mkUrl href None])%list (S (position a)) in
    good a' /\ option_map last (current a') = Some href).
  { intros href H a'. pose proof (in_entries a G) as I.
    assert (L : length (firstn (S (position a)) (entries a)) = S (position a)) by (rewrite List.length_firstn; lia). split.
    - split; [exact H|]. unfold a'. cbn [entries position]. rewrite List.length_app, L. cbn. lia.
    - unfold current, a'. cbn [entries position]. now rewrite list_lookup_middle by (symmetry; exact L). }
  unfold click. destruct i as [|[|[|i]]]; cbn [navElements lookup list_lookup]; [..|split; [exact G|cbn; lia]];
    (split; [apply M; cbn; tauto|intros _; apply M; cbn; tauto]).
Qed.
Lemma act_good a x : good a -> good (act a x).
Proof. intros G. destruct x; cbn [act]; [now apply click_good|now apply go_good|now apply go_good|]. destruct G. now split. Qed.
(** From a page that is served, whatever is clicked: a page is shown, exactly one nav
    element is bold, and it is the one that opens it; after a click the address is the
    page's. *)
Theorem navigation u xs i : In (last u) served -> (i < length navElements)%nat ->
  let a := fold_left act xs (load u) in
  shown a <> ErrorPage /\ length (List.filter (bold a) navElements) = 1%nat /\
  option_map last (current (click a i)) = Some (currentPage (click a i)) /\ bold (click a i) (nth i navElements ([], "")) = true.
Proof.
  intros S I a. assert (G : good a).
  { unfold a. clear I. assert (G : good (load u)) by (split; [exact S|cbn; lia]). revert G. generalize (load u).
    induction xs as [|x xs IH]; intros b G; [exact G|]. apply IH, act_good, G. }
  split_and!.
  - destruct G as [G _]. unfold shown. cbn in G. destruct G as [<-|[<-|[<-|[<-|[]]]]]; discriminate.
  - destruct G as [G _]. unfold bold. cbn in G. destruct G as [<-|[<-|[<-|[<-|[]]]]]; reflexivity.
  - now apply click_good.
  - unfold click. destruct i as [|[|[|i]]]; [reflexivity..|cbn in I; lia].
Qed.
Lemma navigation_witness :
  let a := fold_left act [Click 1; Back; Forward] (load (mkUrl "index.html" None)) in
  shown a <> ErrorPage /\ length (List.filter (bold a) navElements) = 1%nat /\
  option_map last (current (click a 2)) = Some (currentPage (click a 2)) /\ bold (click a 2) (nth 2 navElements ([], "")) = true.
Proof. apply (navigation (mkUrl "index.html" None) [Click 1; Back; Forward] 2); cbn; [tauto|lia]. Defined.
(** The browser's back button changes the address, but the page stays. *)
Example back_keeps_page :
  let a := fold_left act [Click 1; Back] (load (mkUrl "index.html" None)) in
  option_map last (current a) = Some "index.html" /\ shown a = ScriptsPage.
Proof. now vm_compute. Qed.
End PagesFacts.

Module EditorFacts.
Import Editor.
Section Facts.
Context (document_of : string -> string).
Definition run (f : option string) (xs : list action) : editor := fold_left (act document_of) xs (mounted document_of f).

(** Where a text that is saved can come from: it is the empty document of the start, or
    that of an answer, or what was typed. *)
Definition source (xs : list action) (t : string) : Prop :=
  t = document_of "" \/ (exists code, In (Answered (Answer 200 code)) xs /\ t = document_of code) \/ In (Typed t) xs.
Lemma source_more xs x t : source xs t -> source (xs ++ [x]) t.
Proof.
  intros [E|[(c & I & E)|I]]; [now left|right; left; exists c|right; right]; rewrite in_app_iff; auto.
Qed.
Lemma saved_sources f xs : let e := run f xs in
  source xs (doc e) /\ Forall (fun p => fst p = "/scripts/" ++ file_text f /\ source xs (snd p)) (puts e) /\ file e = f.
Proof.
  induction xs as [|x xs IH] using rev_ind; [cbn; repeat split; [now left|constructor]|].
  unfold run in *. rewrite fold_left_app. cbn [fold_left]. cbv zeta in *. set (e := fold_left (act document_of) xs (mounted document_of f)) in *.
  destruct IH as (D & Pu & F). assert (Pu' : Forall (fun p => fst p = "/scripts/" ++ file_text f /\ source (xs ++ [x]) (snd p)) (puts e)).
  { eapply Forall_impl; [exact Pu|]. intros p [A S]. split; [exact A|]. now apply source_more. }
  pose proof (source_more xs x _ D) as D'.
  assert (Sv : source (xs ++ [x]) (doc (saveScript e)) /\ Forall (fun p => fst p = "/scripts/" ++ file_text f /\ source (xs ++ [x]) (snd p)) (puts (saveScript e)) /\ file (saveScript e) = f).
  { cbn. split_and!; [exact D'| |exact F]. apply Forall_app. split; [exact Pu'|]. constructor; [split; [cbn; unfold address; now rewrite F|exact D']|constructor]. }
  destruct x as [r|t| | |]; cbn [Editor.act]; [| |destruct (on_page e); [exact Sv|auto]|exact Sv|cbn; auto].
  - unfold answered. destruct (loading e); [|auto]. destruct r as [st code|]; [|cbn; auto].
    destruct (Z.eqb_spec st 200) as [->|]; cbn; [|auto]. split_and!; auto. right. left. exists code. rewrite in_app_iff. cbn. auto.
  - unfold typed. destruct (_ && _); cbn; [|auto]. split_and!; auto. right. right. rewrite in_app_iff. cbn. auto.
Qed.
(** A script that is opened and saved without a change is written back to where it came
    from, as CodeMirror gives it back, as often as it is saved. *)
Theorem open_save f code n : puts (run f (Answered (Answer 200 code) :: repeat CtrlS n)) = repeat ("/scripts/" ++ file_text f, document_of code) n.
Proof.
  unfold run. cbn [fold_left]. set (e := act _ _ _). assert (E : address e = "/scripts/" ++ file_text f /\ doc e = document_of code /\ puts e = []) by auto.
  clearbody e. rewrite <- (app_nil_l (repeat (_, _) n)). destruct E as (A & D & <-). revert e A D.
  induction n as [|n IH]; intros e A D; [cbn; now rewrite app_nil_r|]. cbn [repeat fold_left]. rewrite IH; [|exact A|exact D].
  cbn. rewrite A, D, <- app_assoc. reflexivity.
Qed.
End Facts.
(** Ctrl+S before the code arrives, after loading it failed, or on another page of the
    dashboard: the script is overwritten with nothing, or saved although no editor is seen. *)
Example saved_unseen :
  puts (run (fun s => s) (Some "a") [CtrlS]) = [("/scripts/a", "")] /\
  puts (run (fun s => s) (Some "a") [Answered (Answer 500 "busy"); CtrlS]) = [("/scripts/a", "")] /\
  puts (run (fun s => s) (Some "a") [Answered (Answer 200 "x"); LeavePage; CtrlS]) = [("/scripts/a", "x")].
Proof. now vm_compute. Qed.
(** The editor opened without a script is that of a script called null. *)
Example null_script : puts (run (fun s => s) None [CtrlS]) = [("/scripts/null", "")].
Proof. reflexivity. Qed.
End EditorFacts.

Module ScriptPageFacts.
Import Scripts ScriptPage.
Local Abbreviation get := Scripts.get.

(** Every script of the list is under its name. *)
Definition named (l : scripts) : Prop := forall k s, get l k = Some s -> name s = k.
Lemma named_put l k s : named l -> name s = k -> named (put l k s).
Proof.
  intros N E j t G. destruct (String.eqb_spec j k) as [->|D].
  - rewrite ScriptsFacts.script_get_put_eq in G. congruence.
  - rewrite ScriptsFacts.script_get_put_ne in G by now apply String.eqb_neq. exact (N j t G).
Qed.
Lemma get_cons k j s l : get ((j, s) :: l) k = if String.eqb k j then Some s else get l k.
Proof. unfold get. cbn. now destruct (String.eqb k j). Qed.
Lemma get_filter_ne l k j : get (List.filter (fun p => negb (String.eqb k (fst p))) l) j = if String.eqb k j then None else get l j.
Proof.
  induction l as [|[i s] l IH]; [now destruct (String.eqb k j)|]. cbn [List.filter fst]. destruct (String.eqb_spec k i) as [->|N]; cbn [negb].
  - rewrite IH, get_cons. destruct (String.eqb_spec i j) as [->|]; [reflexivity|]. now rewrite (proj2 (String.eqb_neq j i)) by congruence.
  - rewrite !get_cons, IH. destruct (String.eqb_spec k j) as [->|]; [|reflexivity]. now rewrite (proj2 (String.eqb_neq j i)) by congruence.
Qed.
Lemma get_rebuilt l ks k s : get (omap (fun key => match get l key with Some s => Some (key, s) | None => None end) ks) k = Some s -> get l k = Some s.
Proof.
  induction ks as [|j ks IH]; [discriminate|]. cbn. destruct (get l j) as [t|] eqn:E; cbn; [|exact IH].
  rewrite get_cons. destruct (String.eqb_spec k j) as [->|]; [congruence|exact IH].
Qed.
Lemma named_new l k z : named l -> named (newScript l (Some k) z).
Proof.
  intros N. unfold newScript. destruct (negb _); [exact N|]. intros j s G. apply get_rebuilt in G.
  now apply (named_put l k (mkScript k (Some true) None) N).
Qed.
Lemma named_toggle l k l' : named l -> toggle l k = Some l' -> named l'.
Proof.
  intros N. unfold toggle. destruct (get l k) as [s|] eqn:G; [|discriminate]. intros [= <-]. apply named_put; [exact N|]. exact (N k s G).
Qed.
Lemma named_delete l k c z : named l -> named (deleteScript l k c z).
Proof.
  intros N. unfold deleteScript. destruct (negb c); [exact N|]. destruct (negb _); [exact N|]. intros j s. rewrite get_filter_ne.
  destruct (String.eqb k j); [discriminate|apply N].
Qed.
(** The server lists its scripts under their names. *)
Definition honest (e : event) : Prop := match e with Answered _ (Listing l) => named l | _ => True end.
Lemma react_named p e : named (list_of p) -> honest e -> named (list_of (react p e)).
Proof.
  intros N Ho. destruct e as [[k|k|k b|[k|]|]|i r]; cbn [react clicked]; try exact N; [destruct b; exact N|].
  unfold answer. destruct (tasks p !! i) as [t|]; [|exact N].
  destruct t as [k|k|k|], r as [z|l|]; cbn [resumed list_of with_list throw]; try exact N; try exact Ho;
    try (destruct (toggle (list_of p) k) as [l'|] eqn:T; [exact (named_toggle _ _ _ N T)|exact N]).
  - now apply named_delete.
  - now apply named_new.
Qed.
(** *** What the tiles of a row do *)

(** A name every address can carry: letters, digits, dashes, underscores and dots. *)
Definition name_char (c : ascii) : bool :=
  Str.in_range 65 90 c || Str.in_range 97 122 c || Str.is_digit c || Str.one_of "-_." c.
Definition plain (s : string) : Prop := Str.all_chars name_char s = true /\ s <> "" /\ s <> "." /\ s <> "..".

Definition all_ascii (f : ascii -> bool) : bool := forallb (fun n => f (ascii_of_nat n)) (seq 0 256).
Lemma all_ascii_spec f c : all_ascii f = true -> f c = true.
Proof.
  intros H. unfold all_ascii in H. rewrite forallb_forall in H. rewrite <- (ascii_nat_embedding c).
  apply H, in_seq. pose proof (nat_ascii_bounded c). lia.
Qed.
Lemma name_char_kept c : name_char c = true ->
  unreserved c = true /\ Str.one_of "?#" c = false /\ Ascii.eqb c "&" = false /\ Ascii.eqb c "=" = false /\
  Ascii.eqb c "+" = false /\ Ascii.eqb c "%" = false.
Proof.
  set (f c := negb (name_char c) || (unreserved c && negb (Str.one_of "?#" c) && negb (Ascii.eqb c "&") &&
    negb (Ascii.eqb c "=") && negb (Ascii.eqb c "+") && negb (Ascii.eqb c "%"))).
  intros N. assert (F : f c = true) by (apply all_ascii_spec; vm_compute; reflexivity). unfold f in F.
  rewrite N in F. cbn [negb orb] in F. repeat (apply andb_true_iff in F as [F ?]).
  repeat match goal with H : negb _ = true |- _ => apply negb_true_iff in H end. tauto.
Qed.
Lemma plain_cons c s : Str.all_chars name_char (String c s) = true -> name_char c = true /\ Str.all_chars name_char s = true.
Proof. cbn. now intros [? ?]%andb_true_iff. Qed.
Lemma plain_encoded s : Str.all_chars name_char s = true -> encodeURIComponent s = s.
Proof.
  induction s as [|c s IH]; [reflexivity|]. intros [C P]%plain_cons. cbn [encodeURIComponent].
  destruct (name_char_kept c C) as [-> _]. now rewrite IH.
Qed.
Lemma plain_path s t : Str.all_chars name_char s = true -> path_of (s ++ t) = s ++ path_of t.
Proof.
  induction s as [|c s IH]; [reflexivity|]. intros [C P]%plain_cons.
  change (path_of (String c (s ++ t)) = String c (s ++ path_of t)). cbn [path_of].
  destruct (name_char_kept c C) as (_ & -> & _). now rewrite IH.
Qed.
Lemma append_nil s : s ++ "" = s.
Proof. induction s as [|c s IH]; [reflexivity|]. change (String c (s ++ "") = String c s). now rewrite IH. Qed.
Lemma plain_fields s : Str.all_chars name_char s = true -> Editor.fields s = [s].
Proof.
  induction s as [|c s IH]; [reflexivity|]. intros [C P]%plain_cons. cbn [Editor.fields].
  destruct (name_char_kept c C) as (_ & _ & -> & _). now rewrite IH.
Qed.
Lemma plain_decoded s : Str.all_chars name_char s = true -> Editor.form_decode s = s.
Proof.
  induction s as [|c s IH]; [reflexivity|]. intros [C P]%plain_cons. cbn [Editor.form_decode].
  destruct (name_char_kept c C) as (_ & _ & _ & _ & -> & ->). now rewrite IH.
Qed.
Definition not_hash (c : ascii) : bool := negb (Ascii.eqb c "#").
Lemma uncut s : Str.all_chars not_hash s = true -> fst (Editor.cut "#" s) = s.
Proof.
  induction s as [|c s IH]; [reflexivity|]. cbn. intros [C P]%andb_true_iff. apply negb_true_iff in C. rewrite C.
  specialize (IH P). destruct (Editor.cut "#" s) as [a b]. cbn [fst] in *. now rewrite IH.
Qed.
Lemma plain_not_hash s : Str.all_chars name_char s = true -> Str.all_chars not_hash s = true.
Proof.
  induction s as [|c s IH]; [reflexivity|]. intros [C P]%plain_cons. cbn. rewrite (IH P), andb_true_r.
  destruct (name_char_kept c C) as (_ & Q & _). unfold not_hash. now destruct (Ascii.eqb_spec c "#") as [->|].
Qed.
(** The Edit tile of a plain name opens the editor for it. *)
Lemma edit_link_opens s : Str.all_chars name_char s = true -> Editor.opened_for (edit_link s) = Some s.
Proof.
  intros P. unfold Editor.opened_for.
  rewrite (uncut (edit_link s)) by exact (plain_not_hash s P).
  change (Editor.search_param "script" (String "?" ("script=" ++ s)) = Some s).
  unfold Editor.search_param. cbn iota. change (Ascii.eqb "?" "?") with true. cbn iota.
  assert (F : Editor.fields ("script=" ++ s) = ["script=" ++ s]).
  { change ("script=" ++ s) with (String "s" (String "c" (String "r" (String "i" (String "p" (String "t" (String "=" s))))))).
    cbn [Editor.fields]. rewrite (plain_fields s P). reflexivity. }
  rewrite F. change (Some (Editor.form_decode s) = Some s). now rewrite (plain_decoded s P).
Qed.

(** A click sends one request, for the path as a server sees it. *)
Definition asks (p : list_page) (c : click) (m : meth) (path : string) : Prop :=
  exists u, sent (clicked p c) = (sent p ++ [(m, u)])%list /\ path_of u = path.
Lemma asks_activate p s : plain s -> asks p (Activate s) POST ("/scripts/" ++ s ++ "/activate").
Proof.
  intros (P & _). eexists. split; [reflexivity|]. rewrite (plain_encoded s P).
  change ("/scripts/" ++ path_of (s ++ "/activate") = "/scripts/" ++ s ++ "/activate"). now rewrite plain_path.
Qed.
Lemma asks_deactivate p s : plain s -> asks p (Deactivate s) POST ("/scripts/" ++ s ++ "/deactivate").
Proof.
  intros (P & _). eexists. split; [reflexivity|]. rewrite (plain_encoded s P).
  change ("/scripts/" ++ path_of (s ++ "/deactivate") = "/scripts/" ++ s ++ "/deactivate"). now rewrite plain_path.
Qed.
Lemma asks_delete p s : plain s -> asks p (Delete s true) DELETE ("/scripts/" ++ s).
Proof.
  intros (P & _). eexists. split; [reflexivity|].
  change ("/scripts/" ++ path_of s = "/scripts/" ++ s). rewrite <- (append_nil s) at 1. rewrite (plain_path s "" P).
  cbn [path_of]. now rewrite append_nil.
Qed.

(** What the tiles of a row do, on the page [p]. *)
Definition about_its_script (p : list_page) (r : row) : Prop :=
  deletes r = shown r /\ clicked p (Delete (deletes r) false) = p /\
  (plain (shown r) ->
   asks p (Delete (deletes r) true) DELETE ("/scripts/" ++ shown r) /\
   Editor.opened_for (edits r) = Some (shown r) /\
   exists s, get (list_of p) (shown r) = Some s /\
     match snd (middle r) with
     | Some c =>
         (state s = Some "running" /\ fst (middle r) = "Deactivate" /\
          asks p c POST ("/scripts/" ++ shown r ++ "/deactivate")) \/
         (state s = Some "deactivated" /\ fst (middle r) = "Activate" /\
          asks p c POST ("/scripts/" ++ shown r ++ "/activate"))
     | None => state s <> Some "running" /\ state s <> Some "deactivated"
     end).
Lemma row_about p k s : get (list_of p) k = Some s -> name s = k ->
  about_its_script p (mkRow (name s) (tile k s) (edit_link k) k).
Proof.
  intros G N. unfold about_its_script. cbn [shown middle edits deletes]. rewrite N. split; [reflexivity|]. split; [reflexivity|].
  intros P. split; [now apply asks_delete|]. split; [apply edit_link_opens, P|]. exists s. split; [exact G|]. unfold tile.
  destruct (state s) as [st|]; [|easy]. destruct (String.eqb_spec st "running") as [->|R].
  - left. cbn [fst snd]. split; [reflexivity|]. split; [reflexivity|now apply asks_deactivate].
  - destruct (String.eqb_spec st "deactivated") as [->|D]; [|cbn [snd]; split; congruence].
    right. cbn [fst snd]. split; [reflexivity|]. split; [reflexivity|now apply asks_activate].
Qed.

(** C32: however clicks and answers interleave, provided that the server lists every script
    under its own name: Delete of a row is about the script whose name the row shows, and
    does nothing unless it is confirmed.  When that name is made of letters, digits,
    dashes, underscores and dots (and is not empty, [.] or [..]), the one request that
    Delete, Activate or Deactivate sends has the path of this script, Edit opens the
    editor for it, and the middle tile is Deactivate for a running script, Activate for
    a deactivated one, and does nothing otherwise. *)
Theorem rows_name_scripts es : Forall honest es ->
  let p := fold_left react es opened in Forall (about_its_script p) (rows p).
Proof.
  intros Ho p. assert (N : named (list_of p)).
  { assert (N0 : named (list_of opened)) by (intros k s G; discriminate G). unfold p. revert N0. generalize opened.
    induction Ho as [|e es He Ho IH]; intros q N; [exact N|]. apply IH, react_named; assumption. }
  unfold rows. generalize (sort_keys (List.map fst (list_of p))). intros ks.
  induction ks as [|k ks IH]; [constructor|]. cbn. destruct (get (list_of p) k) as [s|] eqn:G; cbn; [|exact IH].
  constructor; [|exact IH]. apply row_about; [exact G|exact (N k s G)].
Qed.
Definition demo_scripts : scripts := [("a", mkScript "a" None (Some "running")); ("b", mkScript "b" None (Some "deactivated"))].
Definition demo_events : list event := [Clicked Refresh; Answered 0 (Listing demo_scripts); Clicked (Deactivate "a"); Answered 0 (Status 200)].
Lemma rows_name_scripts_witness :
  let p := fold_left react demo_events opened in
  List.map shown (rows p) = ["a"; "b"] /\ Forall (about_its_script p) (rows p).
Proof.
  split; [now vm_compute|]. apply (rows_name_scripts demo_events). repeat constructor. intros k s. cbn.
  unfold Scripts.get. cbn. destruct (String.eqb_spec k "a") as [->|]; [now intros [= <-]|].
  destruct (String.eqb_spec k "b") as [->|]; [now intros [= <-]|discriminate].
Defined.
(** Other names: a space of the name opens the editor for the same script, but a plus sign
    or a hash opens it for another one. *)
Example plus_opens_another :
  Editor.opened_for (edit_link "a b") = Some "a b" /\ Editor.opened_for (edit_link "a+b") = Some "a b" /\
  Editor.opened_for (edit_link "a#b") = Some "a".
Proof. now vm_compute. Qed.
(** A list that was asked for before a script is deleted and arrives afterwards shows the
    script again; its buttons then ask for a script that is gone. *)
Example stale_list_revives :
  let p := fold_left react [Clicked Refresh; Answered 0 (Listing demo_scripts); Clicked Refresh; Clicked (Delete "a" true);
                            Answered 1 (Status 200); Answered 0 (Listing demo_scripts)] opened in
  List.map shown (rows p) = ["a"; "b"] /\ tasks p = [].
Proof. now vm_compute. Qed.
(** A new script has no state until the next list: its tile says undefined. *)
Example new_script_undefined :
  rows (fold_left react [Clicked (New (Some "c")); Answered 0 (Status 200)] opened)
  = [mkRow "c" ("undefined", None) "edit.html?script=c" "c"].
Proof. now vm_compute. Qed.
(** A script that is deleted while its activation is under way: the rest of [activate] throws. *)
Example deleted_while_activated :
  let p := fold_left react [Clicked Refresh; Answered 0 (Listing demo_scripts); Clicked (Activate "b"); Clicked (Delete "b" true);
                            Answered 1 (Status 200); Answered 0 (Status 200)] opened in
  errors p = 1%nat /\ List.map shown (rows p) = ["a"].
Proof. now vm_compute. Qed.
End ScriptPageFacts.

Module GraphsFacts.
Import Overview Graphs.
Definition answers (l : list (scatter * scatter * stats)) : overview := fold_left (fun o a => refreshed o (fst (fst a)) (snd (fst a)) (snd a)) l mounted.
(** Two charts are made, at the first answer; they and the numbers show the last one. *)
Theorem last_answer_shown l a : answers (l ++ [a]) =
  mkOverview false (Some (drawHistogram "messagesPerSecond" "rgb(255, 99, 132)" (fst (fst a))))
    (Some (drawHistogram "messagesPerMinute" "rgb(211,99,255)" (snd (fst a)))) (Some (onDataReceived (snd a))) 2.
Proof.
  revert a. induction l as [|b l IH] using rev_ind; intros a; [reflexivity|].
  unfold answers in *. rewrite fold_left_app. cbn [fold_left]. now rewrite (IH b).
Qed.
End GraphsFacts.

Module RefreshFailuresFacts.
Import WebUI.Refresh RefreshFailures.
Definition idle (m : manager) : Prop := initDone m = false /\ waiting m = [] /\ live m = [].
Lemma idle_step m m' : idle m -> step' m m' -> idle m'.
Proof.
  intros (I & W & L) S. destruct S as [m m' S|m k K]; [|rewrite W in K; cbn in K; lia].
  destruct S as [m k K|m r D|m D]; [rewrite W in K; cbn in K; lia| |].
  - unfold refresh. rewrite I, andb_false_r. now split.
  - unfold idle. cbn. now rewrite I, W, L.
Qed.
(** When the first request of a page fails, the page never refreshes: no interval is ever
    set, whatever rate is chosen. *)
Theorem failed_start_never_refreshes r m : steps (reject (mount r) 0) m -> live m = [] /\ waiting m = [].
Proof.
  intros S. assert (I : idle m); [|destruct I as (_ & W & L); auto].
  remember (reject (mount r) 0) as m0 eqn:E. induction S as [m|m m1 m2 S IH T]; [subst; now repeat split|]. eapply idle_step; [exact (IH E)|exact T].
Qed.
Lemma failed_start_never_refreshes_witness : live (refresh (reject (mount "15000") 0) "1000") = [] /\ waiting (refresh (reject (mount "15000") 0) "1000") = [].
Proof.
  apply (failed_start_never_refreshes "15000"). eapply f_more; [apply f_none|]. apply f_step, s_refresh. reflexivity.
Defined.
(** When the request after a change of the rate fails, the old interval is cleared and no
    new one set; choosing the same rate again does nothing. *)
Example failed_change_stops :
  let m := reject (refresh (resume (mount "15000") 0) "1000") 0 in
  live m = [] /\ waiting m = [] /\ initDone m = true /\ refresh m "1000" = m.
Proof. now vm_compute. Qed.
End RefreshFailuresFacts.
