(* ===== verification/Broker.v ===== *)
(** The core of the broker, src/src/ApplicationState.cpp and .hpp with the connections of
    MQTTClientConnection.hpp and the packet handler of ClientThreadManager.cpp: sessions,
    subscriptions, retained messages, the queue of changes, logging in and out, publishing
    and the deletion of what is no longer used.

    Objects that are referred to by pointers live in stores and are known by numbers; a
    pointer that is null or whose object was deleted makes the result None, which stands for
    undefined behaviour.  What a client is sent is the list [sent].  The library nioev/lib
    (subscription tree, decoder, property lists, the lesser QoS) is the class [NioevLib].
    Scripts and statistics are subscribers of which only the messages they get are kept;
    the requests about scripts and the database are not modelled. *)
From Stdlib Require Import ZArith Lia Bool List Ascii String.
From stdpp Require Import base list gmap strings sorting.
From S2P Require Import Prelude.
Import ListNotations.
Open Scope Z_scope.

Module Broker.
Local Notation "'let?' p := a 'in' b" := (match a with Some p => b | None => None end)
  (at level 10, p strict pattern, a at level 200, b at level 200).

(** ** Messages *)
Inductive qos := QoS0 | QoS1 | QoS2.
#[export] Instance qos_eq_dec : EqDecision qos.
Proof. solve_decision. Defined.
Definition qos_int (q : qos) : Z := match q with QoS0 => 0 | QoS1 => 1 | QoS2 => 2 end.
(** [static_cast<QoS>] of a number that was checked to be less than 3. *)
Definition qos_of (n : Z) : qos := if n =? 0 then QoS0 else if n =? 1 then QoS1 else QoS2.
Inductive version := V4 | V5.
Inductive message_type := CONNECT | PUBLISH | PUBACK | PUBREC | PUBREL | PUBCOMP | SUBSCRIBE | UNSUBSCRIBE | PINGREQ | DISCONNECT | OtherType.

(** A subscriber: a session, or a script or the statistics. *)
Inductive subscriber := Session (s : nat) | Other (n : nat).
#[export] Instance subscriber_eq_dec : EqDecision subscriber.
Proof. solve_decision. Defined.
(** Subscriptions are equal when their subscribers are. *)
Record subscription := mkSubscription { subscriber_of : subscriber; sqos : qos }.

(** nioev/lib.  [every_match] lists the subscriptions in the order in which [forEveryMatch]
    visits them.  A step of the decoder gives None when it throws. *)
Class NioevLib := {
  Properties : Type;
  noProperties : Properties;
  minQoS : qos -> qos -> qos;
  tree : Type;
  noSubscriptions : tree;
  addSubscription : tree -> string -> subscription -> tree;
  removeSubscription : tree -> string -> subscription -> tree;
  removeAllSubscriptions : tree -> subscription -> tree;
  every_match : tree -> string -> list subscription;
  decoder : Type;
  BinaryDecoder : list Z -> decoder;
  decoder_bytes : decoder -> list Z;
  advance : decoder -> Z -> decoder;
  decodeByte : decoder -> option (Z * decoder);
  decode2Bytes : decoder -> option (Z * decoder);
  decodeString : decoder -> option (string * decoder);
  decodeBytesWithPrefixLength : decoder -> option (list Z * decoder);
  decodeProperties : decoder -> option (Properties * decoder)
}.

Section Core.
Context `{NioevLib}.

Record packet := mkPacket { topic : string; payload : list Z; pqos : qos; retain : bool; properties : Properties }.

(** What is sent to a client. *)
Inductive out :=
| Connack (v : version) (sessionPresent : bool)
| Refused
| PublishOut (v : version) (topic : string) (payload : list Z) (q : qos) (retained : bool) (props : Properties) (id : Z) (dup : bool)
| Puback (v : version) (id : Z)
| Pubrec (v : version) (id : Z)
| Pubrel (v : version) (id : Z) (found : bool)
| Pubcomp (v : version) (id : Z) (found : bool)
| Suback (v : version) (id : Z) (codes : list Z)
| Unsuback (v : version) (id : Z) (count : nat)
| Pingresp.
Definition setDupFlag (o : out) : out :=
  match o with PublishOut v t p q r ps id _ => PublishOut v t p q r ps id true | _ => o end.

(** A packet as it was received. *)
Record recvData := mkRecvData { firstByte : Z; messageType : message_type; buffer : list Z }.

(** ** Clients and sessions *)
Inductive connection_state := INITIAL | CONNECTING | CONNECTED | INVALID_PROTOCOL_VERSION.
Record client := mkClient {
  remote : string; c_version : version; c_state : connection_state; persistent : option nat; will : option packet;
  loggedOut : bool; sendError : bool; keepAlive : Z; lastRecv : Z; c_clientId : option string;
  waiting : list recvData; c_refs : Z; sent : list out }.
Definition new_client (remote : string) (now : Z) : client :=
  mkClient remote V4 INITIAL None None false false 10 now None [] 0 [].

(** A packet kept until it is acknowledged, with its place in the global order. *)
Record storage := mkStorage { kept : out; globalOrder : Z }.
Record session := mkSession {
  s_clientId : string; cleanSession : bool; current : option nat;
  sending : list (Z * storage); pubrecReceived : gset Z; receivingIds : gset Z; packetIdCounter : Z; s_refs : Z }.

Record retainedMessage := mkRetained { r_payload : list Z; r_qos : qos; r_props : Properties }.

Inductive request :=
| Subscribe (s : subscriber) (topic : string) (q : qos)
| Unsubscribe (s : subscriber) (topic : string)
| UnsubscribeFromAll (s : subscriber)
| Retain (p : packet)
| LoginClient (c : nat) (clientId : string) (clean : bool)
| LogoutClient (c : nat).

(** The clients of [mClients] in the order in which they connected are [clientIds]; the
    stores hold the objects that were not deleted. *)
Record world := mkWorld {
  clients : gmap nat client; sessions : gmap nat session;
  persistentClientStates : gmap string nat; deletedStates : list nat;
  subscriptions : tree; retainedMessages : gmap string retainedMessage;
  queue : list request; queueInternal : list request; shouldCleanup : bool;
  globalOrderCounter : Z; next_client : nat; next_session : nat;
  received : list (nat * packet); statsRefreshes : nat }.
Definition init : world := mkWorld ∅ ∅ ∅ [] noSubscriptions ∅ [] [] false 0 0 0 [] 0.

Definition with_clients (w : world) (x : gmap nat client) : world :=
  mkWorld x (sessions w) (persistentClientStates w) (deletedStates w) (subscriptions w) (retainedMessages w) (queue w) (queueInternal w)
    (shouldCleanup w) (globalOrderCounter w) (next_client w) (next_session w) (received w) (statsRefreshes w).
Definition with_sessions (w : world) (x : gmap nat session) : world :=
  mkWorld (clients w) x (persistentClientStates w) (deletedStates w) (subscriptions w) (retainedMessages w) (queue w) (queueInternal w)
    (shouldCleanup w) (globalOrderCounter w) (next_client w) (next_session w) (received w) (statsRefreshes w).
Definition with_states (w : world) (x : gmap string nat) (d : list nat) : world :=
  mkWorld (clients w) (sessions w) x d (subscriptions w) (retainedMessages w) (queue w) (queueInternal w)
    (shouldCleanup w) (globalOrderCounter w) (next_client w) (next_session w) (received w) (statsRefreshes w).
Definition with_subscriptions (w : world) (x : tree) : world :=
  mkWorld (clients w) (sessions w) (persistentClientStates w) (deletedStates w) x (retainedMessages w) (queue w) (queueInternal w)
    (shouldCleanup w) (globalOrderCounter w) (next_client w) (next_session w) (received w) (statsRefreshes w).
Definition with_retained (w : world) (x : gmap string retainedMessage) : world :=
  mkWorld (clients w) (sessions w) (persistentClientStates w) (deletedStates w) (subscriptions w) x (queue w) (queueInternal w)
    (shouldCleanup w) (globalOrderCounter w) (next_client w) (next_session w) (received w) (statsRefreshes w).
Definition with_queues (w : world) (q i : list request) : world :=
  mkWorld (clients w) (sessions w) (persistentClientStates w) (deletedStates w) (subscriptions w) (retainedMessages w) q i
    (shouldCleanup w) (globalOrderCounter w) (next_client w) (next_session w) (received w) (statsRefreshes w).
Definition with_cleanup (w : world) (b : bool) : world :=
  mkWorld (clients w) (sessions w) (persistentClientStates w) (deletedStates w) (subscriptions w) (retainedMessages w) (queue w)
    (queueInternal w) b (globalOrderCounter w) (next_client w) (next_session w) (received w) (statsRefreshes w).
Definition with_order (w : world) (n : Z) : world :=
  mkWorld (clients w) (sessions w) (persistentClientStates w) (deletedStates w) (subscriptions w) (retainedMessages w) (queue w)
    (queueInternal w) (shouldCleanup w) n (next_client w) (next_session w) (received w) (statsRefreshes w).
Definition with_next (w : world) (c s : nat) : world :=
  mkWorld (clients w) (sessions w) (persistentClientStates w) (deletedStates w) (subscriptions w) (retainedMessages w) (queue w)
    (queueInternal w) (shouldCleanup w) (globalOrderCounter w) c s (received w) (statsRefreshes w).
Definition with_received (w : world) (l : list (nat * packet)) (n : nat) : world :=
  mkWorld (clients w) (sessions w) (persistentClientStates w) (deletedStates w) (subscriptions w) (retainedMessages w) (queue w)
    (queueInternal w) (shouldCleanup w) (globalOrderCounter w) (next_client w) (next_session w) l n.
Definition clientIds (w : world) : list nat := List.filter (fun c => bool_decide (is_Some (clients w !! c))) (seq 0 (next_client w)).

(** Access through a pointer. *)
Definition on_client (w : world) (c : nat) (f : client -> client) : option world :=
  let? x := clients w !! c in Some (with_clients w (<[c := f x]> (clients w))).
Definition on_session (w : world) (s : nat) (f : session -> session) : option world :=
  let? x := sessions w !! s in Some (with_sessions w (<[s := f x]> (sessions w))).

Definition set_persistent (p : option nat) (x : client) : client :=
  mkClient (remote x) (c_version x) (c_state x) p (will x) (loggedOut x) (sendError x) (keepAlive x) (lastRecv x) (c_clientId x)
    (waiting x) (c_refs x) (sent x).
Definition set_clientId (id : string) (x : client) : client :=
  mkClient (remote x) (c_version x) (c_state x) (persistent x) (will x) (loggedOut x) (sendError x) (keepAlive x) (lastRecv x) (Some id)
    (waiting x) (c_refs x) (sent x).
Definition setStateAtomic (st : connection_state) (x : client) : client :=
  mkClient (remote x) (c_version x) st (persistent x) (will x) (loggedOut x) (sendError x) (keepAlive x) (lastRecv x) (c_clientId x)
    (waiting x) (c_refs x) (sent x).
Definition notifyLoggedOut (x : client) : client :=
  mkClient (remote x) (c_version x) (c_state x) (persistent x) (will x) true (sendError x) (keepAlive x) (lastRecv x) (c_clientId x)
    (waiting x) (c_refs x) (sent x).
Definition set_sendError (x : client) : client :=
  mkClient (remote x) (c_version x) (c_state x) (persistent x) (will x) (loggedOut x) true (keepAlive x) (lastRecv x) (c_clientId x)
    (waiting x) (c_refs x) (sent x).
Definition set_connect (v : version) (ka : Z) (x : client) : client :=
  mkClient (remote x) v (c_state x) (persistent x) (will x) (loggedOut x) (sendError x) ka (lastRecv x) (c_clientId x)
    (waiting x) (c_refs x) (sent x).
Definition set_will (p : option packet) (x : client) : client :=
  mkClient (remote x) (c_version x) (c_state x) (persistent x) p (loggedOut x) (sendError x) (keepAlive x) (lastRecv x) (c_clientId x)
    (waiting x) (c_refs x) (sent x).
Definition set_lastRecv (now : Z) (x : client) : client :=
  mkClient (remote x) (c_version x) (c_state x) (persistent x) (will x) (loggedOut x) (sendError x) (keepAlive x) now (c_clientId x)
    (waiting x) (c_refs x) (sent x).
Definition set_waiting (l : list recvData) (x : client) : client :=
  mkClient (remote x) (c_version x) (c_state x) (persistent x) (will x) (loggedOut x) (sendError x) (keepAlive x) (lastRecv x)
    (c_clientId x) l (c_refs x) (sent x).
Definition add_refs (d : Z) (x : client) : client :=
  mkClient (remote x) (c_version x) (c_state x) (persistent x) (will x) (loggedOut x) (sendError x) (keepAlive x) (lastRecv x)
    (c_clientId x) (waiting x) (c_refs x + d) (sent x).
Definition add_sent (o : out) (x : client) : client :=
  mkClient (remote x) (c_version x) (c_state x) (persistent x) (will x) (loggedOut x) (sendError x) (keepAlive x) (lastRecv x)
    (c_clientId x) (waiting x) (c_refs x) (sent x ++ [o])%list.
Definition sendData (w : world) (c : nat) (o : out) : option world := on_client w c (add_sent o).

Definition set_current (c : option nat) (x : session) : session :=
  mkSession (s_clientId x) (cleanSession x) c (sending x) (pubrecReceived x) (receivingIds x) (packetIdCounter x) (s_refs x).
Definition set_clean (b : bool) (x : session) : session :=
  mkSession (s_clientId x) b (current x) (sending x) (pubrecReceived x) (receivingIds x) (packetIdCounter x) (s_refs x).
Definition reset_session (x : session) : session := mkSession (s_clientId x) (cleanSession x) (current x) [] ∅ ∅ 1 (s_refs x).
Definition set_sending (l : list (Z * storage)) (n : Z) (x : session) : session :=
  mkSession (s_clientId x) (cleanSession x) (current x) l (pubrecReceived x) (receivingIds x) n (s_refs x).
Definition set_pubrec (l : gset Z) (x : session) : session :=
  mkSession (s_clientId x) (cleanSession x) (current x) (sending x) l (receivingIds x) (packetIdCounter x) (s_refs x).
Definition set_receiving (l : gset Z) (x : session) : session :=
  mkSession (s_clientId x) (cleanSession x) (current x) (sending x) (pubrecReceived x) l (packetIdCounter x) (s_refs x).
Definition add_s_refs (d : Z) (x : session) : session :=
  mkSession (s_clientId x) (cleanSession x) (current x) (sending x) (pubrecReceived x) (receivingIds x) (packetIdCounter x) (s_refs x + d).

(** ** Publishing *)

(** [mPacketIdCounter += 1] in 16 bits until it is not 0. *)
Definition next_id (n : Z) : Z := let m := (n + 1) mod 65536 in if m =? 0 then 1 else m.
Definition find_id {A} (id : Z) (l : list (Z * A)) : option A := option_map snd (List.find (fun kv => Z.eqb (fst kv) id) l).
(** [unordered_map::emplace] keeps what is there. *)
Definition emplace {A} (id : Z) (a : A) (l : list (Z * A)) : list (Z * A) := match find_id id l with Some _ => l | None => (id, a) :: l end.
Definition erase {A} (id : Z) (l : list (Z * A)) : list (Z * A) := List.filter (fun kv => negb (Z.eqb (fst kv) id)) l.

(** [MQTTClientConnection::publish]. *)
Definition client_publish (w : world) (c : nat) (topic : string) (payload : list Z) (q : qos) (retained : bool) (props : Properties) (id : Z)
    : option world :=
  let? x := clients w !! c in sendData w c (PublishOut (c_version x) topic payload q retained props id false).
(** [PersistentClientState::publish]. *)
Definition session_publish (w : world) (s : nat) (topic : string) (payload : list Z) (q : qos) (retained : bool) (props : Properties)
    : option world :=
  let? st := sessions w !! s in
  match q with
  | QoS0 => let? c := current st in client_publish w c topic payload QoS0 retained props 0
  | _ =>
      let? v := match current st with Some c => option_map c_version (clients w !! c) | None => Some V4 end in
      let id := next_id (packetIdCounter st) in
      let o := PublishOut v topic payload q retained props id false in
      let w := with_order w (globalOrderCounter w + 1) in
      let? w := on_session w s (set_sending (emplace id (mkStorage o (globalOrderCounter w - 1)) (sending st)) id) in
      match current st with
      | Some c => client_publish w c topic payload q retained props id
      | None => Some w
      end
  end.
Definition sendPublish (w : world) (sub : subscriber) (topic : string) (payload : list Z) (q : qos) (retained : bool) (props : Properties)
    : option world :=
  match sub with
  | Session s => session_publish w s topic payload q retained props
  | Other n => Some (with_received w (received w ++ [(n, mkPacket topic payload q retained props)])%list (statsRefreshes w))
  end.
(** [performSystemAction]. *)
Definition performSystemAction (w : world) (topic : string) (payload : list Z) : world :=
  if 1024 * 1024 <? Z.of_nat (List.length payload) then w
  else if String.eqb topic "$NIOEV/request_new_stats" then with_received w (received w) (S (statsRefreshes w)) else w.
(** The subscribers that match, each with the QoS of the first of its subscriptions. *)
Fixpoint deliver (w : world) (p : packet) (subs : list subscription) (visited : list subscriber) : option world :=
  match subs with
  | [] => Some w
  | sub :: rest =>
      if bool_decide (subscriber_of sub ∈ visited) then deliver w p rest visited
      else
        let? w := sendPublish w (subscriber_of sub) (topic p) (payload p) (minQoS (sqos sub) (pqos p)) false (properties p) in
        deliver w p rest (subscriber_of sub :: visited)
  end.
Definition publishNoLockNoRetain (w : world) (p : packet) : option world :=
  let w := if String.prefix "$NIOEV" (topic p) then performSystemAction w (topic p) (payload p) else w in
  deliver w p (every_match (subscriptions w) (topic p)) [].

(** ** Requests *)

(** How a change is requested, and who holds [mMutex] for writing, as the thread sees it. *)
Inductive mode := SYNC | ASYNC | TRY_SYNC_THEN_ASYNC.
Inductive holder := Free | Mine | Theirs.
Definition client_of (r : request) : option nat :=
  match r with LoginClient c _ _ | LogoutClient c => Some c | _ => None end.
Definition session_of (r : request) : option nat :=
  match r with
  | Subscribe (Session s) _ _ | Unsubscribe (Session s) _ | UnsubscribeFromAll (Session s) => Some s
  | _ => None
  end.
Definition change_refs (d : Z) (r : request) (w : world) : option world :=
  match client_of r with
  | Some c => on_client w c (add_refs d)
  | None => match session_of r with Some s => on_session w s (add_s_refs d) | None => Some w end
  end.
Definition requestChange (execute : request -> world -> option world) (m : mode) (h : holder) (r : request) (w : world) : option world :=
  let? w := change_refs 1 r w in
  let enqueue := match h with
                 | Mine => with_queues w (queue w) (queueInternal w ++ [r])%list
                 | _ => with_queues w (queue w ++ [r])%list (queueInternal w)
                 end in
  match m with
  | SYNC => execute r w
  | TRY_SYNC_THEN_ASYNC => match h with Free => execute r w | _ => Some enqueue end
  | ASYNC => Some enqueue
  end.
(** [publishInternal] runs with the mutex held: what it requests is queued. *)
Definition publishInternal (w : world) (p : packet) : option world :=
  let? w := publishNoLockNoRetain w p in
  if retain p then requestChange (fun _ _ => None) TRY_SYNC_THEN_ASYNC Mine (Retain p) w else Some w.

(** ** Logging out *)
Definition dropCurrentClient (w : world) (s : nat) : option world :=
  let? st := sessions w !! s in
  let? c := current st in
  let? w := on_client w c (set_persistent None) in
  on_session w s (set_current None).
(** [moveWill_NO_LOCK] leaves a will that is not read again. *)
Definition logoutClient (w : world) (c : nat) : option world :=
  let? x := clients w !! c in
  if loggedOut x then Some w
  else
    let? w := on_client (with_cleanup w true) c notifyLoggedOut in
    match persistent x with
    | None => Some w
    | Some s =>
        let? w := match will x with Some p => publishInternal w p | None => Some w end in
        let? w := dropCurrentClient w s in
        let? st := sessions w !! s in
        if cleanSession st then
          match persistentClientStates w !! s_clientId st with
          | Some s' =>
              if Nat.eqb s s' then
                let w := with_subscriptions w (removeAllSubscriptions (subscriptions w) (mkSubscription (Session s) QoS0)) in
                Some (with_cleanup (with_states w (delete (s_clientId st) (persistentClientStates w)) (deletedStates w ++ [s])%list) true)
              else Some w
          | None => Some w
          end
        else Some w
    end.

(** ** Logging in *)

(** The first name that no session has: the address, then the address with random suffixes. *)
Fixpoint unused_id (w : world) (candidates : list string) : option string :=
  match candidates with
  | [] => None
  | id :: rest => match persistentClientStates w !! id with Some _ => unused_id w rest | None => Some id end
  end.
Definition replaceCurrentClient (w : world) (s c : nat) (clean reset : bool) : option world :=
  let? st := sessions w !! s in
  let? w := match current st with Some old => on_client w old (set_persistent None) | None => Some w end in
  let? w := on_session w s (fun x => (if reset then reset_session else (fun x => x)) (set_clean clean (set_current (Some c) x))) in
  on_client w c (fun x => set_clientId (s_clientId st) (set_persistent (Some s) x)).
Definition sendConnack (w : world) (c : nat) (sessionPresent : bool) : option world :=
  let? x := clients w !! c in sendData w c (Connack (c_version x) sessionPresent).
Fixpoint send_all (w : world) (c : nat) (l : list out) : option world :=
  match l with [] => Some w | o :: rest => let? w := sendData w c o in send_all w c rest end.
#[export] Instance order_decision : RelDecision (fun a b : storage => globalOrder a <= globalOrder b).
Proof. intros a b. apply Z_le_dec. Defined.
(** [std::sort] by the global order; the numbers differ, so the order is the only one. *)
Definition orderedPackets (st : session) : list out :=
  List.map (fun p => setDupFlag (kept p)) (merge_sort (fun a b => globalOrder a <= globalOrder b) (List.map snd (sending st))).
(** The bits from 0 below the number of bits that are set. *)
Definition resentPubrels (v : version) (st : session) : list out :=
  List.map (fun i => Pubrel v i true)
    (List.filter (fun i => bool_decide (i ∈ pubrecReceived st)) (List.map Z.of_nat (seq 0 (size (pubrecReceived st))))).
Definition connected (w : world) (c : nat) : option world := on_client w c (setStateAtomic CONNECTED).
Definition logout_existing (w : world) (existing : option nat) : option world :=
  match existing with Some e => logoutClient w e | None => Some w end.
(** [suffixes]: what is read from /dev/urandom, as long as it is needed. *)
Definition loginClient (suffixes : list string) (w : world) (c : nat) (clientId : string) (clean : bool) : option world :=
  let? x := clients w !! c in
  if loggedOut x then Some w
  else
    let? id := if String.eqb clientId "" then unused_id w (remote x :: List.map (fun s => remote x ++ s)%string suffixes) else Some clientId in
    match persistentClientStates w !! id with
    | Some s =>
        let? st := sessions w !! s in
        if clean || cleanSession st then
          let? w := replaceCurrentClient w s c clean true in
          let? w := logout_existing w (current st) in
          let? w := sendConnack w c false in
          connected w c
        else
          let? w := replaceCurrentClient w s c clean false in
          let? w := logout_existing w (current st) in
          let? w := sendConnack w c true in
          let? st := sessions w !! s in
          let? w := send_all w c (orderedPackets st) in
          let? w := send_all w c (resentPubrels (c_version x) st) in
          connected w c
    | None =>
        let s := next_session w in
        let w := with_next w (next_client w) (S s) in
        let w := with_sessions w (<[s := mkSession id clean (Some c) [] ∅ ∅ 1 0]> (sessions w)) in
        let w := with_states w (<[id := s]> (persistentClientStates w)) (deletedStates w) in
        let? w := replaceCurrentClient w s c clean true in
        let? w := sendConnack w c false in
        connected w c
    end.

(** ** Executing requests *)

(** Sending a new subscriber the retained messages: [forEveryMatch] of each finds the
    subscriptions of the subscriber, the new one and earlier ones. *)
Fixpoint send_retained (w : world) (sub : subscriber) (q : qos) (topic : string) (m : retainedMessage) (subs : list subscription)
    : option world :=
  match subs with
  | [] => Some w
  | matched :: rest =>
      let? w := if bool_decide (sub = subscriber_of matched)
                then sendPublish w sub topic (r_payload m) (minQoS (r_qos m) q) true (r_props m) else Some w in
      send_retained w sub q topic m rest
  end.
Fixpoint send_all_retained (w : world) (sub : subscriber) (q : qos) (ms : list (string * retainedMessage)) : option world :=
  match ms with
  | [] => Some w
  | (topic, m) :: rest =>
      let? w := send_retained w sub q topic m (every_match (subscriptions w) topic) in
      send_all_retained w sub q rest
  end.
Definition subscribeClientInternal (w : world) (sub : subscriber) (topic : string) (q : qos) : option world :=
  let w := with_subscriptions w (addSubscription (subscriptions w) topic (mkSubscription sub q)) in
  send_all_retained w sub q (map_to_list (retainedMessages w)).
Definition retain_message (w : world) (p : packet) : world :=
  match payload p with
  | [] => with_retained w (delete (topic p) (retainedMessages w))
  | _ => with_retained w (<[topic p := mkRetained (payload p) (pqos p) (properties p)]> (retainedMessages w))
  end.
(** The calls of [std::visit]; a subscriber is never [isDeleted]. *)
Definition visit (suffixes : list string) (r : request) (w : world) : option world :=
  match r with
  | Subscribe s topic q =>
      let? w := match s with Session i => option_map (fun _ => w) (sessions w !! i) | Other _ => Some w end in
      subscribeClientInternal w s topic q
  | Unsubscribe s topic => Some (with_subscriptions w (removeSubscription (subscriptions w) topic (mkSubscription s QoS0)))
  | UnsubscribeFromAll s => Some (with_subscriptions w (removeAllSubscriptions (subscriptions w) (mkSubscription s QoS0)))
  | Retain p => Some (retain_message w p)
  | LoginClient c id clean => loginClient suffixes w c id clean
  | LogoutClient c => logoutClient w c
  end.
Definition executeChangeRequest (suffixes : list string) (r : request) (w : world) : option world :=
  let? w := visit suffixes r w in
  let? w := change_refs (-1) r w in
  match client_of r with
  | Some c => let? x := clients w !! c in Some (if (c_refs x =? 0) && loggedOut x then with_cleanup w true else w)
  | None => Some w
  end.
(** [publish] of any thread that does not hold the mutex. *)
Definition publish (suffixes : list string) (h : holder) (w : world) (p : packet) : option world :=
  let? w := publishNoLockNoRetain w p in
  if retain p then requestChange (executeChangeRequest suffixes) TRY_SYNC_THEN_ASYNC h (Retain p) w else Some w.

(** ** The worker and the timer *)
Fixpoint logout_failed (w : world) (ids : list nat) : option world :=
  match ids with
  | [] => Some w
  | c :: rest =>
      let? x := clients w !! c in
      let? w := if sendError x then logoutClient w c else Some w in
      logout_failed w rest
  end.
(** The loop over [mQueueInternal]; a request is taken off after it was executed. *)
Fixpoint drain (fuel : nat) (suffixes : list string) (w : world) : option world :=
  match fuel with
  | O => None
  | S fuel =>
      match queueInternal w with
      | [] => Some w
      | r :: _ =>
          let? w := executeChangeRequest suffixes r w in
          drain fuel suffixes (with_queues w (queue w) (tl (queueInternal w)))
      end
  end.
(** A round of the loop needs at most as much as all clients that log out and all requests
    can add. *)
Definition fuel_of (w : world) : nat := S (2 * List.length (queueInternal w)).
Definition processInternalQueue (suffixes : list string) (w : world) : option world :=
  let? w := logout_failed w (clientIds w) in drain (fuel_of w) suffixes w.
(** One round of [workerThreadFunc] with a request in the queue, and one without. *)
Definition work (suffixes : list string) (w : world) : option world :=
  match queue w with
  | [] => processInternalQueue suffixes w
  | r :: rest =>
      let? w := executeChangeRequest suffixes r (with_queues w rest (queueInternal w)) in
      processInternalQueue suffixes w
  end.
(** [cleanup] in two steps, as it gives up the mutex between them: clients that were silent
    for twice their interval are logged out; then, if something is to be deleted and once all
    receiver threads are suspended, what is not used any more is deleted. *)
Fixpoint expire (now : Z) (w : world) (ids : list nat) : option world :=
  match ids with
  | [] => Some w
  | c :: rest =>
      let? x := clients w !! c in
      let? w := if negb (loggedOut x) && (lastRecv x + keepAlive x * 2000000000 <=? now) then logoutClient w c else Some w in
      expire now w rest
  end.
Definition unused_client (x : client) : bool := loggedOut x && (c_refs x =? 0).
Definition unused_session (w : world) (s : nat) : bool :=
  match sessions w !! s with Some st => s_refs st =? 0 | None => false end.
Definition sweep (w : world) : world :=
  let gone := List.filter (unused_session w) (deletedStates w) in
  let w' := with_clients w (filter (fun kv => unused_client (snd kv) = false) (clients w)) in
  let w' := with_sessions w' (filter (fun kv => fst kv ∉ gone) (sessions w)) in
  with_cleanup (with_states w' (persistentClientStates w) (List.filter (fun s => negb (unused_session w s)) (deletedStates w))) false.
Definition cleanup_expire (now : Z) (w : world) : option world := expire now w (clientIds w).
Definition handleNewClientConnection (w : world) (remote : string) (now : Z) : world :=
  with_next (with_clients w (<[next_client w := new_client remote now]> (clients w))) (S (next_client w)) (next_session w).

(** ** The packet handler *)

(** What a socket yields after whole packets. *)
Inductive tail := Nothing | Part | Broken (bytes : bool).
(** A handler ends, throws (a protocol violation or a clean disconnect), or crashes. *)
Inductive result := Done (w : world) | Throw (w : world) | Crash.
Local Notation "'try' w <- m ; k" := (match m with Done w => k | Throw w => Throw w | Crash => Crash end)
  (at level 10, w name, m at level 100, k at level 200).
Definition lift (m : option world) : result := match m with Some w => Done w | None => Crash end.
(** A decoder that throws. *)
Local Notation "'read' p <- m 'in' w ; k" := (match m with Some p => k | None => Throw w end)
  (at level 10, p strict pattern, m at level 100, w at level 100, k at level 200).

Section Handler.
(** Who holds the mutex when a message is retained, and the random suffixes then. *)
Context (suffixes : list string) (h : holder).
Definition request_async (r : request) (w : world) : option world := requestChange (fun _ _ => None) ASYNC Theirs r w.

Definition protocolName : list Z := [0; 4; 77; 81; 84; 84].
(** The will of a CONNECT packet, when its flags announce one; None when it throws. *)
Definition will_of (flags : Z) (d : decoder) : option (option packet * decoder) :=
  if Z.testbit flags 2 then
    let? (willTopic, d) := decodeString d in
    if String.eqb willTopic "" then None
    else
      let? (willMessage, d) := decodeBytesWithPrefixLength d in
      let willQos := Z.shiftr (Z.land flags 24) 3 in
      if 3 <=? willQos then None
      else Some (Some (mkPacket willTopic willMessage (qos_of willQos) (Z.testbit flags 5) noProperties), d)
  else Some (None, d).
Definition connect_packet (w : world) (c : nat) (d : decoder) : result :=
  if Nat.ltb (List.length (decoder_bytes d)) 6 then Throw w
  else if negb (bool_decide (take 6 (decoder_bytes d) = protocolName)) then Throw w
  else
    read (level, d) <- decodeByte (advance d 6) in w;
    if negb (level =? 4) && negb (level =? 5) then
      try w <- lift (on_client w c (setStateAtomic INVALID_PROTOCOL_VERSION));
      lift (sendData w c Refused)
    else
      let v := if level =? 4 then V4 else V5 in
      read (flags, d) <- decodeByte d in w;
      read (ka, d) <- decode2Bytes d in w;
      try w <- lift (on_client w c (set_connect v ka));
      if Z.testbit flags 0 then Throw w
      else
        let clean := Z.testbit flags 1 in
        read (_, d) <- (match v with V5 => decodeProperties d | V4 => Some (noProperties, d) end) in w;
        read (clientId, d) <- decodeString d in w;
        if String.eqb clientId "" && negb clean then Throw w
        else
          read (wl, d) <- will_of flags d in w;
          try w <- (match wl with Some p => lift (on_client w c (set_will (Some p))) | None => Done w end);
          (** The user name and the password are read and not used. *)
          read d <- (if Z.testbit flags 7 then option_map snd (decodeString d) else Some d) in w;
          read _ <- (if Z.testbit flags 6 then option_map snd (decodeString d) else Some d) in w;
          try w <- lift (on_client w c (setStateAtomic CONNECTING));
          lift (request_async (LoginClient c clientId clean) w).

(** The properties that a packet of version 5 has. *)
Definition reasonAndProperties (v : version) (d : decoder) : option decoder :=
  match v with
  | V4 => Some d
  | V5 => let? (_, d) := decodeByte d in option_map snd (decodeProperties d)
  end.
Definition publish_packet (w : world) (c : nat) (r : recvData) (d : decoder) : result :=
  match clients w !! c with
  | None => Crash
  | Some x =>
      let qosInt := Z.land (Z.shiftr (firstByte r) 1) 3 in
      if 3 <=? qosInt then Throw w
      else
        let q := qos_of qosInt in
        read (topic, d) <- decodeString d in w;
        if String.eqb topic "" then Throw w
        else
          let onward (w : world) (d : decoder) : result :=
            read (props, d) <- (match c_version x with V5 => decodeProperties d | V4 => Some (noProperties, d) end) in w;
            lift (publish suffixes h w (mkPacket topic (decoder_bytes d) q (Z.testbit (firstByte r) 0) props)) in
          match q with
          | QoS0 => onward w d
          | QoS1 =>
              read (id, d) <- decode2Bytes d in w;
              try w <- lift (sendData w c (Puback (c_version x) id));
              onward w d
          | QoS2 =>
              read (id, d) <- decode2Bytes d in w;
              match persistent x with
              | None => Throw w
              | Some s =>
                  match sessions w !! s with
                  | None => Crash
                  | Some st =>
                      let known := bool_decide (id ∈ receivingIds st) in
                      try w <- lift (on_session w s (set_receiving ({[id]} ∪ receivingIds st)));
                      try w <- lift (sendData w c (Pubrec (c_version x) id));
                      if known then Done w else onward w d
                  end
              end
          end
  end.
(** The acknowledgements: [act] gets the session and gives the new one and what is sent. *)
Definition acknowledge (w : world) (c : nat) (d : decoder) (act : version -> Z -> session -> session * option out) : result :=
  match clients w !! c with
  | None => Crash
  | Some x =>
      read (id, d) <- decode2Bytes d in w;
      read _ <- reasonAndProperties (c_version x) d in w;
      match persistent x with
      | None => Throw w
      | Some s =>
          match sessions w !! s with
          | None => Crash
          | Some st =>
              let '(st', o) := act (c_version x) id st in
              try w <- lift (on_session w s (fun _ => st'));
              match o with Some o => lift (sendData w c o) | None => Done w end
          end
      end
  end.
Definition puback (v : version) (id : Z) (st : session) : session * option out :=
  (set_sending (erase id (sending st)) (packetIdCounter st) st, None).
Definition pubrel (v : version) (id : Z) (st : session) : session * option out :=
  let found := bool_decide (id ∈ receivingIds st) in
  (set_receiving (receivingIds st ∖ {[id]}) st, Some (Pubcomp v id found)).
Definition pubrec (v : version) (id : Z) (st : session) : session * option out :=
  let found := match find_id id (sending st) with Some _ => true | None => false end in
  (set_pubrec ({[id]} ∪ pubrecReceived st) (set_sending (erase id (sending st)) (packetIdCounter st) st), Some (Pubrel v id found)).
Definition pubcomp (v : version) (id : Z) (st : session) : session * option out := (set_pubrec (pubrecReceived st ∖ {[id]}) st, None).
(** The loop over the topics of a SUBSCRIBE packet: gives the codes. *)
Fixpoint subscribe_topics (fuel : nat) (w : world) (c : nat) (d : decoder) : result * list Z :=
  match fuel with
  | O => (Crash, [])
  | S fuel =>
      match decodeString d with
      | None => (Throw w, [])
      | Some (topic, d) =>
          if String.eqb topic "" then (Throw w, [])
          else
            match decodeByte d with
            | None => (Throw w, [])
            | Some (qosInt, d) =>
                if 3 <=? qosInt then (Throw w, [])
                else
                  match clients w !! c with
                  | None => (Crash, [])
                  | Some x =>
                      match persistent x with
                      | None => (Throw w, [])
                      | Some s =>
                          match request_async (Subscribe (Session s) topic (qos_of qosInt)) w with
                          | None => (Crash, [])
                          | Some w =>
                              match decoder_bytes d with
                              | [] => (Done w, [qosInt])
                              | _ => let '(r, codes) := subscribe_topics fuel w c d in (r, qosInt :: codes)
                              end
                          end
                      end
                  end
            end
      end
  end.
Fixpoint unsubscribe_topics (fuel : nat) (w : world) (c : nat) (d : decoder) : result * nat :=
  match fuel with
  | O => (Crash, O)
  | S fuel =>
      match decodeString d with
      | None => (Throw w, O)
      | Some (topic, d) =>
          match clients w !! c with
          | None => (Crash, O)
          | Some x =>
              match persistent x with
              | None => (Throw w, O)
              | Some s =>
                  match request_async (Unsubscribe (Session s) topic) w with
                  | None => (Crash, O)
                  | Some w =>
                      match decoder_bytes d with
                      | [] => (Done w, 1%nat)
                      | _ => let '(r, n) := unsubscribe_topics fuel w c d in (r, S n)
                      end
                  end
              end
          end
      end
  end.
(** Each topic takes a byte at least. *)
Definition topics_fuel (d : decoder) : nat := S (List.length (decoder_bytes d)).
Definition topics_packet (w : world) (c : nat) (d : decoder) (subscribe : bool) : result :=
  match clients w !! c with
  | None => Crash
  | Some x =>
      read (id, d) <- decode2Bytes d in w;
      read (_, d) <- (match c_version x with V5 => decodeProperties d | V4 => Some (noProperties, d) end) in w;
      if subscribe then
        let '(r, codes) := subscribe_topics (topics_fuel d) w c d in
        try w <- r; lift (sendData w c (Suback (c_version x) id codes))
      else
        let '(r, n) := unsubscribe_topics (topics_fuel d) w c d in
        try w <- r; lift (sendData w c (Unsuback (c_version x) id n))
  end.

Definition handlePacketReceived (st : connection_state) (w : world) (c : nat) (r : recvData) : result :=
  let d := BinaryDecoder (buffer r) in
  match st with
  | INITIAL => match messageType r with CONNECT => connect_packet w c d | _ => Throw w end
  | CONNECTING => lift (on_client w c (fun x => set_waiting (waiting x ++ [r])%list x))
  | INVALID_PROTOCOL_VERSION => Done w
  | CONNECTED =>
      match messageType r with
      | PUBLISH => publish_packet w c r d
      | PUBACK => acknowledge w c d puback
      | PUBREL => if negb (firstByte r =? 98) then Throw w else acknowledge w c d pubrel
      | PUBREC => acknowledge w c d pubrec
      | PUBCOMP => acknowledge w c d pubcomp
      | SUBSCRIBE => if negb (firstByte r =? 130) then Throw w else topics_packet w c d true
      | UNSUBSCRIBE => if negb (firstByte r =? 162) then Throw w else topics_packet w c d false
      | PINGREQ => if negb (firstByte r =? 192) then Throw w else lift (sendData w c Pingresp)
      | DISCONNECT =>
          if negb (firstByte r =? 224) then Throw w
          else
            match clients w !! c with
            | None => Crash
            | Some x =>
                read _ <- (match c_version x with
                           | V5 => if Nat.ltb 1 (List.length (decoder_bytes d)) then option_map snd (decodeProperties d) else Some d
                           | V4 => Some d end) in w;
                try w <- lift (on_client w c (set_will None)); Throw w
            end
      | _ => Done w
      end
  end.

(** [handlePacketsReceivedWhileConnecting] handles what waits as if the client was
    connected, whatever state it is in. *)
Fixpoint handle_waiting (w : world) (c : nat) (l : list recvData) : result :=
  match l with
  | [] => lift (on_client w c (set_waiting []))
  | r :: rest => try w <- handlePacketReceived CONNECTED w c r; handle_waiting w c rest
  end.
Fixpoint handle_all (w : world) (c : nat) (l : list recvData) : result :=
  match l with
  | [] => Done w
  | r :: rest =>
      match clients w !! c with
      | None => Crash
      | Some x => try w <- handlePacketReceived (c_state x) w c r; handle_all w c rest
      end
  end.
(** A client's socket is readable and yields the packets [l] and after them nothing, a part
    of a packet, or what throws: the end of the stream or bytes that are no packet (whether
    or not bytes came with it).  What is thrown logs the client out.  The time is noted when
    bytes came. *)
Definition readable (now : Z) (w : world) (c : nat) (l : list recvData) (t : tail) : option world :=
  let? x := clients w !! c in
  let bytes := match l, t with [], (Nothing | Broken false) => false | _, _ => true end in
  let r := (try w <- handle_waiting w c (waiting x);
            try w <- lift (if bytes then on_client w c (set_lastRecv now) else Some w);
            try w <- handle_all w c l;
            match t with Broken _ => Throw w | _ => Done w end) in
  match r with
  | Done w => Some w
  | Throw w => request_async (LogoutClient c) w
  | Crash => None
  end.
End Handler.

(** ** The broker as a transition system *)
Inductive event :=
| Connect (remote : string) (now : Z)
| Readable (c : nat) (l : list recvData) (t : tail) (now : Z) (suffixes : list string) (h : holder)
| SendFails (c : nat)
(** [EPOLLERR]; or, when the socket becomes writable, writing fails or all of the refusal
    of a version was sent. *)
| SocketError (c : nat)
| Work (suffixes : list string)
| Expire (now : Z)
| Sweep
(** Another thread: the REST interface or a script publishes, a script subscribes or not. *)
| PublishOther (p : packet) (suffixes : list string) (h : holder)
| SubscribeOther (n : nat) (topic : string) (q : qos)
| UnsubscribeOther (n : nat) (topic : string).
(** A thread of receivers never sees its own mutex, and the events of clients come while
    they exist: the socket of a deleted client is closed. *)
Definition react (w : world) (e : event) : option world :=
  match e with
  | Connect remote now => Some (handleNewClientConnection w remote now)
  | Readable c l t now suffixes h => readable suffixes h now w c l t
  | SendFails c => on_client w c set_sendError
  | SocketError c => request_async (LogoutClient c) w
  | Work suffixes => work suffixes w
  | Expire now => cleanup_expire now w
  | Sweep => Some (sweep w)
  | PublishOther p suffixes h => publish suffixes h w p
  | SubscribeOther n topic q => request_async (Subscribe (Other n) topic q) w
  | UnsubscribeOther n topic => request_async (Unsubscribe (Other n) topic) w
  end.
Definition possible (w : world) (e : event) : Prop :=
  match e with
  | Readable c _ _ _ _ h => is_Some (clients w !! c) /\ h <> Mine
  | SendFails c | SocketError c => is_Some (clients w !! c)
  | Sweep => shouldCleanup w = true
  | PublishOther _ _ h => h <> Mine
  | _ => True
  end.
Inductive reachable : world -> Prop :=
| reach_init : reachable init
| reach_step w e w' : reachable w -> possible w e -> react w e = Some w' -> reachable w'.
End Core.
End Broker.
