(* ===== verification/Packets.v ===== *)
(** The bytes on a connection: the packets of MQTTPublishPacketBuilder.hpp and .cpp as they
    are put together, cut and sent by TcpClientConnection.cpp and MQTTClientConnection.cpp,
    and the machine of ClientThreadManager.cpp that finds the packets in the bytes that
    arrive.

    A byte is an integer; a memory access outside its object gives None.  nioev/lib (the
    encoder of lengths, strings and properties, what a buffer holds that was moved from, the
    number of message types) is the class [EncoderLib]. *)
From Stdlib Require Import ZArith Lia Bool List Ascii String.
From stdpp Require Import base list gmap strings.
From S2P Require Import Prelude.
From S2P Require Import Broker.
Import ListNotations.
Import Broker.
Open Scope Z_scope.

Module Packets.
Local Notation "'let?' p := a 'in' b" := (match a with Some p => b | None => None end)
  (at level 10, p strict pattern, a at level 200, b at level 200).
Class EncoderLib := {
  encodeVarByteInt : nat -> list Z;
  moved_from : list Z -> list Z;
  encodeString : string -> list Z;
  messageTypes : Z
}.

Section Bytes.
Context `{NioevLib} `{EncoderLib} (encodePropertyList : Properties -> list Z).

(** ** Packets as they are sent *)
Inductive kind := SingleByteWithLen | SingleByteWithLenAndMiddle | SingleByteWithLenAndMiddleAndEnd | Full.
(** The prelude is the first byte and the four bytes after it, of which [preludeLength] are
    sent; the identifier is in network order. *)
Record encodedPacket := mkPacketOf {
  kind_of : kind; p_firstByte : Z; varLength : list Z; preludeLength : nat; middle : list Z; packetId : option (list Z); end_ : list Z }.
Definition htons (id : Z) : list Z := [id / 256; id mod 256].
(** [memcpy] into the four bytes. *)
Definition length_bytes (l : list Z) : list Z := (take 4 l ++ replicate (4 - List.length l) 0)%list.
Definition fromFirstByte (firstByte : Z) : encodedPacket := mkPacketOf SingleByteWithLen firstByte (length_bytes []) 2 [] None [].
(** The size is that of the buffer after it was moved from. *)
Definition fromData (firstByte : Z) (buffer : list Z) : encodedPacket :=
  let l := encodeVarByteInt (List.length (moved_from buffer)) in
  mkPacketOf SingleByteWithLenAndMiddle firstByte (length_bytes l) (List.length l + 1) buffer None [].
Definition fromComponentsWithId (firstByte : Z) (middle : list Z) (id : Z) (end_ : list Z) : encodedPacket :=
  let l := encodeVarByteInt (List.length end_ + List.length middle + 2) in
  mkPacketOf Full firstByte (length_bytes l) (List.length l + 1) middle (Some (htons id)) end_.
Definition fromComponents (firstByte : Z) (middle end_ : list Z) : encodedPacket :=
  let l := encodeVarByteInt (List.length end_ + List.length middle) in
  mkPacketOf SingleByteWithLenAndMiddleAndEnd firstByte (length_bytes l) (List.length l + 1) middle None end_.
Definition setDupFlag (p : encodedPacket) : encodedPacket :=
  mkPacketOf (kind_of p) (Z.lor (p_firstByte p) 8) (varLength p) (preludeLength p) (middle p) (packetId p) (end_ p).
Definition fullSize (p : encodedPacket) : nat :=
  (preludeLength p + List.length (middle p) + (match packetId p with Some _ => 2 | None => 0 end) + List.length (end_ p))%nat.

(** What follows an offset, which is not beyond the end. *)
Definition from (k : nat) (l : list Z) : option (list Z) := if Nat.leb k (List.length l) then Some (drop k l) else None.
Definition prelude_from (p : encodedPacket) (offset : nat) : list Z :=
  take (preludeLength p - offset) (drop offset (p_firstByte p :: varLength p)).
(** The vectors of a packet from an offset.  The identifier is reached by a pointer to 16-bit
    integers: one further is beyond it. *)
Definition constructIOVecs (p : encodedPacket) (offset : nat) : option (list (list Z)) :=
  let afterPrelude := (offset - preludeLength p)%nat in
  let afterMiddle := (afterPrelude - List.length (middle p))%nat in
  match kind_of p with
  | SingleByteWithLen => if Nat.ltb offset (preludeLength p) then Some [prelude_from p offset] else None
  | SingleByteWithLenAndMiddle =>
      if Nat.ltb offset (preludeLength p) then Some [prelude_from p offset; middle p]
      else let? m := from afterPrelude (middle p) in Some [[]; m]
  | SingleByteWithLenAndMiddleAndEnd =>
      if Nat.ltb offset (preludeLength p) then Some [prelude_from p offset; middle p; end_ p]
      else if Nat.ltb offset (preludeLength p + List.length (middle p)) then
        let? m := from afterPrelude (middle p) in Some [[]; m; end_ p]
      else let? e := from afterMiddle (end_ p) in Some [[]; []; e]
  | Full =>
      let? id := packetId p in
      if Nat.ltb offset (preludeLength p) then Some [prelude_from p offset; middle p; id; end_ p]
      else if Nat.ltb offset (preludeLength p + List.length (middle p)) then
        let? m := from afterPrelude (middle p) in Some [[]; m; id; end_ p]
      else if Nat.ltb offset (preludeLength p + List.length (middle p) + 2) then
        if Nat.eqb afterMiddle 0 then Some [[]; []; id; end_ p] else None
      else let? e := from (afterMiddle - 2) (end_ p) in Some [[]; []; []; e]
  end.

(** ** Building a PUBLISH *)
(** What a builder keeps: the encoded topic, and what follows by version. *)
Record builder := mkBuilder {
  b_topic : string; b_payload : list Z; b_retained : bool; b_properties : Properties;
  packetMiddle : option (list Z); postlude4 : option (list Z); postlude5 : option (list Z) }.
Definition MQTTPublishPacketBuilder (topic : string) (payload : list Z) (retained : bool) (properties : Properties) : builder :=
  mkBuilder topic payload retained properties None None None.
Definition packetPostlude (b : builder) (v : version) : option (list Z) := match v with V4 => postlude4 b | V5 => postlude5 b end.
(** [emplace] keeps what is there. *)
Definition emplace_postlude (b : builder) (v : version) (l : list Z) : builder :=
  match packetPostlude b v with
  | Some _ => b
  | None =>
      mkBuilder (b_topic b) (b_payload b) (b_retained b) (b_properties b) (packetMiddle b)
        (match v with V4 => Some l | V5 => postlude4 b end) (match v with V4 => postlude5 b | V5 => Some l end)
  end.
Definition set_middle (b : builder) (l : list Z) : builder :=
  mkBuilder (b_topic b) (b_payload b) (b_retained b) (b_properties b) (Some l) (postlude4 b) (postlude5 b).
Definition publish_firstByte (q : qos) (retained : bool) : Z :=
  Z.lor (Z.lor (Z.shiftl (qos_int q) 1) (if retained then 1 else 0)) (Z.shiftl 3 4).
Definition publish_of (b : builder) (q : qos) (id : Z) (m e : list Z) : encodedPacket :=
  let firstByte := publish_firstByte q (b_retained b) in
  match q with QoS0 => fromComponents firstByte m e | _ => fromComponentsWithId firstByte m id e end.
Definition postlude_of (b : builder) (v : version) : list Z :=
  ((match v with V5 => encodePropertyList (b_properties b) | V4 => [] end) ++ b_payload b)%list.
(** [at] of a version that is not there throws. *)
Definition getPacket (b : builder) (q : qos) (id : Z) (v : version) : option (encodedPacket * builder) :=
  match packetPostlude b v, packetMiddle b with
  | Some e, Some m => Some (publish_of b q id m e, b)
  | _, _ =>
      let m := encodeString (b_topic b) in
      let b := emplace_postlude (set_middle b m) v (postlude_of b v) in
      let? e := packetPostlude b v in
      let? m := packetMiddle b in
      Some (publish_of b q id m e, b)
  end.

(** ** Sending *)
Record inTransit := mkTransit { packet_of : encodedPacket; offset : nat }.
Definition isDone (t : inTransit) : bool := Nat.leb (fullSize (packet_of t)) (offset t).
(** What [sendmsg] may answer: it took some bytes, it would block, or the connection is
    closed or fails, which throws. *)
Inductive answer := Took (n : nat) | WouldBlock | Closed | Failed.
Fixpoint vectors (ps : list inTransit) : option (list Z) :=
  match ps with
  | [] => Some []
  | t :: rest =>
      let? vs := constructIOVecs (packet_of t) (offset t) in
      let? l := vectors rest in
      Some (List.concat vs ++ l)%list
  end.
Fixpoint advance_sent (ps : list inTransit) (n : nat) : list inTransit :=
  match ps with
  | [] => []
  | t :: rest =>
      let remaining := (fullSize (packet_of t) - offset t)%nat in
      if Nat.leb remaining n then mkTransit (packet_of t) (fullSize (packet_of t)) :: advance_sent rest (n - remaining)
      else mkTransit (packet_of t) (offset t + n) :: rest
  end.
(** [UIO_MAXIOV / 4] packets at most are sent at a time. *)
Definition atOnce : nat := 256.
Inductive scattered := Wrote (ps : list inTransit) (bytes : list Z) | Threw | Undefined.
Definition sendScatter (ps : list inTransit) (a : answer) : scattered :=
  match vectors (take atOnce ps) with
  | None => Undefined
  | Some l =>
      match a with
      | Took n => Wrote (advance_sent (take atOnce ps) n ++ drop atOnce ps)%list (take n l)
      | WouldBlock => Wrote ps []
      | Closed | Failed => Threw
      end
  end.
(** The sending half of a connection; [wire] is what the peer was sent. *)
Record sender := mkSender { sendTasks : list inTransit; sendFailed : bool; wire : list Z }.
Definition sendData (s : sender) (p : encodedPacket) (a : answer) : option sender :=
  match sendTasks s with
  | [] =>
      match sendScatter [mkTransit p 0] a with
      | Undefined => None
      | Threw => Some (mkSender [] true (wire s))
      | Wrote ps bytes => Some (mkSender (List.filter (fun t => negb (isDone t)) ps) (sendFailed s) (wire s ++ bytes)%list)
      end
  | tasks => Some (mkSender (tasks ++ [mkTransit p 0])%list (sendFailed s) (wire s))
  end.
(** The done packets at the front are dropped. *)
Fixpoint drop_done (ps : list inTransit) : list inTransit :=
  match ps with
  | [] => []
  | t :: rest => if isDone t then drop_done rest else ps
  end.
(** The socket is writable; true when the connection is to be closed. *)
Definition writable (invalidVersion : bool) (s : sender) (a : answer) : option (sender * bool) :=
  match sendTasks s with
  | [] => Some (s, false)
  | tasks =>
      match sendScatter tasks a with
      | Undefined => None
      | Threw => Some (s, true)
      | Wrote ps bytes =>
          let left := drop_done ps in
          Some (mkSender left (sendFailed s) (wire s ++ bytes)%list, (match left with [] => true | _ => false end) && invalidVersion)
      end
  end.

(** ** Receiving *)
Inductive recvState := IDLE | RECEIVING_VAR_LENGTH | RECEIVING_DATA.
Record receiving := mkReceiving {
  currentReceiveBuffer : list Z; recv_state : recvState; messageTypeId : Z; packetLength : Z; multiplier : Z; r_firstByte : Z }.
Definition noData : receiving := mkReceiving [] IDLE 0 0 1 0.
Definition set_recv_state (r : receiving) (s : recvState) : receiving :=
  mkReceiving (currentReceiveBuffer r) s (messageTypeId r) (packetLength r) (multiplier r) (r_firstByte r).
Definition receive_bytes (r : receiving) (l : list Z) : receiving :=
  mkReceiving (currentReceiveBuffer r ++ l)%list (recv_state r) (messageTypeId r) (packetLength r) (multiplier r) (r_firstByte r).
Definition uint32 (n : Z) : Z := n mod 4294967296.
(** A byte of the length, and whether it is accepted. *)
Definition receive_length (r : receiving) (b : Z) : receiving * bool :=
  let r := mkReceiving (currentReceiveBuffer r) (recv_state r) (messageTypeId r) (uint32 (packetLength r + Z.land b 127 * multiplier r))
             (uint32 (multiplier r * 128)) (r_firstByte r) in
  (r, negb (128 * 128 * 128 <? multiplier r)).

(** The handler of a packet ends, or throws. *)
Section Handling.
Context {W : Type}.
Inductive handled := Fine (w : W) | Thrown (w : W).
Context (handle : W -> receiving -> handled).
Inductive outcome := Received (w : W) (r : receiving) | Stopped (w : W) (r : receiving).
(** Handling a packet, then what is next. *)
Definition then_ (h : handled) (r : receiving) (k : W -> outcome) : outcome := match h with Fine w => k w | Thrown w => Stopped w r end.
(** The loop over the bytes of one call of [recv]; every byte takes two rounds at most. *)
Fixpoint receive_loop (fuel : nat) (w : W) (r : receiving) (bytes : list Z) : outcome :=
  match fuel with
  | O => Received w r
  | S fuel =>
      match bytes with
      | [] => Received w r
      | b :: rest =>
          match recv_state r with
          | IDLE =>
              let typeId := Z.shiftr b 4 in
              if (messageTypes <=? typeId) || (typeId =? 0) then Stopped w noData
              else receive_loop fuel w (mkReceiving [] RECEIVING_VAR_LENGTH typeId 0 1 b) rest
          | RECEIVING_VAR_LENGTH =>
              let '(r, ok) := receive_length r b in
              if negb ok then Stopped w r
              else if Z.land b 128 =? 0 then
                if packetLength r =? 0 then
                  let r := set_recv_state r IDLE in then_ (handle w r) r (fun w => receive_loop fuel w r rest)
                else receive_loop fuel w (set_recv_state r RECEIVING_DATA) rest
              else receive_loop fuel w r rest
          | RECEIVING_DATA =>
              let missing := Z.to_nat (packetLength r - Z.of_nat (List.length (currentReceiveBuffer r))) in
              let n := if Nat.leb (List.length bytes) missing then List.length bytes else missing in
              let r := receive_bytes r (take n bytes) in
              if Z.of_nat (List.length (currentReceiveBuffer r)) =? packetLength r then
                then_ (handle w r) r (fun w => receive_loop fuel w (set_recv_state r IDLE) (drop n bytes))
              else receive_loop fuel w r (drop n bytes)
          end
      end
  end.
Definition receive (w : W) (r : receiving) (bytes : list Z) : outcome := receive_loop (2 * List.length bytes + 1) w r bytes.
(** The calls of [recv] until there is nothing left. *)
Fixpoint receive_all (w : W) (r : receiving) (chunks : list (list Z)) : outcome :=
  match chunks with
  | [] => Received w r
  | c :: rest => match receive w r c with Received w r => receive_all w r rest | o => o end
  end.
End Handling.
End Bytes.
End Packets.
