(* ===== verification/BrokerDemo.v ===== *)
(** A small library in the place of nioev/lib, for which the broker can be run: filters
    match the topics they equal, and # matches all; properties are a length and bytes. *)
From Stdlib Require Import ZArith Bool List Ascii String.
From stdpp Require Import base list gmap strings.
From S2P Require Import Prelude.
From S2P Require Import Broker.
From S2P Require Import Packets.
Import ListNotations.
Import Broker Packets.
Open Scope Z_scope.

Module BrokerDemo.
Definition chars (s : string) : list Z := List.map (fun c => Z.of_nat (nat_of_ascii c)) (list_ascii_of_string s).
Definition text (l : list Z) : string := string_of_list_ascii (List.map (fun z => ascii_of_nat (Z.to_nat z)) l).
Definition take_byte (l : list Z) : option (Z * list Z) := match l with b :: l => Some (b, l) | [] => None end.
Definition take_two (l : list Z) : option (Z * list Z) := match l with a :: b :: l => Some (a * 256 + b, l) | _ => None end.
Definition take_bytes (l : list Z) : option (list Z * list Z) :=
  match take_two l with
  | Some (n, l) => if Nat.leb (Z.to_nat n) (List.length l) then Some (take (Z.to_nat n) l, drop (Z.to_nat n) l) else None
  | None => None
  end.
Definition same_entry (filter : string) (sub : subscription) (e : string * subscription) : bool :=
  String.eqb filter (fst e) && bool_decide (subscriber_of sub = subscriber_of (snd e)).
Definition matches_filter (filter topic : string) : bool := String.eqb filter "#" || String.eqb filter topic.
#[export] Instance demo_lib : NioevLib := {|
  Properties := list Z; noProperties := [];
  minQoS a b := if qos_int a <=? qos_int b then a else b;
  tree := list (string * subscription); noSubscriptions := [];
  addSubscription t f sub := (List.filter (fun e => negb (same_entry f sub e)) t ++ [(f, sub)])%list;
  removeSubscription t f sub := List.filter (fun e => negb (same_entry f sub e)) t;
  removeAllSubscriptions t sub := List.filter (fun e => negb (bool_decide (subscriber_of sub = subscriber_of (snd e)))) t;
  every_match t topic := List.map snd (List.filter (fun e => matches_filter (fst e) topic) t);
  decoder := list Z; BinaryDecoder l := l; decoder_bytes l := l; advance l n := drop (Z.to_nat n) l;
  decodeByte := take_byte; decode2Bytes := take_two;
  decodeString l := match take_bytes l with Some (s, l) => Some (text s, l) | None => None end;
  decodeBytesWithPrefixLength := take_bytes;
  decodeProperties l := match take_byte l with Some (n, l) => Some (take (Z.to_nat n) l, drop (Z.to_nat n) l) | None => None end |}.
Definition demo_varint (n : Z) : list Z :=
  if n <? 128 then [n]
  else if n <? 16384 then [n mod 128 + 128; n / 128]
  else if n <? 2097152 then [n mod 128 + 128; (n / 128) mod 128 + 128; n / 16384]
  else [n mod 128 + 128; (n / 128) mod 128 + 128; (n / 16384) mod 128 + 128; n / 2097152].
Definition prefixed (l : list Z) : list Z := (Z.of_nat (List.length l) / 256 :: Z.of_nat (List.length l) mod 256 :: l)%list.
#[export] Instance demo_encoder : EncoderLib := {|
  encodeVarByteInt n := demo_varint (Z.of_nat n); moved_from l := l; encodeString s := prefixed (chars s); messageTypes := 16 |}.

(** ** Packets of clients *)
Definition connect_of (id : string) (flags keepAlive : Z) (willTopic : string) (message : list Z) : recvData :=
  mkRecvData 16 CONNECT (protocolName ++ [4; flags; keepAlive / 256; keepAlive mod 256] ++ prefixed (chars id) ++
    (if Z.testbit flags 2 then prefixed (chars willTopic) ++ prefixed message else []))%list.
Definition subscribe_to (filter : string) (q : Z) : recvData := mkRecvData 130 SUBSCRIBE ([0; 1] ++ prefixed (chars filter) ++ [q])%list.
Definition publish_on (topic : string) (q id : Z) (retained : bool) (message : list Z) : recvData :=
  mkRecvData (48 + 2 * q + (if retained then 1 else 0)) PUBLISH
    (prefixed (chars topic) ++ (if q =? 0 then [] else [id / 256; id mod 256]) ++ message)%list.
Definition disconnect : recvData := mkRecvData 224 DISCONNECT [].
Definition ack_of (t : message_type) (first id : Z) : recvData := mkRecvData first t [id / 256; id mod 256].

(** ** Running *)
Definition possibleb (w : world) (e : event) : bool :=
  match e with
  | Readable c _ _ _ _ h => bool_decide (is_Some (clients w !! c)) && match h with Mine => false | _ => true end
  | SendFails c | SocketError c => bool_decide (is_Some (clients w !! c))
  | Sweep => shouldCleanup w
  | PublishOther _ _ h => match h with Mine => false | _ => true end
  | _ => true
  end.
Fixpoint run (w : world) (es : list event) : option world :=
  match es with
  | [] => Some w
  | e :: rest => if possibleb w e then match react w e with Some w => run w rest | None => None end else Some w
  end.
Definition after (es : list event) : world := default init (run init es).
Lemma possibleb_spec w e : possibleb w e = true -> possible w e.
Proof.
  destruct e; cbn; auto.
  - intros [P1 P2]%andb_true_iff. split; [now apply bool_decide_eq_true in P1|]. now destruct h.
  - now intros P%bool_decide_eq_true.
  - now intros P%bool_decide_eq_true.
  - now destruct h.
Qed.
Lemma run_reachable es : forall w w', reachable w -> run w es = Some w' -> reachable w'.
Proof.
  induction es as [|e es IH]; intros w w' R U; cbn [run] in U; [injection U as <-; exact R|].
  destruct (possibleb w e) eqn:P; [|injection U as <-; exact R]. destruct (react w e) as [w1|] eqn:V; [|discriminate].
  eapply IH; [|exact U]. eapply reach_step; [exact R| |exact V]. now apply possibleb_spec.
Qed.
Lemma after_reachable es : reachable (after es).
Proof.
  unfold after. destruct (run init es) as [w|] eqn:U; cbn; [|constructor]. eapply run_reachable; [constructor|exact U].
Qed.
(** A client that connects and is logged in; and one that sends something. *)
Definition joins (c : nat) (id : string) (flags : Z) : list event :=
  [Connect "10.0.0.1:1883" 0; Readable c [connect_of id flags 60 "" []] Nothing 1 [] Free; Work []].
Definition sends (c : nat) (r : recvData) : list event := [Readable c [r] Nothing 2 [] Free; Work []].
End BrokerDemo.
