(* ===== verification/BrokerFacts.v ===== *)
(** Theorems about the core of the broker: the links between clients and sessions, the
    references of queued requests, publishing, retained messages, the acknowledged
    deliveries, and the ends of its loops. *)
From Stdlib Require Import ZArith Lia Bool List Ascii String.
From stdpp Require Import base list gmap strings sorting.
From S2P Require Import Prelude Broker BrokerDemo.
Import ListNotations.
Open Scope Z_scope.

Module BrokerFacts.
Import Broker.

(** The cases of a sequence of optional steps that succeeded. *)
Ltac steps :=
  repeat match goal with
  | U : match ?m with Some _ => _ | None => None end = Some _ |- _ => destruct m eqn:?; [|discriminate U]
  | U : Some _ = Some _ |- _ => injection U as U; subst
  | U : (let _ := _ in _) = Some _ |- _ => cbv zeta in U
  end.

Section Core.
Context `{NioevLib}.

(** ** Counting requests *)
Definition cnt (p : request -> bool) (l : list request) : Z := Z.of_nat (List.length (List.filter p l)).
Lemma cnt_app p l l' : cnt p (l ++ l') = cnt p l + cnt p l'.
Proof. unfold cnt. rewrite List.filter_app, length_app. lia. Qed.
Lemma cnt_cons p r l : cnt p (r :: l) = (if p r then 1 else 0) + cnt p l.
Proof. unfold cnt. cbn [List.filter]. destruct (p r); cbn [List.length]; lia. Qed.
Lemma cnt_nil p : cnt p [] = 0.
Proof. reflexivity. Qed.
Lemma cnt_one p r : cnt p [r] = if p r then 1 else 0.
Proof. unfold cnt. cbn. now destruct (p r). Qed.
Lemma cnt_nonneg p l : 0 <= cnt p l.
Proof. unfold cnt. lia. Qed.
Lemma cnt_in p l r : r ∈ l -> p r = true -> 0 < cnt p l.
Proof.
  intros I P. induction l as [|r' l IH]; [now apply elem_of_nil in I|]. rewrite cnt_cons. pose proof (cnt_nonneg p l).
  apply elem_of_cons in I as [<-|I]; [rewrite P; lia|]. specialize (IH I). destruct (p r'); lia.
Qed.
Definition about_client (c : nat) (r : request) : bool := bool_decide (client_of r = Some c).
Definition about_session (s : nat) (r : request) : bool := bool_decide (client_of r = None /\ session_of r = Some s).
Definition logs_in (c : nat) (r : request) : bool := match r with LoginClient c' _ _ => Nat.eqb c c' | _ => false end.

(** ** What the functions keep *)
Definition plink (w : world) (c : nat) : option (option nat * bool) := option_map (fun x => (persistent x, loggedOut x)) (clients w !! c).
Definition slink (w : world) (s : nat) : option (string * option nat) := option_map (fun x => (s_clientId x, current x)) (sessions w !! s).
Definition ref_c (w : world) (c : nat) : Z := match clients w !! c with Some x => c_refs x | None => 0 end.
Definition ref_s (w : world) (s : nat) : Z := match sessions w !! s with Some x => s_refs x | None => 0 end.
Definition st_c (w : world) (c : nat) : option connection_state := option_map c_state (clients w !! c).

(** The requests [q] were added to the queues, and the references with them. *)
Record adds (w w' : world) (q : list request) : Prop := {
  ad_queues : exists a b, queue w' = queue w ++ a /\ queueInternal w' = queueInternal w ++ b /\ forall p, cnt p q = cnt p a + cnt p b;
  ad_client : forall c, ref_c w' c = ref_c w c + cnt (about_client c) q;
  ad_session : forall s, ref_s w' s = ref_s w s + cnt (about_session s) q
}.
(** The links are those they were. *)
Record same_links (w w' : world) : Prop := {
  sl_plink : forall c, plink w' c = plink w c;
  sl_slink : forall s, slink w' s = slink w s;
  sl_map : persistentClientStates w' = persistentClientStates w;
  sl_deleted : deletedStates w' = deletedStates w;
  sl_nc : next_client w' = next_client w;
  sl_ns : next_session w' = next_session w
}.
Definition same_states (w w' : world) : Prop := forall c, st_c w' c = st_c w c.
(** Nothing but messages, packet identifiers and retained requests. *)
Record mild (w w' : world) : Prop := {
  mi_links : same_links w w';
  mi_states : same_states w w';
  mi_adds : exists q, adds w w' q /\ forall c, cnt (logs_in c) q = 0
}.

Lemma adds_refl w : adds w w [].
Proof. split; intros; rewrite ?cnt_nil; try lia. exists [], []. rewrite !app_nil_r. repeat split; auto. Qed.
Lemma adds_trans w1 w2 w3 q q' : adds w1 w2 q -> adds w2 w3 q' -> adds w1 w3 (q ++ q').
Proof.
  intros [(a & b & A1 & A2 & A3) C S] [(a' & b' & A1' & A2' & A3') C' S']. split.
  - exists (a ++ a'), (b ++ b'). rewrite A1', A1, A2', A2, <- !app_assoc. repeat split; intros p. rewrite !cnt_app, A3, A3'. lia.
  - intros c. rewrite C', C, cnt_app. lia.
  - intros s. rewrite S', S, cnt_app. lia.
Qed.
Lemma links_refl w : same_links w w.
Proof. split; auto. Qed.
Lemma links_trans w1 w2 w3 : same_links w1 w2 -> same_links w2 w3 -> same_links w1 w3.
Proof. intros [] []. split; intros; congruence. Qed.
Lemma mild_refl w : mild w w.
Proof. split; [apply links_refl|intros c; reflexivity|]. exists []. split; [apply adds_refl|reflexivity]. Qed.
Lemma mild_trans w1 w2 w3 : mild w1 w2 -> mild w2 w3 -> mild w1 w3.
Proof.
  intros [L S (q & A & Q)] [L' S' (q' & A' & Q')]. split; [eapply links_trans; eauto|intros c; now rewrite S', S|].
  exists (q ++ q'). split; [eapply adds_trans; eauto|]. intros c. rewrite cnt_app, Q, Q'. reflexivity.
Qed.
#[local] Hint Resolve mild_refl : core.

(** Updates through a pointer. *)
Lemma on_client_inv w c f w' : on_client w c f = Some w' -> exists x, clients w !! c = Some x /\ w' = with_clients w (<[c := f x]> (clients w)).
Proof. unfold on_client. destruct (clients w !! c); [|discriminate]. intros [= <-]. eauto. Qed.
Lemma on_session_inv w s f w' : on_session w s f = Some w' -> exists x, sessions w !! s = Some x /\ w' = with_sessions w (<[s := f x]> (sessions w)).
Proof. unfold on_session. destruct (sessions w !! s); [|discriminate]. intros [= <-]. eauto. Qed.
Lemma lookup_updated {A} (m : gmap nat A) i j a b : m !! i = Some a -> <[i := b]> m !! j = if decide (i = j) then Some b else m !! j.
Proof. intros _. destruct (decide (i = j)) as [->|N]; [apply lookup_insert_eq|now apply lookup_insert_ne]. Qed.

Lemma mild_client w c f w' : on_client w c f = Some w' ->
  (forall x, persistent (f x) = persistent x /\ loggedOut (f x) = loggedOut x /\ c_refs (f x) = c_refs x /\ c_state (f x) = c_state x) -> mild w w'.
Proof.
  intros U F. apply on_client_inv in U as (x & X & ->). destruct (F x) as (F1 & F2 & F3 & F4).
  assert (L : forall c', <[c:=f x]> (clients w) !! c' = if decide (c = c') then Some (f x) else clients w !! c')
    by (intros; eapply lookup_updated, X).
  split.
  - split; auto. intros c'. unfold plink. cbn [clients with_clients]. rewrite L. destruct (decide (c = c')) as [<-|]; [|reflexivity].
    rewrite X. cbn. congruence.
  - intros c'. unfold st_c. cbn [clients with_clients]. rewrite L. destruct (decide (c = c')) as [<-|]; [|reflexivity]. rewrite X. cbn. congruence.
  - exists []. split; [|reflexivity]. split; cbn; intros; rewrite ?cnt_nil; [exists [], []; rewrite !app_nil_r; auto| |].
    + unfold ref_c. cbn [clients with_clients]. rewrite L. destruct (decide (c = c0)) as [<-|]; [rewrite X; lia|lia].
    + unfold ref_s. cbn. lia.
Qed.
Lemma mild_session_at w s f w' x : on_session w s f = Some w' -> sessions w !! s = Some x ->
  s_clientId (f x) = s_clientId x /\ current (f x) = current x /\ s_refs (f x) = s_refs x -> mild w w'.
Proof.
  intros U X (F1 & F2 & F3). apply on_session_inv in U as (x' & X' & ->). assert (x' = x) as -> by congruence.
  assert (L : forall c', <[s:=f x]> (sessions w) !! c' = if decide (s = c') then Some (f x) else sessions w !! c')
    by (intros; eapply lookup_updated, X).
  split; [|intros c; reflexivity|].
  - split; auto. intros c'. unfold slink. cbn [sessions with_sessions]. rewrite L. destruct (decide (s = c')) as [<-|]; [|reflexivity].
    rewrite X. cbn. congruence.
  - exists []. split; [|reflexivity]. split; cbn; intros; rewrite ?cnt_nil; [exists [], []; rewrite !app_nil_r; auto| |].
    + unfold ref_c. cbn. lia.
    + unfold ref_s. cbn [sessions with_sessions]. rewrite L. destruct (decide (s = s0)) as [<-|]; [rewrite X; lia|lia].
Qed.
Lemma mild_session w s f w' : on_session w s f = Some w' ->
  (forall x, s_clientId (f x) = s_clientId x /\ current (f x) = current x /\ s_refs (f x) = s_refs x) -> mild w w'.
Proof. intros U F. pose proof U as U'. apply on_session_inv in U' as (x & X & _). eapply mild_session_at; eauto. Qed.
(** A change of anything else. *)
Lemma mild_other w w' : clients w' = clients w -> sessions w' = sessions w -> persistentClientStates w' = persistentClientStates w ->
  deletedStates w' = deletedStates w -> next_client w' = next_client w -> next_session w' = next_session w ->
  queue w' = queue w -> queueInternal w' = queueInternal w -> mild w w'.
Proof.
  intros C S M D N1 N2 Q I. split.
  - split; auto; intros; unfold plink, slink; now rewrite ?C, ?S.
  - intros c. unfold st_c. now rewrite C.
  - exists []. split; [|reflexivity]. split; intros; unfold ref_c, ref_s; rewrite ?C, ?S, ?cnt_nil, ?Z.add_0_r; auto.
    exists [], []. rewrite !app_nil_r. auto.
Qed.

Lemma mild_sendData w c o w' : sendData w c o = Some w' -> mild w w'.
Proof. intros U. apply (mild_client _ _ _ _ U). now intros []. Qed.
#[local] Hint Resolve mild_sendData : core.
Lemma mild_client_publish w c t p q r ps id w' : client_publish w c t p q r ps id = Some w' -> mild w w'.
Proof. unfold client_publish. intros U. steps. eauto. Qed.
#[local] Hint Resolve mild_client_publish : core.
Lemma mild_order w n : mild w (with_order w n).
Proof. now apply mild_other. Qed.
Lemma mild_session_publish w s t p q r ps w' : session_publish w s t p q r ps = Some w' -> mild w w'.
Proof.
  unfold session_publish. intros U. steps. destruct q; steps; eauto.
  all: eapply mild_trans; [apply mild_order|]; eapply mild_trans; [eapply mild_session; [eassumption|now intros []]|].
  all: destruct (current s0); steps; eauto.
Qed.
Lemma mild_received w l n : mild w (with_received w l n).
Proof. now apply mild_other. Qed.
Lemma mild_sendPublish w sub t p q r ps w' : sendPublish w sub t p q r ps = Some w' -> mild w w'.
Proof. destruct sub; cbn; intros U; [eapply mild_session_publish, U|steps]. apply mild_received. Qed.
#[local] Hint Resolve mild_sendPublish mild_received : core.
Lemma mild_deliver p subs : forall w visited w', deliver w p subs visited = Some w' -> mild w w'.
Proof.
  induction subs as [|sub subs IH]; intros w visited w' U; cbn [deliver] in U; [steps; auto|].
  destruct (bool_decide _); [eapply IH, U|]. steps. eapply mild_trans; [eapply mild_sendPublish; eassumption|eapply IH, U].
Qed.
Lemma mild_publishNoLock w p w' : publishNoLockNoRetain w p = Some w' -> mild w w'.
Proof.
  unfold publishNoLockNoRetain. intros U. apply mild_deliver in U. eapply mild_trans; [|exact U].
  destruct (String.prefix _ _); [|auto]. unfold performSystemAction. split_ifs; auto.
Qed.
Lemma mild_publishInternal w p w' : publishInternal w p = Some w' -> mild w w'.
Proof.
  unfold publishInternal. intros U. steps. eapply mild_trans; [eapply mild_publishNoLock; eassumption|].
  destruct (retain p); [|steps; auto]. cbn in U. steps. split.
  - split; auto.
  - intros c. reflexivity.
  - exists [Retain p]. split; [|reflexivity]. split; cbn; intros.
    + exists [], [Retain p]. rewrite app_nil_r. repeat split; auto.
    + rewrite cnt_one. unfold about_client. rewrite bool_decide_false by discriminate. unfold ref_c. cbn. lia.
    + rewrite cnt_one. unfold about_session. rewrite bool_decide_false by now intros [_ ?]. unfold ref_s. cbn. lia.
Qed.
Lemma mild_send_all l : forall w c w', send_all w c l = Some w' -> mild w w'.
Proof. induction l as [|o l IH]; intros w c w' U; cbn in U; steps; auto. eapply mild_trans; [|eapply IH, U]. eauto. Qed.
Lemma mild_sendConnack w c b w' : sendConnack w c b = Some w' -> mild w w'.
Proof. unfold sendConnack. intros U. steps. eauto. Qed.
Lemma mild_send_retained sub q t m subs : forall w w', send_retained w sub q t m subs = Some w' -> mild w w'.
Proof.
  induction subs as [|s subs IH]; intros w w' U; cbn in U; steps; auto. eapply mild_trans; [|eapply IH, U].
  destruct (bool_decide _); steps; eauto.
Qed.
Lemma mild_send_all_retained sub q ms : forall w w', send_all_retained w sub q ms = Some w' -> mild w w'.
Proof.
  induction ms as [|[t m] ms IH]; intros w w' U; cbn in U; steps; auto. eapply mild_trans; [eapply mild_send_retained; eassumption|eauto].
Qed.
Lemma mild_subscribe w sub t q w' : subscribeClientInternal w sub t q = Some w' -> mild w w'.
Proof.
  unfold subscribeClientInternal. intros U. apply mild_send_all_retained in U. eapply mild_trans; [|exact U]. now apply mild_other.
Qed.
Lemma mild_retain w p : mild w (retain_message w p).
Proof. unfold retain_message. destruct (payload p); now apply mild_other. Qed.

(** ** The links between clients and sessions *)
Record linked (w : world) : Prop := {
  lk_client : forall c s lo, plink w c = Some (Some s, lo) ->
    lo = false /\ exists id, slink w s = Some (id, Some c) /\ persistentClientStates w !! id = Some s;
  lk_session : forall s id c, slink w s = Some (id, Some c) -> exists lo, plink w c = Some (Some s, lo);
  lk_map : forall id s, persistentClientStates w !! id = Some s -> exists cur, slink w s = Some (id, cur);
  lk_alive : forall s id cur, slink w s = Some (id, cur) -> persistentClientStates w !! id = Some s \/ s ∈ deletedStates w;
  lk_deleted : forall s, s ∈ deletedStates w -> exists id, slink w s = Some (id, None) /\ persistentClientStates w !! id <> Some s;
  lk_new_client : forall c, is_Some (plink w c) -> (c < next_client w)%nat;
  lk_new_session : forall s, is_Some (slink w s) -> (s < next_session w)%nat
}.
Lemma linked_same w w' : same_links w w' -> linked w -> linked w'.
Proof.
  intros [P S M D N1 N2] [A B C E F G I]. split; rewrite ?M, ?D, ?N1, ?N2; intros *; rewrite ?P, ?S; eauto.
Qed.

(** Logins are requested once by each client, which has no session until then. *)
Definition logins (w : world) (l : list request) : Prop := forall c,
  cnt (logs_in c) l <= (match st_c w c with Some CONNECTING => 1 | _ => 0 end) /\
  (st_c w c = Some INITIAL \/ 0 < cnt (logs_in c) l -> forall s lo, plink w c <> Some (Some s, lo)).
(** The references to an object are the requests [l] that name it. *)
Definition counted (w : world) (l : list request) : Prop :=
  (forall c, ref_c w c = cnt (about_client c) l) /\ (forall s, ref_s w s = cnt (about_session s) l).
Record inv (w : world) (l : list request) : Prop := { i_linked : linked w; i_counted : counted w l; i_logins : logins w l }.
Lemma inv_cnt w l l' : (forall p, cnt p l = cnt p l') -> inv w l -> inv w l'.
Proof.
  intros E [L [C S] I]. split; auto.
  - split; intros x; rewrite <- E; auto.
  - intros c. rewrite <- !E. apply I.
Qed.
Lemma counted_adds w w' l q : adds w w' q -> counted w l -> counted w' (l ++ q).
Proof. intros [_ C S] [C' S']. split; intros x; rewrite ?C, ?S, ?C', ?S', cnt_app; reflexivity. Qed.
Lemma inv_mild w w' l : mild w w' -> inv w l -> exists q, adds w w' q /\ inv w' (l ++ q).
Proof.
  intros [Li St (q & A & Q)] [L C I]. exists q. split; [exact A|]. split.
  - eapply linked_same; eauto.
  - eapply counted_adds; eauto.
  - intros c. rewrite cnt_app, Q, Z.add_0_r, (St c). destruct (I c) as [I1 I2]. split; [exact I1|]. rewrite (sl_plink _ _ Li). exact I2.
Qed.

(** *** Single changes of the links *)
Lemma adds_client w c f w' : on_client w c f = Some w' -> (forall x, c_refs (f x) = c_refs x) -> adds w w' [].
Proof.
  intros U F. apply on_client_inv in U as (x & X & ->). split; cbn; intros; rewrite ?cnt_nil.
  - exists [], []. rewrite !app_nil_r. auto.
  - unfold ref_c. cbn [clients with_clients]. rewrite (lookup_updated _ _ _ _ _ X). destruct (decide (c = c0)) as [<-|]; [rewrite X, F|]; lia.
  - unfold ref_s. cbn. lia.
Qed.
Lemma adds_session w s f w' : on_session w s f = Some w' -> (forall x, s_refs (f x) = s_refs x) -> adds w w' [].
Proof.
  intros U F. apply on_session_inv in U as (x & X & ->). split; cbn; intros; rewrite ?cnt_nil.
  - exists [], []. rewrite !app_nil_r. auto.
  - unfold ref_c. cbn. lia.
  - unfold ref_s. cbn [sessions with_sessions]. rewrite (lookup_updated _ _ _ _ _ X). destruct (decide (s = s0)) as [<-|]; [rewrite X, F|]; lia.
Qed.
Lemma adds_other w w' : clients w' = clients w -> sessions w' = sessions w -> queue w' = queue w -> queueInternal w' = queueInternal w ->
  adds w w' [].
Proof.
  intros C S Q I. split; intros; unfold ref_c, ref_s; rewrite ?C, ?S, ?cnt_nil, ?Z.add_0_r; auto. exists [], []. rewrite !app_nil_r. auto.
Qed.
Lemma adds_nil_trans w1 w2 w3 q : adds w1 w2 [] -> adds w2 w3 q -> adds w1 w3 q.
Proof. apply adds_trans. Qed.
Lemma adds_trans_nil w1 w2 w3 q : adds w1 w2 q -> adds w2 w3 [] -> adds w1 w3 q.
Proof. intros A B. rewrite <- (app_nil_r q). eapply adds_trans; eauto. Qed.

(** The links after an update of one client or session. *)
Lemma plink_client w c f w' x : on_client w c f = Some w' -> clients w !! c = Some x ->
  forall c', plink w' c' = if decide (c = c') then Some (persistent (f x), loggedOut (f x)) else plink w c'.
Proof.
  intros U X c'. apply on_client_inv in U as (x' & X' & ->). assert (x' = x) as -> by congruence.
  unfold plink. cbn [clients with_clients]. rewrite (lookup_updated _ _ _ _ _ X). now destruct (decide (c = c')).
Qed.
Lemma slink_session w s f w' x : on_session w s f = Some w' -> sessions w !! s = Some x ->
  forall s', slink w' s' = if decide (s = s') then Some (s_clientId (f x), current (f x)) else slink w s'.
Proof.
  intros U X c'. apply on_session_inv in U as (x' & X' & ->). assert (x' = x) as -> by congruence.
  unfold slink. cbn [sessions with_sessions]. rewrite (lookup_updated _ _ _ _ _ X). now destruct (decide (s = c')).
Qed.
Lemma states_client w c f w' : on_client w c f = Some w' -> (forall x, c_state (f x) = c_state x) -> same_states w w'.
Proof.
  intros U F c'. apply on_client_inv in U as (x & X & ->). unfold st_c. cbn [clients with_clients].
  rewrite (lookup_updated _ _ _ _ _ X). destruct (decide (c = c')) as [<-|]; [|reflexivity]. rewrite X. cbn. now rewrite F.
Qed.
(** An update of a client leaves the rest. *)
Lemma client_rest w c f w' : on_client w c f = Some w' ->
  sessions w' = sessions w /\ persistentClientStates w' = persistentClientStates w /\ deletedStates w' = deletedStates w /\
  next_client w' = next_client w /\ next_session w' = next_session w.
Proof. intros U. apply on_client_inv in U as (x & X & ->). auto. Qed.
Lemma session_rest w s f w' : on_session w s f = Some w' ->
  clients w' = clients w /\ persistentClientStates w' = persistentClientStates w /\ deletedStates w' = deletedStates w /\
  next_client w' = next_client w /\ next_session w' = next_session w.
Proof. intros U. apply on_session_inv in U as (x & X & ->). auto. Qed.

(** The links of a world with those of [c] and [s] changed. *)
Record relinked (w w' : world) (fp : nat -> option (option nat * bool)) (fs : nat -> option (string * option nat)) : Prop := {
  rl_plink : forall c, plink w' c = fp c;
  rl_slink : forall s, slink w' s = fs s;
  rl_map : persistentClientStates w' = persistentClientStates w;
  rl_deleted : deletedStates w' = deletedStates w;
  rl_nc : next_client w' = next_client w;
  rl_ns : next_session w' = next_session w
}.
Ltac linked_cases :=
  repeat match goal with
  | |- context [decide (?a = ?b)] => destruct (decide (a = b)) as [?|]; [try subst a; try subst b|]
  end.
(** Letting go: [c] has no session any more, is logged out or not, and no session has it. *)
Lemma linked_dropped w w' c s id lo lo0 : linked w -> plink w c = Some (Some s, lo0) -> slink w s = Some (id, Some c) ->
  relinked w w' (fun c' => if decide (c = c') then Some (None, lo) else plink w c')
    (fun s' => if decide (s = s') then Some (id, None) else slink w s') -> linked w'.
Proof.
  intros [A B C E F G I] P S [RP RS M D N1 N2]. split; rewrite ?M, ?D, ?N1, ?N2; intros *.
  - rewrite RP. linked_cases; [congruence|]. intros X. destruct (A _ _ _ X) as (-> & id' & Y & Z). split; [reflexivity|].
    exists id'. rewrite RS. linked_cases; [|auto]. congruence.
  - rewrite RS. linked_cases; [congruence|]. intros X. destruct (B _ _ _ X) as [lo' Y]. rewrite RP. linked_cases; [|eauto]. congruence.
  - intros X. destruct (C _ _ X) as [cur Y]. rewrite RS. linked_cases; [|eauto]. rewrite Y in S. injection S as -> ->. eauto.
  - rewrite RS. linked_cases; [|apply E]. intros [= <- <-]. eapply E, S.
  - intros X. destruct (F _ X) as (id' & Y & Z). exists id'. rewrite RS. linked_cases; [|auto]. congruence.
  - rewrite RP. linked_cases; [|apply G]. intros _. apply G. rewrite P. eauto.
  - rewrite RS. linked_cases; [|apply I]. intros _. apply I. rewrite S. eauto.
Qed.
(** Logging out without a session. *)
Lemma linked_logged_out w w' c lo0 : linked w -> plink w c = Some (None, lo0) ->
  relinked w w' (fun c' => if decide (c = c') then Some (None, true) else plink w c') (slink w) -> linked w'.
Proof.
  intros [A B C E F G I] P [RP RS M D N1 N2]. split; rewrite ?M, ?D, ?N1, ?N2; intros *.
  - rewrite RP. linked_cases; [congruence|]. intros X. destruct (A _ _ _ X) as (? & id & ?). split; [auto|]. exists id. now rewrite RS.
  - rewrite RS. intros X. destruct (B _ _ _ X) as [lo Y]. rewrite RP. linked_cases; [congruence|eauto].
  - intros X. destruct (C _ _ X) as [cur Y]. exists cur. now rewrite RS.
  - rewrite RS. apply E.
  - intros X. destruct (F _ X) as (id & ?). exists id. now rewrite RS.
  - rewrite RP. linked_cases; [|apply G]. intros _. apply G. rewrite P. eauto.
  - rewrite RS. apply I.
Qed.
(** A session without a client is given up. *)
Lemma linked_deleted w w' s id : linked w -> slink w s = Some (id, None) -> persistentClientStates w !! id = Some s ->
  (forall c, plink w' c = plink w c) -> (forall s, slink w' s = slink w s) -> next_client w' = next_client w -> next_session w' = next_session w ->
  persistentClientStates w' = delete id (persistentClientStates w) -> deletedStates w' = deletedStates w ++ [s] -> linked w'.
Proof.
  intros [A B C E F G I] S Ms RP RS N1 N2 M D. split; rewrite ?M, ?D, ?N1, ?N2; intros *.
  - rewrite RP. intros X. destruct (A _ _ _ X) as (? & id' & Y & Z). split; [auto|]. exists id'. rewrite RS. split; [auto|].
    rewrite lookup_delete_ne; [auto|]. intros <-. congruence.
  - rewrite RS. intros X. destruct (B _ _ _ X) as [lo Y]. exists lo. now rewrite RP.
  - intros X. apply lookup_delete_Some in X as [_ X]. destruct (C _ _ X) as [cur Y]. exists cur. now rewrite RS.
  - rewrite RS. intros X. destruct (E _ _ _ X) as [Y|Y]; [|right; apply elem_of_app; auto].
    destruct (decide (id = id0)) as [<-|Ne]; [|left; now rewrite lookup_delete_ne].
    right. apply elem_of_app. right. assert (s0 = s) as -> by congruence. now apply list_elem_of_singleton.
  - intros X. apply elem_of_app in X as [X|X].
    + destruct (F _ X) as (id' & Y & Z). exists id'. rewrite RS. split; [auto|]. rewrite lookup_delete_Some. tauto.
    + apply list_elem_of_singleton in X as ->. exists id. rewrite RS. split; [auto|]. now rewrite lookup_delete_eq.
  - rewrite RP. apply G.
  - rewrite RS. apply I.
Qed.

(** *** Logging out *)
Lemma plink_of w c x : clients w !! c = Some x -> plink w c = Some (persistent x, loggedOut x).
Proof. intros X. unfold plink. now rewrite X. Qed.
Lemma slink_of w s x : sessions w !! s = Some x -> slink w s = Some (s_clientId x, current x).
Proof. intros X. unfold slink. now rewrite X. Qed.
(** A request that logs nobody in and loses links at most. *)
Lemma logins_less w w' l q : same_states w w' ->
  (forall c s lo, plink w' c = Some (Some s, lo) -> exists lo', plink w c = Some (Some s, lo')) ->
  (forall c, cnt (logs_in c) q = 0) -> logins w l -> logins w' (l ++ q).
Proof.
  intros S P Q L c. rewrite cnt_app, Q, Z.add_0_r, S. destruct (L c) as [L1 L2]. split; [exact L1|].
  intros X s lo Y. destruct (P _ _ _ Y) as [lo' Y']. eapply L2; eauto.
Qed.
(** What logging a client out does to the links. *)
Record out_of (w w' : world) (c : nat) : Prop := {
  oo_client : forall c', plink w' c' = if decide (c = c') then option_map (fun _ => (None, true)) (plink w c) else plink w c';
  oo_states : same_states w w';
  oo_linked : linked w';
  oo_adds : exists q, adds w w' q /\ forall c, cnt (logs_in c) q = 0
}.
Lemma dropCurrentClient_links w w' s id c lo : dropCurrentClient w s = Some w' -> slink w s = Some (id, Some c) -> plink w c = Some (Some s, lo) ->
  relinked w w' (fun c' => if decide (c = c') then Some (None, lo) else plink w c')
    (fun s' => if decide (s = s') then Some (id, None) else slink w s') /\ adds w w' [] /\ same_states w w'.
Proof.
  unfold dropCurrentClient, slink, plink. intros U S P. destruct (sessions w !! s) as [st|] eqn:T; [|discriminate].
  cbn in S. injection S as <- Cu. rewrite Cu in U.
  destruct (on_client w c (set_persistent None)) as [w1|] eqn:U1; [|discriminate].
  destruct (clients w !! c) as [x|] eqn:X; [|discriminate]. injection P as _ Lo.
  destruct (client_rest _ _ _ _ U1) as (R1 & R2 & R3 & R4 & R5). destruct (session_rest _ _ _ _ U) as (Q1 & Q2 & Q3 & Q4 & Q5).
  split; [|split].
  - split; try congruence.
    + intros c'. unfold plink at 1. rewrite Q1. change (option_map _ (clients w1 !! c')) with (plink w1 c').
      rewrite (plink_client _ _ _ _ _ U1 X). cbn. now rewrite Lo.
    + intros s'. rewrite R1 in T || rewrite <- R1 in T. rewrite (slink_session _ _ _ _ _ U T). unfold slink. now rewrite R1.
  - eapply adds_nil_trans; [eapply adds_client; [eassumption|now intros []]|]. eapply adds_session; [eassumption|now intros []].
  - intros c'. unfold st_c at 1. rewrite Q1. exact (states_client _ _ _ _ U1 ltac:(now intros []) c').
Qed.
Lemma logout_links w c w' : linked w -> logoutClient w c = Some w' -> out_of w w' c.
Proof.
  intros L U. unfold logoutClient in U. destruct (clients w !! c) as [x|] eqn:X; [|discriminate].
  pose proof (plink_of _ _ _ X) as Px. destruct (loggedOut x) eqn:Lo.
  - injection U as <-. split; [|intros c'; reflexivity|exact L|exists []; split; [apply adds_refl|reflexivity]].
    intros c'. destruct (decide (c = c')) as [<-|]; [|reflexivity]. rewrite Px. cbn.
    destruct (persistent x) as [s|] eqn:P; [|reflexivity]. destruct (lk_client _ L _ _ _ Px) as [? _]. discriminate.
  - destruct (on_client (with_cleanup w true) c notifyLoggedOut) as [w1|] eqn:U1; [|discriminate].
    assert (M0 : mild w (with_cleanup w true)) by now apply mild_other.
    pose proof (plink_client _ _ _ _ _ U1 X) as P1. cbn in P1. destruct (client_rest _ _ _ _ U1) as (R1 & R2 & R3 & R4 & R5). cbn in R1, R2, R3, R4, R5.
    assert (A1 : adds w w1 []). { apply (adds_nil_trans _ (with_cleanup w true)); [now apply adds_other|]. eapply adds_client; [eassumption|now intros []]. }
    assert (S1 : same_states w w1) by exact (states_client _ _ _ _ U1 ltac:(now intros [])).
    assert (K1 : forall s, slink w1 s = slink w s) by (intros s; unfold slink; now rewrite R1).
    destruct (persistent x) as [s|] eqn:P.
    + destruct (lk_client _ L _ _ _ Px) as (_ & id & Sl & Mp).
      destruct (match will x with Some p => publishInternal w1 p | None => Some w1 end) as [w2|] eqn:U2; [|discriminate].
      assert (M2 : mild w1 w2). { destruct (will x); [eapply mild_publishInternal, U2|]. injection U2 as <-. apply mild_refl. }
      destruct M2 as [[P2 K2 Mp2 D2 N2 N2'] S2 (q & A2 & Q2)].
      destruct (dropCurrentClient w2 s) as [w3|] eqn:U3; [|discriminate].
      destruct (dropCurrentClient_links w2 w3 s id c true U3) as ([P3 K3 Mp3 D3 N3 N3'] & A3 & S3).
      { rewrite K2, K1. exact Sl. }
      { rewrite P2, P1. now rewrite decide_True. }
      assert (RL : relinked w w3 (fun c' => if decide (c = c') then Some (None, true) else plink w c')
        (fun s' => if decide (s = s') then Some (id, None) else slink w s')).
      { split; try congruence.
        - intros c'. rewrite P3, P2, P1. now destruct (decide (c = c')).
        - intros s'. rewrite K3, K2, K1. reflexivity. }
      pose proof (linked_dropped _ _ _ _ _ _ _ L Px Sl RL) as L3.
      assert (A : adds w w3 q). { eapply adds_nil_trans; [exact A1|]. eapply adds_trans_nil; [exact A2|exact A3]. }
      assert (S : same_states w w3) by (intros c'; now rewrite S3, S2, S1).
      destruct (sessions w3 !! s) as [st|] eqn:T; [|discriminate].
      pose proof (slink_of _ _ _ T) as T'. rewrite (rl_slink _ _ _ _ RL), decide_True in T' by reflexivity. injection T' as Ci _. rewrite <- ?Ci in U.
      assert (F : forall w4, (forall c', plink w4 c' = plink w3 c') -> same_states w3 w4 -> linked w4 -> adds w3 w4 [] -> out_of w w4 c).
      { intros w4 F1 F2 F3 F4. split; auto.
        - intros c'. rewrite F1, (rl_plink _ _ _ _ RL). rewrite Px. reflexivity.
        - intros c'. now rewrite F2, S.
        - exists q. split; [|exact Q2]. eapply adds_trans_nil; eauto. }
      assert (F0 : out_of w w3 c) by (apply F; auto; [intros c'; reflexivity|apply adds_refl]).
      destruct (cleanSession st); [|now injection U as <-]. rewrite (rl_map _ _ _ _ RL), Mp, Nat.eqb_refl in U. injection U as <-.
      apply F; [intros c'; reflexivity|intros c'; reflexivity| |now apply adds_other].
      eapply (linked_deleted w3 _ s id); eauto; try reflexivity.
      { rewrite (rl_slink _ _ _ _ RL). now rewrite decide_True. }
      { now rewrite (rl_map _ _ _ _ RL). }
    + injection U as <-. split; auto; [|eapply linked_logged_out; [exact L|exact Px|]; split; auto|exists []; auto].
      intros c'. rewrite P1, Px. reflexivity.
Qed.
Lemma inv_logout w c w' l : inv w l -> logoutClient w c = Some w' -> exists q, adds w w' q /\ inv w' (l ++ q).
Proof.
  intros [L C I] U. destruct (logout_links _ _ _ L U) as [P S L' (q & A & Q)]. exists q. split; [exact A|]. split; auto.
  - eapply counted_adds; eauto.
  - apply (logins_less w); auto. intros c' s lo X. rewrite P in X. destruct (decide (c = c')) as [<-|]; [|eauto].
    destruct (plink w c); discriminate.
Qed.

(** *** Logging in *)
Definition replaced_clients (w : world) (s c : nat) (cur : option nat) (c' : nat) : option (option nat * bool) :=
  if decide (c = c') then Some (Some s, false)
  else if decide (cur = Some c') then option_map (fun x => (None, snd x)) (plink w c')
  else plink w c'.
Lemma linked_replaced w w' s c id cur : linked w -> slink w s = Some (id, cur) -> persistentClientStates w !! id = Some s ->
  plink w c = Some (None, false) ->
  relinked w w' (replaced_clients w s c cur) (fun s' => if decide (s = s') then Some (id, Some c) else slink w s') -> linked w'.
Proof.
  intros [A B C E F G I] S Ms P [RP RS M D N1 N2]. unfold replaced_clients in RP. split; rewrite ?M, ?D, ?N1, ?N2; intros *.
  - rewrite RP. linked_cases.
    + intros [= <- <-]. split; [reflexivity|]. exists id. rewrite RS. now rewrite decide_True.
    + destruct (plink w c0) as [[p lo']|]; discriminate.
    + intros X. destruct (A _ _ _ X) as (-> & id' & Y & Z). split; [reflexivity|]. exists id'. rewrite RS. linked_cases; [|auto]. congruence.
  - rewrite RS. linked_cases.
    + intros [= <- <-]. exists false. rewrite RP. now rewrite decide_True.
    + intros X. destruct (B _ _ _ X) as [lo Y]. exists lo. rewrite RP. linked_cases; [congruence| |exact Y].
      destruct (A _ _ _ Y) as (_ & id' & Y' & Z'). destruct (B _ _ _ S) as [lo2 Y2]. congruence.
  - intros X. destruct (C _ _ X) as [cur' Y]. rewrite RS. linked_cases; [|eauto]. rewrite Y in S. injection S as -> _. eauto.
  - rewrite RS. linked_cases; [|apply E]. intros [= <- <-]. auto.
  - intros X. destruct (F _ X) as (id' & Y & Z). exists id'. rewrite RS. linked_cases; [|auto]. congruence.
  - rewrite RP. linked_cases; [intros _; apply G; rewrite P; eauto| |apply G]. intros [y Y]. apply G. destruct (plink w c0); [eauto|discriminate].
  - rewrite RS. linked_cases; [|apply I]. intros _. apply I. rewrite S. eauto.
Qed.
Lemma replace_links w s c clean reset w' id cur : replaceCurrentClient w s c clean reset = Some w' -> linked w ->
  slink w s = Some (id, cur) -> persistentClientStates w !! id = Some s -> plink w c = Some (None, false) ->
  linked w' /\ plink w' c = Some (Some s, false) /\ adds w w' [] /\ same_states w w' /\ forall c', c' <> c -> forall s' lo,
  plink w' c' = Some (Some s', lo) -> plink w c' = Some (Some s', lo).
Proof.
  intros U L S Mp P. unfold replaceCurrentClient in U. destruct (sessions w !! s) as [st|] eqn:T; [|discriminate].
  pose proof (slink_of _ _ _ T) as S'. rewrite S in S'. injection S' as -> ->.
  destruct (match current st with Some old => on_client w old (set_persistent None) | None => Some w end) as [w1|] eqn:U1; [|discriminate].
  destruct (on_session w1 s _) as [w2|] eqn:U2; [|discriminate].
  assert (F1 : adds w w1 [] /\ same_states w w1 /\ (forall c', plink w1 c' = if decide (current st = Some c')
      then option_map (fun x => (None, snd x)) (plink w c') else plink w c') /\ sessions w1 = sessions w /\
      persistentClientStates w1 = persistentClientStates w /\ deletedStates w1 = deletedStates w /\ next_client w1 = next_client w /\
      next_session w1 = next_session w).
  { destruct (current st) as [old|] eqn:Cu.
    - destruct (client_rest _ _ _ _ U1) as (R1 & R2 & R3 & R4 & R5). split_and!; auto; [eapply adds_client; [eassumption|now intros []]| |].
      + exact (states_client _ _ _ _ U1 ltac:(now intros [])).
      + intros c'. pose proof U1 as U1'. apply on_client_inv in U1' as (x & X & _). rewrite (plink_client _ _ _ _ _ U1 X).
        destruct (decide (old = c')) as [<-|Ne]; [rewrite decide_True by reflexivity|rewrite decide_False by congruence; reflexivity].
        unfold plink. rewrite X. reflexivity.
    - injection U1 as <-. split_and!; auto using adds_refl. intros c'. reflexivity. }
  destruct F1 as (A1 & S1 & P1 & R1 & R2 & R3 & R4 & R5). destruct (session_rest _ _ _ _ U2) as (Q1 & Q2 & Q3 & Q4 & Q5).
  destruct (client_rest _ _ _ _ U) as (O1 & O2 & O3 & O4 & O5).
  pose proof U as U'. apply on_client_inv in U' as (x & X & _). rewrite Q1 in X.
  assert (Px : plink w1 c = Some (persistent x, loggedOut x)) by now apply plink_of.
  assert (Lo : loggedOut x = false).
  { rewrite P1, P in Px. destruct (decide _); injection Px as _ ?; congruence. }
  assert (T1 : sessions w1 !! s = Some st) by now rewrite R1.
  assert (RL : relinked w w' (replaced_clients w s c (current st)) (fun s' => if decide (s = s') then Some (s_clientId st, Some c) else slink w s')).
  { split; try congruence.
    - intros c'. rewrite <- Q1 in X. rewrite (plink_client _ _ _ _ _ U X). unfold replaced_clients. cbn. rewrite Lo.
      destruct (decide (c = c')); [reflexivity|]. unfold plink at 1. rewrite Q1. change (option_map _ (clients w1 !! c')) with (plink w1 c'). apply P1.
    - intros s'. unfold slink at 1. rewrite O1. change (option_map _ (sessions w2 !! s')) with (slink w2 s').
      rewrite (slink_session _ _ _ _ _ U2 T1). destruct (decide (s = s')); [destruct reset, st; reflexivity|]. unfold slink. now rewrite R1. }
  split_and!.
  - exact (linked_replaced _ _ _ _ _ _ L S Mp P RL).
  - rewrite (rl_plink _ _ _ _ RL). unfold replaced_clients. now rewrite decide_True.
  - eapply adds_nil_trans; [exact A1|]. eapply adds_nil_trans; [eapply adds_session; [exact U2|now intros []; destruct reset]|].
    eapply adds_client; [exact U|now intros []].
  - intros c'. rewrite (states_client _ _ _ _ U ltac:(now intros []) c'). unfold st_c. rewrite Q1. apply S1.
  - intros c' Ne s' lo. rewrite (rl_plink _ _ _ _ RL). unfold replaced_clients. rewrite decide_False by congruence.
    destruct (decide _); [destruct (plink w c') as [[]|]; discriminate|auto].
Qed.

(** The end of a login: links were lost at most, but for the client itself. *)
Definition loses (w w' : world) (c : nat) : Prop :=
  forall c', c' <> c -> forall s lo, plink w' c' = Some (Some s, lo) -> exists lo', plink w c' = Some (Some s, lo').
Lemma loses_trans w1 w2 w3 c : loses w1 w2 c -> loses w2 w3 c -> loses w1 w3 c.
Proof. intros A B c' N s lo X. destruct (B _ N _ _ X) as [lo' Y]. exact (A _ N _ _ Y). Qed.
Lemma loses_links w w' c : (forall c, plink w' c = plink w c) -> loses w w' c.
Proof. intros E c' _ s lo X. rewrite E in X. eauto. Qed.
Lemma logins_in w w' c id clean l q : logins w (LoginClient c id clean :: l) -> st_c w' c = Some CONNECTED ->
  (forall c', c' <> c -> st_c w' c' = st_c w c') -> loses w w' c -> (forall c, cnt (logs_in c) q = 0) -> logins w' (l ++ q).
Proof.
  intros L Sc S P Q c'. rewrite cnt_app, Q, Z.add_0_r. destruct (L c') as [L1 L2]. rewrite cnt_cons in L1, L2. cbn in L1, L2.
  destruct (decide (c' = c)) as [->|N].
  - rewrite Sc. rewrite Nat.eqb_refl in L1. pose proof (cnt_nonneg (logs_in c) l).
    assert (Z0 : cnt (logs_in c) l = 0) by (destruct (st_c w c) as [[]|]; lia). split; [lia|]. intros [X|X]; [discriminate|lia].
  - rewrite (S c' N). apply Nat.eqb_neq in N as N'. rewrite N' in L1, L2. cbn in L1, L2. split; [exact L1|].
    intros X s lo Y. destruct (P c' N _ _ Y) as [lo' Y']. eapply L2; eauto.
Qed.
(** Sending the messages of a login and being connected. *)
Lemma connected_links w c w' : connected w c = Some w' -> linked w -> linked w' /\ adds w w' [] /\ st_c w' c = Some CONNECTED /\
  (forall c', c' <> c -> st_c w' c' = st_c w c') /\ forall c, plink w' c = plink w c.
Proof.
  unfold connected. intros U L. pose proof U as U'. apply on_client_inv in U' as (x & X & E). destruct (client_rest _ _ _ _ U) as (O1 & O2 & O3 & O4 & O5).
  assert (P : forall c', plink w' c' = plink w c').
  { intros c'. rewrite (plink_client _ _ _ _ _ U X). destruct (decide (c = c')) as [<-|]; [|reflexivity]. rewrite (plink_of _ _ _ X). reflexivity. }
  split_and!.
  - eapply (linked_same w); [|exact L]. split; auto. intros s. unfold slink. now rewrite O1.
  - eapply adds_client; [exact U|now intros []].
  - subst w'. unfold st_c. cbn [clients with_clients]. now rewrite lookup_insert_eq.
  - intros c' N. subst w'. unfold st_c. cbn [clients with_clients]. now rewrite lookup_insert_ne.
  - exact P.
Qed.
Lemma login_ends w w1 w2 w3 c id clean l q1 q2 : logins w (LoginClient c id clean :: l) -> same_states w w1 -> loses w w1 c ->
  adds w w1 q1 -> (forall c, cnt (logs_in c) q1 = 0) -> linked w1 -> mild w1 w2 -> adds w1 w2 q2 -> (forall c, cnt (logs_in c) q2 = 0) ->
  connected w2 c = Some w3 -> linked w3 /\ exists q, adds w w3 q /\ logins w3 (l ++ q).
Proof.
  intros L S P A1 Q1 K M A2 Q2 U. destruct (connected_links _ _ _ U) as (K3 & A3 & S3 & S3' & P3); [eapply linked_same; [apply M|exact K]|].
  split; [exact K3|]. exists (q1 ++ q2). split; [eapply adds_trans; [exact A1|]; eapply adds_trans_nil; eauto|].
  eapply logins_in; eauto.
  - intros c' N. rewrite (S3' c' N), (mi_states _ _ M c'). apply S.
  - eapply loses_trans; [exact P|]. eapply loses_trans; [apply loses_links, (sl_plink _ _ (mi_links _ _ M))|apply loses_links, P3].
  - intros c'. rewrite cnt_app, Q1, Q2. reflexivity.
Qed.
Lemma login_ends_mild w w1 w2 w3 c id clean l q1 : logins w (LoginClient c id clean :: l) -> same_states w w1 -> loses w w1 c ->
  adds w w1 q1 -> (forall c, cnt (logs_in c) q1 = 0) -> linked w1 -> mild w1 w2 ->
  connected w2 c = Some w3 -> linked w3 /\ exists q, adds w w3 q /\ logins w3 (l ++ q).
Proof. intros ? ? ? ? ? ? M. destruct (mi_adds _ _ M) as (q2 & A2 & Q2). eapply login_ends; eauto. Qed.

(** A new session comes without a client, as far as the links go. *)
Definition fresh_session (w : world) (id : string) (clean : bool) (cur : option nat) : world :=
  with_states (with_sessions (with_next w (next_client w) (S (next_session w)))
    (<[next_session w := mkSession id clean cur [] ∅ ∅ 1 0]> (sessions w))) (<[id := next_session w]> (persistentClientStates w)) (deletedStates w).
Lemma fresh_replaced w id clean c x : clients w !! c = Some x -> persistent x = None ->
  replaceCurrentClient (fresh_session w id clean (Some c)) (next_session w) c clean true
  = replaceCurrentClient (fresh_session w id clean None) (next_session w) c clean true.
Proof.
  intros X P. assert (E : set_persistent None x = x) by (destruct x; cbn in P; now subst).
  unfold replaceCurrentClient. cbn [sessions fresh_session with_states with_sessions]. rewrite !lookup_insert_eq. cbn [current s_clientId].
  assert (E1 : on_client (fresh_session w id clean (Some c)) c (set_persistent None) = Some (fresh_session w id clean (Some c))).
  { unfold on_client. cbn [clients fresh_session with_states with_sessions with_next]. rewrite X, E, (insert_id _ _ _ X). reflexivity. }
  rewrite E1. unfold on_session. cbn [sessions fresh_session with_states with_sessions]. rewrite !lookup_insert_eq.
  unfold with_sessions. cbn [sessions clients fresh_session with_states with_sessions with_next persistentClientStates deletedStates subscriptions
    retainedMessages queue queueInternal shouldCleanup globalOrderCounter next_client next_session received statsRefreshes].
  now rewrite !insert_insert_eq.
Qed.
Lemma fresh_linked w id clean : linked w -> persistentClientStates w !! id = None -> let w' := fresh_session w id clean None in
  linked w' /\ adds w w' [] /\ same_states w w' /\ (forall c, plink w' c = plink w c) /\ slink w' (next_session w) = Some (id, None) /\
  persistentClientStates w' !! id = Some (next_session w).
Proof.
  intros [A B C E F G I] Mi w'.
  assert (Fr : slink w (next_session w) = None).
  { destruct (slink w (next_session w)) eqn:S; [|reflexivity]. exfalso. apply (Nat.lt_irrefl (next_session w)), I. rewrite S. eauto. }
  assert (Fs : sessions w !! next_session w = None) by (unfold slink in Fr; now destruct (sessions w !! next_session w)).
  assert (RS : forall s, slink w' s = if decide (next_session w = s) then Some (id, None) else slink w s).
  { intros s. unfold slink, w', fresh_session. cbn. destruct (decide (next_session w = s)) as [<-|N]; [now rewrite lookup_insert_eq|now rewrite lookup_insert_ne]. }
  assert (RM : forall i, persistentClientStates w' !! i = if decide (id = i) then Some (next_session w) else persistentClientStates w !! i).
  { intros i. unfold w', fresh_session. cbn. destruct (decide (id = i)) as [<-|N]; [now rewrite lookup_insert_eq|now rewrite lookup_insert_ne]. }
  split_and!; [split; cbn [deletedStates next_client next_session w' fresh_session with_states with_sessions with_next]; intros *| |intros c; reflexivity|intros c; reflexivity| |].
  - intros X. destruct (A _ _ _ X) as (-> & id' & Y & Z). split; [auto|]. exists id'.
    rewrite RS, RM, decide_False by congruence. rewrite decide_False by congruence. auto.
  - rewrite RS. linked_cases; [discriminate|]. apply B.
  - rewrite RM. linked_cases.
    + intros [= <-]. rewrite RS. rewrite decide_True by reflexivity. eauto.
    + intros X. destruct (C _ _ X) as [cur Y]. rewrite RS, decide_False by congruence. eauto.
  - rewrite RS, RM. destruct (decide (next_session w = s)) as [<-|N].
    + intros [= <- <-]. left. now rewrite decide_True.
    + intros X. destruct (E _ _ _ X) as [Y|Y]; [|auto]. left. rewrite decide_False by congruence. exact Y.
  - intros X. destruct (F _ X) as (id' & Y & Z). exists id'. rewrite RS, RM, decide_False by congruence. split; [auto|].
    destruct (decide (id = id')); [congruence|auto].
  - apply G.
  - rewrite RS. linked_cases; [lia|]. intros X. specialize (I _ X). lia.
  - split; cbn; intros; rewrite ?cnt_nil; [exists [], []; rewrite !app_nil_r; auto|unfold ref_c; cbn; lia|].
    unfold ref_s, w', fresh_session. cbn. destruct (decide (next_session w = s)) as [<-|N].
    + rewrite lookup_insert_eq, Fs. reflexivity.
    + rewrite lookup_insert_ne by auto. lia.
  - rewrite RS. now rewrite decide_True.
  - rewrite RM. now rewrite decide_True.
Qed.

Lemma logins_tail w r l : logins w (r :: l) -> logins w l.
Proof.
  intros I c. destruct (I c) as [I1 I2]. rewrite cnt_cons in I1, I2. destruct (logs_in c r); split; intros; try lia; apply I2; intuition lia.
Qed.
Lemma login_links sfx w c cid clean l w' : linked w -> logins w (LoginClient c cid clean :: l) -> loginClient sfx w c cid clean = Some w' ->
  linked w' /\ exists q, adds w w' q /\ logins w' (l ++ q).
Proof.
  intros L I U. unfold loginClient in U. destruct (clients w !! c) as [x|] eqn:X; [|discriminate].
  pose proof (plink_of _ _ _ X) as Px.
  assert (P : persistent x = None).
  { destruct (persistent x) as [s|] eqn:P; [|reflexivity]. exfalso. destruct (I c) as [_ I2]. rewrite cnt_cons in I2. cbn in I2.
    rewrite Nat.eqb_refl in I2. pose proof (cnt_nonneg (logs_in c) l). eapply I2; [right; lia|exact Px]. }
  pose proof (logins_tail _ _ _ I) as I'.
  destruct (loggedOut x) eqn:Lo.
  { injection U as <-. split; [exact L|]. exists []. rewrite app_nil_r. split; [apply adds_refl|exact I']. }
  rewrite P in Px. destruct (if String.eqb cid "" then _ else _) as [id|]; [|discriminate].
  destruct (persistentClientStates w !! id) as [s|] eqn:Mp.
  - destruct (sessions w !! s) as [st|] eqn:T; [|discriminate]. destruct (lk_map _ L _ _ Mp) as [cur Sl].
    pose proof (slink_of _ _ _ T) as Sl'. rewrite Sl in Sl'. injection Sl' as Eid Ecur.
    assert (K : forall reset w1 w2, replaceCurrentClient w s c clean reset = Some w1 -> logout_existing w1 (current st) = Some w2 ->
      same_states w w2 /\ loses w w2 c /\ linked w2 /\ exists q, adds w w2 q /\ forall c, cnt (logs_in c) q = 0).
    { intros reset w1 w2 U1 U2. destruct (replace_links _ _ _ _ _ _ _ _ U1 L Sl Mp Px) as (L1 & P1 & A1 & S1 & O1).
      assert (Lo1 : loses w w1 c) by (intros c' N s' lo Y; eauto).
      destruct (current st) as [old|] eqn:Cu; cbn in U2.
      - destruct (logout_links _ _ _ L1 U2) as [P2 S2 L2 (q & A2 & Q2)]. split_and!; auto.
        + intros c'. now rewrite S2, S1.
        + eapply loses_trans; [exact Lo1|]. intros c' N s' lo Y. rewrite P2 in Y. destruct (decide (old = c')); [|eauto].
          subst c'. destruct (plink w1 old); discriminate.
        + exists q. split; [eapply adds_nil_trans; eauto|exact Q2].
      - injection U2 as <-. split_and!; auto. exists []. split; [exact A1|reflexivity]. }
    destruct (clean || cleanSession st).
    + destruct (replaceCurrentClient _ _ _ _ _) as [w1|] eqn:U1; [|discriminate].
      destruct (logout_existing w1 _) as [w2|] eqn:U2; [|discriminate]. destruct (K _ _ _ U1 U2) as (S & Ls & L2 & q & A & Q).
      destruct (sendConnack w2 c false) as [w3|] eqn:U3; [|discriminate].
      eapply login_ends_mild; [exact I|exact S|exact Ls|exact A|exact Q|exact L2|eapply mild_sendConnack, U3|exact U].
    + destruct (replaceCurrentClient _ _ _ _ _) as [w1|] eqn:U1; [|discriminate].
      destruct (logout_existing w1 _) as [w2|] eqn:U2; [|discriminate]. destruct (K _ _ _ U1 U2) as (S & Ls & L2 & q & A & Q).
      steps. eapply login_ends_mild; [exact I|exact S|exact Ls|exact A|exact Q|exact L2| |exact U].
      eapply mild_trans; [eapply mild_sendConnack; eassumption|]. eapply mild_trans; eapply mild_send_all; eassumption.
  - change (with_states _ _ _) with (fresh_session w id clean (Some c)) in U. rewrite (fresh_replaced _ _ _ _ _ X P) in U.
    destruct (fresh_linked w id clean L Mp) as (L0 & A0 & S0 & P0 & Sl0 & M0).
    destruct (replaceCurrentClient _ _ _ _ _) as [w1|] eqn:U1; [|discriminate].
    destruct (replace_links _ _ _ _ _ _ _ _ U1 L0 Sl0 M0) as (L1 & P1 & A1 & S1 & O1); [now rewrite P0, Px|].
    destruct (sendConnack w1 c false) as [w2|] eqn:U2; [|discriminate].
    eapply (login_ends_mild w w1); [exact I| | |eapply adds_nil_trans; [exact A0|exact A1]|reflexivity|exact L1|eapply mild_sendConnack, U2|exact U].
    + intros c'. now rewrite S1, S0.
    + intros c' N s' lo Y. apply O1 in Y; [|exact N]. rewrite P0 in Y. eauto.
Qed.

(** *** Requests *)
Lemma visit_links sfx r w w' l : linked w -> logins w (r :: l) -> visit sfx r w = Some w' ->
  linked w' /\ exists q, adds w w' q /\ logins w' (l ++ q).
Proof.
  intros L I U.
  assert (M : mild w w' -> linked w' /\ exists q, adds w w' q /\ logins w' (l ++ q)).
  { intros M. split; [eapply linked_same; [apply M|exact L]|]. destruct (mi_adds _ _ M) as (q & A & Q). exists q. split; [exact A|].
    apply (logins_less w _ _ _ (mi_states _ _ M)); [|exact Q|eapply logins_tail, I].
    intros c s lo X. rewrite (sl_plink _ _ (mi_links _ _ M)) in X. eauto. }
  destruct r; cbn in U.
  - apply M. steps. eapply mild_trans; [|eapply mild_subscribe, U]. destruct s; [|injection Heqo as <-; apply mild_refl].
    destruct (sessions w !! s); [|discriminate]. injection Heqo as <-. apply mild_refl.
  - steps. apply M. now apply mild_other.
  - steps. apply M. now apply mild_other.
  - steps. apply M, mild_retain.
  - eapply login_links; eauto.
  - destruct (logout_links _ _ _ L U) as [P S L' (q & A & Q)]. split; [exact L'|]. exists q. split; [exact A|].
    apply (logins_less w _ _ _ S); [|exact Q|eapply logins_tail, I].
    intros c' s lo X. rewrite P in X. destruct (decide (c = c')) as [<-|]; [|eauto]. destruct (plink w c); discriminate.
Qed.
(** A reference is added or taken away. *)
Lemma refs_links d r w w' : change_refs d r w = Some w' -> same_links w w' /\ same_states w w' /\ queue w' = queue w /\
  queueInternal w' = queueInternal w /\ (forall c, ref_c w' c = ref_c w c + if about_client c r then d else 0) /\
  (forall s, ref_s w' s = ref_s w s + if about_session s r then d else 0).
Proof.
  unfold change_refs, about_client, about_session. intros U. destruct (client_of r) as [c|] eqn:C.
  - pose proof U as U'. apply on_client_inv in U' as (x & X & E). destruct (client_rest _ _ _ _ U) as (O1 & O2 & O3 & O4 & O5).
    split_and!; try (subst w'; reflexivity).
    + split; auto; [|intros s; unfold slink; now rewrite O1]. intros c'. rewrite (plink_client _ _ _ _ _ U X).
      destruct (decide (c = c')) as [<-|]; [|reflexivity]. now rewrite (plink_of _ _ _ X).
    + exact (states_client _ _ _ _ U ltac:(now intros [])).
    + intros c'. subst w'. unfold ref_c. cbn [clients with_clients]. rewrite (lookup_updated _ _ _ _ _ X).
      destruct (decide (c = c')) as [<-|N]; [rewrite X, bool_decide_true by reflexivity; reflexivity|].
      rewrite bool_decide_false by congruence. lia.
    + intros s. subst w'. unfold ref_s. cbn [sessions with_clients]. rewrite bool_decide_false by (intros [? _]; discriminate). lia.
  - destruct (session_of r) as [s|] eqn:S.
    + pose proof U as U'. apply on_session_inv in U' as (x & X & E). destruct (session_rest _ _ _ _ U) as (O1 & O2 & O3 & O4 & O5).
      split_and!; try (subst w'; reflexivity).
      * split; auto; [intros c; unfold plink; now rewrite O1|]. intros s'. rewrite (slink_session _ _ _ _ _ U X).
        destruct (decide (s = s')) as [<-|]; [|reflexivity]. now rewrite (slink_of _ _ _ X).
      * intros c. subst w'. reflexivity.
      * intros c. subst w'. unfold ref_c. cbn [clients with_sessions]. rewrite bool_decide_false by discriminate. lia.
      * intros s'. subst w'. unfold ref_s. cbn [sessions with_sessions]. rewrite (lookup_updated _ _ _ _ _ X).
        destruct (decide (s = s')) as [<-|N]; [rewrite X, bool_decide_true by auto; reflexivity|].
        rewrite bool_decide_false by (intros [_ ?]; congruence). lia.
    + injection U as <-. split; [apply links_refl|]. split; [intros c; reflexivity|]. split; [reflexivity|]. split; [reflexivity|]. split; intros i.
      * rewrite bool_decide_false by discriminate. lia.
      * rewrite bool_decide_false by (intros [_ ?]; discriminate). lia.
Qed.
Lemma inv_other w w' l : clients w' = clients w -> sessions w' = sessions w -> persistentClientStates w' = persistentClientStates w ->
  deletedStates w' = deletedStates w -> next_client w' = next_client w -> next_session w' = next_session w -> inv w l -> inv w' l.
Proof.
  intros C S M D N1 N2 [L [A B] I]. split.
  - eapply linked_same; [|exact L]. split; auto; intros; unfold plink, slink; now rewrite ?C, ?S.
  - split; intros; unfold ref_c, ref_s; rewrite ?C, ?S; [apply A|apply B].
  - intros c. unfold st_c, plink. rewrite C. apply I.
Qed.
(** Executing a request takes it from the requests that are counted. *)
Lemma inv_execute sfx r w w' l : inv w (r :: l) -> executeChangeRequest sfx r w = Some w' ->
  exists q a b, queue w' = queue w ++ a /\ queueInternal w' = queueInternal w ++ b /\ (forall p, cnt p q = cnt p a + cnt p b) /\ inv w' (l ++ q).
Proof.
  intros [L [C S] I] U. unfold executeChangeRequest in U. destruct (visit sfx r w) as [w1|] eqn:U1; [|discriminate].
  destruct (visit_links _ _ _ _ _ L I U1) as (L1 & q & [(a & b & Qa & Qb & Q) A1 A2] & I1).
  destruct (change_refs (-1) r w1) as [w2|] eqn:U2; [|discriminate].
  destruct (refs_links _ _ _ _ U2) as (K & St & Q1 & Q2 & R1 & R2).
  assert (V : inv w2 (l ++ q)).
  { split; [eapply linked_same; eauto| |].
    - split; intros i; rewrite ?R1, ?R2, ?A1, ?A2, ?C, ?S, cnt_cons, cnt_app; [destruct (about_client i r)|destruct (about_session i r)]; lia.
    - intros c. rewrite (St c), (sl_plink _ _ K). apply I1. }
  exists q, a, b. destruct (client_of r) as [c|].
  - destruct (clients w2 !! c) as [x|]; [|discriminate]. injection U as <-.
    destruct (_ && _); cbn; rewrite ?Q1, ?Q2; (split_and!; auto). now apply (inv_other w2).
  - injection U as <-. rewrite Q1, Q2. auto.
Qed.

(** *** Every event keeps the invariant *)
Definition good (w : world) : Prop := inv w (queue w ++ queueInternal w).
Lemma good_adds w w' q l : (exists a b, queue w' = queue w ++ a /\ queueInternal w' = queueInternal w ++ b /\ forall p, cnt p q = cnt p a + cnt p b) ->
  (forall p, cnt p l = cnt p (queue w) + cnt p (queueInternal w)) -> inv w' (l ++ q) -> good w'.
Proof.
  intros (a & b & Qa & Qb & Q) E. apply inv_cnt. intros p. rewrite Qa, Qb, !cnt_app, E, Q. lia.
Qed.
Lemma good_mild w w' : mild w w' -> good w -> good w'.
Proof.
  intros M G. destruct (inv_mild _ _ _ M G) as (q & A & V). eapply good_adds; [apply A| |exact V]. intros p. apply cnt_app.
Qed.
Lemma good_logout w c w' : good w -> logoutClient w c = Some w' -> good w'.
Proof.
  intros G U. destruct (inv_logout _ _ _ _ G U) as (q & A & V). eapply good_adds; [apply A| |exact V]. intros p. apply cnt_app.
Qed.
(** A request is referred to before it is queued or executed. *)
Lemma inv_refs r w w' l : change_refs 1 r w = Some w' -> inv w l -> (forall c, logs_in c r = false) ->
  inv w' (r :: l) /\ queue w' = queue w /\ queueInternal w' = queueInternal w.
Proof.
  intros U [L [C S] I] N. destruct (refs_links _ _ _ _ U) as (K & St & Q1 & Q2 & R1 & R2). split; [|auto]. split.
  - eapply linked_same; eauto.
  - split; intros i; rewrite ?R1, ?R2, cnt_cons, ?C, ?S; [destruct (about_client i r)|destruct (about_session i r)]; lia.
  - intros c. rewrite cnt_cons, N, (St c), (sl_plink _ _ K). apply I.
Qed.
Lemma good_execute sfx r w w' l : inv w (r :: l) -> (forall p, cnt p l = cnt p (queue w) + cnt p (queueInternal w)) ->
  executeChangeRequest sfx r w = Some w' -> good w'.
Proof. intros V E U. destruct (inv_execute _ _ _ _ _ V U) as (q & a & b & Qa & Qb & Q & V'). eapply (good_adds w w' q); eauto 6. Qed.
Lemma good_request sfx m h r w w' : good w -> (forall c, logs_in c r = false) ->
  requestChange (executeChangeRequest sfx) m h r w = Some w' -> good w'.
Proof.
  intros G N U. unfold requestChange in U. destruct (change_refs 1 r w) as [w1|] eqn:U1; [|discriminate].
  destruct (inv_refs _ _ _ _ U1 G N) as (V & Q1 & Q2).
  assert (X : executeChangeRequest sfx r w1 = Some w' -> good w').
  { intros E. eapply good_execute; [exact V| |exact E]. intros p. rewrite cnt_app, Q1, Q2. reflexivity. }
  assert (Y : forall w', Some (match h with Mine => with_queues w1 (queue w1) (queueInternal w1 ++ [r])
      | _ => with_queues w1 (queue w1 ++ [r]) (queueInternal w1) end)%list = Some w' -> good w').
  { intros w2 [= <-]. assert (E : forall p, cnt p (r :: queue w ++ queueInternal w) = cnt p ([r] ++ queue w1 ++ queueInternal w1))
      by (intros p; rewrite Q1, Q2; reflexivity).
    apply (inv_cnt _ _ _ E) in V.
    destruct h; (eapply inv_cnt; [|eapply inv_other; [..|exact V]; reflexivity]); intros p; cbn [queue queueInternal with_queues];
      rewrite !cnt_app; lia. }
  destruct m; [auto|auto|]. destruct h; auto.
Qed.
Lemma good_async r w w' : good w -> (forall c, logs_in c r = false) -> request_async r w = Some w' -> good w'.
Proof. intros G N U. apply (good_request [] ASYNC Theirs r w); auto. Qed.
Lemma good_publish sfx h w p w' : good w -> publish sfx h w p = Some w' -> good w'.
Proof.
  unfold publish. intros G U. destruct (publishNoLockNoRetain w p) as [w1|] eqn:U1; [|discriminate].
  apply mild_publishNoLock in U1. pose proof (good_mild _ _ U1 G) as G1. destruct (retain p); [|now injection U as <-].
  eapply good_request; [exact G1| |exact U]. reflexivity.
Qed.
(** One request of the inner queue, and one of the outer. *)
Lemma good_drain_step sfx w r rest w1 : good w -> queueInternal w = r :: rest -> executeChangeRequest sfx r w = Some w1 ->
  inv w (r :: queue w ++ rest) /\ good (with_queues w1 (queue w1) (tl (queueInternal w1))).
Proof.
  intros G Qi U1. assert (V : inv w (r :: (queue w ++ rest))).
  { eapply inv_cnt; [|exact G]. intros p. rewrite Qi, cnt_app, !cnt_cons, cnt_app. lia. }
  split; [exact V|]. destruct (inv_execute _ _ _ _ _ V U1) as (q & a & b & Qa & Qb & Q & V'). rewrite Qi in Qb. rewrite Qb. cbn [app tl].
  eapply inv_cnt; [|eapply inv_other; [..|exact V']; reflexivity]. intros p. cbn [queue queueInternal with_queues].
  rewrite Qa, !cnt_app, Q. lia.
Qed.
Lemma good_work_step sfx w r rest w1 : good w -> queue w = r :: rest ->
  executeChangeRequest sfx r (with_queues w rest (queueInternal w)) = Some w1 ->
  inv (with_queues w rest (queueInternal w)) (r :: rest ++ queueInternal w) /\ good w1.
Proof.
  intros G Q U1. assert (V : inv (with_queues w rest (queueInternal w)) (r :: rest ++ queueInternal w)).
  { unfold good in G. rewrite Q in G. eapply inv_other; [..|exact G]; reflexivity. }
  split; [exact V|]. apply (good_execute sfx r (with_queues w rest (queueInternal w)) w1 (rest ++ queueInternal w)); [exact V|intros p; apply (cnt_app p rest)|exact U1].
Qed.
Lemma good_drain sfx fuel : forall w w', good w -> drain fuel sfx w = Some w' -> good w'.
Proof.
  induction fuel as [|fuel IH]; intros w w' G U; [discriminate|]. cbn [drain] in U.
  destruct (queueInternal w) as [|r rest] eqn:Qi; [now injection U as <-|].
  destruct (executeChangeRequest sfx r w) as [w1|] eqn:U1; [|discriminate]. eapply IH; [|exact U].
  now apply (good_drain_step sfx w r rest w1).
Qed.
Lemma good_failed ids : forall w w', good w -> logout_failed w ids = Some w' -> good w'.
Proof.
  induction ids as [|c ids IH]; intros w w' G U; cbn [logout_failed] in U; [now injection U as <-|].
  destruct (clients w !! c) as [x|]; [|discriminate].
  destruct (if sendError x then _ else _) as [w1|] eqn:U1; [|discriminate]. eapply IH; [|exact U].
  destruct (sendError x); [eapply good_logout; eauto|now injection U1 as <-].
Qed.
Lemma good_work sfx w w' : good w -> work sfx w = Some w' -> good w'.
Proof.
  assert (P : forall w w', good w -> processInternalQueue sfx w = Some w' -> good w').
  { clear. intros w w' G U. unfold processInternalQueue in U. destruct (logout_failed w _) as [w1|] eqn:U1; [|discriminate].
    eapply good_drain; [eapply good_failed; eauto|exact U]. }
  intros G U. unfold work in U. destruct (queue w) as [|r rest] eqn:Q; [eauto|].
  destruct (executeChangeRequest _ _ _) as [w1|] eqn:U1; [|discriminate]. eapply P; [|exact U]. now apply (good_work_step sfx w r rest w1).
Qed.
Lemma good_expire now ids : forall w w', good w -> expire now w ids = Some w' -> good w'.
Proof.
  induction ids as [|c ids IH]; intros w w' G U; cbn [expire] in U; [now injection U as <-|].
  destruct (clients w !! c) as [x|]; [|discriminate].
  destruct (if _ && _ then _ else _) as [w1|] eqn:U1; [|discriminate]. eapply IH; [|exact U].
  destruct (_ && _); [eapply good_logout; eauto|now injection U1 as <-].
Qed.
(** Deleting: only clients that are logged out and sessions that were given up, to which no
    request refers. *)
Lemma cnt_mono (p p' : request -> bool) l : (forall r, p r = true -> p' r = true) -> cnt p l <= cnt p' l.
Proof.
  intros P. induction l as [|r l IH]; [reflexivity|]. rewrite !cnt_cons. destruct (p r) eqn:E; [rewrite (P r E); lia|destruct (p' r); lia].
Qed.
Lemma logs_about c l : cnt (logs_in c) l <= cnt (about_client c) l.
Proof.
  apply cnt_mono. intros [] E; try discriminate. cbn in E. apply Nat.eqb_eq in E as <-. unfold about_client. now apply bool_decide_true.
Qed.
Lemma gone_spec w s : s ∈ List.filter (unused_session w) (deletedStates w) <-> s ∈ deletedStates w /\ unused_session w s = true.
Proof. rewrite !list_elem_of_In, List.filter_In. reflexivity. Qed.
Lemma sweep_plink w c : plink (sweep w) c = match clients w !! c with Some x => if unused_client x then None else plink w c | None => None end.
Proof.
  unfold plink, sweep. cbn [clients with_cleanup with_states with_sessions with_clients]. destruct (clients w !! c) as [x|] eqn:X.
  - destruct (unused_client x) eqn:E.
    + rewrite (proj2 (map_lookup_filter_None _ _ _)); [reflexivity|]. right. intros y Y. cbn. congruence.
    + now rewrite (proj2 (map_lookup_filter_Some _ _ _ _) (conj X E)).
  - rewrite (proj2 (map_lookup_filter_None _ _ _)); [reflexivity|]. now left.
Qed.
Lemma sweep_slink w s : slink (sweep w) s = if bool_decide (s ∈ List.filter (unused_session w) (deletedStates w)) then None else slink w s.
Proof.
  unfold slink, sweep. cbn [sessions with_cleanup with_states with_sessions with_clients]. case_bool_decide as B.
  - rewrite (proj2 (map_lookup_filter_None _ _ _)); [reflexivity|]. right. intros y _. cbn. auto.
  - destruct (sessions w !! s) as [x|] eqn:X; [now rewrite (proj2 (map_lookup_filter_Some _ _ _ _) (conj X B))|].
    rewrite (proj2 (map_lookup_filter_None _ _ _)); [reflexivity|]. now left.
Qed.
Lemma sweep_deleted w s : s ∈ deletedStates (sweep w) <-> s ∈ deletedStates w /\ unused_session w s = false.
Proof. unfold sweep. cbn. rewrite !list_elem_of_In, List.filter_In, negb_true_iff. reflexivity. Qed.
Lemma sweep_linked w : linked w -> linked (sweep w).
Proof.
  intros [A B C E F G I].
  assert (Gone : forall s id cur, slink w s = Some (id, cur) -> (cur <> None \/ persistentClientStates w !! id = Some s) ->
    slink (sweep w) s = Some (id, cur)).
  { intros s id cur S N. rewrite sweep_slink, bool_decide_false; [exact S|]. rewrite gone_spec. intros [D _].
    destruct (F _ D) as (id' & S' & M'). rewrite S in S'. injection S' as -> ->. intuition congruence. }
  assert (Kept : forall s p, slink (sweep w) s = Some p -> slink w s = Some p /\ ~ (s ∈ deletedStates w /\ unused_session w s = true)).
  { intros s p. rewrite sweep_slink. case_bool_decide as X; [discriminate|]. rewrite gone_spec in X. auto. }
  assert (Kc : forall c p, plink (sweep w) c = Some p -> plink w c = Some p).
  { intros c p. rewrite sweep_plink. destruct (clients w !! c) as [x|] eqn:X; [|discriminate]. destruct (unused_client x); [discriminate|auto]. }
  split; unfold sweep at 1; cbn [persistentClientStates next_client next_session with_cleanup with_states with_sessions with_clients].
  - intros c s lo X. destruct (A _ _ _ (Kc _ _ X)) as (-> & id & Y & Z). split; [auto|]. exists id. split; [|exact Z]. apply Gone; auto.
  - intros s id c X. destruct (Kept _ _ X) as [X' _]. destruct (B _ _ _ X') as [lo Y]. exists lo. rewrite sweep_plink.
    unfold plink in Y |- *. destruct (clients w !! c) as [x|] eqn:Xc; [|discriminate]. injection Y as P <-.
    destruct (unused_client x) eqn:U; [|cbn; congruence]. unfold unused_client in U. bool_to_prop.
    destruct (A c s true) as [? _]; [|discriminate]. rewrite (plink_of _ _ _ Xc). congruence.
  - intros id s X. destruct (C _ _ X) as [cur Y]. exists cur. apply Gone; auto.
  - intros s id cur X. destruct (Kept _ _ X) as [X' N]. destruct (E _ _ _ X') as [Y|Y]; [auto|]. right. apply sweep_deleted.
    split; [exact Y|]. destruct (unused_session w s) eqn:U; [exfalso; auto|reflexivity].
  - intros s X. apply sweep_deleted in X as [X U]. destruct (F _ X) as (id & Y & Z). exists id. split; [|exact Z].
    rewrite sweep_slink, bool_decide_false; [exact Y|]. rewrite gone_spec. intros [_ ?]. congruence.
  - intros c [p X]. apply G. rewrite (Kc _ _ X). eauto.
  - intros s [p X]. apply I. destruct (Kept _ _ X) as [-> _]. eauto.
Qed.
Lemma good_sweep w : good w -> good (sweep w).
Proof.
  intros [L [C S] I]. unfold good. change (queue (sweep w)) with (queue w). change (queueInternal (sweep w)) with (queueInternal w).
  split; [now apply sweep_linked| |].
  - split.
    + intros c. rewrite <- C. unfold ref_c, sweep. cbn [clients with_cleanup with_states with_sessions with_clients].
      destruct (clients w !! c) as [x|] eqn:X; [|rewrite (proj2 (map_lookup_filter_None _ _ _)); [reflexivity|now left]].
      destruct (unused_client x) eqn:U; [|now rewrite (proj2 (map_lookup_filter_Some _ _ _ _) (conj X U))].
      rewrite (proj2 (map_lookup_filter_None _ _ _)); [|right; intros y Y; cbn; congruence]. unfold unused_client in U. bool_to_prop. lia.
    + intros s. rewrite <- S. unfold ref_s. pose proof (sweep_slink w s) as K. unfold slink in K. revert K. case_bool_decide as B.
      * apply gone_spec in B as [_ B]. unfold unused_session in B. destruct (sessions (sweep w) !! s); [discriminate|]. intros _.
        destruct (sessions w !! s); [|reflexivity]. bool_to_prop. lia.
      * intros _. unfold sweep. cbn [sessions with_cleanup with_states with_sessions with_clients].
        destruct (sessions w !! s) as [x|] eqn:X; [now rewrite (proj2 (map_lookup_filter_Some _ _ _ _) (conj X B))|].
        rewrite (proj2 (map_lookup_filter_None _ _ _)); [reflexivity|now left].
  - intros c. destruct (I c) as [I1 I2]. pose proof (logs_about c (queue w ++ queueInternal w)) as LA. rewrite <- C in LA. unfold ref_c in LA.
    pose proof (cnt_nonneg (logs_in c) (queue w ++ queueInternal w)). rewrite sweep_plink. unfold st_c in *.
    unfold sweep at 1 2. cbn [clients with_cleanup with_states with_sessions with_clients].
    destruct (clients w !! c) as [x|] eqn:X.
    + destruct (unused_client x) eqn:U.
      * rewrite (proj2 (map_lookup_filter_None _ _ _)); [|right; intros y Y; cbn; congruence]. unfold unused_client in U. bool_to_prop.
        cbn. split; [lia|]. discriminate.
      * rewrite (proj2 (map_lookup_filter_Some _ _ _ _) (conj X U)). auto.
    + rewrite (proj2 (map_lookup_filter_None _ _ _)) by now left. cbn. split; [lia|]. discriminate.
Qed.
Lemma good_connect w remote now : good w -> good (handleNewClientConnection w remote now).
Proof.
  intros [L [C S] I]. set (c0 := next_client w). assert (Fr : clients w !! c0 = None).
  { destruct (clients w !! c0) as [x|] eqn:X; [|reflexivity]. exfalso. apply (Nat.lt_irrefl c0), (lk_new_client _ L). unfold plink. rewrite X. eauto. }
  assert (X : forall c, clients (handleNewClientConnection w remote now) !! c = if decide (c0 = c) then Some (new_client remote now) else clients w !! c).
  { intros c. unfold handleNewClientConnection. cbn. fold c0. destruct (decide (c0 = c)) as [<-|N]; [apply lookup_insert_eq|now apply lookup_insert_ne]. }
  assert (P : forall c, plink (handleNewClientConnection w remote now) c = if decide (c0 = c) then Some (None, false) else plink w c).
  { intros c. unfold plink. rewrite X. now destruct (decide (c0 = c)). }
  assert (Z0 : cnt (logs_in c0) (queue w ++ queueInternal w) = 0).
  { pose proof (logs_about c0 (queue w ++ queueInternal w)) as LA. rewrite <- C in LA. unfold ref_c in LA. rewrite Fr in LA.
    pose proof (cnt_nonneg (logs_in c0) (queue w ++ queueInternal w)). lia. }
  split.
  - destruct L as [A B D E F G K]. split; intros *; rewrite ?P.
    + linked_cases; [discriminate|]. apply A.
    + intros Y. destruct (B _ _ _ Y) as [lo Y']. exists lo. linked_cases; [|exact Y']. unfold plink in Y'. now rewrite Fr in Y'.
    + apply D.
    + apply E.
    + apply F.
    + linked_cases; [cbn; lia|]. intros Y. specialize (G _ Y). cbn. lia.
    + apply K.
  - split; [|exact S]. intros c. rewrite <- C. unfold ref_c. rewrite X. destruct (decide (c0 = c)) as [<-|]; [now rewrite Fr|reflexivity].
  - intros c. change (queue _ ++ queueInternal _) with (queue w ++ queueInternal w). unfold st_c. rewrite X, P.
    destruct (decide (c0 = c)) as [<-|]; [|apply I]. cbn. split; [lia|]. discriminate.
Qed.

(** *** The packet handler *)
Definition good_result (r : result) : Prop := match r with Done w | Throw w => good w | Crash => True end.
Lemma good_lift m : (forall w, m = Some w -> good w) -> good_result (lift m).
Proof. destruct m; cbn; auto. Qed.
Lemma lift_throw m w : lift m <> Throw w.
Proof. destruct m; discriminate. Qed.
Lemma good_lift_mild w m : good w -> (forall w', m = Some w' -> mild w w') -> good_result (lift m).
Proof. intros G M. apply good_lift. intros w' E. eapply good_mild; [apply M, E|exact G]. Qed.
Lemma good_sendData w c o : good w -> good_result (lift (sendData w c o)).
Proof. intros G. apply (good_lift_mild w); eauto. Qed.
Lemma good_then r (k : world -> result) : good_result r -> (forall w, good w -> good_result (k w)) ->
  good_result (match r with Done w => k w | Throw w => Throw w | Crash => Crash end).
Proof. destruct r; cbn; auto. Qed.
(** The first packet changes the state of its client, which no request logs in yet. *)
Lemma good_state w c st q w1 w' : good w -> st_c w c = Some INITIAL -> on_client w c (setStateAtomic st) = Some w1 ->
  match q with
  | None => st <> CONNECTING /\ w' = w1
  | Some (id, clean) => st = CONNECTING /\ request_async (LoginClient c id clean) w1 = Some w'
  end -> good w'.
Proof.
  intros [L [C S] I] Si U Q. pose proof U as U'. apply on_client_inv in U' as (x & X & E). destruct (client_rest _ _ _ _ U) as (O1 & O2 & O3 & O4 & O5).
  assert (P : forall c', plink w1 c' = plink w c').
  { intros c'. rewrite (plink_client _ _ _ _ _ U X). destruct (decide (c = c')) as [<-|]; [|reflexivity]. now rewrite (plink_of _ _ _ X). }
  assert (St : forall c', st_c w1 c' = if decide (c = c') then Some st else st_c w c').
  { intros c'. subst w1. unfold st_c. cbn [clients with_clients]. rewrite (lookup_updated _ _ _ _ _ X). now destruct (decide (c = c')). }
  assert (L1 : linked w1). { eapply (linked_same w); [|exact L]. split; auto. intros s. unfold slink. now rewrite O1. }
  destruct (adds_client _ _ _ _ U ltac:(now intros [])) as [_ R1 R2].
  assert (Qs : queue w1 = queue w /\ queueInternal w1 = queueInternal w) by (subst w1; auto). destruct Qs as [Qe Qi].
  assert (C1 : counted w1 (queue w ++ queueInternal w)) by (split; intros i; rewrite ?R1, ?R2, ?cnt_nil, ?Z.add_0_r; auto).
  destruct (I c) as [I1 I2]. rewrite Si in I1. pose proof (cnt_nonneg (logs_in c) (queue w ++ queueInternal w)).
  destruct q as [[id clean]|]; destruct Q as [Q ->] || destruct Q as [-> Q].
  - unfold request_async, requestChange in Q. destruct (change_refs 1 _ w1) as [w2|] eqn:U2; [|discriminate]. injection Q as <-.
    destruct (refs_links _ _ _ _ U2) as (K2 & St2 & Q1 & Q2 & T1 & T2). unfold good. cbn [queue queueInternal with_queues]. rewrite Q1, Q2, Qe, Qi.
    assert (V : inv w2 (LoginClient c id clean :: queue w ++ queueInternal w)).
    { split; [eapply linked_same; eauto| |].
      - destruct C1 as [C1 C2]. split; intros i; rewrite ?T1, ?T2, cnt_cons, ?C1, ?C2; [destruct (about_client i _)|destruct (about_session i _)]; lia.
      - intros c'. rewrite cnt_cons, (St2 c'), (sl_plink _ _ K2), St, P. cbn [logs_in]. destruct (Nat.eqb_spec c' c) as [->|N].
        + rewrite decide_True by reflexivity. split; [lia|]. intros _. apply I2. auto.
        + rewrite decide_False by congruence. apply I. }
    eapply inv_cnt; [|eapply inv_other; [..|exact V]; reflexivity]. intros p. rewrite cnt_cons, !cnt_app, cnt_one. lia.
  - unfold good. rewrite Qe, Qi. split; auto. intros c'. rewrite St, P. destruct (decide (c = c')) as [<-|]; [|apply I].
    split; [destruct st; try lia; congruence|]. intros _. apply I2. auto.
Qed.

Section Handler.
Context (sfx : list string) (h : holder).
Ltac good_step :=
  match goal with
  | |- good_result (match ?m with Some _ => _ | None => Throw _ end) => destruct m as [[? ?]|] eqn:?; [|assumption]
  | |- good_result (if ?b then _ else _) => destruct b eqn:?
  | |- good_result (Throw _) => assumption
  | |- good_result (Done _) => assumption
  | |- good_result Crash => exact I
  end.
Lemma good_connect_packet w c d : good w -> st_c w c = Some INITIAL -> good_result (connect_packet w c d).
Proof.
  intros G S. unfold connect_packet. repeat good_step.
  - destruct (on_client w c _) as [w1|] eqn:U; cbn; [|exact I].
    assert (G1 : good w1) by (eapply (good_state w c INVALID_PROTOCOL_VERSION None); [exact G|exact S|exact U|split; [discriminate|reflexivity]]).
    now apply good_sendData.
  - destruct (on_client w c (set_connect _ _)) as [w1|] eqn:U; cbn; [|exact I].
    assert (M1 : mild w w1) by (eapply mild_client; [exact U|now intros []]). pose proof (good_mild _ _ M1 G) as G1.
    assert (S1 : st_c w1 c = Some INITIAL) by now rewrite (mi_states _ _ M1). repeat good_step.
    destruct (match o with Some p => _ | None => _ end) as [w2|w2|] eqn:U2; cbn; [| |exact I].
    2:{ destruct o; [now apply lift_throw in U2|discriminate U2]. }
    assert (M2 : mild w1 w2).
    { destruct o; cbn in U2; [|injection U2 as <-; apply mild_refl]. destruct (on_client w1 c _) as [w3|] eqn:U3; [|discriminate].
      injection U2 as <-. eapply mild_client; [exact U3|now intros []]. }
    pose proof (good_mild _ _ M2 G1) as G2. assert (S2 : st_c w2 c = Some INITIAL) by now rewrite (mi_states _ _ M2).
    destruct (if Z.testbit z0 7 then _ else _); [|exact G2]. destruct (if Z.testbit z0 6 then _ else _); [|exact G2].
    destruct (on_client w2 c _) as [w3|] eqn:U3; cbn; [|exact I]. apply good_lift. intros w4 U4.
    eapply (good_state w2 c CONNECTING (Some (s, Z.testbit z0 1))); eauto.
Qed.
Lemma good_publish_packet w c r d : good w -> good_result (publish_packet sfx h w c r d).
Proof.
  intros G. unfold publish_packet. destruct (clients w !! c) as [x|]; [|exact I].
  assert (On : forall w t q d, good w -> good_result (match (match c_version x with V5 => decodeProperties d | V4 => Some (noProperties, d) end) with
    | Some (props, d) => lift (publish sfx h w (mkPacket t (decoder_bytes d) q (Z.testbit (firstByte r) 0) props)) | None => Throw w end)).
  { clear w G. intros w t q d' G. good_step. apply good_lift. intros w' U. eapply good_publish; eauto. }
  repeat good_step. destruct (qos_of _); [now apply On| |].
  - good_step. apply good_then; [now apply good_sendData|]. intros w' G'. now apply On.
  - good_step. destruct (persistent x) as [sn|]; [|exact G]. destruct (sessions w !! sn) as [st|]; [|exact I].
    apply good_then; [apply (good_lift_mild w); [exact G|]; intros w' U; eapply mild_session; [exact U|now intros []]|].
    intros w1 G1. apply good_then; [now apply good_sendData|]. intros w2 G2. case_bool_decide; [exact G2|now apply On].
Qed.
Lemma good_acknowledge w c d act : good w ->
  (forall v id st, let '(st', _) := act v id st in s_clientId st' = s_clientId st /\ current st' = current st /\ s_refs st' = s_refs st) ->
  good_result (acknowledge w c d act).
Proof.
  intros G A. unfold acknowledge. destruct (clients w !! c) as [x|]; [|exact I]. good_step.
  destruct (reasonAndProperties _ _); [|exact G]. destruct (persistent x) as [s|]; [|exact G].
  destruct (sessions w !! s) as [st|] eqn:T; [|exact I]. specialize (A (c_version x) z st). destruct (act _ _ _) as [st' o].
  apply good_then; [|intros w1 G1; destruct o; [now apply good_sendData|exact G1]].
  apply (good_lift_mild w); [exact G|]. intros w' U. eapply mild_session_at; [exact U|exact T|exact A].
Qed.
Lemma good_topics_packet w c d b : good w -> good_result (topics_packet w c d b).
Proof.
  assert (Sub : forall fuel w d, good w -> good_result (fst (subscribe_topics fuel w c d))).
  { clear w d. induction fuel as [|fuel IH]; intros w d G; [exact I|]. cbn [subscribe_topics].
    destruct (decodeString d) as [[t d1]|]; [|exact G]. destruct (String.eqb t ""); [exact G|].
    destruct (decodeByte d1) as [[q d2]|]; [|exact G]. destruct (3 <=? q); [exact G|]. destruct (clients w !! c) as [x|]; [|exact I].
    destruct (persistent x) as [s|]; [|exact G]. destruct (request_async _ w) as [w1|] eqn:U; [|exact I].
    assert (G1 : good w1) by (eapply good_async; [exact G| |exact U]; reflexivity).
    destruct (decoder_bytes d2); [exact G1|]. specialize (IH w1 d2 G1). destruct (subscribe_topics fuel w1 c d2). exact IH. }
  assert (Uns : forall fuel w d, good w -> good_result (fst (unsubscribe_topics fuel w c d))).
  { clear w d. induction fuel as [|fuel IH]; intros w d G; [exact I|]. cbn [unsubscribe_topics].
    destruct (decodeString d) as [[t d1]|]; [|exact G]. destruct (clients w !! c) as [x|]; [|exact I].
    destruct (persistent x) as [s|]; [|exact G]. destruct (request_async _ w) as [w1|] eqn:U; [|exact I].
    assert (G1 : good w1) by (eapply good_async; [exact G| |exact U]; reflexivity).
    destruct (decoder_bytes d1); [exact G1|]. specialize (IH w1 d1 G1). destruct (unsubscribe_topics fuel w1 c d1). exact IH. }
  intros G. unfold topics_packet. destruct (clients w !! c) as [x|]; [|exact I]. repeat good_step.
  - specialize (Sub (topics_fuel d1) w d1 G). destruct (subscribe_topics _ w c d1) as [r codes]. apply good_then; [exact Sub|].
    intros w1 G1. now apply good_sendData.
  - specialize (Uns (topics_fuel d1) w d1 G). destruct (unsubscribe_topics _ w c d1) as [r n]. apply good_then; [exact Uns|].
    intros w1 G1. now apply good_sendData.
Qed.
Lemma good_packet st w c r : good w -> (st = INITIAL -> st_c w c = Some INITIAL) -> good_result (handlePacketReceived sfx h st w c r).
Proof.
  intros G S. unfold handlePacketReceived. destruct st.
  - destruct (messageType r); try exact G. now apply good_connect_packet; [|apply S].
  - apply (good_lift_mild w); [exact G|]. intros w' U. eapply mild_client; [exact U|now intros []].
  - destruct (messageType r); repeat good_step; auto using good_publish_packet, good_sendData, good_topics_packet.
    all: try (apply good_acknowledge; [exact G|]; intros v id st; now destruct st).
    destruct (clients w !! c) as [x|]; [|exact I]. destruct (match c_version x with V4 => _ | V5 => _ end); [|exact G].
    apply good_then; [|auto]. apply (good_lift_mild w); [exact G|]. intros w' U. eapply mild_client; [exact U|now intros []].
  - exact G.
Qed.
Lemma good_readable now w c l t w' : good w -> readable sfx h now w c l t = Some w' -> good w'.
Proof.
  assert (Wt : forall l w, good w -> good_result (handle_waiting sfx h w c l)).
  { clear. induction l as [|r l IH]; intros w G; cbn [handle_waiting].
    - apply (good_lift_mild w); [exact G|]. intros w' U. eapply mild_client; [exact U|now intros []].
    - apply good_then; [|exact IH]. apply good_packet; [exact G|discriminate]. }
  assert (Al : forall l w, good w -> good_result (handle_all sfx h w c l)).
  { clear. induction l as [|r l IH]; intros w G; cbn [handle_all]; [exact G|].
    destruct (clients w !! c) as [x|] eqn:X; [|exact I]. apply good_then; [|exact IH]. apply good_packet; [exact G|].
    intros E. unfold st_c. rewrite X. cbn. now rewrite E. }
  intros G U. unfold readable in U. destruct (clients w !! c) as [x|]; [|discriminate].
  match type of U with match ?r with _ => _ end = _ => assert (R : good_result r); [|destruct r as [w1|w1|]; [injection U as <-; exact R| |discriminate]] end.
  - apply good_then; [now apply Wt|]. intros w1 G1. apply good_then.
    + apply (good_lift_mild w1); [exact G1|]. intros w2 U2. destruct (match l with [] => _ | _ => _ end); [|injection U2 as <-; apply mild_refl].
      eapply mild_client; [exact U2|now intros []].
    + intros w2 G2. apply good_then; [now apply Al|]. intros w3 G3. now destruct t.
  - eapply good_async; [exact R| |exact U]. reflexivity.
Qed.
End Handler.
Lemma good_init : good init.
Proof.
  split; [split|split; reflexivity|]; cbn.
  - intros c s lo X. discriminate.
  - intros s id c X. discriminate.
  - intros id s X. now rewrite lookup_empty in X.
  - intros s id cur X. discriminate.
  - intros s X. now apply elem_of_nil in X.
  - intros c [x X]. discriminate.
  - intros s [x X]. discriminate.
  - intros c. change (st_c init c) with (@None connection_state). rewrite cnt_nil. split; [lia|]. discriminate.
Qed.
Lemma reachable_good w : reachable w -> good w.
Proof.
  induction 1 as [|w e w' _ G P U]; [apply good_init|]. destruct e; cbn in U, P.
  - injection U as <-. now apply good_connect.
  - eapply good_readable; eauto.
  - eapply good_mild; [|exact G]. eapply mild_client; [exact U|now intros []].
  - apply (good_async (LogoutClient c) w); [exact G|reflexivity|exact U].
  - eapply good_work; eauto.
  - eapply good_expire; eauto.
  - injection U as <-. now apply good_sweep.
  - eapply good_publish; eauto.
  - apply (good_async (Subscribe (Other n) topic0 q) w); [exact G|reflexivity|exact U].
  - apply (good_async (Unsubscribe (Other n) topic0) w); [exact G|reflexivity|exact U].
Qed.

(** ** Theorems *)

(** C1: clients and sessions belong together: whatever happens, a client that has a session
    is not logged out, its session names it as its client and is the session of its client
    identifier; a session that names a client is that client's; the session found under an
    identifier has that identifier; and a session that was given up has no client and is
    found under no identifier. *)
Theorem sessions_belong w : reachable w ->
  (forall c x s, clients w !! c = Some x -> persistent x = Some s -> loggedOut x = false /\
    exists st, sessions w !! s = Some st /\ current st = Some c /\ persistentClientStates w !! s_clientId st = Some s) /\
  (forall s st c, sessions w !! s = Some st -> current st = Some c -> exists x, clients w !! c = Some x /\ persistent x = Some s) /\
  (forall id s, persistentClientStates w !! id = Some s -> exists st, sessions w !! s = Some st /\ s_clientId st = id) /\
  (forall s, s ∈ deletedStates w -> exists st, sessions w !! s = Some st /\ current st = None /\
    persistentClientStates w !! s_clientId st <> Some s).
Proof.
  intros R. destruct (reachable_good _ R) as [[A B C _ F _ _] _ _].
  assert (Sv : forall s p, slink w s = Some p -> exists st, sessions w !! s = Some st /\ p = (s_clientId st, current st)).
  { intros s p. unfold slink. destruct (sessions w !! s) as [st|]; [|discriminate]. intros [= <-]. eauto. }
  split_and!.
  - intros c x s X P. pose proof (plink_of _ _ _ X) as L. rewrite P in L. destruct (A _ _ _ L) as (-> & id & S & M).
    split; [reflexivity|]. destruct (Sv _ _ S) as (st & T & [= -> E]). eauto.
  - intros s st c T E. pose proof (slink_of _ _ _ T) as L. rewrite E in L. destruct (B _ _ _ L) as [lo P]. unfold plink in P.
    destruct (clients w !! c) as [x|]; [|discriminate]. injection P as P _. eauto.
  - intros id s M. destruct (C _ _ M) as [cur S]. destruct (Sv _ _ S) as (st & T & [= -> E]). eauto.
  - intros s D. destruct (F _ D) as (id & S & N). destruct (Sv _ _ S) as (st & T & [= -> E]). eauto.
Qed.
(** C2: nothing that is still needed is deleted: in every reachable state the client and the
    session that a queued request refers to exist, and the reference count of each is the
    number of queued requests that refer to it, through every cleanup. *)
Theorem requests_stay_valid w : reachable w -> let pending := (queue w ++ queueInternal w)%list in
  (forall r c, r ∈ pending -> client_of r = Some c -> is_Some (clients w !! c)) /\
  (forall r s, r ∈ pending -> session_of r = Some s -> is_Some (sessions w !! s)) /\
  (forall c x, clients w !! c = Some x -> c_refs x = cnt (about_client c) pending) /\
  (forall s st, sessions w !! s = Some st -> s_refs st = cnt (about_session s) pending).
Proof.
  intros R pending. destruct (reachable_good _ R) as [_ [C S] _]. fold pending in C, S. split_and!.
  - intros r c I E. specialize (C c). unfold ref_c in C. destruct (clients w !! c); [eauto|].
    pose proof (cnt_in (about_client c) pending r I). unfold about_client at 1 in H0. rewrite bool_decide_true in H0 by exact E. lia.
  - intros r s I E. specialize (S s). unfold ref_s in S. destruct (sessions w !! s); [eauto|].
    assert (Cr : client_of r = None) by (destruct r; cbn in E |- *; congruence).
    pose proof (cnt_in (about_session s) pending r I). unfold about_session at 1 in H0. rewrite bool_decide_true in H0 by auto. lia.
  - intros c x X. rewrite <- C. unfold ref_c. now rewrite X.
  - intros s st X. rewrite <- S. unfold ref_s. now rewrite X.
Qed.

(** *** The internal queue is drained *)
(** Nothing is added to the queue of the thread that holds the mutex. *)
Definition quiet (w w' : world) : Prop := queueInternal w' = queueInternal w.
Lemma quiet_client w c f w' : on_client w c f = Some w' -> quiet w w'.
Proof. intros U. apply on_client_inv in U as (x & _ & ->). reflexivity. Qed.
Lemma quiet_session w c f w' : on_session w c f = Some w' -> quiet w w'.
Proof. intros U. apply on_session_inv in U as (x & _ & ->). reflexivity. Qed.
Lemma quiet_trans w1 w2 w3 : quiet w1 w2 -> quiet w2 w3 -> quiet w1 w3.
Proof. unfold quiet. congruence. Qed.
Lemma quiet_client_publish w c t p q r ps id w' : client_publish w c t p q r ps id = Some w' -> quiet w w'.
Proof. unfold client_publish. intros U. steps. eapply quiet_client, U. Qed.
Lemma quiet_sendPublish w sub t p q r ps w' : sendPublish w sub t p q r ps = Some w' -> quiet w w'.
Proof.
  destruct sub as [s|n]; cbn; intros U; [|steps; reflexivity]. unfold session_publish in U. steps.
  destruct q; steps; [eapply quiet_client_publish, U| |].
  all: apply quiet_session in Heqo1; eapply quiet_trans; [exact Heqo1|].
  all: destruct (current s0); [eapply quiet_client_publish, U|steps; reflexivity].
Qed.
Lemma quiet_deliver p subs : forall w visited w', deliver w p subs visited = Some w' -> quiet w w'.
Proof.
  induction subs as [|sub subs IH]; intros w visited w' U; cbn [deliver] in U; [steps; reflexivity|].
  destruct (bool_decide _); [eapply IH, U|]. steps. eapply quiet_trans; [eapply quiet_sendPublish; eassumption|eapply IH, U].
Qed.
Lemma quiet_publishNoLock w p w' : publishNoLockNoRetain w p = Some w' -> quiet w w'.
Proof.
  unfold publishNoLockNoRetain. intros U. apply quiet_deliver in U. eapply quiet_trans; [|exact U].
  unfold quiet, performSystemAction. split_ifs; reflexivity.
Qed.
(** What a request may cost: itself, and the retained will of a client it logs out. *)
Definition cost (r : request) : nat := match r with LoginClient _ _ _ | LogoutClient _ => 2 | _ => 1 end.
Definition costs (l : list request) : nat := list_sum (List.map cost l).
Lemma costs_app l l' : costs (l ++ l') = (costs l + costs l')%nat.
Proof. unfold costs. now rewrite List.map_app, list_sum_app. Qed.
Lemma costs_le l : (costs l <= 2 * List.length l)%nat.
Proof.
  induction l as [|r l IH]; [cbn; lia|]. change (costs (r :: l)) with (cost r + costs l)%nat. cbn [List.length].
  assert (cost r <= 2)%nat by (destruct r; cbn; lia). lia.
Qed.
(** At most one request is added. *)
Definition murmur (n : nat) (w w' : world) : Prop := exists l, queueInternal w' = queueInternal w ++ l /\ (costs l <= n)%nat.
Lemma murmur_quiet w w' n : quiet w w' -> murmur n w w'.
Proof. intros Q. exists []. rewrite app_nil_r. split; [exact Q|cbn; lia]. Qed.
Lemma murmur_trans n m w1 w2 w3 : murmur n w1 w2 -> murmur m w2 w3 -> murmur (n + m) w1 w3.
Proof. intros (l & E & L) (l' & E' & L'). exists (l ++ l'). rewrite E', E, app_assoc, costs_app. split; [reflexivity|lia]. Qed.
Lemma murmur_then_quiet n w1 w2 w3 : murmur n w1 w2 -> quiet w2 w3 -> murmur n w1 w3.
Proof. intros (l & E & L) Q. exists l. unfold quiet in Q. split; [congruence|exact L]. Qed.
Lemma quiet_then_murmur n w1 w2 w3 : quiet w1 w2 -> murmur n w2 w3 -> murmur n w1 w3.
Proof. intros Q (l & E & L). exists l. unfold quiet in Q. split; [congruence|exact L]. Qed.
Lemma murmur_logout w c w' : logoutClient w c = Some w' -> murmur 1 w w'.
Proof.
  unfold logoutClient. intros U. destruct (clients w !! c) as [x|]; [|discriminate].
  destruct (loggedOut x); [injection U as <-; now apply murmur_quiet|].
  destruct (on_client (with_cleanup w true) c notifyLoggedOut) as [w1|] eqn:U1; [|discriminate].
  eapply quiet_then_murmur; [exact (quiet_client _ _ _ _ U1)|].
  destruct (persistent x) as [s|]; [|injection U as <-; now apply murmur_quiet].
  destruct (match will x with Some p => publishInternal w1 p | None => Some w1 end) as [w2|] eqn:U2; [|discriminate].
  assert (M : murmur 1 w1 w2).
  { destruct (will x) as [p|]; [|injection U2 as <-; now apply murmur_quiet]. unfold publishInternal in U2.
    destruct (publishNoLockNoRetain w1 p) as [w3|] eqn:U3; [|discriminate]. eapply quiet_then_murmur; [eapply quiet_publishNoLock, U3|].
    destruct (retain p); [|injection U2 as <-; now apply murmur_quiet]. injection U2 as <-. exists [Retain p]. split; [reflexivity|cbn; lia]. }
  eapply murmur_then_quiet; [exact M|]. destruct (dropCurrentClient w2 s) as [w3|] eqn:U3; [|discriminate].
  assert (Q3 : quiet w2 w3).
  { unfold dropCurrentClient in U3. steps. eapply quiet_trans; [eapply quiet_client; eassumption|eapply quiet_session, U3]. }
  eapply quiet_trans; [exact Q3|]. steps. destruct (cleanSession s0); [|now steps].
  destruct (persistentClientStates w3 !! _) as [s'|]; [|now steps]. destruct (Nat.eqb s s'); steps; reflexivity.
Qed.
Ltac silent :=
  match goal with
  | U : on_client _ _ _ = Some ?w |- _ => apply quiet_client in U
  | U : on_session _ _ _ = Some ?w |- _ => apply quiet_session in U
  | U : sendData _ _ _ = Some ?w |- _ => unfold sendData in U
  | U : connected _ _ = Some ?w |- _ => unfold connected in U
  end.
Lemma quiet_send_all l : forall w c w', send_all w c l = Some w' -> quiet w w'.
Proof.
  induction l as [|o l IH]; intros w c w' U; cbn [send_all] in U; steps; [reflexivity|].
  eapply quiet_trans; [|eapply IH, U]. eapply quiet_client. eassumption.
Qed.
Lemma quiet_sendConnack w c b w' : sendConnack w c b = Some w' -> quiet w w'.
Proof. unfold sendConnack. intros U. steps. eapply quiet_client, U. Qed.
Lemma quiet_send_retained sub q t m subs : forall w w', send_retained w sub q t m subs = Some w' -> quiet w w'.
Proof.
  induction subs as [|x subs IH]; intros w w' U; cbn [send_retained] in U; steps; [reflexivity|].
  eapply quiet_trans; [|eapply IH, U]. destruct (bool_decide _); [eapply quiet_sendPublish; eassumption|now steps].
Qed.
Lemma quiet_send_all_retained sub q ms : forall w w', send_all_retained w sub q ms = Some w' -> quiet w w'.
Proof.
  induction ms as [|[t m] ms IH]; intros w w' U; cbn [send_all_retained] in U; steps; [reflexivity|].
  eapply quiet_trans; [|eapply IH, U]. eapply quiet_send_retained. eassumption.
Qed.
Lemma quiet_subscribe w sub t q w' : subscribeClientInternal w sub t q = Some w' -> quiet w w'.
Proof. intros U. apply quiet_send_all_retained in U. exact U. Qed.
Lemma quiet_replace w s c clean reset w' : replaceCurrentClient w s c clean reset = Some w' -> quiet w w'.
Proof.
  unfold replaceCurrentClient. intros U. destruct (sessions w !! s) as [st|]; [|discriminate].
  destruct (match current st with Some old => on_client w old (set_persistent None) | None => Some w end) as [w1|] eqn:U1; [|discriminate].
  destruct (on_session w1 s _) as [w2|] eqn:U2; [|discriminate].
  eapply quiet_trans; [|eapply quiet_trans; [eapply quiet_session, U2|eapply quiet_client, U]].
  destruct (current st); [eapply quiet_client, U1|now steps].
Qed.
Lemma quiet_change_refs d r w w' : change_refs d r w = Some w' -> quiet w w'.
Proof.
  unfold change_refs. destruct (client_of r); [apply quiet_client|]. destruct (session_of r); [apply quiet_session|]. intros U. now steps.
Qed.
Lemma murmur_login sfx w c id clean w' : loginClient sfx w c id clean = Some w' -> murmur 1 w w'.
Proof.
  assert (Out : forall (w1 w2 : world) e, logout_existing w1 e = Some w2 -> murmur 1 w1 w2).
  { intros w1 w2 [e|] U; [eapply murmur_logout, U|]. cbn in U. steps. now apply murmur_quiet. }
  unfold loginClient. intros U. destruct (clients w !! c) as [x|]; [|discriminate]. destruct (loggedOut x); [steps; now apply murmur_quiet|].
  match type of U with match ?m with _ => _ end = _ => destruct m as [name|]; [|discriminate] end.
  destruct (persistentClientStates w !! name) as [s|].
  - destruct (sessions w !! s) as [st|]; [|discriminate]. destruct (clean || cleanSession st); steps.
    + eapply quiet_then_murmur; [eapply quiet_replace; eassumption|]. eapply murmur_then_quiet; [eapply Out; eassumption|].
      eapply quiet_trans; [eapply quiet_sendConnack; eassumption|eapply quiet_client, U].
    + eapply quiet_then_murmur; [eapply quiet_replace; eassumption|]. eapply murmur_then_quiet; [eapply Out; eassumption|].
      eapply quiet_trans; [eapply quiet_sendConnack; eassumption|]. eapply quiet_trans; [eapply quiet_send_all; eassumption|].
      eapply quiet_trans; [eapply quiet_send_all; eassumption|eapply quiet_client, U].
  - cbv zeta in U. steps. apply murmur_quiet.
    match goal with R : replaceCurrentClient _ _ _ _ _ = Some _ |- _ => apply quiet_replace in R; eapply quiet_trans; [exact R|] end.
    eapply quiet_trans; [eapply quiet_sendConnack; eassumption|eapply quiet_client, U].
Qed.
Lemma murmur_execute sfx r w w' : executeChangeRequest sfx r w = Some w' -> murmur (pred (cost r)) w w'.
Proof.
  unfold executeChangeRequest. intros U. destruct (visit sfx r w) as [w1|] eqn:V; [|discriminate].
  destruct (change_refs (-1) r w1) as [w2|] eqn:R; [|discriminate].
  assert (Q : quiet w1 w').
  { eapply quiet_trans; [eapply quiet_change_refs, R|]. destruct (client_of r); [|now steps]. steps.
    destruct (_ && _); reflexivity. }
  eapply murmur_then_quiet; [|exact Q]. clear - V. destruct r as [s t q|s t|s|p|c id clean|c]; cbn [visit] in V; cbn [cost pred].
  - steps. apply murmur_quiet. apply quiet_subscribe in V. destruct s; [|now steps].
    destruct (sessions w !! s); [|discriminate]. cbn in *. now steps.
  - steps. now apply murmur_quiet.
  - steps. now apply murmur_quiet.
  - steps. apply murmur_quiet. unfold retain_message. destruct (payload p); reflexivity.
  - eapply murmur_login, V.
  - eapply murmur_logout, V.
Qed.
(** The loop as it is written: until the queue is empty, with the undefined behaviour of a
    request as an outcome. *)
Inductive drains (sfx : list string) : world -> option world -> Prop :=
| drains_end w : queueInternal w = [] -> drains sfx w (Some w)
| drains_crash w r l : queueInternal w = r :: l -> executeChangeRequest sfx r w = None -> drains sfx w None
| drains_step w r l w' o : queueInternal w = r :: l -> executeChangeRequest sfx r w = Some w' ->
    drains sfx (with_queues w' (queue w') (tl (queueInternal w'))) o -> drains sfx w o.
Lemma drain_drains sfx fuel : forall w, (costs (queueInternal w) < fuel)%nat ->
  drains sfx w (drain fuel sfx w) /\ forall w', drain fuel sfx w = Some w' -> queueInternal w' = [].
Proof.
  induction fuel as [|fuel IH]; intros w L; [lia|]. cbn [drain].
  destruct (queueInternal w) as [|r l] eqn:Q; [split; [now apply drains_end|intros w' U; steps; exact Q]|].
  destruct (executeChangeRequest sfx r w) as [w1|] eqn:U; [|split; [eapply drains_crash; eauto|discriminate]].
  destruct (murmur_execute _ _ _ _ U) as (a & E & C).
  destruct (IH (with_queues w1 (queue w1) (tl (queueInternal w1)))) as [D F].
  - cbn [with_queues queueInternal]. rewrite E, Q. cbn [app tl]. rewrite costs_app.
    change (costs (r :: l)) with (cost r + costs l)%nat in L. assert (0 < cost r)%nat by (destruct r; cbn; lia). lia.
  - split; [eapply drains_step; eauto|exact F].
Qed.
Lemma drains_unique sfx w o : drains sfx w o -> forall o', drains sfx w o' -> o = o'.
Proof.
  induction 1 as [w E|w r l E X|w r l w1 o E X _ IH]; intros o' D'; inversion D'; subst; try congruence.
  apply IH. match goal with E1 : queueInternal w = _, X1 : executeChangeRequest _ _ w = Some ?a, Y : drains _ _ o' |- _ =>
    rewrite E in E1; injection E1 as <- <-; rewrite X in X1; injection X1 as <-; exact Y end.
Qed.

(** C13: the loop over the internal queue ends, although logging a client out can publish a
    retained will and so add to the queue: with the fuel of the model the loop runs to the
    outcome that the loop as it is written has, its only one, and when nothing is undefined
    the queue is empty then. *)
Theorem queue_drained sfx w :
  drains sfx w (drain (fuel_of w) sfx w) /\
  (forall o, drains sfx w o -> o = drain (fuel_of w) sfx w) /\
  (forall w', drains sfx w (Some w') -> queueInternal w' = []).
Proof.
  destruct (drain_drains sfx (fuel_of w) w) as [D E].
  { pose proof (costs_le (queueInternal w)). unfold fuel_of. lia. }
  split_and!; [exact D|intros o O; eapply drains_unique; eauto|]. intros w' O. apply E. symmetry. eapply drains_unique; eauto.
Qed.

(** *** Who gets a message *)
(** The QoS that a subscriber gets: that of the first of its subscriptions that matches. *)
Definition first_match (p : packet) (subs : list subscription) (sub : subscriber) : option qos :=
  option_map (fun x => minQoS (sqos x) (pqos p)) (List.find (fun x => bool_decide (subscriber_of x = sub)) subs).
Definition not_yet (p : packet) (subs : list subscription) (visited : list subscriber) (sub : subscriber) : option qos :=
  if bool_decide (sub ∈ visited) then None else first_match p subs sub.
(** The packet identifier of a message to a session, and what the session's client is sent. *)
Definition message_id (st : session) (q : qos) : Z := match q with QoS0 => 0 | _ => next_id (packetIdCounter st) end.
Definition message (v : version) (p : packet) (st : session) (q : qos) : out :=
  PublishOut v (topic p) (payload p) q false (properties p) (message_id st q) false.
Definition messages_to (w : world) (p : packet) (g : subscriber -> option qos) (x : client) : list out :=
  match persistent x with
  | Some s => match sessions w !! s, g (Session s) with Some st, Some q => [message (c_version x) p st q] | _, _ => [] end
  | None => []
  end.
(** The session afterwards: a message of QoS 1 or 2 is kept. *)
Definition after_message (w : world) (p : packet) (st : session) (q : option qos) (st' : session) : Prop :=
  match q with
  | None | Some QoS0 => st' = st
  | Some q => exists v n, st' = set_sending (emplace (message_id st q) (mkStorage (message v p st q) n) (sending st)) (message_id st q) st /\
      forall c x, current st = Some c -> clients w !! c = Some x -> v = c_version x
  end.
Definition add_all (l : list out) (x : client) : client :=
  mkClient (remote x) (c_version x) (c_state x) (persistent x) (will x) (loggedOut x) (sendError x) (keepAlive x) (lastRecv x) (c_clientId x)
    (waiting x) (c_refs x) (sent x ++ l).
Record one_publish (w w' : world) (p : packet) (g : subscriber -> option qos) : Prop := {
  p_clients : forall c, clients w' !! c = option_map (fun x => add_all (messages_to w p g x) x) (clients w !! c);
  p_sessions : forall s, match sessions w !! s with
    | Some st => exists st', sessions w' !! s = Some st' /\ after_message w p st (g (Session s)) st'
    | None => sessions w' !! s = None end;
  p_received : forall n, List.filter (fun e => Nat.eqb (fst e) n) (received w') =
    List.filter (fun e => Nat.eqb (fst e) n) (received w) ++
    match g (Other n) with Some q => [(n, mkPacket (topic p) (payload p) q false (properties p))] | None => [] end }.
Lemma sent_all_nil x : add_all [] x = x.
Proof. destruct x. unfold add_all. cbn. now rewrite app_nil_r. Qed.
Lemma sent_all_app l l' x : add_all l' (add_all l x) = add_all (l ++ l') x.
Proof. unfold add_all. cbn. now rewrite app_assoc. Qed.
Definition only (sub : subscriber) (q : qos) (sub' : subscriber) : option qos := if bool_decide (sub = sub') then Some q else None.
Definition orelse (g g' : subscriber -> option qos) (sub : subscriber) : option qos := match g sub with Some q => Some q | None => g' sub end.
Lemma one_publish_nobody w p g : (forall sub, g sub = None) -> one_publish w w p g.
Proof.
  intros G. split.
  - intros c. destruct (clients w !! c) as [x|]; [|reflexivity]. cbn. f_equal. replace (messages_to w p g x) with (@nil out); [now rewrite sent_all_nil|].
    unfold messages_to. destruct (persistent x) as [s|]; [|reflexivity]. rewrite G. now destruct (sessions w !! s).
  - intros s. rewrite G. destruct (sessions w !! s) as [st|]; [|reflexivity]. exists st. split; reflexivity.
  - intros n. rewrite G. now rewrite app_nil_r.
Qed.
Lemma one_publish_then w w1 w2 p g g' : (forall sub, g sub = None \/ g' sub = None) ->
  one_publish w w1 p g -> one_publish w1 w2 p g' -> one_publish w w2 p (orelse g g').
Proof.
  intros D [C S R] [C' S' R']. split.
  - intros c. rewrite C', C. destruct (clients w !! c) as [x|]; [|reflexivity]. cbn. f_equal. rewrite sent_all_app. f_equal.
    unfold messages_to. cbn. destruct (persistent x) as [s|]; [|reflexivity]. specialize (S s). unfold orelse.
    destruct (sessions w !! s) as [st|]; [|now rewrite S]. destruct S as (st' & -> & A).
    destruct (D (Session s)) as [E|E]; rewrite E; [rewrite E in A; cbn in A; subst; reflexivity|].
    destruct (g (Session s)); [apply app_nil_r|reflexivity].
  - intros s. specialize (S s). specialize (S' s). unfold orelse. destruct (sessions w !! s) as [st|]; [|now rewrite S in S'].
    destruct S as (st' & E & A). rewrite E in S'. destruct S' as (st2 & E2 & A2). exists st2. split; [exact E2|].
    destruct (D (Session s)) as [G|G]; rewrite G; [|rewrite G in A2; cbn in A2; subst; now destruct (g (Session s))].
    rewrite G in A. cbn in A. subst st'. destruct (g' (Session s)) as [q|]; [|exact A2].
    assert (Mv : forall c x, clients w !! c = Some x -> exists x', clients w1 !! c = Some x' /\ c_version x' = c_version x).
    { intros c x X. rewrite C, X. cbn. eauto. }
    destruct q; cbn in A2 |- *; [exact A2| |].
    all: destruct A2 as (v & n & -> & V); exists v, n; split; [reflexivity|]; intros c x K X; destruct (Mv _ _ X) as (x' & X' & <-); eauto.
  - intros n. rewrite R', R, <- app_assoc. f_equal. unfold orelse. destruct (D (Other n)) as [G|G]; rewrite G; [reflexivity|].
    rewrite app_nil_r. now destruct (g (Other n)).
Qed.
Lemma one_publish_ext w w' p g g' : (forall sub, g sub = g' sub) -> one_publish w w' p g -> one_publish w w' p g'.
Proof.
  intros E [C S R]. split.
  - intros c. rewrite C. destruct (clients w !! c) as [x|]; [|reflexivity]. cbn. do 2 f_equal. unfold messages_to.
    destruct (persistent x); [|reflexivity]. now rewrite E.
  - intros s. specialize (S s). now rewrite <- E.
  - intros n. now rewrite <- E.
Qed.
Lemma only_same sub q : only sub q sub = Some q.
Proof. unfold only. now rewrite bool_decide_true. Qed.
Lemma only_other sub q sub' : sub <> sub' -> only sub q sub' = None.
Proof. intros N. unfold only. now rewrite bool_decide_false. Qed.
(** A subscriber can be sent a message: its session exists and has a client if QoS is 0. *)
Definition publishable (w : world) (sub : subscriber) (q : qos) : Prop :=
  match sub with
  | Session s => exists st, sessions w !! s = Some st /\ (q = QoS0 -> current st <> None)
  | Other _ => True
  end.
Lemma linked_current w s st c : linked w -> sessions w !! s = Some st -> current st = Some c ->
  exists x, clients w !! c = Some x /\ persistent x = Some s.
Proof.
  intros L S K. pose proof (slink_of _ _ _ S) as SL. rewrite K in SL. destruct (lk_session _ L _ _ _ SL) as [lo P].
  unfold plink in P. destruct (clients w !! c) as [x|]; [|discriminate]. injection P as P _. eauto.
Qed.
Lemma linked_persistent w s c x : linked w -> clients w !! c = Some x -> persistent x = Some s ->
  exists st, sessions w !! s = Some st /\ current st = Some c.
Proof.
  intros L X P. pose proof (plink_of _ _ _ X) as PL. rewrite P in PL. destruct (lk_client _ L _ _ _ PL) as (_ & id & S & _).
  unfold slink in S. destruct (sessions w !! s) as [st|]; [|discriminate]. injection S as _ S. eauto.
Qed.
Lemma client_publish_sends w c x t pl q r ps id : clients w !! c = Some x ->
  client_publish w c t pl q r ps id = Some (with_clients w (<[c := add_sent (PublishOut (c_version x) t pl q r ps id false) x]> (clients w))).
Proof. intros X. unfold client_publish, sendData, on_client. now rewrite X. Qed.
(** A message to one session. *)
Lemma session_publish_one w s p q : linked w -> publishable w (Session s) q ->
  exists w', session_publish w s (topic p) (payload p) q false (properties p) = Some w' /\ one_publish w w' p (only (Session s) q).
Proof.
  intros L (st & S & K0). unfold session_publish. rewrite S.
  assert (Cl : forall w' v, clients w' = (match current st with
      | Some c => match clients w !! c with Some x => <[c := add_sent (message v p st q) x]> (clients w) | None => clients w end | None => clients w end) ->
    (forall c x, current st = Some c -> clients w !! c = Some x -> v = c_version x) -> forall c, clients w' !! c =
      option_map (fun x => add_all (messages_to w p (only (Session s) q) x) x) (clients w !! c)).
  { intros w' v E V c. rewrite E. destruct (clients w !! c) as [y|] eqn:Y; cbn [option_map].
    - destruct (persistent y) as [s'|] eqn:P.
      + destruct (linked_persistent _ _ _ _ L Y P) as (st' & S' & K'). destruct (decide (s = s')) as [<-|N].
        * rewrite S in S'. injection S' as <-. rewrite K', Y, lookup_insert_eq. unfold messages_to. rewrite P, S, only_same.
          now rewrite (V _ _ K' Y).
        * unfold messages_to. rewrite P, S', only_other by congruence. rewrite sent_all_nil. destruct (current st) as [c'|] eqn:K; [|exact Y].
          destruct (clients w !! c') as [x|] eqn:X; [|exact Y]. rewrite lookup_insert_ne; [exact Y|]. intros <-.
          destruct (linked_current _ _ _ _ L S K) as (x' & X' & P'). congruence.
      + unfold messages_to. rewrite P, sent_all_nil. destruct (current st) as [c'|] eqn:K; [|exact Y].
        destruct (clients w !! c') as [x|] eqn:X; [|exact Y]. rewrite lookup_insert_ne; [exact Y|]. intros <-.
        destruct (linked_current _ _ _ _ L S K) as (x' & X' & P'). congruence.
    - destruct (current st) as [c'|] eqn:K; [|exact Y]. destruct (clients w !! c') as [x|] eqn:X; [|exact Y].
      rewrite lookup_insert_ne; [exact Y|]. congruence. }
  assert (Rc : forall (w' : world) n, received w' = received w -> List.filter (fun e => Nat.eqb (fst e) n) (received w') =
      List.filter (fun e => Nat.eqb (fst e) n) (received w) ++
      match only (Session s) q (Other n) with Some q => [(n, mkPacket (topic p) (payload p) q false (properties p))] | None => [] end).
  { intros w' n ->. rewrite only_other by discriminate. now rewrite app_nil_r. }
  assert (Ss : forall w' st', sessions w' = <[s := st']> (sessions w) -> after_message w p st (Some q) st' -> forall s',
    match sessions w !! s' with
    | Some st => exists st', sessions w' !! s' = Some st' /\ after_message w p st (only (Session s) q (Session s')) st'
    | None => sessions w' !! s' = None end).
  { intros w' st' E A s'. rewrite E. destruct (decide (s = s')) as [<-|N].
    - rewrite S, lookup_insert_eq, only_same. eauto.
    - rewrite lookup_insert_ne, only_other by congruence. destruct (sessions w !! s'); [|reflexivity]. eexists. split; reflexivity. }
  destruct (current st) as [c|] eqn:K.
  - destruct (linked_current _ _ _ _ L S K) as (x & X & P). destruct q; cbn [option_map]; rewrite ?X; cbn [option_map].
    + rewrite (client_publish_sends _ _ _ _ _ _ _ _ _ X). eexists. split; [reflexivity|]. split; [|apply (Ss _ st); [|reflexivity]|now intros; apply Rc].
      * eapply (Cl _ (c_version x)); [now rewrite X|]. intros c' x' [= <-] X'. congruence.
      * cbn. now rewrite insert_id.
    + unfold on_session. cbn [with_order sessions]. rewrite S. erewrite client_publish_sends by exact X. eexists. split; [reflexivity|].
      split; [eapply (Cl _ (c_version x)); [cbn; now rewrite X|]; intros c' x' [= <-] X'; congruence| |now intros; apply Rc].
      eapply Ss; [reflexivity|]. eexists _, _. split; [reflexivity|]. intros c' x' [= <-]%(eq_trans (eq_sym K)) X'. congruence.
    + unfold on_session. cbn [with_order sessions]. rewrite S. erewrite client_publish_sends by exact X. eexists. split; [reflexivity|].
      split; [eapply (Cl _ (c_version x)); [cbn; now rewrite X|]; intros c' x' [= <-] X'; congruence| |now intros; apply Rc].
      eapply Ss; [reflexivity|]. eexists _, _. split; [reflexivity|]. intros c' x' [= <-]%(eq_trans (eq_sym K)) X'. congruence.
  - destruct q; [now specialize (K0 eq_refl)| |].
    all: unfold on_session; cbn [with_order sessions]; rewrite S; eexists; split; [reflexivity|].
    all: split; [eapply (Cl _ V4); [reflexivity|discriminate]| |now intros; apply Rc].
    all: eapply Ss; [reflexivity|]; eexists _, _; split; [reflexivity|]; intros; congruence.
Qed.
Lemma sendPublish_one w sub p q : linked w -> publishable w sub q ->
  exists w', sendPublish w sub (topic p) (payload p) q false (properties p) = Some w' /\ one_publish w w' p (only sub q).
Proof.
  intros L P. destruct sub as [s|n]; [now apply session_publish_one|]. eexists. split; [reflexivity|]. split.
  - intros c. cbn. destruct (clients w !! c) as [x|]; [|reflexivity]. cbn. f_equal. unfold messages_to.
    destruct (persistent x) as [s|]; [|now rewrite sent_all_nil]. rewrite only_other by discriminate.
    destruct (sessions w !! s); now rewrite sent_all_nil.
  - intros s. rewrite only_other by discriminate. cbn. destruct (sessions w !! s); [|reflexivity]. eexists. split; reflexivity.
  - intros m. cbn [with_received received]. rewrite List.filter_app. cbn [List.filter fst]. destruct (Nat.eqb_spec n m) as [->|N].
    + now rewrite only_same.
    + rewrite only_other by congruence. now rewrite app_nil_r.
Qed.
Lemma sendPublish_publishable w sub t pl q r ps w' : linked w -> sendPublish w sub t pl q r ps = Some w' -> publishable w sub q.
Proof.
  intros L U. destruct sub as [s|n]; [|exact I]. cbn in U. unfold session_publish in U. destruct (sessions w !! s) as [st|] eqn:S; [|discriminate].
  exists st. split; [exact S|]. intros -> K. rewrite K in U. discriminate.
Qed.
Lemma publishable_mild w w' sub q : same_links w w' -> publishable w' sub q <-> publishable w sub q.
Proof.
  intros E. destruct sub as [s|n]; [|reflexivity]. cbn. pose proof (sl_slink _ _ E s) as Sl. unfold slink in Sl.
  destruct (sessions w !! s) as [st|], (sessions w' !! s) as [st'|]; try discriminate; [|split; intros (? & ? & _); discriminate].
  injection Sl as _ K. split; intros (a & [= <-] & R); eexists; (split; [reflexivity|]); intros Q0; specialize (R Q0); congruence.
Qed.
Lemma not_yet_visited p subs visited sub : sub ∈ visited -> not_yet p subs visited sub = None.
Proof. intros V. unfold not_yet. now rewrite bool_decide_true. Qed.
Lemma not_yet_skip p x rest visited sub : subscriber_of x ∈ visited -> not_yet p (x :: rest) visited sub = not_yet p rest visited sub.
Proof.
  intros V. unfold not_yet, first_match. destruct (decide (sub ∈ visited)) as [I|N]; [now rewrite !bool_decide_true|].
  rewrite !(bool_decide_false (sub ∈ visited)) by exact N. cbn [List.find]. rewrite bool_decide_false; [reflexivity|]. now intros <-.
Qed.
Lemma not_yet_next p x rest visited sub : subscriber_of x ∉ visited ->
  not_yet p (x :: rest) visited sub = orelse (only (subscriber_of x) (minQoS (sqos x) (pqos p))) (not_yet p rest (subscriber_of x :: visited)) sub.
Proof.
  intros V. unfold orelse. destruct (decide (subscriber_of x = sub)) as [<-|N].
  - rewrite only_same. unfold not_yet, first_match. rewrite bool_decide_false by exact V. cbn [List.find]. now rewrite bool_decide_true.
  - rewrite only_other by exact N. unfold not_yet, first_match. cbn [List.find]. rewrite (bool_decide_false (subscriber_of x = sub)) by exact N.
    destruct (decide (sub ∈ visited)) as [I|O]; [rewrite !bool_decide_true; [reflexivity|set_solver|exact I]|].
    rewrite !bool_decide_false; [reflexivity| |exact O]. intros [->|I]%elem_of_cons; [now apply N|now apply O].
Qed.
Lemma deliver_spec p subs : forall w visited, linked w ->
  match deliver w p subs visited with
  | Some w' => one_publish w w' p (not_yet p subs visited) /\ forall sub q, not_yet p subs visited sub = Some q -> publishable w sub q
  | None => exists sub q, not_yet p subs visited sub = Some q /\ ~ publishable w sub q
  end.
Proof.
  induction subs as [|x subs IH]; intros w visited L; cbn [deliver].
  - assert (N : forall sub, not_yet p [] visited sub = None) by (intros; unfold not_yet; now destruct (bool_decide _)).
    split; [now apply one_publish_nobody|]. intros sub q E. now rewrite N in E.
  - destruct (decide (subscriber_of x ∈ visited)) as [V|V].
    + rewrite bool_decide_true by exact V. specialize (IH w visited L). destruct (deliver w p subs visited) as [w'|].
      * destruct IH as [O P]. split; [eapply one_publish_ext; [|exact O]; intros; now rewrite not_yet_skip|].
        intros sub q E. rewrite not_yet_skip in E by exact V. eauto.
      * destruct IH as (sub & q & E & P). exists sub, q. now rewrite not_yet_skip.
    + rewrite bool_decide_false by exact V. set (q0 := minQoS (sqos x) (pqos p)).
      destruct (sendPublish w (subscriber_of x) (topic p) (payload p) q0 false (properties p)) as [w1|] eqn:U.
      * pose proof (sendPublish_publishable _ _ _ _ _ _ _ _ L U) as Pu. destruct (sendPublish_one _ _ p _ L Pu) as (w1' & U' & O1).
        rewrite U in U'. injection U' as <-. pose proof (mi_links _ _ (mild_sendPublish _ _ _ _ _ _ _ _ U)) as Sl.
        specialize (IH w1 (subscriber_of x :: visited) (linked_same _ _ Sl L)). destruct (deliver w1 p subs _) as [w'|].
        -- destruct IH as [O P]. split.
           ++ eapply one_publish_ext; [intros; symmetry; now apply not_yet_next|]. eapply one_publish_then; [|exact O1|exact O].
              intros sub. destruct (decide (subscriber_of x = sub)) as [<-|N]; [right; apply not_yet_visited; set_solver|left; now apply only_other].
           ++ intros sub q E. rewrite not_yet_next in E by exact V. unfold orelse in E. destruct (decide (subscriber_of x = sub)) as [<-|N].
              ** rewrite only_same in E. injection E as <-. exact Pu.
              ** rewrite only_other in E by exact N. apply (publishable_mild _ _ sub q Sl). eauto.
        -- destruct IH as (sub & q & E & P). exists sub, q. rewrite not_yet_next by exact V. unfold orelse.
           destruct (decide (subscriber_of x = sub)) as [<-|N]; [rewrite not_yet_visited in E by set_solver; discriminate|].
           rewrite only_other by exact N. split; [exact E|]. now rewrite <- (publishable_mild w w1).
      * exists (subscriber_of x), q0. rewrite not_yet_next by exact V. unfold orelse. rewrite only_same. split; [reflexivity|].
        intros Pu. destruct (sendPublish_one _ _ p _ L Pu) as (w1 & U' & _). fold q0 in U'. congruence.
Qed.

Lemma publishNoLock_spec w p : linked w ->
  let gets := first_match p (every_match (subscriptions w) (topic p)) in
  match publishNoLockNoRetain w p with
  | Some w' => one_publish w w' p gets /\ forall sub q, gets sub = Some q -> publishable w sub q
  | None => exists sub q, gets sub = Some q /\ ~ publishable w sub q
  end.
Proof.
  intros L gets. unfold publishNoLockNoRetain.
  set (w0 := if String.prefix "$NIOEV" (topic p) then performSystemAction w (topic p) (payload p) else w).
  assert (E : clients w0 = clients w /\ sessions w0 = sessions w /\ received w0 = received w /\ subscriptions w0 = subscriptions w).
  { unfold w0, performSystemAction. split_ifs; auto. }
  assert (Sl : same_links w w0) by (unfold w0, performSystemAction; split_ifs; now split).
  destruct E as (Ec & Es & Er & Eu). rewrite Eu. fold gets.
  assert (Nv : forall sub, not_yet p (every_match (subscriptions w) (topic p)) [] sub = gets sub).
  { intros sub. unfold not_yet. rewrite bool_decide_false; [reflexivity|]. set_solver. }
  pose proof (deliver_spec p (every_match (subscriptions w) (topic p)) w0 [] (linked_same _ _ Sl L)) as D.
  destruct (deliver w0 p _ []) as [w'|].
  - destruct D as [O P]. split.
    + apply (one_publish_ext _ _ _ _ _ Nv) in O. destruct O as [C S R']. split.
      * intros c. rewrite C, Ec. unfold messages_to. now rewrite Es.
      * intros s. specialize (S s). rewrite Es in S. unfold after_message in S |- *. rewrite Ec in S. exact S.
      * now rewrite <- Er.
    + intros sub q G. rewrite <- (publishable_mild _ _ sub q Sl). apply P. now rewrite Nv.
  - destruct D as (sub & q & G & P). exists sub, q. rewrite Nv in G. split; [exact G|]. now rewrite <- (publishable_mild _ _ sub q Sl).
Qed.

(** C3: publishing in every reachable state gives each subscriber whose filters match one
    copy of the message, with the lesser of the QoS of the message and of its first
    subscription, and nobody else anything; a message of QoS 1 or 2 to a session is kept
    under a new identifier until it is acknowledged; and publishing is undefined exactly
    when a matching session no longer exists or gets QoS 0 while it has no client. *)
Theorem publish_delivers w p : reachable w ->
  let gets := first_match p (every_match (subscriptions w) (topic p)) in
  match publishNoLockNoRetain w p with
  | Some w' => one_publish w w' p gets /\ forall sub q, gets sub = Some q -> publishable w sub q
  | None => exists sub q, gets sub = Some q /\ ~ publishable w sub q
  end.
Proof. intros R. apply publishNoLock_spec. now destruct (reachable_good _ R). Qed.

(** *** Logging in again *)
Lemma on_client_at w c f x : clients w !! c = Some x -> on_client w c f = Some (with_clients w (<[c := f x]> (clients w))).
Proof. intros X. unfold on_client. now rewrite X. Qed.
Lemma on_session_at w s f x : sessions w !! s = Some x -> on_session w s f = Some (with_sessions w (<[s := f x]> (sessions w))).
Proof. intros X. unfold on_session. now rewrite X. Qed.
Lemma send_all_at l : forall w c x, clients w !! c = Some x ->
  send_all w c l = Some (with_clients w (<[c := add_all l x]> (clients w))).
Proof.
  induction l as [|o l IH]; intros w c x X; cbn [send_all].
  - rewrite sent_all_nil, insert_id by exact X. now destruct w.
  - unfold sendData. rewrite (on_client_at _ _ _ _ X). rewrite (IH _ _ (add_sent o x)) by apply lookup_insert_eq.
    cbn [with_clients clients]. rewrite insert_insert_eq. do 3 f_equal. unfold add_all, add_sent. cbn. now rewrite <- app_assoc.
Qed.
Lemma send_all_app l l' w c x : clients w !! c = Some x ->
  match send_all w c l with Some w' => send_all w' c l' | None => None end = send_all w c (l ++ l').
Proof.
  intros X. rewrite (send_all_at l _ _ _ X), (send_all_at (l ++ l') _ _ _ X).
  rewrite (send_all_at l' _ c (add_all l x)) by apply lookup_insert_eq. cbn [with_clients clients]. now rewrite insert_insert_eq, sent_all_app.
Qed.
(** The packets that are resent are those that are kept, in their global order. *)
Lemma orderedPackets_spec st : exists l, Permutation l (List.map snd (sending st)) /\
  Sorted.StronglySorted (fun a b => globalOrder a <= globalOrder b) l /\ orderedPackets st = List.map (fun p => setDupFlag (kept p)) l.
Proof.
  exists (merge_sort (fun a b => globalOrder a <= globalOrder b) (List.map snd (sending st))). split_and!; [apply merge_sort_Permutation| |reflexivity].
  apply Sorted.Sorted_StronglySorted; [intros a b c; lia|].
  assert (Total (fun a b : storage => globalOrder a <= globalOrder b)) by (intros a b; lia). apply (Sorted_merge_sort _).
Qed.
(** A client that has no session any more is only marked. *)
Lemma logout_bare w c x : clients w !! c = Some x -> loggedOut x = false -> persistent x = None ->
  logoutClient w c = Some (with_clients (with_cleanup w true) (<[c := notifyLoggedOut x]> (clients w))).
Proof.
  intros X O P. unfold logoutClient. rewrite X, O. rewrite (on_client_at (with_cleanup w true) _ _ x) by exact X. now rewrite P.
Qed.
(** What is left of a session's old client, when another takes the session over. *)
Definition taken_over (st : session) (w w' : world) : Prop :=
  match current st with
  | Some old => exists y, clients w !! old = Some y /\ clients w' !! old = Some (notifyLoggedOut (set_persistent None y))
  | None => True
  end.
Definition logged_in (s : nat) (name : string) (x : client) : client := set_clientId name (set_persistent (Some s) x).
(** The first half of logging in to a session that exists. *)
Lemma take_over w s c x st (clean reset : bool) : linked w -> clients w !! c = Some x -> persistent x = None -> sessions w !! s = Some st ->
  let st' := (if reset then reset_session else (fun x => x)) (set_clean clean (set_current (Some c) st)) in
  exists w1 w2, replaceCurrentClient w s c clean reset = Some w1 /\ logout_existing w1 (current st) = Some w2 /\
    clients w2 !! c = Some (logged_in s (s_clientId st) x) /\ sessions w2 = <[s := st']> (sessions w) /\
    subscriptions w2 = subscriptions w /\ taken_over st w w2 /\ persistentClientStates w2 = persistentClientStates w.
Proof.
  intros L X P S st'. unfold replaceCurrentClient, taken_over. rewrite S. destruct (current st) as [old|] eqn:K.
  - destruct (linked_current _ _ _ _ L S K) as (y & Y & Q). assert (N : old <> c) by congruence.
    rewrite (on_client_at _ _ _ _ Y). erewrite on_session_at by exact S.
    erewrite on_client_at by (cbn; rewrite lookup_insert_ne by exact N; exact X). eexists _, _. split; [reflexivity|].
    split; [cbn [logout_existing]; apply (logout_bare _ old (set_persistent None y)); cbn|].
    + rewrite lookup_insert_ne by congruence. apply lookup_insert_eq.
    + pose proof (plink_of _ _ _ Y) as PL. rewrite Q in PL. now destruct (lk_client _ L _ _ _ PL).
    + reflexivity.
    + cbn. rewrite lookup_insert_ne, lookup_insert_eq by exact N. split_and!; try reflexivity. exists y. split; [exact Y|]. apply lookup_insert_eq.
  - erewrite on_session_at by exact S. erewrite on_client_at by exact X. eexists _, _. split; [reflexivity|].
    split; [reflexivity|]. cbn. rewrite lookup_insert_eq. split_and!; reflexivity.
Qed.

(** C12: a client that logs in to the session it had is told that the session was there,
    whether or not another client still had it: it then gets every message of the session
    that was not acknowledged, marked as a duplicate, in the order in which the messages
    were published, and the PUBRELs; the session keeps its messages and its subscriptions;
    and the client that had the session is logged out and has no session. *)
Theorem session_resumed sfx w c x cid s st : reachable w -> clients w !! c = Some x -> loggedOut x = false -> persistent x = None ->
  cid <> ""%string -> persistentClientStates w !! cid = Some s -> sessions w !! s = Some st -> cleanSession st = false ->
  exists w' l, loginClient sfx w c cid false = Some w' /\ Permutation l (List.map snd (sending st)) /\
    Sorted.StronglySorted (fun a b => globalOrder a <= globalOrder b) l /\
    clients w' !! c = Some (setStateAtomic CONNECTED (add_all (Connack (c_version x) true :: List.map (fun p => setDupFlag (kept p)) l ++
      resentPubrels (c_version x) st) (logged_in s (s_clientId st) x))) /\
    sessions w' = <[s := set_current (Some c) st]> (sessions w) /\ subscriptions w' = subscriptions w /\ taken_over st w w'.
Proof.
  intros R X O P N M S C. destruct (reachable_good _ R) as [L _ _]. destruct (orderedPackets_spec st) as (l & Pe & So & Or).
  destruct (take_over w s c x st false false L X P S) as (w1 & w2 & U1 & U2 & X2 & S2 & Su & T & _).
  unfold loginClient. rewrite X, O, (proj2 (String.eqb_neq _ _) N), M, S, C. cbn [orb]. rewrite U1, U2. unfold sendConnack. rewrite X2.
  unfold sendData. rewrite (on_client_at _ _ _ _ X2). cbn [with_clients sessions]. rewrite S2, lookup_insert_eq.
  erewrite send_all_at by apply lookup_insert_eq. erewrite send_all_at by apply lookup_insert_eq.
  unfold connected. erewrite on_client_at by apply lookup_insert_eq. eexists _, l. split; [reflexivity|]. split; [exact Pe|]. split; [exact So|].
  cbn [with_clients clients sessions subscriptions]. rewrite lookup_insert_eq. split_and!; [|rewrite S2; now destruct st; cbn in C |- *; subst|exact Su|].
  - f_equal. unfold add_all, add_sent, setStateAtomic. cbn. f_equal. rewrite <- Or, <- !app_assoc. reflexivity.
  - unfold taken_over in T |- *. destruct (current st) as [old|] eqn:K; [|exact I]. destruct T as (y & Y & E). exists y. split; [exact Y|].
    destruct (linked_current _ _ _ _ L S K) as (y' & Y' & Q). cbn [with_clients clients]. rewrite !lookup_insert_ne by congruence. exact E.
Qed.

End Core.

(** ** Witnesses *)
Import BrokerDemo.
(** A client subscribes, another publishes to it, and the first disconnects and comes back:
    its login is the next request. *)
Definition exchange : list event :=
  (joins 0 "a" 0 ++ sends 0 (subscribe_to "t" 1) ++ joins 1 "b" 2 ++
   sends 1 (publish_on "t" 1 7 false [5]))%list.
Definition return_of_a : list event :=
  (exchange ++ sends 0 disconnect ++ sends 1 (publish_on "t" 1 8 false [6]) ++
   [Connect "10.0.0.2:1883" 3; Readable 2 [connect_of "a" 0 60 "" []] Nothing 4 [] Free])%list.
Lemma sessions_belong_witness : let w := after exchange in
  exists st, sessions w !! 0%nat = Some st /\ current st = Some 0%nat /\ persistentClientStates w !! s_clientId st = Some 0%nat.
Proof.
  intros w. destruct (sessions_belong w (after_reachable exchange)) as (A & _).
  destruct (clients w !! 0%nat) as [x|] eqn:X; [|vm_compute in X; discriminate X].
  apply (A 0%nat x 0%nat X). vm_compute in X. injection X as <-. reflexivity.
Defined.
Lemma requests_stay_valid_witness : let w := after return_of_a in
  queue w = [LoginClient 2 "a" false] /\ is_Some (clients w !! 2%nat).
Proof.
  intros w. split; [vm_compute; reflexivity|].
  destruct (requests_stay_valid w (after_reachable return_of_a)) as (A & _).
  apply (A (LoginClient 2 "a" false)); [|reflexivity]. replace (queue w) with [LoginClient 2 "a" false] by (vm_compute; reflexivity).
  cbn. apply list_elem_of_In; now left.
Defined.
Lemma publish_delivers_witness : let w := after exchange in
  let p := mkPacket "t" [9] QoS1 false ([] : list Z) in
  match publishNoLockNoRetain w p with
  | Some w' => match clients w !! 0%nat with
      | Some x => option_map sent (clients w' !! 0%nat) = Some (sent x ++ [PublishOut V4 "t" [9] QoS1 false ([] : list Z) 3 false])
      | None => False end
  | None => False
  end.
Proof.
  intros w p. pose proof (publish_delivers w p (after_reachable exchange)) as D. cbv zeta in D.
  destruct (publishNoLockNoRetain w p) as [w'|] eqn:U; [|vm_compute in U; discriminate]. destruct D as [[C _ _] _].
  destruct (clients w !! 0%nat) as [x|] eqn:X; [|vm_compute in X; discriminate]. rewrite C, X. cbn [option_map]. f_equal.
  vm_compute in X. injection X as <-. vm_compute. reflexivity.
Defined.
Lemma session_resumed_witness : let w := after return_of_a in
  exists w', loginClient [] w 2 "a" false = Some w' /\
    option_map sent (clients w' !! 2%nat) = Some [Connack V4 true; PublishOut V4 "t" [5] QoS1 false ([] : list Z) 2 true;
      PublishOut V4 "t" [6] QoS1 false ([] : list Z) 3 true].
Proof.
  intros w. destruct (clients w !! 2%nat) as [x|] eqn:X; [|vm_compute in X; discriminate X].
  destruct (sessions w !! 0%nat) as [st|] eqn:S; [|vm_compute in S; discriminate S].
  destruct (session_resumed [] w 2%nat x "a" 0%nat st (after_reachable return_of_a) X) as (w' & l & U & _).
  1-2: vm_compute in X; injection X as <-; reflexivity.
  - discriminate.
  - vm_compute. reflexivity.
  - exact S.
  - vm_compute in S. injection S as <-. reflexivity.
  - exists w'. split; [exact U|]. vm_compute in U. injection U as <-. vm_compute. reflexivity.
Defined.
End BrokerFacts.
