(* ===== verification/BrokerQos2.v ===== *)
(** A message of QoS 2 is published once (ApplicationState.cpp and ClientThreadManager.cpp):
    the identifier that a session noted with a PUBLISH stays noted while its client is logged
    in, whatever happens to the broker meanwhile, until the client releases it. *)
From Stdlib Require Import ZArith Lia Bool List Ascii String.
From stdpp Require Import base gmap strings list sorting.
From S2P Require Import Prelude Broker BrokerDemo BrokerFacts.
Import ListNotations.
Open Scope Z_scope.

Module Qos2Facts.
Import Broker BrokerFacts.
Section Core.
Context `{NioevLib}.

(** A PUBREL with the identifier [id], and a PUBLISH of QoS 2 with it. *)
Definition releases (id : Z) (r : recvData) : Prop :=
  messageType r = PUBREL /\ exists d, decode2Bytes (BinaryDecoder (buffer r)) = Some (id, d).
Definition publishes (id : Z) (r : recvData) : Prop :=
  messageType r = PUBLISH /\ Z.land (Z.shiftr (firstByte r) 1) 3 = 2 /\
  exists topic d d', decodeString (BinaryDecoder (buffer r)) = Some (topic, d) /\ topic <> ""%string /\ decode2Bytes d = Some (id, d').

(** ** The identifier stays noted *)
Section Known.
Context (c s : nat) (id : Z).
(** The client [c] is logged in for good, with the session [s] or none any more, nothing
    that waits for it releases the identifier, and while it has the session it is noted. *)
Record known (w : world) : Prop := {
  kn_old : (c < next_client w)%nat;
  kn_client : forall x, clients w !! c = Some x ->
    c_state x = CONNECTED /\ (persistent x = None \/ persistent x = Some s) /\ List.Forall (fun r => ~ releases id r) (waiting x);
  kn_noted : forall x st, clients w !! c = Some x -> persistent x = Some s -> sessions w !! s = Some st -> id ∈ receivingIds st }.

Lemma known_other w w' : clients w' = clients w -> sessions w' = sessions w -> next_client w' = next_client w -> known w -> known w'.
Proof. intros C S N [K1 K2 K3]. split; rewrite ?C, ?S, ?N; auto. Qed.
Lemma known_client w j f w' : known w -> on_client w j f = Some w' ->
  (forall x, (persistent (f x) = persistent x \/ persistent (f x) = None) /\ c_state (f x) = c_state x /\ waiting (f x) = waiting x) -> known w'.
Proof.
  intros [K1 K2 K3] U F. apply on_client_inv in U as (x & X & ->). destruct (F x) as (F1 & F2 & F3). split; [exact K1|..].
  - intros y. cbn [clients with_clients]. rewrite (lookup_updated _ _ _ _ _ X). destruct (decide (j = c)) as [->|]; [|auto].
    intros [= <-]. destruct (K2 x X) as (A & B & D). rewrite F2, F3. split; [exact A|]. split; [|exact D]. destruct F1 as [->| ->]; auto.
  - intros y st. cbn [clients sessions with_clients]. rewrite (lookup_updated _ _ _ _ _ X). destruct (decide (j = c)) as [->|]; [|apply K3].
    intros [= <-] P. apply (K3 x); [exact X|]. destruct F1 as [E|E]; congruence.
Qed.
Lemma known_elsewhere w j f w' : known w -> on_client w j f = Some w' -> j <> c -> known w'.
Proof.
  intros [K1 K2 K3] U N. apply on_client_inv in U as (x & X & ->). split; [exact K1|..]; cbn [clients sessions with_clients];
    rewrite lookup_insert_ne by congruence; auto.
Qed.
Lemma known_session w j f w' : known w -> on_session w j f = Some w' ->
  (forall x, clients w !! c = Some x -> persistent x = Some s -> j = s -> forall st, id ∈ receivingIds st -> id ∈ receivingIds (f st)) -> known w'.
Proof.
  intros [K1 K2 K3] U F. apply on_session_inv in U as (t & T & ->). split; [exact K1|exact K2|]. intros x st X P.
  cbn [clients sessions with_sessions] in X |- *. rewrite (lookup_updated _ _ _ _ _ T). destruct (decide (j = s)) as [->|N]; [|now apply (K3 x)].
  intros [= <-]. eapply F; eauto.
Qed.
Lemma known_same_ids w j f w' : known w -> on_session w j f = Some w' -> (forall st, receivingIds (f st) = receivingIds st) -> known w'.
Proof. intros K U F. eapply known_session; [exact K|exact U|]. intros x _ _ _ st. now rewrite F. Qed.

(** *** Publishing *)
Lemma known_sendData w j o w' : known w -> sendData w j o = Some w' -> known w'.
Proof. intros K U. eapply known_client; [exact K|exact U|]. intros []. cbn. auto. Qed.
Lemma known_client_publish w j t p q r ps i w' : known w -> client_publish w j t p q r ps i = Some w' -> known w'.
Proof. unfold client_publish. intros K U. steps. eauto using known_sendData. Qed.
Lemma known_session_publish w j t p q r ps w' : known w -> session_publish w j t p q r ps = Some w' -> known w'.
Proof.
  unfold session_publish. intros K U. steps. destruct q; steps; eauto using known_client_publish.
  all: match goal with U : on_session ?w _ _ = Some ?w2 |- _ => assert (K2 : known w2)
    by (eapply (known_same_ids w); [|exact U|now intros []]; now eapply known_other; [..|exact K]) end.
  all: destruct (current _); steps; eauto using known_client_publish.
Qed.
Lemma known_sendPublish w sub t p q r ps w' : known w -> sendPublish w sub t p q r ps = Some w' -> known w'.
Proof.
  destruct sub; cbn; intros K U; [eapply known_session_publish; eauto|]. injection U as <-. now eapply known_other; [..|exact K].
Qed.
Lemma known_deliver p subs : forall w visited w', known w -> deliver w p subs visited = Some w' -> known w'.
Proof.
  induction subs as [|sub subs IH]; intros w visited w' K U; cbn [deliver] in U; [steps; exact K|].
  destruct (bool_decide _); [eapply IH; eauto|]. steps. eapply IH; [|exact U]. eapply known_sendPublish; eauto.
Qed.
Lemma known_publishNoLock w p w' : known w -> publishNoLockNoRetain w p = Some w' -> known w'.
Proof.
  unfold publishNoLockNoRetain. intros K U. eapply known_deliver; [|exact U]. destruct (String.prefix _ _); [|exact K].
  unfold performSystemAction. split_ifs; try exact K. now eapply known_other; [..|exact K].
Qed.
Lemma known_refs d r w w' : known w -> change_refs d r w = Some w' -> known w'.
Proof.
  unfold change_refs. intros K U. destruct (client_of r); [eapply known_client; [exact K|exact U|now intros []; auto]|].
  destruct (session_of r); [|now injection U as <-]. eapply known_same_ids; [exact K|exact U|now intros []].
Qed.
Lemma known_retain w p : known w -> known (retain_message w p).
Proof. intros K. unfold retain_message. destruct (payload p); now eapply known_other; [..|exact K]. Qed.
Lemma known_publishInternal w p w' : known w -> publishInternal w p = Some w' -> known w'.
Proof.
  unfold publishInternal. intros K U. steps. assert (K1 : known w0) by (eapply known_publishNoLock; eauto).
  destruct (retain p); [|steps; exact K1]. cbn in U. steps. now eapply known_other; [..|exact K1].
Qed.
Lemma known_async r w w' : known w -> request_async r w = Some w' -> known w'.
Proof.
  unfold request_async, requestChange. intros K U. steps. assert (K1 : known w0) by (eapply known_refs; eauto). now eapply known_other; [..|exact K1].
Qed.

(** *** Logging out and in *)
Lemma known_drop w j w' : known w -> dropCurrentClient w j = Some w' -> known w'.
Proof.
  unfold dropCurrentClient. intros K U. steps. eapply known_same_ids; [|exact U|now intros []].
  eapply known_client; [exact K|eassumption|]. intros []. cbn. auto.
Qed.
Lemma known_logout w j w' : known w -> logoutClient w j = Some w' -> known w'.
Proof.
  unfold logoutClient. intros K U. steps. destruct (loggedOut _); [steps; exact K|]. steps.
  match goal with U : on_client _ _ _ = Some ?w1 |- _ => assert (K1 : known w1) by
    (eapply (known_client (with_cleanup w true)); [now eapply known_other; [..|exact K]|exact U|now intros []; auto]) end.
  destruct (persistent _) as [s0|]; [|steps; exact K1]. steps.
  match goal with U : _ = Some ?w2, U' : dropCurrentClient ?w2 _ = Some ?w3 |- _ => assert (K3 : known w3) by
    (eapply known_drop; [|exact U']; destruct (will _); [eapply known_publishInternal; eauto|steps; exact K1]) end.
  destruct (cleanSession _); [|steps; exact K3]. destruct (persistentClientStates _ !! _) as [s'|]; [|steps; exact K3].
  destruct (Nat.eqb s0 s'); steps; [|exact K3]. now eapply known_other; [..|exact K3].
Qed.
Lemma known_send_all j l : forall w w', known w -> send_all w j l = Some w' -> known w'.
Proof. induction l as [|o l IH]; intros w w' K U; cbn in U; steps; [exact K|]. eapply IH; [|exact U]. eapply known_sendData; eauto. Qed.
Lemma known_sendConnack w j b w' : known w -> sendConnack w j b = Some w' -> known w'.
Proof. unfold sendConnack. intros K U. steps. eauto using known_sendData. Qed.
(** Another client takes a session over: when it is this one, the client loses it, and what it
    had noted may be reset. *)
Lemma known_replace w j c0 clean reset w' : known w -> c0 <> c ->
  (forall x st, clients w !! c = Some x -> persistent x = Some s -> sessions w !! s = Some st -> current st = Some c) ->
  replaceCurrentClient w j c0 clean reset = Some w' -> known w'.
Proof.
  unfold replaceCurrentClient. intros K N L U. steps. eapply known_elsewhere; [|exact U|exact N].
  match goal with U : _ = Some ?w1, U' : on_session ?w1 _ _ = Some _ |- _ => rename U into U1, U' into U2, w1 into v end.
  assert (K1 : known v).
  { destruct (current _); [|steps; exact K]. eapply known_client; [exact K|exact U1|]. intros []. cbn. auto. }
  eapply known_session; [exact K1|exact U2|]. intros x X P ->. exfalso.
  match goal with E : sessions w !! s = Some ?t |- _ => rename E into T; rename t into st end.
  assert (Q : current st = Some c).
  { destruct (current st) as [old|] eqn:Cu; [|injection U1 as <-; rewrite <- Cu; eauto]. apply on_client_inv in U1 as (y & Y & ->).
    cbn [clients with_clients] in X. rewrite (lookup_updated _ _ _ _ _ Y) in X. destruct (decide (old = c)) as [->|]; [reflexivity|].
    rewrite <- Cu. eauto. }
  rewrite Q in U1. apply on_client_inv in U1 as (y & Y & ->). cbn [clients with_clients] in X. rewrite lookup_insert_eq in X.
  injection X as <-. discriminate P.
Qed.
Lemma linked_has w x st : linked w -> clients w !! c = Some x -> persistent x = Some s -> sessions w !! s = Some st -> current st = Some c.
Proof.
  intros L X P T. pose proof (plink_of _ _ _ X) as Pl. rewrite P in Pl. destruct (lk_client _ L _ _ _ Pl) as (_ & cid & Sl & _).
  rewrite (slink_of _ _ _ T) in Sl. now injection Sl.
Qed.
Lemma known_connected w c0 w' : known w -> c0 <> c -> connected w c0 = Some w' -> known w'.
Proof. intros K N U. eapply known_elsewhere; eauto. Qed.
Lemma known_existing w e w' : known w -> logout_existing w e = Some w' -> known w'.
Proof. destruct e; cbn; intros K U; [eapply known_logout; eauto|now injection U as <-]. Qed.
Lemma known_login sfx w c0 cid clean w' : known w -> linked w -> c0 <> c -> loginClient sfx w c0 cid clean = Some w' -> known w'.
Proof.
  unfold loginClient. intros K L N U. destruct (clients w !! c0) as [x0|]; [|discriminate]. destruct (loggedOut x0); [steps; exact K|].
  destruct (if String.eqb cid "" then _ else _) as [i|]; [|discriminate]. destruct (persistentClientStates w !! i) as [j|].
  - destruct (sessions w !! j) as [st|]; [|discriminate]. destruct (clean || cleanSession st); steps.
    all: match goal with U : replaceCurrentClient _ _ _ _ _ = Some ?w1, U' : logout_existing ?w1 _ = Some ?w2 |- _ => assert (K2 : known w2)
      by (eapply known_existing; [|exact U']; eapply known_replace; eauto using linked_has) end.
    all: eapply known_connected; [|exact N|exact U]; eauto 6 using known_sendConnack, known_send_all.
  - set (w0 := with_states _ _ _) in U. assert (Fr : forall x, clients w !! c = Some x -> persistent x = Some s -> s <> next_session w).
    { intros x X P ->. pose proof (plink_of _ _ _ X) as Pl. rewrite P in Pl. destruct (lk_client _ L _ _ _ Pl) as (_ & q & Sl & _).
      pose proof (lk_new_session _ L _ (ex_intro _ _ Sl)). lia. }
    assert (K0 : known w0).
    { destruct K as [K1 K2 K3]. split; [exact K1|exact K2|]. intros x st X P. cbn [clients sessions w0 with_states with_sessions with_next] in *.
      pose proof (Fr x X P). rewrite lookup_insert_ne by congruence. eauto. }
    steps. match goal with U : replaceCurrentClient _ _ _ _ _ = Some ?w1 |- _ => assert (K1 : known w1) end.
    { eapply known_replace; [exact K0|exact N| |eassumption]. intros x st X P T. cbn [clients sessions w0 with_states with_sessions with_next] in *.
      pose proof (Fr x X P). rewrite lookup_insert_ne in T by congruence. eapply linked_has; eauto. }
    eapply known_connected; [|exact N|exact U]. eauto using known_sendConnack.
Qed.

(** *** Requests *)
Lemma known_send_retained sub q t m subs : forall w w', known w -> send_retained w sub q t m subs = Some w' -> known w'.
Proof.
  induction subs as [|b subs IH]; intros w w' K U; cbn in U; steps; [exact K|]. eapply IH; [|exact U].
  destruct (bool_decide _); steps; eauto using known_sendPublish.
Qed.
Lemma known_send_all_retained sub q ms : forall w w', known w -> send_all_retained w sub q ms = Some w' -> known w'.
Proof. induction ms as [|[t m] ms IH]; intros w w' K U; cbn in U; steps; eauto using known_send_retained. Qed.
(** A login that is requested is not this client's. *)
Lemma not_logging_in w r l : inv w (r :: l) -> known w -> forall cid clean, r <> LoginClient c cid clean.
Proof.
  intros [_ _ I] [_ K _] cid clean ->. destruct (I c) as [I1 _]. rewrite cnt_cons in I1. cbn [logs_in] in I1. rewrite Nat.eqb_refl in I1.
  pose proof (cnt_nonneg (logs_in c) l). unfold st_c in I1. destruct (clients w !! c) as [x|] eqn:X; cbn in I1; [|lia].
  destruct (K x eq_refl) as (E & _). rewrite E in I1. lia.
Qed.
Lemma known_visit sfx r w w' : known w -> linked w -> (forall cid clean, r <> LoginClient c cid clean) -> visit sfx r w = Some w' -> known w'.
Proof.
  intros K L N U. destruct r; cbn in U.
  - steps. assert (w0 = w) as -> by (destruct s0; [destruct (sessions w !! s0); [|discriminate]|]; now injection Heqo as <-).
    unfold subscribeClientInternal in U. eapply known_send_all_retained; [|exact U]. now eapply known_other; [..|exact K].
  - steps. now eapply known_other; [..|exact K].
  - steps. now eapply known_other; [..|exact K].
  - steps. now apply known_retain.
  - eapply known_login; [exact K|exact L| |exact U]. intros ->. exact (N _ _ eq_refl).
  - eapply known_logout; eauto.
Qed.
Lemma known_execute sfx r w l w' : known w -> inv w (r :: l) -> executeChangeRequest sfx r w = Some w' -> known w'.
Proof.
  unfold executeChangeRequest. intros K V U. steps.
  match goal with U : visit _ _ _ = Some ?w1, U' : change_refs _ _ ?w1 = Some ?w2 |- _ => assert (K2 : known w2) by
    (eapply known_refs; [|exact U']; eapply known_visit; [exact K|apply V|exact (not_logging_in _ _ _ V K)|exact U]) end.
  destruct (client_of r); steps; [|exact K2]. destruct (_ && _); [|exact K2]. now eapply known_other; [..|exact K2].
Qed.
Lemma known_publish sfx h w p w' : known w -> good w -> publish sfx h w p = Some w' -> known w'.
Proof.
  unfold publish. intros K G U. steps.
  match goal with U : publishNoLockNoRetain _ _ = Some ?w1 |- _ => rename w1 into v, U into U1 end.
  assert (K1 : known v) by (eapply known_publishNoLock; eauto). assert (G1 : good v) by (eapply good_mild; [eapply mild_publishNoLock, U1|exact G]).
  destruct (retain p); [|steps; exact K1]. unfold requestChange in U. steps.
  match goal with U : change_refs _ _ _ = Some ?w2 |- _ => rename w2 into v2, U into U2 end.
  assert (K2 : known v2) by (eapply known_refs; eauto). destruct (inv_refs _ _ _ _ U2 G1) as (V & _); [reflexivity|].
  destruct h; [eapply known_execute; eauto|injection U as <-; now eapply known_other; [..|exact K2]..].
Qed.

(** *** The worker and the timer *)
Lemma known_drain sfx fuel : forall w w', known w -> good w -> drain fuel sfx w = Some w' -> known w'.
Proof.
  induction fuel as [|fuel IH]; intros w w' K G U; [discriminate|]. cbn [drain] in U.
  destruct (queueInternal w) as [|r rest] eqn:Qi; [now injection U as <-|].
  destruct (executeChangeRequest sfx r w) as [w1|] eqn:U1; [|discriminate]. destruct (good_drain_step sfx w r rest w1 G Qi U1) as [V G1].
  eapply IH; [|exact G1|exact U]. assert (K1 : known w1) by (eapply known_execute; eauto). now eapply known_other; [..|exact K1].
Qed.
Lemma known_failed ids : forall w w', known w -> logout_failed w ids = Some w' -> known w'.
Proof.
  induction ids as [|i ids IH]; intros w w' K U; cbn [logout_failed] in U; [now injection U as <-|]. steps.
  eapply IH; [|exact U]. destruct (sendError _); [eapply known_logout; eauto|steps; exact K].
Qed.
Lemma known_work sfx w w' : known w -> good w -> work sfx w = Some w' -> known w'.
Proof.
  assert (P : forall w w', known w -> good w -> processInternalQueue sfx w = Some w' -> known w').
  { clear. unfold processInternalQueue. intros w w' K G U. steps. eapply known_drain; [| |exact U].
    - eapply known_failed; eauto.
    - eapply good_failed; eauto. }
  intros K G U. unfold work in U. destruct (queue w) as [|r rest] eqn:Q; [eauto|]. steps.
  match goal with U : executeChangeRequest _ _ _ = Some ?w1 |- _ => rename w1 into v, U into U1 end.
  destruct (good_work_step sfx w r rest v G Q U1) as [V G1]. eapply P; [|exact G1|exact U].
  eapply known_execute; [|exact V|exact U1]. now eapply known_other; [..|exact K].
Qed.
Lemma known_expire now ids : forall w w', known w -> expire now w ids = Some w' -> known w'.
Proof.
  induction ids as [|i ids IH]; intros w w' K U; cbn [expire] in U; [now injection U as <-|]. steps.
  eapply IH; [|exact U]. destruct (_ && _); [eapply known_logout; eauto|steps; exact K].
Qed.
Lemma known_sweep w : known w -> known (sweep w).
Proof.
  intros [K1 K2 K3]. unfold sweep. split; [exact K1|..]; cbn [clients sessions with_cleanup with_states with_sessions with_clients].
  - intros x X. apply map_lookup_filter_Some in X as [X _]. auto.
  - intros x st X P T. apply map_lookup_filter_Some in X as [X _]. apply map_lookup_filter_Some in T as [T _]. eauto.
Qed.
Lemma known_connect w remote now : known w -> known (handleNewClientConnection w remote now).
Proof.
  intros [K1 K2 K3]. unfold handleNewClientConnection. split; cbn [next_client clients sessions with_next with_clients]; [lia|..];
    intros x; rewrite lookup_insert_ne by lia; eauto.
Qed.

(** *** The packet handler *)
Definition known_result (r : result) : Prop := match r with Done w | Throw w => known w | Crash => True end.
Lemma known_lift m : (forall w, m = Some w -> known w) -> known_result (lift m).
Proof. destruct m; cbn; auto. Qed.
Lemma known_then r (k : world -> result) : known_result r -> (forall w, r = Done w -> known w -> known_result (k w)) ->
  known_result (match r with Done w => k w | Throw w => Throw w | Crash => Crash end).
Proof. destruct r; cbn; auto. Qed.
Lemma known_answer w j o : known w -> known_result (lift (sendData w j o)).
Proof. intros K. apply known_lift. intros w' U. eapply known_sendData; eauto. Qed.
Ltac known_step :=
  match goal with
  | |- known_result (match ?m with Some _ => _ | None => Throw _ end) => destruct m as [[? ?]|] eqn:?; [|assumption]
  | |- known_result (if ?b then _ else _) => destruct b eqn:?
  | |- known_result (Throw _) => assumption
  | |- known_result (Done _) => assumption
  | |- known_result Crash => exact I
  end.
Lemma known_connect_packet w j d : known w -> j <> c -> known_result (connect_packet w j d).
Proof.
  intros K N. unfold connect_packet. repeat known_step.
  - apply known_then; [apply known_lift; intros w1 U; eapply known_elsewhere; eauto|]. intros w1 _ K1. now apply known_answer.
  - apply known_then; [apply known_lift; intros w1 U; eapply known_elsewhere; eauto|]. intros w1 _ K1. repeat known_step.
    apply known_then; [destruct o; [apply known_lift; intros w2 U; eapply known_elsewhere; eauto|exact K1]|]. intros w2 _ K2.
    destruct (if Z.testbit z0 7 then _ else _); [|exact K2]. destruct (if Z.testbit z0 6 then _ else _); [|exact K2].
    apply known_then; [apply known_lift; intros w3 U; eapply known_elsewhere; eauto|]. intros w3 _ K3.
    apply known_lift. intros w4 U. eapply known_async; eauto.
Qed.
Lemma known_publish_packet sfx h w j r d : known w -> good w -> known_result (publish_packet sfx h w j r d).
Proof.
  intros K G. unfold publish_packet. destruct (clients w !! j) as [x|]; [|exact I].
  assert (On : forall w t q d, known w -> good w -> known_result (match (match c_version x with V5 => decodeProperties d | V4 => Some (noProperties, d) end) with
    | Some (props, d) => lift (publish sfx h w (mkPacket t (decoder_bytes d) q (Z.testbit (firstByte r) 0) props)) | None => Throw w end)).
  { clear w K G. intros w t q d' K G. known_step. apply known_lift. intros w' U. eapply known_publish; eauto. }
  assert (Sd : forall w w' o, good w -> lift (sendData w j o) = Done w' -> good w').
  { intros v v' o Gv U. pose proof (good_sendData v j o Gv) as R. now rewrite U in R. }
  repeat known_step. destruct (qos_of _); [now apply On| |].
  - known_step. apply known_then; [now apply known_answer|]. intros w' E K'. apply On; eauto.
  - known_step. destruct (persistent x) as [sn|]; [|exact K]. destruct (sessions w !! sn) as [st|] eqn:T; [|exact I].
    apply known_then; [apply known_lift; intros w' U; eapply known_session; [exact K|exact U|]|].
    { intros y Y P -> st' _. cbn. apply elem_of_union_r. destruct K as [_ _ K3]. exact (K3 y st Y P T). }
    intros w1 E1 K1. assert (G1 : good w1).
    { destruct (on_session w sn _) as [v|] eqn:U; [|discriminate]. injection E1 as <-. eapply good_mild; [|exact G]. eapply mild_session; [exact U|now intros []]. }
    apply known_then; [now apply known_answer|]. intros w2 E2 K2. case_bool_decide; [exact K2|]. apply On; eauto.
Qed.
Lemma known_acknowledge w j d act : known w -> good w ->
  (forall v i st d', decode2Bytes d = Some (i, d') -> (j = c -> id ∈ receivingIds st -> id ∈ receivingIds (fst (act v i st)))) ->
  known_result (acknowledge w j d act).
Proof.
  intros K G A. unfold acknowledge. destruct (clients w !! j) as [x|] eqn:X; [|exact I]. destruct (decode2Bytes d) as [[i d']|] eqn:D; [|exact K].
  destruct (reasonAndProperties _ _); [|exact K]. destruct (persistent x) as [sn|] eqn:P; [|exact K].
  destruct (sessions w !! sn) as [st|] eqn:T; [|exact I]. specialize (A (c_version x) i st d' eq_refl). destruct (act _ _ _) as [st' o] eqn:Ac.
  apply known_then; [|intros w1 _ K1; destruct o; [now apply known_answer|exact K1]].
  apply known_lift. intros w' U. eapply known_session; [exact K|exact U|]. intros y Y Py -> st0 _.
  pose proof (linked_has w y st (i_linked _ _ G) Y Py T) as Cu.
  pose proof (plink_of _ _ _ X) as Pl. rewrite P in Pl. destruct (lk_client _ (i_linked _ _ G) _ _ _ Pl) as (_ & q & Sl & _).
  rewrite (slink_of _ _ _ T) in Sl. injection Sl as _ Cu'. rewrite Cu in Cu'. injection Cu' as <-.
  cbn in A. destruct K as [_ _ K3]. apply A; [reflexivity|]. exact (K3 y st Y Py T).
Qed.
Lemma known_topics_packet w j d b : known w -> known_result (topics_packet w j d b).
Proof.
  assert (Sub : forall fuel w d, known w -> known_result (fst (subscribe_topics fuel w j d))).
  { clear w d. induction fuel as [|fuel IH]; intros w d K; [exact I|]. cbn [subscribe_topics].
    destruct (decodeString d) as [[t d1]|]; [|exact K]. destruct (String.eqb t ""); [exact K|].
    destruct (decodeByte d1) as [[q d2]|]; [|exact K]. destruct (3 <=? q); [exact K|]. destruct (clients w !! j) as [x|]; [|exact I].
    destruct (persistent x) as [sn|]; [|exact K]. destruct (request_async _ w) as [w1|] eqn:U; [|exact I].
    assert (K1 : known w1) by (eapply known_async; eauto).
    destruct (decoder_bytes d2); [exact K1|]. specialize (IH w1 d2 K1). destruct (subscribe_topics fuel w1 j d2). exact IH. }
  assert (Uns : forall fuel w d, known w -> known_result (fst (unsubscribe_topics fuel w j d))).
  { clear w d. induction fuel as [|fuel IH]; intros w d K; [exact I|]. cbn [unsubscribe_topics].
    destruct (decodeString d) as [[t d1]|]; [|exact K]. destruct (clients w !! j) as [x|]; [|exact I].
    destruct (persistent x) as [sn|]; [|exact K]. destruct (request_async _ w) as [w1|] eqn:U; [|exact I].
    assert (K1 : known w1) by (eapply known_async; eauto).
    destruct (decoder_bytes d1); [exact K1|]. specialize (IH w1 d1 K1). destruct (unsubscribe_topics fuel w1 j d1). exact IH. }
  intros K. unfold topics_packet. destruct (clients w !! j) as [x|]; [|exact I]. repeat known_step.
  - specialize (Sub (topics_fuel d1) w d1 K). destruct (subscribe_topics _ w j d1) as [r codes]. apply known_then; [exact Sub|].
    intros w1 _ K1. now apply known_answer.
  - specialize (Uns (topics_fuel d1) w d1 K). destruct (unsubscribe_topics _ w j d1) as [r n]. apply known_then; [exact Uns|].
    intros w1 _ K1. now apply known_answer.
Qed.
Lemma known_packet sfx h st w j r : known w -> good w -> (j = c -> st = CONNECTED /\ ~ releases id r) ->
  known_result (handlePacketReceived sfx h st w j r).
Proof.
  intros K G S. unfold handlePacketReceived. destruct st.
  - assert (N : j <> c) by (intros E; now destruct (S E)). destruct (messageType r); try exact K. now apply known_connect_packet.
  - assert (N : j <> c) by (intros E; now destruct (S E)). apply known_lift. intros w' U. eapply known_elsewhere; eauto.
  - destruct (messageType r) eqn:M; repeat known_step; auto using known_publish_packet, known_answer, known_topics_packet.
    all: try (apply known_acknowledge; [exact K|exact G|]; intros v i st d' D E; destruct (S E) as [_ R]; destruct st; cbn; auto).
    + intros Hid. apply elem_of_difference. split; [exact Hid|]. intros Hi%elem_of_singleton. subst i. apply R. split; [exact M|eauto].
    + destruct (clients w !! j) as [x|]; [|exact I]. destruct (match c_version x with V4 => _ | V5 => _ end); [|exact K].
      apply known_then; [|intros; assumption]. apply known_lift. intros w' U. eapply known_client; [exact K|exact U|now intros []; auto].
  - exact K.
Qed.

(** *** Every event *)
Lemma known_emptied w j w' : known w -> on_client w j (set_waiting []) = Some w' -> known w'.
Proof.
  intros [K1 K2 K3] U. apply on_client_inv in U as (x & X & ->). split; [exact K1|..]; cbn [clients sessions with_clients].
  - intros y. rewrite (lookup_updated _ _ _ _ _ X). destruct (decide (j = c)) as [->|]; [|auto]. intros [= <-].
    destruct (K2 x X) as (A & B & _). cbn. auto.
  - intros y st. rewrite (lookup_updated _ _ _ _ _ X). destruct (decide (j = c)) as [->|]; [|apply K3]. intros [= <-] P. exact (K3 x st X P).
Qed.
Lemma known_waiting sfx h j l : (j = c -> List.Forall (fun r => ~ releases id r) l) ->
  forall w, known w -> good w -> known_result (handle_waiting sfx h w j l).
Proof.
  induction l as [|r l IH]; intros F w K G; cbn [handle_waiting].
  - apply known_lift. intros w' U. eapply known_emptied; eauto.
  - apply known_then.
    + apply known_packet; [exact K|exact G|]. intros E. split; [reflexivity|]. specialize (F E). now inversion F.
    + intros w1 E K1. apply IH; [|exact K1|].
      * intros Ej. specialize (F Ej). now inversion F.
      * pose proof (good_packet sfx h CONNECTED w j r G ltac:(discriminate)) as R. now rewrite E in R.
Qed.
Lemma known_all sfx h j l : (j = c -> List.Forall (fun r => ~ releases id r) l) ->
  forall w, known w -> good w -> known_result (handle_all sfx h w j l).
Proof.
  induction l as [|r l IH]; intros F w K G; cbn [handle_all]; [exact K|]. destruct (clients w !! j) as [x|] eqn:X; [|exact I].
  apply known_then.
  - apply known_packet; [exact K|exact G|]. intros ->. split; [apply (kn_client _ K x X)|]. specialize (F eq_refl). now inversion F.
  - intros w1 E K1. apply IH; [|exact K1|].
    + intros Ej. specialize (F Ej). now inversion F.
    + assert (S : c_state x = INITIAL -> st_c w j = Some INITIAL) by (intros Ei; unfold st_c; rewrite X; cbn; now rewrite Ei).
      pose proof (good_packet sfx h (c_state x) w j r G S) as R. now rewrite E in R.
Qed.
Lemma known_readable sfx h now w j l t w' : known w -> good w -> (j = c -> List.Forall (fun r => ~ releases id r) l) ->
  readable sfx h now w j l t = Some w' -> known w'.
Proof.
  intros K G F U. unfold readable in U. destruct (clients w !! j) as [x|] eqn:X; [|discriminate].
  match type of U with match ?r with _ => _ end = _ => assert (R : known_result r); [|destruct r as [w1|w1|]; [injection U as <-; exact R| |discriminate]] end.
  - assert (Fw : j = c -> List.Forall (fun r => ~ releases id r) (waiting x)) by (intros ->; apply (kn_client _ K x X)).
    assert (Gw : forall l w, good w -> good_result (handle_waiting sfx h w j l)).
    { clear. induction l as [|r l IH]; intros w G; cbn [handle_waiting].
      - apply (good_lift_mild w); [exact G|]. intros w' U. eapply mild_client; [exact U|now intros []].
      - apply good_then; [|exact IH]. apply good_packet; [exact G|discriminate]. }
    apply known_then; [now apply known_waiting|]. intros w1 E1 K1. pose proof (Gw (waiting x) w G) as G1. rewrite E1 in G1.
    apply known_then.
    + apply known_lift. intros w2 U2. destruct (match l with [] => _ | _ => _ end); [|injection U2 as <-; exact K1].
      eapply known_client; [exact K1|exact U2|now intros []; auto].
    + intros w2 E2 K2. assert (G2 : good w2).
      { destruct (match l with [] => _ | _ => _ end); [|injection E2 as <-; exact G1]. destruct (on_client w1 j _) as [v|] eqn:U2; [|discriminate].
        injection E2 as <-. eapply good_mild; [|exact G1]. eapply mild_client; [exact U2|now intros []]. }
      apply known_then; [now apply known_all|]. intros w3 _ K3. now destruct t.
  - eapply known_async; eauto.
Qed.
Lemma known_react w e w' : known w -> good w ->
  (forall l t now sfx h, e = Readable c l t now sfx h -> List.Forall (fun r => ~ releases id r) l) -> react w e = Some w' -> known w'.
Proof.
  intros K G F U. destruct e; cbn in U.
  - injection U as <-. now apply known_connect.
  - eapply known_readable; [exact K|exact G| |exact U]. intros ->. exact (F _ _ _ _ _ eq_refl).
  - eapply known_client; [exact K|exact U|now intros []; auto].
  - eapply known_async; eauto.
  - eapply known_work; eauto.
  - eapply known_expire; eauto.
  - injection U as <-. now apply known_sweep.
  - eapply known_publish; eauto.
  - eapply (known_async (Subscribe (Other n) topic0 q)); [exact K|exact U].
  - eapply (known_async (Unsubscribe (Other n) topic0)); [exact K|exact U].
Qed.

(** The PUBLISH itself notes the identifier. *)
Definition logged_in_with (w : world) : Prop := exists x, clients w !! c = Some x /\ c_state x = CONNECTED /\ waiting x = [] /\ persistent x = Some s.
Lemma publish_notes sfx h w r : good w -> logged_in_with w -> publishes id r ->
  known_result (handlePacketReceived sfx h CONNECTED w c r).
Proof.
  intros G (x & X & St & Wt & P) (M & Q & topic & d & d' & D & Ne & D'). unfold handlePacketReceived. rewrite M. unfold publish_packet.
  rewrite X, Q. cbn [Z.leb Z.compare Pos.compare Pos.compare_cont]. rewrite D, (proj2 (String.eqb_neq _ _) Ne).
  change (qos_of 2) with QoS2. cbn iota. rewrite D', P. destruct (sessions w !! s) as [st|] eqn:T; [|exact I].
  destruct (on_session w s _) as [w1|] eqn:U1; [|exact I]. cbn [lift].
  assert (G1 : good w1) by (eapply good_mild; [eapply mild_session; [exact U1|now intros []]|exact G]).
  pose proof U1 as U1'. apply on_session_inv in U1' as (st' & T' & ->). assert (st' = st) as -> by congruence.
  assert (K1 : known (with_sessions w (<[s:=set_receiving ({[id]} ∪ receivingIds st) st]> (sessions w)))).
  { split; cbn [next_client clients sessions with_sessions].
    - apply (lk_new_client _ (i_linked _ _ G)). unfold plink. rewrite X. eauto.
    - intros y. rewrite X. intros [= <-]. rewrite St, Wt, P. auto.
    - intros y st1 _ _. rewrite lookup_insert_eq. intros [= <-]. cbn. set_solver. }
  apply known_then; [now apply known_answer|]. intros w2 E2 K2. case_bool_decide; [exact K2|].
  assert (G2 : good w2) by (pose proof (good_sendData _ c (Pubrec (c_version x) id) G1) as R; now rewrite E2 in R).
  destruct (match c_version x with V4 => _ | V5 => _ end) as [[ps d3]|]; [|exact K2]. apply known_lift. intros w3 U3. eapply known_publish; eauto.
Qed.
Lemma readable_notes sfx h now w r w' : good w -> logged_in_with w -> publishes id r ->
  readable sfx h now w c [r] Nothing = Some w' -> known w'.
Proof.
  intros G (x & X & St & Wt & P) Pu U. unfold readable in U. rewrite X, Wt in U. cbn [handle_waiting lift handle_all] in U.
  rewrite (on_client_at _ _ _ _ X) in U. cbn [lift] in U. erewrite on_client_at in U by apply lookup_insert_eq. cbn [lift] in U.
  set (w1 := with_clients _ _) in U. assert (X1 : clients w1 !! c = Some (set_lastRecv now (set_waiting [] x))) by apply lookup_insert_eq.
  rewrite X1 in U. change (c_state (set_lastRecv now (set_waiting [] x))) with (c_state x) in U. rewrite St in U.
  assert (G1 : good w1).
  { eapply (good_mild w); [|exact G]. eapply mild_trans; [eapply mild_client; [exact (on_client_at w c (set_waiting []) x X)|now intros []]|].
    eapply mild_client; [apply on_client_at; apply lookup_insert_eq|now intros []]. }
  assert (R : known_result (handlePacketReceived sfx h CONNECTED w1 c r)) by (apply publish_notes; [exact G1|eexists; split; [exact X1|auto]|exact Pu]).
  destruct (handlePacketReceived sfx h CONNECTED w1 c r) as [w2|w2|]; cbn in U; [injection U as <-; exact R|eapply known_async; eauto|discriminate].
Qed.
End Known.

(** ** The message is published once *)
(** Events until the client sends a PUBREL with the identifier. *)
Inductive unreleased (c : nat) (id : Z) : world -> world -> Prop :=
| un_now w : unreleased c id w w
| un_then w e w1 w2 : possible w e -> react w e = Some w1 ->
    (forall l t now sfx h, e = Readable c l t now sfx h -> List.Forall (fun r => ~ releases id r) l) ->
    unreleased c id w1 w2 -> unreleased c id w w2.
Lemma unreleased_known c s id w w' : unreleased c id w w' -> reachable w -> known c s id w -> reachable w' /\ known c s id w'.
Proof.
  induction 1 as [w|w e w1 w2 Po U F R IH]; intros Re K; [auto|]. apply IH; [eapply reach_step; eauto|].
  eapply known_react; [exact K|now apply reachable_good|exact F|exact U].
Qed.

(** C34: after a client sent a PUBLISH of QoS 2, and as long as it stays logged in with its
    session and does not send the PUBREL of its identifier, whatever else it and the others do:
    a PUBLISH of QoS 2 with this identifier, be it the same packet or not, is acknowledged and
    not published. *)
Theorem qos2_published_once w c x s id r now sfx h w1 w2 x2 sfx2 h2 r2 : reachable w ->
  clients w !! c = Some x -> c_state x = CONNECTED -> waiting x = [] -> persistent x = Some s -> h <> Mine ->
  publishes id r -> react w (Readable c [r] Nothing now sfx h) = Some w1 -> unreleased c id w1 w2 ->
  clients w2 !! c = Some x2 -> persistent x2 <> None -> publishes id r2 ->
  handlePacketReceived sfx2 h2 (c_state x2) w2 c r2
  = Done (with_clients w2 (<[c := add_sent (Pubrec (c_version x2) id) x2]> (clients w2))).
Proof.
  intros Re X St Wt P Hm Pu U Un X2 P2 (M & Q & topic & d & d' & D & Ne & D').
  assert (K1 : known c s id w1) by (eapply readable_notes; [apply reachable_good, Re|exists x; auto|exact Pu|exact U]).
  assert (R1 : reachable w1) by (eapply reach_step; [exact Re| |exact U]; split; eauto).
  destruct (unreleased_known _ s _ _ _ Un R1 K1) as [R2 [_ K2 K3]]. destruct (K2 x2 X2) as (S2 & [Pn|Ps] & _); [congruence|].
  destruct (reachable_good _ R2) as [L2 _ _].
  pose proof (plink_of _ _ _ X2) as Pl. rewrite Ps in Pl. destruct (lk_client _ L2 _ _ _ Pl) as (_ & cid & Sl & _).
  destruct (sessions w2 !! s) as [st|] eqn:T; [|unfold slink in Sl; now rewrite T in Sl]. pose proof (K3 x2 st X2 Ps eq_refl) as Hid.
  unfold handlePacketReceived. rewrite S2, M. unfold publish_packet. rewrite X2, Q. cbn [Z.leb Z.compare Pos.compare Pos.compare_cont].
  rewrite D, (proj2 (String.eqb_neq _ _) Ne). change (qos_of 2) with QoS2. cbn iota. rewrite D', Ps, T, bool_decide_true by exact Hid.
  erewrite on_session_at by exact T. cbn [lift]. unfold sendData. erewrite on_client_at by exact X2. cbn [lift]. f_equal.
  unfold with_clients, with_sessions. cbn. f_equal. replace (set_receiving _ st) with st; [now rewrite insert_id|].
  destruct st. unfold set_receiving. cbn in *. f_equal. symmetry. apply subseteq_union_1_L. now apply singleton_subseteq_l.
Qed.
End Core.

(** ** Witness *)
Import BrokerDemo.
Definition releasesb (id : Z) (r : recvData) : bool :=
  match messageType r with
  | PUBREL => match decode2Bytes (BinaryDecoder (buffer r)) with Some (i, _) => i =? id | None => false end
  | _ => false
  end.
Lemma releasesb_spec id r : releasesb id r = false -> ~ releases id r.
Proof. unfold releasesb. intros E (M & d & D). rewrite M, D, Z.eqb_refl in E. discriminate. Qed.
Definition keepsb (c : nat) (id : Z) (e : event) : bool :=
  match e with Readable j l _ _ _ _ => negb (Nat.eqb j c) || forallb (fun r => negb (releasesb id r)) l | _ => true end.
Lemma run_unreleased c id es : forall w w', forallb (keepsb c id) es = true -> run w es = Some w' -> unreleased c id w w'.
Proof.
  induction es as [|e es IH]; intros w w' F U; cbn [run forallb] in F, U; [injection U as <-; constructor|].
  apply andb_true_iff in F as [F Fs]. destruct (possibleb w e) eqn:P; [|injection U as <-; constructor].
  destruct (react w e) as [w1|] eqn:V; [|discriminate]. eapply un_then; [apply possibleb_spec, P|exact V| |now apply IH].
  intros l t now sfx h ->. cbn in F. rewrite Nat.eqb_refl in F. apply List.Forall_forall. intros r R.
  cbn in F. rewrite forallb_forall in F. apply releasesb_spec, negb_true_iff, F, R.
Qed.
(** A client publishes with QoS 2; before it releases the identifier it pings, publishes with
    another identifier and releases that, and another client comes and publishes with the
    same identifier in its own session. *)
Definition second_message : recvData := publish_on "t" 2 9 false [4].
Definition meanwhile : list event :=
  ([Readable 1 [mkRecvData 192 PINGREQ []; publish_on "u" 2 10 false [7]; ack_of PUBREL 98 10] Part 3 [] Free] ++
   joins 2 "c" 2 ++ sends 2 (publish_on "t" 2 9 false [8]) ++ sends 2 (ack_of PUBREL 98 9) ++ [Expire 5])%list.
Definition exchange : list event := (joins 0 "a" 0 ++ sends 0 (subscribe_to "t" 1) ++ joins 1 "b" 2)%list.
Definition client_of_index (w : world) (c : nat) : client := match clients w !! c with Some x => x | None => new_client "" 0 end.
Definition first_time : event := Readable 1 [second_message] Nothing 2 [] Free.
Lemma qos2_published_once_witness :
  let w2 := after (exchange ++ first_time :: meanwhile) in
  let x2 := client_of_index w2 1 in
  sent x2 = [Connack V4 false; Pubrec V4 9; Pingresp; Pubrec V4 10; Pubcomp V4 10 true] /\
  handlePacketReceived [] Free (c_state x2) w2 1 second_message
  = Done (with_clients w2 (<[1%nat := add_sent (Pubrec (c_version x2) 9) x2]> (clients w2))).
Proof.
  intros w2 x2. split; [now vm_compute|].
  apply (qos2_published_once (after exchange) 1 (client_of_index (after exchange) 1) 1 9 second_message 2 [] Free
    (after (exchange ++ [first_time])) w2 x2 [] Free second_message); try (now vm_compute); try discriminate.
  - apply after_reachable.
  - split; [reflexivity|]. split; [reflexivity|]. do 3 eexists. split; [now vm_compute|]. split; [discriminate|now vm_compute].
  - apply (run_unreleased 1 9 meanwhile); now vm_compute.
  - split; [reflexivity|]. split; [reflexivity|]. do 3 eexists. split; [now vm_compute|]. split; [discriminate|now vm_compute].
Defined.
End Qos2Facts.
