(* ===== verification/PacketsFacts.v ===== *)
(** Facts about Packets.v: packets are sent whole and in order, a builder's caches do not
    change what it builds, and the receiver finds the packets in the bytes however they are
    cut. *)
From Stdlib Require Import ZArith Lia Bool List Ascii String.
From stdpp Require Import base list gmap strings.
From S2P Require Import Prelude.
From S2P Require Import Broker.
From S2P Require Import Packets.
From S2P Require Import BrokerDemo.
Import ListNotations.
Import Broker Packets.
Open Scope Z_scope.
Open Scope list_scope.

Module PacketsFacts.
Section Facts.
Context `{NioevLib} `{EncoderLib}.

(** ** Receiving *)
Section Receiving.
Context {W : Type} (handle : W -> receiving -> @handled W).
(** A length of four bytes. *)
Lemma four_bytes_refused w b0 b1 b2 b3 b4 rest : 0 < Z.shiftr b0 4 < messageTypes ->
  (Z.land b1 128 =? 0) = false -> (Z.land b2 128 =? 0) = false -> (Z.land b3 128 =? 0) = false ->
  exists r, receive handle w noData (b0 :: b1 :: b2 :: b3 :: b4 :: rest) = Stopped w r.
Proof.
  intros T B1 B2 B3. unfold receive. replace (2 * List.length _ + 1)%nat with (S (S (S (S (S (2 * List.length rest + 6)))))) by (cbn; lia).
  cbn [receive_loop noData recv_state]. rewrite (proj2 (Z.leb_gt _ _)), (proj2 (Z.eqb_neq _ _)) by lia.
  cbn -[Z.land uint32 Nat.mul Nat.add]. unfold uint32. cbn -[Z.land Z.mul Z.add Z.modulo Nat.mul Nat.add]. rewrite B1, B2, B3. cbn -[Z.land Z.mul Z.add Z.modulo Nat.mul Nat.add]. eauto.
Qed.
(** The receiver as it would be if it took the bytes one at a time. *)
Definition start (w : W) (b : Z) : outcome :=
  if (messageTypes <=? Z.shiftr b 4) || (Z.shiftr b 4 =? 0) then Stopped w noData
  else Received w (mkReceiving [] RECEIVING_VAR_LENGTH (Z.shiftr b 4) 0 1 b).
Definition missing (r : receiving) : Z := packetLength r - Z.of_nat (List.length (currentReceiveBuffer r)).
Definition receive_byte (w : W) (r : receiving) (b : Z) : outcome :=
  match recv_state r with
  | IDLE => start w b
  | RECEIVING_VAR_LENGTH =>
      let '(r, ok) := receive_length r b in
      if negb ok then Stopped w r
      else if Z.land b 128 =? 0 then
        if packetLength r =? 0 then let r := set_recv_state r IDLE in then_ (handle w r) r (fun w => Received w r)
        else Received w (set_recv_state r RECEIVING_DATA)
      else Received w r
  | RECEIVING_DATA =>
      if missing r =? 0 then then_ (handle w r) r (fun w => start w b)
      else
        let r := receive_bytes r [b] in
        if missing r =? 0 then then_ (handle w r) r (fun w => Received w (set_recv_state r IDLE)) else Received w r
  end.
Fixpoint receive_each (w : W) (r : receiving) (bytes : list Z) : outcome :=
  match bytes with
  | [] => Received w r
  | b :: rest => match receive_byte w r b with Received w r => receive_each w r rest | o => o end
  end.
(** The buffer never holds more than the packet, which the code asserts, and nothing while
    the length arrives. *)
Definition fits (r : receiving) : Prop :=
  match recv_state r with
  | IDLE => True
  | RECEIVING_VAR_LENGTH => currentReceiveBuffer r = []
  | RECEIVING_DATA => 0 <= missing r
  end.
Definition stuck (r : receiving) : nat := match recv_state r with RECEIVING_DATA => if missing r =? 0 then 1 else 0 | _ => 0 end.
Lemma missing_bytes r l : missing (receive_bytes r l) = missing r - Z.of_nat (List.length l).
Proof. unfold missing. cbn. rewrite length_app. lia. Qed.
Lemma bytes_app r l l' : receive_bytes (receive_bytes r l) l' = receive_bytes r (l ++ l').
Proof. unfold receive_bytes. cbn. now rewrite app_assoc. Qed.
Lemma bytes_nil r : receive_bytes r [] = r.
Proof. unfold receive_bytes. rewrite app_nil_r. now destruct r. Qed.
(** The bytes of a packet taken together. *)
Lemma each_bulk w r l : forall rest, recv_state r = RECEIVING_DATA -> (0 < List.length l)%nat -> Z.of_nat (List.length l) <= missing r ->
  receive_each w r (l ++ rest) =
    if missing (receive_bytes r l) =? 0 then then_ (handle w (receive_bytes r l)) (receive_bytes r l)
      (fun w => receive_each w (set_recv_state (receive_bytes r l) IDLE) rest)
    else receive_each w (receive_bytes r l) rest.
Proof.
  revert r. induction l as [|b l IH]; intros r rest S L M; [cbn in L; lia|]. cbn [app receive_each]. unfold receive_byte. rewrite S.
  cbn [List.length] in M. rewrite (proj2 (Z.eqb_neq _ _)) by lia. cbv zeta. destruct l as [|b' l].
  - cbn [app]. destruct (missing (receive_bytes r [b]) =? 0); [|reflexivity]. now destruct (handle w (receive_bytes r [b])).
  - rewrite (proj2 (Z.eqb_neq _ _)) by (rewrite missing_bytes; cbn [List.length] in *; lia).
    rewrite IH; [|exact S|cbn; lia|rewrite missing_bytes; cbn [List.length] in *; lia]. now rewrite bytes_app.
Qed.
Lemma full_missing r : (Z.of_nat (List.length (currentReceiveBuffer r)) =? packetLength r) = (missing r =? 0).
Proof. unfold missing. destruct (Z.eqb_spec (Z.of_nat (List.length (currentReceiveBuffer r))) (packetLength r)), (Z.eqb_spec (packetLength r - Z.of_nat (List.length (currentReceiveBuffer r))) 0); auto; lia. Qed.
Lemma fits_after w r b w' r' : fits r -> receive_byte w r b = Received w' r' -> fits r' /\ stuck r' = O.
Proof.
  intros F. unfold receive_byte, fits, stuck in *. destruct (recv_state r) eqn:S.
  - unfold start. destruct (_ || _); [discriminate|]. intros [= _ <-]. cbn. auto.
  - destruct (receive_length r b) as [r1 ok] eqn:E. unfold receive_length in E. injection E as E <-.
    assert (S1 : recv_state r1 = RECEIVING_VAR_LENGTH) by (subst r1; exact S).
    assert (B1 : currentReceiveBuffer r1 = []) by (subst r1; exact F).
    assert (P1 : 0 <= packetLength r1) by (subst r1; cbn; apply Z.mod_pos_bound; lia). clear E.
    destruct (negb _); [discriminate|]. destruct (Z.land b 128 =? 0); [|intros [= _ <-]; rewrite S1; auto].
    destruct (Z.eqb_spec (packetLength r1) 0) as [E|N]; cbv zeta.
    + unfold then_. destruct (handle w _); [|discriminate]. intros [= _ <-]. cbn. auto.
    + intros [= _ <-]. cbn [recv_state set_recv_state]. unfold missing. cbn [packetLength currentReceiveBuffer set_recv_state]. rewrite B1. cbn [List.length].
      rewrite (proj2 (Z.eqb_neq _ _)) by lia. split; [lia|reflexivity].
  - destruct (Z.eqb_spec (missing r) 0) as [E|N].
    + unfold then_, start. destruct (handle w r); [|discriminate]. destruct (_ || _); [discriminate|]. intros [= _ <-]. cbn. auto.
    + cbv zeta. destruct (Z.eqb_spec (missing (receive_bytes r [b])) 0) as [E|N'].
      * unfold then_. destruct (handle w _); [|discriminate]. intros [= _ <-]. cbn. auto.
      * intros [= _ <-]. cbn [recv_state receive_bytes]. rewrite S. rewrite missing_bytes in *. cbn [List.length] in *.
        rewrite (proj2 (Z.eqb_neq _ _)) by lia. split; [lia|reflexivity].
Qed.
(** The loop is the receiver that takes the bytes one at a time. *)
Lemma loop_each fuel : forall w r bytes, fits r -> (List.length bytes + stuck r <= fuel)%nat ->
  receive_loop handle fuel w r bytes = receive_each w r bytes.
Proof.
  induction fuel as [|fuel IH]; intros w r bytes F L; [destruct bytes; [reflexivity|cbn in L; lia]|].
  destruct bytes as [|b rest]; [reflexivity|]. cbn [List.length] in L.
  assert (Nx : forall w1 r1, receive_byte w r b = Received w1 r1 -> receive_loop handle fuel w1 r1 rest = receive_each w1 r1 rest).
  { intros w1 r1 U. destruct (fits_after _ _ _ _ _ F U) as [F1 S1]. apply IH; [exact F1|lia]. }
  cbn [receive_loop]. destruct (recv_state r) eqn:S.
  - cbn [receive_each]. unfold receive_byte in Nx |- *. rewrite S in Nx |- *. unfold start in *. destruct (_ || _); [reflexivity|]. now apply Nx.
  - cbn [receive_each]. unfold receive_byte in Nx |- *. rewrite S in Nx |- *. destruct (receive_length r b) as [r' ok].
    destruct (negb ok); [reflexivity|]. destruct (Z.land b 128 =? 0); [|now apply Nx].
    destruct (packetLength r' =? 0); [|now apply Nx]. cbv zeta in *. unfold then_ in *. destruct (handle w _); [now apply Nx|reflexivity].
  - unfold fits, stuck in F, L. rewrite S in F, L. unfold missing in F.
    destruct (Z.eqb_spec (missing r) 0) as [E|N].
    + unfold missing in E. rewrite E. change (Z.to_nat 0) with 0%nat. cbn [Nat.leb List.length take drop Z.of_nat]. rewrite bytes_nil, full_missing.
      unfold missing. rewrite E. cbn [Z.eqb]. cbn [receive_each]. unfold receive_byte, missing. rewrite S, E. cbn [Z.eqb]. unfold then_.
      destruct (handle w r) as [w1|w1]; [|reflexivity]. rewrite IH; [reflexivity|exact I|cbn [stuck recv_state set_recv_state List.length]; lia].
    + set (m := Z.to_nat _). set (n := if Nat.leb _ m then _ else m).
      assert (Hn : (0 < n <= List.length (b :: rest))%nat /\ Z.of_nat n <= missing r).
      { unfold missing in *. unfold n. destruct (Nat.leb_spec (List.length (b :: rest)) m); cbn [List.length] in *; subst m; lia. }
      replace (receive_each w r (b :: rest)) with (receive_each w r (take n (b :: rest) ++ drop n (b :: rest))) by (now rewrite take_drop).
      rewrite full_missing.
      rewrite each_bulk; [|exact S|rewrite length_take; lia|rewrite length_take; lia].
      assert (Ld : (List.length (drop n (b :: rest)) <= fuel)%nat) by (rewrite length_drop; cbn [List.length]; lia).
      destruct (Z.eqb_spec (missing (receive_bytes r (take n (b :: rest)))) 0) as [E|N'].
      * unfold then_. destruct (handle w _) as [w1|w1]; [|reflexivity]. apply IH; [exact I|]. cbn [stuck recv_state set_recv_state]. lia.
      * apply IH; unfold fits, stuck; cbn [recv_state receive_bytes]; rewrite S.
        -- rewrite missing_bytes, length_take. lia.
        -- fold (receive_bytes r (take n (b :: rest))). rewrite (proj2 (Z.eqb_neq _ _)) by exact N'. lia.
Qed.
Lemma receive_is_each w r bytes : fits r -> receive handle w r bytes = receive_each w r bytes.
Proof.
  intros F. destruct bytes as [|b rest]; [reflexivity|]. apply loop_each; [exact F|]. unfold stuck. destruct (recv_state r); cbn [List.length]; try lia.
  destruct (_ =? _); lia.
Qed.
Lemma each_app w r l l' : receive_each w r (l ++ l') = match receive_each w r l with Received w r => receive_each w r l' | o => o end.
Proof.
  revert w r. induction l as [|b l IH]; intros w r; [reflexivity|]. cbn [app receive_each]. destruct (receive_byte w r b); [apply IH|reflexivity].
Qed.
Lemma fits_each w r l w' r' : fits r -> receive_each w r l = Received w' r' -> fits r'.
Proof.
  revert w r. induction l as [|b l IH]; intros w r F U; cbn [receive_each] in U; [injection U as _ <-; exact F|].
  destruct (receive_byte w r b) as [w1 r1|] eqn:E; [|discriminate]. eapply IH; [|exact U]. now destruct (fits_after _ _ _ _ _ F E).
Qed.

(** *** Frames *)
(** The length of a packet as MQTT writes it, below 128 ^ 3. *)
Definition varint (n : Z) : list Z :=
  if n <? 128 then [n]
  else if n <? 16384 then [n mod 128 + 128; n / 128]
  else [n mod 128 + 128; (n / 128) mod 128 + 128; n / 16384].
Definition frame (p : Z * list Z) : list Z := (fst p :: varint (Z.of_nat (List.length (snd p)))) ++ snd p.
(** The packet that a frame holds, as the handler gets it. *)
Definition arrived (p : Z * list Z) : receiving :=
  let n := Z.of_nat (List.length (snd p)) in
  mkReceiving (snd p) (match snd p with [] => IDLE | _ => RECEIVING_DATA end) (Z.shiftr (fst p) 4) n
    (if n <? 128 then 128 else if n <? 16384 then 16384 else 2097152) (fst p).
Fixpoint handle_each (w : W) (r : receiving) (ps : list (Z * list Z)) : outcome :=
  match ps with
  | [] => Received w r
  | p :: rest => then_ (handle w (arrived p)) (arrived p) (fun w => handle_each w (set_recv_state (arrived p) IDLE) rest)
  end.
Definition valid (p : Z * list Z) : Prop :=
  0 < Z.shiftr (fst p) 4 < messageTypes /\ Z.of_nat (List.length (snd p)) < 128 * 128 * 128.
Definition with_length (r : receiving) (n m : Z) : receiving :=
  mkReceiving (currentReceiveBuffer r) (recv_state r) (messageTypeId r) n m (r_firstByte r).
Lemma land_127 n : 0 <= n < 128 -> Z.land n 127 = n /\ Z.land (n + 128) 127 = n /\ Z.land n 128 = 0 /\ Z.land (n + 128) 128 = 128.
Proof.
  intros B. change 127 with (Z.ones 7). rewrite !Z.land_ones by lia. change (2 ^ 7) with 128.
  rewrite Z.mod_small by lia. rewrite <- Z.add_mod_idemp_r by lia. change (128 mod 128) with 0. rewrite Z.add_0_r, Z.mod_small by lia.
  assert (Z0 : Z.land n 128 = 0).
  { apply Z.bits_inj'. intros k K. rewrite Z.land_spec, Z.bits_0. change 128 with (2 ^ 7). rewrite Z.pow2_bits_eqb by lia.
    destruct (Z.eqb_spec 7 k) as [<-|]; [|apply andb_false_r]. rewrite andb_true_r. apply Z.bits_above_log2; [lia|].
    destruct (Z.eq_dec n 0) as [->|]; [cbn; lia|]. apply Z.log2_lt_pow2; lia. }
  split_and!; auto.
  rewrite (Z.add_nocarry_lxor n 128 Z0), (Z.lxor_lor _ _ Z0), Z.land_lor_distr_l, Z0. reflexivity.
Qed.
Lemma length_step r b acc m : 0 <= b < 128 -> packetLength r = acc -> multiplier r = m -> 0 <= acc -> acc + b * m < 4294967296 ->
  0 < m <= 16384 ->
  receive_length r b = (with_length r (acc + b * m) (m * 128), true) /\
  receive_length r (b + 128) = (with_length r (acc + b * m) (m * 128), true).
Proof.
  intros B <- <- A L M. destruct (land_127 _ B) as (E1 & E2 & _). unfold receive_length. rewrite E1, E2. unfold uint32.
  rewrite !Z.mod_small by nia. cbn [multiplier]. rewrite (proj2 (Z.ltb_ge _ _)) by lia. split; reflexivity.
Qed.
Lemma more_bytes w r n m b rest : 0 <= b < 128 -> recv_state r = RECEIVING_VAR_LENGTH -> receive_length r (b + 128) = (with_length r n m, true) ->
  receive_each w r ((b + 128) :: rest) = receive_each w (with_length r n m) rest.
Proof.
  intros B S E. destruct (land_127 _ B) as (_ & _ & _ & E4). cbn [receive_each]. unfold receive_byte. rewrite S, E. cbn [negb]. rewrite E4. reflexivity.
Qed.
Lemma last_byte w r n m b rest : 0 <= b < 128 -> recv_state r = RECEIVING_VAR_LENGTH -> receive_length r b = (with_length r n m, true) ->
  receive_each w r (b :: rest) =
    if n =? 0 then then_ (handle w (set_recv_state (with_length r n m) IDLE)) (set_recv_state (with_length r n m) IDLE)
                     (fun w => receive_each w (set_recv_state (with_length r n m) IDLE) rest)
    else receive_each w (set_recv_state (with_length r n m) RECEIVING_DATA) rest.
Proof.
  intros B S E. destruct (land_127 _ B) as (_ & _ & E3 & _). cbn [receive_each]. unfold receive_byte. rewrite S, E. cbn [negb]. rewrite E3. cbn [Z.eqb].
  change (packetLength (with_length r n m)) with n. destruct (n =? 0); [|reflexivity]. cbv zeta. now destruct (handle w _).
Qed.
Definition last_multiplier (n : Z) : Z := if n <? 128 then 128 else if n <? 16384 then 16384 else 2097152.
Lemma varint_received w r n rest : recv_state r = RECEIVING_VAR_LENGTH -> packetLength r = 0 -> multiplier r = 1 -> 0 <= n < 128 * 128 * 128 ->
  let r' := with_length r n (last_multiplier n) in
  receive_each w r (varint n ++ rest) =
    if n =? 0 then then_ (handle w (set_recv_state r' IDLE)) (set_recv_state r' IDLE) (fun w => receive_each w (set_recv_state r' IDLE) rest)
    else receive_each w (set_recv_state r' RECEIVING_DATA) rest.
Proof.
  intros S P M B. unfold varint, last_multiplier. destruct (Z.ltb_spec n 128) as [L|L]; [|destruct (Z.ltb_spec n 16384) as [L2|L2]]; cbn [app].
  - apply last_byte; [lia|exact S|]. destruct (length_step r n 0 1) as [E _]; auto; try lia. rewrite E. do 2 f_equal. lia.
  - pose proof (Z.div_mod n 128 ltac:(lia)) as D. pose proof (Z.mod_pos_bound n 128 ltac:(lia)) as B1.
    assert (B2 : 0 <= n / 128 < 128) by (split; [apply Z.div_pos; lia|apply Z.div_lt_upper_bound; lia]).
    destruct (length_step r (n mod 128) 0 1) as [_ E]; auto; try lia. rewrite (more_bytes _ _ _ _ _ _ B1 S E).
    apply (last_byte _ (with_length r (0 + n mod 128 * 1) (1 * 128))); [exact B2|exact S|]. destruct (length_step (with_length r (0 + n mod 128 * 1) (1 * 128)) (n / 128) (n mod 128) 128) as [E2 _]; auto; try (cbn; lia).
    rewrite E2. unfold with_length. cbn. do 2 f_equal. lia.
  - pose proof (Z.div_mod n 128 ltac:(lia)) as D. pose proof (Z.mod_pos_bound n 128 ltac:(lia)) as B1.
    pose proof (Z.div_mod (n / 128) 128 ltac:(lia)) as D2. pose proof (Z.mod_pos_bound (n / 128) 128 ltac:(lia)) as B2.
    assert (E16 : n / 16384 = n / 128 / 128) by (rewrite Z.div_div by lia; reflexivity).
    assert (B3 : 0 <= n / 16384 < 128) by (split; [apply Z.div_pos; lia|apply Z.div_lt_upper_bound; lia]).
    destruct (length_step r (n mod 128) 0 1) as [_ E]; auto; try lia. rewrite (more_bytes _ _ _ _ _ _ B1 S E).
    destruct (length_step (with_length r (0 + n mod 128 * 1) (1 * 128)) ((n / 128) mod 128) (n mod 128) 128) as [_ E2]; auto; try (cbn; lia).
    rewrite (more_bytes _ (with_length r (0 + n mod 128 * 1) (1 * 128)) _ _ _ _ B2 S E2).
    match goal with |- receive_each _ ?r2 _ = _ => apply (last_byte _ r2 n 2097152) end; [exact B3|exact S|].
    match goal with |- receive_length ?r2 _ = _ => destruct (length_step r2 (n / 16384) (n mod 128 + (n / 128) mod 128 * 128) 16384) as [E3 _]; auto; try (cbn; lia) end.
    rewrite E3. unfold with_length. cbn. do 2 f_equal. lia.
Qed.
Lemma frame_received w r p rest : recv_state r = IDLE -> valid p ->
  receive_each w r (frame p ++ rest) = then_ (handle w (arrived p)) (arrived p) (fun w => receive_each w (set_recv_state (arrived p) IDLE) rest).
Proof.
  intros S [V L]. destruct p as [b l]. unfold frame. cbn [fst snd] in *. cbn [app receive_each]. unfold receive_byte. rewrite S. unfold start.
  rewrite (proj2 (Z.leb_gt _ _)), (proj2 (Z.eqb_neq _ _)) by lia. cbn [orb]. rewrite <- app_assoc.
  rewrite varint_received; [|reflexivity|reflexivity|reflexivity|lia]. cbv zeta. unfold arrived. cbn [fst snd]. destruct l as [|b' l].
  - reflexivity.
  - rewrite (proj2 (Z.eqb_neq _ _)) by (cbn [List.length]; lia).
    set (r1 := set_recv_state _ RECEIVING_DATA).
    assert (Ms : missing r1 = Z.of_nat (List.length (b' :: l))) by (unfold missing, r1; cbn [currentReceiveBuffer packetLength set_recv_state with_length List.length]; lia).
    rewrite each_bulk; [|reflexivity|cbn [List.length]; lia|rewrite Ms; lia].
    rewrite missing_bytes, Ms, Z.sub_diag. reflexivity.
Qed.
Lemma frames_received ps : forall w r, recv_state r = IDLE -> List.Forall valid ps ->
  receive_each w r (List.concat (List.map frame ps)) = handle_each w r ps.
Proof.
  induction ps as [|p ps IH]; intros w r S F; [reflexivity|]. inversion F; subst. cbn [List.map List.concat handle_each].
  rewrite frame_received by auto. unfold then_. destruct (handle w (arrived p)) as [w1|w1]; [|reflexivity]. now apply IH.
Qed.

Lemma frames_received_cut w r ps chunks : recv_state r = IDLE -> List.Forall valid ps -> List.concat chunks = List.concat (List.map frame ps) ->
  receive_all handle w r chunks = handle_each w r ps.
Proof.
  intros S V E. rewrite <- frames_received by auto. rewrite <- E. clear E V.
  assert (F : fits r) by (unfold fits; now rewrite S). clear S. revert w r F. induction chunks as [|c chunks IH]; intros w r F; [reflexivity|].
  cbn [receive_all List.concat]. rewrite receive_is_each by exact F. rewrite each_app. destruct (receive_each w r c) as [w1 r1|] eqn:U; [|reflexivity].
  apply IH. eapply fits_each; eauto.
Qed.

(** However the bytes that arrive are cut into pieces, the receiver handles exactly the
    packets in them, each once and in order: pieces that make up the frames of a list of
    packets, with a known type and a length below 128 ^ 3, hand the packets one by one to the
    handler until it throws, and leave nothing over. *)
Theorem frames_found w r ps chunks : recv_state r = IDLE -> List.Forall valid ps -> List.concat chunks = List.concat (List.map frame ps) ->
  receive_all handle w r chunks = handle_each w r ps.
Proof. apply frames_received_cut. Qed.
End Receiving.

(** ** Sending *)
(** The bytes of a packet. *)
Definition prelude_bytes (p : encodedPacket) : list Z := take (preludeLength p) (p_firstByte p :: varLength p).
Definition id_bytes (p : encodedPacket) : list Z := match packetId p with Some id => id | None => [] end.
Definition bytes_of (p : encodedPacket) : list Z := prelude_bytes p ++ middle p ++ id_bytes p ++ end_ p.
(** A packet as the functions make them. *)
Record well_made (p : encodedPacket) : Prop := {
  wm_prelude : (0 < preludeLength p <= 5)%nat;
  wm_length : List.length (varLength p) = 4%nat;
  wm_id : match packetId p with Some id => List.length id = 2%nat /\ kind_of p = Full | None => kind_of p <> Full end;
  wm_parts : match kind_of p with
             | SingleByteWithLen => middle p = [] /\ end_ p = []
             | SingleByteWithLenAndMiddle => end_ p = []
             | _ => True end }.
Lemma length_prelude p : well_made p -> List.length (prelude_bytes p) = preludeLength p.
Proof. intros [P L _ _]. unfold prelude_bytes. rewrite length_take. cbn [List.length]. lia. Qed.
Lemma length_bytes_of p : well_made p -> List.length (bytes_of p) = fullSize p.
Proof.
  intros Wm. unfold bytes_of, fullSize. rewrite !length_app, length_prelude by exact Wm. destruct Wm as [_ _ Id _]. unfold id_bytes.
  destruct (packetId p); cbn [List.length]; [|lia]. destruct Id. lia.
Qed.
Lemma prelude_from_spec p k : prelude_from p k = drop k (prelude_bytes p).
Proof. unfold prelude_from, prelude_bytes. now rewrite skipn_firstn_comm. Qed.
Lemma from_spec k l : (k <= List.length l)%nat -> from k l = Some (drop k l).
Proof. intros L. unfold from. now rewrite (proj2 (Nat.leb_le _ _)). Qed.
Lemma drop_behind {A} k (l l' : list A) : (List.length l <= k)%nat -> drop k (l ++ l') = drop (k - List.length l) l'.
Proof. intros L. rewrite drop_app. rewrite (drop_ge l) by exact L. reflexivity. Qed.
Lemma drop_inside {A} k (l l' : list A) : (k <= List.length l)%nat -> drop k (l ++ l') = drop k l ++ l'.
Proof. intros L. rewrite drop_app. replace (k - List.length l)%nat with 0%nat by lia. reflexivity. Qed.
(** An offset that splits the identifier of a packet. *)
Definition splits (p : encodedPacket) (k : nat) : Prop :=
  kind_of p = Full /\ k = (preludeLength p + List.length (middle p) + 1)%nat.
Lemma constructIOVecs_spec p k : well_made p -> (k < fullSize p)%nat ->
  match constructIOVecs p k with
  | Some vs => ~ splits p k /\ List.concat vs = drop k (bytes_of p)
  | None => splits p k
  end.
Proof.
  intros Wm L. pose proof (length_prelude p Wm) as Lp. destruct Wm as [P _ Id Pa]. unfold constructIOVecs, splits, bytes_of, fullSize in *. unfold id_bytes in *.
  rewrite prelude_from_spec. destruct (kind_of p).
  - destruct Pa as [Em Ee]. rewrite Em, Ee in *. destruct (packetId p) as [id|]; [now destruct Id|]. cbn [List.length] in L.
    rewrite (proj2 (Nat.ltb_lt _ _)) by lia. split; [now intros []|]. cbn. now rewrite !app_nil_r.
  - destruct (packetId p) as [id|]; [now destruct Id|]. rewrite Pa in *. cbn [List.length] in L. destruct (Nat.ltb_spec k (preludeLength p)).
    + split; [now intros []|]. cbn. rewrite drop_inside by lia. reflexivity.
    + rewrite from_spec by lia. split; [now intros []|]. cbn. rewrite drop_behind, Lp by lia. now rewrite !app_nil_r.
  - destruct (packetId p) as [id|]; [now destruct Id|]. cbn [app]. destruct (Nat.ltb_spec k (preludeLength p)).
    + split; [now intros []|]. cbn. rewrite drop_inside by lia. now rewrite app_nil_r.
    + destruct (Nat.ltb_spec k (preludeLength p + List.length (middle p))).
      * rewrite from_spec by lia. split; [now intros []|]. cbn. rewrite drop_behind, Lp by lia. rewrite drop_inside by lia. now rewrite app_nil_r.
      * rewrite from_spec by lia. split; [now intros []|]. cbn. rewrite drop_behind, Lp by lia. rewrite drop_behind by lia. now rewrite app_nil_r.
  - destruct (packetId p) as [id|]; [|now destruct Id]. destruct Id as [Li _]. destruct (Nat.ltb_spec k (preludeLength p)).
    + split; [intros [_ E]; lia|]. cbn. rewrite drop_inside by lia. now rewrite app_nil_r.
    + destruct (Nat.ltb_spec k (preludeLength p + List.length (middle p))).
      * rewrite from_spec by lia. split; [intros [_ E]; lia|]. cbn. rewrite drop_behind, Lp by lia. rewrite drop_inside by lia. now rewrite app_nil_r.
      * destruct (Nat.ltb_spec k (preludeLength p + List.length (middle p) + 2)).
        -- destruct (Nat.eqb_spec (k - preludeLength p - List.length (middle p)) 0) as [E|N]; [|split; [reflexivity|lia]].
           split; [intros [_ E']; lia|]. cbn. rewrite drop_behind, Lp by lia. rewrite drop_behind, E by lia. now rewrite app_nil_r.
        -- rewrite from_spec by lia. split; [intros [_ E]; lia|]. cbn. rewrite drop_behind, Lp by lia. rewrite drop_behind by lia.
           rewrite drop_behind by lia. rewrite Li. now rewrite app_nil_r.
Qed.
(** The queue of a connection. *)
Definition remaining (t : inTransit) : list Z := drop (offset t) (bytes_of (packet_of t)).
Definition pending (t : inTransit) : Prop := well_made (packet_of t) /\ (offset t < fullSize (packet_of t))%nat.
Lemma length_remaining t : pending t -> List.length (remaining t) = (fullSize (packet_of t) - offset t)%nat.
Proof. intros [Wm _]. unfold remaining. rewrite length_drop. now rewrite length_bytes_of. Qed.
Definition all_remaining (ps : list inTransit) : list Z := List.concat (List.map remaining ps).
Lemma remaining_app l l' : all_remaining (l ++ l') = all_remaining l ++ all_remaining l'.
Proof. unfold all_remaining. now rewrite List.map_app, List.concat_app. Qed.
Lemma vectors_spec ps l : List.Forall pending ps -> vectors ps = Some l -> l = all_remaining ps.
Proof.
  revert l. induction ps as [|t ps IH]; intros l F U; cbn [vectors] in U; [now injection U as <-|]. inversion F as [|? ? [Wm O] F']; subst.
  pose proof (constructIOVecs_spec _ _ Wm O) as V. destruct (constructIOVecs _ _) as [vs|]; [|discriminate]. destruct V as [_ V].
  destruct (vectors ps) as [l'|]; [|discriminate]. injection U as <-. unfold all_remaining. cbn [List.map List.concat]. rewrite V. f_equal. now apply IH.
Qed.
Lemma done_remaining p : well_made p -> remaining (mkTransit p (fullSize p)) = [].
Proof. intros Wm. unfold remaining. cbn. apply drop_ge. now rewrite length_bytes_of. Qed.
(** What was taken is no longer there. *)
Lemma advance_sent_spec ps n : List.Forall pending ps -> all_remaining (advance_sent ps n) = drop n (all_remaining ps).
Proof.
  revert n. induction ps as [|t ps IH]; intros n F; cbn [advance_sent]; [now destruct n|]. inversion F as [|? ? Pe F']; subst.
  pose proof (length_remaining t Pe) as Lr. destruct Pe as [Wm O]. unfold all_remaining in *. destruct (Nat.leb_spec (fullSize (packet_of t) - offset t) n).
  - cbn [List.map List.concat]. rewrite done_remaining by exact Wm. cbn [app]. rewrite IH by exact F'. rewrite drop_behind by lia. now rewrite Lr.
  - cbn [List.map List.concat]. rewrite drop_inside by lia. f_equal. unfold remaining. cbn. now rewrite drop_drop.
Qed.
Lemma drop_done_spec ps : List.Forall (fun t => well_made (packet_of t) /\ (offset t <= fullSize (packet_of t))%nat) ps ->
  all_remaining (drop_done ps) = all_remaining ps.
Proof.
  induction 1 as [|t ps [Wm L] F IH]; [reflexivity|]. cbn [drop_done]. unfold isDone. destruct (Nat.leb_spec (fullSize (packet_of t)) (offset t)); [|reflexivity].
  rewrite IH. unfold all_remaining. cbn. replace (remaining t) with (@nil Z); [reflexivity|]. symmetry. unfold remaining. apply drop_ge.
  rewrite length_bytes_of by exact Wm. lia.
Qed.
Lemma drop_done_pending ps rest n : List.Forall pending ps -> List.Forall pending rest -> List.Forall pending (drop_done (advance_sent ps n ++ rest)).
Proof.
  intros F R. revert n. assert (Nd : forall l, List.Forall pending l -> drop_done l = l).
  { intros l [|t l' [_ O] _]; [reflexivity|]. cbn. unfold isDone. now rewrite (proj2 (Nat.leb_gt _ _)). }
  induction F as [|t ps Pe F IH]; intros n; cbn [advance_sent app]; [now rewrite Nd|]. pose proof Pe as [Wm O].
  destruct (Nat.leb_spec (fullSize (packet_of t) - offset t) n).
  - cbn [app drop_done]. unfold isDone at 1. cbn. rewrite Nat.leb_refl. apply IH.
  - cbn [app drop_done]. unfold isDone at 1. cbn. rewrite (proj2 (Nat.leb_gt _ _)) by lia. constructor; [split; [exact Wm|cbn; lia]|].
    apply Forall_app; auto.
Qed.
Lemma advance_bounded ps n : List.Forall pending ps -> List.Forall (fun t => well_made (packet_of t) /\ (offset t <= fullSize (packet_of t))%nat) (advance_sent ps n).
Proof.
  intros F. revert n. induction F as [|t ps [Wm O] F IH]; intros n; cbn [advance_sent]; [constructor|]. destruct (Nat.leb_spec (fullSize (packet_of t) - offset t) n).
  - constructor; [split; [exact Wm|cbn; lia]|apply IH].
  - constructor; [split; [exact Wm|cbn; lia]|]. eapply List.Forall_impl; [|exact F]. intros a [A B]. split; [exact A|lia].
Qed.
(** What happens to the sending half of a connection: a packet is sent, or the socket
    becomes writable; with the answer that [sendmsg] gives if it is called. *)
Inductive happening := Send (p : encodedPacket) (a : answer) | Writable (invalidVersion : bool) (a : answer).
Fixpoint happen (s : sender) (hs : list happening) : option sender :=
  match hs with
  | [] => Some s
  | Send p a :: rest => match sendData s p a with Some s => happen s rest | None => None end
  | Writable b a :: rest => match writable b s a with Some (s, _) => happen s rest | None => None end
  end.
Definition packets_of (hs : list happening) : list encodedPacket :=
  List.flat_map (fun h => match h with Send p _ => [p] | Writable _ _ => [] end) hs.
(** Nothing was lost: what was sent and what is queued are the packets so far. *)
Definition in_order (s : sender) (l : list Z) : Prop :=
  List.Forall pending (sendTasks s) /\ (sendFailed s = false -> wire s ++ all_remaining (sendTasks s) = l).
Lemma fresh_pending p : well_made p -> pending (mkTransit p 0).
Proof. intros Wm. split; [exact Wm|]. cbn. destruct Wm as [P _ _ _]. unfold fullSize. lia. Qed.
Lemma fresh_remaining p : all_remaining [mkTransit p 0] = bytes_of p.
Proof. unfold all_remaining, remaining. cbn. now rewrite app_nil_r. Qed.
Lemma scattered_order ps a ps' bytes : List.Forall pending ps -> sendScatter ps a = Wrote ps' bytes ->
  List.Forall pending (drop_done ps') /\ bytes ++ all_remaining (drop_done ps') = all_remaining ps.
Proof.
  intros F U. unfold sendScatter in U. pose proof F as F'. rewrite <- (take_drop atOnce ps) in F'. apply Forall_app in F' as [F1 F2].
  destruct (vectors (take atOnce ps)) as [l|] eqn:V; [|discriminate]. apply vectors_spec in V; [|exact F1]. subst l. destruct a as [n| | |]; try discriminate.
  - injection U as <- <-. split; [now apply drop_done_pending|]. rewrite drop_done_spec.
    + rewrite remaining_app, advance_sent_spec, app_assoc, take_drop by exact F1. rewrite <- remaining_app. now rewrite take_drop.
    + apply Forall_app. split; [now apply advance_bounded|]. eapply List.Forall_impl; [|exact F2]. intros t [Wm O]. split; [exact Wm|lia].
  - injection U as <- <-. assert (E : drop_done ps = ps).
    { destruct F as [|t l [_ O] _]; [reflexivity|]. cbn. unfold isDone. now rewrite (proj2 (Nat.leb_gt _ _)). }
    rewrite E. auto.
Qed.
Lemma filter_single t : List.filter (fun t => negb (isDone t)) [t] = drop_done [t].
Proof. cbn. now destruct (isDone t). Qed.
Lemma sendData_order s p a s' l : well_made p -> in_order s l -> sendData s p a = Some s' -> in_order s' (l ++ bytes_of p).
Proof.
  intros Wm [F O] U. unfold sendData in U. destruct (sendTasks s) as [|t ts] eqn:T.
  - destruct (sendScatter [mkTransit p 0] a) as [ps bytes| |] eqn:E; [| |discriminate].
    + injection U as <-. assert (F1 : List.Forall pending [mkTransit p 0]) by (constructor; [now apply fresh_pending|constructor]).
      destruct (scattered_order _ _ _ _ F1 E) as [Pe B].
      assert (Fi : List.filter (fun t => negb (isDone t)) ps = drop_done ps).
      { unfold sendScatter in E. cbn [take atOnce] in E. destruct (vectors _); [|discriminate]. destruct a; try discriminate; injection E as <- <-.
        - cbn [advance_sent]. destruct (Nat.leb _ _); apply filter_single.
        - apply filter_single. }
      rewrite Fi. split; [exact Pe|]. cbn [wire sendTasks sendFailed]. intros Nf. rewrite <- app_assoc, B, fresh_remaining. rewrite <- (O Nf). change (all_remaining []) with (@nil Z). now rewrite app_nil_r.
    + injection U as <-. split; [constructor|discriminate].
  - injection U as <-. split; cbn [wire sendTasks sendFailed].
    + change (t :: ts ++ [mkTransit p 0]) with ((t :: ts) ++ [mkTransit p 0]). apply Forall_app. split; [exact F|]. constructor; [now apply fresh_pending|constructor].
    + intros Nf. change (t :: ts ++ [mkTransit p 0]) with ((t :: ts) ++ [mkTransit p 0]). now rewrite remaining_app, fresh_remaining, app_assoc, O.
Qed.
Lemma writable_order b s a s' c l : in_order s l -> writable b s a = Some (s', c) -> in_order s' l.
Proof.
  intros [F O] U. unfold writable in U. destruct (sendTasks s) as [|t ts] eqn:T; [injection U as <- _; split; now rewrite T|].
  destruct (sendScatter (t :: ts) a) as [ps bytes| |] eqn:E; [| |discriminate].
  - injection U as <- _. destruct (scattered_order _ _ _ _ F E) as [Pe B]. split; [exact Pe|]. cbn [wire sendTasks sendFailed]. intros Nf. now rewrite <- app_assoc, B, O.
  - injection U as <- _. split; now rewrite T.
Qed.

(** What leads out of a packet: of those that are sent at once, one was left between the two
    bytes of its identifier. *)
Lemma undefined_split ps a : List.Forall pending ps -> sendScatter ps a = Undefined ->
  exists t, In t (take atOnce ps) /\ splits (packet_of t) (offset t).
Proof.
  intros F U. unfold sendScatter in U. rewrite <- (take_drop atOnce ps) in F. apply Forall_app in F as [F _].
  destruct (vectors (take atOnce ps)) eqn:V; [destruct a; discriminate|]. clear U. induction F as [|t l [Wm O] F IH]; [discriminate|].
  cbn [vectors] in V. pose proof (constructIOVecs_spec _ _ Wm O) as Sp.
  destruct (constructIOVecs _ _) as [vs|]; [|exists t; split; [now left|exact Sp]].
  destruct (vectors l); [discriminate|]. destruct (IH eq_refl) as (t' & I & S). exists t'. split; [now right|exact S].
Qed.
Lemma vectors_split ps t : List.Forall pending ps -> In t ps -> splits (packet_of t) (offset t) -> vectors ps = None.
Proof.
  induction 1 as [|t0 ps [Wm O] F IH]; [intros []|]. intros [->|I] S; cbn [vectors]; pose proof (constructIOVecs_spec _ _ Wm O) as Sp.
  - destruct (constructIOVecs _ _); [now destruct Sp|reflexivity].
  - destruct (constructIOVecs _ _); [|reflexivity]. now rewrite IH.
Qed.
Lemma send_defined s p a : well_made p -> sendData s p a <> None.
Proof.
  intros Wm U. unfold sendData in U. destruct (sendTasks s); [|discriminate]. destruct (sendScatter _ _) eqn:E; try discriminate.
  destruct (undefined_split [mkTransit p 0] a) as (t & [<-|[]] & S); [constructor; [now apply fresh_pending|constructor]|exact E|].
  unfold splits in S. cbn in S. lia.
Qed.
Definition nothing_sent : sender := mkSender [] false [].
Lemma happen_app hs : forall s hs', happen s (hs ++ hs') = match happen s hs with Some s => happen s hs' | None => None end.
Proof.
  induction hs as [|[p a|b a] hs IH]; intros s hs'; cbn [app happen]; [reflexivity| |].
  - destruct (sendData s p a); [apply IH|reflexivity].
  - destruct (writable b s a) as [[s' c]|]; [apply IH|reflexivity].
Qed.
Lemma happen_in_order hs : List.Forall well_made (packets_of hs) ->
  match happen nothing_sent hs with
  | Some s => in_order s (List.concat (List.map bytes_of (packets_of hs)))
  | None => exists before b a rest s t, hs = before ++ Writable b a :: rest /\ happen nothing_sent before = Some s /\
      In t (take atOnce (sendTasks s)) /\ splits (packet_of t) (offset t)
  end.
Proof.
  induction hs as [|h hs IH] using rev_ind; intros F; [split; [constructor|reflexivity]|].
  unfold packets_of in F |- *. rewrite flat_map_app in F |- *. apply List.Forall_app in F as [F Fh]. specialize (IH F). rewrite happen_app.
  destruct (happen nothing_sent hs) as [s|] eqn:E.
  2: { destruct IH as (before & b & a & rest & s & t & -> & Es & I). exists before, b, a, (rest ++ [h]), s, t.
       rewrite <- app_assoc. now split. }
  rewrite List.map_app, List.concat_app. destruct h as [p a|b a]; cbn [happen flat_map app List.map List.concat] in *; rewrite ?app_nil_r.
  - inversion Fh; subst. destruct (sendData s p a) as [s'|] eqn:U; [eapply sendData_order; eauto|]. now apply send_defined in U.
  - destruct (writable b s a) as [[s' c]|] eqn:U; [eapply writable_order; eauto|]. destruct IH as [Pe _].
    unfold writable in U. destruct (undefined_split (sendTasks s) a Pe) as (t & I & S).
    + destruct (sendTasks s) as [|t ts]; [discriminate|]. destruct (sendScatter _ _); try discriminate. reflexivity.
    + exists hs, b, a, [], s, t. auto.
Qed.
Lemma packets_in_order_bytes hs s : List.Forall well_made (packets_of hs) -> happen (mkSender [] false []) hs = Some s -> sendFailed s = false ->
  sendTasks s = [] -> wire s = List.concat (List.map bytes_of (packets_of hs)).
Proof.
  intros Wm U Nf Em. pose proof (happen_in_order hs Wm) as I. unfold nothing_sent in I. rewrite U in I. rewrite <- (proj2 I Nf), Em. change (all_remaining []) with (@nil Z). now rewrite app_nil_r.
Qed.

(** C14: packets go out whole and in the order in which they were sent, however little the
    socket takes at a time and however many wait: as long as no send failed, the bytes that
    went out and then the rest of the queue are the bytes of all packets one after the
    other.  Behaviour is undefined (a pointer beyond the packet) exactly when the socket
    becomes writable while one of the packets that are then sent at once was left between the
    two bytes of its identifier. *)
Theorem packets_in_order hs : List.Forall well_made (packets_of hs) ->
  (forall s, happen nothing_sent hs = Some s -> sendFailed s = false ->
     wire s ++ all_remaining (sendTasks s) = List.concat (List.map bytes_of (packets_of hs))) /\
  (happen nothing_sent hs = None <-> exists before b a rest s t, hs = before ++ Writable b a :: rest /\
     happen nothing_sent before = Some s /\ In t (take atOnce (sendTasks s)) /\ splits (packet_of t) (offset t)).
Proof.
  intros F. pose proof (happen_in_order hs F) as I. split.
  - intros s E. rewrite E in I. apply I.
  - split; [intros E; now rewrite E in I|]. intros (before & b & a & rest & s & t & -> & E & It & S). rewrite happen_app, E. cbn [happen].
    assert (Pe : List.Forall pending (sendTasks s)).
    { unfold packets_of in F. rewrite flat_map_app in F. apply List.Forall_app in F as [F _].
      pose proof (happen_in_order before F) as J. rewrite E in J. apply J. }
    unfold writable, sendScatter. destruct (sendTasks s) as [|t0 ts]; [destruct It|].
    rewrite (vectors_split _ t); [reflexivity| |exact It|exact S]. rewrite <- (take_drop atOnce (t0 :: ts)) in Pe. now apply Forall_app in Pe as [Pe _].
Qed.

(** ** Building and delivering a PUBLISH *)
(** What the library promises of lengths: they are written as MQTT writes them. *)
Context (lengths : forall n, Z.of_nat n < 128 * 128 * 128 -> encodeVarByteInt n = varint (Z.of_nat n)).
Context (encodePropertyList : Properties -> list Z).
Lemma varint_length n : (1 <= List.length (varint n) <= 3)%nat.
Proof. unfold varint. destruct (n <? 128); [cbn; lia|]. destruct (n <? 16384); cbn; lia. Qed.
Lemma prelude_is l fb : (List.length l <= 4)%nat -> take (List.length l + 1) (fb :: length_bytes l) = fb :: l.
Proof.
  intros L. unfold length_bytes. rewrite Nat.add_1_r. cbn. f_equal. rewrite (take_ge l) by lia. apply take_app_length.
Qed.
Lemma length_length_bytes l : List.length (length_bytes l) = 4%nat.
Proof. unfold length_bytes. rewrite length_app, length_take, length_replicate. lia. Qed.
(** The body of a PUBLISH. *)
Definition publish_body (b : builder) (q : qos) (id : Z) (v : version) : list Z :=
  encodeString (b_topic b) ++ (match q with QoS0 => [] | _ => htons id end) ++ postlude_of encodePropertyList b v.
Lemma publish_made b q id v : Z.of_nat (List.length (publish_body b q id v)) < 128 * 128 * 128 ->
  let p := publish_of b q id (encodeString (b_topic b)) (postlude_of encodePropertyList b v) in
  well_made p /\ bytes_of p = frame (publish_firstByte q (b_retained b), publish_body b q id v).
Proof.
  intros L. unfold publish_body in *. rewrite !length_app in L.
  assert (E : forall n, n = (List.length (encodeString (b_topic b)) + (List.length (match q with QoS0 => [] | _ => htons id end) +
      List.length (postlude_of encodePropertyList b v)))%nat -> encodeVarByteInt n = varint (Z.of_nat n)) by (intros n ->; now apply lengths).
  unfold publish_of, frame. destruct q; cbn [fst snd app]; unfold fromComponents, fromComponentsWithId.
  all: rewrite E by (cbn [List.length htons]; lia).
  all: match goal with |- context [varint ?n] => pose proof (varint_length n) as Lv end.
  all: split; [split; cbn [preludeLength varLength packetId kind_of]; [lia|apply length_length_bytes|auto; discriminate|exact I]|].
  all: unfold bytes_of, prelude_bytes, id_bytes; cbn [preludeLength p_firstByte varLength middle packetId end_].
  all: rewrite prelude_is by lia; cbn [app]; f_equal; f_equal; f_equal; rewrite !length_app; cbn [List.length htons]; lia.
Qed.
(** The caches of a builder hold what it would encode. *)
Definition cached (b : builder) : Prop :=
  (forall m, packetMiddle b = Some m -> m = encodeString (b_topic b)) /\
  (forall v e, packetPostlude b v = Some e -> e = postlude_of encodePropertyList b v).
Definition same_message (b b' : builder) : Prop :=
  b_topic b' = b_topic b /\ b_payload b' = b_payload b /\ b_retained b' = b_retained b /\ b_properties b' = b_properties b.
Lemma getPacket_spec b q id v : cached b -> exists b', getPacket encodePropertyList b q id v =
  Some (publish_of b q id (encodeString (b_topic b)) (postlude_of encodePropertyList b v), b') /\ cached b' /\ same_message b b'.
Proof.
  intros C. pose proof C as [M P]. unfold getPacket. destruct (packetPostlude b v) as [e|] eqn:E; [destruct (packetMiddle b) as [m|] eqn:Em|].
  - exists b. rewrite (M _ eq_refl), (P _ _ E). split; [reflexivity|]. split; [exact C|now repeat split].
  - assert (E' : packetPostlude (set_middle b (encodeString (b_topic b))) v = Some e) by (destruct v; exact E).
    unfold emplace_postlude. rewrite E', E'. cbn [set_middle packetMiddle]. eexists. split; [now rewrite (P _ _ E)|]. split; [|now repeat split].
    split; [now intros m [= <-]|]. intros v' e' E2. apply P. now destruct v'.
  - assert (E' : packetPostlude (set_middle b (encodeString (b_topic b))) v = None) by (destruct v; exact E).
    unfold emplace_postlude. rewrite E'. destruct v; cbn; eexists; (split; [reflexivity|]); (split; [|now repeat split]); (split; [now intros m [= <-]|]).
    all: intros [] e' E2; cbn in E2; try (injection E2 as <-; reflexivity); first [apply (P V4 _ E2)|apply (P V5 _ E2)].
Qed.
Fixpoint getPackets (b : builder) (l : list (qos * Z * version)) : option (list encodedPacket) :=
  match l with
  | [] => Some []
  | (q, id, v) :: rest =>
      match getPacket encodePropertyList b q id v with
      | Some (p, b) => match getPackets b rest with Some ps => Some (p :: ps) | None => None end
      | None => None
      end
  end.

(** C35: one builder makes the packets for all the subscribers of a message, whatever the QoS
    and the version of each: the parts it keeps never change a packet, each is what a builder
    of its own would make, and its bytes are the frame of a PUBLISH. *)
Theorem builder_caches topic payload retained props l :
  let b := MQTTPublishPacketBuilder topic payload retained props in
  List.Forall (fun x => Z.of_nat (List.length (publish_body b (fst (fst x)) (snd (fst x)) (snd x))) < 128 * 128 * 128) l ->
  exists ps, getPackets b l = Some ps /\
    List.map (fun x => option_map fst (getPacket encodePropertyList b (fst (fst x)) (snd (fst x)) (snd x))) l = List.map Some ps /\
    List.Forall well_made ps /\
    List.map bytes_of ps = List.map (fun x => frame (publish_firstByte (fst (fst x)) retained, publish_body b (fst (fst x)) (snd (fst x)) (snd x))) l.
Proof.
  intros b. assert (Cb : cached b) by (split; [discriminate|intros []; discriminate]).
  assert (G : forall l b', cached b' -> same_message b b' ->
    List.Forall (fun x => Z.of_nat (List.length (publish_body b (fst (fst x)) (snd (fst x)) (snd x))) < 128 * 128 * 128) l ->
    exists ps, getPackets b' l = Some ps /\
      List.map (fun x => option_map fst (getPacket encodePropertyList b (fst (fst x)) (snd (fst x)) (snd x))) l = List.map Some ps /\
      List.Forall well_made ps /\
      List.map bytes_of ps = List.map (fun x => frame (publish_firstByte (fst (fst x)) retained, publish_body b (fst (fst x)) (snd (fst x)) (snd x))) l).
  { clear l. induction l as [|[[q id] v] l IH]; intros b' C S F; [exists []; repeat split; constructor|]. inversion F as [|? ? L F']; subst. cbn [fst snd] in L.
    cbn [getPackets]. destruct (getPacket_spec b' q id v C) as (b2 & -> & C2 & S2). destruct (getPacket_spec b q id v Cb) as (b3 & E3 & _ & _).
    assert (S3 : same_message b b2) by (unfold same_message in *; intuition congruence).
    destruct (IH b2 C2 S3 F') as (ps & -> & Ea & Eb & Ec). destruct (publish_made b q id v L) as [Wm By].
    assert (Ep : publish_of b' q id (encodeString (b_topic b')) (postlude_of encodePropertyList b' v) =
      publish_of b q id (encodeString (b_topic b)) (postlude_of encodePropertyList b v)).
    { destruct S as (St & Sp & Sr & Sq). unfold publish_of, postlude_of. now rewrite St, Sp, Sr, Sq. }
    eexists. split; [reflexivity|]. rewrite Ep. cbn [List.map fst snd]. rewrite E3, Ea, Ec, By. split; [reflexivity|]. split; [now constructor|reflexivity]. }
  intros F. apply G; [exact Cb|now repeat split|exact F].
Qed.

(** A PUBLISH to send: its message, and the QoS, identifier and version it has for a client. *)
Record publication := mkPublication {
  u_topic : string; u_payload : list Z; u_retained : bool; u_properties : Properties; u_qos : qos; u_id : Z; u_version : version }.
Definition builder_of (u : publication) : builder := MQTTPublishPacketBuilder (u_topic u) (u_payload u) (u_retained u) (u_properties u).
Definition body_of (u : publication) : list Z := publish_body (builder_of u) (u_qos u) (u_id u) (u_version u).
Definition made_of (u : publication) (p : encodedPacket) : Prop :=
  exists b, getPacket encodePropertyList (builder_of u) (u_qos u) (u_id u) (u_version u) = Some (p, b).
Lemma publish_type q r : Z.shiftr (publish_firstByte q r) 4 = 3.
Proof. destruct q, r; reflexivity. Qed.
Lemma made_frame u p : Z.of_nat (List.length (body_of u)) < 128 * 128 * 128 -> made_of u p ->
  well_made p /\ bytes_of p = frame (publish_firstByte (u_qos u) (u_retained u), body_of u).
Proof.
  intros L [b E]. assert (Cb : cached (builder_of u)) by (split; [discriminate|intros []; discriminate]).
  destruct (getPacket_spec _ (u_qos u) (u_id u) (u_version u) Cb) as (b' & E' & _ & _). rewrite E in E'. injection E' as -> _.
  apply (publish_made (builder_of u) (u_qos u) (u_id u) (u_version u) L).
Qed.

(** C4: publications whose bodies (topic, identifier, properties and payload) are shorter than
    128^3 bytes arrive: when their packets were handed to a connection, in that order and
    however the socket took them, no send failed and nothing is left in the queue, then a
    receiver that gets the bytes, cut in any way, handles one packet for each publication, in
    order, with the first byte and the body it was published with.  A packet whose length takes
    a fourth byte, as it does for any longer body, is refused before it is handled. *)
Theorem publications_arrive {W : Type} (handle : W -> receiving -> @handled W) w us hs s chunks : 3 < messageTypes ->
  List.Forall (fun u => Z.of_nat (List.length (body_of u)) < 128 * 128 * 128) us ->
  List.Forall2 made_of us (packets_of hs) -> happen (mkSender [] false []) hs = Some s -> sendFailed s = false -> sendTasks s = [] ->
  List.concat chunks = wire s ->
  receive_all handle w noData chunks = handle_each handle w noData (List.map (fun u => (publish_firstByte (u_qos u) (u_retained u), body_of u)) us) /\
  forall w' b0 b1 b2 b3 b4 rest, 0 < Z.shiftr b0 4 < messageTypes ->
    List.Forall (fun b => (Z.land b 128 =? 0) = false) [b1; b2; b3] ->
    exists r, receive handle w' noData (b0 :: b1 :: b2 :: b3 :: b4 :: rest) = Stopped w' r.
Proof.
  intros T L M U Nf Em C. split.
  2: { intros w' b0 b1 b2 b3 b4 rest Ty F. inversion F as [|? ? B1 F1]; subst. inversion F1 as [|? ? B2 F2]; subst.
       inversion F2 as [|? ? B3 _]; subst. now apply four_bytes_refused. }
  assert (E : List.Forall well_made (packets_of hs) /\ List.concat (List.map bytes_of (packets_of hs)) =
    List.concat (List.map frame (List.map (fun u => (publish_firstByte (u_qos u) (u_retained u), body_of u)) us))).
  { clear - lengths L M. induction M as [|u p us ps Mu M IH]; [split; constructor|]. inversion L as [|? ? L1 L2]; subst. destruct (IH L2) as [Wm E].
    destruct (made_frame _ _ L1 Mu) as [W1 B1]. split; [now constructor|]. cbn [List.map List.concat]. now rewrite B1, E. }
  destruct E as [Wm E]. pose proof (packets_in_order_bytes hs s Wm U Nf Em) as I.
  apply frames_received_cut; [reflexivity| |congruence]. apply List.Forall_map. eapply List.Forall_impl; [|exact L]. intros u Lu.
  split; cbn [fst snd]; [rewrite publish_type; lia|exact Lu].
Qed.
End Facts.

(** ** Witnesses *)
Import BrokerDemo.
(** A handler that keeps what it gets. *)
Definition keep (w : list (Z * list Z)) (r : receiving) : handled := Fine (w ++ [(r_firstByte r, currentReceiveBuffer r)]).
Lemma frames_found_witness : let ps := [(48, [0; 1; 116; 5]); (192, [])] in
  receive_all keep [] noData [[48]; [4; 0; 1; 116]; [5; 192; 0]] = handle_each keep [] noData ps /\
  match handle_each keep [] noData ps with Received w _ => w = ps | _ => False end.
Proof.
  intros ps. split; [|reflexivity]. apply (frames_found keep [] noData ps); [reflexivity| |reflexivity].
  repeat constructor; vm_compute; reflexivity.
Defined.
Definition hello : publication := mkPublication "t" [5; 6] false ([] : list Z) QoS1 7 V4.
Definition hello_packet : encodedPacket := fromComponentsWithId 50 [0; 1; 116] 7 [5; 6].
Lemma hello_well_made : well_made hello_packet.
Proof. split; [split; vm_compute; lia|reflexivity|now split|exact I]. Qed.
(** The socket takes three bytes, then nothing, then the rest. *)
Definition small_sends : list happening := [Send hello_packet (Took 3); Send hello_packet WouldBlock; Writable false WouldBlock; Writable false (Took 15)].
Lemma packets_in_order_witness :
  (exists s, happen nothing_sent small_sends = Some s /\
    wire s ++ all_remaining (sendTasks s) = bytes_of hello_packet ++ bytes_of hello_packet /\ sendTasks s = []) /\
  (let beyond := [Send hello_packet (Took 6); Writable false (Took 1)] in happen nothing_sent beyond = None).
Proof.
  assert (F : List.Forall well_made (packets_of small_sends)) by (cbn; repeat constructor; apply hello_well_made).
  split.
  - destruct (happen nothing_sent small_sends) as [s|] eqn:U; [|vm_compute in U; discriminate U]. exists s. split; [reflexivity|].
    vm_compute in U. split; [|injection U as <-; reflexivity]. apply (proj1 (packets_in_order small_sends F)); [|injection U as <-; reflexivity].
    now vm_compute in U |- *.
  - apply packets_in_order; [cbn; repeat constructor; apply hello_well_made|].
    exists [Send hello_packet (Took 6)], false, (Took 1), []. do 2 eexists. split; [reflexivity|]. split; [now vm_compute|].
    split; [now left|]. split; reflexivity.
Defined.
Lemma demo_lengths : forall n, Z.of_nat n < 128 * 128 * 128 -> encodeVarByteInt n = varint (Z.of_nat n).
Proof.
  intros n L. cbn [encodeVarByteInt demo_encoder]. unfold demo_varint, varint. destruct (Z.of_nat n <? 128); [reflexivity|].
  destruct (Z.of_nat n <? 16384); [reflexivity|]. now rewrite (proj2 (Z.ltb_lt _ _)) by exact L.
Qed.
Definition demo_properties (l : @Properties demo_lib) : list Z := Z.of_nat (List.length (l : list Z)) :: l.
Lemma builder_caches_witness : exists ps,
  getPackets demo_properties (MQTTPublishPacketBuilder "t" [5; 6] false ([] : list Z)) [(QoS1, 7, V4); (QoS0, 0, V5); (QoS2, 8, V4)]
    = Some ps /\ List.length ps = 3%nat.
Proof.
  destruct (builder_caches demo_lengths demo_properties "t" [5; 6] false ([] : list Z)
    [(QoS1, 7, V4); (QoS0, 0, V5); (QoS2, 8, V4)]) as (ps & E & _).
  - repeat constructor; vm_compute; reflexivity.
  - exists ps. split; [exact E|]. vm_compute in E. injection E as <-. reflexivity.
Defined.
Lemma publications_arrive_witness : exists s,
  happen (mkSender [] false []) small_sends = Some s /\
  receive_all keep [] noData [wire s] = handle_each keep [] noData [(50, [0; 1; 116; 0; 7; 5; 6]); (50, [0; 1; 116; 0; 7; 5; 6])].
Proof.
  destruct (happen (mkSender [] false []) small_sends) as [s|] eqn:U; [|vm_compute in U; discriminate U]. exists s. split; [reflexivity|].
  refine (proj1 (publications_arrive demo_lengths demo_properties keep [] [hello; hello] small_sends s [wire s] _ _ _ _ _ _ _)).
  - reflexivity.
  - repeat constructor; vm_compute; reflexivity.
  - repeat constructor; eexists; reflexivity.
  - exact U.
  - vm_compute in U. injection U as <-. reflexivity.
  - vm_compute in U. injection U as <-. reflexivity.
  - apply app_nil_r.
Defined.
End PacketsFacts.
