(* ===== verification/BrokerRuns.v ===== *)
(** Runs of the broker with the library of BrokerDemo.v: what it does in situations where
    this is not what MQTT or the code's own intention says. *)
From Stdlib Require Import ZArith Lia Bool List Ascii String.
From stdpp Require Import base list gmap strings.
From S2P Require Import Prelude.
From S2P Require Import Broker.
From S2P Require Import Packets.
From S2P Require Import BrokerDemo.
From S2P Require Import PacketsFacts.
Import ListNotations.
Import Broker Packets BrokerDemo PacketsFacts.
Open Scope Z_scope.
Open Scope list_scope.

Module BrokerRuns.
(** What a client was sent in a run, and whether it is logged out. *)
Definition sent_to (es : list event) (c : nat) : list out :=
  match run init es with Some w => match clients w !! c with Some x => sent x | None => [] end | None => [] end.
Definition logged_out (es : list event) (c : nat) : option bool :=
  match run init es with Some w => option_map loggedOut (clients w !! c) | None => None end.
Definition undefined_next (es : list event) (e : event) : Prop :=
  match run init es with Some w => possibleb w e = true /\ react w e = None | None => False end.
Definition joins_with_will (c : nat) (id : string) : list event :=
  [Connect "10.0.0.9:1883" 0; Readable c [connect_of id 6 60 "w" [1]] Nothing 1 [] Free; Work []].

(** A message of QoS 0 for a session whose client is away reaches through a null pointer. *)
Example offline_message_undefined :
  undefined_next (joins 0 "a" 0 ++ sends 0 (subscribe_to "t" 0) ++ joins 1 "b" 2 ++ sends 0 disconnect)
    (Readable 1 [publish_on "t" 0 0 false [5]] Nothing 2 [] Free).
Proof. now vm_compute. Qed.
(** A client that takes a session over with a clean session gets the messages of the old
    subscriptions. *)
Example clean_login_keeps_subscriptions :
  sent_to (joins 0 "a" 0 ++ sends 0 (subscribe_to "t" 1) ++ joins 1 "a" 2 ++ joins 2 "b" 2 ++ sends 2 (publish_on "t" 1 7 false [5])) 1 =
  [Connack V4 false; PublishOut V4 "t" [5] QoS1 false ([] : list Z) 2 false].
Proof. now vm_compute. Qed.
(** The will of a client is published when its connection fails, but not when another client
    takes its session over. *)
Example will_lost_in_takeover :
  let start := joins 0 "a" 0 ++ sends 0 (subscribe_to "w" 1) ++ joins_with_will 1 "b" in
  sent_to (start ++ [SendFails 1; Work []]) 0 = [Connack V4 false; Suback V4 1 [1]; PublishOut V4 "w" [1] QoS0 false ([] : list Z) 0 false] /\
  sent_to (start ++ joins 2 "b" 2) 0 = [Connack V4 false; Suback V4 1 [1]].
Proof. split; now vm_compute. Qed.
(** Only identifiers below the number of PUBRELs that are outstanding are sent again. *)
Example pubrel_not_resent :
  let away := joins 0 "a" 0 ++ sends 0 (subscribe_to "t" 2) ++ joins 1 "b" 2 ++ sends 1 (publish_on "t" 2 7 false [5]) ++
    sends 0 (ack_of PUBREC 80 2) ++ sends 0 disconnect in
  sent_to away 0 = [Connack V4 false; Suback V4 1 [2]; PublishOut V4 "t" [5] QoS2 false ([] : list Z) 2 false; Pubrel V4 2 true] /\
  sent_to (away ++ joins 2 "a" 0) 2 = [Connack V4 true].
Proof. split; now vm_compute. Qed.
(** A client that turns the keep-alive off is logged out, and deleted, by the next cleanup. *)
Example no_keep_alive_expires :
  let start := [Connect "10.0.0.1:1883" 0; Readable 0 [connect_of "a" 2 0 "" []] Nothing 1 [] Free; Work []] in
  logged_out start 0 = Some false /\ logged_out (start ++ [Expire 2; Sweep]) 0 = None.
Proof. split; now vm_compute. Qed.
(** A subscription that was queued when its clean session was given up outlives the session:
    after the cleanup the next matching message is sent to a deleted object. *)
Example subscription_outlives_session :
  undefined_next (joins 0 "a" 2 ++ [SendFails 0; Connect "10.0.0.2:1883" 0; Readable 1 [connect_of "b" 2 60 "" []] Nothing 1 [] Free;
      Readable 0 [subscribe_to "t" 1] Nothing 1 [] Free; Work []; Work []; Expire 2; Sweep])
    (PublishOther (mkPacket "t" [1] QoS1 false ([] : list Z)) [] Free).
Proof. now vm_compute. Qed.
(** A second subscription brings the retained messages of the first again. *)
Example retained_sent_again :
  sent_to (joins 0 "a" 2 ++ sends 0 (publish_on "r" 1 5 true [1]) ++ sends 0 (subscribe_to "r" 0) ++ sends 0 (subscribe_to "s" 1)) 0 =
  [Connack V4 false; Puback V4 5; Suback V4 1 [0]; PublishOut V4 "r" [1] QoS0 true ([] : list Z) 0 false; Suback V4 1 [1];
   PublishOut V4 "r" [1] QoS1 true ([] : list Z) 2 false].
Proof. now vm_compute. Qed.
(** A SUBSCRIBE that comes together with the CONNECT waits until the client sends something
    more, and a client whose socket is readable again before the worker has logged it in is
    logged out. *)
Example early_packets :
  let early := [Connect "10.0.0.1:1883" 0; Readable 0 [connect_of "a" 2 60 "" []; subscribe_to "t" 1] Nothing 1 [] Free] in
  sent_to (early ++ [Work []; Work []; Work []]) 0 = [Connack V4 false] /\
  logged_out (early ++ [Readable 0 [] Nothing 1 [] Free; Work []; Work []]) 0 = Some true.
Proof. split; now vm_compute. Qed.
(** A length of four bytes, which MQTT allows, is refused. *)
Example four_length_bytes_refused :
  match receive keep [] noData [48; 128; 128; 128; 1] with Stopped w _ => w = [] | Received _ _ => False end.
Proof. now vm_compute. Qed.
(** When the socket takes the first byte of a packet identifier and not the second, the next
    send reads beyond the packet. *)
Example split_identifier_undefined :
  happen (mkSender [] false []) [Send hello_packet (Took 6); Writable false (Took 1)] = None.
Proof. now vm_compute. Qed.
(** The refusal of a protocol version is framed twice: a length within a length. *)
Example refusal_framed_twice : bytes_of (fromData 32 [2; 0; 1]) = [32; 3; 2; 0; 1].
Proof. now vm_compute. Qed.
(** After a handler threw, the rest of the bytes brings the same packet again. *)
Definition refuse (w : nat) (r : receiving) : handled := Thrown (S w).
Example thrown_packet_again :
  match receive refuse 0%nat noData [48; 1; 7] with
  | Stopped w r => match receive refuse w r [48] with Stopped w' _ => (w, w') = (1, 2)%nat | Received _ _ => False end
  | Received _ _ => False
  end.
Proof. now vm_compute. Qed.
End BrokerRuns.
