(* ===== verification/Statistics.v ===== *)
(** The statistics of the broker (src/src/Statistics.cpp, Statistics.hpp and
    StatisticsConverter.cpp): the queue of packets, the histograms with their limited number
    of intervals, the topics, and the counts as the dashboard gets and shows them. *)
From Stdlib Require Import ZArith Lia Bool List Ascii String Sorted.
From Stdlib Require Import SpecFloat.
From stdpp Require Import base list.
From S2P Require Import Prelude JsNumber NumExact WebUI.
Import ListNotations.
Open Scope Z_scope.

Module Statistics.
(** Times are nanoseconds since the epoch.  The counters have 64 bits; that they wrap is not
    modelled. *)
Definition nanoseconds : Z := 1000000000.
Definition seconds : Z := nanoseconds.
Definition minutes : Z := 60 * nanoseconds.
(** [std::chrono::floor]. *)
Definition floor (interval t : Z) : Z := t / interval * interval.
Record PacketData := mkPacket { topic : string; payloadLength : Z; timestamp : Z; qos : nat }.

(** ** The queue *)
(** [push]: a full queue first loses its ten oldest packets. *)
Fixpoint push (fuel : nat) (capacity : nat) (queue : list PacketData) (packet : PacketData) : option (list PacketData) :=
  match fuel with
  | O => None
  | S f => if Nat.ltb (length queue) capacity then Some (queue ++ [packet])%list
           else push f capacity (skipn 10 queue) packet
  end.

(** ** Lists of intervals *)
Section Intervals.
Context {T : Type} (time_of : T -> Z) (fresh : Z -> T).
Variable interval : Z.
Variable MaxSize : nat.
(** [while(list.size() > MaxSize) list.erase(list.begin())]. *)
Fixpoint trim (l : list T) : list T :=
  match l with
  | [] => []
  | _ :: r => if Nat.ltb MaxSize (length l) then trim r else l
  end.
Definition back (l : list T) : option T := List.last (List.map Some l) None.
(** The loop that appends intervals up to a time. *)
Fixpoint append_until (fuel : nat) (l : list T) (roundedTimestamp : Z) : option (list T) :=
  match back l with
  | None => Some l
  | Some b =>
      if time_of b <? roundedTimestamp then
        match fuel with
        | O => None
        | S f => append_until f (trim (l ++ [fresh (time_of b + interval)])) roundedTimestamp
        end
      else Some l
  end.
Definition steps_to (l : list T) (roundedTimestamp : Z) : nat :=
  match back l with Some b => Z.to_nat ((roundedTimestamp - time_of b) / interval + 1) | None => O end.
Definition ensureEnoughSpace (l : list T) (roundedTimestamp : Z) : option (list T) :=
  match l with
  | [] => Some (trim [fresh roundedTimestamp])
  | _ => option_map trim (append_until (steps_to l roundedTimestamp) l roundedTimestamp)
  end.
End Intervals.

(** ** Histograms *)
Record TimeInfo := mkInfo { itime : Z; packetCount : Z; cummulativePacketSize : Z }.
Definition new_info (t : Z) : TimeInfo := mkInfo t 0 0.
Definition on_back {T} (f : T -> T) (l : list T) : list T :=
  match List.rev l with [] => [] | b :: r => (List.rev r ++ [f b])%list end.
Definition count_packet (p : PacketData) (i : TimeInfo) : TimeInfo :=
  mkInfo (itime i) (packetCount i + 1) (cummulativePacketSize i + payloadLength p).
Definition add_packet (interval : Z) (MaxSize : nat) (l : list TimeInfo) (p : PacketData) : option (list TimeInfo) :=
  option_map (on_back (count_packet p)) (ensureEnoughSpace itime new_info interval MaxSize l (floor interval (timestamp p))).
Fixpoint createHistogram (interval : Z) (MaxSize : nat) (l : list TimeInfo) (mAnalysisData : list PacketData) : option (list TimeInfo) :=
  match mAnalysisData with
  | [] => Some l
  | p :: r => match add_packet interval MaxSize l p with Some l => createHistogram interval MaxSize l r | None => None end
  end.
(** What [refreshInternal] does with one of them at a time [now]. *)
Definition refresh_histogram (interval : Z) (MaxSize : nat) (l : list TimeInfo) (data : list PacketData) (now : Z) : option (list TimeInfo) :=
  match createHistogram interval MaxSize l data with
  | Some l => ensureEnoughSpace itime new_info interval MaxSize l (floor interval now - interval)
  | None => None
  end.

(** ** Topics *)
Record TopicInfo := mkTopicInfo { ttime : Z; tcount : Z; tsize : Z; qosPacketCounts : list Z }.
Definition new_topic_info (t : Z) : TopicInfo := mkTopicInfo t 0 0 [0; 0; 0].
Definition count_topic (p : PacketData) (i : TopicInfo) : TopicInfo :=
  mkTopicInfo (ttime i) (tcount i + 1) (tsize i + payloadLength p) (alter (Z.add 1) (qos p) (qosPacketCounts i)).
Definition topics := list (string * list TopicInfo).
Definition topic_get (ts : topics) (t : string) : list TopicInfo :=
  match List.find (fun p => String.eqb t (fst p)) ts with Some (_, l) => l | None => [] end.
Fixpoint topic_put (ts : topics) (t : string) (l : list TopicInfo) : topics :=
  match ts with
  | [] => [(t, l)]
  | (t', l') :: r => if String.eqb t t' then (t', l) :: r else (t', l') :: topic_put r t l
  end.
(** A packet is counted in the minute of the analysis. *)
Definition add_topic (now : Z) (ts : topics) (p : PacketData) : option topics :=
  option_map (fun l => topic_put ts (topic p) (on_back (count_topic p) l))
    (ensureEnoughSpace ttime new_topic_info minutes 60 (topic_get ts (topic p)) (floor minutes now)).
Fixpoint add_topics (now : Z) (ts : topics) (data : list PacketData) : option topics :=
  match data with
  | [] => Some ts
  | p :: r => match add_topic now ts p with Some ts => add_topics now ts r | None => None end
  end.
Definition expired (now : Z) (e : string * list TopicInfo) : bool :=
  match snd e with i :: _ => ttime i + 65 * minutes <? now | [] => false end.
Definition erase_topics (now : Z) (ts : topics) : topics := List.filter (fun e => negb (expired now e)) ts.

(** ** The analysis *)
Record results := mkResults { rtopics : topics; packetsPerMinute : list TimeInfo; packetsPerSecond : list TimeInfo }.
Definition refreshInternal (r : results) (data : list PacketData) (now : Z) : option results :=
  match add_topics now (rtopics r) data, refresh_histogram minutes (60 * 24) (packetsPerMinute r) data now,
        refresh_histogram seconds (60 * 2) (packetsPerSecond r) data now with
  | Some ts, Some m, Some s => Some (mkResults (erase_topics now ts) m s)
  | _, _, _ => None
  end.

(** ** The converter *)
(** [addHistogram]: all intervals but the last, by their second. *)
Definition addHistogram (data : list TimeInfo) : list (Z * (Z * Z)) :=
  List.map (fun i => (itime i / nanoseconds, (packetCount i, cummulativePacketSize i))) (removelast data).
(** [statsToMsgPerSecondJsonWebUI] and the same by minutes: all intervals. *)
Definition msgJsonWebUI (data : list TimeInfo) : list (Z * Z) := List.map (fun i => (itime i / nanoseconds, packetCount i)) data.
(** What [toScatterData] of the dashboard reads of it. *)
Definition msg_counts (json : list (Z * (Z * Z))) : list (Z * Z) := List.map (fun e => (fst e, fst (snd e))) json.
End Statistics.

(** ** Facts *)
Module StatisticsFacts.
Import Statistics.

(** *** The queue *)
(** A push succeeds and never holds more than the capacity; the new packet is the last, and
    nothing is lost while there is room. *)
Theorem push_bounded n queue p : (0 < n)%nat -> (length queue <= n)%nat ->
  exists q, push 2 n queue p = Some (q ++ [p])%list /\ (length q < n)%nat /\
    (q = if Nat.ltb (length queue) n then queue else skipn 10 queue).
Proof.
  intros N L. cbn [push]. destruct (Nat.ltb_spec (length queue) n) as [L1|L1]; [eauto|].
  rewrite List.length_skipn. destruct (Nat.ltb_spec (length queue - 10) n); [|lia]. exists (skipn 10 queue).
  rewrite List.length_skipn. split; [reflexivity|]. split; [assumption|reflexivity].
Qed.
Definition demo_packet (t : Z) : PacketData := mkPacket "a" 3 t 0.
Lemma push_bounded_witness : exists q, push 2 2 [demo_packet 1; demo_packet 2] (demo_packet 3) = Some (q ++ [demo_packet 3])%list /\ (length q < 2)%nat /\
  (q = if Nat.ltb 2 2 then [demo_packet 1; demo_packet 2] else skipn 10 [demo_packet 1; demo_packet 2]).
Proof. apply (push_bounded 2 [demo_packet 1; demo_packet 2] (demo_packet 3)); cbn; lia. Defined.

(** *** Lists of intervals *)
Lemma In_skipn {A} (n : nat) (l : list A) x : In x (skipn n l) -> In x l.
Proof. intros H. rewrite <- (List.firstn_skipn n l). apply in_or_app. now right. Qed.
Lemma In_lookup {A} (l : list A) x : In x l -> exists k, l !! k = Some x.
Proof. intros H. apply list_elem_of_lookup. now apply list_elem_of_In. Qed.
Section Intervals.
Context {T : Type} (time_of : T -> Z) (fresh : Z -> T) (interval : Z) (M : nat).
Context (time_fresh : forall t, time_of (fresh t) = t) (interval_pos : 0 < interval) (room : (0 < M)%nat).
Local Abbreviation trim := (trim M).
Local Abbreviation ensure := (ensureEnoughSpace time_of fresh interval M).
Implicit Types (l : list T).

(** The newest intervals, as many as there may be. *)
Definition newest l : list T := skipn (length l - M) l.
Lemma trim_newest l : trim l = newest l.
Proof.
  unfold newest. induction l as [|x l IH]; [reflexivity|]. cbn [Statistics.trim]. destruct (Nat.ltb_spec M (length (x :: l))) as [L|L]; cbn [length] in *.
  - rewrite IH. replace (S (length l) - M)%nat with (S (length l - M)) by lia. reflexivity.
  - now replace (S (length l) - M)%nat with 0%nat by lia.
Qed.
Lemma newest_length l : length (newest l) = Nat.min M (length l).
Proof. unfold newest. rewrite List.length_skipn. lia. Qed.
Lemma newest_newest l k : newest (newest l ++ k) = newest (l ++ k).
Proof.
  unfold newest. rewrite !List.length_app, List.length_skipn. rewrite !List.skipn_app, List.skipn_skipn, List.length_skipn.
  destruct (Nat.le_gt_cases (length l) M) as [L|L].
  - replace (length l - M)%nat with 0%nat by lia. now rewrite !Nat.sub_0_r, Nat.add_0_r.
  - f_equal; f_equal; lia.
Qed.
Lemma back_app l x : back (l ++ [x]) = Some x.
Proof. unfold back. rewrite List.map_app. apply List.last_last. Qed.
Lemma back_Some l b : back l = Some b -> exists k, l = (k ++ [b])%list.
Proof.
  destruct l as [|x l _] using rev_ind; [discriminate|]. rewrite back_app. intros [= ->]. now exists l.
Qed.
Lemma newest_back l x : exists k, newest (l ++ [x]) = (k ++ [x])%list.
Proof.
  unfold newest. rewrite List.length_app. cbn. rewrite List.skipn_app. exists (skipn (length l + 1 - M) l). f_equal.
  now replace (length l + 1 - M - length l)%nat with 0%nat by lia.
Qed.
(** The intervals after a time, one by one. *)
Definition following (t : Z) (n : nat) : list T := List.map (fun k => fresh (t + Z.of_nat k * interval)) (seq 1 n).
Lemma following_S t n : following t (S n) = fresh (t + interval) :: following (t + interval) n.
Proof.
  unfold following. cbn [seq List.map]. f_equal; [f_equal; lia|]. rewrite <- (List.seq_shift n 1), List.map_map.
  apply List.map_ext. intros k. f_equal. lia.
Qed.
(** As many as are needed to reach a time. *)
Definition needed (t r : Z) : nat := Z.to_nat ((r - t + interval - 1) / interval).
Lemma needed_0 t r : r <= t -> needed t r = 0%nat.
Proof. intros L. unfold needed. assert ((r - t + interval - 1) / interval <= 0); [|lia]. apply Z.lt_succ_r. apply Z.div_lt_upper_bound; lia. Qed.
Lemma needed_S t r : t < r -> needed t r = S (needed (t + interval) r).
Proof.
  intros L. unfold needed. replace (r - t + interval - 1) with (r - (t + interval) + interval - 1 + 1 * interval) by lia.
  rewrite Z.div_add by lia. assert (0 <= (r - (t + interval) + interval - 1) / interval) by (apply Z.div_pos; lia). lia.
Qed.
Lemma append_needed r n : forall f l b, back l = Some b -> needed (time_of b) r = n -> (n <= f)%nat ->
  exists k, append_until time_of fresh interval M f l r = Some k /\ trim k = newest (l ++ following (time_of b) n).
Proof.
  induction n as [|n IH]; intros f l b B N F.
  - assert (L : r <= time_of b) by (destruct (Z.le_gt_cases r (time_of b)); [assumption|rewrite needed_S in N by lia; discriminate]).
    exists l. split; [|now rewrite trim_newest, app_nil_r]. destruct f; cbn; rewrite B; now rewrite (proj2 (Z.ltb_ge _ _) L).
  - assert (L : time_of b < r) by (destruct (Z.le_gt_cases r (time_of b)) as [L|L]; [rewrite needed_0 in N by exact L; discriminate|exact L]).
    destruct f as [|f]; [lia|]. cbn [append_until]. rewrite B, (proj2 (Z.ltb_lt _ _) L).
    rewrite needed_S in N by exact L. injection N as N. destruct (newest_back l (fresh (time_of b + interval))) as [k E].
    destruct (IH f (trim (l ++ [fresh (time_of b + interval)])) (fresh (time_of b + interval))) as (k' & R & Tk).
    + rewrite trim_newest, E. apply back_app.
    + now rewrite time_fresh.
    + lia.
    + exists k'. split; [exact R|]. rewrite Tk, time_fresh, trim_newest, newest_newest, following_S, <- app_assoc. reflexivity.
Qed.
(** The loop ends: the list is continued up to the time, and its newest part kept. *)
Lemma ensure_spec l r : ensure l r = Some (match back l with
  | None => newest [fresh r]
  | Some b => newest (l ++ following (time_of b) (needed (time_of b) r))
  end).
Proof.
  unfold ensureEnoughSpace. destruct l as [|x l]; [cbn [back List.map List.last]; now rewrite trim_newest|].
  destruct (back (x :: l)) as [b|] eqn:B.
  - destruct (append_needed r (needed (time_of b) r) (steps_to time_of interval (x :: l) r) (x :: l) b B eq_refl) as (k & -> & Tk).
    + unfold steps_to, needed. rewrite B.
      assert ((r - time_of b + interval - 1) / interval <= (r - time_of b) / interval + 1); [|lia].
      replace (r - time_of b + interval - 1) with (r - time_of b - 1 + 1 * interval) by lia. rewrite Z.div_add by lia.
      apply Z.add_le_mono_r, Z.div_le_mono; lia.
    + cbn. now rewrite Tk.
  - exfalso. destruct (List.exists_last (l := x :: l)) as (k & y & E); [discriminate|]. rewrite E, back_app in B. discriminate.
Qed.

(** Times that follow one another. *)
Definition consecutive l : Prop := forall k a b, l !! k = Some a -> l !! S k = Some b -> time_of b = time_of a + interval.
Lemma consecutive_skip l n : consecutive l -> consecutive (skipn n l).
Proof.
  clear room. intros C k a b A B. rewrite lookup_drop in A, B. apply (C (n + k)%nat); [exact A|]. now replace (S (n + k)) with (n + S k)%nat by lia.
Qed.
Lemma consecutive_at l k i a x : consecutive l -> l !! k = Some a -> l !! (k + i)%nat = Some x -> time_of x = time_of a + Z.of_nat i * interval.
Proof.
  clear room. intros C A. revert x. induction i as [|i IH]; intros x X; [replace (k + 0)%nat with k in X by lia; replace x with a by congruence; lia|].
  destruct (lookup_lt_is_Some_2 l (k + i)) as [y Y]; [apply lookup_lt_Some in X; lia|].
  rewrite (C (k + i)%nat y x Y) by (now replace (S (k + i)) with (k + S i)%nat by lia). rewrite (IH y Y). lia.
Qed.
Lemma following_lookup t n k x : following t n !! k = Some x -> x = fresh (t + Z.of_nat (S k) * interval).
Proof.
  intros H. apply list_lookup_fmap_Some in H as (j & -> & J). apply lookup_seq in J as [-> _]. reflexivity.
Qed.
Lemma consecutive_following l b n : back l = Some b -> consecutive l -> consecutive (l ++ following (time_of b) n).
Proof.
  clear room. intros B C k x y X Y. destruct (back_Some l b B) as [p ->].
  assert (Time : forall k x, ((p ++ [b]) ++ following (time_of b) n) !! k = Some x -> (length p <= k)%nat ->
    time_of x = time_of b + Z.of_nat (k - length p) * interval).
  { clear - time_fresh. intros k x X L. destruct (Nat.eq_dec k (length p)) as [->|N].
    - rewrite <- app_assoc in X. cbn [app] in X. rewrite list_lookup_middle in X by reflexivity. injection X as <-. lia.
    - rewrite lookup_app_r, List.length_app in X by (rewrite List.length_app; cbn; lia). apply following_lookup in X as ->. rewrite time_fresh. cbn [length].
      replace (S (k - (length p + 1))) with (k - length p)%nat by lia. reflexivity. }
  destruct (Nat.le_gt_cases (length p) k) as [L|L].
  - rewrite (Time k x X L), (Time (S k) y Y) by lia. replace (S k - length p)%nat with (S (k - length p)) by lia. lia.
  - rewrite lookup_app_l in X by (rewrite List.length_app; cbn; lia). rewrite lookup_app_l in Y by (rewrite List.length_app; cbn; lia). exact (C k x y X Y).
Qed.
Lemma needed_exact t r : t <= r -> (interval | r - t) -> t + Z.of_nat (needed t r) * interval = r.
Proof.
  intros L [q E]. unfold needed. replace (r - t + interval - 1) with (interval - 1 + q * interval) by lia.
  rewrite Z.div_add by lia. rewrite Z.div_small by lia. rewrite Z2Nat.id by nia. lia.
Qed.
Lemma back_following l b n : back l = Some b -> exists p c, (l ++ following (time_of b) n)%list = (p ++ [c])%list /\ time_of c = time_of b + Z.of_nat n * interval.
Proof.
  intros B. destruct n as [|n].
  - destruct (back_Some l b B) as [p ->]. exists p, b. split; [apply app_nil_r|lia].
  - exists (l ++ following (time_of b) n)%list, (fresh (time_of b + Z.of_nat (S n) * interval)). rewrite time_fresh. split; [|reflexivity].
    unfold following. now rewrite List.seq_S, List.map_app, app_assoc.
Qed.
(** What [ensureEnoughSpace] leaves: the newest part of the list continued by new intervals,
    as many as reach the time. *)
Lemma ensure_last l r : consecutive l -> (forall x, In x l -> (interval | r - time_of x)) ->
  exists p c old n, ensure l r = Some (p ++ [c])%list /\ consecutive (p ++ [c]) /\ (length (p ++ [c]) <= M)%nat /\
    time_of c = (match back l with Some b => Z.max (time_of b) r | None => r end) /\
    (l = old ++ n)%list /\
    forall x, In x (p ++ [c]) -> In x n \/ (x = fresh (time_of x) /\ forall b, back l = Some b -> time_of b < time_of x).
Proof.
  intros C A. rewrite ensure_spec. destruct (back l) as [b|] eqn:B.
  - set (n := needed (time_of b) r). destruct (back_following l b n B) as (p & c & E & Tc).
    destruct (newest_back p c) as [k K]. rewrite <- E in K. exists k, c, (firstn (length (l ++ following (time_of b) n) - M) l), (skipn (length (l ++ following (time_of b) n) - M) l).
    rewrite <- K. split_and!; [reflexivity| | |rewrite Tc|now rewrite List.firstn_skipn|].
    + apply consecutive_skip. now apply consecutive_following.
    + rewrite newest_length. lia.
    + destruct (Z.le_gt_cases r (time_of b)) as [L|L].
      * unfold n. rewrite needed_0 by exact L. lia.
      * unfold n. rewrite needed_exact; [lia|lia|]. apply A. destruct (back_Some l b B) as [q ->]. apply in_or_app. right. now left.
    + intros x X. unfold newest in X. rewrite List.skipn_app in X. apply in_app_or in X as [X|X]; [now left|right].
      apply (In_skipn _ _ x) in X. unfold following in X. apply in_map_iff in X as (j & <- & J). apply in_seq in J.
      rewrite time_fresh. split; [reflexivity|]. intros b' [= <-]. nia.
  - exists [], (fresh r), [], l. cbn [app]. assert (newest [fresh r] = [fresh r]) as -> by (unfold newest; cbn; destruct M; [lia|reflexivity]).
    destruct l as [|y l]; [|destruct (List.exists_last (l := y :: l)) as (k & z & E); [discriminate|]; rewrite E, back_app in B; discriminate].
    split_and!; [reflexivity| |cbn; lia|apply time_fresh|reflexivity|].
    + intros [|k] x y X Y; cbn in Y; [discriminate|]. discriminate.
    + intros x [<-|[]]. right. rewrite time_fresh. split; [reflexivity|]. discriminate.
Qed.
End Intervals.

(** *** Histograms *)
Section Histogram.
Variable (interval : Z) (M : nat).
Context (interval_pos : 0 < interval) (room : (0 < M)%nat).
Local Abbreviation ensure := (ensureEnoughSpace itime new_info interval M).

(** The packets of an interval, and their bytes. *)
Definition within (t : Z) (ps : list PacketData) : list PacketData := List.filter (fun p => floor interval (timestamp p) =? t) ps.
Definition total (ps : list PacketData) : Z := fold_right (fun p a => payloadLength p + a) 0 ps.
Lemma total_app a b : total (a ++ b) = total a + total b.
Proof. induction a as [|p a IH]; [reflexivity|]. change (payloadLength p + total (a ++ b) = payloadLength p + total a + total b). lia. Qed.
Lemma packets_within_app t a b : within t (a ++ b) = (within t a ++ within t b)%list.
Proof. apply List.filter_app. Qed.
Lemma within_none t ps : (forall p, In p ps -> floor interval (timestamp p) < t) -> within t ps = [].
Proof.
  intros H. unfold within. induction ps as [|p ps IH]; [reflexivity|]. cbn. pose proof (H p (or_introl eq_refl)).
  rewrite (proj2 (Z.eqb_neq _ _)) by lia. apply IH. intros q Q. apply H. now right.
Qed.
Lemma floor_aligned t : (interval | floor interval t).
Proof. exists (t / interval). reflexivity. Qed.
Definition counts (seen : list PacketData) (i : TimeInfo) : Prop :=
  packetCount i = Z.of_nat (length (within (itime i) seen)) /\ cummulativePacketSize i = total (within (itime i) seen).
(** A list that counts the packets seen so far: intervals one after the other, at most [M],
    the last of which is not before any packet. *)
Record counted (seen : list PacketData) (l : list TimeInfo) : Prop := mkCounted {
  c_consecutive : consecutive itime interval l;
  c_room : (length l <= M)%nat;
  c_aligned : forall i, In i l -> (interval | itime i);
  c_counts : forall i, In i l -> counts seen i;
  c_seen : forall p, In p seen -> exists b, back l = Some b /\ floor interval (timestamp p) <= itime b }.
Lemma counted_nil : counted [] [].
Proof. split; cbn; try easy; lia. Qed.
Lemma ensure_counted seen l r : counted seen l -> (interval | r) ->
  exists p c, ensure l r = Some (p ++ [c])%list /\ counted seen (p ++ [c]) /\
    itime c = (match back l with Some b => Z.max (itime b) r | None => r end).
Proof.
  intros C D. destruct (ensure_last itime new_info interval M (fun t => eq_refl) interval_pos room l r (c_consecutive _ _ C)) as (p & c & old & n & E & Co & L & Tc & El & In').
  { intros x X. apply Z.divide_sub_r; [exact D|]. now apply (c_aligned _ _ C). }
  exists p, c. split; [exact E|]. split; [|exact Tc]. assert (Al : (interval | itime c)).
  { rewrite Tc. destruct (back l) as [b|] eqn:B; [|exact D]. destruct (back_Some l b B) as [q ->].
    destruct (Z.max_spec (itime b) r) as [[_ ->]|[_ ->]]; [exact D|]. apply (c_aligned _ _ C), in_or_app. right. now left. }
  split; auto.
  - intros i I. apply In_lookup in I as [k K]. destruct (lookup_lt_is_Some_2 (p ++ [c]) (length p)) as [c' C']; [rewrite List.length_app; cbn; lia|].
    pose proof (lookup_lt_Some _ _ _ K) as Lk. rewrite List.length_app in Lk. cbn in Lk.
    pose proof (consecutive_at itime interval (p ++ [c]) k (length p - k) i c Co K) as T. rewrite list_lookup_middle in T by lia. specialize (T eq_refl).
    replace (itime i) with (itime c - Z.of_nat (length p - k) * interval) by lia. apply Z.divide_sub_r; [exact Al|]. now exists (Z.of_nat (length p - k)).
  - intros i I. destruct (In' i I) as [O|[Fr La]].
    + apply (c_counts _ _ C). rewrite El. apply in_or_app. now right.
    + unfold counts. rewrite within_none; [rewrite Fr; now split|]. intros q Q. destruct (c_seen _ _ C q Q) as (b & B & Le). specialize (La b B). lia.
  - intros q Q. exists c. split; [apply back_app|]. destruct (c_seen _ _ C q Q) as (b & B & Le). rewrite B in Tc. lia.
Qed.
(** A packet that is not before the last interval. *)
Definition on_time (l : list TimeInfo) (p : PacketData) : Prop :=
  match back l with Some b => itime b <= floor interval (timestamp p) | None => True end.
Lemma add_packet_counted seen l p : counted seen l -> on_time l p ->
  exists l', add_packet interval M l p = Some l' /\ counted (seen ++ [p]) l' /\ option_map itime (back l') = Some (floor interval (timestamp p)).
Proof.
  intros C O. destruct (ensure_counted seen l _ C (floor_aligned (timestamp p))) as (q & c & E & Cq & Tc).
  assert (T : itime c = floor interval (timestamp p)) by (unfold on_time in O; destruct (back l); lia). clear Tc O.
  unfold add_packet. rewrite E. exists (q ++ [count_packet p c])%list.
  assert (B : on_back (count_packet p) (q ++ [c]) = (q ++ [count_packet p c])%list) by (unfold on_back; rewrite List.rev_app_distr; cbn; now rewrite List.rev_involutive).
  cbn [option_map]. rewrite B, back_app. split; [reflexivity|]. split; [|cbn; now rewrite T].
  assert (Before : forall k i, q !! k = Some i -> itime i < itime c).
  { intros k i K. pose proof (lookup_lt_Some _ _ _ K) as Lk.
    pose proof (consecutive_at itime interval (q ++ [c]) k (length q - k) i c (c_consecutive _ _ Cq) (lookup_app_l_Some _ _ _ _ K)) as At.
    rewrite list_lookup_middle in At by lia. specialize (At eq_refl). nia. }
  split.
  - intros k a b Ka Kb. assert (X : forall k a, (q ++ [count_packet p c]) !! k = Some a -> exists a', (q ++ [c]) !! k = Some a' /\ itime a' = itime a).
    { clear. intros k a Ka. apply lookup_app_Some in Ka as [Ka|[L Ka]]; [exists a; split; [now apply lookup_app_l_Some|reflexivity]|].
      apply list_lookup_singleton_Some in Ka as [K0 <-]. exists c. split; [|reflexivity]. replace k with (length q) by lia. now apply list_lookup_middle. }
    destruct (X k a Ka) as (a' & A' & <-). destruct (X (S k) b Kb) as (b' & B' & <-). exact (c_consecutive _ _ Cq k a' b' A' B').
  - pose proof (c_room _ _ Cq) as R. rewrite List.length_app in *. exact R.
  - intros i I. apply in_app_or in I as [I|[<-|[]]]; [|change (interval | itime c)]; apply (c_aligned _ _ Cq), in_or_app; [now left|right; now left].
  - intros i I. unfold counts. rewrite packets_within_app. apply in_app_or in I as [I|[<-|[]]].
    + destruct (In_lookup _ _ I) as [k K]. pose proof (Before k i K) as Lt. assert (within (itime i) [p] = []) as ->.
      { unfold within. cbn. now rewrite (proj2 (Z.eqb_neq _ _)) by lia. }
      rewrite app_nil_r. apply (c_counts _ _ Cq), in_or_app. now left.
    + destruct (c_counts _ _ Cq c) as [N S]; [apply in_or_app; right; now left|]. cbn [itime count_packet packetCount cummulativePacketSize].
      assert (within (itime c) [p] = [p]) as -> by (unfold within; cbn; now rewrite T, Z.eqb_refl).
      rewrite List.length_app, total_app, N, S. cbn. lia.
  - intros x X. rewrite back_app. eexists. split; [reflexivity|]. cbn. apply in_app_or in X as [X|[<-|[]]]; [|lia].
    destruct (c_seen _ _ Cq x X) as (b & Bb & Le). rewrite back_app in Bb. injection Bb as <-. exact Le.
Qed.
(** The packets in the order of their intervals, from a time on; the interval of the last. *)
Fixpoint in_order (t : Z) (data : list PacketData) : Prop :=
  match data with [] => True | p :: r => t <= floor interval (timestamp p) /\ in_order (floor interval (timestamp p)) r end.
Definition reached (t : Z) (data : list PacketData) : Z := fold_left (fun _ p => floor interval (timestamp p)) data t.
(** What the analyses see: packets in order, none from an interval before the one that the
    analysis before went up to. *)
Fixpoint orderly (t : Z) (batches : list (list PacketData * Z)) : Prop :=
  match batches with
  | [] => True
  | (data, now) :: r => in_order t data /\ orderly (Z.max (reached t data) (floor interval now - interval)) r
  end.
Fixpoint refreshes (l : list TimeInfo) (batches : list (list PacketData * Z)) : option (list TimeInfo) :=
  match batches with
  | [] => Some l
  | (data, now) :: r => match refresh_histogram interval M l data now with Some l => refreshes l r | None => None end
  end.
Definition up_to (t : Z) (l : list TimeInfo) : Prop := forall b, back l = Some b -> itime b <= t.
Lemma create_counted data : forall seen l t, counted seen l -> up_to t l -> in_order t data ->
  exists l', createHistogram interval M l data = Some l' /\ counted (seen ++ data) l' /\ up_to (reached t data) l'.
Proof.
  induction data as [|p data IH]; intros seen l t C U O; [exists l; now rewrite app_nil_r|].
  destruct O as [O R]. destruct (add_packet_counted seen l p C) as (l1 & E & C1 & B1).
  { unfold on_time. destruct (back l) as [b|] eqn:B; [|exact I]. specialize (U b B). lia. }
  destruct (IH _ _ (floor interval (timestamp p)) C1) as (l2 & E2 & C2 & U2); [|exact R|].
  { intros b B. rewrite B in B1. cbn in B1. injection B1 as ->. lia. }
  exists l2. cbn [createHistogram]. rewrite E. split; [exact E2|]. rewrite <- app_assoc in C2. split; [exact C2|].
  exact U2.
Qed.
Lemma refresh_counted seen l t data now : counted seen l -> up_to t l -> in_order t data ->
  exists l', refresh_histogram interval M l data now = Some l' /\ counted (seen ++ data) l' /\
    up_to (Z.max (reached t data) (floor interval now - interval)) l' /\ l' <> [].
Proof.
  intros C U O. destruct (create_counted data seen l t C U O) as (l1 & E & C1 & U1). unfold refresh_histogram. rewrite E.
  destruct (ensure_counted (seen ++ data) l1 (floor interval now - interval) C1) as (p & c & E2 & C2 & T2).
  { apply Z.divide_sub_r; [apply floor_aligned|apply Z.divide_refl]. }
  exists (p ++ [c])%list. split; [exact E2|]. split; [exact C2|]. split; [|now destruct p].
  intros b B. rewrite back_app in B. injection B as <-. rewrite T2. destruct (back l1) as [b|] eqn:B1; [specialize (U1 b B1); lia|lia].
Qed.
Lemma refreshes_counted bs : forall seen l t, counted seen l -> up_to t l -> orderly t bs ->
  exists l', refreshes l bs = Some l' /\ counted (seen ++ concat (List.map fst bs)) l'.
Proof.
  induction bs as [|[data now] bs IH]; intros seen l t C U O; [exists l; now rewrite app_nil_r|].
  destruct O as [O R]. destruct (refresh_counted seen l t data now C U O) as (l1 & E & C1 & U1 & _).
  destruct (IH _ _ _ C1 U1 R) as (l2 & E2 & C2). exists l2. cbn [refreshes List.map concat fst]. rewrite E. split; [exact E2|]. now rewrite app_assoc.
Qed.
(** The analyses end, and leave at most [M] intervals, one after the other, each with the
    number of the packets that were stamped in it and their bytes. *)
Theorem histogram_counts t bs : orderly t bs ->
  exists l, refreshes [] bs = Some l /\ (length l <= M)%nat /\ consecutive itime interval l /\
    forall i, In i l -> packetCount i = Z.of_nat (length (within (itime i) (concat (List.map fst bs)))) /\
                        cummulativePacketSize i = total (within (itime i) (concat (List.map fst bs))).
Proof.
  intros O. destruct (refreshes_counted bs [] [] t counted_nil) as (l & E & C); [now intros b|exact O|]. exists l. cbn in C.
  split; [exact E|]. split; [apply C|]. split; [apply C|]. intros i I. exact (c_counts _ _ C i I).
Qed.
End Histogram.
Definition demo_batches : list (list PacketData * Z) :=
  [([demo_packet (5 * seconds); demo_packet (5 * seconds + 7)], 6 * seconds + 1); ([], 8 * seconds); ([demo_packet (8 * seconds)], 9 * seconds)].
Definition demo_histogram : list TimeInfo := [mkInfo (6 * seconds) 0 0; mkInfo (7 * seconds) 0 0; mkInfo (8 * seconds) 1 3].
Lemma histogram_counts_witness :
  refreshes seconds 3 [] demo_batches = Some demo_histogram /\
  exists l, refreshes seconds 3 [] demo_batches = Some l /\ (length l <= 3)%nat /\ consecutive itime seconds l /\
    forall i, In i l -> packetCount i = Z.of_nat (length (within seconds (itime i) (concat (List.map fst demo_batches)))) /\
                        cummulativePacketSize i = total (within seconds (itime i) (concat (List.map fst demo_batches))).
Proof.
  split; [now vm_compute|]. apply (histogram_counts seconds 3) with (t := 0); [reflexivity|lia|].
  vm_compute. repeat split; discriminate.
Defined.
End StatisticsFacts.

(** *** What the dashboard shows *)
Module StatisticsDashboard.
Import Statistics StatisticsFacts WebUI.Overview NumFacts NumExact.

(** The time of the browser in seconds: whole, or between two seconds. *)
Definition floor_is (now : num) (q : Z) : Prop :=
  (safe q /\ now = Num.of_Z q) \/ forall z, safe z -> SFcompare (Num.of_Z z) now = Some (if z <=? q then Lt else Gt).
Lemma le_floor now q z : floor_is now q -> safe z -> Num.le (Num.of_Z z) now = (z <=? q).
Proof.
  intros [[Q ->]|F] Z; [now apply of_Z_le|]. unfold Num.le, SFleb. rewrite F by exact Z. now destruct (z <=? q).
Qed.
Lemma le_max_floor now q b z : floor_is now q -> safe b -> safe z -> Num.le (Num.of_Z z) (Num.max (Num.of_Z b) now) = (z <=? Z.max b q).
Proof.
  intros F B Sz. destruct F as [[Q ->]|F].
  - rewrite of_Z_max by assumption. apply of_Z_le; [assumption|]. destruct (Z.max_spec b q) as [[_ ->]|[_ ->]]; assumption.
  - pose proof (F b B) as E. unfold Num.max. rewrite E. destruct (Z.leb_spec b q) as [L|L].
    + rewrite (le_floor now q z) by (auto; now right). now rewrite Z.max_r by exact L.
    + rewrite of_Z_le by assumption. now rewrite Z.max_l by lia.
Qed.
(** The least and the greatest of the times. *)
Lemma min_of_Z zs : forall a, safe a -> Forall safe zs ->
  fold_left Num.min (List.map Num.of_Z zs) (Num.of_Z a) = Num.of_Z (fold_left Z.min zs a) /\ safe (fold_left Z.min zs a).
Proof.
  induction zs as [|z zs IH]; intros a A F; [now split|]. inversion F as [|? ? Z F']; subst. cbn [List.map fold_left].
  rewrite of_Z_min by assumption. apply IH; [|exact F']. destruct (Z.min_spec a z) as [[_ ->]|[_ ->]]; assumption.
Qed.
Lemma max_of_Z zs : forall a, safe a -> Forall safe zs ->
  fold_left Num.max (List.map Num.of_Z zs) (Num.of_Z a) = Num.of_Z (fold_left Z.max zs a) /\ safe (fold_left Z.max zs a).
Proof.
  induction zs as [|z zs IH]; intros a A F; [now split|]. inversion F as [|? ? Z F']; subst. cbn [List.map fold_left].
  rewrite of_Z_max by assumption. apply IH; [|exact F']. destruct (Z.max_spec a z) as [[_ ->]|[_ ->]]; assumption.
Qed.
Lemma finite_min_infinity z : safe z -> Num.min Num.infinity (Num.of_Z z) = Num.of_Z z /\ Num.max (Num.opp Num.infinity) (Num.of_Z z) = Num.of_Z z.
Proof. intros S. pose proof (is_finite_of_Z z S) as F. destruct (Num.of_Z z); try discriminate; now split. Qed.

Section Shown.
Variables (s a : Z) (count : nat -> Z).
Context (s_pos : 0 < s) (a_pos : 0 <= a).
Definition src (m : nat) : list (Z * Z) := List.map (fun k => (a + Z.of_nat k * s, count k)) (seq 0 m).
Definition value_at (m : nat) (k : nat) : num := if Nat.ltb k m then Num.of_Z (count k) else Num.of_Z 0.
Lemma find_from (st m k : nat) : (forall j, (j < st + m)%nat -> safe (a + Z.of_nat j * s)) -> safe (a + Z.of_nat k * s) -> (st <= k)%nat ->
  List.find (fun p => Num.eq (Num.of_Z (fst p)) (Num.of_Z (a + Z.of_nat k * s))) (List.map (fun k => (a + Z.of_nat k * s, count k)) (seq st m)) =
  if Nat.ltb k (st + m) then Some (a + Z.of_nat k * s, count k) else None.
Proof.
  revert st. induction m as [|m IH]; intros st Sf Sk L; [rewrite (proj2 (Nat.ltb_ge k (st + 0))) by lia; reflexivity|].
  cbn [seq List.map List.find fst]. rewrite of_Z_eq by (try exact Sk; apply Sf; lia).
  destruct (Nat.eq_dec st k) as [->|N].
  - rewrite Z.eqb_refl. destruct (Nat.ltb_spec k (k + S m)); [reflexivity|lia].
  - rewrite (proj2 (Z.eqb_neq _ _)) by nia. rewrite IH; [now replace (S st + m)%nat with (st + S m)%nat by lia| |exact Sk|lia].
    intros j J. apply Sf. lia.
Qed.
Lemma src_get_at m k : (forall j, (j < m)%nat -> safe (a + Z.of_nat j * s)) -> safe (a + Z.of_nat k * s) ->
  match src_get (src m) (Num.of_Z (a + Z.of_nat k * s)) with Some c => Num.of_Z c | None => Num.of_Z 0 end = value_at m k.
Proof.
  intros Sf Sk. unfold src_get, src. rewrite find_from by (auto; lia). unfold value_at. cbn [Nat.add]. now destruct (Nat.ltb k m).
Qed.
(** The loop over the times, up to [top]. *)
Lemma loop_shown m now top n : forall k fuel,
  (forall z, safe z -> Num.le (Num.of_Z z) now = (z <=? top)) -> (forall j, (j < m)%nat -> safe (a + Z.of_nat j * s)) ->
  top + s < 2 ^ 53 -> safe s -> n = Z.to_nat ((top - (a + Z.of_nat k * s)) / s + 1) -> (n < fuel)%nat -> a + Z.of_nat k * s <= top + s ->
  scatter_loop fuel (src m) (Num.of_Z (a + Z.of_nat k * s)) now (Num.of_Z s) =
    Some (List.map (fun j => (Num.of_Z (a + Z.of_nat j * s), value_at m j)) (seq k n)).
Proof.
  induction n as [|n IH]; intros k fuel Le Sf T Ss N F B; (destruct fuel as [|fuel]; [lia|]); cbn [scatter_loop].
  - assert (Sk : safe (a + Z.of_nat k * s)) by (unfold safe; lia). rewrite Le by exact Sk.
    assert (top < a + Z.of_nat k * s).
    { destruct (Z.lt_ge_cases top (a + Z.of_nat k * s)) as [L|L]; [exact L|]. assert (0 <= (top - (a + Z.of_nat k * s)) / s) by (apply Z.div_pos; lia). lia. }
    rewrite (proj2 (Z.leb_gt _ _)) by assumption. reflexivity.
  - assert (Sk : safe (a + Z.of_nat k * s)) by (unfold safe; lia). rewrite Le by exact Sk.
    assert (L : a + Z.of_nat k * s <= top).
    { destruct (Z.le_gt_cases (a + Z.of_nat k * s) top) as [L|L]; [exact L|]. assert ((top - (a + Z.of_nat k * s)) / s < 0) by (apply Z.div_lt_upper_bound; lia). lia. }
    rewrite (proj2 (Z.leb_le _ _)) by exact L.
    assert (E : a + Z.of_nat k * s + s = a + Z.of_nat (S k) * s) by lia.
    rewrite of_Z_add; [|exact Sk|exact Ss|unfold safe; nia]. rewrite E, (IH (S k) fuel); auto; [|..|lia].
    + cbn [seq List.map]. now rewrite src_get_at.
    + replace (top - (a + Z.of_nat (S k) * s)) with (top - (a + Z.of_nat k * s) + (-1) * s) by lia. rewrite Z.div_add by lia. lia.
    + lia.
Qed.
(** The fold over the times of the source. *)
Lemma times_bounds m : (0 < m)%nat -> (forall j, (j < m)%nat -> safe (a + Z.of_nat j * s)) ->
  let ks := List.map (fun p => Num.of_Z (fst p)) (src m) in
  fold_left Num.min ks Num.infinity = Num.of_Z a /\ fold_left Num.max ks (Num.opp Num.infinity) = Num.of_Z (a + Z.of_nat (pred m) * s).
Proof.
  intros P Sf ks. destruct m as [|m]; [lia|]. set (zs := List.map (fun k => a + Z.of_nat k * s) (seq 1 m)).
  assert (K : ks = Num.of_Z a :: List.map Num.of_Z zs).
  { unfold ks, src, zs. cbn [seq List.map fst]. rewrite !List.map_map. cbn [fst]. f_equal. f_equal. lia. }
  assert (Sa : safe a) by (specialize (Sf 0%nat); replace (a + Z.of_nat 0 * s) with a in Sf by lia; apply Sf; lia).
  assert (Fs : Forall safe zs) by (apply List.Forall_map, List.Forall_forall; intros k I; apply in_seq in I; apply Sf; lia).
  destruct (finite_min_infinity a Sa) as [I1 I2]. rewrite K. cbn [fold_left]. rewrite I1, I2.
  destruct (min_of_Z zs a Sa Fs) as [-> _], (max_of_Z zs a Sa Fs) as [-> _].
  assert (B : forall n st b c, (0 < st)%nat -> b <= a + Z.of_nat st * s -> c <= a + Z.of_nat st * s ->
    fold_left Z.min (List.map (fun k => a + Z.of_nat k * s) (seq st n)) b = b /\
    fold_left Z.max (List.map (fun k => a + Z.of_nat k * s) (seq st n)) c = match n with O => c | S n => a + Z.of_nat (st + n) * s end).
  { clear - s_pos. induction n as [|n IH]; intros st b c St Lb Lc; [now split|]. cbn [seq List.map fold_left].
    destruct (IH (S st) (Z.min b (a + Z.of_nat st * s)) (Z.max c (a + Z.of_nat st * s))) as [-> ->]; [lia|nia|nia|].
    split; [lia|]. destruct n; [rewrite Nat.add_0_r; lia|]. do 2 f_equal. lia. }
  destruct (B m 1%nat a a) as [B1 B2]; [lia|nia|nia|]. fold zs in B1, B2. rewrite B1, B2. split; [reflexivity|].
  destruct m; cbn [pred]; [f_equal; lia|reflexivity].
Qed.
(** The whole of [toScatterData] on such a source. *)
Lemma scatter_shown m now q fuel : (0 < m)%nat -> floor_is now q -> safe s ->
  let top := Z.max (a + Z.of_nat (pred m) * s) q in
  top + s < 2 ^ 53 -> let n := Z.to_nat ((top - a) / s + 1) in (n < fuel)%nat ->
  toScatterData fuel (src m) (Num.of_Z s) now =
    Some (mkScatter (List.map (fun k => (Num.of_Z (a + Z.of_nat k * s), value_at m k)) (seq 0 n)) (Num.of_Z a) (Num.max (Num.of_Z (a + Z.of_nat (pred m) * s)) now)).
Proof.
  intros P F Ss top T n Fu. assert (Sf : forall j, (j < m)%nat -> safe (a + Z.of_nat j * s)) by (intros j J; unfold safe; nia).
  destruct (times_bounds m P Sf) as [E1 E2]. unfold toScatterData. rewrite E1, E2.
  replace a with (a + Z.of_nat 0 * s) at 1 by lia. rewrite (loop_shown m _ top n 0 fuel); auto.
  - intros z Sz. apply le_max_floor; [exact F| |exact Sz]. apply Sf. lia.
  - unfold n. f_equal. f_equal. f_equal. lia.
  - nia.
Qed.
End Shown.
(** The histogram as the converter gives it. *)
Definition count_at (l : list TimeInfo) (k : nat) : Z := match l !! k with Some i => packetCount i | None => 0 end.
Lemma converted s l h : 0 < s -> consecutive itime (s * nanoseconds) l -> l !! 0%nat = Some h ->
  msg_counts (addHistogram l) = src s (itime h / nanoseconds) (count_at l) (pred (length l)).
Proof.
  intros P C H. unfold msg_counts, addHistogram, src. rewrite List.map_map, removelast_firstn_len. cbn [fst snd].
  apply list_eq. intros k. change (List.map ?f ?x) with (f <$> x). rewrite !list_lookup_fmap. destruct (Nat.lt_ge_cases k (pred (length l))) as [L|L].
  - rewrite lookup_take_lt by exact L. rewrite lookup_seq_lt by exact L. destruct (lookup_lt_is_Some_2 l k) as [i I]; [lia|].
    rewrite I. cbn. unfold count_at. rewrite I. f_equal. f_equal.
    rewrite (consecutive_at itime (s * nanoseconds) l 0 k h i C H I).
    replace (Z.of_nat k * (s * nanoseconds)) with (Z.of_nat k * s * nanoseconds) by lia. now rewrite Z.div_add by (unfold nanoseconds; lia).
  - rewrite lookup_take_ge by exact L. now rewrite lookup_seq_ge by exact L.
Qed.
(** C20: from the broker's analyses to the graph of the dashboard: for each kept interval but
    the last the point of its time has the number of packets stamped in it, and the points
    after those, up to the browser's time, have none. *)
Theorem histogram_shown s M t bs l h now q fuel : 0 < s -> safe s -> (0 < M)%nat -> orderly (s * nanoseconds) t bs ->
  refreshes (s * nanoseconds) M [] bs = Some l -> l !! 0%nat = Some h -> (2 <= length l)%nat -> 0 <= itime h -> floor_is now q ->
  let a := itime h / nanoseconds in let m := pred (length l) in
  let top := Z.max (a + Z.of_nat (pred m) * s) q in let n := Z.to_nat ((top - a) / s + 1) in
  top + s < 2 ^ 53 -> (n < fuel)%nat ->
  option_map values (toScatterData fuel (msg_counts (addHistogram l)) (Num.of_Z s) now) =
    Some (List.map (fun k => (Num.of_Z (a + Z.of_nat k * s),
                              Num.of_Z (if Nat.ltb k m then Z.of_nat (length (within (s * nanoseconds) (itime h + Z.of_nat k * (s * nanoseconds)) (concat (List.map fst bs)))) else 0)))
            (seq 0 n)).
Proof.
  intros P Ss Pm O R H L Nn F a m top n T Fu. assert (Pi : 0 < s * nanoseconds) by (unfold nanoseconds; lia).
  destruct (histogram_counts (s * nanoseconds) M Pi Pm t bs O) as (l' & R' & _ & C & Co). assert (l' = l) as -> by congruence.
  rewrite (converted s l h P C H). fold a m.
  rewrite (scatter_shown s a (count_at l) P ltac:(apply Z.div_pos; [exact Nn|reflexivity]) m now q fuel); [|unfold m; lia|exact F|exact Ss|exact T|exact Fu].
  cbn [option_map values]. f_equal. apply List.map_ext_in. intros k _. f_equal. unfold value_at. destruct (Nat.ltb_spec k m) as [K|K]; [|reflexivity].
  f_equal. unfold count_at. destruct (lookup_lt_is_Some_2 l k) as [i I]; [unfold m in K; lia|]. rewrite I.
  rewrite (proj1 (Co i ltac:(apply list_elem_of_In, list_elem_of_lookup; eauto))).
  now rewrite (consecutive_at itime (s * nanoseconds) l 0 k h i C H I).
Qed.
Lemma histogram_shown_witness :
  option_map values (toScatterData 10 (msg_counts (addHistogram demo_histogram)) (Num.of_Z 1) (Num.of_Z 9)) =
    Some (List.map (fun k => (Num.of_Z (6 + Z.of_nat k * 1),
                              Num.of_Z (if Nat.ltb k 2 then Z.of_nat (length (within (1 * nanoseconds) (6 * seconds + Z.of_nat k * (1 * nanoseconds)) (concat (List.map fst demo_batches)))) else 0)))
            (seq 0 4)).
Proof.
  apply (histogram_shown 1 3 0 demo_batches demo_histogram (mkInfo (6 * seconds) 0 0) (Num.of_Z 9) 9 10).
  - reflexivity.
  - reflexivity.
  - lia.
  - vm_compute. repeat split; discriminate.
  - reflexivity.
  - reflexivity.
  - apply Nat.leb_le. reflexivity.
  - apply Z.leb_le. reflexivity.
  - left. split; reflexivity.
  - reflexivity.
  - apply Nat.ltb_lt. reflexivity.
Defined.
(** A topic is dropped 65 minutes after the first of its minutes, although there were
    messages since: its later minutes are lost. *)
Example active_topic_erased :
  let first := add_topics 0 [] [demo_packet 0] in
  let later := match first with Some ts => add_topics (50 * minutes) ts [demo_packet (50 * minutes)] | None => None end in
  option_map (fun ts => List.map (fun e => length (snd e)) (erase_topics (65 * minutes) ts)) later = Some [51%nat] /\
  option_map (erase_topics (66 * minutes)) later = Some [].
Proof. now vm_compute. Qed.
End StatisticsDashboard.
