(* ===== verification/Rest.v ===== *)
(** The HTTP interface of the broker (src/src/REST.cpp): the handlers as functions from a
    request to what is asked of the application and what is answered, and the web sockets as
    a transition system over their subscribers, the application's queue and the deferred
    sends.  uWebSockets and the script engines are not in the repository: a handler is given
    the parts of the request it reads. *)
From Stdlib Require Import ZArith Lia Bool List Ascii String.
From stdpp Require Import base list strings.
From S2P Require Import Prelude.
Import ListNotations.
Local Open Scope string_scope.

(** ** The handlers *)
Module Handlers.
(** What is done with the response: [writeStatus], [writeHeader] and [end]. *)
Inductive action := Status (s : string) | Header (name value : string) | End (body : string).
Definition bad_request (why : string) : list action := [Status "400 Bad Request"; End why].
Definition server_error (what : string) : list action := [Status "500 Internal Server Error"; End what].
Inductive QoS := QoS0 | QoS1 | QoS2.

(** [post("/mqtt/*")].  [publish] gives the message of the exception it throws, if it does. *)
Record publication := mkPublication { topic : string; payload : string; qos : QoS; retain : bool }.
Definition parse_retain (s : string) : option bool :=
  if String.eqb s "" || String.eqb s "false" then Some false else if String.eqb s "true" then Some true else None.
Definition parse_qos (s : string) : option QoS :=
  if String.eqb s "" || String.eqb s "0" then Some QoS0
  else if String.eqb s "1" then Some QoS1 else if String.eqb s "2" then Some QoS2 else None.
Definition post_mqtt (publish : publication -> option string) (url retain payload qos : string) : option publication * list action :=
  let topic := substring 6 (String.length url - 6) url in
  if String.eqb topic "" then (None, bad_request "Invalid topic") else
  match parse_retain retain with
  | None => (None, bad_request "Invalid retain (true or false allowed)")
  | Some retain =>
      match parse_qos qos with
      | None => (None, bad_request "Invalid QoS (0, 1 or 2 allowed)")
      | Some qos =>
          let p := mkPublication topic payload qos retain in
          (Some p, match publish p with None => [End "ok"] | Some what => server_error what end)
      end
  end.

(** [put("/scripts/:script_name")]: the body comes in chunks, the last one marked; the script
    is added once, and its outcome answers.  [hasValidScriptExtension] is nioev/lib's. *)
Section Put.
Context (hasValidScriptExtension : string -> bool).
Fixpoint on_data (fullCode : string) (chunks : list (string * bool)) : option string :=
  match chunks with
  | [] => None
  | (data, last) :: r => if last then Some (fullCode ++ data) else on_data (fullCode ++ data) r
  end.
Definition put_script (name : string) (chunks : list (string * bool)) (error : option string) : option (string * string) * list action :=
  if negb (hasValidScriptExtension name) then (None, bad_request "Invalid script name") else
  match on_data "" chunks with
  | None => (None, [])
  | Some code => (Some (name, code), match error with None => [End "ok"] | Some e => server_error e end)
  end.
End Put.

(** The scripts as [getScriptsInfo] gives them: names, code and states. *)
Record script := mkScript { name : string; code : string; state : string }.
Definition get_scripts (l : list script) : list (string * (string * string)) := List.map (fun s => (name s, (name s, state s))) l.
(** The members of the answer; a name that is listed twice gives its members twice. *)
Definition get_script (l : list script) (n : string) : option (list (string * string)) :=
  match List.filter (fun s => String.eqb (name s) n) l with
  | [] => None
  | found => Some (List.concat (List.map (fun s => [("name", name s); ("code", code s); ("state", state s)]) found))
  end.
Definition get_script_answer (render : list (string * string) -> string) (l : list script) (n : string) : list action :=
  match get_script l n with None => [Status "404 Not Found"; End "Script not found"] | Some ms => [End (render ms)] end.
(** [activate], [deactivate] and [del]: a request to the application, which may throw. *)
Definition change_script (thrown : option string) : list action := match thrown with None => [End "ok"] | Some what => server_error what end.

(** [get("/*")]: a file of webui.  [open] is the file system, [extension] nioev/lib's. *)
Section File.
Context (open : string -> option string) (getFileExtension : string -> string).
Definition get_file (url : string) : list action :=
  let path := substring 1 (String.length url - 1) url in
  let redirect := if String.eqb path "" then [Status "301 Moved Permanently"; Header "Location" "index.html"; End ""] else [] in
  let full := "webui/" ++ path in
  (redirect ++ match open full with
   | None => [Status "404 Not Found"; End "Not found"]
   | Some contents =>
       let e := getFileExtension full in
       ((if String.eqb e ".js" then [Header "Content-Type" "application/javascript"]
         else if String.eqb e ".html" then [Header "Content-Type" "text/html"] else []) ++ [End contents])%list
   end)%list.
End File.
Definition ends (l : list action) : nat := length (List.filter (fun a => match a with End _ => true | _ => false end) l).
End Handlers.

(** ** Web sockets *)
Module WebSockets.
Section WebSockets.
(** [hasWildcard], and which topics a subscription matches. *)
Context (hasWildcard : string -> bool) (matches : string -> string -> bool).

(** A subscriber of a socket: it lives while the map of open sockets holds it; [mActive] is
    shared with the deferred sends and outlives it. *)
Record subscriber := mkSubscriber { alive : bool; active : bool; ws_topic : string; ws_open : bool }.
Inductive request := Subscribe (s : nat) (topic : string) | UnsubscribeFromAll (s : nat).
Record world := mkWorld {
  subscribers : list subscriber; queue : list request; subscriptions : list (nat * string);
  deferred : list (nat * string); sent : list (nat * string); published : list (string * string) }.
Definition start : world := mkWorld [] [] [] [] [] [].
(** What comes of a step: a world, or the use of a subscriber that was freed. *)
Inductive outcome := Fine (w : world) | UseAfterFree.
Definition is_alive (w : world) (s : nat) : bool := match subscribers w !! s with Some x => alive x | None => false end.
Definition open_socket (w : world) (topic : string) : world :=
  let s := length (subscribers w) in
  mkWorld (subscribers w ++ [mkSubscriber true true topic true])%list (queue w ++ [Subscribe s topic])%list (subscriptions w)
    (deferred w) (sent w) (published w).
(** A message of the client is published on its topic, unless that has a wildcard. *)
Definition message (w : world) (s : nat) (msg : string) : world :=
  match subscribers w !! s with
  | Some x => if ws_open x && negb (hasWildcard (ws_topic x)) then
                mkWorld (subscribers w) (queue w) (subscriptions w) (deferred w) (sent w) (published w ++ [(ws_topic x, msg)])%list
              else w
  | None => w
  end.
(** [close]: deactivated, the request queued (counted in the subscriber), and erased from the
    map, which frees it. *)
Definition close (w : world) (s : nat) : world :=
  match subscribers w !! s with
  | Some x => if ws_open x then
                mkWorld (<[s := mkSubscriber false false (ws_topic x) false]> (subscribers w)) (queue w ++ [UnsubscribeFromAll s])%list
                  (subscriptions w) (deferred w) (sent w) (published w)
              else w
  | None => w
  end.
(** The worker executes a request, then takes it off the subscriber's count.  A new
    subscription is sent the retained messages that it matches. *)
Definition work (w : world) (retained : list string) : outcome :=
  match queue w with
  | [] => Fine w
  | Subscribe s t :: r =>
      if is_alive w s then Fine (mkWorld (subscribers w) r (subscriptions w ++ [(s, t)])%list
                                (deferred w ++ List.map (fun p => (s, p)) retained)%list (sent w) (published w)) else UseAfterFree
  | UnsubscribeFromAll s :: r =>
      if is_alive w s then Fine (mkWorld (subscribers w) r (List.filter (fun e => negb (Nat.eqb s (fst e))) (subscriptions w)) (deferred w) (sent w) (published w))
      else UseAfterFree
  end.
(** The application publishes: each subscriber that matches defers a send. *)
Definition publish (w : world) (topic payload : string) : outcome :=
  let subs := List.filter (fun e => matches (snd e) topic) (subscriptions w) in
  if forallb (fun e => is_alive w (fst e)) subs then
    Fine (mkWorld (subscribers w) (queue w) (subscriptions w) (deferred w ++ List.map (fun e => (fst e, payload)) subs)%list (sent w) (published w))
  else UseAfterFree.
(** The loop runs a deferred send: not when the subscriber was deactivated. *)
Definition run_deferred (w : world) : world :=
  match deferred w with
  | [] => w
  | (s, p) :: r =>
      let ok := match subscribers w !! s with Some x => active x | None => false end in
      mkWorld (subscribers w) (queue w) (subscriptions w) r (if ok then sent w ++ [(s, p)] else sent w)%list (published w)
  end.
Inductive event := Open (topic : string) | Message (s : nat) (msg : string) | Close (s : nat) | Work (retained : list string) | Publish (topic payload : string) | Deferred.
Definition step (w : world) (e : event) : outcome :=
  match e with
  | Open t => Fine (open_socket w t)
  | Message s m => Fine (message w s m)
  | Close s => Fine (close w s)
  | Work retained => work w retained
  | Publish t p => publish w t p
  | Deferred => Fine (run_deferred w)
  end.
Fixpoint run (w : world) (es : list event) : outcome :=
  match es with
  | [] => Fine w
  | e :: r => match step w e with Fine w => run w r | UseAfterFree => UseAfterFree end
  end.
End WebSockets.
End WebSockets.

(** ** Facts *)
Module RestFacts.
Import Handlers.

(** A message is published exactly when there is a topic and the options are known; then the
    answer is ok unless publishing threw, otherwise the request was bad. *)
Theorem post_mqtt_spec publish url r p q :
  let topic := substring 6 (String.length url - 6) url in
  match parse_retain r, parse_qos q with
  | Some rt, Some qs => if String.eqb topic "" then post_mqtt publish url r p q = (None, bad_request "Invalid topic")
      else let m := mkPublication topic p qs rt in
           post_mqtt publish url r p q = (Some m, match publish m with None => [End "ok"] | Some what => server_error what end)
  | _, _ => fst (post_mqtt publish url r p q) = None /\ exists why, snd (post_mqtt publish url r p q) = bad_request why
  end.
Proof.
  intros topic. unfold post_mqtt. fold topic. destruct (parse_retain r), (parse_qos q), (String.eqb topic ""); cbn; eauto.
Qed.
(** The code of a script is the chunks of its body, joined. *)
Theorem put_script_joins valid n ds d e : valid n = true ->
  fst (put_script valid n (List.map (fun x => (x, false)) ds ++ [(d, true)]) e) = Some (n, String.concat "" ds ++ d).
Proof.
  intros V. assert (J : forall ds acc, on_data acc (List.map (fun x => (x, false)) ds ++ [(d, true)]) = Some (acc ++ String.concat "" ds ++ d)).
  { clear. assert (C : forall a l, String.concat "" (a :: l) = a ++ String.concat "" l).
    { intros a [|b l]; cbn; [|reflexivity]. induction a as [|x a IH]; [reflexivity|]. change (String x a = String x (a ++ "")). now f_equal. }
    assert (A : forall a b c, a ++ (b ++ c) = (a ++ b) ++ c) by (induction a as [|x a IH]; intros b c; [reflexivity|]; change (String x (a ++ (b ++ c)) = String x ((a ++ b) ++ c)); now rewrite IH).
    induction ds as [|x ds IH]; intros acc; [reflexivity|]. cbn [List.map app on_data]. rewrite IH, C. now rewrite <- !A. }
  unfold put_script. rewrite V. cbn [negb]. rewrite J. reflexivity.
Qed.
Lemma put_script_joins_witness :
  fst (put_script (fun _ => true) "a.js" (List.map (fun x => (x, false)) ["let "; "x "] ++ [("= 1", true)]) None) = Some ("a.js", String.concat "" ["let "; "x "] ++ "= 1").
Proof. apply (put_script_joins (fun _ => true) "a.js" ["let "; "x "] "= 1" None). reflexivity. Defined.
(** Every request is answered once, an upload when its last chunk is there; but the redirect
    of the empty path is followed by a second answer, which the file system decides. *)
Theorem answered_once publish url r p q valid n ds d e render l t open ext file :
  ends (snd (post_mqtt publish url r p q)) = 1%nat /\
  ends (snd (put_script valid n (List.map (fun x => (x, false)) ds ++ [(d, true)]) e)) = 1%nat /\
  ends (get_script_answer render l n) = 1%nat /\ ends (change_script t) = 1%nat /\
  ends (get_file open ext file) = if String.eqb (substring 1 (String.length file - 1) file) "" then 2%nat else 1%nat.
Proof.
  split_and!.
  - unfold post_mqtt. destruct (String.eqb _ _); [reflexivity|]. destruct (parse_retain r); [|reflexivity]. destruct (parse_qos q); [|reflexivity].
    cbn. now destruct (publish _).
  - unfold put_script. destruct (valid n) eqn:V; [|reflexivity]. cbn [negb]. pose proof (put_script_joins valid n ds d e V) as J.
    unfold put_script in J. rewrite V in J. cbn [negb] in J. destruct (on_data "" _); [|discriminate]. now destruct e.
  - unfold get_script_answer. now destruct (get_script l n).
  - now destruct t.
  - unfold get_file. destruct (String.eqb (substring 1 (String.length file - 1) file) ""); cbn [app]; unfold ends; cbn;
      (destruct (open _); [|reflexivity]; rewrite List.filter_app, List.length_app; destruct (String.eqb _ ".js"); [reflexivity|]; now destruct (String.eqb _ ".html")).
Qed.
(** A path is appended as it is: it can leave the directory. *)
Example path_leaves_directory : get_file (fun f => if String.eqb f "webui/../nioev.db" then Some "secret" else None) (fun _ => "") "/../nioev.db" = [End "secret"].
Proof. reflexivity. Qed.
End RestFacts.

Module WebSocketsFacts.
Import WebSockets.
Section Facts.
Context (hasWildcard : string -> bool) (matches : string -> string -> bool).
Local Abbreviation run := (WebSockets.run hasWildcard matches).
Local Abbreviation step := (WebSockets.step hasWildcard matches).

(** A subscriber lives, and is active, while its socket is open. *)
Definition tied (w : world) : Prop := forall s x, subscribers w !! s = Some x -> active x = ws_open x /\ alive x = ws_open x.
Lemma step_tied w e w' : tied w -> step w e = Fine w' -> tied w'.
Proof.
  intros T. destruct e as [t|s m|s|r|t p|]; cbn [WebSockets.step].
  - intros [= <-] s x K. cbn in K. apply lookup_app_Some in K as [K|[_ K]]; [exact (T s x K)|].
    apply list_lookup_singleton_Some in K as [_ <-]. now split.
  - intros [= <-]. unfold message. destruct (subscribers w !! s) as [x|]; [|exact T]. now destruct (_ && _).
  - intros [= <-]. unfold close. destruct (subscribers w !! s) as [x|] eqn:K; [|exact T]. destruct (ws_open x); [|exact T].
    intros j y J. cbn in J. destruct (decide (s = j)) as [<-|N].
    + rewrite list_lookup_insert_eq in J by (eapply lookup_lt_Some, K). injection J as <-. now split.
    + rewrite list_lookup_insert_ne in J by exact N. exact (T j y J).
  - unfold work. destruct (queue w) as [|[s t|s] q]; [now intros [= <-]| |]; destruct (is_alive w s); now intros [= <-].
  - unfold publish. destruct (forallb _ _); now intros [= <-].
  - intros [= <-]. unfold run_deferred. now destruct (deferred w) as [|[s p] r].
Qed.
Lemma run_tied es : forall w w', tied w -> run w es = Fine w' -> tied w'.
Proof.
  induction es as [|e es IH]; intros w w' T; [now intros [= <-]|]. cbn [WebSockets.run]. destruct (step w e) as [w1|] eqn:E; [|discriminate].
  apply IH. eapply step_tied; eassumption.
Qed.
(** Deferred sends go to open sockets only: whatever happened, the next one is dropped
    unless its socket is still open. *)
Theorem sends_to_open es w : run start es = Fine w ->
  sent (run_deferred w) = sent w \/
  exists s p x, sent (run_deferred w) = (sent w ++ [(s, p)])%list /\ subscribers w !! s = Some x /\ ws_open x = true.
Proof.
  intros R. assert (T : tied w) by (eapply run_tied; [|exact R]; intros s x K; cbn in K; now rewrite lookup_nil in K).
  unfold run_deferred. destruct (deferred w) as [|[s p] r]; [now left|]. cbn [sent].
  destruct (subscribers w !! s) as [x|] eqn:K; [|now left]. destruct (active x) eqn:A; [|now left].
  right. exists s, p, x. destruct (T s x K) as [E _]. split; [reflexivity|]. split; [exact K|]. congruence.
Qed.
(** But closing a socket always ends in the use of freed memory: the request to unsubscribe is
    only queued, the subscriber is freed at once, and the worker, when it comes to the
    request, counts it down in the subscriber that is gone, if nothing used it before. *)
Lemma dead_in_queue s q : forall w, queue w = q -> In (UnsubscribeFromAll s) q -> is_alive w s = false ->
  run w (repeat (Work []) (length q)) = UseAfterFree.
Proof.
  induction q as [|r q IH]; intros w Q I D; [destruct I|]. cbn [length repeat WebSockets.run WebSockets.step]. unfold work. rewrite Q.
  destruct I as [->|I]; [now rewrite D|]. destruct r as [j t|j]; (destruct (is_alive w j); [|reflexivity]); apply IH; auto.
Qed.
Theorem close_uses_freed es w s : run start es = Fine w -> (exists x, subscribers w !! s = Some x /\ ws_open x = true) ->
  run w (Close s :: repeat (Work []) (S (length (queue w)))) = UseAfterFree.
Proof.
  intros R (x & K & O). cbn [WebSockets.run WebSockets.step]. unfold close. rewrite K, O.
  match goal with |- WebSockets.run _ _ ?v _ = _ => set (w1 := v) end.
  replace (S (length (queue w))) with (length (queue w1)) by (unfold w1; cbn; rewrite List.length_app; cbn; lia).
  apply (dead_in_queue s); [reflexivity|apply in_or_app; right; now left|]. unfold is_alive, w1. cbn.
  now rewrite list_lookup_insert_eq by (eapply lookup_lt_Some, K).
Qed.
End Facts.
Definition demo_run : list event := [Open "a"; Work []; Publish "a" "1"; Deferred; Publish "a" "2"].
Definition demo_world : world := match run (fun _ => false) String.eqb start demo_run with Fine w => w | UseAfterFree => start end.
Lemma close_uses_freed_witness : run (fun _ => false) String.eqb demo_world (Close 0 :: repeat (Work []) (S (length (queue demo_world)))) = UseAfterFree.
Proof. apply (close_uses_freed (fun _ => false) String.eqb demo_run demo_world 0); [reflexivity|]. eexists. split; reflexivity. Defined.
Lemma sends_to_open_witness : sent (run_deferred demo_world) = sent demo_world \/
  exists s p x, sent (run_deferred demo_world) = (sent demo_world ++ [(s, p)])%list /\ subscribers demo_world !! s = Some x /\ ws_open x = true.
Proof. apply (sends_to_open (fun _ => false) String.eqb demo_run). reflexivity. Defined.
(** Before the worker comes to it, a publication on the topic uses the freed subscriber. *)
Example publish_after_close : run (fun _ => false) String.eqb demo_world [Close 0; Publish "a" "3"] = UseAfterFree.
Proof. reflexivity. Qed.
End WebSocketsFacts.
